(* ===== verification/_CoqProject ===== *)
-Q . S2P
Prelude.v
StyxWire.v
StyxTables.v
StyxServe.v
Cap.v
CapFacts.v
CapAuthority.v
CapCascade.v
CapHandles.v
TimerWheel.v
Eevdf.v
Fat32.v
Fat32Facts.v
Fat32Chains.v
Lfn.v
Fat32Dir.v
Fat32File.v
Fat32Vol.v
Fat32VolFacts.v
Fat32FileFacts.v
Heap.v
HeapFacts.v
HeapInv.v
HeapTheorems.v
Sha256.v
Sha256Facts.v
Attest.v
Txfs.v
TxfsTheorems.v
Inflate.v
InflateHuff.v
InflateSafe.v
InflateStream.v
Vmm.v
VmmAlloc.v
VmmTables.v
VmmMap.v
VmmFaults.v
VmmTheorems.v
Ahci.v
Swap.v
SwapTheorems.v
As.v
Dos.v
DosInt.v
DosStep.v
DosWf.v
DosCon.v
DosSafe.v
DosFault.v
DosRun.v
DosAlu.v
DosString.v
DosKeys.v
DosTheorems.v
DosFrame.v
Hive.v
HiveFacts.v
HiveTheorems.v
Spaces.v
SpacesFile.v
SpacesFacts.v
SpacesTheorems.v
Agi.v
AgiFacts.v
AgiTheorems.v
Zip.v
ZipTheorems.v
Gc.v
GcTheorems.v
NtSd.v
NtSdTheorems.v
NtCap.v
NtCapFacts.v
NtCapTheorems.v
Wm.v
WmTheorems.v
Term.v
TermTheorems.v
Txn.v
