(* ===== verification/Prelude.v ===== *)
(** * WuBuOS: a verification library

    WuBuOS is an operating system in C: a 64-bit kernel ([src/src/kernel]), a
    runtime hosted on it or on Linux ([src/src/runtime]), a HolyC compiler and a
    desktop ([src/src/gui]).  This library models the parts of the kernel, of the
    runtime and of the desktop that hold its own state and decide its own answers,
    and proves what they promise.
    Paths below are relative to [src/src].

    ** The parts and how they meet

    - The kernel heap hands out byte ranges; the page allocator hands out frames,
      which the page tables map; address spaces clone the kernel's top table; the
      page-fault handler tries demand-zero pages, then copy-on-write, then swap,
      and swap keeps its pages on a simulated AHCI disk.
    - FAT32 keeps files in chains of clusters over a block device, VFAT long names
      in its directories; the transactional layer journals file operations before
      they are applied.
    - SHA-256 measures firmware; attestation checks the loader's hand-off block and
      extends the runtime register.  The ZIP reader finds the members of an archive
      and DEFLATE unpacks them.
    - The timer wheel and the EEVDF run queue decide what runs when.
    - Authority is held in capabilities: tokens name registry objects, processes
      hold them in handle tables, revocation walks the derivation tree.  Windows
      programs name objects by NT handles, each backed by a capability slot; the
      reference monitor decides on security descriptors what a handle may do.
    - Files are served to processes over Styx (9P2000): a wire format, tables of
      fids, tags, flushes and locks, and a server with one handler per message.
    - DOS programs run in an 8086 interpreter with its own BIOS and INT 21h.
    - Objects that must not move live in hives, arrays with free slots; the
      compilation spaces of the runtime are registered in one and saved to a file.
    - Agents run speculatively: a transaction keeps a copy of a directory and
      buffers messages until it commits or is aborted.
    - Applets allocate from a collector whose roots are addresses they registered.
    - The window manager keeps windows in a stacking order, with focus, desktops
      and icons, and turns keys and pointer events into changes of them.
    - Programs print to terminals, which obey VT100 control sequences.
    - The self-improvement supervisor records spans in a ring; a verifier scores
      them, and each promotion extends the runtime register.

    ** Files

    - [Prelude]: machine integers, bytes, bit lemmas, memory, the tactics and the
      hint database [wubu].
    - Styx: [StyxWire] ([runtime/styx.h], [styx_enc.c], [styx_parse.c]),
      [StyxTables] ([styx_fid.c], [styx_tags.c], [styx_flush.c], [styx_locks.c],
      [styx_names.c]), [StyxServe] ([styx_serve.c]).
    - Capabilities ([runtime/wubu_cap]): [Cap] is the model, [CapFacts],
      [CapAuthority], [CapCascade], [CapHandles] the theorems.
    - Scheduling: [TimerWheel] ([kernel/timer_wheel.c]), [Eevdf]
      ([kernel/sched_eevdf.c]).
    - FAT32: [Fat32] ([kernel/fat32_fat.c], [fat32_cluster.c], [fat32_name.c]),
      [Lfn] ([wubu_lfn.c]), [Fat32Dir] ([fat32_dir.c]), [Fat32File]
      ([fat32_file.c]), [Fat32Vol] ([fat32_format.c]); theorems in [Fat32Facts],
      [Fat32Chains], [Fat32VolFacts], [Fat32FileFacts].
    - Heap: [Heap] ([kernel/memory.c]); [HeapFacts], [HeapInv], [HeapTheorems].
    - Measurement: [Sha256] ([kernel/wubu_sha256.c]), [Sha256Facts], [Attest]
      ([kernel/wubu_attest.c]).
    - Journal: [Txfs] ([kernel/txfs.c]); [TxfsTheorems].
    - Archives: [Inflate] ([kernel/wubu_inflate.c]); [InflateHuff],
      [InflateSafe], [InflateStream]; [Zip] ([kernel/wubu_zip.c]),
      [ZipTheorems].
    - Virtual memory: [Vmm] ([kernel/wubu_vmm.c], [wubu_memmap.c]); [VmmAlloc],
      [VmmTables], [VmmMap], [VmmFaults], [VmmTheorems]; [Ahci]
      ([kernel/ahci.c]); [Swap] ([kernel/wubu_swap.c],
      [interrupt_exceptions.c]), [SwapTheorems]; [As]
      ([kernel/wubu_as.c]).
    - 8086: [Dos] ([runtime/wubu_dos_emu_internal.h], [wubu_dos_emu_regs.c],
      [wubu_dos_emu_mem.c], [wubu_dos_emu_alu.c]), [DosInt]
      ([wubu_dos_emu_int.c]), [DosStep] ([wubu_dos_emu_decode.c],
      [wubu_dos_emu.c]), [DosFrame] (renderer, [wubu_dos_font.h]); [DosWf],
      [DosCon], [DosSafe], [DosFault], [DosRun], [DosAlu],
      [DosString], [DosKeys], [DosTheorems].
    - Hives: [Hive] ([kernel/wubu_hive.c]); [HiveFacts], [HiveTheorems].
    - Compilation spaces: [Spaces] ([runtime/wubu_runtime.c],
      [wubu_runtime_personalities.c]), [SpacesFile] (their file and their system
      calls); [SpacesFacts], [SpacesTheorems].
    - Supervisor: [Agi] ([kernel/wubu_agi_kernel.c], [wubu_verifier.c]);
      [AgiFacts], [AgiTheorems].
    - Transactions: [Txn] ([runtime/wubu_txn/wubu_txn.c]), model and theorems.
    - Collector: [Gc] ([runtime/wubu_gc.c]); [GcTheorems].
    - Windows security: [NtSd] ([runtime/wubu_nt_sd.c]), [NtSdTheorems]; [NtCap]
      ([runtime/vsl/vsl_nt_cap.c], the handle functions of [vsl_syscall_nt.c],
      NtDuplicateObject and NtClose), [NtCapFacts], [NtCapTheorems].
    - Window manager: [Wm] ([gui/dosgui_wm_window.c], [dosgui_wm_window_state.c],
      [dosgui_wm_icons.c], [dosgui_wm_input.c] and parts of [dosgui_wm_layout.c],
      [dosgui_wm_desktop.c], [dosgui_window_chrome.c]); [WmTheorems].
    - Terminal: [Term] ([gui/dosgui_term_ansi.c], the sizes of [dosgui_term_pty.c]);
      [TermTheorems].

    Definitions keep the names of the C functions; a handler of more than a screen
    is split into one definition per arm.  A C struct is a record, an array the
    list of its elements or, where it is sparse, a finite map; a pointer into an
    array is an index, and memory reached through raw addresses is a function from
    addresses to bytes.  Integers are [Z] with [wrap] or [swrap] written where C
    converts.  What leaves C's defined behaviour (a read or store outside its
    array) is a fault: [None], or the sum type of the component.

    ** Interfaces

    - [Fat32Facts.BlkDev]: what FAT32 relies on in a block device; a RAM disk is
      its instance.
    - [StyxServe]: the file-system callbacks are parameters, optional like the
      function pointers of [styx_server_t].
    - [Dos.Host]: the C library under the DOS shim (files, clock, allocator).
    - [HiveTheorems.Bag]: what a client relies on in a container of elements that
      stay in place; the hive is its instance, and the model of the spaces'
      registry and its theorems use only the interface.
    - [Spaces.Malloc], [SpacesFile.Native]: the allocator's choices and the host's
      calls under the compilation spaces.
    - [Txn.Shell], [Txn.ShellLaws]: the programs that copy and remove directories; a
      disk of named directories is the instance.
    - [AgiTheorems.Judge]: what the supervisor relies on in a verifier; the
      installed one is its instance.
    - [malloc] can fail: models that allocate take the list of coming outcomes.

    ** What the theorems show

    - Capabilities: derivation never amplifies rights; resolution grants exactly
      what the object allows, and a refusal leaves one record with the first check
      that failed; revocation is permanent and reaches exactly the descendants by
      parent indices (while the cascade's queue is not full, and no object with
      children or a live parent was destroyed); a handle table refines a finite map,
      and a closed token stays dead when its slot is reused.
    - Styx: encoders and parsers round-trip; no parser reads outside its buffer, and
      the server does exactly for a Twstat whose record is cut short; every reply is
      well formed and carries its request's tag.
    - FAT32: the write-behind cache refines a plain table, on devices whose failed
      reads leave the buffer alone; a file reads back what was written inside of the
      clusters it has, when nothing fails; unmounting and mounting keeps the table; long names round-trip.
    - Heap: a started heap satisfies the invariant, allocation hands out fresh,
      aligned, guarded blocks, freeing puts them at the head of their list, merged
      with a free block behind them.
    - Journal: it holds whole transactions; recovery completes an interrupted
      commit and stops at a damaged entry.
    - SHA-256 is the construction of FIPS 180-4 on any sequence of updates; a
      hand-off is trusted exactly when it is well formed.
    - DEFLATE: every stream of RFC 1951 decodes to the bytes it stands for, and
      every input at all gets an answer inside the buffers; every member of an
      archive of the plain layout (sizes in the headers, no ZIP64, below 4 GB) is found
      and read back.
    - Virtual memory: mapping refines a map from pages to frames as the processor
      walks it, where no large page is on the way; demand faults map zeroed pages; copy-on-write isolates; the
      allocator's books balance; a swapped page comes back with its bytes
      while its frame, the swap tables and the disk are left alone; an address space
      clones the kernel's.
    - Timers set for a later tick fire at it, those set for the current one 64 ticks
      late; no more than the caller's array holds are reported; the run queue picks the earliest eligible
      deadline.
    - 8086: addition, subtraction and logic set the flags of the processor's
      manual; CMP and a conditional jump decide the comparison the jump is named
      after; REP MOVSB copies its block; the text screen is a teletype; the
      keyboard ring is a queue of 63 keys; a loaded program is what memory holds;
      INT 21h/09h shows its string; any machine stays well formed, and when an
      instruction makes the C code undefined it has one of the listed causes; a
      run ends within its cap of steps.
    - A hive refines a map from positions to elements, and iterating visits each
      element once; a registry of spaces evicts exactly its oldest when full, and a
      saved one loads back as it was.
    - The supervisor's ring is a queue of the last 256 spans; a cycle promotes
      exactly what the verifier passes, once, and the runtime register is the hash
      chain of the promotions.
    - An aborted transaction leaves its directory as it was; the buffer of messages
      is a queue, committing is final, nesting is a stack.
    - A collection keeps exactly the rooted and pinned objects, when no root lies
      below the newest object, and keeps the books.
    - NT handles: an access check decides as the rules over the entries of the
      list say; a duplicate authorises exactly what its source does within the mask
      asked for; a revocation reaches every duplicate for good and each handle owns
      its capability slot, as long as no slot is released under a bound handle.
    - Windows: the stacking order lists the live windows, in every session up to the
      one step that leaves the arrays (a modal window with a parent as the 32nd); a press
      raises the uppermost window under the pointer; Alt+Tab visits all; a
      maximized window and a saved icon layout come back as they were.
    - Terminal: in sessions with sizes of at most 240 by 100 that keep the saved cursor
      inside, no output without a number of ten digits leaves the arrays; a
      picture painted row by row appears as it was printed.

    Theorems named after a defect (in [HeapTheorems], [SwapTheorems],
    [DosTheorems], [SpacesTheorems], [AgiTheorems], [ZipTheorems], [GcTheorems],
    [NtSdTheorems], [NtCapTheorems], [WmTheorems], [TermTheorems], [Txn] and
    elsewhere) evaluate the model where the code departs from what it means to do.

    ** Fuel

    Walks of linked structures in memory (heap lists, cluster chains) take fuel,
    one unit per node, and are [None] without enough: the theorems say that fuel
    for the nodes the invariant lists gives the result.  [Inflate.block_fuel] is
    one unit per byte of room left, since a literal or a match writes at least one,
    and its sufficiency is part of [InflateSafe].  [DosStep.REP_FUEL] and
    [DosStep.PREFIX_FUEL] are 65536: CX is a 16-bit counter, and a run of prefixes as
    long as that has wrapped around the code segment without an opcode, where the
    C loop does not end either; running out is the fault [FLoop].  [Hive.visit_fuel]
    is the number of slots, and [HiveTheorems] shows it is enough.  The search for the
    end record of an archive has one unit per offset.  The run loop has
    one round per step of its cap and one more.  Programs that run programs (INT
    21h/4Bh) nest to a depth that is an argument; deeper nesting is the fault
    [FDepth].

    ** Not modelled

    Locks and interrupts inside an operation (each call is one step), cached
    address translations, printing.  Context switching and start-up are assembly
    and device registers; drivers do what hardware decides; the compiler emits
    machine code; drawing, menus and applications, containers, most foreign system
    calls and sockets act on a host; the neural policies, audio and world simulation are floating point.
    The cabinet and LZX decoders, the other file systems, the remaining
    interpreters and the snapshots of the runtime are self-contained and
    left for an extension. *)

From stdpp Require Export base list option numbers strings sets.
From Stdlib Require Export ZArith Lia.
Open Scope Z_scope.

Create HintDb wubu discriminated.

(** ** Machine integers

    A C unsigned integer of width [w] is a [Z] in [0, 2^w); a cast to it is
    [wrap w].  A cast to a signed integer of width [w] is [swrap w]. *)
Definition wrap (w x : Z) : Z := x mod 2 ^ w.
Definition swrap (w x : Z) : Z :=
  let y := x mod 2 ^ w in if y <? 2 ^ (w - 1) then y else y - 2 ^ w.

Abbreviation u8 := (wrap 8).
Abbreviation u16 := (wrap 16).
Abbreviation u32 := (wrap 32).
Abbreviation u64 := (wrap 64).
Abbreviation s8 := (swrap 8).
Abbreviation s16 := (swrap 16).
Abbreviation s32 := (swrap 32).
Abbreviation s64 := (swrap 64).

Definition fits (w x : Z) : Prop := 0 <= x < 2 ^ w.
Abbreviation is_byte := (fits 8).
Definition sfits (w x : Z) : Prop := - 2 ^ (w - 1) <= x < 2 ^ (w - 1).

#[global] Instance fits_dec w x : Decision (fits w x).
Proof. unfold fits. apply _. Defined.
#[global] Instance sfits_dec w x : Decision (sfits w x).
Proof. unfold sfits. apply _. Defined.

(** C's truth value of a comparison. *)
Definition b2z (b : bool) : Z := if b then 1 else 0.

Lemma wrap_fits w x : 0 <= w -> fits w (wrap w x).
Proof. intros. apply Z.mod_pos_bound, Z.pow_pos_nonneg; lia. Qed.

Lemma wrap_id w x : fits w x -> wrap w x = x.
Proof. apply Z.mod_small. Qed.

Lemma wrap_idemp w x : 0 <= w -> wrap w (wrap w x) = wrap w x.
Proof. intros. by apply wrap_id, wrap_fits. Qed.

Lemma swrap_id w x : 0 < w -> sfits w x -> swrap w x = x.
Proof.
  intros Hw [Hl Hu]. unfold swrap.
  assert (2 ^ w = 2 * 2 ^ (w - 1)) as E.
  { rewrite <- Z.pow_succ_r by lia. f_equal. lia. }
  destruct (Z_lt_le_dec x 0).
  - rewrite <- (Z.mod_add _ 1), Z.mod_small by lia.
    destruct (Z.ltb_spec (x + 1 * 2 ^ w) (2 ^ (w - 1))); lia.
  - rewrite Z.mod_small by lia. destruct (Z.ltb_spec x (2 ^ (w - 1))); lia.
Qed.

Lemma swrap_sfits w x : 0 < w -> sfits w (swrap w x).
Proof.
  intros Hw. unfold sfits, swrap.
  assert (2 ^ w = 2 * 2 ^ (w - 1)) as E.
  { rewrite <- Z.pow_succ_r by lia. f_equal. lia. }
  assert (0 < 2 ^ (w - 1)) by (apply Z.pow_pos_nonneg; lia).
  pose proof (Z.mod_pos_bound x (2 ^ w) ltac:(lia)).
  destruct (Z.ltb_spec (x mod 2 ^ w) (2 ^ (w - 1))); lia.
Qed.

(** [fits] at a literal width, as inequalities [lia] can use. *)
Ltac unfold_fits :=
  unfold fits, sfits in *;
  change (2 ^ 8) with 256 in *; change (2 ^ 16) with 65536 in *;
  change (2 ^ 32) with 4294967296 in *;
  change (2 ^ 64) with 18446744073709551616 in *;
  change (2 ^ (32 - 1)) with 2147483648 in *;
  change (2 ^ (64 - 1)) with 9223372036854775808 in *.

(** ** Little-endian byte strings *)
Fixpoint le_enc (n : nat) (v : Z) : list Z :=
  match n with O => [] | S n => u8 v :: le_enc n (v / 256) end.
Fixpoint le_dec (bs : list Z) : Z :=
  match bs with [] => 0 | b :: bs => b + 256 * le_dec bs end.

Lemma length_le_enc n v : length (le_enc n v) = n.
Proof. revert v; induction n; simpl; auto. Qed.

Lemma le_enc_bytes n v : Forall is_byte (le_enc n v).
Proof.
  revert v; induction n; intros v; simpl; constructor; auto.
  by apply wrap_fits.
Qed.

Lemma le_dec_enc n v : le_dec (le_enc n v) = wrap (8 * Z.of_nat n) v.
Proof.
  unfold wrap. revert v; induction n; intros v; cbn [le_enc le_dec].
  - by rewrite Z.mod_1_r.
  - rewrite IHn. unfold wrap.
    replace (8 * Z.of_nat (S n)) with (8 + 8 * Z.of_nat n) by lia.
    rewrite Z.pow_add_r by lia. change (2 ^ 8) with 256.
    rewrite Z.rem_mul_r; [lia|lia|].
    apply Z.pow_pos_nonneg; lia.
Qed.

Lemma le_dec_bound bs : Forall is_byte bs -> fits (8 * Z.of_nat (length bs)) (le_dec bs).
Proof.
  induction 1 as [|b bs Hb _ IH]; unfold_fits; cbn [le_dec length]; [lia|].
  replace (8 * Z.of_nat (S (length bs))) with (8 + 8 * Z.of_nat (length bs)) by lia.
  rewrite Z.pow_add_r by lia. change (2 ^ 8) with 256. lia.
Qed.

Lemma le_dec_app a b :
  le_dec (a ++ b) = le_dec a + 2 ^ (8 * Z.of_nat (length a)) * le_dec b.
Proof.
  induction a as [|x a IH]; cbn [app le_dec length]; [by rewrite Z.mul_1_l|].
  rewrite IH. replace (8 * Z.of_nat (S (length a))) with (8 + 8 * Z.of_nat (length a)) by lia.
  rewrite Z.pow_add_r by lia. change (2 ^ 8) with 256. lia.
Qed.

(** Joining two bit fields that do not overlap is addition. *)
Lemma lor_shiftl_add a b k :
  0 <= k -> fits k a -> Z.lor a (Z.shiftl b k) = a + b * 2 ^ k.
Proof.
  intros Hk Ha. rewrite <- Z.shiftl_mul_pow2 by lia.
  rewrite <- Z.add_lor_land.
  cut (Z.land a (Z.shiftl b k) = 0); [lia|].
  rewrite <- (wrap_id k a Ha). unfold wrap.
  apply Z.bits_inj'; intros n Hn.
  rewrite Z.land_spec, Z.bits_0, Z.testbit_mod_pow2, Z.shiftl_spec by lia.
  destruct (Z.ltb_spec n k); [|done].
  rewrite (Z.testbit_neg_r b) by lia. apply andb_false_r.
Qed.

(** Turning the source's shifts and masks into [/] and [mod]. *)
Lemma shiftr8 v : Z.shiftr v 8 = v / 256.
Proof. by rewrite Z.shiftr_div_pow2. Qed.
Lemma land_255 v : Z.land v 255 = u8 v.
Proof. exact (Z.land_ones v 8 ltac:(lia)). Qed.
Lemma shiftr_shiftr8 v k : 0 <= k -> Z.shiftr v (k + 8) = Z.shiftr v k / 256.
Proof. intros. rewrite <- Z.shiftr_shiftr by lia. apply shiftr8. Qed.

(** ** Reading memory

    A readable region is the list of its bytes; a read outside it is [None],
    the fault a C program would run into.  Offsets are indices into it. *)
Definition rd (m : list Z) (off : nat) : option Z := m !! off.

Definition slice (m : list Z) (off n : nat) : list Z := take n (drop off m).

(** [memcpy (dst, m + off, n)]: the bytes copied, [None] if [m] is too short. *)
Definition rd_bytes (m : list Z) (off n : nat) : option (list Z) :=
  if decide (off + n <= length m)%nat then Some (slice m off n) else None.

Lemma length_slice m off n :
  (off + n <= length m)%nat -> length (slice m off n) = n.
Proof. intros. unfold slice. rewrite length_take, length_drop. lia. Qed.

Lemma slice_app pre x post n :
  length x = n -> slice (pre ++ x ++ post) (length pre) n = x.
Proof. intros <-. unfold slice. by rewrite drop_app_length, take_app_length. Qed.

Lemma slice_bytes m off n : Forall is_byte m -> Forall is_byte (slice m off n).
Proof. intros. by apply Forall_take, Forall_drop. Qed.

Lemma rd_bytes_app pre x post n :
  length x = n -> rd_bytes (pre ++ x ++ post) (length pre) n = Some x.
Proof.
  intros E. unfold rd_bytes. rewrite slice_app by done.
  rewrite decide_True; [done|]. rewrite !length_app. lia.
Qed.

Lemma rd_bytes_Some m off n bs :
  rd_bytes m off n = Some bs <-> (off + n <= length m)%nat /\ bs = slice m off n.
Proof. unfold rd_bytes. case_decide; naive_solver. Qed.

Lemma rd_app pre b post : rd (pre ++ b :: post) (length pre) = Some b.
Proof. unfold rd. by rewrite list_lookup_middle. Qed.

Lemma slice_lookup m off n i :
  (i < n)%nat -> slice m off n !! i = m !! (off + i)%nat.
Proof. intros. unfold slice. by rewrite lookup_take_lt, lookup_drop by done. Qed.

(** ** C strings

    The contents of a [char] array up to its first NUL byte. *)
Fixpoint cstr (l : list Z) : list Z :=
  match l with
  | [] => []
  | c :: l => if c =? 0 then [] else c :: cstr l
  end.

Definition is_cstr (s : list Z) : Prop := Forall (fun c => 0 < c < 256) s.
#[global] Instance is_cstr_dec s : Decision (is_cstr s).
Proof. unfold is_cstr. apply _. Defined.

Lemma cstr_id s : is_cstr s -> cstr s = s.
Proof.
  induction 1 as [|c s Hc _ IH]; simpl; [done|].
  destruct (Z.eqb_spec c 0); [lia|]. by rewrite IH.
Qed.

Lemma cstr_is_cstr l : Forall is_byte l -> is_cstr (cstr l).
Proof.
  induction 1 as [|c l Hc _ IH]; simpl; [constructor|].
  destruct (Z.eqb_spec c 0); [constructor|]. constructor; [unfold_fits; lia|done].
Qed.

Lemma cstr_cstr l : cstr (cstr l) = cstr l.
Proof.
  induction l as [|c l IH]; simpl; [done|].
  destruct (Z.eqb_spec c 0) as [|Hc]; simpl; [done|].
  destruct (Z.eqb_spec c 0); [done|]. by rewrite IH.
Qed.

(** The bytes of a string literal. *)
Fixpoint str (s : string) : list Z :=
  match s with
  | String.EmptyString => []
  | String.String a s => Z.of_N (Ascii.N_of_ascii a) :: str s
  end.

(** [strcmp (a, b) == 0] and [strncmp (a, b, n) == 0] on C strings. *)
Definition strcmp_eq (a b : list Z) : bool := bool_decide (cstr a = cstr b).
Definition strncmp_eq (a b : list Z) (n : nat) : bool :=
  bool_decide (take n (cstr a) = take n (cstr b)).

(** ** Finding the first element of an array that satisfies a test

    The loops [for (i = 0; i < N; i++) if (p (a[i])) return ...] of the C
    code. *)
Fixpoint find_from {A} (p : A -> bool) (l : list A) (i : nat) : option nat :=
  match l with
  | [] => None
  | x :: l => if p x then Some i else find_from p l (S i)
  end.
Definition find_idx {A} (p : A -> bool) (l : list A) : option nat := find_from p l 0.

Section find.
Context {A : Type} (p : A -> bool).

Lemma find_from_Some l i k :
  find_from p l i = Some k <->
  exists j x, k = (i + j)%nat /\ l !! j = Some x /\ p x = true /\
    forall j' y, (j' < j)%nat -> l !! j' = Some y -> p y = false.
Proof.
  revert i; induction l as [|a l IH]; intros i; simpl.
  { split; [done|]. intros (j & x & _ & H & _). by rewrite lookup_nil in H. }
  destruct (p a) eqn:Ea.
  - split.
    + intros [= <-]. exists 0%nat, a. split_and!; [lia|done|done|lia].
    + intros (j & x & -> & Hx & Hp & Hmin). destruct j; [by rewrite Nat.add_0_r|].
      specialize (Hmin 0%nat a ltac:(lia) eq_refl). congruence.
  - rewrite IH. split.
    + intros (j & x & -> & Hx & Hp & Hmin). exists (S j), x.
      split_and!; [lia|done|done|].
      intros [|j'] y Hj Hy; simpl in Hy; [congruence|]. eapply Hmin; [|done]. lia.
    + intros (j & x & -> & Hx & Hp & Hmin). destruct j as [|j]; simpl in Hx; [congruence|].
      exists j, x. split_and!; [lia|done|done|].
      intros j' y Hj Hy. apply (Hmin (S j') y); [lia|done].
Qed.

Lemma find_idx_Some l k :
  find_idx p l = Some k <->
  exists x, l !! k = Some x /\ p x = true /\
    forall j y, (j < k)%nat -> l !! j = Some y -> p y = false.
Proof.
  unfold find_idx. rewrite find_from_Some. split.
  - intros (j & x & -> & ?). eauto.
  - intros (x & ?). by exists k, x.
Qed.

Lemma find_idx_None l :
  find_idx p l = None <-> forall j x, l !! j = Some x -> p x = false.
Proof.
  unfold find_idx. generalize 0%nat as i.
  induction l as [|a l IH]; intros i; simpl.
  { split; [|done]. intros _ j x H. by rewrite lookup_nil in H. }
  destruct (p a) eqn:Ea.
  - split; [done|]. intros H. specialize (H 0%nat a eq_refl). congruence.
  - rewrite IH. split; intros H.
    + intros [|j] x Hx; simpl in Hx; [congruence|eauto].
    + intros j x Hx. apply (H (S j) x Hx).
Qed.

Lemma find_idx_lt l k : find_idx p l = Some k -> (k < length l)%nat.
Proof. intros (x & Hx & _)%find_idx_Some. by eapply lookup_lt_Some. Qed.

Lemma find_idx_unique l k x :
  l !! k = Some x -> p x = true ->
  (forall j y, l !! j = Some y -> p y = true -> j = k) ->
  find_idx p l = Some k.
Proof.
  intros Hx Hp Hu. apply find_idx_Some. exists x. split_and!; [done..|].
  intros j y Hj Hy. destruct (p y) eqn:E; [|done].
  specialize (Hu j y Hy E). lia.
Qed.
End find.

(** How many entries of an array satisfy a test. *)
Fixpoint count {A} (p : A -> bool) (l : list A) : nat :=
  match l with [] => 0%nat | x :: l => ((if p x then 1 else 0) + count p l)%nat end.

Lemma count_le {A} (p : A -> bool) l : (count p l <= length l)%nat.
Proof. induction l as [|a l IH]; simpl; [lia|]. destruct (p a); lia. Qed.

Lemma count_all {A} (p : A -> bool) l : (forall x, x ∈ l -> p x = true) -> count p l = length l.
Proof.
  induction l as [|a l IH]; simpl; intros H; [done|].
  rewrite H by set_solver. rewrite IH; [done|]. set_solver.
Qed.

Lemma count_insert {A} (p : A -> bool) l i x y :
  l !! i = Some x ->
  (count p (<[i:=y]> l) + (if p x then 1 else 0) = count p l + (if p y then 1 else 0))%nat.
Proof.
  revert i; induction l as [|a l IH]; intros [|i] Hx; simplify_eq/=.
  - destruct (p x), (p y); lia.
  - specialize (IH i Hx). destruct (p a), (p x), (p y); lia.
Qed.

Lemma alter_insert {A} (f : A -> A) (l : list A) i x :
  l !! i = Some x -> alter f i l = <[i := f x]> l.
Proof.
  revert i; induction l as [|a l IH]; intros [|i] Hx; simplify_eq/=; [done|].
  f_equal. by apply IH.
Qed.

(** Case analysis on the boolean comparisons of the source. *)
Ltac bcase :=
  match goal with
  | |- context [Z.eqb ?a ?b] => destruct (Z.eqb_spec a b)
  | |- context [Z.ltb ?a ?b] => destruct (Z.ltb_spec a b)
  | |- context [Z.leb ?a ?b] => destruct (Z.leb_spec a b)
  | |- context [Z.gtb ?a ?b] => rewrite (Z.gtb_ltb a b)
  | |- context [Z.geb ?a ?b] => rewrite (Z.geb_leb a b)
  end.
Ltac bcase_in H :=
  match type of H with
  | context [Z.eqb ?a ?b] => destruct (Z.eqb_spec a b)
  | context [Z.ltb ?a ?b] => destruct (Z.ltb_spec a b)
  | context [Z.leb ?a ?b] => destruct (Z.leb_spec a b)
  end.

#[export] Hint Resolve wrap_fits le_enc_bytes slice_bytes : wubu.
#[export] Hint Extern 2 (0 <= _) => lia : wubu.
