(* ===== verification/StyxWire.v ===== *)
(** * Styx/9P2000 wire format

    The little-endian packers, the client request encoders of
    [runtime/styx_enc.c], the client parsers of [runtime/styx_parse.c] and the
    response builders of [runtime/styx_serve.c].

    A message buffer is the list of its bytes.  A builder fills [buf] from
    offset 7 on and writes the 7-byte header last, so what it leaves in
    [buf[0 .. *len)] is the header followed by the fields in order; that list
    is its result.  A parser reads a region of memory [buf] that holds at least
    the [len] bytes the caller announces ([buf = None] is a NULL pointer);
    [None] is a read outside the region, [Some (inl rc)] the source's early
    return and [Some (inr out)] success with the output parameters, which are
    results here, so the checks that their pointers are not NULL do not appear. *)

From S2P Require Import Prelude.
Open Scope Z_scope.

Definition STYX_MAX_MSG : Z := 64 * 1024.
Definition STYX_MAX_FNAME : Z := 256.
Definition STYX_MAX_WRITE : Z := 8 * 1024.
Definition STYX_MAX_DATA : Z := 8 * 1024.

Definition STX_TVERSION : Z := 100.
Definition STX_TAUTH : Z := 102.
Definition STX_TATTACH : Z := 104.
Definition STX_TFLUSH : Z := 108.
Definition STX_TWALK : Z := 110.
Definition STX_TOPEN : Z := 112.
Definition STX_TCREATE : Z := 114.
Definition STX_TREAD : Z := 116.
Definition STX_TWRITE : Z := 118.
Definition STX_TCLUNK : Z := 120.
Definition STX_TREMOVE : Z := 122.
Definition STX_TSTAT : Z := 124.
Definition STX_TWSTAT : Z := 126.
Definition STX_RVERSION : Z := 101.
Definition STX_RAUTH : Z := 103.
Definition STX_RATTACH : Z := 105.
Definition STX_RERROR : Z := 107.
Definition STX_RFLUSH : Z := 109.
Definition STX_RWALK : Z := 111.
Definition STX_ROPEN : Z := 113.
Definition STX_RCREATE : Z := 115.
Definition STX_RREAD : Z := 117.
Definition STX_RWRITE : Z := 119.
Definition STX_RCLUNK : Z := 121.
Definition STX_RREMOVE : Z := 123.
Definition STX_RSTAT : Z := 125.
Definition STX_RWSTAT : Z := 127.

(** ** Packing integers and strings *)

Definition styx_put16 (val : Z) : list Z :=
  [u8 (Z.land val 255); u8 (Z.land (Z.shiftr val 8) 255)].
Definition styx_get16 (m : list Z) (off : nat) : option Z :=
  b0 ← rd m off; b1 ← rd m (off + 1);
  Some (u16 (Z.lor b0 (Z.shiftl b1 8))).

Definition styx_put32 (val : Z) : list Z :=
  [u8 (Z.land val 255); u8 (Z.land (Z.shiftr val 8) 255);
   u8 (Z.land (Z.shiftr val 16) 255); u8 (Z.land (Z.shiftr val 24) 255)].
Definition styx_get32 (m : list Z) (off : nat) : option Z :=
  b0 ← rd m off; b1 ← rd m (off + 1); b2 ← rd m (off + 2); b3 ← rd m (off + 3);
  Some (Z.lor (Z.lor (Z.lor b0 (u32 (Z.shiftl b1 8))) (u32 (Z.shiftl b2 16)))
              (u32 (Z.shiftl b3 24))).

(** The loop of [styx_put64]: [n] more bytes of [val], lowest first. *)
Fixpoint put64_loop (n : nat) (val : Z) : list Z :=
  match n with
  | O => []
  | S n => u8 (Z.land val 255) :: put64_loop n (Z.shiftr val 8)
  end.
Definition styx_put64 (val : Z) : list Z := put64_loop 8 val.

(** The loop of [styx_get64]: [i] counts down from 7 to 0. *)
Fixpoint get64_loop (m : list Z) (off i : nat) (val : Z) : option Z :=
  b ← rd m (off + i);
  let val := Z.lor (u64 (Z.shiftl val 8)) b in
  match i with O => Some val | S i => get64_loop m off i val end.
Definition styx_get64 (m : list Z) (off : nat) : option Z := get64_loop m off 7 0.

(** [s = None] is a NULL pointer. *)
Definition styx_putstr (s : option (list Z)) : list Z :=
  let s := default [] s in
  let n := u16 (Z.of_nat (length s)) in
  let n := if n >? STYX_MAX_FNAME - 1 then STYX_MAX_FNAME - 1 else n in
  styx_put16 n ++ take (Z.to_nat n) s.

(** [styx_getstr (buf, out, outsz, avail)]: the bytes copied to [out] before
    the terminating NUL and the offset past the string, [Some None] for the
    NULL result. *)
Definition styx_getstr (m : list Z) (off : nat) (outsz avail : Z)
  : option (option (list Z * nat)) :=
  if avail <? 2 then Some None else
  n ← styx_get16 m off;
  let maxcopy := outsz - 1 in
  let n := if n >? u16 maxcopy then u16 maxcopy else n in
  let have := avail - 2 in
  let n := if n >? have then u16 have else n in
  out ← rd_bytes m (off + 2) (Z.to_nat n);
  Some (Some (out, (off + 2 + Z.to_nat n)%nat)).

Definition styx_write_header (total_size type tag : Z) : list Z :=
  styx_put32 total_size ++ [u8 type] ++ styx_put16 tag.

(** What a builder leaves in [buf[0 .. *len)]: [pos] ends at 7 plus the bytes
    of the fields. *)
Definition message (type tag : Z) (fields : list Z) : list Z :=
  styx_write_header (7 + Z.of_nat (length fields)) type tag ++ fields.

(** ** Records *)

Record styx_qid := { q_type : Z; q_version : Z; q_path : Z }.

Record styx_dir := {
  d_type : Z; d_dev : Z; d_qid : styx_qid; d_mode : Z; d_atime : Z; d_mtime : Z;
  d_length : Z; d_name : list Z; d_uid : list Z; d_gid : list Z; d_muid : list Z }.

Definition put_qid (q : styx_qid) : list Z :=
  [u8 (q_type q)] ++ styx_put32 (q_version q) ++ styx_put64 (q_path q).

(** The Dir record that [build_rstat] and [styx_build_twstat] write after its
    2-byte size. *)
Definition put_dir (d : styx_dir) : list Z :=
  styx_put16 (d_type d) ++ styx_put32 (d_dev d) ++ put_qid (d_qid d) ++
  styx_put32 (d_mode d) ++ styx_put32 (d_atime d) ++ styx_put32 (d_mtime d) ++
  styx_put64 (d_length d) ++
  styx_putstr (Some (d_name d)) ++ styx_putstr (Some (d_uid d)) ++
  styx_putstr (Some (d_gid d)) ++ styx_putstr (Some (d_muid d)).

(** ** Client request encoders *)

Definition styx_build_tversion (msize : Z) (version : option (list Z)) : list Z :=
  message STX_TVERSION 0 (styx_put32 msize ++ styx_putstr version).

Definition styx_build_tattach (tag fid afid : Z) (aname : option (list Z)) : list Z :=
  message STX_TATTACH tag
    (styx_put32 fid ++ styx_put32 afid ++ styx_putstr (Some (default [] aname))).

Definition styx_build_twalk (tag fid newfid : Z) (wname : list (option (list Z))) (nwname : Z)
  : option (list Z) :=
  names ← mapM (fun i => wname !! i) (seq 0 (Z.to_nat (Z.min nwname 16)));
  Some (message STX_TWALK tag
    (styx_put32 fid ++ styx_put32 newfid ++ styx_put16 (u16 nwname) ++
     concat (styx_putstr <$> names))).

Definition styx_build_topen (tag fid mode : Z) : list Z :=
  message STX_TOPEN tag (styx_put32 fid ++ [u8 mode]).

Definition styx_build_tread (tag fid offset count : Z) : list Z :=
  message STX_TREAD tag (styx_put32 fid ++ styx_put64 offset ++ styx_put32 count).

(** [None]: [memcpy] reads past the [count] bytes [data] must hold. *)
Definition styx_build_twrite (tag fid offset count : Z) (data : list Z) : option (list Z) :=
  payload ← (if count >? 0 then rd_bytes data 0 (Z.to_nat count) else Some []);
  Some (message STX_TWRITE tag
    (styx_put32 fid ++ styx_put64 offset ++ styx_put32 count ++ payload)).

Definition styx_build_tclunk (tag fid : Z) : list Z :=
  message STX_TCLUNK tag (styx_put32 fid).

Definition styx_build_tstat (tag fid : Z) : list Z :=
  message STX_TSTAT tag (styx_put32 fid).

Definition styx_build_tauth (tag afid : Z) (uname aname : option (list Z)) : list Z :=
  message STX_TAUTH tag (styx_put32 afid ++ styx_putstr uname ++ styx_putstr aname).

Definition styx_build_tflush (tag oldtag : Z) : list Z :=
  message STX_TFLUSH tag (styx_put16 oldtag).

Definition styx_build_tcreate (tag fid : Z) (name : option (list Z)) (perm mode : Z) : list Z :=
  message STX_TCREATE tag
    (styx_put32 fid ++ styx_putstr name ++ styx_put32 perm ++ [u8 mode]).

Definition styx_build_tremove (tag fid : Z) : list Z :=
  message STX_TREMOVE tag (styx_put32 fid).

Definition styx_build_twstat (tag fid : Z) (dir : styx_dir) : list Z :=
  let d := put_dir dir in
  message STX_TWSTAT tag (styx_put32 fid ++ styx_put16 (u16 (Z.of_nat (length d))) ++ d).

Definition styx_error (tag : Z) (errmsg : list Z) : list Z :=
  message STX_RERROR tag (styx_putstr (Some errmsg)).

(** ** Server response builders *)

Definition build_rversion (tag msize : Z) (version : list Z) : list Z :=
  message STX_RVERSION tag (styx_put32 msize ++ styx_putstr (Some version)).

Definition build_rattach (tag : Z) (qid : styx_qid) : list Z :=
  message STX_RATTACH tag (put_qid qid).

(** [nqid] elements of [qids]; [None] when the array has fewer. *)
Definition build_rwalk (tag : Z) (qids : list styx_qid) (nqid : Z) : option (list Z) :=
  qs ← mapM (fun i => qids !! i) (seq 0 (Z.to_nat nqid));
  Some (message STX_RWALK tag (styx_put16 (u16 nqid) ++ concat (put_qid <$> qs))).

Definition build_ropen (tag : Z) (qid : styx_qid) (iounit : Z) : list Z :=
  message STX_ROPEN tag (put_qid qid ++ styx_put32 iounit).

(** [data = None] is a NULL pointer: nothing is copied.  (With [count > 0] the
    reply would carry whatever [buf] held before; that case is [None].) *)
Definition build_rread (tag : Z) (data : option (list Z)) (count : Z) : option (list Z) :=
  let count := if count >? STYX_MAX_DATA then STYX_MAX_DATA else count in
  let pos := 7 in
  let count := if u32 (pos + 4 + count) >? STYX_MAX_MSG then STYX_MAX_MSG - pos - 4 else count in
  payload ← match data with
            | Some data => if count >? 0 then rd_bytes data 0 (Z.to_nat count) else Some []
            | None => if count >? 0 then None else Some []
            end;
  Some (message STX_RREAD tag (styx_put32 count ++ payload)).

Definition build_rwrite (tag count : Z) : list Z := message STX_RWRITE tag (styx_put32 count).
Definition build_rclunk (tag : Z) : list Z := styx_write_header 7 STX_RCLUNK tag.
Definition build_rremove (tag : Z) : list Z := styx_write_header 7 STX_RREMOVE tag.
Definition build_rauth (tag : Z) (aqid : styx_qid) : list Z :=
  message STX_RAUTH tag (put_qid aqid).
Definition build_rcreate (tag : Z) (qid : styx_qid) (iounit : Z) : list Z :=
  message STX_RCREATE tag (put_qid qid ++ styx_put32 iounit).
Definition build_rflush (tag : Z) : list Z := styx_write_header 7 STX_RFLUSH tag.
Definition build_rwstat (tag : Z) : list Z := styx_write_header 7 STX_RWSTAT tag.
Definition build_rstat (tag : Z) (dir : styx_dir) : list Z :=
  let d := put_dir dir in
  message STX_RSTAT tag (styx_put16 (u16 (Z.of_nat (length d))) ++ d).

(** ** Client parsers *)

(** The guard every parser starts with: a long enough message of the type. *)
Definition parse_guard (buf : option (list Z)) (len minlen type : Z)
  : option (Z + list Z) :=
  match buf with
  | None => Some (inl (-1))
  | Some m =>
      if len <? minlen then Some (inl (-1)) else
      ty ← rd m 4;
      Some (if negb (ty =? type) then inl (-1) else inr m)
  end.

(** Continue with the fields when the guard passed. *)
Definition parse_with {A} (g : option (Z + list Z)) (k : list Z -> option A)
  : option (Z + A) :=
  r ← g;
  match r with
  | inl rc => Some (inl rc)
  | inr m => out ← k m; Some (inr out)
  end.

Definition styx_parse_version (buf : option (list Z)) (len : Z)
  : option (Z + (Z * option (list Z))) :=
  parse_with (parse_guard buf len 13 STX_RVERSION) (fun m =>
    msize ← styx_get32 m 7;
    p ← styx_getstr m 11 STYX_MAX_FNAME (s32 len - 11);
    Some (msize, option_map fst p)).

Definition styx_parse_attach (buf : option (list Z)) (len : Z)
  : option (Z + (Z * Z * option (list Z))) :=
  parse_with (parse_guard buf len 17 STX_TATTACH) (fun m =>
    fid ← styx_get32 m 7;
    afid ← styx_get32 m 11;
    p ← styx_getstr m 15 STYX_MAX_FNAME (s32 len - 15);
    Some (fid, afid, option_map fst p)).

Definition styx_parse_open (buf : option (list Z)) (len : Z) : option (Z + (Z * Z)) :=
  parse_with (parse_guard buf len 12 STX_TOPEN) (fun m =>
    fid ← styx_get32 m 7; mode ← rd m 11; Some (fid, mode)).

Definition styx_parse_read (buf : option (list Z)) (len : Z) : option (Z + (Z * Z * Z)) :=
  parse_with (parse_guard buf len 23 STX_TREAD) (fun m =>
    fid ← styx_get32 m 7; offset ← styx_get64 m 11; count ← styx_get32 m 19;
    Some (fid, offset, count)).

(** [*data = buf + 23]: the offset of the payload. *)
Definition styx_parse_write (buf : option (list Z)) (len : Z)
  : option (Z + (Z * Z * Z * nat)) :=
  parse_with (parse_guard buf len 24 STX_TWRITE) (fun m =>
    fid ← styx_get32 m 7; offset ← styx_get64 m 11; count ← styx_get32 m 19;
    Some (fid, offset, count, 23%nat)).

Definition styx_parse_clunk (buf : option (list Z)) (len : Z) : option (Z + Z) :=
  parse_with (parse_guard buf len 11 STX_TCLUNK) (fun m => styx_get32 m 7).

Definition styx_parse_stat (buf : option (list Z)) (len : Z) : option (Z + Z) :=
  parse_with (parse_guard buf len 11 STX_TSTAT) (fun m => styx_get32 m 7).

(** The walk loop, shared in shape with the server's: up to [n] more names from
    offset [p]; it stops at the first NULL. *)
Fixpoint walk_names (m : list Z) (len : Z) (n p : nat) : option (list (list Z)) :=
  match n with
  | O => Some []
  | S n =>
      r ← styx_getstr m p STYX_MAX_FNAME (s32 len - Z.of_nat p);
      match r with
      | None => Some []
      | Some (name, p) => names ← walk_names m len n p; Some (name :: names)
      end
  end.

Definition styx_parse_walk (buf : option (list Z)) (len : Z)
  : option (Z + (Z * Z * Z * list (list Z))) :=
  parse_with (parse_guard buf len 18 STX_TWALK) (fun m =>
    fid ← styx_get32 m 7; newfid ← styx_get32 m 11;
    nwname ← styx_get16 m 15;
    let nwname := if nwname >? 16 then 16 else nwname in
    names ← walk_names m len (Z.to_nat nwname) 17;
    Some (fid, newfid, nwname, names)).

(** ** Facts about the packers *)

Lemma styx_put16_le v : styx_put16 v = le_enc 2 v.
Proof.
  unfold styx_put16, le_enc. rewrite shiftr8, !land_255.
  by rewrite !wrap_idemp by done.
Qed.

Lemma styx_put32_le v : styx_put32 v = le_enc 4 v.
Proof.
  unfold styx_put32, le_enc. rewrite !land_255, !wrap_idemp by done.
  change 24 with (16 + 8). change 16 with (8 + 8).
  by rewrite !shiftr_shiftr8, !shiftr8 by lia.
Qed.

Lemma put64_loop_le n v : put64_loop n v = le_enc n v.
Proof.
  revert v; induction n; intros v; simpl; [done|].
  by rewrite land_255, wrap_idemp, shiftr8, IHn.
Qed.

Lemma styx_put64_le v : styx_put64 v = le_enc 8 v.
Proof. apply put64_loop_le. Qed.

Lemma rd_in m off : (off < length m)%nat -> exists b, rd m off = Some b.
Proof. intros. by apply lookup_lt_is_Some_2. Qed.

Lemma rd_byte m off b : Forall is_byte m -> rd m off = Some b -> is_byte b.
Proof. intros Hm. by eapply Forall_lookup_1. Qed.

(** Reading [n] bytes one at a time is reading a slice. *)
Lemma slice_cons m off n b :
  rd m off = Some b -> slice m off (S n) = b :: slice m (off + 1) n.
Proof.
  intros Hb. unfold slice. rewrite (drop_S m b off) by done. simpl.
  by rewrite Nat.add_1_r.
Qed.

Lemma rd_oob m off : (length m <= off)%nat -> rd m off = None.
Proof. apply lookup_ge_None_2. Qed.

Ltac rd_step m o :=
  let b := fresh "b" in let H := fresh "Hb" in
  destruct (rd m o) as [b|] eqn:H; simpl;
  [|unfold rd in H; apply lookup_ge_None_1 in H].

Lemma styx_get16_spec m off :
  Forall is_byte m -> styx_get16 m off = le_dec <$> rd_bytes m off 2.
Proof.
  intros Hm. unfold styx_get16, rd_bytes.
  rd_step m off; [|rewrite decide_False by lia; done].
  rd_step m (off + 1)%nat; [|rewrite decide_False by lia; done].
  rewrite decide_True by (apply lookup_lt_Some in Hb0; lia).
  rewrite (slice_cons _ _ _ b), (slice_cons _ _ _ b0) by done. simpl. f_equal.
  pose proof (rd_byte _ _ _ Hm Hb); pose proof (rd_byte _ _ _ Hm Hb0).
  rewrite lor_shiftl_add by (done || lia). change (2 ^ 8) with 256.
  rewrite wrap_id; unfold_fits; lia.
Qed.

Lemma styx_get32_spec m off :
  Forall is_byte m -> styx_get32 m off = le_dec <$> rd_bytes m off 4.
Proof.
  intros Hm. unfold styx_get32, rd_bytes.
  rd_step m off; [|rewrite decide_False by lia; done].
  rd_step m (off + 1)%nat; [|rewrite decide_False by lia; done].
  rd_step m (off + 2)%nat; [|rewrite decide_False by lia; done].
  rd_step m (off + 3)%nat; [|rewrite decide_False by lia; done].
  rewrite decide_True by (apply lookup_lt_Some in Hb2; lia).
  rewrite (slice_cons _ _ _ b), (slice_cons _ _ _ b0), (slice_cons _ _ _ b1),
    (slice_cons _ _ _ b2) by (done || by rewrite <- ?Nat.add_assoc). simpl. f_equal.
  pose proof (rd_byte _ _ _ Hm Hb); pose proof (rd_byte _ _ _ Hm Hb0).
  pose proof (rd_byte _ _ _ Hm Hb1); pose proof (rd_byte _ _ _ Hm Hb2).
  rewrite !(wrap_id 32) by (rewrite Z.shiftl_mul_pow2 by lia; unfold_fits;
    change (2 ^ 24) with 16777216; lia).
  rewrite (lor_shiftl_add b b0), (lor_shiftl_add _ b1), (lor_shiftl_add _ b2);
    unfold_fits; change (2 ^ 24) with 16777216; lia.
Qed.

Lemma get64_loop_spec m off i v :
  Forall is_byte m -> fits (8 * (7 - Z.of_nat i)) v -> (i <= 7)%nat ->
  get64_loop m off i v =
    (fun bs => le_dec bs + 2 ^ (8 * (1 + Z.of_nat i)) * v) <$> rd_bytes m off (S i).
Proof.
  intros Hm. revert v. induction i as [|i IH]; intros v Hv Hi; cbn [get64_loop];
    unfold rd_bytes at 1.
  - rd_step m (off + 0)%nat; [|rewrite decide_False by lia; done].
    rewrite Nat.add_0_r in Hb. pose proof (rd_byte _ _ _ Hm Hb).
    rewrite decide_True by (apply lookup_lt_Some in Hb; lia).
    rewrite (slice_cons _ _ _ b) by done. unfold slice. rewrite take_0.
    cbn [fmap option_fmap option_map le_dec]. f_equal.
    rewrite wrap_id, Z.lor_comm, lor_shiftl_add;
      rewrite ?Z.shiftl_mul_pow2 by lia; unfold_fits; try lia.
  - rd_step m (off + S i)%nat; [|rewrite decide_False by lia; done].
    pose proof (rd_byte _ _ _ Hm Hb) as Hbb. pose proof Hb as Hlt.
    apply lookup_lt_Some in Hlt.
    assert (2 ^ (8 * (7 - Z.of_nat i)) = 256 * 2 ^ (8 * (7 - Z.of_nat (S i)))) as E.
    { change 256 with (2 ^ 8). rewrite <- Z.pow_add_r by lia. f_equal; lia. }
    assert (2 ^ (8 * (7 - Z.of_nat i)) <= 2 ^ 56) by (apply Z.pow_le_mono_r; lia).
    assert (Z.lor (u64 (Z.shiftl v 8)) b = b + v * 256) as ->.
    { rewrite wrap_id, Z.lor_comm, lor_shiftl_add;
        rewrite ?Z.shiftl_mul_pow2 by lia; unfold fits in *; try lia; try done. }
    rewrite IH by (unfold fits in *; lia).
    unfold rd_bytes. rewrite !decide_True by lia. simpl. f_equal.
    replace (slice m off (S (S i))) with (slice m off (S i) ++ [b]).
    2:{ unfold slice. rewrite (take_S_r _ (S i) b); [done|].
        by rewrite lookup_drop. }
    rewrite le_dec_app, length_slice by lia. simpl le_dec.
    replace (2 ^ (8 * (1 + Z.of_nat (S i)))) with (256 * 2 ^ (8 * (1 + Z.of_nat i))).
    2:{ change 256 with (2 ^ 8). rewrite <- Z.pow_add_r by lia. f_equal; lia. }
    replace (8 * Z.of_nat (S i)) with (8 * (1 + Z.of_nat i)) by lia. lia.
Qed.

Lemma styx_get64_spec m off :
  Forall is_byte m -> styx_get64 m off = le_dec <$> rd_bytes m off 8.
Proof.
  intros Hm. unfold styx_get64. rewrite get64_loop_spec by (done || lia).
  destruct (rd_bytes m off 8); simpl; f_equal. lia.
Qed.

(** ** Reading back what was written *)

#[global] Arguments styx_put16 : simpl never.
#[global] Arguments styx_put32 : simpl never.
#[global] Arguments styx_put64 : simpl never.
#[global] Arguments styx_putstr : simpl never.
#[global] Arguments styx_get16 : simpl never.
#[global] Arguments styx_get32 : simpl never.
#[global] Arguments styx_get64 : simpl never.
#[global] Arguments styx_getstr : simpl never.
#[global] Arguments message : simpl never.

Lemma rd_skip pre m k : rd (pre ++ m) (length pre + k) = rd m k.
Proof. unfold rd. rewrite lookup_app_r by lia. f_equal; lia. Qed.

Lemma rd_bytes_skip pre m k n :
  rd_bytes (pre ++ m) (length pre + k) n = rd_bytes m k n.
Proof.
  unfold rd_bytes, slice. rewrite length_app, drop_app_add.
  destruct (decide (k + n <= length m)%nat).
  - rewrite decide_True by lia. done.
  - rewrite decide_False by lia. done.
Qed.

Lemma styx_get16_skip pre m k : styx_get16 (pre ++ m) (length pre + k) = styx_get16 m k.
Proof. unfold styx_get16. by rewrite <- !Nat.add_assoc, !rd_skip. Qed.
Lemma styx_get32_skip pre m k : styx_get32 (pre ++ m) (length pre + k) = styx_get32 m k.
Proof. unfold styx_get32. by rewrite <- !Nat.add_assoc, !rd_skip. Qed.
Lemma styx_get64_skip pre m k : styx_get64 (pre ++ m) (length pre + k) = styx_get64 m k.
Proof. unfold styx_get64, get64_loop. by rewrite <- !Nat.add_assoc, !rd_skip. Qed.

Lemma styx_getstr_skip pre m k outsz avail :
  styx_getstr (pre ++ m) (length pre + k) outsz avail =
    (option_map (fun '(s, p) => (s, (length pre + p)%nat))) <$> styx_getstr m k outsz avail.
Proof.
  unfold styx_getstr. destruct (avail <? 2); [done|].
  rewrite styx_get16_skip. destruct (styx_get16 m k) as [n|]; [|done]. simpl.
  replace (length pre + k + 2)%nat with (length pre + (k + 2))%nat by lia.
  rewrite rd_bytes_skip.
  match goal with |- context [rd_bytes m ?o ?n] => destruct (rd_bytes m o n) end; simpl; [|done].
  by rewrite !Nat.add_assoc.
Qed.

Lemma styx_get16_put16 v post : styx_get16 (styx_put16 v ++ post) 0 = Some (u16 v).
Proof.
  change (styx_get16 (styx_put16 v ++ post) 0) with (styx_get16 (styx_put16 v) 0).
  rewrite styx_put16_le, styx_get16_spec by auto with wubu.
  change (Some (le_dec (le_enc 2 v)) = Some (u16 v)). by rewrite le_dec_enc.
Qed.

Lemma styx_get32_put32 v post : styx_get32 (styx_put32 v ++ post) 0 = Some (u32 v).
Proof.
  change (styx_get32 (styx_put32 v ++ post) 0) with (styx_get32 (styx_put32 v) 0).
  rewrite styx_put32_le, styx_get32_spec by auto with wubu.
  change (Some (le_dec (le_enc 4 v)) = Some (u32 v)). by rewrite le_dec_enc.
Qed.

Lemma styx_get64_put64 v post : styx_get64 (styx_put64 v ++ post) 0 = Some (u64 v).
Proof.
  change (styx_get64 (styx_put64 v ++ post) 0) with (styx_get64 (styx_put64 v) 0).
  rewrite styx_put64_le, styx_get64_spec by auto with wubu.
  change (Some (le_dec (le_enc 8 v)) = Some (u64 v)). by rewrite le_dec_enc.
Qed.

(** What the string packer keeps of a string: at most 255 bytes. *)
Definition wire_str (s : list Z) : list Z := take 255 s.

Lemma wire_str_id s : (length s <= 255)%nat -> wire_str s = s.
Proof. apply take_ge. Qed.

Lemma styx_putstr_short s :
  (length s <= 255)%nat ->
  styx_putstr (Some s) = styx_put16 (Z.of_nat (length s)) ++ s.
Proof.
  intros. unfold styx_putstr. simpl default.
  rewrite wrap_id by (unfold_fits; lia).
  destruct (Z.gtb_spec (Z.of_nat (length s)) (STYX_MAX_FNAME - 1)) as [|];
    [unfold STYX_MAX_FNAME in *; lia|].
  by rewrite Nat2Z.id, take_ge by lia.
Qed.

Lemma styx_putstr_wire s :
  Z.of_nat (length s) < 65536 -> styx_putstr (Some s) = styx_putstr (Some (wire_str s)).
Proof.
  intros Hs. unfold wire_str.
  destruct (decide (length s <= 255)%nat); [by rewrite take_ge|].
  rewrite (styx_putstr_short (take 255 s)) by (rewrite length_take; lia).
  unfold styx_putstr. simpl default. rewrite wrap_id by (unfold_fits; lia).
  destruct (Z.gtb_spec (Z.of_nat (length s)) (STYX_MAX_FNAME - 1)) as [|];
    unfold STYX_MAX_FNAME in *; [|lia].
  rewrite length_take. f_equal. f_equal. lia.
Qed.

Lemma length_putstr_le s : (length (styx_putstr s) <= 257)%nat.
Proof.
  unfold styx_putstr. rewrite length_app, length_take. simpl (length (styx_put16 _)).
  destruct (Z.gtb_spec (u16 (Z.of_nat (length (default [] s)))) (STYX_MAX_FNAME - 1));
    unfold STYX_MAX_FNAME in *; lia.
Qed.

Lemma styx_getstr_putstr s post outsz avail :
  (length s <= 255)%nat -> Z.of_nat (length s) < outsz <= 65536 ->
  2 + Z.of_nat (length s) <= avail ->
  styx_getstr (styx_putstr (Some s) ++ post) 0 outsz avail =
    Some (Some (s, (2 + length s)%nat)).
Proof.
  intros Hs Hout Hav. rewrite styx_putstr_short by done. unfold styx_getstr.
  destruct (Z.ltb_spec avail 2); [lia|].
  rewrite <- app_assoc, styx_get16_put16. cbn [mbind option_bind].
  rewrite !(wrap_id 16) by (unfold_fits; lia).
  destruct (Z.gtb_spec (Z.of_nat (length s)) (outsz - 1)); [lia|].
  destruct (Z.gtb_spec (Z.of_nat (length s)) (avail - 2)); [lia|].
  rewrite Nat2Z.id.
  pose proof (rd_bytes_app (styx_put16 (Z.of_nat (length s))) s post _ eq_refl) as E.
  change (length (styx_put16 _)) with (0 + 2)%nat in E. by rewrite E.
Qed.

Lemma styx_getstr_putstr_end s outsz avail :
  (length s <= 255)%nat -> Z.of_nat (length s) < outsz <= 65536 ->
  2 + Z.of_nat (length s) <= avail ->
  styx_getstr (styx_putstr (Some s)) 0 outsz avail = Some (Some (s, (2 + length s)%nat)).
Proof. rewrite <- (app_nil_r (styx_putstr (Some s))). apply styx_getstr_putstr. Qed.

(** The fields of a message start right after its 7-byte header. *)
Lemma length_header sz ty tag : length (styx_write_header sz ty tag) = 7%nat.
Proof. done. Qed.

Lemma length_message ty tag f : length (message ty tag f) = (7 + length f)%nat.
Proof. unfold message. by rewrite length_app, length_header. Qed.

Lemma rd_message_type ty tag f : fits 8 ty -> rd (message ty tag f) 4 = Some ty.
Proof. intros. unfold message, styx_write_header, styx_put32, rd. simpl. by rewrite wrap_id. Qed.

Lemma message_size ty tag f :
  Z.of_nat (length f) < 2 ^ 32 - 7 ->
  styx_get32 (message ty tag f) 0 = Some (7 + Z.of_nat (length f)).
Proof.
  intros. unfold message, styx_write_header. rewrite <- app_assoc, styx_get32_put32.
  rewrite wrap_id; [done|]. unfold_fits. lia.
Qed.

Lemma message_tag ty tag f : styx_get16 (message ty tag f) 5 = Some (u16 tag).
Proof.
  unfold message, styx_write_header. rewrite <- !app_assoc, app_assoc.
  etrans; [apply (styx_get16_skip (styx_put32 (7 + Z.of_nat (length f)) ++ [u8 ty]) _ 0)|].
  apply styx_get16_put16.
Qed.

(** A field [k] bytes into the body sits at offset [7 + k] of the message. *)
Lemma rd_field ty tag f k : rd (message ty tag f) (7 + k) = rd f k.
Proof. apply (rd_skip (styx_write_header _ _ _)). Qed.
Lemma rd_bytes_field ty tag f k n : rd_bytes (message ty tag f) (7 + k) n = rd_bytes f k n.
Proof. apply (rd_bytes_skip (styx_write_header _ _ _)). Qed.
Lemma get16_field ty tag f k : styx_get16 (message ty tag f) (7 + k) = styx_get16 f k.
Proof. apply (styx_get16_skip (styx_write_header _ _ _)). Qed.
Lemma get32_field ty tag f k : styx_get32 (message ty tag f) (7 + k) = styx_get32 f k.
Proof. apply (styx_get32_skip (styx_write_header _ _ _)). Qed.
Lemma get64_field ty tag f k : styx_get64 (message ty tag f) (7 + k) = styx_get64 f k.
Proof. apply (styx_get64_skip (styx_write_header _ _ _)). Qed.
Lemma getstr_field ty tag f k outsz avail :
  styx_getstr (message ty tag f) (7 + k) outsz avail =
    option_map (fun '(s, p) => (s, (7 + p)%nat)) <$> styx_getstr f k outsz avail.
Proof. apply (styx_getstr_skip (styx_write_header _ _ _)). Qed.

Lemma length_put16 v : length (styx_put16 v) = 2%nat.
Proof. done. Qed.
Lemma length_put32 v : length (styx_put32 v) = 4%nat.
Proof. done. Qed.
Lemma length_put64 v : length (styx_put64 v) = 8%nat.
Proof. done. Qed.

(** Side conditions of the reading lemmas: literal message types and sizes. *)
Ltac wire_side :=
  match goal with
  | |- fits 8 _ => apply (bool_decide_unpack _); vm_compute; exact I
  | _ => repeat (rewrite length_message || rewrite length_app || rewrite length_put32 ||
            rewrite length_put64 || rewrite length_put16);
    simpl length; unfold_fits; lia
  end.

(** Evaluate the reads of a parser on a message built from known fields: the
    offsets are literals, split into the header, the 4- and 8-byte fields before
    the one that is read. *)
Ltac wire_at lhs lem n d :=
  let k := eval vm_compute in (n - d)%nat in
  let H := fresh in
  eassert (lhs = _) as H by exact (lem k); rewrite H; clear H.
Ltac wire_step :=
  match goal with
  | |- context [rd (message ?ty ?tag ?f) ?n] =>
      wire_at (rd (message ty tag f) n) (rd_field ty tag f) n 7%nat
  | |- context [styx_get16 (message ?ty ?tag ?f) ?n] =>
      wire_at (styx_get16 (message ty tag f) n) (get16_field ty tag f) n 7%nat
  | |- context [styx_get32 (message ?ty ?tag ?f) ?n] =>
      wire_at (styx_get32 (message ty tag f) n) (get32_field ty tag f) n 7%nat
  | |- context [styx_get64 (message ?ty ?tag ?f) ?n] =>
      wire_at (styx_get64 (message ty tag f) n) (get64_field ty tag f) n 7%nat
  | |- context [styx_getstr (message ?ty ?tag ?f) ?n ?o ?a] =>
      wire_at (styx_getstr (message ty tag f) n o a)
        (fun k => getstr_field ty tag f k o a) n 7%nat
  | |- context [rd (styx_put32 ?v ++ ?m) ?n] =>
      wire_at (rd (styx_put32 v ++ m) n) (rd_skip (styx_put32 v) m) n 4%nat
  | |- context [styx_get16 (styx_put32 ?v ++ ?m) ?n] =>
      wire_at (styx_get16 (styx_put32 v ++ m) n) (styx_get16_skip (styx_put32 v) m) n 4%nat
  | |- context [styx_get32 (styx_put32 ?v ++ ?m) (S ?n)] =>
      wire_at (styx_get32 (styx_put32 v ++ m) (S n)) (styx_get32_skip (styx_put32 v) m) (S n) 4%nat
  | |- context [styx_get64 (styx_put32 ?v ++ ?m) ?n] =>
      wire_at (styx_get64 (styx_put32 v ++ m) n) (styx_get64_skip (styx_put32 v) m) n 4%nat
  | |- context [styx_get32 (styx_put64 ?v ++ ?m) ?n] =>
      wire_at (styx_get32 (styx_put64 v ++ m) n) (styx_get32_skip (styx_put64 v) m) n 8%nat
  | |- context [styx_getstr (styx_put32 ?v ++ ?m) ?n ?o ?a] =>
      wire_at (styx_getstr (styx_put32 v ++ m) n o a)
        (fun k => styx_getstr_skip (styx_put32 v) m k o a) n 4%nat
  end.
Ltac wire_norm :=
  repeat first [ rewrite styx_get32_put32 | rewrite styx_get64_put64
               | rewrite styx_get16_put16 | wire_step ];
  cbn [mbind option_bind].

Lemma parse_guard_message ty tag f minlen len :
  fits 8 ty -> minlen <= len ->
  parse_guard (Some (message ty tag f)) len minlen ty = Some (inr (message ty tag f)).
Proof.
  intros. unfold parse_guard. destruct (Z.ltb_spec len minlen); [lia|].
  rewrite rd_message_type by done. cbn [mbind option_bind]. by rewrite Z.eqb_refl.
Qed.

Lemma parse_with_message {A} ty tag f minlen len (k : list Z -> option A) :
  fits 8 ty -> minlen <= len ->
  parse_with (parse_guard (Some (message ty tag f)) len minlen ty) k =
    (out ← k (message ty tag f); Some (inr out)).
Proof. intros. unfold parse_with. by rewrite parse_guard_message. Qed.

Definition msg_len (m : list Z) : Z := Z.of_nat (length m).

Lemma tread_roundtrip tag fid offset count :
  fits 32 fid -> fits 64 offset -> fits 32 count ->
  let m := styx_build_tread tag fid offset count in
  styx_parse_read (Some m) (msg_len m) = Some (inr (fid, offset, count)).
Proof.
  intros Hf Ho Hc m. unfold m, styx_parse_read, styx_build_tread, msg_len.
  rewrite parse_with_message by wire_side.
  rewrite <- (app_nil_r (styx_put32 count)). wire_norm.
  by rewrite !wrap_id by done.
Qed.

Lemma topen_roundtrip tag fid mode :
  fits 32 fid -> fits 8 mode ->
  let m := styx_build_topen tag fid mode in
  styx_parse_open (Some m) (msg_len m) = Some (inr (fid, mode)).
Proof.
  intros Hf Hm m. unfold m, styx_parse_open, styx_build_topen, msg_len.
  rewrite parse_with_message by wire_side. wire_norm.
  change (rd [u8 mode] 0) with (Some (u8 mode)). cbn [mbind option_bind].
  by rewrite !wrap_id by done.
Qed.

Lemma tclunk_roundtrip tag fid :
  fits 32 fid ->
  let m := styx_build_tclunk tag fid in
  styx_parse_clunk (Some m) (msg_len m) = Some (inr fid).
Proof.
  intros Hf m. unfold m, styx_parse_clunk, styx_build_tclunk, msg_len.
  rewrite <- (app_nil_r (styx_put32 fid)).
  rewrite parse_with_message by wire_side. wire_norm. by rewrite wrap_id.
Qed.

Lemma tstat_roundtrip tag fid :
  fits 32 fid ->
  let m := styx_build_tstat tag fid in
  styx_parse_stat (Some m) (msg_len m) = Some (inr fid).
Proof.
  intros Hf m. unfold m, styx_parse_stat, styx_build_tstat, msg_len.
  rewrite <- (app_nil_r (styx_put32 fid)).
  rewrite parse_with_message by wire_side. wire_norm. by rewrite wrap_id.
Qed.

(** Size of what the string packer writes. *)
Lemma length_putstr_short s :
  (length s <= 255)%nat -> length (styx_putstr (Some s)) = (2 + length s)%nat.
Proof. intros. by rewrite styx_putstr_short. Qed.

(** The room left for a string that ends the message. *)
Lemma s32_len n : Z.of_nat n < 2 ^ 31 -> s32 (Z.of_nat n) = Z.of_nat n.
Proof. intros. apply swrap_id; [lia|]. unfold_fits. change (2^31) with 2147483648 in *. lia. Qed.

Lemma tattach_roundtrip tag fid afid aname :
  fits 32 fid -> fits 32 afid -> (length aname <= 255)%nat ->
  let m := styx_build_tattach tag fid afid (Some aname) in
  styx_parse_attach (Some m) (msg_len m) = Some (inr (fid, afid, Some aname)).
Proof.
  intros Hf Ha Hs m. unfold m, styx_parse_attach, styx_build_tattach, msg_len.
  assert (Hl := length_putstr_short aname Hs). simpl default.
  rewrite parse_with_message by (rewrite ?length_message, ?length_app, ?Hl; wire_side).
  rewrite s32_len by (rewrite length_message, !length_app, Hl; wire_side).
  wire_norm.
  rewrite styx_getstr_putstr_end by
    (done || (rewrite ?length_message, ?length_app, ?Hl, ?length_put32; unfold STYX_MAX_FNAME; lia)).
  simpl. by rewrite !wrap_id by done.
Qed.

Lemma rversion_roundtrip tag msize version :
  fits 32 msize -> (length version <= 255)%nat ->
  let m := build_rversion tag msize version in
  styx_parse_version (Some m) (msg_len m) = Some (inr (msize, Some version)).
Proof.
  intros Hm Hs m. unfold m, styx_parse_version, build_rversion, msg_len.
  assert (Hl := length_putstr_short version Hs).
  rewrite parse_with_message by (rewrite ?length_message, ?length_app, ?Hl; wire_side).
  rewrite s32_len by (rewrite length_message, !length_app, Hl; wire_side).
  wire_norm.
  rewrite styx_getstr_putstr_end by
    (done || (rewrite ?length_message, ?length_app, ?Hl, ?length_put32; unfold STYX_MAX_FNAME; lia)).
  simpl. by rewrite wrap_id by done.
Qed.

(** A payload of at least one byte comes back as the bytes at the returned
    offset. *)
Lemma twrite_roundtrip tag fid offset data m :
  fits 32 fid -> fits 64 offset -> 0 < Z.of_nat (length data) < 2 ^ 32 ->
  styx_build_twrite tag fid offset (Z.of_nat (length data)) data = Some m ->
  styx_parse_write (Some m) (msg_len m) =
    Some (inr (fid, offset, Z.of_nat (length data), 23%nat)) /\
  rd_bytes m 23 (length data) = Some data.
Proof.
  intros Hf Ho Hd Hm. unfold styx_build_twrite in Hm.
  destruct (Z.gtb_spec (Z.of_nat (length data)) 0); [|lia].
  rewrite Nat2Z.id in Hm.
  pose proof (rd_bytes_app [] data [] _ eq_refl) as E. rewrite app_nil_l, app_nil_r in E.
  change (length []) with 0%nat in E. rewrite E in Hm. apply (inj Some) in Hm as <-. split.
  - unfold styx_parse_write, msg_len.
    rewrite parse_with_message by wire_side. wire_norm.
    by rewrite !wrap_id by (done || (unfold_fits; lia)).
  - change 23%nat with (7 + (length (styx_put32 fid) + (length (styx_put64 offset) +
      (length (styx_put32 (Z.of_nat (length data))) + 0))))%nat.
    by rewrite rd_bytes_field, !rd_bytes_skip.
Qed.

Definition pack_names (names : list (list Z)) : list Z :=
  concat ((fun s => styx_putstr (Some s)) <$> names).

Lemma walk_names_packed names pre post len :
  Forall (fun s => (length s <= 255)%nat) names ->
  Z.of_nat (length (pre ++ pack_names names ++ post)) <= s32 len ->
  walk_names (pre ++ pack_names names ++ post) len (length names) (length pre) = Some names.
Proof.
  intros Hs. revert pre. induction Hs as [|s names Hs _ IH]; intros pre Hlen; [done|].
  unfold pack_names in *. cbn [fmap list_fmap concat length walk_names] in *.
  rewrite <- app_assoc in *. 
  pose proof (styx_getstr_skip pre (styx_putstr (Some s) ++ pack_names names ++ post) 0
    STYX_MAX_FNAME (s32 len - Z.of_nat (length pre))) as E.
  rewrite Nat.add_0_r in E. unfold pack_names in E. rewrite E.
  rewrite !length_app, length_putstr_short in Hlen by done.
  rewrite styx_getstr_putstr by (done || (unfold STYX_MAX_FNAME; lia)).
  cbn [fmap option_fmap option_map mbind option_bind].
  assert (length pre + (2 + length s) = length (pre ++ styx_putstr (Some s)))%nat as ->
    by (rewrite length_app, length_putstr_short by done; lia).
  rewrite (app_assoc pre), IH; [done|].
  rewrite !length_app, length_putstr_short by done. lia.
Qed.

Lemma length_pack_names names :
  Forall (fun s => (length s <= 255)%nat) names ->
  (2 * length names <= length (pack_names names) <= 257 * length names)%nat.
Proof.
  induction 1 as [|s names Hs _ IH]; [simpl; lia|]. unfold pack_names in *.
  cbn [fmap list_fmap concat length] in *.
  rewrite length_app, length_putstr_short by done. lia.
Qed.

Lemma mapM_lookup_seq {A} (l : list A) n :
  (n <= length l)%nat -> mapM (fun i => l !! i) (seq 0 n) = Some (take n l).
Proof.
  revert l n. cut (forall (l : list A) k n, (k + n <= length l)%nat ->
    mapM (fun i => l !! i) (seq k n) = Some (take n (drop k l))).
  { intros H l n Hn. by rewrite H by lia. }
  intros l k n. revert k. induction n as [|n IH]; intros k Hk; [done|].
  cbn [seq mapM]. destruct (lookup_lt_is_Some_2 l k) as [x Hx]; [lia|].
  rewrite Hx, IH, (drop_S l x k) by (done || lia). done.
Qed.

Lemma twalk_roundtrip tag fid newfid names m :
  fits 32 fid -> fits 32 newfid -> (1 <= length names <= 16)%nat ->
  Forall (fun s => (length s <= 255)%nat) names ->
  styx_build_twalk tag fid newfid (Some <$> names) (Z.of_nat (length names)) = Some m ->
  styx_parse_walk (Some m) (msg_len m) =
    Some (inr (fid, newfid, Z.of_nat (length names), names)).
Proof.
  intros Hf Hn Hl Hs Hm. unfold styx_build_twalk in Hm.
  rewrite Z.min_l, Nat2Z.id, mapM_lookup_seq in Hm by (rewrite ?length_fmap; lia).
  cbn [mbind option_bind] in Hm.
  rewrite take_ge, <- list_fmap_compose in Hm by (rewrite length_fmap; lia).
  change (concat (styx_putstr ∘ Some <$> names)) with (pack_names names) in Hm.
  apply (inj Some) in Hm as <-. pose proof (length_pack_names names Hs).
  unfold styx_parse_walk, msg_len. rewrite parse_with_message by wire_side. wire_norm.
  rewrite !(wrap_id 16) by (rewrite ?wrap_id; unfold_fits; lia).
  destruct (Z.gtb_spec (Z.of_nat (length names)) 16); [lia|]. rewrite Nat2Z.id.
  match goal with |- context [message _ _ ?f] => set (body := f) end.
  set (pre := styx_write_header (7 + Z.of_nat (length body)) STX_TWALK tag ++ styx_put32 fid ++
              styx_put32 newfid ++ styx_put16 (Z.of_nat (length names))).
  assert (message STX_TWALK tag body = pre ++ pack_names names ++ []) as Em.
  { unfold message, pre, body. by rewrite app_nil_r, <- !app_assoc. }
  rewrite Em. change 17%nat with (length pre). rewrite walk_names_packed.
  3:{ rewrite <- Em, s32_len; [lia|]. unfold body. wire_side. }
  2:{ done. }
  simpl. by rewrite !wrap_id by done.
Qed.

(** ** Bounds *)

Lemma rd_bytes_in m off n :
  (off + n <= length m)%nat -> rd_bytes m off n = Some (slice m off n).
Proof. intros. unfold rd_bytes. by rewrite decide_True. Qed.

Lemma styx_get16_in m off :
  Forall is_byte m -> (off + 2 <= length m)%nat ->
  exists v, styx_get16 m off = Some v /\ fits 16 v.
Proof.
  intros Hm Hl. rewrite styx_get16_spec, rd_bytes_in by done. eexists; split; [done|].
  pose proof (le_dec_bound (slice m off 2)) as H.
  rewrite length_slice in H by done. auto with wubu.
Qed.

Lemma styx_get32_in m off :
  Forall is_byte m -> (off + 4 <= length m)%nat ->
  exists v, styx_get32 m off = Some v /\ fits 32 v.
Proof.
  intros Hm Hl. rewrite styx_get32_spec, rd_bytes_in by done. eexists; split; [done|].
  pose proof (le_dec_bound (slice m off 4)) as H.
  rewrite length_slice in H by done. auto with wubu.
Qed.

Lemma styx_get64_in m off :
  Forall is_byte m -> (off + 8 <= length m)%nat ->
  exists v, styx_get64 m off = Some v /\ fits 64 v.
Proof.
  intros Hm Hl. rewrite styx_get64_spec, rd_bytes_in by done. eexists; split; [done|].
  pose proof (le_dec_bound (slice m off 8)) as H.
  rewrite length_slice in H by done. auto with wubu.
Qed.

Lemma styx_get32_fits m off v : Forall is_byte m -> styx_get32 m off = Some v -> fits 32 v.
Proof.
  intros Hm H. rewrite styx_get32_spec in H by done. unfold rd_bytes in H.
  destruct (decide (off + 4 <= length m)%nat) as [Hl|]; [|done]. simpl in H. simplify_eq.
  pose proof (le_dec_bound (slice m off 4)) as B. rewrite length_slice in B by done.
  auto with wubu.
Qed.

(** Whatever length a string declares, the copy stays inside the frame and the
    output buffer. *)
Lemma styx_getstr_safe m off outsz avail :
  Forall is_byte m -> Z.of_nat off + avail <= Z.of_nat (length m) ->
  1 <= outsz <= 65536 ->
  exists r, styx_getstr m off outsz avail = Some r /\
    forall s p, r = Some (s, p) ->
      (off + 2 <= p)%nat /\ Z.of_nat p <= Z.of_nat off + avail /\
      Z.of_nat (length s) < outsz /\ p = (off + 2 + length s)%nat.
Proof.
  intros Hm Hav Hout. unfold styx_getstr.
  destruct (Z.ltb_spec avail 2); [by eexists|].
  destruct (styx_get16_in m off Hm ltac:(lia)) as (n & -> & Hn).
  cbn [mbind option_bind]. rewrite (wrap_id 16 (outsz - 1)) by (unfold_fits; lia).
  set (n1 := if n >? outsz - 1 then outsz - 1 else n).
  assert (0 <= n1 <= outsz - 1) by
    (unfold n1; destruct (Z.gtb_spec n (outsz - 1)); unfold_fits; lia).
  set (n2 := if n1 >? avail - 2 then u16 (avail - 2) else n1).
  assert (0 <= n2 <= n1 /\ n2 <= avail - 2) by
    (unfold n2; destruct (Z.gtb_spec n1 (avail - 2)); rewrite ?wrap_id; unfold_fits; lia).
  rewrite rd_bytes_in by lia. eexists; split; [done|].
  intros s p [= <- <-]. rewrite length_slice by lia. lia.
Qed.

Lemma walk_names_safe m len n p :
  Forall is_byte m -> s32 len <= Z.of_nat (length m) ->
  exists names, walk_names m len n p = Some names /\ (length names <= n)%nat /\
    Forall (fun s => (length s <= 255)%nat) names.
Proof.
  intros Hm Hl. revert p. induction n as [|n IH]; intros p; cbn [walk_names].
  { eexists; split; [done|]. by split. }
  destruct (styx_getstr_safe m p STYX_MAX_FNAME (s32 len - Z.of_nat p)) as (r & -> & Hr);
    [done|lia|by unfold STYX_MAX_FNAME|].
  cbn [mbind option_bind]. destruct r as [[s q]|].
  2:{ eexists; split; [done|]. split; [simpl; lia|constructor]. }
  destruct (Hr s q eq_refl) as (? & ? & ? & ?). unfold STYX_MAX_FNAME in *.
  destruct (IH q) as (names & -> & ? & ?). eexists; split; [done|].
  split; [simpl; lia|]. constructor; [lia|done].
Qed.

(** Continue a safety proof of a parser after its guard. *)
Lemma parse_with_safe {A} m len minlen ty (k : list Z -> option A) :
  5 <= minlen -> len <= Z.of_nat (length m) ->
  (minlen <= len -> is_Some (k m)) ->
  is_Some (parse_with (parse_guard (Some m) len minlen ty) k).
Proof.
  intros Hmin Hl Hk. unfold parse_with, parse_guard.
  destruct (Z.ltb_spec len minlen); [by eexists|].
  destruct (rd_in m 4) as [b ->]; [lia|]. cbn [mbind option_bind].
  destruct (negb (b =? ty)); [by eexists|]. destruct Hk as [x ->]; [lia|]. by eexists.
Qed.

(** Step through reads that stay inside the buffer. *)
Ltac safe_step :=
  match goal with
  | |- is_Some (Some _) => by eexists
  | Hm : Forall is_byte ?m |- is_Some (styx_get32 ?m ?o) =>
      destruct (styx_get32_in m o Hm) as (? & -> & _); [lia|by eexists]
  | Hm : Forall is_byte ?m |- is_Some (styx_get32 ?m ?o ≫= _) =>
      destruct (styx_get32_in m o Hm) as (? & -> & _); [lia|cbn [mbind option_bind]]
  | Hm : Forall is_byte ?m |- is_Some (styx_get64 ?m ?o ≫= _) =>
      destruct (styx_get64_in m o Hm) as (? & -> & _); [lia|cbn [mbind option_bind]]
  | Hm : Forall is_byte ?m |- is_Some (styx_get16 ?m ?o ≫= _) =>
      destruct (styx_get16_in m o Hm) as (? & -> & _); [lia|cbn [mbind option_bind]]
  | |- is_Some (rd ?m ?o ≫= _) =>
      destruct (rd_in m o) as [? ->]; [lia|cbn [mbind option_bind]]
  | Hm : Forall is_byte ?m |- is_Some (styx_getstr ?m ?o ?s ?a ≫= _) =>
      destruct (styx_getstr_safe m o s a Hm) as (? & -> & _);
        [lia|by unfold STYX_MAX_FNAME|cbn [mbind option_bind]]
  | Hm : Forall is_byte ?m |- is_Some (walk_names ?m ?l ?n ?p ≫= _) =>
      destruct (walk_names_safe m l n p Hm) as (? & -> & _);
        [lia|cbn [mbind option_bind]]
  end.

(** C40. Memory safety of the parsers: on any bytes, with any announced length that
    the buffer really holds, no parser reads outside it. *)
Theorem styx_parsers_stay_in_bounds (m : list Z) (len : Z) :
  Forall is_byte m -> 0 <= len < 2 ^ 31 -> len <= Z.of_nat (length m) ->
  is_Some (styx_parse_version (Some m) len) /\ is_Some (styx_parse_attach (Some m) len) /\
  is_Some (styx_parse_open (Some m) len) /\ is_Some (styx_parse_read (Some m) len) /\
  is_Some (styx_parse_write (Some m) len) /\ is_Some (styx_parse_clunk (Some m) len) /\
  is_Some (styx_parse_stat (Some m) len) /\ is_Some (styx_parse_walk (Some m) len).
Proof.
  intros Hm Hlen Hl.
  assert (s32 len = len) as Es by (apply swrap_id; [lia|unfold_fits; lia]).
  split_and!; apply parse_with_safe; try lia; intros Hmin; rewrite ?Es; repeat safe_step.
Qed.

(** ** Frames

    A well-formed frame: the size field is its length, which a peer's
    [STYX_MAX_MSG] buffer holds, and it carries the tag. *)
Definition framed (tag : Z) (m : list Z) : Prop :=
  styx_get32 m 0 = Some (msg_len m) /\ styx_get16 m 5 = Some tag /\
  7 <= msg_len m <= STYX_MAX_MSG.

Lemma message_framed ty tag f :
  fits 16 tag -> Z.of_nat (length f) <= STYX_MAX_MSG - 7 -> framed tag (message ty tag f).
Proof.
  unfold STYX_MAX_MSG. intros Ht Hf. unfold framed, msg_len, STYX_MAX_MSG.
  rewrite message_size, message_tag, length_message, (wrap_id 16) by (done || lia).
  split_and!; [f_equal; lia|done|lia..].
Qed.

Lemma header_message ty tag : styx_write_header 7 ty tag = message ty tag [].
Proof. unfold message. by rewrite app_nil_r. Qed.

Lemma length_put_qid q : length (put_qid q) = 13%nat.
Proof. done. Qed.

Lemma length_concat_qids qs : length (concat (put_qid <$> qs)) = (13 * length qs)%nat.
Proof.
  induction qs as [|q qs IH]; [done|]. cbn [fmap list_fmap concat length] in *.
  rewrite length_app, length_put_qid, IH. lia.
Qed.

Lemma length_put_dir d : (length (put_dir d) <= 1100)%nat.
Proof.
  unfold put_dir. rewrite !length_app, length_put_qid, !length_put32, length_put16, length_put64.
  pose proof (length_putstr_le (Some (d_name d))). pose proof (length_putstr_le (Some (d_uid d))).
  pose proof (length_putstr_le (Some (d_gid d))). pose proof (length_putstr_le (Some (d_muid d))).
  lia.
Qed.

Lemma mapM_length {A B} (f : A -> option B) l k : mapM f l = Some k -> length k = length l.
Proof. intros H%mapM_Some. symmetry. by eapply Forall2_length. Qed.

Ltac framed_tac :=
  intros; rewrite ?header_message; apply message_framed; [done|];
  rewrite ?length_app, ?length_put_qid, ?length_put64, ?length_put32, ?length_put16;
  unfold STYX_MAX_MSG; cbn [length]; lia.

Lemma error_framed tag e : fits 16 tag -> framed tag (styx_error tag e).
Proof. pose proof (length_putstr_le (Some e)). unfold styx_error. framed_tac. Qed.
Lemma rversion_framed tag msize v : fits 16 tag -> framed tag (build_rversion tag msize v).
Proof. pose proof (length_putstr_le (Some v)). unfold build_rversion. framed_tac. Qed.
Lemma rattach_framed tag q : fits 16 tag -> framed tag (build_rattach tag q).
Proof. unfold build_rattach. framed_tac. Qed.
Lemma rauth_framed tag q : fits 16 tag -> framed tag (build_rauth tag q).
Proof. unfold build_rauth. framed_tac. Qed.
Lemma ropen_framed tag q io : fits 16 tag -> framed tag (build_ropen tag q io).
Proof. unfold build_ropen. framed_tac. Qed.
Lemma rcreate_framed tag q io : fits 16 tag -> framed tag (build_rcreate tag q io).
Proof. unfold build_rcreate. framed_tac. Qed.
Lemma rwrite_framed tag c : fits 16 tag -> framed tag (build_rwrite tag c).
Proof. unfold build_rwrite. framed_tac. Qed.
Lemma rclunk_framed tag : fits 16 tag -> framed tag (build_rclunk tag).
Proof. unfold build_rclunk. framed_tac. Qed.
Lemma rremove_framed tag : fits 16 tag -> framed tag (build_rremove tag).
Proof. unfold build_rremove. framed_tac. Qed.
Lemma rflush_framed tag : fits 16 tag -> framed tag (build_rflush tag).
Proof. unfold build_rflush. framed_tac. Qed.
Lemma rwstat_framed tag : fits 16 tag -> framed tag (build_rwstat tag).
Proof. unfold build_rwstat. framed_tac. Qed.
Lemma rstat_framed tag d : fits 16 tag -> framed tag (build_rstat tag d).
Proof. pose proof (length_put_dir d). unfold build_rstat. framed_tac. Qed.

Lemma rwalk_framed tag qids nqid m :
  fits 16 tag -> nqid <= 5000 -> build_rwalk tag qids nqid = Some m -> framed tag m.
Proof.
  intros Ht Hn. unfold build_rwalk. destruct (mapM _ _) as [qs|] eqn:E; [|done].
  apply mapM_length in E. rewrite length_seq in E. intros [= <-].
  pose proof (length_concat_qids qs). framed_tac.
Qed.

Lemma rread_framed tag data count m :
  fits 16 tag -> fits 32 count -> build_rread tag data count = Some m -> framed tag m.
Proof.
  intros Ht Hc. unfold build_rread, STYX_MAX_DATA, STYX_MAX_MSG.
  set (c1 := if count >? 8 * 1024 then 8 * 1024 else count).
  assert (0 <= c1 <= 8192) by
    (unfold c1; destruct (Z.gtb_spec count (8 * 1024)); unfold_fits; lia).
  rewrite wrap_id by (unfold_fits; lia).
  destruct (Z.gtb_spec (7 + 4 + c1) (64 * 1024)); [lia|].
  assert (forall p, Z.of_nat (length p) <= 8192 ->
    framed tag (message STX_RREAD tag (styx_put32 c1 ++ p))) as Hfr by framed_tac.
  destruct data as [d|], (c1 >? 0); cbn [mbind option_bind]; intros Heq; simplify_eq;
    try (apply Hfr; simpl; lia).
  destruct (rd_bytes d 0 (Z.to_nat c1)) as [p|] eqn:E; [|done].
  apply rd_bytes_Some in E as [? ->]. cbn [mbind option_bind] in Heq. simplify_eq.
  apply Hfr. rewrite length_slice by lia. lia.
Qed.

(** ** Properties of the wire format *)

(** A client whose string is 64 KiB long sends the empty string: the length is
    truncated to 16 bits before it is clamped to 255. *)
Theorem styx_putstr_wraps_at_64k (s : list Z) :
  Z.of_nat (length s) = 65536 -> styx_putstr (Some s) = styx_put16 0.
Proof. intros E. unfold styx_putstr. simpl default. by rewrite E. Qed.

(** The parser of write requests refuses a valid empty write, and the parser of
    walk requests refuses a valid fid clone (a walk of no names). *)
Theorem styx_parsers_refuse_empty_write_and_clone (tag fid newfid offset : Z) :
  (exists m, styx_build_twrite tag fid offset 0 [] = Some m /\
     styx_parse_write (Some m) (msg_len m) = Some (inl (-1))) /\
  (exists m, styx_build_twalk tag fid newfid [] 0 = Some m /\
     styx_parse_walk (Some m) (msg_len m) = Some (inl (-1))).
Proof. split; eexists; (split; [reflexivity|]); done. Qed.

Lemma styx_putstr_wraps_at_64k_witness :
  let s := repeat 65 (Z.to_nat 65536) in
  Z.of_nat (length s) = 65536 /\ styx_putstr (Some s) = styx_put16 0.
Proof.
  split; [rewrite repeat_length; lia|].
  apply styx_putstr_wraps_at_64k. rewrite repeat_length. lia.
Defined.

(** What the builders of the read, open, clunk, stat, attach and version
    messages write, the matching parser reads back field for field. *)
Theorem styx_requests_roundtrip (tag fid afid offset count mode : Z) (name : list Z) :
  fits 32 fid -> fits 32 afid -> fits 64 offset -> fits 32 count -> fits 8 mode ->
  (length name <= 255)%nat ->
  (let m := styx_build_tread tag fid offset count in
   styx_parse_read (Some m) (msg_len m) = Some (inr (fid, offset, count))) /\
  (let m := styx_build_topen tag fid mode in
   styx_parse_open (Some m) (msg_len m) = Some (inr (fid, mode))) /\
  (let m := styx_build_tclunk tag fid in
   styx_parse_clunk (Some m) (msg_len m) = Some (inr fid)) /\
  (let m := styx_build_tstat tag fid in
   styx_parse_stat (Some m) (msg_len m) = Some (inr fid)) /\
  (let m := styx_build_tattach tag fid afid (Some name) in
   styx_parse_attach (Some m) (msg_len m) = Some (inr (fid, afid, Some name))) /\
  (let m := build_rversion tag count name in
   styx_parse_version (Some m) (msg_len m) = Some (inr (count, Some name))).
Proof.
  intros. split_and!; [by apply tread_roundtrip|by apply topen_roundtrip|
    by apply tclunk_roundtrip|by apply tstat_roundtrip|by apply tattach_roundtrip|
    by apply rversion_roundtrip].
Qed.

Lemma styx_requests_roundtrip_witness :
  let m := styx_build_tread 7 1 4096 512 in
  styx_parse_read (Some m) (msg_len m) = Some (inr (1, 4096, 512)).
Proof.
  apply (styx_requests_roundtrip 7 1 2 4096 512 0 []); unfold_fits; simpl; lia.
Defined.

(** A walk of 1 to 16 names parses back to those names, and a non-empty write to
    its fields and, at the returned offset, its payload. *)
Theorem styx_twalk_twrite_roundtrip (tag fid newfid offset : Z) (names : list (list Z))
    (data mwalk mwrite : list Z) :
  fits 32 fid -> fits 32 newfid -> fits 64 offset ->
  (1 <= length names <= 16)%nat -> Forall (fun s => (length s <= 255)%nat) names ->
  0 < Z.of_nat (length data) < 2 ^ 32 ->
  styx_build_twalk tag fid newfid (Some <$> names) (Z.of_nat (length names)) = Some mwalk ->
  styx_build_twrite tag fid offset (Z.of_nat (length data)) data = Some mwrite ->
  styx_parse_walk (Some mwalk) (msg_len mwalk) =
    Some (inr (fid, newfid, Z.of_nat (length names), names)) /\
  styx_parse_write (Some mwrite) (msg_len mwrite) =
    Some (inr (fid, offset, Z.of_nat (length data), 23%nat)) /\
  rd_bytes mwrite 23 (length data) = Some data.
Proof.
  intros. split; [by eapply twalk_roundtrip|]. by eapply twrite_roundtrip.
Qed.

Lemma styx_twalk_twrite_roundtrip_witness :
  exists mwalk mwrite,
    styx_build_twalk 1 2 3 [Some (str "usr"); Some (str "bin")] 2 = Some mwalk /\
    styx_build_twrite 1 2 9 3 [65; 66; 67] = Some mwrite /\
    styx_parse_walk (Some mwalk) (msg_len mwalk) =
      Some (inr (2, 3, 2, [str "usr"; str "bin"])) /\
    rd_bytes mwrite 23 3 = Some [65; 66; 67].
Proof.
  eexists _, _. split; [reflexivity|]. split; [reflexivity|].
  edestruct (styx_twalk_twrite_roundtrip 1 2 3 9 [str "usr"; str "bin"] [65; 66; 67])
    as (Hw & Hx & Hy); try reflexivity; try (unfold_fits; simpl; lia).
  - repeat constructor; simpl; lia.
  - split; [exact Hw|exact Hy].
Defined.

Lemma styx_parsers_stay_in_bounds_witness :
  let m := styx_build_tclunk 1 2 in
  is_Some (styx_parse_version (Some m) 11) /\ is_Some (styx_parse_walk (Some m) 11).
Proof.
  split; apply (styx_parsers_stay_in_bounds (styx_build_tclunk 1 2) 11);
    try (simpl; lia); apply (bool_decide_unpack _); vm_compute; exact I.
Defined.
