(* ===== verification/StyxTables.v ===== *)
(** * Styx/9P2000 server tables

    The fixed-size tables a Styx connection keeps: the fid table
    ([runtime/styx_fid.c]), the tag table ([runtime/styx_tags.c]), the table of
    requests that can be flushed ([runtime/styx_flush.c]), the byte-range lock
    table ([runtime/styx_locks.c]) and the message-name registry and errno
    vocabulary ([runtime/styx_names.c]).

    An array is the list of its slots; a pointer to a slot is its index.  The
    tag and flush tables refine finite maps from tags. *)

From stdpp Require Import gmap fin_maps.
From S2P Require Import Prelude StyxWire.
Open Scope Z_scope.

(** ** Fids *)

Record styx_fid := {
  f_in_use : bool;
  f_fid : Z;
  f_open_fid : Z;
  f_open_mode : Z;
  f_offset : Z;
  f_qid : styx_qid;
  f_file_state : Z }.

Definition STYX_MAX_FIDS : nat := 128.
Definition zero_qid : styx_qid := {| q_type := 0; q_version := 0; q_path := 0 |}.
Definition zero_fid : styx_fid :=
  {| f_in_use := false; f_fid := 0; f_open_fid := 0; f_open_mode := 0; f_offset := 0;
     f_qid := zero_qid; f_file_state := 0 |}.

Definition styx_fid_alloc (fids : list styx_fid) (fid : Z) : option (nat * list styx_fid) :=
  match find_idx (fun f => negb (f_in_use f)) fids with
  | Some i =>
      let f := {| f_in_use := true; f_fid := fid; f_open_fid := 0; f_open_mode := 0;
                  f_offset := 0; f_qid := zero_qid; f_file_state := 0 |} in
      Some (i, <[i := f]> fids)
  | None => None
  end.

Definition styx_fid_lookup (fids : list styx_fid) (fid : Z) : option nat :=
  find_idx (fun f => f_in_use f && (f_fid f =? fid)) fids.

Definition set_in_use (b : bool) (f : styx_fid) : styx_fid :=
  {| f_in_use := b; f_fid := f_fid f; f_open_fid := f_open_fid f;
     f_open_mode := f_open_mode f; f_offset := f_offset f; f_qid := f_qid f;
     f_file_state := f_file_state f |}.

Definition styx_fid_free (fids : list styx_fid) (fid : Z) : list styx_fid :=
  match styx_fid_lookup fids fid with
  | Some i => alter (set_in_use false) i fids
  | None => fids
  end.

(** ** Tags *)

Record styx_tag_slot := { t_tag : Z; t_req_id : Z; t_in_use : bool }.
Record styx_tagtable := { t_slots : list styx_tag_slot; t_live : Z }.

Definition STYX_TAG_SLOTS : nat := 256.

Definition styx_tags_init : styx_tagtable :=
  {| t_slots := (fun i => {| t_tag := u16 (Z.of_nat i); t_req_id := 0; t_in_use := false |})
                  <$> seq 0 STYX_TAG_SLOTS;
     t_live := 0 |}.

(** [inl rc] is a failure, [inr (tag, t)] the allocated tag and the new table. *)
Definition styx_tags_alloc (t : styx_tagtable) (req_id : Z) : Z + (Z * styx_tagtable) :=
  match find_idx (fun s => negb (t_in_use s)) (t_slots t) with
  | Some i =>
      match t_slots t !! i with
      | Some s =>
          inr (t_tag s,
            {| t_slots := <[i := {| t_tag := t_tag s; t_req_id := req_id; t_in_use := true |}]>
                            (t_slots t);
               t_live := t_live t + 1 |})
      | None => inl (-1)
      end
  | None => inl (-1)
  end.

Definition tag_match (tag : Z) (s : styx_tag_slot) : bool := t_in_use s && (t_tag s =? tag).

Definition styx_tags_lookup (t : styx_tagtable) (tag : Z) : Z + Z :=
  match find_idx (tag_match tag) (t_slots t) with
  | Some i => match t_slots t !! i with Some s => inr (t_req_id s) | None => inl (-1) end
  | None => inl (-1)
  end.

Definition styx_tags_release (t : styx_tagtable) (tag : Z) : Z * styx_tagtable :=
  match find_idx (tag_match tag) (t_slots t) with
  | Some i =>
      (0, {| t_slots := alter (fun s => {| t_tag := t_tag s; t_req_id := 0; t_in_use := false |})
                          i (t_slots t);
             t_live := t_live t - 1 |})
  | None => (-1, t)
  end.

(** ** Flush table *)

Record styx_flush_slot := { fl_tag : Z; fl_in_use : bool; fl_cancelled : bool }.

Definition STYX_FLUSH_MAX : nat := 32.
Definition zero_flush : styx_flush_slot :=
  {| fl_tag := 0; fl_in_use := false; fl_cancelled := false |}.
Definition styx_flush_init : list styx_flush_slot := replicate STYX_FLUSH_MAX zero_flush.

Definition flush_find (t : list styx_flush_slot) (tag : Z) : option nat :=
  find_idx (fun s => fl_in_use s && (fl_tag s =? tag)) t.

Definition styx_flush_begin (t : list styx_flush_slot) (tag : Z)
  : Z * list styx_flush_slot :=
  match flush_find t tag with
  | Some _ => (-1, t)
  | None =>
      match find_idx (fun s => negb (fl_in_use s)) t with
      | Some i => (0, <[i := {| fl_tag := tag; fl_in_use := true; fl_cancelled := false |}]> t)
      | None => (-1, t)
      end
  end.

Definition styx_flush_cancel (t : list styx_flush_slot) (tag : Z)
  : Z * list styx_flush_slot :=
  match flush_find t tag with
  | None => (-1, t)
  | Some i =>
      (0, alter (fun s => {| fl_tag := fl_tag s; fl_in_use := fl_in_use s;
                             fl_cancelled := true |}) i t)
  end.

Definition styx_flush_is_cancelled (t : list styx_flush_slot) (tag : Z) : Z :=
  match flush_find t tag with
  | Some i => match t !! i with Some s => b2z (fl_cancelled s) | None => 0 end
  | None => 0
  end.

Definition styx_flush_end (t : list styx_flush_slot) (tag : Z) : Z * list styx_flush_slot :=
  match flush_find t tag with
  | None => (-1, t)
  | Some i => (0, <[i := zero_flush]> t)
  end.

Definition styx_flush_in_flight (t : list styx_flush_slot) : Z :=
  Z.of_nat (count fl_in_use t).

(** ** Byte-range locks *)

Record styx_lock_rec := {
  l_qid : Z; l_owner : Z; l_start : Z; l_length : Z; l_type : Z; l_in_use : bool }.

Definition STYX_LOCK_MAX : nat := 32.
Definition STYX_LOCK_RDLCK : Z := 0.
Definition STYX_LOCK_WRLCK : Z := 1.
Definition STYX_LOCK_UNLCK : Z := 2.
Definition END : Z := 2 ^ 64 - 1.

Definition zero_lock : styx_lock_rec :=
  {| l_qid := 0; l_owner := 0; l_start := 0; l_length := 0; l_type := 0; l_in_use := false |}.
Definition styx_locks_init : list styx_lock_rec := replicate STYX_LOCK_MAX zero_lock.

(** The last byte of a range; [start + length - 1] wraps at 64 bits. *)
Definition range_end (start length : Z) : Z :=
  if length =? 0 then END else u64 (start + length - 1).
Definition range (l : styx_lock_rec) : Z * Z := (l_start l, range_end (l_start l) (l_length l)).
Definition overlaps (s1 e1 s2 e2 : Z) : bool := negb ((e1 <? s2) || (e2 <? s1)).

(** Does an existing lock make the request fail? *)
Definition lock_conflicts (qid owner start e type : Z) (l : styx_lock_rec) : bool :=
  if negb (l_in_use l) || negb (l_qid l =? qid) || (l_owner l =? owner) then false else
  let '(a, b) := range l in
  if negb (overlaps start e a b) then false else
  (l_type l =? STYX_LOCK_WRLCK) || (type =? STYX_LOCK_WRLCK).

(** Is this the lock an unlock of exactly that range removes? *)
Definition unlock_hits (qid owner start e : Z) (l : styx_lock_rec) : bool :=
  if negb (l_in_use l) || negb (l_qid l =? qid) || negb (l_owner l =? owner) then false else
  let '(a, b) := range l in
  if negb (overlaps start e a b) then false else (a =? start) && (b =? e).

Definition lock_off (l : styx_lock_rec) : styx_lock_rec :=
  {| l_qid := l_qid l; l_owner := l_owner l; l_start := l_start l; l_length := l_length l;
     l_type := l_type l; l_in_use := false |}.
Definition set_lock_type (type : Z) (l : styx_lock_rec) : styx_lock_rec :=
  {| l_qid := l_qid l; l_owner := l_owner l; l_start := l_start l; l_length := l_length l;
     l_type := type; l_in_use := l_in_use l |}.

Definition styx_unlock (t : list styx_lock_rec) (qid owner start length : Z)
  : Z * list styx_lock_rec :=
  let e := range_end start length in
  let hit := existsb (unlock_hits qid owner start e) t in
  (if hit then 0 else -1,
   (fun l => if unlock_hits qid owner start e l then lock_off l else l) <$> t).

Definition same_range (qid owner start length : Z) (l : styx_lock_rec) : bool :=
  l_in_use l && (l_qid l =? qid) && (l_owner l =? owner) &&
  (l_start l =? start) && (l_length l =? length).

Definition styx_lock (t : list styx_lock_rec) (qid owner start length type : Z)
  : Z * list styx_lock_rec :=
  let e := range_end start length in
  if negb (type =? STYX_LOCK_UNLCK) && existsb (lock_conflicts qid owner start e type) t
  then (-1, t)
  else if type =? STYX_LOCK_UNLCK then styx_unlock t qid owner start length
  else
    match find_idx (same_range qid owner start length) t with
    | Some i => (0, alter (set_lock_type type) i t)
    | None =>
        match find_idx (fun l => negb (l_in_use l)) t with
        | Some i =>
            (0, <[i := {| l_qid := qid; l_owner := owner; l_start := start;
                          l_length := length; l_type := type; l_in_use := true |}]> t)
        | None => (-1, t)
        end
    end.

Definition styx_lock_count (t : list styx_lock_rec) : Z := Z.of_nat (count l_in_use t).

(** ** Message names and errno vocabulary *)

Definition g_msg_names (ty : Z) : option (list Z) :=
  match ty with
  | 100 => Some (str "Tversion") | 101 => Some (str "Rversion")
  | 102 => Some (str "Tauth")    | 103 => Some (str "Rauth")
  | 104 => Some (str "Tattach")  | 105 => Some (str "Rattach")
  | 106 => Some (str "Terror")   | 107 => Some (str "Rerror")
  | 108 => Some (str "Tflush")   | 109 => Some (str "Rflush")
  | 110 => Some (str "Twalk")    | 111 => Some (str "Rwalk")
  | 112 => Some (str "Topen")    | 113 => Some (str "Ropen")
  | 114 => Some (str "Tcreate")  | 115 => Some (str "Rcreate")
  | 116 => Some (str "Tread")    | 117 => Some (str "Rread")
  | 118 => Some (str "Twrite")   | 119 => Some (str "Rwrite")
  | 120 => Some (str "Tclunk")   | 121 => Some (str "Rclunk")
  | 122 => Some (str "Tremove")  | 123 => Some (str "Rremove")
  | 124 => Some (str "Tstat")    | 125 => Some (str "Rstat")
  | 126 => Some (str "Twstat")   | 127 => Some (str "Rwstat")
  | _ => None
  end%Z.

Definition STYX_MSG_REGISTRY_MAX : nat := 256.

(** [g_styx_msg_registry] and [g_styx_msg_registry_seeded]. *)
Record msg_registry := { mr_names : list (option (list Z)); mr_seeded : bool }.
Definition msg_registry_static : msg_registry :=
  {| mr_names := replicate STYX_MSG_REGISTRY_MAX None; mr_seeded := false |}.

Definition styx_msg_registry_seed (r : msg_registry) : msg_registry :=
  if mr_seeded r then r else
  {| mr_names :=
       ((fun i => let i := Z.of_nat i in
                  if (i <? 100) || (i >? 127) then None else g_msg_names i) <$> seq 0 128)
       ++ drop 128 (mr_names r);
     mr_seeded := true |}.

Definition styx_msg_name_register (r : msg_registry) (type : Z) (name : option (list Z))
  : Z * msg_registry :=
  match name with
  | None => (-1, r)
  | Some name =>
      if type >=? Z.of_nat STYX_MSG_REGISTRY_MAX then (-1, r) else
      let r := styx_msg_registry_seed r in
      (0, {| mr_names := <[Z.to_nat type := Some name]> (mr_names r); mr_seeded := mr_seeded r |})
  end.

Definition styx_msg_name (r : msg_registry) (type : Z) : list Z * msg_registry :=
  let r := styx_msg_registry_seed r in
  (match mr_names r !! Z.to_nat type with
   | Some (Some name) => name
   | _ => str "Unknown"
   end, r).

(** The errno constants of Linux the vocabulary names. *)
Definition EPERM : Z := 1.
Definition ENOENT : Z := 2.
Definition EINTR : Z := 4.
Definition EIO : Z := 5.
Definition EBADF : Z := 9.
Definition EAGAIN : Z := 11.
Definition EACCES : Z := 13.
Definition EBUSY : Z := 16.
Definition EEXIST : Z := 17.
Definition EXDEV : Z := 18.
Definition ENOTDIR : Z := 20.
Definition EISDIR : Z := 21.
Definition EINVAL : Z := 22.
Definition ENFILE : Z := 23.
Definition EMFILE : Z := 24.
Definition ENOSPC : Z := 28.
Definition EROFS : Z := 30.
Definition ENAMETOOLONG : Z := 36.
Definition ENOTEMPTY : Z := 39.
Definition ELOOP : Z := 40.
Definition EOVERFLOW : Z := 75.
Definition EOPNOTSUPP : Z := 95.

Definition styx_errno_ename (err : Z) : list Z :=
  str (if err =? 0 then "no error"
  else if (err =? EPERM) || (err =? EACCES) then "permission denied"
  else if err =? ENOENT then "no such file or directory"
  else if err =? EEXIST then "file already exists"
  else if err =? ENOTDIR then "not a directory"
  else if err =? EISDIR then "is a directory"
  else if err =? EROFS then "read-only filesystem"
  else if err =? ENOSPC then "no space left on device"
  else if err =? ENAMETOOLONG then "file name too long"
  else if err =? ELOOP then "too many symbolic links"
  else if err =? EXDEV then "cross-device link"
  else if err =? ENOTEMPTY then "directory not empty"
  else if err =? EBUSY then "resource busy"
  else if err =? EINTR then "interrupted"
  else if err =? EAGAIN then "resource temporarily unavailable"
  else if err =? EBADF then "bad file descriptor"
  else if err =? EMFILE then "too many open files in process"
  else if err =? ENFILE then "too many open files in system"
  else if err =? EINVAL then "invalid argument"
  else if err =? EIO then "input/output error"
  else if err =? EOPNOTSUPP then "operation not supported"
  else if err =? EOVERFLOW then "value too large"
  else "unknown error").

(** ** The fid table *)

Definition fid_live (f : styx_fid) : Prop := f_in_use f = true.

(** No two live slots carry the same fid. *)
Definition fids_ok (fids : list styx_fid) : Prop :=
  forall i j f g, fids !! i = Some f -> fids !! j = Some g ->
    fid_live f -> fid_live g -> f_fid f = f_fid g -> i = j.

Lemma fid_lookup_Some fids fid i :
  styx_fid_lookup fids fid = Some i ->
  exists f, fids !! i = Some f /\ f_in_use f = true /\ f_fid f = fid.
Proof.
  intros (f & Hf & Hp & _)%find_idx_Some. apply andb_true_iff in Hp as [? ?%Z.eqb_eq]. eauto.
Qed.

Lemma fid_lookup_None fids fid i f :
  styx_fid_lookup fids fid = None -> fids !! i = Some f -> f_in_use f = true -> f_fid f <> fid.
Proof.
  intros H Hi Hu E. apply find_idx_None with (j := i) (x := f) in H; [|done].
  rewrite Hu, E, Z.eqb_refl in H. done.
Qed.

Lemma fid_lookup_unique fids fid i f :
  fids_ok fids -> fids !! i = Some f -> f_in_use f = true -> f_fid f = fid ->
  styx_fid_lookup fids fid = Some i.
Proof.
  intros Hok Hf Hu <-. eapply find_idx_unique; [done|by rewrite Hu, Z.eqb_refl|].
  intros j g Hg [Hgu He%Z.eqb_eq]%andb_true_iff. by eapply (Hok j i g f).
Qed.

Lemma fid_alloc_Some fids fid i fids' :
  styx_fid_alloc fids fid = Some (i, fids') ->
  exists old f, fids !! i = Some old /\ f_in_use old = false /\ fids' = <[i := f]> fids /\
    f_in_use f = true /\ f_fid f = fid.
Proof.
  unfold styx_fid_alloc. destruct (find_idx _ fids) as [k|] eqn:E; [|done].
  intros [= <- <-]. apply find_idx_Some in E as (old & Ho & Hp & _).
  exists old. eexists. split_and!; try done. by apply negb_true_iff.
Qed.

Lemma fids_ok_insert fids i old f :
  fids_ok fids -> fids !! i = Some old ->
  (f_in_use f = true -> forall j g, j <> i -> fids !! j = Some g -> f_in_use g = true ->
     f_fid g <> f_fid f) ->
  fids_ok (<[i := f]> fids).
Proof.
  intros Hok Hold Hnew j k g h Hg Hh Lg Lh E. unfold fid_live in *.
  assert (Hi := lookup_lt_Some _ _ _ Hold).
  destruct (decide (i = j)) as [<-|Hj], (decide (i = k)) as [<-|Hk]; [done|..];
    rewrite ?list_lookup_insert_eq in Hg by done; rewrite ?list_lookup_insert_eq in Hh by done;
    rewrite ?list_lookup_insert_ne in Hg by done; rewrite ?list_lookup_insert_ne in Hh by done;
    simplify_eq.
  - by destruct (Hnew Lg k h ltac:(congruence) Hh Lh).
  - by destruct (Hnew Lh j g ltac:(congruence) Hg Lg).
  - by eapply (Hok j k g h).
Qed.

(** Allocation keeps the table free of duplicates exactly when the fid is not
    live yet (what the clone path of Twalk checks first). *)
Lemma styx_fid_alloc_ok fids fid i fids' :
  fids_ok fids -> styx_fid_lookup fids fid = None ->
  styx_fid_alloc fids fid = Some (i, fids') ->
  fids_ok fids' /\ styx_fid_lookup fids' fid = Some i.
Proof.
  intros Hok Hn Ha. apply fid_alloc_Some in Ha as (old & f & Ho & _ & -> & Hu & Hf).
  assert (fids_ok (<[i := f]> fids)) as Hok'.
  { eapply fids_ok_insert; [done..|]. intros _ j g _ Hg Hgu. rewrite Hf.
    by eapply fid_lookup_None. }
  split; [done|]. eapply fid_lookup_unique; [done| |done..].
  apply list_lookup_insert_eq. by eapply lookup_lt_Some.
Qed.

Lemma styx_fid_free_ok fids fid :
  fids_ok fids -> fids_ok (styx_fid_free fids fid) /\
    styx_fid_lookup (styx_fid_free fids fid) fid = None.
Proof.
  intros Hok. unfold styx_fid_free. destruct (styx_fid_lookup fids fid) as [i|] eqn:E; [|done].
  pose proof E as (f & Hf & Hu & Hfid)%fid_lookup_Some.
  rewrite (alter_insert _ _ _ f) by done.
  split; [by eapply fids_ok_insert|]. apply find_idx_None. intros j g Hg.
  rewrite list_lookup_insert in Hg. case_decide as C; [by simplify_eq|].
  destruct (f_in_use g) eqn:Eg; [|done]. simpl. apply Z.eqb_neq. intros Heq.
  apply C. split; [|by eapply lookup_lt_Some]. symmetry. by eapply (Hok j i g f); try congruence.
Qed.

(** ** The tag table is a finite map from tags to requests *)

Record tags_repr (t : styx_tagtable) (m : gmap Z Z) : Prop := {
  tr_len : length (t_slots t) = STYX_TAG_SLOTS;
  tr_tag : forall i s, t_slots t !! i = Some s -> t_tag s = Z.of_nat i;
  tr_map : forall k r, m !! k = Some r <->
    exists i s, t_slots t !! i = Some s /\ t_in_use s = true /\ k = Z.of_nat i /\ r = t_req_id s;
  tr_live : t_live t = Z.of_nat (count t_in_use (t_slots t)) }.

Lemma tags_find t m tag :
  tags_repr t m ->
  match find_idx (tag_match tag) (t_slots t) with
  | Some i => exists s, t_slots t !! i = Some s /\ t_in_use s = true /\
                tag = Z.of_nat i /\ m !! tag = Some (t_req_id s)
  | None => m !! tag = None
  end.
Proof.
  intros [Hlen Htag Hmap _]. destruct (find_idx _ _) as [i|] eqn:E.
  - apply find_idx_Some in E as (s & Hs & [Hu Ht%Z.eqb_eq]%andb_true_iff & _).
    pose proof (Htag i s Hs). exists s. split_and!; [done..|lia|].
    apply Hmap. exists i, s. split_and!; [done..|lia|done].
  - destruct (m !! tag) as [r|] eqn:Em; [|done].
    apply Hmap in Em as (i & s & Hs & Hu & -> & _).
    apply find_idx_None with (j := i) (x := s) in E; [|done].
    unfold tag_match in E. rewrite Hu, (Htag i s Hs), Z.eqb_refl in E. done.
Qed.

(** Changing one slot in place changes the map at that tag only. *)
Lemma tags_repr_insert t m i s s' :
  tags_repr t m -> t_slots t !! i = Some s -> t_tag s' = t_tag s ->
  tags_repr
    {| t_slots := <[i := s']> (t_slots t);
       t_live := t_live t + b2z (t_in_use s') - b2z (t_in_use s) |}
    (if t_in_use s' then <[Z.of_nat i := t_req_id s']> m else delete (Z.of_nat i) m).
Proof.
  intros [Hlen Htag Hmap Hlive] Hs Htg. assert (Hi := lookup_lt_Some _ _ _ Hs).
  split; simpl.
  - by rewrite length_insert.
  - intros j x Hx. destruct (decide (i = j)) as [<-|].
    + rewrite list_lookup_insert_eq in Hx by done. simplify_eq. by rewrite Htg, (Htag i s).
    + rewrite list_lookup_insert_ne in Hx by done. eauto.
  - intros k r. destruct (decide (k = Z.of_nat i)) as [->|Hk].
    + assert ((if t_in_use s' then <[Z.of_nat i := t_req_id s']> m else delete (Z.of_nat i) m)
        !! Z.of_nat i = if t_in_use s' then Some (t_req_id s') else None) as ->.
      { destruct (t_in_use s'); by simplify_map_eq. }
      split.
      * destruct (t_in_use s') eqn:E; [|done]. intros [= <-]. exists i, s'.
        split_and!; [by apply list_lookup_insert_eq|done..].
      * intros (j & x & Hx & Hu & Hj & ->). apply Nat2Z.inj in Hj as <-.
        rewrite list_lookup_insert_eq in Hx by done. simplify_eq. by rewrite Hu.
    + assert ((if t_in_use s' then <[Z.of_nat i := t_req_id s']> m else delete (Z.of_nat i) m)
        !! k = m !! k) as ->.
      { destruct (t_in_use s'); by simplify_map_eq. }
      rewrite Hmap. split; intros (j & x & Hx & Hu & -> & ->); exists j, x;
        rewrite list_lookup_insert_ne in * by (intros ->; done); eauto.
  - pose proof (count_insert t_in_use (t_slots t) i s s' Hs).
    unfold b2z. destruct (t_in_use s), (t_in_use s'); lia.
Qed.

Lemma tags_repr_proper t m t' m' :
  tags_repr t m -> t_slots t = t_slots t' -> t_live t = t_live t' -> m = m' -> tags_repr t' m'.
Proof. destruct t, t'; simpl. intros ? -> -> <-. done. Qed.

Lemma tags_init_repr : tags_repr styx_tags_init ∅.
Proof.
  assert (forall i s, t_slots styx_tags_init !! i = Some s ->
    t_tag s = Z.of_nat i /\ t_in_use s = false) as H.
  { intros i s. unfold styx_tags_init. cbn [t_slots]. rewrite list_lookup_fmap.
    destruct (seq 0 STYX_TAG_SLOTS !! i) as [j|] eqn:E; [|done].
    apply lookup_seq in E as [-> Hj]. intros [= <-]. simpl. split; [|done].
    apply wrap_id. unfold STYX_TAG_SLOTS in *. unfold_fits. lia. }
  split.
  - done.
  - intros i s Hs. by apply H.
  - intros k r. rewrite lookup_empty. split; [done|].
    intros (i & s & Hs & Hu & _). destruct (H i s Hs). congruence.
  - done.
Qed.

(** ** The flush table is a finite map from in-flight tags to their flag *)

Definition flush_repr (t : list styx_flush_slot) (m : gmap Z bool) : Prop :=
  length t = STYX_FLUSH_MAX /\
  (forall i j s u, t !! i = Some s -> t !! j = Some u -> fl_in_use s = true ->
     fl_in_use u = true -> fl_tag s = fl_tag u -> i = j) /\
  (forall k c, m !! k = Some c <->
     exists i s, t !! i = Some s /\ fl_in_use s = true /\ fl_tag s = k /\ fl_cancelled s = c).

Lemma flush_find_repr t m tag :
  flush_repr t m ->
  match flush_find t tag with
  | Some i => exists s, t !! i = Some s /\ fl_in_use s = true /\ fl_tag s = tag /\
                m !! tag = Some (fl_cancelled s)
  | None => m !! tag = None
  end.
Proof.
  intros (Hlen & Huniq & Hmap). unfold flush_find. destruct (find_idx _ _) as [i|] eqn:E.
  - apply find_idx_Some in E as (s & Hs & [Hu Ht%Z.eqb_eq]%andb_true_iff & _).
    exists s. split_and!; [done..|]. apply Hmap. eauto 6.
  - destruct (m !! tag) as [r|] eqn:Em; [|done].
    apply Hmap in Em as (i & s & Hs & Hu & Ht & _).
    apply find_idx_None with (j := i) (x := s) in E; [|done].
    by rewrite Hu, Ht, Z.eqb_refl in E.
Qed.

(** Overwriting slot [i]: its old tag leaves the map, its new one enters. *)
Lemma flush_repr_insert t m i s s' m' :
  flush_repr t m -> t !! i = Some s ->
  (fl_in_use s' = true -> forall j u, j <> i -> t !! j = Some u -> fl_in_use u = true ->
     fl_tag u <> fl_tag s') ->
  (forall k, m' !! k =
     if fl_in_use s' && (fl_tag s' =? k) then Some (fl_cancelled s')
     else if fl_in_use s && (fl_tag s =? k) then None else m !! k) ->
  flush_repr (<[i := s']> t) m'.
Proof.
  intros (Hlen & Huniq & Hmap) Hs Hnew Hm'. assert (Hi := lookup_lt_Some _ _ _ Hs).
  assert (forall j u, (<[i := s']> t) !! j = Some u ->
    j = i /\ u = s' \/ j <> i /\ t !! j = Some u) as Hins.
  { intros j u Hu. destruct (decide (i = j)) as [<-|].
    - rewrite list_lookup_insert_eq in Hu by done. naive_solver.
    - rewrite list_lookup_insert_ne in Hu by done. naive_solver. }
  split_and!; [by rewrite length_insert|..].
  - intros j k u v [[-> ->]|[Hj Hu]]%Hins [[-> ->]|[Hk Hv]]%Hins Lu Lv E; [done|..].
    + by destruct (Hnew Lu k v Hk Hv Lv).
    + by destruct (Hnew Lv j u Hj Hu Lu).
    + by eapply (Huniq j k u v).
  - intros k c. rewrite Hm'. split.
    + destruct (fl_in_use s' && (fl_tag s' =? k)) eqn:E1.
      { apply andb_true_iff in E1 as [? <-%Z.eqb_eq]. intros [= <-]. exists i, s'.
        split_and!; [by apply list_lookup_insert_eq|done..]. }
      destruct (fl_in_use s && (fl_tag s =? k)) eqn:E2; [done|].
      intros (j & u & Hu & Lu & Tu & Cu)%Hmap. exists j, u. split_and!; [|done..].
      rewrite list_lookup_insert_ne; [done|]. intros <-. simplify_eq.
      by rewrite Lu, Z.eqb_refl in E2.
    + intros (j & u & [[-> ->]|[Hj Hu]]%Hins & Lu & Tu & Cu).
      { rewrite Lu, Tu, Z.eqb_refl. simpl. by f_equal. }
      destruct (fl_in_use s' && (fl_tag s' =? k)) eqn:E1.
      { apply andb_true_iff in E1 as [L <-%Z.eqb_eq]. by destruct (Hnew L j u Hj Hu Lu). }
      destruct (fl_in_use s && (fl_tag s =? k)) eqn:E2.
      { apply andb_true_iff in E2 as [L T%Z.eqb_eq]. destruct Hj.
        eapply (Huniq j i u s); congruence. }
      apply Hmap. eauto 6.
Qed.

(** ** Byte-range locks exclude writers *)

Definition lock_overlap (l1 l2 : styx_lock_rec) : bool :=
  overlaps (l_start l1) (snd (range l1)) (l_start l2) (snd (range l2)).

Lemma overlaps_sym s1 e1 s2 e2 : overlaps s1 e1 s2 e2 = overlaps s2 e2 s1 e1.
Proof. unfold overlaps. by rewrite orb_comm. Qed.

(** Live locks of two owners on one file that overlap are both read locks. *)
Definition locks_ok (t : list styx_lock_rec) : Prop :=
  forall i j l1 l2, t !! i = Some l1 -> t !! j = Some l2 ->
    l_in_use l1 = true -> l_in_use l2 = true -> l_qid l1 = l_qid l2 ->
    l_owner l1 <> l_owner l2 -> lock_overlap l1 l2 = true ->
    l_type l1 <> STYX_LOCK_WRLCK /\ l_type l2 <> STYX_LOCK_WRLCK.

Lemma lock_conflicts_spec l qid owner start len type :
  lock_conflicts qid owner start (range_end start len) type l = false ->
  l_in_use l = true -> l_qid l = qid -> l_owner l <> owner ->
  overlaps start (range_end start len) (l_start l) (snd (range l)) = true ->
  l_type l <> STYX_LOCK_WRLCK /\ type <> STYX_LOCK_WRLCK.
Proof.
  unfold lock_conflicts. intros H Hu <- Ho Hov. rewrite Hu, Z.eqb_refl in H. simpl in H.
  destruct (Z.eqb_spec (l_owner l) owner); [done|]. unfold range in *. simpl in *.
  rewrite Hov in H. simpl in H. apply orb_false_iff in H as [?%Z.eqb_neq ?%Z.eqb_neq]. done.
Qed.

Lemma locks_ok_insert t i old l :
  locks_ok t -> t !! i = Some old -> l_in_use l = true ->
  existsb (lock_conflicts (l_qid l) (l_owner l) (l_start l)
             (range_end (l_start l) (l_length l)) (l_type l)) t = false ->
  locks_ok (<[i := l]> t).
Proof.
  intros Hok Hold Hu Hnc. assert (Hi := lookup_lt_Some _ _ _ Hold).
  assert (forall j k, t !! j = Some k -> l_in_use k = true -> l_qid k = l_qid l ->
    l_owner k <> l_owner l -> lock_overlap l k = true ->
    l_type k <> STYX_LOCK_WRLCK /\ l_type l <> STYX_LOCK_WRLCK) as Hnew.
  { intros j k Hk Lk Q O Hov.
    apply (lock_conflicts_spec k (l_qid l) (l_owner l) (l_start l) (l_length l)); try done.
    apply not_true_iff_false. intros Hc. apply not_true_iff_false in Hnc. apply Hnc.
    apply existsb_exists. exists k. split; [|done]. apply list_elem_of_In.
    by eapply list_elem_of_lookup_2. }
  intros j k l1 l2 H1 H2 L1 L2 Q O Hov.
  destruct (decide (i = j)) as [<-|Hj], (decide (i = k)) as [<-|Hk];
    rewrite ?list_lookup_insert_eq in H1 by done; rewrite ?list_lookup_insert_eq in H2 by done;
    rewrite ?list_lookup_insert_ne in H1 by done; rewrite ?list_lookup_insert_ne in H2 by done;
    simplify_eq.
  - destruct (Hnew k l2); [done..|]. by split.
  - destruct (Hnew j l1); [done..| |by split]. unfold lock_overlap in *. by rewrite overlaps_sym.
  - by eapply (Hok j k).
Qed.

Lemma locks_ok_unlock t qid owner start len :
  locks_ok t -> locks_ok (snd (styx_unlock t qid owner start len)).
Proof.
  intros Hok i j l1 l2 H1 H2 L1 L2. simpl in H1, H2. rewrite list_lookup_fmap in H1, H2.
  destruct (t !! i) as [k1|] eqn:E1, (t !! j) as [k2|] eqn:E2; simplify_eq/=.
  repeat case_match; simplify_eq/=. by eapply (Hok i j).
Qed.

Lemma locks_ok_lock t qid owner start len type :
  locks_ok t -> locks_ok (snd (styx_lock t qid owner start len type)).
Proof.
  intros Hok. unfold styx_lock. set (conf := existsb _ t).
  destruct (Z.eqb_spec type STYX_LOCK_UNLCK) as [->|Hty]; simpl.
  { by apply locks_ok_unlock. }
  destruct conf eqn:Hc; subst conf; [done|].
  destruct (find_idx (same_range _ _ _ _) t) as [i|] eqn:E1.
  { apply find_idx_Some in E1 as (l & Hl & Hs & _). unfold same_range in Hs.
    rewrite !andb_true_iff, !Z.eqb_eq in Hs. destruct Hs as [[[[Hu Hq] Ho] Hst] Hln].
    simpl. rewrite (alter_insert _ _ _ l) by done.
    apply (locks_ok_insert t i l); [done..|]. simpl. by rewrite Hq, Ho, Hst, Hln. }
  clear E1. destruct (find_idx (fun l => negb (l_in_use l)) t) as [i|] eqn:E2; [|done].
  apply find_idx_Some in E2 as (l & Hl & _). by apply (locks_ok_insert t i l).
Qed.

(** The lock tables a connection can reach. *)
Inductive locks_reach : list styx_lock_rec -> Prop :=
| reach_init : locks_reach styx_locks_init
| reach_lock t qid owner start len type :
    locks_reach t -> locks_reach (snd (styx_lock t qid owner start len type))
| reach_unlock t qid owner start len :
    locks_reach t -> locks_reach (snd (styx_unlock t qid owner start len)).

Lemma locks_reach_ok t : locks_reach t -> locks_ok t.
Proof.
  induction 1; [|by apply locks_ok_lock|by apply locks_ok_unlock].
  intros i j l1 l2 [-> _]%lookup_replicate_1 _ Hu. done.
Qed.

(** Byte [x] of the file is in the range the lock names. *)
Definition lock_covers (l : styx_lock_rec) (x : Z) : Prop :=
  l_start l <= x <= END /\ (l_length l <> 0 -> x < l_start l + l_length l).

Lemma covers_overlap l1 l2 x :
  0 <= l_start l1 -> 0 <= l_start l2 -> 0 <= l_length l1 -> 0 <= l_length l2 ->
  l_start l1 + l_length l1 <= 2 ^ 64 -> l_start l2 + l_length l2 <= 2 ^ 64 ->
  lock_covers l1 x -> lock_covers l2 x -> lock_overlap l1 l2 = true.
Proof.
  unfold lock_covers, lock_overlap, overlaps, range, range_end, END. simpl.
  intros ? ? ? ? ? ? [? C1] [? C2].
  rewrite negb_true_iff, orb_false_iff, !Z.ltb_ge.
  destruct (Z.eqb_spec (l_length l1) 0), (Z.eqb_spec (l_length l2) 0);
    rewrite ?wrap_id by (unfold fits; lia); lia.
Qed.

(** ** Properties of the tables *)

(** The tag table refines a finite map from tags to requests: allocation picks
    a tag below 256 that no request holds, lookup and release are the map's. *)
Theorem styx_tags_refine_map (t : styx_tagtable) (m : gmap Z Z) :
  tags_repr t m ->
  (forall req, match styx_tags_alloc t req with
     | inr (tag, t') => 0 <= tag < 256 /\ m !! tag = None /\ tags_repr t' (<[tag := req]> m)
     | inl rc => rc = -1 /\ forall k, 0 <= k < 256 -> is_Some (m !! k)
     end) /\
  (forall tag, styx_tags_lookup t tag =
     match m !! tag with Some r => inr r | None => inl (-1) end) /\
  (forall tag, fst (styx_tags_release t tag) = match m !! tag with Some _ => 0 | None => -1 end /\
     tags_repr (snd (styx_tags_release t tag)) (delete tag m)).
Proof.
  intros Hr. split_and!.
  - intros req. unfold styx_tags_alloc.
    destruct (find_idx (fun s => negb (t_in_use s)) (t_slots t)) as [i|] eqn:E.
    + apply find_idx_Some in E as (s & Hs & Hf%negb_true_iff & _). rewrite Hs.
      pose proof (lookup_lt_Some _ _ _ Hs). pose proof (tr_tag _ _ Hr i s Hs) as Ht.
      rewrite (tr_len _ _ Hr) in *. unfold STYX_TAG_SLOTS in *. split_and!; [lia..| |].
      * rewrite Ht. destruct (m !! Z.of_nat i) as [r|] eqn:Em; [|done].
        apply (tr_map _ _ Hr) in Em as (j & s' & Hs' & Hu & Hj%Nat2Z.inj & _).
        simplify_eq. congruence.
      * eapply tags_repr_proper;
          [eapply (tags_repr_insert _ _ i s (Build_styx_tag_slot (t_tag s) req true) Hr Hs);
           done|done|simpl; rewrite Hf; simpl; lia|simpl; by rewrite Ht].
    + split; [done|]. intros k Hk.
      destruct (lookup_lt_is_Some_2 (t_slots t) (Z.to_nat k)) as [s Hs].
      { rewrite (tr_len _ _ Hr). unfold STYX_TAG_SLOTS. lia. }
      apply find_idx_None with (j := Z.to_nat k) (x := s) in E; [|done].
      exists (t_req_id s). apply (tr_map _ _ Hr). exists (Z.to_nat k), s.
      split_and!; [done|by apply negb_false_iff|lia|done].
  - intros tag. unfold styx_tags_lookup. pose proof (tags_find _ _ tag Hr) as Hf.
    destruct (find_idx _ _) as [i|]; [|by rewrite Hf].
    destruct Hf as (s & -> & _ & _ & ->). done.
  - intros tag. unfold styx_tags_release. pose proof (tags_find _ _ tag Hr) as Hf.
    destruct (find_idx _ _) as [i|]; simpl.
    + destruct Hf as (s & Hs & Hu & Ht & ->). split; [done|].
      rewrite (alter_insert _ _ _ s) by done.
      eapply tags_repr_proper;
        [eapply (tags_repr_insert _ _ i s (Build_styx_tag_slot (t_tag s) 0 false) Hr Hs);
         done|done|simpl; rewrite Hu; simpl; lia|simpl; by rewrite Ht].
    + rewrite Hf. split; [done|]. by rewrite delete_id.
Qed.

Lemma styx_tags_refine_map_witness :
  tags_repr styx_tags_init ∅ /\ styx_tags_lookup styx_tags_init 3 = inl (-1).
Proof.
  split; [exact tags_init_repr|].
  exact (proj1 (proj2 (styx_tags_refine_map styx_tags_init ∅ tags_init_repr)) 3).
Defined.

(** The flush table refines a map from in-flight tags to their cancelled flag:
    a request begins only when its tag is not in flight, a flush of an unknown
    tag fails and changes nothing, and a finished tag can be used again. *)
Theorem styx_flush_refines_map (t : list styx_flush_slot) (m : gmap Z bool) (tag : Z) :
  flush_repr t m ->
  (match styx_flush_begin t tag with
   | (rc, t') => (rc = 0 /\ m !! tag = None /\ flush_repr t' (<[tag := false]> m)) \/
                 (rc = -1 /\ t' = t /\ (is_Some (m !! tag) \/
                    styx_flush_in_flight t = Z.of_nat STYX_FLUSH_MAX))
   end) /\
  styx_flush_is_cancelled t tag = match m !! tag with Some true => 1 | _ => 0 end /\
  (match styx_flush_cancel t tag with
   | (rc, t') => rc = match m !! tag with Some _ => 0 | None => -1 end /\
                 flush_repr t' (match m !! tag with Some _ => <[tag := true]> m | None => m end)
   end) /\
  (match styx_flush_end t tag with
   | (rc, t') => rc = match m !! tag with Some _ => 0 | None => -1 end /\
                 flush_repr t' (delete tag m)
   end).
Proof.
  intros Hr. pose proof (flush_find_repr t m tag Hr) as Hf. split_and!.
  - unfold styx_flush_begin. destruct (flush_find t tag) as [i|].
    { destruct Hf as (s & _ & _ & _ & ->). right. split_and!; [done..|]. left. by eexists. }
    destruct (find_idx (fun s => negb (fl_in_use s)) t) as [i|] eqn:E.
    + apply find_idx_Some in E as (s & Hs & Hfree%negb_true_iff & _). left.
      split_and!; [done..|].
      eapply (flush_repr_insert t m i s); [done..| |].
      * intros _ j u _ Hu Lu Et. simpl in Et. destruct Hr as (_ & _ & Hmap).
        assert (m !! tag = Some (fl_cancelled u)) by (apply Hmap; eauto 6). congruence.
      * intros k. simpl. rewrite Hfree. simpl. rewrite lookup_insert.
        destruct (Z.eqb_spec tag k); case_decide; done.
    + right. split_and!; [done..|]. right. unfold styx_flush_in_flight. f_equal.
      destruct Hr as (<- & _). apply count_all.
      intros x [j Hj]%list_elem_of_lookup. apply negb_false_iff.
      by eapply find_idx_None in E.
  - unfold styx_flush_is_cancelled. destruct (flush_find t tag) as [i|]; [|by rewrite Hf].
    destruct Hf as (s & -> & _ & _ & ->). by destruct (fl_cancelled s).
  - unfold styx_flush_cancel. destruct (flush_find t tag) as [i|]; [|by rewrite Hf].
    destruct Hf as (s & Hs & Hu & Ht & ->). split; [done|].
    rewrite (alter_insert _ _ _ s) by done.
    eapply (flush_repr_insert t m i s); [done..| |].
    + intros _ j u Hj Hu' Lu. simpl. intros Et. destruct Hr as (_ & Huniq & _).
      apply Hj. by eapply (Huniq j i u s).
    + intros k. simpl. rewrite Hu, Ht. simpl. rewrite lookup_insert.
      destruct (Z.eqb_spec tag k); case_decide; done.
  - unfold styx_flush_end. destruct (flush_find t tag) as [i|].
    2:{ rewrite Hf. split; [done|]. by rewrite delete_id. }
    destruct Hf as (s & Hs & Hu & Ht & ->). split; [done|].
    eapply (flush_repr_insert t m i s); [done..| |].
    + done.
    + intros k. simpl. rewrite Hu, Ht. simpl. rewrite lookup_delete.
      destruct (Z.eqb_spec tag k); case_decide; done.
Qed.

Lemma flush_init_repr : flush_repr styx_flush_init ∅.
Proof.
  split_and!; [done|..].
  - intros i j s u [-> _]%lookup_replicate_1. done.
  - intros k c. rewrite lookup_empty. split; [done|].
    intros (i & s & [-> _]%lookup_replicate_1 & ? & _). done.
Qed.

Lemma styx_flush_refines_map_witness :
  flush_repr styx_flush_init ∅ /\ styx_flush_is_cancelled styx_flush_init 7 = 0.
Proof.
  split; [exact flush_init_repr|].
  exact (proj1 (proj2 (styx_flush_refines_map styx_flush_init ∅ 7 flush_init_repr))).
Defined.

(** Mutual exclusion: in every table that lock and unlock requests can lead to,
    two owners never hold locks that cover a common byte of a file when one of
    them is a write lock (for ranges that end inside the 64-bit file). *)
Theorem styx_locks_exclude_writers (t : list styx_lock_rec) (i j : nat)
    (l1 l2 : styx_lock_rec) (x : Z) :
  locks_reach t -> t !! i = Some l1 -> t !! j = Some l2 ->
  l_in_use l1 = true -> l_in_use l2 = true ->
  l_qid l1 = l_qid l2 -> l_owner l1 <> l_owner l2 ->
  0 <= l_start l1 -> 0 <= l_length l1 -> l_start l1 + l_length l1 <= 2 ^ 64 ->
  0 <= l_start l2 -> 0 <= l_length l2 -> l_start l2 + l_length l2 <= 2 ^ 64 ->
  lock_covers l1 x -> lock_covers l2 x ->
  l_type l1 <> STYX_LOCK_WRLCK /\ l_type l2 <> STYX_LOCK_WRLCK.
Proof.
  intros Hr H1 H2 ? ? ? ? ? ? ? ? ? ? ? ?.
  eapply (locks_reach_ok t Hr i j); try done. by eapply covers_overlap.
Qed.

Lemma styx_locks_exclude_writers_witness :
  let t := snd (styx_lock (snd (styx_lock styx_locks_init 1 10 0 4 STYX_LOCK_RDLCK))
                  1 20 2 0 STYX_LOCK_RDLCK) in
  exists l1 l2, t !! 0%nat = Some l1 /\ t !! 1%nat = Some l2 /\
    l_type l1 <> STYX_LOCK_WRLCK /\ l_type l2 <> STYX_LOCK_WRLCK.
Proof.
  eexists _, _. split; [reflexivity|]. split; [reflexivity|].
  apply (styx_locks_exclude_writers
    (snd (styx_lock (snd (styx_lock styx_locks_init 1 10 0 4 STYX_LOCK_RDLCK))
            1 20 2 0 STYX_LOCK_RDLCK)) 0 1 _ _ 3);
    try reflexivity; try (vm_compute; congruence);
    try (split; vm_compute; [split; congruence|congruence]).
  apply reach_lock, reach_lock, reach_init.
Defined.

(** When [start + length] passes 2^64 the end of the range wraps and the check
    misses the overlap: a table that requests can reach holds two write locks
    of different owners that both cover byte 20 of one file. *)
Theorem styx_locks_overflow_breaks_exclusion :
  exists t l1 l2, locks_reach t /\ t !! 0%nat = Some l1 /\ t !! 1%nat = Some l2 /\
    l_in_use l1 = true /\ l_in_use l2 = true /\ l_qid l1 = l_qid l2 /\
    l_owner l1 <> l_owner l2 /\ lock_covers l1 20 /\ lock_covers l2 20 /\
    l_type l1 = STYX_LOCK_WRLCK /\ l_type l2 = STYX_LOCK_WRLCK.
Proof.
  exists (snd (styx_lock (snd (styx_lock styx_locks_init 1 1 10 (2 ^ 64 - 5) STYX_LOCK_WRLCK))
            1 2 20 1 STYX_LOCK_WRLCK)).
  eexists _, _. split; [apply reach_lock, reach_lock, reach_init|].
  split; [reflexivity|]. split; [reflexivity|]. vm_compute. split_and!; congruence.
Qed.

(** Every errno has a fixed ename text that fits in one Styx string, and naming
    a message type is visible at once without renaming any other type. *)
Theorem styx_names_total (r : msg_registry) (err ty ty' : Z) (name : list Z) :
  length (mr_names r) = STYX_MSG_REGISTRY_MAX -> 0 <= ty < 256 -> 0 <= ty' < 256 ->
  (length (styx_errno_ename err) <= 255)%nat /\ is_cstr (styx_errno_ename err) /\
  fst (styx_msg_name_register r ty (Some name)) = 0 /\
  fst (styx_msg_name (snd (styx_msg_name_register r ty (Some name))) ty') =
    (if decide (ty' = ty) then name else fst (styx_msg_name r ty')).
Proof.
  intros Hlen Hty Hty'.
  assert (length (mr_names (styx_msg_registry_seed r)) = 256%nat) as Hl.
  { unfold styx_msg_registry_seed. destruct (mr_seeded r); [done|]. cbn [mr_names].
    rewrite length_app, length_fmap, length_seq, length_drop, Hlen. done. }
  assert (mr_seeded (styx_msg_registry_seed r) = true) as Hseed.
  { unfold styx_msg_registry_seed. by destruct (mr_seeded r) eqn:?. }
  split_and!.
  - unfold styx_errno_ename. repeat case_match; vm_compute; lia.
  - unfold styx_errno_ename. repeat case_match; apply (bool_decide_unpack _); vm_compute; exact I.
  - unfold styx_msg_name_register, STYX_MSG_REGISTRY_MAX.
    destruct (Z.geb_spec ty (Z.of_nat 256)); [lia|done].
  - unfold styx_msg_name_register, STYX_MSG_REGISTRY_MAX.
    destruct (Z.geb_spec ty (Z.of_nat 256)); [lia|]. unfold styx_msg_name. simpl snd.
    unfold styx_msg_registry_seed at 1. cbn [mr_seeded mr_names]. rewrite Hseed. cbn [mr_names fst].
    rewrite list_lookup_insert, Hl.
    destruct (decide (ty' = ty)) as [->|Hne].
    + rewrite decide_True by lia. done.
    + rewrite decide_False by lia. done.
Qed.

Lemma styx_names_total_witness :
  fst (styx_msg_name (snd (styx_msg_name_register msg_registry_static 200 (Some (str "Tx")))) 110)
    = str "Twalk".
Proof.
  etransitivity;
    [apply (styx_names_total msg_registry_static 0 200 110 (str "Tx")); [reflexivity|lia|lia]|].
  reflexivity.
Defined.
