(* ===== verification/StyxServe.v ===== *)
(** * The Styx/9P2000 server: one request, one response

    [styx_serve] of [runtime/styx_serve.c], one definition per arm of its
    dispatch, over the fid table of [StyxTables] and the messages of [StyxWire].

    The file-system callbacks of [styx_server_t] are code of other components:
    they are parameters, optional like the source's function pointers, and may
    change the whole server state they receive, [user_data] included.  [s_errno]
    is the C library's [errno], which the error replies consult.  A callback
    that fills a buffer returns the bytes it wrote.

    [inbuf] is the readable memory at the pointer; [inlen] is what the caller
    announces.  The result is [None] when the handler reads outside that memory
    or through a NULL pointer; otherwise the new state, the return code and what
    was written to [outbuf] ([None] when nothing was). *)

From S2P Require Import Prelude StyxWire StyxTables.
Open Scope Z_scope.

Section server.
Context {U : Type}.

Record styx_server := {
  s_fids : list styx_fid;
  s_next_tag : Z;
  s_msize : Z;
  s_max_msize : Z;
  s_version : list Z;
  s_connected : bool;
  s_user : U;
  s_errno : Z }.

Record styx_ops := {
  op_clone : option (styx_server -> Z -> Z -> styx_server);
  op_attach : option (styx_server -> Z -> list Z -> styx_server * Z);
  op_walk : option (styx_server -> Z -> Z -> list (option (list Z)) -> Z ->
                    styx_server * Z * list styx_qid * Z);   (* [None]: a pointer never set *)
  op_open : option (styx_server -> Z -> Z -> styx_server * Z * styx_qid);
  op_read : option (styx_server -> Z -> Z -> Z -> styx_server * Z * list Z * Z);
  op_write : option (styx_server -> Z -> Z -> Z -> list Z -> styx_server * Z * Z);
  op_clunk : option (styx_server -> Z -> styx_server);
  op_remove : option (styx_server -> Z -> styx_server);
  op_stat : option (styx_server -> Z -> styx_server * Z * styx_dir);
  op_wstat : option (styx_server -> Z -> styx_dir -> styx_server * Z);
  op_auth : option (styx_server -> Z -> list Z -> list Z -> styx_server * Z * styx_qid);
  op_create : option (styx_server -> Z -> list Z -> Z -> Z -> styx_server * Z * styx_qid);
  op_flush : option (styx_server -> Z -> styx_server) }.

Definition with_fids (srv : styx_server) (fids : list styx_fid) : styx_server :=
  {| s_fids := fids; s_next_tag := s_next_tag srv; s_msize := s_msize srv;
     s_max_msize := s_max_msize srv; s_version := s_version srv;
     s_connected := s_connected srv; s_user := s_user srv; s_errno := s_errno srv |}.

Definition styx_init (user : U) (errno : Z) : styx_server :=
  {| s_fids := replicate STYX_MAX_FIDS zero_fid; s_next_tag := 1; s_msize := STYX_MAX_MSG;
     s_max_msize := STYX_MAX_MSG; s_version := str "9P2000"; s_connected := false;
     s_user := user; s_errno := errno |}.

Definition reply : Type := styx_server * Z * option (list Z).

(** Every handler leaves a message in [outbuf] and returns 0. *)
Definition ok (srv : styx_server) (out : list Z) : option reply := Some (srv, 0, Some out).
Definition err (srv : styx_server) (tag : Z) (msg : string) : option reply :=
  ok srv (styx_error tag (str msg)).

(** The error text: the callback's errno names the reason, if it set one. *)
Definition err_errno (srv : styx_server) (tag : Z) (msg : string) : option reply :=
  ok srv (styx_error tag
    (if negb (s_errno srv =? 0) then styx_errno_ename (s_errno srv) else str msg)).

(** [STYX_NEED (off)]. *)
Definition need (off msg_size : Z) (srv : styx_server) (tag : Z) (k : option reply)
  : option reply :=
  if u32 off >? msg_size then err srv tag "Truncated message" else k.

(** [styx_getstr] at a pointer that must not be NULL; [(int)msg_size - off]. *)
Definition getstr_at (m : list Z) (p : nat) (outsz msg_size : Z)
  : option (option (list Z * nat)) :=
  styx_getstr m p outsz (s32 msg_size - Z.of_nat p).

Definition STYX_MSIZE_FLOOR : Z := 64.

Variable ops : styx_ops.

Definition serve_tversion (srv : styx_server) (m : list Z) (msg_size tag : Z) : option reply :=
  c_msize ← styx_get32 m 7;
  need (11 + 2) msg_size srv tag (
  r ← getstr_at m 11 16 msg_size;
  let c_version := match r with Some (s, _) => s | None => [] end in
  if negb (strncmp_eq c_version (str "9P2000") 6) &&
     negb (strcmp_eq c_version (str "9P2000.u"))
  then err srv tag "Unknown protocol version"
  else if c_msize <? STYX_MSIZE_FLOOR then err srv tag "msize too small"
  else
    let ceiling := if negb (s_max_msize srv =? 0) then s_max_msize srv else STYX_MAX_MSG in
    let ceiling := if ceiling >? STYX_MAX_MSG then STYX_MAX_MSG else ceiling in
    let msize := if c_msize <? ceiling then c_msize else ceiling in
    let srv := {| s_fids := s_fids srv; s_next_tag := s_next_tag srv; s_msize := msize;
                  s_max_msize := s_max_msize srv; s_version := str "9P2000";
                  s_connected := true; s_user := s_user srv; s_errno := s_errno srv |} in
    ok srv (build_rversion tag msize (str "9P2000"))).

Definition serve_tauth (srv : styx_server) (m : list Z) (msg_size tag : Z) : option reply :=
  need (11 + 4) msg_size srv tag (
  afid ← styx_get32 m 7;
  r ← getstr_at m 11 STYX_MAX_FNAME msg_size;
  '(uname, p) ← r;
  r ← getstr_at m p STYX_MAX_FNAME msg_size;
  let aname := match r with Some (s, _) => s | None => [] end in
  match op_auth ops with
  | Some auth =>
      let '(srv, rc, aqid) := auth srv afid (cstr uname) (cstr aname) in
      if negb (rc =? 0) then err srv tag "Authentication failed"
      else ok srv (build_rauth tag aqid)
  | None => err srv tag "authentication not required"
  end).

Definition serve_tflush (srv : styx_server) (m : list Z) (msg_size tag : Z) : option reply :=
  need 9 msg_size srv tag (
  oldtag ← styx_get16 m 7;
  let srv := match op_flush ops with Some flush => flush srv oldtag | None => srv end in
  ok srv (build_rflush tag)).

Definition serve_tcreate (srv : styx_server) (m : list Z) (msg_size tag : Z) : option reply :=
  need 13 msg_size srv tag (
  fid ← styx_get32 m 7;
  r ← getstr_at m 11 STYX_MAX_FNAME msg_size;
  '(name, p) ← r;
  if Z.of_nat p + 5 >? msg_size then err srv tag "Bad Tcreate" else
  perm ← styx_get32 m p;
  mode ← rd m (p + 4);
  match op_create ops with
  | None => err srv tag "Create not supported"
  | Some create =>
      let '(srv, rc, qid) := create srv fid (cstr name) perm mode in
      if negb (rc =? 0) then err_errno srv tag "Create failed"
      else ok srv (build_rcreate tag qid 0)
  end).

Definition root_qid : styx_qid := {| q_type := 128; q_version := 1; q_path := 1 |}.

(** [f->qid = qid]. *)
Definition set_qid (qid : styx_qid) (f : styx_fid) : styx_fid :=
  {| f_in_use := f_in_use f; f_fid := f_fid f; f_open_fid := f_open_fid f;
     f_open_mode := f_open_mode f; f_offset := f_offset f; f_qid := qid;
     f_file_state := f_file_state f |}.

Definition serve_tattach (srv : styx_server) (m : list Z) (msg_size tag : Z) : option reply :=
  need 15 msg_size srv tag (
  fid ← styx_get32 m 7;
  _ ← styx_get32 m 11;
  r ← getstr_at m 15 STYX_MAX_FNAME msg_size;
  let aname := match r with Some (s, _) => s | None => [] end in
  match op_attach ops with
  | None =>
      match styx_fid_alloc (s_fids srv) fid with
      | None => err srv tag "Out of fids"
      | Some (i, fids) =>
          ok (with_fids srv (alter (set_qid root_qid) i fids)) (build_rattach tag root_qid)
      end
  | Some attach =>
      let '(srv, rc) := attach srv fid (cstr aname) in
      if negb (rc =? 0) then err srv tag "Attach failed" else
      let qid := match styx_fid_lookup (s_fids srv) fid with
                 | Some i => default zero_qid (f_qid <$> (s_fids srv !! i))
                 | None => zero_qid
                 end in
      ok srv (build_rattach tag qid)
  end).

(** [*nf = *f; nf->fid = newfid]. *)
Definition clone_fid (newfid : Z) (f : styx_fid) : styx_fid :=
  {| f_in_use := f_in_use f; f_fid := newfid; f_open_fid := f_open_fid f;
     f_open_mode := f_open_mode f; f_offset := f_offset f; f_qid := f_qid f;
     f_file_state := f_file_state f |}.

(** [wname_ptrs]: the loop stops at the first name that does not start inside
    the message, and leaves the pointers after it as they were on the stack. *)
Definition wname_ptrs (n : Z) (names : list (list Z)) : list (option (list Z)) :=
  (Some <$> (cstr <$> names)) ++ replicate (Z.to_nat n - length names) None.

Definition serve_twalk (srv : styx_server) (m : list Z) (msg_size tag : Z) : option reply :=
  fid ← styx_get32 m 7;
  newfid ← styx_get32 m 11;
  nwname ← styx_get16 m 15;
  match styx_fid_lookup (s_fids srv) fid with
  | None => err srv tag "Bad fid in walk"
  | Some i =>
    if nwname =? 0 then
      match styx_fid_lookup (s_fids srv) newfid with
      | Some _ => err srv tag "fid in use"
      | None =>
          match styx_fid_alloc (s_fids srv) newfid with
          | None => err srv tag "Out of fids"
          | Some (j, fids) =>
              f ← fids !! i;
              let srv := with_fids srv (<[j := clone_fid newfid f]> fids) in
              let srv := match op_clone ops with
                         | Some clone => clone srv fid newfid
                         | None => srv
                         end in
              f ← s_fids srv !! i;
              out ← build_rwalk tag [f_qid f] 1;
              ok srv out
          end
      end
    else
      match op_walk ops with
      | None => err srv tag "Walk not supported"
      | Some walk =>
          let nwname_actual := if nwname >? 16 then 16 else nwname in
          names ← walk_names m msg_size (Z.to_nat nwname_actual) 17;
          let '(srv, rc, qids, nwqid) :=
            walk srv fid newfid (wname_ptrs nwname_actual names) nwname_actual in
          if negb (rc =? 0) && (nwqid =? 0) then err srv tag "Walk failed" else
          out ← build_rwalk tag qids nwqid;
          ok srv out
      end
  end.

(** [f->open_mode = mode; f->offset = 0; f->open_fid = f->fid]. *)
Definition mark_open (mode : Z) (f : styx_fid) : styx_fid :=
  {| f_in_use := f_in_use f; f_fid := f_fid f; f_open_fid := f_fid f;
     f_open_mode := mode; f_offset := 0; f_qid := f_qid f;
     f_file_state := f_file_state f |}.

Definition serve_topen (srv : styx_server) (m : list Z) (msg_size tag : Z) : option reply :=
  fid ← styx_get32 m 7;
  mode ← rd m 11;
  match styx_fid_lookup (s_fids srv) fid with
  | None => err srv tag "Bad fid in open"
  | Some i =>
      match op_open ops with
      | None =>
          f ← s_fids srv !! i;
          ok (with_fids srv (alter (mark_open mode) i (s_fids srv)))
             (build_ropen tag (f_qid f) STYX_MAX_DATA)
      | Some open =>
          let '(srv, rc, qid) := open srv fid mode in
          if negb (rc =? 0) then err_errno srv tag "Open failed" else
          ok (with_fids srv (alter (mark_open mode) i (s_fids srv)))
             (build_ropen tag qid STYX_MAX_DATA)
      end
  end.

Definition set_offset (off : Z) (f : styx_fid) : styx_fid :=
  {| f_in_use := f_in_use f; f_fid := f_fid f; f_open_fid := f_open_fid f;
     f_open_mode := f_open_mode f; f_offset := off; f_qid := f_qid f;
     f_file_state := f_file_state f |}.

(** The count a Tread is served with: what fits in the negotiated size. *)
Definition read_cap (msize count : Z) : Z :=
  let cap := if negb (msize =? 0) && (msize >? 11) then msize - 11 else STYX_MAX_DATA in
  let cap := if cap >? STYX_MAX_DATA then STYX_MAX_DATA else cap in
  if count >? cap then cap else count.

Definition serve_tread (srv : styx_server) (m : list Z) (msg_size tag : Z) : option reply :=
  fid ← styx_get32 m 7;
  offset ← styx_get64 m 11;
  count ← styx_get32 m 19;
  match styx_fid_lookup (s_fids srv) fid with
  | None => err srv tag "Bad fid in read"
  | Some i =>
      let count := read_cap (s_msize srv) count in
      match op_read ops with
      | None => out ← build_rread tag None 0; ok srv out
      | Some read =>
          let '(srv, rc, rdata, nread) := read srv fid offset count in
          if negb (rc =? 0) then err_errno srv tag "Read failed" else
          out ← build_rread tag (Some rdata) nread;
          ok (with_fids srv (alter (set_offset (u64 (offset + nread))) i (s_fids srv))) out
      end
  end.

Definition serve_twrite (srv : styx_server) (m : list Z) (msg_size tag : Z) : option reply :=
  fid ← styx_get32 m 7;
  offset ← styx_get64 m 11;
  count ← styx_get32 m 19;
  if 23 + count >? msg_size then err srv tag "Write payload overruns message" else
  match styx_fid_lookup (s_fids srv) fid with
  | None => err srv tag "Bad fid in write"
  | Some i =>
      let count := if count >? STYX_MAX_WRITE then STYX_MAX_WRITE else count in
      match op_write ops with
      | None => err srv tag "Write not supported"
      | Some write =>
          wdata ← rd_bytes m 23 (Z.to_nat count);
          let '(srv, rc, nwritten) := write srv fid offset count wdata in
          if negb (rc =? 0) then err_errno srv tag "Write failed" else
          ok (with_fids srv (alter (set_offset (u64 (offset + nwritten))) i (s_fids srv)))
             (build_rwrite tag nwritten)
      end
  end.

Definition serve_tclunk (srv : styx_server) (m : list Z) (msg_size tag : Z) : option reply :=
  fid ← styx_get32 m 7;
  match styx_fid_lookup (s_fids srv) fid with
  | None => err srv tag "Bad fid in clunk"
  | Some _ =>
      let srv := match op_clunk ops with Some clunk => clunk srv fid | None => srv end in
      ok (with_fids srv (styx_fid_free (s_fids srv) fid)) (build_rclunk tag)
  end.

Definition serve_tremove (srv : styx_server) (m : list Z) (msg_size tag : Z) : option reply :=
  fid ← styx_get32 m 7;
  let srv := match op_remove ops with Some remove => remove srv fid | None => srv end in
  ok (with_fids srv (styx_fid_free (s_fids srv) fid)) (build_rremove tag).

Definition default_dir (qid : styx_qid) : styx_dir :=
  {| d_type := 0; d_dev := 0; d_qid := qid;
     d_mode := if negb (Z.land (q_type qid) 128 =? 0) then 2147483648 else 0;
     d_atime := 0; d_mtime := 0; d_length := 0; d_name := str "file"; d_uid := str "wubu";
     d_gid := str "wubu"; d_muid := [] |}.

Definition serve_tstat (srv : styx_server) (m : list Z) (msg_size tag : Z) : option reply :=
  fid ← styx_get32 m 7;
  match styx_fid_lookup (s_fids srv) fid with
  | None => err srv tag "Bad fid in stat"
  | Some i =>
      match op_stat ops with
      | None =>
          f ← s_fids srv !! i;
          ok srv (build_rstat tag (default_dir (f_qid f)))
      | Some stat =>
          let '(srv, rc, dir) := stat srv fid in
          if negb (rc =? 0) then err srv tag "Stat failed" else
          ok srv (build_rstat tag dir)
      end
  end.

(** The Dir record of a Twstat: fixed fields from offset 13, then four strings;
    going on from a NULL pointer is a fault. *)
Definition read_dir (m : list Z) (msg_size : Z) : option styx_dir :=
  _ ← styx_get16 m 11;
  type ← styx_get16 m 13;
  dev ← styx_get32 m 15;
  qtype ← rd m 19;
  qversion ← styx_get32 m 20;
  qpath ← styx_get64 m 24;
  mode ← styx_get32 m 32;
  atime ← styx_get32 m 36;
  mtime ← styx_get32 m 40;
  len ← styx_get64 m 44;
  r ← getstr_at m 52 STYX_MAX_FNAME msg_size; '(name, p) ← r;
  r ← getstr_at m p STYX_MAX_FNAME msg_size; '(uid, p) ← r;
  r ← getstr_at m p STYX_MAX_FNAME msg_size; '(gid, p) ← r;
  r ← getstr_at m p STYX_MAX_FNAME msg_size;
  let muid := match r with Some (s, _) => s | None => [] end in
  Some {| d_type := type; d_dev := dev;
          d_qid := {| q_type := qtype; q_version := qversion; q_path := qpath |};
          d_mode := mode; d_atime := atime; d_mtime := mtime; d_length := len;
          d_name := cstr name; d_uid := cstr uid; d_gid := cstr gid; d_muid := cstr muid |}.

Definition serve_twstat (srv : styx_server) (m : list Z) (msg_size tag : Z) : option reply :=
  fid ← styx_get32 m 7;
  match op_wstat ops with
  | None => err srv tag "Wstat not supported"
  | Some wstat =>
      dir ← read_dir m msg_size;
      let '(srv, rc) := wstat srv fid dir in
      if negb (rc =? 0) then err_errno srv tag "Wstat failed" else
      ok srv (build_rwstat tag)
  end.

Definition dispatch (srv : styx_server) (m : list Z) (msg_size msg_type tag : Z) : option reply :=
  if msg_type =? STX_TVERSION then serve_tversion srv m msg_size tag
  else if msg_type =? STX_TAUTH then serve_tauth srv m msg_size tag
  else if msg_type =? STX_TFLUSH then serve_tflush srv m msg_size tag
  else if msg_type =? STX_TCREATE then serve_tcreate srv m msg_size tag
  else if msg_type =? STX_TATTACH then serve_tattach srv m msg_size tag
  else if msg_type =? STX_TWALK then serve_twalk srv m msg_size tag
  else if msg_type =? STX_TOPEN then serve_topen srv m msg_size tag
  else if msg_type =? STX_TREAD then serve_tread srv m msg_size tag
  else if msg_type =? STX_TWRITE then serve_twrite srv m msg_size tag
  else if msg_type =? STX_TCLUNK then serve_tclunk srv m msg_size tag
  else if msg_type =? STX_TREMOVE then serve_tremove srv m msg_size tag
  else if msg_type =? STX_TSTAT then serve_tstat srv m msg_size tag
  else if msg_type =? STX_TWSTAT then serve_twstat srv m msg_size tag
  else err srv tag "Unknown message type".

Definition styx_serve (srv : styx_server) (inbuf : option (list Z)) (inlen : Z)
  : option reply :=
  match inbuf with
  | None => Some (srv, -1, None)
  | Some m =>
      if inlen <? 7 then Some (srv, -1, None) else
      msg_size ← styx_get32 m 0;
      msg_type ← rd m 4;
      tag ← styx_get16 m 5;
      if (msg_size >? inlen) || (msg_size >? STYX_MAX_MSG)
      then err srv tag "Bad message size"
      else if negb (s_msize srv =? 0) && (msg_size >? s_msize srv)
      then err srv tag "Message exceeds negotiated msize"
      else dispatch srv m msg_size msg_type tag
  end.

End server.

Arguments styx_server : clear implicits.
Arguments styx_ops : clear implicits.
Arguments ok {U} srv out.
Arguments err {U} srv tag msg.
Arguments err_errno {U} srv tag msg.

(** ** What the file-system callbacks promise the server

    The contract of the callback vector: a walk reports at most the 16 qids
    there is room for and writes the ones it reports; a read puts at most
    [count] bytes into the buffer it got and reports how many; cloning keeps the
    size of the fid array. *)
Class StyxFs {U} (ops : styx_ops U) : Prop := {
  fs_walk : forall walk srv fid newfid names n srv' rc qids nwqid,
    op_walk ops = Some walk -> walk srv fid newfid names n = (srv', rc, qids, nwqid) ->
    0 <= nwqid <= 16 /\ nwqid <= Z.of_nat (length qids);
  fs_read : forall read srv fid off cnt srv' rc data nread,
    op_read ops = Some read -> read srv fid off cnt = (srv', rc, data, nread) ->
    0 <= cnt -> 0 <= nread <= cnt /\ nread <= Z.of_nat (length data);
  fs_clone : forall clone srv fid newfid,
    op_clone ops = Some clone ->
    length (s_fids (clone srv fid newfid)) = length (s_fids srv) }.

(** ** Shape of the replies *)

(** A reply of message type [ty] or an Rerror, framed and with the tag. *)
Definition good_reply (ty tag : Z) (out : list Z) : Prop :=
  framed tag out /\ (rd out 4 = Some (ty + 1) \/ rd out 4 = Some STX_RERROR).

Definition replies {U} (ty tag : Z) (r : option (@reply U)) : Prop :=
  forall srv' rc out, r = Some (srv', rc, Some out) -> rc = 0 /\ good_reply ty tag out.

Section replies.
Context {U : Type} (ty tag : Z) (Htag : fits 16 tag).
Implicit Types srv : styx_server U.

Lemma replies_ok srv out :
  framed tag out -> rd out 4 = Some (ty + 1) -> replies ty tag (ok srv out).
Proof. intros Hf Ht srv' rc out' [= <- <- <-]. split; [done|]. split; [done|by left]. Qed.

Lemma replies_error srv e : replies ty tag (ok srv (styx_error tag e)).
Proof.
  intros srv' rc out' [= <- <- <-]. split; [done|]. split; [by apply error_framed|].
  right. by apply rd_message_type.
Qed.

Lemma replies_need off msg_size srv k :
  replies ty tag k -> replies ty tag (need off msg_size srv tag k).
Proof. intros Hk. unfold need. destruct (_ >? _); [apply replies_error|done]. Qed.

Lemma replies_bind {A} (o : option A) (k : A -> option (@reply U)) :
  (forall x, o = Some x -> replies ty tag (k x)) -> replies ty tag (o ≫= k).
Proof. intros Hk. destruct o; [by apply Hk|done]. Qed.
End replies.

(** The type byte of each response is that of its request plus one. *)
Ltac reply_type := first [reflexivity | by apply rd_message_type].

Ltac replies_step :=
  match goal with
  | |- replies _ _ (need _ _ _ _ _) => apply replies_need; [assumption|]
  | |- replies _ _ (err _ _ _) => apply replies_error; assumption
  | |- replies _ _ (err_errno _ _ _) => apply replies_error; assumption
  | |- replies _ _ (mbind _ _) => apply replies_bind; intros ? ?
  | |- replies _ _ (if ?b then _ else _) => destruct b eqn:?
  | |- replies _ _ (match ?x with _ => _ end) => destruct x eqn:?
  | |- replies _ _ (let _ := _ in _) => cbv zeta
  end.

Lemma rread_type tag data count m : build_rread tag data count = Some m -> rd m 4 = Some STX_RREAD.
Proof.
  unfold build_rread. intros (p & _ & [= <-])%bind_Some. by apply rd_message_type.
Qed.

Lemma rread_length tag data count m :
  0 <= count <= STYX_MAX_DATA -> build_rread tag data count = Some m ->
  msg_len m = 11 + count.
Proof.
  unfold build_rread, STYX_MAX_DATA, STYX_MAX_MSG. intros Hc.
  destruct (Z.gtb_spec count (8 * 1024)); [lia|].
  rewrite wrap_id by (unfold_fits; lia).
  destruct (Z.gtb_spec (7 + 4 + count) (64 * 1024)); [lia|].
  intros (p & Hp & [= <-])%bind_Some. unfold msg_len.
  cut (Z.of_nat (length p) = count); [intros E|].
  { change (message _ _ _) with (message STX_RREAD tag (styx_put32 count ++ p)).
    rewrite length_message, length_app, length_put32. lia. }
  destruct data as [d|]; destruct (Z.gtb_spec count 0); simplify_eq/=; [|lia..].
  apply rd_bytes_Some in Hp as [Hl ->]. rewrite length_slice by lia. lia.
Qed.

Lemma rwalk_type tag qids n m : build_rwalk tag qids n = Some m -> rd m 4 = Some STX_RWALK.
Proof.
  unfold build_rwalk. intros (p & _ & [= <-])%bind_Some. by apply rd_message_type.
Qed.

Lemma read_cap_bound msize count : fits 32 count -> 0 <= read_cap msize count <= STYX_MAX_DATA.
Proof.
  unfold read_cap, STYX_MAX_DATA. intros Hc. unfold_fits.
  set (cap := if _ && _ then _ else _).
  assert (0 <= cap) by (unfold cap; destruct (negb _), (Z.gtb_spec msize 11); simpl; lia).
  destruct (Z.gtb_spec cap (8 * 1024)); match goal with
  | |- context [count >? ?c] => destruct (Z.gtb_spec count c) end; lia.
Qed.

Section serve_props.
Context {U : Type} (ops : styx_ops U) {Hfs : StyxFs ops}.
Implicit Types srv : styx_server U.

Lemma replies_tread srv m msg_size tag :
  fits 16 tag -> Forall is_byte m ->
  replies STX_TREAD tag (serve_tread ops srv m msg_size tag).
Proof.
  intros Ht Hm. unfold serve_tread. repeat replies_step.
  - match goal with H : styx_get32 m 19 = Some ?c |- _ =>
      assert (fits 32 c) as Hc by by eapply styx_get32_fits end.
    edestruct (fs_read (ops := ops)) as [Hn _]; [done..|by apply read_cap_bound|].
    pose proof (read_cap_bound (s_msize srv) _ Hc). unfold STYX_MAX_DATA in *.
    apply replies_ok; [eapply rread_framed; [done| |done]; unfold_fits; lia|by eapply rread_type].
  - apply replies_ok; [by eapply rread_framed|by eapply rread_type].
Qed.

Lemma replies_twalk srv m msg_size tag :
  fits 16 tag -> replies STX_TWALK tag (serve_twalk ops srv m msg_size tag).
Proof.
  intros Ht. unfold serve_twalk. repeat replies_step.
  - apply replies_ok; [eapply rwalk_framed; [done| |done]; lia|by eapply rwalk_type].
  - edestruct (fs_walk (ops := ops)) as [Hn _]; [done..|].
    apply replies_ok; [eapply rwalk_framed; [done| |done]; lia|by eapply rwalk_type].
Qed.

Lemma replies_dispatch srv m msg_size ty tag :
  fits 16 tag -> Forall is_byte m ->
  replies ty tag (dispatch ops srv m msg_size ty tag).
Proof.
  intros Ht Hm. unfold dispatch.
  repeat match goal with
  | |- replies _ _ (if ?t =? ?k then _ else _) => destruct (Z.eqb_spec t k) as [->|]
  end; [..|by apply replies_error].
  6: by apply replies_twalk. 7: by apply replies_tread.
  all: unfold serve_tversion, serve_tauth, serve_tflush, serve_tcreate, serve_tattach,
    serve_topen, serve_twrite, serve_tclunk, serve_tremove, serve_tstat, serve_twstat;
    repeat replies_step; apply replies_ok; try reply_type;
    eauto using rversion_framed, rauth_framed, rflush_framed, rcreate_framed, rattach_framed,
      ropen_framed, rwrite_framed, rclunk_framed, rremove_framed, rstat_framed, rwstat_framed.
Qed.
End serve_props.

(** *** Reads stay inside the memory region *)

Section safe.
Context {U : Type} (ops : styx_ops U) {Hfs : StyxFs ops}.
Context (m : list Z) (msg_size tag : Z).
Context (Hm : Forall is_byte m) (Hlen : 23 <= Z.of_nat (length m)).
Context (Hsz : 0 <= msg_size <= STYX_MAX_MSG) (Hmsz : msg_size <= Z.of_nat (length m)).
Implicit Types srv : styx_server U.

Lemma s32_msg : s32 msg_size = msg_size.
Proof. clear - Hsz. unfold STYX_MAX_MSG in *. apply swrap_id; unfold_fits; lia. Qed.

Lemma getstr_at_safe p outsz :
  1 <= outsz <= 65536 ->
  exists r, getstr_at m p outsz msg_size = Some r /\
    (forall s q, r = Some (s, q) -> (p + 2 <= q)%nat /\ Z.of_nat q <= msg_size) /\
    (r = None -> msg_size < Z.of_nat p + 2).
Proof.
  intros Ho. unfold getstr_at. rewrite s32_msg.
  destruct (styx_getstr_safe m p outsz (msg_size - Z.of_nat p) Hm) as (r & E & Hr); [lia|done|].
  exists r. split_and!; [done| |].
  - intros s q ->. destruct (Hr s q eq_refl) as (? & ? & _). lia.
  - intros ->. unfold styx_getstr in E. destruct (Z.ltb_spec (msg_size - Z.of_nat p) 2); [lia|].
    destruct (styx_get16 m p); [|done]. cbn [mbind option_bind] in E.
    match type of E with context [rd_bytes m ?o ?n] => destruct (rd_bytes m o n) end; done.
Qed.

Lemma need_safe off srv k :
  0 <= off < 2 ^ 32 -> (off <= msg_size -> is_Some k) -> is_Some (need off msg_size srv tag k).
Proof.
  intros Ho Hk. unfold need. rewrite wrap_id by (unfold fits; lia).
  destruct (Z.gtb_spec off msg_size); [by eexists|apply Hk; lia].
Qed.

Lemma fid_lookup_in (fids : list styx_fid) fid i :
  styx_fid_lookup fids fid = Some i -> is_Some (fids !! i).
Proof. intros (f & Hf & _)%fid_lookup_Some. by eexists. Qed.

Ltac serve_safe :=
  match goal with
  | |- is_Some (ok _ _) => by eexists
  | |- is_Some (err _ _ _) => by eexists
  | |- is_Some (err_errno _ _ _) => by eexists
  | |- is_Some (need _ _ _ _ _) => apply need_safe; [lia|intros ?]
  | |- is_Some (styx_get32 m ?o ≫= _) =>
      let H := fresh "Hfit" in
      destruct (styx_get32_in m o Hm) as (? & -> & H); [lia|cbn [mbind option_bind]]
  | |- is_Some (styx_get64 m ?o ≫= _) =>
      destruct (styx_get64_in m o Hm) as (? & -> & _); [lia|cbn [mbind option_bind]]
  | |- is_Some (styx_get16 m ?o ≫= _) =>
      destruct (styx_get16_in m o Hm) as (? & -> & _); [lia|cbn [mbind option_bind]]
  | |- is_Some (rd m ?o ≫= _) =>
      destruct (rd_in m o) as [? ->]; [lia|cbn [mbind option_bind]]
  | |- is_Some (getstr_at m ?p ?o _ ≫= _) =>
      let Ha := fresh "Hstr" in let Hb := fresh "Hnull" in
      destruct (getstr_at_safe p o) as (? & -> & Ha & Hb);
        [unfold STYX_MAX_FNAME; lia|cbn [mbind option_bind]]
  | H : ?r = None -> msg_size < _ |- is_Some (?r ≫= _) =>
      let E := fresh "E" in
      destruct r as [[? ?]|] eqn:E; [cbn [mbind option_bind]|specialize (H eq_refl); simpl in H; lia]
  | H : forall s q, Some (?a, ?b) = Some (s, q) -> _ |- _ =>
      destruct (H a b eq_refl) as (? & ?); clear H
  | |- is_Some (if ?b then _ else _) => destruct b eqn:?
  | |- is_Some (match ?x with _ => _ end) => destruct x eqn:?
  end.

(** The fixed fields of a record that is long enough. *)
Ltac serve_safe_fixed :=
  match goal with
  | |- is_Some (styx_get32 m ?o ≫= _) =>
      destruct (styx_get32_in m o Hm) as (? & -> & _); [lia|cbn [mbind option_bind]]
  | |- is_Some (styx_get64 m ?o ≫= _) =>
      destruct (styx_get64_in m o Hm) as (? & -> & _); [lia|cbn [mbind option_bind]]
  | |- is_Some (styx_get16 m ?o ≫= _) =>
      destruct (styx_get16_in m o Hm) as (? & -> & _); [lia|cbn [mbind option_bind]]
  | |- is_Some (rd m ?o ≫= _) =>
      destruct (rd_in m o) as [? ->]; [lia|cbn [mbind option_bind]]
  end.

Lemma tversion_safe srv : is_Some (serve_tversion srv m msg_size tag).
Proof. unfold serve_tversion. repeat serve_safe. Qed.
Lemma tauth_safe srv : is_Some (serve_tauth ops srv m msg_size tag).
Proof. unfold serve_tauth. repeat serve_safe. Qed.
Lemma tflush_safe srv : is_Some (serve_tflush ops srv m msg_size tag).
Proof. unfold serve_tflush. repeat serve_safe. Qed.
Lemma tattach_safe srv : is_Some (serve_tattach ops srv m msg_size tag).
Proof. unfold serve_tattach. repeat serve_safe. Qed.
Lemma tcreate_safe srv : is_Some (serve_tcreate ops srv m msg_size tag).
Proof.
  unfold serve_tcreate. repeat serve_safe;
    match goal with H : (_ >? msg_size) = false |- _ => rewrite Z.gtb_ltb, Z.ltb_ge in H end;
    repeat serve_safe.
Qed.
Lemma topen_safe srv : is_Some (serve_topen ops srv m msg_size tag).
Proof.
  unfold serve_topen. repeat serve_safe.
  match goal with H : styx_fid_lookup _ _ = Some _ |- _ =>
    apply fid_lookup_in in H as [? ->] end. by eexists.
Qed.
Lemma tstat_safe srv : is_Some (serve_tstat ops srv m msg_size tag).
Proof.
  unfold serve_tstat. repeat serve_safe.
  match goal with H : styx_fid_lookup _ _ = Some _ |- _ =>
    apply fid_lookup_in in H as [? ->] end. by eexists.
Qed.
Lemma tclunk_safe srv : is_Some (serve_tclunk ops srv m msg_size tag).
Proof. unfold serve_tclunk. repeat serve_safe. Qed.
Lemma tremove_safe srv : is_Some (serve_tremove ops srv m msg_size tag).
Proof. unfold serve_tremove. repeat serve_safe. Qed.

Lemma rwalk_safe qids n : 0 <= n <= Z.of_nat (length qids) -> is_Some (build_rwalk tag qids n).
Proof. intros. unfold build_rwalk. rewrite mapM_lookup_seq by lia. by eexists. Qed.

Lemma rread_safe data n :
  0 <= n <= STYX_MAX_DATA -> n <= Z.of_nat (length data) ->
  is_Some (build_rread tag (Some data) n).
Proof.
  clear. unfold STYX_MAX_DATA. intros Hn Hd. unfold build_rread, STYX_MAX_DATA, STYX_MAX_MSG.
  destruct (Z.gtb_spec n (8 * 1024)); [lia|]. rewrite wrap_id by (unfold fits; lia).
  destruct (Z.gtb_spec (7 + 4 + n) (64 * 1024)); [lia|].
  destruct (n >? 0); [|by eexists]. rewrite rd_bytes_in by lia. by eexists.
Qed.

Lemma tread_safe srv : is_Some (serve_tread ops srv m msg_size tag).
Proof.
  unfold serve_tread. repeat serve_safe; [|by eexists].
  edestruct (fs_read (ops := ops)) as [Hn Hd]; [done..|by apply read_cap_bound|].
  pose proof (read_cap_bound (s_msize srv) _ Hfit0).
  match goal with |- context [build_rread tag (Some ?d) ?n] =>
    destruct (rread_safe d n) as [? ->]; [lia..|by eexists] end.
Qed.

Lemma twrite_safe srv : is_Some (serve_twrite ops srv m msg_size tag).
Proof.
  unfold serve_twrite. repeat serve_safe.
  match goal with H : (_ >? msg_size) = false |- _ => rewrite Z.gtb_ltb, Z.ltb_ge in H end.
  unfold fits in *. unfold STYX_MAX_WRITE.
  rewrite rd_bytes_in.
  2:{ match goal with |- context [?a >? ?b] => destruct (Z.gtb_spec a b) end; lia. }
  cbn [mbind option_bind]. repeat serve_safe.
Qed.

Lemma twalk_safe srv : is_Some (serve_twalk ops srv m msg_size tag).
Proof.
  unfold serve_twalk. repeat serve_safe.
  - match goal with H : styx_fid_alloc _ _ = Some (?j, ?fids) |- _ =>
      pose proof (fid_alloc_Some _ _ _ _ H) as (old & f & Hold & _ & Efids & _) end.
    match goal with H : styx_fid_lookup _ ?fid = Some ?i, H' : styx_fid_lookup _ _ = None |- _ =>
      apply fid_lookup_in in H as [f0 H]; apply lookup_lt_Some in H end.
    destruct (lookup_lt_is_Some_2 l n) as [f1 Hf1]; [subst l; by rewrite length_insert|].
    rewrite Hf1. cbn [mbind option_bind].
    match goal with |- context [s_fids ?sv !! n] => assert (n < length (s_fids sv))%nat end.
    { destruct (op_clone ops) as [clone|] eqn:Ec.
      - rewrite (fs_clone clone) by done. simpl. by rewrite length_insert; subst l; rewrite length_insert.
      - simpl. by rewrite length_insert; subst l; rewrite length_insert. }
    match goal with |- context [s_fids ?sv !! n] =>
      destruct (lookup_lt_is_Some_2 (s_fids sv) n) as [f2 ->]; [done|] end.
    by eexists.
  - destruct (walk_names_safe m msg_size
      (Z.to_nat (if x1 >? 16 then 16 else x1)) 17 Hm) as (names & -> & _); [by rewrite s32_msg|].
    cbn [mbind option_bind]. repeat serve_safe.
    edestruct (fs_walk (ops := ops)) as [Hn Hq]; [done..|].
    match goal with |- context [build_rwalk tag ?q ?n] =>
      destruct (rwalk_safe q n) as [? ->]; [lia|by eexists] end.
Qed.

(** The record of a Twstat as its parser needs it: the length words of the name
    and of the owner are readable, and that of the group lies inside the message
    (strings are cut to 255 bytes). *)
Definition wstat_record : Prop :=
  exists l1 l2, styx_get16 m 52 = Some l1 /\ styx_get16 m (54 + Z.to_nat (Z.min l1 255)) = Some l2 /\
    58 + Z.min l1 255 + Z.min l2 255 <= msg_size.

(** A string that was read, and where the next one starts. *)
Lemma getstr_at_next p s q :
  getstr_at m p STYX_MAX_FNAME msg_size = Some (Some (s, q)) ->
  exists l, styx_get16 m p = Some l /\ 0 <= l /\ Z.of_nat p + 2 <= msg_size /\
    Z.of_nat q = Z.of_nat p + 2 + Z.min (Z.min l 255) (msg_size - Z.of_nat p - 2).
Proof.
  unfold getstr_at, styx_getstr. rewrite s32_msg. destruct (Z.ltb_spec (msg_size - Z.of_nat p) 2); [done|].
  destruct (styx_get16_in m p Hm ltac:(lia)) as (l & -> & Hl). cbn [mbind option_bind]. unfold fits in Hl.
  change (u16 (STYX_MAX_FNAME - 1)) with 255. unfold STYX_MAX_MSG in Hsz.
  rewrite (wrap_id 16 (msg_size - Z.of_nat p - 2)) by (unfold fits; lia).
  match goal with |- context [rd_bytes m ?a ?b] => destruct (rd_bytes m a b) end; [|done]. cbn [mbind option_bind].
  intros [= _ <-]. exists l. split_and!; [done|lia|lia|].
  destruct (Z.gtb_spec l 255); [destruct (Z.gtb_spec 255 (msg_size - Z.of_nat p - 2))|destruct (Z.gtb_spec l (msg_size - Z.of_nat p - 2))]; lia.
Qed.

Lemma getstr_at_reads p :
  Z.of_nat p + 2 <= msg_size -> exists s q, getstr_at m p STYX_MAX_FNAME msg_size = Some (Some (s, q)).
Proof.
  intros Hp. destruct (getstr_at_safe p STYX_MAX_FNAME) as ([[s q]|] & E & _ & Hn); [by unfold STYX_MAX_FNAME|eauto|].
  specialize (Hn eq_refl). lia.
Qed.

Lemma read_dir_iff : is_Some (read_dir m msg_size) <-> wstat_record.
Proof.
  split.
  - intros [d H]. unfold read_dir in H.
    do 10 apply bind_Some in H as (? & _ & H).
    apply bind_Some in H as (r1 & E1 & H). apply bind_Some in H as ([s1 p1] & -> & H).
    apply bind_Some in H as (r2 & E2 & H). apply bind_Some in H as ([s2 p2] & -> & H).
    apply bind_Some in H as (r3 & E3 & H). apply bind_Some in H as ([s3 p3] & -> & _).
    destruct (getstr_at_next _ _ _ E1) as (l1 & G1 & ? & ? & Q1).
    destruct (getstr_at_next _ _ _ E2) as (l2 & G2 & ? & ? & Q2).
    destruct (getstr_at_next _ _ _ E3) as (l3 & _ & ? & ? & _).
    exists l1, l2. split; [done|]. replace (54 + Z.to_nat (Z.min l1 255))%nat with p1 by lia. split; [done|]. lia.
  - intros (l1 & l2 & G1 & G2 & Hfit).
    assert (0 <= l1 /\ 0 <= l2 /\ 58 <= Z.of_nat (length m)) as (Hl1 & Hl2 & Hlen58).
    { destruct (decide (52 + 2 <= length m)%nat) as [Hd|Hd].
      - destruct (styx_get16_in m 52 Hm Hd) as (v & Ev & Hv). unfold fits in Hv. assert (0 <= l1) by (simplify_eq; lia).
        destruct (decide (54 + Z.to_nat (Z.min l1 255) + 2 <= length m)%nat) as [Hd2|Hd2].
        + destruct (styx_get16_in m _ Hm Hd2) as (w & Ew & Hw). unfold fits in Hw. simplify_eq. lia.
        + rewrite styx_get16_spec in G2 by done. unfold rd_bytes in G2. by rewrite decide_False in G2.
      - rewrite styx_get16_spec in G1 by done. unfold rd_bytes in G1. by rewrite decide_False in G1. }
    unfold read_dir. repeat serve_safe_fixed.
    destruct (getstr_at_reads 52) as (s1 & p1 & E1); [lia|]. rewrite E1. cbn [mbind option_bind].
    destruct (getstr_at_next _ _ _ E1) as (y1 & X1 & ? & _ & Q1). simplify_eq.
    assert (p1 = 54 + Z.to_nat (Z.min l1 255))%nat as -> by lia.
    destruct (getstr_at_reads (54 + Z.to_nat (Z.min l1 255))) as (s2 & p2 & E2); [lia|]. rewrite E2. cbn [mbind option_bind].
    destruct (getstr_at_next _ _ _ E2) as (y2 & X2 & ? & _ & Q2). simplify_eq.
    destruct (getstr_at_reads p2) as (s3 & p3 & E3); [lia|]. rewrite E3. cbn [mbind option_bind].
    destruct (getstr_at_safe p3 STYX_MAX_FNAME) as (r & -> & _); [by unfold STYX_MAX_FNAME|]. by eexists.
Qed.

(** Every arm but that of Twstat is safe; Twstat is safe exactly when there is no
    callback or the record is complete enough. *)
Lemma dispatch_safe srv ty :
  is_Some (dispatch ops srv m msg_size ty tag) <->
  ~ (ty = STX_TWSTAT /\ op_wstat ops <> None /\ ~ is_Some (read_dir m msg_size)).
Proof.
  destruct (decide (ty = STX_TWSTAT)) as [->|Hty].
  - change (dispatch ops srv m msg_size STX_TWSTAT tag) with (serve_twstat ops srv m msg_size tag).
    unfold serve_twstat. destruct (styx_get32_in m 7 Hm) as (fid & -> & _); [lia|]. cbn [mbind option_bind].
    destruct (op_wstat ops) as [wstat|] eqn:Ew; [|split; [intros _ (_ & ? & _); done|intros _; by eexists]].
    destruct (read_dir m msg_size) as [d|]; cbn [mbind option_bind].
    + split; [intros _ (_ & _ & []); by eexists|intros _]. destruct (wstat srv fid d) as [srv' rc]. destruct (negb _); by eexists.
    + split; [intros [? ?]; done|]. intros []. split_and!; [done|done|intros [? ?]; done].
  - split; [intros _ (? & _); done|intros _]. unfold dispatch.
    repeat match goal with
    | |- is_Some (if ?t =? ?k then _ else _) => destruct (Z.eqb_spec t k)
    end; auto using tversion_safe, tauth_safe, tflush_safe, tcreate_safe, tattach_safe,
      twalk_safe, topen_safe, tread_safe, twrite_safe, tclunk_safe, tremove_safe, tstat_safe.
    done.
Qed.
End safe.

(** *** Negotiation, read size, fid uniqueness *)

Section invariant.
Context {U : Type} (ops : styx_ops U).
Implicit Types srv : styx_server U.

(** Every callback keeps the fid table free of duplicates. *)
Definition fids_inv srv : Prop := fids_ok (s_fids srv).

Record ops_keep_fids : Prop := {
  keep_clone : forall f srv a b, op_clone ops = Some f -> fids_inv srv -> fids_inv (f srv a b);
  keep_attach : forall f srv a b, op_attach ops = Some f -> fids_inv srv ->
    fids_inv (fst (f srv a b));
  keep_walk : forall f srv a b c d, op_walk ops = Some f -> fids_inv srv ->
    fids_inv (fst (fst (fst (f srv a b c d))));
  keep_open : forall f srv a b, op_open ops = Some f -> fids_inv srv ->
    fids_inv (fst (fst (f srv a b)));
  keep_read : forall f srv a b c, op_read ops = Some f -> fids_inv srv ->
    fids_inv (fst (fst (fst (f srv a b c))));
  keep_write : forall f srv a b c d, op_write ops = Some f -> fids_inv srv ->
    fids_inv (fst (fst (f srv a b c d)));
  keep_clunk : forall f srv a, op_clunk ops = Some f -> fids_inv srv -> fids_inv (f srv a);
  keep_remove : forall f srv a, op_remove ops = Some f -> fids_inv srv -> fids_inv (f srv a);
  keep_stat : forall f srv a, op_stat ops = Some f -> fids_inv srv -> fids_inv (fst (fst (f srv a)));
  keep_wstat : forall f srv a b, op_wstat ops = Some f -> fids_inv srv ->
    fids_inv (fst (f srv a b));
  keep_auth : forall f srv a b c, op_auth ops = Some f -> fids_inv srv ->
    fids_inv (fst (fst (f srv a b c)));
  keep_create : forall f srv a b c d, op_create ops = Some f -> fids_inv srv ->
    fids_inv (fst (fst (f srv a b c d)));
  keep_flush : forall f srv a, op_flush ops = Some f -> fids_inv srv -> fids_inv (f srv a) }.

Definition keeps (r : option (@reply U)) : Prop :=
  forall srv' rc out, r = Some (srv', rc, out) -> fids_inv srv'.

Lemma keeps_ok srv out : fids_inv srv -> keeps (ok srv out).
Proof. intros H srv' rc out' [= <- <- <-]. done. Qed.

Lemma keep_fids_bind {A} (o : option A) (k : A -> option (@reply U)) :
  (forall x, o = Some x -> keeps (k x)) -> keeps (o ≫= k).
Proof. intros Hk. destruct o; [by apply Hk|done]. Qed.

(** Changing a slot in place without its fid and liveness. *)
Lemma fids_ok_alter (fids : list styx_fid) i (g : styx_fid -> styx_fid) :
  (forall f, f_in_use (g f) = f_in_use f /\ f_fid (g f) = f_fid f) ->
  fids_ok fids -> fids_ok (alter g i fids).
Proof.
  intros Hg Hok j k f h. rewrite !list_lookup_alter.
  unfold fids_ok, fid_live in *. intros Hf Hh Lf Lh E.
  repeat case_decide; subst; try done;
    repeat match goal with H : _ <$> (fids !! ?n) = Some _ |- _ =>
      apply fmap_Some in H as (? & ? & ->) end;
    rewrite ?(proj1 (Hg _)), ?(proj2 (Hg _)) in *; by eapply (Hok _ _ _ _).
Qed.

Lemma clone_fids_ok (fids fids' : list styx_fid) newfid i j f :
  fids_ok fids -> styx_fid_lookup fids newfid = None ->
  styx_fid_alloc fids newfid = Some (j, fids') -> fids' !! i = Some f ->
  fids_ok (<[j := clone_fid newfid f]> fids').
Proof.
  intros Hok Hn Ha Hf. destruct (styx_fid_alloc_ok _ _ _ _ Hok Hn Ha) as [Hok' _].
  apply fid_alloc_Some in Ha as (old & f' & Ho & _ & -> & Hu & Hfid).
  eapply fids_ok_insert; [done|apply list_lookup_insert_eq; by eapply lookup_lt_Some|].
  intros _ k g Hk Hg Lg. rewrite list_lookup_insert_ne in Hg by done.
  by eapply fid_lookup_None.
Qed.

Lemma root_fids_ok (fids fids' : list styx_fid) fid i :
  fids_ok fids -> styx_fid_lookup fids fid = None ->
  styx_fid_alloc fids fid = Some (i, fids') ->
  fids_ok (alter (set_qid root_qid) i fids').
Proof.
  intros Hok Hn Ha. apply fids_ok_alter; [done|]. by eapply styx_fid_alloc_ok.
Qed.

Hypothesis Hkeep : ops_keep_fids.

(** What a callback that just returned left of the invariant. *)
Ltac after_callback lem :=
  match goal with
  | I : fids_inv ?srv, E : _ = _ |- _ =>
      let H := fresh in
      assert (H := lem I); rewrite E in H; cbn [fst] in H; clear E
  end.
Ltac keeps_cb :=
  match goal with
  | Hop : op_attach ops = Some ?f, E : ?f ?s ?a ?b = _ |- _ =>
      after_callback (keep_attach Hkeep f s a b Hop)
  | Hop : op_walk ops = Some ?f, E : ?f ?s ?a ?b ?c ?d = _ |- _ =>
      after_callback (keep_walk Hkeep f s a b c d Hop)
  | Hop : op_open ops = Some ?f, E : ?f ?s ?a ?b = _ |- _ =>
      after_callback (keep_open Hkeep f s a b Hop)
  | Hop : op_read ops = Some ?f, E : ?f ?s ?a ?b ?c = _ |- _ =>
      after_callback (keep_read Hkeep f s a b c Hop)
  | Hop : op_write ops = Some ?f, E : ?f ?s ?a ?b ?c ?d = _ |- _ =>
      after_callback (keep_write Hkeep f s a b c d Hop)
  | Hop : op_stat ops = Some ?f, E : ?f ?s ?a = _ |- _ =>
      after_callback (keep_stat Hkeep f s a Hop)
  | Hop : op_wstat ops = Some ?f, E : ?f ?s ?a ?b = _ |- _ =>
      after_callback (keep_wstat Hkeep f s a b Hop)
  | Hop : op_auth ops = Some ?f, E : ?f ?s ?a ?b ?c = _ |- _ =>
      after_callback (keep_auth Hkeep f s a b c Hop)
  | Hop : op_create ops = Some ?f, E : ?f ?s ?a ?b ?c ?d = _ |- _ =>
      after_callback (keep_create Hkeep f s a b c d Hop)
  end.
Ltac keeps_step :=
  match goal with
  | |- keeps (need _ _ _ _ _) => unfold need
  | |- keeps (err _ _ _) => apply keeps_ok; assumption
  | |- keeps (err_errno _ _ _) => apply keeps_ok; assumption
  | |- keeps (mbind _ _) => apply keep_fids_bind; intros ? ?
  | |- keeps (match ?x with _ => _ end) => destruct x eqn:?
  | _ => keeps_cb
  end.

Lemma fids_inv_alter srv i g :
  (forall f, f_in_use (g f) = f_in_use f /\ f_fid (g f) = f_fid f) ->
  fids_inv srv -> fids_inv (with_fids srv (alter g i (s_fids srv))).
Proof. intros Hg. by apply fids_ok_alter. Qed.

Lemma fids_inv_free srv fid :
  fids_inv srv -> fids_inv (with_fids srv (styx_fid_free (s_fids srv) fid)).
Proof. intros H. by apply styx_fid_free_ok. Qed.

Lemma keeps_tattach srv m msg_size tag :
  fids_inv srv -> (forall fid, styx_get32 m 7 = Some fid -> op_attach ops = None ->
    styx_fid_lookup (s_fids srv) fid = None) ->
  keeps (serve_tattach ops srv m msg_size tag).
Proof.
  intros Hi Hfree. unfold serve_tattach. repeat keeps_step; apply keeps_ok; try done.
  eapply root_fids_ok; [done| |done]. by apply Hfree.
Qed.

Lemma keeps_twalk srv m msg_size tag :
  fids_inv srv -> keeps (serve_twalk ops srv m msg_size tag).
Proof.
  intros Hi. unfold serve_twalk. repeat keeps_step; apply keeps_ok; try done.
  match goal with H : styx_fid_alloc _ _ = Some _ |- _ =>
    pose proof (clone_fids_ok _ _ _ _ _ _ Hi ltac:(eassumption) H ltac:(eassumption)) as Hc end.
  destruct (op_clone ops) as [clone|] eqn:Ec; [|exact Hc].
  by apply (keep_clone Hkeep clone).
Qed.

Lemma keeps_dispatch srv m msg_size ty tag :
  fids_inv srv ->
  (ty = STX_TATTACH -> forall fid, styx_get32 m 7 = Some fid -> op_attach ops = None ->
     styx_fid_lookup (s_fids srv) fid = None) ->
  keeps (dispatch ops srv m msg_size ty tag).
Proof.
  intros Hi Hatt. unfold dispatch.
  repeat match goal with
  | |- keeps (if ?t =? ?k then _ else _) => destruct (Z.eqb_spec t k) as [->|]
  end; [..|by apply keeps_ok].
  5: by apply keeps_tattach; auto. 5: by apply keeps_twalk.
  all: unfold serve_tversion, serve_tauth, serve_tflush, serve_tcreate, serve_topen, serve_tread,
    serve_twrite, serve_tclunk, serve_tremove, serve_tstat, serve_twstat;
    repeat keeps_step; apply keeps_ok;
    try (apply fids_inv_alter; [done|]); try apply fids_inv_free; try done;
    match goal with |- fids_inv (match ?o with _ => _ end) => destruct o eqn:? end;
    eauto using keep_flush, keep_clunk, keep_remove.
Qed.
End invariant.

(** ** A server without callbacks, and a file system of one file *)

Definition no_ops {U} : styx_ops U :=
  {| op_clone := None; op_attach := None; op_walk := None; op_open := None; op_read := None;
     op_write := None; op_clunk := None; op_remove := None; op_stat := None; op_wstat := None;
     op_auth := None; op_create := None; op_flush := None |}.

(** Every file reads as "hello" and every walk finds one plain file. *)
Definition hello_ops : styx_ops unit :=
  {| op_clone := None; op_attach := None;
     op_walk := Some (fun srv _ _ _ _ => (srv, 0, [zero_qid], 1));
     op_open := None;
     op_read := Some (fun srv _ off cnt =>
       let data := take (Z.to_nat cnt) (drop (Z.to_nat off) (str "hello")) in
       (srv, 0, data, Z.of_nat (length data)));
     op_write := None; op_clunk := None; op_remove := None; op_stat := None; op_wstat := None;
     op_auth := None; op_create := None; op_flush := None |}.

#[export] Instance hello_fs : StyxFs hello_ops.
Proof.
  split; simpl; [|intros ????????? [= <-]|done].
  - intros ?????????? [= <-] [= <- <- <- <-]. simpl. lia.
  - intros [= <- <- <- <-] Hc. rewrite length_take. lia.
Qed.

(** ** Properties of the server *)

(** C29. Every reply is a well-formed frame of at most [STYX_MAX_MSG] bytes that
    carries the request's tag, and its type is the request's plus one or
    Rerror. *)
Theorem styx_serve_reply_wellformed {U} (ops : styx_ops U) (srv srv' : styx_server U)
    (m out : list Z) (inlen rc tag ty : Z) :
  StyxFs ops -> Forall is_byte m ->
  styx_get16 m 5 = Some tag -> rd m 4 = Some ty ->
  styx_serve ops srv (Some m) inlen = Some (srv', rc, Some out) ->
  rc = 0 /\ framed tag out /\ (rd out 4 = Some (ty + 1) \/ rd out 4 = Some STX_RERROR).
Proof.
  intros Hfs Hm Ht Hty. unfold styx_serve. rewrite Ht, Hty.
  assert (fits 16 tag) as Hft.
  { destruct (decide (5 + 2 <= length m)%nat) as [Hl|Hl].
    - destruct (styx_get16_in m 5 Hm Hl) as (? & E & ?). congruence.
    - rewrite styx_get16_spec in Ht by done. unfold rd_bytes in Ht.
      by rewrite decide_False in Ht. }
  destruct (inlen <? 7); [done|]. destruct (styx_get32 m 0) as [sz|]; [|done].
  cbn [mbind option_bind].
  destruct (_ || _); [intros H; by eapply (replies_error ty tag)|].
  destruct (_ && _); [intros H; by eapply (replies_error ty tag)|].
  intros H. by eapply (replies_dispatch ops srv m sz ty tag).
Qed.

Lemma styx_serve_reply_wellformed_witness :
  exists srv' out,
    styx_serve hello_ops (styx_init tt 0) (Some (styx_build_tclunk 9 1)) 11
      = Some (srv', 0, Some out) /\ framed 9 out.
Proof.
  eexists _, _. split; [reflexivity|].
  eapply (styx_serve_reply_wellformed hello_ops (styx_init tt 0) _ (styx_build_tclunk 9 1)
    _ 11 0 9 STX_TCLUNK);
    [exact hello_fs|apply (bool_decide_unpack _); vm_compute; exact I|reflexivity..].
Defined.


(** A Twstat that ends after its fid, and a Tread, to a server with a wstat
    callback. *)
Definition wstat_ops : styx_ops unit :=
  {| op_clone := None; op_attach := None; op_walk := None; op_open := None; op_read := None;
     op_write := None; op_clunk := None; op_remove := None; op_stat := None;
     op_wstat := Some (fun srv _ _ => (srv, 0));
     op_auth := None; op_create := None; op_flush := None |}.
#[export] Instance wstat_fs : StyxFs wstat_ops.
Proof. split; done. Qed.
Definition short_twstat : list Z := message STX_TWSTAT 9 (styx_put32 1) ++ replicate 53 0.


(** Version negotiation: the server answers a Tversion of at least 64 bytes with
    the smaller of the client's size and its ceiling, which the client's parser
    reads back, and that size binds the connection from then on. *)
Theorem styx_serve_negotiates_msize {U} (ops : styx_ops U) (srv : styx_server U) (msize : Z) :
  fits 32 msize -> STYX_MSIZE_FLOOR <= msize ->
  s_msize srv = 0 \/ 19 <= s_msize srv -> 0 < s_max_msize srv ->
  let m := styx_build_tversion msize (Some (str "9P2000")) in
  let agreed := Z.min msize (Z.min (s_max_msize srv) STYX_MAX_MSG) in
  exists srv' out, styx_serve ops srv (Some m) (msg_len m) = Some (srv', 0, Some out) /\
    styx_parse_version (Some out) (msg_len out) = Some (inr (agreed, Some (str "9P2000"))) /\
    s_msize srv' = agreed /\ s_connected srv' = true /\ s_fids srv' = s_fids srv.
Proof.
  intros Hf Hfl Hs Hmax m agreed. unfold STYX_MSIZE_FLOOR in *.
  assert (Hsz : styx_get32 m 0 = Some 19) by reflexivity.
  unfold styx_serve. change (msg_len m <? 7) with false. rewrite Hsz.
  change (rd m 4) with (Some STX_TVERSION). change (styx_get16 m 5) with (Some 0).
  cbn [mbind option_bind].
  change ((19 >? msg_len m) || (19 >? STYX_MAX_MSG)) with false.
  assert (negb (s_msize srv =? 0) && (19 >? s_msize srv) = false) as ->.
  { destruct (Z.eqb_spec (s_msize srv) 0), (Z.gtb_spec 19 (s_msize srv)); simpl; lia || done. }
  change (dispatch ops srv m 19 STX_TVERSION 0) with (serve_tversion srv m 19 0).
  unfold serve_tversion.
  assert (styx_get32 m 7 = Some msize) as ->.
  { unfold m, styx_build_tversion. wire_norm. by rewrite wrap_id. }
  cbn [mbind option_bind]. unfold need. change (u32 (11 + 2) >? 19) with false.
  change (getstr_at m 11 16 19) with (Some (Some (str "9P2000", 19%nat))).
  cbn [mbind option_bind]. change (negb (strncmp_eq (str "9P2000") (str "9P2000") 6)) with false.
  cbn [andb]. destruct (Z.ltb_spec msize STYX_MSIZE_FLOOR); [unfold STYX_MSIZE_FLOOR in *; lia|].
  destruct (Z.eqb_spec (s_max_msize srv) 0); [lia|]. cbn [negb].
  set (c := if s_max_msize srv >? STYX_MAX_MSG then STYX_MAX_MSG else s_max_msize srv).
  assert ((if msize <? c then msize else c) = agreed) as ->.
  { unfold c, agreed. destruct (Z.gtb_spec (s_max_msize srv) STYX_MAX_MSG);
      match goal with |- context [msize <? ?d] => destruct (Z.ltb_spec msize d) end; lia. }
  eexists _, _. split; [reflexivity|]. split; [|done].
  apply rversion_roundtrip; [|vm_compute; lia]. unfold agreed, STYX_MAX_MSG. unfold_fits. lia.
Qed.

Lemma styx_serve_negotiates_msize_witness :
  exists srv' out,
    styx_serve no_ops (styx_init tt 0) (Some (styx_build_tversion 8192 (Some (str "9P2000")))) 19
      = Some (srv', 0, Some out) /\
    styx_parse_version (Some out) (msg_len out) = Some (inr (8192, Some (str "9P2000"))).
Proof.
  edestruct (styx_serve_negotiates_msize no_ops (styx_init tt 0) 8192) as (srv' & out & H1 & H2 & _);
    [split; vm_compute; congruence|vm_compute; congruence|right; vm_compute; congruence|reflexivity|].
  exists srv', out. split; [exact H1|exact H2].
Defined.

(** A reply to Tread never exceeds the size the client negotiated. *)
Theorem styx_serve_rread_fits_msize {U} (ops : styx_ops U) (srv srv' : styx_server U)
    (m out : list Z) (inlen rc : Z) :
  StyxFs ops -> Forall is_byte m -> 11 < s_msize srv -> rd m 4 = Some STX_TREAD ->
  styx_serve ops srv (Some m) inlen = Some (srv', rc, Some out) ->
  rd out 4 = Some STX_RREAD -> msg_len out <= s_msize srv.
Proof.
  intros Hfs Hm Hms Hty. unfold styx_serve. rewrite Hty. intros Hs Hr. revert Hs.
  destruct (inlen <? 7); [done|]. destruct (styx_get32 m 0) as [sz|]; [|done].
  destruct (styx_get16 m 5) as [tag|]; [|done]. cbn [mbind option_bind].
  assert (forall (srv : styx_server U) e srv' rc out, ok srv (styx_error tag e) = Some (srv', rc, Some out) ->
    rd out 4 <> Some STX_RREAD) as Herr.
  { intros s e s1 r1 o H. unfold ok in H. assert (o = styx_error tag e) as -> by congruence.
    unfold styx_error. by rewrite rd_message_type. }
  destruct (_ || _); [intros H; by destruct (Herr _ _ _ _ _ H)|].
  destruct (_ && _); [intros H; by destruct (Herr _ _ _ _ _ H)|].
  change (dispatch ops srv m sz STX_TREAD tag) with (serve_tread ops srv m sz tag).
  unfold serve_tread. intros (fid & _ & (off & _ & (cnt & Hc & H)%bind_Some)%bind_Some)%bind_Some.
  pose proof (styx_get32_fits _ _ _ Hm Hc) as Hcf.
  destruct (styx_fid_lookup _ _) as [i|]; [|by destruct (Herr _ _ _ _ _ H)].
  destruct (op_read ops) as [read|] eqn:Eop.
  - destruct (read srv fid off (read_cap (s_msize srv) cnt)) as [[[srv1 rc1] data] n] eqn:Er.
    pose proof (read_cap_bound (s_msize srv) cnt Hcf) as Hcap.
    destruct (fs_read _ _ _ _ _ _ _ _ _ Eop Er) as [Hn _]; [lia|].
    destruct (negb (rc1 =? 0)); [by destruct (Herr _ _ _ _ _ H)|].
    apply bind_Some in H as (o & Ho & [= <- <- <-]).
    assert (read_cap (s_msize srv) cnt <= s_msize srv - 11).
    { unfold read_cap. destruct (Z.eqb_spec (s_msize srv) 0), (Z.gtb_spec (s_msize srv) 11); try lia.
      simpl. destruct (Z.gtb_spec (s_msize srv - 11) STYX_MAX_DATA);
        match goal with |- context [cnt >? ?d] => destruct (Z.gtb_spec cnt d) end; lia. }
    pose proof (rread_length tag (Some data) n o ltac:(lia) Ho). lia.
  - apply bind_Some in H as (o & Ho & [= <- <- <-]).
    pose proof (rread_length tag None 0 o ltac:(unfold STYX_MAX_DATA; lia) Ho). lia.
Qed.

(** An opened connection with fid 1 attached. *)
Definition attached_srv : styx_server unit :=
  match styx_serve no_ops (styx_init tt 0) (Some (styx_build_tattach 1 1 0 None)) 17 with
  | Some (srv, _, _) => srv
  | None => styx_init tt 0
  end.

Lemma styx_serve_rread_fits_msize_witness :
  exists srv' out,
    styx_serve hello_ops attached_srv (Some (styx_build_tread 2 1 1 3)) 23
      = Some (srv', 0, Some out) /\ msg_len out <= s_msize attached_srv.
Proof.
  eexists _, _. split; [vm_compute; reflexivity|].
  eapply (styx_serve_rread_fits_msize hello_ops attached_srv _ (styx_build_tread 2 1 1 3) _ 23 0);
    [exact hello_fs|apply (bool_decide_unpack _); vm_compute; exact I|vm_compute; congruence|
     vm_compute; reflexivity..].
Defined.

(** No request makes two live slots carry the same fid, provided the callbacks
    keep that and an attach without an attach callback names a fid that is not
    live. *)
Theorem styx_serve_keeps_fids_unique {U} (ops : styx_ops U) (srv srv' : styx_server U)
    (m : list Z) (inlen rc : Z) (out : option (list Z)) :
  ops_keep_fids ops -> fids_ok (s_fids srv) ->
  (rd m 4 = Some STX_TATTACH -> op_attach ops = None ->
     forall fid, styx_get32 m 7 = Some fid -> styx_fid_lookup (s_fids srv) fid = None) ->
  styx_serve ops srv (Some m) inlen = Some (srv', rc, out) ->
  fids_ok (s_fids srv').
Proof.
  intros Hk Hi Ha. unfold styx_serve.
  destruct (inlen <? 7); [by intros [= <- <- <-]|].
  destruct (styx_get32 m 0) as [sz|]; [|done]. destruct (rd m 4) as [ty|]; [|done].
  destruct (styx_get16 m 5) as [tag|]; [|done]. cbn [mbind option_bind].
  destruct (_ || _); [by intros [= <- <- <-]|]. destruct (_ && _); [by intros [= <- <- <-]|].
  intros H. eapply (keeps_dispatch ops Hk srv m sz ty tag Hi); [|done].
  intros -> fid Hfid Hop. by apply Ha.
Qed.

Lemma no_ops_keep {U} : ops_keep_fids (no_ops (U := U)).
Proof. by split. Qed.

Lemma styx_serve_keeps_fids_unique_witness : fids_ok (s_fids attached_srv).
Proof.
  eapply (styx_serve_keeps_fids_unique no_ops (styx_init tt 0) attached_srv
    (styx_build_tattach 1 1 0 None) 17 0); [apply no_ops_keep| | |vm_compute; reflexivity].
  - intros i j f g [-> _]%lookup_replicate_1 _ L. discriminate L.
  - intros _ _ fid [= <-]. vm_compute. reflexivity.
Defined.

(** The default attach does not check that its fid is free: attaching twice with
    fid 5 leaves two live slots for it, and after one clunk it is still live. *)
Theorem styx_serve_attach_duplicates_fid :
  exists srv1 srv2 srv3 out1 out2 out3,
    let att := styx_build_tattach 1 5 0 None in
    let clk := styx_build_tclunk 1 5 in
    styx_serve no_ops (styx_init tt 0) (Some att) (msg_len att) = Some (srv1, 0, Some out1) /\
    styx_serve no_ops srv1 (Some att) (msg_len att) = Some (srv2, 0, Some out2) /\
    rd out2 4 = Some STX_RATTACH /\ ~ fids_ok (s_fids srv2) /\
    styx_serve no_ops srv2 (Some clk) (msg_len clk) = Some (srv3, 0, Some out3) /\
    rd out3 4 = Some STX_RCLUNK /\ is_Some (styx_fid_lookup (s_fids srv3) 5).
Proof.
  eexists _, _, _, _, _, _. cbv zeta.
  split; [vm_compute; reflexivity|]. split; [vm_compute; reflexivity|].
  split; [reflexivity|]. split.
  { intros H. specialize (H 0%nat 1%nat _ _ eq_refl eq_refl eq_refl eq_refl eq_refl). done. }
  split; [vm_compute; reflexivity|]. split; [reflexivity|]. vm_compute. by eexists.
Qed.

(** A frame of seven bytes, all the server requires, makes these handlers read
    past the end of the buffer before they look at the declared size: Tversion,
    Twalk, Topen, Tread, Twrite, Tclunk, Tremove, Tstat and Twstat. *)
Theorem styx_serve_short_frame_overreads (tag : Z) :
  Forall (fun ty => styx_serve no_ops (styx_init tt 0) (Some (message ty tag [])) 7 = None)
    [STX_TVERSION; STX_TWALK; STX_TOPEN; STX_TREAD; STX_TWRITE; STX_TCLUNK; STX_TREMOVE;
     STX_TSTAT; STX_TWSTAT].
Proof. repeat constructor. Qed.

(** The default stat reply is 68 bytes even on a connection that negotiated the
    minimum of 64. *)
Theorem styx_serve_rstat_exceeds_msize :
  exists srv1 srv2 srv3 out1 out2 out3,
    let ver := styx_build_tversion 64 (Some (str "9P2000")) in
    let att := styx_build_tattach 1 5 0 None in
    let sta := styx_build_tstat 1 5 in
    styx_serve no_ops (styx_init tt 0) (Some ver) (msg_len ver) = Some (srv1, 0, Some out1) /\
    styx_serve no_ops srv1 (Some att) (msg_len att) = Some (srv2, 0, Some out2) /\
    styx_serve no_ops srv2 (Some sta) (msg_len sta) = Some (srv3, 0, Some out3) /\
    s_msize srv2 = 64 /\ msg_len out3 = 68.
Proof.
  eexists _, _, _, _, _, _. cbv zeta.
  split; [vm_compute; reflexivity|]. split; [vm_compute; reflexivity|].
  split; [vm_compute; reflexivity|]. by split.
Qed.

(** A callback that answers with the number of names whose pointers were never
    set, as a count of qids. *)
Definition count_unset_ops : styx_ops unit :=
  {| op_clone := None; op_attach := None;
     op_walk := Some (fun srv _ _ names _ =>
       let unset := length (List.filter (fun p => match p with None => true | Some _ => false end) names) in
       (srv, 0, replicate unset zero_qid, Z.of_nat unset));
     op_open := None; op_read := None; op_write := None; op_clunk := None; op_remove := None;
     op_stat := None; op_wstat := None; op_auth := None; op_create := None; op_flush := None |}.

(** A Twalk that announces three names and carries one hands the callback two
    pointers that were never set. *)
Theorem styx_serve_walk_passes_unset_names :
  let frame := message STX_TWALK 9 (styx_put32 0 ++ styx_put32 2 ++ styx_put16 3 ++ styx_putstr (Some (str "a"))) in
  exists srv1 out1 srv2 out2,
    styx_serve count_unset_ops (styx_init tt 0) (Some (styx_build_tattach 1 0 0 None)) 18 = Some (srv1, 0, Some out1) /\
    styx_serve count_unset_ops srv1 (Some frame) (msg_len frame) = Some (srv2, 0, Some out2) /\
    rd out2 4 = Some STX_RWALK /\ styx_get16 out2 7 = Some 2.
Proof.
  eexists _, _, _, _. cbv zeta. split; [vm_compute; reflexivity|]. split; [vm_compute; reflexivity|].
  split; vm_compute; reflexivity.
Qed.
