(* ===== verification/Cap.v ===== *)
(** * The capability core

    [runtime/wubu_cap]: tokens, the object registry with derive and revoke, the
    revocation cascade, the denial audit ring, the per-process handle tables and
    the boot capability.

    The registry [g_wubu_cap_ptrs] is a finite map from indices below 65536 to
    objects (a missing key is a NULL pointer), so a pointer to an object is its
    index.  [allocs] lists the outcomes of the coming calls of [malloc]; when it
    is exhausted [malloc] succeeds.  Locks do not appear: each operation is one
    step.  An audience array is the list of its entries: by the contract stated
    in [wubu_cap.h] it has 8 entries or ends with [WUBU_PID_NONE]. *)

From stdpp Require Import gmap fin_maps.
From S2P Require Import Prelude.
Open Scope Z_scope.

Definition WUBU_CAP_KIND_NONE : Z := 0.
Definition WUBU_CAP_KIND_SYSTEM : Z := 9.
Definition WUBU_RIGHT_DERIVE : Z := 8.
Definition WUBU_RIGHTS_ALL : Z := 2 ^ 64 - 1.
Definition WUBU_CAP_FLAG_PUBLIC : Z := 1.
Definition WUBU_CAP_FLAG_EAGER_REVOKE : Z := 2.
Definition WUBU_CAP_FLAG_IMMORTAL : Z := 8.
Definition WUBU_CAP_FLAG_CASCADE_TRUNCATED : Z := 32.
Definition WUBU_PID_PUBLIC : Z := 65535.
Definition WUBU_PID_KERNEL : Z := -1.
Definition WUBU_PID_NONE : Z := -1.
Definition WUBU_CAP_OK : Z := 0.
Definition WUBU_CAP_EPERM : Z := -1.
Definition WUBU_CAP_EREVOKED : Z := -2.
Definition WUBU_CAP_ENOMEM : Z := -3.
Definition WUBU_CAP_EFAULT : Z := -4.
Definition WUBU_CAP_EINVAL : Z := -5.
Definition WUBU_CAP_OBJECT_CAPACITY : Z := 65536.
Definition WUBU_CAP_AUDIENCE_MAX : nat := 8.
Definition WUBU_CAP_IDX_NONE : Z := 4294967295.

(** ** Tokens: the raw 64-bit word *)

Definition wubu_cap_token_pack (gen idx flags : Z) : Z :=
  Z.lor (Z.lor (u64 (Z.shiftl gen 32)) (Z.shiftl (Z.land idx 16777215) 8)) flags.
Definition wubu_cap_token_gen (t : Z) : Z := u32 (Z.shiftr t 32).
Definition wubu_cap_token_idx (t : Z) : Z := u32 (Z.land (Z.shiftr t 8) 16777215).
Definition wubu_cap_token_flags (t : Z) : Z := u8 (Z.land t 255).
Definition wubu_cap_token_is_null (t : Z) : bool := wubu_cap_token_idx t =? 0.
Definition WUBU_CAP_TOKEN_NULL : Z := 0.

(** ** Audit ring *)

Definition WUBU_CAP_AUDIT_CAPACITY : nat := 256.
Definition WUBU_CAP_CHECK_AUDIENCE : Z := 1.
Definition WUBU_CAP_CHECK_RIGHTS : Z := 2.
Definition WUBU_CAP_CHECK_REVOKED : Z := 3.

Record audit_rec := { a_pid : Z; a_kind : Z; a_check : Z; a_requested : Z; a_seq : Z }.
Record audit_ring := { g_ring : list audit_rec; g_head : nat; g_count : nat; g_seq : Z }.

Definition zero_rec : audit_rec :=
  {| a_pid := 0; a_kind := 0; a_check := 0; a_requested := 0; a_seq := 0 |}.

Definition wubu_cap_audit_reset : audit_ring :=
  {| g_ring := replicate WUBU_CAP_AUDIT_CAPACITY zero_rec; g_head := 0; g_count := 0;
     g_seq := 0 |}.

Definition wubu_cap_audit_record (a : audit_ring) (pid kind requested check : Z) : audit_ring :=
  let seq := u64 (g_seq a + 1) in
  {| g_ring := <[g_head a := {| a_pid := pid; a_kind := kind; a_check := check;
                                a_requested := requested; a_seq := seq |}]> (g_ring a);
     g_head := ((g_head a + 1) mod WUBU_CAP_AUDIT_CAPACITY)%nat;
     g_count := if decide (g_count a < WUBU_CAP_AUDIT_CAPACITY)%nat then S (g_count a)
                else g_count a;
     g_seq := seq |}.

Definition wubu_cap_audit_count (a : audit_ring) : nat := g_count a.
Definition wubu_cap_audit_total (a : audit_ring) : Z := g_seq a.

Definition wubu_cap_audit_at (a : audit_ring) (i : nat) : option audit_rec :=
  if decide (i < g_count a)%nat then
    let start := ((g_head a + WUBU_CAP_AUDIT_CAPACITY - g_count a)
                    mod WUBU_CAP_AUDIT_CAPACITY)%nat in
    g_ring a !! ((start + i) mod WUBU_CAP_AUDIT_CAPACITY)%nat
  else None.

(** ** Objects and the registry *)

Record cap_object := {
  o_kind : Z;
  o_deleted : bool;
  o_generation : Z;
  o_rights : Z;
  o_kind_data : Z;
  o_audience : list Z;        (* the first [audience_count] entries *)
  o_flags : Z;
  o_parent_idx : Z;
  o_owner_pid : Z;
  o_first_child_idx : Z;
  o_next_sibling_idx : Z }.

Record cap_state := {
  ptrs : gmap Z cap_object;
  cap_count : Z;
  audit : audit_ring;
  g_bootcap_idx : Z;
  allocs : list bool }.

Definition has_flag (flags f : Z) : bool := negb (Z.land flags f =? 0).

Definition set_ptrs (st : cap_state) (p : gmap Z cap_object) : cap_state :=
  {| ptrs := p; cap_count := cap_count st; audit := audit st;
     g_bootcap_idx := g_bootcap_idx st; allocs := allocs st |}.
Definition set_count (st : cap_state) (n : Z) : cap_state :=
  {| ptrs := ptrs st; cap_count := n; audit := audit st;
     g_bootcap_idx := g_bootcap_idx st; allocs := allocs st |}.
Definition set_audit (st : cap_state) (a : audit_ring) : cap_state :=
  {| ptrs := ptrs st; cap_count := cap_count st; audit := a;
     g_bootcap_idx := g_bootcap_idx st; allocs := allocs st |}.
Definition malloc (st : cap_state) : bool * cap_state :=
  (match allocs st with b :: _ => b | [] => true end,
   {| ptrs := ptrs st; cap_count := cap_count st; audit := audit st;
      g_bootcap_idx := g_bootcap_idx st; allocs := tail (allocs st) |}).

(** Storing into fields of an object. *)
Definition mark_deleted (o : cap_object) : cap_object :=
  {| o_kind := o_kind o; o_deleted := true; o_generation := u32 (o_generation o + 1);
     o_rights := o_rights o; o_kind_data := o_kind_data o; o_audience := o_audience o;
     o_flags := o_flags o; o_parent_idx := o_parent_idx o; o_owner_pid := o_owner_pid o;
     o_first_child_idx := o_first_child_idx o; o_next_sibling_idx := o_next_sibling_idx o |}.
Definition set_next_sibling (i : Z) (o : cap_object) : cap_object :=
  {| o_kind := o_kind o; o_deleted := o_deleted o; o_generation := o_generation o;
     o_rights := o_rights o; o_kind_data := o_kind_data o; o_audience := o_audience o;
     o_flags := o_flags o; o_parent_idx := o_parent_idx o; o_owner_pid := o_owner_pid o;
     o_first_child_idx := o_first_child_idx o; o_next_sibling_idx := i |}.
Definition set_first_child (i : Z) (o : cap_object) : cap_object :=
  {| o_kind := o_kind o; o_deleted := o_deleted o; o_generation := o_generation o;
     o_rights := o_rights o; o_kind_data := o_kind_data o; o_audience := o_audience o;
     o_flags := o_flags o; o_parent_idx := o_parent_idx o; o_owner_pid := o_owner_pid o;
     o_first_child_idx := i; o_next_sibling_idx := o_next_sibling_idx o |}.
Definition or_flags (f : Z) (o : cap_object) : cap_object :=
  {| o_kind := o_kind o; o_deleted := o_deleted o; o_generation := o_generation o;
     o_rights := o_rights o; o_kind_data := o_kind_data o; o_audience := o_audience o;
     o_flags := u8 (Z.lor (o_flags o) f); o_parent_idx := o_parent_idx o;
     o_owner_pid := o_owner_pid o;
     o_first_child_idx := o_first_child_idx o; o_next_sibling_idx := o_next_sibling_idx o |}.

(** The entries before the first [WUBU_PID_NONE], at most 8. *)
Fixpoint until_none (n : nat) (src : list Z) : list Z :=
  match n, src with
  | S n, p :: src => if p =? WUBU_PID_NONE then [] else p :: until_none n src
  | _, _ => []
  end.
Definition cap_copy_audience (src : option (list Z)) (fallback_pid : Z) : list Z :=
  match src with
  | None => [fallback_pid]
  | Some src => until_none WUBU_CAP_AUDIENCE_MAX src
  end.

(** The scan [for (i = 1; i < CAPACITY; i++)]: [n] indices left, next is [i]. *)
Fixpoint free_slot_from (p : gmap Z cap_object) (n : nat) (i : Z) : Z :=
  match n with
  | O => WUBU_CAP_IDX_NONE
  | S n => match p !! i with None => i | Some _ => free_slot_from p n (i + 1) end
  end.
Definition cap_find_free_slot_locked (p : gmap Z cap_object) : Z :=
  free_slot_from p (Z.to_nat (WUBU_CAP_OBJECT_CAPACITY - 1)) 1.

Definition in_audience (o : cap_object) (pid : Z) : bool := existsb (Z.eqb pid) (o_audience o).

Definition wubu_cap_validate_audience (o : cap_object) (pid : Z) : bool :=
  if has_flag (o_flags o) WUBU_CAP_FLAG_PUBLIC then true else in_audience o pid.

Definition audience_is_subset (parent : cap_object) (subset : option (list Z)) : bool :=
  if has_flag (o_flags parent) WUBU_CAP_FLAG_PUBLIC then true else
  match subset with
  | None => true
  | Some l => forallb (fun p => negb (p =? WUBU_PID_PUBLIC) && in_audience parent p)
                (until_none WUBU_CAP_AUDIENCE_MAX l)
  end.

Definition sentinel : cap_object :=
  {| o_kind := WUBU_CAP_KIND_NONE; o_deleted := false; o_generation := 1;
     o_rights := WUBU_RIGHTS_ALL; o_kind_data := 0; o_audience := [WUBU_PID_PUBLIC];
     o_flags := Z.lor WUBU_CAP_FLAG_IMMORTAL WUBU_CAP_FLAG_PUBLIC;
     o_parent_idx := WUBU_CAP_IDX_NONE; o_owner_pid := WUBU_PID_KERNEL;
     o_first_child_idx := WUBU_CAP_IDX_NONE; o_next_sibling_idx := WUBU_CAP_IDX_NONE |}.

Definition wubu_cap_init (st : cap_state) : cap_state :=
  match ptrs st !! 0 with
  | Some _ => st
  | None =>
      let '(okm, st) := malloc st in
      if negb okm then st else
      set_count (set_ptrs st (<[0 := sentinel]> (ptrs st))) 1
  end.

(** Process memory as the loader leaves it. *)
Definition cap_boot : cap_state :=
  {| ptrs := ∅; cap_count := 0; audit := wubu_cap_audit_reset;
     g_bootcap_idx := WUBU_CAP_IDX_NONE; allocs := [] |}.

(** The result is the index of the object, [None] for NULL; a refusal for an
    existing object is recorded. *)
Definition wubu_cap_resolve (st : cap_state) (pid tok required : Z) : option Z * cap_state :=
  if wubu_cap_token_is_null tok then (None, st) else
  let idx := wubu_cap_token_idx tok in
  if (idx =? 0) || (idx >=? WUBU_CAP_OBJECT_CAPACITY) then (None, st) else
  match ptrs st !! idx with
  | None => (None, st)
  | Some o =>
      let deny check :=
        (None, set_audit st (wubu_cap_audit_record (audit st) pid (o_kind o) required check)) in
      if o_deleted o then deny WUBU_CAP_CHECK_REVOKED
      else if negb (o_generation o =? wubu_cap_token_gen tok) then deny WUBU_CAP_CHECK_REVOKED
      else if negb (has_flag (o_flags o) WUBU_CAP_FLAG_PUBLIC) && negb (in_audience o pid)
      then deny WUBU_CAP_CHECK_AUDIENCE
      else if negb (Z.land (o_rights o) required =? required) then deny WUBU_CAP_CHECK_RIGHTS
      else (Some idx, st)
  end.

Definition wubu_cap_link_child (st : cap_state) (parent_idx child_idx : Z) : cap_state :=
  if (parent_idx =? WUBU_CAP_IDX_NONE) || (parent_idx >=? WUBU_CAP_OBJECT_CAPACITY) then st else
  if (child_idx =? 0) || (child_idx >=? WUBU_CAP_OBJECT_CAPACITY) then st else
  match ptrs st !! parent_idx, ptrs st !! child_idx with
  | Some parent, Some _ =>
      let p := alter (set_next_sibling (o_first_child_idx parent)) child_idx (ptrs st) in
      set_ptrs st (alter (set_first_child child_idx) parent_idx p)
  | _, _ => st
  end.

(** Return code (the slot on success), [*out] and the new state. *)
Definition wubu_cap_create (st : cap_state) (kind rights : Z) (audience : option (list Z))
    (flags kind_data owner_pid parent_idx : Z) : Z * Z * cap_state :=
  let st := match ptrs st !! 0 with None => wubu_cap_init st | Some _ => st end in
  let '(okm, st) := malloc st in
  if negb okm then (WUBU_CAP_ENOMEM, WUBU_CAP_TOKEN_NULL, st) else
  let aud := cap_copy_audience audience owner_pid in
  let flags := if existsb (fun p => u32 p =? u32 WUBU_PID_PUBLIC) aud
               then u8 (Z.lor flags WUBU_CAP_FLAG_PUBLIC) else flags in
  let obj := {| o_kind := kind; o_deleted := false; o_generation := 1; o_rights := rights;
                o_kind_data := kind_data; o_audience := aud; o_flags := flags;
                o_parent_idx := parent_idx; o_owner_pid := owner_pid;
                o_first_child_idx := WUBU_CAP_IDX_NONE;
                o_next_sibling_idx := WUBU_CAP_IDX_NONE |} in
  let slot := cap_find_free_slot_locked (ptrs st) in
  if slot =? WUBU_CAP_IDX_NONE then (WUBU_CAP_ENOMEM, WUBU_CAP_TOKEN_NULL, st) else
  let st := set_ptrs st (<[slot := obj]> (ptrs st)) in
  let st := if slot >=? cap_count st then set_count st (slot + 1) else st in
  let st := if negb (parent_idx =? WUBU_CAP_IDX_NONE) && (parent_idx <? WUBU_CAP_OBJECT_CAPACITY)
            then wubu_cap_link_child st parent_idx slot else st in
  (slot, wubu_cap_token_pack 1 slot flags, st).

Definition cap_derive_inner (st : cap_state) (parent_tok caller_pid rights_subset : Z)
    (audience_subset : option (list Z)) (flags_subset : Z) (allow_audience_expand : bool)
  : Z * Z * cap_state :=
  let fail rc := (rc, WUBU_CAP_TOKEN_NULL, st) in
  let parent_idx := wubu_cap_token_idx parent_tok in
  if (parent_idx =? 0) || (parent_idx >=? WUBU_CAP_OBJECT_CAPACITY) then fail WUBU_CAP_EINVAL else
  match ptrs st !! parent_idx with
  | None => fail WUBU_CAP_EINVAL
  | Some parent =>
      if o_deleted parent then fail WUBU_CAP_EREVOKED
      else if negb (wubu_cap_validate_audience parent caller_pid) then fail WUBU_CAP_EPERM
      else if Z.land (o_rights parent) WUBU_RIGHT_DERIVE =? 0 then fail WUBU_CAP_EPERM
      else if negb (Z.land (o_rights parent) rights_subset =? rights_subset) then fail WUBU_CAP_EPERM
      else
        let PRIV := Z.lor WUBU_CAP_FLAG_PUBLIC WUBU_CAP_FLAG_IMMORTAL in
        let priv_sub := Z.land flags_subset PRIV in
        if negb (Z.land (o_flags parent) priv_sub =? priv_sub) then fail WUBU_CAP_EPERM
        else if negb allow_audience_expand && negb (audience_is_subset parent audience_subset)
        then fail WUBU_CAP_EPERM
        else
          let aud := match audience_subset with
                     | Some aud => aud
                     | None => caller_pid :: replicate (WUBU_CAP_AUDIENCE_MAX - 1) WUBU_PID_NONE
                     end in
          wubu_cap_create st (o_kind parent) rights_subset (Some aud) flags_subset
            (o_kind_data parent) caller_pid parent_idx
  end.

Definition wubu_cap_derive (st : cap_state) (parent caller_pid rights_subset : Z)
    (audience_subset : option (list Z)) (flags_subset : Z) : Z * Z * cap_state :=
  cap_derive_inner st parent caller_pid rights_subset audience_subset flags_subset false.

(** ** Revocation *)

Definition WUBU_CAP_REVOKE_CASCADE_MAX : nat := 1024.

(** Append a sibling list to the queue: from [c], with [room] free entries.
    The flag tells that entries were left out. *)
Fixpoint push_siblings (p : gmap Z cap_object) (room : nat) (c : Z) : list Z * bool :=
  if c =? WUBU_CAP_IDX_NONE then ([], false) else
  match room with
  | O => ([], true)
  | S room =>
      match p !! c with
      | None => ([c], false)
      | Some o => let '(q, tr) := push_siblings p room (o_next_sibling_idx o) in (c :: q, tr)
      end
  end.

(** The main loop: [todo] is [queue[head .. tail)], [room] the entries after
    [tail].  Each round takes one entry, and at most 1024 are ever queued. *)
Fixpoint cascade_loop (fuel : nat) (p : gmap Z cap_object) (todo : list Z) (room : nat)
    (count : Z) (truncated : bool) : gmap Z cap_object * Z * bool :=
  match fuel, todo with
  | S fuel, idx :: todo =>
      match p !! idx with
      | None => cascade_loop fuel p todo room count truncated
      | Some o =>
          if has_flag (o_flags o) WUBU_CAP_FLAG_IMMORTAL
          then cascade_loop fuel p todo room count truncated
          else
            let '(p, count) := if negb (o_deleted o) then (<[idx := mark_deleted o]> p, count + 1)
                               else (p, count) in
            let '(q, tr) := push_siblings p room (o_first_child_idx o) in
            cascade_loop fuel p (todo ++ q) (room - length q) count (truncated || tr)
      end
  | _, _ => (p, count, truncated)
  end.

(** The first loop also reports truncation when it stops at a missing object. *)
Definition wubu_cap_revoke_cascade (st : cap_state) (root_idx : Z) : Z * cap_state :=
  if (root_idx =? 0) || (root_idx >=? WUBU_CAP_OBJECT_CAPACITY) then (0, st) else
  match ptrs st !! root_idx with
  | None => (0, st)
  | Some root =>
      let '(q, tr) := push_siblings (ptrs st) WUBU_CAP_REVOKE_CASCADE_MAX (o_first_child_idx root) in
      let stopped := match last q with
                     | Some c => match ptrs st !! c with None => true | Some _ => false end
                     | None => false
                     end in
      let '(p, count, truncated) :=
        cascade_loop WUBU_CAP_REVOKE_CASCADE_MAX (ptrs st) q
          (WUBU_CAP_REVOKE_CASCADE_MAX - length q) 0 (tr || stopped) in
      let p := if truncated then alter (or_flags WUBU_CAP_FLAG_CASCADE_TRUNCATED) root_idx p else p in
      (count, set_ptrs st p)
  end.

Definition wubu_cap_revoke (st : cap_state) (tok : Z) : Z * cap_state :=
  let idx := wubu_cap_token_idx tok in
  if (idx =? 0) || (idx >=? WUBU_CAP_OBJECT_CAPACITY) then (WUBU_CAP_EINVAL, st) else
  match ptrs st !! idx with
  | None => (WUBU_CAP_EINVAL, st)
  | Some o =>
      if has_flag (o_flags o) WUBU_CAP_FLAG_IMMORTAL then (WUBU_CAP_EPERM, st)
      else if o_deleted o then (WUBU_CAP_EREVOKED, st)
      else
        let st := set_ptrs st (<[idx := mark_deleted o]> (ptrs st)) in
        if has_flag (o_flags o) WUBU_CAP_FLAG_EAGER_REVOKE then
          let '(c, st) := wubu_cap_revoke_cascade st idx in
          (if c >? 0 then 1 + c else 1, st)
        else (1, st)
  end.

Definition wubu_cap_destroy (st : cap_state) (idx : Z) : cap_state :=
  if (idx =? 0) || (idx >=? WUBU_CAP_OBJECT_CAPACITY) then st
  else set_ptrs st (delete idx (ptrs st)).

Record cap_inspect := {
  i_kind : Z; i_flags : Z; i_generation : Z; i_rights : Z; i_audience : list Z; i_owner_pid : Z }.

(** [inl rc] or the filled record; its audience array is padded to 8 entries. *)
Definition wubu_cap_inspect (st : cap_state) (tok caller_pid : Z) : Z + cap_inspect :=
  let idx := wubu_cap_token_idx tok in
  if (idx =? 0) || (idx >=? WUBU_CAP_OBJECT_CAPACITY) then inl WUBU_CAP_EINVAL else
  match ptrs st !! idx with
  | None => inl WUBU_CAP_EINVAL
  | Some o =>
      if o_deleted o then inl WUBU_CAP_EREVOKED
      else if negb (wubu_cap_validate_audience o caller_pid) then inl WUBU_CAP_EPERM
      else
        let shown := List.filter (fun p => (p =? caller_pid) || (u32 p =? u32 WUBU_PID_PUBLIC))
                       (o_audience o) in
        inr {| i_kind := o_kind o; i_flags := o_flags o; i_generation := o_generation o;
               i_rights := o_rights o;
               i_audience := shown ++ replicate (WUBU_CAP_AUDIENCE_MAX - length shown) WUBU_PID_NONE;
               i_owner_pid := o_owner_pid o |}
  end.

(** ** Handle tables

    Slot 0 is reserved; its generation and flags are not initialised by the
    source and never read (its [object_idx] stays [WUBU_CAP_IDX_NONE]).

    An entry indexes [g_wubu_cap_ptrs] without a bound check, so the lookups
    below describe the code for tables whose entries index the array, which
    insertions of array slots keep ([CapHandles.cap_handles_index_the_array]);
    for another index the model finds no object where C reads past the array. *)

Definition WUBU_CAP_HANDLE_INITIAL : nat := 16.
Definition WUBU_CAP_HANDLE_MAX : nat := 1024.
Definition WUBU_CAP_HANDLE_NONE : Z := 4294967295.

Record hentry := { h_object_idx : Z; h_local_gen : Z; h_token_flags : Z; h_next_free : Z }.
(** [capacity] is the length of [ht_entries]. *)
Record handle_table := { ht_entries : list hentry; ht_count : Z; ht_next_free : Z }.

Definition ht_capacity (t : handle_table) : Z := Z.of_nat (length (ht_entries t)).

(** The slots [start .. start + n) chained in front of [head], and the new head.
    The source fills an array from its end; the entries are the same. *)
Fixpoint rebuild_free (start n : nat) (head : Z) : list hentry * Z :=
  match n with
  | O => ([], head)
  | S n =>
      let '(rest, h) := rebuild_free (S start) n head in
      ({| h_object_idx := WUBU_CAP_IDX_NONE; h_local_gen := 1; h_token_flags := 0;
          h_next_free := h |} :: rest, Z.of_nat start)
  end.

Definition wubu_cap_handle_table_create (st : cap_state) : option handle_table * cap_state :=
  let '(ok1, st) := malloc st in
  if negb ok1 then (None, st) else
  let '(ok2, st) := malloc st in
  if negb ok2 then (None, st) else
  let '(rest, head) := rebuild_free 1 (WUBU_CAP_HANDLE_INITIAL - 1) WUBU_CAP_HANDLE_NONE in
  (Some {| ht_entries := {| h_object_idx := WUBU_CAP_IDX_NONE; h_local_gen := 0;
                            h_token_flags := 0; h_next_free := WUBU_CAP_HANDLE_NONE |} :: rest;
           ht_count := 0; ht_next_free := head |}, st).

Definition grow (st : cap_state) (t : handle_table) : Z * handle_table * cap_state :=
  if decide (WUBU_CAP_HANDLE_MAX <= length (ht_entries t))%nat then (WUBU_CAP_ENOMEM, t, st) else
  let new_cap := Nat.min (length (ht_entries t) * 2) WUBU_CAP_HANDLE_MAX in
  let '(okm, st) := malloc st in
  if negb okm then (WUBU_CAP_ENOMEM, t, st) else
  let '(rest, head) := rebuild_free (length (ht_entries t)) (new_cap - length (ht_entries t))
                         (ht_next_free t) in
  (WUBU_CAP_OK, {| ht_entries := ht_entries t ++ rest; ht_count := ht_count t;
                   ht_next_free := head |}, st).

(** The entry at a slot the source has checked against [capacity]. *)
Definition entry_at (t : handle_table) (slot : Z) : option hentry :=
  if slot <? 0 then None else ht_entries t !! Z.to_nat slot.

Definition wubu_cap_handle_slot_live (t : handle_table) (slot : Z) : bool :=
  if (slot <? 1) || (slot >=? ht_capacity t) then false else
  match entry_at t slot with
  | Some e => negb (h_object_idx e =? WUBU_CAP_IDX_NONE)
  | None => false
  end.

Definition wubu_cap_handle_insert (st : cap_state) (t : handle_table) (object_idx token_flags : Z)
  : Z * handle_table * cap_state :=
  if object_idx =? WUBU_CAP_IDX_NONE then (WUBU_CAP_TOKEN_NULL, t, st) else
  let '(rc, t, st) := if ht_next_free t =? WUBU_CAP_HANDLE_NONE then grow st t
                      else (WUBU_CAP_OK, t, st) in
  if negb (rc =? WUBU_CAP_OK) then (WUBU_CAP_TOKEN_NULL, t, st) else
  let slot := ht_next_free t in
  match entry_at t slot with
  | None => (WUBU_CAP_TOKEN_NULL, t, st)   (* [next_free] always names an entry *)
  | Some e =>
      let e' := {| h_object_idx := object_idx; h_local_gen := h_local_gen e;
                   h_token_flags := token_flags; h_next_free := WUBU_CAP_HANDLE_NONE |} in
      (wubu_cap_token_pack (h_local_gen e) slot token_flags,
       {| ht_entries := <[Z.to_nat slot := e']> (ht_entries t);
          ht_count := u32 (ht_count t + 1); ht_next_free := h_next_free e |}, st)
  end.

Definition wubu_cap_handle_resolve (st : cap_state) (t : handle_table) (caller_pid tok required : Z)
  : option Z * cap_state :=
  let slot := wubu_cap_token_idx tok in
  if slot >=? ht_capacity t then (None, st) else
  match entry_at t slot with
  | None => (None, st)
  | Some e =>
      if h_object_idx e =? WUBU_CAP_IDX_NONE then (None, st)
      else if negb (h_local_gen e =? wubu_cap_token_gen tok) then (None, st)
      else
        let gen := match ptrs st !! h_object_idx e with Some o => o_generation o | None => 0 end in
        wubu_cap_resolve st caller_pid
          (wubu_cap_token_pack gen (h_object_idx e) (h_token_flags e)) required
  end.

Definition wubu_cap_handle_close (t : handle_table) (tok : Z) : Z * handle_table :=
  let slot := wubu_cap_token_idx tok in
  if slot >=? ht_capacity t then (WUBU_CAP_EINVAL, t) else
  match entry_at t slot with
  | None => (WUBU_CAP_EINVAL, t)
  | Some e =>
      if h_object_idx e =? WUBU_CAP_IDX_NONE then (WUBU_CAP_EINVAL, t) else
      (WUBU_CAP_OK,
       {| ht_entries := <[Z.to_nat slot :=
            {| h_object_idx := WUBU_CAP_IDX_NONE; h_local_gen := u32 (h_local_gen e + 1);
               h_token_flags := 0; h_next_free := ht_next_free t |}]> (ht_entries t);
          ht_count := u32 (ht_count t - 1); ht_next_free := slot |})
  end.

(** The scan over [slot = 1 .. capacity): it stops at the first live handle of
    the kind, whatever its rights. *)
Fixpoint scan_kind (st : cap_state) (es : list hentry) (pid kind required : Z) : Z * cap_state :=
  match es with
  | [] => (WUBU_CAP_EPERM, st)
  | e :: es =>
      if h_object_idx e =? WUBU_CAP_IDX_NONE then scan_kind st es pid kind required else
      match ptrs st !! h_object_idx e with
      | None => scan_kind st es pid kind required
      | Some o =>
          if o_deleted o then scan_kind st es pid kind required
          else if negb (o_kind o =? kind) then scan_kind st es pid kind required
          else
            let '(r, st) := wubu_cap_resolve st pid
              (wubu_cap_token_pack (o_generation o) (h_object_idx e) (h_token_flags e)) required in
            (match r with Some _ => WUBU_CAP_OK | None => WUBU_CAP_EPERM end, st)
      end
  end.
Definition wubu_cap_handle_resolve_kind (st : cap_state) (t : handle_table) (pid kind required : Z)
  : Z * cap_state := scan_kind st (tail (ht_entries t)) pid kind required.

Definition wubu_cap_handle_resolve_by_slot (st : cap_state) (t : handle_table)
    (caller_pid slot required : Z) : option Z * cap_state :=
  if (slot <? 1) || (slot >=? ht_capacity t) then (None, st) else
  match entry_at t slot with
  | None => (None, st)
  | Some e =>
      if h_object_idx e =? WUBU_CAP_IDX_NONE then (None, st) else
      wubu_cap_handle_resolve st t caller_pid
        (wubu_cap_token_pack (h_local_gen e) slot (h_token_flags e)) required
  end.

Definition wubu_cap_handle_revoke_by_slot (st : cap_state) (t : handle_table) (slot : Z)
  : Z * cap_state :=
  if (slot <? 1) || (slot >=? ht_capacity t) then (WUBU_CAP_EINVAL, st) else
  match entry_at t slot with
  | None => (WUBU_CAP_EINVAL, st)
  | Some e =>
      if h_object_idx e =? WUBU_CAP_IDX_NONE then (WUBU_CAP_EINVAL, st) else
      match ptrs st !! h_object_idx e with
      | None => (WUBU_CAP_EREVOKED, st)
      | Some o =>
          if o_deleted o then (WUBU_CAP_EREVOKED, st) else
          let '(rc, st) := wubu_cap_revoke st
            (wubu_cap_token_pack (o_generation o) (h_object_idx e) (h_token_flags e)) in
          (if rc <? 0 then rc else WUBU_CAP_OK, st)
      end
  end.

Definition wubu_cap_handle_close_slot (t : handle_table) (slot : Z) : Z * handle_table :=
  if (slot <? 1) || (slot >=? ht_capacity t) then (WUBU_CAP_EINVAL, t) else
  match entry_at t slot with
  | None => (WUBU_CAP_EINVAL, t)
  | Some e =>
      if h_object_idx e =? WUBU_CAP_IDX_NONE then (WUBU_CAP_EINVAL, t) else
      wubu_cap_handle_close t (wubu_cap_token_pack (h_local_gen e) slot (h_token_flags e))
  end.

(** ** The boot capability *)

Definition set_bootcap (st : cap_state) (i : Z) : cap_state :=
  {| ptrs := ptrs st; cap_count := cap_count st; audit := audit st;
     g_bootcap_idx := i; allocs := allocs st |}.

Definition wubu_cap_system_init (st : cap_state) : cap_state :=
  if negb (g_bootcap_idx st =? WUBU_CAP_IDX_NONE) then st else
  let '(r, _, st) := wubu_cap_create st WUBU_CAP_KIND_SYSTEM WUBU_RIGHTS_ALL
    (Some [WUBU_PID_KERNEL]) (Z.lor WUBU_CAP_FLAG_PUBLIC WUBU_CAP_FLAG_EAGER_REVOKE)
    0 WUBU_PID_KERNEL WUBU_CAP_IDX_NONE in
  if r <=? 0 then st else set_bootcap st (u32 r).

Definition wubu_cap_system_bootcap_idx (st : cap_state) : Z := g_bootcap_idx st.

Definition wubu_cap_system_install_to_pid (st : cap_state) (t : handle_table) (pid rights_subset : Z)
  : Z * handle_table * cap_state :=
  if g_bootcap_idx st =? WUBU_CAP_IDX_NONE then (WUBU_CAP_EINVAL, t, st) else
  match ptrs st !! g_bootcap_idx st with
  | None => (WUBU_CAP_EREVOKED, t, st)
  | Some root =>
      if o_deleted root then (WUBU_CAP_EREVOKED, t, st)
      else if negb (Z.land rights_subset (Z.lnot (o_rights root)) =? 0)
      then (WUBU_CAP_EPERM, t, st)
      else
        let '(r, _, st) := wubu_cap_derive st
          (wubu_cap_token_pack (o_generation root) (g_bootcap_idx st) 0)
          WUBU_PID_KERNEL rights_subset
          (Some (pid :: replicate 7 (-1))) 0 in
        if r <=? 0 then (WUBU_CAP_EPERM, t, st) else
        let '(htok, t, st) := wubu_cap_handle_insert st t (u32 r) 0 in
        (if wubu_cap_token_is_null htok then WUBU_CAP_ENOMEM else WUBU_CAP_OK, t, st)
  end.

Definition wubu_cap_system_resolve (st : cap_state) (t : handle_table) (pid required : Z)
  : Z * cap_state :=
  wubu_cap_handle_resolve_kind st t pid WUBU_CAP_KIND_SYSTEM required.
