(* ===== verification/CapCascade.v ===== *)
(** * The revocation cascade

    Which objects an eager revoke reaches: the walk over the child lists marks
    what lies on them; sessions keep the lists complete, so that this is
    exactly the offspring of the object by parent index. *)

From stdpp Require Import gmap fin_maps.
From S2P Require Import Prelude Cap CapFacts CapAuthority.
Open Scope Z_scope.

(** [chain p c j]: [j] is met when walking the sibling list from [c]. *)
Inductive chain (p : gmap Z cap_object) : Z -> Z -> Prop :=
  | chain_here c o : p !! c = Some o -> chain p c c
  | chain_next c o j : p !! c = Some o -> chain p (o_next_sibling_idx o) j -> chain p c j.

Definition mortal (o : cap_object) : Prop := Z.testbit (o_flags o) 3 = false.

(** [descends p i d]: [d] is [i] or below it, through objects that are not
    immortal. *)
Inductive descends (p : gmap Z cap_object) : Z -> Z -> Prop :=
  | descends_self i o : p !! i = Some o -> mortal o -> descends p i i
  | descends_child i o j d :
      p !! i = Some o -> mortal o -> chain p (o_first_child_idx o) j -> descends p j d ->
      descends p i d.

(** [d] is strictly below [root]. *)
Definition below (p : gmap Z cap_object) (root d : Z) : Prop :=
  exists r j, p !! root = Some r /\ chain p (o_first_child_idx r) j /\ descends p j d.

Definition links (o : cap_object) : Z * Z * Z := (o_flags o, o_first_child_idx o, o_next_sibling_idx o).
Definition same_links (p q : gmap Z cap_object) : Prop := forall i, links <$> p !! i = links <$> q !! i.

Lemma same_links_lookup p q i o :
  same_links p q -> p !! i = Some o -> exists o', q !! i = Some o' /\ links o' = links o.
Proof.
  intros H Hi. specialize (H i). rewrite Hi in H. destruct (q !! i) as [o'|]; [|done].
  exists o'. split; [done|]. cbn in H. congruence.
Qed.

Lemma chain_links p q c j : same_links p q -> chain p c j -> chain q c j.
Proof.
  intros H. induction 1 as [c o Hc|c o j Hc _ IH];
    destruct (same_links_lookup _ _ _ _ H Hc) as (o' & Ho' & E); unfold links in E; injection E as E1 E2 E3.
  - by econstructor.
  - eapply chain_next; [done|]. by rewrite E3.
Qed.

Lemma descends_links p q i d : same_links p q -> descends p i d -> descends q i d.
Proof.
  intros H. induction 1 as [i o Hi Hm|i o j d Hi Hm Hc _ IH];
    destruct (same_links_lookup _ _ _ _ H Hi) as (o' & Ho' & E); unfold links in E; injection E as E1 E2 E3.
  - econstructor; [done|]. unfold mortal in *. congruence.
  - eapply descends_child; [done| | |done]; [unfold mortal in *; congruence|].
    rewrite E2. by eapply chain_links.
Qed.

Lemma same_links_sym p q : same_links p q -> same_links q p.
Proof. intros H i. symmetry. apply H. Qed.
Lemma same_links_insert p i o o' : p !! i = Some o -> links o' = links o -> same_links p (<[i := o']> p).
Proof.
  intros Hi E j. destruct (decide (i = j)) as [<-|].
  - rewrite Hi, lookup_insert_eq. cbn. by rewrite E.
  - by rewrite lookup_insert_ne.
Qed.

(** ** Sibling lists *)

Lemma push_siblings_length p room c : (length (push_siblings p room c).1 <= room)%nat.
Proof.
  revert c. induction room as [|room IH]; intros c; simpl; destruct (c =? _); simpl; try lia.
  destruct (p !! c) as [o|]; simpl; [|lia]. specialize (IH (o_next_sibling_idx o)).
  destruct (push_siblings p room _). simpl in *. lia.
Qed.

Lemma push_siblings_complete p room c q j :
  p !! WUBU_CAP_IDX_NONE = None -> push_siblings p room c = (q, false) -> chain p c j -> j ∈ q.
Proof.
  intros Hnone. revert c q. induction room as [|room IH]; intros c q H Hch; simpl in H;
    (destruct (Z.eqb_spec c WUBU_CAP_IDX_NONE) as [->|Hc]; [by inversion Hch; congruence|]); [done|].
  inversion Hch as [? o Ho|? o ? Ho Hrest]; subst; rewrite Ho in H;
    destruct (push_siblings p room _) as [q' tr] eqn:E; simplify_eq; [by left|].
  right. by eapply IH.
Qed.

Lemma push_siblings_sound p room c j o :
  j ∈ (push_siblings p room c).1 -> p !! j = Some o -> chain p c j.
Proof.
  revert c. induction room as [|room IH]; intros c Hin Hj; simpl in Hin;
    destruct (c =? _); try (by inversion Hin).
  destruct (p !! c) as [oc|] eqn:Ec.
  - specialize (IH (o_next_sibling_idx oc)). destruct (push_siblings p room _) as [q tr]. simpl in *.
    apply elem_of_cons in Hin as [->|Hin]; [by econstructor|]. eapply chain_next; [done|]. by apply IH.
  - apply list_elem_of_singleton in Hin as ->. congruence.
Qed.

(** ** The loop *)

(** What the loop may do to the registry: mark some descendants of the queue. *)
Definition marks (p p' : gmap Z cap_object) (S : Z -> Prop) : Prop :=
  forall i, p' !! i = p !! i \/
    (exists o, p !! i = Some o /\ o_deleted o = false /\ p' !! i = Some (mark_deleted o) /\ S i).

Lemma marks_links p p' S : marks p p' S -> same_links p p'.
Proof. intros H i. destruct (H i) as [->|(o & -> & _ & -> & _)]; done. Qed.

Lemma marks_refl p S : marks p p S.
Proof. intros i. by left. Qed.

Lemma marks_weaken p p' (S T : Z -> Prop) : marks p p' S -> (forall i, S i -> T i) -> marks p p' T.
Proof. intros H HS i. destruct (H i) as [|(o & ? & ? & ? & ?)]; [by left|right; eauto 10]. Qed.

Lemma marks_first p p' idx o S :
  p !! idx = Some o -> o_deleted o = false ->
  marks (<[idx := mark_deleted o]> p) p' S -> marks p p' (fun i => i = idx \/ S i).
Proof.
  intros Ho Hd H i. destruct (decide (i = idx)) as [->|Hne].
  - destruct (H idx) as [E|(o1 & E1 & Hd1 & _)].
    + right. exists o. rewrite E, lookup_insert_eq. auto.
    + rewrite lookup_insert_eq in E1. by simplify_eq.
  - destruct (H i) as [E|(o1 & E1 & Hd1 & E2 & HS)]; rewrite lookup_insert_ne in * by done; [by left|].
    right. eauto 10.
Qed.

Definition dead (p : gmap Z cap_object) (i : Z) : Prop := exists o, p !! i = Some o /\ o_deleted o = true.

Lemma marks_dead p p' S i : marks p p' S -> dead p i -> dead p' i.
Proof.
  intros H (o & Ho & Hd). destruct (H i) as [E|(o1 & E1 & Hd1 & _)]; [|congruence].
  exists o. by rewrite E.
Qed.

Definition from_queue (p : gmap Z cap_object) (todo : list Z) (d : Z) : Prop :=
  exists i, i ∈ todo /\ descends p i d.

Lemma from_queue_cons p todo i d : from_queue p todo d -> from_queue p (i :: todo) d.
Proof. intros (j & ? & ?). exists j. split; [by right|done]. Qed.

Lemma from_queue_push p p1 todo room idx o d :
  same_links p p1 -> p !! idx = Some o -> mortal o ->
  from_queue p1 (todo ++ (push_siblings p1 room (o_first_child_idx o)).1) d ->
  from_queue p (idx :: todo) d.
Proof.
  intros Hl Ho Hm (i & Hi & Hd). apply (descends_links p1 p) in Hd; [|by apply same_links_sym].
  apply elem_of_app in Hi as [Hi|Hi]; [exists i; split; [by right|done]|].
  exists idx. split; [by left|]. eapply descends_child; [done..| |exact Hd].
  eapply chain_links; [by apply same_links_sym|].
  assert (exists oi, p !! i = Some oi) as [oi Hoi] by (inversion Hd; eauto).
  destruct (same_links_lookup _ _ _ _ Hl Hoi) as (oi' & ? & _).
  by eapply push_siblings_sound.
Qed.

Lemma mortal_flag o : has_flag (o_flags o) WUBU_CAP_FLAG_IMMORTAL = false -> mortal o.
Proof. by rewrite immortal_bit. Qed.

Lemma cascade_loop_marks fuel p todo room count tr p' c' tr' :
  cascade_loop fuel p todo room count tr = (p', c', tr') -> marks p p' (from_queue p todo).
Proof.
  revert p todo room count tr. induction fuel as [|fuel IH]; intros p todo room count tr; simpl.
  { intros. simplify_eq. apply marks_refl. }
  destruct todo as [|idx todo]; [intros; simplify_eq; apply marks_refl|].
  destruct (p !! idx) as [o|] eqn:Eo;
    [|intros H%IH; eapply marks_weaken; [exact H|]; intros; by apply from_queue_cons].
  destruct (has_flag _ _) eqn:Ei;
    [intros H%IH; eapply marks_weaken; [exact H|]; intros; by apply from_queue_cons|].
  apply mortal_flag in Ei.
  destruct (o_deleted o) eqn:Ed; simpl.
  - destruct (push_siblings p room (o_first_child_idx o)) as [q t] eqn:Eq. intros H%IH.
    eapply marks_weaken; [exact H|]. intros d Hd.
    eapply (from_queue_push p p todo room idx o); [intros ?; done|done..|]. by rewrite Eq.
  - set (p1 := <[idx := mark_deleted o]> p).
    destruct (push_siblings p1 room (o_first_child_idx o)) as [q t] eqn:Eq. intros H%IH.
    eapply marks_weaken; [by eapply marks_first|]. intros d [->|Hd].
    + exists idx. split; [by left|]. by econstructor.
    + eapply (from_queue_push p p1 todo room idx o); [|done..|by rewrite Eq].
      by apply (same_links_insert p idx o).
Qed.

Lemma cascade_loop_truncated fuel p todo room count p' c' tr' :
  cascade_loop fuel p todo room count true = (p', c', tr') -> tr' = true.
Proof.
  revert p todo room count. induction fuel as [|fuel IH]; intros p todo room count; simpl; [congruence|].
  destruct todo as [|idx todo]; [congruence|]. destruct (p !! idx) as [o|]; [|apply IH].
  destruct (has_flag _ _); [apply IH|]. destruct (o_deleted o); simpl; destruct (push_siblings _ _ _); apply IH.
Qed.

Lemma cascade_loop_complete fuel p todo room count tr p' c' d :
  p !! WUBU_CAP_IDX_NONE = None -> (length todo + room <= fuel)%nat ->
  cascade_loop fuel p todo room count tr = (p', c', false) -> from_queue p todo d -> dead p' d.
Proof.
  revert p todo room count tr. induction fuel as [|fuel IH]; intros p todo room count tr Hnone Hlen H (i & Hi & Hd).
  { destruct todo; [by inversion Hi|simpl in Hlen; lia]. }
  destruct todo as [|idx todo]; [by inversion Hi|]. simpl in H, Hlen.
  assert (forall p1 o tr1 count1,
    (let '(q, t) := push_siblings p1 room (o_first_child_idx o) in
     cascade_loop fuel p1 (todo ++ q) (room - length q) count1 (tr1 || t)) = (p', c', false) ->
    same_links p p1 -> p !! idx = Some o -> dead p1 idx -> dead p' d) as Hstep.
  { intros p1 o tr1 count1 E Hl Ho Hdead.
    pose proof (push_siblings_length p1 room (o_first_child_idx o)) as Hq.
    destruct (push_siblings p1 room (o_first_child_idx o)) as [q t] eqn:Eq. simpl in Hq.
    assert (p1 !! WUBU_CAP_IDX_NONE = None) as Hnone1.
    { specialize (Hl WUBU_CAP_IDX_NONE). rewrite Hnone in Hl. by destruct (p1 !! _). }
    assert (t = false) as ->.
    { destruct t; [|done]. rewrite orb_true_r in E. by apply cascade_loop_truncated in E. }
    assert (forall j, j ∈ todo ++ q -> descends p1 j d -> dead p' d) as Hgo.
    { intros j Hj Hjd. eapply IH; [exact Hnone1| |exact E|by exists j]. rewrite length_app. lia. }
    apply (descends_links p p1) in Hd; [|done].
    apply elem_of_cons in Hi as [->|Hi]; [|apply (Hgo i); [apply elem_of_app; by left|done]].
    inversion Hd as [? o1 Ho1 Hm|? o1 j ? Ho1 Hm Hc Hjd]; subst.
    - eapply marks_dead; [by eapply cascade_loop_marks|done].
    - apply (Hgo j); [|done]. apply elem_of_app. right. eapply push_siblings_complete; [exact Hnone1|exact Eq|].
      destruct (same_links_lookup _ _ _ _ Hl Ho) as (o2 & Ho2 & El). unfold links in El. simplify_eq. congruence. }
  destruct (p !! idx) as [o|] eqn:Eo.
  2:{ apply elem_of_cons in Hi as [->|Hi]; [inversion Hd; congruence|].
      eapply IH; [done| |exact H|by exists i]. lia. }
  destruct (has_flag _ _) eqn:Ei.
  { rewrite immortal_bit in Ei. apply elem_of_cons in Hi as [->|Hi].
    - unfold mortal in *. inversion Hd; unfold mortal in *; congruence.
    - eapply IH; [done| |exact H|by exists i]. lia. }
  destruct (o_deleted o) eqn:Ed; simpl in H.
  - eapply Hstep; [exact H|by intros ?|done|by exists o].
  - eapply Hstep; [exact H|by apply (same_links_insert p idx o)|done|].
    exists (mark_deleted o). by rewrite lookup_insert_eq.
Qed.

(** ** Revocation *)

Lemma cascade_untruncated st i root root' :
  0 < i < WUBU_CAP_OBJECT_CAPACITY -> ptrs st !! i = Some root ->
  ptrs (wubu_cap_revoke_cascade st i).2 !! i = Some root' ->
  has_flag (o_flags root') WUBU_CAP_FLAG_CASCADE_TRUNCATED = false ->
  exists q c p',
    push_siblings (ptrs st) WUBU_CAP_REVOKE_CASCADE_MAX (o_first_child_idx root) = (q, false) /\
    cascade_loop WUBU_CAP_REVOKE_CASCADE_MAX (ptrs st) q
      (WUBU_CAP_REVOKE_CASCADE_MAX - length q) 0 false = (p', c, false) /\
    ptrs (wubu_cap_revoke_cascade st i).2 = p'.
Proof.
  intros Hi Hroot. unfold wubu_cap_revoke_cascade. unfold WUBU_CAP_OBJECT_CAPACITY in *.
  destruct (Z.eqb_spec i 0); [lia|]. destruct (Z.geb_spec i 65536); [lia|]. cbn [orb].
  rewrite Hroot. destruct (push_siblings _ _ _) as [q tr] eqn:Eq.
  match goal with |- context [cascade_loop _ _ _ _ _ (tr || ?s)] => set (stopped := s) end.
  destruct (cascade_loop _ _ _ _ _ _) as [[p' c] t] eqn:El. cbn [snd set_ptrs ptrs].
  destruct t.
  - rewrite lookup_alter. case_decide; [|done]. destruct (p' !! i) as [o|]; [|done].
    intros [= <-]. rewrite truncated_bit. cbn [or_flags o_flags].
    rewrite u8_testbit, Z.lor_spec by lia. change WUBU_CAP_FLAG_CASCADE_TRUNCATED with (2 ^ 5).
    rewrite Z.pow2_bits_true, orb_true_r by lia. done.
  - intros _ _. destruct (tr || stopped) eqn:Et.
    { apply cascade_loop_truncated in El. done. }
    apply orb_false_iff in Et as [-> _]. exists q, c, p'. done.
Qed.

Lemma revoke_positive_eager st tok root :
  let i := wubu_cap_token_idx tok in
  ptrs st !! i = Some root -> has_flag (o_flags root) WUBU_CAP_FLAG_EAGER_REVOKE = true ->
  0 < (wubu_cap_revoke st tok).1 ->
  0 < i < WUBU_CAP_OBJECT_CAPACITY /\ o_deleted root = false /\
  (wubu_cap_revoke st tok).2 =
    (wubu_cap_revoke_cascade (set_ptrs st (<[i := mark_deleted root]> (ptrs st))) i).2.
Proof.
  intros i Hroot He. pose proof (token_idx_fits tok) as Hf. unfold fits in Hf.
  unfold wubu_cap_revoke. fold i in Hf |- *. unfold WUBU_CAP_OBJECT_CAPACITY.
  destruct (Z.eqb_spec i 0); [done|]. destruct (Z.geb_spec i 65536); [done|]. cbn [orb].
  rewrite Hroot. destruct (has_flag _ WUBU_CAP_FLAG_IMMORTAL); [done|].
  destruct (o_deleted root); [done|]. rewrite He. intros _. split_and!; [lia|lia|done|].
  by destruct (wubu_cap_revoke_cascade _ _).
Qed.

Lemma queue_fits p room c q tr :
  push_siblings p room c = (q, tr) -> (length q + (room - length q) <= room)%nat.
Proof. intros E. pose proof (push_siblings_length p room c) as H. rewrite E in H. simpl in H. lia. Qed.

Lemma revoke_slot p p' i root j (S : Z -> Prop) :
  p !! i = Some root -> o_deleted root = false ->
  marks (<[i := mark_deleted root]> p) p' S -> (S j -> dead p' j) ->
  match p !! j with
  | None => p' !! j = None
  | Some o => exists o', p' !! j = Some o' /\
      (o_deleted o' = true <-> o_deleted o = true \/ j = i \/ S j) /\ (o' = o \/ o' = mark_deleted o)
  end.
Proof.
  intros Hroot Hd Hm Hc. apply (marks_first _ _ _ _ _ Hroot Hd) in Hm as Hm'.
  assert (dead p' i) as Hdi.
  { eapply marks_dead; [exact Hm|]. exists (mark_deleted root). by rewrite lookup_insert_eq. }
  destruct (p !! j) as [o|] eqn:Ej.
  - destruct (Hm' j) as [E|(o1 & E1 & Hd1 & E2 & HS)].
    + exists o. rewrite E, Ej. split_and!; [done| |by left]. split; [by left|].
      intros [|[->|HS]]; [done| |].
      * destruct Hdi as (o2 & Ho2 & ?). congruence.
      * destruct (Hc HS) as (o2 & Ho2 & ?). congruence.
    + assert (o1 = o) as -> by congruence. exists (mark_deleted o). split_and!; [done| |by right].
      split; [by right|done].
  - destruct (Hm' j) as [E|(o1 & E1 & _)]; congruence.
Qed.

(** What an eager revoke that was not truncated does, in terms of the child
    lists: exactly what lies on them below the root is marked. *)
Lemma revoke_walks_lists st tok root root' :
  let i := wubu_cap_token_idx tok in
  let st' := (wubu_cap_revoke st tok).2 in
  cap_wf st -> ptrs st !! i = Some root -> has_flag (o_flags root) WUBU_CAP_FLAG_EAGER_REVOKE = true ->
  0 < (wubu_cap_revoke st tok).1 ->
  ptrs st' !! i = Some root' -> has_flag (o_flags root') WUBU_CAP_FLAG_CASCADE_TRUNCATED = false ->
  forall j,
    match ptrs st !! j with
    | None => ptrs st' !! j = None
    | Some o => exists o', ptrs st' !! j = Some o' /\
        (o_deleted o' = true <-> o_deleted o = true \/ j = i \/ below (ptrs st) i j) /\
        (o' = o \/ o' = mark_deleted o)
    end.
Proof.
  intros i st' Hwf Hroot Heager Hpos Hroot' Htr.
  destruct (revoke_positive_eager st tok root Hroot Heager Hpos) as (Hi & Hd & Est).
  fold i in Hi, Est. subst st'. rewrite Est in *. clear Est.
  set (p1 := <[i := mark_deleted root]> (ptrs st)) in *.
  assert (p1 !! i = Some (mark_deleted root)) as Hroot1 by apply lookup_insert_eq.
  destruct (cascade_untruncated (set_ptrs st p1) i (mark_deleted root) root' Hi Hroot1 Hroot' Htr)
    as (q & c & p' & Hq & Hloop & Hp'). cbn [set_ptrs ptrs mark_deleted o_first_child_idx] in Hq, Hloop.
  assert (same_links (ptrs st) p1) as Hl by (by apply (same_links_insert _ i root)).
  assert (p1 !! WUBU_CAP_IDX_NONE = None) as Hnone.
  { pose proof (Hl WUBU_CAP_IDX_NONE) as Hn. destruct (ptrs st !! WUBU_CAP_IDX_NONE) as [o|] eqn:E.
    - apply (cw_keys _ Hwf) in E. unfold WUBU_CAP_IDX_NONE, WUBU_CAP_OBJECT_CAPACITY in E. lia.
    - destruct (p1 !! WUBU_CAP_IDX_NONE); [discriminate Hn|done]. }
  assert (forall d, from_queue p1 q d <-> below (ptrs st) i d) as Hbelow.
  { intros d. split.
    - intros (k & Hk & Hdd). exists root, k. split; [done|].
      assert (exists ok, p1 !! k = Some ok) as [ok Hok] by (inversion Hdd; eauto).
      split.
      + eapply chain_links; [by apply same_links_sym|].
        eapply push_siblings_sound; [by rewrite Hq|done].
      + eapply descends_links; [by apply same_links_sym|done].
    - intros (r & k & Hr & Hc & Hdd). simplify_eq. exists k.
      split; [|by eapply descends_links]. eapply push_siblings_complete; [done|exact Hq|].
      by eapply chain_links. }
  pose proof (cascade_loop_marks _ _ _ _ _ _ _ _ _ Hloop) as Hm.
  intros j.
  pose proof (cascade_loop_complete _ _ _ _ _ _ _ _ j Hnone (queue_fits _ _ _ _ _ Hq) Hloop) as Hc.
  rewrite Hp'. apply (revoke_slot _ _ _ root); [done|done| |].
  - eapply marks_weaken; [exact Hm|]. intros d. apply Hbelow.
  - intros Hb. by apply Hc, Hbelow.
Qed.

(** ** Families by parent index

    [offspring p root d]: following [parent_idx] upwards from [d], through
    objects that are not immortal, one comes to [root].  It does not look at
    the child lists that the cascade walks. *)
Inductive offspring (p : gmap Z cap_object) (root : Z) : Z -> Prop :=
  | offspring_child d o :
      p !! d = Some o -> mortal o -> o_parent_idx o = root -> offspring p root d
  | offspring_deeper d o :
      p !! d = Some o -> mortal o -> offspring p root (o_parent_idx o) -> offspring p root d.

(** The child lists hold every object below its parent, and nothing else. *)
Record family_tree (p : gmap Z cap_object) : Prop := {
  ft_parent : forall i o, p !! i = Some o -> 0 <= o_parent_idx o < WUBU_CAP_OBJECT_CAPACITY ->
                is_Some (p !! o_parent_idx o);
  ft_first : forall i o, p !! i = Some o ->
               o_first_child_idx o = WUBU_CAP_IDX_NONE \/ is_Some (p !! o_first_child_idx o);
  ft_next : forall i o, p !! i = Some o ->
              o_next_sibling_idx o = WUBU_CAP_IDX_NONE \/ is_Some (p !! o_next_sibling_idx o);
  ft_orphan : forall i o, p !! i = Some o -> p !! o_parent_idx o = None ->
                o_next_sibling_idx o = WUBU_CAP_IDX_NONE;
  ft_listed : forall i o par, p !! i = Some o -> p !! o_parent_idx o = Some par ->
                chain p (o_first_child_idx par) i;
  ft_lists : forall i par j, p !! i = Some par -> chain p (o_first_child_idx par) j ->
               exists o, p !! j = Some o /\ o_parent_idx o = i }.

Lemma descends_mortal p i d : descends p i d -> exists o, p !! i = Some o /\ mortal o.
Proof. inversion 1; eauto. Qed.

Lemma descends_snoc p i m o d od :
  descends p i m -> p !! m = Some o -> chain p (o_first_child_idx o) d -> p !! d = Some od -> mortal od ->
  descends p i d.
Proof.
  intros H Hm Hc Hd Hmo. induction H as [m o1 Ho1 Hm1|i o1 j m Ho1 Hm1 Hc1 _ IH].
  - assert (o1 = o) as -> by congruence. eapply descends_child; [done..|]. by econstructor.
  - eapply descends_child; [done..|]. by apply IH.
Qed.

Lemma descends_offspring p root i d :
  family_tree p -> offspring p root i -> descends p i d -> offspring p root d.
Proof.
  intros Ht Hi Hd. induction Hd as [|i o j d Ho Hm Hc Hjd IH]; [done|].
  apply IH. destruct (ft_lists _ Ht _ _ _ Ho Hc) as (oj & Hoj & Hp).
  destruct (descends_mortal _ _ _ Hjd) as (oj' & Hoj' & Hmj). simplify_eq.
  eapply offspring_deeper; [done..|]. done.
Qed.

(** In a family tree the two notions of descent agree. *)
Lemma below_offspring p root r d :
  family_tree p -> p !! root = Some r -> below p root d <-> offspring p root d.
Proof.
  intros Ht Hr. split.
  - intros (r' & j & Hr' & Hc & Hd). simplify_eq.
    destruct (ft_lists _ Ht _ _ _ Hr Hc) as (oj & Hoj & Hp).
    destruct (descends_mortal _ _ _ Hd) as (oj' & Hoj' & Hmj). simplify_eq.
    eapply descends_offspring; [done| |exact Hd]. by eapply offspring_child.
  - induction 1 as [d o Ho Hm Hp|d o Ho Hm Hoff IH].
    + exists r, d. split_and!; [done| |by econstructor]. apply (ft_listed _ Ht _ _ _ Ho). by rewrite Hp.
    + destruct IH as (r' & j & Hr' & Hc & Hd). exists r', j. split_and!; [done..|].
      assert (exists par, p !! o_parent_idx o = Some par) as [par Hpar] by (inversion Hoff; eauto).
      eapply descends_snoc; [exact Hd|exact Hpar| |done..]. by eapply ft_listed.
Qed.

(** ** The operations keep the child lists complete *)

Definition kin (o : cap_object) : Z * Z * Z := (o_parent_idx o, o_first_child_idx o, o_next_sibling_idx o).
Definition same_kin (p q : gmap Z cap_object) : Prop := forall i, kin <$> p !! i = kin <$> q !! i.

Lemma same_kin_lookup p q i o :
  same_kin p q -> q !! i = Some o -> exists o', p !! i = Some o' /\ kin o' = kin o.
Proof.
  intros H Hi. specialize (H i). rewrite Hi in H. destruct (p !! i) as [o'|]; [|done].
  exists o'. split; [done|]. cbn in H. congruence.
Qed.
Lemma same_kin_sym p q : same_kin p q -> same_kin q p.
Proof. intros H i. symmetry. apply H. Qed.
Lemma same_kin_trans p q r : same_kin p q -> same_kin q r -> same_kin p r.
Proof. intros H1 H2 i. by rewrite H1. Qed.
Lemma same_kin_dom p q i : same_kin p q -> is_Some (p !! i) -> is_Some (q !! i).
Proof. intros H [o Ho]. destruct (same_kin_lookup q p i o (same_kin_sym _ _ H) Ho) as (o' & ? & _). eauto. Qed.

(** Old objects keep their next pointer: chains between them stay. *)
Definition keeps_next (p q : gmap Z cap_object) : Prop :=
  forall i o, p !! i = Some o -> exists o', q !! i = Some o' /\ o_next_sibling_idx o' = o_next_sibling_idx o.

Lemma chain_extend p q c j : keeps_next p q -> chain p c j -> chain q c j.
Proof.
  intros H. induction 1 as [c o Hc|c o j Hc _ IH]; destruct (H _ _ Hc) as (o' & Ho' & E).
  - by econstructor.
  - eapply chain_next; [done|]. by rewrite E.
Qed.

Lemma chain_restrict p q c j :
  keeps_next p q -> q !! WUBU_CAP_IDX_NONE = None ->
  (forall i o, p !! i = Some o -> o_next_sibling_idx o = WUBU_CAP_IDX_NONE \/ is_Some (p !! o_next_sibling_idx o)) ->
  c = WUBU_CAP_IDX_NONE \/ is_Some (p !! c) -> chain q c j -> chain p c j.
Proof.
  intros H Hn Hnext Hc Hch. revert Hc.
  induction Hch as [c o Hq|c o j Hq _ IH]; intros [->|[oc Hoc]]; try congruence.
  - by econstructor.
  - eapply chain_next; [done|]. destruct (H _ _ Hoc) as (o' & Ho' & E). simplify_eq.
    rewrite <- E. apply IH. rewrite E. by eapply Hnext.
Qed.

Lemma same_kin_keeps_next p q : same_kin p q -> keeps_next p q.
Proof.
  intros H i o Hi. destruct (same_kin_lookup q p i o (same_kin_sym _ _ H) Hi) as (o' & ? & E).
  exists o'. split; [done|]. unfold kin in E. congruence.
Qed.

Lemma family_same_kin p q : same_kin p q -> family_tree p -> family_tree q.
Proof.
  intros H [Hp Hf Hn Horp Hl Hs].
  pose proof (same_kin_keeps_next _ _ H) as Hk.
  pose proof (same_kin_keeps_next _ _ (same_kin_sym _ _ H)) as Hk'.
  assert (forall i o, q !! i = Some o -> exists o', p !! i = Some o' /\ o_parent_idx o' = o_parent_idx o /\
    o_first_child_idx o' = o_first_child_idx o /\ o_next_sibling_idx o' = o_next_sibling_idx o) as Hq.
  { intros i o Hi. destruct (same_kin_lookup _ _ _ _ H Hi) as (o' & ? & E). unfold kin in E.
    exists o'. split_and!; congruence. }
  constructor.
  - intros i o Hi. destruct (Hq _ _ Hi) as (o' & Ho' & <- & _). intros ?. by eapply same_kin_dom, Hp.
  - intros i o Hi. destruct (Hq _ _ Hi) as (o' & Ho' & _ & <- & _).
    destruct (Hf _ _ Ho'); [by left|right; by eapply same_kin_dom].
  - intros i o Hi. destruct (Hq _ _ Hi) as (o' & Ho' & _ & _ & <-).
    destruct (Hn _ _ Ho'); [by left|right; by eapply same_kin_dom].
  - intros i o Hi Hpn. destruct (Hq _ _ Hi) as (o' & Ho' & E1 & _ & <-). rewrite <- E1 in Hpn.
    apply (Horp _ _ Ho'). specialize (H (o_parent_idx o')). rewrite Hpn in H. by destruct (p !! _).
  - intros i o par Hi Hpar. destruct (Hq _ _ Hi) as (o' & Ho' & E1 & _). rewrite <- E1 in Hpar.
    destruct (Hq _ _ Hpar) as (par' & Hpar' & _ & <- & _). eapply chain_extend; [done|by eapply Hl].
  - intros i par j Hi Hc. destruct (Hq _ _ Hi) as (par' & Hpar' & _ & E & _). rewrite <- E in Hc.
    apply (chain_extend _ _ _ _ Hk') in Hc. destruct (Hs _ _ _ Hpar' Hc) as (o & Ho & <-).
    destruct (same_kin_lookup q p j o (same_kin_sym _ _ H) Ho) as (o' & ? & Ek).
    exists o'. split; [done|]. unfold kin in Ek. congruence.
Qed.

(** A new object without relations. *)
Lemma family_insert_alone p s o :
  family_tree p -> p !! s = None -> s <> WUBU_CAP_IDX_NONE -> p !! WUBU_CAP_IDX_NONE = None ->
  0 <= s < WUBU_CAP_OBJECT_CAPACITY -> ~ 0 <= o_parent_idx o < WUBU_CAP_OBJECT_CAPACITY ->
  (forall i x, p !! i = Some x -> 0 <= i < WUBU_CAP_OBJECT_CAPACITY) ->
  o_first_child_idx o = WUBU_CAP_IDX_NONE -> o_next_sibling_idx o = WUBU_CAP_IDX_NONE ->
  family_tree (<[s := o]> p).
Proof.
  intros [Hp Hf Hn Horp Hl Hs] Hfree Hsn Hnone Hr Hpar Hkeys Ef En.
  assert (<[s := o]> p !! WUBU_CAP_IDX_NONE = None) as Hnone' by (by rewrite lookup_insert_ne).
  assert (forall i, is_Some (p !! i) -> is_Some (<[s := o]> p !! i)) as Hdom.
  { intros i [x Hx]. destruct (decide (i = s)) as [->|]; [congruence|].
    rewrite lookup_insert_ne by done. eauto. }
  assert (keeps_next p (<[s := o]> p)) as Hk.
  { intros i x Hi. exists x. rewrite lookup_insert_ne by congruence. done. }
  constructor; intros i x; (destruct (decide (i = s)) as [->|Hi];
    [rewrite lookup_insert_eq|rewrite lookup_insert_ne by done]).
  - intros [= <-]. tauto.
  - intros Hx ?. by eapply Hdom, Hp.
  - intros [= <-]. by left.
  - intros Hx. destruct (Hf _ _ Hx); auto.
  - intros [= <-]. by left.
  - intros Hx. destruct (Hn _ _ Hx); auto.
  - by intros [= <-] _.
  - intros Hx Hq. apply (Horp _ _ Hx). destruct (p !! o_parent_idx x) eqn:E; [|done].
    destruct (Hdom (o_parent_idx x)); [eauto|congruence].
  - intros par [= <-] Hq. exfalso. destruct (decide (o_parent_idx o = s)) as [E|E]; [congruence|].
    rewrite lookup_insert_ne in Hq by done. apply Hkeys in Hq. tauto.
  - intros par Hx Hq. destruct (decide (o_parent_idx x = s)) as [E|E].
    { exfalso. destruct (Hp _ _ Hx) as [y Hy]; [by rewrite E|congruence]. }
    rewrite lookup_insert_ne in Hq by done. eapply chain_extend; [done|by eapply Hl].
  - intros j [= <-] Hc. rewrite Ef in Hc. inversion Hc; congruence.
  - intros j Hx Hc. apply (chain_restrict p) in Hc; [|done..|by eapply Hf].
    destruct (Hs _ _ _ Hx Hc) as (y & Hy & ?). exists y.
    rewrite lookup_insert_ne by congruence. done.
Qed.

(** A new object put in front of its parent's child list. *)
Lemma family_insert_child p s o par :
  family_tree p -> p !! s = None -> p !! WUBU_CAP_IDX_NONE = None ->
  0 <= s < WUBU_CAP_OBJECT_CAPACITY ->
  p !! o_parent_idx o = Some par -> o_first_child_idx o = WUBU_CAP_IDX_NONE ->
  o_next_sibling_idx o = o_first_child_idx par ->
  family_tree (<[o_parent_idx o := set_first_child s par]> (<[s := o]> p)).
Proof.
  intros [Hp Hf Hn Horp Hl Hs] Hfree Hnone Hr Hpar Ef En. set (q := <[_ := _]> _).
  assert (s <> WUBU_CAP_IDX_NONE) as Hsn by (unfold WUBU_CAP_IDX_NONE, WUBU_CAP_OBJECT_CAPACITY in *; lia).
  assert (o_parent_idx o <> s) as Hps by congruence.
  assert (o_parent_idx o <> WUBU_CAP_IDX_NONE) as Hpn by congruence.
  assert (q !! s = Some o) as Hqs by (unfold q; by rewrite lookup_insert_ne, lookup_insert_eq).
  assert (q !! o_parent_idx o = Some (set_first_child s par)) as Hqp by apply lookup_insert_eq.
  assert (forall i, i <> s -> i <> o_parent_idx o -> q !! i = p !! i) as Hq
    by (intros; unfold q; by rewrite !lookup_insert_ne).
  assert (q !! WUBU_CAP_IDX_NONE = None) as Hnone' by (by rewrite Hq).
  assert (keeps_next p q) as Hk.
  { intros i x Hi. destruct (decide (i = o_parent_idx o)) as [->|Hi1].
    - exists (set_first_child s par). split; [done|]. cbn. congruence.
    - exists x. rewrite Hq by congruence. done. }
  assert (forall i, is_Some (p !! i) -> is_Some (q !! i)) as Hdom.
  { intros i [x Hx]. destruct (Hk _ _ Hx) as (y & Hy & _). eauto. }
  (* an object of [q] that is not new is an object of [p], with another first child if it is the parent *)
  assert (forall i x, q !! i = Some x -> i = s /\ x = o \/
    exists y, p !! i = Some y /\ o_parent_idx x = o_parent_idx y /\ o_next_sibling_idx x = o_next_sibling_idx y /\
      (i = o_parent_idx o /\ y = par /\ o_first_child_idx x = s \/
       i <> o_parent_idx o /\ o_first_child_idx x = o_first_child_idx y)) as Hinv.
  { intros i x Hi. destruct (decide (i = s)) as [->|Hi1]; [left; split; congruence|right].
    destruct (decide (i = o_parent_idx o)) as [->|Hi2].
    - exists par. rewrite Hqp in Hi. injection Hi as <-. cbn. auto 10.
    - exists x. rewrite Hq in Hi by done. auto 10. }
  assert (forall c j, c = WUBU_CAP_IDX_NONE \/ is_Some (p !! c) -> chain q c j -> chain p c j) as Hres
    by (intros; by eapply chain_restrict).
  assert (forall j, chain p (o_first_child_idx par) j -> chain q s j) as Hfront.
  { intros j Hj. eapply chain_next; [exact Hqs|]. rewrite En. by eapply chain_extend. }
  constructor.
  - intros i x Hi Hrange. destruct (Hinv _ _ Hi) as [[-> ->]|(y & Hy & E & _)]; [eauto|].
    rewrite E in *. by eapply Hdom, Hp.
  - intros i x Hi. destruct (Hinv _ _ Hi) as [[-> ->]|(y & Hy & _ & _ & [(_ & _ & ->)|[_ ->]])];
      [by left|right; eauto|]. destruct (Hf _ _ Hy); auto.
  - intros i x Hi. destruct (Hinv _ _ Hi) as [[-> ->]|(y & Hy & _ & -> & _)].
    + rewrite En. destruct (Hf _ _ Hpar); auto.
    + destruct (Hn _ _ Hy); auto.
  - intros i x Hi Hpx. destruct (Hinv _ _ Hi) as [[-> ->]|(y & Hy & E1 & E2 & _)]; [congruence|].
    rewrite E2. rewrite E1 in Hpx. apply (Horp _ _ Hy). destruct (p !! o_parent_idx y) eqn:E; [|done].
    destruct (Hdom (o_parent_idx y)); [eauto|congruence].
  - intros i x par' Hi Hpar'. destruct (Hinv _ _ Hi) as [[-> ->]|(y & Hy & E & _ & _)].
    + rewrite Hqp in Hpar'. injection Hpar' as <-. by econstructor.
    + rewrite E in Hpar'.
      destruct (Hinv _ _ Hpar') as [[Es _]|(z & Hz & _ & _ & [(E1 & -> & E2)|[E1 E2]])].
      * exfalso. destruct (Hp _ _ Hy) as [z Hz]; [by rewrite Es|congruence].
      * rewrite E2. apply Hfront. by eapply Hl.
      * rewrite E2. eapply chain_extend; [done|]. by eapply Hl.
  - intros i x j Hi Hc. destruct (Hinv _ _ Hi) as [[-> ->]|(z & Hz & _ & _ & [(-> & -> & E2)|[E1 E2]])].
    + rewrite Ef in Hc. inversion Hc; congruence.
    + rewrite E2 in Hc. clear E2 Hi. inversion Hc as [? ? Hs1|? o1 ? Hs1 Hrest]; subst; [by exists o|].
      rewrite Hqs in Hs1. injection Hs1 as <-. rewrite En in Hrest.
      apply Hres in Hrest; [|by eapply Hf]. destruct (Hs _ _ _ Hpar Hrest) as (y & Hy & Ey).
      destruct (decide (j = o_parent_idx o)) as [->|Hj]; [exists (set_first_child s par); split; [done|cbn; congruence]|].
      exists y. rewrite Hq by congruence. done.
    + rewrite E2 in Hc. apply Hres in Hc; [|by eapply Hf]. destruct (Hs _ _ _ Hz Hc) as (y & Hy & Ey).
      destruct (decide (j = o_parent_idx o)) as [->|Hj]; [exists (set_first_child s par); split; [done|cbn; congruence]|].
      exists y. rewrite Hq by congruence. done.
Qed.

Lemma init_ptrs st :
  ptrs (wubu_cap_init st) = ptrs st \/
  ptrs st !! 0 = None /\ ptrs (wubu_cap_init st) = <[0 := sentinel]> (ptrs st).
Proof.
  unfold wubu_cap_init. destruct (ptrs st !! 0); [by left|].
  destruct (malloc st) as [okm st2] eqn:Em. unfold malloc in Em. simplify_eq.
  destruct (negb _); simpl; auto.
Qed.

Lemma wf_none st : cap_wf st -> ptrs st !! WUBU_CAP_IDX_NONE = None.
Proof.
  intros Hwf. destruct (ptrs st !! WUBU_CAP_IDX_NONE) as [o|] eqn:E; [|done].
  apply (cw_keys _ Hwf) in E. unfold WUBU_CAP_IDX_NONE, WUBU_CAP_OBJECT_CAPACITY in E. lia.
Qed.

Lemma family_init st : cap_wf st -> family_tree (ptrs st) -> family_tree (ptrs (wubu_cap_init st)).
Proof.
  intros Hwf Ht. destruct (init_ptrs st) as [->|[H0 ->]]; [done|].
  apply family_insert_alone; try done; [by apply wf_none|vm_compute; intuition congruence|apply Hwf].
Qed.

(** The parent a creation names is an object or no index of the registry. *)
Definition parent_known (p : gmap Z cap_object) (parent : Z) : Prop :=
  0 <= parent < WUBU_CAP_OBJECT_CAPACITY -> is_Some (p !! parent).

Lemma create_family st kind rights audience flags kd owner parent :
  cap_wf st -> family_tree (ptrs st) -> parent_known (ptrs st) parent ->
  family_tree (ptrs (wubu_cap_create st kind rights audience flags kd owner parent).2).
Proof.
  intros Hwf Ht Hpk. unfold wubu_cap_create.
  set (st1 := match ptrs st !! 0 with Some _ => st | None => wubu_cap_init st end).
  assert (cap_wf st1 /\ family_tree (ptrs st1) /\ parent_known (ptrs st1) parent) as (Hwf1 & Ht1 & Hpk1).
  { unfold st1. destruct (ptrs st !! 0) eqn:E0; [done|]. split_and!.
    - by apply (run_op_wf st OInit).
    - by apply family_init.
    - intros Hr. destruct (Hpk Hr) as [x Hx]. destruct (init_ptrs st) as [->|[_ ->]]; [eauto|].
      destruct (decide (parent = 0)) as [->|]; [by rewrite lookup_insert_eq|].
      rewrite lookup_insert_ne by done. eauto. }
  clearbody st1. destruct (malloc st1) as [okm st2] eqn:Em. unfold malloc in Em. simplify_eq.
  destruct (negb _); [done|]. cbn [ptrs].
  pose proof (find_free_slot_spec (ptrs st1)) as Hs. cbn zeta in Hs.
  set (slot := cap_find_free_slot_locked (ptrs st1)) in *.
  destruct (Z.eqb_spec slot WUBU_CAP_IDX_NONE) as [Es|Es]; [done|].
  destruct Hs as [|[Hr Hfree]]; [done|].
  fold (new_flags (cap_copy_audience audience owner) flags).
  fold (new_object kind rights (cap_copy_audience audience owner) flags kd owner parent).
  set (o := new_object _ _ _ _ _ _ _).
  match goal with |- context [if ?b then wubu_cap_link_child ?s _ _ else ?s] => set (st3 := s); set (b1 := b) end.
  assert (ptrs st3 = <[slot := o]> (ptrs st1)) as E3 by (unfold st3; by case_match).
  assert (b1 = negb (parent =? WUBU_CAP_IDX_NONE) && (parent <? WUBU_CAP_OBJECT_CAPACITY)) as Eb by done.
  cbn [snd]. clearbody st3 b1. unfold WUBU_CAP_OBJECT_CAPACITY, WUBU_CAP_IDX_NONE in *.
  destruct (decide (0 <= parent < 65536)) as [Hin|Hout].
  - assert (b1 = true) as ->.
    { rewrite Eb. destruct (Z.eqb_spec parent 4294967295); [lia|]. destruct (Z.ltb_spec parent 65536); [done|lia]. }
    destruct (Hpk1 Hin) as [par Hpar]. unfold wubu_cap_link_child, WUBU_CAP_OBJECT_CAPACITY, WUBU_CAP_IDX_NONE.
    destruct (Z.eqb_spec parent 4294967295); [lia|]. destruct (Z.geb_spec parent 65536); [lia|].
    destruct (Z.eqb_spec slot 0); [lia|]. destruct (Z.geb_spec slot 65536); [lia|]. cbn [orb].
    rewrite E3, lookup_insert_ne, Hpar, lookup_insert_eq by congruence. cbn [ptrs set_ptrs].
    set (o' := set_next_sibling (o_first_child_idx par) o).
    replace (alter (set_first_child slot) parent (alter (set_next_sibling (o_first_child_idx par)) slot (<[slot := o]> (ptrs st1))))
      with (<[o_parent_idx o' := set_first_child slot par]> (<[slot := o']> (ptrs st1))).
    { apply family_insert_child; try done; [by apply wf_none|unfold WUBU_CAP_OBJECT_CAPACITY; lia]. }
    change (o_parent_idx o') with parent. assert (slot <> parent) as Hsp by congruence.
    apply map_eq. intros i. destruct (decide (parent = i)) as [<-|Hi].
    + rewrite lookup_insert_eq, lookup_alter_eq, lookup_alter_ne, lookup_insert_ne, Hpar by done. done.
    + rewrite lookup_insert_ne, lookup_alter_ne by done. destruct (decide (slot = i)) as [<-|Hi2].
      * by rewrite lookup_alter_eq, !lookup_insert_eq.
      * by rewrite lookup_alter_ne, !lookup_insert_ne by done.
  - assert ((if b1 then wubu_cap_link_child st3 parent slot else st3) = st3) as ->.
    { destruct b1; [|done]. symmetry in Eb. apply andb_true_iff in Eb as [_ ?%Z.ltb_lt].
      unfold wubu_cap_link_child. destruct (_ || _); [done|]. destruct (_ || _); [done|].
      rewrite E3. destruct (<[slot:=o]> (ptrs st1) !! parent) eqn:E; [|done]. exfalso.
      rewrite lookup_insert_ne in E by lia. apply (cw_keys _ Hwf1) in E. unfold WUBU_CAP_OBJECT_CAPACITY in E. lia. }
    rewrite E3. apply family_insert_alone; try done; [by apply wf_none|unfold WUBU_CAP_OBJECT_CAPACITY; lia|apply Hwf1].
Qed.

Lemma marks_kin p q S : marks p q S -> same_kin p q.
Proof. intros H i. destruct (H i) as [->|(o & -> & _ & -> & _)]; done. Qed.

Lemma insert_kin p i o o' : p !! i = Some o -> kin o' = kin o -> same_kin p (<[i := o']> p).
Proof.
  intros Hi E j. destruct (decide (i = j)) as [<-|].
  - rewrite Hi, lookup_insert_eq. cbn. by rewrite E.
  - by rewrite lookup_insert_ne.
Qed.

Lemma revoke_cascade_kin st i : same_kin (ptrs st) (ptrs (wubu_cap_revoke_cascade st i).2).
Proof.
  unfold wubu_cap_revoke_cascade. destruct (_ || _); [by intros ?|].
  destruct (ptrs st !! i) as [root|]; [|by intros ?].
  destruct (push_siblings _ _ _) as [q tr].
  destruct (cascade_loop _ _ _ _ _ _) as [[p count] t] eqn:E.
  apply cascade_loop_marks, marks_kin in E. cbn [snd set_ptrs ptrs].
  destruct t; [|done]. eapply same_kin_trans; [exact E|]. intros j.
  rewrite lookup_alter. case_decide; [|done]. subst. by destruct (p !! j).
Qed.

Lemma revoke_kin st tok : same_kin (ptrs st) (ptrs (wubu_cap_revoke st tok).2).
Proof.
  unfold wubu_cap_revoke. destruct (_ || _); [by intros ?|].
  destruct (ptrs st !! wubu_cap_token_idx tok) as [o|] eqn:Eo; [|by intros ?].
  destruct (has_flag _ _); [by intros ?|]. destruct (o_deleted o); [by intros ?|].
  pose proof (insert_kin (ptrs st) _ o (mark_deleted o) Eo eq_refl) as H1.
  destruct (has_flag _ _); [|done].
  match goal with |- context [wubu_cap_revoke_cascade ?s ?i] =>
    pose proof (revoke_cascade_kin s i) as H2; destruct (wubu_cap_revoke_cascade s i) as [c st2] end.
  by eapply same_kin_trans.
Qed.

Lemma derive_family st tok pid rights aud flags :
  cap_wf st -> family_tree (ptrs st) -> family_tree (ptrs (wubu_cap_derive st tok pid rights aud flags).2).
Proof.
  intros Hwf Ht. pose proof (derive_cases st tok pid rights aud flags) as H.
  destruct (wubu_cap_derive _ _ _ _ _ _) as [[rc child] st']. cbn zeta in H.
  destruct H as [(_ & _ & ->)|(par & _ & Hpar & _ & _ & _ & _ & _ & _ & E)]; [done|].
  apply (f_equal snd) in E. cbn [snd] in E |- *. rewrite E. apply create_family; [done..|]. intros _. eauto.
Qed.

(** An object may be destroyed when it has no children and no live parent: its
    slot is then on no child list. *)
Definition unrelated (p : gmap Z cap_object) (i : Z) : Prop :=
  (forall j o, p !! j = Some o -> o_parent_idx o <> i) /\
  (forall o, p !! i = Some o -> p !! o_parent_idx o = None).

Lemma family_delete p i : family_tree p -> p !! WUBU_CAP_IDX_NONE = None -> unrelated p i -> family_tree (delete i p).
Proof.
  intros [Hp Hf Hn Horp Hl Hs] Hnone [Hnc Hnp].
  assert (forall j x, delete i p !! j = Some x -> j <> i /\ p !! j = Some x) as Hd.
  { intros j x. rewrite lookup_delete. case_decide; [done|]. intros. by split. }
  assert (forall j, j <> i -> delete i p !! j = p !! j) as Hd' by (intros; by rewrite lookup_delete_ne).
  assert (forall k x j, p !! k = Some x -> chain p (o_first_child_idx x) j -> j <> i) as Hoff.
  { intros k x j Hk Hc ->. destruct (Hs _ _ _ Hk Hc) as (o & Ho & Ep). specialize (Hnp _ Ho). congruence. }
  assert (forall c j, chain p c j -> (forall m, chain p c m -> m <> i) -> chain (delete i p) c j) as Hc1.
  { induction 1 as [c o Hc|c o j Hc Hch IH]; intros Hav; pose proof (Hav c (chain_here _ _ _ Hc)) as Hci.
    - econstructor. by rewrite Hd'.
    - eapply chain_next; [by rewrite Hd'|]. apply IH. intros m Hm. apply Hav. by eapply chain_next. }
  assert (forall c j, chain (delete i p) c j -> chain p c j) as Hc2.
  { induction 1 as [c o [_ Hc]%Hd|c o j [_ Hc]%Hd _ IH]; [by econstructor|by eapply chain_next]. }
  assert (forall k x, k <> i -> p !! k = Some x -> forall c, c = WUBU_CAP_IDX_NONE \/ is_Some (p !! c) ->
     (is_Some (p !! c) -> c <> i) -> c = WUBU_CAP_IDX_NONE \/ is_Some (delete i p !! c)) as Hptr.
  { intros k x _ _ c [->|Hc] Hne; [by left|right]. rewrite Hd' by auto. done. }
  constructor.
  - intros j x (Hj & Hx)%Hd Hr. rewrite Hd' by (by eapply Hnc). by eapply Hp.
  - intros j x (Hj & Hx)%Hd. eapply Hptr; [done..|by eapply Hf|]. intros [y Hy]. apply (Hoff j x); [done|by econstructor].
  - intros j x (Hj & Hx)%Hd. eapply Hptr; [done..|by eapply Hn|]. intros [y Hy] E.
    assert (p !! i = Some y) as Hyi by congruence.
    destruct (p !! o_parent_idx x) as [par|] eqn:Ep.
    + refine (Hoff _ _ i Ep _ eq_refl). pose proof (Hl _ _ _ Hx Ep) as Hch. clear -Hch Hx Hyi E.
      induction Hch as [c o Hc|c o k Hc Hch IH]; [|by eapply chain_next; [|apply IH]].
      eapply chain_next; [exact Hc|]. simplify_eq. by econstructor.
    + pose proof (Horp _ _ Hx Ep) as En. congruence.
  - intros j x (Hj & Hx)%Hd Hpn. apply (Horp _ _ Hx). rewrite Hd' in Hpn by (by eapply Hnc). done.
  - intros j x par (Hj & Hx)%Hd (Hj2 & Hpar)%Hd. apply Hc1; [by eapply Hl|]. intros m Hm. by apply (Hoff (o_parent_idx x) par).
  - intros j par k (Hj & Hpar)%Hd Hc%Hc2. destruct (Hs _ _ _ Hpar Hc) as (o & Ho & E).
    exists o. rewrite Hd' by (by eapply (Hoff j par)). done.
Qed.

(** ** Sessions that keep the lists complete *)

(** Creations name a parent that exists (or none), and only unrelated objects
    are destroyed. *)
Definition tree_op (st : cap_state) (op : cap_op) : Prop :=
  match op with
  | OCreate _ _ _ _ _ _ parent => parent_known (ptrs st) parent
  | ODestroy i => unrelated (ptrs st) i
  | _ => True
  end.

Fixpoint tree_session (st : cap_state) (ops : list cap_op) : Prop :=
  match ops with
  | [] => True
  | op :: ops => tree_op st op /\ tree_session (run_op st op) ops
  end.

Lemma run_op_family st op :
  op_ok op -> tree_op st op -> cap_wf st -> family_tree (ptrs st) -> family_tree (ptrs (run_op st op)).
Proof.
  intros Hok Htree Hwf Ht. destruct op; cbn [run_op tree_op] in *.
  - by apply family_init.
  - by apply create_family.
  - by apply derive_family.
  - eapply family_same_kin; [apply revoke_kin|done].
  - unfold wubu_cap_destroy. destruct (_ || _); [done|]. cbn [set_ptrs ptrs].
    apply family_delete; [done|by apply wf_none|done].
  - by rewrite resolve_ptrs.
  - unfold wubu_cap_handle_resolve. repeat case_match; rewrite ?resolve_ptrs; done.
  - unfold wubu_cap_handle_resolve_kind. by rewrite scan_kind_ptrs.
  - unfold wubu_cap_handle_revoke_by_slot.
    destruct (_ || _); [done|]. destruct (entry_at t slot); [|done].
    destruct (_ =? _); [done|]. destruct (ptrs st !! _); [|done]. destruct (o_deleted _); [done|].
    match goal with |- context [wubu_cap_revoke ?a ?b] =>
      pose proof (revoke_kin a b) as H; destruct (wubu_cap_revoke a b) end.
    by eapply family_same_kin.
  - unfold wubu_cap_system_init. destruct (negb _); [done|].
    match goal with |- context [wubu_cap_create ?a ?b ?c ?d ?e ?f ?g ?h] =>
      pose proof (create_family a b c d e f g h Hwf Ht) as H;
      destruct (wubu_cap_create a b c d e f g h) as [[r ?] ?] end.
    specialize (H ltac:(unfold parent_known, WUBU_CAP_IDX_NONE, WUBU_CAP_OBJECT_CAPACITY; lia)).
    by destruct (r <=? 0).
  - unfold wubu_cap_system_install_to_pid. destruct (_ =? _); [done|].
    destruct (ptrs st !! _) as [root|]; [|done].
    destruct (o_deleted root); [done|]. destruct (negb _); [done|].
    match goal with |- context [wubu_cap_derive ?a ?b ?c ?d ?e ?f] =>
      pose proof (derive_family a b c d e f Hwf Ht) as H;
      destruct (wubu_cap_derive a b c d e f) as [[r ?] st1] end.
    destruct (r <=? 0); [done|].
    match goal with |- context [wubu_cap_handle_insert ?a ?b ?c ?d] =>
      pose proof (handle_insert_ptrs a b c d) as H2; destruct (wubu_cap_handle_insert a b c d) as [[? ?] ?] end.
    simpl in *. by rewrite H2.
Qed.

Lemma run_family st ops :
  Forall op_ok ops -> tree_session st ops -> cap_wf st -> family_tree (ptrs st) ->
  cap_wf (run st ops) /\ family_tree (ptrs (run st ops)).
Proof.
  unfold run. intros Hok. revert st. induction Hok as [|op ops Hop _ IH]; intros st Hs Hwf Ht; [done|].
  destruct Hs as [H1 H2]. cbn [foldl]. apply IH; [done|by apply run_op_wf|by apply run_op_family].
Qed.

Lemma family_empty : family_tree ∅.
Proof. constructor; intros *; rewrite lookup_empty; discriminate. Qed.

(** Process memory as the loader leaves it, with the outcomes of the calls of
    the allocator that will follow. *)
Definition boot_with (al : list bool) : cap_state :=
  {| ptrs := ptrs cap_boot; cap_count := cap_count cap_boot; audit := audit cap_boot;
     g_bootcap_idx := g_bootcap_idx cap_boot; allocs := al |}.

Lemma boot_with_wf al : cap_wf (boot_with al).
Proof. constructor; intros i o H; cbn in H; by rewrite lookup_empty in H. Qed.

(** C2. Revocation reaches every descendant.  In a session from boot in which
    creations name a parent that exists, and the only objects destroyed have
    neither children nor a live parent, an eager revoke that succeeds and does
    not mark its root as truncated invalidates exactly the family: an object is
    deleted afterwards if and only if it was deleted before, is the revoked
    object, or reaches it by following parent indices through objects that are
    not immortal; every other object is untouched, and no object appears or
    disappears.  (A destroyed sibling cuts a child list:
    [cap_destroyed_sibling_hides_descendants].) *)
Theorem cap_revoke_cascades_to_descendants al ops tok root root' :
  let st := run (boot_with al) ops in
  let i := wubu_cap_token_idx tok in
  let st' := (wubu_cap_revoke st tok).2 in
  Forall op_ok ops -> tree_session (boot_with al) ops ->
  ptrs st !! i = Some root -> has_flag (o_flags root) WUBU_CAP_FLAG_EAGER_REVOKE = true ->
  0 < (wubu_cap_revoke st tok).1 ->
  ptrs st' !! i = Some root' -> has_flag (o_flags root') WUBU_CAP_FLAG_CASCADE_TRUNCATED = false ->
  forall j,
    match ptrs st !! j with
    | None => ptrs st' !! j = None
    | Some o => exists o', ptrs st' !! j = Some o' /\
        (o_deleted o' = true <-> o_deleted o = true \/ j = i \/ offspring (ptrs st) i j) /\
        (o' = o \/ o' = mark_deleted o)
    end.
Proof.
  intros st i st' Hok Hs Hroot Heager Hpos Hroot' Htr j.
  destruct (run_family (boot_with al) ops Hok Hs (boot_with_wf al) family_empty) as [Hwf Ht].
  pose proof (revoke_walks_lists st tok root root' Hwf Hroot Heager Hpos Hroot' Htr j) as H.
  fold i st' in H. destruct (ptrs st !! j); [|done].
  destruct H as (o' & Ho' & Hiff & Heq). exists o'. split_and!; [done| |done].
  rewrite Hiff. by rewrite (below_offspring _ _ root).
Qed.

(** Object 1 (eager), its child 2 and its grandchild 3, and an unrelated 4. *)
Definition family_ops : list cap_op :=
  [OCreate 1 15 (Some [7; -1]) WUBU_CAP_FLAG_EAGER_REVOKE 0 7 WUBU_CAP_IDX_NONE;
   ODerive owned_tok 7 11 (Some [7; -1]) 2; ODerive (wubu_cap_token_pack 1 2 2) 7 1 (Some [7; -1]) 0;
   OCreate 2 3 (Some [8; -1]) 0 0 8 WUBU_CAP_IDX_NONE].
Local Notation family := (run (boot_with []) family_ops).

Definition deleted_at (st : cap_state) (j : Z) : option bool := o_deleted <$> ptrs st !! j.

Lemma cap_revoke_cascades_to_descendants_witness :
  (deleted_at (wubu_cap_revoke family owned_tok).2 <$> [1; 2; 3; 4]) =
    [Some true; Some true; Some true; Some false] /\
  offspring (ptrs family) (wubu_cap_token_idx owned_tok) 3.
Proof.
  split; [vm_compute; reflexivity|].
  destruct (ptrs family !! wubu_cap_token_idx owned_tok) as [root|] eqn:Er;
    [|exfalso; vm_compute in Er; discriminate Er].
  destruct (ptrs (wubu_cap_revoke family owned_tok).2 !! wubu_cap_token_idx owned_tok) as [root'|] eqn:Er';
    [|exfalso; vm_compute in Er'; discriminate Er'].
  assert (has_flag (o_flags root) WUBU_CAP_FLAG_EAGER_REVOKE = true) as He.
  { vm_compute in Er. injection Er as <-. reflexivity. }
  assert (has_flag (o_flags root') WUBU_CAP_FLAG_CASCADE_TRUNCATED = false) as Ht.
  { vm_compute in Er'. injection Er' as <-. reflexivity. }
  assert (0 < (wubu_cap_revoke family owned_tok).1) as Hp by (vm_compute; reflexivity).
  assert (Forall op_ok family_ops) as Hok.
  { repeat constructor; unfold fits; vm_compute; intuition congruence. }
  assert (tree_session (boot_with []) family_ops) as Hs.
  { cbn [tree_session family_ops tree_op]. unfold parent_known, WUBU_CAP_IDX_NONE, WUBU_CAP_OBJECT_CAPACITY.
    split_and!; (exact I || lia). }
  pose proof (cap_revoke_cascades_to_descendants [] family_ops owned_tok root root') as H.
  cbv zeta in H. specialize (H Hok Hs Er He Hp Er' Ht 3).
  destruct (ptrs family !! 3) as [o3|] eqn:E3; [|exfalso; vm_compute in E3; discriminate E3].
  destruct H as (o' & Ho' & Hiff & _).
  assert (o_deleted o' = true) as Hd by (vm_compute in Ho'; injection Ho' as <-; reflexivity).
  apply Hiff in Hd as [Hd|[Hd|Hd]]; [| |exact Hd].
  - vm_compute in E3. injection E3 as <-. by vm_compute in Hd.
  - by vm_compute in Hd.
Defined.
