(* ===== verification/CapHandles.v ===== *)
(** * Handle tables

    A handle table refines a finite map from slots to objects: its free list
    always threads exactly the empty slots, insertion and closing are the map
    operations, and a closed token stays dead while its slot is reused. *)

From stdpp Require Import gmap fin_maps.
From S2P Require Import Prelude Cap CapFacts CapAuthority.
Open Scope Z_scope.

(** ** The free list *)

Inductive free_chain (es : list hentry) : Z -> list nat -> Prop :=
  | free_end : free_chain es WUBU_CAP_HANDLE_NONE []
  | free_cons s e fl :
      es !! s = Some e -> h_object_idx e = WUBU_CAP_IDX_NONE ->
      free_chain es (h_next_free e) fl -> free_chain es (Z.of_nat s) (s :: fl).

(** [fl] is the free list of the table. *)
Record ht_ok (t : handle_table) (fl : list nat) : Prop := {
  hk_len : (1 <= length (ht_entries t) <= WUBU_CAP_HANDLE_MAX)%nat;
  hk_nodup : NoDup (0%nat :: fl);
  hk_chain : free_chain (ht_entries t) (ht_next_free t) fl;
  hk_empty : forall s e, ht_entries t !! s = Some e ->
               (h_object_idx e = WUBU_CAP_IDX_NONE <-> s ∈ 0%nat :: fl);
  hk_gens : forall s e, ht_entries t !! s = Some e -> fits 32 (h_local_gen e);
  hk_count : ht_count t + Z.of_nat (length fl) + 1 = Z.of_nat (length (ht_entries t)) }.

(** The abstract table: the object behind a slot. *)
Definition slot_object (t : handle_table) (s : nat) : option Z :=
  e ← ht_entries t !! s;
  if h_object_idx e =? WUBU_CAP_IDX_NONE then None else Some (h_object_idx e).
Definition slot_gen (t : handle_table) (s : nat) : option Z := h_local_gen <$> ht_entries t !! s.

Lemma free_chain_insert es h fl s e : s ∉ fl -> free_chain es h fl -> free_chain (<[s := e]> es) h fl.
Proof.
  intros Hs H. induction H as [|s' e' fl Hl Ho _ IH]; [constructor|].
  apply not_elem_of_cons in Hs as [Hne Hs]. econstructor; [|done|by apply IH].
  by rewrite list_lookup_insert_ne.
Qed.

Lemma free_chain_app es es' h fl : free_chain es h fl -> free_chain (es ++ es') h fl.
Proof.
  induction 1 as [|s e fl Hl]; [constructor|]. econstructor; [|done..]. by apply lookup_app_l_Some.
Qed.

Lemma free_chain_lookup es h fl s : free_chain es h fl -> s ∈ fl -> (s < length es)%nat.
Proof.
  induction 1 as [|s' e fl Hl]; intros Hin; [by inversion Hin|].
  apply elem_of_cons in Hin as [->|]; [by eapply lookup_lt_Some|auto].
Qed.

Lemma nodup_below n (l : list nat) : NoDup l -> (forall x, x ∈ l -> (x < n)%nat) -> (length l <= n)%nat.
Proof.
  intros Hn Hb. replace n with (length (seq 0 n)) by apply length_seq. apply submseteq_length, NoDup_submseteq; [done|].
  intros x Hx. rewrite elem_of_seq. specialize (Hb x Hx). lia.
Qed.

Lemma free_slots_fit es h fl :
  (1 <= length es)%nat -> NoDup (0%nat :: fl) -> free_chain es h fl -> (S (length fl) <= length es)%nat.
Proof.
  intros Hl Hn Hc. apply (nodup_below _ (0%nat :: fl)); [done|].
  intros x [->|Hx]%elem_of_cons; [lia|]. by eapply free_chain_lookup.
Qed.

(** The fresh entries of [rebuild_free]. *)
Lemma rebuild_free_length start n head : length (rebuild_free start n head).1 = n.
Proof.
  revert start; induction n as [|n IH]; intros start; simpl; [done|].
  specialize (IH (S start)). destruct (rebuild_free (S start) n head). simpl in *. lia.
Qed.

Lemma rebuild_free_entry start n head s e :
  (rebuild_free start n head).1 !! s = Some e ->
  h_object_idx e = WUBU_CAP_IDX_NONE /\ h_local_gen e = 1.
Proof.
  revert start s; induction n as [|n IH]; intros start s; simpl; [done|].
  specialize (IH (S start)). destruct (rebuild_free (S start) n head) as [rest h].
  destruct s as [|s]; simpl; [by intros [= <-]|]. apply IH.
Qed.

Lemma rebuild_free_chain n : forall es start head fl,
  length es = start -> free_chain es head fl ->
  free_chain (es ++ (rebuild_free start n head).1) (rebuild_free start n head).2 (seq start n ++ fl).
Proof.
  induction n as [|n IH]; intros es start head fl Hl Hc; simpl.
  { by rewrite app_nil_r. }
  pose proof (IH (es ++ [{| h_object_idx := WUBU_CAP_IDX_NONE; h_local_gen := 1; h_token_flags := 0;
                            h_next_free := (rebuild_free (S start) n head).2 |}])
                 (S start) head fl) as H.
  rewrite length_app in H. simpl in H. specialize (H ltac:(lia) (free_chain_app _ _ _ _ Hc)).
  destruct (rebuild_free (S start) n head) as [rest h]. simpl in *.
  rewrite <- app_assoc in H. simpl in H.
  eapply free_cons; [rewrite lookup_app_r, Hl, Nat.sub_diag by lia; reflexivity|reflexivity|exact H].
Qed.

(** ** Creation and growth *)

Definition new_table : handle_table :=
  let '(rest, head) := rebuild_free 1 (WUBU_CAP_HANDLE_INITIAL - 1) WUBU_CAP_HANDLE_NONE in
  {| ht_entries := {| h_object_idx := WUBU_CAP_IDX_NONE; h_local_gen := 0; h_token_flags := 0;
                      h_next_free := WUBU_CAP_HANDLE_NONE |} :: rest;
     ht_count := 0; ht_next_free := head |}.

Lemma table_create_new st t st' :
  wubu_cap_handle_table_create st = (Some t, st') -> t = new_table.
Proof.
  unfold wubu_cap_handle_table_create, malloc. cbn zeta. destruct (negb _); [done|].
  destruct (negb _); [done|]. unfold new_table.
  destruct (rebuild_free 1 _ _) as [rest head]. intros E. injection E as E1 E2. by rewrite <- E1.
Qed.

Lemma new_table_ok : ht_ok new_table (seq 1 15).
Proof.
  constructor.
  - vm_compute. lia.
  - apply NoDup_cons. split; [rewrite elem_of_seq; lia|apply NoDup_seq].
  - pose proof (rebuild_free_chain 15 [{| h_object_idx := WUBU_CAP_IDX_NONE; h_local_gen := 0;
      h_token_flags := 0; h_next_free := WUBU_CAP_HANDLE_NONE |}] 1 WUBU_CAP_HANDLE_NONE [] eq_refl
      (free_end _)) as H. rewrite app_nil_r in H. exact H.
  - intros s e Hs. pose proof (lookup_lt_Some _ _ _ Hs) as Hlt. change (length _) with 16%nat in Hlt.
    assert (h_object_idx e = WUBU_CAP_IDX_NONE) as ->.
    { destruct s as [|s]; [by injection Hs as <-|]. by apply (rebuild_free_entry 1 15 WUBU_CAP_HANDLE_NONE s). }
    rewrite elem_of_cons, elem_of_seq. split; [lia|done].
  - intros s e Hs. destruct s as [|s]; [by injection Hs as <-|].
    apply (rebuild_free_entry 1 15 WUBU_CAP_HANDLE_NONE s) in Hs as [_ ->]. done.
  - reflexivity.
Qed.

Lemma grow_ok st t rc t' st' :
  ht_ok t [] -> grow st t = (rc, t', st') ->
  (rc = WUBU_CAP_ENOMEM /\ t' = t) \/
  (rc = WUBU_CAP_OK /\ (length (ht_entries t) < WUBU_CAP_HANDLE_MAX)%nat /\
   (exists rest, ht_entries t' = ht_entries t ++ rest) /\
   (forall s e, (length (ht_entries t) <= s)%nat -> ht_entries t' !! s = Some e ->
      h_object_idx e = WUBU_CAP_IDX_NONE) /\
   exists fl, fl <> [] /\ ht_ok t' fl).
Proof.
  intros [Hl Hn Hc He Hg Hk]. unfold grow. case_decide as Hmax; [intros; simplify_eq; by left|].
  unfold malloc. cbn zeta. destruct (negb _); [intros; simplify_eq; by left|].
  set (n := length (ht_entries t)) in *. unfold WUBU_CAP_HANDLE_MAX in *.
  set (k := (Nat.min (n * 2) 1024 - n)%nat).
  pose proof (rebuild_free_chain k (ht_entries t) n (ht_next_free t) [] eq_refl Hc) as Hch.
  pose proof (rebuild_free_length n k (ht_next_free t)) as Hrl.
  pose proof (rebuild_free_entry n k (ht_next_free t)) as Hre.
  destruct (rebuild_free n k (ht_next_free t)) as [rest head]. cbn [fst snd] in *.
  intros E. injection E as <- <- <-. right. rewrite app_nil_r in Hch.
  assert (0 < k)%nat as Hk0 by lia.
  assert (forall s e, (n <= s)%nat -> (ht_entries t ++ rest) !! s = Some e ->
    h_object_idx e = WUBU_CAP_IDX_NONE /\ h_local_gen e = 1) as Hnew.
  { intros s e Hs E. rewrite lookup_app_r in E by done. by eapply Hre. }
  clear Hre.
  split_and!; [done|lia|by exists rest|intros s e Hs E; by eapply Hnew|].
  exists (seq n k). split; [destruct k; [lia|done]|].
  constructor; cbn [ht_entries ht_count ht_next_free].
  - rewrite length_app. fold n. rewrite Hrl. unfold WUBU_CAP_HANDLE_MAX. lia.
  - apply NoDup_cons. split; [rewrite elem_of_seq; lia|apply NoDup_seq].
  - exact Hch.
  - intros s e Hs. rewrite elem_of_cons, elem_of_seq.
    pose proof (lookup_lt_Some _ _ _ Hs) as Hlt. rewrite length_app in Hlt. fold n in Hlt.
    destruct (le_lt_dec n s).
    + destruct (Hnew s e) as [-> _]; [done..|]. split; [lia|done].
    + rewrite lookup_app_l in Hs by done. rewrite (He s e Hs), elem_of_cons, elem_of_nil. lia.
  - intros s e Hs. destruct (le_lt_dec n s); [destruct (Hnew s e) as [_ ->]; done|].
    rewrite lookup_app_l in Hs by done. by eapply Hg.
  - rewrite length_app, length_seq, Hrl. fold n. simpl in Hk. lia.
Qed.

(** ** Insertion *)

(** How a table operation may change the slots: [s] gets the object [v], every
    other slot keeps its object, and no generation but that of [s] changes. *)
Record slot_update (t t' : handle_table) (s : nat) (v : option Z) : Prop := {
  su_here : slot_object t' s = v;
  su_others : forall r, r <> s -> slot_object t' r = slot_object t r;
  su_gens : forall r g, r <> s -> slot_gen t r = Some g -> slot_gen t' r = Some g }.

(** The entry a handle for [o] occupies. *)
Definition live_entry (o g flags : Z) : hentry :=
  {| h_object_idx := o; h_local_gen := g; h_token_flags := flags;
     h_next_free := WUBU_CAP_HANDLE_NONE |}.

Lemma live_entry_gen t s o g flags :
  ht_entries t !! s = Some (live_entry o g flags) -> slot_gen t s = Some g.
Proof. unfold slot_gen. by intros ->. Qed.

Lemma take_free t s e fl o flags :
  ht_ok t (s :: fl) -> o <> WUBU_CAP_IDX_NONE -> ht_entries t !! s = Some e ->
  let t' := {| ht_entries := <[s := live_entry o (h_local_gen e) flags]> (ht_entries t);
               ht_count := u32 (ht_count t + 1); ht_next_free := h_next_free e |} in
  ht_ok t' fl /\ slot_object t s = None /\ slot_update t t' s (Some o) /\
  ht_entries t' !! s = Some (live_entry o (h_local_gen e) flags) /\
  (1 <= s < WUBU_CAP_HANDLE_MAX)%nat.
Proof.
  intros [Hl Hn Hc He Hg Hk] Ho Hs t'.
  pose proof (lookup_lt_Some _ _ _ Hs) as Hlt.
  pose proof (free_slots_fit _ _ _ (proj1 Hl) Hn Hc) as Hfit. cbn [length] in Hfit.
  apply NoDup_cons in Hn as Hn1. destruct Hn1 as [H0 Hn1].
  apply NoDup_cons in Hn1 as [Hsfl Hnfl].
  assert (s <> 0%nat) as Hs0 by set_solver.
  inversion Hc as [|s' e' fl' Hs' Hnone Hc' Eh]; subst. simplify_eq.
  split_and!.
  - constructor; cbn [t' ht_entries ht_count ht_next_free].
    + by rewrite length_insert.
    + apply NoDup_cons. split; [set_solver|done].
    + by apply free_chain_insert.
    + intros r er Hr. destruct (decide (r = s)) as [->|Hne].
      * rewrite list_lookup_insert_eq in Hr by done. injection Hr as <-. simpl. split; [done|set_solver].
      * rewrite list_lookup_insert_ne in Hr by done. rewrite (He r er Hr). set_solver.
    + intros r er Hr. destruct (decide (r = s)) as [->|Hne].
      * rewrite list_lookup_insert_eq in Hr by done. injection Hr as <-. simpl. by eapply Hg.
      * rewrite list_lookup_insert_ne in Hr by done. by eapply Hg.
    + rewrite length_insert. unfold WUBU_CAP_HANDLE_MAX in Hl. cbn [length] in Hk.
      rewrite wrap_id; [lia|]. unfold fits. change (2 ^ 32) with 4294967296. lia.
  - unfold slot_object. rewrite Hs. simpl. by rewrite Hnone.
  - constructor; unfold slot_object, slot_gen; cbn [t' ht_entries].
    + rewrite list_lookup_insert_eq by done. simpl. by destruct (Z.eqb_spec o WUBU_CAP_IDX_NONE).
    + intros r Hr. by rewrite list_lookup_insert_ne.
    + intros r g Hr. by rewrite list_lookup_insert_ne.
  - cbn [t' ht_entries]. by rewrite list_lookup_insert_eq.
  - lia.
  - lia.
Qed.

Lemma insert_pop st t s fl o flags :
  ht_ok t (s :: fl) -> o <> WUBU_CAP_IDX_NONE ->
  exists e t', ht_entries t !! s = Some e /\
    wubu_cap_handle_insert st t o flags =
      (wubu_cap_token_pack (h_local_gen e) (Z.of_nat s) flags, t', st) /\
    ht_ok t' fl /\ slot_object t s = None /\ slot_update t t' s (Some o) /\
    ht_entries t' !! s = Some (live_entry o (h_local_gen e) flags) /\
    (1 <= s < WUBU_CAP_HANDLE_MAX)%nat.
Proof.
  intros Hok Ho. pose proof (hk_chain _ _ Hok) as Hc.
  inversion Hc as [|s' e fl' Hs Hnone Hc' Eh]; subst.
  exists e. eexists. split; [done|]. split; [|by apply take_free].
  pose proof (lookup_lt_Some _ _ _ Hs) as Hlt. pose proof (hk_len _ _ Hok) as Hl.
  unfold WUBU_CAP_HANDLE_MAX in Hl. unfold wubu_cap_handle_insert.
  destruct (Z.eqb_spec o WUBU_CAP_IDX_NONE); [done|]. rewrite <- Eh.
  destruct (Z.eqb_spec (Z.of_nat s) WUBU_CAP_HANDLE_NONE) as [E|_]; [unfold WUBU_CAP_HANDLE_NONE in E; lia|].
  cbn [Z.eqb negb WUBU_CAP_OK]. rewrite <- Eh. unfold entry_at.
  destruct (Z.ltb_spec (Z.of_nat s) 0); [lia|]. rewrite Nat2Z.id, Hs. done.
Qed.

Lemma insert_grown st t t1 st1 o flags :
  ht_next_free t = WUBU_CAP_HANDLE_NONE -> ht_next_free t1 <> WUBU_CAP_HANDLE_NONE ->
  grow st t = (WUBU_CAP_OK, t1, st1) ->
  wubu_cap_handle_insert st t o flags =
    if o =? WUBU_CAP_IDX_NONE then (WUBU_CAP_TOKEN_NULL, t, st)
    else wubu_cap_handle_insert st1 t1 o flags.
Proof.
  intros E1 E2 Eg. unfold wubu_cap_handle_insert. rewrite E1, Eg.
  destruct (o =? WUBU_CAP_IDX_NONE); [done|].
  destruct (Z.eqb_spec (ht_next_free t1) WUBU_CAP_HANDLE_NONE); done.
Qed.

Lemma slot_gen_app t t1 rest s g :
  ht_entries t1 = ht_entries t ++ rest -> slot_gen t s = Some g -> slot_gen t1 s = Some g.
Proof.
  unfold slot_gen. intros E Hs. rewrite E. destruct (ht_entries t !! s) as [e|] eqn:Ee; [|done].
  by rewrite (lookup_app_l_Some _ _ _ _ Ee).
Qed.

Lemma grown_slots t t1 rest s :
  ht_entries t1 = ht_entries t ++ rest ->
  (forall r e, (length (ht_entries t) <= r)%nat -> ht_entries t1 !! r = Some e ->
      h_object_idx e = WUBU_CAP_IDX_NONE) ->
  slot_object t1 s = slot_object t s.
Proof.
  intros E Hnew. unfold slot_object. destruct (le_lt_dec (length (ht_entries t)) s) as [Hs|Hs].
  - rewrite (lookup_ge_None_2 _ _ Hs). simpl.
    destruct (ht_entries t1 !! s) as [e|] eqn:Ee; [|done]. simpl. by rewrite (Hnew s e).
  - by rewrite E, lookup_app_l.
Qed.

Lemma insert_cases st t fl o flags :
  ht_ok t fl -> o <> WUBU_CAP_IDX_NONE ->
  let '(tok, t', st') := wubu_cap_handle_insert st t o flags in
  (tok = WUBU_CAP_TOKEN_NULL /\ t' = t /\ fl = []) \/
  exists s g fl', ht_ok t' fl' /\ tok = wubu_cap_token_pack g (Z.of_nat s) flags /\ fits 32 g /\
    (1 <= s < WUBU_CAP_HANDLE_MAX)%nat /\ slot_object t s = None /\ slot_update t t' s (Some o) /\
    ht_entries t' !! s = Some (live_entry o g flags) /\
    (forall g0, slot_gen t s = Some g0 -> g0 = g).
Proof.
  intros Hok Ho. destruct fl as [|s fl].
  - pose proof (hk_chain _ _ Hok) as Hc. inversion Hc as [Eh|]; subst.
    destruct (grow st t) as [[rc t1] st1] eqn:Eg.
    destruct (grow_ok _ _ _ _ _ Hok Eg) as [[-> ->]|(-> & _ & [rest Hr] & Hnew & fl1 & Hfl1 & Hok1)].
    + unfold wubu_cap_handle_insert. rewrite <- Eh, Eg.
      destruct (o =? WUBU_CAP_IDX_NONE); simpl; by left.
    + destruct fl1 as [|s1 fl1]; [done|].
      destruct (insert_pop st1 t1 s1 fl1 o flags Hok1 Ho)
        as (e & t' & He & E & Hok' & Hfree & [Hu1 Hu2 Hu3] & Hgen & Hs1).
      rewrite (insert_grown st t t1 st1 o flags); [|done| |done].
      2:{ intros E0. pose proof (hk_chain _ _ Hok1) as Hc1. rewrite E0 in Hc1. inversion Hc1.
          unfold WUBU_CAP_HANDLE_NONE, WUBU_CAP_HANDLE_MAX in *. lia. }
      destruct (Z.eqb_spec o WUBU_CAP_IDX_NONE); [done|]. rewrite E. right.
      exists s1, (h_local_gen e), fl1. split_and!; try done; try lia.
      * exact (hk_gens _ _ Hok1 _ _ He).
      * rewrite <- Hfree. symmetry. by eapply grown_slots.
      * constructor; [done| |].
        -- intros r Hr1. rewrite Hu2 by done. by eapply grown_slots.
        -- intros r g Hr1 Hg. apply Hu3; [done|]. by eapply slot_gen_app.
      * intros g0 Hg0. eapply (slot_gen_app t t1) in Hg0; [|done]. unfold slot_gen in Hg0.
        rewrite He in Hg0. by injection Hg0.
  - destruct (insert_pop st t s fl o flags Hok Ho) as (e & t' & He & -> & Hok' & Hfree & Hu & Hgen & Hs).
    right. exists s, (h_local_gen e), fl. split_and!; try done; try lia.
    + exact (hk_gens _ _ Hok _ _ He).
    + intros g0 Hg0. unfold slot_gen in Hg0. rewrite He in Hg0. by injection Hg0.
Qed.

(** ** Closing *)

Lemma close_cases t fl tok :
  ht_ok t fl ->
  let s := Z.to_nat (wubu_cap_token_idx tok) in
  match slot_object t s with
  | None => wubu_cap_handle_close t tok = (WUBU_CAP_EINVAL, t)
  | Some _ => exists t' g, wubu_cap_handle_close t tok = (WUBU_CAP_OK, t') /\ ht_ok t' (s :: fl) /\
      slot_update t t' s None /\ slot_gen t s = Some g /\ slot_gen t' s = Some (u32 (g + 1))
  end.
Proof.
  intros [Hl Hn Hc He Hg Hk] s. pose proof (token_idx_fits tok) as Hf. unfold fits in Hf.
  set (z := wubu_cap_token_idx tok) in *.
  assert (entry_at t z = ht_entries t !! s) as Ee.
  { unfold entry_at. destruct (Z.ltb_spec z 0); [lia|done]. }
  unfold wubu_cap_handle_close, slot_object, ht_capacity. fold z. rewrite Ee.
  destruct (ht_entries t !! s) as [e|] eqn:Es; simpl.
  2:{ by case_match. }
  pose proof (lookup_lt_Some _ _ _ Es) as Hlt.
  destruct (Z.geb_spec z (Z.of_nat (length (ht_entries t)))) as [Hge|_]; [unfold s in Hlt; lia|].
  destruct (Z.eqb_spec (h_object_idx e) WUBU_CAP_IDX_NONE) as [|Hlive]; [done|].
  assert (s ∉ 0%nat :: fl) as Hsfl by (rewrite <- (He s e Es); done).
  eexists _, (h_local_gen e). split; [reflexivity|].
  fold s. replace z with (Z.of_nat s) by (unfold s; lia). split_and!.
  - constructor; cbn [ht_entries ht_count ht_next_free].
    + by rewrite length_insert.
    + apply not_elem_of_cons in Hsfl as [? ?]. apply NoDup_cons in Hn as [? ?].
      apply NoDup_cons. split; [set_solver|]. apply NoDup_cons. done.
    + econstructor; [by rewrite list_lookup_insert_eq|done|]. apply free_chain_insert; [set_solver|done].
    + intros r er Hr. destruct (decide (r = s)) as [->|Hne].
      * rewrite list_lookup_insert_eq in Hr by done. injection Hr as <-. simpl. split; [set_solver|done].
      * rewrite list_lookup_insert_ne in Hr by done. rewrite (He r er Hr). set_solver.
    + intros r er Hr. destruct (decide (r = s)) as [->|Hne].
      * rewrite list_lookup_insert_eq in Hr by done. injection Hr as <-. simpl. by apply wrap_fits.
      * rewrite list_lookup_insert_ne in Hr by done. by eapply Hg.
    + rewrite length_insert. unfold WUBU_CAP_HANDLE_MAX in Hl. cbn [length].
      assert (length (s :: 0%nat :: fl) <= length (ht_entries t))%nat as Hcount.
      { apply nodup_below; [by apply NoDup_cons|].
        intros x [->|[->|Hx]%elem_of_cons]%elem_of_cons; [done|lia|by eapply free_chain_lookup]. }
      cbn [length] in Hcount.
      rewrite wrap_id; [lia|]. unfold fits. change (2 ^ 32) with 4294967296. lia.
  - constructor; unfold slot_object, slot_gen; cbn [ht_entries].
    + by rewrite list_lookup_insert_eq.
    + intros r Hr. by rewrite list_lookup_insert_ne.
    + intros r g Hr. by rewrite list_lookup_insert_ne.
  - unfold slot_gen. by rewrite Es.
  - unfold slot_gen. cbn [ht_entries]. by rewrite list_lookup_insert_eq.
Qed.

(** ** Sequences of table operations *)

Inductive ht_op :=
  | HInsert (object flags : Z)
  | HClose (tok : Z)
  | HCloseSlot (slot : Z).

Definition run_ht_op (s : cap_state * handle_table) (op : ht_op) : cap_state * handle_table :=
  let '(st, t) := s in
  match op with
  | HInsert o flags => let '(_, t', st') := wubu_cap_handle_insert st t o flags in (st', t')
  | HClose tok => (st, (wubu_cap_handle_close t tok).2)
  | HCloseSlot slot => (st, (wubu_cap_handle_close_slot t slot).2)
  end.
Definition run_ht (s : cap_state * handle_table) (ops : list ht_op) : cap_state * handle_table :=
  foldl run_ht_op s ops.

(** One operation keeps the invariant and moves each generation by at most 1. *)
Definition ht_step_ok (t t' : handle_table) : Prop :=
  (exists fl, ht_ok t' fl) /\
  forall s g, slot_gen t s = Some g -> slot_gen t' s = Some g \/ slot_gen t' s = Some (u32 (g + 1)).

Lemma insert_step st t fl o flags :
  ht_ok t fl -> ht_step_ok t (wubu_cap_handle_insert st t o flags).1.2.
Proof.
  intros Hok. destruct (decide (o = WUBU_CAP_IDX_NONE)) as [->|Ho].
  { unfold wubu_cap_handle_insert. cbn. split; [by exists fl|by left]. }
  pose proof (insert_cases st t fl o flags Hok Ho) as H.
  destruct (wubu_cap_handle_insert st t o flags) as [[tok t'] st']. cbn [fst snd].
  destruct H as [(_ & -> & _)|(s & g & fl' & Hok' & _ & _ & _ & _ & [_ _ Hu] & Hg & Hg0)].
  { split; [by exists fl|by left]. }
  split; [by exists fl'|]. intros r g' Hr. left.
  destruct (decide (r = s)) as [->|]; [|by apply Hu].
  rewrite (Hg0 _ Hr). by eapply live_entry_gen.
Qed.

Lemma close_step t fl tok : ht_ok t fl -> ht_step_ok t (wubu_cap_handle_close t tok).2.
Proof.
  intros Hok. pose proof (close_cases t fl tok Hok) as H. cbn zeta in H.
  destruct (slot_object t _) as [o|].
  - destruct H as (t' & g & -> & Hok' & [_ _ Hu] & Hg & Hg'). split; [by eexists|].
    intros r g' Hr. destruct (decide (r = Z.to_nat (wubu_cap_token_idx tok))) as [->|]; [|left; by apply Hu].
    right. simpl. rewrite Hg', Hg in *. by simplify_eq.
  - rewrite H. split; [by exists fl|by left].
Qed.

Lemma close_slot_step t fl slot : ht_ok t fl -> ht_step_ok t (wubu_cap_handle_close_slot t slot).2.
Proof.
  intros Hok. unfold wubu_cap_handle_close_slot.
  assert (ht_step_ok t t) as Hrefl by (split; [by exists fl|by left]).
  destruct (_ || _); [done|]. destruct (entry_at t slot) as [e|]; [|done].
  destruct (_ =? _); [done|]. by eapply close_step.
Qed.

Lemma run_ht_op_step st t fl op : ht_ok t fl -> ht_step_ok t (run_ht_op (st, t) op).2.
Proof.
  intros Hok. destruct op; simpl.
  - pose proof (insert_step st t fl object flags Hok) as H.
    by destruct (wubu_cap_handle_insert st t object flags) as [[tok t'] st'].
  - by eapply close_step.
  - by eapply close_slot_step.
Qed.

Lemma run_ht_ok ops : forall st t fl, ht_ok t fl ->
  (exists fl', ht_ok (run_ht (st, t) ops).2 fl') /\
  forall s g, slot_gen t s = Some g -> fits 32 g ->
    exists k, 0 <= k <= Z.of_nat (length ops) /\ slot_gen (run_ht (st, t) ops).2 s = Some (u32 (g + k)).
Proof.
  induction ops as [|op ops IH]; intros st t fl Hok.
  - split; [by exists fl|]. intros s g Hs Hf. exists 0. cbn [length run_ht foldl snd].
    rewrite Z.add_0_r, wrap_id by done. split; [lia|done].
  - destruct (run_ht_op_step st t fl op Hok) as [[fl1 Hok1] Hg1].
    unfold run_ht. cbn [foldl]. destruct (run_ht_op (st, t) op) as [st1 t1]. cbn [snd] in *.
    destruct (IH st1 t1 fl1 Hok1) as [Hok2 Hg2]. split; [exact Hok2|]. intros s g Hs Hf.
    destruct (Hg1 s g Hs) as [H1|H1].
    + destruct (Hg2 s g H1 Hf) as (k & Hk & E). exists k. cbn [length]. split; [lia|exact E].
    + destruct (Hg2 s _ H1) as (k & Hk & E); [by apply wrap_fits|].
      exists (k + 1). cbn [length]. split; [lia|]. etransitivity; [exact E|].
      f_equal. unfold wrap. rewrite Zplus_mod_idemp_l. f_equal. lia.
Qed.

(** What a handle in a slot lets a process resolve to. *)
Lemma handle_resolve_spec st t s e tok pid required :
  cap_wf st -> ht_entries t !! s = Some e -> wubu_cap_token_idx tok = Z.of_nat s ->
  0 < h_object_idx e < WUBU_CAP_OBJECT_CAPACITY -> fits 8 (h_token_flags e) ->
  h_local_gen e = wubu_cap_token_gen tok ->
  ((wubu_cap_handle_resolve st t pid tok required).1 = Some (h_object_idx e) <->
   exists o, ptrs st !! h_object_idx e = Some o /\ o_deleted o = false /\ allows o pid /\
             rights_le required (o_rights o)).
Proof.
  intros Hwf Hs Htok Hobj Hfl Hgen. unfold WUBU_CAP_OBJECT_CAPACITY in Hobj.
  pose proof (lookup_lt_Some _ _ _ Hs) as Hlt.
  unfold wubu_cap_handle_resolve, ht_capacity, entry_at. rewrite Htok, Nat2Z.id, Hs.
  destruct (Z.geb_spec (Z.of_nat s) (Z.of_nat (length (ht_entries t)))); [lia|].
  destruct (Z.ltb_spec (Z.of_nat s) 0); [lia|].
  destruct (Z.eqb_spec (h_object_idx e) WUBU_CAP_IDX_NONE) as [E|_];
    [unfold WUBU_CAP_IDX_NONE in E; lia|].
  destruct (Z.eqb_spec (h_local_gen e) (wubu_cap_token_gen tok)); [|done]. cbn [negb].
  set (g := match ptrs st !! h_object_idx e with Some o => o_generation o | None => 0 end).
  assert (fits 32 g) as Hg.
  { unfold g. destruct (ptrs st !! h_object_idx e) eqn:Eo; [|done]. by eapply ow_gen, cw_objs. }
  assert (fits 24 (h_object_idx e)) as Hi by (unfold fits; change (2 ^ 24) with 16777216; lia).
  destruct (token_fields g (h_object_idx e) (h_token_flags e) Hg Hi Hfl) as (Eg & Ei & _).
  set (tk := wubu_cap_token_pack g (h_object_idx e) (h_token_flags e)) in *.
  pose proof (resolve_cases st pid tk required) as Hres. cbn zeta in Hres. rewrite Ei in Hres.
  unfold grants, refusal in Hres. rewrite Eg in Hres. unfold g in Hres.
  destruct (ptrs st !! h_object_idx e) as [o|] eqn:Eo; [|rewrite Hres; naive_solver].
  rewrite decide_True in Hres by (unfold WUBU_CAP_OBJECT_CAPACITY; lia).
  destruct Hres as [[-> Hgr]|(c & -> & Hc)]; naive_solver congruence.
Qed.

(** A table the source can build: from [wubu_cap_handle_table_create] through
    any insertions and closes. *)
Definition table_reached (st : cap_state) (t : handle_table) : Prop :=
  exists st0 st1 t0 ops, wubu_cap_handle_table_create st0 = (Some t0, st1) /\
    run_ht (st1, t0) ops = (st, t).

Lemma table_reached_ok st t : table_reached st t -> exists fl, ht_ok t fl.
Proof.
  intros (st0 & st1 & t0 & ops & ->%table_create_new & E).
  destruct (run_ht_ok ops st1 new_table _ new_table_ok) as [H _]. by rewrite E in H.
Qed.

(** ** Handles index the object array

    The lookups of handles index [g_wubu_cap_ptrs] without a bound check.  They
    stay inside it as long as insertions name slots of the array, as every
    caller in the sources does (each inserts the index of an object it just
    created, or of one it holds). *)
Definition in_array (t : handle_table) : Prop :=
  forall s o, slot_object t s = Some o -> 0 <= o < WUBU_CAP_OBJECT_CAPACITY.
Definition inserts_in_array (op : ht_op) : Prop :=
  match op with HInsert o _ => 0 <= o < WUBU_CAP_OBJECT_CAPACITY | _ => True end.

Lemma in_array_update t t' s v :
  slot_update t t' s v -> (forall o, v = Some o -> 0 <= o < WUBU_CAP_OBJECT_CAPACITY) ->
  in_array t -> in_array t'.
Proof.
  intros [H1 H2 _] Hv Ht r o Hr. destruct (decide (r = s)) as [->|]; [apply Hv; congruence|].
  apply (Ht r). by rewrite <- H2.
Qed.

Lemma close_in_array t fl tok : ht_ok t fl -> in_array t -> in_array (wubu_cap_handle_close t tok).2.
Proof.
  intros Hok Ht. pose proof (close_cases t fl tok Hok) as H. cbn zeta in H.
  destruct (slot_object t _); [|by rewrite H].
  destruct H as (t' & g & -> & _ & Hu & _). by eapply in_array_update.
Qed.

Lemma run_ht_op_in_array st t fl op :
  ht_ok t fl -> inserts_in_array op -> in_array t -> in_array (run_ht_op (st, t) op).2.
Proof.
  intros Hok Hop Ht. destruct op as [o flags|tok|slot]; cbn [run_ht_op inserts_in_array snd] in *.
  - assert (o <> WUBU_CAP_IDX_NONE) as Ho
      by (unfold WUBU_CAP_IDX_NONE, WUBU_CAP_OBJECT_CAPACITY in *; lia).
    pose proof (insert_cases st t fl o flags Hok Ho) as H.
    destruct (wubu_cap_handle_insert st t o flags) as [[tok t'] st']. cbn [snd].
    destruct H as [(_ & -> & _)|(s & g & fl' & _ & _ & _ & _ & _ & Hu & _)]; [done|].
    eapply in_array_update; [exact Hu| |done]. congruence.
  - by eapply close_in_array.
  - unfold wubu_cap_handle_close_slot. repeat case_match; try done. by eapply close_in_array.
Qed.

(** Through any insertions of array slots and any closes, every live entry of a
    table indexes the object array: [wubu_cap_handle_resolve],
    [wubu_cap_handle_resolve_kind] and [wubu_cap_handle_revoke_by_slot] read
    inside it. *)
Theorem cap_handles_index_the_array st st0 ops :
  Forall inserts_in_array ops ->
  forall t, (wubu_cap_handle_table_create st0) = (Some t, st) -> in_array (run_ht (st, t) ops).2.
Proof.
  intros Hops t ->%table_create_new.
  assert (in_array new_table) as Ht.
  { intros s o Hs. exfalso. pose proof (hk_empty _ _ new_table_ok) as He. unfold slot_object in Hs.
    destruct (ht_entries new_table !! s) as [e|] eqn:E; [|done]. cbn [mbind option_bind] in Hs.
    destruct (Z.eqb_spec (h_object_idx e) WUBU_CAP_IDX_NONE) as [|Hn]; [done|].
    apply Hn, (He _ _ E). apply lookup_lt_Some in E. cbn in E. apply (elem_of_seq 0 16). lia. }
  pose proof new_table_ok as Hok. revert Ht Hok. generalize (seq 1 15). generalize new_table. revert st.
  induction Hops as [|op ops Hop _ IH]; intros st t fl Ht Hok; [done|]. unfold run_ht. cbn [foldl].
  destruct (run_ht_op_step st t fl op Hok) as [[fl' Hok'] _].
  pose proof (run_ht_op_in_array st t fl op Hok Hop Ht) as Ht'.
  destruct (run_ht_op (st, t) op) as [st' t']. by apply (IH st' t' fl').
Qed.

Lemma full_table t s : ht_ok t [] -> (1 <= s < length (ht_entries t))%nat -> slot_object t s <> None.
Proof.
  intros Hok Hs. destruct (lookup_lt_is_Some_2 (ht_entries t) s) as [e He]; [lia|].
  unfold slot_object. rewrite He. simpl. destruct (Z.eqb_spec (h_object_idx e) WUBU_CAP_IDX_NONE) as [E|]; [|done].
  apply (hk_empty _ _ Hok _ _ He) in E. apply elem_of_cons in E as [->|E]; [lia|by inversion E].
Qed.

(** C33. Every table that can be built is a map from slots to objects.  Insertion
    uses a free slot and returns a token naming it with the slot's generation,
    or returns the null token and leaves a table whose slots are all taken
    unchanged; closing a token empties its slot and bumps its generation, or
    reports EINVAL and changes nothing when the slot is empty.  No other slot is
    affected. *)
Theorem cap_handle_table_refines_map st t o flags tok :
  table_reached st t -> o <> WUBU_CAP_IDX_NONE -> fits 8 flags ->
  (let '(tok', t', _) := wubu_cap_handle_insert st t o flags in
   (tok' = WUBU_CAP_TOKEN_NULL /\ t' = t /\
      forall s, (1 <= s < length (ht_entries t))%nat -> slot_object t s <> None) \/
   (exists s, slot_object t s = None /\ slot_update t t' s (Some o) /\ (1 <= s)%nat /\
      wubu_cap_token_idx tok' = Z.of_nat s /\ slot_gen t' s = Some (wubu_cap_token_gen tok') /\
      wubu_cap_token_flags tok' = flags)) /\
  (let s := Z.to_nat (wubu_cap_token_idx tok) in
   let '(rc, t') := wubu_cap_handle_close t tok in
   match slot_object t s with
   | None => rc = WUBU_CAP_EINVAL /\ t' = t
   | Some _ => rc = WUBU_CAP_OK /\ slot_update t t' s None /\
       exists g, slot_gen t s = Some g /\ slot_gen t' s = Some (u32 (g + 1))
   end).
Proof.
  intros [fl Hok]%table_reached_ok Ho Hfl. split.
  - pose proof (insert_cases st t fl o flags Hok Ho) as H.
    destruct (wubu_cap_handle_insert st t o flags) as [[tok' t'] st'].
    destruct H as [(-> & -> & ->)|(s & g & fl' & _ & -> & Hg & Hs & Hfree & Hu & Hgen%live_entry_gen & _)].
    + left. split_and!; [done|done|]. intros s Hs. by apply full_table.
    + right. exists s. unfold WUBU_CAP_HANDLE_MAX in Hs.
      destruct (token_fields g (Z.of_nat s) flags) as (-> & -> & ->); [done| |done|split_and!; (done || lia)].
      unfold fits. change (2 ^ 24) with 16777216. lia.
  - cbn zeta. pose proof (close_cases t fl tok Hok) as H. cbn zeta in H.
    destruct (slot_object t _) as [o'|].
    + destruct H as (t' & g & -> & _ & Hu & Hg & Hg'). eauto.
    + by rewrite H.
Qed.

Lemma cap_handle_table_refines_map_witness :
  let '(tok, t', _) := wubu_cap_handle_insert cap_boot new_table 7 0 in
  tok = wubu_cap_token_pack 1 1 0 /\
  exists s, slot_object new_table s = None /\ slot_update new_table t' s (Some 7).
Proof.
  destruct (cap_handle_table_refines_map cap_boot new_table 7 0 0) as [H _].
  - exists cap_boot, cap_boot, new_table, []. split; reflexivity.
  - discriminate.
  - unfold fits. lia.
  - assert ((wubu_cap_handle_insert cap_boot new_table 7 0).1.1 = wubu_cap_token_pack 1 1 0) as E
      by (vm_compute; reflexivity).
    destruct (wubu_cap_handle_insert cap_boot new_table 7 0) as [[tok t'] st']. simpl in E.
    split; [exact E|]. destruct H as [(H & _)|(s & H1 & H2 & _)]; [rewrite E in H; discriminate|].
    exists s. split; [exact H1|exact H2].
Defined.

(** A closed token stays dead: after a token is closed it resolves to nothing,
    and leaves no audit record, through any further insertions and closes on
    the table, its slot reused or not, as long as fewer than 2^32 - 1 operations
    ran (the slot's generation has not come round). *)
Theorem cap_closed_token_stays_dead st t tok ops g :
  table_reached st t -> slot_gen t (Z.to_nat (wubu_cap_token_idx tok)) = Some g ->
  g = wubu_cap_token_gen tok -> (wubu_cap_handle_close t tok).1 = WUBU_CAP_OK ->
  Z.of_nat (length ops) < 2 ^ 32 - 1 ->
  let '(st', t') := run_ht (st, (wubu_cap_handle_close t tok).2) ops in
  forall pid required, wubu_cap_handle_resolve st' t' pid tok required = (None, st').
Proof.
  intros [fl Hok]%table_reached_ok Hg -> Hrc Hn.
  set (s := Z.to_nat (wubu_cap_token_idx tok)) in *.
  pose proof (close_cases t fl tok Hok) as H. cbn zeta in H. fold s in H.
  destruct (slot_object t s); [|by rewrite H in Hrc].
  destruct H as (t1 & g & -> & Hok1 & _ & Hg1 & Hg1'). cbn [snd]. rewrite Hg1 in Hg. injection Hg as ->.
  destruct (run_ht_ok ops st t1 _ Hok1) as [_ Hk].
  destruct (Hk s _ Hg1') as (k & Hk1 & Hk2); [by apply wrap_fits|].
  destruct (run_ht (st, t1) ops) as [st' t']. cbn [snd] in Hk2. intros pid required.
  pose proof (token_idx_fits tok) as Hf. unfold fits in Hf.
  unfold wubu_cap_handle_resolve, entry_at. destruct (_ >=? _); [done|].
  destruct (Z.ltb_spec (wubu_cap_token_idx tok) 0); [lia|]. fold s.
  unfold slot_gen in Hk2. destruct (ht_entries t' !! s) as [e|]; [|done].
  cbn [fmap option_fmap option_map] in Hk2. injection Hk2 as Hk2.
  destruct (_ =? WUBU_CAP_IDX_NONE); [done|].
  destruct (Z.eqb_spec (h_local_gen e) (wubu_cap_token_gen tok)) as [E|]; [|done].
  exfalso. rewrite Hk2 in E. assert (fits 32 (wubu_cap_token_gen tok)) as Hfg by (by apply wrap_fits).
  unfold fits in Hfg. unfold wrap in E. change (2 ^ 32) with 4294967296 in *.
  rewrite Zplus_mod_idemp_l in E.
  pose proof (Z.div_mod (wubu_cap_token_gen tok + 1 + k) 4294967296). lia.
Qed.

(** Slot 1 holds object 1; its token is closed and the slot reused. *)
Lemma cap_closed_token_stays_dead_witness :
  let '(tok, t, st) := wubu_cap_handle_insert owned_state new_table 1 0 in
  (wubu_cap_handle_resolve st t 7 tok 1).1 = Some 1 /\
  let '(st', t') := run_ht (st, (wubu_cap_handle_close t tok).2) [HInsert 1 0] in
  slot_object t' 1 = Some 1 /\ wubu_cap_handle_resolve st' t' 7 tok 1 = (None, st').
Proof.
  destruct (wubu_cap_handle_insert owned_state new_table 1 0) as [[tok t] st] eqn:E.
  assert (E1 := f_equal (fun x => x.1.1) E). cbn [fst] in E1.
  assert (E2 := f_equal (fun x => x.1.2) E). cbn [fst snd] in E2.
  assert (E3 := f_equal snd E). cbn [snd] in E3.
  assert (table_reached st t) as Hr.
  { exists owned_state, owned_state, new_table, [HInsert 1 0]. split; [reflexivity|].
    unfold run_ht. cbn [foldl run_ht_op]. rewrite E. reflexivity. }
  split; [rewrite <- E1, <- E2, <- E3; vm_compute; reflexivity|].
  pose proof (cap_closed_token_stays_dead st t tok [HInsert 1 0] 1 Hr) as H.
  destruct (run_ht _ _) as [st' t'] eqn:E'.
  split.
  - assert (t' = (run_ht (st, (wubu_cap_handle_close t tok).2) [HInsert 1 0]).2) as -> by (rewrite E'; reflexivity).
    rewrite <- E1, <- E2, <- E3. vm_compute. reflexivity.
  - apply H; rewrite <- ?E1, <- ?E2; vm_compute; reflexivity.
Defined.

(** Inserting a live registry object and resolving the returned token, from any
    process, gives that object exactly when the object is not revoked, admits
    the process and holds every required right. *)
Theorem cap_inserted_handle_resolves st t o flags pid required :
  table_reached st t -> cap_wf st -> 0 < o < WUBU_CAP_OBJECT_CAPACITY -> fits 8 flags ->
  let '(tok, t', st') := wubu_cap_handle_insert st t o flags in
  tok <> WUBU_CAP_TOKEN_NULL ->
  ((wubu_cap_handle_resolve st' t' pid tok required).1 = Some o <->
   exists obj, ptrs st !! o = Some obj /\ o_deleted obj = false /\ allows obj pid /\
               rights_le required (o_rights obj)).
Proof.
  intros [fl Hok]%table_reached_ok Hwf Ho Hfl.
  assert (o <> WUBU_CAP_IDX_NONE) as Hne
    by (unfold WUBU_CAP_OBJECT_CAPACITY, WUBU_CAP_IDX_NONE in *; lia).
  pose proof (insert_cases st t fl o flags Hok Hne) as H.
  pose proof (handle_insert_ptrs st t o flags) as Hp.
  destruct (wubu_cap_handle_insert st t o flags) as [[tok t'] st']. cbn [snd] in Hp. intros Hnull.
  destruct H as [(? & _)|(s & g & fl' & _ & -> & Hg & Hs & _ & _ & He & _)]; [done|].
  rewrite <- Hp. unfold WUBU_CAP_HANDLE_MAX in Hs.
  assert (fits 24 (Z.of_nat s)) as Hs24 by (unfold fits; change (2 ^ 24) with 16777216; lia).
  destruct (token_fields g (Z.of_nat s) flags Hg Hs24 Hfl) as (Eg & Ei & _).
  apply (handle_resolve_spec st' t' s (live_entry o g flags)); try done.
  destruct Hwf as [Hk Hobj]. constructor; rewrite Hp; done.
Qed.

Lemma cap_inserted_handle_resolves_witness :
  let '(tok, t', st') := wubu_cap_handle_insert owned_state new_table 1 0 in
  (wubu_cap_handle_resolve st' t' 7 tok 9).1 = Some 1 /\
  (wubu_cap_handle_resolve st' t' 8 tok 9).1 <> Some 1.
Proof.
  pose proof (cap_inserted_handle_resolves owned_state new_table 1 0 8 9) as H.
  assert (table_reached owned_state new_table) as Hr
    by (exists owned_state, owned_state, new_table, []; split; reflexivity).
  specialize (H Hr owned_wf ltac:(unfold WUBU_CAP_OBJECT_CAPACITY; lia) ltac:(unfold fits; lia)).
  destruct (wubu_cap_handle_insert owned_state new_table 1 0) as [[tok t'] st'] eqn:E.
  assert (E1 := f_equal (fun x => x.1.1) E). cbn [fst] in E1.
  assert (E2 := f_equal (fun x => x.1.2) E). cbn [fst snd] in E2.
  assert (E3 := f_equal snd E). cbn [snd] in E3.
  split; [rewrite <- E1, <- E2, <- E3; vm_compute; reflexivity|].
  assert (tok <> WUBU_CAP_TOKEN_NULL) as Hn by (rewrite <- E1; vm_compute; discriminate).
  intros Hres. apply (H Hn) in Hres as (obj & Ho & _ & Ha & _).
  vm_compute in Ho. injection Ho as <-. by vm_compute in Ha.
Defined.

(** ** Where the code falls short of its description *)

(** A token of a destroyed object resolves to the next object created in its
    slot: every object starts at generation 1, so the generation does not tell
    the two apart. *)
Theorem cap_destroyed_token_resolves_again :
  let '(_, tok, st1) := wubu_cap_create cap_boot 1 1 (Some [7; -1]) 0 100 7 WUBU_CAP_IDX_NONE in
  let '(_, _, st2) := wubu_cap_create (wubu_cap_destroy st1 1) 2 3 (Some [7; -1]) 0 200 7
                        WUBU_CAP_IDX_NONE in
  (wubu_cap_resolve st1 7 tok 3).1 = None /\
  (wubu_cap_resolve st2 7 tok 3).1 = Some 1 /\
  o_kind_data <$> ptrs st2 !! 1 = Some 200.
Proof. vm_compute. repeat split; reflexivity. Qed.

(** Destroying a middle sibling cuts the child list: an eager revoke of the root
    then leaves the grandchild behind it live, and does not mark the root as
    truncated. *)
Theorem cap_destroyed_sibling_hides_descendants :
  let st := run owned_state
    [ODerive owned_tok 7 11 (Some [7; -1]) 0;
     ODerive (wubu_cap_token_pack 1 2 0) 7 1 (Some [7; -1]) 0;
     ODerive (wubu_cap_token_pack 1 2 0) 7 1 (Some [7; -1]) 0;
     ODerive (wubu_cap_token_pack 1 2 0) 7 1 (Some [7; -1]) 0;
     ODestroy 4] in
  let '(rc, st') := wubu_cap_revoke st owned_tok in
  rc = 3 /\
  o_parent_idx <$> ptrs st' !! 3 = Some 2 /\
  o_deleted <$> ptrs st' !! 2 = Some true /\ o_deleted <$> ptrs st' !! 3 = Some false /\
  (fun o => has_flag (o_flags o) WUBU_CAP_FLAG_CASCADE_TRUNCATED) <$> ptrs st' !! 1 = Some false /\
  (wubu_cap_resolve st' 7 (wubu_cap_token_pack 1 3 0) 1).1 = Some 3.
Proof. vm_compute. repeat split; reflexivity. Qed.

(** Closing does not look at the token's generation: a stale token closes the
    handle that now occupies its slot. *)
Theorem cap_stale_token_closes_reused_slot :
  let '(tok, t1, st1) := wubu_cap_handle_insert cap_boot new_table 7 0 in
  let '(_, t2) := wubu_cap_handle_close t1 tok in
  let '(_, t3, _) := wubu_cap_handle_insert st1 t2 9 0 in
  slot_object t3 1 = Some 9 /\
  (wubu_cap_handle_close t3 tok).1 = WUBU_CAP_OK /\
  slot_object (wubu_cap_handle_close t3 tok).2 1 = None.
Proof. vm_compute. repeat split; reflexivity. Qed.

(** The kind gate looks at the first live handle of the kind only: a process
    that holds a weak SYSTEM handle before a strong one is refused what the
    strong one allows. *)
Theorem cap_kind_gate_checks_first_handle_only :
  let st0 := wubu_cap_system_init cap_boot in
  let '(rc1, t1, st1) := wubu_cap_system_install_to_pid st0 new_table 7 1 in
  let '(rc2, t2, st2) := wubu_cap_system_install_to_pid st1 t1 7 3 in
  rc1 = WUBU_CAP_OK /\ rc2 = WUBU_CAP_OK /\
  (wubu_cap_system_resolve st2 t2 7 2).1 = WUBU_CAP_EPERM /\
  (wubu_cap_handle_resolve_by_slot st2 t2 7 2 2).1 = Some 3.
Proof. vm_compute. repeat split; reflexivity. Qed.

(** The boot capability is created public and with every right, so any process
    resolves it, and derives from it, with the constant token of generation 1
    and slot 1. *)
Theorem cap_bootcap_open_to_every_process (pid : Z) :
  let st := wubu_cap_system_init cap_boot in
  let boot := wubu_cap_token_pack 1 (wubu_cap_system_bootcap_idx st) 0 in
  (wubu_cap_resolve st pid boot WUBU_RIGHTS_ALL).1 = Some 1 /\
  (wubu_cap_derive st boot pid WUBU_RIGHTS_ALL (Some [7; -1]) 0).1.1 = 2.
Proof. vm_compute. split; reflexivity. Qed.
