(* ===== verification/TimerWheel.v ===== *)
(** * The hierarchical timer wheel

    [kernel/timer_wheel.c]: six levels of 64 slots.  The two-dimensional array
    of list heads is one list of 384 lists, [level * 64 + slot] its index, each
    list in the order of the [next] pointers; an entry is in one list at a time,
    so the pool is only counted. *)

From S2P Require Import Prelude.
Open Scope Z_scope.

Definition TW_LEVELS : nat := 6.
Definition TW_SLOTS : nat := 64.
Definition TW_MAX_ENTRIES : nat := 256.

Record tw_entry := { e_id : Z; e_expiry : Z }.
#[export] Instance tw_entry_eq_dec : EqDecision tw_entry.
Proof. solve_decision. Defined.

Record tw := {
  now : Z;
  pending : Z;
  cascades : Z;
  slots : list (list tw_entry);
  pool_used : nat }.

Definition tw_init : tw :=
  {| now := 0; pending := 0; cascades := 0; slots := replicate (TW_LEVELS * TW_SLOTS) [];
     pool_used := 0 |}.

(** The loop of [level_for]: [k] levels left above [level]. *)
Fixpoint level_loop (k : nat) (level : nat) (span delta : Z) : nat :=
  match k with
  | O => level
  | S k => if delta >=? span then level_loop k (S level) (u64 (span * 64)) delta else level
  end.
Definition level_for (delta : Z) : nat := level_loop (TW_LEVELS - 1) 0 64 delta.

Definition slot_of (level : nat) (expiry : Z) : nat :=
  Z.to_nat (Z.land (Z.shiftr expiry (6 * Z.of_nat level)) 63).
Definition slot_ix (level slot : nat) : nat := (level * TW_SLOTS + slot)%nat.

Definition set_slots (w : tw) (s : list (list tw_entry)) : tw :=
  {| now := now w; pending := pending w; cascades := cascades w; slots := s;
     pool_used := pool_used w |}.

(** Push an entry at the front of the list that owns it for [delta]. *)
Definition place (w : tw) (delta : Z) (e : tw_entry) : tw :=
  let l := level_for delta in
  set_slots w (alter (cons e) (slot_ix l (slot_of l (e_expiry e))) (slots w)).

Definition tw_add (w : tw) (id expiry : Z) : Z * tw :=
  if expiry <? now w then (-1, w) else
  if decide (TW_MAX_ENTRIES <= pool_used w)%nat then (-1, w) else
  let w' := place w (expiry - now w) {| e_id := id; e_expiry := expiry |} in
  (0, {| now := now w'; pending := u64 (pending w' + 1); cascades := cascades w';
         slots := slots w'; pool_used := S (pool_used w') |}).

(** The list taken out of a slot, and the wheel without it. *)
Definition take_slot (w : tw) (ix : nat) : list tw_entry * tw :=
  (default [] (slots w !! ix), set_slots w (<[ix := []]> (slots w))).

Definition cascade_one (w : tw) (e : tw_entry) : tw :=
  let delta := if e_expiry e >? now w then e_expiry e - now w else 0 in
  let w := place w delta e in
  {| now := now w; pending := pending w; cascades := u64 (cascades w + 1); slots := slots w;
     pool_used := pool_used w |}.
Definition cascade (w : tw) (level slot : nat) : tw :=
  let '(es, w) := take_slot w (slot_ix level slot) in
  foldl cascade_one w es.

Definition set_now (w : tw) (n : Z) : tw :=
  {| now := n; pending := pending w; cascades := cascades w; slots := slots w;
     pool_used := pool_used w |}.

(** One round of the level loop. *)
Definition cascade_level (w : tw) (l : nat) : tw :=
  if Z.land (now w) (u64 (Z.shiftl 1 (6 * Z.of_nat l)) - 1) =? 0
  then cascade w l (slot_of l (now w)) else w.

(** One entry of the swept slot: fire it, or put it back.  [out] holds the ids
    written so far. *)
Definition sweep_one (max : Z) (s : list Z * tw) (e : tw_entry) : list Z * tw :=
  let '(out, w) := s in
  if e_expiry e <=? now w then
    (if Z.of_nat (length out) <? max then out ++ [e_id e] else out,
     {| now := now w; pending := u64 (pending w - 1); cascades := cascades w; slots := slots w;
        pool_used := pool_used w |})
  else (out, place w (e_expiry e - now w) e).

(** The ids written to [out], whose number is the return value. *)
Definition tw_advance (w : tw) (max : Z) : list Z * tw :=
  let w := set_now w (u64 (now w + 1)) in
  let w := foldl cascade_level w [1; 2; 3; 4; 5]%nat in
  let '(es, w) := take_slot w (slot_ix 0 (slot_of 0 (now w))) in
  foldl (sweep_one max) ([], w) es.

Definition tw_next (w : tw) : Z :=
  foldl (fun best e => if (best =? 0) || (e_expiry e <? best) then e_expiry e else best) 0
    (concat (slots w)).

(** ** Where entries sit *)

Definition contents (w : tw) : list tw_entry := concat (slots w).
Definition pp (w : tw) : Z * nat := (pending w, pool_used w).

(** A timer to come: it is in the slot that its expiry selects at some level, and
    the clock has not yet passed it at the resolution of the level. *)
Definition ahead (n : Z) (ix : nat) (e : tw_entry) : Prop :=
  exists l, (l < TW_LEVELS)%nat /\ ix = slot_ix l (slot_of l (e_expiry e)) /\
    fits 64 (e_expiry e) /\
    e_expiry e / 64 ^ Z.of_nat l > n / 64 ^ Z.of_nat l.

(** A timer that was added at the very tick of its expiry, which [tw_add] accepts:
    its slot of level 0 has been swept already and comes round 64 ticks later. *)
Definition late (n : Z) (ix : nat) (e : tw_entry) : Prop :=
  ix = slot_ix 0 (slot_of 0 (e_expiry e)) /\ fits 64 (e_expiry e) /\
  e_expiry e <= n < e_expiry e + 64.

Definition entry_ok (n : Z) (ix : nat) (e : tw_entry) : Prop := ahead n ix e \/ late n ix e.

Record tw_wf (w : tw) : Prop := {
  wf_len : length (slots w) = (TW_LEVELS * TW_SLOTS)%nat;
  wf_entries : forall ix es e, slots w !! ix = Some es -> In e es -> entry_ok (now w) ix e;
  wf_pending : pending w = Z.of_nat (length (contents w));
  wf_pool : (length (contents w) <= pool_used w <= TW_MAX_ENTRIES)%nat }.

Lemma level_loop_spec k : forall level delta,
  (level + k = 5)%nat -> fits 64 delta -> 64 ^ Z.of_nat level <= delta \/ level = 0%nat ->
  let l := level_loop k level (64 ^ (Z.of_nat level + 1)) delta in
  (l < TW_LEVELS)%nat /\ (l = 0%nat \/ 64 ^ Z.of_nat l <= delta).
Proof.
  unfold TW_LEVELS. induction k as [|k IH]; intros level delta Hk Hd Hl; simpl.
  { split; [lia|tauto]. }
  destruct (Z.geb_spec delta (64 ^ (Z.of_nat level + 1))) as [Hge|Hlt].
  - replace (u64 (64 ^ (Z.of_nat level + 1) * 64)) with (64 ^ (Z.of_nat (S level) + 1)).
    2:{ rewrite wrap_id.
        - replace (Z.of_nat (S level) + 1) with (Z.succ (Z.of_nat level + 1)) by lia.
          rewrite Z.pow_succ_r by lia. lia.
        - unfold fits. replace (64 ^ (Z.of_nat level + 1) * 64) with (64 ^ (Z.of_nat level + 2)).
          + split; [apply Z.pow_nonneg; lia|]. apply Z.le_lt_trans with (64 ^ 6);
              [apply Z.pow_le_mono_r; lia|reflexivity].
          + replace (Z.of_nat level + 2) with (Z.succ (Z.of_nat level + 1)) by lia.
            rewrite Z.pow_succ_r by lia. lia. }
    apply (IH (S level) delta); [lia|done|].
    left. replace (Z.of_nat (S level)) with (Z.of_nat level + 1) by lia. lia.
  - split; [lia|tauto].
Qed.

Lemma level_for_spec delta :
  fits 64 delta -> (level_for delta < TW_LEVELS)%nat /\
  (level_for delta = 0%nat \/ 64 ^ Z.of_nat (level_for delta) <= delta).
Proof.
  intros Hd. apply (level_loop_spec 5 0 delta); [done|done|by right].
Qed.

Lemma slot_of_mod l e : 0 <= e -> slot_of l e = Z.to_nat ((e / 64 ^ Z.of_nat l) mod 64).
Proof.
  intros He. unfold slot_of. change 63 with (Z.ones 6). rewrite Z.land_ones by lia.
  rewrite Z.shiftr_div_pow2 by lia. rewrite Z.pow_mul_r by lia. done.
Qed.

Lemma slot_of_lt l e : (slot_of l e < TW_SLOTS)%nat.
Proof.
  unfold slot_of, TW_SLOTS. change 63 with (Z.ones 6). rewrite Z.land_ones by lia.
  pose proof (Z.mod_pos_bound (Z.shiftr e (6 * Z.of_nat l)) (2 ^ 6) ltac:(lia)) as H.
  change (2 ^ 6) with 64 in *. lia.
Qed.

Lemma slot_ix_inj l s l' s' :
  (s < TW_SLOTS)%nat -> (s' < TW_SLOTS)%nat -> slot_ix l s = slot_ix l' s' -> l = l' /\ s = s'.
Proof. unfold slot_ix, TW_SLOTS. lia. Qed.

Lemma slot_ix_lt l s : (l < TW_LEVELS)%nat -> (s < TW_SLOTS)%nat -> (slot_ix l s < TW_LEVELS * TW_SLOTS)%nat.
Proof. unfold slot_ix, TW_SLOTS, TW_LEVELS. lia. Qed.

(** An entry placed for its true distance is where it belongs, unless it is due
    right now. *)
Lemma placed_ok n e :
  fits 64 n -> fits 64 (e_expiry e) -> n <= e_expiry e ->
  let l := level_for (e_expiry e - n) in
  n = e_expiry e /\ l = 0%nat \/ ahead n (slot_ix l (slot_of l (e_expiry e))) e.
Proof.
  intros Hn He Hle l. unfold fits in *.
  destruct (level_for_spec (e_expiry e - n)) as [Hl Hd]; [unfold fits; lia|]. fold l in Hl, Hd.
  destruct (Z.eq_dec n (e_expiry e)) as [E|Hne].
  - left. split; [done|]. destruct Hd as [|Hd]; [done|]. exfalso.
    assert (0 < 64 ^ Z.of_nat l) by (apply Z.pow_pos_nonneg; lia). lia.
  - right. exists l. split; [done|]. split; [done|]. split; [done|].
    destruct Hd as [->|Hd]; [rewrite !Z.div_1_r; lia|].
    assert (0 < 64 ^ Z.of_nat l) as Hp by (apply Z.pow_pos_nonneg; lia).
    assert (n / 64 ^ Z.of_nat l + 1 <= e_expiry e / 64 ^ Z.of_nat l); [|lia].
    rewrite <- Z.div_add by lia. apply Z.div_le_mono; lia.
Qed.

(** ** Contents as multisets *)

Lemma concat_insert (ss : list (list tw_entry)) ix es es' :
  ss !! ix = Some es -> es ++ concat (<[ix := es']> ss) ≡ₚ es' ++ concat ss.
Proof.
  revert ix. induction ss as [|x ss IH]; intros [|ix] H; simpl in *; try done.
  - injection H as ->. rewrite !app_assoc. f_equiv. apply Permutation_app_comm.
  - rewrite !(Permutation_app_comm x), !app_assoc. f_equiv. by apply IH.
Qed.

Lemma place_contents w delta e :
  length (slots w) = (TW_LEVELS * TW_SLOTS)%nat -> fits 64 delta ->
  contents (place w delta e) ≡ₚ e :: contents w /\ length (slots (place w delta e)) = length (slots w).
Proof.
  intros Hl Hd. unfold contents, place. cbn [set_slots slots].
  destruct (level_for_spec delta Hd) as [Hlev _]. set (l := level_for delta) in *.
  destruct (lookup_lt_is_Some_2 (slots w) (slot_ix l (slot_of l (e_expiry e)))) as [es He].
  { rewrite Hl. apply slot_ix_lt; [done|apply slot_of_lt]. }
  rewrite (alter_insert _ _ _ _ He). split; [|by rewrite length_insert].
  pose proof (concat_insert _ _ _ (e :: es) He) as H.
  apply (Permutation_app_inv_l es). rewrite H. simpl. by rewrite Permutation_middle.
Qed.

Lemma place_lookup w delta e ix es x :
  slots (place w delta e) !! ix = Some es -> In x es ->
  (exists es', slots w !! ix = Some es' /\ In x es') \/
  (x = e /\ ix = slot_ix (level_for delta) (slot_of (level_for delta) (e_expiry e))).
Proof.
  unfold place. cbn [set_slots slots]. intros H Hx.
  destruct (decide (slot_ix (level_for delta) (slot_of (level_for delta) (e_expiry e)) = ix)) as [<-|Hne].
  - rewrite list_lookup_alter_eq in H. destruct (slots w !! _) as [es'|] eqn:E; [|done].
    injection H as <-. destruct Hx as [<-|Hx]; [by right|left; eauto].
  - rewrite list_lookup_alter_ne in H by done. left. eauto.
Qed.

Lemma take_slot_contents w ix :
  (ix < length (slots w))%nat -> let '(es, w') := take_slot w ix in
  contents w ≡ₚ es ++ contents w' /\ length (slots w') = length (slots w) /\
  slots w !! ix = Some es /\ now w' = now w /\ pp w' = pp w.
Proof.
  intros Hix. destruct (lookup_lt_is_Some_2 _ _ Hix) as [es He]. unfold take_slot, contents.
  rewrite He. cbn [default slots set_slots now]. rewrite length_insert.
  split; [|done]. by rewrite (concat_insert _ _ _ [] He).
Qed.

Lemma take_slot_lookup w ix jx es x :
  (ix < length (slots w))%nat -> slots (take_slot w ix).2 !! jx = Some es -> In x es ->
  jx <> ix /\ slots w !! jx = Some es.
Proof.
  intros Hix. unfold take_slot. cbn [snd slots set_slots]. intros H Hx.
  destruct (decide (jx = ix)) as [->|Hne].
  - rewrite list_lookup_insert_eq in H by done. by injection H as <-.
  - rewrite list_lookup_insert_ne in H by done. done.
Qed.

(** ** One tick *)

(** Between the rounds of the level loop at the tick [n], levels [1 .. k) have
    been cascaded; an entry due now is at level 0. *)
Definition mid_ok (n : Z) (k ix : nat) (e : tw_entry) : Prop :=
  late (n - 1) ix e \/
  exists l, (l < TW_LEVELS)%nat /\ ix = slot_ix l (slot_of l (e_expiry e)) /\ fits 64 (e_expiry e) /\
    let E := e_expiry e / 64 ^ Z.of_nat l in
    (l = 0%nat -> n <= e_expiry e) /\
    ((1 <= l < k)%nat -> E > n / 64 ^ Z.of_nat l) /\
    ((k <= l)%nat -> E > (n - 1) / 64 ^ Z.of_nat l).

Definition mid_wf (w : tw) (k : nat) : Prop :=
  length (slots w) = (TW_LEVELS * TW_SLOTS)%nat /\
  forall ix es e, slots w !! ix = Some es -> In e es -> mid_ok (now w) k ix e.

Lemma placed_mid n k e :
  (1 <= k)%nat -> fits 64 n -> fits 64 (e_expiry e) -> n <= e_expiry e ->
  let l := level_for (e_expiry e - n) in mid_ok n k (slot_ix l (slot_of l (e_expiry e))) e.
Proof.
  intros Hk Hn He Hle l. destruct (placed_ok n e Hn He Hle) as [[E E0]|(l' & Hl' & Hix & _ & Hgt)].
  - fold l in E0. rewrite E0. right. exists 0%nat. unfold TW_LEVELS. split; [lia|]. split; [done|]. split; [done|].
    split; [lia|]. split; lia.
  - fold l in Hix. right. exists l'. split; [done|]. split; [done|]. split; [done|].
    assert (0 < 64 ^ Z.of_nat l') as Hp by (apply Z.pow_pos_nonneg; lia).
    assert ((n - 1) / 64 ^ Z.of_nat l' <= n / 64 ^ Z.of_nat l') by (apply Z.div_le_mono; lia).
    cbn zeta. split; [lia|]. split; lia.
Qed.

Lemma cascade_all w k es :
  (1 <= k)%nat -> mid_wf w k -> fits 64 (now w) ->
  (forall e, In e es -> now w <= e_expiry e /\ fits 64 (e_expiry e)) ->
  let w' := foldl cascade_one w es in
  mid_wf w' k /\ contents w' ≡ₚ es ++ contents w /\ now w' = now w /\ pp w' = pp w.
Proof.
  intros Hk. revert w. induction es as [|e es IH]; intros w [Hl Hw] Hn Hes; simpl; [done|].
  destruct (Hes e) as [Hle He]; [by left|].
  assert (cascade_one w e = {| now := now w; pending := pending w; cascades := u64 (cascades w + 1);
    slots := slots (place w (e_expiry e - now w) e); pool_used := pool_used w |}) as E.
  { unfold cascade_one. replace (if e_expiry e >? now w then e_expiry e - now w else 0)
      with (e_expiry e - now w); [done|]. destruct (Z.gtb_spec (e_expiry e) (now w)); lia. }
  rewrite E. set (w1 := {| now := now w |}).
  unfold fits in Hn, He.
  destruct (place_contents w (e_expiry e - now w) e Hl ltac:(unfold fits; lia)) as [Hc1 Hl1].
  destruct (IH w1) as (H1 & H2 & H3 & H4); [|done|intros x Hx; apply Hes; by right|].
  { split; [by rewrite <- Hl; exact Hl1|]. intros ix es' x Hix Hx.
    destruct (place_lookup w (e_expiry e - now w) e ix es' x Hix Hx) as [(es2 & ? & ?)|[-> ->]].
    - by eapply Hw.
    - by apply placed_mid. }
  split; [exact H1|]. split; [|by split]. rewrite H2. change (contents w1) with (contents (place w (e_expiry e - now w) e)).
  rewrite Hc1. symmetry. apply Permutation_middle.
Qed.

Lemma boundary_test n l :
  (l < TW_LEVELS)%nat -> 0 <= n ->
  (Z.land n (u64 (Z.shiftl 1 (6 * Z.of_nat l)) - 1) =? 0) = (n mod 64 ^ Z.of_nat l =? 0).
Proof.
  intros Hl Hn. unfold TW_LEVELS in Hl. rewrite wrap_id.
  - rewrite Z.shiftl_1_l.
    replace (2 ^ (6 * Z.of_nat l) - 1) with (Z.ones (6 * Z.of_nat l)) by (rewrite Z.ones_equiv; lia).
    rewrite Z.land_ones by lia. by rewrite Z.pow_mul_r by lia.
  - rewrite Z.shiftl_1_l. unfold fits. split; [apply Z.pow_nonneg; lia|]. apply Z.pow_lt_mono_r; lia.
Qed.

Lemma cascade_level_ok w k :
  (1 <= k < TW_LEVELS)%nat -> mid_wf w k -> 1 <= now w -> fits 64 (now w) ->
  let w' := cascade_level w k in
  mid_wf w' (S k) /\ contents w' ≡ₚ contents w /\ now w' = now w /\ pp w' = pp w.
Proof.
  intros Hk [Hl Hw] H1 Hn. set (n := now w) in *. cbn zeta.
  assert (0 < 64 ^ Z.of_nat k) as Hp by (apply Z.pow_pos_nonneg; lia).
  set (P := 64 ^ Z.of_nat k) in *.
  pose proof (Z.div_mod n P ltac:(lia)) as Dn. pose proof (Z.mod_pos_bound n P Hp) as Mn.
  pose proof (Z.div_mod (n - 1) P ltac:(lia)) as Dm. pose proof (Z.mod_pos_bound (n - 1) P Hp) as Mm.
  unfold cascade_level. fold n. rewrite boundary_test by lia. fold P.
  destruct (Z.eqb_spec (n mod P) 0) as [Hz|Hz].
  - assert (n / P = (n - 1) / P + 1) as Hstep.
    { assert ((n - 1) / P = n / P - 1); [|lia].
      symmetry. apply (Z.div_unique _ _ _ (P - 1)); lia. }
    unfold cascade. set (ix := slot_ix k (slot_of k n)).
    assert (ix < length (slots w))%nat as Hix by (rewrite Hl; apply slot_ix_lt; [lia|apply slot_of_lt]).
    pose proof (take_slot_contents w ix Hix) as Ht. pose proof (take_slot_lookup w ix) as Hlk.
    destruct (take_slot w ix) as [es w1]. destruct Ht as (Hc & Hl1 & Hes & Hn1 & Hp1). cbn [snd] in Hlk.
    assert (forall e, In e es -> n <= e_expiry e /\ fits 64 (e_expiry e)) as Hdue.
    { intros e He. destruct (Hw _ _ _ Hes He) as [(E & _)|(l & Hll & E & Hf & _ & _ & Hgt)].
      { apply slot_ix_inj in E as [E _]; [lia|apply slot_of_lt..]. }
      apply slot_ix_inj in E as [-> E]; [|apply slot_of_lt..]. split; [|done].
      specialize (Hgt ltac:(lia)). fold P in Hgt.
      pose proof (Z.mul_div_le (e_expiry e) P Hp). nia. }
    assert (mid_wf w1 (S k)) as Hw1.
    { split; [congruence|]. intros jx es' e Hj He.
      destruct (Hlk jx es' e Hix Hj He) as [Hne Hj']. rewrite Hn1.
      destruct (Hw _ _ _ Hj' He) as [Hlate|(l & Hll & E & Hf & H0 & Hlt & Hge)]; [by left|right].
      exists l. split; [done|]. split; [done|]. split; [done|]. cbn zeta. split; [done|]. split.
      - intros Hlk'. destruct (decide (l = k)) as [->|]; [|apply Hlt; lia].
        fold P. fold n. fold P in Hge. specialize (Hge ltac:(lia)). fold n in Hge.
        assert (e_expiry e / P <> n / P); [|lia]. intros Eq. apply Hne. unfold ix. rewrite E.
        f_equal. unfold fits in *. rewrite !slot_of_mod by lia. fold P. by rewrite Eq.
      - intros ?. apply Hge. lia. }
    destruct (cascade_all w1 (S k) es) as (R1 & R2 & R3 & R4); [lia|done|by rewrite Hn1|by rewrite Hn1|].
    split; [exact R1|]. split; [by rewrite R2, <- Hc|].
    split; [exact (eq_trans R3 Hn1)|exact (eq_trans R4 Hp1)].
  - assert (n / P = (n - 1) / P) as Hstep.
    { assert ((n - 1) mod P + 1 <> P) as Hne.
      { intros Heq. apply Hz. symmetry. apply (Z.mod_unique _ _ ((n - 1) / P + 1)); lia. }
      symmetry. apply (Z.div_unique _ _ _ ((n - 1) mod P + 1)); lia. }
    split; [|done]. split; [done|]. intros ix es e Hi He.
    destruct (Hw _ _ _ Hi He) as [Hlate|(l & Hll & E & Hf & H0 & Hlt & Hge)]; [by left|right].
    exists l. split; [done|]. split; [done|]. split; [done|]. cbn zeta. split; [done|]. split.
    + intros ?. destruct (decide (l = k)) as [->|]; [|apply Hlt; lia].
      fold P. fold P in Hge. fold n. specialize (Hge ltac:(lia)). fold n in Hge. lia.
    + intros ?. apply Hge. lia.
Qed.


Lemma cascade_levels_ok m : forall k w,
  (1 <= k)%nat -> (k + m = TW_LEVELS)%nat -> mid_wf w k -> 1 <= now w -> fits 64 (now w) ->
  let w' := foldl cascade_level w (seq k m) in
  mid_wf w' TW_LEVELS /\ contents w' ≡ₚ contents w /\ now w' = now w /\ pp w' = pp w.
Proof.
  induction m as [|m IH]; intros k w Hk Hkm Hw H1 Hf; cbn [seq foldl].
  { replace TW_LEVELS with k by lia. done. }
  destruct (cascade_level_ok w k ltac:(lia) Hw H1 Hf) as (R1 & R2 & R3 & R4).
  destruct (IH (S k) (cascade_level w k)) as (S1 & S2 & S3 & S4); [lia|lia|done|lia|by rewrite R3|].
  split; [exact S1|]. split; [by rewrite S2|]. split; congruence.
Qed.

(** ** Firing *)

(** The timers a tick to [n] fires: those due then, and those that were added at
    the tick of their expiry, 64 ticks before. *)
Definition fires_at (n : Z) (e : tw_entry) : Prop := e_expiry e = n \/ e_expiry e + 64 = n.

Lemma sweep_all max es : forall w out,
  length (slots w) = (TW_LEVELS * TW_SLOTS)%nat -> fits 64 (now w) ->
  (forall ix es' e, slots w !! ix = Some es' -> In e es' -> entry_ok (now w) ix e) ->
  (forall ix es' e, slots w !! ix = Some es' -> In e es' -> e_expiry e <> now w) ->
  (forall e, In e es -> fits 64 (e_expiry e)) ->
  pending w = Z.of_nat (length (es ++ contents w)) ->
  (length (es ++ contents w) <= pool_used w <= TW_MAX_ENTRIES)%nat ->
  let '(out', w') := foldl (sweep_one max) (out, w) es in
  exists due, due = filter (fun e => e_expiry e <= now w) es /\
  tw_wf w' /\ now w' = now w /\ (forall e, e ∈ contents w' -> e_expiry e <> now w) /\ es ++ contents w ≡ₚ due ++ contents w' /\
  out' = out ++ take (Z.to_nat (max - Z.of_nat (length out))) (e_id <$> due).
Proof.
  induction es as [|e es IH]; intros w out Hl Hn Hw Hnd Hes Hpe Hpo; cbn [foldl].
  { exists []. cbn [fmap list_fmap app filter]. rewrite firstn_nil, app_nil_r.
    split_and!; try done. intros x Hx. unfold contents in Hx. apply list_elem_of_In, in_concat in Hx as (es & Hes' & Hx).
    apply list_elem_of_In, list_elem_of_lookup in Hes' as [ix Hix]. by eapply Hnd. }
  pose proof (Hes e (or_introl eq_refl)) as He. cbn [sweep_one app length] in *. unfold TW_MAX_ENTRIES in Hpo.
  destruct (Z.leb_spec (e_expiry e) (now w)) as [Hd|Hd].
  - match goal with |- context [foldl _ (?o, ?x) _] => set (out1 := o); set (w1 := x) end.
    assert (pending w1 = Z.of_nat (length (es ++ contents w1))) as Hpe1.
    { unfold w1. cbn [pending contents slots]. rewrite Hpe. fold (contents w).
      change (contents _) with (contents w). rewrite wrap_id; [lia|]. unfold fits. lia. }
    specialize (IH w1 out1 Hl Hn Hw Hnd ltac:(intros x Hx; apply Hes; by right) Hpe1
      ltac:(change (contents w1) with (contents w); unfold TW_MAX_ENTRIES; cbn [w1 pool_used]; lia)).
    destruct (foldl _ (out1, w1) es) as [out' w']. destruct IH as (due & -> & R1 & R2 & Rn & R3 & R4).
    exists (e :: filter (fun e => e_expiry e <= now w1) es).
    split; [by rewrite filter_cons_True|]. split; [done|]. split; [done|]. split; [done|].
    split; [cbn [app]; by constructor|]. rewrite R4. unfold out1.
    cbn [fmap list_fmap].
    destruct (Z.ltb_spec (Z.of_nat (length out)) max).
    + rewrite length_app, <- app_assoc. cbn [length app]. f_equal.
      replace (Z.to_nat (max - Z.of_nat (length out)))
        with (S (Z.to_nat (max - Z.of_nat (length out + 1)))) by lia. done.
    + by replace (Z.to_nat (max - Z.of_nat (length out))) with 0%nat by lia.
  - unfold fits in Hn, He.
    destruct (place_contents w (e_expiry e - now w) e Hl ltac:(unfold fits; lia)) as [Hc1 Hl1].
    set (w1 := place w (e_expiry e - now w) e) in *.
    assert (length (es ++ contents w1) = S (length (es ++ contents w))) as Hlen
      by (rewrite !length_app, Hc1; simpl; lia).
    specialize (IH w1 out ltac:(by rewrite Hl1) ltac:(done)).
    destruct (foldl _ (out, w1) es) as [out' w']. destruct IH as (due & -> & R1 & R2 & Rn & R3 & R4).
    { intros ix es' x Hix Hx.
      destruct (place_lookup w (e_expiry e - now w) e ix es' x Hix Hx) as [(es2 & ? & ?)|[-> ->]];
        [by eapply Hw|].
      left. destruct (placed_ok (now w) e) as [[? _]|]; [done|done|lia|lia|done]. }
    { intros ix es' x Hix Hx.
      destruct (place_lookup w (e_expiry e - now w) e ix es' x Hix Hx) as [(es2 & ? & ?)|[-> ->]];
        [by eapply Hnd|]. change (now w1) with (now w). lia. }
    { intros x Hx. apply Hes. by right. }
    { rewrite Hlen. exact Hpe. }
    { rewrite Hlen. unfold TW_MAX_ENTRIES. exact Hpo. }
    exists (filter (fun e => e_expiry e <= now w) es). split; [rewrite filter_cons_False; [done|lia]|].
    split; [done|]. split; [done|]. split; [done|]. split; [|exact R4].
    change (now w1) with (now w) in R3. rewrite <- R3, Hc1. apply Permutation_middle.
Qed.

Lemma mid_of_wf w : tw_wf w -> fits 64 (now w + 1) -> mid_wf (set_now w (u64 (now w + 1))) 1.
Proof.
  intros [Hl Hw _ _] Hf. rewrite wrap_id by done. split; [done|].
  intros ix es e Hi He. destruct (Hw ix es e Hi He) as [(l & Hll & E & Hfe & Hgt)|Hlate].
  2:{ left. cbn [now set_now]. by replace (now w + 1 - 1) with (now w) by lia. }
  right. exists l. split; [done|]. split; [done|]. split; [done|]. cbn [now set_now].
  replace (now w + 1 - 1) with (now w) by lia. cbn zeta. split; [|split; [lia|done]].
  intros ->. change (64 ^ Z.of_nat 0) with 1 in Hgt. rewrite !Z.div_1_r in Hgt. lia.
Qed.

Lemma wf_contents w e : tw_wf w -> e ∈ contents w -> exists ix, entry_ok (now w) ix e.
Proof.
  intros Hwf He. unfold contents in He. apply list_elem_of_In, in_concat in He as (es & Hes & He).
  apply list_elem_of_In, list_elem_of_lookup in Hes as [ix Hix]. exists ix. by eapply wf_entries.
Qed.

(** A timer of the wheel is to come, or was added at the tick of its expiry and is
    less than 64 ticks behind. *)
Lemma wf_range w e : tw_wf w -> e ∈ contents w -> now w < e_expiry e + 64.
Proof.
  intros Hwf He. destruct (wf_contents w e Hwf He) as (ix & [(l & _ & _ & _ & Hgt)|(_ & _ & Hle)]); [|lia].
  assert (0 < 64 ^ Z.of_nat l) as Hp by (apply Z.pow_pos_nonneg; lia).
  destruct (Z.le_gt_cases (e_expiry e) (now w)) as [Hle|]; [|lia].
  apply (Z.div_le_mono _ _ _ Hp) in Hle. lia.
Qed.

Lemma tick_spec w max :
  tw_wf w -> 0 <= now w -> now w + 1 < 2 ^ 64 ->
  let '(out, w') := tw_advance w max in
  tw_wf w' /\ now w' = now w + 1 /\
  exists due, contents w ≡ₚ due ++ contents w' /\
    Forall (fires_at (now w + 1)) due /\ Forall (fun e => ~ fires_at (now w + 1) e) (contents w') /\
    out = take (Z.to_nat max) (e_id <$> due).
Proof.
  intros Hwf H0 Hlt. assert (fits 64 (now w + 1)) as Hf by (unfold fits; lia).
  pose proof (mid_of_wf w Hwf Hf) as Hmid. unfold tw_advance.
  rewrite wrap_id in * by done. set (w0 := set_now w (now w + 1)) in *.
  change [1; 2; 3; 4; 5]%nat with (seq 1 5).
  destruct (cascade_levels_ok 5 1 w0) as ([Hl1 Hw1] & Hc1 & Hn1 & Hp1); [lia|done|done|simpl; lia|done|].
  set (w1 := foldl cascade_level w0 (seq 1 5)) in *. clearbody w1.
  set (ix := slot_ix 0 (slot_of 0 (now w1))).
  assert (ix < length (slots w1))%nat as Hix
    by (rewrite Hl1; apply slot_ix_lt; [unfold TW_LEVELS; lia|apply slot_of_lt]).
  pose proof (take_slot_contents w1 ix Hix) as Ht. pose proof (take_slot_lookup w1 ix) as Hlk.
  destruct (take_slot w1 ix) as [es w2]. destruct Ht as (Hc2 & Hl2 & Hes & Hn2 & Hp2). cbn [snd] in Hlk.
  assert (now w2 = now w + 1) as Hnow by (rewrite Hn2, Hn1; done).
  assert (es ++ contents w2 ≡ₚ contents w) as Hperm by (rewrite <- Hc2; exact Hc1).
  unfold pp in *. destruct Hwf as [_ _ Hpe Hpo].
  assert (pending w2 = pending w /\ pool_used w2 = pool_used w) as [Ep Eu].
  { injection Hp1 as A B. injection Hp2 as C D. split; [exact (eq_trans C A)|exact (eq_trans D B)]. }
  pose proof (sweep_all max es w2 []) as Hs. rewrite Hnow, Ep, Eu in Hs.
  destruct (foldl (sweep_one max) ([], w2) es) as [out w'].
  (* an entry of level 0 at the tick: ahead of it, or 64 ticks behind it if it is in the swept slot *)
  assert (forall jx es' e, slots w1 !! jx = Some es' -> In e es' -> jx <> ix ->
            entry_ok (now w + 1) jx e /\ e_expiry e <> now w + 1) as Hstay.
  { intros jx es' e Hj' He Hne.
    assert (e_expiry e = now w + 1 -> jx <> slot_ix 0 (slot_of 0 (e_expiry e))) as Hslot.
    { intros Eq Ej. apply Hne. unfold ix. rewrite Ej, Eq, Hn1. done. }
    destruct (Hw1 _ _ _ Hj' He) as [(Ej & Hfe & Hle)|(l & Hll & Ej & Hfe & Hz & Hm & _)]; rewrite Hn1 in *;
      change (now w0) with (now w + 1) in *.
    - split; [right; split; [done|split; [done|]]|intros Eq; by apply Hslot].
      assert (e_expiry e + 64 <> now w + 1); [|lia]. intros Eq. apply Hne. unfold ix. rewrite Ej, Hn1.
      change (now w0) with (now w + 1). rewrite <- Eq. f_equal. unfold fits in Hfe. rewrite !slot_of_mod by lia.
      change (64 ^ Z.of_nat 0) with 1. rewrite !Z.div_1_r. replace (e_expiry e + 64) with (e_expiry e + 1 * 64) by lia. by rewrite Z.mod_add.
    - assert (e_expiry e <> now w + 1) as Hx.
      { intros Eq. destruct (decide (l = 0%nat)) as [->|Hl0]; [by apply Hslot|].
        specialize (Hm ltac:(unfold TW_LEVELS in *; lia)). rewrite Eq in Hm. lia. }
      split; [|done]. left. exists l. split; [done|]. split; [done|]. split; [done|].
      destruct (decide (l = 0%nat)) as [->|]; [|apply Hm; lia].
      specialize (Hz eq_refl). change (64 ^ Z.of_nat 0) with 1. rewrite !Z.div_1_r. lia. }
  assert (forall e, In e es -> fits 64 (e_expiry e) /\ (e_expiry e <= now w + 1 -> fires_at (now w + 1) e)) as Hdue.
  { intros e He. destruct (Hw1 _ _ _ Hes He) as [(E & Hfe & Hle)|(l & Hll & E & Hfe & Hz & _)]; (split; [done|]); intros Hd;
      rewrite Hn1 in *; change (now w0) with (now w + 1) in *.
    - right. apply slot_ix_inj in E as [_ E]; [|apply slot_of_lt..]. rewrite Hn1 in E. change (now w0) with (now w + 1) in E.
      unfold fits in Hfe. rewrite !slot_of_mod in E by lia. change (64 ^ Z.of_nat 0) with 1 in E. rewrite !Z.div_1_r in E.
      pose proof (Z.mod_pos_bound (e_expiry e) 64 ltac:(lia)). pose proof (Z.mod_pos_bound (now w + 1) 64 ltac:(lia)).
      pose proof (Z.div_mod (e_expiry e) 64 ltac:(lia)). pose proof (Z.div_mod (now w + 1) 64 ltac:(lia)). lia.
    - left. apply slot_ix_inj in E as [E _]; [|apply slot_of_lt..]. specialize (Hz (eq_sym E)). lia. }
  destruct Hs as (due & Edue & R1 & R2 & Rn & R3 & R4).
  - congruence.
  - done.
  - intros jx es' e Hj He. destruct (Hlk jx es' e Hix Hj He) as [Hne Hj']. by apply (Hstay jx es' e).
  - intros jx es' e Hj He. destruct (Hlk jx es' e Hix Hj He) as [Hne Hj']. by apply (Hstay jx es' e).
  - intros e He. by apply Hdue.
  - rewrite Hpe. f_equal. by rewrite Hperm.
  - by rewrite Hperm.
  - split; [done|]. split; [by rewrite R2|]. exists due. split; [by rewrite <- R3, Hperm|].
    split; [|split; [|by rewrite R4, Z.sub_0_r]].
    + rewrite Edue. apply Forall_forall. intros e He. apply list_elem_of_filter in He as [Hle He].
      by apply Hdue; [apply list_elem_of_In|].
    + apply Forall_forall. intros e He [Hf'|Hf']; [by eapply Rn|].
      apply (wf_contents _ _ R1) in He as (jx & [(l & _ & _ & _ & Hgt)|(_ & _ & Hle)]); rewrite R2 in *; [|lia].
      assert (0 < 64 ^ Z.of_nat l) as Hp by (apply Z.pow_pos_nonneg; lia).
      assert (e_expiry e <= now w + 1) as Hle by lia. apply (Z.div_le_mono _ _ _ Hp) in Hle. lia.
Qed.

Lemma init_wf : tw_wf tw_init.
Proof.
  constructor; [reflexivity| |reflexivity|vm_compute; lia].
  intros ix es e H. unfold tw_init in H. cbn [slots] in H.
  by apply lookup_replicate_1 in H as [-> _].
Qed.

Lemma add_spec w id expiry :
  tw_wf w -> fits 64 (now w) -> now w <= expiry -> fits 64 expiry -> (pool_used w < TW_MAX_ENTRIES)%nat ->
  let '(rc, w') := tw_add w id expiry in
  rc = 0 /\ tw_wf w' /\ now w' = now w /\
  contents w' ≡ₚ {| e_id := id; e_expiry := expiry |} :: contents w.
Proof.
  intros [Hl Hw Hpe Hpo] Hn Hlt Hf Hpool. unfold tw_add.
  destruct (Z.ltb_spec expiry (now w)); [lia|]. rewrite decide_False by lia.
  set (e := {| e_id := id; e_expiry := expiry |}). unfold fits in Hn, Hf.
  destruct (place_contents w (expiry - now w) e Hl ltac:(unfold fits; lia)) as [Hc Hl'].
  split; [done|]. split; [|done].
  assert (length (contents (place w (expiry - now w) e)) = S (length (contents w))) as Hlen by (by rewrite Hc).
  constructor; cbn [slots now pending pool_used].
  - by rewrite Hl'.
  - intros ix es x Hix Hx.
    destruct (place_lookup w (expiry - now w) e ix es x Hix Hx) as [(es2 & ? & ?)|[-> ->]]; [by eapply Hw|].
    destruct (placed_ok (now w) e) as [[Eq E0]|]; [done|done|simpl; lia| |by left].
    right. split; [|split; [done|simpl in *; lia]]. change (expiry - now w) with (e_expiry e - now w). by rewrite E0.
  - change (pending (place w (expiry - now w) e)) with (pending w).
    etransitivity; [|symmetry; exact (f_equal Z.of_nat Hlen)]. unfold TW_MAX_ENTRIES in *.
    rewrite Hpe, wrap_id; [lia|]. unfold fits. lia.
  - change (contents _) with (contents (place w (expiry - now w) e)). rewrite Hlen.
    change (pool_used (place w (expiry - now w) e)) with (pool_used w). lia.
Qed.

(** Every operation keeps the wheel in order: [tw_add] accepts exactly the expiries
    not before the current tick while the pool has room, and then the timer is in the
    wheel; otherwise it reports -1 and changes nothing. *)
Theorem tw_add_keeps_wheel w id expiry :
  tw_wf w -> fits 64 (now w) -> fits 64 expiry ->
  let '(rc, w') := tw_add w id expiry in
  tw_wf w' /\ now w' = now w /\
  if decide (now w <= expiry /\ (pool_used w < TW_MAX_ENTRIES)%nat)
  then rc = 0 /\ contents w' ≡ₚ {| e_id := id; e_expiry := expiry |} :: contents w
  else rc = -1 /\ w' = w.
Proof.
  intros Hwf Hn Hf. case_decide as Hd.
  - pose proof (add_spec w id expiry Hwf Hn) as H. destruct (tw_add w id expiry) as [rc w'].
    destruct H as (H1 & H2 & H3 & H4); [lia|done|lia|done].
  - unfold tw_add. destruct (Z.ltb_spec expiry (now w)); [done|].
    rewrite decide_True; [done|]. destruct (decide (TW_MAX_ENTRIES <= pool_used w)%nat); [done|]. destruct Hd. split; lia.
Qed.

(** The wheels that the operations can produce before the clock wraps. *)
Inductive tw_reached : tw -> Prop :=
  | reached_init : tw_reached tw_init
  | reached_add w id expiry : tw_reached w -> fits 64 expiry -> tw_reached (tw_add w id expiry).2
  | reached_tick w max : tw_reached w -> now w + 1 < 2 ^ 64 -> tw_reached (tw_advance w max).2.

Theorem tw_reached_wf w : tw_reached w -> tw_wf w /\ fits 64 (now w).
Proof.
  induction 1 as [|w id expiry _ [Hwf Hn] Hf|w max _ [Hwf Hn] Hlt].
  - split; [apply init_wf|]. unfold fits. cbn. lia.
  - unfold tw_add. destruct (Z.ltb_spec expiry (now w)); [done|]. case_decide; [done|].
    pose proof (add_spec w id expiry Hwf Hn) as H'. unfold tw_add in H'.
    destruct (Z.ltb_spec expiry (now w)); [lia|]. rewrite decide_False in H' by done.
    destruct H' as (_ & Hw' & _); [lia|done|lia|]. split; [exact Hw'|exact Hn].
  - unfold fits in Hn. pose proof (tick_spec w max Hwf ltac:(lia) Hlt) as H. destruct (tw_advance w max) as [out w'].
    destruct H as (H1 & H2 & _). cbn [snd]. split; [done|]. rewrite H2. unfold fits. lia.
Qed.

(** C30. One tick fires exactly what it should, and says so up to [max].  In any
    wheel that the operations can produce, the timers that leave it are exactly those
    whose expiry is the new time, and those that were added at the very tick of their
    expiry 64 ticks before ([tw_due_now_fires_64_late]); every other timer stays.  The
    ids written are those of the first [max] of them: the others are removed without
    being reported.  The wheel stays in order, with [pending] its number of timers. *)
Theorem tw_advance_fires_exactly_due w max :
  tw_wf w -> 0 <= now w -> now w + 1 < 2 ^ 64 ->
  let '(out, w') := tw_advance w max in
  tw_wf w' /\ now w' = now w + 1 /\ pending w' = Z.of_nat (length (contents w')) /\
  exists fired, contents w ≡ₚ fired ++ contents w' /\
    Forall (fires_at (now w + 1)) fired /\ Forall (fun e => ~ fires_at (now w + 1) e) (contents w') /\
    out = take (Z.to_nat max) (e_id <$> fired).
Proof.
  intros Hwf H0 Hlt. pose proof (tick_spec w max Hwf H0 Hlt) as H.
  destruct (tw_advance w max) as [out w']. destruct H as (H1 & H2 & H3).
  split_and!; [done|done|by apply wf_pending|done].
Qed.

(** A wheel with timers 10, 11 and 12 due at ticks 3, 70 and 70. *)
Definition wheel3 : tw :=
  (tw_add (tw_add (tw_add tw_init 10 3).2 11 70).2 12 70).2.

Lemma wheel3_wf : tw_wf wheel3.
Proof.
  unfold wheel3. pose proof (add_spec tw_init 10 3 init_wf ltac:(unfold fits; simpl; lia)
    ltac:(simpl; lia) ltac:(unfold fits; lia) ltac:(vm_compute; lia)) as H1.
  destruct (tw_add tw_init 10 3) as [r1 w1] eqn:E1. destruct H1 as (_ & H1 & N1 & _). cbn [snd].
  assert (pool_used w1 = 1%nat) as P1 by (injection E1 as _ <-; reflexivity).
  pose proof (add_spec w1 11 70 H1) as H2. rewrite N1, P1 in H2.
  specialize (H2 ltac:(unfold fits; simpl; lia) ltac:(simpl; lia) ltac:(unfold fits; lia) ltac:(vm_compute; lia)).
  destruct (tw_add w1 11 70) as [r2 w2] eqn:E2. destruct H2 as (_ & H2 & N2 & _). cbn [snd].
  assert (pool_used w2 = 2%nat) as P2 by (injection E1 as _ <-; injection E2 as _ <-; reflexivity).
  pose proof (add_spec w2 12 70 H2) as H3. rewrite N2, P2 in H3.
  specialize (H3 ltac:(unfold fits; simpl; lia) ltac:(simpl; lia) ltac:(unfold fits; lia) ltac:(vm_compute; lia)).
  destruct (tw_add w2 12 70) as [r3 w3]. by destruct H3 as (_ & H3 & _).
Qed.

Lemma tw_advance_fires_exactly_due_witness :
  tw_wf (tw_advance wheel3 16).2 /\ now (tw_advance wheel3 16).2 = 1.
Proof.
  pose proof (tw_advance_fires_exactly_due wheel3 16 wheel3_wf ltac:(vm_compute; congruence)
    ltac:(vm_compute; reflexivity)) as H.
  destruct (tw_advance wheel3 16) as [out w']. destruct H as (H1 & H2 & _).
  split; [exact H1|]. exact H2.
Defined.

(** [k] ticks. *)
Fixpoint ticks (k : nat) (max : Z) (w : tw) : tw :=
  match k with O => w | S k => ticks k max (tw_advance w max).2 end.

Lemma ticks_keep k : forall max w e,
  tw_wf w -> 0 <= now w -> now w + Z.of_nat k < 2 ^ 64 -> e ∈ contents w ->
  now w + Z.of_nat k < e_expiry e ->
  tw_wf (ticks k max w) /\ now (ticks k max w) = now w + Z.of_nat k /\ e ∈ contents (ticks k max w) /\
  (length (contents (ticks k max w)) <= length (contents w))%nat.
Proof.
  induction k as [|k IH]; intros max w e Hwf H0 Hlt He Hexp; cbn [ticks].
  { rewrite Z.add_0_r. done. }
  pose proof (tick_spec w max Hwf H0 ltac:(lia)) as H.
  destruct (tw_advance w max) as [out w']. destruct H as (H1 & H2 & due & Hp & Hdue & _ & _). cbn [snd].
  assert (e ∈ contents w') as He'.
  { rewrite Hp in He. apply elem_of_app in He as [He|]; [|done].
    rewrite Forall_forall in Hdue. specialize (Hdue e He). unfold fires_at in Hdue. lia. }
  destruct (IH max w' e H1 ltac:(lia) ltac:(lia) He' ltac:(lia)) as (R1 & R2 & R3 & R4).
  split; [done|]. split; [lia|]. split; [done|]. rewrite Hp, length_app. lia.
Qed.

(** C39. A timer to come fires on time, whatever its distance.  In any wheel that the
    operations can produce, a timer whose expiry is after the current tick stays in
    the wheel through every earlier tick, and the tick that reaches its expiry writes
    its id and removes it, provided the caller's array has room for every timer of
    the wheel ([max] at least their number; beyond [max] a due timer is removed
    unreported).  A timer added at the tick of its own expiry is not covered: it fires
    64 ticks later. *)
Theorem tw_timer_fires_on_time w e max :
  tw_wf w -> 0 <= now w -> fits 64 (e_expiry e) -> e ∈ contents w -> now w < e_expiry e ->
  Z.of_nat (length (contents w)) <= max ->
  let k := Z.to_nat (e_expiry e - now w - 1) in
  (forall j, (j <= k)%nat -> e ∈ contents (ticks j max w)) /\
  let '(out, w') := tw_advance (ticks k max w) max in
  now w' = e_expiry e /\ e_id e ∈ out /\ e ∉ contents w'.
Proof.
  intros Hwf H0 Hf He Hfut Hmax k. unfold fits in Hf.
  split.
  { intros j Hj. apply ticks_keep; try done; unfold k in Hj; lia. }
  destruct (ticks_keep k max w e Hwf H0 ltac:(lia) He ltac:(lia)) as (R1 & R2 & R3 & R4).
  pose proof (tick_spec (ticks k max w) max R1 ltac:(lia) ltac:(lia)) as H.
  destruct (tw_advance (ticks k max w) max) as [out w']. destruct H as (H1 & H2 & due & Hp & Hdue & Hrest & ->).
  assert (now w' = e_expiry e) as Hnow by lia. split; [done|].
  assert (e ∉ contents w') as Hnot.
  { intros Hin. rewrite Forall_forall in Hrest. apply (Hrest e Hin). left. lia. }
  split; [|done]. rewrite Hp in R3. apply elem_of_app in R3 as [R3|]; [|done].
  rewrite take_ge; [by apply list_elem_of_fmap_2|]. rewrite length_fmap.
  rewrite Hp, length_app in R4. lia.
Qed.

Lemma tw_timer_fires_on_time_witness :
  let '(out, w') := tw_advance (ticks 69 16 wheel3) 16 in now w' = 70 /\ 12 ∈ out.
Proof.
  pose proof (tw_timer_fires_on_time wheel3 {| e_id := 12; e_expiry := 70 |} 16 wheel3_wf
    ltac:(vm_compute; congruence) ltac:(unfold fits; simpl; lia)
    ltac:(apply (bool_decide_unpack _); vm_compute; exact I) ltac:(vm_compute; reflexivity)
    ltac:(vm_compute; congruence)) as [_ H].
  change (Z.to_nat (e_expiry {| e_id := 12; e_expiry := 70 |} - now wheel3 - 1)) with 69%nat in H.
  destruct (tw_advance (ticks 69 16 wheel3) 16) as [out w']. destruct H as (H1 & H2 & _).
  split; [exact H1|exact H2].
Defined.

(** The earliest expiry, or 0 for an empty wheel, when no timer has expiry 0 (which
    stands for none). *)
Theorem tw_next_is_earliest w :
  (forall e, e ∈ contents w -> 0 < e_expiry e) ->
  (contents w = [] /\ tw_next w = 0) \/
  ((exists e, e ∈ contents w /\ e_expiry e = tw_next w) /\
   forall e, e ∈ contents w -> tw_next w <= e_expiry e).
Proof.
  intros Hpos. unfold tw_next. fold (contents w).
  induction (contents w) as [|e l IH] using rev_ind; [by left|right].
  rewrite foldl_app. cbn [foldl]. set (b := foldl _ 0 l) in *.
  assert (0 < e_expiry e) as He by (apply Hpos; set_solver).
  destruct IH as [[-> Hb]|[(e' & He' & Eb) Hmin]]; [intros x Hx; apply Hpos; set_solver| |].
  - rewrite Hb. simpl. split; [exists e; set_solver|]. intros x Hx. assert (x = e) as -> by set_solver. lia.
  - assert (0 < b) as Hb by (rewrite <- Eb; apply Hpos; set_solver).
    destruct (Z.eqb_spec b 0); [lia|]. cbn [orb]. destruct (Z.ltb_spec (e_expiry e) b) as [Hlt|Hge].
    + split; [exists e; set_solver|]. intros x Hx. apply elem_of_app in Hx as [Hx|Hx].
      * specialize (Hmin x Hx). lia.
      * assert (x = e) as -> by set_solver. lia.
    + split; [exists e'; set_solver|]. intros x Hx. apply elem_of_app in Hx as [Hx|Hx]; [auto|].
      assert (x = e) as -> by set_solver. lia.
Qed.

Lemma tw_next_is_earliest_witness : forall e, e ∈ contents wheel3 -> tw_next wheel3 <= e_expiry e.
Proof.
  destruct (tw_next_is_earliest wheel3) as [[H _]|[_ H]].
  - intros e He. apply list_elem_of_In in He. vm_compute in He. destruct He as [<-|[<-|[<-|[]]]]; reflexivity.
  - vm_compute in H. discriminate H.
  - exact H.
Defined.

(** A timer added for the current tick, which [tw_add] accepts, is 64 ticks
    late. *)
Theorem tw_due_now_fires_64_late :
  let '(rc, w) := tw_add tw_init 5 0 in
  rc = 0 /\
  (fun j => contents (ticks j 16 w)) <$> seq 0 64 = replicate 64 [{| e_id := 5; e_expiry := 0 |}] /\
  (tw_advance (ticks 63 16 w) 16).1 = [5].
Proof. vm_compute. repeat split; reflexivity. Qed.

(** Pool entries are never given back: after 256 timers have been added the
    wheel refuses every further one, although none is pending. *)
Theorem tw_pool_is_never_reused :
  let w := foldl (fun w n => (tw_advance (tw_add w n (now w + 1)).2 16).2) tw_init
             (Z.of_nat <$> seq 0 256) in
  contents w = [] /\ pending w = 0 /\ (tw_add w 1 (now w + 1)).1 = -1.
Proof. vm_compute. repeat split; reflexivity. Qed.
