(* ===== verification/Eevdf.v ===== *)
(** * The EEVDF run queue

    [kernel/sched_eevdf.c]: adding, picking and charging tasks.  [rq_tasks] is
    the used part of the task array, [count] its length.  [eevdf_lag] computes
    with floating point and is left out. *)

From S2P Require Import Prelude.
Open Scope Z_scope.

Definition EEVDF_MAX_TASKS : nat := 16.
Definition EEVDF_NICE_0 : Z := 1024.
Definition EEVDF_BASE_SLICE : Z := 4.

Record task := {
  t_id : Z; t_weight : Z; t_slice : Z; t_vruntime : Z; t_deadline : Z; t_ran : Z;
  t_eligible : bool }.
Record rq := { rq_tasks : list task; rq_vclock : Z; rq_min_vruntime : Z }.

Definition eevdf_init : rq := {| rq_tasks := []; rq_vclock := 0; rq_min_vruntime := 0 |}.

Definition eevdf_add (q : rq) (id weight : Z) : Z * rq :=
  if decide (EEVDF_MAX_TASKS <= length (rq_tasks q))%nat then (-1, q) else
  if weight =? 0 then (-1, q) else
  let slice := u32 (EEVDF_BASE_SLICE * EEVDF_NICE_0) / weight in
  let slice := if slice <? 1 then 1 else slice in
  let t := {| t_id := id; t_weight := weight; t_slice := slice; t_vruntime := rq_min_vruntime q;
              t_deadline := u64 (rq_min_vruntime q + slice); t_ran := 0; t_eligible := true |} in
  (0, {| rq_tasks := rq_tasks q ++ [t]; rq_vclock := rq_vclock q;
         rq_min_vruntime := rq_min_vruntime q |}).

(** The scan: [i] is the index of the head of [ts], [best] the candidate. *)
Fixpoint pick_loop (ts : list task) (i : nat) (best : option (nat * task)) (best_dl : Z)
  : option nat :=
  match ts with
  | [] => fst <$> best
  | t :: ts =>
      if negb (t_eligible t) then pick_loop ts (S i) best best_dl
      else if (t_deadline t <? best_dl) ||
              ((t_deadline t =? best_dl) &&
               match best with Some (_, b) => t_vruntime t <? t_vruntime b | None => false end)
      then pick_loop ts (S i) (Some (i, t)) (t_deadline t)
      else pick_loop ts (S i) best best_dl
  end.
(** [None] is the source's -1. *)
Definition eevdf_pick (q : rq) : option nat := pick_loop (rq_tasks q) 0 None (2 ^ 64 - 1).

Definition recheck (min : Z) (u : task) : task :=
  let eligible := t_vruntime u <=? min in
  {| t_id := t_id u; t_weight := t_weight u; t_slice := t_slice u; t_vruntime := t_vruntime u;
     t_deadline := if negb eligible && (t_deadline u <? min) then min else t_deadline u;
     t_ran := t_ran u; t_eligible := eligible |}.

(** No task of a queue has weight 0, so the division is defined. *)
Definition eevdf_charge (q : rq) (index ticks : Z) : rq :=
  if (index <? 0) || (index >=? Z.of_nat (length (rq_tasks q))) then q else
  match rq_tasks q !! Z.to_nat index with
  | None => q
  | Some t =>
      let delta := u64 (ticks * EEVDF_NICE_0) / t_weight t in
      let vr := u64 (t_vruntime t + delta) in
      let min := if vr >? rq_min_vruntime q then vr else rq_min_vruntime q in
      let t' := {| t_id := t_id t; t_weight := t_weight t; t_slice := t_slice t; t_vruntime := vr;
                   t_deadline := u64 (vr + t_slice t); t_ran := u64 (t_ran t + ticks);
                   t_eligible := t_eligible t |} in
      {| rq_tasks := recheck min <$> <[Z.to_nat index := t']> (rq_tasks q);
         rq_vclock := u64 (rq_vclock q + delta); rq_min_vruntime := min |}
  end.

(** ** Picking *)

(** [a] comes before [b]: earlier deadline, then smaller virtual runtime. *)
Definition before (a b : task) : Prop :=
  t_deadline a < t_deadline b \/ t_deadline a = t_deadline b /\ t_vruntime a < t_vruntime b.

Definition best_of (ts : list task) (i : nat) : Prop :=
  exists b, ts !! i = Some b /\ t_eligible b = true /\
    forall j t, ts !! j = Some t -> t_eligible t = true ->
      ~ before t b /\ ((j < i)%nat -> before b t).

Lemma pick_loop_spec ts2 : forall ts1 best best_dl,
  Forall (fun t => t_deadline t < 2 ^ 64 - 1) (ts1 ++ ts2) ->
  match best with
  | None => best_dl = 2 ^ 64 - 1 /\ Forall (fun t => t_eligible t = false) ts1
  | Some (i, b) => best_dl = t_deadline b /\ ts1 !! i = Some b /\ best_of ts1 i
  end ->
  match pick_loop ts2 (length ts1) best best_dl with
  | None => Forall (fun t => t_eligible t = false) (ts1 ++ ts2)
  | Some i => best_of (ts1 ++ ts2) i
  end.
Proof.
  induction ts2 as [|t ts2 IH]; intros ts1 best best_dl Hdl Hbest; cbn [pick_loop].
  { rewrite app_nil_r. destruct best as [[i b]|]; simpl; tauto. }
  assert (t_deadline t < 2 ^ 64 - 1) as Ht.
  { rewrite Forall_app, Forall_cons in Hdl. tauto. }
  specialize (IH (ts1 ++ [t])). rewrite length_app, Nat.add_1_r, <- app_assoc in IH. cbn [app] in IH.
  assert (forall j x, (ts1 ++ [t]) !! j = Some x -> ts1 !! j = Some x \/ j = length ts1 /\ x = t) as Hlook.
  { intros j x [H|[Hge H]]%lookup_app_Some; [by left|].
    apply list_lookup_singleton_Some in H as [H0 Hx]. right. split; [lia|done]. }
  assert ((ts1 ++ [t]) !! length ts1 = Some t) as Hlast by (rewrite lookup_app_r, Nat.sub_diag by lia; done).
  assert (forall j x, ts1 !! j = Some x -> (ts1 ++ [t]) !! j = Some x) as Hold
    by (intros; by apply lookup_app_l_Some).
  destruct (t_eligible t) eqn:Ee; cbn [negb].
  2:{ apply IH; [done|]. destruct best as [[i b]|].
      - destruct Hbest as (Hd & Hi & b' & Hb' & Hel & Hall). split; [done|]. split; [auto|].
        exists b'. split; [auto|]. split; [done|]. intros j x [Hj|[-> ->]]%Hlook Hx; [auto|congruence].
      - destruct Hbest as [Hd Hall]. split; [done|]. apply Forall_app. split; [done|]. by constructor. }
  destruct best as [[i b]|].
  - destruct Hbest as (-> & Hi & b' & Hb' & Hel & Hall). assert (b' = b) as -> by congruence.
    pose proof (lookup_lt_Some _ _ _ Hi) as Hlt.
    destruct ((t_deadline t <? t_deadline b) || (t_deadline t =? t_deadline b) && (t_vruntime t <? t_vruntime b)) eqn:Ec.
    + assert (before t b) as Hbef.
      { apply orb_true_iff in Ec as [Ec%Z.ltb_lt|Ec]; [by left|].
        apply andb_true_iff in Ec as [?%Z.eqb_eq ?%Z.ltb_lt]. by right. }
      apply IH; [done|]. split; [done|]. split; [done|]. exists t. split; [done|]. split; [done|].
      intros j x [Hj|[-> ->]]%Hlook Hx; [|split; [unfold before; lia|lia]].
      destruct (Hall j x Hj Hx) as [Hn _]. unfold before in *. split; [lia|]. intros _. lia.
    + assert (~ before t b) as Hbef.
      { apply orb_false_iff in Ec as [E1%Z.ltb_ge E2]. unfold before.
        apply andb_false_iff in E2 as [E2%Z.eqb_neq|E2%Z.ltb_ge]; lia. }
      apply IH; [done|]. split; [done|]. split; [auto|]. exists b. split; [auto|]. split; [done|].
      intros j x [Hj|[-> ->]]%Hlook Hx; [auto|split; [done|lia]].
  - destruct Hbest as [-> Hnone]. destruct (Z.ltb_spec (t_deadline t) (2 ^ 64 - 1)); [|lia]. cbn [orb].
    apply IH; [done|]. split; [done|]. split; [done|]. exists t. split; [done|]. split; [done|].
    intros j x [Hj|[-> ->]]%Hlook Hx; [|split; [unfold before; lia|lia]].
    rewrite Forall_lookup in Hnone. specialize (Hnone j x Hj). congruence.
Qed.

(** ** The invariant *)

Record task_ok (min : Z) (t : task) : Prop := {
  tk_weight : 0 < t_weight t;
  tk_slice : 1 <= t_slice t <= 4096;
  tk_vruntime : 0 <= t_vruntime t <= min;
  tk_deadline : t_deadline t = t_vruntime t + t_slice t;
  tk_eligible : t_eligible t = true }.

Record rq_ok (q : rq) : Prop := {
  ro_tasks : Forall (task_ok (rq_min_vruntime q)) (rq_tasks q);
  ro_count : (length (rq_tasks q) <= EEVDF_MAX_TASKS)%nat;
  ro_min : 0 <= rq_min_vruntime q /\ rq_min_vruntime q + 4096 < 2 ^ 64 - 1 }.

Lemma init_ok : rq_ok eevdf_init.
Proof. constructor; simpl; [constructor|lia|lia]. Qed.

Lemma add_ok q id weight : rq_ok q -> fits 32 weight -> rq_ok (eevdf_add q id weight).2.
Proof.
  intros [Ht Hc Hm] Hw. unfold eevdf_add. case_decide; [done|].
  destruct (Z.eqb_spec weight 0); [done|]. unfold fits in Hw.
  constructor; cbn [snd rq_tasks rq_min_vruntime]; [|rewrite length_app; simpl; lia|done].
  apply Forall_app. split; [done|]. constructor; [|constructor].
  change (u32 (EEVDF_BASE_SLICE * EEVDF_NICE_0)) with 4096.
  assert (1 <= (if 4096 / weight <? 1 then 1 else 4096 / weight) <= 4096) as Hs.
  { destruct (Z.ltb_spec (4096 / weight) 1); [lia|].
    assert (4096 / weight <= 4096 / 1) by (apply Z.div_le_compat_l; lia). rewrite Z.div_1_r in *. lia. }
  constructor; cbn; try done; try lia. apply wrap_id. unfold fits. lia.
Qed.

Definition charge_delta (t : task) (ticks : Z) : Z := u64 (ticks * EEVDF_NICE_0) / t_weight t.

Lemma charge_ok q i t ticks :
  rq_ok q -> rq_tasks q !! i = Some t ->
  rq_min_vruntime q + charge_delta t ticks + 4096 < 2 ^ 64 - 1 ->
  let q' := eevdf_charge q (Z.of_nat i) ticks in
  rq_ok q' /\ rq_min_vruntime q' <= rq_min_vruntime q + charge_delta t ticks /\
  exists t', rq_tasks q' = <[i := t']> (rq_tasks q) /\ t_weight t' = t_weight t /\
    t_vruntime t' = t_vruntime t + charge_delta t ticks /\
    t_deadline t' = t_deadline t + charge_delta t ticks.
Proof.
  intros [Hts Hc Hm] Hi Hb. pose proof (lookup_lt_Some _ _ _ Hi) as Hlt.
  destruct (proj1 (Forall_lookup _ _) Hts i t Hi) as [Hw Hs Hv Hd He].
  assert (0 <= charge_delta t ticks) as Hdelta.
  { unfold charge_delta. apply Z.div_pos; [|lia]. apply (wrap_fits 64); lia. }
  unfold eevdf_charge. destruct (Z.ltb_spec (Z.of_nat i) 0); [lia|].
  destruct (Z.geb_spec (Z.of_nat i) (Z.of_nat (length (rq_tasks q)))); [lia|]. cbn [orb].
  rewrite Nat2Z.id, Hi. fold (charge_delta t ticks). set (delta := charge_delta t ticks) in *.
  rewrite (wrap_id 64 (t_vruntime t + delta)) by (unfold fits; lia).
  set (vr := t_vruntime t + delta) in *.
  rewrite (wrap_id 64 (vr + t_slice t)) by (unfold fits; lia).
  set (min := if vr >? rq_min_vruntime q then vr else rq_min_vruntime q).
  assert (rq_min_vruntime q <= min /\ vr <= min /\ min <= rq_min_vruntime q + delta) as (Hm1 & Hm2 & Hm3).
  { unfold min. destruct (Z.gtb_spec vr (rq_min_vruntime q)); lia. }
  set (t' := {| t_id := t_id t; t_vruntime := vr |}).
  assert (Forall (task_ok min) (<[i := t']> (rq_tasks q))) as Hts'.
  { apply Forall_insert; [|constructor; simpl; (done || lia)].
    eapply Forall_impl; [exact Hts|]. intros u [? ? ? ? ?]. constructor; (done || lia). }
  assert (recheck min <$> <[i := t']> (rq_tasks q) = <[i := t']> (rq_tasks q)) as Eq.
  { rewrite <- (list_fmap_id (<[i := t']> (rq_tasks q))) at 2. apply list_fmap_ext.
    intros k u Hu. destruct (proj1 (Forall_lookup _ _) Hts' k u Hu) as [? ? ? ? Heu].
    unfold recheck. destruct (Z.leb_spec (t_vruntime u) min); [|lia]. destruct u. simpl in *. by subst. }
  rewrite Eq. split; [|split; [done|]].
  - constructor; cbn [rq_tasks rq_min_vruntime]; [done|by rewrite length_insert|lia].
  - exists t'. split; [done|]. split; [done|]. split; [done|]. simpl. lia.
Qed.

Lemma pick_ok q :
  rq_ok q ->
  match eevdf_pick q with
  | None => rq_tasks q = []
  | Some i => best_of (rq_tasks q) i
  end.
Proof.
  intros [Ht _ Hm]. unfold eevdf_pick.
  pose proof (pick_loop_spec (rq_tasks q) [] None (2 ^ 64 - 1)) as H. cbn [app length] in H.
  specialize (H ltac:(eapply Forall_impl; [exact Ht|]; intros t [? ? ? ? ?]; cbn beta; lia) ltac:(done)).
  destruct (pick_loop _ _ _ _); [done|]. destruct (rq_tasks q) as [|t ts]; [done|].
  apply Forall_cons in H as [H _]. apply Forall_cons in Ht as [[_ _ _ _ He] _]. congruence.
Qed.

(** ** Scheduling rounds *)

(** Pick a task and charge it. *)
Definition round (q : rq) (ticks : Z) : rq :=
  match eevdf_pick q with
  | Some i => eevdf_charge q (Z.of_nat i) ticks
  | None => q
  end.

(** Picking returns an eligible task with the earliest deadline (of equal
    deadlines the smaller virtual runtime, of equal pairs the first), and fails
    only on an empty queue; in every queue that adding and charging builds
    without overflow every task is eligible. *)
Theorem eevdf_pick_is_earliest_deadline q :
  rq_ok q ->
  match eevdf_pick q with
  | None => rq_tasks q = []
  | Some i => best_of (rq_tasks q) i
  end /\ Forall (fun t => t_eligible t = true) (rq_tasks q).
Proof.
  intros H. split; [by apply pick_ok|]. eapply Forall_impl; [apply ro_tasks, H|]. by intros t [].
Qed.

(** Three tasks of weights 1024, 2048 and 512. *)
Definition rq3 : rq :=
  (eevdf_add (eevdf_add (eevdf_add eevdf_init 1 1024).2 2 2048).2 3 512).2.
Lemma rq3_ok : rq_ok rq3.
Proof. unfold rq3. repeat (apply add_ok; [|unfold fits; lia]). apply init_ok. Qed.

Lemma eevdf_pick_is_earliest_deadline_witness :
  eevdf_pick rq3 = Some 1%nat /\ best_of (rq_tasks rq3) 1.
Proof.
  split; [vm_compute; reflexivity|].
  destruct (eevdf_pick_is_earliest_deadline rq3 rq3_ok) as [H _].
  assert (eevdf_pick rq3 = Some 1%nat) as E by (vm_compute; reflexivity). rewrite E in H. exact H.
Defined.

(** Deadlines of any two tasks differ by at most [D]. *)
Definition spread (D : Z) (q : rq) : Prop :=
  forall i j a b, rq_tasks q !! i = Some a -> rq_tasks q !! j = Some b ->
    t_deadline a <= t_deadline b + D.

(** Every charge of at most [ticks] advances a task's virtual time by at most [D]. *)
Definition charge_bound (D : Z) (q : rq) (ticks : Z) : Prop :=
  Forall (fun t => charge_delta t ticks <= D) (rq_tasks q).

Lemma round_step D q ticks :
  rq_ok q -> charge_bound D q ticks -> spread D q -> rq_min_vruntime q + D + 4096 < 2 ^ 64 - 1 ->
  rq_ok (round q ticks) /\ spread D (round q ticks) /\
  t_weight <$> rq_tasks (round q ticks) = t_weight <$> rq_tasks q /\
  rq_min_vruntime (round q ticks) <= rq_min_vruntime q + Z.max 0 D.
Proof.
  intros Hok Hb Hs Hm. unfold round. pose proof (pick_ok q Hok) as Hp.
  destruct (eevdf_pick q) as [i|]; [|split_and!; (done || lia)].
  destruct Hp as (t & Ht & _ & Hbest).
  assert (charge_delta t ticks <= D) as HD by (by eapply (proj1 (Forall_lookup _ _) Hb)).
  assert (0 <= charge_delta t ticks) as Hdelta.
  { unfold charge_delta. destruct (proj1 (Forall_lookup _ _) (ro_tasks _ Hok) i t Ht).
    apply Z.div_pos; [|lia]. apply (wrap_fits 64); lia. }
  destruct (charge_ok q i t ticks Hok Ht ltac:(lia)) as (Hok' & Hmin & t' & Eq & Hw & Hv & Hdl).
  pose proof (lookup_lt_Some _ _ _ Ht) as Hlt.
  assert (forall j b, rq_tasks q !! j = Some b -> t_deadline t <= t_deadline b) as Hleast.
  { intros j b Hj. destruct (Hbest j b Hj) as [Hn _].
    - by destruct (proj1 (Forall_lookup _ _) (ro_tasks _ Hok) j b Hj).
    - unfold before in Hn. lia. }
  split; [done|]. split; [|split; [|lia]].
  - intros j k a b Ha Hk. rewrite Eq in Ha, Hk.
    apply list_lookup_insert_Some in Ha as [(-> & <- & _)|[Hne Ha]];
      apply list_lookup_insert_Some in Hk as [(<- & <- & _)|[Hne' Hk]].
    + lia.
    + pose proof (Hleast k b Hk). lia.
    + pose proof (Hs j i a t Ha Ht). lia.
    + by eapply Hs.
  - rewrite Eq, list_fmap_insert, Hw. apply list_insert_id. by rewrite list_lookup_fmap, Ht.
Qed.

Lemma charge_bound_weights D q q' ticks :
  t_weight <$> rq_tasks q' = t_weight <$> rq_tasks q -> charge_bound D q ticks -> charge_bound D q' ticks.
Proof.
  unfold charge_bound. intros E H. apply Forall_lookup. intros i t Ht.
  assert ((t_weight <$> rq_tasks q) !! i = Some (t_weight t)) as Hi
    by (rewrite <- E, list_lookup_fmap, Ht; done).
  rewrite list_lookup_fmap in Hi. destruct (rq_tasks q !! i) as [u|] eqn:Eu; [|done].
  injection Hi as Hi. pose proof (proj1 (Forall_lookup _ _) H i u Eu) as Hd. unfold charge_delta in *.
  by rewrite <- Hi.
Qed.

(** Fairness: if no single charge advances a task by more than [D] of virtual
    time, the deadlines of all tasks stay within [D] of each other through any
    number of rounds (as long as virtual time does not overflow), so no task is
    left behind: virtual runtimes stay within [D + 4096]. *)
Theorem eevdf_rounds_are_fair D q slices :
  rq_ok q -> 0 <= D -> spread D q -> Forall (charge_bound D q) slices ->
  rq_min_vruntime q + Z.of_nat (length slices) * D + 4096 < 2 ^ 64 - 1 ->
  let q' := foldl round q slices in
  rq_ok q' /\ spread D q' /\
  forall i j a b, rq_tasks q' !! i = Some a -> rq_tasks q' !! j = Some b ->
    t_vruntime a <= t_vruntime b + D + 4096.
Proof.
  intros Hok HD Hs Hb. revert q Hok Hs Hb.
  induction slices as [|ticks slices IH]; intros q Hok Hs Hb Hm; cbn [foldl].
  - split; [done|]. split; [done|]. intros i j a b Ha Hj. pose proof (Hs i j a b Ha Hj).
    destruct (proj1 (Forall_lookup _ _) (ro_tasks _ Hok) i a Ha).
    destruct (proj1 (Forall_lookup _ _) (ro_tasks _ Hok) j b Hj). lia.
  - cbn [length] in Hm. inversion Hb as [|? ? Hb1 Hb2]; subst.
    destruct (round_step D q ticks Hok Hb1 Hs) as (H1 & H2 & H3 & H4); [nia|].
    apply IH; [done|done| |].
    + eapply Forall_impl; [exact Hb2|]. intros t. by apply charge_bound_weights.
    + rewrite Z.max_r in H4 by done. nia.
Qed.

Lemma eevdf_rounds_are_fair_witness :
  spread 8192 (foldl round rq3 [4; 4; 4; 1; 3]).
Proof.
  apply (eevdf_rounds_are_fair 8192 rq3 [4; 4; 4; 1; 3]).
  - exact rq3_ok.
  - lia.
  - intros i j a b Ha Hj.
    destruct i as [|[|[|i]]]; vm_compute in Ha; simplify_eq;
      destruct j as [|[|[|j]]]; vm_compute in Hj; simplify_eq; cbn; lia.
  - repeat constructor; vm_compute; congruence.
  - vm_compute. reflexivity.
Defined.
