(* ===== verification/Fat32.v ===== *)
(** * FAT32: the file allocation table

    [kernel/fat32_fat.c], [kernel/fat32_cluster.c], [kernel/fat32_name.c] and the
    date helper of [kernel/fat32.c].

    Functions run in a state monad over the volume, the block device, the
    outcomes of the coming calls of [malloc] (none left: it succeeds) and the
    broken-down time [gmtime] returns.  [None] is a loop that ran out of its
    fuel, which only happens when the C loop goes on as long.  The block device
    is a parameter: [b_read] gives the bytes read, or [None] for a failure, and
    [b_torn] what a failed read makes of the buffer; [b_write] gives success and
    the new device. *)

From S2P Require Import Prelude.
Open Scope Z_scope.

Definition FAT32_SECTOR_SIZE : Z := 512.
Definition FAT32_CLUSTER_EOC : Z := 268435448.
Definition FAT32_CLUSTER_FREE : Z := 0.
Definition FAT32_DIR_ENTRY_SIZE : nat := 32.
Definition FAT32_MAX_NAME : nat := 255.
Definition ENTRIES_PER_SECTOR : Z := FAT32_SECTOR_SIZE / 4.

Record blk_ops (D : Type) := {
  b_read : D -> Z -> Z -> option (list Z);
  b_torn : D -> Z -> Z -> list Z -> list Z;
  b_write : D -> Z -> Z -> list Z -> bool * D;
  b_n_sectors : Z }.
Arguments b_read {D}. Arguments b_torn {D}. Arguments b_write {D}. Arguments b_n_sectors {D}.

Record fat32_volume := {
  v_mounted : bool;
  v_dirty : bool;
  v_spc : Z;                  (* sectors_per_cluster *)
  v_bpc : Z;                  (* bytes_per_cluster *)
  v_reserved : Z;
  v_num_fats : Z;
  v_spf : Z;                  (* sectors_per_fat *)
  v_root_cluster : Z;
  v_fat1_lba : Z;
  v_fat2_lba : Z;
  v_data_lba : Z;
  v_total_clusters : Z;
  v_free_clusters : Z;
  v_next_free : Z;
  v_fs_info_lba : Z;
  v_cached_sector : Z;        (* cached_fat_sector *)
  v_cached_dirty : bool;
  v_cache : option (list Z) }. (* fat_cache: 128 words *)

Definition set_cache (s : Z) (d : bool) (c : option (list Z)) (v : fat32_volume) : fat32_volume :=
  {| v_mounted := v_mounted v; v_dirty := v_dirty v; v_spc := v_spc v; v_bpc := v_bpc v;
     v_reserved := v_reserved v; v_num_fats := v_num_fats v; v_spf := v_spf v;
     v_root_cluster := v_root_cluster v; v_fat1_lba := v_fat1_lba v; v_fat2_lba := v_fat2_lba v;
     v_data_lba := v_data_lba v; v_total_clusters := v_total_clusters v;
     v_free_clusters := v_free_clusters v; v_next_free := v_next_free v;
     v_fs_info_lba := v_fs_info_lba v; v_cached_sector := s; v_cached_dirty := d; v_cache := c |}.
Definition set_free (free next : Z) (v : fat32_volume) : fat32_volume :=
  {| v_mounted := v_mounted v; v_dirty := v_dirty v; v_spc := v_spc v; v_bpc := v_bpc v;
     v_reserved := v_reserved v; v_num_fats := v_num_fats v; v_spf := v_spf v;
     v_root_cluster := v_root_cluster v; v_fat1_lba := v_fat1_lba v; v_fat2_lba := v_fat2_lba v;
     v_data_lba := v_data_lba v; v_total_clusters := v_total_clusters v;
     v_free_clusters := free; v_next_free := next; v_fs_info_lba := v_fs_info_lba v;
     v_cached_sector := v_cached_sector v; v_cached_dirty := v_cached_dirty v;
     v_cache := v_cache v |}.

(** [struct tm], the fields the code uses. *)
Record tm := { tm_year : Z; tm_mon : Z; tm_mday : Z; tm_hour : Z; tm_min : Z; tm_sec : Z }.

Record fstate (D : Type) := {
  vol : fat32_volume; dev : D; mallocs : list bool; clock : option tm }.
Arguments vol {D}. Arguments dev {D}. Arguments mallocs {D}. Arguments clock {D}.

Definition M (D A : Type) : Type := fstate D -> option (A * fstate D).
#[global] Instance M_ret D : MRet (M D) := fun A a st => Some (a, st).
#[global] Instance M_bind D : MBind (M D) := fun A B k m st => '(a, st) ← m st; k a st.

Section fat.
Context {D : Type} (ops : blk_ops D).

Definition get_vol : M D fat32_volume := fun st => Some (vol st, st).
Definition put_vol (f : fat32_volume -> fat32_volume) : M D unit := fun st =>
  Some (tt, {| vol := f (vol st); dev := dev st; mallocs := mallocs st; clock := clock st |}).
Definition malloc : M D bool := fun st =>
  Some (match mallocs st with b :: _ => b | [] => true end,
        {| vol := vol st; dev := dev st; mallocs := tail (mallocs st); clock := clock st |}).
(** A read into a buffer that is not looked at after a failure, and one into a buffer
    that is kept, with its bytes before: success and its bytes after. *)
Definition blk_read (lba n : Z) : M D (option (list Z)) := fun st =>
  Some (b_read ops (dev st) lba n, st).
Definition blk_read_into (lba n : Z) (old : list Z) : M D (bool * list Z) := fun st =>
  Some (match b_read ops (dev st) lba n with
        | Some buf => (true, buf)
        | None => (false, b_torn ops (dev st) lba n old)
        end, st).
Definition blk_write (lba n : Z) (buf : list Z) : M D bool := fun st =>
  let '(okw, d) := b_write ops (dev st) lba n buf in
  Some (okw, {| vol := vol st; dev := d; mallocs := mallocs st; clock := clock st |}).

(** A sector of bytes as words, and back. *)
Fixpoint words (n : nat) (bs : list Z) : list Z :=
  match n with O => [] | S n => le_dec (take 4 bs) :: words n (drop 4 bs) end.
Definition bytes_of (ws : list Z) : list Z := concat (le_enc 4 <$> ws).

Definition fat32_flush : M D Z :=
  v ← get_vol;
  match v_cache v with
  | None => mret 0
  | Some cache =>
      if negb (v_cached_dirty v) then mret 0 else
      let lba := u64 (v_fat1_lba v + v_cached_sector v) in
      ok1 ← blk_write lba 1 (bytes_of cache);
      if negb ok1 then mret (-1) else
      ok2 ← (if v_num_fats v >=? 2
             then blk_write (u64 (v_fat2_lba v + v_cached_sector v)) 1 (bytes_of cache)
             else mret true);
      if negb ok2 then mret (-1) else
      _ ← put_vol (fun v => set_cache (v_cached_sector v) false (v_cache v) v);
      mret 0
  end.

(** [if (!fat_cache) fat_cache = malloc (512); if (!fat_cache) return -1]: the
    fresh sector is read before it is used. *)
Definition ensure_cache : M D bool :=
  v ← get_vol;
  match v_cache v with
  | Some _ => mret true
  | None =>
      okm ← malloc;
      if negb okm then mret false else
      _ ← put_vol (fun v => set_cache (v_cached_sector v) (v_cached_dirty v)
                              (Some (replicate (Z.to_nat ENTRIES_PER_SECTOR) 0)) v);
      mret true
  end.

(** Flush the dirty sector, then read another one.  A failed read may leave the cache
    with other bytes, under the number of the old sector. *)
Definition load_sector (fat_sector : Z) : M D bool :=
  v ← get_vol;
  frc ← (if v_cached_dirty v then fat32_flush else mret 0);
  if negb (frc =? 0) then mret false else
  '(okr, buf) ← blk_read_into (u64 (v_fat1_lba v + fat_sector)) 1 (bytes_of (default [] (v_cache v)));
  _ ← put_vol (fun v => set_cache (if (okr : bool) then fat_sector else v_cached_sector v) (v_cached_dirty v)
                          (Some (words (Z.to_nat ENTRIES_PER_SECTOR) buf)) v);
  mret okr.

(** The entry, or [None] for -1. *)
Definition fat_read_entry (cluster : Z) : M D (option Z) :=
  let fat_sector := cluster / ENTRIES_PER_SECTOR in
  let fat_offset := cluster mod ENTRIES_PER_SECTOR in
  v ← get_vol;
  ready ← (match v_cache v with
           | Some _ => if fat_sector =? v_cached_sector v then mret true else load_sector fat_sector
           | None =>
               okc ← ensure_cache;
               if negb okc then mret false else load_sector fat_sector
           end);
  if negb ready then mret None else
  v ← get_vol;
  mret (Some (Z.land (default 0 (default [] (v_cache v) !! Z.to_nat fat_offset)) 268435455)).

Definition fat_write_entry (cluster value : Z) : M D Z :=
  let fat_sector := cluster / ENTRIES_PER_SECTOR in
  let fat_offset := Z.to_nat (cluster mod ENTRIES_PER_SECTOR) in
  okc ← ensure_cache;
  if negb okc then mret (-1) else
  v ← get_vol;
  ready ← (if negb (fat_sector =? v_cached_sector v) then load_sector fat_sector else mret true);
  if negb ready then mret (-1) else
  _ ← put_vol (fun v =>
         let w := default [] (v_cache v) in
         set_cache (v_cached_sector v) true
           (Some (<[fat_offset := Z.lor (Z.land (default 0 (w !! fat_offset)) 4026531840)
                                        (Z.land value 268435455)]> w)) v);
  mret 0.

Definition fat_cache_invalidate : M D unit :=
  put_vol (fun v => set_cache 4294967295 false (v_cache v) v).

(** ** Clusters *)

Definition fat32_next_cluster (cluster : Z) : M D Z :=
  if cluster <? 2 then mret 0 else
  r ← fat_read_entry cluster;
  match r with
  | None => mret 0
  | Some entry => if entry >=? FAT32_CLUSTER_EOC then mret 0 else mret entry
  end.

Definition cluster_to_lba (v : fat32_volume) (cluster : Z) : Z :=
  if cluster <? 2 then 0 else u64 (v_data_lba v + (cluster - 2) * v_spc v).
Definition fat32_cluster_to_lba (cluster : Z) : M D Z :=
  v ← get_vol; mret (cluster_to_lba v cluster).

Definition fat32_lba_to_cluster (v : fat32_volume) (lba : Z) : Z :=
  if lba <? v_data_lba v then 0 else u32 (u32 ((lba - v_data_lba v) / v_spc v) + 2).

(** The scan of [fat32_alloc_clusters]: [n] rounds left; the result is
    [(first, found)], or [None] after a failed read. *)
Fixpoint alloc_scan (n : nat) (total count cluster first found : Z) : M D (option (Z * Z)) :=
  match n with
  | O => mret (Some (first, found))
  | S n =>
      let cluster := if cluster >=? total then 2 else cluster in
      r ← fat_read_entry cluster;
      match r with
      | None => mret None
      | Some entry =>
          if entry =? FAT32_CLUSTER_FREE then
            let first := if found =? 0 then cluster else first in
            let found := u32 (found + 1) in
            if found >=? count then mret (Some (first, found))
            else alloc_scan n total count (u32 (cluster + 1)) first found
          else alloc_scan n total count (u32 (cluster + 1)) 0 0
      end
  end.

(** Linking: [n] clusters left, [i] is the next index. *)
Fixpoint alloc_link (n : nat) (first count i : Z) : M D bool :=
  match n with
  | O => mret true
  | S n =>
      let c := u32 (first + i) in
      let next := if i <? u32 (count - 1) then u32 (c + 1) else FAT32_CLUSTER_EOC in
      rc ← fat_write_entry c next;
      if negb (rc =? 0) then mret false else alloc_link n first count (i + 1)
  end.

Definition fat32_alloc_clusters (count hint : Z) : M D Z :=
  if count =? 0 then mret 0 else
  let start := if hint >=? 2 then hint else 2 in
  v ← get_vol;
  r ← alloc_scan (Z.to_nat (v_total_clusters v)) (v_total_clusters v) count start 0 0;
  match r with
  | None => mret 0
  | Some (first, found) =>
      if found <? count then mret 0 else
      okl ← alloc_link (Z.to_nat count) first count 0;
      if negb okl then mret 0 else
      _ ← put_vol (fun v =>
             let next := u32 (first + count) in
             let next := if next >=? v_total_clusters v then 2 else next in
             set_free (if v_free_clusters v >? count then v_free_clusters v - count
                       else v_free_clusters v) next v);
      mret first
  end.

(** Each round frees one cluster; the entry of a freed one ends the loop. *)
Fixpoint free_loop (fuel : nat) (cluster : Z) : M D unit :=
  if (cluster >=? 2) && (cluster <? FAT32_CLUSTER_EOC) then
    match fuel with
    | O => fun _ => None
    | S fuel =>
        r ← fat_read_entry cluster;
        match r with
        | None => mret tt
        | Some next =>
            _ ← fat_write_entry cluster FAT32_CLUSTER_FREE;
            _ ← put_vol (fun v => set_free (u32 (v_free_clusters v + 1)) (v_next_free v) v);
            if next >=? FAT32_CLUSTER_EOC then mret tt else free_loop fuel next
        end
    end
  else mret tt.
Definition fat32_free_chain (fuel : nat) (cluster : Z) : M D unit := free_loop fuel cluster.

Fixpoint count_scan (n : nat) (c count : Z) : M D Z :=
  match n with
  | O => mret count
  | S n =>
      r ← fat_read_entry c;
      match r with
      | None => mret count
      | Some entry =>
          count_scan n (c + 1) (if entry =? FAT32_CLUSTER_FREE then u32 (count + 1) else count)
      end
  end.
Definition fat32_count_free : M D Z :=
  v ← get_vol;
  count ← count_scan (Z.to_nat (v_total_clusters v - 2)) 2 0;
  _ ← put_vol (fun v => set_free count (v_next_free v) v);
  mret count.

End fat.

(** ** Names *)

(** [toupper] in the C locale. *)
Definition toupper (c : Z) : Z := if (97 <=? c) && (c <=? 122) then c - 32 else c.

(** At most [n] characters of [src] up to a dot, and the rest. *)
Fixpoint take_name (n : nat) (src : list Z) : list Z * list Z :=
  match n, src with
  | S n, c :: src' =>
      if c =? 46 then ([], src)
      else let '(a, rest) := take_name n src' in (toupper c :: a, rest)
  | _, _ => ([], src)
  end.

Definition pad (n : nat) (l : list Z) : list Z := l ++ replicate (n - length l) 32.

(** [src] is the string without its terminator. *)
Definition name_to_83 (src : list Z) : list Z :=
  if strcmp_eq src (str ".") then pad 11 [46] else
  if strcmp_eq src (str "..") then pad 11 [46; 46] else
  let '(name, rest) := take_name 8 src in
  let rest := match rest with c :: r => if c =? 46 then r else rest | [] => [] end in
  pad 8 name ++ pad 3 (toupper <$> take 3 rest).

(** Drop the trailing spaces. *)
Fixpoint rtrim (l : list Z) : list Z :=
  match l with
  | [] => []
  | c :: l => match rtrim l with [] => if c =? 32 then [] else [c] | t => c :: t end
  end.

(** The string written to [dst], at most [dst_size - 1] characters. *)
Definition name_from_83 (name83 : list Z) (dst_size : nat) : list Z :=
  let name := rtrim (take 8 name83) in
  let ext := rtrim (drop 8 name83) in
  let dst := take (dst_size - 1) name in
  match ext with
  | [] => dst
  | _ => if default 0 (name83 !! 0%nat) =? 46 then dst
         else take (dst_size - 1) (dst ++ 46 :: ext)
  end.

Definition lfn_checksum (name83 : list Z) : Z :=
  foldl (fun sum c => u8 ((if negb (Z.land sum 1 =? 0) then 128 else 0) + Z.shiftr sum 1 + u8 c)) 0
    name83.

(** Compare as C strings; the result is 0 when they are equal up to case. *)
Fixpoint name_cmp (a b : list Z) : Z :=
  match a, b with
  | ca :: a', cb :: b' =>
      if toupper ca =? toupper cb then name_cmp a' b' else toupper ca - toupper cb
  | ca :: _, [] => toupper ca
  | [], cb :: _ => - toupper cb
  | [], [] => 0
  end.

(** ** Dates: the packed date and time *)

Definition datetime_to_dos (t : option tm) : Z * Z :=
  match t with
  | None => (0, 33)
  | Some t =>
      let year := tm_year t + 1900 in
      let year := if year <? 1980 then 1980 else year in
      (u16 (Z.lor (Z.lor (Z.quot (tm_sec t) 2) (Z.shiftl (tm_min t) 5)) (Z.shiftl (tm_hour t) 11)),
       u16 (Z.lor (Z.lor (tm_mday t) (Z.shiftl (tm_mon t + 1) 5)) (Z.shiftl (year - 1980) 9)))
  end.
