(* ===== verification/Fat32Facts.v ===== *)
(** * Properties of the FAT and of cluster chains

    What the code relies on in a block device is the class [BlkDev], with a RAM
    disk as its instance.  The write-behind cache refines a plain table of
    entries ([view]), and the cluster operations are described on that table. *)

From S2P Require Import Prelude Fat32.
Open Scope Z_scope.

(** A block device: [content d i] is sector [i].  A failed write changes at most
    the sectors it was to write, and a failed read leaves the buffer as it was. *)
Class BlkDev {D : Type} (ops : blk_ops D) := {
  content : D -> Z -> list Z;
  content_length d i : length (content d i) = 512%nat;
  content_bytes d i : Forall is_byte (content d i);
  read_content d lba n buf :
    b_read ops d lba n = Some buf -> buf = concat (content d <$> seqZ lba n);
  failed_read d lba n old : b_read ops d lba n = None -> b_torn ops d lba n old = old;
  write_content d lba n buf d' :
    b_write ops d lba n buf = (true, d') -> 0 <= n -> Z.of_nat (length buf) = 512 * n ->
    Forall is_byte buf ->
    forall i, lba <= i < lba + n -> content d' i = slice buf (Z.to_nat (512 * (i - lba))) 512;
  write_other d lba n buf okw d' i :
    b_write ops d lba n buf = (okw, d') -> ~ lba <= i < lba + n -> content d' i = content d i }.

(** ** Running monadic code *)

Definition wp {D A} (m : M D A) (Q : A -> fstate D -> Prop) (st : fstate D) : Prop :=
  match m st with Some (a, st') => Q a st' | None => False end.

Section wp.
Context {D : Type}.

Lemma wp_ret {A} (a : A) (Q : A -> fstate D -> Prop) st : Q a st -> wp (mret a) Q st.
Proof. done. Qed.

Lemma wp_bind {A B} (m : M D A) (k : A -> M D B) Q st :
  wp m (fun a st' => wp (k a) Q st') st -> wp (m ≫= k) Q st.
Proof. unfold wp, mbind, M_bind. destruct (m st) as [[a st']|]; done. Qed.

Lemma wp_mono {A} (m : M D A) (Q R : A -> fstate D -> Prop) st :
  wp m Q st -> (forall a st', Q a st' -> R a st') -> wp m R st.
Proof. unfold wp. destruct (m st) as [[a st']|]; auto. Qed.

Lemma wp_get_vol Q (st : fstate D) : Q (vol st) st -> wp get_vol Q st.
Proof. done. Qed.
Lemma wp_put_vol f Q (st : fstate D) :
  Q tt {| vol := f (vol st); dev := dev st; mallocs := mallocs st; clock := clock st |} ->
  wp (put_vol f) Q st.
Proof. done. Qed.
Lemma wp_malloc Q (st : fstate D) :
  (forall b ms, Q b {| vol := vol st; dev := dev st; mallocs := ms; clock := clock st |}) ->
  wp malloc Q st.
Proof. intros H. unfold wp, malloc. apply H. Qed.
Lemma wp_blk_read ops lba n Q (st : fstate D) :
  Q (b_read ops (dev st) lba n) st -> wp (blk_read ops lba n) Q st.
Proof. done. Qed.
Lemma wp_blk_read_into ops lba n old Q (st : fstate D) :
  (forall buf, b_read ops (dev st) lba n = Some buf -> Q (true, buf) st) ->
  (b_read ops (dev st) lba n = None -> Q (false, b_torn ops (dev st) lba n old) st) ->
  wp (blk_read_into ops lba n old) Q st.
Proof. intros H1 H2. unfold wp, blk_read_into. destruct (b_read ops _ _ _); auto. Qed.
Lemma wp_blk_write ops lba n buf Q (st : fstate D) :
  (forall okw d, b_write ops (dev st) lba n buf = (okw, d) ->
     Q okw {| vol := vol st; dev := d; mallocs := mallocs st; clock := clock st |}) ->
  wp (blk_write ops lba n buf) Q st.
Proof. intros H. unfold wp, blk_write. destruct (b_write ops _ _ _ _) as [okw d] eqn:E. by apply H. Qed.
End wp.

(** One step of the code under [wp]. *)
Ltac wp_step :=
  lazymatch goal with
  | |- wp (_ ≫= _) _ _ => apply wp_bind
  | |- wp (mret _) _ _ => apply wp_ret
  | |- wp get_vol _ _ => apply wp_get_vol
  | |- wp (put_vol _) _ _ => apply wp_put_vol
  | |- wp malloc _ _ => apply wp_malloc; intros ?b ?ms
  | |- wp (blk_read _ _ _) _ _ => apply wp_blk_read
  | |- wp (blk_write _ _ _ _) _ _ =>
      apply wp_blk_write;
      let o := fresh "okw" in let d := fresh "d" in let H := fresh "Hw" in intros o d H
  end; cbn beta.

(** ** Words and bytes *)

Lemma bytes_of_length ws : length (bytes_of ws) = (4 * length ws)%nat.
Proof.
  induction ws as [|w ws IH]; [done|]. cbn [bytes_of fmap list_fmap concat length].
  rewrite length_app, length_le_enc. unfold bytes_of in IH. rewrite IH. lia.
Qed.
Lemma bytes_of_bytes ws : Forall is_byte (bytes_of ws).
Proof.
  induction ws as [|w ws IH]; [constructor|]. cbn [bytes_of fmap list_fmap concat].
  apply Forall_app. split; [apply le_enc_bytes|exact IH].
Qed.
Lemma words_bytes_of ws : Forall (fits 32) ws -> words (length ws) (bytes_of ws) = ws.
Proof.
  induction 1 as [|w ws Hw _ IH]; [done|]. cbn [length words bytes_of fmap list_fmap concat].
  rewrite take_app_length', drop_app_length' by (by rewrite length_le_enc).
  rewrite le_dec_enc. change (8 * Z.of_nat 4) with 32. rewrite wrap_id by done. by f_equal.
Qed.
Lemma words_length n bs : length (words n bs) = n.
Proof. revert bs; induction n; intros; simpl; auto. Qed.
Lemma words_fits n bs : Forall is_byte bs -> (4 * n <= length bs)%nat -> Forall (fits 32) (words n bs).
Proof.
  revert bs; induction n as [|n IH]; intros bs Hb Hl; cbn [words]; constructor.
  - assert (length (take 4 bs) = 4%nat) as El by (rewrite length_take; lia).
    pose proof (le_dec_bound (take 4 bs) ltac:(by apply Forall_take)) as H. rewrite El in H. exact H.
  - apply IH; [by apply Forall_drop|]. rewrite length_drop. lia.
Qed.

(** ** The table of entries *)

Section table.
Context {D : Type} (ops : blk_ops D) `{BD : !BlkDev ops}.

Abbreviation NONE := 4294967295.

(** Everything of a volume but the cache and the free counters. *)
Definition geometry (v : fat32_volume) : fat32_volume := set_free 0 0 (set_cache 0 false None v).
Definition counters (v : fat32_volume) : Z * Z := (v_free_clusters v, v_next_free v).

(** The words of FAT sector [s], through the cache. *)
Definition sector_words (st : fstate D) (s : Z) : list Z :=
  match v_cache (vol st) with
  | Some w => if s =? v_cached_sector (vol st) then w
              else words 128 (content (dev st) (v_fat1_lba (vol st) + s))
  | None => words 128 (content (dev st) (v_fat1_lba (vol st) + s))
  end.
(** The entry of a cluster. *)
Definition view (st : fstate D) (c : Z) : Z :=
  default 0 (sector_words st (c / 128) !! Z.to_nat (c mod 128)).

Record fat_ok (st : fstate D) : Prop := {
  fo_geom : 0 <= v_fat1_lba (vol st) /\ 0 < v_spf (vol st) < NONE /\
            v_fat2_lba (vol st) = v_fat1_lba (vol st) + v_spf (vol st) /\
            v_fat2_lba (vol st) + v_spf (vol st) < 2 ^ 64;
  fo_cache : forall w, v_cache (vol st) = Some w -> length w = 128%nat /\ Forall (fits 32) w;
  fo_sector : v_cached_sector (vol st) = NONE \/ 0 <= v_cached_sector (vol st) < v_spf (vol st);
  fo_none : v_cached_sector (vol st) = NONE \/ v_cache (vol st) = None ->
            v_cached_dirty (vol st) = false;
  fo_empty : v_cache (vol st) = None -> v_cached_sector (vol st) = NONE;
  fo_clean : forall w, v_cache (vol st) = Some w -> v_cached_sector (vol st) <> NONE ->
             v_cached_dirty (vol st) = false ->
             w = words 128 (content (dev st) (v_fat1_lba (vol st) + v_cached_sector (vol st))) }.

(** A cluster whose entry lies in the FAT. *)
Definition in_fat (st : fstate D) (c : Z) : Prop := 0 <= c < 128 * v_spf (vol st).

(** [st'] shows the same table as [st], on the same volume. *)
Record same_table (st st' : fstate D) : Prop := {
  sm_geom : geometry (vol st') = geometry (vol st);
  sm_count : counters (vol st') = counters (vol st);
  sm_words : forall s, 0 <= s < v_spf (vol st) -> sector_words st' s = sector_words st s;
  sm_ok : fat_ok st';
  sm_data : forall i, ~ v_fat1_lba (vol st) <= i < v_fat2_lba (vol st) + v_spf (vol st) ->
            content (dev st') i = content (dev st) i }.

Lemma geometry_fields v v' :
  geometry v' = geometry v ->
  v_spf v' = v_spf v /\ v_fat1_lba v' = v_fat1_lba v /\ v_fat2_lba v' = v_fat2_lba v /\
  v_total_clusters v' = v_total_clusters v /\ v_num_fats v' = v_num_fats v /\
  v_spc v' = v_spc v /\ v_bpc v' = v_bpc v /\ v_data_lba v' = v_data_lba v /\
  v_root_cluster v' = v_root_cluster v /\ v_mounted v' = v_mounted v.
Proof. intros E. unfold geometry, set_free, set_cache in E. injection E. intros. auto 20. Qed.

Lemma same_table_refl st : fat_ok st -> same_table st st.
Proof. by constructor. Qed.
Lemma same_table_trans st1 st2 st3 : same_table st1 st2 -> same_table st2 st3 -> same_table st1 st3.
Proof.
  intros [G1 C1 W1 O1 D1] [G2 C2 W2 O2 D2].
  destruct (geometry_fields _ _ G1) as (E1 & E2 & E3 & _). rewrite E1 in W2. rewrite E1, E2, E3 in D2.
  constructor; [congruence..| |done|].
  - intros s Hs. rewrite W2, W1 by done. done.
  - intros i Hi. rewrite D2, D1 by done. done.
Qed.
Lemma same_table_view st st' c : same_table st st' -> in_fat st c -> view st' c = view st c.
Proof.
  intros [_ _ W _ _] Hc. unfold view, in_fat in *. rewrite W; [done|].
  split; [apply Z.div_pos; lia|]. apply Z.div_lt_upper_bound; lia.
Qed.
Lemma same_table_in_fat st st' c : same_table st st' -> in_fat st c -> in_fat st' c.
Proof. intros [G _ _ _ _]. unfold in_fat. by destruct (geometry_fields _ _ G) as (-> & _). Qed.

Lemma write_sector d lba buf okw d' i :
  b_write ops d lba 1 buf = (okw, d') -> length buf = 512%nat -> Forall is_byte buf ->
  (i <> lba -> content d' i = content d i) /\ (okw = true -> content d' lba = buf).
Proof.
  intros Hw Hl Hb. split.
  - intros Hi. eapply write_other; [exact Hw|lia].
  - intros ->. erewrite write_content; [|exact Hw|lia|rewrite Hl; lia|done|lia].
    rewrite Z.sub_diag. unfold slice. rewrite drop_0, take_ge by (rewrite Hl; lia). done.
Qed.

(** Flushing shows the same table; after a success the cache is clean, and both
    copies on the device hold the cached sector. *)
Lemma flush_spec st :
  fat_ok st ->
  wp (fat32_flush ops) (fun rc st' => same_table st st' /\
    (rc = 0 -> v_cached_dirty (vol st') = false /\
       forall w, v_cache (vol st) = Some w -> v_cached_dirty (vol st) = true ->
         content (dev st') (v_fat1_lba (vol st) + v_cached_sector (vol st)) = bytes_of w /\
         (v_num_fats (vol st) >= 2 ->
          content (dev st') (v_fat2_lba (vol st) + v_cached_sector (vol st)) = bytes_of w)) /\
    v_cache (vol st') = v_cache (vol st) /\ v_cached_sector (vol st') = v_cached_sector (vol st)) st.
Proof.
  intros Hok. pose proof Hok as [(G1 & G2 & G3 & G4) Hc Hs Hn He Hcl].
  unfold fat32_flush. repeat wp_step.
  destruct (v_cache (vol st)) as [w|] eqn:Ew.
  2:{ repeat wp_step. split; [by apply same_table_refl|]. split; [|done]. intros _. split; [auto|done]. }
  destruct (v_cached_dirty (vol st)) eqn:Ed; cbn [negb].
  2:{ repeat wp_step. split; [by apply same_table_refl|]. split; [|done]. done. }
  destruct (Hc w eq_refl) as [Hlw Hfw].
  destruct Hs as [Hs|Hs]; [specialize (Hn (or_introl Hs)); congruence|].
  assert (length (bytes_of w) = 512%nat) as Hlb by (rewrite bytes_of_length; lia).
  pose proof (bytes_of_bytes w) as Hbb.
  set (s0 := v_cached_sector (vol st)) in *. set (l1 := v_fat1_lba (vol st)) in *.
  rewrite (wrap_id 64 (l1 + s0)) by (unfold fits; lia).
  rewrite (wrap_id 64 (v_fat2_lba (vol st) + s0)) by (unfold fits; lia).
  assert (forall d' dirty, (forall i, i <> l1 + s0 -> i <> v_fat2_lba (vol st) + s0 ->
            content d' i = content (dev st) i) ->
          (dirty = false -> content d' (l1 + s0) = bytes_of w) ->
          same_table st {| vol := set_cache s0 dirty (Some w) (vol st); dev := d';
                           mallocs := mallocs st; clock := clock st |}) as Hsame.
  { intros d' dirty Hd' Hdirty. constructor; [done|done| | |].
    - intros s Hrange. unfold sector_words. cbn [vol dev set_cache v_cache v_cached_sector v_fat1_lba].
      rewrite Ew. fold s0 l1. destruct (Z.eqb_spec s s0); [done|].
      f_equal. apply Hd'; lia.
    - constructor; cbn [vol dev set_cache v_cache v_cached_sector v_cached_dirty v_fat1_lba v_fat2_lba v_spf];
        fold l1.
      + split_and!; lia.
      + intros w' [= <-]. done.
      + by right.
      + intros [?|?]; [lia|done].
      + done.
      + intros w' [= <-] _ Hd0. rewrite (Hdirty Hd0), <- Hlw, words_bytes_of by done. done.
    - intros i Hi. cbn [dev]. fold l1 in Hi. apply Hd'; lia. }
  assert (Hvol : set_cache s0 true (Some w) (vol st) = vol st).
  { unfold set_cache, s0. rewrite <- Ew, <- Ed. by destruct (vol st). }
  wp_step. wp_step.
  destruct (write_sector _ _ _ _ _ (l1 + s0) Hw Hlb Hbb) as [_ Hw2].
  assert (forall i, i <> l1 + s0 -> content d i = content (dev st) i) as Hw1
    by (intros i Hi; by apply (write_sector _ _ _ _ _ i Hw Hlb Hbb)).
  destruct okw; cbn [negb].
  2:{ repeat wp_step. cbn [vol]. rewrite Ew. split; [|done].
      specialize (Hsame d true). rewrite Hvol in Hsame. apply Hsame; [auto|done]. }
  destruct (Z.geb_spec (v_num_fats (vol st)) 2) as [H2|H2].
  - wp_step. wp_step.
    destruct (write_sector _ _ _ _ _ (v_fat2_lba (vol st) + s0) Hw0 Hlb Hbb) as [_ Hw4].
    assert (forall i, i <> v_fat2_lba (vol st) + s0 -> content d0 i = content d i) as Hw3
      by (intros i Hi; by apply (write_sector _ _ _ _ _ i Hw0 Hlb Hbb)).
    cbn [vol dev]. destruct okw; cbn [negb].
    2:{ repeat wp_step. cbn [vol]. rewrite Ew. split; [|done].
        specialize (Hsame d0 true). rewrite Hvol in Hsame. apply Hsame; [|done].
        intros i ? ?. rewrite Hw3, Hw1 by done. done. }
    repeat wp_step. cbn [vol dev set_cache v_cache v_cached_sector v_cached_dirty]. rewrite Ew. fold s0.
    split; [apply Hsame; [intros i ? ?; rewrite Hw3, Hw1 by done; done|]|].
    { intros _. rewrite Hw3 by lia. by apply Hw2. }
    split; [|done]. intros _. split; [done|]. intros w' [= <-] _. split; [rewrite Hw3 by lia; by apply Hw2|].
    intros _. by apply Hw4.
  - repeat wp_step. cbn [negb]. repeat wp_step. cbn [vol dev set_cache v_cache v_cached_sector v_cached_dirty].
    rewrite Ew. fold s0. split; [apply Hsame; [auto|by intros _; apply Hw2]|]. split; [|done].
    intros _. split; [done|]. intros w' [= <-] _. split; [by apply Hw2|lia].
Qed.

Lemma ensure_cache_spec st :
  fat_ok st ->
  wp ensure_cache (fun okc st' => same_table st st' /\
    (okc = true -> is_Some (v_cache (vol st')))) st.
Proof.
  intros Hok. pose proof Hok as [G Hc Hs Hn He Hcl]. unfold ensure_cache. repeat wp_step.
  destruct (v_cache (vol st)) as [w|] eqn:Ew.
  { repeat wp_step. split; [by apply same_table_refl|]. by eexists. }
  specialize (He eq_refl). specialize (Hn (or_introl He)). wp_step. wp_step.
  destruct b; cbn [negb]; repeat wp_step.
  2:{ split; [|done]. constructor; [done..| |done]. constructor; cbn [vol dev]; try done; rewrite Ew; done. }
  split; [|by eexists]. constructor; [done|done| | |done].
  - intros s Hrange. unfold sector_words. cbn [vol dev set_cache v_cache v_cached_sector v_fat1_lba].
    rewrite Ew, He. destruct (Z.eqb_spec s NONE); [lia|done].
  - constructor; cbn [vol dev set_cache v_cache v_cached_sector v_cached_dirty v_fat1_lba v_fat2_lba v_spf];
      try done.
    intros w E. apply (inj Some) in E as <-. split; [done|]. by apply Forall_replicate.
Qed.

Lemma read_one d lba buf : b_read ops d lba 1 = Some buf -> buf = content d lba.
Proof. intros H%read_content. rewrite H. apply app_nil_r. Qed.

Lemma load_words st s :
  fat_ok st -> 0 <= s < v_spf (vol st) -> v_cached_dirty (vol st) = false ->
  same_table st {| vol := set_cache s false (Some (words 128 (content (dev st) (v_fat1_lba (vol st) + s))))
                            (vol st);
                   dev := dev st; mallocs := mallocs st; clock := clock st |}.
Proof.
  intros [G Hc Hs Hn He Hcl] Hrange Hd.
  assert (forall r, 0 <= r < v_spf (vol st) ->
    sector_words st r = words 128 (content (dev st) (v_fat1_lba (vol st) + r))) as Hdisk.
  { intros r Hr. unfold sector_words. destruct (v_cache (vol st)) as [w|]; [|done].
    destruct (Z.eqb_spec r (v_cached_sector (vol st))) as [->|]; [|done]. apply Hcl; [done|lia|done]. }
  constructor; [done|done| | |done].
  - intros r Hr. rewrite Hdisk by done. unfold sector_words.
    cbn [vol dev set_cache v_cache v_cached_sector v_fat1_lba]. by destruct (Z.eqb_spec r s) as [->|].
  - constructor; cbn [vol dev set_cache v_cache v_cached_sector v_cached_dirty v_fat1_lba v_fat2_lba v_spf];
      try done; [|by right|intros w E _ _; by apply (inj Some) in E as <-].
    intros w E. apply (inj Some) in E as <-. split; [apply words_length|].
    apply words_fits; [apply content_bytes|]. by rewrite content_length.
Qed.

Lemma set_cache_same v w : v_cache v = Some w -> set_cache (v_cached_sector v) (v_cached_dirty v) (Some w) v = v.
Proof. intros <-. by destruct v. Qed.

Lemma load_sector_spec st s :
  fat_ok st -> is_Some (v_cache (vol st)) -> 0 <= s < v_spf (vol st) ->
  wp (load_sector ops s) (fun okl st' => same_table st st' /\
    (okl = true -> v_cache (vol st') = Some (sector_words st s) /\ v_cached_sector (vol st') = s)) st.
Proof.
  intros Hok [w Ew] Hrange. unfold load_sector. wp_step. wp_step. wp_step.
  apply (wp_mono _ (fun rc st1 => same_table st st1 /\ (rc = 0 -> v_cached_dirty (vol st1) = false) /\ v_cache (vol st1) = Some w)).
  { destruct (v_cached_dirty (vol st)) eqn:Ed.
    - eapply wp_mono; [by apply flush_spec|]. cbn beta. intros rc st1 (H1 & H2 & H3 & _). split_and!; [done| |by rewrite H3].
      intros ->. by apply H2.
    - wp_step. split_and!; [by apply same_table_refl|done|done]. }
  intros frc st1 (Hs1 & Hclean & Ew1). destruct (Z.eqb_spec frc 0) as [->|]; cbn [negb]; [|by wp_step].
  specialize (Hclean eq_refl).
  destruct (geometry_fields _ _ (sm_geom _ _ Hs1)) as (E1 & E2 & E3 & _).
  destruct (fo_geom _ Hok) as (G1 & G2 & G3 & G4).
  rewrite (wrap_id 64 (v_fat1_lba (vol st) + s)) by (unfold fits; lia).
  rewrite Ew. change (default [] (Some w)) with w. wp_step. apply wp_blk_read_into.
  2:{ intros Er. rewrite (failed_read _ _ _ _ Er). repeat wp_step. cbn [fst snd]. split; [|done].
      destruct (fo_cache _ (sm_ok _ _ Hs1) _ Ew1) as [Hlw Hfw].
      change (Z.to_nat ENTRIES_PER_SECTOR) with 128%nat. rewrite <- Hlw, words_bytes_of by done.
      rewrite (set_cache_same _ _ Ew1). by destruct st1. }
  intros buf ->%read_one. repeat wp_step. cbn [fst snd].
  pose proof (load_words st1 s (sm_ok _ _ Hs1) ltac:(lia) Hclean) as H. rewrite E2 in H. rewrite Hclean.
  pose proof (same_table_trans _ _ _ Hs1 H) as Hfin. split; [exact Hfin|]. intros _.
  cbn [vol set_cache v_cache v_cached_sector]. split; [|done].
  rewrite <- (sm_words _ _ Hfin s Hrange). unfold sector_words. cbn [vol dev set_cache v_cache v_cached_sector].
  by rewrite Z.eqb_refl.
Qed.

Lemma sector_range st c : in_fat st c -> 0 <= c / 128 < v_spf (vol st).
Proof.
  unfold in_fat. intros H. split; [apply Z.div_pos; lia|]. apply Z.div_lt_upper_bound; lia.
Qed.

(** The 28 bits of an entry. *)
Definition entry (st : fstate D) (c : Z) : Z := Z.land (view st c) 268435455.

Lemma read_entry_spec st c :
  fat_ok st -> in_fat st c ->
  wp (fat_read_entry ops c) (fun r st' => same_table st st' /\
    forall e, r = Some e -> e = entry st c) st.
Proof.
  intros Hok Hc. pose proof (sector_range _ _ Hc) as Hr. unfold fat_read_entry.
  change ENTRIES_PER_SECTOR with 128. wp_step. wp_step. wp_step.
  apply (wp_mono _ (fun ready st1 => same_table st st1 /\
    (ready = true -> v_cache (vol st1) = Some (sector_words st (c / 128))))).
  - destruct (v_cache (vol st)) as [w|] eqn:Ew.
    + destruct (Z.eqb_spec (c / 128) (v_cached_sector (vol st))) as [E|E].
      * wp_step. split; [by apply same_table_refl|]. intros _. unfold sector_words. rewrite Ew, E, Z.eqb_refl. done.
      * eapply wp_mono; [apply load_sector_spec; [done|by rewrite Ew|done]|]. cbn beta. intros b st1 [H1 H2]. split; [done|].
        intros Hb. by apply H2.
    + wp_step. eapply wp_mono; [by apply ensure_cache_spec|]. cbn beta. intros b st1 [H1 H2].
      destruct b; cbn [negb]; [|by wp_step]. 
      destruct (geometry_fields _ _ (sm_geom _ _ H1)) as (E1 & _).
      eapply wp_mono; [apply load_sector_spec; [by apply (sm_ok st)|by apply H2|by rewrite E1]|]. cbn beta.
      intros b st2 [H3 H4]. split; [by eapply same_table_trans|]. intros Hb.
      rewrite <- (sm_words _ _ H1) by done. by apply H4.
  - intros ready st1 [Hs1 Hready]. destruct ready; cbn [negb]; [|by wp_step].
    repeat wp_step. split; [done|]. intros e [= <-]. rewrite (Hready eq_refl). done.
Qed.

Record updates (st st' : fstate D) (c value : Z) : Prop := {
  up_geom : geometry (vol st') = geometry (vol st);
  up_count : counters (vol st') = counters (vol st);
  up_ok : fat_ok st';
  up_here : entry st' c = Z.land value 268435455;
  up_other : forall k, in_fat st k -> k <> c -> view st' k = view st k;
  up_data : forall i, ~ v_fat1_lba (vol st) <= i < v_fat2_lba (vol st) + v_spf (vol st) ->
            content (dev st') i = content (dev st) i }.

Lemma merge_low old value :
  Z.land (Z.lor (Z.land old 4026531840) (Z.land value 268435455)) 268435455 = Z.land value 268435455.
Proof.
  rewrite Z.land_lor_distr_l, <- !Z.land_assoc. change (Z.land 4026531840 268435455) with 0.
  change (Z.land 268435455 268435455) with 268435455. by rewrite Z.land_0_r, Z.lor_0_l.
Qed.

Lemma lor_fits w a b : 0 <= w -> fits w a -> fits w b -> fits w (Z.lor a b).
Proof.
  intros Hw Ha Hb. rewrite <- (wrap_id w a), <- (wrap_id w b) by done. unfold wrap.
  rewrite <- !Z.land_ones, <- Z.land_lor_distr_l, Z.land_ones by done. by apply (wrap_fits w).
Qed.

Lemma land_fits w a b : 0 <= w -> fits w b -> fits w (Z.land a b).
Proof.
  intros Hw Hb. rewrite <- (wrap_id w b) by done. unfold wrap. rewrite <- Z.land_ones by done.
  rewrite Z.land_assoc, Z.land_ones by done. by apply (wrap_fits w).
Qed.

Lemma put_entry st c value w :
  fat_ok st -> in_fat st c -> v_cache (vol st) = Some w -> v_cached_sector (vol st) = c / 128 ->
  updates st {| vol := set_cache (c / 128) true
                  (Some (<[Z.to_nat (c mod 128) := Z.lor (Z.land (view st c) 4026531840)
                              (Z.land value 268435455)]> w)) (vol st);
                dev := dev st; mallocs := mallocs st; clock := clock st |} c value.
Proof.
  intros Hok Hc Hw Hs. destruct Hok as [G Hca Hse Hn He Hcl]. destruct (Hca w Hw) as [Hl Hf].
  pose proof (sector_range _ _ Hc) as Hr. pose proof (Z.mod_pos_bound c 128 ltac:(lia)) as Hm.
  set (x := Z.lor _ _). set (st' := {| vol := _ |}).
  assert (sector_words st' (c / 128) = <[Z.to_nat (c mod 128) := x]> w) as E1.
  { unfold sector_words, st'. cbn [vol set_cache v_cache v_cached_sector]. by rewrite Z.eqb_refl. }
  assert (forall s, s <> c / 128 -> sector_words st' s = sector_words st s) as E2.
  { intros s Hne. unfold sector_words, st'. cbn [vol dev set_cache v_cache v_cached_sector v_fat1_lba].
    rewrite Hw, Hs. by destruct (Z.eqb_spec s (c / 128)). }
  assert (sector_words st (c / 128) = w) as E3 by (unfold sector_words; by rewrite Hw, Hs, Z.eqb_refl).
  constructor; [done|done| | | |done].
  - constructor; cbn [st' vol dev set_cache v_cache v_cached_sector v_cached_dirty v_fat1_lba v_fat2_lba v_spf];
      try done.
    + intros w' [= <-]. split; [by rewrite length_insert|]. apply Forall_insert; [done|].
      unfold x. apply lor_fits; [lia|apply land_fits; [lia|unfold fits; lia]..].
    + by right.
    + intros [?|?]; [lia|done].
  - unfold entry, view. rewrite E1, list_lookup_insert_eq by (rewrite Hl; lia). apply merge_low.
  - intros k Hk Hne. unfold view. destruct (Z.eq_dec (k / 128) (c / 128)) as [E|E]; [|by rewrite E2].
    rewrite E, E1, E3. rewrite list_lookup_insert_ne; [done|].
    pose proof (Z.mod_pos_bound k 128 ltac:(lia)). pose proof (Z.div_mod k 128). pose proof (Z.div_mod c 128). lia.
Qed.

Lemma write_entry_spec st c value :
  fat_ok st -> in_fat st c ->
  wp (fat_write_entry ops c value) (fun rc st' =>
    (rc = 0 /\ updates st st' c value) \/ (rc = -1 /\ same_table st st')) st.
Proof.
  intros Hok Hc. pose proof (sector_range _ _ Hc) as Hr. unfold fat_write_entry.
  change ENTRIES_PER_SECTOR with 128. wp_step.
  eapply wp_mono; [by apply ensure_cache_spec|]. cbn beta. intros okc st1 [H1 H2].
  destruct okc; cbn [negb]; [|wp_step; by right]. destruct (H2 eq_refl) as [w1 Hw1].
  destruct (geometry_fields _ _ (sm_geom _ _ H1)) as (E1 & _). wp_step. wp_step. wp_step.
  apply (wp_mono _ (fun ready st2 => same_table st st2 /\
    (ready = true -> v_cache (vol st2) = Some (sector_words st (c / 128)) /\
                     v_cached_sector (vol st2) = c / 128))).
  { destruct (Z.eqb_spec (c / 128) (v_cached_sector (vol st1))) as [E|E]; cbn [negb].
    - wp_step. split; [done|]. intros _. split; [|done]. rewrite <- (sm_words _ _ H1) by done.
      unfold sector_words. by rewrite Hw1, E, Z.eqb_refl.
    - eapply wp_mono; [apply load_sector_spec; [by apply (sm_ok st)|by rewrite Hw1|by rewrite E1]|]. cbn beta.
      intros b st2 [H3 H4]. split; [by eapply same_table_trans|]. intros Hb.
      rewrite <- (sm_words _ _ H1) by done. by apply H4. }
  intros ready st2 [Hs Hready]. destruct ready; cbn [negb]; [|wp_step; by right].
  destruct (Hready eq_refl) as [Hw2 Hcs]. repeat wp_step. left. split; [done|].
  pose proof (put_entry st2 c value (sector_words st (c / 128)) (sm_ok _ _ Hs)
    (same_table_in_fat _ _ _ Hs Hc) Hw2 Hcs) as [U1 U2 U3 U4 U5 U6].
  assert (default 0 (default [] (Some (sector_words st (c / 128))) !! Z.to_nat (c mod 128)) = view st2 c)
    as Ev by (rewrite (same_table_view _ _ _ Hs Hc); reflexivity).
  rewrite Hw2, Hcs, Ev. change (default [] (Some (sector_words st (c / 128)))) with (sector_words st (c / 128)).
  destruct Hs as [S1 S2 S3 S4 S5].
  destruct (geometry_fields _ _ S1) as (F1 & F2 & F3 & _). unfold in_fat in U5. rewrite F1 in U5, U6. rewrite F2, F3 in U6.
  constructor; [congruence|congruence|done|done| |].
  - intros k Hk Hne. rewrite U5 by done. by apply same_table_view.
  - intros i Hi. rewrite U6 by done. by apply S5.
Qed.

(** ** A device and an allocator that do not fail *)

Definition reliable : Prop :=
  (forall d lba n, is_Some (b_read ops d lba n)) /\
  (forall d lba n buf, (b_write ops d lba n buf).1 = true).

Lemma flush_reliable (st : fstate D) :
  reliable -> wp (fat32_flush ops) (fun rc st' => rc = 0 /\ mallocs st' = mallocs st) st.
Proof.
  intros [_ Hwr]. unfold fat32_flush. repeat wp_step. destruct (v_cache (vol st)); [|by repeat wp_step].
  destruct (negb _); [by repeat wp_step|]. wp_step. wp_step.
  match type of Hw with b_write _ ?a ?b ?c ?d = _ => pose proof (Hwr a b c d) as H; rewrite Hw in H end.
  simpl in H. subst okw. cbn [negb]. destruct (_ >=? 2).
  - wp_step. wp_step. match type of Hw0 with b_write _ ?a ?b ?c ?d = _ => pose proof (Hwr a b c d) as H; rewrite Hw0 in H end.
    simpl in H. subst okw. cbn [negb]. by repeat wp_step.
  - repeat wp_step. cbn [negb]. by repeat wp_step.
Qed.

Lemma ensure_reliable (st : fstate D) :
  mallocs st = [] -> wp ensure_cache (fun okc st' => okc = true /\ mallocs st' = []) st.
Proof.
  intros Hm. unfold ensure_cache. repeat wp_step. destruct (v_cache (vol st)); [by repeat wp_step|].
  unfold wp, mbind, M_bind, malloc. rewrite Hm. done.
Qed.

Lemma load_reliable (st : fstate D) s :
  reliable -> mallocs st = [] -> wp (load_sector ops s) (fun okl st' => okl = true /\ mallocs st' = []) st.
Proof.
  intros Hrel Hm. unfold load_sector. wp_step. wp_step. wp_step.
  apply (wp_mono _ (fun rc st' => rc = 0 /\ mallocs st' = [])).
  { destruct (v_cached_dirty (vol st)); [|by wp_step].
    eapply wp_mono; [by apply flush_reliable|]. cbn beta. intros rc st' [-> ->]. done. }
  intros rc st' [-> Hm']. cbn [Z.eqb negb]. wp_step. apply wp_blk_read_into.
  { intros buf _. by repeat wp_step. }
  intros E. destruct (proj1 Hrel (dev st') (u64 (v_fat1_lba (vol st) + s)) 1) as [buf E']. by rewrite E' in E.
Qed.

Lemma read_entry_reliable (st : fstate D) c :
  reliable -> mallocs st = [] -> wp (fat_read_entry ops c) (fun r st' => is_Some r /\ mallocs st' = []) st.
Proof.
  intros Hrel Hm. unfold fat_read_entry. wp_step. wp_step. wp_step.
  apply (wp_mono _ (fun ready st' => ready = true /\ mallocs st' = [])).
  { destruct (v_cache (vol st)).
    - destruct (_ =? _); [by wp_step|by apply load_reliable].
    - wp_step. eapply wp_mono; [by apply ensure_reliable|]. cbn beta. intros b st' [-> Hm'].
      cbn [negb]. by apply load_reliable. }
  intros b st' [-> Hm']. cbn [negb]. repeat wp_step. split; [by eexists|done].
Qed.

Lemma write_entry_reliable (st : fstate D) c value :
  reliable -> mallocs st = [] ->
  wp (fat_write_entry ops c value) (fun rc st' => rc = 0 /\ mallocs st' = []) st.
Proof.
  intros Hrel Hm. unfold fat_write_entry. wp_step. eapply wp_mono; [by apply ensure_reliable|]. cbn beta.
  intros b st' [-> Hm']. cbn [negb]. wp_step. wp_step. wp_step.
  apply (wp_mono _ (fun ready st' => ready = true /\ mallocs st' = [])).
  { destruct (negb _); [by apply load_reliable|by wp_step]. }
  intros b st2 [-> Hm2]. cbn [negb]. by repeat wp_step.
Qed.

Lemma wp_and {A} (m : M D A) Q R st : wp m Q st -> wp m R st -> wp m (fun a st' => Q a st' /\ R a st') st.
Proof. unfold wp. destruct (m st) as [[a st']|]; done. Qed.

Lemma read_entry_ok st c :
  reliable -> mallocs st = [] -> fat_ok st -> in_fat st c ->
  wp (fat_read_entry ops c) (fun r st' => r = Some (entry st c) /\ same_table st st' /\ mallocs st' = []) st.
Proof.
  intros Hrel Hm Hok Hc.
  eapply wp_mono; [apply wp_and; [by apply read_entry_spec|by apply read_entry_reliable]|].
  cbn beta. intros r st' [[H1 H2] [[e ->] H3]]. split; [f_equal; by apply H2|done].
Qed.

Lemma write_entry_ok st c value :
  reliable -> mallocs st = [] -> fat_ok st -> in_fat st c ->
  wp (fat_write_entry ops c value) (fun rc st' => rc = 0 /\ updates st st' c value /\ mallocs st' = []) st.
Proof.
  intros Hrel Hm Hok Hc.
  eapply wp_mono; [apply wp_and; [by apply write_entry_spec|by apply write_entry_reliable]|].
  cbn beta. intros rc st' [[[_ H1]|[-> _]] [? H3]]; [done|lia].
Qed.

Lemma same_table_entry st st' c : same_table st st' -> in_fat st c -> entry st' c = entry st c.
Proof. intros. unfold entry. by rewrite (same_table_view st st'). Qed.

Lemma updates_after st st1 st2 c value : same_table st st1 -> updates st1 st2 c value -> updates st st2 c value.
Proof.
  intros [G1 C1 W1 O1 D1] [G2 C2 O2 H2 V2 D2]. destruct (geometry_fields _ _ G1) as (E1 & E2 & E3 & _).
  unfold in_fat in V2. rewrite E1 in V2, D2. rewrite E2, E3 in D2.
  constructor; [congruence|congruence|done|done| |].
  - intros k Hk Hne. rewrite V2 by done. by apply same_table_view.
  - intros i Hi. rewrite D2, D1 by done. done.
Qed.

(** ** Allocation of one cluster *)

(** The clusters of the volume have entries in the FAT. *)
Definition clusters_ok (st : fstate D) : Prop :=
  2 < v_total_clusters (vol st) /\ v_total_clusters (vol st) <= 128 * v_spf (vol st) /\
  v_total_clusters (vol st) < 2 ^ 32.

Lemma clusters_in_fat st c : clusters_ok st -> 2 <= c < v_total_clusters (vol st) -> in_fat st c.
Proof. unfold clusters_ok, in_fat. lia. Qed.

Lemma scan_one n : forall st cluster,
  fat_ok st -> clusters_ok st -> 2 <= cluster <= v_total_clusters (vol st) ->
  let total := v_total_clusters (vol st) in
  (forall k, 2 <= k < cluster -> entry st k <> 0) ->
  (total - cluster <= Z.of_nat n \/ forall k, 2 <= k < total -> entry st k <> 0) ->
  wp (alloc_scan ops n total 1 cluster 0 0) (fun r st' => same_table st st' /\
    (mallocs st = [] -> reliable -> is_Some r /\ mallocs st' = []) /\
    forall first found, r = Some (first, found) ->
      (found = 1 /\ 2 <= first < total /\ entry st first = 0 /\
         forall k, 2 <= k < first -> entry st k <> 0) \/
      (found = 0 /\ first = 0 /\ forall k, 2 <= k < total -> entry st k <> 0)) st.
Proof.
  induction n as [|n IH]; intros st cluster Hok Hcl Hr total Hlow Hn; cbn [alloc_scan].
  { wp_step. split; [by apply same_table_refl|]. split; [intros; split; [by eexists|done]|].
    intros first found [= <- <-]. right. split; [done|]. split; [done|].
    destruct Hn as [Hn|]; [|done]. intros k Hk. apply Hlow. lia. }
  unfold clusters_ok in Hcl. fold total in Hcl, Hr.
  set (c := if cluster >=? total then 2 else cluster).
  assert (2 <= c < total) as Hc by (unfold c; destruct (Z.geb_spec cluster total); lia).
  assert (forall k, 2 <= k < c -> entry st k <> 0) as Hlowc.
  { intros k Hk. apply Hlow. unfold c in Hk. destruct (Z.geb_spec cluster total); lia. }
  assert (total - c <= Z.of_nat (S n) \/ forall k, 2 <= k < total -> entry st k <> 0) as Hnc.
  { unfold c. destruct (Z.geb_spec cluster total); [|done].
    right. destruct Hn as [Hn|]; [|done]. intros k Hk. apply Hlow. lia. }
  wp_step. assert (in_fat st c) as Hin by (unfold in_fat; lia).
  eapply wp_mono; [apply wp_and; [by apply read_entry_spec|]|].
  { instantiate (1 := fun r st' => mallocs st = [] -> reliable -> is_Some r /\ mallocs st' = []).
    pose proof (read_entry_spec st c Hok Hin) as Hw. unfold wp in *.
    destruct (fat_read_entry ops c st) as [[r st']|] eqn:E; [|done]. intros Hm Hrel.
    pose proof (read_entry_reliable st c Hrel Hm) as Hr'. unfold wp in Hr'. rewrite E in Hr'. done. }
  cbn beta. intros r st1 [[Hs1 He] Hrl]. destruct r as [e|].
  2:{ wp_step. split; [done|]. split; [|done]. intros Hm Hrel. destruct (Hrl Hm Hrel) as [[? ?] _]. done. }
  specialize (He e eq_refl). subst e.
  destruct (geometry_fields _ _ (sm_geom _ _ Hs1)) as (F1 & _ & _ & F4 & _).
  destruct (Z.eqb_spec (entry st c) FAT32_CLUSTER_FREE) as [Efree|Efree].
  - change (u32 (0 + 1)) with 1. cbn [Z.eqb Z.geb Z.compare Pos.compare Pos.compare_cont]. wp_step.
    split; [done|]. split; [intros Hm Hrel; split; [by eexists|by apply Hrl]|].
    intros first found [= <- <-]. left. done.
  - assert (u32 (c + 1) = c + 1) as Eu by (apply wrap_id; unfold fits; lia). rewrite Eu.
    specialize (IH st1 (c + 1) (sm_ok _ _ Hs1)). rewrite F4 in IH. fold total in IH.
    assert (forall k, 2 <= k < total -> entry st1 k = entry st k) as Hent
      by (intros k Hk; apply same_table_entry; [done|unfold in_fat; lia]).
    eapply wp_mono; [apply IH|].
    + unfold clusters_ok. rewrite F1, F4. fold total. lia.
    + lia.
    + intros k Hk. rewrite Hent by lia. destruct (Z.eq_dec k c) as [->|]; [done|]. apply Hlowc. lia.
    + destruct Hnc as [|Hall]; [left; lia|right]. intros k Hk. rewrite Hent by done. by apply Hall.
    + cbn beta. intros r st2 (H1 & H2 & H3). split; [by eapply same_table_trans|].
      split; [intros Hm Hrel; apply H2; [by apply Hrl|done]|].
      intros first found Hr'. destruct (H3 first found Hr') as [(? & ? & Hf & Hl)|(? & ? & Hall)].
      * left. split; [done|]. split; [done|]. rewrite Hent in Hf by done. split; [done|].
        intros k Hk. rewrite <- Hent by lia. by apply Hl.
      * right. split; [done|]. split; [done|]. intros k Hk. rewrite <- Hent by done. by apply Hall.
Qed.

(** The state with the free counters replaced. *)
Definition with_counters (st : fstate D) (free next : Z) : fstate D :=
  {| vol := set_free free next (vol st); dev := dev st; mallocs := mallocs st; clock := clock st |}.

(** What a successful allocation of one cluster does. *)
Record allocated (st st' : fstate D) (c : Z) : Prop := {
  al_range : 2 <= c < v_total_clusters (vol st);
  al_free : entry st c = 0;
  al_least : forall k, 2 <= k < c -> entry st k <> 0;
  al_update : exists st1 free next, updates st st1 c FAT32_CLUSTER_EOC /\ st' = with_counters st1 free next /\
    free = (if v_free_clusters (vol st) >? 1 then v_free_clusters (vol st) - 1
            else v_free_clusters (vol st)) }.

Lemma alloc_one_spec st :
  fat_ok st -> clusters_ok st ->
  wp (fat32_alloc_clusters ops 1 0) (fun c st' =>
    ((c = 0 /\ same_table st st') \/ allocated st st' c) /\
    (mallocs st = [] -> reliable -> mallocs st' = [] /\
       (c = 0 -> forall k, 2 <= k < v_total_clusters (vol st) -> entry st k <> 0))) st.
Proof.
  intros Hok Hcl. unfold fat32_alloc_clusters. cbn [Z.eqb]. wp_step. wp_step. wp_step.
  pose proof Hcl as (Hc1 & Hc2 & Hc3).
  eapply wp_mono; [apply (scan_one _ st 2 Hok Hcl); [lia|lia|left; lia]|]. cbn beta.
  intros r st1 (Hs1 & Hrel1 & Hres). destruct r as [[first found]|].
  2:{ wp_step. split; [by left|]. intros Hm Hrel. destruct (Hrel1 Hm Hrel) as [[? ?] _]. done. }
  destruct (Hres first found eq_refl) as [(-> & Hf & He & Hl)|(-> & -> & Hall)].
  2:{ cbn [Z.ltb Z.compare]. wp_step. split; [by left|]. intros Hm Hrel. split; [by apply Hrel1|done]. }
  cbn [Z.ltb Z.compare Pos.compare Pos.compare_cont]. change (Z.to_nat 1) with 1%nat. cbn [alloc_link].
  change (u32 (1 - 1)) with 0. cbn [Z.ltb Z.compare]. rewrite Z.add_0_r.
  rewrite (wrap_id 32 first) by (unfold fits; lia).
  destruct (geometry_fields _ _ (sm_geom _ _ Hs1)) as (F1 & _ & _ & F4 & _).
  assert (in_fat st1 first) as Hin by (unfold in_fat; rewrite F1; lia).
  wp_step. wp_step. eapply wp_mono; [apply wp_and; [by apply write_entry_spec; [apply (sm_ok st)|]|]|].
  { instantiate (1 := fun rc st' => mallocs st1 = [] -> reliable -> rc = 0 /\ mallocs st' = []).
    pose proof (write_entry_spec st1 first FAT32_CLUSTER_EOC (sm_ok _ _ Hs1) Hin) as Hw. unfold wp in *.
    destruct (fat_write_entry ops first FAT32_CLUSTER_EOC st1) as [[rc st']|] eqn:E; [|done]. intros Hm Hrel.
    pose proof (write_entry_reliable st1 first FAT32_CLUSTER_EOC Hrel Hm) as Hr'. unfold wp in Hr'. by rewrite E in Hr'. }
  cbn beta. intros rc st2 [[[-> Hup]|[-> Hs2]] Hrel2].
  - cbn [Z.eqb negb]. repeat wp_step. cbn [negb]. repeat wp_step.
    split.
    + right. constructor; [done|done|done|].
      exists st2. eexists _, _. split; [by eapply updates_after|]. split; [reflexivity|].
      assert (counters (vol st2) = counters (vol st)) as Ec
        by (rewrite (up_count _ _ _ _ Hup); apply (sm_count _ _ Hs1)).
      unfold counters in Ec. by injection Ec as -> _.
    + intros Hm Hrel. destruct (Hrel1 Hm Hrel) as [_ Hm1]. destruct (Hrel2 Hm1 Hrel) as [_ Hm2].
      split; [done|]. lia.
  - cbn [Z.eqb negb]. repeat wp_step. cbn [negb]. repeat wp_step. split; [left; split; [done|by eapply same_table_trans]|].
    intros Hm Hrel. destruct (Hrel1 Hm Hrel) as [_ Hm1]. by destruct (Hrel2 Hm1 Hrel).
Qed.
End table.
