(* ===== verification/Fat32Chains.v ===== *)
(** * Cluster chains, the RAM disk and names

    Freeing chains, the theorems about the table and about chains with a RAM
    disk as the device of their witnesses, and the conversions of names and of
    cluster numbers. *)

From S2P Require Import Prelude Fat32 Fat32Facts.
Open Scope Z_scope.

Section chains.
Context {D : Type} (ops : blk_ops D) `{BD : !BlkDev ops}.

(** [chain st c l]: the entries from [c] link the clusters [l], the last one is
    an end mark. *)
Inductive chain (st : fstate D) : Z -> list Z -> Prop :=
  | chain_end c : 2 <= c < FAT32_CLUSTER_EOC -> FAT32_CLUSTER_EOC <= entry ops st c -> chain st c [c]
  | chain_next c l :
      2 <= c < FAT32_CLUSTER_EOC -> 2 <= entry ops st c < FAT32_CLUSTER_EOC ->
      chain st (entry ops st c) l -> chain st c (c :: l).

Lemma chain_ext st st' c l :
  (forall k, k ∈ l -> entry ops st' k = entry ops st k) -> chain st c l -> chain st' c l.
Proof.
  intros H Hc. induction Hc as [c Hc He|c l Hc He _ IH].
  - constructor; [done|]. rewrite H by set_solver. done.
  - assert (entry ops st' c = entry ops st c) as E by (apply H; set_solver).
    constructor; [done|by rewrite E|]. rewrite E. apply IH. intros k Hk. apply H. set_solver.
Qed.

(** Exactly the clusters [l] became free. *)
Record freed (st st' : fstate D) (l : list Z) : Prop := {
  fr_geom : geometry (vol st') = geometry (vol st);
  fr_ok : fat_ok ops st';
  fr_mallocs : mallocs st' = [];
  fr_here : forall k, k ∈ l -> entry ops st' k = 0;
  fr_other : forall k, in_fat st k -> k ∉ l -> view ops st' k = view ops st k;
  fr_data : forall i, ~ v_fat1_lba (vol st) <= i < v_fat2_lba (vol st) + v_spf (vol st) ->
            content (dev st') i = content (dev st) i;
  fr_free : v_free_clusters (vol st') = u32 (v_free_clusters (vol st) + Z.of_nat (length l)) }.

Lemma with_counters_ok st f n : fat_ok ops st -> fat_ok ops (with_counters st f n).
Proof. intros [? ? ? ? ? ?]. by constructor. Qed.

(** One round: read the entry, free it, count it. *)
Lemma free_round st c :
  reliable ops -> mallocs st = [] -> fat_ok ops st -> in_fat st c ->
  wp (fat_read_entry ops c) (fun r st1 => r = Some (entry ops st c) /\
    wp (fat_write_entry ops c FAT32_CLUSTER_FREE) (fun _ st2 =>
      freed st (with_counters st2 (u32 (v_free_clusters (vol st2) + 1)) (v_next_free (vol st2))) [c]) st1) st.
Proof.
  intros Hrel Hm Hok Hin. eapply wp_mono; [by apply read_entry_ok|]. cbn beta.
  intros r st1 (-> & Hs1 & Hm1). split; [done|].
  eapply wp_mono; [apply write_entry_ok; [done|done|by apply (sm_ok ops st)|by eapply same_table_in_fat]|].
  cbn beta. intros rc st2 (-> & Hup & Hm2). eapply updates_after in Hup; [|exact Hs1].
  destruct Hup as [U1 U2 U3 U4 U5 U6]. unfold counters in U2. injection U2 as E1 E2.
  constructor; cbn [with_counters vol dev mallocs set_free v_free_clusters length]; try done.
  - by apply with_counters_ok.
  - intros k ->%list_elem_of_singleton. exact U4.
  - intros k Hk Hne. apply U5; [done|set_solver].
  - by rewrite E1.
Qed.

Lemma freed_cons st st1 st2 c l :
  fits 32 (v_free_clusters (vol st)) -> in_fat st c -> c ∉ l -> (forall k, k ∈ l -> in_fat st k) ->
  freed st st1 [c] -> freed st1 st2 l -> freed st st2 (c :: l).
Proof.
  intros Hf Hc Hnl Hl [G1 O1 M1 H1 V1 D1 F1] [G2 O2 M2 H2 V2 D2 F2].
  destruct (geometry_fields _ _ G1) as (E1 & E2 & E3 & _). unfold in_fat in *. rewrite E1 in V2, D2.
  rewrite E2, E3 in D2. constructor; [congruence|done|done| | | |].
  - intros k [->|Hk]%elem_of_cons; [|by apply H2]. unfold entry.
    rewrite V2 by done. apply H1. set_solver.
  - intros k Hk Hne. rewrite V2, V1 by set_solver. done.
  - intros i Hi. rewrite D2, D1 by done. done.
  - rewrite F2, F1. unfold wrap. rewrite Zplus_mod_idemp_l. f_equal. cbn [length]. lia.
Qed.

Lemma free_chain_spec l : forall st c fuel,
  reliable ops -> mallocs st = [] -> fat_ok ops st -> fits 32 (v_free_clusters (vol st)) ->
  chain st c l -> NoDup l -> (forall k, k ∈ l -> in_fat st k) -> (length l <= fuel)%nat ->
  wp (fat32_free_chain ops fuel c) (fun _ st' => freed st st' l) st.
Proof.
  induction l as [|c0 l IH]; intros st c fuel Hrel Hm Hok Hf Hch Hnd Hin Hfuel; [by inversion Hch|].
  apply NoDup_cons in Hnd as [Hnc Hnd].
  assert (c0 = c /\ 2 <= c < FAT32_CLUSTER_EOC) as [-> Hc] by (by inversion Hch).
  destruct fuel as [|fuel]; [simpl in Hfuel; lia|]. unfold fat32_free_chain. cbn [free_loop].
  destruct (Z.geb_spec c 2); [|lia]. destruct (Z.ltb_spec c FAT32_CLUSTER_EOC); [|lia]. cbn [andb].
  assert (in_fat st c) as Hcin by (apply Hin; set_solver).
  wp_step. eapply wp_mono; [by apply free_round|]. cbn beta. intros r st1 [-> Hround].
  wp_step. eapply wp_mono; [exact Hround|]. cbn beta. intros _ st2 Hfr. wp_step. wp_step.
  change {| vol := _; dev := _; mallocs := _; clock := _ |}
    with (with_counters st2 (u32 (v_free_clusters (vol st2) + 1)) (v_next_free (vol st2))).
  set (st3 := with_counters _ _ _) in *.
  inversion Hch as [? _ He|? ? _ He Hrest]; subst.
  - destruct (Z.geb_spec (entry ops st c) FAT32_CLUSTER_EOC); [|lia]. wp_step. exact Hfr.
  - destruct (Z.geb_spec (entry ops st c) FAT32_CLUSTER_EOC); [lia|].
    destruct (geometry_fields _ _ (fr_geom _ _ _ Hfr)) as (E1 & _).
    eapply wp_mono; [apply (IH st3 (entry ops st c) fuel); try done|].
    + apply (fr_mallocs _ _ _ Hfr).
    + apply (fr_ok _ _ _ Hfr).
    + rewrite (fr_free _ _ _ Hfr). by apply wrap_fits.
    + eapply chain_ext; [|exact Hrest]. intros k Hk. unfold entry.
      rewrite (fr_other _ _ _ Hfr); [done|apply Hin; set_solver|set_solver].
    + intros k Hk. unfold in_fat. rewrite E1. apply Hin. set_solver.
    + simpl in Hfuel. lia.
    + cbn beta. intros _ st' Hfr'. eapply freed_cons; try done. intros k Hk. apply Hin. set_solver.
Qed.

(** ** Termination on any table *)

Definition used (st : fstate D) (S : list Z) : nat :=
  length (filter (fun k => entry ops st k <> 0) S).

Lemma used_decreases st st' c S :
  (forall k, k ∈ S -> k <> c -> entry ops st' k = entry ops st k) ->
  entry ops st' c = 0 -> entry ops st c <> 0 -> c ∈ S -> NoDup S ->
  (used st' S < used st S)%nat.
Proof.
  unfold used. intros Hsame H0 Hn0. induction S as [|x S IH]; intros Hin Hnd; [by inversion Hin|].
  apply NoDup_cons in Hnd as [Hx Hnd].
  assert (forall T : list Z, c ∉ T -> (forall k, k ∈ T -> k ∈ x :: S) ->
    filter (fun k => entry ops st' k <> 0) T = filter (fun k => entry ops st k <> 0) T) as Heq.
  { intros T HcT HT. induction T as [|y T IHT]; [done|].
    assert (entry ops st' y = entry ops st y) as E by (apply Hsame; [apply HT|]; set_solver).
    rewrite !filter_cons. rewrite IHT by set_solver. by rewrite E. }
  apply elem_of_cons in Hin as [<-|Hin].
  - rewrite filter_cons_False by (intros Hne; by apply Hne). rewrite filter_cons_True by done.
    rewrite (Heq S) by set_solver. simpl. lia.
  - assert (x <> c) as Hxc by set_solver.
    assert (entry ops st' x = entry ops st x) as E by (apply Hsame; [set_solver|done]).
    specialize (IH ltac:(intros k Hk; apply Hsame; set_solver) Hin Hnd).
    rewrite !filter_cons, E. case_decide; simpl; lia.
Qed.

Definition all_clusters (st : fstate D) : list Z := seqZ 0 (128 * v_spf (vol st)).

Lemma free_chain_total fuel : forall st c,
  reliable ops -> mallocs st = [] -> fat_ok ops st -> fits 32 (v_free_clusters (vol st)) ->
  (forall k, in_fat st k -> 2 <= entry ops st k < FAT32_CLUSTER_EOC -> in_fat st (entry ops st k)) ->
  (2 <= c < FAT32_CLUSTER_EOC -> in_fat st c) -> (used st (all_clusters st) < fuel)%nat ->
  wp (fat32_free_chain ops fuel c) (fun _ _ => True) st.
Proof.
  induction fuel as [|fuel IH]; intros st c Hrel Hm Hok Hf Hcl Hc Hfuel; [lia|].
  unfold fat32_free_chain. cbn [free_loop].
  destruct (Z.geb_spec c 2); [|done]. destruct (Z.ltb_spec c FAT32_CLUSTER_EOC); [|done]. cbn [andb].
  assert (in_fat st c) as Hcin by (apply Hc; lia).
  wp_step. eapply wp_mono; [by apply free_round|]. cbn beta. intros r st1 [-> Hround].
  wp_step. eapply wp_mono; [exact Hround|]. cbn beta. intros _ st2 Hfr. wp_step. wp_step.
  change {| vol := _; dev := _; mallocs := _; clock := _ |}
    with (with_counters st2 (u32 (v_free_clusters (vol st2) + 1)) (v_next_free (vol st2))).
  set (st3 := with_counters _ _ _) in *.
  destruct (Z.geb_spec (entry ops st c) FAT32_CLUSTER_EOC); [by wp_step|].
  destruct (Z.eq_dec (entry ops st c) 0) as [E0|E0].
  { rewrite E0. destruct fuel; cbn [free_loop Z.geb Z.compare andb]; by wp_step. }
  destruct (geometry_fields _ _ (fr_geom _ _ _ Hfr)) as (E1 & _).
  assert (forall k, in_fat st k -> k <> c -> entry ops st3 k = entry ops st k) as Hsame.
  { intros k Hk Hne. unfold entry. rewrite (fr_other _ _ _ Hfr); [done|done|set_solver]. }
  assert (entry ops st3 c = 0) as Hz0 by (apply (fr_here _ _ _ Hfr); set_solver).
  apply IH; try done.
  - apply (fr_mallocs _ _ _ Hfr).
  - apply (fr_ok _ _ _ Hfr).
  - rewrite (fr_free _ _ _ Hfr). by apply wrap_fits.
  - intros k Hk. unfold in_fat in *. rewrite E1 in *. destruct (Z.eq_dec k c) as [->|]; [rewrite Hz0; lia|].
    rewrite Hsame by done. by apply Hcl.
  - intros Hr. unfold in_fat in *. rewrite E1. apply Hcl; [done|lia].
  - unfold all_clusters in *. rewrite E1.
    pose proof (used_decreases st st3 c (seqZ 0 (128 * v_spf (vol st)))) as Hdec.
    specialize (Hdec ltac:(intros k Hk Hne; apply Hsame; [unfold in_fat; apply elem_of_seqZ in Hk; lia|done]) Hz0 E0).
    specialize (Hdec ltac:(apply elem_of_seqZ; unfold in_fat in Hcin; lia) ltac:(apply NoDup_seqZ)). lia.
Qed.
End chains.

(** ** A RAM disk *)

(** The sectors written, the latest first; the others hold zeros. *)
Definition ramdisk : Type := list (Z * list Z).
Definition norm (b : list Z) : list Z := take 512 ((wrap 8 <$> b) ++ replicate 512 0).
Fixpoint ram_sector (d : ramdisk) (i : Z) : list Z :=
  match d with
  | [] => replicate 512 0
  | (j, b) :: d => if i =? j then norm b else ram_sector d i
  end.
Fixpoint ram_sectors (lba : Z) (k : nat) (buf : list Z) : ramdisk :=
  match k with O => [] | S k => (lba, take 512 buf) :: ram_sectors (lba + 1) k (drop 512 buf) end.
Definition ram_ops : blk_ops ramdisk := {|
  b_read := fun d lba n => Some (concat (ram_sector d <$> seqZ lba n));
  b_torn := fun _ _ _ old => old;
  b_write := fun d lba n buf => (true, ram_sectors lba (Z.to_nat n) buf ++ d);
  b_n_sectors := 65536 |}.

Lemma norm_length b : length (norm b) = 512%nat.
Proof. unfold norm. rewrite length_take, length_app, length_replicate. lia. Qed.
Lemma norm_bytes b : Forall is_byte (norm b).
Proof.
  unfold norm. apply Forall_take, Forall_app. split; [|by apply Forall_replicate].
  apply Forall_fmap, Forall_true. intros x. by apply wrap_fits.
Qed.
Lemma wrap_bytes b : Forall is_byte b -> wrap 8 <$> b = b.
Proof. induction 1 as [|x b Hx _ IH]; [done|]. cbn. rewrite wrap_id by done. by f_equal. Qed.
Lemma norm_id b : length b = 512%nat -> Forall is_byte b -> norm b = b.
Proof.
  intros Hl Hb. unfold norm. rewrite wrap_bytes by done. rewrite take_app_le by lia. apply take_ge. lia.
Qed.

Lemma ram_sector_length d i : length (ram_sector d i) = 512%nat.
Proof. induction d as [|[j b] d IH]; cbn [ram_sector]; [done|]. destruct (i =? j); [apply norm_length|done]. Qed.
Lemma ram_sector_bytes d i : Forall is_byte (ram_sector d i).
Proof.
  induction d as [|[j b] d IH]; cbn [ram_sector]; [by apply Forall_replicate|].
  destruct (i =? j); [apply norm_bytes|done].
Qed.

Lemma ram_written k : forall lba buf d i,
  length buf = (512 * k)%nat -> Forall is_byte buf -> lba <= i < lba + Z.of_nat k ->
  ram_sector (ram_sectors lba k buf ++ d) i = slice buf (Z.to_nat (512 * (i - lba))) 512.
Proof.
  induction k as [|k IH]; intros lba buf d i Hl Hb Hi; [lia|].
  cbn [ram_sectors app ram_sector]. destruct (Z.eqb_spec i lba) as [->|Hne].
  - rewrite Z.sub_diag. unfold slice. change (Z.to_nat (512 * 0)) with 0%nat. rewrite drop_0.
    apply norm_id; [rewrite length_take; lia|by apply Forall_take].
  - rewrite IH; [|rewrite length_drop; lia|by apply Forall_drop|lia].
    unfold slice. rewrite drop_drop. do 2 f_equal. lia.
Qed.
Lemma ram_untouched k : forall lba buf d i,
  ~ lba <= i < lba + Z.of_nat k -> ram_sector (ram_sectors lba k buf ++ d) i = ram_sector d i.
Proof.
  induction k as [|k IH]; intros lba buf d i Hi; [done|]. cbn [ram_sectors app ram_sector].
  destruct (Z.eqb_spec i lba); [lia|]. apply IH. lia.
Qed.

#[export] Instance ram_blkdev : BlkDev ram_ops.
Proof.
  refine {| content := ram_sector |}.
  - apply ram_sector_length.
  - apply ram_sector_bytes.
  - intros d lba n buf E. by injection E as <-.
  - done.
  - intros d lba n buf d' E Hn Hl Hb i Hi. cbn [ram_ops b_write] in E. injection E as <-.
    apply ram_written; [lia|done|lia].
  - intros d lba n buf okw d' i E Hi. cbn [ram_ops b_write] in E. injection E as _ <-.
    apply ram_untouched. lia.
Defined.

Lemma ram_reliable : reliable ram_ops.
Proof. split; [intros; by eexists|done]. Qed.

(** A small volume: FATs of one sector at 32 and 33, eight clusters of one
    sector; clusters 3 to 5 form a chain. *)
Definition small_vol : fat32_volume :=
  {| v_mounted := true; v_dirty := false; v_spc := 1; v_bpc := 512; v_reserved := 32;
     v_num_fats := 2; v_spf := 1; v_root_cluster := 2; v_fat1_lba := 32; v_fat2_lba := 33;
     v_data_lba := 34; v_total_clusters := 8; v_free_clusters := 2; v_next_free := 2;
     v_fs_info_lba := 1; v_cached_sector := 4294967295; v_cached_dirty := false; v_cache := None |}.
Definition small_fat : list Z :=
  bytes_of ([268435448; 268435455; 268435455; 4; 5; 268435455] ++ replicate 122 0).
Definition small : fstate ramdisk :=
  {| vol := small_vol; dev := [(32, small_fat); (33, small_fat)]; mallocs := []; clock := None |}.

Lemma small_ok : fat_ok ram_ops small.
Proof. constructor; cbn; (done || lia || auto). Qed.
Lemma small_clusters : clusters_ok small.
Proof. unfold clusters_ok. cbn. lia. Qed.

(** ** Theorems *)



(** Allocating one cluster returns the first free cluster of the volume and marks
    it as the end of a chain, changing no other entry and no data sector, and
    lowers the free count; it returns 0, and changes nothing, only when the
    device or [malloc] failed or no cluster is free. *)
Theorem fat32_alloc_takes_first_free {D} (ops : blk_ops D) `{!BlkDev ops} (st : fstate D) :
  fat_ok ops st -> clusters_ok st ->
  wp (fat32_alloc_clusters ops 1 0) (fun c st' =>
    ((c = 0 /\ same_table ops st st') \/ allocated ops st st' c) /\
    (mallocs st = [] -> reliable ops -> c = 0 ->
     forall k, 2 <= k < v_total_clusters (vol st) -> entry ops st k <> 0)) st.
Proof.
  intros Hok Hcl. eapply wp_mono; [by apply alloc_one_spec|]. cbn beta. intros c st' [H1 H2].
  split; [exact H1|]. intros Hm Hrel. by apply H2.
Qed.

Lemma fat32_alloc_takes_first_free_witness :
  wp (fat32_alloc_clusters ram_ops 1 0) (fun c st' => c = 6 /\ allocated ram_ops small st' 6) small.
Proof.
  pose proof (fat32_alloc_takes_first_free ram_ops small small_ok small_clusters) as H.
  eapply wp_mono; [exact (wp_and _ _ (fun c _ => c = 6) _ H eq_refl)|]. cbn beta.
  intros c st' [[[[E _]|Ha] _] ->]; [discriminate E|]. split; [done|exact Ha].
Defined.

(** Freeing a chain frees exactly its clusters, keeps every other entry and all
    data sectors, and adds their number to the free count. *)
Theorem fat32_free_chain_frees_chain {D} (ops : blk_ops D) `{!BlkDev ops} (st : fstate D) c l fuel :
  reliable ops -> mallocs st = [] -> fat_ok ops st -> fits 32 (v_free_clusters (vol st)) ->
  chain ops st c l -> NoDup l -> (forall k, k ∈ l -> in_fat st k) -> (length l <= fuel)%nat ->
  wp (fat32_free_chain ops fuel c) (fun _ st' => freed ops st st' l) st.
Proof. intros. by apply free_chain_spec. Qed.

Lemma small_chain : chain ram_ops small 3 [3; 4; 5].
Proof.
  apply chain_next; [unfold FAT32_CLUSTER_EOC; lia|vm_compute; split; congruence|].
  replace (entry ram_ops small 3) with 4 by (vm_compute; reflexivity).
  apply chain_next; [unfold FAT32_CLUSTER_EOC; lia|vm_compute; split; congruence|].
  replace (entry ram_ops small 4) with 5 by (vm_compute; reflexivity).
  apply chain_end; [unfold FAT32_CLUSTER_EOC; lia|vm_compute; congruence].
Qed.

Lemma fat32_free_chain_frees_chain_witness :
  wp (fat32_free_chain ram_ops 3 3) (fun _ st' => freed ram_ops small st' [3; 4; 5]) small.
Proof.
  apply (fat32_free_chain_frees_chain ram_ops small 3 [3; 4; 5] 3).
  - exact ram_reliable.
  - reflexivity.
  - exact small_ok.
  - unfold fits. cbn. lia.
  - exact small_chain.
  - apply (bool_decide_unpack _). vm_compute. exact I.
  - intros k Hk. unfold in_fat. cbn. set_solver by lia.
  - simpl. lia.
Defined.

(** Freeing terminates on every table whose links stay inside the FAT, cycles
    included: one round more than there are used entries suffices. *)
Theorem fat32_free_chain_terminates {D} (ops : blk_ops D) `{!BlkDev ops} (st : fstate D) c fuel :
  reliable ops -> mallocs st = [] -> fat_ok ops st -> fits 32 (v_free_clusters (vol st)) ->
  (forall k, in_fat st k -> 2 <= entry ops st k < FAT32_CLUSTER_EOC -> in_fat st (entry ops st k)) ->
  (2 <= c < FAT32_CLUSTER_EOC -> in_fat st c) -> (used ops st (all_clusters st) < fuel)%nat ->
  is_Some (fat32_free_chain ops fuel c st).
Proof.
  intros. pose proof (free_chain_total ops fuel st c) as Hw. unfold wp in Hw.
  destruct (fat32_free_chain ops fuel c st); [by eexists|]. exfalso. by apply Hw.
Qed.

(** Clusters 3 and 4 point at each other. *)
Definition cyclic : fstate ramdisk :=
  {| vol := small_vol;
     dev := [(32, bytes_of ([268435448; 268435455; 268435455; 4; 3] ++ replicate 123 0))];
     mallocs := []; clock := None |}.

Lemma fat32_free_chain_terminates_witness : is_Some (fat32_free_chain ram_ops 6 3 cyclic).
Proof.
  apply (fat32_free_chain_terminates ram_ops cyclic 3 6).
  - exact ram_reliable.
  - reflexivity.
  - constructor; cbn; (done || lia || auto).
  - unfold fits. cbn. lia.
  - assert (Forall (fun k => 2 <= entry ram_ops cyclic k < FAT32_CLUSTER_EOC ->
      in_fat cyclic (entry ram_ops cyclic k)) (seqZ 0 128)) as H
      by (apply (bool_decide_unpack _); vm_compute; exact I).
    intros k Hk. rewrite Forall_forall in H. apply H, elem_of_seqZ. unfold in_fat in Hk. cbn in Hk. lia.
  - intros _. unfold in_fat. cbn. lia.
  - vm_compute. lia.
Defined.

(** ** Numbers and names *)

(** Clusters map to disjoint runs of sectors: every sector of a cluster's run
    converts back to that cluster. *)
Theorem fat32_cluster_lba_roundtrip v c k :
  2 <= c < 2 ^ 32 -> 0 <= k < v_spc v -> 0 <= v_data_lba v ->
  v_data_lba v + (c - 2) * v_spc v + k < 2 ^ 64 ->
  fat32_lba_to_cluster v (cluster_to_lba v c + k) = c.
Proof.
  intros Hc Hk Hd Hlt. unfold cluster_to_lba, fat32_lba_to_cluster.
  destruct (Z.ltb_spec c 2); [lia|].
  assert (0 <= (c - 2) * v_spc v) by (apply Z.mul_nonneg_nonneg; lia).
  rewrite (wrap_id 64) by (unfold fits; lia).
  destruct (Z.ltb_spec (v_data_lba v + (c - 2) * v_spc v + k) (v_data_lba v)); [lia|].
  replace ((v_data_lba v + (c - 2) * v_spc v + k - v_data_lba v) / v_spc v) with (c - 2).
  - rewrite (wrap_id 32 (c - 2)) by (unfold fits; lia). rewrite wrap_id; [lia|unfold fits; lia].
  - apply (Z.div_unique _ _ _ k); lia.
Qed.

Lemma fat32_cluster_lba_roundtrip_witness : fat32_lba_to_cluster small_vol (cluster_to_lba small_vol 5) = 5.
Proof.
  rewrite <- (Z.add_0_r (cluster_to_lba small_vol 5)).
  apply (fat32_cluster_lba_roundtrip small_vol 5 0); cbn; lia.
Defined.

Lemma take_name_base n base rest :
  (length base <= n)%nat -> Forall (fun c => c <> 46) base ->
  (rest = [] \/ exists r, rest = 46 :: r) -> take_name n (base ++ rest) = (toupper <$> base, rest).
Proof.
  revert n. induction base as [|c base IH]; intros n Hl Hb Hr; cbn [app fmap list_fmap].
  - destruct Hr as [->|[r ->]]; destruct n; done.
  - destruct n as [|n]; [simpl in Hl; lia|]. apply Forall_cons in Hb as [Hc Hb]. cbn [take_name].
    destruct (Z.eqb_spec c 46); [done|]. rewrite IH by (done || (simpl in Hl; lia)). done.
Qed.

Lemma rtrim_pad n l : Forall (fun c => c <> 32) l -> rtrim (pad n l) = l.
Proof.
  intros Hl. unfold pad. generalize (n - length l)%nat as k. intros k.
  assert (rtrim (replicate k 32) = []) as Hk by (induction k as [|k IH]; [done|]; cbn; by rewrite IH).
  induction Hl as [|c l Hc _ IH]; [done|]. cbn [app rtrim]. rewrite IH. destruct l; [|done].
  by destruct (Z.eqb_spec c 32).
Qed.

Lemma toupper_ne c x : c <> x -> (x < 65 \/ 122 < x) -> toupper c <> x.
Proof. intros Hc Hx. unfold toupper. destruct (Z.leb_spec 97 c), (Z.leb_spec c 122); cbn; lia. Qed.

Lemma name_cmp_upper l : name_cmp (toupper <$> l) l = 0.
Proof.
  induction l as [|c l IH]; [done|]. cbn [fmap list_fmap name_cmp].
  assert (toupper (toupper c) = toupper c) as ->.
  { unfold toupper. destruct (Z.leb_spec 97 c), (Z.leb_spec c 122); cbn;
      destruct (Z.leb_spec 97 (c - 32)), (Z.leb_spec (c - 32) 122); cbn; try lia;
      destruct (Z.leb_spec 97 c), (Z.leb_spec c 122); cbn; lia. }
  by rewrite Z.eqb_refl.
Qed.

(** A file name of 1 to 8 characters and an extension of at most 3, without
    spaces and with no other dot, survives the 8.3 form up to case: the name
    read back is the original in capitals, and compares equal to it. *)
Theorem fat32_short_name_roundtrip (base ext : list Z) :
  (1 <= length base <= 8)%nat -> (length ext <= 3)%nat ->
  Forall (fun c => 0 < c < 256 /\ c <> 46 /\ c <> 32) (base ++ ext) ->
  let name := base ++ (match ext with [] => [] | _ => 46 :: ext end) in
  length (name_to_83 name) = 11%nat /\
  name_from_83 (name_to_83 name) 256 = toupper <$> name /\
  name_cmp (name_from_83 (name_to_83 name) 256) name = 0.
Proof.
  intros Hb He Hall name. apply Forall_app in Hall as [Hbase Hext].
  assert (Forall (fun c => c <> 46) base) as Hdot by (eapply Forall_impl; [exact Hbase|]; naive_solver).
  assert (exists tl, (tl = [] \/ exists r, tl = 46 :: r) /\ name = base ++ tl /\
    match tl with c :: r => if c =? 46 then r else tl | [] => [] end = ext) as (tl & Htl & Hname & Hrest).
  { unfold name. destruct ext as [|x ext]; [exists []|exists (46 :: x :: ext)]; eauto. }
  assert (forall s, (cstr name = cstr s -> False) -> strcmp_eq name s = false) as Hne
    by (intros s H; unfold strcmp_eq; by rewrite bool_decide_eq_false).
  assert (exists c b', name = c :: b' /\ c <> 46 /\ c <> 0) as (c & b' & Ec & Hc46 & Hc0).
  { rewrite Hname. destruct base as [|c base]; [simpl in Hb; lia|]. exists c, (base ++ tl).
    apply Forall_cons in Hbase as [(? & ? & ?) _]. split; [done|]. lia. }
  assert (forall r, strcmp_eq name (46 :: r) = false) as Hd.
  { intros r. apply Hne. rewrite Ec. cbn [cstr]. destruct (Z.eqb_spec c 0); [done|]. cbn. congruence. }
  assert (name_to_83 name = pad 8 (toupper <$> base) ++ pad 3 (toupper <$> ext)) as E83.
  { unfold name_to_83. change (str ".") with [46]. change (str "..") with [46; 46]. rewrite !Hd.
    rewrite Hname, take_name_base by (done || lia). rewrite Hrest. by rewrite take_ge by lia. }
  assert (length (pad 8 (toupper <$> base)) = 8%nat) as L8
    by (unfold pad; rewrite length_app, length_replicate, length_fmap; lia).
  assert (forall l, Forall (fun c => 0 < c < 256 /\ c <> 46 /\ c <> 32) l ->
    Forall (fun c => c <> 32) (toupper <$> l)) as Hsp.
  { intros l Hl. apply Forall_fmap. eapply Forall_impl; [exact Hl|]. intros x (? & ? & ?). cbn.
    apply toupper_ne; lia. }
  assert (name_from_83 (name_to_83 name) 256 = toupper <$> name) as Efrom.
  { rewrite E83. unfold name_from_83. rewrite take_app_length', drop_app_length' by done.
    rewrite !rtrim_pad by auto.
    assert ((default 0 ((pad 8 (toupper <$> base) ++ pad 3 (toupper <$> ext)) !! 0%nat) =? 46) = false) as ->.
    { destruct base as [|b0 base]; [simpl in Hb; lia|]. cbn. apply Z.eqb_neq.
      apply Forall_cons in Hbase as [(? & ? & ?) _]. apply toupper_ne; lia. }
    rewrite (take_ge (toupper <$> base)) by (rewrite length_fmap; lia).
    unfold name. destruct ext as [|x ext]; [by rewrite app_nil_r|].
    cbn [fmap list_fmap]. rewrite take_ge; [by rewrite fmap_app|].
    rewrite length_app, !length_fmap. simpl in *. rewrite length_fmap. lia. }
  split_and!; [|exact Efrom|rewrite Efrom; apply name_cmp_upper].
  rewrite E83, length_app, L8. unfold pad. rewrite length_app, length_replicate, length_fmap. lia.
Qed.

Lemma fat32_short_name_roundtrip_witness :
  name_from_83 (name_to_83 (str "boot.cfg")) 256 = str "BOOT.CFG".
Proof.
  destruct (fat32_short_name_roundtrip (str "boot") (str "cfg")) as (_ & H & _).
  - simpl. lia.
  - simpl. lia.
  - apply (bool_decide_unpack _). vm_compute. exact I.
  - exact H.
Defined.

(** A base name of more than 8 characters spills into the extension, so two
    different files can get the same 8.3 name with a wrong extension. *)
Theorem fat32_long_base_spills :
  name_to_83 (str "longfilename.txt") = str "LONGFILENAM" /\
  name_from_83 (name_to_83 (str "longfilename.txt")) 256 = str "LONGFILE.NAM" /\
  name_to_83 (str "longfilename.txt") = name_to_83 (str "longfilename.doc").
Proof. vm_compute. repeat split; reflexivity. Qed.

(** A run of free clusters that reaches the end of the volume goes on at cluster
    2: asked for two clusters from 7 of a volume of eight, the allocator counts 7
    and 2, and links 7 to 8, which does not exist. *)
Theorem fat32_alloc_run_wraps :
  let fat := bytes_of ([268435448; 268435455; 0; 268435455; 268435455; 268435455; 268435455] ++
                       replicate 121 0) in
  let st := {| vol := small_vol; dev := [(32, fat)] : ramdisk; mallocs := []; clock := None |} in
  match fat32_alloc_clusters ram_ops 2 7 st with
  | Some (c, st') => c = 7 /\ entry ram_ops st' 7 = 8 /\ v_total_clusters (vol st') = 8 /\
                     entry ram_ops st' 2 = 0
  | None => False
  end.
Proof. vm_compute. repeat split; reflexivity. Qed.
