(* ===== verification/Lfn.v ===== *)
(** * VFAT long file names

    [kernel/wubu_lfn.c]: the codec between a name and its chain of 32-byte
    directory entries.  A name is the list of its bytes, without terminator. *)

From S2P Require Import Prelude.
Open Scope Z_scope.

Definition WUBU_LFN_CHARS_PER_ENTRY : nat := 13.
Definition WUBU_LFN_MAX_NAME : nat := 260.
Definition WUBU_LFN_MAX_ENTRIES : nat := 20.
Definition WUBU_LFN_ATTR : Z := 15.

Definition put_u16le (v : Z) : list Z := [u8 (Z.land v 255); u8 (Z.shiftr v 8)].
Definition get_u16le (a b : Z) : Z := u16 (Z.lor a (Z.shiftl b 8)).

(** The code unit at flat index [i]: a character, the terminator, or padding. *)
Definition lfn_unit (chunk : list Z) (nchars i : nat) : Z :=
  if decide (i < nchars)%nat then default 0 (chunk !! i)
  else if decide (i = nchars) then 0 else 65535.
Definition lfn_units (chunk : list Z) (nchars from n : nat) : list Z :=
  concat (put_u16le ∘ lfn_unit chunk nchars <$> seq from n).

Definition wubu_lfn_encode_chunk (chunk : list Z) (nchars : nat) (offset total_entries checksum : Z)
  : list Z :=
  let ordinal := u8 (offset + 1) in
  let ordinal := if offset =? total_entries - 1 then Z.lor ordinal 64 else ordinal in
  [ordinal] ++ lfn_units chunk nchars 0 5 ++ [WUBU_LFN_ATTR; 0; checksum] ++
  lfn_units chunk nchars 5 6 ++ [0; 0] ++ lfn_units chunk nchars 11 2.

(** Where the thirteen code units of an entry are. *)
Definition lfn_offsets : list nat := [1; 3; 5; 7; 9; 14; 16; 18; 20; 22; 24; 28; 30]%nat.

Fixpoint decode_units (entry : list Z) (offs : list nat) : list Z :=
  match offs with
  | [] => []
  | o :: offs =>
      let c := get_u16le (default 0 (entry !! o)) (default 0 (entry !! S o)) in
      if (c =? 0) || (c =? 65535) then [] else c :: decode_units entry offs
  end.
(** [None] is -1. *)
Definition wubu_lfn_decode_chunk (entry : list Z) : option (list Z) :=
  if negb (default 0 (entry !! 11%nat) =? WUBU_LFN_ATTR) then None
  else Some (decode_units entry lfn_offsets).

Definition wubu_lfn_checksum (name83 : list Z) : Z :=
  foldl (fun sum c => u8 ((if negb (Z.land sum 1 =? 0) then 128 else 0) + Z.shiftr sum 1 + u8 c)) 0
    name83.

Definition lower (c : Z) : bool := (97 <=? c) && (c <=? 122).
Definition upcase (c : Z) : Z := if lower c then c - 97 + 65 else c.

(** Up to [n] characters before a dot, and what follows them. *)
Fixpoint split_name (n : nat) (name : list Z) : list Z * list Z :=
  match n, name with
  | S n, c :: rest =>
      if c =? 46 then ([], name)
      else let '(a, r) := split_name n rest in (upcase c :: a, r)
  | _, _ => ([], name)
  end.
Definition spaces (n : nat) (l : list Z) : list Z := l ++ replicate (n - length l) 32.

(** The 8.3 name that the checksum of the chain is taken of. *)
Definition lfn_name83 (name : list Z) : list Z :=
  let '(base, rest) := split_name 8 name in
  let ext := match rest with c :: r => if c =? 46 then upcase <$> take 3 r else [] | [] => [] end in
  spaces 8 base ++ spaces 3 ext.

Definition lfn_needs (name : list Z) : bool :=
  bool_decide (12 < length name)%nat || existsb lower name.

(** The entries in the order they have on disk: the last chunk first. *)
Definition wubu_lfn_build_entries (name : list Z) (max_entries : Z) : list (list Z) :=
  if max_entries <=? 0 then [] else
  let len := length name in
  if decide (len = 0)%nat then [] else
  if decide (WUBU_LFN_MAX_NAME < len)%nat then [] else
  if negb (lfn_needs name) then [] else
  let total := Z.of_nat (len + WUBU_LFN_CHARS_PER_ENTRY - 1) / Z.of_nat WUBU_LFN_CHARS_PER_ENTRY in
  let total := if total >? max_entries then max_entries else total in
  let csum := wubu_lfn_checksum (lfn_name83 name) in
  (fun e : nat =>
     let chunk_index := (Z.to_nat total - 1 - e)%nat in
     let start := (chunk_index * WUBU_LFN_CHARS_PER_ENTRY)%nat in
     let nchunk := Nat.min (len - start) WUBU_LFN_CHARS_PER_ENTRY in
     wubu_lfn_encode_chunk (drop start name) nchunk (Z.of_nat chunk_index) total csum)
  <$> seq 0 (Z.to_nat total).

(** The walk from the last entry to the first; at most 260 units are kept. *)
Fixpoint collect (entries : list (list Z)) (units : list Z) : option (list Z) :=
  match entries with
  | [] => Some units
  | e :: entries =>
      if decide (WUBU_LFN_MAX_NAME <= length units)%nat then Some units else
      chunk ← wubu_lfn_decode_chunk e;
      collect entries (take WUBU_LFN_MAX_NAME (units ++ chunk))
  end.
(** [None] is -1; otherwise the string in [out]. *)
Definition wubu_lfn_reconstruct (entries : list (list Z)) (outsz : nat) : option (list Z) :=
  if decide (outsz = 0)%nat then None else
  if decide (length entries = 0)%nat then None else
  units ← collect (reverse entries) [];
  Some ((fun u => if u >? 255 then 63 else u) <$> take (outsz - 1) units).

(** ** One entry *)

Lemma get_put v : fits 16 v -> get_u16le (u8 (Z.land v 255)) (u8 (Z.shiftr v 8)) = v.
Proof.
  intros Hv. unfold get_u16le. rewrite land_255, shiftr8.
  rewrite (wrap_id 8 (u8 v)) by (by apply wrap_fits).
  rewrite lor_shiftl_add by (lia || by apply wrap_fits).
  unfold_fits. rewrite (wrap_id 8 (v / 256)).
  2:{ unfold_fits. split; [apply Z.div_pos; lia|apply Z.div_lt_upper_bound; lia]. }
  unfold wrap at 2. change (2 ^ 8) with 256.
  rewrite wrap_id; [rewrite (Z.div_mod v 256) at 3 by lia; lia|].
  unfold_fits. pose proof (Z.mod_pos_bound v 256). pose proof (Z.div_mod v 256). lia.
Qed.

Lemma length_lfn_units chunk n from k : length (lfn_units chunk n from k) = (2 * k)%nat.
Proof.
  unfold lfn_units. revert from. induction k as [|k IH]; intros from; [done|].
  cbn [seq fmap list_fmap concat]. rewrite length_app, IH. simpl. lia.
Qed.

Lemma encode_length chunk n off tot cs : length (wubu_lfn_encode_chunk chunk n off tot cs) = 32%nat.
Proof. unfold wubu_lfn_encode_chunk. rewrite !length_app, !length_lfn_units. done. Qed.

Definition good_char (c : Z) : Prop := 0 < c < 256.
#[export] Instance good_char_dec c : Decision (good_char c).
Proof. unfold good_char. apply _. Defined.

Lemma lfn_unit_fits chunk n i : Forall good_char chunk -> fits 16 (lfn_unit chunk n i).
Proof.
  intros H. unfold lfn_unit, fits. change (2 ^ 16) with 65536.
  case_decide; [|case_decide; lia]. destruct (chunk !! i) as [c|] eqn:E; simpl; [|lia].
  rewrite Forall_lookup in H. specialize (H i c E). unfold good_char in H. lia.
Qed.

(** Decoding reads the thirteen units that encoding wrote. *)
Lemma decode_reads chunk n off tot cs :
  Forall good_char chunk ->
  let e := wubu_lfn_encode_chunk chunk n off tot cs in
  default 0 (e !! 11%nat) = WUBU_LFN_ATTR /\
  (fun o => get_u16le (default 0 (e !! o)) (default 0 (e !! S o))) <$> lfn_offsets =
    lfn_unit chunk n <$> seq 0 13.
Proof.
  intros Hg e. split; [reflexivity|].
  unfold e, wubu_lfn_encode_chunk, lfn_offsets, lfn_units, put_u16le, compose.
  cbn -[lfn_unit get_u16le wrap Z.land Z.shiftr]. rewrite !get_put by (by apply lfn_unit_fits). reflexivity.
Qed.

Fixpoint until_end (us : list Z) : list Z :=
  match us with [] => [] | c :: us => if (c =? 0) || (c =? 65535) then [] else c :: until_end us end.

Lemma decode_units_spec e offs :
  decode_units e offs = until_end ((fun o => get_u16le (default 0 (e !! o)) (default 0 (e !! S o))) <$> offs).
Proof. induction offs as [|o offs IH]; [done|]. cbn [decode_units fmap list_fmap until_end]. by rewrite IH. Qed.

Lemma until_end_units chunk n k : forall from,
  Forall good_char chunk -> (n <= length chunk)%nat -> (from <= n)%nat ->
  until_end (lfn_unit chunk n <$> seq from k) = take (Nat.min k (n - from)) (drop from chunk).
Proof.
  induction k as [|k IH]; intros from Hg Hn Hf; [done|]. cbn [seq fmap list_fmap until_end].
  unfold lfn_unit at 1 2 3. destruct (decide (from < n)%nat) as [Hlt|Hge].
  - destruct (lookup_lt_is_Some_2 chunk from) as [c Hc]; [lia|].
    rewrite Hc. cbn [default]. rewrite Forall_lookup in Hg. pose proof (Hg from c Hc) as Hgc.
    unfold good_char in Hgc. simpl. destruct (Z.eqb_spec c 0); [lia|]. destruct (Z.eqb_spec c 65535); [lia|].
    cbn [orb]. fold (list_fmap nat Z). rewrite (IH (S from)) by (rewrite ?Forall_lookup; (done || lia)).
    rewrite (drop_S _ _ _ Hc). by replace (n - from)%nat with (S (n - S from)) by lia.
  - rewrite decide_True by lia. cbn. by replace (n - from)%nat with 0%nat by lia.
Qed.

Lemma decode_encode chunk n off tot cs :
  Forall good_char chunk -> (n <= length chunk)%nat -> (n <= 13)%nat ->
  wubu_lfn_decode_chunk (wubu_lfn_encode_chunk chunk n off tot cs) = Some (take n chunk).
Proof.
  intros Hg Hn H13. destruct (decode_reads chunk n off tot cs Hg) as [Ha Hr].
  unfold wubu_lfn_decode_chunk. rewrite Ha. cbn [Z.eqb negb WUBU_LFN_ATTR Pos.eqb].
  rewrite decode_units_spec, Hr, until_end_units by (done || lia).
  rewrite Nat.sub_0_r, Nat.min_r by lia. by rewrite drop_0.
Qed.

(** ** The chain *)

Lemma collect_app es units chunks :
  mapM wubu_lfn_decode_chunk es = Some chunks ->
  (length (units ++ concat chunks) <= WUBU_LFN_MAX_NAME)%nat -> Forall (fun c => c <> []) chunks ->
  collect es units = Some (units ++ concat chunks).
Proof.
  revert units chunks. induction es as [|e es IH]; intros units chunks Hm Hl Hne; cbn [collect].
  { injection Hm as <-. by rewrite app_nil_r. }
  cbn [mapM] in Hm. apply bind_Some in Hm as (chunk & Hc & Hm).
  apply bind_Some in Hm as (rest & Hm & E). injection E as <-.
  apply Forall_cons in Hne as [Hn Hne]. cbn [concat] in Hl. rewrite !length_app in Hl.
  rewrite decide_False by (destruct chunk; [done|]; simpl in Hl; lia).
  rewrite Hc. cbn [mbind option_bind]. rewrite take_ge by (rewrite length_app; lia).
  rewrite (IH _ rest); [by rewrite <- app_assoc|done|rewrite !length_app; lia|done].
Qed.

Lemma concat_slices (name : list Z) k :
  concat ((fun i => take 13 (drop (i * 13) name)) <$> seq 0 k) = take (k * 13) name.
Proof.
  induction k as [|k IH]; [done|].
  rewrite seq_S, fmap_app, concat_app, IH. cbn [fmap list_fmap concat].
  rewrite app_nil_r. replace (S k * 13)%nat with (k * 13 + 13)%nat by lia. by rewrite take_take_drop.
Qed.

Lemma rev_build {A} (f : nat -> A) n : reverse ((fun e => f (n - 1 - e)%nat) <$> seq 0 n) = f <$> seq 0 n.
Proof.
  apply list_eq. intros i.
  destruct (le_lt_dec n i) as [Hi|Hi].
  - rewrite !lookup_ge_None_2; [done|by rewrite length_fmap, length_seq|
      by rewrite length_reverse, length_fmap, length_seq].
  - rewrite reverse_lookup by (by rewrite length_fmap, length_seq).
    rewrite !list_lookup_fmap, length_fmap, length_seq, !lookup_seq_lt by lia. simpl. do 2 f_equal. lia.
Qed.

Lemma slices_nonempty (name : list Z) k :
  (k * 13 < length name + 13)%nat -> Forall (fun c => c <> []) ((fun i => take 13 (drop (i * 13) name)) <$> seq 0 k).
Proof.
  intros Hk. apply Forall_fmap, Forall_forall. intros i Hi%elem_of_seq. cbn.
  intros E%(f_equal length). rewrite length_take, length_drop in E. cbn [length] in E. lia.
Qed.

(** A long file name survives its chain of entries: every name of 1 to 260
    characters that needs one (longer than 12, or with a lower-case letter) is
    read back exactly from the entries built for it. *)
Theorem lfn_roundtrip (name : list Z) (outsz : nat) :
  (1 <= length name <= WUBU_LFN_MAX_NAME)%nat -> Forall good_char name -> lfn_needs name = true ->
  (length name < outsz)%nat ->
  let entries := wubu_lfn_build_entries name (Z.of_nat WUBU_LFN_MAX_ENTRIES) in
  wubu_lfn_reconstruct entries outsz = Some name /\
  Forall (fun e => length e = 32%nat) entries /\ (1 <= length entries <= WUBU_LFN_MAX_ENTRIES)%nat.
Proof.
  intros Hl Hg Hn Ho. unfold wubu_lfn_build_entries, WUBU_LFN_MAX_ENTRIES, WUBU_LFN_MAX_NAME,
    WUBU_LFN_CHARS_PER_ENTRY in *.
  change (Z.of_nat 20) with 20. change (20 <=? 0) with false. cbn iota.
  rewrite decide_False by lia. rewrite decide_False by lia. rewrite Hn. cbn [negb].
  set (total := Z.of_nat (length name + 13 - 1) / Z.of_nat 13).
  assert (1 <= total <= 20 /\ total * 13 < Z.of_nat (length name) + 13 /\ Z.of_nat (length name) <= total * 13) as Ht.
  { unfold total. change (Z.of_nat 13) with 13.
    pose proof (Z.div_mod (Z.of_nat (length name + 13 - 1)) 13 ltac:(lia)).
    pose proof (Z.mod_pos_bound (Z.of_nat (length name + 13 - 1)) 13 ltac:(lia)). lia. }
  clearbody total.
  destruct (Z.gtb_spec total 20); [lia|]. cbn zeta.
  set (k := Z.to_nat total). set (cs := wubu_lfn_checksum (lfn_name83 name)).
  set (enc := fun i : nat => wubu_lfn_encode_chunk (drop (i * 13) name)
                (Nat.min (length name - i * 13) 13) (Z.of_nat i) total cs).
  match goal with |- context [?f <$> seq 0 k] => change f with (fun e : nat => enc (k - 1 - e)%nat) end.
  split; [|split].
  - unfold wubu_lfn_reconstruct. rewrite decide_False by lia. rewrite length_fmap, length_seq.
    rewrite decide_False by lia. rewrite rev_build.
    erewrite (collect_app _ [] ((fun i => take 13 (drop (i * 13) name)) <$> seq 0 k)).
    + rewrite concat_slices, take_ge by lia. cbn [app mbind option_bind].
      rewrite take_ge by lia. f_equal. rewrite <- (list_fmap_id name) at 2.
      apply list_fmap_ext. intros i c Hc. rewrite Forall_lookup in Hg. specialize (Hg i c Hc).
      unfold good_char in Hg. destruct (Z.gtb_spec c 255); [lia|done].
    + apply mapM_Some_2, Forall2_fmap_2, Forall_Forall2_diag, Forall_forall. intros i Hi%elem_of_seq.
      unfold enc. rewrite decode_encode; [|by apply Forall_drop|rewrite length_drop; lia|lia].
      f_equal. destruct (le_lt_dec 13 (length name - i * 13)); [by rewrite Nat.min_r by lia|].
      rewrite Nat.min_l by lia. rewrite !take_ge by (rewrite length_drop; lia). done.
    + rewrite concat_slices, take_ge by lia. simpl. unfold WUBU_LFN_MAX_NAME. lia.
    + apply slices_nonempty. lia.
  - apply Forall_fmap, Forall_true. intros e. apply encode_length.
  - rewrite length_fmap, length_seq. lia.
Qed.

Lemma lfn_roundtrip_witness :
  wubu_lfn_reconstruct (wubu_lfn_build_entries (str "kernel configuration.txt") 20) 64 =
    Some (str "kernel configuration.txt").
Proof.
  destruct (lfn_roundtrip (str "kernel configuration.txt") 64) as (H & _).
  - vm_compute. lia.
  - apply (bool_decide_unpack _). vm_compute. exact I.
  - vm_compute. reflexivity.
  - vm_compute. lia.
  - exact H.
Defined.
