(* ===== verification/Fat32Dir.v ===== *)
(** * FAT32 directories

    [kernel/fat32_dir.c]: enumeration, lookup, creation and deletion, on the
    table of [Fat32] and the long-name codec of [Lfn].

    A cluster buffer is the list of its bytes.  Directory walks follow a chain,
    so they take fuel, one unit per cluster; [None] is a walk that ran out of it
    or a store outside the [lfn] array. *)

From S2P Require Import Prelude Fat32 Lfn.
Open Scope Z_scope.

Definition FAT32_ATTR_VOLUME_ID : Z := 8.
Definition FAT32_ATTR_DIRECTORY : Z := 16.
Definition FAT32_ATTR_ARCHIVE : Z := 32.
Definition FAT32_ATTR_LFN : Z := 15.

Record fat32_file_info := {
  i_name : list Z;
  i_first_cluster : Z;
  i_file_size : Z;
  i_attr : Z;
  i_dir_cluster : Z;
  i_dir_offset : Z }.

(** ** Entries in a buffer *)

Definition byte_at (buf : list Z) (off : nat) : Z := default 0 (buf !! off).
Definition le_at (buf : list Z) (off n : nat) : Z := le_dec (slice buf off n).
Definition put_bytes (buf : list Z) (off : nat) (bs : list Z) : list Z :=
  take off buf ++ bs ++ drop (off + length bs) buf.

(** Entry [i] of a cluster buffer, and its fields. *)
Definition dirent (buf : list Z) (i : nat) : list Z := slice buf (i * 32) 32.
Definition de_first (de : list Z) : Z := byte_at de 0.
Definition de_attr (de : list Z) : Z := byte_at de 11.
Definition de_name83 (de : list Z) : list Z := slice de 0 11.
Definition de_cluster (de : list Z) : Z := Z.lor (Z.shiftl (le_at de 20 2) 16) (le_at de 26 2).
Definition de_size (de : list Z) : Z := le_at de 28 4.

(** A directory entry as the code fills it in. *)
Definition make_dirent (name83 : list Z) (attr ctime cdate adate wtime wdate cluster size : Z) : list Z :=
  name83 ++ [attr; 0; 0] ++ le_enc 2 ctime ++ le_enc 2 cdate ++ le_enc 2 adate ++
  le_enc 2 (Z.shiftr cluster 16) ++ le_enc 2 wtime ++ le_enc 2 wdate ++
  le_enc 2 (Z.land cluster 65535) ++ le_enc 4 size.

(** ** Collecting a long name *)

Definition lfn_zero : list Z := replicate (FAT32_MAX_NAME + 1) 0.

(** The loop over the 13 characters: [j] is the index of the head of [chars];
    a store outside the array of 256 is [None]. *)
Fixpoint lfn_store (lfn : list Z) (char_idx : Z) (j : Z) (chars : list Z) : option (list Z) :=
  match chars with
  | [] => Some lfn
  | c :: chars =>
      if char_idx + j >=? Z.of_nat FAT32_MAX_NAME then Some lfn
      else if (c =? 0) || (c =? 65535) then Some lfn
      else if char_idx + j <? 0 then None
      else lfn_store (<[Z.to_nat (char_idx + j) := Z.land c 255]> lfn) char_idx (j + 1) chars
  end.

Definition lfn_chars (de : list Z) : list Z :=
  (fun o => le_at de o 2) <$> [1; 3; 5; 7; 9; 14; 16; 18; 20; 22; 24; 28; 30]%nat.

Definition lfn_step (lfn de : list Z) : option (list Z) :=
  let ord := byte_at de 0 in
  let seq := Z.land ord 63 in
  let lfn := if negb (Z.land ord 64 =? 0) then lfn_zero else lfn in
  lfn_store lfn ((seq - 1) * 13) 0 (lfn_chars de).

(** The long name when one was collected, else the 8.3 name; at most [n]
    characters of a long name are kept. *)
Definition entry_name (lfn de : list Z) (n : nat) : list Z :=
  if negb (byte_at lfn 0 =? 0) then take n (cstr lfn)
  else name_from_83 (de_name83 de) (FAT32_MAX_NAME + 1).

Definition info_of (name de : list Z) (cluster i : Z) : fat32_file_info :=
  {| i_name := name; i_first_cluster := de_cluster de; i_file_size := de_size de;
     i_attr := de_attr de; i_dir_cluster := cluster; i_dir_offset := i |}.

Section dir.
Context {D : Type} (ops : blk_ops D).

Definition get_clock : M D (option tm) := fun st => Some (clock st, st).
Definition lift {A} (o : option A) : M D A := fun st => a ← o; Some (a, st).

(** ** Enumeration *)

Section dir_read.
Context {C : Type} (cb : option (C -> fat32_file_info -> bool * C)).

(** The entries [i ..] of a cluster: [inl] when the walk ends here, [inr] to go
    on with the next cluster. *)
Fixpoint dir_scan (n i : nat) (buf : list Z) (cluster : Z) (lfn : list Z) (count : Z) (ctx : C)
  : option ((Z * C) + (list Z * Z * C)) :=
  match n with
  | O => Some (inr (lfn, count, ctx))
  | S n =>
      let de := dirent buf i in
      if de_first de =? 0 then Some (inl (count, ctx)) else
      if de_first de =? 229 then dir_scan n (S i) buf cluster lfn_zero count ctx else
      if de_attr de =? FAT32_ATTR_LFN then
        lfn ← lfn_step lfn de; dir_scan n (S i) buf cluster lfn count ctx
      else if negb (Z.land (de_attr de) FAT32_ATTR_VOLUME_ID =? 0)
      then dir_scan n (S i) buf cluster lfn_zero count ctx
      else
        let info := info_of (entry_name lfn de (FAT32_MAX_NAME - 1)) de cluster (Z.of_nat i) in
        let count := count + 1 in
        match cb with
        | None => dir_scan n (S i) buf cluster lfn_zero count ctx
        | Some cb =>
            let '(go, ctx) := cb ctx info in
            if go then dir_scan n (S i) buf cluster lfn_zero count ctx
            else Some (inl (count, ctx))
        end
  end.

Definition entries_per_cluster (v : fat32_volume) : nat :=
  Z.to_nat (v_bpc v / Z.of_nat FAT32_DIR_ENTRY_SIZE).

Fixpoint dir_loop (fuel : nat) (cluster : Z) (lfn : list Z) (count : Z) (ctx : C) : M D (Z * C) :=
  if (cluster >=? 2) && (cluster <? FAT32_CLUSTER_EOC) then
    match fuel with
    | O => fun _ => None
    | S fuel =>
        v ← get_vol;
        r ← blk_read ops (cluster_to_lba v cluster) (v_spc v);
        match r with
        | None => mret (-1, ctx)
        | Some buf =>
            s ← lift (dir_scan (entries_per_cluster v) 0 buf cluster lfn count ctx);
            match s with
            | inl res => mret res
            | inr (lfn, count, ctx) =>
                next ← fat32_next_cluster ops cluster;
                dir_loop fuel next lfn count ctx
            end
        end
    end
  else mret (count, ctx).

Definition fat32_dir_read (fuel : nat) (dir_cluster : Z) (ctx : C) : M D (Z * C) :=
  v ← get_vol;
  if negb (v_mounted v) then mret (-1, ctx) else
  let dir_cluster := if dir_cluster =? 0 then v_root_cluster v else dir_cluster in
  okm ← malloc;
  if negb okm then mret (-1, ctx) else
  dir_loop fuel dir_cluster lfn_zero 0 ctx.
End dir_read.

(** ** Lookup *)

(** [inl] when the search ends: the info, or [None] for -1. *)
Fixpoint find_scan (n i : nat) (buf : list Z) (cluster : Z) (lfn name : list Z)
  : option (option fat32_file_info + list Z) :=
  match n with
  | O => Some (inr lfn)
  | S n =>
      let de := dirent buf i in
      if de_first de =? 0 then Some (inl None) else
      if de_first de =? 229 then find_scan n (S i) buf cluster lfn_zero name else
      if de_attr de =? FAT32_ATTR_LFN then
        lfn ← lfn_step lfn de; find_scan n (S i) buf cluster lfn name
      else if negb (Z.land (de_attr de) FAT32_ATTR_VOLUME_ID =? 0)
      then find_scan n (S i) buf cluster lfn_zero name
      else
        let ename := entry_name lfn de FAT32_MAX_NAME in
        if name_cmp ename name =? 0
        then Some (inl (Some (info_of (take (FAT32_MAX_NAME - 1) ename) de cluster (Z.of_nat i))))
        else find_scan n (S i) buf cluster lfn_zero name
  end.

Fixpoint find_loop (fuel : nat) (cluster : Z) (lfn name : list Z) : M D (option fat32_file_info) :=
  if (cluster >=? 2) && (cluster <? FAT32_CLUSTER_EOC) then
    match fuel with
    | O => fun _ => None
    | S fuel =>
        v ← get_vol;
        r ← blk_read ops (cluster_to_lba v cluster) (v_spc v);
        match r with
        | None => mret None
        | Some buf =>
            s ← lift (find_scan (entries_per_cluster v) 0 buf cluster lfn name);
            match s with
            | inl res => mret res
            | inr lfn => next ← fat32_next_cluster ops cluster; find_loop fuel next lfn name
            end
        end
    end
  else mret None.

Definition fat32_find (fuel : nat) (dir_cluster : Z) (name : list Z) : M D (option fat32_file_info) :=
  v ← get_vol;
  let dir_cluster := if dir_cluster =? 0 then v_root_cluster v else dir_cluster in
  okm ← malloc;
  if negb okm then mret None else
  find_loop fuel dir_cluster lfn_zero name.

(** ** Creation *)

Definition slot_free (buf : list Z) (i : nat) : bool :=
  let c := de_first (dirent buf i) in (c =? 0) || (c =? 229).

(** The first [i] with [n_lfn + 1] free slots in a row; [n] candidates left. *)
Fixpoint free_run (n i n_lfn : nat) (buf : list Z) : option nat :=
  match n with
  | O => None
  | S n => if forallb (fun k => slot_free buf (i + k)) (seq 0 (n_lfn + 1)) then Some i
           else free_run n (S i) n_lfn buf
  end.

(** The buffer with the chain of long-name entries and the 8.3 entry from slot
    [i]. *)
Definition fill_run (buf : list Z) (i : nat) (lfns : list (list Z)) (de : list Z) : list Z :=
  put_bytes (put_bytes buf (i * 32) (concat lfns)) ((i + length lfns) * 32) de.

(** A fresh directory: the entries "." and "..". *)
Definition dot_buffer (v : fat32_volume) (new_cluster dir_cluster : Z) : list Z :=
  let dot n c := make_dirent (pad 11 (replicate n 46)) FAT32_ATTR_DIRECTORY 0 0 0 0 0 c 0 in
  put_bytes (put_bytes (replicate (Z.to_nat (v_bpc v)) 0) 0 (dot 1%nat new_cluster))
    32 (dot 2%nat dir_cluster).

(** Room for the entries: extend the directory when a cluster has none.  The
    result is [None] for -1. *)
Fixpoint create_loop (fuel : nat) (cluster : Z) (lfns : list (list Z)) (name : list Z)
    (attr new_cluster : Z) : M D (option fat32_file_info) :=
  if (cluster >=? 2) && (cluster <? FAT32_CLUSTER_EOC) then
    match fuel with
    | O => fun _ => None
    | S fuel =>
        v ← get_vol;
        r ← blk_read ops (cluster_to_lba v cluster) (v_spc v);
        match r with
        | None => mret None
        | Some buf =>
            let n_lfn := length lfns in
            match free_run (entries_per_cluster v - n_lfn) 0 n_lfn buf with
            | Some i =>
                now ← get_clock;
                let '(tm, dt) := datetime_to_dos now in
                let de := make_dirent (name_to_83 name) attr tm dt dt tm dt new_cluster 0 in
                okw ← blk_write ops (cluster_to_lba v cluster) (v_spc v) (fill_run buf i lfns de);
                mret (if (okw : bool) then
                  Some {| i_name := take FAT32_MAX_NAME name; i_first_cluster := new_cluster;
                          i_file_size := 0; i_attr := attr; i_dir_cluster := cluster;
                          i_dir_offset := Z.of_nat (i + n_lfn) |} else None)
            | None =>
                next ← fat32_next_cluster ops cluster;
                if (next =? 0) || (next >=? FAT32_CLUSTER_EOC) then
                  new_dir ← fat32_alloc_clusters ops 1 0;
                  if new_dir =? 0 then mret None else
                  _ ← fat_write_entry ops cluster new_dir;
                  _ ← fat_write_entry ops new_dir FAT32_CLUSTER_EOC;
                  v ← get_vol;
                  _ ← blk_write ops (cluster_to_lba v new_dir) (v_spc v)
                        (replicate (Z.to_nat (v_bpc v)) 0);
                  create_loop fuel new_dir lfns name attr new_cluster
                else create_loop fuel next lfns name attr new_cluster
            end
        end
    end
  else mret None.

Definition fat32_create (fuel : nat) (dir_cluster : Z) (name : list Z) (attr : Z)
  : M D (option fat32_file_info) :=
  v ← get_vol;
  if negb (v_mounted v) then mret None else
  if decide (name = []) then mret None else
  let dir_cluster := if dir_cluster =? 0 then v_root_cluster v else dir_cluster in
  existing ← fat32_find fuel dir_cluster name;
  match existing with
  | Some info => mret (Some info)
  | None =>
      new_cluster ← fat32_alloc_clusters ops 1 0;
      if new_cluster =? 0 then mret None else
      go ← (if negb (Z.land attr FAT32_ATTR_DIRECTORY =? 0) then
              v ← get_vol;
              okm ← malloc;
              if negb okm then mret false else
              _ ← blk_write ops (cluster_to_lba v new_cluster) (v_spc v)
                    (dot_buffer v new_cluster dir_cluster);
              mret true
            else mret true);
      if negb go then mret None else
      okm ← malloc;
      if negb okm then mret None else
      create_loop fuel dir_cluster (wubu_lfn_build_entries name (Z.of_nat WUBU_LFN_MAX_ENTRIES))
        name attr new_cluster
  end.

(** ** Deletion *)

Definition fat32_delete (fuel : nat) (dir_cluster : Z) (name : list Z) : M D Z :=
  v ← get_vol;
  if negb (v_mounted v) then mret (-1) else
  let dir_cluster := if dir_cluster =? 0 then v_root_cluster v else dir_cluster in
  r ← fat32_find fuel dir_cluster name;
  match r with
  | None => mret (-1)
  | Some info =>
      _ ← (if i_first_cluster info >=? 2
           then fat32_free_chain ops fuel (i_first_cluster info) else mret tt);
      v ← get_vol;
      let lba := cluster_to_lba v (i_dir_cluster info) in
      okm ← malloc;
      if negb okm then mret (-1) else
      r ← blk_read ops lba (v_spc v);
      match r with
      | None => mret (-1)
      | Some buf =>
          okw ← blk_write ops lba (v_spc v)
                  (<[Z.to_nat (i_dir_offset info * 32) := 229]> buf);
          mret (if (okw : bool) then 0 else -1)
      end
  end.
End dir.
