(* ===== verification/Fat32File.v ===== *)
(** * FAT32 files

    [kernel/fat32_file.c]: open, close, read, write and seek.

    A [fat32_file] belongs to the one volume of the state; a closed one is all
    zeros.  A read gives the bytes stored at [buf], whose number is the return
    value. *)

From S2P Require Import Prelude Fat32 Fat32Dir.
Open Scope Z_scope.

Record fat32_file := {
  f_first_cluster : Z;
  f_current_cluster : Z;
  f_file_size : Z;
  f_attr : Z;
  f_pos : Z;
  f_write_mode : bool;
  f_dir_cluster : Z;
  f_dir_offset : Z }.

Definition file_of (info : fat32_file_info) (size pos current : Z) (wr : bool) : fat32_file :=
  {| f_first_cluster := i_first_cluster info; f_current_cluster := current; f_file_size := size;
     f_attr := i_attr info; f_pos := pos; f_write_mode := wr;
     f_dir_cluster := i_dir_cluster info; f_dir_offset := i_dir_offset info |}.

Definition set_cursor (fp : fat32_file) (pos current : Z) : fat32_file :=
  {| f_first_cluster := f_first_cluster fp; f_current_cluster := current; f_file_size := f_file_size fp;
     f_attr := f_attr fp; f_pos := pos; f_write_mode := f_write_mode fp;
     f_dir_cluster := f_dir_cluster fp; f_dir_offset := f_dir_offset fp |}.
Definition set_first (fp : fat32_file) (first : Z) : fat32_file :=
  {| f_first_cluster := first; f_current_cluster := f_current_cluster fp; f_file_size := f_file_size fp;
     f_attr := f_attr fp; f_pos := f_pos fp; f_write_mode := f_write_mode fp;
     f_dir_cluster := f_dir_cluster fp; f_dir_offset := f_dir_offset fp |}.
Definition set_size (fp : fat32_file) (size : Z) : fat32_file :=
  {| f_first_cluster := f_first_cluster fp; f_current_cluster := f_current_cluster fp; f_file_size := size;
     f_attr := f_attr fp; f_pos := f_pos fp; f_write_mode := f_write_mode fp;
     f_dir_cluster := f_dir_cluster fp; f_dir_offset := f_dir_offset fp |}.

Section file.
Context {D : Type} (ops : blk_ops D).

(** ** Open and close *)

(** The last cluster of the chain from [c]. *)
Fixpoint last_cluster (fuel : nat) (c current : Z) : M D Z :=
  if c >=? 2 then
    match fuel with
    | O => fun _ => None
    | S fuel =>
        next ← fat32_next_cluster ops c;
        if (next =? 0) || (next >=? FAT32_CLUSTER_EOC) then mret current
        else last_cluster fuel next next
    end
  else mret current.

(** The file, or [None] for -1.  [mode] is the string without its terminator;
    [mode[1]] of a one-character mode is the terminator. *)
Definition fat32_open (fuel : nat) (dir_cluster : Z) (name mode : list Z) : M D (option fat32_file) :=
  v ← get_vol;
  if negb (v_mounted v) then mret None else
  let dir_cluster := if dir_cluster =? 0 then v_root_cluster v else dir_cluster in
  found ← fat32_find ops fuel dir_cluster name;
  let mode0 := byte_at mode 0 in
  let mode1 := byte_at mode 1 in
  if mode0 =? 114 then
    mret (match found with
          | None => None
          | Some info => Some (file_of info (i_file_size info) 0 (i_first_cluster info) (mode1 =? 119))
          end)
  else if mode0 =? 119 then
    _ ← (match found with
         | Some _ => rc ← fat32_delete ops fuel dir_cluster name; mret tt
         | None => mret tt
         end);
    created ← fat32_create ops fuel dir_cluster name FAT32_ATTR_ARCHIVE;
    mret (match created with
          | None => None
          | Some info => Some (file_of info 0 0 (i_first_cluster info) true)
          end)
  else if mode0 =? 97 then
    match found with
    | None =>
        created ← fat32_create ops fuel dir_cluster name FAT32_ATTR_ARCHIVE;
        mret (match created with
              | None => None
              | Some info => Some (file_of info 0 0 (i_first_cluster info) true)
              end)
    | Some info =>
        current ← last_cluster fuel (i_first_cluster info) (i_first_cluster info);
        mret (Some (file_of info (i_file_size info) (i_file_size info) current true))
    end
  else mret None.

(** The stores of [fat32_close] into the directory entry at [off]. *)
Definition touch_dirent (buf : list Z) (off : nat) (size tm dt : Z) : list Z :=
  let buf := put_bytes buf (off + 28) (le_enc 4 size) in
  let buf := put_bytes buf (off + 22) (le_enc 2 tm) in
  let buf := put_bytes buf (off + 24) (le_enc 2 dt) in
  put_bytes buf (off + 18) (le_enc 2 dt).

Definition fat32_close (fp : fat32_file) : M D unit :=
  if f_write_mode fp && (f_first_cluster fp >=? 2) && (f_dir_cluster fp >=? 2) then
    okm ← malloc;
    if negb okm then mret tt else
    v ← get_vol;
    let lba := cluster_to_lba v (f_dir_cluster fp) in
    r ← blk_read ops lba (v_spc v);
    match r with
    | None => mret tt
    | Some buf =>
        now ← get_clock;
        let '(tm, dt) := datetime_to_dos now in
        _ ← blk_write ops lba (v_spc v)
              (touch_dirent buf (Z.to_nat (f_dir_offset fp * 32)) (f_file_size fp) tm dt);
        mret tt
    end
  else mret tt.

(** ** Read *)

(** One round copies from one cluster; [out] is what has been copied. *)
Fixpoint read_loop (fuel : nat) (fp : fat32_file) (cluster remaining : Z) (out : list Z)
  : M D (list Z * fat32_file) :=
  if (remaining >? 0) && (cluster >=? 2) && (cluster <? FAT32_CLUSTER_EOC) then
    match fuel with
    | O => fun _ => None
    | S fuel =>
        v ← get_vol;
        let lba := cluster_to_lba v cluster in
        let cluster_size := v_bpc v in
        let offset := f_pos fp mod cluster_size in
        let bytes_in_cluster := cluster_size - offset in
        let to_read := if remaining <? bytes_in_cluster then remaining else bytes_in_cluster in
        okm ← (if (offset =? 0) && (to_read =? cluster_size) then mret true else malloc);
        if negb okm then mret (out, fp) else
        r ← blk_read ops lba (v_spc v);
        match r with
        | None => mret (out, fp)
        | Some buf =>
            let out := out ++ slice buf (Z.to_nat offset) (Z.to_nat to_read) in
            let pos := u64 (f_pos fp + to_read) in
            let remaining := remaining - to_read in
            if offset + to_read >=? cluster_size then
              next ← fat32_next_cluster ops cluster;
              read_loop fuel (set_cursor fp pos next) next remaining out
            else read_loop fuel (set_cursor fp pos (f_current_cluster fp)) cluster remaining out
        end
    end
  else mret (out, fp).

Definition fat32_read (fuel : nat) (fp : fat32_file) (n : Z) : M D (list Z * fat32_file) :=
  let remaining := if u64 (f_pos fp + n) >? f_file_size fp then u64 (f_file_size fp - f_pos fp) else n in
  if remaining =? 0 then mret ([], fp) else
  read_loop fuel fp (f_current_cluster fp) remaining [].

(** ** Write *)

(** The cluster before [cluster] on the chain from [c], as the source finds it. *)
Fixpoint find_prev (fuel : nat) (c cluster prev : Z) : M D Z :=
  if (c >=? 2) && (c <? FAT32_CLUSTER_EOC) then
    match fuel with
    | O => fun _ => None
    | S fuel =>
        next ← fat32_next_cluster ops c;
        if (next =? cluster) || (next =? 0) || (next >=? FAT32_CLUSTER_EOC) then mret prev
        else find_prev fuel next cluster c
    end
  else mret prev.

(** A new cluster for the file, linked to [prev]; [None] when none is free. *)
Definition extend_file (fp : fat32_file) (prev : Z) : M D (option (fat32_file * Z)) :=
  new_cluster ← fat32_alloc_clusters ops 1 0;
  if new_cluster =? 0 then mret None else
  fp ← (if f_first_cluster fp <? 2 then mret (set_first fp new_cluster)
        else if (prev >=? 2) && (prev <? FAT32_CLUSTER_EOC) then
          rc ← fat_write_entry ops prev new_cluster; mret fp
        else mret fp);
  _ ← fat_write_entry ops new_cluster FAT32_CLUSTER_EOC;
  mret (Some (set_cursor fp (f_pos fp) new_cluster, new_cluster)).

(** Store [chunk] at [offset] of the cluster at [lba]. *)
Definition write_cluster (v : fat32_volume) (lba offset : Z) (chunk : list Z) : M D bool :=
  if (offset =? 0) && (Z.of_nat (length chunk) =? v_bpc v)
  then blk_write ops lba (v_spc v) chunk
  else
    okm ← malloc;
    if negb okm then mret false else
    r ← blk_read ops lba (v_spc v);
    match r with
    | None => mret false
    | Some tmp => blk_write ops lba (v_spc v) (put_bytes tmp (Z.to_nat offset) chunk)
    end.

(** [src] is what remains to be written, [total] what has been. *)
Fixpoint write_loop (fuel : nat) (fp : fat32_file) (cluster prev : Z) (src : list Z) (total : Z)
  : M D (Z * fat32_file) :=
  match src with
  | [] => mret (total, fp)
  | _ =>
      match fuel with
      | O => fun _ => None
      | S fuel =>
          e ← (if (cluster <? 2) || (cluster >=? FAT32_CLUSTER_EOC) then extend_file fp prev
               else mret (Some (fp, cluster)));
          match e with
          | None => mret (total, fp)
          | Some (fp, cluster) =>
              v ← get_vol;
              let lba := cluster_to_lba v cluster in
              let cluster_size := v_bpc v in
              let offset := f_pos fp mod cluster_size in
              let bytes_in_cluster := cluster_size - offset in
              let remaining := Z.of_nat (length src) in
              let to_write := if remaining <? bytes_in_cluster then remaining else bytes_in_cluster in
              okw ← write_cluster v lba offset (take (Z.to_nat to_write) src);
              if negb okw then mret (total, fp) else
              let src := drop (Z.to_nat to_write) src in
              let pos := u64 (f_pos fp + to_write) in
              let fp := set_cursor fp pos (f_current_cluster fp) in
              let fp := if pos >? f_file_size fp then set_size fp (u32 pos) else fp in
              if offset + to_write >=? cluster_size then
                next ← fat32_next_cluster ops cluster;
                write_loop fuel (set_cursor fp pos next) next cluster src (total + to_write)
              else write_loop fuel fp cluster prev src (total + to_write)
          end
      end
  end.

Definition fat32_write (fuel : nat) (fp : fat32_file) (src : list Z) : M D (Z * fat32_file) :=
  if negb (f_write_mode fp) then mret (0, fp) else
  let cluster := f_current_cluster fp in
  prev ← (if (cluster >=? 2) && (cluster <? FAT32_CLUSTER_EOC) then
            if negb (f_first_cluster fp =? cluster)
            then find_prev fuel (f_first_cluster fp) cluster (f_first_cluster fp)
            else mret (f_first_cluster fp)
          else mret 0);
  write_loop fuel fp cluster prev src 0.

(** ** Seek *)

(** The walk to the target cluster: [n] links left. *)
Fixpoint seek_walk (n : nat) (cluster : Z) : M D Z :=
  match n with
  | O => mret cluster
  | S n =>
      next ← fat32_next_cluster ops cluster;
      if (next =? 0) || (next >=? FAT32_CLUSTER_EOC) then mret cluster else seek_walk n next
  end.

Definition fat32_seek (fp : fat32_file) (offset whence : Z) : M D (Z * fat32_file) :=
  let target :=
    if whence =? 0 then Some offset
    else if whence =? 1 then Some (s64 (s64 (f_pos fp) + offset))
    else if whence =? 2 then Some (s64 (f_file_size fp + offset))
    else None in
  match target with
  | None => mret (-1, fp)
  | Some new_pos =>
      if new_pos <? 0 then mret (-1, fp) else
      v ← get_vol;
      cluster ← seek_walk (Z.to_nat (new_pos / v_bpc v)) (f_first_cluster fp);
      mret (new_pos, set_cursor fp new_pos cluster)
  end.
End file.
