(* ===== verification/Fat32Vol.v ===== *)
(** * FAT32 volumes

    [kernel/fat32_format.c]: mount, unmount, format, validate and the boot volume.

    The boot sector is the list of its 512 bytes, read at the offsets of the
    packed [fat32_boot_sector].  The volume of the state is the caller's, or the
    static one of [fat32_boot_volume]. *)

From S2P Require Import Prelude Fat32 Fat32Facts Fat32Chains Fat32Dir.
Open Scope Z_scope.

(** ** The boot sector *)

Definition bs_bytes_per_sector (bs : list Z) : Z := le_at bs 11 2.
Definition bs_sectors_per_cluster (bs : list Z) : Z := le_at bs 13 1.
Definition bs_reserved_sectors (bs : list Z) : Z := le_at bs 14 2.
Definition bs_num_fats (bs : list Z) : Z := le_at bs 16 1.
Definition bs_sectors_per_fat (bs : list Z) : Z := le_at bs 36 4.
Definition bs_fat_flags (bs : list Z) : Z := le_at bs 40 2.
Definition bs_root_cluster (bs : list Z) : Z := le_at bs 44 4.
Definition bs_fs_info_sector (bs : list Z) : Z := le_at bs 48 2.
Definition bs_signature (bs : list Z) : Z := le_at bs 510 2.
Definition set_fat_flags (bs : list Z) (flags : Z) : list Z := put_bytes bs 40 (le_enc 2 flags).

(** The volume after [memset (vol, 0, sizeof *vol)] and [fat_cache_invalidate]. *)
Definition zero_vol : fat32_volume :=
  {| v_mounted := false; v_dirty := false; v_spc := 0; v_bpc := 0; v_reserved := 0;
     v_num_fats := 0; v_spf := 0; v_root_cluster := 0; v_fat1_lba := 0; v_fat2_lba := 0;
     v_data_lba := 0; v_total_clusters := 0; v_free_clusters := 0; v_next_free := 0;
     v_fs_info_lba := 0; v_cached_sector := 0; v_cached_dirty := false; v_cache := None |}.

Definition set_mounted (mounted dirty : bool) (v : fat32_volume) : fat32_volume :=
  {| v_mounted := mounted; v_dirty := dirty; v_spc := v_spc v; v_bpc := v_bpc v;
     v_reserved := v_reserved v; v_num_fats := v_num_fats v; v_spf := v_spf v;
     v_root_cluster := v_root_cluster v; v_fat1_lba := v_fat1_lba v; v_fat2_lba := v_fat2_lba v;
     v_data_lba := v_data_lba v; v_total_clusters := v_total_clusters v;
     v_free_clusters := v_free_clusters v; v_next_free := v_next_free v;
     v_fs_info_lba := v_fs_info_lba v; v_cached_sector := v_cached_sector v;
     v_cached_dirty := v_cached_dirty v; v_cache := v_cache v |}.

(** The checks of [fat32_mount]. *)
Definition bs_valid (bs : list Z) : bool :=
  (bs_signature bs =? 43605) && (bs_bytes_per_sector bs =? FAT32_SECTOR_SIZE) &&
  negb (bs_sectors_per_cluster bs =? 0) && negb (bs_sectors_per_fat bs =? 0) &&
  negb (bs_root_cluster bs <? 2).

(** The fields it fills in. *)
Definition vol_of (n_sectors : Z) (bs : list Z) : fat32_volume :=
  let spc := bs_sectors_per_cluster bs in
  let spf := bs_sectors_per_fat bs in
  let fat1 := bs_reserved_sectors bs in
  let fat2 := fat1 + spf in
  let data := fat2 + spf in
  {| v_mounted := true; v_dirty := negb (Z.land (bs_fat_flags bs) 128 =? 0);
     v_spc := spc; v_bpc := spc * FAT32_SECTOR_SIZE; v_reserved := fat1;
     v_num_fats := bs_num_fats bs; v_spf := spf; v_root_cluster := bs_root_cluster bs;
     v_fat1_lba := fat1; v_fat2_lba := fat2; v_data_lba := data;
     v_total_clusters := u32 (u32 (u64 (n_sectors - data) / spc) + 2);
     v_free_clusters := 0; v_next_free := 0; v_fs_info_lba := bs_fs_info_sector bs;
     v_cached_sector := 4294967295; v_cached_dirty := false; v_cache := None |}.

Definition fsinfo_valid (buf : list Z) : bool :=
  (le_at buf 0 4 =? 1096897106) && (le_at buf 484 4 =? 1631679090) && (le_at buf 508 4 =? 2857697280).

Section vol.
Context {D : Type} (ops : blk_ops D).

(** ** Mount and unmount *)

Definition read_fsinfo (lba : Z) : M D unit :=
  if lba >? 0 then
    r ← blk_read ops lba 1;
    match r with
    | Some buf =>
        if fsinfo_valid buf then
          let next := le_at buf 492 4 in
          put_vol (set_free (le_at buf 488 4) (if next <? 2 then 2 else next))
        else mret tt
    | None => mret tt
    end
  else mret tt.

Definition fat32_mount : M D Z :=
  _ ← put_vol (fun _ => zero_vol);
  _ ← fat_cache_invalidate;
  r ← blk_read ops 0 1;
  match r with
  | None => mret (-1)
  | Some bs =>
      if negb (bs_valid bs) then mret (-1) else
      _ ← put_vol (fun _ => vol_of (b_n_sectors ops) bs);
      v ← get_vol;
      _ ← (if negb (v_dirty v)
           then blk_write ops 0 1 (set_fat_flags bs (Z.lor (bs_fat_flags bs) 128)) else mret true);
      _ ← read_fsinfo (bs_fs_info_sector bs);
      mret 0
  end.

(** The result of the flush is not looked at. *)
Definition fat32_unmount : M D unit :=
  v ← get_vol;
  _ ← (match v_cache v with
       | Some _ =>
           _ ← (if v_cached_dirty v then fat32_flush ops else mret 0);
           put_vol (fun v => set_cache (v_cached_sector v) false None v)
       | None => mret tt
       end);
  _ ← (if v_mounted v then
         r ← blk_read ops 0 1;
         match r with
         | Some bs => blk_write ops 0 1 (set_fat_flags bs (Z.land (bs_fat_flags bs) (u16 (Z.lnot 128))))
         | None => mret true
         end
       else mret true);
  put_vol (set_mounted false false).

(** ** Format *)

Definition format_spc (sector_count : Z) : Z :=
  let total_kb := sector_count / 2 in
  if total_kb <=? 244000 then 1 else if total_kb <=? 976000 then 2
  else if total_kb <=? 3056000 then 4 else if total_kb <=? 6112000 then 8
  else if total_kb <=? 16777000 then 16 else if total_kb <=? 33554000 then 32 else 64.

Definition format_clusters (sector_count : Z) : Z :=
  u32 (u64 (sector_count - 32) / format_spc sector_count).

(** With the margin of one sector. *)
Definition format_spf (sector_count : Z) : Z :=
  u32 (u32 (u32 (format_clusters sector_count * 4) + 512 - 1) / 512 + 1).

(** [memset (volume_label, ' ', 11)] and the copy of at most 11 characters. *)
Definition volume_label (vol_name : option (list Z)) : list Z :=
  match vol_name with
  | Some name => pad 11 (take 11 name)
  | None => str "NO NAME    "
  end.

(** The fields in the order of [fat32_boot_sector]; [now] is [time (NULL)]. *)
Definition boot_sector (now sector_count : Z) (vol_name : option (list Z)) : list Z :=
  [235; 88; 144] ++ str "MSWIN4.1" ++ le_enc 2 512 ++ le_enc 1 (format_spc sector_count) ++
  le_enc 2 32 ++ le_enc 1 2 ++ le_enc 2 0 ++ le_enc 2 0 ++ le_enc 1 248 ++ le_enc 2 0 ++
  replicate 8 0 ++ le_enc 4 sector_count ++ le_enc 4 (format_spf sector_count) ++ le_enc 2 0 ++
  le_enc 2 0 ++ le_enc 4 2 ++ le_enc 2 1 ++ le_enc 2 6 ++ replicate 12 0 ++ le_enc 1 128 ++ [0] ++
  le_enc 1 41 ++ le_enc 4 now ++ volume_label vol_name ++ str "FAT32   " ++ replicate 420 0 ++
  le_enc 2 43605.

Definition zero_sector : list Z := replicate 512 0.
Definition fat_init : list Z :=
  bytes_of ([268435448; 268435455; 268435455] ++ replicate 125 0).
Definition fsinfo (clusters : Z) : list Z :=
  le_enc 4 1096897106 ++ replicate 480 0 ++ le_enc 4 1631679090 ++
  le_enc 4 (u32 (clusters - 1)) ++ le_enc 4 3 ++ replicate 12 0 ++ le_enc 4 2857697280.

(** Write a zero sector at [i], [i + 1], ...; stop at the first failure. *)
Fixpoint zero_sectors (n : nat) (i : Z) : M D bool :=
  match n with
  | O => mret true
  | S n =>
      okw ← blk_write ops i 1 zero_sector;
      if negb okw then mret false else zero_sectors n (i + 1)
  end.

Definition fat32_format (now sector_count : Z) (vol_name : option (list Z)) : M D Z :=
  let bs := boot_sector now sector_count vol_name in
  let spf := format_spf sector_count in
  let fat_start := 32 in
  let fat_end := fat_start + 2 * spf in
  ok1 ← blk_write ops 0 1 bs;
  if negb ok1 then mret (-1) else
  ok2 ← blk_write ops 6 1 bs;
  if negb ok2 then mret (-1) else
  ok3 ← zero_sectors (Z.to_nat (fat_end - fat_start)) fat_start;
  if negb ok3 then mret (-1) else
  ok4 ← blk_write ops fat_start 1 fat_init;
  if negb ok4 then mret (-1) else
  ok5 ← blk_write ops (fat_start + spf) 1 fat_init;
  if negb ok5 then mret (-1) else
  ok6 ← blk_write ops 1 1 (fsinfo (format_clusters sector_count));
  if negb ok6 then mret (-1) else
  ok7 ← zero_sectors (Z.to_nat (format_spc sector_count)) fat_end;
  if negb ok7 then mret (-1) else mret 0.

(** ** The boot volume and validation *)

Definition fat32_boot_attach (now : Z) : M D Z :=
  v ← get_vol;
  if v_mounted v then mret 0 else
  r ← blk_read ops 0 1;
  let formatted :=
    match r with
    | Some bs => (bs_bytes_per_sector bs =? FAT32_SECTOR_SIZE) && negb (bs_sectors_per_fat bs =? 0)
    | None => false
    end in
  rc ← (if negb formatted then fat32_format now (b_n_sectors ops) (Some (str "WUBUOS")) else mret 0);
  if negb (rc =? 0) then mret (-1) else fat32_mount.

Definition fat32_validate : M D Z :=
  v ← get_vol;
  if negb (v_mounted v) then mret (-1) else
  okm ← malloc;
  if negb okm then mret (-1) else
  r ← blk_read ops (cluster_to_lba v (v_root_cluster v)) (v_spc v);
  mret (match r with Some _ => 0 | None => -1 end).
End vol.
