(* ===== verification/Fat32VolFacts.v ===== *)
(** * Properties of FAT32 volumes

    Formatting makes an empty volume, unmounting and mounting again keeps the
    table, and what the free count of the FSInfo sector says. *)

From S2P Require Import Prelude Fat32 Fat32Facts Fat32Chains Fat32Dir Fat32Vol.
Open Scope Z_scope.

(** ** The boot sector *)

Lemma volume_label_length name : length (volume_label name) = 11%nat.
Proof.
  destruct name as [name|]; [|reflexivity]. cbn [volume_label]. unfold pad.
  rewrite length_app, length_replicate, length_take. lia.
Qed.
Lemma volume_label_bytes name :
  (forall l, name = Some l -> Forall is_byte l) -> Forall is_byte (volume_label name).
Proof.
  intros H. destruct name as [name|]; [|by apply (bool_decide_unpack _); vm_compute].
  unfold volume_label, pad. apply Forall_app. split; [by apply Forall_take, H|by apply Forall_replicate].
Qed.

(** The fields [fat32_mount] reads, as [fat32_format] wrote them. *)
Lemma boot_sector_fields now n name :
  let bs := boot_sector now n name in
  bs_bytes_per_sector bs = 512 /\ bs_sectors_per_cluster bs = le_dec (le_enc 1 (format_spc n)) /\
  bs_reserved_sectors bs = 32 /\ bs_num_fats bs = 2 /\
  bs_sectors_per_fat bs = le_dec (le_enc 4 (format_spf n)) /\ bs_fat_flags bs = 0 /\
  bs_root_cluster bs = 2 /\ bs_fs_info_sector bs = 1 /\ bs_signature bs = 43605.
Proof.
  cbn zeta. pose proof (volume_label_length name) as Hl. unfold boot_sector.
  destruct (volume_label name) as [|x0 l]; [discriminate|].
  do 10 (destruct l as [|? l]; [discriminate|]). destruct l; [|discriminate].
  repeat split; reflexivity.
Qed.

Lemma boot_sector_length now n name : length (boot_sector now n name) = 512%nat.
Proof.
  unfold boot_sector. rewrite !length_app, volume_label_length, !length_le_enc, !length_replicate.
  reflexivity.
Qed.
Lemma boot_sector_bytes now n name :
  (forall l, name = Some l -> Forall is_byte l) -> Forall is_byte (boot_sector now n name).
Proof.
  intros H. unfold boot_sector.
  repeat (apply Forall_app; split);
    (apply le_enc_bytes || by apply Forall_replicate || by apply volume_label_bytes ||
     by apply (bool_decide_unpack _); vm_compute).
Qed.

(** ** Geometry *)

Lemma format_spc_cases n :
  37 <= n < 2 ^ 35 ->
  format_spc n ∈ [1; 2; 4; 8; 16; 32; 64] /\ n < format_spc n * 2 ^ 29 /\
  (1 < format_spc n -> 488000 < n).
Proof.
  intros Hn. unfold format_spc. pose proof (Z.div_mod n 2 ltac:(lia)). pose proof (Z.mod_pos_bound n 2 ltac:(lia)).
  repeat match goal with |- context [?a <=? ?b] => destruct (Z.leb_spec a b) end;
    (split; [set_solver|]; lia).
Qed.

Lemma format_geometry n :
  37 <= n < 2 ^ 35 ->
  let spc := format_spc n in let spf := format_spf n in
  1 <= spc <= 64 /\ 2 <= spf < 2 ^ 24 /\ 32 + 2 * spf + spc <= n /\
  format_clusters n = (n - 32) / spc /\ (n - 32) / spc + 128 <= 128 * spf /\ (n - 32) / spc < 2 ^ 29.
Proof.
  intros Hn spc spf. destruct (format_spc_cases n Hn) as (Hin & Hlt & Hbig). fold spc in Hin, Hlt, Hbig.
  assert (1 <= spc <= 64) as Hspc.
  { clear -Hin. generalize dependent spc. intros spc H. repeat (apply elem_of_cons in H as [->|H]; [lia|]). set_solver. }
  set (q := (n - 32) / spc).
  assert (spc * q <= n - 32 < spc * q + spc) as Hq.
  { pose proof (Z.div_mod (n - 32) spc ltac:(lia)). pose proof (Z.mod_pos_bound (n - 32) spc ltac:(lia)). unfold q. lia. }
  assert (0 <= q < 2 ^ 29) as Hq30.
  { split; [apply Z.div_pos; lia|]. apply (Z.mul_lt_mono_pos_l spc); lia. }
  assert (format_clusters n = q) as Ec.
  { unfold format_clusters. rewrite (wrap_id 64) by (unfold_fits; lia). fold spc q. apply wrap_id. unfold_fits. lia. }
  assert (spf = (q * 4 + 511) / 512 + 1) as Es.
  { unfold spf, format_spf. rewrite Ec. rewrite (wrap_id 32 (q * 4)) by (unfold_fits; lia).
    rewrite (wrap_id 32 (q * 4 + 512 - 1)) by (unfold_fits; lia).
    replace (q * 4 + 512 - 1) with (q * 4 + 511) by lia. apply wrap_id.
    pose proof (Z.div_mod (q * 4 + 511) 512 ltac:(lia)). pose proof (Z.mod_pos_bound (q * 4 + 511) 512 ltac:(lia)).
    unfold_fits. lia. }
  pose proof (Z.div_mod (q * 4 + 511) 512 ltac:(lia)). pose proof (Z.mod_pos_bound (q * 4 + 511) 512 ltac:(lia)).
  assert (5 <= q) as Hq5 by (destruct (Z.eq_dec spc 1); nia).
  split; [lia|]. split; [lia|]. split; [|by repeat split; lia].
  destruct (Z.eq_dec spc 1) as [E1|E1]; [lia|]. assert (488000 < n) by (apply Hbig; lia). nia.
Qed.

Lemma total_clusters_of n spc data :
  1 <= spc <= 64 -> 0 <= data -> data + spc <= n -> n < spc * 2 ^ 29 -> n < 2 ^ 35 ->
  u32 (u32 (u64 (n - data) / spc) + 2) = (n - data) / spc + 2 /\ 1 <= (n - data) / spc < 2 ^ 29 /\
  spc * ((n - data) / spc) <= n - data.
Proof.
  intros. pose proof (Z.div_mod (n - data) spc ltac:(lia)). pose proof (Z.mod_pos_bound (n - data) spc ltac:(lia)).
  assert (1 <= (n - data) / spc < 2 ^ 29).
  { split; [apply Z.div_le_lower_bound; lia|]. apply (Z.mul_lt_mono_pos_l spc); lia. }
  split; [|lia]. rewrite (wrap_id 64) by (unfold_fits; lia). rewrite (wrap_id 32 (_ / _)) by (unfold_fits; lia).
  apply wrap_id. unfold_fits. lia.
Qed.

(** ** Writing sectors *)

Section sectors.
Context {D : Type} (ops : blk_ops D) `{BD : !BlkDev ops}.

(** Only the device changed, and its sectors are [f]. *)
Record on_device (st st' : fstate D) (f : Z -> list Z) : Prop := {
  od_vol : vol st' = vol st;
  od_mallocs : mallocs st' = mallocs st;
  od_content : forall i, content (dev st') i = f i }.

Lemma wp_put_sector lba buf Q st f :
  reliable ops -> length buf = 512%nat -> Forall is_byte buf ->
  (forall i, content (dev st) i = f i) ->
  (forall st', on_device st st' (fun i => if i =? lba then buf else f i) -> Q true st') ->
  wp (blk_write ops lba 1 buf) Q st.
Proof.
  intros [_ Hw] Hl Hb Hf HQ. wp_step. pose proof (Hw (dev st) lba 1 buf) as E. rewrite Hw0 in E. cbn in E. subst okw.
  apply HQ. constructor; [done|done|]. intros i. cbn [dev]. destruct (Z.eqb_spec i lba) as [->|Hne].
  - rewrite (write_content _ _ _ _ _ Hw0) by (done || lia). rewrite Z.sub_diag.
    unfold slice. rewrite drop_0. apply take_ge. lia.
  - rewrite (write_other _ _ _ _ _ _ _ Hw0) by lia. apply Hf.
Qed.

Lemma wp_zero_sectors n : forall lba Q st f,
  reliable ops -> (forall i, content (dev st) i = f i) ->
  (forall st', on_device st st'
     (fun i => if (lba <=? i) && (i <? lba + Z.of_nat n) then zero_sector else f i) -> Q true st') ->
  wp (zero_sectors ops n lba) Q st.
Proof.
  induction n as [|n IH]; intros lba Q st f Hrel Hf HQ; cbn [zero_sectors].
  - wp_step. apply HQ. constructor; [done|done|]. intros i. rewrite Hf.
    destruct (Z.leb_spec lba i), (Z.ltb_spec i (lba + Z.of_nat 0)); (done || lia).
  - wp_step. eapply wp_put_sector; [done|done|by apply Forall_replicate|exact Hf|]. intros st1 [V1 M1 C1].
    cbn [negb]. eapply IH; [done|exact C1|]. intros st2 [V2 M2 C2]. apply HQ.
    constructor; [congruence|congruence|]. intros i. rewrite C2.
    destruct (Z.leb_spec (lba + 1) i), (Z.ltb_spec i (lba + 1 + Z.of_nat n)), (Z.leb_spec lba i),
      (Z.ltb_spec i (lba + Z.of_nat (S n))), (Z.eqb_spec i lba); cbn [andb]; (done || lia).
Qed.

(** The sectors after [fat32_format]. *)
Definition formatted (now n : Z) (name : option (list Z)) (f : Z -> list Z) (i : Z) : list Z :=
  let spf := format_spf n in
  let data := 32 + 2 * spf in
  if (data <=? i) && (i <? data + format_spc n) then zero_sector
  else if i =? 1 then fsinfo (format_clusters n)
  else if i =? 32 + spf then fat_init
  else if i =? 32 then fat_init
  else if (32 <=? i) && (i <? data) then zero_sector
  else if (i =? 6) || (i =? 0) then boot_sector now n name
  else f i.

Lemma fsinfo_length c : length (fsinfo c) = 512%nat.
Proof. unfold fsinfo. rewrite !length_app, !length_le_enc, !length_replicate. reflexivity. Qed.
Lemma fsinfo_bytes c : Forall is_byte (fsinfo c).
Proof.
  unfold fsinfo. repeat (apply Forall_app; split); (apply le_enc_bytes || by apply Forall_replicate).
Qed.

Lemma format_spec now name st :
  reliable ops -> 37 <= b_n_sectors ops < 2 ^ 35 ->
  (forall l, name = Some l -> Forall is_byte l) ->
  wp (fat32_format ops now (b_n_sectors ops) name) (fun rc st' => rc = 0 /\
    on_device st st' (formatted now (b_n_sectors ops) name (content (dev st)))) st.
Proof.
  intros Hrel Hn Hname. set (n := b_n_sectors ops) in *.
  destruct (format_geometry n Hn) as (Hspc & Hspf & Hfit & _). unfold fat32_format.
  wp_step. eapply wp_put_sector; [done|apply boot_sector_length|by apply boot_sector_bytes|reflexivity|].
  intros st1 [V1 M1 C1]. cbn [negb]. wp_step.
  eapply wp_put_sector; [done|apply boot_sector_length|by apply boot_sector_bytes|exact C1|].
  intros st2 [V2 M2 C2]. cbn [negb]. wp_step.
  eapply wp_zero_sectors; [done|exact C2|]. intros st3 [V3 M3 C3]. cbn [negb]. wp_step.
  eapply wp_put_sector; [done|done|apply bytes_of_bytes|exact C3|]. intros st4 [V4 M4 C4]. cbn [negb]. wp_step.
  eapply wp_put_sector; [done|done|apply bytes_of_bytes|exact C4|]. intros st5 [V5 M5 C5]. cbn [negb]. wp_step.
  eapply wp_put_sector; [done|apply fsinfo_length|apply fsinfo_bytes|exact C5|].
  intros st6 [V6 M6 C6]. cbn [negb]. wp_step.
  eapply wp_zero_sectors; [done|exact C6|]. intros st7 [V7 M7 C7]. cbn [negb]. wp_step.
  split; [done|]. constructor; [congruence|congruence|]. intros i. rewrite C7. unfold formatted. cbn zeta.
  rewrite !Z2Nat.id by lia. replace (32 + (32 + 2 * format_spf n - 32)) with (32 + 2 * format_spf n) by lia.
  destruct (_ && _); [done|]. do 3 (destruct (_ =? _); [done|]). destruct (_ && _); [done|].
  destruct (i =? 6); [done|]. by destruct (i =? 0).
Qed.
End sectors.

(** ** Mounting *)

Lemma put_bytes_length buf off bs : (off + length bs <= length buf)%nat -> length (put_bytes buf off bs) = length buf.
Proof. intros. unfold put_bytes. rewrite !length_app, length_take, length_drop. lia. Qed.
Lemma put_bytes_bytes buf off bs : Forall is_byte buf -> Forall is_byte bs -> Forall is_byte (put_bytes buf off bs).
Proof. intros. unfold put_bytes. rewrite !Forall_app. split_and!; [by apply Forall_take|done|by apply Forall_drop]. Qed.

(** Reading next to or at the bytes just stored. *)
Lemma slice_put_here buf off bs : (off + length bs <= length buf)%nat -> slice (put_bytes buf off bs) off (length bs) = bs.
Proof.
  intros H. unfold slice, put_bytes. rewrite drop_app_length' by (rewrite length_take; lia).
  by rewrite take_app_length.
Qed.
Lemma slice_put_before buf off bs o n :
  (o + n <= off)%nat -> (off <= length buf)%nat -> slice (put_bytes buf off bs) o n = slice buf o n.
Proof.
  intros H Hl. unfold slice, put_bytes. rewrite drop_app_le by (rewrite length_take; lia).
  rewrite take_app_le by (rewrite length_drop, length_take; lia).
  rewrite take_drop_commute, take_take, Nat.min_l by lia. by rewrite take_drop_commute.
Qed.
Lemma slice_put_after buf off bs o n :
  (off + length bs <= o)%nat -> (off <= length buf)%nat -> slice (put_bytes buf off bs) o n = slice buf o n.
Proof.
  intros H Hl. unfold slice, put_bytes. f_equal. rewrite app_assoc.
  rewrite drop_app_ge by (rewrite length_app, length_take; lia).
  rewrite drop_drop. f_equal. rewrite length_app, length_take. lia.
Qed.

(** Setting the flags changes nothing else [fat32_mount] reads. *)
Lemma set_fat_flags_fields n bs flags :
  length bs = 512%nat ->
  bs_valid (set_fat_flags bs flags) = bs_valid bs /\ bs_fat_flags (set_fat_flags bs flags) = u16 flags /\
  bs_fs_info_sector (set_fat_flags bs flags) = bs_fs_info_sector bs /\
  (forall d, set_mounted true d (vol_of n (set_fat_flags bs flags)) = set_mounted true d (vol_of n bs)).
Proof.
  intros Hl.
  assert (forall o k, (o + k <= 40 \/ 42 <= o)%nat -> le_at (set_fat_flags bs flags) o k = le_at bs o k) as H.
  { intros o k Hok. unfold le_at, set_fat_flags. f_equal. destruct Hok.
    - apply slice_put_before; lia.
    - apply slice_put_after; [cbn; lia|lia]. }
  assert (le_at (set_fat_flags bs flags) 40 2 = u16 flags) as Hf.
  { unfold le_at, set_fat_flags. pose proof (slice_put_here bs 40 (le_enc 2 flags) ltac:(cbn; lia)) as E.
    rewrite length_le_enc in E. rewrite E. apply le_dec_enc. }
  unfold bs_valid, bs_fat_flags, vol_of, bs_signature, bs_bytes_per_sector, bs_sectors_per_cluster,
    bs_sectors_per_fat, bs_root_cluster, bs_reserved_sectors, bs_num_fats, bs_fs_info_sector.
  rewrite Hf, !H by lia. split_and!; reflexivity.
Qed.

Section mount.
Context {D : Type} (ops : blk_ops D) `{BD : !BlkDev ops}.

(** [st'] is [st] freshly mounted, by the boot sector [bs]. *)
Record mounts (st st' : fstate D) (bs : list Z) : Prop := {
  mo_geom : geometry (vol st') = geometry (vol_of (b_n_sectors ops) bs);
  mo_cache : v_cache (vol st') = None /\ v_cached_sector (vol st') = 4294967295 /\
             v_cached_dirty (vol st') = false;
  mo_mallocs : mallocs st' = mallocs st;
  mo_boot : content (dev st') 0 =
    if v_dirty (vol_of (b_n_sectors ops) bs) then bs else set_fat_flags bs (Z.lor (bs_fat_flags bs) 128);
  mo_other : forall i, i <> 0 -> content (dev st') i = content (dev st) i }.

Lemma reliable_read st lba n : reliable ops -> 0 <= n ->
  b_read ops (dev st) lba n = Some (concat (content (dev st) <$> seqZ lba n)).
Proof.
  intros [Hr _] Hn. destruct (Hr (dev st) lba n) as [buf E]. by rewrite E, (read_content _ _ _ _ E).
Qed.
Lemma reliable_read1 st lba : reliable ops -> b_read ops (dev st) lba 1 = Some (content (dev st) lba).
Proof.
  intros [Hr _]. destruct (Hr (dev st) lba 1) as [buf E]. by rewrite E, (read_one _ _ _ _ E).
Qed.

Lemma set_fat_flags_ok bs flags :
  length bs = 512%nat -> Forall is_byte bs ->
  length (set_fat_flags bs flags) = 512%nat /\ Forall is_byte (set_fat_flags bs flags).
Proof.
  intros Hl Hb. split; [unfold set_fat_flags; rewrite put_bytes_length; cbn; lia|].
  apply put_bytes_bytes; [done|apply le_enc_bytes].
Qed.

Lemma mount_spec st :
  reliable ops -> bs_valid (content (dev st) 0) = true ->
  wp (fat32_mount ops) (fun rc st' => rc = 0 /\ mounts st st' (content (dev st) 0)) st.
Proof.
  intros Hrel Hv. unfold fat32_mount, fat_cache_invalidate. do 6 wp_step. cbn [dev].
  rewrite reliable_read1 by done. set (bs := content (dev st) 0) in *. rewrite Hv. cbn [negb].
  do 4 wp_step. cbn [vol dev mallocs clock].
  assert (forall st2 : fstate D, vol st2 = vol_of (b_n_sectors ops) bs -> mallocs st2 = mallocs st ->
    content (dev st2) 0 = (if v_dirty (vol_of (b_n_sectors ops) bs) then bs else set_fat_flags bs (Z.lor (bs_fat_flags bs) 128)) ->
    (forall i, i <> 0 -> content (dev st2) i = content (dev st) i) ->
    wp (read_fsinfo ops (bs_fs_info_sector bs) ≫= fun _ => mret 0) (fun rc st' => rc = 0 /\ mounts st st' bs) st2) as Hfs.
  { intros st2 V2 M2 C2 O2. wp_step. unfold read_fsinfo.
    assert (mounts st st2 bs) by (constructor; (done || by rewrite V2)).
    destruct (_ >? _); [|by repeat wp_step]. do 2 wp_step. rewrite reliable_read1 by done.
    destruct (fsinfo_valid _); repeat wp_step; (split; [done|]); [|done].
    constructor; cbn [vol dev mallocs]; (done || by rewrite V2). }
  destruct (v_dirty (vol_of (b_n_sectors ops) bs)) eqn:Ed; cbn [negb].
  - do 2 wp_step. by apply Hfs.
  - wp_step. pose proof (set_fat_flags_ok bs (Z.lor (bs_fat_flags bs) 128) (content_length _ _) (content_bytes _ _)) as [Hl Hb].
    eapply wp_put_sector; [done|done|done|reflexivity|]. intros st2 [V2 M2 C2]. cbn [vol mallocs dev] in V2, M2, C2.
    apply Hfs; [done|done|by rewrite C2|]. intros i Hi. rewrite C2. destruct (Z.eqb_spec i 0); [lia|done].
Qed.
End mount.

(** ** A fresh volume *)

(** The geometry of a volume whose FATs and clusters fit on [n] sectors. *)
Record geometry_ok (v : fat32_volume) (n : Z) : Prop := {
  go_fats : 0 < v_fat1_lba v /\ v_fat2_lba v = v_fat1_lba v + v_spf v /\ v_data_lba v = v_fat2_lba v + v_spf v;
  go_spf : 0 < v_spf v < 4294967295;
  go_spc : 0 < v_spc v <= 255 /\ v_bpc v = 512 * v_spc v;
  go_entries : 2 < v_total_clusters v <= 128 * v_spf v /\ v_total_clusters v < 2 ^ 32;
  go_data : v_data_lba v + (v_total_clusters v - 2) * v_spc v <= n < 2 ^ 64 }.

Lemma format_vol now n name :
  37 <= n < 2 ^ 35 ->
  let v := vol_of n (boot_sector now n name) in
  geometry_ok v n /\ bs_valid (boot_sector now n name) = true /\ v_dirty v = false /\
  v_root_cluster v = 2 /\ v_fat1_lba v = 32 /\ v_spf v = format_spf n /\ v_spc v = format_spc n /\
  v_num_fats v = 2.
Proof.
  intros Hn v. destruct (format_geometry n Hn) as (Hspc & Hspf & Hfit & _ & Hent & _).
  destruct (format_spc_cases n Hn) as (_ & Hlt & _).
  destruct (boot_sector_fields now n name) as (F1 & F2 & F3 & F4 & F5 & F6 & F7 & F8 & F9).
  rewrite le_dec_enc in F2, F5. change (8 * Z.of_nat 1) with 8 in F2. change (8 * Z.of_nat 4) with 32 in F5.
  rewrite wrap_id in F2 by (unfold_fits; lia). rewrite wrap_id in F5 by (unfold_fits; lia).
  unfold v, vol_of, bs_valid. rewrite F1, F2, F3, F4, F5, F6, F7, F9.
  assert (2 * format_spf n = format_spf n + format_spf n) as E2 by lia.
  set (spc := format_spc n) in *. set (spf := format_spf n) in *.
  destruct (total_clusters_of n spc (32 + spf + spf)) as (T1 & T2 & T3); [lia..|].
  assert ((n - (32 + spf + spf)) / spc <= (n - 32) / spc) by (apply Z.div_le_mono; lia).
  split; [|split_and!; try reflexivity].
  - constructor; cbn [v_fat1_lba v_fat2_lba v_spf v_data_lba v_spc v_bpc v_total_clusters]; rewrite ?T1;
      unfold FAT32_SECTOR_SIZE; lia.
  - destruct (Z.eqb_spec spc 0); [lia|]. destruct (Z.eqb_spec spf 0); [lia|]. done.
Qed.

Section fresh.
Context {D : Type} (ops : blk_ops D) `{BD : !BlkDev ops}.

(** A freshly mounted volume of this geometry is in order. *)
Lemma mounts_ok st st' bs :
  mounts ops st st' bs -> geometry_ok (vol_of (b_n_sectors ops) bs) (b_n_sectors ops) ->
  fat_ok ops st' /\ clusters_ok st'.
Proof.
  intros [G (K1 & K2 & K3) _ _ _] [(A1 & A2 & A3) B [C1 C2] (E1 & E2) E3].
  destruct (geometry_fields _ _ G) as (F1 & F2 & F3 & F4 & F5 & F6 & F7 & F8 & F9 & F10).
  split.
  - constructor; rewrite ?F1, ?F2, ?F3, ?K1, ?K2, ?K3; try (done || lia || auto).
    + split_and!; try lia. nia.
  - unfold clusters_ok. rewrite F1, F4. lia.
Qed.

Lemma entry_uncached (st : fstate D) c :
  v_cache (vol st) = None ->
  entry ops st c = Z.land (default 0 (words 128 (content (dev st) (v_fat1_lba (vol st) + c / 128)) !! Z.to_nat (c mod 128))) 268435455.
Proof. intros E. unfold entry, view, sector_words. by rewrite E. Qed.

Lemma words_zero : words 128 zero_sector = replicate 128 0.
Proof. vm_compute. reflexivity. Qed.
Lemma words_init : words 128 fat_init = [268435448; 268435455; 268435455] ++ replicate 125 0.
Proof. vm_compute. reflexivity. Qed.
Lemma zero_entry k : default 0 (replicate 128 0 !! k) = 0.
Proof. destruct (replicate 128 0 !! k) as [x|] eqn:E; [|done]. by apply lookup_replicate_1 in E as [-> _]. Qed.

Lemma fresh_entries (st : fstate D) now n name f :
  37 <= n < 2 ^ 35 -> v_cache (vol st) = None -> v_fat1_lba (vol st) = 32 ->
  (forall i, i <> 0 -> content (dev st) i = formatted now n name f i) ->
  FAT32_CLUSTER_EOC <= entry ops st 2 /\ forall c, 3 <= c < 128 * format_spf n -> entry ops st c = 0.
Proof.
  intros Hn Hc H1 Hf. destruct (format_geometry n Hn) as (Hspc & Hspf & Hfit & _).
  assert (content (dev st) 32 = fat_init) as E0.
  { rewrite Hf by lia. unfold formatted. cbn zeta. destruct (Z.leb_spec (32 + 2 * format_spf n) 32); [lia|].
    cbn [andb]. change (32 =? 1) with false. destruct (Z.eqb_spec 32 (32 + format_spf n)); [lia|done]. }
  split.
  - rewrite entry_uncached, H1 by done. change (2 / 128) with 0. rewrite Z.add_0_r, E0, words_init. vm_compute. congruence.
  - intros c Hlt. rewrite entry_uncached, H1 by done.
    assert (0 <= c / 128 < format_spf n) as Hs by (split; [apply Z.div_pos; lia|apply Z.div_lt_upper_bound; lia]).
    destruct (Z.eq_dec (c / 128) 0) as [Ez|Hz].
    + rewrite Ez, Z.add_0_r, E0, words_init.
      assert (c < 128) by (apply Z.div_small_iff in Ez; lia).
      rewrite (Z.mod_small c) by lia.
      rewrite lookup_app_r by (cbn; lia). cbn [length].
      destruct (replicate 125 0 !! (Z.to_nat c - 3)%nat) as [x|] eqn:E; [|done].
      by apply lookup_replicate_1 in E as [-> _].
    + rewrite Hf by lia. unfold formatted. cbn zeta.
      destruct (Z.leb_spec (32 + 2 * format_spf n) (32 + c / 128)); [lia|]. cbn [andb].
      destruct (Z.eqb_spec (32 + c / 128) 1); [lia|]. destruct (Z.eqb_spec (32 + c / 128) (32 + format_spf n)); [lia|].
      destruct (Z.eqb_spec (32 + c / 128) 32); [lia|]. destruct (Z.leb_spec 32 (32 + c / 128)); [|lia].
      destruct (Z.ltb_spec (32 + c / 128) (32 + 2 * format_spf n)); [|lia]. cbn [andb].
      rewrite words_zero, zero_entry. done.
Qed.
End fresh.

(** ** Unmounting *)

Lemma flag_bit y : (Z.land y 128 =? 0) = negb (Z.testbit y 7).
Proof.
  destruct (Z.testbit y 7) eqn:E; cbn [negb].
  - apply Z.eqb_neq. intros H. apply (f_equal (fun z => Z.testbit z 7)) in H.
    rewrite Z.land_spec, E in H. discriminate H.
  - apply Z.eqb_eq, Z.bits_inj'. intros k Hk. rewrite Z.land_spec, Z.bits_0.
    destruct (Z.eq_dec k 7) as [->|Hne]; [by rewrite E|].
    change 128 with (2 ^ 7). rewrite Z.pow2_bits_false by lia. apply andb_false_r.
Qed.
Lemma u16_bit7 x : Z.testbit (u16 x) 7 = Z.testbit x 7.
Proof. unfold wrap. apply Z.mod_pow2_bits_low. lia. Qed.

Section unmount.
Context {D : Type} (ops : blk_ops D) `{BD : !BlkDev ops}.

(** The mounted volume is the one its boot sector describes, and the sector
    carries the dirty flag. *)
Record boot_describes (st : fstate D) : Prop := {
  bd_valid : bs_valid (content (dev st) 0) = true;
  bd_vol : geometry (set_mounted true true (vol_of (b_n_sectors ops) (content (dev st) 0))) =
           geometry (set_mounted true true (vol st));
  bd_flag : Z.testbit (bs_fat_flags (content (dev st) 0)) 7 = true }.

Lemma geometry_mounted v v' d : geometry v = geometry v' -> geometry (set_mounted true d v) = geometry (set_mounted true d v').
Proof.
  intros E. unfold geometry, set_free, set_cache, set_mounted in *.
  injection E as E1 E2 E3 E4 E5 E6 E7 E8 E9 E10 E11 E12 E13. cbn. congruence.
Qed.

Lemma dirty_bit n bs : v_dirty (vol_of n bs) = Z.testbit (bs_fat_flags bs) 7.
Proof. unfold vol_of. cbn [v_dirty]. rewrite flag_bit. apply negb_involutive. Qed.

Lemma mounts_describes st st' :
  mounts ops st st' (content (dev st) 0) -> bs_valid (content (dev st) 0) = true -> boot_describes st'.
Proof.
  intros [G _ _ Hb _] Hv. set (bs := content (dev st) 0) in *. rewrite dirty_bit in Hb.
  destruct (set_fat_flags_fields (b_n_sectors ops) bs (Z.lor (bs_fat_flags bs) 128) (content_length _ _))
    as (F1 & F2 & F3 & F4).
  destruct (Z.testbit (bs_fat_flags bs) 7) eqn:E; constructor; rewrite Hb; try done.
  - apply geometry_mounted. by symmetry.
  - by rewrite F1.
  - rewrite F4. apply geometry_mounted. by symmetry.
  - rewrite F2, u16_bit7, Z.lor_spec. apply orb_true_r.
Qed.

(** What is left on the device: the table, in the first FAT, and a clean flag. *)
Record leaves (st st' : fstate D) : Prop := {
  le_boot : content (dev st') 0 =
    set_fat_flags (content (dev st) 0) (Z.land (bs_fat_flags (content (dev st) 0)) (u16 (Z.lnot 128)));
  le_table : forall s, 0 <= s < v_spf (vol st) ->
    words 128 (content (dev st') (v_fat1_lba (vol st) + s)) = sector_words ops st s;
  le_other : forall i, i <> 0 -> ~ v_fat1_lba (vol st) <= i < v_fat2_lba (vol st) + v_spf (vol st) ->
    content (dev st') i = content (dev st) i;
  le_mallocs : mallocs st' = mallocs st;
  le_unmounted : v_mounted (vol st') = false }.

Lemma clean_words st s :
  fat_ok ops st -> v_cached_dirty (vol st) = false -> 0 <= s < v_spf (vol st) ->
  words 128 (content (dev st) (v_fat1_lba (vol st) + s)) = sector_words ops st s.
Proof.
  intros Hok Hd Hs. unfold sector_words. destruct (v_cache (vol st)) as [w|] eqn:Ew; [|done].
  destruct (Z.eqb_spec s (v_cached_sector (vol st))) as [->|]; [|done].
  symmetry. apply (fo_clean _ _ Hok w Ew); [|done]. pose proof (fo_geom _ _ Hok). lia.
Qed.

(** The flush of [fat32_unmount], when there is something to flush. *)
Lemma unmount_flush st :
  reliable ops -> fat_ok ops st ->
  wp (if v_cached_dirty (vol st) then fat32_flush ops else mret 0)
    (fun _ st' => same_table ops st st' /\ mallocs st' = mallocs st /\ v_cached_dirty (vol st') = false) st.
Proof.
  intros Hrel Hok. destruct (v_cached_dirty (vol st)) eqn:Ed.
  - eapply wp_mono; [exact (wp_and _ _ _ _ (flush_spec ops st Hok) (flush_reliable ops st Hrel))|].
    cbn beta. intros rc st' [[H1 [H2 _]] [-> Hm]]. split; [done|]. split; [done|].
    destruct (v_cache (vol st)) as [w|] eqn:Ew.
    + by destruct (H2 eq_refl) as [H3 _].
    + pose proof (fo_none _ _ Hok (or_intror Ew)). congruence.
  - wp_step. split; [by apply same_table_refl|done].
Qed.

(** Once the cache is clean: drop it, clear the flag. *)
Lemma unmount_finish st st1 (okc : option (list Z)) :
  reliable ops -> fat_ok ops st -> 0 < v_fat1_lba (vol st) ->
  same_table ops st st1 -> mallocs st1 = mallocs st -> v_cached_dirty (vol st1) = false ->
  wp (blk_read ops 0 1 ≫= fun r =>
      match r with
      | Some bs => blk_write ops 0 1 (set_fat_flags bs (Z.land (bs_fat_flags bs) (u16 (Z.lnot 128))))
      | None => mret true
      end) (fun _ st2 => wp (put_vol (set_mounted false false)) (fun _ st' => leaves st st') st2)
    {| vol := set_cache (v_cached_sector (vol st1)) false okc (vol st1); dev := dev st1;
       mallocs := mallocs st1; clock := clock st1 |}.
Proof.
  intros Hrel Hok Hpos Hs Hm Hd. pose proof (fo_geom _ _ Hok) as Hg. do 2 wp_step. cbn [dev].
  rewrite (reliable_read1 ops st1) by done.
  assert (content (dev st1) 0 = content (dev st) 0) as E0 by (apply (sm_data _ _ _ Hs); lia).
  pose proof (set_fat_flags_ok (content (dev st1) 0) (Z.land (bs_fat_flags (content (dev st1) 0)) (u16 (Z.lnot 128)))
    (content_length _ _) (content_bytes _ _)) as [Hl Hb].
  eapply wp_put_sector; [done|done|done|reflexivity|]. intros st2 [V2 M2 C2]. cbn [vol dev mallocs] in V2, M2, C2.
  wp_step. destruct (geometry_fields _ _ (sm_geom _ _ _ Hs)) as (F1 & F2 & F3 & _).
  constructor; cbn [vol dev mallocs set_mounted v_mounted].
  - by rewrite C2, E0.
  - intros s Hs'. rewrite C2. destruct (Z.eqb_spec (v_fat1_lba (vol st) + s) 0); [lia|].
    rewrite <- F2. rewrite clean_words; [by apply (sm_words _ _ _ Hs)|by apply (sm_ok _ _ _ Hs)|done|lia].
  - intros i Hi Hout. rewrite C2. destruct (Z.eqb_spec i 0); [lia|]. by apply (sm_data _ _ _ Hs).
  - congruence.
  - done.
Qed.

Lemma unmount_spec st :
  reliable ops -> fat_ok ops st -> v_mounted (vol st) = true -> 0 < v_fat1_lba (vol st) ->
  wp (fat32_unmount ops) (fun _ st' => leaves st st') st.
Proof.
  intros Hrel Hok Hm Hpos. unfold fat32_unmount. do 3 wp_step. rewrite Hm.
  destruct (v_cache (vol st)) as [w|] eqn:Ew.
  - wp_step. eapply wp_mono; [by apply unmount_flush|]. cbn beta. intros _ st1 (Hs & Hm1 & Hd).
    wp_step. wp_step. by apply unmount_finish.
  - wp_step. wp_step. pose proof (fo_none _ _ Hok (or_intror Ew)) as Hd.
    pose proof (unmount_finish st st None Hrel Hok Hpos (same_table_refl ops st Hok) eq_refl Hd) as H.
    assert ({| vol := set_cache (v_cached_sector (vol st)) false None (vol st); dev := dev st;
               mallocs := mallocs st; clock := clock st |} = st) as Est.
    { destruct st as [v dv ms cl]. cbn in *. f_equal. destruct v. cbn in *. unfold set_cache. cbn. congruence. }
    rewrite Est in H. exact H.
Qed.

(** Mounting what a clean unmount left. *)
Lemma remount_spec st :
  reliable ops -> fat_ok ops st -> v_mounted (vol st) = true -> 0 < v_fat1_lba (vol st) -> boot_describes st ->
  wp (_ ← fat32_unmount ops; fat32_mount ops) (fun rc st' => rc = 0 /\ v_dirty (vol st') = false /\
    geometry (set_mounted true true (vol st')) = geometry (set_mounted true true (vol st)) /\
    boot_describes st' /\
    (forall c, in_fat st c -> view ops st' c = view ops st c) /\
    (forall i, i <> 0 -> ~ v_fat1_lba (vol st) <= i < v_fat2_lba (vol st) + v_spf (vol st) ->
       content (dev st') i = content (dev st) i)) st.
Proof.
  intros Hrel Hok Hm Hpos [B1 B2 B3]. pose proof (fo_geom _ _ Hok) as Hg.
  wp_step. eapply wp_mono; [by apply unmount_spec|]. cbn beta.
  intros _ st1 [L1 L2 L3 L4 L5]. set (bs := content (dev st) 0) in *.
  destruct (set_fat_flags_fields (b_n_sectors ops) bs (Z.land (bs_fat_flags bs) (u16 (Z.lnot 128))) (content_length _ _))
    as (F1 & F2 & F3 & F4).
  eapply wp_mono; [apply mount_spec; [done|by rewrite L1, F1]|]. cbn beta. intros rc st' [-> Hmo].
  pose proof (mounts_describes _ _ Hmo ltac:(by rewrite L1, F1)) as Hbd.
  destruct Hmo as [G (K1 & K2 & K3) M1 M2 M3]. rewrite L1 in G.
  assert (geometry (set_mounted true true (vol st')) = geometry (set_mounted true true (vol st))) as Eg.
  { rewrite <- B2, <- F4. by apply geometry_mounted. }
  assert (v_fat1_lba (vol st') = v_fat1_lba (vol st)) as E1 by (by injection Eg).
  split; [done|]. split.
  { assert (v_dirty (vol st') = v_dirty (vol_of (b_n_sectors ops) (set_fat_flags bs (Z.land (bs_fat_flags bs) (u16 (Z.lnot 128)))))) as ->
      by (unfold geometry, set_free, set_cache in G; injection G; done).
    rewrite dirty_bit, F2, u16_bit7, Z.land_spec, u16_bit7. apply andb_false_r. }
  split; [done|]. split; [done|]. split.
  - intros c Hc. pose proof (sector_range st c Hc). unfold view. f_equal. f_equal.
    unfold sector_words at 1. rewrite K1, E1, M3 by lia. by apply L2.
  - intros i Hi Hout. rewrite M3 by done. by apply L3.
Qed.
End unmount.

(** ** Theorems *)

(** Formatting a device of 37 to 2^35 sectors and mounting it gives an empty
    volume: both calls succeed, the FATs have an entry for every cluster, the
    FATs and all clusters lie inside the device without overlapping, the root
    directory is a chain of one zeroed cluster, and all other clusters are
    free. *)
Theorem fat32_format_makes_empty_volume {D} (ops : blk_ops D) `{!BlkDev ops} (st : fstate D) now name :
  reliable ops -> 37 <= b_n_sectors ops < 2 ^ 35 -> (forall l, name = Some l -> Forall is_byte l) ->
  wp (rc ← fat32_format ops now (b_n_sectors ops) name; rc' ← fat32_mount ops; mret (rc, rc'))
    (fun r st' => r = (0, 0) /\ v_mounted (vol st') = true /\ v_dirty (vol st') = false /\
       geometry_ok (vol st') (b_n_sectors ops) /\ fat_ok ops st' /\ clusters_ok st' /\ boot_describes ops st' /\
       v_root_cluster (vol st') = 2 /\ chain ops st' 2 [2] /\
       (forall c, 3 <= c < v_total_clusters (vol st') -> entry ops st' c = 0) /\
       (forall i, 0 <= i < v_spc (vol st') -> content (dev st') (cluster_to_lba (vol st') 2 + i) = zero_sector)) st.
Proof.
  intros Hrel Hn Hname. wp_step. eapply wp_mono; [by apply format_spec|]. cbn beta. intros rc st1 [-> [V1 M1 C1]].
  set (n := b_n_sectors ops) in *. destruct (format_vol now n name Hn) as (Hgo & Hv & Hd & Hr & H1 & Hspf & Hspc & _).
  destruct (format_geometry n Hn) as (Gspc & Gspf & Gfit & _).
  assert (content (dev st1) 0 = boot_sector now n name) as E0.
  { rewrite C1. unfold formatted. cbn zeta. destruct (Z.leb_spec (32 + 2 * format_spf n) 0); [lia|]. cbn [andb].
    change (0 =? 1) with false. destruct (Z.eqb_spec 0 (32 + format_spf n)); [lia|]. done. }
  wp_step. eapply wp_mono; [apply mount_spec; [done|by rewrite E0]|]. cbn beta. intros rc st2 [-> Hmo].
  pose proof (mounts_describes _ _ _ Hmo ltac:(by rewrite E0)) as Hbd. rewrite E0 in Hmo.
  destruct (mounts_ok _ _ _ _ Hmo Hgo) as [Hok Hcl]. destruct Hmo as [G (K1 & _) _ _ M3]. fold n in G.
  pose proof (geometry_fields _ _ G) as (F1 & F2 & F3 & F4 & F5 & F6 & F7 & F8 & F9 & F10).
  rewrite H1 in F2. destruct (fresh_entries ops st2 now n name (content (dev st)) Hn K1 F2) as [E2 E3].
  { intros i Hi. by rewrite M3, C1. }
  wp_step. split; [done|]. split; [by rewrite F10|]. split; [by rewrite <- Hd; unfold geometry, set_free, set_cache in G; injection G|].
  split; [by destruct Hgo; constructor; rewrite ?F1, ?F2, ?F3, ?F4, ?F6, ?F7, ?F8, ?H1; rewrite ?H1 in *|].
  do 3 (split; [done|]). split; [by rewrite F9|]. split; [by constructor; [unfold FAT32_CLUSTER_EOC; lia|]|]. split.
  - intros c Hc. apply E3. rewrite F4 in Hc. destruct Hgo. rewrite Hspf in go_entries0. lia.
  - intros i Hi. destruct Hgo as [(A1 & A2 & A3) B C E F]. rewrite F6, Hspc in Hi.
    assert (cluster_to_lba (vol st2) 2 = 32 + 2 * format_spf n) as ->.
    { unfold cluster_to_lba. cbn [Z.ltb Z.compare Pos.compare Pos.compare_cont]. rewrite F8, A3, A2, H1, Hspf. change (2 - 2) with 0. rewrite Z.mul_0_l, wrap_id by (unfold_fits; lia). lia. }
    rewrite M3, C1 by lia. unfold formatted. cbn zeta.
    destruct (Z.leb_spec (32 + 2 * format_spf n) (32 + 2 * format_spf n + i)); [|lia].
    destruct (Z.ltb_spec (32 + 2 * format_spf n + i) (32 + 2 * format_spf n + format_spc n)); [done|lia].
Qed.

Definition blank : fstate ramdisk := {| vol := zero_vol; dev := []; mallocs := []; clock := None |}.

Lemma fat32_format_makes_empty_volume_witness :
  wp (rc ← fat32_format ram_ops 7 65536 (Some (str "WUBUOS")); rc' ← fat32_mount ram_ops; mret (rc, rc'))
    (fun r st' => r = (0, 0) /\ fat_ok ram_ops st' /\ chain ram_ops st' 2 [2]) blank.
Proof.
  eapply wp_mono; [apply (fat32_format_makes_empty_volume ram_ops blank 7 (Some (str "WUBUOS")))|].
  - exact ram_reliable.
  - cbn [ram_ops b_n_sectors]. lia.
  - intros l E. apply (inj Some) in E as <-. by apply (bool_decide_unpack _); vm_compute.
  - cbn beta. intros r st' (-> & _ & _ & _ & H & _ & _ & _ & Hc & _). done.
Defined.


(** A mounted volume of 65536 sectors whose first FAT sector is cached and
    dirty. *)
Definition in_use : fstate ramdisk :=
  let bs := set_fat_flags (boot_sector 7 65536 None) 128 in
  {| vol := set_cache 0 true (Some (replicate 128 7)) (vol_of 65536 bs);
     dev := [(0, bs)]; mallocs := []; clock := None |}.

Lemma in_use_ok : fat_ok ram_ops in_use.
Proof.
  assert (v_fat1_lba (vol in_use) = 32 /\ v_spf (vol in_use) = 513 /\ v_fat2_lba (vol in_use) = 545) as (E1 & E2 & E3)
    by (vm_compute; done).
  assert (v_cache (vol in_use) = Some (replicate 128 7)) as Ec by reflexivity.
  assert (v_cached_sector (vol in_use) = 0) as Es by reflexivity.
  assert (v_cached_dirty (vol in_use) = true) as Ed by reflexivity.
  constructor; rewrite ?E1, ?E2, ?E3, ?Ec, ?Es, ?Ed; try (intuition congruence || lia).
  intros w E. apply (inj Some) in E as <-. split; [apply length_replicate|]. by apply Forall_replicate.
Qed.


(** *** What the code gets wrong *)

(** A RAM disk of 100 sectors. *)
Definition tiny_ops : blk_ops ramdisk :=
  {| b_read := b_read ram_ops; b_torn := b_torn ram_ops; b_write := b_write ram_ops; b_n_sectors := 100 |}.

(** A RAM disk that cannot read the second sector of the FAT, and leaves zeros in the
    buffer when it fails. *)
Definition torn_ops : blk_ops ramdisk :=
  {| b_read := fun d lba n => if lba =? 33 then None else b_read ram_ops d lba n;
     b_torn := fun _ _ _ _ => replicate 512 0;
     b_write := b_write ram_ops; b_n_sectors := 65536 |}.

(** A failed read of another sector of the FAT spoils the cached one, whose number stays:
    the root directory, which ended at its cluster, is free from then on. *)
Theorem fat32_failed_read_spoils_cache :
  wp (_ ← fat32_format torn_ops 7 65536 None; _ ← fat32_mount torn_ops;
      a ← fat_read_entry torn_ops 2; b ← fat_read_entry torn_ops 130; c ← fat_read_entry torn_ops 2;
      mret (a, b, c)) (fun r _ => r = (Some 268435455, None, Some 0)) blank.
Proof. vm_compute. reflexivity. Qed.

(** The FSInfo sector of a fresh volume counts the sectors of the FATs as free
    clusters: [fat32_mount] reads 67 free clusters where 63 are free. *)
Theorem fat32_fsinfo_overcounts :
  wp (_ ← fat32_format tiny_ops 7 100 None; _ ← fat32_mount tiny_ops; v ← get_vol;
      n ← fat32_count_free tiny_ops; mret (v_free_clusters v, n)) (fun r _ => r = (67, 63)) blank.
Proof. vm_compute. reflexivity. Qed.
