(* ===== verification/Fat32FileFacts.v ===== *)
(** * Properties of FAT32 files

    The bytes of a file are those of the clusters on its chain.  Reading gives a
    slice of them, writing inside the chain replaces a slice of them, seeking
    finds the cluster of a position. *)

From S2P Require Import Prelude Fat32 Fat32Facts Fat32Chains Fat32Dir Fat32File Fat32Vol Fat32VolFacts.
Open Scope Z_scope.

(** ** Slices *)

Lemma slice_app_left a b off n : (off + n <= length a)%nat -> slice (a ++ b) off n = slice a off n.
Proof.
  intros. unfold slice. rewrite drop_app_le by lia. apply take_app_le. rewrite length_drop. lia.
Qed.
Lemma slice_app_split a b off n :
  (off <= length a)%nat -> (length a - off <= n)%nat ->
  slice (a ++ b) off n = slice a off (length a - off) ++ slice b 0 (n - (length a - off)).
Proof.
  intros H1 H2. unfold slice. rewrite drop_app_le by lia. rewrite drop_0, take_app.
  rewrite length_drop. f_equal. rewrite !take_ge by (rewrite length_drop; lia). done.
Qed.

Lemma put_app_left a b off x : (off + length x <= length a)%nat -> put_bytes (a ++ b) off x = put_bytes a off x ++ b.
Proof.
  intros. unfold put_bytes. rewrite take_app_le, drop_app_le by lia. by rewrite <- !app_assoc.
Qed.
Lemma put_app_split a b off x y :
  (off <= length a)%nat -> length x = (length a - off)%nat ->
  put_bytes (a ++ b) off (x ++ y) = put_bytes a off x ++ put_bytes b 0 y.
Proof.
  intros H1 H2. unfold put_bytes. rewrite take_app_le by lia. cbn [take]. rewrite (drop_ge a) by lia.
  rewrite drop_app_ge by (rewrite length_app; lia). rewrite length_app, app_nil_r, app_nil_l, <- !app_assoc.
  do 3 f_equal. f_equal. lia.
Qed.
Lemma put_app_right a b off x : put_bytes (a ++ b) (length a + off) x = a ++ put_bytes b off x.
Proof.
  unfold put_bytes. rewrite take_app_add, <- Nat.add_assoc, drop_app_add. by rewrite <- app_assoc.
Qed.
Lemma put_bytes_all a x : length x = length a -> put_bytes a 0 x = x.
Proof. intros H. unfold put_bytes. cbn [take]. rewrite drop_ge by lia. by rewrite app_nil_r. Qed.

Lemma mod_next pos bpc : 0 < bpc -> (pos + (bpc - pos mod bpc)) mod bpc = 0.
Proof.
  intros. pose proof (Z.div_mod pos bpc ltac:(lia)).
  replace (pos + (bpc - pos mod bpc)) with ((pos / bpc + 1) * bpc) by lia. apply Z_mod_mult.
Qed.

Section files.
Context {D : Type} (ops : blk_ops D) `{BD : !BlkDev ops}.

(** The bytes of a cluster and of a chain. *)
Definition cluster_bytes (st : fstate D) (c : Z) : list Z :=
  concat (content (dev st) <$> seqZ (cluster_to_lba (vol st) c) (v_spc (vol st))).
Definition file_bytes (st : fstate D) (l : list Z) : list Z := concat (cluster_bytes st <$> l).

(** Volumes with the data after the FATs, and clusters of the volume. *)
Record data_ok (st : fstate D) : Prop := {
  do_spc : 0 < v_spc (vol st);
  do_bpc : v_bpc (vol st) = 512 * v_spc (vol st);
  do_data : v_data_lba (vol st) = v_fat2_lba (vol st) + v_spf (vol st);
  do_end : v_data_lba (vol st) + 128 * v_spf (vol st) * v_spc (vol st) < 2 ^ 64 }.

Lemma same_data_ok st st' : same_table ops st st' -> data_ok st -> data_ok st'.
Proof.
  intros Hs [A B C E]. destruct (geometry_fields _ _ (sm_geom _ _ _ Hs)) as (F1 & F2 & F3 & F4 & F5 & F6 & F7 & F8 & _).
  constructor; rewrite ?F1, ?F3, ?F6, ?F7, ?F8; done.
Qed.

Lemma cluster_lba st c :
  data_ok st -> fat_ok ops st -> in_fat st c -> 2 <= c ->
  cluster_to_lba (vol st) c = v_data_lba (vol st) + (c - 2) * v_spc (vol st) /\
  v_fat2_lba (vol st) + v_spf (vol st) <= cluster_to_lba (vol st) c.
Proof.
  intros [A B C E] Hok Hin Hc. unfold in_fat in Hin. pose proof (fo_geom _ _ Hok) as Hg.
  assert (cluster_to_lba (vol st) c = v_data_lba (vol st) + (c - 2) * v_spc (vol st)) as ->.
  { unfold cluster_to_lba. destruct (Z.ltb_spec c 2); [lia|]. apply wrap_id. unfold_fits. nia. }
  split; [done|nia].
Qed.

Lemma cluster_bytes_length st c : 0 < v_spc (vol st) -> v_bpc (vol st) = 512 * v_spc (vol st) ->
  length (cluster_bytes st c) = Z.to_nat (v_bpc (vol st)).
Proof.
  intros H1 ->. unfold cluster_bytes. generalize (cluster_to_lba (vol st) c) as lba.
  replace (512 * v_spc (vol st)) with (512 * Z.of_nat (Z.to_nat (v_spc (vol st)))) by lia.
  intros lba. unfold seqZ. generalize (Z.to_nat (v_spc (vol st))) as k. clear. intros k.
  rewrite <- list_fmap_compose. revert lba. assert (forall l : list nat, forall lba,
    length (concat (((content (dev st)) ∘ (fun n => Z.of_nat n + lba)) <$> l)) = (512 * length l)%nat) as H.
  { induction l as [|x l IH]; intros lba; [done|]. cbn [fmap list_fmap concat length].
    rewrite length_app, IH. cbn. rewrite content_length. lia. }
  intros lba. rewrite H, length_seq. lia.
Qed.

(** Reading or updating the FAT does not touch the data. *)
Lemma same_cluster_bytes st st' c :
  same_table ops st st' -> data_ok st -> fat_ok ops st -> in_fat st c -> 2 <= c ->
  cluster_bytes st' c = cluster_bytes st c.
Proof.
  intros Hs Hd Hok Hin Hc. destruct (cluster_lba st c Hd Hok Hin Hc) as [_ Hge].
  destruct (geometry_fields _ _ (sm_geom _ _ _ Hs)) as (F1 & F2 & F3 & F4 & F5 & F6 & F7 & F8 & _).
  unfold cluster_bytes. replace (cluster_to_lba (vol st') c) with (cluster_to_lba (vol st) c)
    by (unfold cluster_to_lba; by rewrite F6, F8).
  rewrite F6. f_equal. apply list_fmap_ext. intros i x Hx. apply (sm_data _ _ _ Hs).
  apply lookup_seqZ in Hx. lia.
Qed.

Definition on_disk (st : fstate D) (l : list Z) : Prop := forall c, c ∈ l -> in_fat st c /\ 2 <= c.

Lemma on_disk_sub st l l' : l' ⊆ l -> on_disk st l -> on_disk st l'.
Proof. intros Hs H c Hc. apply H, Hs, Hc. Qed.

Lemma same_file_bytes st st' l :
  same_table ops st st' -> data_ok st -> fat_ok ops st -> on_disk st l -> file_bytes st' l = file_bytes st l.
Proof.
  intros Hs Hd Hok Hl. unfold file_bytes. f_equal. apply list_fmap_ext. intros i c Hc.
  apply list_elem_of_lookup_2 in Hc. destruct (Hl c Hc). by apply same_cluster_bytes.
Qed.
Lemma same_on_disk st st' l : same_table ops st st' -> on_disk st l -> on_disk st' l.
Proof. intros Hs Hl c Hc. destruct (Hl c Hc). split; [by eapply same_table_in_fat|done]. Qed.

(** ** The next cluster *)

Lemma next_ok st c :
  reliable ops -> mallocs st = [] -> fat_ok ops st -> in_fat st c -> 2 <= c ->
  wp (fat32_next_cluster ops c) (fun n st' => n = (if entry ops st c >=? FAT32_CLUSTER_EOC then 0 else entry ops st c) /\
    same_table ops st st' /\ mallocs st' = []) st.
Proof.
  intros Hrel Hm Hok Hin Hc. unfold fat32_next_cluster. destruct (Z.ltb_spec c 2); [lia|].
  wp_step. eapply wp_mono; [by apply read_entry_ok|]. cbn beta. intros r st' (-> & Hs & Hm').
  by destruct (_ >=? _); wp_step.
Qed.

(** ** Reading *)

(** The cluster a cursor at [off] bytes into the chain [l] is in, 0 behind its
    end. *)
Definition cluster_at (v : fat32_volume) (l : list Z) (off : Z) : Z := default 0 (l !! Z.to_nat (off / v_bpc v)).

Lemma chain_cons st c l : chain ops st c l -> exists l', l = c :: l' /\ 2 <= c < FAT32_CLUSTER_EOC /\
  (if entry ops st c >=? FAT32_CLUSTER_EOC then l' = [] else chain ops st (entry ops st c) l').
Proof.
  intros H. inversion H as [c' H1 H2|c' l' H1 H2 H3]; subst; eexists; (split; [done|]); (split; [done|]).
  - destruct (Z.geb_spec (entry ops st c) FAT32_CLUSTER_EOC); [done|lia].
  - destruct (Z.geb_spec (entry ops st c) FAT32_CLUSTER_EOC); [lia|done].
Qed.

Lemma next_is_head st c l :
  (if entry ops st c >=? FAT32_CLUSTER_EOC then l = [] else chain ops st (entry ops st c) l) ->
  (if entry ops st c >=? FAT32_CLUSTER_EOC then 0 else entry ops st c) = default 0 (l !! 0%nat).
Proof. destruct (_ >=? _); [by intros ->|]. intros H. by destruct (chain_cons _ _ _ H) as (l' & -> & _). Qed.

Lemma read_cluster st c : reliable ops -> 0 < v_spc (vol st) ->
  b_read ops (dev st) (cluster_to_lba (vol st) c) (v_spc (vol st)) = Some (cluster_bytes st c).
Proof. intros Hrel H. by rewrite (reliable_read ops st) by (done || lia). Qed.

Lemma chain_same st st' c l : same_table ops st st' -> on_disk st l -> chain ops st c l -> chain ops st' c l.
Proof. intros Hs Hl. apply chain_ext. intros k Hk. destruct (Hl k Hk). by apply same_table_entry. Qed.

Lemma wp_malloc_ok Q (st : fstate D) : mallocs st = [] -> Q true st -> wp malloc Q st.
Proof. intros Hm H. unfold wp, malloc. rewrite Hm. destruct st; cbn in *; subst. exact H. Qed.

(** One more cluster: offsets into [c :: l] and into [l]. *)
Lemma cluster_at_cons v c l off : 0 < v_bpc v -> v_bpc v <= off -> cluster_at v (c :: l) off = cluster_at v l (off - v_bpc v).
Proof.
  intros Hb Ho. unfold cluster_at. replace off with ((off - v_bpc v) + 1 * v_bpc v) at 1 by lia.
  rewrite Z.div_add by lia. assert (0 <= (off - v_bpc v) / v_bpc v) by (apply Z.div_pos; lia).
  rewrite Z2Nat.inj_add by lia. rewrite Nat.add_comm. done.
Qed.
Lemma cluster_at_head v c l off : 0 <= off < v_bpc v -> cluster_at v (c :: l) off = c.
Proof. intros H. unfold cluster_at. by rewrite Z.div_small by done. Qed.

Lemma read_loop_spec l : forall st fuel fp c rem out,
  reliable ops -> mallocs st = [] -> fat_ok ops st -> data_ok st -> on_disk st l -> chain ops st c l ->
  f_current_cluster fp = c -> 0 < rem -> 0 <= f_pos fp -> f_pos fp + rem < 2 ^ 64 ->
  f_pos fp mod v_bpc (vol st) + rem <= v_bpc (vol st) * Z.of_nat (length l) -> (length l <= fuel)%nat ->
  wp (read_loop ops fuel fp c rem out) (fun r st' =>
    r = (out ++ slice (file_bytes st l) (Z.to_nat (f_pos fp mod v_bpc (vol st))) (Z.to_nat rem),
         set_cursor fp (f_pos fp + rem) (cluster_at (vol st) l (f_pos fp mod v_bpc (vol st) + rem))) /\
    same_table ops st st' /\ mallocs st' = []) st.
Proof.
  induction l as [|c0 l IH]; intros st fuel fp c rem out Hrel Hm Hok Hd Hl Hch Hcur Hrem Hpos Hend Hroom Hfuel.
  { by apply chain_cons in Hch as (? & ? & _). }
  apply chain_cons in Hch as (l' & E & Hc & Hnext). injection E as <- <-.
  pose proof Hd as [S1 S2 S3 S4]. set (bpc := v_bpc (vol st)) in *. assert (0 < bpc) as Hb by lia.
  destruct (Hl c0 ltac:(set_solver)) as [Hin _]. pose proof (Z.mod_pos_bound (f_pos fp) bpc Hb) as Hoff.
  set (off := f_pos fp mod bpc) in *. pose proof (cluster_bytes_length st c0 S1 S2) as Hcb. fold bpc in Hcb.
  destruct fuel as [|fuel]; [cbn in Hfuel; lia|]. cbn [read_loop].
  destruct (Z.gtb_spec rem 0); [|lia]. destruct (Z.geb_spec c0 2); [|lia].
  destruct (Z.ltb_spec c0 FAT32_CLUSTER_EOC); [|lia]. cbn [andb]. wp_step. wp_step. fold bpc off. wp_step.
  assert (forall b : bool, forall (Q : bool -> fstate D -> Prop), Q true st -> wp (if b then mret true else malloc) Q st) as Hmal.
  { intros [] Q HQ; [by wp_step|by apply wp_malloc_ok]. }
  apply Hmal. cbn [negb]. wp_step. wp_step. rewrite read_cluster by done.
  cbn [file_bytes fmap list_fmap concat]. fold (file_bytes st l).
  destruct (Z.ltb_spec rem (bpc - off)) as [Hlt|Hge].
  - (* the rest of the slice is in this cluster *)
    destruct (Z.geb_spec (off + rem) bpc); [lia|]. rewrite (wrap_id 64) by (unfold_fits; lia).
    rewrite Z.sub_diag. destruct fuel; cbn [read_loop Z.gtb Z.compare andb]; wp_step;
      (split; [|split; [by apply same_table_refl|done]]); rewrite cluster_at_head by (fold bpc; lia);
      rewrite (slice_app_left (cluster_bytes st c0)) by lia; by rewrite Hcur.
  - destruct (Z.geb_spec (off + (bpc - off)) bpc); [|lia]. rewrite (wrap_id 64) by (unfold_fits; lia).
    wp_step. eapply wp_mono; [by apply next_ok; [..|lia]|]. cbn beta. intros nx st1 (-> & Hs1 & Hm1).
    pose proof (next_is_head _ _ _ Hnext) as Enx. rewrite Enx.
    rewrite cluster_at_cons by (fold bpc; lia). fold bpc. replace (off + rem - bpc) with (rem - (bpc - off)) by lia.
    rewrite slice_app_split by lia. rewrite Hcb.
    replace (Z.to_nat bpc - Z.to_nat off)%nat with (Z.to_nat (bpc - off)) by lia.
    replace (Z.to_nat rem - Z.to_nat (bpc - off))%nat with (Z.to_nat (rem - (bpc - off))) by lia.
    rewrite app_assoc. set (out' := out ++ _). clearbody out'.
    destruct (Z.eq_dec rem (bpc - off)) as [->|Hne].
    + rewrite Z.sub_diag. cbn [Z.to_nat]. unfold slice at 1. cbn [take]. rewrite app_nil_r.
      destruct fuel; cbn [read_loop Z.gtb Z.compare andb]; wp_step;
        (split; [|done]); do 2 f_equal; unfold cluster_at; by rewrite Zdiv_0_l.
    + assert (l <> []) as Hnn by (intros ->; cbn [length] in Hroom; lia).
      destruct (entry ops st c0 >=? FAT32_CLUSTER_EOC); [done|].
      destruct (geometry_fields _ _ (sm_geom _ _ _ Hs1)) as (F1 & F2 & F3 & F4 & F5 & F6 & F7 & F8 & _).
      pose proof (mod_next (f_pos fp) bpc Hb) as Emod. fold off in Emod.
      assert (on_disk st l) as Hl' by (intros k Hk; apply Hl; set_solver).
      eapply wp_mono; [apply IH|].
      * done.
      * done.
      * by apply (sm_ok _ _ _ Hs1).
      * by eapply same_data_ok.
      * by eapply same_on_disk.
      * rewrite <- Enx. by eapply chain_same.
      * done.
      * lia.
      * cbn [set_cursor f_pos]. lia.
      * cbn [set_cursor f_pos]. lia.
      * cbn [set_cursor f_pos]. rewrite F7. fold bpc. rewrite Emod. cbn [length] in Hroom. lia.
      * cbn [length] in Hfuel. lia.
      * cbn beta. intros r st2 (-> & Hs2 & Hm2). split; [|split; [by eapply same_table_trans|done]].
        cbn [set_cursor f_pos]. rewrite F7. fold bpc. rewrite Emod, (same_file_bytes st st1) by done.
        change (Z.to_nat 0) with 0%nat. rewrite Z.add_0_l. unfold cluster_at. rewrite F7.
        f_equal. unfold set_cursor. cbn. f_equal. lia.
Qed.

(** ** Writing clusters *)

(** From [st] to [st'] only sectors of the clusters [l] and of the FATs changed,
    and the table is the same. *)
Record keeps (st st' : fstate D) (l : list Z) : Prop := {
  kp_geom : geometry (vol st') = geometry (vol st);
  kp_count : counters (vol st') = counters (vol st);
  kp_words : forall s, 0 <= s < v_spf (vol st) -> sector_words ops st' s = sector_words ops st s;
  kp_ok : fat_ok ops st';
  kp_data : forall i, ~ v_fat1_lba (vol st) <= i < v_fat2_lba (vol st) + v_spf (vol st) ->
    (forall c, c ∈ l -> ~ cluster_to_lba (vol st) c <= i < cluster_to_lba (vol st) c + v_spc (vol st)) ->
    content (dev st') i = content (dev st) i }.

Lemma same_keeps st st' l : same_table ops st st' -> keeps st st' l.
Proof. intros [A B C E F]. constructor; auto. Qed.

Lemma keeps_lba st st' l c : keeps st st' l -> cluster_to_lba (vol st') c = cluster_to_lba (vol st) c.
Proof.
  intros H. destruct (geometry_fields _ _ (kp_geom _ _ _ H)) as (F1 & F2 & F3 & F4 & F5 & F6 & F7 & F8 & _).
  unfold cluster_to_lba. by rewrite F6, F8.
Qed.

Lemma keeps_trans st1 st2 st3 l l' : l ⊆ l' -> keeps st1 st2 l -> keeps st2 st3 l' -> keeps st1 st3 l'.
Proof.
  intros Hsub H1 H2. pose proof (fun c => keeps_lba _ _ _ c H1) as Hlba.
  destruct (geometry_fields _ _ (kp_geom _ _ _ H1)) as (F1 & F2 & F3 & F4 & F5 & F6 & F7 & F8 & _).
  destruct H1 as [A1 B1 C1 E1 G1], H2 as [A2 B2 C2 E2 G2]. constructor; [congruence|congruence| |done|].
  - intros s Hs. rewrite C2 by lia. by apply C1.
  - intros i Hi Hc. rewrite G2; [apply G1; [done|]|by rewrite F1, F2, F3|].
    + intros c Hin. apply Hc. set_solver.
    + intros c Hin. rewrite F6, Hlba. by apply Hc.
Qed.

Lemma keeps_data_ok st st' l : keeps st st' l -> data_ok st -> data_ok st'.
Proof.
  intros Hs [A B C E]. destruct (geometry_fields _ _ (kp_geom _ _ _ Hs)) as (F1 & F2 & F3 & F4 & F5 & F6 & F7 & F8 & _).
  constructor; rewrite ?F1, ?F3, ?F6, ?F7, ?F8; done.
Qed.
Lemma keeps_on_disk st st' l l' : keeps st st' l -> on_disk st l' -> on_disk st' l'.
Proof.
  intros Hs H c Hc. destruct (geometry_fields _ _ (kp_geom _ _ _ Hs)) as (F1 & _).
  unfold in_fat. rewrite F1. by apply H.
Qed.
Lemma keeps_entry st st' l c : keeps st st' l -> in_fat st c -> entry ops st' c = entry ops st c.
Proof. intros H Hc. unfold entry, view. rewrite (kp_words _ _ _ H) by (by apply sector_range). done. Qed.
Lemma keeps_chain st st' l c l' : keeps st st' l -> on_disk st l' -> chain ops st c l' -> chain ops st' c l'.
Proof. intros Hs Hl. apply chain_ext. intros k Hk. destruct (Hl k Hk). by eapply keeps_entry. Qed.

(** Different clusters share no sector. *)
Lemma clusters_apart st c k i :
  data_ok st -> fat_ok ops st -> in_fat st c -> 2 <= c -> in_fat st k -> 2 <= k -> c <> k ->
  cluster_to_lba (vol st) c <= i < cluster_to_lba (vol st) c + v_spc (vol st) ->
  ~ cluster_to_lba (vol st) k <= i < cluster_to_lba (vol st) k + v_spc (vol st).
Proof.
  intros Hd Hok Hc Hc2 Hk Hk2 Hne.
  rewrite (proj1 (cluster_lba st c Hd Hok Hc Hc2)), (proj1 (cluster_lba st k Hd Hok Hk Hk2)).
  pose proof (do_spc _ Hd). intros H1 H2. assert (c < k \/ k < c) as [?|?] by lia; nia.
Qed.

Lemma keeps_cluster st st' l k :
  keeps st st' l -> data_ok st -> fat_ok ops st -> on_disk st l -> in_fat st k -> 2 <= k -> k ∉ l ->
  cluster_bytes st' k = cluster_bytes st k.
Proof.
  intros Hs Hd Hok Hl Hk Hk2 Hn. destruct (cluster_lba st k Hd Hok Hk Hk2) as [_ Hge].
  destruct (geometry_fields _ _ (kp_geom _ _ _ Hs)) as (F1 & F2 & F3 & F4 & F5 & F6 & _).
  unfold cluster_bytes. rewrite (keeps_lba _ _ _ _ Hs), F6. f_equal. apply list_fmap_ext.
  intros j i Hi. apply lookup_seqZ in Hi. apply (kp_data _ _ _ Hs); [lia|]. intros c Hc. destruct (Hl c Hc).
  intros Hci. revert Hci. apply (clusters_apart st k c); try done; [by intros ->|lia].
Qed.
Lemma keeps_file st st' l l' :
  keeps st st' l -> data_ok st -> fat_ok ops st -> on_disk st l -> on_disk st l' -> (forall k, k ∈ l' -> k ∉ l) ->
  file_bytes st' l' = file_bytes st l'.
Proof.
  intros Hs Hd Hok Hl Hl' Hn. unfold file_bytes. f_equal. apply list_fmap_ext. intros i c Hc.
  apply list_elem_of_lookup_2 in Hc. destruct (Hl' c Hc). eapply keeps_cluster; eauto.
Qed.

Lemma concat_sectors k : forall buf lba, length buf = (512 * k)%nat ->
  concat ((fun i => slice buf (Z.to_nat (512 * (i - lba))) 512) <$> seqZ lba (Z.of_nat k)) = buf.
Proof.
  induction k as [|k IH]; intros buf lba Hl; [by destruct buf|].
  rewrite seqZ_cons by lia. cbn [fmap list_fmap concat]. rewrite Z.sub_diag. change (Z.to_nat (512 * 0)) with 0%nat.
  transitivity (take 512 buf ++ drop 512 buf); [|apply take_drop]. unfold slice at 1. rewrite drop_0. f_equal.
  etransitivity; [|apply (IH (drop 512 buf) (Z.succ lba)); rewrite length_drop; lia].
  replace (Z.pred (Z.of_nat (S k))) with (Z.of_nat k) by lia. f_equal. apply list_fmap_ext. intros j i Hi.
  apply lookup_seqZ in Hi. unfold slice. rewrite drop_drop. do 2 f_equal. lia.
Qed.

Lemma put_cluster st c buf Q :
  reliable ops -> fat_ok ops st -> data_ok st -> in_fat st c -> 2 <= c ->
  length buf = Z.to_nat (v_bpc (vol st)) -> Forall is_byte buf ->
  (forall st', keeps st st' [c] -> cluster_bytes st' c = buf -> mallocs st' = mallocs st ->
     vol st' = vol st -> Q true st') ->
  wp (blk_write ops (cluster_to_lba (vol st) c) (v_spc (vol st)) buf) Q st.
Proof.
  intros [_ Hw] Hok Hd Hc Hc2 Hl Hb HQ. destruct (cluster_lba st c Hd Hok Hc Hc2) as [_ Hge].
  destruct Hd as [S1 S2 S3 S4]. wp_step. pose proof (Hw (dev st) (cluster_to_lba (vol st) c) (v_spc (vol st)) buf) as E.
  rewrite Hw0 in E. cbn in E. subst okw.
  assert (forall i, ~ cluster_to_lba (vol st) c <= i < cluster_to_lba (vol st) c + v_spc (vol st) ->
    content d i = content (dev st) i) as Ho by (intros i Hi; by rewrite (write_other _ _ _ _ _ _ _ Hw0)).
  pose proof (fo_geom _ _ Hok) as Hg.
  apply HQ; [|unfold cluster_bytes; cbn [vol dev]|done|done].
  - constructor; cbn [vol dev]; [done|done| | |].
    + intros s Hs. unfold sector_words. cbn [vol dev]. rewrite Ho by lia. done.
    + destruct Hok as [A B C E F G]. constructor; cbn [vol dev]; try done. intros w H1 H2 H3. rewrite Ho by lia. by apply G.
    + intros i _ Hi. apply Ho, Hi. set_solver.
  - rewrite <- (concat_sectors (Z.to_nat (v_spc (vol st))) buf (cluster_to_lba (vol st) c)) by lia.
    rewrite Z2Nat.id by lia. f_equal. apply list_fmap_ext. intros j i Hi. apply lookup_seqZ in Hi.
    apply (write_content _ _ _ _ _ Hw0); (done || lia).
Qed.

Lemma cluster_bytes_bytes st c : Forall is_byte (cluster_bytes st c).
Proof.
  unfold cluster_bytes. apply Forall_concat, Forall_fmap, Forall_true. intros i. apply content_bytes.
Qed.

Lemma write_cluster_ok st c off chunk Q :
  reliable ops -> mallocs st = [] -> fat_ok ops st -> data_ok st -> in_fat st c -> 2 <= c ->
  0 <= off -> off + Z.of_nat (length chunk) <= v_bpc (vol st) -> Forall is_byte chunk ->
  (forall st', keeps st st' [c] -> cluster_bytes st' c = put_bytes (cluster_bytes st c) (Z.to_nat off) chunk ->
     mallocs st' = [] -> vol st' = vol st -> Q true st') ->
  wp (write_cluster ops (vol st) (cluster_to_lba (vol st) c) off chunk) Q st.
Proof.
  intros Hrel Hm Hok Hd Hc Hc2 Ho Hfit Hb HQ. pose proof Hd as [S1 S2 _ _].
  pose proof (cluster_bytes_length st c S1 S2) as Hcb. unfold write_cluster.
  destruct (_ && _) eqn:E.
  - apply andb_true_iff in E as [E1%Z.eqb_eq E2%Z.eqb_eq]. subst off.
    apply put_cluster; try done; [lia|]. intros st' Hk Hbytes Hm' Hv. apply HQ; [done| |congruence|done].
    rewrite put_bytes_all by lia. done.
  - wp_step. apply wp_malloc_ok; [done|]. cbn [negb]. wp_step. wp_step. rewrite read_cluster by done.
    apply put_cluster; try done.
    + rewrite put_bytes_length; lia.
    + apply put_bytes_bytes; [apply cluster_bytes_bytes|done].
    + intros st' Hk Hbytes Hm' Hv. apply HQ; [done|done|congruence|done].
Qed.

(** The file after [n] more bytes were written in front of its cursor. *)
Definition advanced (v : fat32_volume) (l : list Z) (fp : fat32_file) (n : Z) : fat32_file :=
  set_size (set_cursor fp (f_pos fp + n) (cluster_at v l (f_pos fp mod v_bpc v + n)))
    (Z.max (f_file_size fp) (f_pos fp + n)).

(** The size kept by one round. *)
Lemma grown_size fp p cur :
  f_file_size fp < 2 ^ 32 -> 0 <= p < 2 ^ 32 ->
  (if p >? f_file_size (set_cursor fp p cur) then set_size (set_cursor fp p cur) (u32 p) else set_cursor fp p cur)
  = set_size (set_cursor fp p cur) (Z.max (f_file_size fp) p).
Proof.
  intros H1 H2. cbn [set_cursor f_file_size]. destruct (Z.gtb_spec p (f_file_size fp)).
  - rewrite wrap_id by (unfold_fits; lia). f_equal. lia.
  - replace (Z.max (f_file_size fp) p) with (f_file_size fp) by lia. by destruct fp.
Qed.

(** What a write inside the chain [l] has done. *)
Definition rewrote (st st' : fstate D) (l : list Z) (new : list Z) : Prop :=
  keeps st st' l /\ file_bytes st' l = new /\ mallocs st' = [].

(** The rest of [src] fits into the cluster [c]. *)
Lemma rewrote_last st st1 c l off src :
  data_ok st -> fat_ok ops st -> on_disk st (c :: l) -> NoDup (c :: l) ->
  0 <= off -> off + Z.of_nat (length src) <= v_bpc (vol st) ->
  keeps st st1 [c] -> cluster_bytes st1 c = put_bytes (cluster_bytes st c) (Z.to_nat off) src -> mallocs st1 = [] ->
  rewrote st st1 (c :: l) (put_bytes (file_bytes st (c :: l)) (Z.to_nat off) src).
Proof.
  intros Hd Hok Hl Hnd Ho Hfit Hk Hcb Hm. apply NoDup_cons in Hnd as [Hni _].
  split; [|split; [|done]].
  - eapply keeps_trans; [|exact Hk|apply same_keeps, same_table_refl, (kp_ok _ _ _ Hk)]. set_solver.
  - cbn [file_bytes fmap list_fmap concat]. fold (file_bytes st1 l) (file_bytes st l).
    rewrite Hcb, put_app_left by (rewrite cluster_bytes_length; [lia|apply Hd|apply Hd]). f_equal.
    eapply (keeps_file st st1 [c]); [done|done|done|..].
    + eapply on_disk_sub; [|exact Hl]. set_solver.
    + eapply on_disk_sub; [|exact Hl]. set_solver.
    + intros k Hk' ->%list_elem_of_singleton. done.
Qed.

(** The cluster [c] is filled, the rest went to [l]. *)
Lemma rewrote_cons st st1 st2 c l off chunk src :
  data_ok st -> fat_ok ops st -> on_disk st (c :: l) -> NoDup (c :: l) ->
  0 <= off <= v_bpc (vol st) -> off + Z.of_nat (length chunk) = v_bpc (vol st) ->
  keeps st st1 [c] -> cluster_bytes st1 c = put_bytes (cluster_bytes st c) (Z.to_nat off) chunk ->
  rewrote st1 st2 l (put_bytes (file_bytes st1 l) 0 src) ->
  rewrote st st2 (c :: l) (put_bytes (file_bytes st (c :: l)) (Z.to_nat off) (chunk ++ src)).
Proof.
  intros Hd Hok Hl Hnd Ho Hfit Hk Hcb (Hk2 & Hf2 & Hm2). apply NoDup_cons in Hnd as [Hni _].
  assert (on_disk st l) as Hl' by (eapply on_disk_sub; [|exact Hl]; set_solver).
  assert (on_disk st [c]) as Hlc by (eapply on_disk_sub; [|exact Hl]; set_solver).
  assert (file_bytes st1 l = file_bytes st l) as E1.
  { eapply (keeps_file st st1 [c]); [done..|]. intros k Hk' ->%list_elem_of_singleton. done. }
  assert (cluster_bytes st2 c = cluster_bytes st1 c) as E2.
  { destruct (keeps_on_disk _ _ _ _ Hk Hlc c ltac:(set_solver)).
    eapply (keeps_cluster st1 st2 l); eauto using keeps_data_ok, kp_ok, keeps_on_disk. }
  split; [|split; [|done]].
  - eapply (keeps_trans st st1 st2 [c]); [set_solver|done|]. eapply keeps_trans; [|exact Hk2|].
    + set_solver.
    + apply same_keeps, same_table_refl, (kp_ok _ _ _ Hk2).
  - cbn [file_bytes fmap list_fmap concat]. fold (file_bytes st2 l) (file_bytes st l).
    rewrite E2, Hcb, Hf2, E1. symmetry. pose proof (cluster_bytes_length st c (do_spc _ Hd) (do_bpc _ Hd)).
    apply put_app_split; lia.
Qed.

Lemma write_loop_spec l : forall st fuel fp c prev src total,
  reliable ops -> mallocs st = [] -> fat_ok ops st -> data_ok st -> on_disk st l -> NoDup l -> chain ops st c l ->
  f_current_cluster fp = c -> src <> [] -> Forall is_byte src -> 0 <= f_pos fp -> f_file_size fp < 2 ^ 32 ->
  f_pos fp + Z.of_nat (length src) < 2 ^ 32 ->
  f_pos fp mod v_bpc (vol st) + Z.of_nat (length src) <= v_bpc (vol st) * Z.of_nat (length l) ->
  (length l <= fuel)%nat ->
  wp (write_loop ops fuel fp c prev src total) (fun r st' =>
    r = (total + Z.of_nat (length src), advanced (vol st) l fp (Z.of_nat (length src))) /\
    rewrote st st' l (put_bytes (file_bytes st l) (Z.to_nat (f_pos fp mod v_bpc (vol st))) src)) st.
Proof.
  induction l as [|c0 l IH]; intros st fuel fp c prev src total Hrel Hm Hok Hd Hl Hnd Hch Hcur Hne Hb Hpos Hsz Hend Hroom Hfuel.
  { by apply chain_cons in Hch as (? & ? & _). }
  apply chain_cons in Hch as (l' & E & Hc & Hnext). injection E as <- <-.
  pose proof Hd as [S1 S2 S3 S4]. set (bpc := v_bpc (vol st)) in *. assert (0 < bpc) as Hbpc by lia.
  destruct (Hl c0 ltac:(set_solver)) as [Hin _]. pose proof (Z.mod_pos_bound (f_pos fp) bpc Hbpc) as Hoff.
  set (off := f_pos fp mod bpc) in *.
  destruct fuel as [|fuel]; [cbn in Hfuel; lia|]. cbn [write_loop]. destruct src as [|x src0]; [done|].
  set (src := x :: src0) in *. clearbody src.
  destruct (Z.ltb_spec c0 2); [lia|]. destruct (Z.geb_spec c0 FAT32_CLUSTER_EOC); [lia|]. cbn [orb].
  wp_step. wp_step. wp_step. wp_step. fold bpc off.
  destruct (Z.ltb_spec (Z.of_nat (length src)) (bpc - off)) as [Hlt|Hge].
  - rewrite Nat2Z.id, take_ge, drop_ge by done. wp_step. apply write_cluster_ok; try (done || lia).
    intros st1 Hk Hcb Hm1 Hv. cbn [negb]. destruct (Z.geb_spec (off + Z.of_nat (length src)) bpc); [lia|].
    rewrite (wrap_id 64) by (unfold_fits; lia). rewrite grown_size by lia.
    destruct fuel; cbn [write_loop]; wp_step; (split; [|apply rewrote_last; (done || fold bpc; lia)]); unfold advanced;
      fold bpc off; rewrite cluster_at_head by (fold bpc; lia); by rewrite Hcur.
  - set (n := Z.to_nat (bpc - off)). assert (length (take n src) = n) as Hn by (rewrite length_take; lia).
    pose proof (take_drop n src) as Esrc. remember (take n src) as chunk eqn:Ec. remember (drop n src) as rest eqn:Er.
    clear Ec Er. subst src. apply Forall_app in Hb as [Hb1 Hb2]. rewrite length_app, Hn in *.
    wp_step. apply write_cluster_ok; try (done || lia).
    intros st1 Hk Hcb Hm1 Hv. cbn [negb]. destruct (Z.geb_spec (off + (bpc - off)) bpc); [|lia].
    rewrite (wrap_id 64) by (unfold_fits; lia). rewrite grown_size by lia.
    wp_step.
    assert (in_fat st1 c0) as Hin1 by (unfold in_fat; by rewrite Hv).
    eapply wp_mono; [apply next_ok; [done|done|apply (kp_ok _ _ _ Hk)|done|lia]|].
    cbn beta. intros nx st2 (-> & Hs2 & Hm2). rewrite (keeps_entry st st1 [c0]) by done.
    pose proof (next_is_head _ _ _ Hnext) as Enx. rewrite Enx.
    assert (data_ok st1) as Hd1 by (by eapply keeps_data_ok).
    assert (cluster_bytes st2 c0 = put_bytes (cluster_bytes st c0) (Z.to_nat off) chunk) as Hcb2.
    { rewrite <- Hcb. apply same_cluster_bytes; [done|done|apply (kp_ok _ _ _ Hk)|done|lia]. }
    assert (on_disk st l) as Hl' by (eapply on_disk_sub; [|exact Hl]; set_solver).
    pose proof (keeps_trans st st1 st2 [c0] [c0] ltac:(set_solver) Hk (same_keeps _ _ _ Hs2)) as Hk2.
    destruct (geometry_fields _ _ (kp_geom _ _ _ Hk2)) as (F1 & F2 & F3 & F4 & F5 & F6 & F7 & F8 & _).
    unfold advanced. fold bpc off. rewrite cluster_at_cons by (fold bpc; lia). fold bpc.
    pose proof (mod_next (f_pos fp) bpc Hbpc) as Emod. fold off in Emod.
    destruct rest as [|y rest].
    + cbn [length] in *. rewrite app_nil_r. destruct fuel; cbn [write_loop]; wp_step;
        (split; [|apply rewrote_last; (done || fold bpc; lia)]); f_equal; try lia;
        unfold cluster_at; rewrite ?F7; fold bpc;
        (replace (off + Z.of_nat (n + 0) - bpc) with 0 by lia); rewrite Zdiv_0_l;
        (replace (Z.of_nat (n + 0)) with (bpc - off) by lia); reflexivity.
    + assert (l <> []) as Hnn by (intros ->; cbn [length] in Hroom; lia).
      destruct (entry ops st c0 >=? FAT32_CLUSTER_EOC); [done|].
      eapply wp_mono; [apply IH|].
      all: cbn [set_cursor set_size f_pos f_file_size f_current_cluster]; rewrite ?F7; fold bpc; rewrite ?Emod.
      all: try (done || lia).
      * by apply (kp_ok _ _ _ Hk2).
      * by eapply keeps_data_ok.
      * by eapply keeps_on_disk.
      * by apply NoDup_cons in Hnd as [_ ?].
      * rewrite <- Enx. eapply keeps_chain; [exact Hk2|done|done].
      * cbn [length] in Hroom |- *. lia.
      * cbn [length] in Hfuel. lia.
      * cbn beta. intros r st3 (-> & Hrw). split.
        -- f_equal; [lia|]. unfold advanced, cluster_at. cbn [set_cursor set_size f_pos f_file_size]. rewrite F7. fold bpc.
           rewrite Emod. set (k := Z.of_nat (length (y :: rest))).
           replace (off + Z.of_nat (n + length (y :: rest)) - bpc) with (0 + k) by lia.
           replace (f_pos fp + Z.of_nat (n + length (y :: rest))) with (f_pos fp + (bpc - off) + k) by lia.
           rewrite <- Z.max_assoc. rewrite (Z.max_r (f_pos fp + (bpc - off))) by lia. reflexivity.
        -- eapply rewrote_cons; [done|done|done|done|fold bpc; lia|fold bpc; lia|exact Hk2|exact Hcb2|exact Hrw].
Qed.

(** ** Whole files *)

(** An open file: its clusters, and the cluster of the cursor. *)
Record open_file (st : fstate D) (fp : fat32_file) (l : list Z) : Prop := {
  of_chain : chain ops st (f_first_cluster fp) l;
  of_disk : on_disk st l;
  of_nodup : NoDup l;
  of_pos : 0 <= f_pos fp;
  of_size : f_file_size fp <= v_bpc (vol st) * Z.of_nat (length l) /\ f_file_size fp < 2 ^ 32;
  of_cursor : f_current_cluster fp = cluster_at (vol st) l (f_pos fp) }.

Lemma chain_drop st k : forall c l c', chain ops st c l -> l !! k = Some c' -> chain ops st c' (drop k l).
Proof.
  induction k as [|k IH]; intros c l c' Hc Hk; pose proof (chain_cons _ _ _ Hc) as (l' & -> & _ & Hn).
  - by injection Hk as <-.
  - cbn in Hk |- *. destruct (_ >=? _); [by rewrite Hn in Hk|]. by eapply IH.
Qed.

Lemma file_bytes_app st a b : file_bytes st (a ++ b) = file_bytes st a ++ file_bytes st b.
Proof. unfold file_bytes. by rewrite fmap_app, concat_app. Qed.
Lemma file_bytes_length st l : data_ok st -> length (file_bytes st l) = (length l * Z.to_nat (v_bpc (vol st)))%nat.
Proof.
  intros [S1 S2 _ _]. induction l as [|c l IH]; [done|]. cbn [file_bytes fmap list_fmap concat length].
  rewrite length_app, cluster_bytes_length by done. unfold file_bytes in IH. rewrite IH. lia.
Qed.

(** A position inside the chain, as a cluster and an offset into it. *)
Lemma position st fp l n :
  data_ok st -> open_file st fp l -> 0 < n -> f_pos fp + n <= v_bpc (vol st) * Z.of_nat (length l) ->
  let bpc := v_bpc (vol st) in let k := Z.to_nat (f_pos fp / bpc) in
  chain ops st (f_current_cluster fp) (drop k l) /\ (k < length l)%nat /\
  Z.to_nat (f_pos fp) = (k * Z.to_nat bpc + Z.to_nat (f_pos fp mod bpc))%nat /\
  f_pos fp mod bpc + n <= bpc * Z.of_nat (length (drop k l)) /\
  forall m, 0 <= m -> cluster_at (vol st) (drop k l) (f_pos fp mod bpc + m) = cluster_at (vol st) l (f_pos fp + m).
Proof.
  intros [S1 S2 _ _] [O1 O2 O3 O4 O5 O6] Hn Hroom bpc k. fold bpc in S2, Hroom.
  assert (0 < bpc) as Hb by lia. pose proof (Z.div_mod (f_pos fp) bpc ltac:(lia)) as E.
  pose proof (Z.mod_pos_bound (f_pos fp) bpc Hb) as Hm.
  assert (0 <= f_pos fp / bpc) as Hq by (apply Z.div_pos; lia).
  assert (f_pos fp / bpc < Z.of_nat (length l)) as Hlt by (apply Z.div_lt_upper_bound; lia).
  assert (k < length l)%nat as Hk by lia. destruct (lookup_lt_is_Some_2 l k Hk) as [c Hc].
  split; [|split; [done|split; [|split]]].
  - rewrite O6. unfold cluster_at. fold bpc k. rewrite Hc. by eapply chain_drop.
  - apply Nat2Z.inj. rewrite Nat2Z.inj_add, Nat2Z.inj_mul. unfold k. rewrite !Z2Nat.id by lia. lia.
  - rewrite length_drop, Nat2Z.inj_sub by lia. unfold k. rewrite Z2Nat.id by lia. lia.
  - intros m Hm0. unfold cluster_at. fold bpc. rewrite lookup_drop. do 2 f_equal.
    replace (f_pos fp + m) with (f_pos fp mod bpc + m + f_pos fp / bpc * bpc) by lia.
    rewrite Z.div_add by lia. rewrite Z2Nat.inj_add; [unfold k; lia| |lia]. apply Z.div_pos; lia.
Qed.

Lemma file_bytes_drop st l k :
  data_ok st -> file_bytes st (drop k l) = drop (k * Z.to_nat (v_bpc (vol st))) (file_bytes st l).
Proof.
  intros Hd. destruct (Nat.le_gt_cases k (length l)).
  - rewrite <- (take_drop k l) at 2. rewrite file_bytes_app, drop_app_length'; [done|].
    rewrite file_bytes_length, length_take by done. by rewrite Nat.min_l.
  - rewrite !drop_ge; [done|rewrite file_bytes_length by done; nia|lia].
Qed.

Lemma of_moved st st' fp l pos cur :
  keeps st st' l -> open_file st fp l -> 0 <= pos -> cur = cluster_at (vol st) l pos ->
  open_file st' (set_cursor fp pos cur) l.
Proof.
  intros Hk [O1 O2 O3 O4 O5 O6] Hp ->. destruct (geometry_fields _ _ (kp_geom _ _ _ Hk)) as (_ & _ & _ & _ & _ & _ & F7 & _).
  constructor; cbn [set_cursor f_first_cluster f_pos f_file_size f_current_cluster].
  - by eapply keeps_chain.
  - by eapply keeps_on_disk.
  - done.
  - done.
  - by rewrite F7.
  - unfold cluster_at. by rewrite F7.
Qed.

(** How many bytes a read of [n] gives. *)
Definition readable (fp : fat32_file) (n : Z) : Z := Z.min n (f_file_size fp - f_pos fp).

Lemma read_spec st fp l n fuel :
  reliable ops -> mallocs st = [] -> fat_ok ops st -> data_ok st -> open_file st fp l ->
  0 <= n -> f_pos fp <= f_file_size fp -> f_pos fp + n < 2 ^ 64 -> (length l <= fuel)%nat ->
  wp (fat32_read ops fuel fp n) (fun r st' =>
    r = (slice (file_bytes st l) (Z.to_nat (f_pos fp)) (Z.to_nat (readable fp n)),
         set_cursor fp (f_pos fp + readable fp n) (cluster_at (vol st) l (f_pos fp + readable fp n))) /\
    same_table ops st st' /\ mallocs st' = []) st.
Proof.
  intros Hrel Hm Hok Hd Ho Hn Hp Hend Hfuel. pose proof (of_pos _ _ _ Ho). pose proof (of_size _ _ _ Ho) as [Hs1 Hs2].
  unfold fat32_read. rewrite (wrap_id 64 (f_pos fp + n)), (wrap_id 64 (_ - _)) by (unfold_fits; lia).
  assert ((if f_pos fp + n >? f_file_size fp then f_file_size fp - f_pos fp else n) = readable fp n) as ->
    by (unfold readable; destruct (Z.gtb_spec (f_pos fp + n) (f_file_size fp)); lia).
  assert (0 <= readable fp n) as H0 by (unfold readable; lia).
  destruct (Z.eqb_spec (readable fp n) 0) as [->|Hne].
  - wp_step. split; [|split; [by apply same_table_refl|done]]. unfold slice. cbn [Z.to_nat take].
    rewrite Z.add_0_r, <- (of_cursor _ _ _ Ho). by destruct fp.
  - destruct (position st fp l (readable fp n)) as (P1 & P2 & P3 & P4 & P5); [done|done|lia|unfold readable; lia|].
    eapply wp_mono; [apply (read_loop_spec (drop (Z.to_nat (f_pos fp / v_bpc (vol st))) l)); try (done || lia)|].
    + eapply on_disk_sub; [|exact (of_disk _ _ _ Ho)]. apply subseteq_drop.
    + unfold readable. lia.
    + rewrite length_drop. lia.
    + cbn beta. intros r st' (-> & Hs & Hm'). split; [|done]. rewrite P5 by done. f_equal. cbn [app].
      rewrite file_bytes_drop by done. unfold slice. rewrite drop_drop, P3. done.
Qed.

Lemma find_prev_spec l : forall st fuel c cluster prev,
  reliable ops -> mallocs st = [] -> fat_ok ops st -> on_disk st l -> chain ops st c l -> (length l <= fuel)%nat ->
  wp (find_prev ops fuel c cluster prev) (fun _ st' => same_table ops st st' /\ mallocs st' = []) st.
Proof.
  induction l as [|c0 l IH]; intros st fuel c cluster prev Hrel Hm Hok Hl Hch Hfuel.
  { by apply chain_cons in Hch as (? & ? & _). }
  apply chain_cons in Hch as (l' & E & Hc & Hnext). injection E as <- <-.
  destruct (Hl c0 ltac:(set_solver)) as [Hin _]. destruct fuel as [|fuel]; [cbn in Hfuel; lia|]. cbn [find_prev].
  destruct (Z.geb_spec c0 2); [|lia]. destruct (Z.ltb_spec c0 FAT32_CLUSTER_EOC); [|lia]. cbn [andb].
  wp_step. eapply wp_mono; [by apply next_ok; [..|lia]|]. cbn beta. intros nx st1 (-> & Hs1 & Hm1).
  destruct (entry ops st c0 >=? FAT32_CLUSTER_EOC) eqn:E.
  - replace (_ || _ || _) with true; [by wp_step|]. cbn. by rewrite orb_true_r.
  - destruct (_ || _ || _); [by wp_step|].
    assert (on_disk st l) as Hl' by (eapply on_disk_sub; [|exact Hl]; set_solver).
    eapply wp_mono; [apply IH; [done|done|by apply (sm_ok _ _ _ Hs1)|by eapply same_on_disk|by eapply chain_same|cbn in Hfuel; lia]|].
    cbn beta. intros _ st2 [Hs2 Hm2]. split; [by eapply same_table_trans|done].
Qed.

(** The walk of [fat32_write] before its loop. *)
Lemma write_prev_spec st fp l fuel :
  reliable ops -> mallocs st = [] -> fat_ok ops st -> open_file st fp l -> (length l <= fuel)%nat ->
  let cluster := f_current_cluster fp in
  wp (if (cluster >=? 2) && (cluster <? FAT32_CLUSTER_EOC) then
        if negb (f_first_cluster fp =? cluster)
        then find_prev ops fuel (f_first_cluster fp) cluster (f_first_cluster fp)
        else mret (f_first_cluster fp)
      else mret 0) (fun _ st' => same_table ops st st' /\ mallocs st' = []) st.
Proof.
  intros Hrel Hm Hok [O1 O2 O3 O4 O5 O6] Hfuel cluster.
  destruct (_ && _); [|by wp_step; split; [apply same_table_refl|]].
  destruct (negb _); [by eapply find_prev_spec|]. by wp_step; split; [apply same_table_refl|].
Qed.

Lemma of_same st st' fp l : same_table ops st st' -> open_file st fp l -> open_file st' fp l.
Proof.
  intros Hs Ho. replace fp with (set_cursor fp (f_pos fp) (f_current_cluster fp)) by (by destruct fp).
  eapply of_moved; [by apply same_keeps|done|exact (of_pos _ _ _ Ho)|exact (of_cursor _ _ _ Ho)].
Qed.

(** A write into the clusters of the chain from number [k] on. *)
Lemma rewrote_tail st st' l k off src :
  data_ok st -> fat_ok ops st -> on_disk st l -> NoDup l -> (k <= length l)%nat ->
  rewrote st st' (drop k l) (put_bytes (file_bytes st (drop k l)) off src) ->
  rewrote st st' l (put_bytes (file_bytes st l) (k * Z.to_nat (v_bpc (vol st)) + off) src).
Proof.
  intros Hd Hok Hl Hnd Hk (H1 & H2 & H3). split; [|split; [|done]].
  - eapply keeps_trans; [|exact H1|apply same_keeps, same_table_refl, (kp_ok _ _ _ H1)]. apply subseteq_drop.
  - assert (forall st0, file_bytes st0 l = file_bytes st0 (take k l) ++ file_bytes st0 (drop k l)) as Hsplit
      by (intros; rewrite <- file_bytes_app; by rewrite take_drop).
    rewrite <- (take_drop k l) in Hnd at 1. rewrite !Hsplit, H2. apply NoDup_app in Hnd as (_ & Hdisj & _).
    rewrite (keeps_file st st' (drop k l) (take k l)); try done.
    + rewrite <- put_app_right. f_equal. rewrite file_bytes_length, length_take by done. by rewrite Nat.min_l.
    + eapply on_disk_sub; [apply subseteq_drop|done].
    + eapply on_disk_sub; [apply subseteq_take|done].
Qed.

Lemma write_spec st fp l src fuel :
  reliable ops -> mallocs st = [] -> fat_ok ops st -> data_ok st -> open_file st fp l -> f_write_mode fp = true ->
  src <> [] -> Forall is_byte src -> f_pos fp + Z.of_nat (length src) < 2 ^ 32 ->
  f_pos fp + Z.of_nat (length src) <= v_bpc (vol st) * Z.of_nat (length l) -> (length l <= fuel)%nat ->
  wp (fat32_write ops fuel fp src) (fun r st' =>
    r = (Z.of_nat (length src),
         set_size (set_cursor fp (f_pos fp + Z.of_nat (length src)) (cluster_at (vol st) l (f_pos fp + Z.of_nat (length src))))
           (Z.max (f_file_size fp) (f_pos fp + Z.of_nat (length src)))) /\
    rewrote st st' l (put_bytes (file_bytes st l) (Z.to_nat (f_pos fp)) src)) st.
Proof.
  intros Hrel Hm Hok Hd Ho Hw Hne Hb Hend Hroom Hfuel. unfold fat32_write. rewrite Hw. cbn [negb]. wp_step.
  eapply wp_mono; [by apply (write_prev_spec st fp l)|]. cbn beta. intros prev st1 [Hs1 Hm1].
  pose proof (of_same _ _ _ _ Hs1 Ho) as Ho1. pose proof (same_data_ok _ _ Hs1 Hd) as Hd1.
  destruct (geometry_fields _ _ (sm_geom _ _ _ Hs1)) as (_ & _ & _ & _ & _ & _ & F7 & _).
  assert (0 < length src)%nat as Hlen by (destruct src; [done|cbn; lia]).
  rewrite <- F7 in Hroom. destruct (position st1 fp l (Z.of_nat (length src)) Hd1 Ho1) as (P1 & P2 & P3 & P4 & P5); [lia|done|].
  eapply wp_mono; [apply (write_loop_spec (drop (Z.to_nat (f_pos fp / v_bpc (vol st1))) l)); try (done || lia)|].
  - by apply (sm_ok _ _ _ Hs1).
  - eapply on_disk_sub; [apply subseteq_drop|apply (of_disk _ _ _ Ho1)].
  - pose proof (of_nodup _ _ _ Ho1) as Hnd. rewrite <- (take_drop (Z.to_nat (f_pos fp / v_bpc (vol st1))) l) in Hnd.
    by apply NoDup_app in Hnd as (_ & _ & ?).
  - exact (of_pos _ _ _ Ho).
  - exact (proj2 (of_size _ _ _ Ho)).
  - rewrite length_drop. lia.
  - cbn beta. intros r st2 [-> Hrw]. split.
    + unfold advanced. rewrite P5 by lia. f_equal. unfold cluster_at. by rewrite F7.
    + apply rewrote_tail in Hrw; [|done|by apply (sm_ok _ _ _ Hs1)|exact (of_disk _ _ _ Ho1)|exact (of_nodup _ _ _ Ho1)|lia].
      rewrite <- P3 in Hrw. destruct Hrw as (H1 & H2 & H3). split; [|split; [|done]].
      * eapply keeps_trans; [|by apply (same_keeps _ _ l)|exact H1]. done.
      * rewrite H2. f_equal. apply same_file_bytes; try done. exact (of_disk _ _ _ Ho).
Qed.

Lemma seek_walk_spec n : forall st c l,
  reliable ops -> mallocs st = [] -> fat_ok ops st -> on_disk st l -> chain ops st c l -> (n < length l)%nat ->
  wp (seek_walk ops n c) (fun c' st' => l !! n = Some c' /\ same_table ops st st' /\ mallocs st' = []) st.
Proof.
  induction n as [|n IH]; intros st c l Hrel Hm Hok Hl Hch Hn;
    pose proof (chain_cons _ _ _ Hch) as (l' & -> & Hc & Hnext); cbn [seek_walk].
  - wp_step. split; [done|]. split; [by apply same_table_refl|done].
  - destruct (Hl c ltac:(set_solver)) as [Hin _]. wp_step.
    eapply wp_mono; [by apply next_ok; [..|lia]|]. cbn beta. intros nx st1 (-> & Hs1 & Hm1).
    destruct (entry ops st c >=? FAT32_CLUSTER_EOC) eqn:E; [subst l'; cbn in Hn; lia|].
    pose proof (chain_cons _ _ _ Hnext) as (_ & _ & Hnx & _). rewrite E, orb_false_r.
    destruct (Z.eqb_spec (entry ops st c) 0); [lia|].
    assert (on_disk st l') as Hl' by (eapply on_disk_sub; [|exact Hl]; set_solver).
    eapply wp_mono; [apply (IH _ _ l'); [done|done|by apply (sm_ok _ _ _ Hs1)|by eapply same_on_disk|by eapply chain_same|cbn in Hn; lia]|].
    cbn beta. intros c' st2 (H1 & H2 & H3). split; [done|]. split; [by eapply same_table_trans|done].
Qed.

Lemma seek_spec st fp l p :
  reliable ops -> mallocs st = [] -> fat_ok ops st -> data_ok st -> open_file st fp l ->
  0 <= p < v_bpc (vol st) * Z.of_nat (length l) ->
  wp (fat32_seek ops fp p 0) (fun r st' => r = (p, set_cursor fp p (cluster_at (vol st) l p)) /\
    same_table ops st st' /\ mallocs st' = []) st.
Proof.
  intros Hrel Hm Hok [S1 S2 _ _] [O1 O2 _ _ _ _] Hp. unfold fat32_seek. cbn [Z.eqb].
  destruct (Z.ltb_spec p 0); [lia|]. do 3 wp_step.
  assert (p / v_bpc (vol st) < Z.of_nat (length l)) by (apply Z.div_lt_upper_bound; lia).
  assert (0 <= p / v_bpc (vol st)) by (apply Z.div_pos; lia).
  eapply wp_mono; [apply (seek_walk_spec _ st _ l); try done; lia|]. cbn beta. intros c st' (Hc & Hs & Hm').
  wp_step. split; [|done]. unfold cluster_at. by rewrite Hc.
Qed.

(** Write [src] at [p], go back and read it. *)
Definition write_then_read (fuel : nat) (fp : fat32_file) (p : Z) (src : list Z) : M D (Z * list Z) :=
  '(_, fp) ← fat32_seek ops fp p 0;
  '(n, fp) ← fat32_write ops fuel fp src;
  '(_, fp) ← fat32_seek ops fp p 0;
  '(got, fp) ← fat32_read ops fuel fp (Z.of_nat (length src));
  mret (n, got).

Lemma write_then_read_spec st fp l p src fuel :
  reliable ops -> mallocs st = [] -> fat_ok ops st -> data_ok st -> open_file st fp l -> f_write_mode fp = true ->
  src <> [] -> Forall is_byte src -> 0 <= p -> p + Z.of_nat (length src) < 2 ^ 32 ->
  p + Z.of_nat (length src) <= v_bpc (vol st) * Z.of_nat (length l) -> (length l <= fuel)%nat ->
  wp (write_then_read fuel fp p src) (fun r _ => r = (Z.of_nat (length src), src)) st.
Proof.
  intros Hrel Hm Hok Hd Ho Hw Hne Hb Hp Hend Hroom Hfuel. unfold write_then_read.
  assert (0 < length src)%nat as Hlen by (destruct src; [done|cbn; lia]).
  wp_step. eapply wp_mono; [apply (seek_spec st fp l p); (done || lia)|]. cbn beta. intros r1 st1 (-> & Hs1 & Hm1).
  destruct (geometry_fields _ _ (sm_geom _ _ _ Hs1)) as (_ & _ & _ & _ & _ & _ & F7 & _).
  pose proof (of_moved _ _ _ _ p _ (same_keeps _ _ l Hs1) Ho Hp eq_refl) as Ho1. set (fp1 := set_cursor fp p _) in *.
  pose proof (same_data_ok _ _ Hs1 Hd) as Hd1. pose proof (sm_ok _ _ _ Hs1) as Hok1. cbn beta iota.
  wp_step. eapply wp_mono; [apply (write_spec st1 fp1 l src fuel); [done..|cbn; lia|cbn; lia|done]|].
  cbn beta. intros r2 st2 (-> & Hk2 & Hf2 & Hm2). cbn [fp1 set_cursor f_pos f_file_size] in Hf2 |- *.
  destruct (geometry_fields _ _ (kp_geom _ _ _ Hk2)) as (_ & _ & _ & _ & _ & _ & G7 & _).
  pose proof (keeps_data_ok _ _ _ Hk2 Hd1) as Hd2. pose proof (kp_ok _ _ _ Hk2) as Hok2. set (n := Z.of_nat (length src)) in *.
  set (fp2 := set_size _ _). assert (open_file st2 fp2 l) as Ho2.
  { destruct (of_moved _ _ _ _ (p + n) _ Hk2 Ho1 ltac:(lia) eq_refl) as [A1 A2 A3 A4 A5 A6].
    constructor; try done. cbn [fp2 set_size f_file_size]. cbn [fp1 set_cursor f_file_size] in A5. rewrite G7, F7 in *. lia. }
  cbn beta iota. wp_step. eapply wp_mono; [apply (seek_spec st2 fp2 l p); try done; rewrite G7, F7; lia|].
  cbn beta. intros r3 st3 (-> & Hs3 & Hm3). pose proof (of_moved _ _ _ _ p _ (same_keeps _ _ l Hs3) Ho2 Hp eq_refl) as Ho3.
  cbn beta iota. wp_step. eapply wp_mono; [apply (read_spec st3 _ l n fuel); try done|].
  - by apply (sm_ok _ _ _ Hs3).
  - by eapply same_data_ok.
  - lia.
  - cbn [fp2 set_cursor set_size f_pos f_file_size]. lia.
  - cbn [fp2 set_cursor set_size f_pos f_file_size]. lia.
  - cbn beta. intros r4 st4 (-> & _). cbn beta iota. wp_step. f_equal.
    rewrite (same_file_bytes st2 st3) by (done || apply Ho2). rewrite Hf2.
    unfold readable. cbn [fp2 set_cursor set_size f_pos f_file_size]. rewrite Z.min_l by lia.
    unfold n. rewrite Nat2Z.id. apply slice_put_here. rewrite file_bytes_length by done. rewrite F7. lia.
Qed.
End files.

(** A file of 1200 bytes on the clusters 3 to 5 of the small volume. *)
Definition small_file : fat32_file :=
  {| f_first_cluster := 3; f_current_cluster := 3; f_file_size := 1200; f_attr := 32; f_pos := 0;
     f_write_mode := true; f_dir_cluster := 2; f_dir_offset := 0 |}.

Lemma small_data : data_ok small.
Proof. constructor; cbn; (done || lia). Qed.
Lemma small_open : open_file ram_ops small small_file [3; 4; 5].
Proof.
  constructor; cbn [small_file f_first_cluster f_pos f_file_size].
  - exact small_chain.
  - intros c Hc. unfold in_fat. cbn [small vol small_vol v_spf].
    repeat (apply elem_of_cons in Hc as [->|Hc]; [lia|]). set_solver.
  - repeat constructor; set_solver.
  - lia.
  - cbn. lia.
  - reflexivity.
Qed.

(** ** Theorems *)

(** A read of [n] bytes at a position inside the file returns the bytes of the
    file's chain from there on, [n] of them or as many as the file has left,
    advances the cursor by that number into the right cluster, and changes
    neither the table nor the data. *)
Theorem fat32_read_returns_file_bytes {D} (ops : blk_ops D) `{!BlkDev ops} (st : fstate D) fp l n fuel :
  reliable ops -> mallocs st = [] -> fat_ok ops st -> data_ok st -> open_file ops st fp l ->
  0 <= n -> f_pos fp <= f_file_size fp -> f_pos fp + n < 2 ^ 64 -> (length l <= fuel)%nat ->
  wp (fat32_read ops fuel fp n) (fun r st' =>
    let m := Z.min n (f_file_size fp - f_pos fp) in
    r.1 = slice (file_bytes ops st l) (Z.to_nat (f_pos fp)) (Z.to_nat m) /\
    f_pos r.2 = f_pos fp + m /\ open_file ops st' r.2 l /\ same_table ops st st' /\
    file_bytes ops st' l = file_bytes ops st l) st.
Proof.
  intros Hrel Hm Hok Hd Ho Hn Hp Hend Hfuel. eapply wp_mono; [by apply (read_spec ops st fp l n fuel)|].
  cbn beta. intros r st' (-> & Hs & Hm'). cbn [fst snd set_cursor f_pos]. split; [done|]. split; [done|].
  split; [|split; [done|by apply same_file_bytes; [..|exact (of_disk _ _ _ _ Ho)]]].
  pose proof (of_pos _ _ _ _ Ho). eapply of_moved; [by apply same_keeps|done|unfold readable; lia|done].
Qed.

Lemma fat32_read_returns_file_bytes_witness :
  wp (fat32_read ram_ops 3 small_file 2000) (fun r _ => f_pos r.2 = 1200) small.
Proof.
  eapply wp_mono; [apply (fat32_read_returns_file_bytes ram_ops small small_file [3; 4; 5] 2000 3)|].
  - exact ram_reliable.
  - reflexivity.
  - exact small_ok.
  - exact small_data.
  - exact small_open.
  - lia.
  - cbn. lia.
  - cbn. lia.
  - cbn. lia.
  - cbn beta. intros r st' (_ & -> & _). reflexivity.
Defined.

(** A write at a position of the chain, inside it, stores all its bytes: the
    bytes of the file are the old ones with this slice replaced, the size covers
    it, the cursor is behind it, the table is unchanged and no sector of another
    cluster is written. *)
Theorem fat32_write_replaces_slice {D} (ops : blk_ops D) `{!BlkDev ops} (st : fstate D) fp l src fuel :
  reliable ops -> mallocs st = [] -> fat_ok ops st -> data_ok st -> open_file ops st fp l -> f_write_mode fp = true ->
  src <> [] -> Forall is_byte src -> f_pos fp + Z.of_nat (length src) < 2 ^ 32 ->
  f_pos fp + Z.of_nat (length src) <= v_bpc (vol st) * Z.of_nat (length l) -> (length l <= fuel)%nat ->
  wp (fat32_write ops fuel fp src) (fun r st' =>
    r.1 = Z.of_nat (length src) /\ f_pos r.2 = f_pos fp + Z.of_nat (length src) /\
    f_file_size r.2 = Z.max (f_file_size fp) (f_pos fp + Z.of_nat (length src)) /\
    file_bytes ops st' l = put_bytes (file_bytes ops st l) (Z.to_nat (f_pos fp)) src /\
    keeps ops st st' l) st.
Proof.
  intros. eapply wp_mono; [by apply (write_spec ops st fp l src fuel)|]. cbn beta.
  intros r st' (-> & Hk & Hf & _). done.
Qed.

Lemma fat32_write_replaces_slice_witness :
  wp (fat32_write ram_ops 3 small_file (replicate 600 7)) (fun r st' => r.1 = 600 /\ keeps ram_ops small st' [3; 4; 5]) small.
Proof.
  eapply wp_mono; [apply (fat32_write_replaces_slice ram_ops small small_file [3; 4; 5] (replicate 600 7) 3)|].
  - exact ram_reliable.
  - reflexivity.
  - exact small_ok.
  - exact small_data.
  - exact small_open.
  - reflexivity.
  - discriminate.
  - by apply Forall_replicate.
  - rewrite length_replicate. cbn. lia.
  - rewrite length_replicate. cbn. lia.
  - cbn. lia.
  - cbn beta. intros r st' (-> & _ & _ & _ & H). split; [by rewrite length_replicate|exact H].
Defined.

(** C8. On a file open for writing, on a device that does not fail and with [malloc]
    succeeding: seeking to a position, writing bytes that lie inside of the clusters the
    file already has, seeking back and reading as many bytes gives what was written.  (At
    the end of the last cluster the write is lost: [fat32_write_at_boundary_is_lost].) *)
Theorem fat32_read_back_what_was_written {D} (ops : blk_ops D) `{!BlkDev ops} (st : fstate D) fp l p src fuel :
  reliable ops -> mallocs st = [] -> fat_ok ops st -> data_ok st -> open_file ops st fp l -> f_write_mode fp = true ->
  src <> [] -> Forall is_byte src -> 0 <= p -> p + Z.of_nat (length src) < 2 ^ 32 ->
  p + Z.of_nat (length src) <= v_bpc (vol st) * Z.of_nat (length l) -> (length l <= fuel)%nat ->
  wp ('(_, fp) ← fat32_seek ops fp p 0; '(n, fp) ← fat32_write ops fuel fp src;
      '(_, fp) ← fat32_seek ops fp p 0; '(got, fp) ← fat32_read ops fuel fp (Z.of_nat (length src));
      mret (n, got)) (fun r _ => r = (Z.of_nat (length src), src)) st.
Proof. intros. by apply (write_then_read_spec ops st fp l p src fuel). Qed.

Lemma fat32_read_back_what_was_written_witness :
  wp ('(_, fp) ← fat32_seek ram_ops small_file 500 0; '(n, fp) ← fat32_write ram_ops 3 fp [1; 2; 3];
      '(_, fp) ← fat32_seek ram_ops fp 500 0; '(got, fp) ← fat32_read ram_ops 3 fp 3;
      mret (n, got)) (fun r _ => r = (3, [1; 2; 3])) small.
Proof.
  apply (fat32_read_back_what_was_written ram_ops small small_file [3; 4; 5] 500 [1; 2; 3] 3).
  - exact ram_reliable.
  - reflexivity.
  - exact small_ok.
  - exact small_data.
  - exact small_open.
  - reflexivity.
  - discriminate.
  - by apply (bool_decide_unpack _); vm_compute.
  - lia.
  - cbn. lia.
  - cbn. lia.
  - cbn. lia.
Defined.

(** *** What the code gets wrong, on a fresh volume of 100 sectors *)

Definition fresh_tiny {A} (m : M ramdisk A) : M ramdisk A :=
  _ ← fat32_format tiny_ops 7 100 None; _ ← fat32_mount tiny_ops; m.

Definition no_file : fat32_file :=
  {| f_first_cluster := 0; f_current_cluster := 0; f_file_size := 0; f_attr := 0; f_pos := 0;
     f_write_mode := false; f_dir_cluster := 0; f_dir_offset := 0 |}.
Definition opened (m : M ramdisk (option fat32_file)) : M ramdisk fat32_file := o ← m; mret (default no_file o).

(** Two writes that meet at a cluster boundary: the second one's cluster is never
    linked to the chain, so its bytes are lost. *)
Theorem fat32_write_at_boundary_is_lost :
  wp (fresh_tiny (fp ← opened (fat32_open tiny_ops 9 0 (str "A") (str "w"));
      '(n1, fp) ← fat32_write tiny_ops 9 fp (replicate 512 65);
      '(n2, fp) ← fat32_write tiny_ops 9 fp [1; 2; 3];
      _ ← fat32_close tiny_ops fp;
      fp ← opened (fat32_open tiny_ops 9 0 (str "A") (str "r"));
      '(got, _) ← fat32_read tiny_ops 9 fp 515; mret (n1, n2, f_file_size fp, Z.of_nat (length got))))
    (fun r _ => r = (512, 3, 515, 512)) blank.
Proof. vm_compute. reflexivity. Qed.

(** Appending to a file whose size is a multiple of the cluster size overwrites
    its last cluster. *)
Theorem fat32_append_overwrites_last_cluster :
  wp (fresh_tiny (fp ← opened (fat32_open tiny_ops 9 0 (str "A") (str "w"));
      '(_, fp) ← fat32_write tiny_ops 9 fp (replicate 512 65);
      _ ← fat32_close tiny_ops fp;
      fp ← opened (fat32_open tiny_ops 9 0 (str "A") (str "a"));
      '(n, fp) ← fat32_write tiny_ops 9 fp [1; 2; 3];
      _ ← fat32_close tiny_ops fp;
      fp ← opened (fat32_open tiny_ops 9 0 (str "A") (str "r"));
      '(got, _) ← fat32_read tiny_ops 9 fp 515; mret (n, take 4 got, Z.of_nat (length got))))
    (fun r _ => r = (3, [1; 2; 3; 65], 512)) blank.
Proof. vm_compute. reflexivity. Qed.

(** A read of 4 bytes behind the end of the file stores 502 bytes. *)
Theorem fat32_read_past_end_overruns :
  wp (fresh_tiny (fp ← opened (fat32_open tiny_ops 9 0 (str "A") (str "w"));
      '(_, fp) ← fat32_write tiny_ops 9 fp [1; 2; 3];
      '(p, fp) ← fat32_seek tiny_ops fp 10 0;
      '(got, _) ← fat32_read tiny_ops 9 fp 4; mret (p, Z.of_nat (length got))))
    (fun r _ => r = (10, 502)) blank.
Proof. vm_compute. reflexivity. Qed.

(** Deleting leaves the long-name entries behind: the next file takes the freed
    slot, is found under the deleted name and not under its own. *)
Theorem fat32_delete_leaves_long_name :
  wp (fresh_tiny (_ ← fat32_create tiny_ops 9 0 (str "longfilename.txt") 32;
      rc ← fat32_delete tiny_ops 9 0 (str "longfilename.txt");
      c ← fat32_create tiny_ops 9 0 (str "B.TXT") 32;
      own ← fat32_find tiny_ops 9 0 (str "B.TXT");
      old ← fat32_find tiny_ops 9 0 (str "longfilename.txt");
      mret (rc, i_first_cluster <$> c, i_first_cluster <$> own, i_first_cluster <$> old)))
    (fun r _ => r = (0, Some 3, None, Some 3)) blank.
Proof. vm_compute. reflexivity. Qed.

(** A name of 200 characters needs 17 slots where a cluster of 512 bytes has 16:
    creation extends the directory until no cluster is free, and fails. *)
Theorem fat32_long_name_fills_volume :
  wp (fresh_tiny (before ← fat32_count_free tiny_ops;
      c ← fat32_create tiny_ops 99 0 (replicate 200 97) 32;
      after ← fat32_count_free tiny_ops; mret (before, c, after)))
    (fun r _ => r = (63, None, 0)) blank.
Proof. vm_compute. reflexivity. Qed.

(** Closing a file does not flush the table: after a crash its cluster is free,
    while its directory entry is on the device. *)
Theorem fat32_close_does_not_flush :
  wp (fresh_tiny (fp ← opened (fat32_open tiny_ops 9 0 (str "A") (str "w"));
      '(_, fp) ← fat32_write tiny_ops 9 fp [1; 2; 3];
      _ ← fat32_close tiny_ops fp;
      _ ← fat32_mount tiny_ops;
      found ← fat32_find tiny_ops 9 0 (str "A");
      e ← fat_read_entry tiny_ops 3; mret (i_first_cluster <$> found, e)))
    (fun r _ => r = (Some 3, Some 0)) blank.
Proof. vm_compute. reflexivity. Qed.
