(* ===== verification/Heap.v ===== *)
(** * The kernel heap

    [kernel/memory.c]: a page allocator, 512 buckets of small free blocks, one
    free list, red zones.

    The heap controller is a record; the blocks and the links between free blocks
    live in byte-addressed memory, a function from addresses to bytes whose
    initial contents are arbitrary.  0 is NULL.  List walks take fuel, one unit
    per node; [None] is a walk that ran out of it.  Each call is one step: the
    spin lock has no counterpart. *)

From S2P Require Import Prelude.
Open Scope Z_scope.

Definition MEM_PAG_SIZE : Z := 4096.
Definition MEM_HEAP_HASH_SIZE : Z := 512.
Definition MEM_USED_SIGNATURE : Z := 3735928559.
Definition MEM_UNUSED_SIGNATURE : Z := 3405691582.
Definition MEM_RED_ZONE_SIZE : Z := 16.
Definition MEM_CANARY_FRONT : Z := 3135025120.
Definition MEM_CANARY_BACK : Z := 3735928544.
Definition HEAP_CTRL_SIGNATURE : Z := 1592639710.
(** [sizeof (CMemUsed)] and [sizeof (CHeapCtrl)]. *)
Definition HEADER : Z := 16.
Definition CTRL : Z := 4144.

(** ** Memory *)

Definition memory : Type := Z -> Z.
Definition get_bytes (m : memory) (a : Z) (n : nat) : list Z := (fun i => m (a + Z.of_nat i)) <$> seq 0 n.
Definition put_mem (m : memory) (a : Z) (bs : list Z) : memory := fun x =>
  if (a <=? x) && (x <? a + Z.of_nat (length bs)) then default 0 (bs !! Z.to_nat (x - a)) else m x.
Definition get32 (m : memory) (a : Z) : Z := le_dec (get_bytes m a 4).
Definition put32 (m : memory) (a v : Z) : memory := put_mem m a (le_enc 4 v).
Definition get64 (m : memory) (a : Z) : Z := le_dec (get_bytes m a 8).
Definition put64 (m : memory) (a v : Z) : memory := put_mem m a (le_enc 8 v).

(** The header of a block: [signature], [size] and, of a free one, [next]. *)
Definition sig (m : memory) (b : Z) : Z := get32 m b.
Definition size (m : memory) (b : Z) : Z := get32 m (b + 4).
Definition next (m : memory) (b : Z) : Z := get64 m (b + 8).

Record heap := {
  h_base : Z;                 (* g_heap_base, also g_heap *)
  h_total : Z;                (* g_heap_total *)
  h_next_page : Z;
  h_end : Z;
  h_sig : Z;                  (* hc_signature *)
  h_hash : list Z;            (* heap_hash, 512 pointers *)
  h_free : Z;                 (* malloc_free_list.next *)
  h_used : Z;                 (* used_size *)
  h_max : Z;                  (* max_size *)
  h_mem : memory }.

Definition set_mem (h : heap) (m : memory) : heap :=
  {| h_base := h_base h; h_total := h_total h; h_next_page := h_next_page h; h_end := h_end h;
     h_sig := h_sig h; h_hash := h_hash h; h_free := h_free h; h_used := h_used h; h_max := h_max h;
     h_mem := m |}.
Definition set_lists (h : heap) (hash : list Z) (free : Z) (m : memory) : heap :=
  {| h_base := h_base h; h_total := h_total h; h_next_page := h_next_page h; h_end := h_end h;
     h_sig := h_sig h; h_hash := hash; h_free := free; h_used := h_used h; h_max := h_max h;
     h_mem := m |}.
Definition set_used (h : heap) (used : Z) : heap :=
  {| h_base := h_base h; h_total := h_total h; h_next_page := h_next_page h; h_end := h_end h;
     h_sig := h_sig h; h_hash := h_hash h; h_free := h_free h; h_used := used; h_max := h_max h;
     h_mem := h_mem h |}.
Definition set_next_page (h : heap) (p : Z) : heap :=
  {| h_base := h_base h; h_total := h_total h; h_next_page := p; h_end := h_end h;
     h_sig := h_sig h; h_hash := h_hash h; h_free := h_free h; h_used := h_used h; h_max := h_max h;
     h_mem := h_mem h |}.

(** ** Red zones *)

Definition fill32 (m : memory) (a v : Z) : memory :=
  foldl (fun m i => put32 m (a + 4 * Z.of_nat i) v) m (seq 0 4).
Definition all32 (m : memory) (a v : Z) : bool :=
  forallb (fun i => get32 m (a + 4 * Z.of_nat i) =? v) (seq 0 4).

Definition user_bytes (m : memory) (mu : Z) : Z := u64 (size m mu - HEADER - 2 * MEM_RED_ZONE_SIZE).
Definition back_zone (m : memory) (mu : Z) : Z := u64 (mu + HEADER + MEM_RED_ZONE_SIZE + user_bytes m mu).

Definition write_canaries (m : memory) (mu : Z) : memory :=
  let m' := fill32 m (mu + HEADER) MEM_CANARY_FRONT in
  fill32 m' (back_zone m' mu) MEM_CANARY_BACK.
Definition check_canaries (m : memory) (mu : Z) : Z :=
  if negb (all32 m (mu + HEADER) MEM_CANARY_FRONT) then -1
  else if negb (all32 m (back_zone m mu) MEM_CANARY_BACK) then -1 else 0.

(** ** Pages and start-up *)

Definition alloc_pages (h : heap) (n_pages : Z) : option Z * heap :=
  let bytes := u64 (n_pages * MEM_PAG_SIZE) in
  if h_next_page h + bytes >? h_end h then (None, h)
  else (Some (h_next_page h), set_next_page h (h_next_page h + bytes)).

(** [base] is the memory the heap is given, with its contents [m]; [None] for -1. *)
Definition mem_init (base : option Z) (m : memory) (total_bytes : Z) : option heap :=
  match base with
  | None => None
  | Some b =>
      let h := {| h_base := b; h_total := total_bytes; h_next_page := b; h_end := b + total_bytes;
                  h_sig := 0; h_hash := []; h_free := 0; h_used := 0; h_max := 0; h_mem := m |} in
      let '(p, h) := alloc_pages h ((CTRL + MEM_PAG_SIZE - 1) / MEM_PAG_SIZE) in
      match p with
      | None => None
      | Some _ =>
          Some {| h_base := b; h_total := total_bytes; h_next_page := h_next_page h; h_end := h_end h;
                  h_sig := HEAP_CTRL_SIGNATURE; h_hash := replicate (Z.to_nat MEM_HEAP_HASH_SIZE) 0;
                  h_free := 0; h_used := 0; h_max := u64 (total_bytes - MEM_PAG_SIZE); h_mem := m |}
      end
  end.

(** ** Allocation *)

Definition round_total (sz : Z) : Z :=
  let sz := if sz =? 0 then 1 else sz in
  Z.land (u64 (u64 (sz + HEADER + 2 * MEM_RED_ZONE_SIZE) + 15)) (u64 (Z.lnot 15)).

(** Store to [*prev_ptr]: the head of the free list, or the link of a block. *)
Definition relink (h : heap) (prev : option Z) (v : Z) : heap :=
  match prev with
  | None => set_lists h (h_hash h) v (h_mem h)
  | Some p => set_mem h (put64 (h_mem h) (p + 8) v)
  end.

(** The walk of the free list: [Some None] when no block is large enough. *)
Fixpoint first_fit (fuel : nat) (h : heap) (prev : option Z) (cur total : Z) : option (option (Z * heap)) :=
  if cur =? 0 then Some None else
  match fuel with
  | O => None
  | S fuel =>
      if size (h_mem h) cur >=? total then Some (Some (cur, relink h prev (next (h_mem h) cur)))
      else first_fit fuel h (Some cur) (next (h_mem h) cur) total
  end.

(** Label [found]: claim the block, split it, guard it, count it. *)
Definition claim (h : heap) (mu total : Z) : Z * heap :=
  let m := put32 (h_mem h) mu MEM_USED_SIGNATURE in
  let h :=
    if size m mu >? total then
      let h' :=
        if size m mu >? u64 (total + HEADER + 16) then
          let rem := mu + total in
          let m := put32 m rem MEM_UNUSED_SIGNATURE in
          let m := put32 m (rem + 4) (u32 (size m mu - total)) in
          let m := put64 m (rem + 8) 0 in
          let m := put64 m (rem + 8) (h_free h) in
          set_lists h (h_hash h) rem m
        else set_mem h m in
      set_mem h' (put32 (h_mem h') (mu + 4) (u32 total))
    else set_mem h m in
  let h := set_mem h (write_canaries (h_mem h) mu) in
  (mu + HEADER + MEM_RED_ZONE_SIZE, set_used h (u64 (h_used h + size (h_mem h) mu))).

Definition mem_alloc (fuel : nat) (h : heap) (sz : Z) : option (Z * heap) :=
  let total := round_total sz in
  let bucket := if total <? MEM_HEAP_HASH_SIZE then default 0 (h_hash h !! Z.to_nat total) else 0 in
  if negb (bucket =? 0) then
    Some (claim (set_lists h (<[Z.to_nat total := next (h_mem h) bucket]> (h_hash h)) (h_free h) (h_mem h))
            bucket total)
  else
    r ← first_fit fuel h None (h_free h) total;
    match r with
    | Some (mu, h) => Some (claim h mu total)
    | None =>
        let n_pages := u64 (total + MEM_PAG_SIZE - 1) / MEM_PAG_SIZE in
        let '(p, h) := alloc_pages h n_pages in
        match p with
        | None => Some (0, h)
        | Some mu =>
            Some (claim (set_mem h (put32 (h_mem h) (mu + 4) (u32 (n_pages * MEM_PAG_SIZE)))) mu total)
        end
    end.

Definition mem_calloc (fuel : nat) (h : heap) (count sz : Z) : option (Z * heap) :=
  let total := u64 (count * sz) in
  '(p, h) ← mem_alloc fuel h total;
  Some (p, if p =? 0 then h else set_mem h (put_mem (h_mem h) p (replicate (Z.to_nat total) 0))).

(** ** Freeing *)

(** [while (c && c != nu) { p = c; c = c->next; }], then unlink [nu] if found:
    the new head, the new memory. *)
Fixpoint unlink (fuel : nat) (m : memory) (head : Z) (p : option Z) (c nu : Z) : option (Z * memory) :=
  if c =? 0 then Some (head, m) else
  if c =? nu then
    Some (match p with
          | Some p => (head, put64 m (p + 8) (next m c))
          | None => (next m c, m)
          end)
  else match fuel with O => None | S fuel => unlink fuel m head (Some c) (next m c) nu end.

(** Coalesce with the block behind [mu] when it is free. *)
Definition coalesce (fuel : nat) (h : heap) (mu : Z) : option heap :=
  let m := h_mem h in
  let nxt := mu + size m mu in
  if (nxt <? h_base h + CTRL + h_max h) && (sig m nxt =? MEM_UNUSED_SIGNATURE) then
    h ← (if size m nxt <? MEM_HEAP_HASH_SIZE then
           let k := Z.to_nat (size m nxt) in
           let head := default 0 (h_hash h !! k) in
           '(head, m) ← unlink fuel m head None head nxt;
           Some (set_lists h (<[k := head]> (h_hash h)) (h_free h) m)
         else
           '(head, m) ← unlink fuel m (h_free h) None (h_free h) nxt;
           Some (set_lists h (h_hash h) head m));
    let m := h_mem h in
    Some (set_mem h (put32 m (mu + 4) (u32 (size m mu + size m nxt))))
  else Some h.

Definition push_free (h : heap) (mu : Z) : heap :=
  let m := h_mem h in
  if size m mu <? MEM_HEAP_HASH_SIZE then
    let k := Z.to_nat (size m mu) in
    set_lists h (<[k := mu]> (h_hash h)) (h_free h) (put64 m (mu + 8) (default 0 (h_hash h !! k)))
  else set_lists h (h_hash h) mu (put64 m (mu + 8) (h_free h)).

Definition mem_free (fuel : nat) (h : heap) (ptr : Z) : option heap :=
  if ptr =? 0 then Some h else
  let mu := ptr - MEM_RED_ZONE_SIZE - HEADER in
  if negb (sig (h_mem h) mu =? MEM_USED_SIGNATURE) then Some h else
  let h := set_used h (u64 (h_used h - size (h_mem h) mu)) in
  let h := set_mem h (put64 (put32 (h_mem h) mu MEM_UNUSED_SIGNATURE) (mu + 8) 0) in
  h ← coalesce fuel h mu;
  Some (push_free h mu).

Definition mem_realloc (fuel : nat) (h : heap) (ptr new_size : Z) : option (Z * heap) :=
  if ptr =? 0 then mem_alloc fuel h new_size else
  if new_size =? 0 then h ← mem_free fuel h ptr; Some (0, h) else
  let mu := ptr - MEM_RED_ZONE_SIZE - HEADER in
  let old_usable := u64 (size (h_mem h) mu - (HEADER + MEM_RED_ZONE_SIZE) - MEM_RED_ZONE_SIZE) in
  let copy_size := if old_usable <? new_size then old_usable else new_size in
  '(new_ptr, h) ← mem_alloc fuel h new_size;
  if new_ptr =? 0 then Some (0, h) else
  let h := set_mem h (put_mem (h_mem h) new_ptr (get_bytes (h_mem h) ptr (Z.to_nat copy_size))) in
  h ← mem_free fuel h ptr;
  Some (new_ptr, h).

(** ** Diagnostics *)

Definition mem_used (h : heap) : Z := h_used h.
Definition mem_available (h : heap) : Z := u64 (h_max h - h_used h).
Definition mem_validate (h : heap) : Z := if negb (h_sig h =? HEAP_CTRL_SIGNATURE) then -1 else 0.
Definition mem_check_redzones (h : heap) (ptr : Z) : Z :=
  if ptr =? 0 then -1 else
  let mu := ptr - MEM_RED_ZONE_SIZE - HEADER in
  if negb (sig (h_mem h) mu =? MEM_USED_SIGNATURE) then -1 else check_canaries (h_mem h) mu.

(** Corrupt blocks on one list. *)
Fixpoint count_corrupt (fuel : nat) (m : memory) (u corrupt : Z) : option Z :=
  if u =? 0 then Some corrupt else
  match fuel with
  | O => None
  | S fuel =>
      count_corrupt fuel m (next m u)
        (if (sig m u =? MEM_USED_SIGNATURE) && negb (check_canaries m u =? 0) then corrupt + 1 else corrupt)
  end.
Definition mem_validate_all (fuel : nat) (h : heap) : option Z :=
  c ← foldl (fun c u => c ← c; count_corrupt fuel (h_mem h) u c) (Some 0) (h_hash h);
  count_corrupt fuel (h_mem h) (h_free h) c.

(** Pairs of adjacent free blocks, by a walk over the heap from [hc + CTRL]. *)
Fixpoint walk_adjacent (fuel : nat) (h : heap) (walk adjacent_free : Z) : option Z :=
  let m := h_mem h in
  let e := h_base h + CTRL + h_max h in
  if walk <? e then
    match fuel with
    | O => None
    | S fuel =>
        if (size m walk =? 0) || (size m walk >? h_max h) then Some adjacent_free else
        let nx := walk + size m walk in
        walk_adjacent fuel h nx
          (if (nx <? e) && (sig m walk =? MEM_UNUSED_SIGNATURE) && (sig m nx =? MEM_UNUSED_SIGNATURE)
           then adjacent_free + 1 else adjacent_free)
    end
  else Some adjacent_free.
Definition mem_validate_coalescing (fuel : nat) (h : heap) : option Z :=
  walk_adjacent fuel h (h_base h + CTRL) 0.

(** The scan for signatures: the blocks reported, every 8 bytes from the first
    aligned address behind the controller. *)
Definition align8 (a : Z) : Z := Z.land (a + 7) (Z.lnot 7).
Definition plausible (h : heap) (mu : Z) : bool :=
  (size (h_mem h) mu >=? HEADER) && (size (h_mem h) mu <? h_total h) && (mu + size (h_mem h) mu <=? h_end h).
Fixpoint bloom (fuel : nat) (h : heap) (target scan : Z) : option (list Z) :=
  if scan + 4 <=? h_end h then
    match fuel with
    | O => None
    | S fuel =>
        if (sig (h_mem h) scan =? target) && plausible h scan then
          found ← bloom fuel h target (align8 (scan + size (h_mem h) scan)); Some (scan :: found)
        else if (scan + 12 <=? h_end h) && (get32 (h_mem h) (scan + 8) =? target) then
          found ← bloom fuel h target (align8 (scan + 48)); Some (scan :: found)
        else bloom fuel h target (scan + 8)
    end
  else Some [].
Definition mem_bloom_scan (fuel : nat) (h : heap) (target : Z) : option (list Z) :=
  bloom fuel h target (align8 (h_base h + CTRL)).
Fixpoint walk_used (fuel : nat) (h : heap) (scan : Z) : option (list (Z * Z)) :=
  if scan + 4 <=? h_end h then
    match fuel with
    | O => None
    | S fuel =>
        if (sig (h_mem h) scan =? MEM_USED_SIGNATURE) && plausible h scan then
          found ← walk_used fuel h (align8 (scan + size (h_mem h) scan));
          Some ((scan + HEADER + MEM_RED_ZONE_SIZE, user_bytes (h_mem h) scan) :: found)
        else walk_used fuel h (scan + 8)
    end
  else Some [].
Definition mem_walk (fuel : nat) (h : heap) : option (list (Z * Z)) :=
  walk_used fuel h (align8 (h_base h + CTRL)).

(** Bytes in used blocks, used blocks, free-looking blocks. *)
Fixpoint stats (fuel : nat) (h : heap) (scan : Z) (acc : Z * Z * Z) : option (Z * Z * Z) :=
  if scan + 4 <=? h_end h then
    match fuel with
    | O => None
    | S fuel =>
        let '(used_sz, nu, nf) := acc in
        if (sig (h_mem h) scan =? MEM_USED_SIGNATURE) && plausible h scan then
          stats fuel h (align8 (scan + size (h_mem h) scan)) (used_sz + size (h_mem h) scan, nu + 1, nf)
        else if (scan + 12 <=? h_end h) && (get32 (h_mem h) (scan + 8) =? MEM_UNUSED_SIGNATURE) then
          stats fuel h (align8 (scan + 48)) (used_sz, nu, nf + 1)
        else stats fuel h (scan + 8) acc
    end
  else Some acc.
Definition mem_walk_stats (fuel : nat) (h : heap) : option (Z * Z * Z) :=
  stats fuel h (align8 (h_base h + CTRL)) (0, 0, 0).
