(* ===== verification/HeapFacts.v ===== *)
(** * Properties of the kernel heap

    The blocks of a heap as a map, the linked lists of its free blocks, and what
    allocating and freeing do to them. *)

From stdpp Require Import gmap fin_maps.
From S2P Require Import Prelude Heap.
Open Scope Z_scope.

(** ** Memory *)

Lemma get_bytes_length m a n : length (get_bytes m a n) = n.
Proof. unfold get_bytes. by rewrite length_fmap, length_seq. Qed.

(** [m'] differs from [m] only inside [lo, hi). *)
Definition same_out (m m' : memory) (lo hi : Z) : Prop := forall x, ~ lo <= x < hi -> m' x = m x.

Lemma same_out_refl m lo hi : same_out m m lo hi.
Proof. done. Qed.
Lemma same_out_trans m1 m2 m3 lo hi : same_out m1 m2 lo hi -> same_out m2 m3 lo hi -> same_out m1 m3 lo hi.
Proof. intros H1 H2 x Hx. by rewrite H2, H1. Qed.
Lemma same_out_sub m m' lo hi lo' hi' : lo' <= lo -> hi <= hi' -> same_out m m' lo hi -> same_out m m' lo' hi'.
Proof. intros H1 H2 H x Hx. apply H. lia. Qed.

Lemma put_mem_out m a bs : same_out m (put_mem m a bs) a (a + Z.of_nat (length bs)).
Proof. intros x Hx. unfold put_mem. destruct (Z.leb_spec a x), (Z.ltb_spec x (a + Z.of_nat (length bs))); cbn; (done || lia). Qed.
Lemma put32_out m a v : same_out m (put32 m a v) a (a + 4).
Proof. exact (put_mem_out m a (le_enc 4 v)). Qed.
Lemma put64_out m a v : same_out m (put64 m a v) a (a + 8).
Proof. exact (put_mem_out m a (le_enc 8 v)). Qed.

Lemma get_bytes_frame m m' lo hi a n :
  same_out m m' lo hi -> a + Z.of_nat n <= lo \/ hi <= a -> get_bytes m' a n = get_bytes m a n.
Proof.
  intros H Ha. unfold get_bytes. apply list_fmap_ext. intros i k Hk. apply lookup_seq in Hk as [-> Hk].
  apply H. lia.
Qed.
Lemma get32_frame m m' lo hi a : same_out m m' lo hi -> a + 4 <= lo \/ hi <= a -> get32 m' a = get32 m a.
Proof. intros H Ha. unfold get32. by rewrite (get_bytes_frame m m' lo hi). Qed.
Lemma get64_frame m m' lo hi a : same_out m m' lo hi -> a + 8 <= lo \/ hi <= a -> get64 m' a = get64 m a.
Proof. intros H Ha. unfold get64. by rewrite (get_bytes_frame m m' lo hi). Qed.

Lemma get_put_bytes m a bs : get_bytes (put_mem m a bs) a (length bs) = bs.
Proof.
  apply list_eq. intros i. unfold get_bytes. rewrite list_lookup_fmap.
  destruct (decide (i < length bs)%nat) as [Hi|Hi].
  - rewrite lookup_seq_lt by done. cbn [fmap option_fmap option_map]. unfold put_mem.
    destruct (Z.leb_spec a (a + Z.of_nat (0 + i))); [|lia].
    destruct (Z.ltb_spec (a + Z.of_nat (0 + i)) (a + Z.of_nat (length bs))); [|lia]. cbn [andb].
    replace (Z.to_nat (a + Z.of_nat (0 + i) - a)) with i by lia.
    destruct (lookup_lt_is_Some_2 bs i Hi) as [x ->]. done.
  - rewrite lookup_seq_ge by lia. cbn. symmetry. apply lookup_ge_None. lia.
Qed.
Lemma get32_put32 m a v : get32 (put32 m a v) a = u32 v.
Proof.
  unfold get32, put32. pose proof (get_put_bytes m a (le_enc 4 v)) as E. rewrite length_le_enc in E. rewrite E.
  apply le_dec_enc.
Qed.
Lemma get64_put64 m a v : get64 (put64 m a v) a = u64 v.
Proof.
  unfold get64, put64. pose proof (get_put_bytes m a (le_enc 8 v)) as E. rewrite length_le_enc in E. rewrite E.
  apply le_dec_enc.
Qed.
Lemma get32_put32_ne m a b v : b + 4 <= a \/ a + 4 <= b -> get32 (put32 m a v) b = get32 m b.
Proof. intros. eapply get32_frame; [apply put32_out|lia]. Qed.
Lemma get32_put64_ne m a b v : b + 4 <= a \/ a + 8 <= b -> get32 (put64 m a v) b = get32 m b.
Proof. intros. eapply get32_frame; [apply put64_out|lia]. Qed.
Lemma get64_put32_ne m a b v : b + 8 <= a \/ a + 4 <= b -> get64 (put32 m a v) b = get64 m b.
Proof. intros. eapply get64_frame; [apply put32_out|lia]. Qed.
Lemma get64_put64_ne m a b v : b + 8 <= a \/ a + 8 <= b -> get64 (put64 m a v) b = get64 m b.
Proof. intros. eapply get64_frame; [apply put64_out|lia]. Qed.

(** Reads behind a few stores. *)
Ltac mem_simp :=
  repeat first
    [ rewrite get32_put32_ne by lia | rewrite get32_put64_ne by lia | rewrite get64_put32_ne by lia
    | rewrite get64_put64_ne by lia | rewrite get32_put32 | rewrite get64_put64 ].

Lemma fill32_out m a v : same_out m (fill32 m a v) a (a + 16).
Proof.
  intros x Hx. unfold fill32. cbn [foldl seq]. by rewrite 4 (put32_out _ _ _ x) by lia.
Qed.
Lemma all32_fill32 m a v : fits 32 v -> all32 (fill32 m a v) a v = true.
Proof.
  intros Hv. unfold all32, fill32. cbn [foldl seq forallb]. rewrite !andb_true_iff.
  split_and!; try done; apply Z.eqb_eq; repeat rewrite get32_put32_ne by lia; rewrite get32_put32; by apply wrap_id.
Qed.
Lemma all32_frame m m' lo hi a v : same_out m m' lo hi -> a + 16 <= lo \/ hi <= a -> all32 m' a v = all32 m a v.
Proof.
  intros H Ha. unfold all32. cbn [seq forallb]. by rewrite 4 (get32_frame m m' lo hi) by (done || lia).
Qed.

(** ** Claiming a block *)

(** The rounded size of a request. *)
Lemma round_total_spec sz :
  0 <= sz < 2 ^ 63 ->
  let t := round_total sz in sz + 48 <= t <= sz + 64 /\ 64 <= t /\ t mod 16 = 0.
Proof.
  intros Hsz. unfold round_total, HEADER, MEM_RED_ZONE_SIZE. set (s := if sz =? 0 then 1 else sz).
  assert (sz <= s <= sz + 1 /\ 1 <= s < 2 ^ 63) as Hs by (unfold s; destruct (Z.eqb_spec sz 0); lia).
  rewrite (wrap_id 64 (s + _ + _)) by (unfold_fits; lia). rewrite (wrap_id 64 (s + 16 + 2 * 16 + 15)) by (unfold_fits; lia).
  set (x := s + 16 + 2 * 16 + 15).
  assert (Z.land x (u64 (Z.lnot 15)) = x / 16 * 16) as ->.
  { change (u64 (Z.lnot 15)) with (Z.ldiff (Z.ones 64) (Z.ones 4)).
    rewrite Z.ldiff_land, Z.land_assoc, Z.land_ones by lia. rewrite Z.mod_small by (unfold x; lia).
    rewrite <- Z.ldiff_land, Z.ldiff_ones_r by lia. rewrite Z.shiftl_mul_pow2, Z.shiftr_div_pow2 by lia. done. }
  pose proof (Z.div_mod x 16 ltac:(lia)). pose proof (Z.mod_pos_bound x 16 ltac:(lia)).
  cbn zeta. rewrite Z.mod_mul by lia. unfold x in *. lia.
Qed.

Definition canaries_ok (m : memory) (mu : Z) : Prop := check_canaries m mu = 0.

Lemma write_canaries_spec m mu s :
  0 <= mu -> mu + s < 2 ^ 64 -> 48 <= s -> size m mu = s ->
  same_out m (write_canaries m mu) (mu + 16) (mu + s) /\ canaries_ok (write_canaries m mu) mu.
Proof.
  intros H0 H1 H2 Hs. unfold write_canaries, HEADER.
  set (m1 := fill32 m (mu + 16) MEM_CANARY_FRONT).
  assert (size m1 mu = s) as Hs1.
  { rewrite <- Hs. unfold size. eapply get32_frame; [apply fill32_out|lia]. }
  assert (forall m', size m' mu = s -> back_zone m' mu = mu + s - 16) as Hback.
  { intros m' E. unfold back_zone, user_bytes, HEADER, MEM_RED_ZONE_SIZE. rewrite E.
    rewrite (wrap_id 64 (s - 16 - 2 * 16)) by (unfold_fits; lia). rewrite wrap_id by (unfold_fits; lia). lia. }
  rewrite (Hback m1 Hs1). set (m2 := fill32 m1 (mu + s - 16) MEM_CANARY_BACK).
  assert (size m2 mu = s) as Hs2.
  { rewrite <- Hs1. unfold size. eapply get32_frame; [apply fill32_out|lia]. }
  split.
  - eapply (same_out_trans _ m1); [eapply same_out_sub; [| |apply fill32_out]; lia|eapply same_out_sub; [| |apply fill32_out]; lia].
  - unfold canaries_ok, check_canaries. rewrite (Hback m2 Hs2). unfold HEADER.
    assert (all32 m2 (mu + s - 16) MEM_CANARY_BACK = true) as -> by (by apply all32_fill32; apply (bool_decide_unpack _); vm_compute).
    rewrite (all32_frame m1 m2 (mu + s - 16) (mu + s - 16 + 16)) by (apply fill32_out || lia).
    assert (all32 m1 (mu + 16) MEM_CANARY_FRONT = true) as -> by (by apply all32_fill32; apply (bool_decide_unpack _); vm_compute).
    done.
Qed.

(** What [claim] leaves of a block of [s] bytes: a block of [t], and a free
    remainder when it is large enough. *)
Record claimed (h h' : heap) (mu s t : Z) : Prop := {
  cl_out : same_out (h_mem h) (h_mem h') mu (mu + s);
  cl_sig : sig (h_mem h') mu = MEM_USED_SIGNATURE;
  cl_size : size (h_mem h') mu = t;
  cl_canaries : canaries_ok (h_mem h') mu;
  cl_same : h_base h' = h_base h /\ h_total h' = h_total h /\ h_next_page h' = h_next_page h /\
            h_end h' = h_end h /\ h_hash h' = h_hash h /\ h_max h' = h_max h;
  cl_used : h_used h' = u64 (h_used h + t);
  cl_rest : if s >? t + 32
            then h_free h' = mu + t /\ sig (h_mem h') (mu + t) = MEM_UNUSED_SIGNATURE /\
                 size (h_mem h') (mu + t) = s - t /\ next (h_mem h') (mu + t) = u64 (h_free h)
            else h_free h' = h_free h }.

Lemma claim_spec h mu s t :
  0 <= mu -> mu + s < 2 ^ 64 -> s < 2 ^ 32 -> 48 <= t <= s -> s mod 16 = 0 -> t mod 16 = 0 ->
  size (h_mem h) mu = s ->
  exists h', claim h mu t = (mu + 32, h') /\ claimed h h' mu s t.
Proof.
  intros H0 H1 H2 Ht Hs16 Ht16 Hs. unfold claim.
  set (m1 := put32 (h_mem h) mu MEM_USED_SIGNATURE).
  assert (size m1 mu = s) as Hs1 by (unfold size, m1; rewrite get32_put32_ne by lia; exact Hs).
  rewrite Hs1. rewrite (wrap_id 64 (t + HEADER + 16)) by (unfold HEADER; unfold_fits; lia).
  replace (t + HEADER + 16) with (t + 32) by (unfold HEADER; lia).
  assert (sig m1 mu = MEM_USED_SIGNATURE) as Hg1 by (unfold sig, m1; by rewrite get32_put32).
  assert (same_out (h_mem h) m1 mu (mu + s)) as Ho1 by (eapply same_out_sub; [| |apply put32_out]; lia).
  set (h1 := if s >? t then _ else _).
  assert (exists m2, h1 = set_lists h (h_hash h) (if s >? t + 32 then mu + t else h_free h) m2 /\
    same_out (h_mem h) m2 mu (mu + s) /\ sig m2 mu = MEM_USED_SIGNATURE /\ size m2 mu = t /\
    (s > t + 32 -> sig m2 (mu + t) = MEM_UNUSED_SIGNATURE /\ size m2 (mu + t) = s - t /\ next m2 (mu + t) = u64 (h_free h)))
    as (m2 & -> & Ho2 & Hg2 & Hs2 & Hrem).
  { unfold h1. clear h1. destruct (Z.gtb_spec s t) as [Hgt|Hle].
    - destruct (Z.gtb_spec s (t + 32)) as [Hgt2|Hle2]; eexists; (split; [reflexivity|]); cbn [h_mem set_lists set_mem].
      + assert (size (put32 m1 (mu + t) MEM_UNUSED_SIGNATURE) mu = s) as Hs2
          by (unfold size; rewrite get32_put32_ne by lia; exact Hs1). rewrite Hs2.
        split.
        { do 5 (eapply same_out_trans; [|eapply same_out_sub; [| |apply put32_out || apply put64_out]; lia]). exact Ho1. }
        unfold sig, size, next in *. split; [mem_simp; exact Hg1|]. split; [mem_simp; by rewrite !(wrap_id 32 t) by (unfold_fits; lia)|].
        intros _. split; [by mem_simp|]. split; [mem_simp; by rewrite !(wrap_id 32 (s - t)) by (unfold_fits; lia)|]. by mem_simp.
      + split; [eapply same_out_trans; [exact Ho1|eapply same_out_sub; [| |apply put32_out]; lia]|].
        unfold sig, size in *. rewrite get32_put32_ne by lia. split; [exact Hg1|].
        split; [rewrite get32_put32; by rewrite !(wrap_id 32 t) by (unfold_fits; lia)|lia].
    - destruct (Z.gtb_spec s (t + 32)); [lia|]. exists m1. assert (s = t) as <- by lia.
      split; [by destruct h|]. split; [done|]. split; [done|]. split; [done|lia]. }
  destruct (write_canaries_spec m2 mu t) as [Ho3 Hc3]; [lia|lia|lia|done|].
  eexists. split; [cbn [h_mem set_lists set_mem]; unfold HEADER, MEM_RED_ZONE_SIZE; f_equal; lia|].
  cbn [h_mem set_lists set_mem set_used]. set (m3 := write_canaries m2 mu) in *.
  assert (sig m3 mu = MEM_USED_SIGNATURE) as Hg3.
  { rewrite <- Hg2. unfold sig. eapply get32_frame; [exact Ho3|lia]. }
  assert (size m3 mu = t) as Hs3.
  { rewrite <- Hs2. unfold size. eapply get32_frame; [exact Ho3|lia]. }
  constructor; cbn [h_mem h_used h_free h_base h_total h_next_page h_end h_hash h_max set_lists set_mem set_used]; try done.
  - eapply same_out_trans; [exact Ho2|]. eapply same_out_sub; [| |exact Ho3]; lia.
  - by rewrite Hs3.
  - destruct (Z.gtb_spec s (t + 32)); [|done]. destruct Hrem as (R1 & R2 & R3); [lia|]. unfold sig, size, next in *.
    split; [done|]. rewrite !(get32_frame m2 m3 (mu + 16) (mu + t)), (get64_frame m2 m3 (mu + 16) (mu + t)) by (done || lia). done.
Qed.
