(* ===== verification/HeapInv.v ===== *)
(** * The heap invariant

    The blocks do not overlap, every free block's header is intact, and the
    buckets and the free list link free blocks.  Allocation keeps it; freeing
    keeps it when what follows the freed block is not mistaken for a free block
    that its list does not hold. *)

From stdpp Require Import gmap fin_maps.
From S2P Require Import Prelude Heap HeapFacts.
Open Scope Z_scope.

(** A linked list in memory. *)
Fixpoint is_list (m : memory) (p : Z) (l : list Z) : Prop :=
  match l with
  | [] => p = 0
  | b :: l => p = b /\ b <> 0 /\ is_list m (next m b) l
  end.

Lemma is_list_frame m m' l : forall p,
  (forall b, b ∈ l -> next m' b = next m b) -> is_list m p l -> is_list m' p l.
Proof.
  induction l as [|b l IH]; intros p H Hl; [done|]. destruct Hl as (-> & Hb & Hl). split; [done|]. split; [done|].
  rewrite H by set_solver. apply IH; [set_solver|done].
Qed.

Lemma is_list_head m p l : is_list m p l -> p = default 0 (l !! 0%nat).
Proof. destruct l; [done|]. by intros (-> & _). Qed.

(** The blocks: address, size, and whether it is in use. *)
Abbreviation blocks := (gmap Z (Z * bool)).

Definition apart (b s b' s' : Z) : Prop := b + s <= b' \/ b' + s' <= b.

Record inv (h : heap) (B : blocks) (hl : Z -> list Z) (fl : list Z) : Prop := {
  in_geom : 0 < h_base h /\ h_base h mod 16 = 0 /\ h_base h + 8192 <= h_next_page h <= h_end h /\
            h_next_page h mod 16 = 0 /\ h_end h = h_base h + h_total h /\ h_total h < 2 ^ 32 /\
            h_end h < 2 ^ 63 /\ h_max h = h_total h - 4096;
  in_hash : length (h_hash h) = 512%nat;
  in_block : forall (b s : Z) (u : bool), B !! b = Some (s, u) ->
    h_base h + 8192 <= b /\ b mod 16 = 0 /\ 48 <= s /\ s mod 16 = 0 /\ b + s <= h_next_page h;
  in_apart : forall (b s : Z) (u : bool) (b' s' : Z) (u' : bool), B !! b = Some (s, u) -> B !! b' = Some (s', u') -> b <> b' -> apart b s b' s';
  in_head : forall (b s : Z) (u : bool), B !! b = Some (s, u) ->
    sig (h_mem h) b = (if u then MEM_USED_SIGNATURE else MEM_UNUSED_SIGNATURE) /\ size (h_mem h) b = s;
  in_buckets : forall k, 0 <= k < 512 -> is_list (h_mem h) (default 0 (h_hash h !! Z.to_nat k)) (hl k);
  in_list : is_list (h_mem h) (h_free h) fl;
  in_bucket_block : forall k b : Z, 0 <= k < 512 -> b ∈ hl k -> B !! b = Some (k, false);
  in_list_block : forall b : Z, b ∈ fl -> exists s, B !! b = Some (s, false);
  in_nodup : NoDup fl /\ (forall k, 0 <= k < 512 -> NoDup (hl k)) /\
             (forall k b : Z, 0 <= k < 512 -> b ∈ hl k -> b ∉ fl) }.

(** A hole: [s] bytes at [mu] that belong to no block and no list. *)
Record hole (h : heap) (B : blocks) (hl : Z -> list Z) (fl : list Z) (mu s : Z) : Prop := {
  ho_inv : inv h B hl fl;
  ho_range : h_base h + 8192 <= mu /\ mu mod 16 = 0 /\ 48 <= s /\ s mod 16 = 0 /\ mu + s <= h_next_page h;
  ho_none : B !! mu = None;
  ho_apart : forall (b t : Z) (u : bool), B !! b = Some (t, u) -> apart b t mu s;
  ho_size : size (h_mem h) mu = s }.

(** Changing memory outside all blocks changes nothing they hold. *)
Lemma head_frame h B hl fl m' lo hi b s u :
  inv h B hl fl -> same_out (h_mem h) m' lo hi -> B !! b = Some (s, u) -> apart b s lo (hi - lo) ->
  sig m' b = sig (h_mem h) b /\ size m' b = size (h_mem h) b /\ next m' b = next (h_mem h) b.
Proof.
  intros Hi Ho Hb Ha. destruct (in_block _ _ _ _ Hi _ _ _ Hb) as (_ & _ & Hs & _ & _). unfold apart in Ha.
  unfold sig, size, next. rewrite !(get32_frame (h_mem h) m' lo hi), (get64_frame (h_mem h) m' lo hi) by (done || lia). done.
Qed.

(** The same heap with other memory, where all blocks are untouched. *)
Lemma inv_frame h h' B hl fl lo hi :
  inv h B hl fl -> same_out (h_mem h) (h_mem h') lo hi ->
  (forall (b s : Z) (u : bool), B !! b = Some (s, u) -> apart b s lo (hi - lo)) ->
  h_base h' = h_base h -> h_total h' = h_total h -> h_next_page h' = h_next_page h -> h_end h' = h_end h ->
  h_hash h' = h_hash h -> h_free h' = h_free h -> h_max h' = h_max h ->
  inv h' B hl fl.
Proof.
  intros Hi Ho Ha E1 E2 E3 E4 E5 E6 E7. pose proof Hi as [A1 A2 A3 A4 A5 A6 A7 A8 A9 A10].
  assert (forall b, b ∈ fl -> next (h_mem h') b = next (h_mem h) b) as Hfl.
  { intros b Hb. destruct (A9 b Hb) as [s Hs]. by eapply head_frame; [exact Hi|exact Ho|exact Hs|eapply Ha]. }
  constructor; rewrite ?E1, ?E2, ?E3, ?E4, ?E5, ?E6, ?E7; try done.
  - intros b s u Hb. destruct (head_frame h B hl fl (h_mem h') lo hi b s u) as (-> & -> & _); eauto.
  - intros k Hk. apply (is_list_frame (h_mem h)); [|by apply A6]. intros b Hb.
    eapply head_frame; [exact Hi|exact Ho|by eapply A8|eapply Ha; by eapply A8].
  - by apply (is_list_frame (h_mem h)).
Qed.

(** ** Removing a node from a list *)

(** Store [v] where the walk came from: the head, or the link of the last node. *)
Definition relinkm (m : memory) (head : Z) (prev : option Z) (v : Z) : Z * memory :=
  match prev with None => (v, m) | Some p => (head, put64 m (p + 8) v) end.

Lemma relink_eq h prev v :
  relink h prev v = let '(hd, m) := relinkm (h_mem h) (h_free h) prev v in set_lists h (h_hash h) hd m.
Proof. destruct prev; cbn; [by destruct h|done]. Qed.

Lemma is_list_skip m m' x b l2 l1 : forall p,
  is_list m p (l1 ++ x :: b :: l2) -> (forall y, y ∈ l1 -> next m' y = next m y) ->
  next m' x = next m b -> is_list m' (next m b) l2 -> is_list m' p (l1 ++ x :: l2).
Proof.
  induction l1 as [|y l1 IH]; intros p Hl Hn Hx Hl2.
  - destruct Hl as (-> & Hx0 & _). split; [done|]. split; [done|]. by rewrite Hx.
  - destruct Hl as (-> & Hy & Hl). split; [done|]. split; [done|]. rewrite Hn by set_solver.
    apply IH; [done|set_solver|done|done].
Qed.

Lemma is_list_tail m l1 : forall p x l2, is_list m p (l1 ++ x :: l2) -> is_list m (next m x) l2.
Proof. induction l1 as [|y l1 IH]; intros p x l2 Hl; destruct Hl as (-> & _ & Hl); [done|]. by eapply IH. Qed.

(** Nodes are addresses of headers that do not overlap. *)
Definition nodes_ok (l : list Z) : Prop :=
  NoDup l /\ (forall x, x ∈ l -> 0 < x < 2 ^ 64) /\ forall x y, x ∈ l -> y ∈ l -> x <> y -> x + 16 <= y \/ y + 16 <= x.

Lemma relinkm_spec m p l1 b l2 :
  is_list m p (l1 ++ b :: l2) -> nodes_ok (l1 ++ b :: l2) ->
  let '(p', m') := relinkm m p (last l1) (next m b) in
  is_list m' p' (l1 ++ l2) /\
  match last l1 with None => m' = m | Some x => x ∈ l1 /\ same_out m m' (x + 8) (x + 16) end.
Proof.
  intros Hl (Hnd & Hpos & Hapart). destruct l1 as [|x l1 _] using rev_ind.
  - cbn. destruct Hl as (-> & _ & Hl). done.
  - rewrite last_snoc. cbn [relinkm]. rewrite <- !app_assoc in *. cbn [app] in *.
    pose proof (is_list_tail _ (l1 ++ [x]) p b l2 ltac:(by rewrite <- app_assoc)) as Ht.
    set (m' := put64 m (x + 8) (next m b)).
    assert (same_out m m' (x + 8) (x + 16)) as Ho.
    { eapply same_out_sub; [| |apply put64_out]; lia. }
    assert (forall y, y ∈ l1 ++ x :: b :: l2 -> y <> x -> next m' y = next m y) as Hn.
    { intros y Hy Hne. unfold next. eapply get64_frame; [exact Ho|]. destruct (Hapart y x Hy ltac:(set_solver) Hne); lia. }
    apply NoDup_app in Hnd as (Hnd1 & Hdis & Hnd2). apply NoDup_cons in Hnd2 as [Hx2 Hnd2].
    assert (fits 64 (next m b)) as Hfit.
    { destruct l2 as [|y l2]; [cbn [is_list] in Ht; rewrite Ht; by apply (bool_decide_unpack _); vm_compute|].
      destruct Ht as (-> & _ & _). specialize (Hpos y ltac:(set_solver)). unfold_fits. lia. }
    split; [|split; [set_solver|done]]. eapply is_list_skip; [exact Hl| | |].
    + intros y Hy. apply Hn; [set_solver|]. intros ->. by apply (Hdis x Hy); set_solver.
    + unfold next at 1, m'. rewrite get64_put64. by apply wrap_id.
    + apply (is_list_frame m); [|done]. intros y Hy. apply Hn; [set_solver|]. intros ->. set_solver.
Qed.

(** ** The walks *)

Lemma first_fit_spec h total post : forall fuel pre,
  is_list (h_mem h) (default 0 (post !! 0%nat)) post -> (length post <= fuel)%nat ->
  let cur := default 0 (post !! 0%nat) in
  (first_fit fuel h (last pre) cur total = Some None /\ forall b, b ∈ post -> size (h_mem h) b < total) \/
  exists l1 b l2, pre ++ post = l1 ++ b :: l2 /\ total <= size (h_mem h) b /\
    first_fit fuel h (last pre) cur total = Some (Some (b, relink h (last l1) (next (h_mem h) b))).
Proof.
  induction post as [|b post IH]; intros fuel pre Hl Hf cur.
  - left. split; [by destruct fuel|set_solver].
  - destruct fuel as [|fuel]; [cbn in Hf; lia|]. cbn in cur. destruct Hl as (_ & Hb & Hl).
    cbn [first_fit]. unfold cur. destruct (Z.eqb_spec b 0); [done|].
    destruct (Z.geb_spec (size (h_mem h) b) total) as [Hge|Hlt].
    + right. by exists pre, b, post.
    + pose proof (is_list_head _ _ _ Hl) as Eh. rewrite Eh in Hl.
      destruct (IH fuel (pre ++ [b]) Hl ltac:(cbn in Hf; lia)) as [[H1 H2]|(l1 & b' & l2 & H1 & H2 & H3)];
        rewrite last_snoc, <- Eh in *.
      * left. split; [done|]. intros y [->|Hy]%elem_of_cons; [lia|by apply H2].
      * right. exists l1, b', l2. rewrite <- app_assoc in H1. done.
Qed.

Lemma unlink_spec m head b post : forall fuel pre,
  is_list m (default 0 (post !! 0%nat)) post -> (length post <= fuel)%nat -> b ∈ post -> b ∉ pre ->
  exists l1 l2, pre ++ post = l1 ++ b :: l2 /\
    unlink fuel m head (last pre) (default 0 (post !! 0%nat)) b = Some (relinkm m head (last l1) (next m b)).
Proof.
  induction post as [|c post IH]; intros fuel pre Hl Hf Hin Hni; [set_solver|].
  destruct fuel as [|fuel]; [cbn in Hf; lia|]. destruct Hl as (_ & Hc & Hl).
  change (default 0 ((c :: post) !! 0%nat)) with c. cbn [unlink]. destruct (Z.eqb_spec c 0); [done|].
  destruct (Z.eqb_spec c b) as [->|Hne].
  - exists pre, post. split; [done|]. by destruct (last pre).
  - pose proof (is_list_head _ _ _ Hl) as Eh. rewrite Eh in Hl.
    destruct (IH fuel (pre ++ [c]) Hl ltac:(cbn in Hf; lia)) as (l1 & l2 & H1 & H2); [set_solver|set_solver|].
    rewrite last_snoc, <- Eh in H2. exists l1, l2. rewrite <- app_assoc in H1. done.
Qed.

(** ** Blocks and lists come and go *)

Definition upd (hl : Z -> list Z) (k : Z) (l : list Z) : Z -> list Z := fun j => if j =? k then l else hl j.

Lemma inv_nodes h B hl fl l :
  inv h B hl fl -> NoDup l -> (forall b, b ∈ l -> exists s, B !! b = Some (s, false)) -> nodes_ok l.
Proof.
  intros Hi Hnd Hl. split; [done|]. split.
  - intros x Hx. destruct (Hl x Hx) as [s Hs]. destruct (in_block _ _ _ _ Hi _ _ _ Hs). pose proof (in_geom _ _ _ _ Hi). lia.
  - intros x y Hx Hy Hne. destruct (Hl x Hx) as [s Hs], (Hl y Hy) as [s' Hs'].
    destruct (in_apart _ _ _ _ Hi _ _ _ _ _ _ Hs Hs' Hne); destruct (in_block _ _ _ _ Hi _ _ _ Hs), (in_block _ _ _ _ Hi _ _ _ Hs'); lia.
Qed.

(** A store to the link of one block leaves all other headers alone. *)
Lemma link_frame h B hl fl m' x sx ux b s u :
  inv h B hl fl -> same_out (h_mem h) m' (x + 8) (x + 16) -> B !! x = Some (sx, ux) -> B !! b = Some (s, u) ->
  sig m' b = sig (h_mem h) b /\ size m' b = size (h_mem h) b /\ (b <> x -> next m' b = next (h_mem h) b).
Proof.
  intros Hi Ho Hx Hb. destruct (decide (b = x)) as [->|Hne].
  - unfold sig, size. rewrite !(get32_frame (h_mem h) m' (x + 8) (x + 16)) by (done || lia). done.
  - destruct (in_block _ _ _ _ Hi _ _ _ Hx) as (_ & _ & Hsx & _), (in_block _ _ _ _ Hi _ _ _ Hb) as (_ & _ & Hsb & _).
    destruct (head_frame h B hl fl m' (x + 8) (x + 16) b s u Hi Ho Hb) as (H1 & H2 & H3); [|done].
    destruct (in_apart _ _ _ _ Hi _ _ _ _ _ _ Hb Hx Hne); unfold apart; lia.
Qed.

(** New list heads and links, the blocks as they are. *)
Lemma inv_lists h B hl fl hash free m' hl' fl' :
  inv h B hl fl -> length hash = 512%nat ->
  (forall (b s : Z) (u : bool), B !! b = Some (s, u) -> sig m' b = sig (h_mem h) b /\ size m' b = size (h_mem h) b) ->
  (forall k, 0 <= k < 512 -> is_list m' (default 0 (hash !! Z.to_nat k)) (hl' k)) -> is_list m' free fl' ->
  (forall k b : Z, 0 <= k < 512 -> b ∈ hl' k -> B !! b = Some (k, false)) ->
  (forall b : Z, b ∈ fl' -> exists s, B !! b = Some (s, false)) ->
  NoDup fl' -> (forall k, 0 <= k < 512 -> NoDup (hl' k)) -> (forall k b : Z, 0 <= k < 512 -> b ∈ hl' k -> b ∉ fl') ->
  inv (set_lists h hash free m') B hl' fl'.
Proof.
  intros Hi Hlen Hhead Hbk Hfl H1 H2 H3 H4 H5. destruct Hi as [A1 A2 A3 A4 A5 A6 A7 A8 A9 A10].
  constructor; cbn [set_lists h_base h_next_page h_end h_total h_max h_hash h_mem h_free]; try done.
  intros b s u Hb. destruct (Hhead b s u Hb) as [-> ->]. by apply A5.
Qed.

(** What unlinking [b] from [l1 ++ b :: l2] did to memory. *)
Lemma relinked h B hl fl l1 b l2 p p' m' :
  inv h B hl fl -> is_list (h_mem h) p (l1 ++ b :: l2) -> NoDup (l1 ++ b :: l2) ->
  (forall x, x ∈ l1 ++ b :: l2 -> exists s, B !! x = Some (s, false)) ->
  relinkm (h_mem h) p (last l1) (next (h_mem h) b) = (p', m') ->
  is_list m' p' (l1 ++ l2) /\
  (forall (y s : Z) (u : bool), B !! y = Some (s, u) ->
     sig m' y = sig (h_mem h) y /\ size m' y = size (h_mem h) y /\ (y ∉ l1 -> next m' y = next (h_mem h) y)).
Proof.
  intros Hi Hl Hnd Hb E. pose proof (relinkm_spec _ _ _ _ _ Hl (inv_nodes _ _ _ _ _ Hi Hnd Hb)) as H. rewrite E in H.
  destruct H as [H1 H2]. split; [done|]. intros y s u Hy. destruct (last l1) as [x|].
  - destruct H2 as [Hx Ho]. destruct (Hb x ltac:(set_solver)) as [sx Hsx].
    destruct (link_frame _ _ _ _ _ _ _ _ _ _ _ Hi Ho Hsx Hy) as (E1 & E2 & E3). split; [done|]. split; [done|].
    intros Hny. apply E3. by intros ->.
  - by subst.
Qed.

Lemma mid_not_in {A} (l1 l2 : list A) b : NoDup (l1 ++ b :: l2) -> b ∉ l1 ++ l2 /\ NoDup (l1 ++ l2).
Proof.
  intros (H1 & H2 & H3)%NoDup_app. apply NoDup_cons in H3 as [H3 H4].
  split; [set_solver|]. apply NoDup_app. split; [done|]. split; [set_solver|done].
Qed.

Lemma mid_member {A} (l1 l2 : list A) b x : NoDup (l1 ++ b :: l2) -> x ∈ l1 ++ l2 <-> x ∈ l1 ++ b :: l2 /\ x <> b.
Proof. intros Hnd. destruct (mid_not_in _ _ _ Hnd) as [Hb _]. set_solver. Qed.

Lemma inv_unlist h B hl l1 b l2 :
  inv h B hl (l1 ++ b :: l2) ->
  let h' := relink h (last l1) (next (h_mem h) b) in
  inv h' B hl (l1 ++ l2) /\ size (h_mem h') b = size (h_mem h) b.
Proof.
  intros Hi h'. pose proof Hi as [A1 A2 A3 A4 A5 A6 A7 A8 A9 (N1 & N2 & N3)]. unfold h'. rewrite relink_eq.
  destruct (relinkm (h_mem h) (h_free h) (last l1) (next (h_mem h) b)) as [p' m'] eqn:E.
  destruct (relinked _ _ _ _ _ _ _ _ _ _ Hi A7 N1 A9 E) as [H1 H2]. destruct (mid_not_in _ _ _ N1) as [Hb Hnd].
  split.
  - apply (inv_lists h B hl (l1 ++ b :: l2)); try done.
    + intros y s u Hy. by destruct (H2 y s u Hy) as (? & ? & _).
    + intros k Hk. apply (is_list_frame (h_mem h)); [|by apply A6]. intros y Hy. eapply H2; [by eapply A8|].
      intros Hin. apply (N3 k y Hk Hy). set_solver.
    + intros y Hy. apply A9. set_solver.
    + intros k y Hk Hy Hin. apply (N3 k y Hk Hy). set_solver.
  - destruct (A9 b ltac:(set_solver)) as [s Hs]. by destruct (H2 _ _ _ Hs) as (_ & ? & _).
Qed.

Lemma inv_unbucket h B hl fl k l1 b l2 p' m' :
  inv h B hl fl -> 0 <= k < 512 -> hl k = l1 ++ b :: l2 ->
  relinkm (h_mem h) (default 0 (h_hash h !! Z.to_nat k)) (last l1) (next (h_mem h) b) = (p', m') ->
  let h' := set_lists h (<[Z.to_nat k := p']> (h_hash h)) (h_free h) m' in
  inv h' B (upd hl k (l1 ++ l2)) fl /\ size m' b = size (h_mem h) b.
Proof.
  intros Hi Hk Hl E h'. pose proof Hi as [A1 A2 A3 A4 A5 A6 A7 A8 A9 (N1 & N2 & N3)].
  pose proof (A6 k Hk) as Hlist. pose proof (N2 k Hk) as Hnd. rewrite Hl in Hlist, Hnd.
  destruct (relinked _ _ _ _ _ _ _ _ _ _ Hi Hlist Hnd ltac:(intros x Hx; eexists; apply (A8 k); [done|by rewrite Hl]) E) as [H1 H2].
  destruct (mid_not_in _ _ _ Hnd) as [Hb Hnd']. assert (forall x, x ∈ l1 ++ l2 -> x ∈ hl k) as Hsub by (rewrite Hl; set_solver).
  assert (forall x, x ∈ l1 -> x ∈ hl k) as Hsub1 by (rewrite Hl; set_solver).
  split; [|destruct (H2 b k false) as (_ & ? & _); [apply A8; [done|rewrite Hl; set_solver]|done]].
  apply (inv_lists h B hl fl); try done.
  - by rewrite length_insert.
  - intros y s u Hy. by destruct (H2 y s u Hy) as (? & ? & _).
  - intros j Hj. unfold upd. destruct (Z.eqb_spec j k) as [->|Hne].
    + rewrite list_lookup_insert_eq by (rewrite A2; lia). done.
    + rewrite list_lookup_insert_ne by lia. apply (is_list_frame (h_mem h)); [|by apply A6].
      intros y Hy. eapply H2; [by apply (A8 j)|]. intros Hin. pose proof (A8 k y Hk (Hsub1 y Hin)). pose proof (A8 j y Hj Hy). congruence.
  - apply (is_list_frame (h_mem h)); [|done]. intros y Hy. destruct (A9 y Hy) as [s Hs]. eapply H2; [exact Hs|].
    intros Hin. by apply (N3 k y Hk (Hsub1 y Hin)).
  - intros j y Hj Hy. unfold upd in Hy. destruct (Z.eqb_spec j k) as [->|]; [by apply A8, Hsub|by apply A8].
  - intros j Hj. unfold upd. destruct (Z.eqb_spec j k); [done|by apply N2].
  - intros j y Hj Hy. unfold upd in Hy. destruct (Z.eqb_spec j k) as [->|]; [by eapply (N3 k), Hsub|by eapply N3].
Qed.

(** A block on no list becomes a hole, and back. *)
Lemma inv_remove h B hl fl b s u :
  inv h B hl fl -> B !! b = Some (s, u) -> b ∉ fl -> (forall k, 0 <= k < 512 -> b ∉ hl k) ->
  hole h (delete b B) hl fl b s.
Proof.
  intros Hi Hb Hf Hh. pose proof Hi as [A1 A2 A3 A4 A5 A6 A7 A8 A9 A10].
  assert (forall c t v, delete b B !! c = Some (t, v) -> c <> b /\ B !! c = Some (t, v)) as Hd
    by (intros c t v; rewrite lookup_delete_Some; naive_solver).
  constructor.
  - constructor; try done.
    + intros c t v Hc. eapply A3, Hd, Hc.
    + intros c t v c' t' v' Hc Hc'. eapply A4; by eapply Hd.
    + intros c t v Hc. eapply A5, Hd, Hc.
    + intros k c Hk Hc. rewrite lookup_delete_ne by (intros ->; by apply (Hh k Hk)). by apply A8.
    + intros c Hc. destruct (A9 c Hc) as [t Ht]. exists t. rewrite lookup_delete_ne; [done|]. by intros ->.
  - eapply A3, Hb.
  - apply lookup_delete_eq.
  - intros c t v Hc. destruct (Hd _ _ _ Hc). by eapply A4.
  - by eapply A5.
Qed.

Lemma hole_add h B hl fl mu s (u : bool) :
  hole h B hl fl mu s -> sig (h_mem h) mu = (if u then MEM_USED_SIGNATURE else MEM_UNUSED_SIGNATURE) ->
  inv h (<[mu := (s, u)]> B) hl fl.
Proof.
  intros [Hi Hr Hn Ha Hs] Hg. destruct Hi as [A1 A2 A3 A4 A5 A6 A7 A8 A9 A10].
  constructor; try done.
  - intros b t v [[-> E]|[_ Hb]]%lookup_insert_Some; [by injection E as <- <-|by eapply A3].
  - intros b t v b' t' v' [[<- E]|[Hne Hb]]%lookup_insert_Some [[<- E']|[Hne' Hb']]%lookup_insert_Some Hbb; [done| | |by eapply A4].
    + injection E as <- <-. specialize (Ha _ _ _ Hb'). unfold apart in *. lia.
    + injection E' as <- <-. by eapply Ha.
  - intros b t v [[<- E]|[_ Hb]]%lookup_insert_Some; [by injection E as <- <-|by eapply A5].
  - intros k b Hk Hb. specialize (A8 k b Hk Hb). rewrite lookup_insert_ne; [done|]. intros ->. congruence.
  - intros b Hb. destruct (A9 b Hb) as [t Ht]. exists t. rewrite lookup_insert_ne; [done|]. intros ->. congruence.
Qed.

(** A free block joins the list its size selects. *)
Lemma inv_push h B hl fl b s :
  inv h B hl fl -> B !! b = Some (s, false) -> b ∉ fl -> (forall k, 0 <= k < 512 -> b ∉ hl k) ->
  inv (push_free h b) B (if s <? 512 then upd hl s (b :: hl s) else hl) (if s <? 512 then fl else b :: fl).
Proof.
  intros Hi Hb Hf Hh. pose proof Hi as [A1 A2 A3 A4 A5 A6 A7 A8 A9 (N1 & N2 & N3)].
  destruct (A3 _ _ _ Hb) as (B1 & B2 & B3 & B4 & B5). destruct (A5 _ _ _ Hb) as [_ Es].
  unfold push_free. rewrite Es. unfold MEM_HEAP_HASH_SIZE.
  assert (forall v, same_out (h_mem h) (put64 (h_mem h) (b + 8) v) (b + 8) (b + 16)) as Ho
    by (intros v; eapply same_out_sub; [| |apply put64_out]; lia).
  assert (forall v l, (forall x, x ∈ l -> x <> b /\ exists t, B !! x = Some (t, false)) ->
    forall p, is_list (h_mem h) p l -> is_list (put64 (h_mem h) (b + 8) v) p l) as Hkeep.
  { intros v l Hl p. apply is_list_frame. intros x Hx. destruct (Hl x Hx) as [Hne [t Ht]].
    by eapply link_frame; [exact Hi|apply Ho|exact Hb|exact Ht|]. }
  assert (forall l p, (forall x, x ∈ l -> exists t, B !! x = Some (t, false)) -> is_list (h_mem h) p l ->
    next (put64 (h_mem h) (b + 8) p) b = p) as Hnext.
  { intros l p Hl Hp. unfold next. rewrite get64_put64. apply wrap_id. rewrite (is_list_head _ _ _ Hp).
    destruct l as [|x l]; [by apply (bool_decide_unpack _); vm_compute|]. destruct (Hl x ltac:(set_solver)) as [t Ht].
    destruct (A3 _ _ _ Ht). cbn. unfold_fits. lia. }
  assert (forall k x : Z, 0 <= k < 512 -> x ∈ hl k -> x <> b /\ exists t, B !! x = Some (t, false)) as Hhl.
  { intros k x Hk Hx. split; [intros ->; by apply (Hh k Hk)|exists k; by apply A8]. }
  assert (forall x : Z, x ∈ fl -> x <> b /\ exists t, B !! x = Some (t, false)) as Hfl by (intros x Hx; split; [by intros ->|by apply A9]).
  assert (forall v (c t : Z) (u : bool), B !! c = Some (t, u) -> sig (put64 (h_mem h) (b + 8) v) c = sig (h_mem h) c /\
    size (put64 (h_mem h) (b + 8) v) c = size (h_mem h) c) as Hhead.
  { intros v c t u Hc. by destruct (link_frame _ _ _ _ _ _ _ _ _ _ _ Hi (Ho v) Hb Hc) as (? & ? & _). }
  destruct (Z.ltb_spec s 512) as [Hlt|Hge].
  - assert (0 <= s < 512) as Hs by lia. apply (inv_lists h B hl fl); try done.
    + by rewrite length_insert.
    + apply Hhead.
    + intros k Hk. unfold upd. destruct (Z.eqb_spec k s) as [->|Hne].
      * rewrite list_lookup_insert_eq by (rewrite A2; lia). cbn [default is_list from_option id]. split; [done|]. split; [lia|].
        rewrite (Hnext (hl s)); [apply Hkeep; [by eauto|by apply A6]|intros x Hx; by eapply Hhl|by apply A6].
      * rewrite list_lookup_insert_ne by lia. apply Hkeep; [by eauto|by apply A6].
    + apply Hkeep; [done|done].
    + intros k x Hk Hx. unfold upd in Hx. destruct (Z.eqb_spec k s) as [->|]; [|by apply A8].
      apply elem_of_cons in Hx as [->|Hx]; [done|by apply A8].
    + intros k Hk. unfold upd. destruct (Z.eqb_spec k s) as [->|]; [|by apply N2].
      apply NoDup_cons. split; [by apply Hh|by apply N2].
    + intros k x Hk Hx. unfold upd in Hx. destruct (Z.eqb_spec k s) as [->|]; [|by eapply N3].
      apply elem_of_cons in Hx as [->|Hx]; [done|by eapply N3].
  - apply (inv_lists h B hl fl); try done.
    + apply Hhead.
    + intros k Hk. apply Hkeep; [by eauto|by apply A6].
    + cbn [is_list]. split; [done|]. split; [lia|]. rewrite (Hnext fl); [by apply Hkeep|done|done].
    + intros x [->|Hx]%elem_of_cons; [by eexists|by apply A9].
    + by apply NoDup_cons.
    + intros k x Hk Hx. apply not_elem_of_cons. split; [by apply (Hhl k)|by eapply N3].
Qed.

(** ** Allocation *)

(** Part of a hole is a hole. *)
Lemma hole_part h B hl fl mu s mu' s' :
  hole h B hl fl mu s -> mu <= mu' -> mu' + s' <= mu + s -> mu' mod 16 = 0 -> 48 <= s' -> s' mod 16 = 0 ->
  size (h_mem h) mu' = s' -> hole h B hl fl mu' s'.
Proof.
  intros [Hi (R1 & R2 & R3 & R4 & R5) Hn Ha Hs] H1 H2 H3 H4 H5 H6.
  assert (forall b t u, B !! b = Some (t, u) -> apart b t mu' s') as Ha'.
  { intros b t u Hb. specialize (Ha _ _ _ Hb). unfold apart in *. lia. }
  constructor; try done.
  - lia.
  - destruct (B !! mu') as [[t u]|] eqn:E; [|done]. specialize (Ha' _ _ _ E).
    destruct (in_block _ _ _ _ Hi _ _ _ E) as (_ & _ & Ht & _). unfold apart in Ha'. lia.
Qed.

Definition split_blocks (B : blocks) (mu s t : Z) : blocks :=
  if s >? t + 32 then <[mu + t := (s - t, false)]> (<[mu := (t, true)]> B) else <[mu := (t, true)]> B.
Definition split_list (fl : list Z) (mu s t : Z) : list Z := if s >? t + 32 then (mu + t) :: fl else fl.

Lemma claim_inv h h' B hl fl mu s t :
  hole h B hl fl mu s -> claimed h h' mu s t -> 48 <= t <= s -> t mod 16 = 0 ->
  inv h' (split_blocks B mu s t) hl (split_list fl mu s t).
Proof.
  intros Hh [C1 C2 C3 C4 (E1 & E2 & E3 & E4 & E5 & E6) C6 C7] Ht Ht16. pose proof Hh as [Hi (R1 & R2 & R3 & R4 & R5) Hn Ha Hs].
  pose proof (in_geom _ _ _ _ Hi) as Hgeo. set (h1 := set_lists h' (h_hash h') (h_free h) (h_mem h')).
  assert (inv h1 B hl fl) as Hi1.
  { apply (inv_frame h h1 B hl fl mu (mu + s)); try done. intros b t' u Hb. replace (mu + s - mu) with s by lia. by eapply Ha. }
  assert (inv h1 (<[mu := (t, true)]> B) hl fl) as Hi2.
  { apply hole_add; [|done]. constructor; try done.
    - cbn [h1 set_lists h_base h_next_page]. rewrite E1, E3. lia.
    - intros b t' u Hb. specialize (Ha _ _ _ Hb). unfold apart in *. lia. }
  unfold split_blocks, split_list. destruct (Z.gtb_spec s (t + 32)) as [Hgt|Hle].
  2:{ replace h' with h1; [done|]. unfold h1. rewrite <- C7. by destruct h'. }
  destruct C7 as (F1 & F2 & F3 & F4). assert ((s - t) mod 16 = 0) as Hst by (rewrite Zminus_mod, R4, Ht16; done).
  assert ((mu + t) mod 16 = 0) as Hmt by (rewrite Zplus_mod, R2, Ht16; done).
  assert (48 <= s - t) as Hst48.
  { pose proof (Z.div_mod (s - t) 16 ltac:(lia)). lia. }
  assert (inv h1 (<[mu + t := (s - t, false)]> (<[mu := (t, true)]> B)) hl fl) as Hi3.
  { apply hole_add; [|done]. constructor; try done.
    - cbn [h1 set_lists h_base h_next_page]. rewrite E1, E3. lia.
    - rewrite lookup_insert_ne by lia. destruct (B !! (mu + t)) as [[t' u]|] eqn:E; [|done].
      specialize (Ha _ _ _ E). destruct (in_block _ _ _ _ Hi _ _ _ E) as (_ & _ & ? & _). unfold apart in Ha. lia.
    - intros b t' u [[<- E]|[_ Hb]]%lookup_insert_Some; [injection E as <- <-; unfold apart; lia|].
      specialize (Ha _ _ _ Hb). unfold apart in *. lia. }
  replace h' with (set_lists h1 (h_hash h1) (mu + t) (h_mem h1)) by (unfold h1; rewrite <- F1; by destruct h').
  pose proof Hi3 as [A1 A2 A3 A4 A5 A6 A7 A8 A9 (N1 & N2 & N3)]. clear Hi1 Hi2.
  pose proof (ho_inv _ _ _ _ _ _ Hh) as [_ _ _ _ _ _ O7 O8 O9 _].
  assert (B !! (mu + t) = None) as Hnone.
  { destruct (B !! (mu + t)) as [[t' u]|] eqn:E; [|done].
    specialize (Ha _ _ _ E). destruct (in_block _ _ _ _ Hi _ _ _ E) as (_ & _ & ? & _). unfold apart in Ha. lia. }
  assert (mu + t ∉ fl) as Hnf by (intros Hin; destruct (O9 _ Hin); congruence).
  apply (inv_lists h1 _ hl fl); try done.
  - cbn [is_list]. split; [done|]. split; [lia|]. cbn [h1 set_lists h_mem]. rewrite F4, wrap_id; [exact A7|].
    rewrite (is_list_head _ _ _ O7). destruct fl as [|x fl]; [by apply (bool_decide_unpack _); vm_compute|].
    destruct (O9 x ltac:(set_solver)) as [sx Hx]. destruct (in_block _ _ _ _ Hi _ _ _ Hx). pose proof (in_geom _ _ _ _ Hi). cbn. unfold_fits. lia.
  - intros b [->|Hb]%elem_of_cons; [eexists; apply lookup_insert_eq|by apply A9].
  - by apply NoDup_cons.
  - intros k b Hk Hb. apply not_elem_of_cons. split; [|by eapply N3]. intros ->. pose proof (O8 _ _ Hk Hb). congruence.
Qed.

(** The bytes of the blocks in use are untouched. *)
Definition keeps_live (B : blocks) (m m' : memory) : Prop :=
  forall b s, B !! b = Some (s, true) -> forall x, b <= x < b + s -> m' x = m x.

Lemma relinked_live h B hl fl l1 b l2 p p' m' :
  inv h B hl fl -> is_list (h_mem h) p (l1 ++ b :: l2) -> NoDup (l1 ++ b :: l2) ->
  (forall x, x ∈ l1 ++ b :: l2 -> exists s, B !! x = Some (s, false)) ->
  relinkm (h_mem h) p (last l1) (next (h_mem h) b) = (p', m') -> keeps_live B (h_mem h) m'.
Proof.
  intros Hi Hl Hnd Hb E c s Hc x Hx. pose proof (relinkm_spec _ _ _ _ _ Hl (inv_nodes _ _ _ _ _ Hi Hnd Hb)) as H. rewrite E in H.
  destruct H as [_ H]. destruct (last l1) as [y|]; [|by subst]. destruct H as [Hy Ho]. apply Ho.
  destruct (Hb y ltac:(set_solver)) as [sy Hsy]. destruct (in_block _ _ _ _ Hi _ _ _ Hsy) as (_ & _ & ? & _).
  destruct (decide (c = y)) as [->|Hne]; [congruence|]. destruct (in_apart _ _ _ _ Hi _ _ _ _ _ _ Hc Hsy Hne); lia.
Qed.

(** The hole an allocation takes. *)
Record source (h h1 : heap) (B B1 : blocks) (hl1 : Z -> list Z) (fl1 : list Z) (mu s : Z) : Prop := {
  so_hole : hole h1 B1 hl1 fl1 mu s;
  so_used : h_used h1 = h_used h;
  so_blocks : forall b t, B1 !! b = Some (t, true) <-> B !! b = Some (t, true);
  so_live : keeps_live B (h_mem h) (h_mem h1) }.

Lemma delete_free (B : blocks) n s b t : B !! n = Some (s, false) -> delete n B !! b = Some (t, true) <-> B !! b = Some (t, true).
Proof. intros Hn. rewrite lookup_delete_Some. split; [tauto|]. intros H. split; [|done]. intros <-. congruence. Qed.

Lemma bucket_source h B hl fl t b l :
  inv h B hl fl -> 0 <= t < 512 -> hl t = b :: l ->
  source h (set_lists h (<[Z.to_nat t := next (h_mem h) b]> (h_hash h)) (h_free h) (h_mem h))
    B (delete b B) (upd hl t l) fl b t.
Proof.
  intros Hi Ht Hl. pose proof Hi as [A1 A2 A3 A4 A5 A6 A7 A8 A9 (N1 & N2 & N3)].
  assert (B !! b = Some (t, false)) as Hb by (apply A8; [done|rewrite Hl; set_solver]).
  destruct (inv_unbucket h B hl fl t [] b l _ _ Hi Ht Hl eq_refl) as [Hi' _]. cbn [app] in Hi'.
  pose proof (N2 t Ht) as Hnd. rewrite Hl in Hnd. apply NoDup_cons in Hnd as [Hnb _].
  constructor; cbn [set_lists h_used h_mem]; try done.
  - eapply inv_remove; [exact Hi'|exact Hb|by eapply (N3 t); [|rewrite Hl; set_solver]|].
    intros k Hk. unfold upd. destruct (Z.eqb_spec k t) as [->|Hne]; [done|]. intros Hin. pose proof (A8 k b Hk Hin). congruence.
  - intros c s. by eapply delete_free.
Qed.

Lemma list_source h B hl l1 b l2 :
  inv h B hl (l1 ++ b :: l2) ->
  source h (relink h (last l1) (next (h_mem h) b)) B (delete b B) hl (l1 ++ l2) b (size (h_mem h) b).
Proof.
  intros Hi. pose proof Hi as [A1 A2 A3 A4 A5 A6 A7 A8 A9 (N1 & N2 & N3)].
  destruct (A9 b ltac:(set_solver)) as [s Hb]. destruct (A5 _ _ _ Hb) as [_ Es]. rewrite Es.
  destruct (inv_unlist _ _ _ _ _ _ Hi) as [Hi' _]. destruct (mid_not_in _ _ _ N1) as [Hnb _].
  constructor; try done.
  - eapply inv_remove; [exact Hi'|exact Hb|done|]. intros k Hk Hin. apply (N3 k b Hk Hin). set_solver.
  - unfold relink. by destruct (last l1).
  - intros c t. by eapply delete_free.
  - rewrite relink_eq. destruct (relinkm (h_mem h) (h_free h) (last l1) (next (h_mem h) b)) as [p' m'] eqn:E.
    cbn [set_lists h_mem]. by eapply relinked_live.
Qed.

Lemma fresh_source h B hl fl n :
  inv h B hl fl -> 0 < n -> h_next_page h + n * 4096 <= h_end h ->
  source h (set_mem (set_next_page h (h_next_page h + n * 4096))
              (put32 (h_mem h) (h_next_page h + 4) (u32 (n * 4096))))
    B B hl fl (h_next_page h) (n * 4096).
Proof.
  intros Hi Hn Hfit. pose proof (in_geom _ _ _ _ Hi) as (G1 & G2 & G3 & G4 & G5 & G6 & G7 & G8).
  assert (fits 32 (n * 4096)) as Hf by (unfold_fits; lia).
  assert ((n * 4096) mod 16 = 0) as Hn16 by (replace (n * 4096) with (n * 256 * 16) by lia; apply Z_mod_mult).
  assert (inv (set_next_page h (h_next_page h + n * 4096)) B hl fl) as Hi1.
  { destruct Hi as [A1 A2 A3 A4 A5 A6 A7 A8 A9 A10].
    constructor; cbn [set_next_page h_base h_total h_next_page h_end h_hash h_free h_max h_mem]; try done.
    - split_and!; try (done || lia). rewrite Zplus_mod, G4, Hn16. done.
    - intros b s u Hb. destruct (A3 _ _ _ Hb) as (? & ? & ? & ? & ?). split_and!; (done || lia). }
  assert (forall b s u, B !! b = Some (s, u) -> b + s <= h_next_page h) as Hbelow by (intros b s u Hb; apply (in_block _ _ _ _ Hi _ _ _ Hb)).
  assert (same_out (h_mem h) (put32 (h_mem h) (h_next_page h + 4) (u32 (n * 4096))) (h_next_page h) (h_next_page h + n * 4096)) as Ho
    by (eapply same_out_sub; [| |apply put32_out]; lia).
  constructor; cbn [set_mem set_next_page h_used h_mem]; try done.
  - constructor; cbn [set_mem set_next_page h_base h_next_page h_mem].
    + eapply inv_frame; [exact Hi1|exact Ho|..]; try done. intros b s u Hb. specialize (Hbelow _ _ _ Hb). unfold apart. lia.
    + split_and!; (done || lia).
    + destruct (B !! h_next_page h) as [[t u]|] eqn:E; [|done]. specialize (Hbelow _ _ _ E).
      destruct (in_block _ _ _ _ Hi _ _ _ E) as (_ & _ & ? & _). lia.
    + intros b s u Hb. specialize (Hbelow _ _ _ Hb). unfold apart. lia.
    + unfold size. rewrite get32_put32. by rewrite !(wrap_id 32) by (by rewrite ?wrap_id).
  - intros b s Hb x Hx. apply Ho. specialize (Hbelow _ _ _ Hb). lia.
Qed.

Lemma alloc_source h B hl fl sz fuel :
  inv h B hl fl -> 0 <= sz < 2 ^ 63 -> (length fl <= fuel)%nat ->
  let total := round_total sz in
  (mem_alloc fuel h sz = Some (0, h) /\ (forall b, b ∈ fl -> size (h_mem h) b < total) /\
   h_end h < h_next_page h + total + 4095) \/
  exists h1 B1 hl1 fl1 mu s, source h h1 B B1 hl1 fl1 mu s /\ total <= s /\
    mem_alloc fuel h sz = Some (claim h1 mu total).
Proof.
  intros Hi Hsz Hfuel total. destruct (round_total_spec sz Hsz) as (T1 & T2 & T3). fold total in T1, T2, T3.
  pose proof Hi as [A1 A2 A3 A4 A5 A6 A7 A8 A9 (N1 & N2 & N3)]. unfold mem_alloc. fold total. unfold MEM_HEAP_HASH_SIZE.
  set (bucket := if total <? 512 then _ else 0).
  destruct (Z.eqb_spec bucket 0) as [E0|Hne]; cbn [negb].
  2:{ right. unfold bucket in *. destruct (Z.ltb_spec total 512) as [Hlt|]; [|done].
      pose proof (A6 total ltac:(lia)) as Hl. destruct (hl total) as [|b l] eqn:El; [done|].
      pose proof (is_list_head _ _ _ Hl) as Eh. cbn in Eh. rewrite Eh.
      eexists _, _, _, _, _, _. split; [apply (bucket_source h B hl fl total b l); (done || lia)|]. split; [lia|done]. }
  clear bucket E0. pose proof (is_list_head _ _ _ A7) as Eh. rewrite Eh. rewrite Eh in A7.
  destruct (first_fit_spec h total fl fuel [] A7 Hfuel) as [[F1 F2]|(l1 & b & l2 & F1 & F2 & F3)]; cbn [last] in *.
  - rewrite F1. cbn [mbind option_bind]. unfold alloc_pages, MEM_PAG_SIZE.
    rewrite (wrap_id 64 (total + 4096 - 1)) by (unfold_fits; lia). set (n := (total + 4096 - 1) / 4096).
    assert (n * 4096 <= total + 4095 /\ total <= n * 4096) as [Hn1 Hn2].
    { pose proof (Z.div_mod (total + 4096 - 1) 4096 ltac:(lia)). pose proof (Z.mod_pos_bound (total + 4096 - 1) 4096 ltac:(lia)). unfold n. lia. }
    rewrite (wrap_id 64 (n * 4096)) by (unfold_fits; lia).
    destruct (Z.gtb_spec (h_next_page h + n * 4096) (h_end h)) as [Hgt|Hle].
    + left. split; [done|]. split; [done|lia].
    + right. eexists _, _, _, _, _, _. split; [apply (fresh_source h B hl fl n); (done || lia)|]. split; [done|]. done.
  - right. cbn [app] in F1. subst fl. rewrite F3. eexists _, _, _, _, _, _. split; [by apply list_source|]. done.
Qed.

(** ** Freeing *)

(** Only bytes of free blocks changed. *)
Definition keeps_rest (B : blocks) (m m' : memory) : Prop :=
  forall x, (forall b s, B !! b = Some (s, false) -> ~ b <= x < b + s) -> m' x = m x.

Lemma keeps_rest_live h B hl fl m m' : inv h B hl fl -> keeps_rest B m m' -> keeps_live B m m'.
Proof.
  intros Hi H b s Hb x Hx. apply H. intros c t Hc Hcx. destruct (decide (b = c)) as [->|Hne]; [congruence|].
  destruct (in_apart _ _ _ _ Hi _ _ _ _ _ _ Hb Hc Hne); lia.
Qed.

(** What taking the free block [n] off its list gives. *)
Record detached (h h1 : heap) (B : blocks) (hl1 : Z -> list Z) (fl1 : list Z) (n s : Z) : Prop := {
  de_hole : hole h1 (delete n B) hl1 fl1 n s;
  de_rest : keeps_rest B (h_mem h) (h_mem h1);
  de_same : h_used h1 = h_used h /\ h_base h1 = h_base h /\ h_next_page h1 = h_next_page h }.

Lemma relinked_rest h B hl fl l1 b l2 p p' m' :
  inv h B hl fl -> is_list (h_mem h) p (l1 ++ b :: l2) -> NoDup (l1 ++ b :: l2) ->
  (forall x, x ∈ l1 ++ b :: l2 -> exists s, B !! x = Some (s, false)) ->
  relinkm (h_mem h) p (last l1) (next (h_mem h) b) = (p', m') -> keeps_rest B (h_mem h) m'.
Proof.
  intros Hi Hl Hnd Hb E x Hx. pose proof (relinkm_spec _ _ _ _ _ Hl (inv_nodes _ _ _ _ _ Hi Hnd Hb)) as H. rewrite E in H.
  destruct H as [_ H]. destruct (last l1) as [y|]; [|by subst]. destruct H as [Hy Ho]. apply Ho.
  destruct (Hb y ltac:(set_solver)) as [sy Hsy]. destruct (in_block _ _ _ _ Hi _ _ _ Hsy) as (_ & _ & ? & _).
  specialize (Hx _ _ Hsy). lia.
Qed.

Lemma detach_bucket h B hl fl k n fuel :
  inv h B hl fl -> 0 <= k < 512 -> n ∈ hl k -> (length (hl k) <= fuel)%nat ->
  let head := default 0 (h_hash h !! Z.to_nat k) in
  exists head' m' hl1, unlink fuel (h_mem h) head None head n = Some (head', m') /\
    detached h (set_lists h (<[Z.to_nat k := head']> (h_hash h)) (h_free h) m') B hl1 fl n k /\
    (forall j b, 0 <= j < 512 -> (b ∈ hl1 j <-> b ∈ hl j /\ b <> n)).
Proof.
  intros Hi Hk Hin Hfuel head. pose proof Hi as [A1 A2 A3 A4 A5 A6 A7 A8 A9 (N1 & N2 & N3)].
  pose proof (A6 k Hk) as Hl. fold head in Hl. pose proof (is_list_head _ _ _ Hl) as Eh.
  destruct (unlink_spec (h_mem h) head n (hl k) fuel [] ltac:(by rewrite <- Eh) Hfuel Hin ltac:(set_solver)) as (l1 & l2 & E1 & E2).
  cbn [app last] in E1, E2. rewrite <- Eh in E2. destruct (relinkm (h_mem h) head (last l1) (next (h_mem h) n)) as [head' m'] eqn:E.
  destruct (inv_unbucket h B hl fl k l1 n l2 head' m' Hi Hk E1 E) as [Hi' _].
  pose proof (N2 k Hk) as Hnd. rewrite E1 in Hnd, Hl. destruct (mid_not_in _ _ _ Hnd) as [Hnn _].
  assert (B !! n = Some (k, false)) as Hn by (by apply A8).
  exists head', m', (upd hl k (l1 ++ l2)). split; [done|]. split.
  - constructor; cbn [set_lists h_mem h_used h_base h_next_page]; try done.
    + eapply inv_remove; [exact Hi'|exact Hn|by eapply (N3 k)|]. intros j Hj. unfold upd.
      destruct (Z.eqb_spec j k) as [->|Hne]; [done|]. intros Hnj. pose proof (A8 j n Hj Hnj). congruence.
    + eapply relinked_rest; [exact Hi|exact Hl|done| |exact E]. intros x Hx. exists k. apply A8; [done|]. by rewrite E1.
  - intros j b Hj. unfold upd. destruct (Z.eqb_spec j k) as [->|Hne].
    + rewrite E1. by apply mid_member.
    + split; [|by intros []]. intros Hb. split; [done|]. intros ->. pose proof (A8 j n Hj Hb). congruence.
Qed.

Lemma detach_list h B hl fl n s fuel :
  inv h B hl fl -> n ∈ fl -> B !! n = Some (s, false) -> (length fl <= fuel)%nat ->
  exists head' m' fl1, unlink fuel (h_mem h) (h_free h) None (h_free h) n = Some (head', m') /\
    detached h (set_lists h (h_hash h) head' m') B hl fl1 n s /\ (forall b, b ∈ fl1 <-> b ∈ fl /\ b <> n).
Proof.
  intros Hi Hin Hn Hfuel. pose proof Hi as [A1 A2 A3 A4 A5 A6 A7 A8 A9 (N1 & N2 & N3)].
  pose proof (is_list_head _ _ _ A7) as Eh.
  destruct (unlink_spec (h_mem h) (h_free h) n fl fuel [] ltac:(by rewrite <- Eh) Hfuel Hin ltac:(set_solver)) as (l1 & l2 & E1 & E2).
  cbn [app last] in E1, E2. rewrite <- Eh in E2. subst fl. destruct (inv_unlist _ _ _ _ _ _ Hi) as [Hi' _]. rewrite relink_eq in Hi'.
  destruct (relinkm (h_mem h) (h_free h) (last l1) (next (h_mem h) n)) as [head' m'] eqn:E.
  destruct (mid_not_in _ _ _ N1) as [Hnn _]. exists head', m', (l1 ++ l2). split; [done|]. split; [|intros b; by apply mid_member].
  constructor; cbn [set_lists h_mem h_used h_base h_next_page]; try done.
  - eapply inv_remove; [exact Hi'|exact Hn|done|]. intros k Hk Hnk. apply (N3 k n Hk Hnk). set_solver.
  - by eapply relinked_rest.
Qed.

(** Two adjacent holes are one, once the header says so. *)
Lemma hole_merge h h1 B hl fl hl1 fl1 mu s n s' :
  hole h B hl fl mu s -> n = mu + s -> B !! n = Some (s', false) -> detached h h1 B hl1 fl1 n s' ->
  let m2 := put32 (h_mem h1) (mu + 4) (u32 (size (h_mem h1) mu + size (h_mem h1) n)) in
  hole (set_mem h1 m2) (delete n B) hl1 fl1 mu (s + s') /\ sig m2 mu = sig (h_mem h) mu /\
  keeps_live (delete n B) (h_mem h) m2.
Proof.
  intros Hh -> Hn [Hh1 Hrest (U1 & U2 & U3)]. pose proof Hh as [Hi (R1 & R2 & R3 & R4 & R5) Hnone Ha Hs].
  pose proof Hh1 as [Hi1 (Q1 & Q2 & Q3 & Q4 & Q5) Hnone1 Ha1 Hs1]. rewrite Hs1.
  pose proof (in_geom _ _ _ _ Hi) as Hg. pose proof (in_geom _ _ _ _ Hi1) as Hg1. rewrite U3 in Q5.
  assert (forall x, mu <= x < mu + s -> h_mem h1 x = h_mem h x) as Hin.
  { intros x Hx. apply Hrest. intros b t Hb. specialize (Ha _ _ _ Hb). unfold apart in Ha. lia. }
  assert (forall a, mu <= a -> a + 4 <= mu + s -> get32 (h_mem h1) a = get32 (h_mem h) a) as Hget.
  { intros a H1 H2. unfold get32, get_bytes. f_equal. apply list_fmap_ext. intros i k Hk. apply lookup_seq in Hk as [-> Hk]. apply Hin. lia. }
  assert (size (h_mem h1) mu = s) as Hs2 by (rewrite <- Hs; unfold size; apply Hget; lia). rewrite Hs2.
  rewrite (wrap_id 32 (s + s')) by (unfold_fits; lia). intros m2.
  assert (same_out (h_mem h1) m2 mu (mu + 16)) as Ho by (eapply same_out_sub; [| |apply put32_out]; lia).
  assert (forall b t u, delete (mu + s) B !! b = Some (t, u) -> apart b t mu (s + s')) as Ha2.
  { intros b t u Hb. specialize (Ha1 _ _ _ Hb). pose proof (in_block _ _ _ _ Hi1 _ _ _ Hb) as (_ & _ & ? & _).
    apply lookup_delete_Some in Hb as [_ Hb]. specialize (Ha _ _ _ Hb). unfold apart in *. lia. }
  split; [|split].
  - constructor; cbn [set_mem h_base h_next_page h_mem].
    + eapply inv_frame; [exact Hi1|exact Ho|..]; try done. intros b t u Hb. specialize (Ha2 _ _ _ Hb). unfold apart in *. lia.
    + rewrite U2, U3. split_and!; try (done || lia). by rewrite Zplus_mod, R4, Q4.
    + rewrite lookup_delete_ne by lia. done.
    + done.
    + unfold m2, size. rewrite get32_put32. apply wrap_id. unfold_fits. lia.
  - unfold m2, sig. rewrite get32_put32_ne by lia. apply Hget; lia.
  - intros b t Hb x Hx. specialize (Ha2 _ _ _ Hb). rewrite Ho by (unfold apart in Ha2; lia). apply lookup_delete_Some in Hb as [_ Hb].
    by apply (keeps_rest_live h B hl fl (h_mem h) (h_mem h1) Hi Hrest b t Hb).
Qed.

(** What follows the block at [mu] is a free block its list holds, if it has the
    signature of one. *)
Definition neighbour_ok (h : heap) (B : blocks) (hl : Z -> list Z) (fl : list Z) (mu s : Z) : Prop :=
  let n := mu + s in
  n < h_base h + CTRL + h_max h -> sig (h_mem h) n = MEM_UNUSED_SIGNATURE ->
  exists s', B !! n = Some (s', false) /\ (if s' <? 512 then n ∈ hl s' else n ∈ fl).

(** What coalescing makes of the blocks and of the lists: a free block behind
    [mu] is taken off its list and becomes part of [mu]; otherwise nothing. *)
Definition merged_size (B : blocks) (n s : Z) : Z :=
  match B !! n with Some (s', false) => s + s' | _ => s end.
Definition merged_blocks (B : blocks) (n : Z) : blocks :=
  match B !! n with Some (_, false) => delete n B | _ => B end.
Definition off_lists (hl hl1 : Z -> list Z) (fl fl1 : list Z) (n : Z) : Prop :=
  (forall b, b ∈ fl1 <-> b ∈ fl /\ b <> n) /\ (forall k b, 0 <= k < 512 -> (b ∈ hl1 k <-> b ∈ hl k /\ b <> n)).

(** A block that is not free is on no list. *)
Lemma off_lists_none h B hl fl n :
  inv h B hl fl -> (forall s, B !! n <> Some (s, false)) -> off_lists hl hl fl fl n.
Proof.
  intros Hi Hn. split.
  - intros b. split; [|by intros []]. intros Hb. split; [done|]. intros ->. destruct (in_list_block _ _ _ _ Hi _ Hb) as [s Hs]. by eapply Hn.
  - intros k b Hk. split; [|by intros []]. intros Hb. split; [done|]. intros ->. by eapply Hn, (in_bucket_block _ _ _ _ Hi _ _ Hk).
Qed.

(** The signature test of [coalesce] is the question whether a free block follows. *)
Lemma coalesce_test h B hl fl mu s n :
  inv h B hl fl -> B !! (mu + s) = Some (n, false) ->
  (mu + s <? h_base h + CTRL + h_max h) && (sig (h_mem h) (mu + s) =? MEM_UNUSED_SIGNATURE) = true.
Proof.
  intros Hi Hb. destruct (in_head _ _ _ _ Hi _ _ _ Hb) as [Hsig _]. destruct (in_block _ _ _ _ Hi _ _ _ Hb) as (_ & _ & ? & _ & ?).
  destruct (in_geom _ _ _ _ Hi) as (_ & _ & ? & _ & ? & _ & _ & ?). rewrite Hsig, Z.eqb_refl, andb_true_r. apply Z.ltb_lt. unfold CTRL. lia.
Qed.

Lemma coalesce_spec h B hl fl mu s fuel :
  hole h B hl fl mu s -> neighbour_ok h B hl fl mu s ->
  (length fl <= fuel)%nat -> (forall k, 0 <= k < 512 -> (length (hl k) <= fuel)%nat) ->
  exists h1 hl1 fl1, coalesce fuel h mu = Some h1 /\
    hole h1 (merged_blocks B (mu + s)) hl1 fl1 mu (merged_size B (mu + s) s) /\ off_lists hl hl1 fl fl1 (mu + s) /\
    sig (h_mem h1) mu = sig (h_mem h) mu /\ h_used h1 = h_used h /\ keeps_live (merged_blocks B (mu + s)) (h_mem h) (h_mem h1).
Proof.
  intros Hh Hn Hf1 Hf2. pose proof Hh as [Hi _ _ _ Hs]. unfold coalesce. rewrite Hs. unfold neighbour_ok in Hn. unfold merged_blocks, merged_size.
  destruct ((mu + s <? h_base h + CTRL + h_max h) && (sig (h_mem h) (mu + s) =? MEM_UNUSED_SIGNATURE)) eqn:Et.
  2:{ assert (forall s', B !! (mu + s) <> Some (s', false)) as Hno.
      { intros s' Hb. rewrite (coalesce_test _ _ _ _ _ _ _ Hi Hb) in Et. done. }
      exists h, hl, fl. pose proof (off_lists_none _ _ _ _ _ Hi Hno) as Hoff.
      destruct (B !! (mu + s)) as [[s' []]|] eqn:Eb; [| |]; try (by destruct (Hno s')); by split_and!. }
  apply andb_true_iff in Et as [Hlt%Z.ltb_lt Hsig%Z.eqb_eq].
  destruct (Hn Hlt Hsig) as (s' & Hb & Hwhere). destruct (in_head _ _ _ _ Hi _ _ _ Hb) as [_ Es].
  destruct (in_block _ _ _ _ Hi _ _ _ Hb) as (_ & _ & Hs48 & _). rewrite Es, Hb. unfold MEM_HEAP_HASH_SIZE.
  destruct (Z.ltb_spec s' 512) as [Hsmall|Hlarge].
  - destruct (detach_bucket h B hl fl s' (mu + s) fuel Hi ltac:(lia) Hwhere (Hf2 s' ltac:(lia))) as (head' & m' & hl1 & E1 & Hd & Hl1).
    rewrite E1. cbn [mbind option_bind]. destruct (hole_merge _ _ _ _ _ _ _ _ _ _ _ Hh eq_refl Hb Hd) as (M1 & M2 & M3).
    eexists _, _, _. split; [reflexivity|]. split; [exact M1|]. split; [|split; [exact M2|split; [done|exact M3]]].
    split; [|intros k b Hk; by apply Hl1]. intros b. split; [|by intros []]. intros Hbf. split; [done|]. intros ->.
    by apply (proj2 (proj2 (in_nodup _ _ _ _ Hi)) s' (mu + s)); [lia|..].
  - destruct (detach_list h B hl fl (mu + s) s' fuel Hi Hwhere Hb Hf1) as (head' & m' & fl1 & E1 & Hd & Hl1).
    rewrite E1. cbn [mbind option_bind]. destruct (hole_merge _ _ _ _ _ _ _ _ _ _ _ Hh eq_refl Hb Hd) as (M1 & M2 & M3).
    eexists _, _, _. split; [reflexivity|]. split; [exact M1|]. split; [|split; [exact M2|split; [done|exact M3]]].
    split; [exact Hl1|]. intros k b Hk. split; [|by intros []]. intros Hbk. split; [done|]. intros ->.
    by apply (proj2 (proj2 (in_nodup _ _ _ _ Hi)) k (mu + s)).
Qed.
