(* ===== verification/HeapTheorems.v ===== *)
(** * What the kernel heap promises

    Starting the heap establishes the invariant, allocation hands out fresh,
    aligned, guarded blocks, and freeing returns them; with the defects that
    break the promise. *)

From stdpp Require Import gmap fin_maps.
From S2P Require Import Prelude Heap HeapFacts HeapInv.
Open Scope Z_scope.

(** Blocks in use in [B'] are those of [B], and [b] of size [t]. *)
Definition gains (B B' : blocks) (b t : Z) : Prop :=
  forall c r, B' !! c = Some (r, true) <-> B !! c = Some (r, true) \/ (c = b /\ r = t).

Lemma split_gains (B B1 : blocks) mu s t :
  B1 !! mu = None -> (s >? t + 32 = true -> B1 !! (mu + t) = None) ->
  0 < t -> (forall c r, B1 !! c = Some (r, true) <-> B !! c = Some (r, true)) -> gains B (split_blocks B1 mu s t) mu t.
Proof.
  intros Hn Hr Ht Hb c r. rewrite <- Hb. unfold split_blocks. destruct (s >? t + 32) eqn:E.
  - rewrite !lookup_insert_Some. split.
    + intros [[_ ?]|(Hne & [[<- E2]|[_ H]])]; [done|right; by injection E2 as <-|by left].
    + intros [H|[-> ->]].
      * right. split; [intros <-; rewrite Hr in H; done|]. right. split; [intros <-; congruence|done].
      * right. split; [lia|by left].
  - rewrite lookup_insert_Some. split.
    + intros [[<- E2]|[_ H]]; [right; by injection E2 as <-|by left].
    + intros [H|[-> ->]]; [right; split; [intros <-; congruence|done]|by left].
Qed.

Lemma claim_live h h' B hl fl mu s t :
  hole h B hl fl mu s -> claimed h h' mu s t -> keeps_live B (h_mem h) (h_mem h').
Proof.
  intros Hh Hc b r Hb x Hx. apply (cl_out _ _ _ _ _ Hc). pose proof (ho_apart _ _ _ _ _ _ Hh _ _ _ Hb). unfold apart in *. lia.
Qed.

(** A hole holds no block. *)
Lemma hole_inside h B hl fl mu s x : hole h B hl fl mu s -> mu <= x < mu + s -> B !! x = None.
Proof.
  intros Hh Hx. destruct (B !! x) as [[r u]|] eqn:E; [|done]. pose proof (ho_apart _ _ _ _ _ _ Hh _ _ _ E) as Ha.
  destruct (in_block _ _ _ _ (ho_inv _ _ _ _ _ _ Hh) _ _ _ E) as (_ & _ & ? & _). unfold apart in Ha. lia.
Qed.

(** The heap as [mem_init] leaves it. *)
Definition started (base : Z) (m : memory) (total : Z) : heap :=
  {| h_base := base; h_total := total; h_next_page := base + 8192; h_end := base + total;
     h_sig := HEAP_CTRL_SIGNATURE; h_hash := replicate 512 0; h_free := 0; h_used := 0;
     h_max := total - 4096; h_mem := m |}.

Lemma started_inv base m total :
  0 < base -> base mod 16 = 0 -> 8192 <= total < 2 ^ 32 -> base + total < 2 ^ 63 ->
  inv (started base m total) ∅ (fun _ => []) [].
Proof.
  intros H0 H16 Ht He.
  constructor; cbn [started h_base h_total h_next_page h_end h_hash h_free h_max h_mem]; try done; try set_solver.
  - split_and!; try (done || lia). rewrite Zplus_mod, H16. done.
  - intros k Hk. rewrite lookup_replicate_2; [done|]. lia.
  - split; [apply NoDup_nil_2|]. split; [intros; apply NoDup_nil_2|set_solver].
Qed.

(** Starting the heap on a 16-byte aligned region of at least two
    pages gives a heap that satisfies the invariant with no block at all. *)
Theorem heap_init_establishes_inv base m total :
  0 < base -> base mod 16 = 0 -> 8192 <= total < 2 ^ 32 -> base + total < 2 ^ 63 ->
  exists h, mem_init (Some base) m total = Some h /\ inv h ∅ (fun _ => []) [] /\
    mem_validate h = 0 /\ mem_used h = 0 /\ mem_available h = total - 4096.
Proof.
  intros H0 H16 Ht He. exists (started base m total). split.
  - unfold mem_init, alloc_pages, CTRL, MEM_PAG_SIZE. cbn [h_next_page h_end].
    change (u64 ((4144 + 4096 - 1) / 4096 * 4096)) with 8192.
    destruct (Z.gtb_spec (base + 8192) (base + total)) as [|Hle]; [lia|]. cbn [set_next_page h_next_page h_end].
    by rewrite (wrap_id 64 (total - 4096)) by (unfold_fits; lia).
  - split; [by apply started_inv|]. split; [done|]. split; [done|].
    unfold mem_available. cbn [started h_max h_used]. rewrite wrap_id; [lia|]. unfold_fits. lia.
Qed.
Lemma heap_init_establishes_inv_witness :
  exists h, mem_init (Some 4194304) (fun _ => 0) 65536 = Some h /\ inv h ∅ (fun _ => []) [] /\
    mem_validate h = 0 /\ mem_used h = 0 /\ mem_available h = 65536 - 4096.
Proof. apply heap_init_establishes_inv; [lia|reflexivity|lia|lia]. Defined.


(** ** Freeing *)

(** The header stores of [mem_free] turn a block in use into a hole. *)
Lemma free_hole h B hl fl b s used :
  inv h B hl fl -> B !! b = Some (s, true) ->
  let h1 := set_mem (set_used h used) (put64 (put32 (h_mem h) b MEM_UNUSED_SIGNATURE) (b + 8) 0) in
  hole h1 (delete b B) hl fl b s /\ sig (h_mem h1) b = MEM_UNUSED_SIGNATURE /\
  same_out (h_mem h) (h_mem h1) b (b + 16).
Proof.
  intros Hi Hb h1. pose proof Hi as [_ _ A3 _ A5 _ _ A8 A9 _].
  destruct (A3 _ _ _ Hb) as (_ & _ & Hs48 & _).
  assert (hole h (delete b B) hl fl b s) as [Hi0 Hr Hn Ha Hs].
  { eapply inv_remove; [exact Hi|exact Hb| |].
    - intros Hin. destruct (A9 _ Hin). congruence.
    - intros k Hk Hin. pose proof (A8 _ _ Hk Hin). congruence. }
  assert (same_out (h_mem h) (h_mem h1) b (b + 16)) as Ho.
  { cbn [h1 set_mem set_used h_mem]. apply (same_out_trans _ (put32 (h_mem h) b MEM_UNUSED_SIGNATURE)).
    - eapply same_out_sub; [| |apply put32_out]; lia.
    - eapply same_out_sub; [| |apply put64_out]; lia. }
  split; [|split; [|done]].
  - constructor; try done.
    + eapply inv_frame; [exact Hi0|exact Ho|..]; try done. intros c r u Hc. specialize (Ha _ _ _ Hc). unfold apart in *. lia.
    + cbn [h1 set_mem set_used h_mem]. unfold size in *. mem_simp. exact Hs.
  - cbn [h1 set_mem set_used h_mem]. unfold sig. by mem_simp.
Qed.

(** The push onto a list stores only into the block pushed. *)
Lemma push_free_out h b : h_used (push_free h b) = h_used h /\ same_out (h_mem h) (h_mem (push_free h b)) (b + 8) (b + 16).
Proof.
  unfold push_free. destruct (_ <? _); cbn [set_lists h_used h_mem];
    (split; [done|eapply same_out_sub; [| |apply put64_out]; lia]).
Qed.

(** Taking the freed block itself out of the map does not change what follows it. *)
Lemma merged_size_delete B b s : 0 < s -> merged_size (delete b B) (b + s) s = merged_size B (b + s) s.
Proof. intros Hs. unfold merged_size. by rewrite lookup_delete_ne by lia. Qed.
Lemma merged_blocks_delete B b s : 0 < s -> merged_blocks (delete b B) (b + s) = delete b (merged_blocks B (b + s)).
Proof.
  intros Hs. unfold merged_blocks. rewrite lookup_delete_ne by lia. destruct (B !! (b + s)) as [[s' []]|]; try done. apply delete_delete.
Qed.
Lemma merged_blocks_used B n c r : B !! c = Some (r, true) -> merged_blocks B n !! c = Some (r, true).
Proof.
  intros Hc. unfold merged_blocks. destruct (B !! n) as [[s' []]|] eqn:E; try done.
  rewrite lookup_delete_ne; [done|]. intros ->. congruence.
Qed.


(** The first allocation of a fresh heap takes the first page behind the
    controller and splits it. *)
Lemma first_block base m total sz :
  0 < base -> base mod 16 = 0 -> 12288 <= total < 2 ^ 32 -> base + total < 2 ^ 63 -> 0 <= sz < 4000 ->
  let mu := base + 8192 in let t := round_total sz in
  exists h', mem_alloc 0 (started base m total) sz = Some (mu + 32, h') /\
    inv h' (split_blocks ∅ mu 4096 t) (fun _ => []) (split_list [] mu 4096 t).
Proof.
  intros H0 H16 Ht He Hsz mu t.
  destruct (round_total_spec sz ltac:(lia)) as (T1 & T2 & T3). fold t in T1, T2, T3.
  pose proof (started_inv base m total H0 H16 ltac:(lia) He) as Hi.
  pose proof (fresh_source _ _ _ _ 1 Hi ltac:(lia) ltac:(cbn [started h_next_page h_end]; lia)) as [Hh Hu Hb Hl].
  change (1 * 4096) with 4096 in *. set (h1 := set_mem _ _) in Hh.
  pose proof Hh as [_ (R1 & R2 & R3 & R4 & R5) _ _ Hs].
  destruct (claim_spec h1 (h_next_page (started base m total)) 4096 t) as (h' & Ec & Hc);
    try (done || lia || (cbn [started h_next_page]; lia)).
  exists h'. split; [|by eapply claim_inv; [exact Hh|exact Hc|lia|]].
  unfold mem_alloc. fold t. cbn [started h_hash h_free h_mem].
  assert ((if t <? MEM_HEAP_HASH_SIZE then default 0 (replicate 512 0 !! Z.to_nat t) else 0) = 0) as ->.
  { unfold MEM_HEAP_HASH_SIZE. destruct (Z.ltb_spec t 512); [|done]. by rewrite lookup_replicate_2 by lia. }
  cbn [Z.eqb negb first_fit mbind option_bind]. unfold alloc_pages, MEM_PAG_SIZE.
  rewrite (wrap_id 64 (t + 4096 - 1)) by (unfold_fits; lia).
  replace ((t + 4096 - 1) / 4096) with 1 by (apply Z.div_unique with (t - 1); lia).
  change (u64 (1 * 4096)) with 4096. cbn [started h_next_page h_end].
  destruct (Z.gtb_spec (base + 8192 + 4096) (base + total)) as [|Hle]; [lia|].
  apply (f_equal Some). exact Ec.
Qed.


(** ** Defects *)

(** The outcome of a sequence of calls. *)
Inductive call := CAlloc (sz : Z) | CFree (p : Z).
Definition run_call (fuel : nat) (st : option (list Z * heap)) (c : call) : option (list Z * heap) :=
  '(ps, h) ← st;
  match c with
  | CAlloc sz => '(p, h) ← mem_alloc fuel h sz; Some (ps ++ [p], h)
  | CFree p => h ← mem_free fuel h p; Some (ps, h)
  end.
Definition run_calls (h : heap) (cs : list call) : option (list Z * heap) :=
  foldl (run_call 64) (Some ([], h)) cs.

(** A remainder of less than 512 bytes lives on the free list, but freeing the
    block in front of it looks for it in a bucket: it is merged and stays on the
    list, and the same bytes are handed out twice. *)
Lemma heap_small_remainder_is_handed_out_twice :
  fst <$> run_calls (started 4194304 (fun _ => 0) 65536) [CAlloc 3600; CFree 4202528; CAlloc 4000; CAlloc 300]
    = Some [4202528; 4202528; 4206176] /\ 4206176 < 4202528 + 4000.
Proof. split; [vm_compute; reflexivity|lia]. Qed.

(** A request whose rounded size overflows is granted: the block has no room. *)
Lemma heap_huge_request_is_granted :
  round_total (2 ^ 64 - 48) = 0 /\
  fst <$> run_calls (started 4194304 (fun _ => 0) 65536) [CAlloc 4000; CFree 4202528; CAlloc (2 ^ 64 - 48)]
    = Some [4202528; 4202528].
Proof. split; [reflexivity|vm_compute; reflexivity]. Qed.

(** The check for adjacent free blocks starts inside the controller's pages,
    where it finds no block: two free neighbours are not reported. *)
Lemma heap_adjacent_check_sees_nothing :
  (fun '(ps, h) =>
     (ps, sig (h_mem h) 4202496, size (h_mem h) 4202496, sig (h_mem h) 4206592, mem_validate_coalescing 64 h)) <$>
  run_calls (started 4194304 (fun _ => 0) 65536) [CAlloc 4048; CAlloc 4048; CFree 4202528; CFree 4206624]
    = Some ([4202528; 4206624], MEM_UNUSED_SIGNATURE, 4096, MEM_UNUSED_SIGNATURE, Some 0).
Proof. vm_compute. reflexivity. Qed.

(** The end of the heap that freeing uses is 48 bytes too high: a header found
    behind the heap is merged into the block freed. *)
Lemma heap_free_merges_past_the_end :
  let m : memory := put32 (put32 (fun _ => 0) 4206592 MEM_UNUSED_SIGNATURE) 4206596 4096 in
  (fun '(ps, h) => (ps, h_end h, size (h_mem h) 4202496)) <$>
  run_calls (started 4194304 m 12288) [CAlloc 4048; CFree 4202528] = Some ([4202528], 4206592, 8192).
Proof. vm_compute. reflexivity. Qed.
