(* ===== verification/Sha256Facts.v ===== *)
(** * Correctness of the SHA-256 code

    The buffered context stands for the message seen so far; from this the
    digest of any sequence of updates follows. *)

From S2P Require Import Prelude Sha256.
Open Scope Z_scope.

Lemma compress_length st b : length st = 8%nat -> length (sha256_compress st b) = 8%nat.
Proof.
  intros Hs. unfold sha256_compress. generalize (schedule b). intros w.
  generalize (foldl (sha_round w) (st !!! 0%nat, st !!! 1%nat, st !!! 2%nat, st !!! 3%nat, st !!! 4%nat, st !!! 5%nat,
                st !!! 6%nat, st !!! 7%nat) (seq 0 64)).
  intros [[[[[[[a b'] c] d] e] f] g] h]. by rewrite length_zip_with, Hs.
Qed.

#[local] Opaque sha256_compress.

(** ** Blocks *)

Lemma length_blocks64 l : length (blocks64 l) = (length l / 64)%nat.
Proof. unfold blocks64. by rewrite length_fmap, length_seq. Qed.

Lemma blocks64_app a b : (length a mod 64 = 0)%nat -> blocks64 (a ++ b) = blocks64 a ++ blocks64 b.
Proof.
  intros Ha. apply Nat.Div0.div_exact in Ha. set (k := (length a / 64)%nat) in *.
  unfold blocks64. rewrite length_app. fold k.
  replace ((length a + length b) / 64)%nat with (k + length b / 64)%nat
    by (rewrite Ha, Nat.mul_comm, Nat.div_add_l; lia).
  rewrite seq_app, fmap_app. f_equal.
  - apply list_fmap_ext. intros i x Hx. apply lookup_seq in Hx as [-> Hx]. cbn [plus]. unfold slice.
    rewrite drop_app_le by lia. rewrite take_app_le by (rewrite length_drop; lia). done.
  - rewrite Nat.add_0_l, <- (Nat.add_0_r k), <- fmap_add_seq, <- list_fmap_compose.
    apply list_fmap_ext. intros i x Hx. cbn [compose]. unfold slice. f_equal.
    rewrite drop_app_ge by lia. f_equal. lia.
Qed.

Lemma blocks64_short t : (length t < 64)%nat -> blocks64 t = [].
Proof. intros Ht. unfold blocks64. by rewrite Nat.div_small. Qed.
Lemma blocks64_one l : length l = 64%nat -> blocks64 l = [l].
Proof. intros Hl. unfold blocks64. rewrite Hl. cbn. unfold slice. rewrite drop_0, take_ge by lia. done. Qed.

Lemma absorb_spec fuel : forall st p,
  (length p <= fuel)%nat ->
  absorb fuel st p = (foldl sha256_compress st (blocks64 p), drop (64 * (length p / 64)) p).
Proof.
  induction fuel as [|fuel IH]; intros st p Hp; cbn [absorb].
  - destruct p; [done|cbn in Hp; lia].
  - destruct (Nat.leb_spec 64 (length p)) as [H64|H64].
    + rewrite IH by (rewrite length_drop; lia).
      replace (blocks64 p) with (blocks64 (take 64 p ++ drop 64 p)) by (by rewrite take_drop).
      rewrite blocks64_app by (rewrite length_take, Nat.min_l by lia; done).
      rewrite (blocks64_one (take 64 p)) by (rewrite length_take; lia). cbn [app foldl].
      rewrite drop_drop, length_drop. repeat f_equal.
      replace (length p) with (1 * 64 + (length p - 64))%nat at 2 by lia. rewrite Nat.div_add_l by lia. lia.
    + by rewrite blocks64_short, Nat.div_small, drop_0 by lia.
Qed.

(** ** What a context stands for *)

Record rep (c : sha_ctx) (msg : list Z) : Prop := {
  rep_split : exists a t, msg = a ++ t /\ (length a mod 64 = 0)%nat /\ (length t < 64)%nat /\
    c_state c = foldl sha256_compress IV (blocks64 a) /\ c_buflen c = length t /\ take (length t) (c_buf c) = t;
  rep_buf : length (c_buf c) = 64%nat;
  rep_bitlen : c_bitlen c = u64 (8 * Z.of_nat (length msg)) }.

Lemma length_buf_put buf off bs : (off + length bs <= length buf)%nat -> length (buf_put buf off bs) = length buf.
Proof. intros H. unfold buf_put. rewrite !length_app, length_take, length_drop. lia. Qed.
Lemma take_buf_put buf off bs t :
  (off + length bs <= length buf)%nat -> take off buf = t -> take (off + length bs) (buf_put buf off bs) = t ++ bs.
Proof.
  intros H <-. unfold buf_put. rewrite app_assoc. apply take_app_length'. rewrite length_app, length_take. lia.
Qed.

Lemma init_rep buf : length buf = 64%nat -> rep (wubu_sha256_init buf) [].
Proof. intros. constructor; [|done|done]. exists [], []. split_and!; try done. cbn. lia. Qed.

Lemma absorb_rest_rep a buf p bitlen :
  (length a mod 64 = 0)%nat -> length buf = 64%nat -> bitlen = u64 (8 * Z.of_nat (length (a ++ p))) ->
  rep (absorb_rest (foldl sha256_compress IV (blocks64 a)) bitlen buf p) (a ++ p).
Proof.
  intros Ha Hbuf ->. unfold absorb_rest. rewrite absorb_spec by lia.
  set (n := (64 * (length p / 64))%nat). assert (n <= length p)%nat as Hn by (apply Nat.Div0.mul_div_le).
  assert (length p < n + 64)%nat as Hn2 by (unfold n; pose proof (Nat.mod_upper_bound (length p) 64); pose proof (Nat.div_mod_eq (length p) 64); lia).
  assert (length (a ++ take n p) mod 64 = 0)%nat as Ha2.
  { rewrite length_app, length_take, Nat.min_l by lia. unfold n. by rewrite Nat.mul_comm, Nat.Div0.mod_add. }
  assert (foldl sha256_compress (foldl sha256_compress IV (blocks64 a)) (blocks64 p)
          = foldl sha256_compress IV (blocks64 (a ++ take n p))) as ->.
  { rewrite <- foldl_app. f_equal. rewrite <- (take_drop n p) at 1.
    rewrite (blocks64_app (take n p)) by (rewrite length_take, Nat.min_l by lia; unfold n; by rewrite Nat.mul_comm, Nat.Div0.mod_mul).
    rewrite (blocks64_short (drop n p)) by (rewrite length_drop; lia). by rewrite app_nil_r, blocks64_app. }
  assert (length (drop n p) = length p - n)%nat as Hd by apply length_drop.
  destruct (Nat.ltb_spec 0 (length (drop n p))) as [H0|H0].
  - constructor; [|cbn [c_buf]; rewrite length_buf_put; lia|done].
    exists (a ++ take n p), (drop n p). rewrite <- app_assoc, take_drop. split_and!; try (done || lia).
    apply (take_buf_put buf 0 (drop n p) []); [lia|done].
  - constructor; [|done|done]. exists (a ++ take n p), (drop n p). rewrite <- app_assoc, take_drop.
    split_and!; try (done || lia); destruct (drop n p) as [|x q]; try done; cbn in H0; lia.
Qed.

Lemma bitlen_app (msg p : list Z) :
  u64 (u64 (8 * Z.of_nat (length msg)) + u64 (Z.of_nat (length p) * 8)) = u64 (8 * Z.of_nat (length (msg ++ p))).
Proof.
  unfold wrap. rewrite <- Zplus_mod. f_equal. rewrite length_app. lia.
Qed.

Lemma update_rep c msg p : rep c msg -> rep (wubu_sha256_update c (Some p)) (msg ++ p).
Proof.
  intros [(a & t & -> & Ha & Ht & Hst & Hlen & Htake) Hbuf Hbit]. unfold wubu_sha256_update.
  rewrite Hbit, bitlen_app, Hlen. destruct (Nat.ltb_spec 0 (length t)) as [H0|H0].
  - destruct (Nat.ltb_spec (length p) (64 - length t)) as [Hs|Hs].
    + constructor; [|cbn [c_buf]; rewrite length_buf_put; lia|done]. exists a, (t ++ p).
      rewrite app_assoc, length_app. split_and!; try (done || lia). by apply take_buf_put; [lia|].
    + set (need := (64 - length t)%nat).
      assert (length (take need p) = need) as Hn by (rewrite length_take; unfold need; lia).
      assert (buf_put (c_buf c) (length t) (take need p) = t ++ take need p) as Eb.
      { assert (length t + length (take need p) <= length (c_buf c))%nat as Hle by (rewrite Hn, Hbuf; unfold need; lia).
        etrans; [|exact (take_buf_put (c_buf c) (length t) (take need p) t Hle Htake)].
        symmetry. apply take_ge. rewrite length_buf_put by done. rewrite Hn, Hbuf. unfold need. lia. }
      assert (length (t ++ take need p) = 64)%nat as H64 by (rewrite length_app, Hn; unfold need; lia).
      rewrite Eb. replace ((a ++ t) ++ p) with ((a ++ t ++ take need p) ++ drop need p)
        by (by rewrite <- !app_assoc, take_drop).
      replace (sha256_compress (c_state c) (t ++ take need p))
        with (foldl sha256_compress IV (blocks64 (a ++ t ++ take need p))).
      2:{ rewrite blocks64_app, (blocks64_one (t ++ take need p)), foldl_app by assumption. cbn [foldl]. by rewrite Hst. }
      apply absorb_rest_rep; [|done|done].
      rewrite length_app, H64, Nat.Div0.add_mod, Ha. done.
  - destruct t as [|x t]; [|cbn in H0; lia]. rewrite app_nil_r in *. rewrite Hst. by apply absorb_rest_rep.
Qed.

(** ** Padding *)

Lemma u8_shiftr_u64 v k : 0 <= k <= 56 -> u8 (Z.shiftr (u64 v) k) = u8 (v / 2 ^ k).
Proof.
  intros Hk. unfold wrap. rewrite <- Z.shiftr_div_pow2 by lia. apply Z.bits_inj'. intros n Hn.
  rewrite !Z.testbit_mod_pow2 by lia. destruct (Z.ltb_spec n 8); [|done]. cbn [andb].
  rewrite !Z.shiftr_spec by lia. rewrite Z.testbit_mod_pow2 by lia. destruct (Z.ltb_spec (n + k) 64); [done|lia].
Qed.

Lemma lenb_rev v : lenb (u64 v) = rev (le_enc 8 v).
Proof.
  unfold lenb. cbn [seq fmap list_fmap le_enc rev app]. rewrite !Z.div_div by lia.
  rewrite !u8_shiftr_u64 by lia. repeat f_equal. cbn [Z.of_nat Z.mul Z.sub]. by rewrite Z.div_1_r.
Qed.

(** The number of zeros the code inserts is that of the standard. *)
Lemma final_zeros l :
  let b := ((l + 1) mod 64)%nat in
  let rem := (64 - b)%nat in
  ((if (rem <? 8)%nat then rem + 64 else rem) - 8 = (119 - l mod 64) mod 64 /\
   8 <= (if (rem <? 8)%nat then rem + 64 else rem) /\ (119 - l mod 64) mod 64 <= 63)%nat.
Proof.
  cbn zeta. pose proof (Nat.mod_upper_bound l 64 ltac:(lia)) as Hl.
  rewrite (Nat.Div0.add_mod l 1). change (1 mod 64)%nat with 1%nat. set (r := (l mod 64)%nat) in *.
  destruct (decide (r = 63%nat)) as [->|Hr]; [vm_compute; lia|].
  rewrite (Nat.mod_small (r + 1)) by lia.
  destruct (Nat.ltb_spec (64 - (r + 1)) 8).
  - rewrite Nat.mod_small by lia. lia.
  - replace (119 - r)%nat with (55 - r + 1 * 64)%nat by lia. rewrite Nat.Div0.mod_add, Nat.mod_small by lia. lia.
Qed.

Lemma rep_buflen c msg : rep c msg -> c_buflen c = (length msg mod 64)%nat.
Proof.
  intros [(a & t & -> & Ha & Ht & _ & -> & _) _ _].
  rewrite length_app, Nat.Div0.add_mod, Ha, Nat.add_0_l, Nat.Div0.mod_mod, Nat.mod_small by done. done.
Qed.

(** A context that stands for a whole number of blocks holds their digest. *)
Lemma rep_state c msg : rep c msg -> (length msg mod 64 = 0)%nat -> c_state c = foldl sha256_compress IV (blocks64 msg).
Proof.
  intros Hr H0. pose proof (rep_buflen _ _ Hr) as Hb. destruct Hr as [(a & t & -> & _ & _ & -> & Hl & _) _ _].
  assert (length t = 0)%nat as Ht by congruence. destruct t; [|done]. by rewrite app_nil_r.
Qed.

Lemma length_pad msg : (length (pad msg) mod 64 = 0)%nat.
Proof.
  unfold pad. rewrite !length_app, length_replicate, length_rev, length_le_enc. cbn [length].
  pose proof (Nat.mod_upper_bound (length msg) 64 ltac:(lia)) as Hl. pose proof (Nat.div_mod_eq (length msg) 64) as E.
  set (q := (length msg / 64)%nat) in *. set (r := (length msg mod 64)%nat) in *. rewrite E.
  destruct (Nat.leb_spec r 55).
  - replace (119 - r)%nat with (55 - r + 1 * 64)%nat by lia. rewrite Nat.Div0.mod_add, (Nat.mod_small (55 - r)) by lia.
    replace (64 * q + r + (1 + (55 - r + 8)))%nat with ((q + 1) * 64)%nat by lia. apply Nat.Div0.mod_mul.
  - rewrite (Nat.mod_small (119 - r)) by lia.
    replace (64 * q + r + (1 + (119 - r + 8)))%nat with ((q + 2) * 64)%nat by lia. apply Nat.Div0.mod_mul.
Qed.

Lemma final_spec c msg : rep c msg -> snd (wubu_sha256_final c) = fips_sha256 msg.
Proof.
  intros Hr. unfold wubu_sha256_final, fips_sha256. pose proof (rep_bitlen _ _ Hr) as Hbit.
  pose proof (update_rep _ _ [128] Hr) as H1. set (c1 := wubu_sha256_update c (Some [128])) in *.
  rewrite (rep_buflen _ _ H1), length_app. cbn [length].
  destruct (final_zeros (length msg)) as (Z1 & Z2 & Z3). cbn zeta in Z1, Z2. set (rem := if (_ <? 8)%nat then _ else _) in *.
  rewrite Hbit, lenb_rev. cbn [snd]. f_equal.
  assert (rep (if (8 <? rem)%nat then wubu_sha256_update c1 (Some (take (rem - 8) (replicate 64 0))) else c1)
            ((msg ++ [128]) ++ replicate ((119 - length msg mod 64) mod 64) 0)) as H2.
  { rewrite Z1. destruct (Nat.ltb_spec 8 rem).
    - rewrite take_replicate, Nat.min_l by lia. by apply update_rep.
    - replace ((119 - length msg mod 64) mod 64)%nat with 0%nat by lia. by rewrite app_nil_r. }
  apply update_rep with (p := rev (le_enc 8 (8 * Z.of_nat (length msg)))) in H2.
  rewrite (rep_state _ _ H2); unfold pad; rewrite <- !app_assoc in *; [done|]. apply length_pad.
Qed.

(** ** Theorems *)

(** C23. The digest of a message is that of the FIPS 180-4
    construction: padded with a one bit, zeros and the bit length, cut into
    64-byte blocks, folded with the compression function from the initial value.
    A null pointer hashes like the empty message, and what the context's buffer
    held before does not matter. *)
Theorem sha256_is_fips_construction buf data :
  length buf = 64%nat -> wubu_sha256 buf data = fips_sha256 (default [] data).
Proof.
  intros Hb. unfold wubu_sha256. apply final_spec. destruct data as [p|]; cbn [default].
  - apply (update_rep _ []). by apply init_rep.
  - by apply init_rep.
Qed.
Lemma sha256_is_fips_construction_witness :
  wubu_sha256 (replicate 64 255) (Some (str "abc")) = fips_sha256 (str "abc").
Proof. apply (sha256_is_fips_construction (replicate 64 255) (Some (str "abc"))). reflexivity. Defined.

(** Hashing a message in pieces, of any number and sizes, gives the
    digest of the whole message hashed at once. *)
Theorem sha256_streaming_equals_one_shot buf buf' chunks :
  length buf = 64%nat -> length buf' = 64%nat ->
  snd (wubu_sha256_final (foldl (fun c p => wubu_sha256_update c (Some p)) (wubu_sha256_init buf) chunks)) =
  wubu_sha256 buf' (Some (mjoin chunks)).
Proof.
  intros Hb Hb'. unfold wubu_sha256.
  rewrite (final_spec (wubu_sha256_update (wubu_sha256_init buf') _) (mjoin chunks))
    by (apply (update_rep _ []); by apply init_rep).
  apply final_spec. change (mjoin chunks) with ([] ++ mjoin chunks).
  generalize (init_rep buf Hb). generalize (wubu_sha256_init buf) as c, ([] : list Z) as msg.
  induction chunks as [|p chunks IH]; intros c msg Hr; cbn [foldl mjoin list_join]; [by rewrite app_nil_r|].
  rewrite app_assoc. apply IH. by apply update_rep.
Qed.
Lemma sha256_streaming_equals_one_shot_witness :
  snd (wubu_sha256_final (foldl (fun c p => wubu_sha256_update c (Some p)) (wubu_sha256_init (replicate 64 1)) [str "a"; []; str "bc"])) =
  wubu_sha256 (replicate 64 2) (Some (str "abc")).
Proof. apply (sha256_streaming_equals_one_shot (replicate 64 1) (replicate 64 2) [str "a"; []; str "bc"]); reflexivity. Defined.
