(* ===== verification/Attest.v ===== *)
(** * Firmware attestation and the runtime measurement register

    [kernel/wubu_attest.c].  The loader's hand-off block and the attestation
    table are read out of byte-addressed memory at their C offsets; the module's
    static variables are one record.  Output pointers are never null here, and a
    digest computed into them is the function's result. *)

From S2P Require Import Prelude Heap Sha256 Sha256Facts.
Open Scope Z_scope.

Definition WUBU_AGI_MAGIC : Z := 0x4147494F75427557.
Definition WUBU_AGI_ATTEST_VERSION : Z := 1.
Definition WUBU_AGI_PCR_COUNT : Z := 8.
Definition WUBU_AGI_PCR_SZ : nat := 32.
Definition WUBU_LOADER_HANDOFF_MAGIC : Z := 0x4F46464E41485757.
Definition WUBU_HANDOFF_PTR_ADDR : Z := 0x90040.

(** A field of a table held as bytes. *)
Definition fld (t : list Z) (off n : nat) : Z := le_dec (slice t off n).

Record attest_state := {
  g_att : list Z;                    (* wubu_attest_t, 288 bytes *)
  g_valid : bool;
  g_kernel_sha : list Z;
  g_kernel_size : Z;
  g_runtime_pcr : list Z;
  g_runtime_pcr_live : bool }.

Definition set_valid (st : attest_state) (v : bool) : attest_state :=
  {| g_att := g_att st; g_valid := v; g_kernel_sha := g_kernel_sha st; g_kernel_size := g_kernel_size st;
     g_runtime_pcr := g_runtime_pcr st; g_runtime_pcr_live := g_runtime_pcr_live st |}.
Definition set_att (st : attest_state) (att : list Z) (v : bool) : attest_state :=
  {| g_att := att; g_valid := v; g_kernel_sha := g_kernel_sha st; g_kernel_size := g_kernel_size st;
     g_runtime_pcr := g_runtime_pcr st; g_runtime_pcr_live := g_runtime_pcr_live st |}.
Definition set_kernel (st : attest_state) (sha : list Z) (sz : Z) : attest_state :=
  {| g_att := g_att st; g_valid := g_valid st; g_kernel_sha := sha; g_kernel_size := sz;
     g_runtime_pcr := g_runtime_pcr st; g_runtime_pcr_live := g_runtime_pcr_live st |}.
Definition set_pcr (st : attest_state) (pcr : list Z) : attest_state :=
  {| g_att := g_att st; g_valid := g_valid st; g_kernel_sha := g_kernel_sha st; g_kernel_size := g_kernel_size st;
     g_runtime_pcr := pcr; g_runtime_pcr_live := true |}.

(** ** Ingesting *)

Definition attest_copy (m : memory) (st : attest_state) (raw : Z) : Z * attest_state :=
  if raw =? 0 then (-1, st) else
  let a := get_bytes m raw 288 in
  if negb (fld a 0 8 =? WUBU_AGI_MAGIC) then (-1, st) else
  if negb (fld a 8 4 =? WUBU_AGI_ATTEST_VERSION) then (-1, st) else
  if negb (fld a 24 4 =? WUBU_AGI_PCR_COUNT) then (-1, st) else
  (0, set_att st a true).

Definition wubu_attest_ingest (m : memory) (st : attest_state) (raw : Z) : Z * attest_state :=
  attest_copy m (set_valid st false) raw.

Definition wubu_attest_ingest_handoff (m : memory) (st : attest_state) (handoff : Z) : Z * attest_state :=
  let st := set_kernel (set_valid st false) (replicate WUBU_AGI_PCR_SZ 0) 0 in
  if handoff =? 0 then (-1, st) else
  let h := get_bytes m handoff 80 in
  if negb (fld h 0 8 =? WUBU_LOADER_HANDOFF_MAGIC) then (-1, st) else
  if (fld h 8 4 <? 1) || (fld h 8 4 >? 2) then (-1, st) else
  let st := set_kernel st (slice h 16 WUBU_AGI_PCR_SZ) (fld h 12 4) in
  if fld h 48 8 =? 0 then (-1, st) else attest_copy m st (fld h 48 8).

Definition wubu_attest_load_scratch (m : memory) (st : attest_state) : Z * attest_state :=
  let handoff_addr := get64 m WUBU_HANDOFF_PTR_ADDR in
  if handoff_addr =? 0 then (-1, st) else wubu_attest_ingest_handoff m st handoff_addr.

Definition wubu_attest_clear (st : attest_state) : attest_state :=
  set_kernel (set_att st (replicate 288 0) false) (replicate WUBU_AGI_PCR_SZ 0) 0.

(** ** Queries: [None] for -1 *)

Definition wubu_attest_valid (st : attest_state) : bool := g_valid st.
Definition wubu_attest_version (st : attest_state) : Z := if g_valid st then fld (g_att st) 8 4 else 0.
Definition wubu_attest_boot_counter (st : attest_state) : Z := if g_valid st then fld (g_att st) 28 4 else 0.
Definition wubu_attest_sb_enabled (st : attest_state) : bool := g_valid st && negb (fld (g_att st) 12 4 =? 0).
Definition wubu_attest_setup_mode (st : attest_state) : bool := g_valid st && negb (fld (g_att st) 16 4 =? 0).
Definition wubu_attest_pcr (st : attest_state) (i : Z) : option (list Z) :=
  if negb (g_valid st) || (i >=? WUBU_AGI_PCR_COUNT) then None
  else Some (slice (g_att st) (32 + 32 * Z.to_nat i) WUBU_AGI_PCR_SZ).
Definition wubu_attest_pcr4_digest (st : attest_state) : option (list Z) := wubu_attest_pcr st 4.
Definition wubu_attest_kernel_digest (st : attest_state) : option (list Z) :=
  if negb (g_valid st) then None else Some (g_kernel_sha st).
Definition wubu_attest_kernel_size (st : attest_state) : Z := if g_valid st then g_kernel_size st else 0.

(** ** The runtime register *)

(** The context lives on the stack; what its buffer held does not matter. *)
Definition sha (data : option (list Z)) : list Z := wubu_sha256 (replicate 64 0) data.

Definition start_pcr (st : attest_state) : attest_state :=
  if g_runtime_pcr_live st then st else set_pcr st (sha None).

(** The loop over the data: the register, and the first [n] bytes of [buf]. *)
Fixpoint extend_loop (fuel : nat) (pcr buf p : list Z) : list Z * list Z :=
  match fuel with
  | O => (pcr, buf)
  | S fuel =>
      if (length p =? 0)%nat then (pcr, buf) else
      let chunk := if (length p <? 64)%nat then length p else 64%nat in
      let buf := buf ++ take chunk p in
      let p := drop chunk p in
      if (WUBU_AGI_PCR_SZ + 64 <=? length buf)%nat then
        let pcr := sha (Some buf) in extend_loop fuel pcr pcr p
      else extend_loop fuel pcr buf p
  end.

(** [data] is null or [len] bytes. *)
Definition wubu_attest_extend_runtime (st : attest_state) (data : option (list Z)) (len : nat) : Z * attest_state :=
  if negb (g_valid st) || (bool_decide (data = None) && negb (len =? 0)%nat) then (-1, st) else
  let st := start_pcr st in
  let p := take len (default [] data) in
  let '(pcr, buf) := extend_loop (length p) (g_runtime_pcr st) (g_runtime_pcr st) p in
  let pcr :=
    if (WUBU_AGI_PCR_SZ <? length buf)%nat then sha (Some buf)
    else if (length buf =? WUBU_AGI_PCR_SZ)%nat then sha (Some buf) else pcr in
  (0, set_pcr st pcr).

Definition wubu_attest_runtime_pcr (st : attest_state) : option (list Z) * attest_state :=
  if negb (g_valid st) then (None, st) else
  let st := start_pcr st in (Some (g_runtime_pcr st), st).

(** ** Theorems *)

#[local] Opaque sha256_compress.

Lemma fips_length msg : length (fips_sha256 msg) = 32%nat.
Proof.
  unfold fips_sha256. assert (forall bs st, length st = 8%nat -> length (foldl sha256_compress st bs) = 8%nat) as H.
  { induction bs as [|b bs IH]; intros st Hs; [done|]. apply IH. by apply compress_length. }
  specialize (H (blocks64 (pad msg)) IV eq_refl). destruct (foldl _ _ _) as [|x0 [|x1 [|x2 [|x3 [|x4 [|x5 [|x6 [|x7 [|]]]]]]]]]; done.
Qed.
Lemma sha_fips data : sha data = fips_sha256 (default [] data).
Proof.
  destruct data as [p|]; cbn [default]; unfold sha, wubu_sha256; apply final_spec;
    [apply (update_rep _ [])|]; by apply init_rep.
Qed.

(** One extension: whole 64-byte chunks are chained one by one, the rest last. *)
Definition chain_link (pcr e : list Z) : list Z :=
  fips_sha256 (foldl (fun r b => fips_sha256 (r ++ b)) pcr (blocks64 e) ++ drop (64 * (length e / 64)) e).

Lemma chain_link_small pcr e : (length e < 64)%nat -> chain_link pcr e = fips_sha256 (pcr ++ e).
Proof. intros He. unfold chain_link. by rewrite blocks64_short, Nat.div_small, drop_0 by done. Qed.

Lemma extend_loop_spec fuel : forall pcr p,
  length pcr = 32%nat -> (length p <= fuel)%nat ->
  exists r, extend_loop fuel pcr pcr p =
    (r, foldl (fun r b => fips_sha256 (r ++ b)) pcr (blocks64 p) ++ drop (64 * (length p / 64)) p).
Proof.
  induction fuel as [|fuel IH]; intros pcr p Hpcr Hp; cbn [extend_loop].
  { destruct p; [|cbn in Hp; lia]. exists pcr. by rewrite app_nil_r. }
  destruct (Nat.eqb_spec (length p) 0) as [E0|H0].
  { destruct p; [|done]. exists pcr. by rewrite app_nil_r. }
  unfold WUBU_AGI_PCR_SZ. destruct (Nat.ltb_spec (length p) 64) as [Hs|Hl].
  - rewrite take_ge, drop_ge by lia. rewrite length_app, Hpcr. destruct (Nat.leb_spec (32 + 64) (32 + length p)); [lia|].
    rewrite blocks64_short, Nat.div_small, drop_0 by lia. exists pcr. by destruct fuel.
  - rewrite length_app, length_take, Hpcr, Nat.min_l by lia. cbn [Nat.leb Nat.add].
    destruct (IH (sha (Some (pcr ++ take 64 p))) (drop 64 p)) as [r ->].
    { rewrite sha_fips. apply fips_length. } { rewrite length_drop. lia. }
    exists r. f_equal. replace (blocks64 p) with (blocks64 (take 64 p ++ drop 64 p)) by (by rewrite take_drop).
    rewrite blocks64_app by (rewrite length_take, Nat.min_l by lia; done).
    rewrite (blocks64_one (take 64 p)) by (rewrite length_take; lia). cbn [app foldl]. rewrite sha_fips. cbn [default].
    rewrite drop_drop, length_drop. repeat f_equal.
    replace (length p) with (1 * 64 + (length p - 64))%nat at 2 by lia. rewrite Nat.div_add_l by lia. lia.
Qed.

(** The register the next extension starts from. *)
Definition pcr_now (st : attest_state) : list Z := if g_runtime_pcr_live st then g_runtime_pcr st else fips_sha256 [].
Definition pcr_ok (st : attest_state) : Prop := length (pcr_now st) = 32%nat.

Lemma start_pcr_now st : g_runtime_pcr (start_pcr st) = pcr_now st.
Proof. unfold start_pcr, pcr_now. destruct (g_runtime_pcr_live st); [done|]. cbn [set_pcr g_runtime_pcr]. apply sha_fips. Qed.

Lemma extend_spec st e :
  g_valid st = true -> pcr_ok st ->
  exists st', wubu_attest_extend_runtime st (Some e) (length e) = (0, st') /\ g_valid st' = true /\
    pcr_now st' = chain_link (pcr_now st) e /\ pcr_ok st'.
Proof.
  intros Hv Hok. unfold wubu_attest_extend_runtime. rewrite Hv. cbn [negb orb]. rewrite bool_decide_false by done. cbn [andb].
  change (default [] (Some e)) with e. rewrite start_pcr_now, take_ge by lia.
  destruct (extend_loop_spec (length e) (pcr_now st) e Hok ltac:(lia)) as [r ->].
  fold (chain_link (pcr_now st) e). eexists. split; [reflexivity|].
  split; [unfold start_pcr; by destruct (g_runtime_pcr_live st)|].
  unfold pcr_ok, pcr_now at 1 3. cbn [set_pcr g_runtime_pcr g_runtime_pcr_live].
  set (buf := _ ++ _). assert (32 <= length buf)%nat as Hb.
  { unfold buf. rewrite length_app. enough (length (foldl (fun r0 b => fips_sha256 (r0 ++ b)) (pcr_now st) (blocks64 e)) = 32)%nat by lia.
    destruct (blocks64 e) as [|b bs] using rev_ind; [done|]. rewrite foldl_app. apply fips_length. }
  assert ((if (WUBU_AGI_PCR_SZ <? length buf)%nat then sha (Some buf)
           else if (length buf =? WUBU_AGI_PCR_SZ)%nat then sha (Some buf) else r) = chain_link (pcr_now st) e) as ->.
  { unfold WUBU_AGI_PCR_SZ. destruct (Nat.ltb_spec 32 (length buf)); [apply sha_fips|].
    destruct (Nat.eqb_spec (length buf) 32); [apply sha_fips|lia]. }
  split; [done|]. apply fips_length.
Qed.

Definition extend_event (st : attest_state) (e : list Z) : attest_state :=
  snd (wubu_attest_extend_runtime st (Some e) (length e)).

(** With a valid attestation, the runtime register after any
    sequence of extensions is the hash chain over them: it starts from the digest
    of the empty string and each extension hashes the register before it with the
    event, 64 bytes at a time; for events of less than 64 bytes this is exactly
    [sha256 (pcr || data)]. *)
Theorem attest_runtime_pcr_is_hash_chain st es :
  g_valid st = true -> g_runtime_pcr_live st = false ->
  fst (wubu_attest_runtime_pcr (foldl extend_event st es)) = Some (foldl chain_link (fips_sha256 []) es) /\
  (Forall (fun e => (length e < 64)%nat) es ->
   foldl chain_link (fips_sha256 []) es = foldl (fun pcr e => fips_sha256 (pcr ++ e)) (fips_sha256 []) es).
Proof.
  intros Hv Hl. split.
  - assert (pcr_now st = fips_sha256 []) as <- by (unfold pcr_now; by rewrite Hl).
    assert (pcr_ok st) as Hok by (unfold pcr_ok, pcr_now; rewrite Hl; apply fips_length). clear Hl.
    revert st Hv Hok. induction es as [|e es IH]; intros st Hv Hok; cbn [foldl].
    + unfold wubu_attest_runtime_pcr. rewrite Hv. cbn [negb fst]. by rewrite start_pcr_now.
    + destruct (extend_spec st e Hv Hok) as (st' & E & Hv' & Hp & Hok'). unfold extend_event at 2. rewrite E. cbn [snd].
      rewrite IH by done. by rewrite Hp.
  - intros Hes. generalize (fips_sha256 []). induction Hes as [|e es He _ IH]; intros pcr; cbn [foldl]; [done|].
    by rewrite IH, chain_link_small.
Qed.

Definition blank : attest_state :=
  {| g_att := replicate 288 0; g_valid := false; g_kernel_sha := replicate 32 0; g_kernel_size := 0;
     g_runtime_pcr := replicate 32 0; g_runtime_pcr_live := false |}.

Lemma attest_runtime_pcr_is_hash_chain_witness :
  fst (wubu_attest_runtime_pcr (foldl extend_event (set_valid blank true) [str "boot"; str "promote"])) =
  Some (foldl chain_link (fips_sha256 []) [str "boot"; str "promote"]) /\
  foldl chain_link (fips_sha256 []) [str "boot"; str "promote"] =
  fips_sha256 (fips_sha256 (fips_sha256 [] ++ str "boot") ++ str "promote").
Proof.
  destruct (attest_runtime_pcr_is_hash_chain (set_valid blank true) [str "boot"; str "promote"] eq_refl eq_refl) as [H1 H2].
  split; [exact H1|]. apply H2. repeat constructor; cbn; lia.
Defined.

(** The conditions under which a hand-off block is trusted. *)
Definition handoff_ok (m : memory) (handoff : Z) : Prop :=
  let h := get_bytes m handoff 80 in
  let a := get_bytes m (fld h 48 8) 288 in
  handoff <> 0 /\ fld h 0 8 = WUBU_LOADER_HANDOFF_MAGIC /\ 1 <= fld h 8 4 <= 2 /\ fld h 48 8 <> 0 /\
  fld a 0 8 = WUBU_AGI_MAGIC /\ fld a 8 4 = WUBU_AGI_ATTEST_VERSION /\ fld a 24 4 = WUBU_AGI_PCR_COUNT.

(** No query and no extension answers. *)
Definition silent (st : attest_state) : Prop :=
  wubu_attest_valid st = false /\ wubu_attest_version st = 0 /\ wubu_attest_boot_counter st = 0 /\
  wubu_attest_sb_enabled st = false /\ wubu_attest_setup_mode st = false /\
  (forall i, wubu_attest_pcr st i = None) /\ wubu_attest_kernel_digest st = None /\ wubu_attest_kernel_size st = 0 /\
  (forall data len, wubu_attest_extend_runtime st data len = (-1, st)) /\ wubu_attest_runtime_pcr st = (None, st).

Lemma invalid_silent st : g_valid st = false -> silent st.
Proof.
  intros Hv. unfold silent, wubu_attest_valid, wubu_attest_version, wubu_attest_boot_counter, wubu_attest_sb_enabled,
    wubu_attest_setup_mode, wubu_attest_pcr, wubu_attest_kernel_digest, wubu_attest_kernel_size,
    wubu_attest_extend_runtime, wubu_attest_runtime_pcr. rewrite Hv. done.
Qed.

(** C36. A hand-off is accepted exactly when its magic and version are
    those of the loader and it points at an attestation table with the right
    magic, version and register count.  Accepted, the module answers with the
    eight firmware registers, the kernel digest and the kernel size it was handed;
    refused, whatever was trusted before, every query and every extension of the
    runtime register is refused. *)
Theorem attest_handoff_trusted_iff_wellformed m st handoff :
  let h := get_bytes m handoff 80 in
  let a := get_bytes m (fld h 48 8) 288 in
  exists rc st', wubu_attest_ingest_handoff m st handoff = (rc, st') /\
    (rc = 0 <-> handoff_ok m handoff) /\ (rc = 0 \/ rc = -1) /\
    (rc = 0 -> wubu_attest_valid st' = true /\ wubu_attest_kernel_digest st' = Some (slice h 16 32) /\
       wubu_attest_kernel_size st' = fld h 12 4 /\
       (forall i, 0 <= i < 8 -> wubu_attest_pcr st' i = Some (slice a (32 + 32 * Z.to_nat i) 32))) /\
    (rc = -1 -> silent st').
Proof.
  cbn zeta. unfold wubu_attest_ingest_handoff, attest_copy, handoff_ok.
  set (h := get_bytes m handoff 80). set (a := get_bytes m (fld h 48 8) 288).
  repeat (match goal with
          | |- context [if negb (?x =? ?y) then _ else _] => destruct (Z.eqb_spec x y); cbn [negb]
          | |- context [if ?x =? ?y then _ else _] => destruct (Z.eqb_spec x y)
          | |- context [if _ || _ then _ else _] =>
              destruct (Z.ltb_spec (fld h 8 4) 1), (Z.gtb_spec (fld h 8 4) 2); cbn [orb]
          end; try (eexists _, _; split; [reflexivity|]; split; [split; [done|lia]|]; split; [by right|];
                    split; [done|]; intros _; by apply invalid_silent)).
  eexists _, _. split; [reflexivity|]. split; [split; [lia|done]|]. split; [by left|]. split; [|done].
  intros _. split; [done|]. split; [done|]. split; [done|]. intros i Hi. unfold wubu_attest_pcr. cbn [set_att g_valid negb orb].
  unfold WUBU_AGI_PCR_COUNT. destruct (Z.geb_spec i 8); [lia|]. done.
Qed.

(** A longer event is not hashed as one message: 64 bytes chain twice. *)
Lemma attest_long_event_is_not_one_hash :
  let e := replicate 64 65 in
  chain_link (fips_sha256 []) e = fips_sha256 (fips_sha256 (fips_sha256 [] ++ e)) /\
  chain_link (fips_sha256 []) e <> fips_sha256 (fips_sha256 [] ++ e).
Proof. cbn zeta. split; [vm_compute; reflexivity|]. intros E. vm_compute in E. discriminate E. Qed.
