(* ===== verification/Txfs.v ===== *)
(** * The transactional file-system layer

    [kernel/txfs.c]: a write-ahead journal in memory, one open transaction, and
    recovery.  The journal buffer holds a header copy and fixed-size entries at
    computed offsets; entries never overlap, so the buffer is modelled as the
    header copy and an array of entry slots, with the room test in bytes as the
    code has it. *)

From S2P Require Import Prelude.
Open Scope Z_scope.

Definition TXFS_JOURNAL_MAGIC : Z := 0x544A4631.
Definition TXFS_MAX_TXN_OPS : Z := 64.
Definition TXFS_JOURNAL_SIZE : Z := 64 * 1024.
Definition TXFS_MAX_PATH : nat := 256.

Inductive txfs_op_type :=
  TXFS_OP_WRITE | TXFS_OP_TRUNCATE | TXFS_OP_CREATE | TXFS_OP_DELETE | TXFS_OP_MKDIR | TXFS_OP_RMDIR | TXFS_OP_RENAME | TXFS_OP_CHMOD.
#[global] Instance txfs_op_type_eq_dec : EqDecision txfs_op_type.
Proof. solve_decision. Defined.

Inductive txfs_txn_state := TXFS_TXN_CLOSED | TXFS_TXN_OPEN | TXFS_TXN_COMMITTING | TXFS_TXN_ABORTED.
#[global] Instance txfs_txn_state_eq_dec : EqDecision txfs_txn_state.
Proof. solve_decision. Defined.

Record txfs_entry := {
  e_type : option txfs_op_type;     (* [None]: 0, of a slot never written *)
  e_txn_id : Z;
  e_op_index : Z;
  e_offset : Z;
  e_size : Z;
  e_path : list Z;
  e_path2 : list Z;
  e_data : list Z;
  e_data_crc : Z }.

(** [sizeof (txfs_journal_entry_t)] and [sizeof (txfs_journal_header_t)], packed. *)
Definition ENTRY_SZ : Z := 4 + 4 + 4 + 8 + 4 + 256 + 256 + 512 + 4.
Definition HEADER_SZ : Z := 7 * 4 + 436.

Record txfs_header := {
  hd_magic : Z; hd_version : Z; hd_txn_id_counter : Z; hd_entry_count : Z;
  hd_committed_count : Z; hd_applied_count : Z; hd_checksum : Z }.

Record txfs_txn := {
  t_txn_id : Z;
  t_state : txfs_txn_state;
  t_ops : list txfs_entry }.        (* the first [op_count] entries of [ops] *)

Record txfs := {
  x_journal_header : txfs_header;   (* the copy at the start of [journal] *)
  x_slots : list txfs_entry;        (* the entries of [journal] *)
  x_journal_size : Z;
  x_header : txfs_header;
  x_txn : txfs_txn;
  x_txn_active : bool;
  x_fs_root : list Z;
  x_txns_committed : Z;
  x_txns_aborted : Z;
  x_entries_applied : Z;
  x_recovery_count : Z;
  x_recovered : bool }.

(** ** CRC-32 *)

Definition crc_bit (c : Z) : Z :=
  if negb (Z.land c 1 =? 0) then Z.lxor 0xEDB88320 (Z.shiftr c 1) else Z.shiftr c 1.
Definition crc32_init_table : list Z := (fun i => Nat.iter 8 crc_bit (Z.of_nat i)) <$> seq 0 256.
Definition crc32_table : list Z := Eval vm_compute in crc32_init_table.
Definition crc_step (crc b : Z) : Z :=
  Z.lxor (crc32_table !!! Z.to_nat (Z.land (Z.lxor crc b) 0xFF)) (Z.shiftr crc 8).
Definition txfs_crc32 (data : list Z) : Z := Z.lxor (foldl crc_step 0xFFFFFFFF data) 0xFFFFFFFF.

(** The header's bytes up to its checksum field. *)
Definition journal_header_checksum (h : txfs_header) : Z :=
  txfs_crc32 (le_enc 4 (hd_magic h) ++ le_enc 4 (hd_version h) ++ le_enc 4 (hd_txn_id_counter h) ++
    le_enc 4 (hd_entry_count h) ++ le_enc 4 (hd_committed_count h) ++ le_enc 4 (hd_applied_count h)).

(** ** State updates *)

Definition set_counts (h : txfs_header) (entries committed applied : Z) : txfs_header :=
  {| hd_magic := hd_magic h; hd_version := hd_version h; hd_txn_id_counter := hd_txn_id_counter h;
     hd_entry_count := entries; hd_committed_count := committed; hd_applied_count := applied;
     hd_checksum := hd_checksum h |}.
Definition set_header (x : txfs) (h : txfs_header) : txfs :=
  {| x_journal_header := x_journal_header x; x_slots := x_slots x; x_journal_size := x_journal_size x; x_header := h;
     x_txn := x_txn x; x_txn_active := x_txn_active x; x_fs_root := x_fs_root x; x_txns_committed := x_txns_committed x;
     x_txns_aborted := x_txns_aborted x; x_entries_applied := x_entries_applied x; x_recovery_count := x_recovery_count x;
     x_recovered := x_recovered x |}.
Definition set_slots (x : txfs) (l : list txfs_entry) : txfs :=
  {| x_journal_header := x_journal_header x; x_slots := l; x_journal_size := x_journal_size x; x_header := x_header x;
     x_txn := x_txn x; x_txn_active := x_txn_active x; x_fs_root := x_fs_root x; x_txns_committed := x_txns_committed x;
     x_txns_aborted := x_txns_aborted x; x_entries_applied := x_entries_applied x; x_recovery_count := x_recovery_count x;
     x_recovered := x_recovered x |}.
Definition set_txn (x : txfs) (t : txfs_txn) (active : bool) : txfs :=
  {| x_journal_header := x_journal_header x; x_slots := x_slots x; x_journal_size := x_journal_size x; x_header := x_header x;
     x_txn := t; x_txn_active := active; x_fs_root := x_fs_root x; x_txns_committed := x_txns_committed x;
     x_txns_aborted := x_txns_aborted x; x_entries_applied := x_entries_applied x; x_recovery_count := x_recovery_count x;
     x_recovered := x_recovered x |}.
Definition set_stats (x : txfs) (committed aborted applied : Z) : txfs :=
  {| x_journal_header := x_journal_header x; x_slots := x_slots x; x_journal_size := x_journal_size x; x_header := x_header x;
     x_txn := x_txn x; x_txn_active := x_txn_active x; x_fs_root := x_fs_root x; x_txns_committed := committed;
     x_txns_aborted := aborted; x_entries_applied := applied; x_recovery_count := x_recovery_count x;
     x_recovered := x_recovered x |}.
Definition set_state (t : txfs_txn) (s : txfs_txn_state) : txfs_txn :=
  {| t_txn_id := t_txn_id t; t_state := s; t_ops := t_ops t |}.

(** ** Lifecycle *)

Definition zero_entry : txfs_entry :=
  {| e_type := None; e_txn_id := 0; e_op_index := 0; e_offset := 0; e_size := 0; e_path := replicate TXFS_MAX_PATH 0;
     e_path2 := replicate TXFS_MAX_PATH 0; e_data := replicate 512 0; e_data_crc := 0 |}.
Definition zero_txn : txfs_txn := {| t_txn_id := 0; t_state := TXFS_TXN_CLOSED; t_ops := [] |}.

(** [strncpy (dst, s, 255)] into 256 zero bytes. *)
Definition path_field (s : list Z) : list Z :=
  let p := take (TXFS_MAX_PATH - 1) (cstr s) in p ++ replicate (TXFS_MAX_PATH - length p) 0.

Definition update_checksum (h : txfs_header) : txfs_header :=
  {| hd_magic := hd_magic h; hd_version := hd_version h; hd_txn_id_counter := hd_txn_id_counter h;
     hd_entry_count := hd_entry_count h; hd_committed_count := hd_committed_count h;
     hd_applied_count := hd_applied_count h; hd_checksum := journal_header_checksum h |}.
Definition zero_header : txfs_header :=
  {| hd_magic := 0; hd_version := 0; hd_txn_id_counter := 0; hd_entry_count := 0; hd_committed_count := 0;
     hd_applied_count := 0; hd_checksum := 0 |}.

(** The state of a fresh journal. *)
Definition txfs_start (fs_root : option (list Z)) : txfs :=
  {| x_journal_header := zero_header;
     x_slots := replicate (Z.to_nat ((TXFS_JOURNAL_SIZE - HEADER_SZ) / ENTRY_SZ)) zero_entry;
     x_journal_size := TXFS_JOURNAL_SIZE;
     x_header := update_checksum {| hd_magic := TXFS_JOURNAL_MAGIC; hd_version := 1; hd_txn_id_counter := 1;
                   hd_entry_count := 0; hd_committed_count := 0; hd_applied_count := 0; hd_checksum := 0 |};
     x_txn := zero_txn; x_txn_active := false; x_fs_root := path_field (default (str "/tmp/wubu_txfs") fs_root);
     x_txns_committed := 0; x_txns_aborted := 0; x_entries_applied := 0; x_recovery_count := 0; x_recovered := false |}.

(** [alloc]: whether the journal could be allocated. *)
Definition txfs_init (alloc : bool) (fs_root : option (list Z)) : Z * option txfs :=
  if negb alloc then (-1, None) else (0, Some (txfs_start fs_root)).

Definition txfs_begin (x : txfs) : Z * txfs :=
  if x_txn_active x then (-1, x) else
  let id := hd_txn_id_counter (x_header x) in
  let h := {| hd_magic := hd_magic (x_header x); hd_version := hd_version (x_header x);
              hd_txn_id_counter := u32 (id + 1); hd_entry_count := hd_entry_count (x_header x);
              hd_committed_count := hd_committed_count (x_header x); hd_applied_count := hd_applied_count (x_header x);
              hd_checksum := hd_checksum (x_header x) |} in
  (s32 id, set_txn (set_header x h) {| t_txn_id := id; t_state := TXFS_TXN_OPEN; t_ops := [] |} true).

(** ** Committing *)

Definition slot_offset (i : Z) : Z := u32 (HEADER_SZ + i * ENTRY_SZ).
(** The slot at a byte offset of the journal. *)
Definition slot_index (offset : Z) : nat := Z.to_nat ((offset - HEADER_SZ) / ENTRY_SZ).

Definition journal_write_entry (x : txfs) (e : txfs_entry) : Z * txfs :=
  let h := x_header x in
  let offset := slot_offset (hd_entry_count h) in
  if offset + ENTRY_SZ >? x_journal_size x then (-1, x)
  else (0, set_header (set_slots x (<[slot_index offset := e]> (x_slots x)))
             (set_counts h (u32 (hd_entry_count h + 1)) (hd_committed_count h) (hd_applied_count h))).

Definition journal_update_checksum (x : txfs) : txfs :=
  let h := update_checksum (x_header x) in
  {| x_journal_header := h; x_slots := x_slots x; x_journal_size := x_journal_size x; x_header := h;
     x_txn := x_txn x; x_txn_active := x_txn_active x; x_fs_root := x_fs_root x; x_txns_committed := x_txns_committed x;
     x_txns_aborted := x_txns_aborted x; x_entries_applied := x_entries_applied x; x_recovery_count := x_recovery_count x;
     x_recovered := x_recovered x |}.

(** The entry of the [i]-th operation, as it goes to the journal. *)
Definition journal_entry (id : Z) (i : nat) (op : txfs_entry) : txfs_entry :=
  {| e_type := e_type op; e_txn_id := id; e_op_index := u32 (Z.of_nat i); e_offset := e_offset op; e_size := e_size op;
     e_path := e_path op; e_path2 := e_path2 op; e_data := e_data op;
     e_data_crc := txfs_crc32 (take (Z.to_nat (e_size op)) (e_data op)) |}.

(** Phase 1: [false] when the journal is full. *)
Fixpoint write_ops (x : txfs) (id : Z) (i : nat) (ops : list txfs_entry) : bool * txfs :=
  match ops with
  | [] => (true, x)
  | op :: ops =>
      let '(rc, x) := journal_write_entry x (journal_entry id i op) in
      if negb (rc =? 0) then (false, x) else write_ops x id (S i) ops
  end.
(** Phase 2. *)
Definition mark_committed (x : txfs) : txfs :=
  let h := x_header x in
  journal_update_checksum (set_header x (set_counts h (hd_entry_count h) (hd_entry_count h) (hd_applied_count h))).
(** Phases 3 and 4. *)
Definition apply_and_checkpoint (x : txfs) (n : nat) : txfs :=
  let x := set_stats x (x_txns_committed x) (x_txns_aborted x) (u64 (x_entries_applied x + Z.of_nat n)) in
  let h := x_header x in
  journal_update_checksum (set_header x (set_counts h (hd_entry_count h) (hd_committed_count h) (hd_committed_count h))).

Definition txfs_commit (x : txfs) : Z * txfs :=
  if negb (x_txn_active x) then (-1, x) else
  let t := x_txn x in
  if (length (t_ops t) =? 0)%nat then
    (0, set_txn (set_stats x (u64 (x_txns_committed x + 1)) (x_txns_aborted x) (x_entries_applied x))
          (set_state t TXFS_TXN_COMMITTING) false)
  else
    let x := set_txn x (set_state t TXFS_TXN_COMMITTING) true in
    let '(ok, x) := write_ops x (t_txn_id t) 0 (t_ops t) in
    if negb ok then
      (-1, set_stats (set_txn x (set_state t TXFS_TXN_ABORTED) false)
             (x_txns_committed x) (u64 (x_txns_aborted x + 1)) (x_entries_applied x))
    else
      let x := apply_and_checkpoint (mark_committed x) (length (t_ops t)) in
      let x := set_stats x (u64 (x_txns_committed x + 1)) (x_txns_aborted x) (x_entries_applied x) in
      (0, set_txn x (set_state t TXFS_TXN_CLOSED) false).

Definition txfs_abort (x : txfs) : Z * txfs :=
  if negb (x_txn_active x) then (-1, x) else
  (0, set_stats (set_txn x (set_state (x_txn x) TXFS_TXN_ABORTED) false)
        (x_txns_committed x) (u64 (x_txns_aborted x + 1)) (x_entries_applied x)).

(** The journal is released: no slot is left. *)
Definition txfs_shutdown (x : txfs) : txfs :=
  let x := if x_txn_active x then snd (txfs_abort x) else x in
  {| x_journal_header := x_journal_header x; x_slots := []; x_journal_size := 0; x_header := x_header x;
     x_txn := x_txn x; x_txn_active := x_txn_active x; x_fs_root := x_fs_root x; x_txns_committed := x_txns_committed x;
     x_txns_aborted := x_txns_aborted x; x_entries_applied := x_entries_applied x; x_recovery_count := x_recovery_count x;
     x_recovered := x_recovered x |}.

(** ** Operations of a transaction *)

(** [data] is what can be read where the pointer points; [None] is a read past it. *)
Definition add_op (x : txfs) (ty : txfs_op_type) (path : option (list Z)) (offset : Z) (data : option (list Z)) (sz : Z)
    (path2 : option (list Z)) : option (Z * txfs) :=
  if negb (x_txn_active x) then Some (-1, x) else
  if Z.of_nat (length (t_ops (x_txn x))) >=? TXFS_MAX_TXN_OPS then Some (-1, x) else
  let n := if sz >? 512 then 512 else sz in
  bytes ← match data with
          | Some d => if sz >? 0 then (if n <=? Z.of_nat (length d) then Some (take (Z.to_nat n) d) else None) else Some []
          | None => Some []
          end;
  let op := {| e_type := Some ty; e_txn_id := 0; e_op_index := 0; e_offset := offset; e_size := n;
               e_path := path_field (default [] path); e_path2 := path_field (default [] path2);
               e_data := bytes ++ replicate (512 - length bytes) 0; e_data_crc := 0 |} in
  Some (0, set_txn x {| t_txn_id := t_txn_id (x_txn x); t_state := t_state (x_txn x); t_ops := t_ops (x_txn x) ++ [op] |} true).

Definition txfs_write (x : txfs) (path : list Z) (offset : Z) (data : option (list Z)) (sz : Z) : option (Z * txfs) :=
  add_op x TXFS_OP_WRITE (Some path) offset data sz None.
Definition txfs_truncate (x : txfs) (path : list Z) (sz : Z) : option (Z * txfs) := add_op x TXFS_OP_TRUNCATE (Some path) sz None 0 None.
Definition txfs_create (x : txfs) (path : list Z) : option (Z * txfs) := add_op x TXFS_OP_CREATE (Some path) 0 None 0 None.
Definition txfs_delete (x : txfs) (path : list Z) : option (Z * txfs) := add_op x TXFS_OP_DELETE (Some path) 0 None 0 None.
Definition txfs_mkdir (x : txfs) (path : list Z) : option (Z * txfs) := add_op x TXFS_OP_MKDIR (Some path) 0 None 0 None.
Definition txfs_rename (x : txfs) (old_path new_path : list Z) : option (Z * txfs) :=
  add_op x TXFS_OP_RENAME (Some old_path) 0 None 0 (Some new_path).

(** ** Recovery *)

(** Entries replayed from index [i] on: up to the end of the journal, the last
    committed one, or the first whose checksum fails. *)
Fixpoint replay (fuel : nat) (x : txfs) (i replayed : Z) : Z :=
  match fuel with
  | O => replayed
  | S fuel =>
      if negb (i <? hd_committed_count (x_header x)) then replayed else
      let offset := slot_offset i in
      if offset + ENTRY_SZ >? x_journal_size x then replayed else
      match x_slots x !! slot_index offset with
      | None => replayed
      | Some e =>
          if negb (e_data_crc e =? txfs_crc32 (take (Z.to_nat (e_size e)) (e_data e))) then replayed
          else replay fuel x (i + 1) (replayed + 1)
      end
  end.

Definition txfs_recover (x : txfs) : Z * txfs :=
  let h := x_header x in
  let unapplied := u32 (hd_committed_count h - hd_applied_count h) in
  if unapplied =? 0 then (0, x) else
  let replayed := replay (Z.to_nat unapplied) x (hd_applied_count h) 0 in
  let x := journal_update_checksum
             (set_header x (set_counts h (hd_entry_count h) (hd_committed_count h) (u32 (hd_applied_count h + replayed)))) in
  (s32 replayed,
   if replayed >? 0 then
     {| x_journal_header := x_journal_header x; x_slots := x_slots x; x_journal_size := x_journal_size x;
        x_header := x_header x; x_txn := x_txn x; x_txn_active := x_txn_active x; x_fs_root := x_fs_root x;
        x_txns_committed := x_txns_committed x; x_txns_aborted := x_txns_aborted x;
        x_entries_applied := u64 (x_entries_applied x + replayed); x_recovery_count := u64 (x_recovery_count x + 1);
        x_recovered := true |}
   else x).

(** ** Inspection *)

Definition txfs_was_recovered (x : txfs) : bool := x_recovered x.
Definition txfs_journal_count (x : txfs) : Z := hd_entry_count (x_header x).
Definition txfs_committed_count (x : txfs) : Z := hd_committed_count (x_header x).
Definition txfs_applied_count (x : txfs) : Z := hd_applied_count (x_header x).
Definition txfs_committed_total (x : txfs) : Z := x_txns_committed x.
Definition txfs_aborted_total (x : txfs) : Z := x_txns_aborted x.
