(* ===== verification/TxfsTheorems.v ===== *)
(** * Transactions are all or nothing

    The table-driven checksum is the bitwise one and notices any changed byte;
    committing is all or nothing; recovery finishes an interrupted commit and
    stops at a damaged entry. *)

From S2P Require Import Prelude Txfs.
Open Scope Z_scope.

(** ** The checksum and the journal *)

(** ** The checksum *)

Definition POLY : Z := 0xEDB88320.

Lemma crc_bit_eq c : crc_bit c = Z.lxor (Z.shiftr c 1) (if Z.testbit c 0 then POLY else 0).
Proof.
  unfold crc_bit. assert (negb (Z.land c 1 =? 0) = Z.testbit c 0) as ->.
  { change 1 with (Z.ones 1). rewrite Z.land_ones, Z.bit0_odd, Zmod_odd by lia. by destruct (Z.odd c). }
  destruct (Z.testbit c 0); [apply Z.lxor_comm|by rewrite Z.lxor_0_r].
Qed.

Lemma crc_bit_lxor a b : crc_bit (Z.lxor a b) = Z.lxor (crc_bit a) (crc_bit b).
Proof.
  rewrite !crc_bit_eq, Z.shiftr_lxor, Z.lxor_spec.
  apply Z.bits_inj'. intros n _. rewrite !Z.lxor_spec.
  destruct (Z.testbit a 0), (Z.testbit b 0); cbn [xorb]; rewrite ?Z.bits_0;
    destruct (Z.testbit (Z.shiftr a 1) n), (Z.testbit (Z.shiftr b 1) n), (Z.testbit POLY n); done.
Qed.

Lemma crc_bits_lxor k a b : Nat.iter k crc_bit (Z.lxor a b) = Z.lxor (Nat.iter k crc_bit a) (Nat.iter k crc_bit b).
Proof. induction k as [|k IH]; [done|]; rewrite ?Nat.iter_succ. by rewrite IH, crc_bit_lxor. Qed.

Lemma crc_bits_shiftl k x : Nat.iter k crc_bit (Z.shiftl x (Z.of_nat k)) = x.
Proof.
  induction k as [|k IH]; [apply Z.shiftl_0_r|]. rewrite Nat.iter_succ_r.
  replace (crc_bit (Z.shiftl x (Z.of_nat (S k)))) with (Z.shiftl x (Z.of_nat k)); [done|].
  rewrite crc_bit_eq, Z.shiftl_spec_low by lia. rewrite Z.lxor_0_r, Z.shiftr_shiftl_l by lia. f_equal. lia.
Qed.

Lemma crc_table_entry x : 0 <= x < 256 -> crc32_table !!! Z.to_nat x = Nat.iter 8 crc_bit x.
Proof.
  intros Hx. assert (forallb (fun i => crc32_table !!! i =? Nat.iter 8 crc_bit (Z.of_nat i)) (seq 0 256) = true) as H
    by (vm_compute; reflexivity).
  rewrite forallb_forall in H. specialize (H (Z.to_nat x)). rewrite Z2Nat.id in H by lia.
  apply Z.eqb_eq, H, in_seq. lia.
Qed.

(** One byte of the bitwise checksum. *)
Definition crc_byte (c b : Z) : Z := Nat.iter 8 crc_bit (Z.lxor c b).
Definition crc_bitwise (data : list Z) : Z := Z.lxor (foldl crc_byte 0xFFFFFFFF data) 0xFFFFFFFF.

Lemma crc_step_byte c b : is_byte b -> crc_step c b = crc_byte c b.
Proof.
  intros Hb. unfold crc_step, crc_byte. set (x := Z.lxor c b).
  change 255 with (Z.ones 8). rewrite Z.land_ones by lia.
  rewrite crc_table_entry by (apply Z.mod_pos_bound; lia).
  assert (x = Z.lxor (x mod 2 ^ 8) (Z.shiftl (Z.shiftr x 8) 8)) as Ex.
  { apply Z.bits_inj'. intros n Hn. rewrite Z.lxor_spec, Z.testbit_mod_pow2 by lia.
    destruct (Z.ltb_spec n 8).
    - rewrite Z.shiftl_spec_low by lia. by rewrite xorb_false_r.
    - rewrite Z.shiftl_spec_high, Z.shiftr_spec by lia. cbn [andb xorb]. f_equal. lia. }
  rewrite Ex at 2. rewrite crc_bits_lxor. f_equal.
  change 8 with (Z.of_nat 8) at 3. rewrite (crc_bits_shiftl 8 (Z.shiftr x 8)). unfold x. rewrite Z.shiftr_lxor.
  assert (Z.shiftr b 8 = 0) as ->; [|by rewrite Z.lxor_0_r].
  rewrite Z.shiftr_div_pow2 by lia. apply Z.div_small. exact Hb.
Qed.

Lemma crc_steps_bytes data c : Forall is_byte data -> foldl crc_step c data = foldl crc_byte c data.
Proof.
  intros H. revert c. induction H as [|b data Hb _ IH]; intros c; cbn [foldl]; [done|]. by rewrite crc_step_byte, IH.
Qed.

(** *** Nothing is lost by a step *)

Lemma lxor_fits w a b : 0 <= w -> fits w a -> fits w b -> fits w (Z.lxor a b).
Proof.
  intros Hw Ha Hb. assert (Z.lxor a b = wrap w (Z.lxor a b)) as ->; [|by apply wrap_fits].
  rewrite <- (wrap_id w a Ha), <- (wrap_id w b Hb). unfold wrap. apply Z.bits_inj'. intros n Hn.
  rewrite Z.testbit_mod_pow2, !Z.lxor_spec, !Z.testbit_mod_pow2 by lia.
  by destruct (n <? w), (Z.testbit a n), (Z.testbit b n).
Qed.

Lemma crc_bit_fits c : fits 32 c -> fits 32 (crc_bit c).
Proof.
  intros Hc. rewrite crc_bit_eq. apply lxor_fits; [lia| |].
  - rewrite Z.shiftr_div_pow2 by lia. unfold fits in *. split; [apply Z.div_pos; lia|].
    apply Z.div_lt_upper_bound; lia.
  - destruct (Z.testbit c 0); unfold POLY; unfold_fits; lia.
Qed.

Lemma crc_bit_inj a b : fits 32 a -> fits 32 b -> crc_bit a = crc_bit b -> a = b.
Proof.
  intros Ha Hb E. rewrite !crc_bit_eq in E.
  assert (forall c, fits 32 c -> Z.testbit (Z.shiftr c 1) 31 = false) as Htop.
  { intros c Hc. rewrite Z.shiftr_spec by lia. rewrite <- (wrap_id 32 c Hc). unfold wrap.
    rewrite Z.testbit_mod_pow2 by lia. done. }
  assert (Z.testbit a 0 = Z.testbit b 0) as E0.
  { apply (f_equal (fun x => Z.testbit x 31)) in E. rewrite !Z.lxor_spec, !Htop in E by done.
    by destruct (Z.testbit a 0), (Z.testbit b 0). }
  rewrite E0 in E. apply Z.bits_inj'. intros n Hn. destruct (decide (n = 0)) as [->|Hn0]; [done|].
  apply (f_equal (fun x => Z.testbit x (n - 1))) in E. rewrite !Z.lxor_spec, !Z.shiftr_spec in E by lia.
  replace (n - 1 + 1) with n in E by lia.
  destruct (Z.testbit a n), (Z.testbit b n), (Z.testbit (if Z.testbit b 0 then POLY else 0) (n - 1)); done.
Qed.

Lemma crc_bits_fits k c : fits 32 c -> fits 32 (Nat.iter k crc_bit c).
Proof. intros Hc. induction k as [|k IH]; [done|]; rewrite ?Nat.iter_succ. by apply crc_bit_fits. Qed.
Lemma crc_bits_inj k a b : fits 32 a -> fits 32 b -> Nat.iter k crc_bit a = Nat.iter k crc_bit b -> a = b.
Proof.
  intros Ha Hb. induction k as [|k IH]; [done|]; rewrite ?Nat.iter_succ. intros E.
  apply IH. by apply crc_bit_inj in E; try apply crc_bits_fits.
Qed.

Lemma byte_fits32 b : is_byte b -> fits 32 b.
Proof. unfold_fits. lia. Qed.
Lemma crc_byte_fits c b : fits 32 c -> is_byte b -> fits 32 (crc_byte c b).
Proof. intros Hc Hb. apply crc_bits_fits, lxor_fits; [lia|done|by apply byte_fits32]. Qed.

Lemma lxor_cancel a b c : Z.lxor a c = Z.lxor b c -> a = b.
Proof. intros E. rewrite <- (Z.lxor_0_r a), <- (Z.lxor_nilpotent c), <- Z.lxor_assoc, E, Z.lxor_assoc, Z.lxor_nilpotent. apply Z.lxor_0_r. Qed.

Lemma crc_bytes_inj data : forall a b,
  Forall is_byte data -> fits 32 a -> fits 32 b -> foldl crc_byte a data = foldl crc_byte b data -> a = b.
Proof.
  induction data as [|x data IH]; intros a b Hd Ha Hb E; cbn [foldl] in E; [done|].
  inversion Hd as [|? ? Hx Hd']; subst. apply IH in E; try done; try by apply crc_byte_fits.
  unfold crc_byte in E. apply crc_bits_inj in E; try (apply lxor_fits; [lia|done|by apply byte_fits32]).
  by eapply lxor_cancel.
Qed.

Lemma crc_bytes_fits data : forall c, Forall is_byte data -> fits 32 c -> fits 32 (foldl crc_byte c data).
Proof.
  induction data as [|x data IH]; intros c Hd Hc; cbn [foldl]; [done|]. inversion Hd; subst.
  apply IH; [done|]. by apply crc_byte_fits.
Qed.

(** Changing one byte of the data always changes its checksum. *)
Lemma crc_changed l1 b b' l2 :
  Forall is_byte l1 -> Forall is_byte l2 -> is_byte b -> is_byte b' ->
  txfs_crc32 (l1 ++ b :: l2) = txfs_crc32 (l1 ++ b' :: l2) -> b = b'.
Proof.
  intros H1 H2 Hb Hb' E. unfold txfs_crc32 in E. apply lxor_cancel in E.
  rewrite !crc_steps_bytes in E by (by apply Forall_app; split; [|constructor]).
  rewrite !foldl_app in E. cbn [foldl] in E.
  assert (fits 32 (foldl crc_byte 4294967295 l1)) as Hf by (apply crc_bytes_fits; [done|unfold_fits; lia]).
  apply crc_bytes_inj in E; try done; try by apply crc_byte_fits.
  apply crc_bits_inj in E; try (apply lxor_fits; [lia|done|by apply byte_fits32]).
  rewrite !(Z.lxor_comm (foldl _ _ _)) in E. by eapply lxor_cancel.
Qed.

(** The table-driven CRC-32 equals the bit-by-bit division by the
    polynomial. *)
Theorem txfs_crc32_is_bitwise data : Forall is_byte data -> txfs_crc32 data = crc_bitwise data.
Proof. intros H. unfold txfs_crc32, crc_bitwise. by rewrite crc_steps_bytes. Qed.
Lemma txfs_crc32_is_bitwise_witness :
  txfs_crc32 (str "123456789") = crc_bitwise (str "123456789") /\ txfs_crc32 (str "123456789") = 0xCBF43926.
Proof.
  split; [apply (txfs_crc32_is_bitwise (str "123456789")); apply (bool_decide_unpack _); vm_compute; exact I|vm_compute; reflexivity].
Defined.

#[local] Opaque txfs_crc32.

(** The room of the journal. *)
Definition SLOTS : Z := 61.

Lemma slot_offset_eq i : 0 <= i <= SLOTS -> slot_offset i = 464 + i * 1052.
Proof. unfold SLOTS. intros. unfold slot_offset, HEADER_SZ, ENTRY_SZ. rewrite wrap_id; [lia|]. unfold_fits. lia. Qed.
Lemma slot_index_eq i : 0 <= i <= SLOTS -> slot_index (slot_offset i) = Z.to_nat i.
Proof.
  intros. rewrite slot_offset_eq by done. unfold slot_index, HEADER_SZ, ENTRY_SZ. f_equal.
  replace (464 + i * 1052 - (7 * 4 + 436)) with (i * 1052) by lia. apply Z.div_mul. lia.
Qed.
Lemma slot_full i : 0 <= i <= SLOTS -> (slot_offset i + ENTRY_SZ >? TXFS_JOURNAL_SIZE) = (SLOTS <=? i).
Proof.
  intros. rewrite slot_offset_eq by done. unfold ENTRY_SZ, TXFS_JOURNAL_SIZE, SLOTS in *.
  destruct (Z.gtb_spec (464 + i * 1052 + (4 + 4 + 4 + 8 + 4 + 256 + 256 + 512 + 4)) (64 * 1024)), (Z.leb_spec 61 i); (done || lia).
Qed.

(** ** The invariant *)

Definition crc_ok (e : txfs_entry) : Prop := e_data_crc e = txfs_crc32 (take (Z.to_nat (e_size e)) (e_data e)).
Definition op_ok (e : txfs_entry) : Prop := 0 <= e_size e <= 512 /\ length (e_data e) = 512%nat.

Record wf (x : txfs) : Prop := {
  wf_slots : length (x_slots x) = 61%nat;
  wf_size : x_journal_size x = TXFS_JOURNAL_SIZE;
  wf_applied : hd_applied_count (x_header x) = hd_committed_count (x_header x);
  wf_counts : 0 <= hd_committed_count (x_header x) <= hd_entry_count (x_header x) /\ hd_entry_count (x_header x) <= SLOTS;
  wf_crc : Forall crc_ok (take (Z.to_nat (hd_committed_count (x_header x))) (x_slots x));
  wf_ops : Forall op_ok (t_ops (x_txn x)) /\ (length (t_ops (x_txn x)) <= 64)%nat;
  (* entries behind the committed ones only remain in a full journal *)
  wf_full : hd_committed_count (x_header x) = hd_entry_count (x_header x) \/ hd_entry_count (x_header x) = SLOTS }.

(** What the journal promises to keep. *)
Definition log (x : txfs) : list txfs_entry := take (Z.to_nat (hd_committed_count (x_header x))) (x_slots x).
Definition txn_entries (id : Z) (ops : list txfs_entry) : list txfs_entry := imap (journal_entry id) ops.

Lemma txfs_init_wf root : exists x, txfs_init true root = (0, Some x) /\ wf x /\ log x = [] /\ x_txn_active x = false.
Proof.
  eexists. split; [reflexivity|]. split; [|done].
  constructor; cbn -[txfs_crc32]; try done; try (unfold SLOTS; lia).
  split; [constructor|lia].
Qed.

(** ** Phase 1 *)

Lemma journal_entry_crc id i op : crc_ok (journal_entry id i op).
Proof. done. Qed.

Lemma write_ops_spec ops : forall x id i,
  length (x_slots x) = 61%nat -> x_journal_size x = TXFS_JOURNAL_SIZE -> 0 <= hd_entry_count (x_header x) <= SLOTS ->
  let n := hd_entry_count (x_header x) in
  let h := x_header x in
  let room := n + Z.of_nat (length ops) <=? SLOTS in
  exists slots', length slots' = 61%nat /\
    write_ops x id i ops =
      (room, set_header (set_slots x slots')
         (set_counts h (if room then n + Z.of_nat (length ops) else SLOTS) (hd_committed_count h) (hd_applied_count h))) /\
    take (Z.to_nat n) slots' = take (Z.to_nat n) (x_slots x) /\
    (room = true -> take (Z.to_nat (n + Z.of_nat (length ops))) slots' =
       take (Z.to_nat n) (x_slots x) ++ imap (fun j => journal_entry id (i + j)) ops).
Proof.
  induction ops as [|op ops IH]; intros x id i Hl Hs Hn; cbn zeta; cbn [write_ops length].
  - exists (x_slots x). rewrite Z.add_0_r. destruct (Z.leb_spec (hd_entry_count (x_header x)) SLOTS); [|lia].
    split; [done|]. split; [by destruct x as [? ? ? [] ? ? ? ? ? ? ? ?]|]. split; [done|]. intros _. by rewrite app_nil_r.
  - set (n := hd_entry_count (x_header x)) in *. unfold journal_write_entry. fold n. rewrite Hs, slot_full by done.
    destruct (Z.leb_spec SLOTS n) as [Hfull|Hroom]; cbn [negb Z.eqb].
    + exists (x_slots x). assert (n = SLOTS) as En by lia. destruct (Z.leb_spec (n + Z.of_nat (S (length ops))) SLOTS); [lia|].
      split; [done|]. split; [|done]. rewrite <- En. by destruct x as [? ? ? [] ? ? ? ? ? ? ? ?].
    + rewrite slot_index_eq by lia. rewrite (wrap_id 32 (n + 1)) by (unfold SLOTS in *; unfold_fits; lia).
      set (x1 := set_header _ _). cbn [Z.eqb negb].
      destruct (IH x1 id (S i)) as (slots' & L1 & L2 & L3 & L4); [by cbn; rewrite length_insert|done|cbn; lia|].
      cbn [x1 x_header set_header set_slots set_counts hd_entry_count hd_committed_count hd_applied_count x_slots] in *.
      rewrite L2. exists slots'. split; [done|].
      replace (n + 1 + Z.of_nat (length ops)) with (n + Z.of_nat (S (length ops))) in * by lia.
      split; [by destruct x as [? ? ? [] ? ? ? ? ? ? ? ?]|].
      assert (take (Z.to_nat (n + 1)) slots' = take (Z.to_nat n) (x_slots x) ++ [journal_entry id i op]) as E.
      { rewrite L3. replace (Z.to_nat (n + 1)) with (S (Z.to_nat n)) by lia.
        rewrite (take_S_r _ _ (journal_entry id i op)) by (apply list_lookup_insert_eq; unfold SLOTS in *; lia).
        f_equal. apply take_insert_ge. lia. }
      split.
      * replace (take (Z.to_nat n) slots') with (take (Z.to_nat n) (take (Z.to_nat (n + 1)) slots'))
          by (rewrite take_take; f_equal; lia). rewrite E. apply take_app_length'.
        rewrite length_take. unfold SLOTS in *. lia.
      * intros Hr. rewrite (L4 Hr), <- L3, E, <- app_assoc. cbn [app imap]. f_equal. f_equal; [by rewrite Nat.add_0_r|].
        apply imap_ext. intros j o _. cbn. f_equal. lia.
Qed.

(** ** Committing *)

Lemma commit_spec x :
  wf x -> x_txn_active x = true ->
  let id := t_txn_id (x_txn x) in let ops := t_ops (x_txn x) in
  exists rc x', txfs_commit x = (rc, x') /\ wf x' /\ x_txn_active x' = false /\
    ((rc = 0 /\ log x' = log x ++ txn_entries id ops /\ x_txns_committed x' = u64 (x_txns_committed x + 1)) \/
     (rc = -1 /\ log x' = log x /\ x_txns_aborted x' = u64 (x_txns_aborted x + 1) /\ ops <> [] /\
      SLOTS < hd_entry_count (x_header x) + Z.of_nat (length ops))).
Proof.
  intros Hwf Ha id ops. pose proof Hwf as [W1 W2 W3 W4 W5 W6 W7]. unfold txfs_commit. rewrite Ha. cbn [negb]. fold ops id.
  destruct (Nat.eqb_spec (length ops) 0) as [E0|Hne].
  { assert (ops = []) as Eo by (destruct ops; done). eexists _, _. split; [reflexivity|]. split; [by constructor|].
    split; [done|]. left. split; [done|]. split; [|done]. rewrite Eo. by rewrite app_nil_r. }
  set (x0 := set_txn _ _ _).
  destruct (write_ops_spec ops x0 id 0 W1 W2 ltac:(cbn; lia)) as (slots' & L1 & L2 & L3 & L4).
  rewrite L2. cbn [x0 set_txn x_header x_slots] in *. set (n := hd_entry_count (x_header x)) in *.
  destruct (Z.leb_spec (n + Z.of_nat (length ops)) SLOTS) as [Hroom|Hfull]; cbn [negb].
  - assert (hd_committed_count (x_header x) = n) as En by (unfold SLOTS in *; lia).
    eexists _, _. split; [reflexivity|]. assert (take (Z.to_nat (n + Z.of_nat (length ops))) slots' = log x ++ txn_entries id ops) as El.
    { rewrite L4 by done. unfold log. by rewrite En. }
    split; [|split; [done|left; split; [done|split; [exact El|done]]]].
    constructor; cbn -[txfs_crc32 Z.to_nat]; try (done || lia); try (by left).
    fold n. rewrite El. apply Forall_app. split; [done|]. unfold txn_entries. apply Forall_forall.
      intros e (i & Hi)%list_elem_of_lookup. rewrite list_lookup_imap in Hi. apply fmap_Some in Hi as (op & _ & ->). apply journal_entry_crc.
  - assert (take (Z.to_nat (hd_committed_count (x_header x))) slots' = log x) as El.
    { replace (take (Z.to_nat (hd_committed_count (x_header x))) slots')
        with (take (Z.to_nat (hd_committed_count (x_header x))) (take (Z.to_nat n) slots')) by (rewrite take_take; f_equal; lia).
      rewrite L3, take_take. unfold log. f_equal. lia. }
    eexists _, _. split; [reflexivity|]. split; [|split; [done|right; split; [done|]]].
    + constructor; cbn -[txfs_crc32 Z.to_nat]; try (done || lia); try (by rewrite El); try (by right).
    + split; [exact El|]. split; [done|]. split; [|done]. intros ->. done.
Qed.

(** ** Recovery *)

Lemma replay_spec fuel : forall x i k r,
  length (x_slots x) = 61%nat -> x_journal_size x = TXFS_JOURNAL_SIZE ->
  let c := hd_committed_count (x_header x) in
  0 <= i <= k -> k <= c <= SLOTS -> (Z.to_nat (c - i) <= fuel)%nat ->
  (forall j e, i <= j < k -> x_slots x !! Z.to_nat j = Some e -> crc_ok e) ->
  (k < c -> exists e, x_slots x !! Z.to_nat k = Some e /\ ~ crc_ok e) ->
  replay fuel x i r = r + (k - i).
Proof.
  induction fuel as [|fuel IH]; intros x i k r Hl Hs c Hi Hk Hf Hok Hbad; cbn [replay]; [lia|]. fold c.
  destruct (Z.ltb_spec i c) as [Hic|]; cbn [negb]; [|lia].
  rewrite Hs, slot_full, slot_index_eq by lia. destruct (Z.leb_spec SLOTS i); [lia|].
  assert (exists e, x_slots x !! Z.to_nat i = Some e) as [e He] by (apply lookup_lt_is_Some_2; unfold SLOTS in *; lia). rewrite He.
  destruct (decide (i = k)) as [->|Hne].
  - destruct (Hbad Hic) as (e' & He' & Hn). replace e' with e in Hn by congruence. unfold crc_ok in Hn.
    destruct (Z.eqb_spec (e_data_crc e) (txfs_crc32 (take (Z.to_nat (e_size e)) (e_data e)))); [done|]. cbn [negb]. lia.
  - pose proof (Hok i e ltac:(lia) He) as Hc. unfold crc_ok in Hc. rewrite Hc, Z.eqb_refl. cbn [negb].
    rewrite (IH x (i + 1) k (r + 1)); try done; try lia. intros j e' Hj. apply Hok. lia.
Qed.

(** The state of a commit between its phases 2 and 3: everything is in the
    journal and marked, nothing is applied. *)
Definition interrupted (x : txfs) : txfs :=
  mark_committed (snd (write_ops (set_txn x (set_state (x_txn x) TXFS_TXN_COMMITTING) true)
                         (t_txn_id (x_txn x)) 0 (t_ops (x_txn x)))).

Lemma interrupted_spec x :
  wf x -> x_txn_active x = true ->
  let n := hd_entry_count (x_header x) in let ops := t_ops (x_txn x) in
  n + Z.of_nat (length ops) <= SLOTS -> ops <> [] ->
  let x2 := interrupted x in
  length (x_slots x2) = 61%nat /\ x_journal_size x2 = TXFS_JOURNAL_SIZE /\ hd_applied_count (x_header x2) = n /\
  hd_committed_count (x_header x2) = n + Z.of_nat (length ops) /\ hd_entry_count (x_header x2) = n + Z.of_nat (length ops) /\
  take (Z.to_nat (n + Z.of_nat (length ops))) (x_slots x2) = log x ++ txn_entries (t_txn_id (x_txn x)) ops /\
  length (log x) = Z.to_nat n.
Proof.
  intros Hwf Ha n ops Hroom Hne x2. pose proof Hwf as [W1 W2 W3 W4 W5 W6 W7].
  assert (0 < Z.of_nat (length ops)) by (destruct ops; [done|cbn; lia]).
  assert (hd_committed_count (x_header x) = n) as En by (fold n in W7; lia).
  unfold x2, interrupted. fold ops. set (x0 := set_txn _ _ _).
  destruct (write_ops_spec ops x0 (t_txn_id (x_txn x)) 0 W1 W2 ltac:(cbn; lia)) as (slots' & L1 & L2 & L3 & L4).
  cbn [x0 set_txn x_header x_slots] in L2, L3, L4. fold n in L2, L3, L4.
  destruct (Z.leb_spec (n + Z.of_nat (length ops)) SLOTS) as [_|]; [|lia]. rewrite L2. cbn -[txfs_crc32 Z.to_nat].
  split; [done|]. split; [done|]. split; [rewrite W3; exact En|]. split; [done|]. split; [done|].
  rewrite L4 by done. unfold log. rewrite En. split; [done|]. rewrite length_take. unfold SLOTS in *. lia.
Qed.

Lemma entry_of_txn x j e :
  wf x -> x_txn_active x = true -> t_ops (x_txn x) <> [] ->
  let n := hd_entry_count (x_header x) in let ops := t_ops (x_txn x) in
  n + Z.of_nat (length ops) <= SLOTS -> n <= j < n + Z.of_nat (length ops) ->
  x_slots (interrupted x) !! Z.to_nat j = Some e ->
  exists op, ops !! Z.to_nat (j - n) = Some op /\ e = journal_entry (t_txn_id (x_txn x)) (Z.to_nat (j - n)) op.
Proof.
  intros Hwf Ha Hne n ops Hroom Hj He.
  destruct (interrupted_spec x Hwf Ha Hroom Hne) as (_ & _ & _ & _ & _ & I6 & I7). fold n ops in I6, I7.
  pose proof Hwf as [_ _ _ W4 _ _ _]. fold n in W4.
  rewrite <- (lookup_take_lt _ (Z.to_nat (n + Z.of_nat (length ops)))) in He by lia. rewrite I6 in He.
  rewrite lookup_app_r in He by lia. rewrite I7 in He. unfold txn_entries in He. rewrite list_lookup_imap in He.
  apply fmap_Some in He as (op & Hop & ->). replace (Z.to_nat j - Z.to_nat n)%nat with (Z.to_nat (j - n)) in * by lia.
  by exists op.
Qed.

Lemma commit_interrupted x :
  wf x -> x_txn_active x = true -> t_ops (x_txn x) <> [] ->
  hd_entry_count (x_header x) + Z.of_nat (length (t_ops (x_txn x))) <= SLOTS ->
  let y := apply_and_checkpoint (interrupted x) (length (t_ops (x_txn x))) in
  txfs_commit x =
    (0, set_txn (set_stats y (u64 (x_txns_committed y + 1)) (x_txns_aborted y) (x_entries_applied y))
          (set_state (x_txn x) TXFS_TXN_CLOSED) false).
Proof.
  intros Hwf Ha Hne Hroom y. pose proof Hwf as [W1 W2 W3 W4 W5 W6 W7]. unfold txfs_commit. rewrite Ha. cbn [negb].
  destruct (Nat.eqb_spec (length (t_ops (x_txn x))) 0) as [E0|_]; [by destruct (t_ops (x_txn x))|].
  unfold y, interrupted. set (x0 := set_txn _ _ true).
  destruct (write_ops_spec (t_ops (x_txn x)) x0 (t_txn_id (x_txn x)) 0 W1 W2 ltac:(cbn; lia)) as (slots' & _ & L2 & _).
  cbn [x0 set_txn x_header] in L2. destruct (Z.leb_spec (hd_entry_count (x_header x) + Z.of_nat (length (t_ops (x_txn x)))) SLOTS) as [_|]; [|lia].
  change (set_txn x (set_state (x_txn x) TXFS_TXN_COMMITTING) true) with x0. rewrite L2. reflexivity.
Qed.

Lemma recover_noop x h e c : x_header x = update_checksum (set_counts h e c c) -> txfs_recover x = (0, x).
Proof.
  intros E. unfold txfs_recover. assert (hd_applied_count (x_header x) = hd_committed_count (x_header x)) as -> by (by rewrite E).
  by rewrite Z.sub_diag.
Qed.

(** What recovery does to a commit cut short, up to a first damaged entry. *)
Lemma recover_upto x2 n len k :
  length (x_slots x2) = 61%nat -> x_journal_size x2 = TXFS_JOURNAL_SIZE -> 0 <= n -> 0 < len -> n + len <= SLOTS ->
  hd_applied_count (x_header x2) = n -> hd_committed_count (x_header x2) = n + len -> 0 <= k <= len ->
  (forall j e, n <= j < n + k -> x_slots x2 !! Z.to_nat j = Some e -> crc_ok e) ->
  (k < len -> exists e, x_slots x2 !! Z.to_nat (n + k) = Some e /\ ~ crc_ok e) ->
  exists x3, txfs_recover x2 = (k, x3) /\
    x_header x3 = update_checksum (set_counts (x_header x2) (hd_entry_count (x_header x2)) (n + len) (n + k)) /\
    x_journal_header x3 = x_header x3 /\ x_slots x3 = x_slots x2 /\
    x_entries_applied x3 = (if k >? 0 then u64 (x_entries_applied x2 + k) else x_entries_applied x2) /\
    x_recovered x3 = (if k >? 0 then true else x_recovered x2).
Proof.
  intros Hl Hs Hn Hlen Hroom Hap Hco Hk Hok Hbad. unfold SLOTS in *. unfold txfs_recover. rewrite Hap, Hco.
  rewrite (wrap_id 32 (n + len - n)) by (unfold_fits; lia). destruct (Z.eqb_spec (n + len - n) 0); [lia|].
  rewrite (replay_spec _ x2 n (n + k) 0); try (done || lia || (rewrite Hco; unfold SLOTS; lia)).
  2:{ rewrite Hco. intros. apply Hbad. lia. }
  replace (0 + (n + k - n)) with k by lia. rewrite (wrap_id 32 (n + k)) by (unfold_fits; lia).
  rewrite (swrap_id 32 k) by (unfold_fits; lia). eexists. split; [reflexivity|]. by destruct (k >? 0).
Qed.

Lemma checkpoint_fields x n :
  let y := apply_and_checkpoint x n in
  x_header y = update_checksum (set_counts (x_header x) (hd_entry_count (x_header x)) (hd_committed_count (x_header x))
                                  (hd_committed_count (x_header x))) /\
  x_journal_header y = x_header y /\ x_slots y = x_slots x /\ x_entries_applied y = u64 (x_entries_applied x + Z.of_nat n).
Proof. done. Qed.

Lemma closing_fields y c t :
  let z := set_txn (set_stats y c (x_txns_aborted y) (x_entries_applied y)) t false in
  x_header z = x_header y /\ x_journal_header z = x_journal_header y /\ x_slots z = x_slots y /\
  x_entries_applied z = x_entries_applied y.
Proof. done. Qed.

Lemma set_slots_fields y l :
  x_header (set_slots y l) = x_header y /\ x_journal_size (set_slots y l) = x_journal_size y /\ x_slots (set_slots y l) = l.
Proof. done. Qed.

#[local] Opaque interrupted apply_and_checkpoint.

(** A commit cut short after its operations are journalled and
    marked is completed by recovery: it replays every operation of the
    transaction and leaves the journal, its header and the applied count exactly as
    the uninterrupted commit does; recovering again does nothing. *)
Theorem txfs_recovery_completes_commit x :
  wf x -> x_txn_active x = true -> t_ops (x_txn x) <> [] ->
  hd_entry_count (x_header x) + Z.of_nat (length (t_ops (x_txn x))) <= SLOTS ->
  exists x1 x3, txfs_commit x = (0, x1) /\
    txfs_recover (interrupted x) = (Z.of_nat (length (t_ops (x_txn x))), x3) /\
    x_header x3 = x_header x1 /\ x_journal_header x3 = x_journal_header x1 /\ x_slots x3 = x_slots x1 /\
    x_entries_applied x3 = x_entries_applied x1 /\ txfs_was_recovered x3 = true /\ txfs_recover x3 = (0, x3).
Proof.
  intros Hwf Ha Hne Hroom. set (n := hd_entry_count (x_header x)) in *. set (len := Z.of_nat (length (t_ops (x_txn x)))) in *.
  assert (0 < len) as Hlen by (unfold len; destruct (t_ops (x_txn x)); [done|cbn; lia]).
  destruct (interrupted_spec x Hwf Ha Hroom Hne) as (I1 & I2 & I3 & I4 & I5 & I6 & I7). fold n len in I3, I4, I5, I6, I7.
  pose proof (wf_counts _ Hwf) as W4. fold n in W4.
  destruct (recover_upto (interrupted x) n len len I1 I2) as (x3 & E & R1 & R2 & R3 & R4 & R5); try (done || lia).
  { intros j e Hj He. destruct (entry_of_txn x j e Hwf Ha Hne Hroom Hj He) as (op & _ & ->). apply journal_entry_crc. }
  destruct (Z.gtb_spec len 0); [|lia]. eexists _, x3. rewrite commit_interrupted by done. split; [reflexivity|]. split; [exact E|].
  destruct (checkpoint_fields (interrupted x) (length (t_ops (x_txn x)))) as (F1 & F2 & F3 & F4).
  set (y := apply_and_checkpoint _ _) in *. clearbody y. rewrite I4 in F1.
  destruct (closing_fields y (u64 (x_txns_committed y + 1)) (set_state (x_txn x) TXFS_TXN_CLOSED)) as (-> & -> & -> & ->).
  assert (x_header x3 = x_header y) as Eh by (rewrite R1, F1; reflexivity).
  split; [exact Eh|]. split; [rewrite R2, F2; exact Eh|]. split; [by rewrite R3, F3|]. split; [by rewrite R4, F4|]. split; [exact R5|].
  eapply recover_noop. exact R1.
Qed.

(** [e'] is [e] with one byte of its journalled data changed. *)
Definition damaged (e e' : txfs_entry) : Prop :=
  exists l1 b b' l2, take (Z.to_nat (e_size e)) (e_data e) = l1 ++ b :: l2 /\
    take (Z.to_nat (e_size e')) (e_data e') = l1 ++ b' :: l2 /\ Forall is_byte (l1 ++ b :: l2) /\ is_byte b' /\ b <> b' /\
    e_data_crc e' = e_data_crc e.

(** If, before recovery, one byte of the data of the [k]-th
    operation of the transaction is damaged in the journal, recovery replays
    exactly the [k] operations before it. *)
Theorem txfs_recovery_stops_at_damage x k e e' :
  wf x -> x_txn_active x = true -> t_ops (x_txn x) <> [] ->
  let n := hd_entry_count (x_header x) in let len := Z.of_nat (length (t_ops (x_txn x))) in
  n + len <= SLOTS -> 0 <= k < len ->
  x_slots (interrupted x) !! Z.to_nat (n + k) = Some e -> damaged e e' ->
  exists x3, txfs_recover (set_slots (interrupted x) (<[Z.to_nat (n + k) := e']> (x_slots (interrupted x)))) = (k, x3) /\
    txfs_applied_count x3 = n + k /\ txfs_committed_count x3 = n + len.
Proof.
  intros Hwf Ha Hne n len Hroom Hk He (l1 & b & b' & l2 & D1 & D2 & D3 & D4 & D5 & D6).
  destruct (interrupted_spec x Hwf Ha Hroom Hne) as (I1 & I2 & I3 & I4 & I5 & I6 & I7). fold n len in I3, I4, I5, I6, I7.
  pose proof (wf_counts _ Hwf) as W4. fold n in W4. set (x2 := set_slots _ _).
  assert (forall j f, n <= j < n + len -> x_slots (interrupted x) !! Z.to_nat j = Some f -> crc_ok f) as Hall.
  { intros j f Hj Hf. destruct (entry_of_txn x j f Hwf Ha Hne Hroom Hj Hf) as (op & _ & ->). apply journal_entry_crc. }
  destruct (set_slots_fields (interrupted x) (<[Z.to_nat (n + k) := e']> (x_slots (interrupted x)))) as (S1 & S2 & S3).
  fold x2 in S1, S2, S3. clearbody x2.
  destruct (recover_upto x2 n len k) as (x3 & E & R1 & _); rewrite ?S1, ?S2, ?S3, ?length_insert; try (assumption || lia).
  - intros j f Hj. rewrite list_lookup_insert_ne by lia. apply Hall. lia.
  - intros _. exists e'.
    split; [apply list_lookup_insert_eq; unfold SLOTS in *; lia|]. unfold crc_ok. rewrite D6.
    rewrite (Hall (n + k) e ltac:(lia) He), D1, D2. intros Ec.
    apply Forall_app in D3 as [F1 F2]. apply Forall_cons in F2 as [F2 F3]. by apply D5, (crc_changed l1 b b' l2).
  - exists x3. split; [exact E|]. unfold txfs_applied_count, txfs_committed_count. rewrite R1. split; reflexivity.
Qed.

(** ** Histories *)

(** A file system reached from its start by calls of the interface, with the
    transactions whose commit returned 0. *)
Inductive reach : txfs -> list (Z * list txfs_entry) -> Prop :=
| reach_init root x : txfs_init true root = (0, Some x) -> reach x []
| reach_begin x x' H rc : reach x H -> txfs_begin x = (rc, x') -> reach x' H
| reach_add x x' H rc ty path off data sz path2 :
    reach x H -> 0 <= sz -> add_op x ty path off data sz path2 = Some (rc, x') -> reach x' H
| reach_commit x x' H : reach x H -> txfs_commit x = (0, x') -> reach x' (H ++ [(t_txn_id (x_txn x), t_ops (x_txn x))])
| reach_commit_fail x x' H rc : reach x H -> txfs_commit x = (rc, x') -> rc <> 0 -> reach x' H
| reach_abort x x' H rc : reach x H -> txfs_abort x = (rc, x') -> reach x' H
| reach_recover x x' H rc : reach x H -> txfs_recover x = (rc, x') -> reach x' H.

Definition history (H : list (Z * list txfs_entry)) : list txfs_entry := mjoin ((fun '(id, ops) => txn_entries id ops) <$> H).

Lemma history_snoc H id ops : history (H ++ [(id, ops)]) = history H ++ txn_entries id ops.
Proof. unfold history. rewrite fmap_app. cbn [fmap list_fmap]. rewrite join_app. cbn. by rewrite app_nil_r. Qed.

(** The calls that neither write the journal nor change the counts. *)
Lemma wf_same x x' :
  wf x -> x_slots x' = x_slots x -> x_journal_size x' = x_journal_size x ->
  hd_entry_count (x_header x') = hd_entry_count (x_header x) -> hd_committed_count (x_header x') = hd_committed_count (x_header x) ->
  hd_applied_count (x_header x') = hd_applied_count (x_header x) ->
  Forall op_ok (t_ops (x_txn x')) /\ (length (t_ops (x_txn x')) <= 64)%nat -> wf x' /\ log x' = log x.
Proof.
  intros [W1 W2 W3 W4 W5 W6 W7] E1 E2 E3 E4 E5 Ho. split; [|unfold log; by rewrite E1, E4].
  constructor; rewrite ?E1, ?E2, ?E3, ?E4, ?E5; done.
Qed.

Lemma add_op_wf x ty path off data sz path2 rc x' :
  wf x -> 0 <= sz -> add_op x ty path off data sz path2 = Some (rc, x') -> wf x' /\ log x' = log x.
Proof.
  intros Hwf Hsz. unfold add_op. destruct (x_txn_active x); cbn [negb]; [|by intros [= <- <-]].
  unfold TXFS_MAX_TXN_OPS. destruct (Z.geb_spec (Z.of_nat (length (t_ops (x_txn x)))) 64) as [|Hlt]; [by intros [= <- <-]|].
  set (n := if sz >? 512 then 512 else sz). assert (0 <= n <= 512) as Hn by (unfold n; destruct (Z.gtb_spec sz 512); lia).
  intros E. apply bind_Some in E as (bytes & Eb & E). apply (inj Some), (f_equal snd) in E. cbn [snd] in E. subst x'.
  apply wf_same; try done. cbn [set_txn x_txn t_ops]. rewrite length_app. cbn [length].
  destruct (wf_ops _ Hwf) as [Ho _]. split; [|lia]. apply Forall_app. split; [done|]. constructor; [|constructor].
  split; [exact Hn|]. cbn [e_data]. rewrite length_app, length_replicate.
  enough (length bytes <= 512)%nat by lia. clearbody n. destruct data as [d|]; [|injection Eb as <-; cbn; lia].
  destruct (sz >? 0); [|injection Eb as <-; cbn; lia]. destruct (_ <=? _); [|done]. injection Eb as <-. rewrite length_take. lia.
Qed.


(** ** Examples *)

(** The state after an operation that reads nothing it may not. *)
Definition after (f : txfs -> option (Z * txfs)) (x : txfs) : txfs := default x (snd <$> f x).

(** A transaction of two operations on a fresh file system. *)
Definition demo (x : txfs) : txfs :=
  after (fun x => txfs_create x (str "/b")) (after (fun x => txfs_write x (str "/a") 0 (Some (str "hello")) 5) (snd (txfs_begin x))).

Lemma pair_snd {A B} (p : A * B) a : fst p = a -> p = (a, snd p).
Proof. destruct p. by intros <-. Qed.

Lemma reach_after x H ty path off data sz path2 :
  reach x H -> 0 <= sz -> reach (after (fun x => add_op x ty path off data sz path2) x) H.
Proof.
  intros R Hsz. unfold after. destruct (add_op x ty path off data sz path2) as [[rc x']|] eqn:E; [|done].
  by eapply reach_add.
Qed.

Lemma demo_reach x : txfs_init true None = (0, Some x) -> reach (demo x) [].
Proof.
  intros E. apply reach_after; [apply reach_after; [|lia]|lia].
  exact (reach_begin _ _ _ _ (reach_init None x E) (surjective_pairing _)).
Qed.

Lemma wf_after x ty path off data sz path2 :
  wf x -> 0 <= sz -> wf (after (fun x => add_op x ty path off data sz path2) x).
Proof.
  intros R Hsz. unfold after. destruct (add_op x ty path off data sz path2) as [[rc x']|] eqn:E; [|done].
  by eapply add_op_wf.
Qed.

Lemma demo_wf x : txfs_init true None = (0, Some x) -> wf (demo x).
Proof.
  intros E. destruct (txfs_init_wf None) as (x0 & E0 & Hwf & _). assert (x0 = x) as -> by congruence. clear E E0.
  apply wf_after; [apply wf_after; [|lia]|lia].
  unfold txfs_begin. destruct (x_txn_active x); [done|]. cbn [snd]. eapply wf_same; [exact Hwf|done..|]. cbn. split; [constructor|lia].
Qed.


Lemma txfs_recovery_completes_commit_witness :
  let x := txfs_start None in exists x1 x3, txfs_commit (demo x) = (0, x1) /\
    txfs_recover (interrupted (demo x)) = (2, x3) /\ x_header x3 = x_header x1 /\
    x_journal_header x3 = x_journal_header x1 /\ x_slots x3 = x_slots x1 /\
    x_entries_applied x3 = x_entries_applied x1 /\ txfs_was_recovered x3 = true /\ txfs_recover x3 = (0, x3).
Proof.
  destruct (txfs_recovery_completes_commit (demo (txfs_start None))) as (x1 & x3 & H);
    [apply demo_wf; reflexivity|vm_compute; reflexivity|intros E; vm_compute in E; discriminate E
    |apply Z.leb_le; vm_compute; reflexivity|].
  exists x1, x3. exact H.
Defined.

Definition flip_first (e : txfs_entry) : txfs_entry :=
  {| e_type := e_type e; e_txn_id := e_txn_id e; e_op_index := e_op_index e; e_offset := e_offset e; e_size := e_size e;
     e_path := e_path e; e_path2 := e_path2 e; e_data := <[0%nat := 99]> (e_data e); e_data_crc := e_data_crc e |}.

Lemma txfs_recovery_stops_at_damage_witness :
  let x := txfs_start None in exists e x3, x_slots (interrupted (demo x)) !! 0%nat = Some e /\
    txfs_recover (set_slots (interrupted (demo x)) (<[0%nat := flip_first e]> (x_slots (interrupted (demo x))))) = (0, x3) /\
    txfs_applied_count x3 = 0 /\ txfs_committed_count x3 = 2.
Proof.
  eexists. edestruct (txfs_recovery_stops_at_damage (demo (txfs_start None)) 0) as (x3 & H);
    [apply demo_wf; reflexivity|vm_compute; reflexivity|intros E; vm_compute in E; discriminate E
    |apply Z.leb_le; vm_compute; reflexivity|split; [lia|apply Z.ltb_lt; vm_compute; reflexivity]|vm_compute; reflexivity| |].
  2:{ exists x3. split; [vm_compute; reflexivity|]. exact H. }
  exists [], 104, 99, (str "ello"). split; [vm_compute; reflexivity|]. split; [vm_compute; reflexivity|].
  split; [apply (bool_decide_unpack _); vm_compute; exact I|]. split; [apply (bool_decide_unpack _); vm_compute; exact I|].
  split; [lia|vm_compute; reflexivity].
Defined.

(** ** Defects *)

(** One transaction with one operation. *)
Definition one_commit (x : txfs) : txfs := snd (txfs_commit (after (fun x => txfs_create x (str "/f")) (snd (txfs_begin x)))).

(** The journal is never truncated: after 61 operations in all, every further
    transaction fails. *)
Lemma txfs_journal_is_never_reclaimed :
  let x := txfs_start None in
    let x61 := Nat.iter 61 one_commit x in
    txfs_committed_total x61 = 61 /\ txfs_applied_count x61 = 61 /\
    fst (txfs_commit (after (fun x => txfs_create x (str "/f")) (snd (txfs_begin x61)))) = -1.
Proof. vm_compute. done. Qed.

(** A write of more than 512 bytes is accepted and journalled cut short. *)
Lemma txfs_long_write_is_cut :
  let x := txfs_start None in
    (fun '(rc, x') => (rc, e_size <$> t_ops (x_txn x'))) <$>
      txfs_write (snd (txfs_begin x)) (str "/a") 0 (Some (replicate 600 65)) 600 = Some (0, [512]).
Proof. vm_compute. done. Qed.
