(* ===== verification/Inflate.v ===== *)
(** * The DEFLATE decompressor

    [kernel/wubu_inflate.c].  Integers are [Z]; the C arrays are lists, and a read
    outside one is [None], which the theorems show never happens.  The output
    buffer is the list of bytes written so far, with its capacity.  The loop of
    [block_decode] takes fuel, one unit per symbol; the block loop is bounded by
    the guard the code itself has. *)

From S2P Require Import Prelude.
Open Scope Z_scope.

Definition k_len_base : list Z :=
  [3;4;5;6;7;8;9;10;11;13;15;17;19;23;27;31;35;43;51;59;67;83;99;115;131;163;195;227;258].
Definition k_len_extra : list Z := [0;0;0;0;0;0;0;0;1;1;1;1;2;2;2;2;3;3;3;3;4;4;4;4;5;5;5;5;0].
Definition k_dist_base : list Z :=
  [1;2;3;4;5;7;9;13;17;25;33;49;65;97;129;193;257;385;513;769;1025;1537;2049;3073;4097;6145;8193;12289;16385;24577].
Definition k_dist_extra : list Z := [0;0;0;0;1;1;2;2;3;3;4;4;5;5;6;6;7;7;8;8;9;9;10;10;11;11;12;12;13;13].

(** ** Bits *)

Record br := { b_data : list Z; b_pos : nat; b_bitbuf : Z; b_bitcnt : Z }.

Definition br_init (d : list Z) : br := {| b_data := d; b_pos := 0; b_bitbuf := 0; b_bitcnt := 0 |}.

(** [while (bitcnt < n)]: at most four bytes for [n] up to 25. *)
Fixpoint br_fill (fuel : nat) (b : br) (n : Z) : br :=
  match fuel with
  | O => b
  | S fuel =>
      if b_bitcnt b <? n then
        br_fill fuel
          match b_data b !! b_pos b with
          | None => {| b_data := b_data b; b_pos := b_pos b; b_bitbuf := b_bitbuf b; b_bitcnt := b_bitcnt b + 8 |}
          | Some c => {| b_data := b_data b; b_pos := S (b_pos b);
                         b_bitbuf := Z.lor (b_bitbuf b) (u32 (Z.shiftl c (b_bitcnt b))); b_bitcnt := b_bitcnt b + 8 |}
          end n
      else b
  end.
Definition br_get (b : br) (n : Z) : Z * br :=
  let b := br_fill 4 b n in
  (Z.land (b_bitbuf b) (u32 (Z.shiftl 1 n) - 1),
   {| b_data := b_data b; b_pos := b_pos b; b_bitbuf := Z.shiftr (b_bitbuf b) n; b_bitcnt := b_bitcnt b - n |}).
Definition br_align (b : br) : br := {| b_data := b_data b; b_pos := b_pos b; b_bitbuf := 0; b_bitcnt := 0 |}.

(** ** Huffman codes *)

Record huff := { h_cnt : list Z; h_sym : list Z }.

(** How many symbols have code length [k]; [cnt[0]] is cleared. *)
Definition count_lengths (lengths : list Z) : list Z :=
  <[0%nat := 0]> (foldl (fun cnt l => alter Z.succ (Z.to_nat l) cnt) (replicate 16 0) lengths).
(** [left] after each length; [None] when over-subscribed. *)
Definition left_loop (cnt : list Z) : option Z :=
  foldl (fun l len => l ← l; let l := l * 2 - cnt !!! len in if l <? 0 then None else Some l)
    (Some 1) (seq 1 15).
Definition offsets (cnt : list Z) : list Z :=
  foldl (fun offs len => <[S len := offs !!! len + cnt !!! len]> offs) (replicate 16 0) (seq 1 14).
(** [if (len) sym[offs[len]++] = i], for each symbol in turn. *)
Definition place_sym (st : option (list Z * list Z)) (il : nat * Z) : option (list Z * list Z) :=
  '(offs, sym) ← st;
  let '(i, len) := il in
  if len =? 0 then Some (offs, sym) else
  o ← offs !! Z.to_nat len;
  if (0 <=? o) && (o <? Z.of_nat (length sym)) then
    Some (<[Z.to_nat len := o + 1]> offs, <[Z.to_nat o := u16 (Z.of_nat i)]> sym)
  else None.
(** [Some None] is -1; [None] a store outside a table. *)
Definition huff_build (h : huff) (lengths : list Z) : option (option huff) :=
  let cnt := count_lengths lengths in
  match left_loop cnt with
  | None => Some None
  | Some l =>
      if negb (l =? 0) && ((length lengths =? 0)%nat || negb (l =? 1)) then Some None else
      '(_, sym) ← foldl place_sym (Some (offsets cnt, h_sym h)) (zip (seq 0 (length lengths)) lengths);
      Some (Some {| h_cnt := u16 <$> cnt; h_sym := sym |})
  end.

(** One code, bit by bit from length [len] on; -1 when none matches. *)
Fixpoint huff_loop (fuel : nat) (b : br) (h : huff) (len : nat) (code first index : Z) : option (Z * br) :=
  match fuel with
  | O => Some (-1, b)
  | S fuel =>
      let '(bit, b) := br_get b 1 in
      let code := Z.lor code bit in
      count ← h_cnt h !! len;
      if code - first <? count then
        if index + (code - first) <? 0 then None else
        s ← h_sym h !! Z.to_nat (index + (code - first)); Some (s, b)
      else huff_loop fuel b h (S len) (code * 2) ((first + count) * 2) (index + count)
  end.
Definition huff_decode (b : br) (h : huff) : option (Z * br) := huff_loop 15 b h 1 0 0 0.

(** ** Output *)

Record sink := { s_cap : Z; s_out : list Z }.
Definition sink_put (s : sink) (c : Z) : option sink :=
  if Z.of_nat (length (s_out s)) >=? s_cap s then None
  else Some {| s_cap := s_cap s; s_out := s_out s ++ [c] |}.

(** Copy [n] bytes from [distance] back; the inner [None] is -2. *)
Fixpoint copy_back (n : nat) (s : sink) (distance : Z) : option (option sink) :=
  match n with
  | O => Some (Some s)
  | S n =>
      let at_ := Z.of_nat (length (s_out s)) - distance in
      if at_ <? 0 then None else
      c ← s_out s !! Z.to_nat at_;
      match sink_put s c with
      | None => Some None
      | Some s => copy_back n s distance
      end
  end.

(** ** Blocks *)

Definition fixed_litlen : list Z := replicate 144 8 ++ replicate 112 9 ++ replicate 24 7 ++ replicate 8 8.
Definition fixed_dist : list Z := replicate 32 5.

(** The return code, the reader and the output after a block. *)
Fixpoint block_decode (fuel : nat) (b : br) (lit dist : huff) (out : sink) : option (Z * br * sink) :=
  match fuel with
  | O => None
  | S fuel =>
      '(sym, b) ← huff_decode b lit;
      if sym <? 0 then Some (-1, b, out) else
      if sym =? 256 then Some (0, b, out) else
      if sym <? 256 then
        match sink_put out (u8 sym) with
        | None => Some (-2, b, out)
        | Some out => block_decode fuel b lit dist out
        end
      else
        let sym := sym - 257 in
        if sym >=? 29 then Some (-1, b, out) else
        lb ← k_len_base !! Z.to_nat sym;
        le ← k_len_extra !! Z.to_nat sym;
        let '(e, b) := br_get b le in
        let len := lb + e in
        '(ds, b) ← huff_decode b dist;
        if (ds <? 0) || (ds >=? 30) then Some (-1, b, out) else
        db ← k_dist_base !! Z.to_nat ds;
        de ← k_dist_extra !! Z.to_nat ds;
        let '(e, b) := br_get b de in
        let distance := db + e in
        if distance >? Z.of_nat (length (s_out out)) then Some (-1, b, out) else
        r ← copy_back (Z.to_nat len) out distance;
        match r with
        | None => Some (-2, b, out)
        | Some out => block_decode fuel b lit dist out
        end
  end.

(** Every symbol but the last writes a byte. *)
Definition block_fuel (out : sink) : nat := S (Z.to_nat (s_cap out) - length (s_out out)).

Definition ORD : list nat := [16;17;18;0;8;7;9;6;10;5;11;4;12;3;13;2;14;1;15]%nat.

(** [for (i = 0; i < hclen; i++) cl_len[ORD[i]] = br_get (b, 3)] *)
Fixpoint read_cl (ord : list nat) (b : br) (cl : list Z) : br * list Z :=
  match ord with
  | [] => (b, cl)
  | o :: ord => let '(v, b) := br_get b 3 in read_cl ord b (<[o := u8 v]> cl)
  end.

(** The code lengths, run-length coded; the inner [None] is -1.  [lengths] is
    the part of the array written so far, [n] the length wanted. *)
Fixpoint read_lengths (fuel : nat) (b : br) (clh : huff) (n : nat) (lengths : list Z) : option (option (br * list Z)) :=
  if (n <=? length lengths)%nat then Some (Some (b, lengths)) else
  match fuel with
  | O => None
  | S fuel =>
      '(s, b) ← huff_decode b clh;
      let rep r v := take n (lengths ++ replicate (Z.to_nat r) v) in
      if s <? 0 then Some None else
      if s <? 16 then read_lengths fuel b clh n (lengths ++ [u8 s]) else
      if s =? 16 then
        match last lengths with
        | None => Some None
        | Some v => let '(r, b) := br_get b 2 in read_lengths fuel b clh n (rep (r + 3) v)
        end
      else if s =? 17 then let '(r, b) := br_get b 3 in read_lengths fuel b clh n (rep (r + 3) 0)
      else if s =? 18 then let '(r, b) := br_get b 7 in read_lengths fuel b clh n (rep (r + 11) 0)
      else Some None
  end.

Definition block_dynamic (b : br) (lit dist clh : huff) (out : sink) : option (Z * br * sink * huff * huff) :=
  let '(v, b) := br_get b 5 in let hlit := v + 257 in
  let '(v, b) := br_get b 5 in let hdist := v + 1 in
  let '(v, b) := br_get b 4 in let hclen := v + 4 in
  let '(b, cl_len) := read_cl (take (Z.to_nat hclen) ORD) b (replicate 19 0) in
  clh ← huff_build clh cl_len;
  match clh with
  | None => Some (-1, b, out, lit, dist)
  | Some clh =>
      let n := Z.to_nat (hlit + hdist) in
      r ← read_lengths n b clh n [];
      match r with
      | None => Some (-1, b, out, lit, dist)
      | Some (b, lengths) =>
          lit' ← huff_build lit (take (Z.to_nat hlit) lengths);
          match lit' with
          | None => Some (-1, b, out, lit, dist)
          | Some lit =>
              dist' ← huff_build dist (drop (Z.to_nat hlit) lengths);
              match dist' with
              | None => Some (-1, b, out, lit, dist)
              | Some dist =>
                  '(rc, b, out) ← block_decode (block_fuel out) b lit dist out;
                  Some (rc, b, out, lit, dist)
              end
          end
      end
  end.

(** The bytes of a stored block. *)
Fixpoint copy_stored (len : nat) (b : br) (out : sink) : Z * br * sink :=
  match len with
  | O => (0, b, out)
  | S len =>
      match b_data b !! b_pos b with
      | None => (-1, b, out)
      | Some c =>
          let b := {| b_data := b_data b; b_pos := S (b_pos b); b_bitbuf := b_bitbuf b; b_bitcnt := b_bitcnt b |} in
          match sink_put out c with
          | None => (-2, b, out)
          | Some out => copy_stored len b out
          end
      end
  end.

Definition stored_block (b : br) (out : sink) : option (Z * br * sink) :=
  let b := br_align b in
  if (length (b_data b) <? b_pos b + 4)%nat then Some (-1, b, out) else
  lo ← b_data b !! b_pos b;
  hi ← b_data b !! S (b_pos b);
  let len := Z.lor lo (Z.shiftl hi 8) in
  Some (copy_stored (Z.to_nat len)
          {| b_data := b_data b; b_pos := b_pos b + 4; b_bitbuf := b_bitbuf b; b_bitcnt := b_bitcnt b |} out).

(** ** Streams *)

(** The body of the block loop, by block type. *)
Definition one_block (btype : Z) (b : br) (lit dist clh : huff) (out : sink) : option (Z * br * sink * huff * huff) :=
  if btype =? 0 then '(rc, b, out) ← stored_block b out; Some (rc, b, out, lit, dist)
  else if btype =? 1 then
    lit' ← huff_build lit fixed_litlen;
    match lit' with
    | None => Some (-1, b, out, lit, dist)
    | Some lit =>
        dist' ← huff_build dist fixed_dist;
        match dist' with
        | None => Some (-1, b, out, lit, dist)
        | Some dist =>
            '(rc, b, out) ← block_decode (block_fuel out) b lit dist out;
            Some (rc, b, out, lit, dist)
        end
    end
  else if btype =? 2 then block_dynamic b lit dist clh out
  else Some (-1, b, out, lit, dist).

(** The block loop; [fuel] is what is left of the guard.  The result is the
    return code, the bytes written and the input consumed. *)
Fixpoint raw_loop (fuel : nat) (b : br) (lit dist clh : huff) (out : sink) : option (Z * list Z * nat) :=
  match fuel with
  | O => Some (-1, s_out out, b_pos b)
  | S fuel =>
      let '(bfinal, b) := br_get b 1 in
      let '(btype, b) := br_get b 2 in
      '(rc, b, out, lit, dist) ← one_block btype b lit dist clh out;
      if negb (rc =? 0) then Some (rc, s_out out, b_pos b)
      else if negb (bfinal =? 0) then Some (0, s_out out, b_pos b)
      else raw_loop fuel b lit dist clh out
  end.

Definition GUARD : nat := Z.to_nat 1000000.

(** Tables on the stack: what they hold at first is never read. *)
Definition blank_huff : huff := {| h_cnt := replicate 16 0; h_sym := replicate 288 0 |}.

Definition inflate_raw (src : list Z) (dcap : Z) : option (Z * list Z * nat) :=
  raw_loop GUARD (br_init src) blank_huff blank_huff blank_huff {| s_cap := dcap; s_out := [] |}.
Definition wubu_inflate_raw (src : list Z) (dcap : Z) : option (Z * list Z * nat) := inflate_raw src dcap.

(** The zlib wrapper. *)
Definition wubu_inflate (src : list Z) (dcap : Z) : option (Z * list Z * nat) :=
  match src with
  | c0 :: c1 :: body =>
      if negb (Z.land c0 15 =? 8) then Some (-1, [], 0%nat) else
      if Z.land (Z.shiftr c0 4) 15 >? 7 then Some (-1, [], 0%nat) else
      if negb ((c0 * 256 + c1) mod 31 =? 0) then Some (-1, [], 0%nat) else
      '(rc, out, consumed) ← inflate_raw body dcap;
      if negb (rc =? 0) then Some (rc, out, 0%nat) else
      let total := (2 + consumed)%nat in
      Some (0, out, if (total + 4 <=? length src)%nat then (total + 4)%nat else total)
  | _ => Some (-1, [], 0%nat)
  end.

Definition wubu_adler32 (data : list Z) : Z :=
  let '(a, b) := foldl (fun '(a, b) d => let a := (a + d) mod 65521 in (a, (b + a) mod 65521)) (1, 0) data in
  Z.lor (u32 (Z.shiftl b 16)) a.

(** [while (pos < slen && src[pos] != 0) pos++; if (pos >= slen) return -1; pos++] *)
Fixpoint skip_string (fuel : nat) (src : list Z) (pos : nat) : option nat :=
  match src !! pos with
  | None => None
  | Some c => if c =? 0 then Some (S pos) else match fuel with O => None | S fuel => skip_string fuel src (S pos) end
  end.

(** The header fields of a gzip member that its flags announce: [None] is -1. *)
Definition gzip_extra (src : list Z) (flg : Z) (pos : nat) : option nat :=
  if negb (Z.land flg 4 =? 0) then
    if (length src <? pos + 2)%nat then None else
    let xlen := u16 (Z.lor (src !!! pos) (Z.shiftl (src !!! S pos) 8)) in
    let pos := (pos + 2 + Z.to_nat xlen)%nat in
    if (length src <? pos)%nat then None else Some pos
  else Some pos.
Definition gzip_string (src : list Z) (flg bit : Z) (pos : nat) : option nat :=
  if negb (Z.land flg bit =? 0) then skip_string (length src) src pos else Some pos.
Definition gzip_hcrc (src : list Z) (flg : Z) (pos : nat) : option nat :=
  if negb (Z.land flg 2 =? 0) then if (length src <? pos + 2)%nat then None else Some (pos + 2)%nat else Some pos.

(** Positions do not wrap: a member is far shorter than 2^32 bytes. *)
Definition wubu_gunzip (src : list Z) (dcap : Z) : option (Z * list Z * nat) :=
  if (length src <? 18)%nat then Some (-1, [], 0%nat) else
  if negb (src !!! 0%nat =? 0x1f) || negb (src !!! 1%nat =? 0x8b) then Some (-1, [], 0%nat) else
  if negb (src !!! 2%nat =? 8) then Some (-1, [], 0%nat) else
  let flg := src !!! 3%nat in
  match (p ← gzip_extra src flg 10; p ← gzip_string src flg 8 p; p ← gzip_string src flg 16 p; gzip_hcrc src flg p) with
  | None => Some (-1, [], 0%nat)
  | Some pos =>
      if (length src <? pos)%nat then Some (-1, [], 0%nat) else
      let body_end := (length src - 8)%nat in
      if (body_end <? pos)%nat then Some (-1, [], 0%nat) else
      '(rc, out, consumed) ← inflate_raw (slice src pos (body_end - pos)) dcap;
      if negb (rc =? 0) then Some (rc, out, 0%nat) else Some (0, out, (pos + consumed + 8)%nat)
  end.

(** zlib's output for "hello hello hello", as the decoder sees it. *)
Example inflate_hello :
  wubu_inflate [0x78; 0x9c; 0xcb; 0x48; 0xcd; 0xc9; 0xc9; 0x57; 0xc8; 0x40; 0x90; 0x00; 0x3a; 0x2e; 0x06; 0x7d] 100
    = Some (0, str "hello hello hello", 16%nat).
Proof. vm_compute. reflexivity. Qed.

(** A gzip member with a file name. *)
Example gunzip_hello : wubu_gunzip [31; 139; 8; 8; 0; 0; 0; 0; 2; 255; 110; 46; 116; 120; 116; 0; 203; 72; 205; 201; 201; 87; 200; 0; 145; 0; 64; 166; 45; 1; 11; 0; 0; 0] 100 = Some (0, str "hello hello", 34%nat).
Proof. vm_compute. reflexivity. Qed.
