(* ===== verification/InflateHuff.v ===== *)
(** * The bit reader and canonical Huffman codes

    What is left to read, as a list of bits, and what [br_get] takes of it.  Building the decoding tables from code lengths and decoding with them, against
    the code assignment of RFC 1951 section 3.2.2. *)

From S2P Require Import Prelude Inflate.
Open Scope Z_scope.

(** ** The bit reader *)

(** The [n] low bits of [v], least significant first, and back. *)
Definition lsb_bits (n : nat) (v : Z) : list bool := (fun i => Z.testbit v (Z.of_nat i)) <$> seq 0 n.
Fixpoint lsb_val (bs : list bool) : Z := match bs with [] => 0 | x :: bs => Z.b2z x + 2 * lsb_val bs end.

Lemma length_lsb_bits n v : length (lsb_bits n v) = n.
Proof. unfold lsb_bits. by rewrite length_fmap, length_seq. Qed.

Lemma lsb_bits_S n v : lsb_bits (S n) v = Z.testbit v 0 :: lsb_bits n (Z.shiftr v 1).
Proof.
  unfold lsb_bits. cbn [seq fmap list_fmap]. f_equal. rewrite <- fmap_S_seq, <- list_fmap_compose.
  apply list_fmap_ext. intros i x _. cbn [compose]. rewrite Z.shiftr_spec by lia. f_equal. lia.
Qed.

Lemma lsb_bits_app n k v w : fits (Z.of_nat n) v ->
  lsb_bits (n + k) (Z.lor v (Z.shiftl w (Z.of_nat n))) = lsb_bits n v ++ lsb_bits k w.
Proof.
  intros Hv. unfold lsb_bits. rewrite seq_app, fmap_app. f_equal.
  - apply list_fmap_ext. intros i x Hx. apply lookup_seq in Hx as [-> Hx]. rewrite Z.lor_spec, Z.shiftl_spec_low by lia. apply orb_false_r.
  - rewrite Nat.add_0_l, <- (Nat.add_0_r n), <- fmap_add_seq, <- list_fmap_compose. apply list_fmap_ext. intros i x _.
    cbn [compose]. rewrite Nat.add_0_r, Z.lor_spec, Z.shiftl_spec by lia. rewrite <- (wrap_id _ v Hv). unfold wrap.
    rewrite Z.mod_pow2_bits_high by lia. cbn [orb]. f_equal. lia.
Qed.

Lemma lsb_val_bits n v : 0 <= v -> lsb_val (lsb_bits n v) = v mod 2 ^ Z.of_nat n.
Proof.
  revert v. induction n as [|n IH]; intros v Hv; [by rewrite Z.mod_1_r|].
  rewrite lsb_bits_S. cbn [lsb_val]. rewrite IH by (by apply Z.shiftr_nonneg).
  rewrite Nat2Z.inj_succ, Z.pow_succ_r by lia. rewrite Z.rem_mul_r by (apply Z.pow_nonzero || lia; lia).
  rewrite Z.shiftr_div_pow2 by lia. change (2 ^ 1) with 2. rewrite Z.bit0_odd, Zmod_odd. by destruct (Z.odd v).
Qed.

Lemma lsb_bits_val bs : lsb_bits (length bs) (lsb_val bs) = bs.
Proof.
  induction bs as [|x bs IH]; [done|]. cbn [length lsb_val]. rewrite lsb_bits_S. f_equal.
  - rewrite Z.bit0_odd, Z.odd_add_mul_2. by destruct x.
  - replace (Z.shiftr (Z.b2z x + 2 * lsb_val bs) 1) with (lsb_val bs); [done|].
    rewrite Z.shiftr_div_pow2 by lia. change (2 ^ 1) with 2. apply Z.div_unique with (Z.b2z x); destruct x; cbn; lia.
Qed.

Lemma lsb_val_fits bs : fits (Z.of_nat (length bs)) (lsb_val bs).
Proof.
  induction bs as [|x bs IH]; [unfold_fits; cbn; lia|]. cbn [length lsb_val]. unfold fits in *.
  rewrite Nat2Z.inj_succ, Z.pow_succ_r by lia. destruct x; cbn; lia.
Qed.

(** The bits of a byte string. *)
Definition byte_bits (data : list Z) : list bool := mjoin (lsb_bits 8 <$> data).

Lemma byte_bits_cons c data : byte_bits (c :: data) = lsb_bits 8 c ++ byte_bits data.
Proof. done. Qed.
Lemma length_byte_bits data : length (byte_bits data) = (8 * length data)%nat.
Proof. induction data as [|c data IH]; [done|]. rewrite byte_bits_cons, length_app, length_lsb_bits, IH. cbn [length]. lia. Qed.

(** ** The reader *)

(** The bits not yet read. *)
Definition bits (b : br) : list bool := lsb_bits (Z.to_nat (b_bitcnt b)) (b_bitbuf b) ++ byte_bits (drop (b_pos b) (b_data b)).

Record br_ok (b : br) : Prop := {
  bo_cnt : 0 <= b_bitcnt b;
  bo_buf : fits (b_bitcnt b) (b_bitbuf b);
  bo_data : Forall is_byte (b_data b);
  bo_pos : (b_pos b <= length (b_data b))%nat }.

Lemma br_init_ok data : Forall is_byte data -> br_ok (br_init data) /\ bits (br_init data) = byte_bits data.
Proof. intros H. split; [|done]. constructor; cbn; (done || lia || (unfold fits; cbn; lia)). Qed.

(** The reader [b1] is [b] with bytes moved into the buffer, zeros at the end. *)
Record filled (b b1 : br) (n : Z) : Prop := {
  fi_ok : br_ok b1;
  fi_cnt : n <= b_bitcnt b1;
  fi_small : b_bitcnt b1 < n + 8 \/ b1 = b;
  fi_data : b_data b1 = b_data b;
  fi_pos : (b_pos b <= b_pos b1)%nat;
  fi_bits : exists k, bits b1 = bits b ++ replicate k false /\ (n <= Z.of_nat (length (bits b)) -> k = 0%nat) }.

Lemma fill_step b c :
  br_ok b -> b_bitcnt b <= 24 -> b_data b !! b_pos b = Some c ->
  let b1 := {| b_data := b_data b; b_pos := S (b_pos b);
               b_bitbuf := Z.lor (b_bitbuf b) (u32 (Z.shiftl c (b_bitcnt b))); b_bitcnt := b_bitcnt b + 8 |} in
  br_ok b1 /\ bits b1 = bits b.
Proof.
  intros [O1 O2 O3 O4] Hc He b1. assert (is_byte c) as Hb by (eapply Forall_lookup_1; [exact O3|exact He]).
  assert (fits 32 (Z.shiftl c (b_bitcnt b))) as Hf.
  { rewrite Z.shiftl_mul_pow2 by lia. unfold fits in *. assert (2 ^ b_bitcnt b <= 2 ^ 24) by (apply Z.pow_le_mono_r; lia).
    assert (0 < 2 ^ b_bitcnt b) by (apply Z.pow_pos_nonneg; lia). change (2 ^ 32) with (256 * 2 ^ 24). split; [nia|].
    change (2 ^ 8) with 256 in Hb. nia. }
  unfold b1. rewrite (wrap_id 32) by done. split.
  - constructor; cbn [b_bitcnt b_bitbuf b_data b_pos]; [lia| |done|].
    + rewrite lor_shiftl_add by done. unfold fits in *. rewrite Z.pow_add_r by lia. change (2 ^ 8) with 256 in *. nia.
    + apply lookup_lt_Some in He. lia.
  - unfold bits. cbn [b_bitcnt b_bitbuf b_data b_pos]. rewrite (drop_S (b_data b) c (b_pos b)) by done.
    replace (Z.to_nat (b_bitcnt b + 8)) with (Z.to_nat (b_bitcnt b) + 8)%nat by lia.
    replace (Z.shiftl c (b_bitcnt b)) with (Z.shiftl c (Z.of_nat (Z.to_nat (b_bitcnt b)))) by (f_equal; lia).
    rewrite lsb_bits_app by (rewrite Z2Nat.id by lia; done). rewrite byte_bits_cons, <- app_assoc. done.
Qed.

Lemma fill_eof b :
  br_ok b -> b_data b !! b_pos b = None ->
  let b1 := {| b_data := b_data b; b_pos := b_pos b; b_bitbuf := b_bitbuf b; b_bitcnt := b_bitcnt b + 8 |} in
  br_ok b1 /\ bits b1 = bits b ++ replicate 8 false /\ Z.of_nat (length (bits b)) = b_bitcnt b.
Proof.
  intros [O1 O2 O3 O4] He b1. apply lookup_ge_None in He.
  assert (fits (b_bitcnt b + 8) (b_bitbuf b)) as Hf.
  { unfold fits in *. rewrite Z.pow_add_r by lia. assert (0 < 2 ^ b_bitcnt b) by (apply Z.pow_pos_nonneg; lia). change (2 ^ 8) with 256. lia. }
  split; [by constructor; cbn [b1 b_bitcnt b_bitbuf b_data b_pos]; [lia|..]|].
  unfold bits. cbn [b1 b_bitcnt b_bitbuf b_data b_pos]. rewrite drop_ge by lia. rewrite !app_nil_r, length_lsb_bits. split; [|lia].
  replace (Z.to_nat (b_bitcnt b + 8)) with (Z.to_nat (b_bitcnt b) + 8)%nat by lia.
  pose proof (lsb_bits_app (Z.to_nat (b_bitcnt b)) 8 (b_bitbuf b) 0) as E. rewrite Z.shiftl_0_l, Z.lor_0_r in E.
  rewrite E by (rewrite Z2Nat.id by lia; done). done.
Qed.

Lemma br_fill_spec fuel : forall b n, br_ok b -> n <= 25 -> n <= b_bitcnt b + 8 * Z.of_nat fuel -> filled b (br_fill fuel b n) n.
Proof.
  induction fuel as [|fuel IH]; intros b n Hok Hn Hf; cbn [br_fill].
  - constructor; try (done || lia); [by right|]. exists 0%nat. by rewrite app_nil_r.
  - destruct (Z.ltb_spec (b_bitcnt b) n) as [Hlt|Hge].
    2:{ constructor; try (done || lia); [by right|]. exists 0%nat. by rewrite app_nil_r. }
    destruct (b_data b !! b_pos b) as [c|] eqn:He.
    + destruct (fill_step b c Hok ltac:(lia) He) as [Hok1 Eb]. set (b1 := Build_br _ _ _ _) in *.
      destruct (IH b1 n Hok1 Hn ltac:(cbn; lia)) as [F1 F2 F3 F4 F5 (k & F6 & F7)].
      constructor; try done; [destruct F3 as [?| ->]; [by left|left; cbn; lia]|by etrans; [|exact F5]; cbn; lia|].
      exists k. rewrite <- Eb. done.
    + destruct (fill_eof b Hok He) as (Hok1 & Eb & El). set (b1 := Build_br _ _ _ _) in *.
      destruct (IH b1 n Hok1 Hn ltac:(cbn; lia)) as [F1 F2 F3 F4 F5 (k & F6 & F7)].
      constructor; try done; [destruct F3 as [?| ->]; [by left|left; cbn; lia]|].
      exists (8 + k)%nat. split; [|lia]. by rewrite F6, Eb, <- app_assoc, <- replicate_add.
Qed.

(** A reader between calls: less than a byte is buffered. *)
Definition rd_ok (b : br) : Prop := br_ok b /\ b_bitcnt b < 8.

Lemma br_get_ok b n : rd_ok b -> 0 <= n <= 25 ->
  let '(v, b') := br_get b n in
  rd_ok b' /\ fits n v /\ b_data b' = b_data b /\ (b_pos b <= b_pos b')%nat.
Proof.
  intros [Hok H8] Hn. unfold br_get. destruct (br_fill_spec 4 b n Hok ltac:(lia)) as [[O1 O2 O3 O4] F2 F3 F4 F5 _].
  { destruct Hok. lia. }
  set (b1 := br_fill 4 b n) in *.
  assert (fits 32 (Z.shiftl 1 n)) as Hf.
  { rewrite Z.shiftl_1_l. unfold fits. split; [apply Z.pow_nonneg; lia|]. apply Z.pow_lt_mono_r; lia. }
  rewrite (wrap_id 32) by done. split; [|split; [|done]].
  - split; [constructor|]; cbn [b_bitcnt b_bitbuf b_data b_pos]; try done; [lia| |destruct F3 as [?| ->]; lia].
    rewrite Z.shiftr_div_pow2 by lia. unfold fits in *. split; [apply Z.div_pos; [lia|apply Z.pow_pos_nonneg; lia]|].
    apply Z.div_lt_upper_bound; [apply Z.pow_pos_nonneg; lia|]. rewrite <- Z.pow_add_r by lia. replace (n + (b_bitcnt b1 - n)) with (b_bitcnt b1) by lia. lia.
  - rewrite Z.shiftl_1_l. replace (2 ^ n - 1) with (Z.ones n) by (rewrite Z.ones_equiv; lia). rewrite Z.land_ones by lia.
    apply wrap_fits. lia.
Qed.

(** Reading [n] of the bits that are there. *)
Lemma br_get_bits b n xs rest :
  rd_ok b -> (n <= 25)%nat -> bits b = xs ++ rest -> length xs = n ->
  exists b', br_get b (Z.of_nat n) = (lsb_val xs, b') /\ rd_ok b' /\ bits b' = rest /\ b_data b' = b_data b.
Proof.
  intros Hrd Hn Eb Hl. pose proof (br_get_ok b (Z.of_nat n) Hrd ltac:(lia)) as Hget.
  destruct Hrd as [Hok H8]. unfold br_get in *.
  destruct (br_fill_spec 4 b (Z.of_nat n) Hok ltac:(lia)) as [[O1 O2 O3 O4] F2 F3 F4 F5 (k & F6 & F7)].
  { destruct Hok. lia. }
  set (b1 := br_fill 4 b (Z.of_nat n)) in *. rewrite (F7 ltac:(rewrite Eb, length_app; lia)), app_nil_r, Eb in F6.
  assert (exists m, Z.to_nat (b_bitcnt b1) = (n + m)%nat) as [m Em] by (exists (Z.to_nat (b_bitcnt b1) - n)%nat; lia).
  assert (lsb_bits n (b_bitbuf b1) = xs /\ lsb_bits m (Z.shiftr (b_bitbuf b1) (Z.of_nat n)) ++ byte_bits (drop (b_pos b1) (b_data b1)) = rest) as [E1 E2].
  { unfold bits in F6. rewrite Em in F6.
    assert (b_bitbuf b1 = Z.lor (b_bitbuf b1 mod 2 ^ Z.of_nat n) (Z.shiftl (Z.shiftr (b_bitbuf b1) (Z.of_nat n)) (Z.of_nat n))) as Ed.
    { rewrite lor_shiftl_add by (lia || (apply wrap_fits; lia)). rewrite Z.shiftr_div_pow2 by lia.
      pose proof (Z.div_mod (b_bitbuf b1) (2 ^ Z.of_nat n) ltac:(apply Z.pow_nonzero; lia)). lia. }
    rewrite Ed in F6 at 1. rewrite lsb_bits_app, <- app_assoc in F6 by (apply wrap_fits; lia).
    apply app_inj_1 in F6 as [F6 F8]; [|by rewrite length_lsb_bits]. split; [|done]. rewrite <- F6.
    unfold lsb_bits. apply list_fmap_ext. intros i x Hx. apply lookup_seq in Hx as [-> Hx]. rewrite Z.mod_pow2_bits_low by lia. done. }
  destruct Hget as (Hrd & _ & Hd & _). eexists. split; [|split; [exact Hrd|split; [|done]]].
  - f_equal. rewrite Z.shiftl_1_l. rewrite (wrap_id 32).
    2:{ unfold fits. split; [apply Z.pow_nonneg; lia|]. apply Z.pow_lt_mono_r; lia. }
    replace (2 ^ Z.of_nat n - 1) with (Z.ones (Z.of_nat n)) by (rewrite Z.ones_equiv; lia). rewrite Z.land_ones by lia.
    rewrite <- E1, lsb_val_bits; [done|]. unfold fits in O2. lia.
  - unfold bits. cbn [b_bitcnt b_bitbuf b_data b_pos]. rewrite <- E2. repeat f_equal. lia.
Qed.

(** ** The canonical code *)

Section code.
Context (lengths : list Z).

(** Symbols with code length [k], below [i] or in all. *)
Definition num (k : nat) (l : list Z) : Z := Z.of_nat (count (fun x => x =? Z.of_nat k) l).
Definition cnt_of (k : nat) : Z := if (k =? 0)%nat then 0 else num k lengths.

(** The first code of each length, and how many shorter codes there are. *)
Fixpoint first_code (k : nat) : Z := match k with O => 0 | S k => (first_code k + cnt_of k) * 2 end.
Fixpoint shorter (k : nat) : Z := match k with O => 0 | S k => shorter k + cnt_of k end.
(** Unused codes of each length. *)
Fixpoint left_of (k : nat) : Z := match k with O => 1 | S k => left_of k * 2 - cnt_of (S k) end.

(** The code of symbol [s], which has length [k]. *)
Definition code_of (s k : nat) : Z := first_code k + num k (take s lengths).

Lemma num_app k a b : num k (a ++ b) = num k a + num k b.
Proof. unfold num. induction a as [|x a IH]; cbn [app count]; [lia|]. destruct (x =? Z.of_nat k); lia. Qed.
Lemma num_nonneg k l : 0 <= num k l.
Proof. unfold num. lia. Qed.
Lemma cnt_of_nonneg k : 0 <= cnt_of k.
Proof. unfold cnt_of. destruct (k =? 0)%nat; [lia|apply num_nonneg]. Qed.

Lemma num_take_lt l s k : l !! s = Some (Z.of_nat k) -> num k (take s l) < num k l.
Proof.
  intros Hs. rewrite <- (take_drop s l) at 2. rewrite num_app, (drop_S _ _ _ Hs).
  change (Z.of_nat k :: drop (S s) l) with ([Z.of_nat k] ++ drop (S s) l). rewrite num_app.
  pose proof (num_nonneg k (drop (S s) l)). unfold num at 3. cbn [count]. rewrite Z.eqb_refl. lia.
Qed.

Lemma first_left k : first_code k + cnt_of k + left_of k = 2 ^ Z.of_nat k.
Proof.
  induction k as [|k IH]; [done|]. cbn [first_code left_of]. rewrite Nat2Z.inj_succ, Z.pow_succ_r by lia. lia.
Qed.

(** Longer codes lie above all shorter ones. *)
Lemma first_code_above j k : (j < k)%nat -> 2 ^ Z.of_nat (k - j) * (first_code j + cnt_of j) <= first_code k.
Proof.
  intros Hjk. induction Hjk as [|k Hjk IH]; cbn [first_code].
  - replace (S j - j)%nat with 1%nat by lia. lia.
  - replace (S k - j)%nat with (S (k - j)) by lia. rewrite Nat2Z.inj_succ, Z.pow_succ_r by lia. pose proof (cnt_of_nonneg k). lia.
Qed.
Lemma shorter_mono j k : (j < k)%nat -> shorter j + cnt_of j <= shorter k.
Proof. intros Hjk. induction Hjk as [|k Hjk IH]; cbn [shorter]; [lia|]. pose proof (cnt_of_nonneg k). lia. Qed.
Lemma shorter_nonneg k : 0 <= shorter k.
Proof. induction k as [|k IH]; cbn [shorter]; [lia|]. pose proof (cnt_of_nonneg k). lia. Qed.

(** ** The tables *)

Definition lengths_ok : Prop := Forall (fun l => 0 <= l <= 15) lengths.

Lemma count_fold l : forall cnt,
  length cnt = 16%nat -> Forall (fun x => 0 <= x <= 15) l ->
  let r := foldl (fun cnt x => alter Z.succ (Z.to_nat x) cnt) cnt l in
  length r = 16%nat /\ forall k, (k < 16)%nat -> r !!! k = cnt !!! k + num k l.
Proof.
  induction l as [|x l IH]; intros cnt Hc Hl; cbn [foldl]; [split; [done|intros; unfold num; cbn; lia]|].
  apply Forall_cons in Hl as [Hx Hl].
  destruct (IH (alter Z.succ (Z.to_nat x) cnt)) as [L1 L2]; [by rewrite length_alter|done|]. split; [done|].
  intros k Hk. rewrite L2 by done. change (x :: l) with ([x] ++ l). rewrite num_app.
  assert (alter Z.succ (Z.to_nat x) cnt !!! k = cnt !!! k + num k [x]) as ->; [|lia].
  unfold num. cbn [count]. destruct (Z.eqb_spec x (Z.of_nat k)) as [->|Hne].
  - rewrite Nat2Z.id. rewrite !list_lookup_total_alt, list_lookup_alter_eq.
    destruct (lookup_lt_is_Some_2 cnt k) as [c ->]; [lia|]. cbn. lia.
  - rewrite !list_lookup_total_alt, list_lookup_alter_ne by lia. lia.
Qed.

Lemma count_lengths_spec : lengths_ok ->
  length (count_lengths lengths) = 16%nat /\ forall k, (k < 16)%nat -> count_lengths lengths !!! k = cnt_of k.
Proof.
  intros Hl. unfold count_lengths. destruct (count_fold lengths (replicate 16 0) ltac:(done) Hl) as [L1 L2].
  split; [by rewrite length_insert|]. intros k Hk. unfold cnt_of. destruct (Nat.eqb_spec k 0) as [->|Hne].
  - rewrite list_lookup_total_insert_eq; [done|lia].
  - rewrite list_lookup_total_insert_ne by done. rewrite L2 by done.
    rewrite list_lookup_total_alt, lookup_replicate_2 by done. cbn. lia.
Qed.

Lemma left_loop_spec (cnt : list Z) l n :
  (forall k, (k < 16)%nat -> cnt !!! k = cnt_of k) -> (n <= 15)%nat ->
  foldl (fun l len => l ← l; let l := l * 2 - cnt !!! len in if l <? 0 then None else Some l) (Some 1) (seq 1 n) = Some l ->
  l = left_of n /\ forall k, (1 <= k <= n)%nat -> 0 <= left_of k.
Proof.
  intros Hc. revert l. induction n as [|n IH]; intros l Hn; [intros [= <-]; split; [done|lia]|].
  rewrite seq_S, foldl_app. cbn [foldl]. destruct (foldl _ _ (seq 1 n)) as [l0|]; [|done]. cbn [mbind option_bind].
  destruct (IH l0 ltac:(lia) eq_refl) as [-> Hk]. rewrite Hc by lia. replace (1 + n)%nat with (S n) by lia.
  change (left_of n * 2 - cnt_of (S n)) with (left_of (S n)).
  destruct (Z.ltb_spec (left_of (S n)) 0); [done|]. intros [= <-]. split; [done|].
  intros k Hkn. destruct (decide (k = S n)) as [->|]; [done|]. apply Hk. lia.
Qed.

Lemma offsets_spec (cnt : list Z) n :
  (forall k, (k < 16)%nat -> cnt !!! k = cnt_of k) -> (n <= 14)%nat ->
  let o := foldl (fun offs len => <[S len := offs !!! len + cnt !!! len]> offs) (replicate 16 0) (seq 1 n) in
  length o = 16%nat /\ forall k, (1 <= k <= S n)%nat -> o !! k = Some (shorter k).
Proof.
  intros Hc. induction n as [|n IH]; intros Hn.
  - split; [done|]. intros k Hk. replace k with 1%nat by lia. done.
  - rewrite seq_S, foldl_app. cbn [foldl]. destruct (IH ltac:(lia)) as [L1 L2]. set (o := foldl _ _ _) in *.
    split; [by rewrite length_insert|]. intros k Hk. replace (1 + n)%nat with (S n) by lia.
    destruct (decide (k = S (S n))) as [->|Hne].
    + rewrite list_lookup_insert_eq by lia. f_equal. rewrite list_lookup_total_alt, L2, Hc by lia. done.
    + rewrite list_lookup_insert_ne by lia. apply L2. lia.
Qed.

(** Symbols and their slots. *)
Definition slot (s k : nat) : Z := shorter k + num k (take s lengths).

Lemma slot_bound s k : lengths !! s = Some (Z.of_nat k) -> (0 < k < 16)%nat -> 0 <= slot s k < shorter 16.
Proof.
  intros Hs Hk. pose proof (num_take_lt lengths s k Hs) as Hlt. pose proof (shorter_mono k 16 ltac:(lia)) as Hm.
  unfold cnt_of in Hm. destruct (Nat.eqb_spec k 0); [lia|]. unfold slot. pose proof (num_nonneg k (take s lengths)).
  pose proof (shorter_nonneg k). lia.
Qed.

Lemma slot_inj s k s' k' :
  lengths !! s = Some (Z.of_nat k) -> lengths !! s' = Some (Z.of_nat k') -> (0 < k < 16)%nat -> (0 < k' < 16)%nat ->
  (s < s')%nat -> slot s k <> slot s' k'.
Proof.
  intros Hs Hs' Hk Hk' Hlt. unfold slot.
  pose proof (num_take_lt lengths s k Hs). pose proof (num_take_lt lengths s' k' Hs'). pose proof (num_nonneg k (take s lengths)). pose proof (num_nonneg k' (take s' lengths)).
  assert (forall j, (0 < j)%nat -> cnt_of j = num j lengths) as Hcn by (intros j Hj; unfold cnt_of; destruct (Nat.eqb_spec j 0); [lia|done]).
  destruct (Nat.lt_trichotomy k k') as [Hkk|[<-|Hkk]].
  - pose proof (shorter_mono k k' Hkk). rewrite (Hcn k ltac:(lia)) in *. lia.
  - enough (num k (take s lengths) < num k (take s' lengths)) by lia.
    replace (take s lengths) with (take s (take s' lengths)) by (rewrite take_take; f_equal; lia).
    apply num_take_lt. by rewrite lookup_take_lt.
  - pose proof (shorter_mono k' k Hkk). rewrite (Hcn k' ltac:(lia)) in *. lia.
Qed.
End code.

Lemma cnt_of_cons x l k : cnt_of (x :: l) k = cnt_of l k + (if negb (k =? 0)%nat && (x =? Z.of_nat k) then 1 else 0).
Proof. unfold cnt_of. destruct (k =? 0)%nat; cbn [negb andb]; [lia|]. unfold num. cbn [count]. destruct (x =? Z.of_nat k); lia. Qed.

Lemma shorter_cons x l k : shorter (x :: l) k = shorter l k + (if (0 <? x) && (x <? Z.of_nat k) then 1 else 0).
Proof.
  induction k as [|k IH]; cbn [shorter].
  - destruct (Z.ltb_spec 0 x), (Z.ltb_spec x (Z.of_nat 0)); cbn [andb]; lia.
  - rewrite IH, cnt_of_cons. destruct (Nat.eqb_spec k 0), (Z.eqb_spec x (Z.of_nat k)), (Z.ltb_spec 0 x), (Z.ltb_spec x (Z.of_nat k)),
      (Z.ltb_spec x (Z.of_nat (S k))); cbn [negb andb]; lia.
Qed.

Lemma shorter_total l : shorter l 16 <= Z.of_nat (length l).
Proof.
  induction l as [|x l IH]; [vm_compute; discriminate|]. rewrite shorter_cons. cbn [length].
  destruct ((0 <? x) && (x <? Z.of_nat 16)); lia.
Qed.

(** ** Building *)

(** The tables of a code. *)
Record huff_tab (lengths : list Z) (h : huff) : Prop := {
  ht_cnt : forall k, (k < 16)%nat -> h_cnt h !! k = Some (cnt_of lengths k);
  ht_sym : length (h_sym h) = 288%nat;
  ht_slot : forall s k, lengths !! s = Some (Z.of_nat k) -> (0 < k < 16)%nat ->
    h_sym h !! Z.to_nat (slot lengths s k) = Some (Z.of_nat s);
  ht_left : forall k, (1 <= k <= 15)%nat -> 0 <= left_of lengths k;
  ht_room : shorter lengths 16 <= 288 }.

(** The state of the loop over the symbols, behind the symbols [pre]. *)
Record placing (lengths pre offs sym : list Z) : Prop := {
  pl_offs : length offs = 16%nat;
  pl_off : forall k, (1 <= k <= 15)%nat -> offs !! k = Some (shorter lengths k + num k pre);
  pl_sym : length sym = 288%nat;
  pl_slot : forall s k, (s < length pre)%nat -> lengths !! s = Some (Z.of_nat k) -> (0 < k < 16)%nat ->
    sym !! Z.to_nat (slot lengths s k) = Some (Z.of_nat s) }.

Lemma place_one lengths pre x suf offs sym :
  lengths = pre ++ x :: suf -> lengths_ok lengths -> (length lengths <= 288)%nat -> placing lengths pre offs sym ->
  exists offs' sym', place_sym (Some (offs, sym)) (length pre, x) = Some (offs', sym') /\ placing lengths (pre ++ [x]) offs' sym'.
Proof.
  intros El Hok H288 [P1 P2 P3 P4]. assert (0 <= x <= 15) as Hx.
  { unfold lengths_ok in Hok. rewrite El in Hok. by apply Forall_app in Hok as [_ [? _]%Forall_cons]. }
  assert (lengths !! length pre = Some x) as Hpre by (rewrite El; by apply list_lookup_middle).
  assert (forall k, num k [x] = if x =? Z.of_nat k then 1 else 0) as Hnum by (intros k; unfold num; cbn; by destruct (x =? Z.of_nat k)).
  unfold place_sym. cbn [mbind option_bind]. destruct (Z.eqb_spec x 0) as [->|Hx0].
  - exists offs, sym. split; [done|]. constructor; try done.
    + intros k Hk. rewrite P2, num_app, Hnum by done. destruct (Z.eqb_spec 0 (Z.of_nat k)); [lia|]. f_equal. lia.
    + intros s k Hs Hsk Hk. rewrite length_app in Hs. cbn in Hs. destruct (decide (s = length pre)) as [->|]; [|apply P4; (done || lia)].
      rewrite Hpre in Hsk. injection Hsk as Hsk. lia.
  - set (k := Z.to_nat x). assert (x = Z.of_nat k) as Exk by (unfold k; lia). assert (lengths !! length pre = Some (Z.of_nat k)) as Hpk by congruence.
    assert (take (length pre) lengths = pre) as Etk by (rewrite El; apply take_app_length).
    rewrite P2 by lia. cbn [mbind option_bind].
    pose proof (slot_bound lengths (length pre) k Hpk ltac:(lia)) as Hsb. unfold slot in Hsb. rewrite Etk in Hsb.
    pose proof (shorter_total lengths) as Htot. rewrite P3.
    destruct (Z.leb_spec 0 (shorter lengths k + num k pre)), (Z.ltb_spec (shorter lengths k + num k pre) (Z.of_nat 288)); try lia.
    cbn [andb]. rewrite (wrap_id 16 (Z.of_nat (length pre))).
    2:{ assert (length pre < 288)%nat by (rewrite El, length_app in H288; cbn in H288; lia). unfold_fits. lia. }
    eexists _, _. split; [reflexivity|]. constructor.
    + by rewrite length_insert.
    + intros j Hj. rewrite num_app, Hnum. destruct (decide (j = k)) as [->|Hne].
      * rewrite list_lookup_insert_eq by lia. rewrite Exk, Z.eqb_refl. f_equal. lia.
      * rewrite list_lookup_insert_ne by done. rewrite P2 by done. destruct (Z.eqb_spec x (Z.of_nat j)); [lia|]. f_equal. lia.
    + by rewrite length_insert.
    + intros s j Hs Hsj Hj. rewrite length_app in Hs. cbn in Hs. destruct (decide (s = length pre)) as [->|Hne].
      * assert (j = k) as -> by (assert (Z.of_nat j = Z.of_nat k) by congruence; lia). unfold slot. rewrite Etk.
        apply list_lookup_insert_eq. lia.
      * rewrite list_lookup_insert_ne; [apply P4; (done || lia)|].
        pose proof (slot_inj lengths s j (length pre) k Hsj Hpk Hj ltac:(lia) ltac:(lia)) as Hinj.
        pose proof (slot_bound lengths s j Hsj Hj). unfold slot at 2 in Hinj. rewrite Etk in Hinj. lia.
Qed.

Lemma place_all lengths suf : forall pre offs sym,
  lengths = pre ++ suf -> lengths_ok lengths -> (length lengths <= 288)%nat -> placing lengths pre offs sym ->
  exists offs' sym', foldl place_sym (Some (offs, sym)) (zip (seq (length pre) (length suf)) suf) = Some (offs', sym') /\
    placing lengths lengths offs' sym'.
Proof.
  induction suf as [|x suf IH]; intros pre offs sym El Hok H288 Hp; cbn [length seq zip zip_with foldl].
  - rewrite app_nil_r in El. subst. by exists offs, sym.
  - destruct (place_one lengths pre x suf offs sym El Hok H288 Hp) as (o1 & s1 & -> & Hp1).
    assert (lengths = (pre ++ [x]) ++ suf) as El1 by (rewrite <- app_assoc; exact El).
    destruct (IH (pre ++ [x]) o1 s1 El1 Hok H288 Hp1) as (o2 & s2 & E2 & Hp2). rewrite length_app, Nat.add_1_r in E2. eauto.
Qed.

Lemma huff_build_spec h lengths :
  lengths_ok lengths -> (length lengths <= 288)%nat -> length (h_sym h) = 288%nat ->
  (exists r, huff_build h lengths = Some r) /\ (forall h', huff_build h lengths = Some (Some h') -> huff_tab lengths h').
Proof.
  intros Hok H288 Hsym. unfold huff_build. destruct (count_lengths_spec lengths Hok) as [C1 C2].
  set (cnt := count_lengths lengths) in *. destruct (left_loop cnt) as [l|] eqn:El; [|split; [eauto|done]].
  destruct (left_loop_spec lengths cnt l 15 C2 ltac:(lia) El) as [-> Hleft].
  destruct (offsets_spec lengths cnt 14 C2 ltac:(lia)) as [O1 O2]. fold (offsets cnt) in O1, O2.
  destruct (place_all lengths lengths [] (offsets cnt) (h_sym h) eq_refl Hok H288) as (o' & s' & E & [P1 P2 P3 P4]).
  { constructor; [done| |done|cbn; lia]. intros k Hk. rewrite O2 by lia. unfold num. cbn. f_equal. lia. }
  destruct (_ && _); [split; [eauto|done]|]. cbn [length] in E. rewrite E. cbn [mbind option_bind]. split; [eauto|].
  intros h' E'. injection E' as <-. pose proof (shorter_total lengths). constructor; cbn [h_cnt h_sym]; try done; [|by intros; apply P4; [eapply lookup_lt_Some|..]|lia].
  intros k Hk. rewrite list_lookup_fmap. destruct (lookup_lt_is_Some_2 cnt k) as [c Ec]; [lia|]. rewrite Ec. cbn. f_equal.
  pose proof (C2 k Hk) as Ck. rewrite list_lookup_total_alt, Ec in Ck. cbn in Ck. rewrite Ck. apply wrap_id.
  pose proof (cnt_of_nonneg lengths k). pose proof (shorter_mono lengths k 16 ltac:(lia)). pose proof (shorter_nonneg lengths k). unfold_fits. lia.
Qed.

(** ** Decoding *)

Lemma lor_bit x (v : Z) : 0 <= x -> 0 <= v < 2 -> Z.lor (x * 2) v = x * 2 + v.
Proof.
  intros Hx Hv. rewrite Z.lor_comm. replace (x * 2) with (Z.shiftl x 1) by (rewrite Z.shiftl_mul_pow2; lia).
  rewrite lor_shiftl_add by (lia || (unfold fits; lia)). rewrite Z.shiftl_mul_pow2 by lia. lia.
Qed.

(** Whatever the input, decoding stays inside the tables. *)
Lemma huff_loop_ok lengths h fuel : forall b len c,
  huff_tab lengths h -> rd_ok b -> (1 <= len)%nat -> (fuel + len = 16)%nat -> first_code lengths len <= c * 2 -> 0 <= c ->
  exists s b', huff_loop fuel b h len (c * 2) (first_code lengths len) (shorter lengths len) = Some (s, b') /\
    rd_ok b' /\ b_data b' = b_data b.
Proof.
  induction fuel as [|fuel IH]; intros b len c Ht Hrd Hlen Hf Hc Hc0; cbn [huff_loop]; [by eauto|].
  pose proof (br_get_ok b 1 Hrd ltac:(lia)) as Hg. destruct (br_get b 1) as [bit b1]. destruct Hg as (Hrd1 & Hbit & Hd1 & _).
  unfold fits in Hbit. rewrite lor_bit by lia. rewrite (ht_cnt _ _ Ht) by lia. cbn [mbind option_bind].
  destruct (Z.ltb_spec (c * 2 + bit - first_code lengths len) (cnt_of lengths len)) as [Hlt|Hge].
  - pose proof (shorter_mono lengths len 16 ltac:(lia)). pose proof (shorter_nonneg lengths len). pose proof (ht_room _ _ Ht).
    destruct (Z.ltb_spec (shorter lengths len + (c * 2 + bit - first_code lengths len)) 0); [lia|].
    destruct (lookup_lt_is_Some_2 (h_sym h) (Z.to_nat (shorter lengths len + (c * 2 + bit - first_code lengths len)))) as [s ->].
    { rewrite (ht_sym _ _ Ht). lia. }
    cbn [mbind option_bind]. eauto.
  - destruct (IH b1 (S len) (c * 2 + bit) Ht Hrd1 ltac:(lia) ltac:(lia)) as (s & b' & E & Hrd' & Hd'); [cbn [first_code]; lia|lia|].
    exists s, b'. split; [exact E|]. split; [done|]. by rewrite Hd'.
Qed.

Lemma huff_decode_ok lengths h b :
  huff_tab lengths h -> rd_ok b -> exists s b', huff_decode b h = Some (s, b') /\ rd_ok b' /\ b_data b' = b_data b.
Proof. intros Ht Hrd. apply (huff_loop_ok lengths h 15 b 1 0 Ht Hrd); (done || lia). Qed.

(** Bits of a code word, most significant first. *)
Definition msb_bits (n : nat) (v : Z) : list bool := rev (lsb_bits n v).
Definition code_bits (lengths : list Z) (s k : nat) : list bool := msb_bits k (code_of lengths s k).

Lemma msb_bits_S n v : msb_bits (S n) v = Z.testbit v (Z.of_nat n) :: msb_bits n v.
Proof.
  unfold msb_bits, lsb_bits. rewrite seq_S, fmap_app, rev_app_distr. done.
Qed.

Lemma code_of_nonneg lengths s k : 0 <= code_of lengths s k.
Proof.
  unfold code_of. pose proof (num_nonneg k (take s lengths)). enough (0 <= first_code lengths k) by lia.
  clear. induction k as [|k IH]; cbn [first_code]; [lia|]. pose proof (cnt_of_nonneg lengths k). lia.
Qed.

(** One more bit of a code word. *)
Lemma read_code_bit w q b rest :
  0 <= w -> rd_ok b -> bits b = msb_bits (S q) w ++ rest ->
  exists v b1, br_get b 1 = (v, b1) /\ rd_ok b1 /\ bits b1 = msb_bits q w ++ rest /\ b_data b1 = b_data b /\
    Z.lor (w / 2 ^ Z.of_nat (S q) * 2) v = w / 2 ^ Z.of_nat q.
Proof.
  intros Hw Hrd Hb. rewrite msb_bits_S in Hb. cbn [app] in Hb.
  destruct (br_get_bits b 1 [Z.testbit w (Z.of_nat q)] _ Hrd ltac:(lia) Hb eq_refl) as (b1 & E & Hrd1 & Hb1 & Hd1).
  change (Z.of_nat 1) with 1 in E. eexists _, b1. split; [exact E|]. split; [done|]. split; [done|]. split; [done|].
  assert (0 < 2 ^ Z.of_nat q) by (apply Z.pow_pos_nonneg; lia). assert (0 < 2 ^ Z.of_nat (S q)) by (apply Z.pow_pos_nonneg; lia).
  rewrite lor_bit; [|apply Z.div_pos; lia|cbn [lsb_val]; destruct (Z.testbit w (Z.of_nat q)); cbn; lia].
  cbn [lsb_val]. rewrite Nat2Z.inj_succ, Z.pow_succ_r, (Z.mul_comm 2), <- Z.div_div by lia.
  rewrite Z.testbit_spec' by lia. pose proof (Z.div_mod (w / 2 ^ Z.of_nat q) 2 ltac:(lia)). lia.
Qed.

Lemma huff_loop_code lengths h s k : forall r b len rest,
  huff_tab lengths h -> lengths !! s = Some (Z.of_nat k) -> (0 < k < 16)%nat -> (len + r = k)%nat -> (1 <= len)%nat ->
  rd_ok b -> bits b = msb_bits (S r) (code_of lengths s k) ++ rest ->
  exists b', huff_loop (16 - len) b h len (code_of lengths s k / 2 ^ Z.of_nat (S r) * 2) (first_code lengths len) (shorter lengths len)
      = Some (Z.of_nat s, b') /\ rd_ok b' /\ bits b' = rest /\ b_data b' = b_data b.
Proof.
  set (w := code_of lengths s k). pose proof (code_of_nonneg lengths s k) as Hw. fold w in Hw.
  induction r as [|r IH]; intros b len rest Ht Hs Hk Hlen H1 Hrd Hb;
    destruct (read_code_bit w _ b rest Hw Hrd Hb) as (v & b1 & E & Hrd1 & Hb1 & Hd1 & Hv);
    (replace (16 - len)%nat with (S (15 - len)) by lia); cbn [huff_loop]; rewrite E, Hv, (ht_cnt _ _ Ht) by lia; cbn [mbind option_bind].
  - assert (len = k) as -> by lia. change (2 ^ Z.of_nat 0) with 1. rewrite Z.div_1_r.
    assert (w - first_code lengths k = num k (take s lengths)) as -> by (unfold w, code_of; lia).
    pose proof (num_take_lt lengths s k Hs) as Hlt. unfold cnt_of. destruct (Nat.eqb_spec k 0); [lia|].
    destruct (Z.ltb_spec (num k (take s lengths)) (num k lengths)); [|lia].
    pose proof (slot_bound lengths s k Hs Hk) as Hsb. unfold slot in Hsb.
    destruct (Z.ltb_spec (shorter lengths k + num k (take s lengths)) 0); [lia|].
    pose proof (ht_slot _ _ Ht s k Hs Hk) as Hslot. unfold slot in Hslot. rewrite Hslot. cbn [mbind option_bind]. eauto.
  - assert (first_code lengths len + cnt_of lengths len <= w / 2 ^ Z.of_nat (S r)) as Hge.
    { apply Z.div_le_lower_bound; [apply Z.pow_pos_nonneg; lia|]. pose proof (first_code_above lengths len k ltac:(lia)) as Ha.
      replace (k - len)%nat with (S r) in Ha by lia. unfold w, code_of. pose proof (num_nonneg k (take s lengths)). lia. }
    destruct (Z.ltb_spec (w / 2 ^ Z.of_nat (S r) - first_code lengths len) (cnt_of lengths len)); [lia|].
    replace (15 - len)%nat with (16 - S len)%nat by lia.
    destruct (IH b1 (S len) rest Ht Hs Hk ltac:(lia) ltac:(lia) Hrd1 Hb1) as (b' & E' & R1 & R2 & R3).
    exists b'. split; [exact E'|]. split; [done|]. split; [done|]. by rewrite R3.
Qed.

Lemma code_of_fits lengths h s k :
  huff_tab lengths h -> lengths !! s = Some (Z.of_nat k) -> (0 < k < 16)%nat -> fits (Z.of_nat k) (code_of lengths s k).
Proof.
  intros Ht Hs Hk. pose proof (code_of_nonneg lengths s k). pose proof (first_left lengths k) as Hl.
  pose proof (ht_left _ _ Ht k ltac:(lia)). pose proof (num_take_lt lengths s k Hs). unfold code_of, fits in *.
  unfold cnt_of in Hl. destruct (Nat.eqb_spec k 0); [lia|]. lia.
Qed.

Lemma huff_decode_code lengths h s k b rest :
  huff_tab lengths h -> lengths !! s = Some (Z.of_nat k) -> (0 < k < 16)%nat -> rd_ok b ->
  bits b = code_bits lengths s k ++ rest ->
  exists b', huff_decode b h = Some (Z.of_nat s, b') /\ rd_ok b' /\ bits b' = rest /\ b_data b' = b_data b.
Proof.
  intros Ht Hs Hk Hrd Hb. destruct k as [|k]; [lia|].
  destruct (huff_loop_code lengths h s (S k) k b 1 rest Ht Hs Hk eq_refl (le_n 1) Hrd Hb) as (b' & E & R).
  exists b'. split; [|done]. rewrite Z.div_small in E by exact (code_of_fits lengths h s (S k) Ht Hs Hk).
  change (first_code lengths 1) with 0 in E. change (shorter lengths 1) with 0 in E. exact E.
Qed.

(** Decoding inverts the canonical code: for any code lengths the
    table builder accepts, reading the code word RFC 1951 assigns to a symbol
    gives that symbol and leaves the bits behind it. *)
Theorem huff_decode_inverts_canonical_code h lengths h' s k b rest :
  lengths_ok lengths -> (length lengths <= 288)%nat -> length (h_sym h) = 288%nat ->
  huff_build h lengths = Some (Some h') ->
  lengths !! s = Some (Z.of_nat k) -> (0 < k)%nat -> rd_ok b -> bits b = code_bits lengths s k ++ rest ->
  exists b', huff_decode b h' = Some (Z.of_nat s, b') /\ rd_ok b' /\ bits b' = rest.
Proof.
  intros Hok H288 Hsym Hb Hs Hk Hrd Hbits. destruct (huff_build_spec h lengths Hok H288 Hsym) as [_ Ht].
  assert (k < 16)%nat as Hk16. { apply (Forall_lookup_1 _ _ _ _ Hok) in Hs. lia. }
  destruct (huff_decode_code lengths h' s k b rest (Ht h' Hb) Hs ltac:(lia) Hrd Hbits) as (b' & E & R1 & R2 & _). eauto.
Qed.

(** The codes 0, 10 and 11: the bits 1, 0 (least significant first in the byte)
    decode to symbol 1. *)
Definition demo_huff : huff :=
  match huff_build blank_huff [1; 2; 2] with Some (Some h) => h | _ => blank_huff end.
Lemma huff_decode_inverts_canonical_code_witness :
  exists b', huff_build blank_huff [1; 2; 2] = Some (Some demo_huff) /\
    huff_decode (br_init [5]) demo_huff = Some (1, b') /\ rd_ok b' /\ bits b' = [true; false; false; false; false; false].
Proof.
  assert (rd_ok (br_init [5])) as Hrd.
  { split; [|cbn; lia]. apply br_init_ok. apply (bool_decide_unpack _). vm_compute. exact I. }
  destruct (huff_decode_inverts_canonical_code blank_huff [1; 2; 2] demo_huff 1 2 (br_init [5]) [true; false; false; false; false; false])
    as (b' & E & R);
    [repeat constructor; lia|cbn; lia|reflexivity|vm_compute; reflexivity|reflexivity|lia|exact Hrd|vm_compute; reflexivity|].
  exists b'. split; [vm_compute; reflexivity|]. split; [exact E|exact R].
Defined.
