(* ===== verification/InflateSafe.v ===== *)
(** * The decompressor on any input

    Every input, malformed or not, gets an answer: no table is left, the output
    never outgrows its buffer, and the loops end. *)

From S2P Require Import Prelude Inflate InflateHuff.
Open Scope Z_scope.

(** A decoding table, whatever code it is for; a table not built yet. *)
Definition built (h : huff) : Prop := exists lengths, huff_tab lengths h.
Definition blank (h : huff) : Prop := length (h_sym h) = 288%nat.
Lemma built_blank h : built h -> blank h.
Proof. intros [l Ht]. apply (ht_sym _ _ Ht). Qed.

Lemma build_any h lengths : lengths_ok lengths -> (length lengths <= 288)%nat -> blank h ->
  exists r, huff_build h lengths = Some r /\ forall h', r = Some h' -> built h'.
Proof.
  intros H1 H2 H3. destruct (huff_build_spec h lengths H1 H2 H3) as [[r E] Ht]. exists r. split; [done|].
  intros h' ->. exists lengths. by apply Ht.
Qed.
Lemma decode_any h b : built h -> rd_ok b -> exists s b', huff_decode b h = Some (s, b') /\ rd_ok b' /\ b_data b' = b_data b.
Proof. intros [l Ht] Hrd. by eapply huff_decode_ok. Qed.
Lemma get_any b n : rd_ok b -> 0 <= n <= 25 -> exists v b', br_get b n = (v, b') /\ rd_ok b' /\ fits n v /\ b_data b' = b_data b.
Proof. intros Hrd Hn. pose proof (br_get_ok b n Hrd Hn) as H. destruct (br_get b n) as [v b']. destruct H as (H1 & H2 & H3 & _). eauto 7. Qed.

(** ** Output *)

Definition sink_ok (s : sink) : Prop := Z.of_nat (length (s_out s)) <= s_cap s.

Lemma sink_put_ok s c s' : sink_put s c = Some s' -> sink_ok s' /\ s_cap s' = s_cap s /\ s_out s' = s_out s ++ [c].
Proof.
  unfold sink_put. destruct (Z.geb_spec (Z.of_nat (length (s_out s))) (s_cap s)); [done|]. intros [= <-].
  split; [|done]. unfold sink_ok. cbn [s_out s_cap]. rewrite length_app. cbn. lia.
Qed.

Lemma copy_back_ok n : forall s d, sink_ok s -> 0 < d <= Z.of_nat (length (s_out s)) ->
  exists r, copy_back n s d = Some r /\
    forall s', r = Some s' -> sink_ok s' /\ s_cap s' = s_cap s /\ (length (s_out s') = length (s_out s) + n)%nat.
Proof.
  induction n as [|n IH]; intros s d Hs Hd; cbn [copy_back].
  { eexists. split; [done|]. intros s' [= <-]. split; [done|]. split; [done|lia]. }
  destruct (Z.ltb_spec (Z.of_nat (length (s_out s)) - d) 0); [lia|].
  destruct (lookup_lt_is_Some_2 (s_out s) (Z.to_nat (Z.of_nat (length (s_out s)) - d))) as [c ->]; [lia|]. cbn [mbind option_bind].
  destruct (sink_put s c) as [s1|] eqn:E; [|by eexists].
  destruct (sink_put_ok s c s1 E) as (Hs1 & Hc1 & Ho1).
  destruct (IH s1 d Hs1) as (r & -> & Hr); [rewrite Ho1, length_app; cbn; lia|]. exists r. split; [done|].
  intros s' E'. destruct (Hr s' E') as (R1 & R2 & R3). split; [done|]. split; [congruence|]. rewrite R3, Ho1, length_app. cbn. lia.
Qed.

(** ** Blocks *)

(** What any step of the decoder keeps. *)
Record step_ok (b b' : br) (out out' : sink) (rc : Z) : Prop := {
  st_rd : rd_ok b';
  st_data : b_data b' = b_data b;
  st_sink : sink_ok out';
  st_cap : s_cap out' = s_cap out;
  st_rc : rc = 0 \/ rc = -1 \/ rc = -2 }.

Lemma step_trans b b1 b' out out1 out' rc :
  b_data b1 = b_data b -> s_cap out1 = s_cap out -> step_ok b1 b' out1 out' rc -> step_ok b b' out out' rc.
Proof. intros H1 H2 [S1 S2 S3 S4 S5]. constructor; (done || congruence). Qed.

Lemma len_entry k : (k < 29)%nat -> exists lb le, k_len_base !! k = Some lb /\ k_len_extra !! k = Some le /\ 3 <= lb /\ 0 <= le <= 5.
Proof.
  intros Hk. assert (forallb (fun k => match k_len_base !! k, k_len_extra !! k with Some lb, Some le => (3 <=? lb) && (0 <=? le) && (le <=? 5) | _, _ => false end) (seq 0 29) = true) as H
    by (vm_compute; reflexivity).
  rewrite forallb_forall in H. specialize (H k (proj2 (in_seq 29 0 k) ltac:(lia))).
  destruct (k_len_base !! k) as [lb|], (k_len_extra !! k) as [le|]; try discriminate H. exists lb, le. rewrite !andb_true_iff, !Z.leb_le in H. lia || (split; [done|]; split; [done|]; lia).
Qed.
Lemma dist_entry k : (k < 30)%nat -> exists db de, k_dist_base !! k = Some db /\ k_dist_extra !! k = Some de /\ 1 <= db /\ 0 <= de <= 13.
Proof.
  intros Hk. assert (forallb (fun k => match k_dist_base !! k, k_dist_extra !! k with Some lb, Some le => (1 <=? lb) && (0 <=? le) && (le <=? 13) | _, _ => false end) (seq 0 30) = true) as H
    by (vm_compute; reflexivity).
  rewrite forallb_forall in H. specialize (H k (proj2 (in_seq 30 0 k) ltac:(lia))).
  destruct (k_dist_base !! k) as [lb|], (k_dist_extra !! k) as [le|]; try discriminate H. exists lb, le. rewrite !andb_true_iff, !Z.leb_le in H. lia || (split; [done|]; split; [done|]; lia).
Qed.

Lemma block_decode_ok fuel : forall b lit dist out,
  built lit -> built dist -> rd_ok b -> sink_ok out -> (Z.to_nat (s_cap out) - length (s_out out) < fuel)%nat ->
  exists rc b' out', block_decode fuel b lit dist out = Some (rc, b', out') /\ step_ok b b' out out' rc.
Proof.
  induction fuel as [|fuel IH]; intros b lit dist out Hlit Hdist Hrd Hs Hf; [lia|]. cbn [block_decode].
  destruct (decode_any lit b Hlit Hrd) as (sym & b1 & -> & Hrd1 & Hd1). cbn [mbind option_bind].
  assert (forall rc b' , (rc = 0 \/ rc = -1 \/ rc = -2) -> rd_ok b' -> b_data b' = b_data b -> step_ok b b' out out rc) as Hend
    by (intros; by constructor).
  destruct (Z.ltb_spec sym 0); [eexists _, _, _; split; [reflexivity|]; apply Hend; (done || lia)|].
  destruct (Z.eqb_spec sym 256); [eexists _, _, _; split; [reflexivity|]; apply Hend; (done || lia)|].
  destruct (Z.ltb_spec sym 256) as [Hlit8|Hmatch].
  { destruct (sink_put out (u8 sym)) as [out1|] eqn:E; [|eexists _, _, _; split; [reflexivity|]; apply Hend; (done || lia)].
    destruct (sink_put_ok _ _ _ E) as (Hs1 & Hc1 & Ho1).
    destruct (IH b1 lit dist out1 Hlit Hdist Hrd1 Hs1) as (rc & b' & out' & E' & Hst).
    { rewrite Hc1, Ho1, length_app. unfold sink_ok in Hs1. rewrite Hc1, Ho1, length_app in Hs1. cbn in *. lia. }
    eexists _, _, _. split; [exact E'|]. eapply step_trans; [| |exact Hst]; done. }
  destruct (Z.geb_spec (sym - 257) 29); [eexists _, _, _; split; [reflexivity|]; apply Hend; (done || lia)|].
  destruct (len_entry (Z.to_nat (sym - 257)) ltac:(lia)) as (lb & le & -> & -> & Hlb & Hle). cbn [mbind option_bind].
  destruct (get_any b1 le Hrd1 ltac:(lia)) as (e & b2 & -> & Hrd2 & He & Hd2).
  destruct (decode_any dist b2 Hdist Hrd2) as (ds & b3 & -> & Hrd3 & Hd3). cbn [mbind option_bind].
  destruct (Z.ltb_spec ds 0); cbn [orb]; [eexists _, _, _; split; [reflexivity|]; apply Hend; (done || lia || congruence)|].
  destruct (Z.geb_spec ds 30); [eexists _, _, _; split; [reflexivity|]; apply Hend; (done || lia || congruence)|].
  destruct (dist_entry (Z.to_nat ds) ltac:(lia)) as (db & de & -> & -> & Hdb & Hde). cbn [mbind option_bind].
  destruct (get_any b3 de Hrd3 ltac:(lia)) as (e2 & b4 & -> & Hrd4 & He2 & Hd4).
  assert (b_data b4 = b_data b) as Hd by congruence. unfold fits in He, He2.
  destruct (Z.gtb_spec (db + e2) (Z.of_nat (length (s_out out)))); [eexists _, _, _; split; [reflexivity|]; apply Hend; (done || lia)|].
  destruct (copy_back_ok (Z.to_nat (lb + e)) out (db + e2) Hs ltac:(lia)) as (r & -> & Hr). cbn [mbind option_bind].
  destruct r as [out1|]; [|eexists _, _, _; split; [reflexivity|]; apply Hend; (done || lia)].
  destruct (Hr out1 eq_refl) as (Hs1 & Hc1 & Ho1).
  destruct (IH b4 lit dist out1 Hlit Hdist Hrd4 Hs1) as (rc & b' & out' & E' & Hst).
  { rewrite Hc1, Ho1. unfold sink_ok in Hs1. rewrite Hc1, Ho1 in Hs1. lia. }
  eexists _, _, _. split; [exact E'|]. eapply step_trans; [| |exact Hst]; done.
Qed.

Lemma read_cl_ok ord : forall b cl, rd_ok b -> Forall (fun l => 0 <= l <= 15) cl ->
  let '(b', cl') := read_cl ord b cl in
  rd_ok b' /\ b_data b' = b_data b /\ length cl' = length cl /\ Forall (fun l => 0 <= l <= 15) cl'.
Proof.
  induction ord as [|o ord IH]; intros b cl Hrd Hcl; cbn [read_cl]; [done|].
  destruct (get_any b 3 Hrd ltac:(lia)) as (v & b1 & -> & Hrd1 & Hv & Hd1). unfold fits in Hv. change (2 ^ 3) with 8 in Hv.
  specialize (IH b1 (<[o := u8 v]> cl) Hrd1). destruct (read_cl ord b1 (<[o := u8 v]> cl)) as [b' cl'].
  destruct IH as (R1 & R2 & R3 & R4).
  { apply Forall_insert; [done|]. rewrite wrap_id by (unfold_fits; lia). lia. }
  split; [done|]. split; [congruence|]. split; [by rewrite R3, length_insert|done].
Qed.

Lemma read_lengths_ok fuel : forall b clh n ls,
  built clh -> rd_ok b -> Forall (fun l => 0 <= l <= 15) ls -> (length ls <= n)%nat -> (n - length ls <= fuel)%nat ->
  exists r, read_lengths fuel b clh n ls = Some r /\
    forall b' ls', r = Some (b', ls') -> rd_ok b' /\ b_data b' = b_data b /\ length ls' = n /\ Forall (fun l => 0 <= l <= 15) ls'.
Proof.
  induction fuel as [|fuel IH]; intros b clh n ls Hc Hrd Hls Hn Hf; cbn [read_lengths];
    (destruct (Nat.leb_spec n (length ls)); [eexists; split; [reflexivity|]; intros b' ls' [= <- <-]; split_and!; (done || lia)|]); [lia|].
  destruct (decode_any clh b Hc Hrd) as (s & b1 & -> & Hrd1 & Hd1). cbn [mbind option_bind].
  assert (forall b2 ls1, rd_ok b2 -> b_data b2 = b_data b -> Forall (fun l => 0 <= l <= 15) ls1 -> (length ls < length ls1 <= n)%nat ->
    exists r, read_lengths fuel b2 clh n ls1 = Some r /\
      forall b' ls', r = Some (b', ls') -> rd_ok b' /\ b_data b' = b_data b /\ length ls' = n /\ Forall (fun l => 0 <= l <= 15) ls') as Hrec.
  { intros b2 ls1 H1 H2 H3 H4. destruct (IH b2 clh n ls1 Hc H1 H3 ltac:(lia) ltac:(lia)) as (r & E & Hr). exists r. split; [done|].
    rewrite <- H2. exact Hr. }
  assert (forall r v, 0 < r -> 0 <= v <= 15 -> let l1 := take n (ls ++ replicate (Z.to_nat r) v) in
    Forall (fun l => 0 <= l <= 15) l1 /\ (length ls < length l1 <= n)%nat) as Hrep.
  { intros r v Hr Hv. split; [apply Forall_take, Forall_app; split; [done|by apply Forall_replicate]|].
    rewrite length_take, length_app, length_replicate. lia. }
  assert (forall v, fits 2 v \/ fits 3 v \/ fits 7 v -> 0 <= v) as Hpos by (unfold fits; lia).
  destruct (Z.ltb_spec s 0); [by eexists|].
  destruct (Z.ltb_spec s 16).
  { apply Hrec; [done|done| |rewrite length_app; cbn; lia]. apply Forall_app. split; [done|]. constructor; [|constructor].
    rewrite wrap_id by (unfold_fits; lia). lia. }
  destruct (Z.eqb_spec s 16).
  { destruct (last ls) as [v|] eqn:El; [|by eexists]. destruct (get_any b1 2 Hrd1 ltac:(lia)) as (r & b2 & -> & Hrd2 & Hr & Hd2).
    assert (0 <= v <= 15) as Hv. { apply last_Some in El as [l' ->]. by apply Forall_app in Hls as [_ [? _]%Forall_cons]. }
    destruct (Hrep (r + 3) v) as [R1 R2]; [specialize (Hpos r ltac:(tauto)); lia|done|]. apply Hrec; (done || congruence). }
  destruct (Z.eqb_spec s 17).
  { destruct (get_any b1 3 Hrd1 ltac:(lia)) as (r & b2 & -> & Hrd2 & Hr & Hd2).
    destruct (Hrep (r + 3) 0) as [R1 R2]; [specialize (Hpos r ltac:(tauto)); lia|lia|]. apply Hrec; (done || congruence). }
  destruct (Z.eqb_spec s 18); [|by eexists].
  destruct (get_any b1 7 Hrd1 ltac:(lia)) as (r & b2 & -> & Hrd2 & Hr & Hd2).
  destruct (Hrep (r + 11) 0) as [R1 R2]; [specialize (Hpos r ltac:(tauto)); lia|lia|]. apply Hrec; (done || congruence).
Qed.

Lemma block_fuel_ok out : (Z.to_nat (s_cap out) - length (s_out out) < block_fuel out)%nat.
Proof. unfold block_fuel. lia. Qed.

(** A block's answer: the step, and tables that may be built on. *)
Definition block_ok (b : br) (out : sink) (r : option (Z * br * sink * huff * huff)) : Prop :=
  exists rc b' out' lit' dist', r = Some (rc, b', out', lit', dist') /\ step_ok b b' out out' rc /\ blank lit' /\ blank dist'.

Lemma block_end b b' out lit dist rc :
  rd_ok b' -> b_data b' = b_data b -> sink_ok out -> (rc = 0 \/ rc = -1 \/ rc = -2) -> blank lit -> blank dist ->
  block_ok b out (Some (rc, b', out, lit, dist)).
Proof. intros. eexists _, _, _, _, _. split; [reflexivity|]. by split; [constructor|]. Qed.

Lemma decode_block_ok b b1 lit dist out :
  built lit -> built dist -> rd_ok b1 -> b_data b1 = b_data b -> sink_ok out ->
  block_ok b out ('(rc, b', out') ← block_decode (block_fuel out) b1 lit dist out; Some (rc, b', out', lit, dist)).
Proof.
  intros Hl Hd Hrd Hdat Hs. destruct (block_decode_ok _ b1 lit dist out Hl Hd Hrd Hs (block_fuel_ok out)) as (rc & b' & out' & -> & Hst).
  cbn [mbind option_bind]. eexists _, _, _, _, _. split; [reflexivity|]. split; [by eapply step_trans; [| |exact Hst]|]. split; by apply built_blank.
Qed.

Lemma block_dynamic_ok b lit dist clh out :
  blank lit -> blank dist -> blank clh -> rd_ok b -> sink_ok out -> block_ok b out (block_dynamic b lit dist clh out).
Proof.
  intros Hl Hd Hc Hrd Hs. unfold block_dynamic.
  destruct (get_any b 5 Hrd ltac:(lia)) as (hl & b1 & -> & Hrd1 & Hhl & Hd1).
  destruct (get_any b1 5 Hrd1 ltac:(lia)) as (hd & b2 & -> & Hrd2 & Hhd & Hd2).
  destruct (get_any b2 4 Hrd2 ltac:(lia)) as (hc & b3 & -> & Hrd3 & Hhc & Hd3).
  pose proof (read_cl_ok (take (Z.to_nat (hc + 4)) ORD) b3 (replicate 19 0) Hrd3 ltac:(by apply Forall_replicate)) as Hcl.
  destruct (read_cl _ b3 _) as [b4 cl]. destruct Hcl as (Hrd4 & Hd4 & Hlen & Hcl). rewrite length_replicate in Hlen.
  assert (b_data b4 = b_data b) as Hdb by congruence.
  destruct (build_any clh cl Hcl ltac:(lia) Hc) as (r & -> & Hr). cbn [mbind option_bind].
  destruct r as [clh'|]; [|by apply block_end; auto]. specialize (Hr clh' eq_refl).
  unfold fits in Hhl, Hhd. change (2 ^ 5) with 32 in *.
  destruct (read_lengths_ok (Z.to_nat (hl + 257 + (hd + 1))) b4 clh' (Z.to_nat (hl + 257 + (hd + 1))) [] Hr Hrd4 ltac:(constructor) ltac:(cbn; lia) ltac:(cbn; lia))
    as (r & -> & Hrl). cbn [mbind option_bind].
  destruct r as [[b5 ls]|]; [|by apply block_end; auto]. destruct (Hrl b5 ls eq_refl) as (Hrd5 & Hd5 & Hls & Hok).
  destruct (build_any lit (take (Z.to_nat (hl + 257)) ls)) as (r & -> & Hr1); [by apply Forall_take|rewrite length_take; lia|done|]. cbn [mbind option_bind].
  destruct r as [lit'|]; [|apply block_end; auto; congruence]. specialize (Hr1 lit' eq_refl).
  destruct (build_any dist (drop (Z.to_nat (hl + 257)) ls)) as (r & -> & Hr2); [by apply Forall_drop|rewrite length_drop; lia|done|]. cbn [mbind option_bind].
  destruct r as [dist'|]; [|apply block_end; auto; [congruence|by apply built_blank]]. specialize (Hr2 dist' eq_refl).
  apply decode_block_ok; (done || congruence).
Qed.

Lemma copy_stored_ok n : forall b out, rd_ok b -> sink_ok out ->
  let '(rc, b', out') := copy_stored n b out in step_ok b b' out out' rc.
Proof.
  induction n as [|n IH]; intros b out Hrd Hs; cbn [copy_stored]; [by constructor; auto|].
  destruct (b_data b !! b_pos b) as [c|] eqn:Ec; [|by constructor; auto].
  set (b1 := Build_br _ _ _ _). assert (rd_ok b1) as Hrd1.
  { destruct Hrd as [[O1 O2 O3 O4] O5]. split; [constructor|]; cbn; try done. apply lookup_lt_Some in Ec. lia. }
  destruct (sink_put out c) as [out1|] eqn:E; [|by constructor; auto].
  destruct (sink_put_ok _ _ _ E) as (Hs1 & Hc1 & Ho1). specialize (IH b1 out1 Hrd1 Hs1).
  destruct (copy_stored n b1 out1) as [[rc b'] out']. by eapply step_trans; [| |exact IH].
Qed.

Lemma aligned_ok data pos : Forall is_byte data -> (pos <= length data)%nat ->
  rd_ok {| b_data := data; b_pos := pos; b_bitbuf := 0; b_bitcnt := 0 |}.
Proof. intros H1 H2. split; [constructor|]; cbn [b_data b_pos b_bitbuf b_bitcnt]; (done || lia || (unfold fits; cbn; lia)). Qed.

Lemma stored_block_ok b out : rd_ok b -> sink_ok out ->
  exists rc b' out', stored_block b out = Some (rc, b', out') /\ step_ok b b' out out' rc.
Proof.
  intros [[O1 O2 O3 O4] O5] Hs. unfold stored_block, br_align. cbn [b_data b_pos].
  destruct (Nat.ltb_spec (length (b_data b)) (b_pos b + 4)) as [|Hroom].
  { eexists _, _, _. split; [reflexivity|]. constructor; auto. apply aligned_ok; done. }
  destruct (lookup_lt_is_Some_2 (b_data b) (b_pos b)) as [lo ->]; [lia|].
  destruct (lookup_lt_is_Some_2 (b_data b) (S (b_pos b))) as [hi ->]; [lia|]. cbn [mbind option_bind].
  match goal with |- context [copy_stored ?n ?b0 out] => pose proof (copy_stored_ok n b0 out) as H; destruct (copy_stored n b0 out) as [[rc b'] out'] end.
  eexists _, _, _. split; [reflexivity|]. eapply step_trans; [| |apply H; [by apply aligned_ok|done]]; done.
Qed.

Lemma fixed_litlen_ok : lengths_ok fixed_litlen /\ (length fixed_litlen <= 288)%nat.
Proof. split; [|vm_compute; lia]. unfold lengths_ok, fixed_litlen. rewrite !Forall_app. split_and!; apply Forall_replicate; lia. Qed.
Lemma fixed_dist_ok : lengths_ok fixed_dist /\ (length fixed_dist <= 288)%nat.
Proof. split; [|vm_compute; lia]. apply Forall_replicate. lia. Qed.

(** ** Streams *)

Lemma one_block_ok bt b lit dist clh out :
  blank lit -> blank dist -> blank clh -> rd_ok b -> sink_ok out -> block_ok b out (one_block bt b lit dist clh out).
Proof.
  intros Hl Hd Hc Hrd Hs. unfold one_block. destruct (bt =? 0).
  { destruct (stored_block_ok b out Hrd Hs) as (rc & b' & out' & -> & Hst). cbn [mbind option_bind]. eexists _, _, _, _, _. done. }
  destruct (bt =? 1).
  { destruct fixed_litlen_ok as [F1 F2]. destruct fixed_dist_ok as [G1 G2].
    destruct (build_any lit fixed_litlen F1 F2 Hl) as (r & -> & Hr). cbn [mbind option_bind].
    destruct r as [lit'|]; [|apply block_end; auto].
    destruct (build_any dist fixed_dist G1 G2 Hd) as (r & -> & Hr2). cbn [mbind option_bind].
    destruct r as [dist'|]; [|apply block_end; auto; apply built_blank; auto]. apply decode_block_ok; auto. }
  destruct (bt =? 2); [by apply block_dynamic_ok|]. apply block_end; auto.
Qed.

Lemma raw_loop_ok fuel : forall b lit dist clh out,
  blank lit -> blank dist -> blank clh -> rd_ok b -> sink_ok out ->
  exists rc bytes n, raw_loop fuel b lit dist clh out = Some (rc, bytes, n) /\ (rc = 0 \/ rc = -1 \/ rc = -2) /\
    Z.of_nat (length bytes) <= s_cap out /\ (n <= length (b_data b))%nat.
Proof.
  induction fuel as [|fuel IH]; intros b lit dist clh out Hl Hd Hc Hrd Hs; cbn [raw_loop].
  { eexists _, _, _. split; [reflexivity|]. split; [auto|]. split; [done|]. destruct Hrd as [[] _]. done. }
  destruct (get_any b 1 Hrd ltac:(lia)) as (bf & b1 & -> & Hrd1 & _ & Hd1).
  destruct (get_any b1 2 Hrd1 ltac:(lia)) as (bt & b2 & -> & Hrd2 & _ & Hd2).
  destruct (one_block_ok bt b2 lit dist clh out Hl Hd Hc Hrd2 Hs) as (rc & b' & out' & lit' & dist' & -> & Hst & Hl' & Hd').
  assert (step_ok b b' out out' rc) as [S1 S2 S3 S4 S5] by (eapply step_trans; [|done|exact Hst]; congruence). cbn [mbind option_bind].
  assert (forall r, (r = 0 \/ r = -1 \/ r = -2) -> exists rc bytes n, Some (r, s_out out', b_pos b') = Some (rc, bytes, n) /\ (rc = 0 \/ rc = -1 \/ rc = -2) /\
    Z.of_nat (length bytes) <= s_cap out /\ (n <= length (b_data b))%nat) as Hdone.
  { intros r Hr. eexists _, _, _. split; [reflexivity|]. split; [done|]. rewrite <- S2, <- S4. split; [exact S3|]. destruct S1 as [[] _]. done. }
  destruct (negb (rc =? 0)); [by apply Hdone|]. destruct (negb (bf =? 0)); [apply Hdone; auto|].
  rewrite <- S2, <- S4. by apply IH.
Qed.

(** C34. For every input, well formed or not, decompression returns: it
    never reads or writes outside its tables or buffers, the result is 0, -1 or
    -2, no more bytes are written than the buffer holds, and no more input is
    consumed than there is. *)
Theorem inflate_total_and_in_bounds src dcap :
  Forall is_byte src -> 0 <= dcap ->
  exists rc out n, wubu_inflate_raw src dcap = Some (rc, out, n) /\ (rc = 0 \/ rc = -1 \/ rc = -2) /\
    Z.of_nat (length out) <= dcap /\ (n <= length src)%nat.
Proof.
  intros Hsrc Hcap. unfold wubu_inflate_raw, inflate_raw.
  destruct (br_init_ok src Hsrc) as [Hok _].
  destruct (raw_loop_ok GUARD (br_init src) blank_huff blank_huff blank_huff {| s_cap := dcap; s_out := [] |})
    as (rc & out & n & E & R); try done.
  eauto.
Qed.
Lemma inflate_total_and_in_bounds_witness :
  exists rc out n, wubu_inflate_raw [237; 253; 1; 2; 3] 10 = Some (rc, out, n) /\ (rc = 0 \/ rc = -1 \/ rc = -2) /\
    Z.of_nat (length out) <= 10 /\ (n <= 5)%nat.
Proof.
  apply (inflate_total_and_in_bounds [237; 253; 1; 2; 3] 10); [|lia]. apply (bool_decide_unpack _). vm_compute. exact I.
Defined.
