(* ===== verification/InflateStream.v ===== *)
(** * The DEFLATE format and decoding whole streams

    RFC 1951 streams as a relation between bits and the bytes they stand for, and
    that the decoder recovers those bytes. *)

From S2P Require Import Prelude Inflate InflateHuff InflateSafe.
Open Scope Z_scope.

(** ** Symbols and blocks, there and back *)

(** ** Symbols *)

Definition has_code (lengths : list Z) (s : nat) : Prop := exists l, lengths !! s = Some l /\ 0 < l.
Definition sym_bits (lengths : list Z) (s : nat) : list bool := code_bits lengths s (Z.to_nat (lengths !!! s)).

Lemma decode_sym lengths h s b rest :
  huff_tab lengths h -> lengths_ok lengths -> has_code lengths s -> rd_ok b -> bits b = sym_bits lengths s ++ rest ->
  exists b', huff_decode b h = Some (Z.of_nat s, b') /\ rd_ok b' /\ bits b' = rest /\ b_data b' = b_data b.
Proof.
  intros Ht Hok (l & Hl & H0) Hrd Hb. assert (0 <= l <= 15) as Hr by exact (Forall_lookup_1 _ _ _ _ Hok Hl).
  unfold sym_bits in Hb. rewrite list_lookup_total_alt, Hl in Hb. cbn in Hb.
  apply (huff_decode_code lengths h s (Z.to_nat l)); [exact Ht|rewrite Z2Nat.id by lia; exact Hl|lia|done|done].
Qed.

(** A complete code, or one that lacks a single word of 15 bits. *)
Definition complete (lengths : list Z) : Prop :=
  (forall k, (1 <= k <= 15)%nat -> 0 <= left_of lengths k) /\ (left_of lengths 15 = 0 \/ (left_of lengths 15 = 1 /\ lengths <> [])).

Lemma left_loop_complete lengths (cnt : list Z) n :
  (forall k, (k < 16)%nat -> cnt !!! k = cnt_of lengths k) -> (n <= 15)%nat -> (forall k, (1 <= k <= 15)%nat -> 0 <= left_of lengths k) ->
  foldl (fun l len => l ← l; let l := l * 2 - cnt !!! len in if l <? 0 then None else Some l) (Some 1) (seq 1 n) = Some (left_of lengths n).
Proof.
  intros Hc Hn Hk. induction n as [|n IH]; [done|]. rewrite seq_S, foldl_app, IH by lia. cbn [foldl mbind option_bind].
  rewrite Hc by lia. replace (1 + n)%nat with (S n) by lia. change (left_of lengths n * 2 - cnt_of lengths (S n)) with (left_of lengths (S n)).
  specialize (Hk (S n) ltac:(lia)). destruct (Z.ltb_spec (left_of lengths (S n)) 0); [lia|done].
Qed.

Lemma build_complete h lengths :
  lengths_ok lengths -> (length lengths <= 288)%nat -> blank h -> complete lengths ->
  exists h', huff_build h lengths = Some (Some h') /\ huff_tab lengths h'.
Proof.
  intros Hok H288 Hb [Hk Hl]. destruct (huff_build_spec h lengths Hok H288 Hb) as [[r E] Ht].
  assert (exists h', huff_build h lengths = Some (Some h')) as [h' E']; [|by exists h'; split; [|apply Ht]].
  rewrite E. destruct r as [h'|]; [by exists h'|]. exfalso. unfold huff_build in E.
  destruct (count_lengths_spec lengths Hok) as [_ C2]. cbn zeta in E.
  assert (left_loop (count_lengths lengths) = Some (left_of lengths 15)) as El by exact (left_loop_complete lengths _ 15 C2 ltac:(lia) Hk).
  rewrite El in E.
  assert (negb (left_of lengths 15 =? 0) && ((length lengths =? 0)%nat || negb (left_of lengths 15 =? 1)) = false) as Eb.
  { destruct Hl as [->|[-> Hne]]; [done|]. destruct lengths; done. }
  rewrite Eb in E. destruct (foldl place_sym _ _) as [[o sy]|]; discriminate E.
Qed.

(** ** Tokens *)

(** A literal, or a match: the row of the length table with its extra bits, and
    that of the distance table. *)
Inductive token := Lit (c : Z) | Match (k : nat) (e : Z) (dk : nat) (de : Z).

Definition tok_len (k : nat) (e : Z) : Z := k_len_base !!! k + e.
Definition tok_dist (dk : nat) (de : Z) : Z := k_dist_base !!! dk + de.

(** What a token appends: a match repeats what was written [dist] bytes before. *)
Definition expand1 (out : list Z) (t : token) : list Z :=
  match t with
  | Lit c => out ++ [c]
  | Match k e dk de =>
      Nat.iter (Z.to_nat (tok_len k e)) (fun o => o ++ [o !!! (length o - Z.to_nat (tok_dist dk de))%nat]) out
  end.
Definition expand (out : list Z) (ts : list token) : list Z := foldl expand1 out ts.

Section tokens.
Context (L D : list Z).

Definition token_ok (out : list Z) (t : token) : Prop :=
  match t with
  | Lit c => is_byte c /\ has_code L (Z.to_nat c)
  | Match k e dk de =>
      (k < 29)%nat /\ fits (k_len_extra !!! k) e /\ has_code L (257 + k) /\
      (dk < 30)%nat /\ fits (k_dist_extra !!! dk) de /\ has_code D dk /\ tok_dist dk de <= Z.of_nat (length out)
  end.
Fixpoint tokens_ok (out : list Z) (ts : list token) : Prop :=
  match ts with [] => True | t :: ts => token_ok out t /\ tokens_ok (expand1 out t) ts end.

Definition token_bits (t : token) : list bool :=
  match t with
  | Lit c => sym_bits L (Z.to_nat c)
  | Match k e dk de =>
      sym_bits L (257 + k) ++ lsb_bits (Z.to_nat (k_len_extra !!! k)) e ++ sym_bits D dk ++ lsb_bits (Z.to_nat (k_dist_extra !!! dk)) de
  end.
(** A block's body: its tokens and the end-of-block symbol. *)
Definition body_bits (ts : list token) : list bool := mjoin (token_bits <$> ts) ++ sym_bits L 256.

Lemma copy_back_expand n d : forall s,
  0 < d <= Z.of_nat (length (s_out s)) -> Z.of_nat (length (s_out s)) + Z.of_nat n <= s_cap s ->
  copy_back n s d = Some (Some {| s_cap := s_cap s; s_out := Nat.iter n (fun o => o ++ [o !!! (length o - Z.to_nat d)%nat]) (s_out s) |}).
Proof.
  induction n as [|n IH]; intros s Hd Hc; cbn [copy_back]; [by destruct s|].
  destruct (Z.ltb_spec (Z.of_nat (length (s_out s)) - d) 0); [lia|].
  destruct (lookup_lt_is_Some_2 (s_out s) (Z.to_nat (Z.of_nat (length (s_out s)) - d))) as [c Ec]; [lia|]. rewrite Ec. cbn [mbind option_bind].
  unfold sink_put. destruct (Z.geb_spec (Z.of_nat (length (s_out s))) (s_cap s)); [lia|].
  rewrite IH; cbn [s_out s_cap]; rewrite ?length_app; cbn [length]; try lia.
  rewrite Nat.iter_succ_r. do 4 f_equal. f_equal. f_equal. rewrite list_lookup_total_alt.
  replace (length (s_out s) - Z.to_nat d)%nat with (Z.to_nat (Z.of_nat (length (s_out s)) - d)) by lia. by rewrite Ec.
Qed.

Lemma length_copy n d (out : list Z) : length (Nat.iter n (fun o => o ++ [o !!! (length o - d)%nat]) out) = (n + length out)%nat.
Proof. induction n as [|n IH]; [done|]. rewrite Nat.iter_succ, length_app, IH. cbn. lia. Qed.

Lemma length_expand1 out t : token_ok out t -> (length out < length (expand1 out t))%nat.
Proof.
  destruct t as [c|k e dk de]; cbn [expand1]; [intros _; rewrite length_app; cbn; lia|].
  intros (Hk & He & _). destruct (len_entry k Hk) as (lb & le & E1 & _ & Hlb & _). unfold tok_len.
  rewrite (list_lookup_total_correct _ _ _ E1), length_copy. unfold fits in He. lia.
Qed.

Lemma length_expand ts : forall out, tokens_ok out ts -> (length out + length ts <= length (expand out ts))%nat.
Proof.
  induction ts as [|t ts IH]; intros out; cbn [tokens_ok expand foldl length]; [lia|]. intros [Ht Hts].
  specialize (IH _ Hts). pose proof (length_expand1 _ _ Ht). unfold expand in IH. lia.
Qed.

Lemma read_extra b n e rest :
  rd_ok b -> 0 <= n <= 25 -> fits n e -> bits b = lsb_bits (Z.to_nat n) e ++ rest ->
  exists b', br_get b n = (e, b') /\ rd_ok b' /\ bits b' = rest /\ b_data b' = b_data b.
Proof.
  intros Hrd Hn He Hb. destruct (br_get_bits b (Z.to_nat n) _ rest Hrd ltac:(lia) Hb (length_lsb_bits _ _)) as (b' & E & R).
  rewrite Z2Nat.id in E by lia. exists b'. split; [|exact R]. rewrite E, lsb_val_bits by (unfold fits in He; lia).
  rewrite Z2Nat.id by lia. f_equal. by apply Z.mod_small.
Qed.

Lemma block_decode_tokens lit dist ts : forall fuel b out rest,
  huff_tab L lit -> huff_tab D dist -> lengths_ok L -> lengths_ok D -> has_code L 256 ->
  rd_ok b -> bits b = body_bits ts ++ rest -> tokens_ok (s_out out) ts -> (length ts < fuel)%nat ->
  Z.of_nat (length (expand (s_out out) ts)) <= s_cap out ->
  exists b', block_decode fuel b lit dist out = Some (0, b', {| s_cap := s_cap out; s_out := expand (s_out out) ts |}) /\
    rd_ok b' /\ bits b' = rest /\ b_data b' = b_data b.
Proof.
  induction ts as [|t ts IH]; intros fuel b out rest HL HD OL OD H256 Hrd Hb Hts Hf Hcap; (destruct fuel as [|fuel]; [cbn in Hf; lia|]); cbn [block_decode].
  { destruct (decode_sym L lit 256 b rest HL OL H256 Hrd Hb) as (b' & -> & R). cbn [mbind option_bind]. exists b'. split; [by destruct out|exact R]. }
  cbn [tokens_ok] in Hts. destruct Hts as [Ht Hts]. pose proof (length_expand ts _ Hts) as Hlen. cbn [expand foldl] in Hcap. fold (expand (expand1 (s_out out) t) ts) in Hcap.
  unfold body_bits in Hb. cbn [fmap list_fmap mjoin list_join] in Hb. rewrite <- !app_assoc in Hb. fold (mjoin (token_bits <$> ts)) in Hb.
  rewrite (app_assoc (mjoin _)) in Hb. fold (body_bits ts) in Hb.
  destruct t as [c|k e dk de]; cbn [token_ok token_bits expand1] in *.
  - destruct Ht as [Hc Hcode]. destruct (decode_sym L lit _ b _ HL OL Hcode Hrd Hb) as (b1 & -> & Hrd1 & Hb1 & Hd1). cbn [mbind option_bind].
    unfold_fits. rewrite Z2Nat.id by lia.
    destruct (Z.ltb_spec c 0), (Z.eqb_spec c 256), (Z.ltb_spec c 256); try lia. rewrite (wrap_id 8 c) by (unfold_fits; lia).
    unfold sink_put. rewrite length_app in Hlen. cbn in Hlen. destruct (Z.geb_spec (Z.of_nat (length (s_out out))) (s_cap out)); [lia|].
    destruct (IH fuel b1 {| s_cap := s_cap out; s_out := s_out out ++ [c] |} rest HL HD OL OD H256 Hrd1 Hb1 Hts ltac:(cbn in Hf; lia) Hcap) as (b' & E & R1 & R2 & R3).
    exists b'. split; [exact E|]. split; [done|]. split; [done|congruence].
  - destruct Ht as (Hk & He & Hck & Hdk & Hde & Hcd & Hdist). rewrite <- !app_assoc in Hb.
    destruct (decode_sym L lit _ b _ HL OL Hck Hrd Hb) as (b1 & -> & Hrd1 & Hb1 & Hd1). cbn [mbind option_bind].
    destruct (Z.ltb_spec (Z.of_nat (257 + k)) 0), (Z.eqb_spec (Z.of_nat (257 + k)) 256), (Z.ltb_spec (Z.of_nat (257 + k)) 256),
      (Z.geb_spec (Z.of_nat (257 + k) - 257) 29); try lia.
    replace (Z.to_nat (Z.of_nat (257 + k) - 257)) with k by lia.
    destruct (len_entry k Hk) as (lb & le & E1 & E2 & Hlb & Hle). destruct (dist_entry dk Hdk) as (db & dx & E3 & E4 & Hdb & Hdx).
    unfold tok_len, tok_dist in *. rewrite (list_lookup_total_correct _ _ _ E1) in *. rewrite (list_lookup_total_correct _ _ _ E2) in *.
    rewrite (list_lookup_total_correct _ _ _ E3) in *. rewrite (list_lookup_total_correct _ _ _ E4) in *.
    rewrite E1, E2. cbn [mbind option_bind].
    destruct (read_extra b1 le e _ Hrd1 ltac:(lia) He Hb1) as (b2 & -> & Hrd2 & Hb2 & Hd2).
    destruct (decode_sym D dist dk b2 _ HD OD Hcd Hrd2 Hb2) as (b3 & -> & Hrd3 & Hb3 & Hd3). cbn [mbind option_bind].
    destruct (Z.ltb_spec (Z.of_nat dk) 0), (Z.geb_spec (Z.of_nat dk) 30); try lia. cbn [orb]. rewrite Nat2Z.id, E3, E4. cbn [mbind option_bind].
    destruct (read_extra b3 dx de _ Hrd3 ltac:(lia) Hde Hb3) as (b4 & -> & Hrd4 & Hb4 & Hd4). unfold fits in He, Hde.
    destruct (Z.gtb_spec (db + de) (Z.of_nat (length (s_out out)))); [lia|].
    rewrite copy_back_expand; [|lia|rewrite length_copy in Hlen; lia]. cbn [mbind option_bind].
    assert (bits b4 = body_bits ts ++ rest) as Hb5 by (unfold body_bits; rewrite Hb4, <- app_assoc; reflexivity).
    set (out1 := Build_sink _ _).
    destruct (IH fuel b4 out1 rest HL HD OL OD H256 Hrd4 Hb5 Hts ltac:(cbn in Hf; lia) Hcap) as (b' & E & R1 & R2 & R3).
    exists b'. split; [|split; [done|]; split; [done|congruence]].
    replace (expand (s_out out) (Match k e dk de :: ts)) with (expand (s_out out1) ts); [exact E|].
    unfold expand. cbn [foldl expand1]. unfold tok_len, tok_dist. by rewrite (list_lookup_total_correct _ _ _ E1), (list_lookup_total_correct _ _ _ E3).
Qed.
End tokens.

(** ** The header of a dynamic block *)

(** One item of the run-length coded list of code lengths. *)
Inductive clitem := CLen (v : nat) | CRep (r : Z) | CZero3 (r : Z) | CZero11 (r : Z).

Definition cl_expand (ls : list Z) (i : clitem) : list Z :=
  match i with
  | CLen v => ls ++ [Z.of_nat v]
  | CRep r => ls ++ replicate (Z.to_nat (r + 3)) (default 0 (last ls))
  | CZero3 r => ls ++ replicate (Z.to_nat (r + 3)) 0
  | CZero11 r => ls ++ replicate (Z.to_nat (r + 11)) 0
  end.

Section header.
Context (C : list Z).

Definition cl_ok (ls : list Z) (i : clitem) : Prop :=
  match i with
  | CLen v => (v < 16)%nat /\ has_code C v
  | CRep r => ls <> [] /\ fits 2 r /\ has_code C 16
  | CZero3 r => fits 3 r /\ has_code C 17
  | CZero11 r => fits 7 r /\ has_code C 18
  end.
Fixpoint items_ok (ls : list Z) (its : list clitem) : Prop :=
  match its with [] => True | i :: its => cl_ok ls i /\ items_ok (cl_expand ls i) its end.
Definition cl_bits (i : clitem) : list bool :=
  match i with
  | CLen v => sym_bits C v
  | CRep r => sym_bits C 16 ++ lsb_bits 2 r
  | CZero3 r => sym_bits C 17 ++ lsb_bits 3 r
  | CZero11 r => sym_bits C 18 ++ lsb_bits 7 r
  end.

Lemma cl_expand_grows ls i : cl_ok ls i -> (length ls < length (cl_expand ls i))%nat.
Proof.
  destruct i as [v|r|r|r]; cbn [cl_ok cl_expand]; rewrite length_app, ?length_replicate; cbn [length]; unfold fits; intros; lia.
Qed.
Lemma items_grow its : forall ls, items_ok ls its -> (length ls + length its <= length (foldl cl_expand ls its))%nat.
Proof.
  induction its as [|i its IH]; intros ls; cbn [items_ok foldl length]; [lia|]. intros [Hi His]. specialize (IH _ His).
  pose proof (cl_expand_grows _ _ Hi). lia.
Qed.

(** A repeat that fits is not cut short. *)
Lemma take_fits n (ls : list Z) : (length ls <= n)%nat -> take n ls = ls.
Proof. apply take_ge. Qed.

Lemma read_lengths_items clh n its : forall fuel b ls rest,
  huff_tab C clh -> lengths_ok C -> rd_ok b -> bits b = mjoin (cl_bits <$> its) ++ rest -> items_ok ls its ->
  length (foldl cl_expand ls its) = n -> (length its <= fuel)%nat ->
  exists b', read_lengths fuel b clh n ls = Some (Some (b', foldl cl_expand ls its)) /\ rd_ok b' /\ bits b' = rest /\ b_data b' = b_data b.
Proof.
  induction its as [|i its IH]; intros fuel b ls rest Ht Hok Hrd Hb His Hn Hf.
  { cbn [foldl] in Hn. exists b. split; [|done]. destruct fuel; cbn [read_lengths]; destruct (Nat.leb_spec n (length ls)); (done || lia). }
  pose proof (items_grow _ _ His) as Hg. cbn [items_ok foldl length] in *. destruct His as [Hi His]. pose proof (items_grow _ _ His) as Hg2.
  destruct fuel as [|fuel]; [lia|]. cbn [read_lengths]. destruct (Nat.leb_spec n (length ls)); [lia|].
  cbn [fmap list_fmap mjoin list_join] in Hb. rewrite <- app_assoc in Hb. fold (mjoin (cl_bits <$> its)) in Hb.
  assert (forall b1 ls1, rd_ok b1 -> b_data b1 = b_data b -> bits b1 = mjoin (cl_bits <$> its) ++ rest -> ls1 = cl_expand ls i ->
    exists b', read_lengths fuel b1 clh n ls1 = Some (Some (b', foldl cl_expand (cl_expand ls i) its)) /\ rd_ok b' /\ bits b' = rest /\ b_data b' = b_data b) as Hrec.
  { intros b1 ls1 H1 H2 H3 ->. rewrite <- H2. by apply IH; [..|lia]. }
  assert (length (cl_expand ls i) <= n)%nat as Hle by lia.
  destruct i as [v|r|r|r]; cbn [cl_ok cl_bits cl_expand] in *; rewrite <- ?app_assoc in Hb.
  - destruct Hi as [Hv Hc]. destruct (decode_sym C clh v b _ Ht Hok Hc Hrd Hb) as (b1 & -> & R1 & R2 & R3). cbn [mbind option_bind].
    destruct (Z.ltb_spec (Z.of_nat v) 0), (Z.ltb_spec (Z.of_nat v) 16); try lia. apply Hrec; try done.
    by rewrite wrap_id by (unfold_fits; lia).
  - destruct Hi as (Hne & Hr & Hc). destruct (decode_sym C clh 16 b _ Ht Hok Hc Hrd Hb) as (b1 & -> & R1 & R2 & R3). cbn [mbind option_bind Z.of_nat Z.ltb Z.eqb Z.compare Pos.compare Pos.compare_cont Pos.eqb Pos.of_succ_nat Pos.succ].
    destruct (last ls) as [v|] eqn:El; [|by apply last_None in El].
    destruct (read_extra b1 2 r _ R1 ltac:(lia) Hr R2) as (b2 & -> & R4 & R5 & R6). apply Hrec; try (done || congruence). by apply take_fits.
  - destruct Hi as (Hr & Hc). destruct (decode_sym C clh 17 b _ Ht Hok Hc Hrd Hb) as (b1 & -> & R1 & R2 & R3). cbn [mbind option_bind Z.of_nat Z.ltb Z.eqb Z.compare Pos.compare Pos.compare_cont Pos.eqb Pos.of_succ_nat Pos.succ].
    destruct (read_extra b1 3 r _ R1 ltac:(lia) Hr R2) as (b2 & -> & R4 & R5 & R6). apply Hrec; try (done || congruence). by apply take_fits.
  - destruct Hi as (Hr & Hc). destruct (decode_sym C clh 18 b _ Ht Hok Hc Hrd Hb) as (b1 & -> & R1 & R2 & R3). cbn [mbind option_bind Z.of_nat Z.ltb Z.eqb Z.compare Pos.compare Pos.compare_cont Pos.eqb Pos.of_succ_nat Pos.succ].
    destruct (read_extra b1 7 r _ R1 ltac:(lia) Hr R2) as (b2 & -> & R4 & R5 & R6). apply Hrec; try (done || congruence). by apply take_fits.
Qed.

Lemma read_cl_spec ord : forall b cl rest,
  NoDup ord -> Forall (fun o => (o < length cl)%nat) ord -> (forall o, o ∈ ord -> fits 3 (C !!! o)) -> rd_ok b ->
  bits b = mjoin ((fun o => lsb_bits 3 (C !!! o)) <$> ord) ++ rest ->
  exists b' cl', read_cl ord b cl = (b', cl') /\ rd_ok b' /\ bits b' = rest /\ b_data b' = b_data b /\ length cl' = length cl /\
    forall o, cl' !!! o = if bool_decide (o ∈ ord) then C !!! o else cl !!! o.
Proof.
  induction ord as [|o ord IH]; intros b cl rest Hnd Ho Hf Hrd Hb; cbn [read_cl].
  { eexists _, _. split; [reflexivity|]. by split_and!. }
  cbn [fmap list_fmap mjoin list_join] in Hb. rewrite <- app_assoc in Hb. fold (mjoin ((fun o => lsb_bits 3 (C !!! o)) <$> ord)) in Hb.
  apply NoDup_cons in Hnd as [Hno Hnd]. apply Forall_cons in Ho as [Hol Ho]. pose proof (Hf o ltac:(set_solver)) as Hfo.
  destruct (read_extra b 3 (C !!! o) _ Hrd ltac:(lia) Hfo Hb) as (b1 & -> & R1 & R2 & R3).
  assert (u8 (C !!! o) = C !!! o) as -> by (apply wrap_id; unfold fits in *; lia).
  destruct (IH b1 (<[o := C !!! o]> cl) rest Hnd) as (b' & cl' & E & S1 & S2 & S3 & S4 & S5); try done.
  { by rewrite length_insert. } { intros; apply Hf; set_solver. }
  exists b', cl'. split; [done|]. split; [done|]. split; [done|]. split; [congruence|]. split; [by rewrite S4, length_insert|].
  intros p. rewrite S5. destruct (decide (p = o)) as [->|Hne].
  - rewrite bool_decide_false by done. rewrite bool_decide_true by set_solver. by rewrite list_lookup_total_insert_eq.
  - rewrite list_lookup_total_insert_ne by done. rewrite (bool_decide_ext (p ∈ ord) (p ∈ o :: ord)) by set_solver. done.
Qed.
End header.

(** ** The format *)

(** A block, from its type on: [out] is what was written before it, [out'] what
    has been after it, [rest] the bits behind it.  A stored block starts on a byte
    boundary; streams end on one. *)
Inductive block (out : list Z) : list bool -> list Z -> list bool -> Prop :=
| block_stored pad bytes rest :
    (length pad < 8)%nat -> (length rest mod 8 = 0)%nat -> Forall is_byte bytes -> Z.of_nat (length bytes) < 65536 ->
    let len := Z.of_nat (length bytes) in
    block out ([false; false] ++ pad ++ byte_bits (le_enc 2 len ++ le_enc 2 (65535 - len) ++ bytes) ++ rest) (out ++ bytes) rest
| block_fixed ts rest :
    tokens_ok fixed_litlen fixed_dist out ts ->
    block out ([true; false] ++ body_bits fixed_litlen fixed_dist ts ++ rest) (expand out ts) rest
| block_dyn hl hd hc C its L D ts rest :
    fits 5 hl -> fits 5 hd -> fits 4 hc ->
    length C = 19%nat -> Forall (fun l => 0 <= l < 8) C -> complete C ->
    (forall o, o ∉ take (Z.to_nat (hc + 4)) ORD -> C !!! o = 0) ->
    items_ok C [] its -> foldl cl_expand [] its = L ++ D ->
    Z.of_nat (length L) = hl + 257 -> Z.of_nat (length D) = hd + 1 ->
    complete L -> complete D -> has_code L 256 -> tokens_ok L D out ts ->
    block out ([false; true] ++ lsb_bits 5 hl ++ lsb_bits 5 hd ++ lsb_bits 4 hc ++
      mjoin ((fun o => lsb_bits 3 (C !!! o)) <$> take (Z.to_nat (hc + 4)) ORD) ++
      mjoin (cl_bits C <$> its) ++ body_bits L D ts ++ rest) (expand out ts) rest.

(** A stream of [n] blocks: each is marked with whether it is the last. *)
Fixpoint stream (n : nat) (out : list Z) (bs : list bool) (out' : list Z) (rest : list bool) : Prop :=
  match n with
  | O => False
  | S n => exists last bs' out1 mid, bs = last :: bs' /\ block out bs' out1 mid /\
      if (last : bool) then n = 0%nat /\ out1 = out' /\ mid = rest else stream n out1 mid out' rest
  end.

(** ** Stored blocks *)

Lemma lsb_bits_inj c x : is_byte c -> is_byte x -> lsb_bits 8 c = lsb_bits 8 x -> c = x.
Proof.
  intros Hc Hx E. apply (f_equal lsb_val) in E. rewrite !lsb_val_bits in E by (unfold fits in *; lia).
  change (Z.of_nat 8) with 8 in E. by rewrite !Z.mod_small in E.
Qed.

Lemma byte_bits_split x : forall data rest, Forall is_byte data -> Forall is_byte x -> byte_bits data = byte_bits x ++ rest ->
  data = x ++ drop (length x) data /\ rest = byte_bits (drop (length x) data).
Proof.
  induction x as [|c x IH]; intros data rest Hd Hx E; [by rewrite drop_0|].
  destruct data as [|d data]; [by apply (f_equal length) in E; rewrite byte_bits_cons, !length_app, length_lsb_bits in E|].
  apply Forall_cons in Hd as [Hd1 Hd]. apply Forall_cons in Hx as [Hx1 Hx]. rewrite !byte_bits_cons, <- app_assoc in E.
  apply app_inj_1 in E as [E1 E2]; [|by rewrite !length_lsb_bits]. apply lsb_bits_inj in E1 as ->; [|done..].
  destruct (IH data rest Hd Hx E2) as [E3 E4]. cbn [length drop app]. split; [by rewrite <- E3|done].
Qed.

(** How many bits are left tells how many are in the buffer. *)
Lemma bits_length b : rd_ok b -> Z.of_nat (length (bits b)) = b_bitcnt b + 8 * Z.of_nat (length (b_data b) - b_pos b).
Proof. intros [[O1 _ _ _] _]. unfold bits. rewrite length_app, length_lsb_bits, length_byte_bits, length_drop. lia. Qed.

Lemma copy_stored_spec bytes : forall b out tail,
  drop (b_pos b) (b_data b) = bytes ++ tail -> Z.of_nat (length (s_out out) + length bytes) <= s_cap out ->
  copy_stored (length bytes) b out =
    (0, {| b_data := b_data b; b_pos := b_pos b + length bytes; b_bitbuf := b_bitbuf b; b_bitcnt := b_bitcnt b |},
     {| s_cap := s_cap out; s_out := s_out out ++ bytes |}).
Proof.
  induction bytes as [|c bytes IH]; intros b out tail Hd Hc; cbn [length copy_stored].
  { rewrite Nat.add_0_r, app_nil_r. by destruct b, out. }
  assert (b_data b !! b_pos b = Some c) as Hcb.
  { rewrite <- (Nat.add_0_r (b_pos b)), <- lookup_drop, Hd. done. }
  rewrite Hcb. unfold sink_put. cbn [length] in Hc. destruct (Z.geb_spec (Z.of_nat (length (s_out out))) (s_cap out)); [lia|].
  rewrite (IH _ _ tail); cbn [b_data b_pos b_bitbuf b_bitcnt s_out s_cap].
  - rewrite <- app_assoc. cbn [app]. do 3 f_equal. lia.
  - rewrite (drop_S _ _ _ Hcb) in Hd. by injection Hd.
  - rewrite length_app. cbn [length]. lia.
Qed.

Lemma length_le2 v : length (le_enc 2 v) = 2%nat.
Proof. done. Qed.

Lemma stored_block_spec b out pad bytes rest :
  rd_ok b -> (length pad < 8)%nat -> (length rest mod 8 = 0)%nat -> Forall is_byte bytes -> Z.of_nat (length bytes) < 65536 ->
  let len := Z.of_nat (length bytes) in
  bits b = pad ++ byte_bits (le_enc 2 len ++ le_enc 2 (65535 - len) ++ bytes) ++ rest ->
  Z.of_nat (length (s_out out) + length bytes) <= s_cap out ->
  exists b', stored_block b out = Some (0, b', {| s_cap := s_cap out; s_out := s_out out ++ bytes |}) /\
    rd_ok b' /\ bits b' = rest /\ b_data b' = b_data b.
Proof.
  intros Hrd Hpad Hrest Hbytes Hlen len Hb Hcap. set (X := le_enc 2 len ++ le_enc 2 (65535 - len) ++ bytes) in *.
  pose proof (bits_length b Hrd) as Hbl. pose proof Hrd as [[O1 O2 O3 O4] O5].
  assert (length X = 4 + length bytes)%nat as HX by (unfold X; rewrite !length_app, !length_le_enc; lia).
  assert (Z.to_nat (b_bitcnt b) = length pad) as Hcnt.
  { rewrite Hb, !length_app, length_byte_bits in Hbl. pose proof (Nat.div_mod_eq (length rest) 8). lia. }
  assert (byte_bits (drop (b_pos b) (b_data b)) = byte_bits X ++ rest) as Hbb.
  { unfold bits in Hb. rewrite Hcnt in Hb. by apply app_inj_1 in Hb as [_ ?]; [|by rewrite length_lsb_bits]. }
  assert (Forall is_byte X) as HfX by (unfold X; rewrite !Forall_app; split_and!; auto using le_enc_bytes).
  destruct (byte_bits_split X (drop (b_pos b) (b_data b)) rest ltac:(by apply Forall_drop) HfX Hbb) as [Hd Hr]. rewrite drop_drop in Hd, Hr.
  assert (b_pos b + length X <= length (b_data b))%nat as Hroom.
  { apply (f_equal length) in Hd. rewrite length_drop, length_app, length_drop in Hd. lia. }
  unfold stored_block, br_align. cbn [b_data b_pos].
  destruct (Nat.ltb_spec (length (b_data b)) (b_pos b + 4)); [lia|].
  assert (forall i x, X !! i = Some x -> b_data b !! (b_pos b + i)%nat = Some x) as Hat.
  { intros i x Hi. rewrite <- lookup_drop, Hd. by apply lookup_app_l_Some. }
  pose proof (Hat 0%nat (u8 len) eq_refl) as H0. pose proof (Hat 1%nat (u8 (len / 256)) eq_refl) as H1.
  rewrite Nat.add_0_r in H0. rewrite Nat.add_1_r in H1. rewrite H0, H1. cbn [mbind option_bind].
  assert (Z.lor (u8 len) (Z.shiftl (u8 (len / 256)) 8) = len) as ->.
  { rewrite lor_shiftl_add by (lia || by apply wrap_fits). unfold wrap. change (2 ^ 8) with 256.
    rewrite (Z.mod_small (len / 256)) by (split; [apply Z.div_pos; lia|apply Z.div_lt_upper_bound; lia]).
    pose proof (Z.div_mod len 256 ltac:(lia)). lia. }
  unfold len at 1. rewrite Nat2Z.id. rewrite (copy_stored_spec bytes _ _ (drop (b_pos b + length X) (b_data b))); cbn [b_data b_pos b_bitbuf b_bitcnt]; [| |done].
  - eexists. split; [reflexivity|]. split; [apply aligned_ok; (done || lia)|]. split; [|done].
    unfold bits. cbn [b_data b_pos b_bitbuf b_bitcnt]. rewrite Hr. rewrite HX, Nat.add_assoc. reflexivity.
  - replace (b_pos b + 4)%nat with (4 + b_pos b)%nat by lia. rewrite Nat.add_comm, <- drop_drop, Hd at 1. unfold X.
    rewrite app_assoc, <- (app_assoc (le_enc 2 len ++ le_enc 2 (65535 - len))).
    by rewrite (drop_app_length' (le_enc 2 len ++ le_enc 2 (65535 - len))) by done.
Qed.

(** ** Dynamic blocks *)

Lemma ORD_nodup : NoDup ORD /\ Forall (fun o => (o < 19)%nat) ORD.
Proof. split; apply (bool_decide_unpack _); vm_compute; exact I. Qed.

(** The lengths of the code for code lengths are read as they were written. *)
Lemma read_code_lengths C hc b rest :
  length C = 19%nat -> Forall (fun l => 0 <= l < 8) C -> (forall o, o ∉ take (Z.to_nat (hc + 4)) ORD -> C !!! o = 0) ->
  rd_ok b -> bits b = mjoin ((fun o => lsb_bits 3 (C !!! o)) <$> take (Z.to_nat (hc + 4)) ORD) ++ rest ->
  exists b', read_cl (take (Z.to_nat (hc + 4)) ORD) b (replicate 19 0) = (b', C) /\ rd_ok b' /\ bits b' = rest /\ b_data b' = b_data b.
Proof.
  intros Hl H8 Hz Hrd Hb. destruct ORD_nodup as [N1 N2]. set (ord := take (Z.to_nat (hc + 4)) ORD) in *.
  assert (Forall (fun o => (o < 19)%nat) ord) as No by (by apply Forall_take).
  destruct (read_cl_spec C ord b (replicate 19 0) rest) as (b' & cl & E & R1 & R2 & R3 & R4 & R5); try done.
  { eapply sublist_NoDup; [exact N1|apply sublist_take]. }
  { intros o Ho. rewrite Forall_forall in No. specialize (No o Ho).
    destruct (lookup_lt_is_Some_2 C o) as [l El]; [lia|]. rewrite (list_lookup_total_correct _ _ _ El).
    apply (Forall_lookup_1 _ _ _ _ H8) in El. unfold fits. lia. }
  exists b'. rewrite E. split; [|done]. f_equal. rewrite length_replicate in R4. apply list_eq_same_length with 19%nat; [done|done|].
  intros i x y Hi Hx Hy. specialize (R5 i). rewrite (list_lookup_total_correct _ _ _ Hx), (list_lookup_total_correct _ _ _ Hy) in R5.
  rewrite R5. case_bool_decide as Hin; [done|]. rewrite <- (list_lookup_total_correct _ _ _ Hy), (Hz i Hin).
  by rewrite list_lookup_total_alt, lookup_replicate_2.
Qed.

Lemma expand_items_ok C its : forall ls,
  Forall (fun l => 0 <= l <= 15) ls -> items_ok C ls its -> Forall (fun l => 0 <= l <= 15) (foldl cl_expand ls its).
Proof.
  induction its as [|i its IH]; intros ls Hls; cbn [items_ok foldl]; [done|]. intros [Hi His]. apply IH; [|done].
  destruct i as [v|r|r|r]; cbn [cl_expand cl_ok] in *; apply Forall_app; (split; [done|]); try (apply Forall_replicate; lia).
  - constructor; [lia|constructor].
  - apply Forall_replicate. destruct (last ls) as [v|] eqn:El; cbn [default]; [|lia].
    apply last_Some in El as [l' ->]. by apply Forall_app in Hls as [_ [? _]%Forall_cons].
Qed.

(** ** Blocks *)

Lemma block_grows out bs out' rest : block out bs out' rest -> (length out <= length out')%nat.
Proof.
  destruct 1; [rewrite length_app; lia|..]; match goal with H : tokens_ok _ _ _ _ |- _ => apply length_expand in H; lia end.
Qed.

(** The body of a fixed or dynamic block. *)
Lemma body_spec L D lit dist ts b out rest :
  huff_tab L lit -> huff_tab D dist -> lengths_ok L -> lengths_ok D -> has_code L 256 -> rd_ok b ->
  bits b = body_bits L D ts ++ rest -> tokens_ok L D (s_out out) ts -> Z.of_nat (length (expand (s_out out) ts)) <= s_cap out ->
  exists b', ('(rc, b', out') ← block_decode (block_fuel out) b lit dist out; Some (rc, b', out', lit, dist))
      = Some (0, b', {| s_cap := s_cap out; s_out := expand (s_out out) ts |}, lit, dist) /\
    rd_ok b' /\ bits b' = rest /\ b_data b' = b_data b.
Proof.
  intros HL HD OL OD H256 Hrd Hb Hts Hcap. pose proof (length_expand L D ts _ Hts) as Hlen.
  destruct (block_decode_tokens L D lit dist ts (block_fuel out) b out rest) as (b' & -> & R); try done; [unfold block_fuel; lia|].
  exists b'. split; [done|exact R].
Qed.

Lemma fixed_codes : complete fixed_litlen /\ complete fixed_dist /\ has_code fixed_litlen 256.
Proof.
  assert (forall l, forallb (fun k => 0 <=? left_of l k) (seq 1 15) = true -> left_of l 15 = 0 -> complete l) as Hc.
  { intros l H H0. split; [|by left]. intros k Hk. rewrite forallb_forall in H. apply Z.leb_le, H, in_seq. lia. }
  split; [apply Hc; vm_compute; reflexivity|]. split; [apply Hc; vm_compute; reflexivity|]. exists 7. split; [vm_compute; reflexivity|lia].
Qed.

(** What a block leaves behind. *)
Definition block_done (b b' : br) (r : option (Z * br * sink * huff * huff)) (cap : Z) (out' : list Z) (rest : list bool) : Prop :=
  exists lit' dist', r = Some (0, b', {| s_cap := cap; s_out := out' |}, lit', dist') /\ blank lit' /\ blank dist' /\
    rd_ok b' /\ bits b' = rest /\ b_data b' = b_data b.

Lemma fixed_block_spec b lit dist clh out ts rest :
  blank lit -> blank dist -> rd_ok b -> tokens_ok fixed_litlen fixed_dist (s_out out) ts ->
  bits b = body_bits fixed_litlen fixed_dist ts ++ rest -> Z.of_nat (length (expand (s_out out) ts)) <= s_cap out ->
  exists b', block_done b b' (one_block 1 b lit dist clh out) (s_cap out) (expand (s_out out) ts) rest.
Proof.
  intros Hl Hd Hrd Hts Hb Hcap. destruct fixed_codes as (Cl & Cd & H256). destruct fixed_litlen_ok as [F1 F2]. destruct fixed_dist_ok as [G1 G2].
  unfold one_block. cbn [Z.eqb Pos.eqb].
  destruct (build_complete lit fixed_litlen F1 F2 Hl Cl) as (lit' & -> & Tl). cbn [mbind option_bind].
  destruct (build_complete dist fixed_dist G1 G2 Hd Cd) as (dist' & -> & Td). cbn [mbind option_bind].
  destruct (body_spec _ _ lit' dist' ts b out rest Tl Td F1 G1 H256 Hrd Hb Hts Hcap) as (b' & E & R).
  exists b', lit', dist'. split; [exact E|]. split; [apply (ht_sym _ _ Tl)|]. split; [apply (ht_sym _ _ Td)|exact R].
Qed.

Lemma dynamic_block_spec b lit dist clh out hl hd hc C its L D ts rest :
  blank lit -> blank dist -> blank clh -> rd_ok b -> fits 5 hl -> fits 5 hd -> fits 4 hc ->
  length C = 19%nat -> Forall (fun l => 0 <= l < 8) C -> complete C ->
  (forall o, o ∉ take (Z.to_nat (hc + 4)) ORD -> C !!! o = 0) ->
  items_ok C [] its -> foldl cl_expand [] its = L ++ D ->
  Z.of_nat (length L) = hl + 257 -> Z.of_nat (length D) = hd + 1 ->
  complete L -> complete D -> has_code L 256 -> tokens_ok L D (s_out out) ts ->
  bits b = lsb_bits 5 hl ++ lsb_bits 5 hd ++ lsb_bits 4 hc ++
      mjoin ((fun o => lsb_bits 3 (C !!! o)) <$> take (Z.to_nat (hc + 4)) ORD) ++
      mjoin (cl_bits C <$> its) ++ body_bits L D ts ++ rest ->
  Z.of_nat (length (expand (s_out out) ts)) <= s_cap out ->
  exists b', block_done b b' (block_dynamic b lit dist clh out) (s_cap out) (expand (s_out out) ts) rest.
Proof.
  intros Hl Hd Hc Hrd Fl Fd Fc HC H8 CC Hz Hits Hexp HL HD CL CD H256 Hts Hb Hcap. unfold block_dynamic.
  destruct (read_extra b 5 hl _ Hrd ltac:(lia) Fl Hb) as (b1 & -> & R1 & Hb1 & D1).
  destruct (read_extra b1 5 hd _ R1 ltac:(lia) Fd Hb1) as (b2 & -> & R2 & Hb2 & D2).
  destruct (read_extra b2 4 hc _ R2 ltac:(lia) Fc Hb2) as (b3 & -> & R3 & Hb3 & D3).
  destruct (read_code_lengths C hc b3 _ HC H8 Hz R3 Hb3) as (b4 & -> & R4 & Hb4 & D4).
  assert (lengths_ok C) as OC by (eapply Forall_impl; [exact H8|]; cbn; lia).
  destruct (build_complete clh C OC ltac:(lia) Hc CC) as (clh' & -> & Tc). cbn [mbind option_bind].
  assert (Z.to_nat (hl + 257 + (hd + 1)) = length (L ++ D)) as En by (rewrite length_app; lia). rewrite En.
  pose proof (items_grow C its [] Hits) as Hg. rewrite Hexp in Hg. cbn [length] in Hg.
  destruct (read_lengths_items C clh' (length (L ++ D)) its (length (L ++ D)) b4 [] _ Tc OC R4 Hb4 Hits ltac:(by rewrite Hexp) ltac:(lia))
    as (b5 & -> & R5 & Hb5 & D5). cbn [mbind option_bind]. rewrite Hexp.
  assert (Forall (fun l => 0 <= l <= 15) (L ++ D)) as OLD by (rewrite <- Hexp; by apply (expand_items_ok C)).
  apply Forall_app in OLD as [OL OD]. unfold fits in Fl, Fd. change (2 ^ 5) with 32 in *.
  assert (Z.to_nat (hl + 257) = length L) as EL by lia. rewrite EL, take_app_length, drop_app_length.
  destruct (build_complete lit L OL ltac:(lia) Hl CL) as (lit' & -> & Tl). cbn [mbind option_bind].
  destruct (build_complete dist D OD ltac:(lia) Hd CD) as (dist' & -> & Td). cbn [mbind option_bind].
  destruct (body_spec L D lit' dist' ts b5 out rest Tl Td OL OD H256 R5 Hb5 Hts Hcap) as (b' & E & S1 & S2 & S3).
  exists b', lit', dist'. split; [exact E|]. split; [apply (ht_sym _ _ Tl)|]. split; [apply (ht_sym _ _ Td)|]. split; [done|]. split; [done|congruence].
Qed.

Lemma one_block_spec b lit dist clh out bs out' rest :
  blank lit -> blank dist -> blank clh -> rd_ok b -> block (s_out out) bs out' rest -> bits b = bs ->
  Z.of_nat (length out') <= s_cap out ->
  exists bt b2 b', br_get b 2 = (bt, b2) /\ block_done b b' (one_block bt b2 lit dist clh out) (s_cap out) out' rest.
Proof.
  intros Hl Hd Hc Hrd Hblk Hb Hcap.
  assert (forall x y rest1, bits b = [x; y] ++ rest1 -> exists b2, br_get b 2 = (lsb_val [x; y], b2) /\ rd_ok b2 /\ bits b2 = rest1 /\ b_data b2 = b_data b) as Htype
    by (intros x y rest1 E; exact (br_get_bits b 2 [x; y] rest1 Hrd ltac:(lia) E eq_refl)).
  assert (forall b2 b' r cap o, b_data b2 = b_data b -> block_done b2 b' r cap o rest -> block_done b b' r cap o rest) as Htrans.
  { intros b2 b' r cap o E (l' & d' & H1 & H2 & H3 & H4 & H5 & H6). exists l', d'. split_and!; (done || congruence). }
  destruct Hblk as [pad bytes rest Hpad Hrest Hbytes Hlen len|ts rest Hts|hl hd hc C its L D ts rest Fl Fd Fc HC H8 CC Hz Hits Hexp HL HD CL CD H256 Hts];
    destruct (Htype _ _ _ Hb) as (b2 & E & R2 & Hb2 & D2); cbn [lsb_val Z.b2z Z.add Z.mul] in E; eexists _, b2.
  - rewrite length_app in Hcap. destruct (stored_block_spec b2 out pad bytes rest R2 Hpad Hrest Hbytes Hlen Hb2 Hcap) as (b' & Es & S1 & S2 & S3).
    exists b'. split; [exact E|]. apply (Htrans b2); [done|]. unfold one_block. cbn [Z.eqb]. rewrite Es. cbn [mbind option_bind].
    exists lit, dist. by split_and!.
  - destruct (fixed_block_spec b2 lit dist clh out ts rest Hl Hd R2 Hts Hb2 Hcap) as (b' & Hdone). exists b'. split; [exact E|]. by apply (Htrans b2).
  - destruct (dynamic_block_spec b2 lit dist clh out hl hd hc C its L D ts rest) as (b' & Hdone); try done.
    exists b'. split; [exact E|]. by apply (Htrans b2).
Qed.

Lemma stream_grows n : forall out bs out' rest, stream n out bs out' rest -> (length out <= length out')%nat.
Proof.
  induction n as [|n IH]; intros out bs out' rest; cbn [stream]; [done|].
  intros (last & bs' & out1 & mid & _ & Hblk%block_grows & H). destruct last; [destruct H as (_ & -> & _); lia|]. apply IH in H. lia.
Qed.

Lemma raw_loop_stream n : forall fuel b lit dist clh out out' rest,
  blank lit -> blank dist -> blank clh -> rd_ok b -> stream n (s_out out) (bits b) out' rest -> (n <= fuel)%nat ->
  Z.of_nat (length out') <= s_cap out ->
  exists b', raw_loop fuel b lit dist clh out = Some (0, out', b_pos b') /\ rd_ok b' /\ bits b' = rest /\ b_data b' = b_data b.
Proof.
  induction n as [|n IH]; intros fuel b lit dist clh out out' rest Hl Hd Hc Hrd; cbn [stream]; [done|].
  intros (last & bs & out1 & mid & Hb & Hblk & Hrest) Hf Hcap. destruct fuel as [|fuel]; [lia|]. cbn [raw_loop].
  destruct (br_get_bits b 1 [last] bs Hrd ltac:(lia) Hb eq_refl) as (b1 & E & R1 & Hb1 & D1).
  change (Z.of_nat 1) with 1 in E. rewrite E.
  assert (Z.of_nat (length out1) <= s_cap out) as Hcap1.
  { destruct last; [by destruct Hrest as (_ & -> & _)|]. apply stream_grows in Hrest. lia. }
  destruct (one_block_spec b1 lit dist clh out bs out1 mid Hl Hd Hc R1 Hblk Hb1 Hcap1) as (bt & b2 & b' & -> & lit' & dist' & -> & Hl' & Hd' & R' & Hb' & D').
  cbn [mbind option_bind Z.eqb negb]. destruct last; cbn [lsb_val Z.b2z Z.add Z.mul Z.eqb negb].
  - destruct Hrest as (_ & -> & ->). exists b'. split; [done|]. split; [done|]. split; [done|congruence].
  - destruct (IH fuel b' lit' dist' clh {| s_cap := s_cap out; s_out := out1 |} out' rest) as (b3 & E3 & R3 & Hb3 & D3); try done; [by rewrite Hb'|lia|].
    exists b3. split; [exact E3|]. split; [done|]. split; [done|congruence].
Qed.

(** C9. The decoder inverts DEFLATE: every well-formed stream of stored,
    fixed and dynamic blocks, with complete codes and up to a million blocks, is
    decompressed to exactly the bytes it stands for when they fit the buffer, and
    the input consumed ends where the stream does. *)
Theorem inflate_decodes_deflate_streams src dcap n res rest :
  Forall is_byte src -> stream n [] (byte_bits src) res rest -> Z.of_nat n <= 1000000 -> Z.of_nat (length res) <= dcap ->
  wubu_inflate_raw src dcap = Some (0, res, (length src - length rest / 8)%nat).
Proof.
  intros Hsrc Hs Hn Hcap. destruct (br_init_ok src Hsrc) as [Hok Hbits]. unfold wubu_inflate_raw, inflate_raw.
  assert (rd_ok (br_init src)) as Hrd by (split; [done|cbn; lia]).
  destruct (raw_loop_stream n GUARD (br_init src) blank_huff blank_huff blank_huff {| s_cap := dcap; s_out := [] |} res rest)
    as (b' & -> & R & Hb & Hd); try (done || (unfold GUARD; lia)).
  do 2 f_equal. pose proof (bits_length b' R) as Hlen. rewrite Hb, Hd in Hlen. cbn [br_init b_data] in Hlen.
  destruct R as [[O1 _ _ O4] O5]. rewrite Hd in O4. cbn [br_init b_data] in O4.
  assert (length rest / 8 = length src - b_pos b')%nat as ->; [|lia].
  symmetry. apply Nat.div_unique with (Z.to_nat (b_bitcnt b')); lia.
Qed.

(** A stored block "hi" followed by a fixed block with a literal and a match. *)
Definition demo_src : list Z := [0; 2; 0; 253; 255; 104; 105; 75; 4; 1; 0].

Lemma demo_stream : stream 2 [] (byte_bits demo_src) (str "hiaaaaa") [false; false].
Proof.
  exists false, (tail (byte_bits demo_src)), (str "hi"), (byte_bits [75; 4; 1; 0]).
  split; [reflexivity|]. split.
  { apply (block_stored [] [false; false; false; false; false] (str "hi") (byte_bits [75; 4; 1; 0]));
      [cbn; lia|reflexivity|apply (bool_decide_unpack _); vm_compute; exact I|cbn; lia]. }
  exists true, (tail (byte_bits [75; 4; 1; 0])), (str "hiaaaaa"), [false; false].
  split; [reflexivity|]. split; [|done].
  refine (block_fixed (str "hi") [Lit 97; Match 1 0 0 0] [false; false] _).
  assert (forall l s n, l !! s = Some n -> 0 < n -> has_code l s) as Hcode by (intros l s n E H; by exists n).
  split; [split; [apply (bool_decide_unpack _); vm_compute; exact I|apply (Hcode _ _ 8); [vm_compute; reflexivity|lia]]|].
  split; [|exact I]. cbn [token_ok].
  split; [lia|]. split; [apply (bool_decide_unpack _); vm_compute; exact I|].
  split; [apply (Hcode _ _ 7); [vm_compute; reflexivity|lia]|]. split; [lia|].
  split; [apply (bool_decide_unpack _); vm_compute; exact I|]. split; [apply (Hcode _ _ 5); [vm_compute; reflexivity|lia]|].
  vm_compute. discriminate.
Qed.

Lemma inflate_decodes_deflate_streams_witness : wubu_inflate_raw demo_src 100 = Some (0, str "hiaaaaa", 11%nat).
Proof.
  rewrite (inflate_decodes_deflate_streams demo_src 100 2 (str "hiaaaaa") [false; false]);
    [reflexivity| |exact demo_stream|lia|vm_compute; discriminate].
  apply (bool_decide_unpack _). vm_compute. exact I.
Defined.

(** A code with a single word of one bit, which RFC 1951 uses for a block with a
    single distance, is refused; so is a block without any distance code. *)
Lemma inflate_refuses_single_distance_code :
  huff_build blank_huff [1] = Some None /\ huff_build blank_huff [0] = Some None.
Proof. split; vm_compute; reflexivity. Qed.

(** The complement of a stored block's length is not looked at. *)
Lemma inflate_ignores_stored_complement : wubu_inflate_raw [1; 2; 0; 77; 77; 104; 105] 100 = Some (0, str "hi", 7%nat).
Proof. vm_compute. reflexivity. Qed.

(** Neither is the checksum of a zlib stream. *)
Lemma inflate_ignores_adler : exists out n, wubu_inflate ([0x78; 0x01; 1; 2; 0; 253; 255; 104; 105] ++ [0; 0; 0; 0]) 100 = Some (0, out, n) /\
  out = str "hi" /\ wubu_adler32 out <> 0.
Proof. eexists _, _. split; [vm_compute; reflexivity|]. split; [reflexivity|]. intros E. vm_compute in E. discriminate E. Qed.
