(* ===== verification/Vmm.v ===== *)
(** * Virtual memory

    [kernel/wubu_vmm.c], [kernel/wubu_memmap.c]: the physical page allocator with
    its reference counts, the page tables, demand-zero regions and copy-on-write.

    The static variables of the module and physical memory are one record.  The
    code reaches page frames and tables through the identity mapping, so a pointer
    to one is its physical address.  Memory is byte-addressed.  [invlpg] and the
    spin lock have no counterpart: no stale translation is cached, and each call is
    one step. *)

From S2P Require Import Prelude Heap.
Open Scope Z_scope.

Definition PAGE : Z := 4096.
Definition WUBU_VMM_PHYS_BASE : Z := 0x01000000.
Definition WUBU_VMM_PHYS_END : Z := 0x08000000.
Definition WUBU_VMM_BITMAP_BITS : Z := (WUBU_VMM_PHYS_END - WUBU_VMM_PHYS_BASE) / PAGE.

Record vmm := {
  g_bitmap : list Z;          (* 3584 bytes *)
  g_free_pages : Z;
  g_refs : list Z;            (* 28672 counts of 16 bits *)
  g_demand : list (Z * Z);    (* base and pages, the first [g_demand_n] *)
  g_demand_faults : Z;
  g_mem : memory }.

Definition set_map (s : vmm) (bm : list Z) (free : Z) : vmm :=
  {| g_bitmap := bm; g_free_pages := free; g_refs := g_refs s; g_demand := g_demand s;
     g_demand_faults := g_demand_faults s; g_mem := g_mem s |}.
Definition set_refs (s : vmm) (refs : list Z) : vmm :=
  {| g_bitmap := g_bitmap s; g_free_pages := g_free_pages s; g_refs := refs; g_demand := g_demand s;
     g_demand_faults := g_demand_faults s; g_mem := g_mem s |}.
Definition set_demand (s : vmm) (d : list (Z * Z)) (faults : Z) : vmm :=
  {| g_bitmap := g_bitmap s; g_free_pages := g_free_pages s; g_refs := g_refs s; g_demand := d;
     g_demand_faults := faults; g_mem := g_mem s |}.
Definition set_vmem (s : vmm) (m : memory) : vmm :=
  {| g_bitmap := g_bitmap s; g_free_pages := g_free_pages s; g_refs := g_refs s; g_demand := g_demand s;
     g_demand_faults := g_demand_faults s; g_mem := m |}.

(** ** The bitmap

    Every call but those of [wubu_vmm_init] checks the index. *)

Definition bm_byte (s : vmm) (idx : Z) : Z := default 0 (g_bitmap s !! Z.to_nat (Z.shiftr idx 3)).
Definition bm_set (s : vmm) (idx : Z) : vmm :=
  set_map s (<[Z.to_nat (Z.shiftr idx 3) := Z.lor (bm_byte s idx) (u8 (Z.shiftl 1 (Z.land idx 7)))]> (g_bitmap s))
    (u64 (g_free_pages s - 1)).
Definition bm_clear (s : vmm) (idx : Z) : vmm :=
  set_map s (<[Z.to_nat (Z.shiftr idx 3) :=
      Z.land (bm_byte s idx) (u8 (Z.lnot (Z.shiftl 1 (Z.land idx 7))))]> (g_bitmap s))
    (u64 (g_free_pages s + 1)).
Definition bm_test (s : vmm) (idx : Z) : Z := Z.land (Z.shiftr (bm_byte s idx) (Z.land idx 7)) 1.

Definition ref_of (s : vmm) (idx : Z) : Z := default 0 (g_refs s !! Z.to_nat idx).
Definition set_ref (s : vmm) (idx r : Z) : vmm := set_refs s (<[Z.to_nat idx := r]> (g_refs s)).

(** ** The memory map the loader left *)

Definition WUBU_MEMMAP_ADDR : Z := 0x98000.
Definition E820_TYPE_USABLE : Z := 1.

Definition memmap_entry (m : memory) (info : Z * Z * bool) (p : Z) : Z * Z * bool :=
  let '(_, ilen, _) := info in
  let base := get64 m p in
  let len := get64 m (p + 8) in
  let type := get32 m (p + 16) in
  if (type =? E820_TYPE_USABLE) && (len >? ilen) then (base, len, true) else info.

(** The entry count and [base], [len], [found]. *)
Definition wubu_memmap_init (m : memory) : Z * (Z * Z * bool) :=
  let count := le_dec (get_bytes m WUBU_MEMMAP_ADDR 2) in
  if (count =? 0) || (count >? 8) then (0, (0, 0, false))
  else (count, foldl (memmap_entry m) (0, 0, false)
                 ((fun i => WUBU_MEMMAP_ADDR + 2 + 20 * Z.of_nat i) <$> seq 0 (Z.to_nat count))).

(** ** Start-up *)

(** [bm_set] on the page at [p]; [None] is a store outside [g_bitmap]. *)
Definition mark_page (s : option vmm) (p : Z) : option vmm :=
  s ← s;
  let idx := u32 (u64 (p - WUBU_VMM_PHYS_BASE) / PAGE) in
  if idx <? WUBU_VMM_BITMAP_BITS then Some (bm_set s idx) else None.

(** [for (p = b; p < e; p += PAGE)] *)
Definition pages_between (b e : Z) : list Z :=
  (fun i => b + PAGE * Z.of_nat i) <$> seq 0 (Z.to_nat ((e - b + (PAGE - 1)) / PAGE)).
Definition mark_range (s : option vmm) (r : Z * Z) : option vmm :=
  let '(b, e) := r in
  let b := if b <? WUBU_VMM_PHYS_BASE then WUBU_VMM_PHYS_BASE else b in
  let e := if e >? WUBU_VMM_PHYS_END then WUBU_VMM_PHYS_END else e in
  foldl mark_page s (pages_between b e).

Definition link_addr (a : Z) : Z := if 0xffffffff80000000 <=? a then a - 0xffffffff80000000 else a.

Definition used_ranges (kernel_start stack_top : Z) : list (Z * Z) :=
  [ (link_addr kernel_start, link_addr stack_top);
    (0x200000, 0x500000);
    (0x400000, 0x4400000);
    (0x90000, 0x99000);
    (0x70000, 0x78000) ].

(** [kernel_start] and [stack_top] are the linker's symbols. *)
Definition wubu_vmm_init (kernel_start stack_top : Z) (s : vmm) : option vmm :=
  let s := set_refs (set_map s (replicate (Z.to_nat (WUBU_VMM_BITMAP_BITS / 8)) 0) WUBU_VMM_BITMAP_BITS)
             (replicate (Z.to_nat WUBU_VMM_BITMAP_BITS) 0) in
  s ← foldl mark_range (Some s) (used_ranges kernel_start stack_top);
  let '(n, (base, len, found)) := wubu_memmap_init (g_mem s) in
  if (0 <? n) && found then
    let real_end := u64 (base + len) in
    if real_end <? WUBU_VMM_PHYS_END then foldl mark_page (Some s) (pages_between real_end WUBU_VMM_PHYS_END)
    else Some s
  else Some s.

(** ** Allocation *)

(** The first-fit scan from page [i], [k] pages before the end. *)
Fixpoint scan_run (k : nat) (s : vmm) (n i run start : Z) : option Z :=
  match k with
  | O => None
  | S k =>
      if bm_test s i =? 0 then
        let start := if run =? 0 then i else start in
        if run + 1 =? n then Some start else scan_run k s n (i + 1) (run + 1) start
      else scan_run k s n (i + 1) 0 start
  end.

Definition take_page (s : vmm) (j : Z) : vmm := set_ref (bm_set s j) j 1.

Definition wubu_vmm_alloc_pages (s : vmm) (n : Z) : Z * vmm :=
  if (n =? 0) || (n >? 64) then (0, s)
  else match scan_run (Z.to_nat WUBU_VMM_BITMAP_BITS) s n 0 0 0 with
       | None => (0, s)
       | Some start => (WUBU_VMM_PHYS_BASE + start * PAGE, foldl take_page s (seqZ start n))
       end.

(** ** References *)

Definition page_off (phys : Z) : option Z :=
  if phys <? WUBU_VMM_PHYS_BASE then None
  else let off := phys - WUBU_VMM_PHYS_BASE in if off mod PAGE =? 0 then Some off else None.

Definition ref_page (off : Z) (s : vmm) (i : Z) : vmm :=
  let idx := u32 (u32 (off / PAGE) + i) in
  if (idx <? WUBU_VMM_BITMAP_BITS) && negb (bm_test s idx =? 0) && (ref_of s idx <? 0xFFFF)
  then set_ref s idx (ref_of s idx + 1) else s.
Definition wubu_vmm_ref (s : vmm) (phys n : Z) : vmm :=
  match page_off phys with None => s | Some off => foldl (ref_page off) s (seqZ 0 n) end.

Definition wubu_vmm_refcount (s : vmm) (phys : Z) : Z :=
  match page_off phys with
  | None => 0
  | Some off =>
      let idx := u32 (off / PAGE) in
      if WUBU_VMM_BITMAP_BITS <=? idx then 0 else ref_of s idx
  end.

Definition free_page (off : Z) (s : vmm) (i : Z) : vmm :=
  let idx := u32 (u32 (off / PAGE) + i) in
  if (WUBU_VMM_BITMAP_BITS <=? idx) || (bm_test s idx =? 0) then s
  else
    let s := if 0 <? ref_of s idx then set_ref s idx (ref_of s idx - 1) else s in
    if ref_of s idx =? 0 then bm_clear s idx else s.
Definition wubu_vmm_free_pages (s : vmm) (phys n : Z) : vmm :=
  match page_off phys with None => s | Some off => foldl (free_page off) s (seqZ 0 n) end.

(** ** Page tables *)

Definition PML4_BASE : Z := 0x300000.

Definition vmm_phys_of (va : Z) : Z := if 0xffffffff80000000 <=? va then va - 0xffffffff80000000 else va.

Definition ix4 (virt : Z) : Z := Z.land (Z.shiftr virt 39) 0x1FF.
Definition ix3 (virt : Z) : Z := Z.land (Z.shiftr virt 30) 0x1FF.
Definition ix2 (virt : Z) : Z := Z.land (Z.shiftr virt 21) 0x1FF.
Definition ix1 (virt : Z) : Z := Z.land (Z.shiftr virt 12) 0x1FF.

Definition slot_addr (t i : Z) : Z := t + 8 * i.
Definition entry (m : memory) (t i : Z) : Z := get64 m (slot_addr t i).
Definition set_entry (s : vmm) (t i v : Z) : vmm := set_vmem s (put64 (g_mem s) (slot_addr t i) v).
Definition present (e : Z) : bool := negb (Z.land e 1 =? 0).
Definition frame_of (e : Z) : Z := Z.land e (Z.lnot 0xFFF).

Definition zero_page (m : memory) (p : Z) : memory :=
  foldl (fun m i => put64 m (slot_addr p (Z.of_nat i)) 0) m (seq 0 512).
Definition copy_page (m : memory) (dst src : Z) : memory :=
  foldl (fun m i => put64 m (slot_addr dst (Z.of_nat i)) (get64 m (slot_addr src (Z.of_nat i)))) m (seq 0 512).

(** The table entry [i] of table [t] points at, made if there is none: the block
    [wubu_vmm_map_page] has three times. *)
Definition next_table (s : vmm) (t i : Z) : option Z * vmm :=
  let e := entry (g_mem s) t i in
  if present e then (Some (vmm_phys_of (frame_of e)), s)
  else
    let '(tab, s) := wubu_vmm_alloc_pages s 1 in
    if tab =? 0 then (None, s)
    else (Some tab, set_entry (set_vmem s (zero_page (g_mem s) tab)) t i (Z.lor tab 3)).

Definition wubu_vmm_map_page (s : vmm) (virt phys flags : Z) : Z * vmm :=
  match next_table s PML4_BASE (ix4 virt) with
  | (None, s) => (-1, s)
  | (Some pdp, s) =>
      match next_table s pdp (ix3 virt) with
      | (None, s) => (-1, s)
      | (Some pd, s) =>
          match next_table s pd (ix2 virt) with
          | (None, s) => (-1, s)
          | (Some pt, s) => (0, set_entry s pt (ix1 virt) (Z.lor phys (Z.land flags 0xFFF)))
          end
      end
  end.

(** The last-level table of [virt], where the walk finds one. *)
Definition find_pt (m : memory) (virt : Z) : option Z :=
  let e4 := entry m PML4_BASE (ix4 virt) in
  let e3 := entry m (vmm_phys_of (frame_of e4)) (ix3 virt) in
  if negb (present e4) || negb (present e3) then None
  else
    let e2 := entry m (vmm_phys_of (frame_of e3)) (ix2 virt) in
    if negb (present e2) then None else Some (vmm_phys_of (frame_of e2)).

Definition wubu_vmm_unmap (s : vmm) (virt : Z) : Z * vmm :=
  match find_pt (g_mem s) virt with
  | None => (-1, s)
  | Some pt => (0, set_entry s pt (ix1 virt) 0)
  end.

(** ** Demand-zero regions *)

Definition WUBU_VMM_MAX_DEMAND : nat := 4.

Definition wubu_vmm_register_demand (s : vmm) (base pages : Z) : Z * vmm :=
  if Nat.leb WUBU_VMM_MAX_DEMAND (length (g_demand s)) then (0, s)
  else (base, set_demand s (g_demand s ++ [(base, pages)]) (g_demand_faults s)).

Definition wubu_vmm_is_demand (s : vmm) (va : Z) : bool :=
  existsb (fun '(base, pages) => (base <=? va) && (va <? u64 (base + u64 (pages * PAGE)))) (g_demand s).

Definition page_base (va : Z) : Z := Z.land va (Z.lnot (PAGE - 1)).

Definition wubu_vmm_demand_fill (s : vmm) (va : Z) : Z * vmm :=
  if negb (wubu_vmm_is_demand s va) then (-1, s)
  else
    let '(phys, s) := wubu_vmm_alloc_pages s 1 in
    if phys =? 0 then (-1, s)
    else
      let s := set_vmem s (zero_page (g_mem s) phys) in
      let '(r, s) := wubu_vmm_map_page s (page_base va) phys 3 in
      if negb (r =? 0) then (-1, wubu_vmm_free_pages s phys 1)
      else (0, set_demand s (g_demand s) (u32 (g_demand_faults s + 1))).

(** ** Copy-on-write *)

Definition wubu_vmm_map_shared (s : vmm) (virt phys : Z) : Z * vmm :=
  wubu_vmm_map_page (wubu_vmm_ref s phys 1) virt phys 1.

Definition wubu_vmm_cow_fault (s : vmm) (va : Z) : Z * vmm :=
  let pb := page_base va in
  match find_pt (g_mem s) pb with
  | None => (0, s)
  | Some pt =>
      let pte := entry (g_mem s) pt (ix1 pb) in
      if negb (present pte) then (0, s)
      else if negb (Z.land pte 2 =? 0) then (0, s)
      else
        let phys := frame_of pte in
        if wubu_vmm_refcount s phys <=? 1 then (1, set_entry s pt (ix1 pb) (Z.lor pte 2))
        else
          let '(copy, s) := wubu_vmm_alloc_pages s 1 in
          if copy =? 0 then (0, s)
          else
            let s := set_vmem s (copy_page (g_mem s) copy phys) in
            let s := wubu_vmm_free_pages s phys 1 in
            (1, set_entry s pt (ix1 pb) (Z.lor (frame_of copy) 3))
  end.
