(* ===== verification/VmmAlloc.v ===== *)
(** * The page allocator

    Bits and reference counts as functions of the page, first fit, and that the
    allocator's bookkeeping stays consistent. *)

From S2P Require Import Prelude Heap HeapFacts Vmm.
Open Scope Z_scope.

Definition in_map (i : Z) : Prop := 0 <= i < WUBU_VMM_BITMAP_BITS.
#[global] Instance in_map_dec i : Decision (in_map i).
Proof. unfold in_map. apply _. Defined.
Definition used (s : vmm) (i : Z) : bool := Z.testbit (bm_byte s i) (i mod 8).

(** A page that is free has no references. *)
Record alloc_wf (s : vmm) : Prop := {
  wf_map : Z.of_nat (length (g_bitmap s)) = 3584;
  wf_refs : Z.of_nat (length (g_refs s)) = 28672;
  wf_ref_fits i : fits 16 (ref_of s i);
  wf_free_unref i : in_map i -> used s i = false -> ref_of s i = 0 }.

(** [g_free_pages] counts the free pages. *)
Definition count_clear (f : Z -> bool) (l : list Z) : Z := foldr (fun i n => (if f i then 0 else 1) + n) 0 l.
Definition count_free (s : vmm) : Z := count_clear (used s) (seqZ 0 WUBU_VMM_BITMAP_BITS).
Definition counts_free (s : vmm) : Prop := g_free_pages s = count_free s.

Lemma bm_test_used s i : bm_test s i = Z.b2z (used s i).
Proof.
  unfold bm_test, used. change (Z.land i 7) with (Z.land i (Z.ones 3)). rewrite Z.land_ones by lia.
  change 1 with (Z.ones 1) at 1. rewrite Z.land_ones by lia. change (2 ^ 1) with 2. rewrite <- Z.bit0_mod.
  by rewrite Z.shiftr_spec, Z.add_0_l by lia.
Qed.
Lemma bm_test_free s i : (bm_test s i =? 0) = negb (used s i).
Proof. rewrite bm_test_used. by destruct (used s i). Qed.

Lemma idx_bit i : Z.land i 7 = i mod 8.
Proof. change 7 with (Z.ones 3). by rewrite Z.land_ones by lia. Qed.
Lemma idx_byte i : Z.shiftr i 3 = i / 8.
Proof. rewrite Z.shiftr_div_pow2 by lia. done. Qed.

Lemma u8_bit k j : 0 <= k < 8 -> 0 <= j < 8 -> Z.testbit (u8 (Z.shiftl 1 k)) j = bool_decide (j = k).
Proof.
  intros Hk Hj. rewrite wrap_id.
  - rewrite Z.shiftl_1_l. rewrite Z.pow2_bits_eqb by lia. case_bool_decide; lia.
  - rewrite Z.shiftl_1_l. split; [apply Z.pow_nonneg; lia|]. apply Z.pow_lt_mono_r; lia.
Qed.
Lemma u8_notbit k j : 0 <= k < 8 -> 0 <= j < 8 -> Z.testbit (u8 (Z.lnot (Z.shiftl 1 k))) j = negb (bool_decide (j = k)).
Proof.
  intros Hk Hj. unfold wrap. rewrite <- Z.land_ones, Z.land_spec, Z.ones_spec_low by lia. rewrite andb_true_r.
  rewrite Z.lnot_spec by lia. rewrite Z.shiftl_1_l, Z.pow2_bits_eqb by lia. f_equal. case_bool_decide; lia.
Qed.

Lemma bm_byte_insert s s' i v j :
  Z.of_nat (length (g_bitmap s)) = 3584 -> in_map i -> in_map j ->
  g_bitmap s' = <[Z.to_nat (Z.shiftr i 3) := v]> (g_bitmap s) ->
  bm_byte s' j = if decide (i / 8 = j / 8) then v else bm_byte s j.
Proof.
  intros Hl Hi Hj E. unfold bm_byte. rewrite E, !idx_byte. unfold in_map, WUBU_VMM_BITMAP_BITS in *.
  change ((WUBU_VMM_PHYS_END - WUBU_VMM_PHYS_BASE) / PAGE) with 28672 in *.
  destruct (decide (i / 8 = j / 8)) as [->|Hne].
  - rewrite list_lookup_insert_eq; [done|]. apply Nat2Z.inj_lt. rewrite Hl, Z2Nat.id by (apply Z.div_pos; lia).
    apply Z.div_lt_upper_bound; lia.
  - rewrite list_lookup_insert_ne; [done|]. intros H. apply Hne.
    rewrite <- (Z2Nat.id (i / 8)), <- (Z2Nat.id (j / 8)) by (apply Z.div_pos; lia). by rewrite H.
Qed.

Lemma same_bit i j : i / 8 = j / 8 -> (bool_decide (j mod 8 = i mod 8)) = bool_decide (i = j).
Proof.
  intros H. apply bool_decide_ext. pose proof (Z.div_mod i 8). pose proof (Z.div_mod j 8). lia.
Qed.

Lemma used_bm_set s i j : Z.of_nat (length (g_bitmap s)) = 3584 -> in_map i -> in_map j ->
  used (bm_set s i) j = bool_decide (i = j) || used s j.
Proof.
  intros Hl Hi Hj. unfold used. rewrite (bm_byte_insert s (bm_set s i) i _ j Hl Hi Hj eq_refl).
  destruct (decide (i / 8 = j / 8)) as [E|E].
  - rewrite Z.lor_spec, idx_bit, u8_bit, same_bit by (done || apply Z.mod_pos_bound; lia).
    unfold bm_byte. rewrite !idx_byte, E. apply orb_comm.
  - rewrite bool_decide_eq_false_2; [done|]. by intros ->.
Qed.
Lemma used_bm_clear s i j : Z.of_nat (length (g_bitmap s)) = 3584 -> in_map i -> in_map j ->
  used (bm_clear s i) j = negb (bool_decide (i = j)) && used s j.
Proof.
  intros Hl Hi Hj. unfold used. rewrite (bm_byte_insert s (bm_clear s i) i _ j Hl Hi Hj eq_refl).
  destruct (decide (i / 8 = j / 8)) as [E|E].
  - rewrite Z.land_spec, idx_bit, u8_notbit, same_bit by (done || apply Z.mod_pos_bound; lia).
    unfold bm_byte. rewrite !idx_byte, E. apply andb_comm.
  - rewrite bool_decide_eq_false_2; [done|]. by intros ->.
Qed.

Lemma ref_set_ref s i r j : Z.of_nat (length (g_refs s)) = 28672 -> in_map i -> in_map j ->
  ref_of (set_ref s i r) j = if decide (i = j) then r else ref_of s j.
Proof.
  intros Hl Hi Hj. unfold ref_of. cbn [g_refs set_ref set_refs]. unfold in_map in *.
  change WUBU_VMM_BITMAP_BITS with 28672 in *. destruct (decide (i = j)) as [->|Hne].
  - rewrite list_lookup_insert_eq; [done|]. lia.
  - rewrite list_lookup_insert_ne; [done|]. lia.
Qed.
Lemma ref_bm_set s i j : ref_of (bm_set s i) j = ref_of s j.
Proof. done. Qed.
Lemma ref_bm_clear s i j : ref_of (bm_clear s i) j = ref_of s j.
Proof. done. Qed.
Lemma used_set_ref s i r j : used (set_ref s i r) j = used s j.
Proof. done. Qed.

Lemma set_ref_fits s i r : fits 16 r -> (forall j, fits 16 (ref_of s j)) -> forall j, fits 16 (ref_of (set_ref s i r) j).
Proof.
  intros Hr H j. unfold ref_of. cbn [g_refs set_ref set_refs].
  destruct (decide (Z.to_nat i = Z.to_nat j)) as [->|Hne].
  - destruct (decide (Z.to_nat j < length (g_refs s))%nat).
    + by rewrite list_lookup_insert_eq.
    + rewrite list_insert_ge by lia. apply H.
  - rewrite list_lookup_insert_ne by done. apply H.
Qed.

(** ** First fit *)

Definition clear_run (s : vmm) (n st : Z) : Prop := forall j, st <= j < st + n -> used s j = false.

Lemma scan_run_spec s n k : forall i run start,
  0 <= run < n -> 0 <= i - run -> (0 < run -> start = i - run) -> clear_run s run (i - run) ->
  (forall st, 0 <= st < i - run -> ~ clear_run s n st) ->
  match scan_run k s n i run start with
  | Some st => 0 <= st /\ st + n <= i + Z.of_nat k /\ clear_run s n st /\ (forall st', 0 <= st' < st -> ~ clear_run s n st')
  | None => forall st, 0 <= st -> st + n <= i + Z.of_nat k -> ~ clear_run s n st
  end.
Proof.
  induction k as [|k IH]; intros i run start Hrun Hi Hst Hfree Hlow; cbn [scan_run].
  { intros st H0 Hle. apply Hlow. lia. }
  rewrite bm_test_free. destruct (used s i) eqn:E; cbn [negb].
  - replace (i + Z.of_nat (S k)) with (i + 1 + Z.of_nat k) by lia. apply IH; try lia.
    + intros j Hj. lia.
    + intros st Hlt Hf. destruct (decide (st < i - run)) as [Hd|Hd]; [by apply (Hlow st); [lia|]|].
      rewrite Hf in E; [done|lia].
  - assert (clear_run s (run + 1) (i - run)) as Hfree'.
    { intros j Hj. destruct (decide (j = i)) as [->|]; [done|]. apply Hfree. lia. }
    assert ((if run =? 0 then i else start) = i - run) as -> by (destruct (Z.eqb_spec run 0); lia).
    destruct (Z.eqb_spec (run + 1) n) as [<-|].
    + split; [lia|]. split; [lia|]. split; [done|]. exact Hlow.
    + replace (i + Z.of_nat (S k)) with (i + 1 + Z.of_nat k) by lia.
      replace (i - run) with (i + 1 - (run + 1)) in * by lia. apply IH; try lia; done.
Qed.

(** ** Taking pages *)

Lemma take_page_wf s i : alloc_wf s -> in_map i -> alloc_wf (take_page s i).
Proof.
  intros W Hi. constructor.
  - cbn. rewrite length_insert. apply W.
  - cbn. rewrite length_insert. apply W.
  - unfold take_page. apply set_ref_fits; [unfold fits; lia|]. intros j. rewrite ref_bm_set. apply W.
  - intros j Hj. unfold take_page. rewrite used_set_ref, used_bm_set by (done || apply W). intros [E1 E2]%orb_false_elim.
    rewrite ref_set_ref by (done || apply W). apply bool_decide_eq_false_1 in E1.
    case_decide; [done|]. rewrite ref_bm_set. by apply W.
Qed.

Lemma take_pages_spec n : forall s st,
  alloc_wf s -> 0 <= st -> st + Z.of_nat n <= WUBU_VMM_BITMAP_BITS ->
  let s' := foldl take_page s (seqZ st (Z.of_nat n)) in
  alloc_wf s' /\ g_mem s' = g_mem s /\ g_demand s' = g_demand s /\ g_demand_faults s' = g_demand_faults s /\
  forall j, in_map j ->
    used s' j = bool_decide (st <= j < st + Z.of_nat n) || used s j /\
    ref_of s' j = if decide (st <= j < st + Z.of_nat n) then 1 else ref_of s j.
Proof.
  induction n as [|n IH]; intros s st W H0 Hle; cbn zeta.
  { change (seqZ st (Z.of_nat 0)) with (@nil Z). cbn [foldl]. repeat split; [by apply W..| |].
    - rewrite bool_decide_eq_false_2 by lia. done.
    - case_decide; [lia|done]. }
  rewrite seqZ_cons by lia. cbn [foldl]. replace (Z.pred (Z.of_nat (S n))) with (Z.of_nat n) by lia.
  assert (in_map st) as Hin by (unfold in_map; lia).
  destruct (IH (take_page s st) (Z.succ st)) as (W' & Em & Ed & Ef & Hj); [by apply take_page_wf|lia..|].
  split; [done|]. split; [by rewrite Em|]. split; [by rewrite Ed|]. split; [by rewrite Ef|].
  intros j Hin'. destruct (Hj j Hin') as [-> ->]. unfold take_page.
  rewrite used_set_ref, used_bm_set, ref_set_ref, ref_bm_set by (done || apply W). split.
  - rewrite orb_assoc. f_equal. repeat case_bool_decide; (done || lia).
  - repeat case_decide; (done || lia).
Qed.

(** ** Counting free pages *)

Lemma count_clear_ext f g l : (forall j, j ∈ l -> f j = g j) -> count_clear f l = count_clear g l.
Proof.
  induction l as [|j l IH]; intros H; [done|]. cbn [count_clear foldr]. rewrite H by apply list_elem_of_here.
  f_equal. apply IH. intros k Hk. apply H. by apply list_elem_of_further.
Qed.
Lemma count_clear_change f g i l :
  NoDup l -> i ∈ l -> (forall j, j ∈ l -> j <> i -> f j = g j) -> f i = false -> g i = true ->
  count_clear f l = count_clear g l + 1.
Proof.
  intros Hd Hi Hfg Hf Hg. induction Hd as [|j l Hj Hd IH]; [by apply not_elem_of_nil in Hi|].
  cbn [count_clear foldr]. destruct (decide (j = i)) as [->|Hne].
  - rewrite Hf, Hg. fold (count_clear f l) (count_clear g l). rewrite (count_clear_ext f g l); [lia|].
    intros k Hk. apply Hfg; [by apply list_elem_of_further|]. by intros ->.
  - assert (i ∈ l) as Hil by (apply elem_of_cons in Hi as [->|]; done). fold (count_clear f l) (count_clear g l).
    rewrite IH, (Hfg j); [lia|apply list_elem_of_here|done|done|]. intros k Hk. apply Hfg. by apply list_elem_of_further.
Qed.
Lemma count_clear_bound f l : 0 <= count_clear f l <= Z.of_nat (length l).
Proof. induction l as [|j l IH]; cbn [count_clear foldr length]; [lia|]. fold (count_clear f l). destruct (f j); lia. Qed.

Lemma count_free_bound s : 0 <= count_free s <= 28672.
Proof. unfold count_free. pose proof (count_clear_bound (used s) (seqZ 0 WUBU_VMM_BITMAP_BITS)) as H. by rewrite length_seqZ in H. Qed.

Lemma count_free_less s s' i : in_map i -> (forall j, in_map j -> j <> i -> used s j = used s' j) ->
  used s i = false -> used s' i = true -> count_free s = count_free s' + 1.
Proof.
  intros Hi He Hf Ht. apply (count_clear_change _ _ i); try done; [apply NoDup_seqZ|apply elem_of_seqZ, Hi|].
  intros j Hj. apply He. by apply elem_of_seqZ in Hj.
Qed.

(** ** The bookkeeping invariant *)

Definition alloc_inv (s : vmm) : Prop := alloc_wf s /\ counts_free s.

Lemma take_page_inv s i : alloc_inv s -> in_map i -> used s i = false -> alloc_inv (take_page s i).
Proof.
  intros [W C] Hi Hf. split; [by apply take_page_wf|]. unfold counts_free in *.
  assert (forall j, in_map j -> used (take_page s i) j = bool_decide (i = j) || used s j) as Hu.
  { intros j Hj. unfold take_page. rewrite used_set_ref. apply used_bm_set; (done || apply W). }
  pose proof (count_free_less s (take_page s i) i Hi) as E. rewrite !Hu, bool_decide_eq_true_2 in E by done.
  pose proof (count_free_bound (take_page s i)). pose proof (count_free_bound s). cbn [take_page g_free_pages set_ref set_refs bm_set set_map].
  rewrite C, wrap_id; [rewrite E; [lia| |done|done]|unfold fits; rewrite E; [lia| |done|done]];
    intros j Hj Hne; rewrite Hu, bool_decide_eq_false_2 by congruence; done.
Qed.

Lemma set_ref_wf s i r : alloc_wf s -> in_map i -> used s i = true -> fits 16 r -> alloc_wf (set_ref s i r).
Proof.
  intros W Hi Hu Hr. constructor.
  - apply W.
  - cbn. rewrite length_insert. apply W.
  - apply set_ref_fits; [done|apply W].
  - intros j Hj. rewrite used_set_ref, ref_set_ref by (done || apply W). intros Hf. case_decide; [congruence|]. by apply W.
Qed.

Lemma bm_clear_wf s i : alloc_wf s -> in_map i -> ref_of s i = 0 -> alloc_wf (bm_clear s i).
Proof.
  intros W Hi Hr. constructor; [cbn; rewrite length_insert; apply W|apply W|apply W|]. intros j Hj.
  rewrite used_bm_clear, ref_bm_clear by (done || apply W).
  destruct (decide (i = j)) as [<-|Hne]; [done|]. rewrite bool_decide_eq_false_2 by done. by apply W.
Qed.
Lemma bm_clear_count s i : alloc_wf s -> in_map i -> used s i = true -> counts_free s -> counts_free (bm_clear s i).
Proof.
  intros W Hi Hu C. unfold counts_free in *.
  assert (forall j, in_map j -> used (bm_clear s i) j = negb (bool_decide (i = j)) && used s j) as Hc.
  { intros j Hj. apply used_bm_clear; (done || apply W). }
  pose proof (count_free_less (bm_clear s i) s i Hi) as E. rewrite !Hc, bool_decide_eq_true_2 in E by done.
  pose proof (count_free_bound (bm_clear s i)). pose proof (count_free_bound s). cbn [g_free_pages bm_clear set_map].
  rewrite C, wrap_id; [rewrite E; [lia| |done|done]|unfold fits; rewrite E in *; [lia| |done|done|..]];
    intros j Hj Hne; rewrite Hc, bool_decide_eq_false_2 by congruence; done.
Qed.

Lemma u32_in_map x : u32 x < WUBU_VMM_BITMAP_BITS -> in_map (u32 x).
Proof. intros H. split; [|done]. apply (wrap_fits 32 x). lia. Qed.

Lemma ref_page_same off s i :
  (alloc_wf s -> alloc_wf (ref_page off s i)) /\ (forall j, used (ref_page off s i) j = used s j) /\ g_mem (ref_page off s i) = g_mem s /\
  (counts_free s -> counts_free (ref_page off s i)).
Proof.
  unfold ref_page. set (idx := u32 (u32 (off / PAGE) + i)). destruct (Z.ltb_spec idx WUBU_VMM_BITMAP_BITS); [|done].
  rewrite bm_test_free, negb_involutive. cbn [andb]. destruct (used s idx) eqn:Hu; [|done]. cbn [andb].
  destruct (Z.ltb_spec (ref_of s idx) 0xFFFF); [|done]. split; [|done]. intros W. apply set_ref_wf; [done|by apply u32_in_map|done|].
  pose proof (wf_ref_fits s W idx). unfold fits in *. lia.
Qed.

(** Dropping one reference to page [i]; the last one frees it. *)
Record drops (s s' : vmm) (i : Z) : Prop := {
  dr_wf : alloc_wf s';
  dr_mem : g_mem s' = g_mem s;
  dr_demand : g_demand s' = g_demand s;
  dr_faults : g_demand_faults s' = g_demand_faults s;
  dr_used j : in_map j -> used s' j = used s j && negb (bool_decide (j = i /\ ref_of s i <= 1));
  dr_ref j : in_map j -> ref_of s' j = if decide (j = i) then Z.max 0 (ref_of s i - 1) else ref_of s j;
  dr_count : counts_free s -> counts_free s' }.

Definition drop_page (s : vmm) (i : Z) : vmm :=
  let s := if 0 <? ref_of s i then set_ref s i (ref_of s i - 1) else s in
  if ref_of s i =? 0 then bm_clear s i else s.

Lemma drop_page_spec s i : alloc_wf s -> in_map i -> used s i = true -> drops s (drop_page s i) i.
Proof.
  intros W Hi Hu. pose proof (wf_ref_fits s W i) as Hr. unfold fits in Hr. unfold drop_page.
  set (s1 := if 0 <? ref_of s i then set_ref s i (ref_of s i - 1) else s).
  assert (alloc_wf s1 /\ g_mem s1 = g_mem s /\ g_demand s1 = g_demand s /\ g_demand_faults s1 = g_demand_faults s /\
    (forall j, used s1 j = used s j) /\
    (forall j, in_map j -> ref_of s1 j = if decide (j = i) then Z.max 0 (ref_of s i - 1) else ref_of s j) /\
    (counts_free s -> counts_free s1)) as (W1 & E1 & E2 & E3 & Hu1 & Hr1 & C1).
  { unfold s1. destruct (Z.ltb_spec 0 (ref_of s i)).
    - split; [apply set_ref_wf; [done..|unfold fits; lia]|]. repeat (split; [done|]). split; [|done].
      intros j Hj. rewrite ref_set_ref by (done || apply W). repeat case_decide; (congruence || lia).
    - repeat (split; [done|]). split; [|done]. intros j Hj. case_decide; [subst; lia|done]. }
  rewrite (Hr1 i Hi), decide_True by done. destruct (Z.eqb_spec (Z.max 0 (ref_of s i - 1)) 0).
  - constructor; [apply bm_clear_wf; [done..|rewrite Hr1, decide_True by done; lia]|done..| | |].
    + intros j Hj. rewrite used_bm_clear by (done || apply W1). rewrite Hu1, andb_comm. f_equal. f_equal. apply bool_decide_ext. lia.
    + intros j Hj. rewrite ref_bm_clear. by apply Hr1.
    + intros C. apply bm_clear_count; [done..|by rewrite Hu1|by apply C1].
  - constructor; [done..| |done|done]. intros j Hj. rewrite Hu1, bool_decide_eq_false_2 by lia. by rewrite andb_true_r.
Qed.

Lemma free_page_inv off s i : alloc_inv s -> alloc_inv (free_page off s i).
Proof.
  intros [W C]. unfold free_page. set (idx := u32 (u32 (off / PAGE) + i)). fold (drop_page s idx).
  destruct (Z.leb_spec WUBU_VMM_BITMAP_BITS idx); [done|]. assert (in_map idx) as Hin by by apply u32_in_map.
  rewrite bm_test_free. destruct (used s idx) eqn:Hu; [|done]. cbn [orb negb].
  destruct (drop_page_spec s idx W Hin Hu). by split; [|auto].
Qed.

Lemma foldl_inv {A B} (P : A -> Prop) (f : A -> B -> A) l : (forall a b, P a -> P (f a b)) -> forall a, P a -> P (foldl f a l).
Proof. intros H. induction l as [|b l IH]; intros a Ha; [done|]. cbn [foldl]. apply IH, H, Ha. Qed.

Lemma vmm_ref_same s phys n : alloc_wf s ->
  let s' := wubu_vmm_ref s phys n in
  alloc_wf s' /\ (forall j, used s' j = used s j) /\ g_mem s' = g_mem s /\ (counts_free s -> counts_free s').
Proof.
  intros W. unfold wubu_vmm_ref. destruct (page_off phys) as [off|]; [|done]. cbn zeta.
  apply (foldl_inv (fun a => alloc_wf a /\ (forall j, used a j = used s j) /\ g_mem a = g_mem s /\ (counts_free s -> counts_free a))); [|done].
  intros a i (Wa & Ua & Ma & Ca). destruct (ref_page_same off a i) as (H1 & H2 & H3 & H4).
  split; [auto|]. split; [intros j; by rewrite H2|]. split; [by rewrite H3|]. auto.
Qed.
Lemma vmm_ref_inv s phys n : alloc_inv s -> alloc_inv (wubu_vmm_ref s phys n).
Proof. intros [W C]. destruct (vmm_ref_same s phys n W) as (W' & _ & _ & C'). split; auto. Qed.
Lemma free_pages_inv s phys n : alloc_inv s -> alloc_inv (wubu_vmm_free_pages s phys n).
Proof. intros I. unfold wubu_vmm_free_pages. destruct (page_off phys) as [off|]; [|done]. apply foldl_inv; [|done]. intros ? ?. apply free_page_inv. Qed.

Lemma take_pages_inv n : forall s st, alloc_inv s -> 0 <= st -> st + Z.of_nat n <= WUBU_VMM_BITMAP_BITS -> clear_run s (Z.of_nat n) st ->
  alloc_inv (foldl take_page s (seqZ st (Z.of_nat n))).
Proof.
  induction n as [|n IH]; intros s st I H0 Hle Hf; [done|]. rewrite seqZ_cons by lia. cbn [foldl].
  replace (Z.pred (Z.of_nat (S n))) with (Z.of_nat n) by lia. assert (in_map st) as Hin by (unfold in_map; lia).
  apply IH; [apply take_page_inv; [done..|apply Hf; lia]|lia..|]. intros j Hj. unfold take_page.
  rewrite used_set_ref, used_bm_set by (unfold in_map; lia || apply I). rewrite bool_decide_eq_false_2 by lia. apply Hf. lia.
Qed.


(** What an allocation does: nothing, or it takes the lowest run of free pages. *)
Definition page_addr (i : Z) : Z := WUBU_VMM_PHYS_BASE + i * PAGE.

Record takes (s s' : vmm) (st n : Z) : Prop := {
  tk_wf : alloc_wf s';
  tk_mem : g_mem s' = g_mem s;
  tk_demand : g_demand s' = g_demand s;
  tk_faults : g_demand_faults s' = g_demand_faults s;
  tk_used j : in_map j -> used s' j = bool_decide (st <= j < st + n) || used s j;
  tk_ref j : in_map j -> ref_of s' j = if decide (st <= j < st + n) then 1 else ref_of s j;
  tk_count : counts_free s -> counts_free s' }.

Lemma alloc_pages_spec s n : alloc_wf s -> fits 32 n ->
  let '(p, s') := wubu_vmm_alloc_pages s n in
  (p = 0 /\ s' = s /\ (0 < n <= 64 -> forall st, 0 <= st -> st + n <= WUBU_VMM_BITMAP_BITS -> ~ clear_run s n st)) \/
  (exists st, p = page_addr st /\ 0 < n <= 64 /\ 0 <= st /\ st + n <= WUBU_VMM_BITMAP_BITS /\ clear_run s n st /\
     (forall st', 0 <= st' < st -> ~ clear_run s n st') /\ takes s s' st n).
Proof.
  intros W Hn. unfold wubu_vmm_alloc_pages.
  destruct (Z.eqb_spec n 0) as [->|H0]; [left; split; [done|]; split; [done|]; lia|].
  rewrite Z.gtb_ltb. destruct (Z.ltb_spec 64 n) as [H64|H64]; [left; split; [done|]; split; [done|]; lia|].
  cbn [orb]. pose proof (scan_run_spec s n (Z.to_nat WUBU_VMM_BITMAP_BITS) 0 0 0) as Hs.
  assert (0 < n <= 64) as Hn' by (unfold fits in Hn; lia).
  replace (0 + Z.of_nat (Z.to_nat WUBU_VMM_BITMAP_BITS)) with WUBU_VMM_BITMAP_BITS in Hs by done.
  destruct (scan_run _ s n 0 0 0) as [st|].
  - right. destruct Hs as (Hst & Hle & Hf & Hl); [lia..|intros ?; lia|intros ?; lia|].
    exists st. repeat (split; [done|]). destruct (take_pages_spec (Z.to_nat n) s st W) as (W' & Em & Ed & Ef & Hj); [lia..|].
    rewrite Z2Nat.id in * by lia. constructor; try done; [intros j Hin; apply Hj; done..|].
    intros C. pose proof (take_pages_inv (Z.to_nat n) s st) as I. rewrite Z2Nat.id in I by lia. by apply I.
  - left. split; [done|]. split; [done|]. intros _ st Hst Hle. apply Hs; [lia..|intros ?; lia|intros ?; lia|lia|lia].
Qed.

Lemma alloc_pages_inv s n : alloc_inv s -> fits 32 n -> alloc_inv (wubu_vmm_alloc_pages s n).2.
Proof.
  intros [W C] Hn. pose proof (alloc_pages_spec s n W Hn) as H. destruct (wubu_vmm_alloc_pages s n) as [p s'].
  destruct H as [(_ & -> & _)|(st & _ & _ & _ & _ & _ & _ & T)]; [done|]. split; apply T. done.
Qed.

(** ** One page *)

Lemma page_off_addr i : in_map i -> page_off (page_addr i) = Some (i * PAGE).
Proof.
  intros [H0 H1]. unfold page_off, page_addr. unfold PAGE. destruct (Z.ltb_spec (WUBU_VMM_PHYS_BASE + i * 4096) WUBU_VMM_PHYS_BASE); [lia|].
  replace (WUBU_VMM_PHYS_BASE + i * 4096 - WUBU_VMM_PHYS_BASE) with (i * 4096) by lia. by rewrite Z.mod_mul.
Qed.
Lemma page_idx i k : in_map i -> 0 <= k -> i + k <= WUBU_VMM_BITMAP_BITS -> u32 (u32 (i * PAGE / PAGE) + k) = i + k.
Proof.
  intros [H0 H1] Hk Hle. change WUBU_VMM_BITMAP_BITS with 28672 in *. rewrite Z.div_mul by done.
  rewrite (wrap_id 32 i), wrap_id; [done|unfold fits; lia..].
Qed.

Lemma refcount_page s i : in_map i -> wubu_vmm_refcount s (page_addr i) = ref_of s i.
Proof.
  intros Hi. unfold wubu_vmm_refcount. rewrite page_off_addr by done. pose proof (page_idx i 0 Hi) as E. rewrite !Z.add_0_r in E.
  unfold in_map in Hi. rewrite wrap_idemp in E by lia. rewrite E by lia. destruct (Z.leb_spec WUBU_VMM_BITMAP_BITS i); [lia|done].
Qed.

Lemma ref_one s i : in_map i -> used s i = true -> ref_of s i < 0xFFFF ->
  wubu_vmm_ref s (page_addr i) 1 = set_ref s i (ref_of s i + 1).
Proof.
  intros Hi Hu Hr. unfold wubu_vmm_ref. rewrite page_off_addr by done. change (seqZ 0 1) with [0]. cbn [foldl]. unfold ref_page.
  unfold in_map in Hi. rewrite page_idx, Z.add_0_r by (unfold in_map; lia). rewrite bm_test_free, negb_involutive, Hu.
  destruct (Z.ltb_spec i WUBU_VMM_BITMAP_BITS); [|lia]. destruct (Z.ltb_spec (ref_of s i) 0xFFFF); [done|lia].
Qed.

Lemma free_one s i : alloc_wf s -> in_map i -> used s i = true -> drops s (wubu_vmm_free_pages s (page_addr i) 1) i.
Proof.
  intros W Hi Hu. unfold wubu_vmm_free_pages. rewrite page_off_addr by done. change (seqZ 0 1) with [0]. cbn [foldl].
  unfold free_page. pose proof (page_idx i 0 Hi) as E. unfold in_map in Hi. rewrite E, Z.add_0_r by lia. rewrite bm_test_free, Hu.
  destruct (Z.leb_spec WUBU_VMM_BITMAP_BITS i); [lia|]. by apply drop_page_spec.
Qed.

(** The bookkeeping does not depend on memory. *)
Lemma alloc_wf_same s s' : g_bitmap s' = g_bitmap s -> g_refs s' = g_refs s -> alloc_wf s -> alloc_wf s'.
Proof.
  intros E1 E2 W. assert (forall i, ref_of s' i = ref_of s i) as Er by (intros; unfold ref_of; by rewrite E2).
  assert (forall i, used s' i = used s i) as Eu by (intros; unfold used, bm_byte; by rewrite E1).
  constructor; [rewrite E1; apply W|rewrite E2; apply W|intros; rewrite Er; apply W|]. intros i. rewrite Er, Eu. apply W.
Qed.
Lemma counts_free_same s s' : g_bitmap s' = g_bitmap s -> g_free_pages s' = g_free_pages s -> counts_free s -> counts_free s'.
Proof. intros E1 E2. unfold counts_free, count_free, used, bm_byte. by rewrite E1, E2. Qed.
