(* ===== verification/VmmTables.v ===== *)
(** * Page tables

    Address translation as the processor does it, the invariant of the tables, and
    what making a table and writing a last-level entry do to translation. *)

From S2P Require Import Prelude Heap HeapFacts Vmm VmmAlloc.
Open Scope Z_scope.

(** ** Pages of memory *)

Definition mem_ok (m : memory) : Prop := forall x, is_byte (m x).
Definition aligned (p : Z) : Prop := 0 <= p /\ p mod 4096 = 0.

Lemma put_mem_ok m a bs : mem_ok m -> Forall is_byte bs -> mem_ok (put_mem m a bs).
Proof.
  intros Hm Hb x. unfold put_mem. destruct ((a <=? x) && (x <? a + Z.of_nat (length bs))); [|done].
  destruct (bs !! Z.to_nat (x - a)) as [b|] eqn:E; [|cbn; unfold fits; lia].
  by eapply Forall_lookup_1.
Qed.
Lemma put64_ok m a v : mem_ok m -> mem_ok (put64 m a v).
Proof. intros Hm. apply put_mem_ok; [done|apply le_enc_bytes]. Qed.
Lemma get_bytes_ok m a n : mem_ok m -> Forall is_byte (get_bytes m a n).
Proof. intros Hm. unfold get_bytes. apply Forall_fmap, Forall_forall. intros i _. apply Hm. Qed.
Lemma get64_fits m a : mem_ok m -> fits 64 (get64 m a).
Proof.
  intros Hm. unfold get64. pose proof (le_dec_bound (get_bytes m a 8) (get_bytes_ok m a 8 Hm)) as H. by rewrite get_bytes_length in H.
Qed.

Lemma le_enc_dec bs : Forall is_byte bs -> le_enc (length bs) (le_dec bs) = bs.
Proof.
  induction 1 as [|b bs Hb _ IH]; [done|]. cbn [length le_enc le_dec]. unfold fits in Hb.
  f_equal.
  - unfold wrap. change (2 ^ 8) with 256 in *. rewrite (Z.mul_comm 256), Z.mod_add by lia. apply Z.mod_small. lia.
  - replace ((b + 256 * le_dec bs) / 256) with (le_dec bs); [done|]. rewrite (Z.mul_comm 256), Z.div_add, Z.div_small; lia.
Qed.

Lemma put64_get64 m d a : mem_ok m -> put64 m d (get64 m a) = put_mem m d (get_bytes m a 8).
Proof.
  intros Hm. unfold put64, get64. f_equal. pose proof (le_enc_dec (get_bytes m a 8) (get_bytes_ok m a 8 Hm)) as H.
  by rewrite get_bytes_length in H.
Qed.

Lemma put_mem_at m a bs x : put_mem m a bs x =
  if decide (a <= x < a + Z.of_nat (length bs)) then default 0 (bs !! Z.to_nat (x - a)) else m x.
Proof.
  unfold put_mem. case_decide as H.
  - destruct (Z.leb_spec a x), (Z.ltb_spec x (a + Z.of_nat (length bs))); (done || lia).
  - destruct (Z.leb_spec a x), (Z.ltb_spec x (a + Z.of_nat (length bs))); (done || lia).
Qed.

Lemma zero_words_at n m p x :
  foldl (fun m i => put64 m (slot_addr p (Z.of_nat i)) 0) m (seq 0 n) x
  = if decide (p <= x < p + 8 * Z.of_nat n) then 0 else m x.
Proof.
  induction n as [|n IH]; [cbn; case_decide; [lia|done]|].
  rewrite seq_S, foldl_app. cbn [foldl]. unfold put64 at 1. rewrite put_mem_at, length_le_enc. rewrite IH. unfold slot_addr.
  repeat case_decide; try done; try lia. all: destruct (Z.to_nat _) as [|[|[|[|[|[|[|[|k]]]]]]]] eqn:E; try done; lia.
Qed.
Lemma zero_page_at m p x : zero_page m p x = if decide (p <= x < p + 4096) then 0 else m x.
Proof. unfold zero_page. by rewrite zero_words_at. Qed.

Lemma copy_words_at n m dst src : mem_ok m -> dst + 4096 <= src \/ src + 4096 <= dst -> (n <= 512)%nat ->
  let m' := foldl (fun m i => put64 m (slot_addr dst (Z.of_nat i)) (get64 m (slot_addr src (Z.of_nat i)))) m (seq 0 n) in
  mem_ok m' /\ forall x, m' x = if decide (dst <= x < dst + 8 * Z.of_nat n) then m (src + (x - dst)) else m x.
Proof.
  intros Hm Hd. induction n as [|n IH]; intros Hn; cbn zeta; [split; [done|]; intros y; cbn; case_decide; [lia|done]|].
  rewrite seq_S, foldl_app. cbn [foldl]. destruct IH as [Ho IH]; [lia|]. split; [by apply put64_ok|]. intros y.
  rewrite put64_get64 by done. rewrite put_mem_at, get_bytes_length. unfold slot_addr. rewrite IH. case_decide as H1.
  - case_decide; [|lia]. unfold get_bytes. rewrite list_lookup_fmap, lookup_seq_lt by lia. cbn. rewrite IH.
    case_decide; [lia|]. f_equal. lia.
  - repeat case_decide; (done || lia).
Qed.
Lemma copy_page_at m dst src x : mem_ok m -> dst + 4096 <= src \/ src + 4096 <= dst ->
  copy_page m dst src x = if decide (dst <= x < dst + 4096) then m (src + (x - dst)) else m x.
Proof. intros Hm Hd. destruct (copy_words_at 512 m dst src Hm Hd) as [_ H]; [lia|]. apply H. Qed.
Lemma copy_page_ok m dst src : mem_ok m -> dst + 4096 <= src \/ src + 4096 <= dst -> mem_ok (copy_page m dst src).
Proof. intros Hm Hd. by destruct (copy_words_at 512 m dst src Hm Hd) as [H _]; [lia|]. Qed.
Lemma zero_page_ok m p : mem_ok m -> mem_ok (zero_page m p).
Proof. intros Hm x. rewrite zero_page_at. case_decide; [unfold fits; lia|done]. Qed.

(** ** Entries of tables *)

Lemma aligned_apart p q : aligned p -> aligned q -> p <> q -> p + 4096 <= q \/ q + 4096 <= p.
Proof. unfold aligned. intros [? Hp] [? Hq] Hne. apply Z.mod_divide in Hp as [a ->]; [|done]. apply Z.mod_divide in Hq as [b ->]; [|done]. lia. Qed.

Definition is_index (i : Z) : Prop := 0 <= i < 512.

Lemma entry_put m t i v b j : aligned t -> aligned b -> is_index i -> is_index j ->
  entry (put64 m (slot_addr t i) v) b j = if decide (b = t /\ j = i) then u64 v else entry m b j.
Proof.
  intros Ht Hb Hi Hj. unfold is_index in *. unfold entry. case_decide as H; [destruct H as [-> ->]; by apply get64_put64|].
  apply get64_put64_ne. unfold slot_addr. destruct (decide (b = t)) as [->|Hne]; [lia|].
  destruct (aligned_apart b t Hb Ht Hne); lia.
Qed.
Lemma get64_ext m m' a : (forall x, a <= x < a + 8 -> m' x = m x) -> get64 m' a = get64 m a.
Proof. intros H. unfold get64, get_bytes. f_equal. apply list_fmap_ext. intros k i E. apply lookup_seq in E as [-> E]. apply H. lia. Qed.
Lemma entry_zero m p b j : aligned p -> aligned b -> is_index j ->
  entry (zero_page m p) b j = if decide (b = p) then 0 else entry m b j.
Proof.
  intros Hp Hb Hj. unfold is_index in Hj. unfold entry. case_decide as H.
  - subst b. transitivity (get64 (fun _ => 0) (slot_addr p j)); [|done]. apply get64_ext. intros x Hx. rewrite zero_page_at.
    unfold slot_addr in Hx. case_decide; [done|lia].
  - apply get64_ext. intros x Hx. rewrite zero_page_at. unfold slot_addr in Hx.
    destruct (aligned_apart b p Hb Hp H); case_decide; (done || lia).
Qed.

(** ** Translation

    Four-level paging: an entry's bits 51 to 12 are an address, bit 0 says that it
    is present, bit 1 that what it maps may be written, and bit 7 in the second and
    third level that it maps a large page.  The result is the physical address and
    whether it may be written. *)

Definition index (k : nat) (va : Z) : Z := Z.land (Z.shiftr va (39 - 9 * Z.of_nat k)) 0x1FF.
Definition e_addr (e : Z) : Z := Z.land e 0xFFFFFFFFFF000.
Definition large (k : nat) (e : Z) : bool := (Nat.eqb k 1 || Nat.eqb k 2) && Z.testbit e 7.

Fixpoint hw_walk (m : memory) (n k : nat) (t va : Z) (w : bool) : option (Z * bool) :=
  let e := entry m t (index k va) in
  if negb (present e) then None
  else
    let w := w && Z.testbit e 1 in
    match n with
    | O => Some (e_addr e + va mod 4096, w)
    | S n =>
        let size := 2 ^ (39 - 9 * Z.of_nat k) in
        if large k e then Some (e_addr e / size * size + va mod size, w)
        else hw_walk m n (S k) (e_addr e) va w
    end.
Definition translate (m : memory) (va : Z) : option (Z * bool) := hw_walk m 3 0 PML4_BASE va true.

(** The table of level [k] on the way to [va]. *)
Fixpoint tab (m : memory) (k : nat) (va : Z) : option Z :=
  match k with
  | O => Some PML4_BASE
  | S k =>
      t ← tab m k va;
      let e := entry m t (index k va) in
      if present e && negb (large k e) then Some (e_addr e) else None
  end.

Definition agree (k : nat) (va va' : Z) : Prop := forall j, (j < k)%nat -> index j va = index j va'.

(** No large page on the way to [va]. *)
Definition small (m : memory) (va : Z) : Prop :=
  forall k t, (k < 3)%nat -> tab m k va = Some t -> large k (entry m t (index k va)) = false.

(** The tables are a tree of distinct pages that are not free, and the entries
    that link them allow writing and have clean upper bits. *)
Record tables_wf (s : vmm) : Prop := {
  tw_mem : mem_ok (g_mem s);
  tw_page k va t : (k <= 3)%nat -> tab (g_mem s) k va = Some t ->
    aligned t /\ forall i, in_map i -> t = page_addr i -> used s i = true;
  tw_tree k va k' va' t : (k <= 3)%nat -> (k' <= 3)%nat ->
    tab (g_mem s) k va = Some t -> tab (g_mem s) k' va' = Some t -> k = k' /\ agree k va va';
  tw_link k va t : (k < 3)%nat -> tab (g_mem s) k va = Some t ->
    let e := entry (g_mem s) t (index k va) in
    present e = true -> large k e = false -> e < 2 ^ 52 /\ Z.testbit e 1 = true }.

Lemma index_is_index k va : is_index (index k va).
Proof.
  unfold is_index, index. change 0x1FF with (Z.ones 9). rewrite Z.land_ones by lia. apply Z.mod_pos_bound. done.
Qed.
#[export] Hint Resolve index_is_index : wubu.

Lemma agree_refl k va : agree k va va.
Proof. by intros j Hj. Qed.
Lemma agree_sym k va va' : agree k va va' -> agree k va' va.
Proof. intros H j Hj. symmetry. auto. Qed.
Lemma agree_trans k a b c : agree k a b -> agree k b c -> agree k a c.
Proof. intros H1 H2 j Hj. rewrite H1 by done. auto. Qed.
Lemma agree_S k va va' : agree (S k) va va' <-> agree k va va' /\ index k va = index k va'.
Proof.
  split.
  - intros H. split; [intros j Hj|]; apply H; lia.
  - intros [H E] j Hj. destruct (decide (j = k)) as [->|]; [done|]. apply H. lia.
Qed.
#[global] Instance agree_dec k va va' : Decision (agree k va va').
Proof.
  induction k as [|k IH]; [left; intros j; lia|].
  destruct IH as [H|H]; [|right; rewrite agree_S; tauto].
  destruct (decide (index k va = index k va')) as [E|E]; [left|right]; rewrite agree_S; tauto.
Defined.

Lemma tab_agree m k va va' : agree k va va' -> tab m k va = tab m k va'.
Proof.
  induction k as [|k IH]; [done|]. rewrite agree_S. intros [H E]. cbn [tab]. rewrite (IH H). by rewrite E.
Qed.

Lemma tab_S m k va t : tab m k va = Some t ->
  tab m (S k) va = let e := entry m t (index k va) in if present e && negb (large k e) then Some (e_addr e) else None.
Proof. intros H. cbn [tab]. by rewrite H. Qed.

(** ** Entries that link pages *)

Lemma aligned_low p j : aligned p -> 0 <= j < 12 -> Z.testbit p j = false.
Proof.
  intros [H0 Hp] Hj. apply Z.mod_divide in Hp as [q ->]; [|done]. change 4096 with (2 ^ 12). by rewrite Z.mul_pow2_bits_low by lia.
Qed.
Lemma bits_above a w j : 0 <= a < 2 ^ w -> w <= j -> Z.testbit a j = false.
Proof.
  intros Ha Hj. destruct (decide (a = 0)) as [->|]; [apply Z.testbit_0_l|]. apply Z.bits_above_log2; [lia|].
  assert (Z.log2 a < w) by (apply Z.log2_lt_pow2; lia). lia.
Qed.
Lemma mask_bit j : 0 <= j -> Z.testbit 0xFFFFFFFFFF000 j = bool_decide (12 <= j < 52).
Proof.
  intros Hj. change 0xFFFFFFFFFF000 with (Z.shiftl (Z.ones 40) 12). rewrite Z.shiftl_spec by done.
  case_bool_decide.
  - rewrite Z.ones_spec_low by lia. done.
  - destruct (decide (j < 12)); [by rewrite Z.testbit_neg_r by lia|]. by rewrite Z.ones_spec_high by lia.
Qed.

Definition flags_ok (f : Z) : Prop := 0 <= f < 4096.

Lemma link_low p f j : aligned p -> 0 <= j < 12 -> Z.testbit (Z.lor p f) j = Z.testbit f j.
Proof. intros Hp Hj. by rewrite Z.lor_spec, aligned_low. Qed.
Lemma link_sum p f : aligned p -> flags_ok f -> Z.lor p f = p + f.
Proof.
  intros Hp Hf. assert (Z.land p f = 0) as E.
  { apply Z.bits_inj'. intros j Hj. rewrite Z.land_spec, Z.bits_0. destruct (decide (j < 12)); [by rewrite aligned_low|].
    rewrite (bits_above f 12) by (unfold flags_ok in Hf; lia). apply andb_false_r. }
  by rewrite Z.add_nocarry_lxor, Z.lxor_lor.
Qed.
Lemma link_addr_of p f : aligned p -> p < 2 ^ 52 -> flags_ok f -> e_addr (Z.lor p f) = p.
Proof.
  intros Hp H52 Hf. apply Z.bits_inj'. intros j Hj. unfold e_addr. rewrite Z.land_spec, mask_bit by done.
  destruct Hp as [H0 Hp]. case_bool_decide as H; rewrite ?andb_true_r, ?andb_false_r.
  - rewrite Z.lor_spec. rewrite (bits_above f 12) by (unfold flags_ok in Hf; lia). apply orb_false_r.
  - symmetry. destruct (decide (j < 12)); [by apply aligned_low|]. apply (bits_above p 52); lia.
Qed.
Lemma frame_addr e : 0 <= e < 2 ^ 52 -> frame_of e = e_addr e.
Proof.
  intros He. apply Z.bits_inj'. intros j Hj. unfold frame_of, e_addr. rewrite !Z.land_spec, mask_bit, Z.lnot_spec by done.
  change 0xFFF with (Z.ones 12). destruct (decide (j < 12)).
  - rewrite Z.ones_spec_low, bool_decide_eq_false_2 by lia. done.
  - rewrite Z.ones_spec_high by lia. destruct (decide (j < 52)); [by rewrite bool_decide_eq_true_2 by lia|].
    by rewrite (bits_above e 52) by lia.
Qed.
Lemma present_bit e : present e = Z.testbit e 0.
Proof.
  unfold present. change 1 with (Z.ones 1) at 1. rewrite Z.land_ones by lia. change (2 ^ 1) with 2. rewrite <- Z.bit0_mod.
  by destruct (Z.testbit e 0).
Qed.
Lemma e_addr_aligned e : 0 <= e -> aligned (e_addr e) /\ e_addr e < 2 ^ 52.
Proof.
  intros He. assert (0 <= e_addr e) as H0 by (apply Z.land_nonneg; lia). split; [split; [done|]|].
  - change 4096 with (2 ^ 12). rewrite <- Z.land_ones by lia. apply Z.bits_inj'. intros j Hj.
    unfold e_addr. rewrite !Z.land_spec, mask_bit, Z.bits_0 by done. case_bool_decide.
    + rewrite Z.ones_spec_high by lia. apply andb_false_r.
    + by rewrite andb_false_r.
  - assert (e_addr e = Z.land (e_addr e) (Z.ones 52)) as ->.
    + apply Z.bits_inj'. intros j Hj. unfold e_addr. rewrite !Z.land_spec, mask_bit by done. case_bool_decide.
      * rewrite Z.ones_spec_low by lia. by rewrite !andb_true_r.
      * by rewrite !andb_false_r.
    + rewrite Z.land_ones by lia. by apply Z.mod_pos_bound.
Qed.
Lemma phys_of_small a : a < 2 ^ 52 -> vmm_phys_of a = a.
Proof. intros H. unfold vmm_phys_of. destruct (Z.leb_spec 0xffffffff80000000 a); [|done]. lia. Qed.

Lemma page_addr_aligned i : in_map i -> aligned (page_addr i) /\ page_addr i < 2 ^ 52.
Proof.
  intros [H0 H1]. change WUBU_VMM_BITMAP_BITS with 28672 in *. unfold page_addr, PAGE. change WUBU_VMM_PHYS_BASE with (4096 * 4096).
  split; [split; [lia|]|lia]. rewrite <- Z.mul_add_distr_r. by apply Z.mod_mul.
Qed.
Lemma page_addr_inj i j : page_addr i = page_addr j -> i = j.
Proof. unfold page_addr, PAGE. lia. Qed.

(** ** Translation and the tables on the way *)

Lemma tab_mono m k va t : tab m (S k) va = Some t -> exists t', tab m k va = Some t'.
Proof. cbn [tab]. destruct (tab m k va) as [t'|]; [eauto|done]. Qed.

Lemma translate_from s k va t : tables_wf s -> (k <= 3)%nat -> tab (g_mem s) k va = Some t ->
  translate (g_mem s) va = hw_walk (g_mem s) (3 - k) k t va true.
Proof.
  intros W. revert t. induction k as [|k IH]; intros t Hk Ht.
  { cbn in Ht. by simplify_eq. }
  destruct (tab_mono _ _ _ _ Ht) as [t0 Ht0]. rewrite (IH t0) by (lia || done). rewrite (tab_S _ _ _ _ Ht0) in Ht. cbn zeta in Ht.
  replace (3 - k)%nat with (S (3 - S k)) by lia. cbn [hw_walk].
  pose proof (tw_link s W k va t0 ltac:(lia) Ht0) as HL. cbn zeta in HL.
  destruct (present (entry (g_mem s) t0 (index k va))); [|done]. destruct (large k (entry (g_mem s) t0 (index k va))); [done|].
  cbn [negb andb] in *. simplify_eq. by rewrite (proj2 (HL eq_refl eq_refl)).
Qed.

(** The processor reads only tables on the way: where their entries agree, so do
    translations. *)
Lemma walk_same m m' va n : forall k t w, (k + n = 3)%nat -> tab m k va = Some t ->
  (forall j b, (k <= j <= 3)%nat -> tab m j va = Some b -> entry m' b (index j va) = entry m b (index j va)) ->
  hw_walk m' n k t va w = hw_walk m n k t va w.
Proof.
  induction n as [|n IH]; intros k t w Hk Ht H; cbn [hw_walk]; rewrite (H k t) by (lia || done); [done|].
  pose proof (tab_S _ _ _ _ Ht) as HS. cbn zeta in HS.
  destruct (present (entry m t (index k va))); [|done]. destruct (large k (entry m t (index k va))); [done|]. cbn [negb andb] in *.
  apply IH; [lia|done|]. intros j b Hj. apply H. lia.
Qed.

(** ** Writing an entry of the last level *)

Section leaf.
Context (s : vmm) (W : tables_wf s) (va t v : Z) (Ht : tab (g_mem s) 3 va = Some t) (Hv : fits 64 v).
Let s' := set_entry s t (index 3 va) v.

Lemma leaf_entry b j k va' : (k <= 3)%nat -> tab (g_mem s) k va' = Some b -> is_index j ->
  entry (g_mem s') b j = if decide (b = t /\ j = index 3 va) then v else entry (g_mem s) b j.
Proof.
  intros Hk Hb Hj. cbn [s' set_entry g_mem set_vmem]. rewrite entry_put; [|eapply (tw_page s W 3 va); done || lia|
    by eapply (tw_page s W k va')|apply index_is_index|done]. by rewrite (wrap_id 64 v Hv).
Qed.

Lemma leaf_tab k va' : (k <= 3)%nat -> tab (g_mem s') k va' = tab (g_mem s) k va'.
Proof.
  induction k as [|k IH]; intros Hk; [done|]. cbn [tab]. rewrite IH by lia.
  destruct (tab (g_mem s) k va') as [b|] eqn:E; [|done]. cbn [mbind option_bind].
  rewrite (leaf_entry b _ k va') by (lia || done || apply index_is_index).
  case_decide as H; [|done]. destruct H as [-> _].
  destruct (tw_tree s W k va' 3 va t) as [-> _]; (lia || done).
Qed.

Lemma leaf_wf : tables_wf s'.
Proof.
  constructor.
  - apply put64_ok, W.
  - intros k va' b Hk. rewrite leaf_tab by done. apply (tw_page s W k va' b Hk).
  - intros k va1 k' va2 b Hk Hk'. rewrite !leaf_tab by done. by apply (tw_tree s W).
  - intros k va' b Hk. rewrite leaf_tab by lia. intros Hb. rewrite (leaf_entry b _ k va') by (lia || done || apply index_is_index).
    case_decide as H; [|by apply (tw_link s W)]. destruct H as [-> _].
    destruct (tw_tree s W k va' 3 va t) as [-> _]; (lia || done).
Qed.

Lemma leaf_translate va' : translate (g_mem s') va' =
  if decide (agree 4 va va') then (if present v then Some (e_addr v + va' mod 4096, Z.testbit v 1) else None)
  else translate (g_mem s) va'.
Proof.
  case_decide as H.
  - assert (tab (g_mem s') 3 va' = Some t) as Ht'.
    { rewrite leaf_tab by lia. rewrite <- Ht. symmetry. apply tab_agree. intros j Hj. apply H. lia. }
    rewrite (translate_from s' 3 va' t leaf_wf) by (lia || done). cbn [hw_walk Nat.sub].
    rewrite (leaf_entry t _ 3 va) by (lia || done || apply index_is_index).
    rewrite decide_True by (split; [done|]; symmetry; apply H; lia). by destruct (present v).
  - unfold translate. apply walk_same; [done|done|]. intros j b Hj Hb.
    rewrite (leaf_entry b _ j va') by (lia || done || apply index_is_index). case_decide as H'; [|done]. destruct H' as [-> E].
    exfalso. destruct (tw_tree s W j va' 3 va t) as [-> Ha]; try (lia || done). apply H, agree_S. split; [by apply agree_sym|done].
Qed.
End leaf.

(** ** Linking a new table

    [s1] is [s] after allocating page [i], which was free. *)

Section grow.
Context (s s1 : vmm) (W : tables_wf s) (k : nat) (va t i : Z).
Context (Hk : (k < 3)%nat) (Ht : tab (g_mem s) k va = Some t).
Context (Hnp : present (entry (g_mem s) t (index k va)) = false).
Context (Hi : in_map i) (Hfree : used s i = false) (T : takes s s1 i 1).
Let p := page_addr i.
Let s' := set_entry (set_vmem s1 (zero_page (g_mem s1) p)) t (index k va) (Z.lor p 3).

Lemma grow_fresh j va' b : (j <= 3)%nat -> tab (g_mem s) j va' = Some b -> b <> p.
Proof. intros Hj Hb ->. destruct (tw_page s W j va' p Hj Hb) as [_ H]. rewrite (H i) in Hfree; done. Qed.

Lemma grow_entry b j : aligned b -> is_index j ->
  entry (g_mem s') b j
  = if decide (b = t /\ j = index k va) then Z.lor p 3 else if decide (b = p) then 0 else entry (g_mem s) b j.
Proof.
  intros Hb Hj. cbn [s' set_entry g_mem set_vmem]. destruct (page_addr_aligned i Hi) as [Hp H52].
  rewrite entry_put; [|by eapply (tw_page s W k va); [lia|]|done|apply index_is_index|done].
  rewrite entry_zero by done. rewrite (tk_mem _ _ _ _ T). case_decide; [|done]. apply wrap_id.
  rewrite link_sum by (done || unfold flags_ok; lia). fold p in Hp, H52. unfold fits. destruct Hp. lia.
Qed.

Lemma link_entry : present (Z.lor p 3) = true /\ large k (Z.lor p 3) = false /\ e_addr (Z.lor p 3) = p /\ Z.lor p 3 < 2 ^ 52 /\
  Z.testbit (Z.lor p 3) 1 = true.
Proof.
  destruct (page_addr_aligned i Hi) as [Hp H52]. fold p in Hp, H52. rewrite present_bit. unfold large.
  rewrite !link_low, link_addr_of by (done || unfold flags_ok; lia).
  split; [done|]. split; [apply andb_false_r|]. split; [done|]. split; [|done].
  rewrite link_sum by (done || unfold flags_ok; lia). destruct Hp as [H0 Hp].
  apply Z.mod_divide in Hp as [q Hq]; [|done]. change (2 ^ 52) with (2 ^ 40 * 4096) in *. lia.
Qed.

Lemma grow_tab j va' : (j <= 3)%nat ->
  tab (g_mem s') j va' = if decide (j = S k /\ agree (S k) va va') then Some p else tab (g_mem s) j va'.
Proof.
  destruct link_entry as (L1 & L2 & L3 & _). induction j as [|j IH]; intros Hj; [by rewrite decide_False by lia|].
  cbn [tab]. rewrite IH by lia. clear IH. destruct (page_addr_aligned i Hi) as [Hp H52]. fold p in Hp, H52.
  assert (forall va', agree k va va' -> tab (g_mem s) k va' = Some t) as Hag.
  { intros va0 H. rewrite <- Ht. symmetry. by apply tab_agree. }
  destruct (decide (j = S k /\ agree (S k) va va')) as [[-> Ha]|Hn].
  - rewrite (decide_False (P := S (S k) = S k /\ _)) by lia. cbn [mbind option_bind]. rewrite grow_entry by (done || apply index_is_index).
    apply agree_S in Ha as [Ha Ha']. rewrite decide_False by (intros [E _]; by apply (grow_fresh k va t); [lia|done|]).
    rewrite decide_True by done. cbn [present negb andb tab]. rewrite (Hag _ Ha). cbn [mbind option_bind]. rewrite <- Ha', Hnp. done.
  - destruct (tab (g_mem s) j va') as [b|] eqn:Eb; cbn [mbind option_bind].
    + assert (aligned b) as Hal by (eapply (tw_page s W j va'); [lia|done]). rewrite grow_entry by (done || apply index_is_index).
      rewrite (decide_False (P := b = p)) by (eapply grow_fresh; [|done]; lia).
      destruct (decide (b = t /\ index j va' = index k va)) as [[-> E]|Hne].
      * destruct (tw_tree s W j va' k va t) as [-> Ha]; [lia..|done|done|].
        rewrite L1, L2, L3. cbn [negb andb]. rewrite decide_True; [done|]. split; [done|]. apply agree_S. by split; [apply agree_sym|].
      * rewrite decide_False; [done|]. intros [Ejk Ha]. injection Ejk as ->. apply agree_S in Ha as [Ha E].
        apply Hne. rewrite (Hag _ Ha) in Eb. by simplify_eq.
    + rewrite decide_False; [done|]. intros [Ejk Ha]. injection Ejk as ->. apply agree_S in Ha as [Ha E]. by rewrite (Hag _ Ha) in Eb.
Qed.

Lemma grow_wf : tables_wf s'.
Proof.
  destruct link_entry as (L1 & L2 & L3 & L4 & L5). destruct (page_addr_aligned i Hi) as [Hp H52]. fold p in Hp, H52.
  constructor.
  - apply put64_ok, zero_page_ok. rewrite (tk_mem _ _ _ _ T). apply W.
  - intros j va' b Hj. rewrite grow_tab by done. case_decide.
    + intros [= <-]. split; [done|]. intros i' Hi' E. apply page_addr_inj in E as <-. change (used s' i) with (used s1 i).
      rewrite (tk_used _ _ _ _ T) by done. by rewrite bool_decide_eq_true_2 by lia.
    + intros Hb. destruct (tw_page s W j va' b Hj Hb) as [Hal Hu]. split; [done|]. intros i' Hi' E.
      change (used s' i') with (used s1 i'). rewrite (tk_used _ _ _ _ T), (Hu i') by done. apply orb_true_r.
  - intros j va1 j' va2 b Hj Hj'. rewrite !grow_tab by done. case_decide as D1; case_decide as D2; intros H1 H2.
    + destruct D1 as [-> A1], D2 as [-> A2]. split; [done|]. eapply agree_trans; [by apply agree_sym|done].
    + apply grow_fresh in H2; [|done]. congruence.
    + apply grow_fresh in H1; [|done]. congruence.
    + by apply (tw_tree s W j va1 j' va2 b).
  - intros j va' b Hj. rewrite grow_tab by lia. case_decide as Hd.
    + intros [= <-]. cbn zeta. rewrite grow_entry by (done || apply index_is_index).
      rewrite decide_False by (intros [E _]; by apply (grow_fresh k va t); [lia|done|]). by rewrite decide_True.
    + intros Hb. assert (aligned b) as Hal by (eapply (tw_page s W j va'); [lia|done]). cbn zeta. rewrite grow_entry by (done || apply index_is_index).
      case_decide; [by destruct_and!; auto|]. rewrite decide_False by (eapply grow_fresh; [|done]; lia). by apply (tw_link s W).
Qed.

Lemma grow_translate va' : translate (g_mem s') va' = translate (g_mem s) va'.
Proof.
  destruct (page_addr_aligned i Hi) as [Hp H52]. fold p in Hp, H52.
  destruct (decide (agree (S k) va va')) as [Ha|Hn].
  - assert (tab (g_mem s') (S k) va' = Some p) as Hp' by (rewrite grow_tab by lia; by rewrite decide_True).
    rewrite (translate_from s' (S k) va' p grow_wf) by (lia || done). apply agree_S in Ha as [Ha Ha'].
    rewrite (translate_from s k va' t W) by (lia || (rewrite <- Ht; symmetry; by apply tab_agree)).
    assert (entry (g_mem s') p (index (S k) va') = 0) as E0.
    { rewrite grow_entry by (done || apply index_is_index). rewrite decide_False by (intros [E _]; by apply (grow_fresh k va t); [lia|done|]). by rewrite decide_True. }
    replace (3 - k)%nat with (S (3 - S k)) by lia. cbn [hw_walk]. rewrite <- Ha', Hnp. cbn [negb].
    destruct (3 - S k)%nat; cbn [hw_walk]; by rewrite E0.
  - unfold translate. apply walk_same; [done|done|]. intros j b Hj Hb.
    rewrite grow_entry by (apply index_is_index || (eapply (tw_page s W j va'); [lia|done])).
    rewrite (decide_False (P := b = p)) by (eapply grow_fresh; [|done]; lia). case_decide as H; [|done]. destruct H as [-> E].
    exfalso. destruct (tw_tree s W j va' k va t) as [-> Ha]; [lia..|done|done|]. apply Hn, agree_S. by split; [apply agree_sym|].
Qed.
End grow.
