(* ===== verification/VmmMap.v ===== *)
(** * Mapping and unmapping

    The operations on page tables against a map from virtual pages to frames, and
    what they leave alone: every page that is neither a table nor free. *)

From S2P Require Import Prelude Heap HeapFacts Vmm VmmAlloc VmmTables.
Open Scope Z_scope.

(** Virtual addresses of one page: bits 47 to 12 are those the processor uses. *)
Definition same_page (a b : Z) : Prop := (a / 4096) mod 2 ^ 36 = (b / 4096) mod 2 ^ 36.
#[global] Instance same_page_dec a b : Decision (same_page a b).
Proof. unfold same_page. apply _. Defined.

Lemma index_digit k va : (k <= 3)%nat -> index k va = (va / 4096) / 512 ^ (3 - Z.of_nat k) mod 512.
Proof.
  intros Hk. unfold index. rewrite Z.shiftr_div_pow2 by lia. change 0x1FF with (Z.ones 9). rewrite Z.land_ones by lia.
  f_equal. rewrite Z.div_div by (lia || (apply Z.pow_pos_nonneg; lia)). f_equal. change 512 with (2 ^ 9). change 4096 with (2 ^ 12).
  rewrite <- Z.pow_mul_r, <- Z.pow_add_r by lia. f_equal. lia.
Qed.
Lemma agree_page a b : agree 4 a b <-> same_page a b.
Proof.
  assert (forall x, x mod 2 ^ 36 = x / 512 ^ 0 mod 512 + 512 * (x / 512 ^ 1 mod 512 + 512 * (x / 512 ^ 2 mod 512 + 512 * (x / 512 ^ 3 mod 512)))) as E.
  { intros x. change (512 ^ 0) with 1. change (512 ^ 1) with 512. change (512 ^ 2) with (512 * 512). change (512 ^ 3) with (512 * 512 * 512).
    rewrite Z.div_1_r, <- !Z.div_div by lia. change (2 ^ 36) with (512 * (512 * (512 * 512))). rewrite !Z.rem_mul_r by lia. done. }
  unfold same_page. rewrite !E. split.
  - intros H. pose proof (H 0%nat ltac:(lia)) as H0. pose proof (H 1%nat ltac:(lia)) as H1.
    pose proof (H 2%nat ltac:(lia)) as H2. pose proof (H 3%nat ltac:(lia)) as H3. rewrite !index_digit in * by lia.
    change (3 - Z.of_nat 0) with 3 in H0. change (3 - Z.of_nat 1) with 2 in H1. change (3 - Z.of_nat 2) with 1 in H2. change (3 - Z.of_nat 3) with 0 in H3.
    by rewrite H0, H1, H2, H3.
  - intros H j Hj. rewrite !index_digit by lia.
    assert (forall c k, 0 <= c / 512 ^ k mod 512 < 512) as Hb by (intros; by apply Z.mod_pos_bound).
    pose proof (Hb (a / 4096) 0). pose proof (Hb (a / 4096) 1). pose proof (Hb (a / 4096) 2). pose proof (Hb (a / 4096) 3).
    pose proof (Hb (b / 4096) 0). pose proof (Hb (b / 4096) 1). pose proof (Hb (b / 4096) 2). pose proof (Hb (b / 4096) 3).
    destruct j as [|[|[|[|j]]]]; [change (3 - Z.of_nat 0) with 3|change (3 - Z.of_nat 1) with 2|change (3 - Z.of_nat 2) with 1|change (3 - Z.of_nat 3) with 0|lia]; lia.
Qed.

(** ** What a step leaves alone *)

Definition vmm_inv (s : vmm) : Prop := alloc_wf s /\ tables_wf s.
Definition is_table (m : memory) (t : Z) : Prop := exists k va, (k <= 3)%nat /\ tab m k va = Some t.

Record data_page (s : vmm) (q : Z) : Prop := {
  dp_aligned : aligned q;
  dp_data : ~ is_table (g_mem s) q;
  dp_used i : in_map i -> q = page_addr i -> used s i = true }.
Definition page_same (m m' : memory) (q : Z) : Prop := forall o, 0 <= o < 4096 -> m' (q + o) = m (q + o).
Definition keeps (s s' : vmm) : Prop := forall q, data_page s q -> data_page s' q /\ page_same (g_mem s) (g_mem s') q.

Lemma keeps_data_refl s : keeps s s.
Proof. by intros q H. Qed.
Lemma keeps_data_trans a b c : keeps a b -> keeps b c -> keeps a c.
Proof. intros H1 H2 q Hq. destruct (H1 q Hq) as [Hb E1]. destruct (H2 q Hb) as [Hc E2]. split; [done|]. intros o Ho. by rewrite E2, E1. Qed.

(** A step that changes no translation. *)
Record quiet (s s' : vmm) : Prop := {
  q_inv : vmm_inv s';
  q_translate va : translate (g_mem s') va = translate (g_mem s) va;
  q_keeps : keeps s s';
  q_used i : in_map i -> used s i = true -> used s' i = true /\ ref_of s' i = ref_of s i;
  q_demand : g_demand s' = g_demand s /\ g_demand_faults s' = g_demand_faults s;
  q_count : counts_free s -> counts_free s' }.

Lemma quiet_refl s : vmm_inv s -> quiet s s.
Proof. intros I. constructor; auto using keeps_data_refl. Qed.
Lemma quiet_trans a b c : quiet a b -> quiet b c -> quiet a c.
Proof.
  intros Q1 Q2. constructor.
  - apply Q2.
  - intros va. by rewrite (q_translate _ _ Q2), (q_translate _ _ Q1).
  - eapply keeps_data_trans; [apply Q1|apply Q2].
  - intros i Hi Hu. destruct (q_used _ _ Q1 i Hi Hu) as [Hu' <-]. by apply Q2.
  - by rewrite (proj1 (q_demand _ _ Q2)), (proj2 (q_demand _ _ Q2)), (proj1 (q_demand _ _ Q1)), (proj2 (q_demand _ _ Q1)).
  - intros C. by apply Q2, Q1.
Qed.

Definition memory_full (s : vmm) : Prop := forall i, in_map i -> used s i = true.

(** ** One page *)

Lemma alloc_one s : alloc_wf s ->
  let '(p, s') := wubu_vmm_alloc_pages s 1 in
  (p = 0 /\ s' = s /\ memory_full s) \/
  exists i, p = page_addr i /\ p <> 0 /\ in_map i /\ used s i = false /\ (forall j, 0 <= j < i -> used s j = true) /\ takes s s' i 1.
Proof.
  intros A. pose proof (alloc_pages_spec s 1 A ltac:(unfold fits; lia)) as H. destruct (wubu_vmm_alloc_pages s 1) as [p s'].
  destruct H as [(-> & -> & H)|(i & -> & _ & H0 & Hle & Hf & Hl & T)].
  - left. split; [done|]. split; [done|]. intros i [Hi0 Hi1]. destruct (used s i) eqn:E; [done|].
    exfalso. apply (H ltac:(lia) i Hi0); [lia|]. intros j Hj. by replace j with i by lia.
  - right. exists i. assert (in_map i) as Hin by (unfold in_map; lia). split; [done|]. split.
    { unfold page_addr, PAGE, WUBU_VMM_PHYS_BASE. lia. }
    split; [done|]. split; [apply Hf; lia|]. split; [|done]. intros j Hj. destruct (used s j) eqn:E; [done|].
    exfalso. apply (Hl j Hj). intros j' Hj'. by replace j' with j by lia.
Qed.

(** A page is a table or data from the moment it is taken. *)
Lemma takes_used s s' i j : takes s s' i 1 -> in_map j -> used s' j = bool_decide (j = i) || used s j.
Proof. intros T Hj. rewrite (tk_used _ _ _ _ T) by done. f_equal. apply bool_decide_ext. lia. Qed.
Lemma takes_ref s s' i j : takes s s' i 1 -> in_map j -> j <> i -> ref_of s' j = ref_of s j.
Proof. intros T Hj Hne. rewrite (tk_ref _ _ _ _ T) by done. case_decide; [lia|done]. Qed.

Lemma same_put64 m t i v q : aligned t -> aligned q -> is_index i -> q <> t -> page_same m (put64 m (slot_addr t i) v) q.
Proof.
  intros Ht Hq Hi Hne o Ho. apply put64_out. unfold slot_addr, is_index in *. destruct (aligned_apart q t Hq Ht Hne); lia.
Qed.

(** Tables do not mind pages being taken. *)
Lemma tables_wf_used s s' : tables_wf s -> g_mem s' = g_mem s -> (forall i, in_map i -> used s i = true -> used s' i = true) -> tables_wf s'.
Proof.
  intros W E Hu. constructor; rewrite E; try apply W. intros k va t Hk Ht. destruct (tw_page s W k va t Hk Ht) as [Ha Hp].
  split; [done|]. intros i Hi Ei. apply Hu; [done|]. by apply Hp.
Qed.
Lemma alloc_keeps_inv s n : vmm_inv s -> fits 32 n -> vmm_inv (wubu_vmm_alloc_pages s n).2.
Proof.
  intros [A W] Hn. pose proof (alloc_pages_spec s n A Hn) as H. destruct (wubu_vmm_alloc_pages s n) as [p s'].
  destruct H as [(_ & -> & _)|(st & _ & _ & _ & _ & _ & _ & T)]; [done|]. split; [apply T|].
  apply (tables_wf_used s); [done|apply T|]. intros i Hi Hu. cbn. rewrite (tk_used _ _ _ _ T), Hu by done. apply orb_true_r.
Qed.
Lemma ref_keeps_inv s phys n : vmm_inv s -> vmm_inv (wubu_vmm_ref s phys n).
Proof.
  intros [A W]. destruct (vmm_ref_same s phys n A) as (A' & U & M & _). split; [done|]. apply (tables_wf_used s); [done|done|].
  intros i _ Hu. by rewrite U.
Qed.

(** ** Making tables *)

Lemma grow_quiet s s1 k va t i : vmm_inv s -> (k < 3)%nat -> tab (g_mem s) k va = Some t ->
  present (entry (g_mem s) t (index k va)) = false -> in_map i -> used s i = false -> takes s s1 i 1 ->
  let s' := set_entry (set_vmem s1 (zero_page (g_mem s1) (page_addr i))) t (index k va) (Z.lor (page_addr i) 3) in
  quiet s s' /\ tab (g_mem s') (S k) va = Some (page_addr i) /\ (small (g_mem s) va -> small (g_mem s') va).
Proof.
  intros [A W] Hk Ht Hnp Hi Hf T s'. destruct (tw_page s W k va t ltac:(lia) Ht) as [Hta Htu].
  destruct (page_addr_aligned i Hi) as [Hpa Hp52].
  pose proof (fun j va' => grow_tab s s1 W k va t i Hk Ht Hnp Hi Hf T j va') as Htab. cbn zeta in Htab. fold s' in Htab.
  split; [constructor|split].
  - split; [by apply (alloc_wf_same s1), T|]. by apply (grow_wf s s1 W k va t i).
  - intros va'. by apply (grow_translate s s1 W k va t i).
  - intros q [Hq1 Hq2 Hq3]. assert (q <> page_addr i) as Hqi by (intros ->; rewrite (Hq3 i) in Hf; done).
    assert (q <> t) as Hqt by (intros ->; apply Hq2; exists k, va; split; [lia|done]). split; [constructor; [done| |]|].
    + intros (j & va' & Hj & E). rewrite Htab in E by done. case_decide; [congruence|]. apply Hq2. by exists j, va'.
    + intros j Hj Ej. change (used s' j) with (used s1 j). rewrite (takes_used _ _ _ _ T Hj), (Hq3 j Hj Ej). apply orb_true_r.
    + intros o Ho. cbn [s' set_entry g_mem set_vmem]. rewrite (same_put64 _ t (index k va)) by (done || apply index_is_index).
      rewrite zero_page_at, (tk_mem _ _ _ _ T). destruct (aligned_apart q (page_addr i) Hq1 Hpa Hqi); case_decide; (done || lia).
  - intros j Hj Hu. change (used s' j) with (used s1 j). change (ref_of s' j) with (ref_of s1 j).
    rewrite (takes_used _ _ _ _ T Hj), Hu, orb_true_r. split; [done|]. apply (takes_ref _ _ _ _ T Hj). congruence.
  - split; apply T.
  - intros C. by apply (counts_free_same s1), T.
  - rewrite Htab by lia. by rewrite decide_True by (split; [done|apply agree_refl]).
  - intros Hsm j b Hj. rewrite Htab by lia. destruct (link_entry k i Hk Hi) as (_ & L2 & _).
    case_decide as Hd.
    + intros [= <-]. unfold s'. rewrite (grow_entry s s1 W k va t i) by (done || apply index_is_index).
      assert (page_addr i <> t) by (intros <-; rewrite (Htu i) in Hf; done). rewrite decide_False by tauto. rewrite decide_True by done.
      unfold large. by rewrite Z.bits_0, andb_false_r.
    + intros Hb. unfold s'. rewrite (grow_entry s s1 W k va t i) by (done || apply index_is_index || (eapply (tw_page s W j va); [lia|done])).
      rewrite (decide_False (P := b = page_addr i)) by (eapply (grow_fresh s W i Hi Hf); [|done]; lia). case_decide as H; [|by apply Hsm].
      destruct H as [-> _]. destruct (tw_tree s W j va k va t) as [-> _]; [lia..|done|done|]. done.
Qed.

Lemma next_table_spec s k va t : vmm_inv s -> (k < 3)%nat -> tab (g_mem s) k va = Some t -> small (g_mem s) va ->
  let '(r, s') := next_table s t (index k va) in
  quiet s s' /\ small (g_mem s') va /\
  match r with Some t' => tab (g_mem s') (S k) va = Some t' | None => memory_full s' end.
Proof.
  intros [A W] Hk Ht Hsm. unfold next_table. pose proof (Hsm k t Hk Ht) as Hl.
  destruct (present (entry (g_mem s) t (index k va))) eqn:Hp.
  - split; [by apply quiet_refl|]. split; [done|]. rewrite (tab_S _ _ _ _ Ht). cbn zeta. rewrite Hp, Hl. cbn [negb andb]. f_equal.
    destruct (tw_link s W k va t Hk Ht Hp Hl) as [H52 _].
    assert (0 <= entry (g_mem s) t (index k va)) as H0 by apply (get64_fits _ _ (tw_mem s W)).
    rewrite frame_addr by done. symmetry. apply phys_of_small, e_addr_aligned, H0.
  - pose proof (alloc_one s A) as H. destruct (wubu_vmm_alloc_pages s 1) as [p s1].
    destruct H as [(-> & -> & Hfull)|(i & -> & Hnz & Hi & Hf & _ & T)].
    + rewrite Z.eqb_refl. split; [by apply quiet_refl|]. done.
    + destruct (Z.eqb_spec (page_addr i) 0); [done|].
      destruct (grow_quiet s s1 k va t i (conj A W) Hk Ht Hp Hi Hf T) as (Q & Htab & Hs'). auto.
Qed.

(** ** Changing the translation of one page

    [r] gives the new translation from the offset in the page. *)
Record remaps (s s' : vmm) (virt : Z) (r : Z -> option (Z * bool)) : Prop := {
  rm_inv : vmm_inv s';
  rm_translate va : translate (g_mem s') va = if decide (same_page virt va) then r (va mod 4096) else translate (g_mem s) va;
  rm_keeps : keeps s s';
  rm_used i : in_map i -> used s i = true -> used s' i = true /\ ref_of s' i = ref_of s i;
  rm_demand : g_demand s' = g_demand s /\ g_demand_faults s' = g_demand_faults s;
  rm_count : counts_free s -> counts_free s' }.

Lemma quiet_remaps a b c virt r : quiet a b -> remaps b c virt r -> remaps a c virt r.
Proof.
  intros Q R. constructor.
  - apply R.
  - intros va. by rewrite (rm_translate _ _ _ _ R), (q_translate _ _ Q).
  - eapply keeps_data_trans; [apply Q|apply R].
  - intros i Hi Hu. destruct (q_used _ _ Q i Hi Hu) as [Hu' <-]. by apply R.
  - by rewrite (proj1 (rm_demand _ _ _ _ R)), (proj2 (rm_demand _ _ _ _ R)), (proj1 (q_demand _ _ Q)), (proj2 (q_demand _ _ Q)).
  - intros C. by apply R, Q.
Qed.

Definition leaf_map (e o : Z) : option (Z * bool) := if present e then Some (e_addr e + o, Z.testbit e 1) else None.

Lemma leaf_remaps s virt t v : vmm_inv s -> tab (g_mem s) 3 virt = Some t -> fits 64 v ->
  remaps s (set_entry s t (index 3 virt) v) virt (leaf_map v).
Proof.
  intros [A W] Ht Hv. destruct (tw_page s W 3 virt t ltac:(lia) Ht) as [Hta _]. constructor.
  - split; [by apply (alloc_wf_same s)|by apply leaf_wf].
  - intros va. rewrite leaf_translate by done. unfold leaf_map. destruct (decide (agree 4 virt va)) as [H|H]; rewrite agree_page in H.
    + by rewrite decide_True.
    + by rewrite decide_False.
  - intros q [Hq1 Hq2 Hq3]. assert (q <> t) as Hqt by (intros ->; apply Hq2; exists 3%nat, virt; split; [lia|done]).
    split; [constructor; [done| |done]|].
    + intros (j & va' & Hj & E). rewrite leaf_tab in E by done. apply Hq2. by exists j, va'.
    + apply same_put64; (done || apply index_is_index).
  - done.
  - done.
  - done.
Qed.

Lemma flags_bits flags j : 0 <= j < 12 -> Z.testbit (Z.land flags 0xFFF) j = Z.testbit flags j.
Proof. intros Hj. change 0xFFF with (Z.ones 12). by rewrite Z.land_spec, Z.ones_spec_low, andb_true_r by lia. Qed.
Lemma flags_land flags : flags_ok (Z.land flags 0xFFF).
Proof. unfold flags_ok. change 0xFFF with (Z.ones 12). rewrite Z.land_ones by lia. by apply Z.mod_pos_bound. Qed.

Lemma leaf_link phys flags o : aligned phys -> phys < 2 ^ 52 ->
  let e := Z.lor phys (Z.land flags 0xFFF) in
  fits 64 e /\ leaf_map e o = if Z.testbit flags 0 then Some (phys + o, Z.testbit flags 1) else None.
Proof.
  intros Hp H52 e. pose proof (flags_land flags) as Hf. split.
  - unfold e. rewrite link_sum by done. unfold fits, flags_ok, aligned in *. lia.
  - unfold leaf_map, e. rewrite present_bit, !link_low, !flags_bits, link_addr_of by (done || lia). done.
Qed.

Lemma map_page_spec s virt phys flags : vmm_inv s -> small (g_mem s) virt -> aligned phys -> phys < 2 ^ 52 ->
  let '(r, s') := wubu_vmm_map_page s virt phys flags in
  (r = 0 /\ remaps s s' virt (fun o => if Z.testbit flags 0 then Some (phys + o, Z.testbit flags 1) else None)) \/
  (r = -1 /\ quiet s s' /\ memory_full s').
Proof.
  intros I Hsm Hp H52. unfold wubu_vmm_map_page.
  change (ix4 virt) with (index 0 virt). change (ix3 virt) with (index 1 virt).
  change (ix2 virt) with (index 2 virt). change (ix1 virt) with (index 3 virt).
  pose proof (next_table_spec s 0 virt PML4_BASE I ltac:(lia) eq_refl Hsm) as N1.
  destruct (next_table s PML4_BASE (index 0 virt)) as [[pdp|] s1]; destruct N1 as (Q1 & S1 & T1); [|right; auto].
  pose proof (next_table_spec s1 1 virt pdp (q_inv _ _ Q1) ltac:(lia) T1 S1) as N2.
  destruct (next_table s1 pdp (index 1 virt)) as [[pd|] s2]; destruct N2 as (Q2 & S2 & T2);
    pose proof (quiet_trans _ _ _ Q1 Q2) as Q12; [|right; auto].
  pose proof (next_table_spec s2 2 virt pd (q_inv _ _ Q2) ltac:(lia) T2 S2) as N3.
  destruct (next_table s2 pd (index 2 virt)) as [[pt|] s3]; destruct N3 as (Q3 & S3 & T3);
    pose proof (quiet_trans _ _ _ Q12 Q3) as Q13; [|right; auto].
  left. split; [done|]. destruct (leaf_link phys flags 0 Hp H52) as [Hfit _].
  pose proof (quiet_remaps _ _ _ _ _ Q13 (leaf_remaps s3 virt pt _ (q_inv _ _ Q3) T3 Hfit)) as [R1 R2 R3 R4 R5 R6].
  constructor; try done. intros va. rewrite R2. case_decide; [|done]. by apply leaf_link.
Qed.

Lemma map_keeps_inv s virt phys flags : vmm_inv s -> small (g_mem s) virt -> aligned phys -> phys < 2 ^ 52 ->
  vmm_inv (wubu_vmm_map_page s virt phys flags).2.
Proof.
  intros I Hs Hp H52. pose proof (map_page_spec s virt phys flags I Hs Hp H52) as H. destruct (wubu_vmm_map_page s virt phys flags) as [r s'].
  destruct H as [[_ R]|(_ & Q & _)]; [apply R|apply Q].
Qed.

(** ** Finding the last-level table *)

Lemma tab_next s k va t : vmm_inv s -> (k < 3)%nat -> small (g_mem s) va -> tab (g_mem s) k va = Some t ->
  let e := entry (g_mem s) t (index k va) in
  tab (g_mem s) (S k) va = if present e then Some (vmm_phys_of (frame_of e)) else None.
Proof.
  intros [A W] Hk Hsm Ht. cbn zeta. rewrite (tab_S _ _ _ _ Ht). cbn zeta. pose proof (Hsm k t Hk Ht) as Hl. rewrite Hl, andb_true_r.
  destruct (present _) eqn:Hp; [|done]. destruct (tw_link s W k va t Hk Ht Hp Hl) as [H52 _].
  assert (0 <= entry (g_mem s) t (index k va)) as H0 by apply (get64_fits _ _ (tw_mem s W)).
  rewrite frame_addr by done. f_equal. symmetry. apply phys_of_small, e_addr_aligned, H0.
Qed.

Lemma tab_None_S m k va : tab m k va = None -> tab m (S k) va = None.
Proof. intros H. cbn [tab]. by rewrite H. Qed.

Lemma find_pt_tab s va : vmm_inv s -> small (g_mem s) va -> find_pt (g_mem s) va = tab (g_mem s) 3 va.
Proof.
  intros I Hsm. unfold find_pt. change (ix4 va) with (index 0 va). change (ix3 va) with (index 1 va). change (ix2 va) with (index 2 va).
  pose proof (tab_next s 0 va PML4_BASE I ltac:(lia) Hsm eq_refl) as N1. cbn zeta in N1.
  destruct (present (entry (g_mem s) PML4_BASE (index 0 va))); cbn [negb orb]; [|symmetry; by do 2 apply tab_None_S].
  pose proof (tab_next s 1 va _ I ltac:(lia) Hsm N1) as N2. cbn zeta in N2.
  destruct (present (entry _ _ (index 1 va))); cbn [negb]; [|symmetry; by apply tab_None_S].
  pose proof (tab_next s 2 va _ I ltac:(lia) Hsm N2) as N3. cbn zeta in N3. rewrite N3. by destruct (present _).
Qed.

Lemma tab_stops m va k : small m va -> (k <= 3)%nat -> tab m k va = None ->
  exists j t, (j < k)%nat /\ tab m j va = Some t /\ present (entry m t (index j va)) = false.
Proof.
  intros Hsm. induction k as [|k IH]; intros Hk H; [done|]. destruct (tab m k va) as [t|] eqn:E.
  - exists k, t. split; [lia|]. split; [done|]. rewrite (tab_S _ _ _ _ E) in H. cbn zeta in H. rewrite (Hsm k t) in H by (lia || done).
    by destruct (present _).
  - destruct IH as (j & t & Hj & Hr); [lia|done|]. exists j, t. split; [lia|done].
Qed.
Lemma translate_no_pt s va : vmm_inv s -> small (g_mem s) va -> tab (g_mem s) 3 va = None -> translate (g_mem s) va = None.
Proof.
  intros [A W] Hsm H. destruct (tab_stops _ va 3 Hsm ltac:(lia) H) as (k & t & Hk & Ht & Hp).
  rewrite (translate_from s k va t W) by (lia || done). replace (3 - k)%nat with (S (2 - k)) by lia. cbn [hw_walk]. by rewrite Hp.
Qed.

Lemma translate_pt s va t : vmm_inv s -> tab (g_mem s) 3 va = Some t ->
  translate (g_mem s) va = leaf_map (entry (g_mem s) t (index 3 va)) (va mod 4096).
Proof.
  intros [A W] Ht. rewrite (translate_from s 3 va t W) by (lia || done). cbn [hw_walk Nat.sub]. unfold leaf_map. by destruct (present _).
Qed.

Lemma unmap_spec s virt : vmm_inv s -> small (g_mem s) virt ->
  let '(r, s') := wubu_vmm_unmap s virt in
  (r = 0 /\ remaps s s' virt (fun _ => None)) \/ (r = -1 /\ s' = s /\ translate (g_mem s) virt = None).
Proof.
  intros I Hsm. unfold wubu_vmm_unmap. rewrite (find_pt_tab s virt I Hsm). destruct (tab (g_mem s) 3 virt) as [t|] eqn:Ht.
  - left. split; [done|]. change (ix1 virt) with (index 3 virt). destruct (leaf_remaps s virt t 0 I Ht ltac:(unfold fits; lia)). constructor; done.
  - right. split; [done|]. split; [done|]. by apply translate_no_pt.
Qed.
