(* ===== verification/VmmFaults.v ===== *)
(** * Demand-zero pages and copy-on-write *)

From S2P Require Import Prelude Heap HeapFacts Vmm VmmAlloc VmmTables VmmMap.
Open Scope Z_scope.

(** ** Writing to pages that are no tables *)

Section scribble.
Context (s s' : vmm) (W : tables_wf s) (p : Z) (Hp : aligned p) (Hnt : ~ is_table (g_mem s) p).
Context (Hm : mem_ok (g_mem s')) (Hout : same_out (g_mem s) (g_mem s') p (p + 4096)).
Context (Hused : forall i, in_map i -> used s i = true -> used s' i = true).

Lemma scribble_entry k va t j : (k <= 3)%nat -> tab (g_mem s) k va = Some t -> is_index j ->
  entry (g_mem s') t j = entry (g_mem s) t j.
Proof.
  intros Hk Ht Hj. destruct (tw_page s W k va t Hk Ht) as [Hta _].
  assert (t <> p) as Hne by (intros ->; apply Hnt; by exists k, va).
  unfold entry. apply (get64_frame _ _ p (p + 4096)); [done|]. unfold slot_addr, is_index in *.
  destruct (aligned_apart t p Hta Hp Hne); lia.
Qed.
Lemma scribble_tab k va : (k <= 3)%nat -> tab (g_mem s') k va = tab (g_mem s) k va.
Proof.
  induction k as [|k IH]; intros Hk; [done|]. cbn [tab]. rewrite IH by lia. destruct (tab (g_mem s) k va) as [t|] eqn:E; [|done].
  cbn [mbind option_bind]. by rewrite (scribble_entry k va t) by (lia || done || apply index_is_index).
Qed.
Lemma scribble_translate va : translate (g_mem s') va = translate (g_mem s) va.
Proof. unfold translate. apply walk_same; [done|done|]. intros j b Hj Hb. eapply scribble_entry; [|done|apply index_is_index]. lia. Qed.
Lemma scribble_wf : tables_wf s'.
Proof.
  constructor; [done|..].
  - intros k va t Hk. rewrite scribble_tab by done. intros Ht. destruct (tw_page s W k va t Hk Ht) as [Ha Hu]. split; [done|].
    intros i Hi E. by apply Hused, (Hu i).
  - intros k va k' va' t Hk Hk'. rewrite !scribble_tab by done. by apply (tw_tree s W).
  - intros k va t Hk. rewrite scribble_tab by lia. intros Ht. rewrite (scribble_entry k va t) by (lia || done || apply index_is_index).
    by apply (tw_link s W).
Qed.
Lemma scribble_small va : small (g_mem s) va -> small (g_mem s') va.
Proof.
  intros Hs k t Hk. rewrite scribble_tab by lia. intros Ht. rewrite (scribble_entry k va t) by (lia || done || apply index_is_index). by apply Hs.
Qed.
End scribble.

Lemma page_same_out m m' p q : aligned p -> aligned q -> q <> p -> same_out m m' p (p + 4096) -> page_same m m' q.
Proof. intros Hp Hq Hne H o Ho. apply H. destruct (aligned_apart q p Hq Hp Hne); lia. Qed.

Lemma free_not_table s i : tables_wf s -> in_map i -> used s i = false -> ~ is_table (g_mem s) (page_addr i).
Proof. intros W Hi Hf (k & va & Hk & Ht). destruct (tw_page s W k va _ Hk Ht) as [_ H]. by rewrite (H i) in Hf. Qed.

(** Taking a page and filling it. *)
Lemma fill_quiet s s1 i m : vmm_inv s -> in_map i -> used s i = false -> takes s s1 i 1 ->
  mem_ok m -> same_out (g_mem s1) m (page_addr i) (page_addr i + 4096) ->
  quiet s (set_vmem s1 m) /\ data_page (set_vmem s1 m) (page_addr i) /\ (forall va, small (g_mem s) va -> small m va) /\
  (forall k va, (k <= 3)%nat -> tab m k va = tab (g_mem s) k va).
Proof.
  intros [A W] Hi Hf T Hm Ho. rewrite (tk_mem _ _ _ _ T) in Ho. destruct (page_addr_aligned i Hi) as [Hp _].
  pose proof (free_not_table s i W Hi Hf) as Hnt.
  assert (forall j, in_map j -> used s j = true -> used (set_vmem s1 m) j = true) as Hu.
  { intros j Hj Hu. change (used s1 j = true). rewrite (takes_used _ _ _ _ T Hj), Hu. apply orb_true_r. }
  pose proof (fun k va => scribble_tab s (set_vmem s1 m) W _ Hp Hnt Ho k va) as Htab. split; [constructor|split; [|split; [|exact Htab]]].
  - split; [by apply (alloc_wf_same s1), T|]. by apply (scribble_wf s (set_vmem s1 m) W _ Hp Hnt).
  - by apply (scribble_translate s (set_vmem s1 m) W _ Hp Hnt).
  - intros q [Hq1 Hq2 Hq3]. assert (q <> page_addr i) as Hne by (intros ->; rewrite (Hq3 i) in Hf; done).
    split; [constructor; [done| |]|by apply (page_same_out _ _ (page_addr i))].
    + intros (k & va & Hk & E). rewrite Htab in E by done. apply Hq2. by exists k, va.
    + intros j Hj E. apply Hu; [done|]. by apply Hq3.
  - intros j Hj Huj. split; [by apply Hu|]. apply (takes_ref _ _ _ _ T Hj). congruence.
  - split; apply T.
  - intros C. by apply (counts_free_same s1), T.
  - constructor; [done| |].
    + intros (k & va & Hk & E). rewrite Htab in E by done. apply Hnt. by exists k, va.
    + intros j Hj E. apply page_addr_inj in E as <-. change (used s1 i = true). by rewrite (takes_used _ _ _ _ T Hi), bool_decide_eq_true_2.
  - intros va. by apply (scribble_small s (set_vmem s1 m) W _ Hp Hnt).
Qed.

(** ** Dropping a page *)

Lemma drops_inv s s' i : vmm_inv s -> in_map i -> drops s s' i -> ~ is_table (g_mem s) (page_addr i) \/ 1 < ref_of s i -> vmm_inv s'.
Proof.
  intros [A W] Hi D Hor. split; [apply D|].
  assert (forall k va t, (k <= 3)%nat -> tab (g_mem s) k va = Some t -> forall j, in_map j -> t = page_addr j -> used s' j = true) as Hu.
  { intros k va t Hk Ht j Hj ->. rewrite (dr_used _ _ _ D) by done. destruct (tw_page s W k va _ Hk Ht) as [_ Hu]. rewrite (Hu j) by done.
    rewrite bool_decide_eq_false_2; [done|]. intros [-> Hr]. destruct Hor as [Hn|Hr']; [|lia]. apply Hn. by exists k, va. }
  constructor; rewrite (dr_mem _ _ _ D); try apply W. intros k va t Hk Ht. split; [by eapply (tw_page s W)|by eapply Hu].
Qed.

(** ** Demand-zero regions *)

Lemma page_base_page va : same_page (page_base va) va.
Proof.
  unfold same_page, page_base. f_equal. change (Z.lnot (PAGE - 1)) with (Z.lnot (Z.ones 12)). rewrite <- Z.ldiff_land, Z.ldiff_ones_r by lia.
  rewrite Z.shiftl_mul_pow2, Z.shiftr_div_pow2 by lia. by rewrite Z.div_mul.
Qed.
Lemma same_page_trans a b c : same_page a b -> same_page a c <-> same_page b c.
Proof. unfold same_page. intros ->. done. Qed.
Lemma small_page m a b : same_page a b -> small m a -> small m b.
Proof.
  rewrite <- agree_page. intros Ha Hs k t Hk Ht. rewrite <- (tab_agree m k a b) in Ht by (intros j Hj; apply Ha; lia).
  rewrite <- (Ha k) by lia. by apply Hs.
Qed.

Record fills_zero (s s' : vmm) (va i : Z) : Prop := {
  fz_inv : vmm_inv s';
  fz_fresh : in_map i /\ used s i = false /\ used s' i = true /\ ref_of s' i = 1;
  fz_zero o : 0 <= o < 4096 -> g_mem s' (page_addr i + o) = 0;
  fz_translate va' : translate (g_mem s') va' =
    if decide (same_page va va') then Some (page_addr i + va' mod 4096, true) else translate (g_mem s) va';
  fz_keeps : keeps s s';
  fz_faults : g_demand s' = g_demand s /\ g_demand_faults s' = u32 (g_demand_faults s + 1) }.

Record unchanged (s s' : vmm) : Prop := {
  un_inv : vmm_inv s';
  un_translate va : translate (g_mem s') va = translate (g_mem s) va;
  un_keeps : keeps s s' }.

Lemma set_demand_inv s d f : vmm_inv s -> vmm_inv (set_demand s d f).
Proof. intros [A W]. split; [by apply (alloc_wf_same s)|]. destruct W as [W1 W2 W3 W4]. constructor; [exact W1|exact W2|exact W3|exact W4]. Qed.
Lemma set_demand_keeps s s' d f : keeps s s' -> keeps s (set_demand s' d f).
Proof. intros H q Hq. destruct (H q Hq) as [[D1 D2 D3] E]. split; [|done]. constructor; [done|exact D2|exact D3]. Qed.

Lemma unchanged_quiet s s' : quiet s s' -> unchanged s s'.
Proof. intros Q. constructor; apply Q. Qed.

(** Giving back a page taken and filled since [s]. *)
Lemma give_back s s1 s2 i : vmm_inv s -> in_map i -> used s i = false -> quiet s s1 -> quiet s1 s2 ->
  data_page s1 (page_addr i) -> unchanged s (wubu_vmm_free_pages s2 (page_addr i) 1).
Proof.
  intros I Hi Hf Q1 Q2 Hd. pose proof (quiet_trans _ _ _ Q1 Q2) as Q. destruct (q_keeps _ _ Q2 _ Hd) as [Hd2 _].
  pose proof (dp_used _ _ Hd2 i Hi eq_refl) as Hu. pose proof (free_one s2 i (proj1 (q_inv _ _ Q2)) Hi Hu) as D.
  constructor.
  - apply (drops_inv s2 _ i (q_inv _ _ Q2) Hi D). left. apply Hd2.
  - intros va. rewrite (dr_mem _ _ _ D). apply Q.
  - intros q Hq. destruct (q_keeps _ _ Q q Hq) as [[D1 D2 D3] E]. unfold page_same. rewrite (dr_mem _ _ _ D). split; [|done].
    constructor; [done|by rewrite (dr_mem _ _ _ D)|]. intros j Hj Ej. rewrite (dr_used _ _ _ D), (D3 j Hj Ej) by done.
    rewrite bool_decide_eq_false_2; [done|]. intros [-> _]. rewrite (dp_used _ _ Hq i Hi Ej) in Hf. done.
Qed.

Lemma demand_fill_spec s va : vmm_inv s -> small (g_mem s) va ->
  let '(r, s') := wubu_vmm_demand_fill s va in
  if wubu_vmm_is_demand s va then (r = 0 /\ exists i, fills_zero s s' va i) \/ (r = -1 /\ unchanged s s')
  else r = -1 /\ s' = s.
Proof.
  intros I Hsm. unfold wubu_vmm_demand_fill. destruct (wubu_vmm_is_demand s va); cbn [negb]; [|done].
  pose proof (alloc_one s (proj1 I)) as H. destruct (wubu_vmm_alloc_pages s 1) as [p s1].
  destruct H as [(-> & -> & Hfull)|(i & -> & Hnz & Hi & Hf & _ & T)].
  { rewrite Z.eqb_refl. right. split; [done|]. by apply unchanged_quiet, quiet_refl. }
  destruct (Z.eqb_spec (page_addr i) 0); [done|]. destruct (page_addr_aligned i Hi) as [Hp H52].
  assert (same_out (g_mem s1) (zero_page (g_mem s1) (page_addr i)) (page_addr i) (page_addr i + 4096)) as Ho.
  { intros x Hx. rewrite zero_page_at. case_decide; [lia|done]. }
  assert (mem_ok (zero_page (g_mem s1) (page_addr i))) as Hm by (apply zero_page_ok; rewrite (tk_mem _ _ _ _ T); apply I).
  destruct (fill_quiet s s1 i _ I Hi Hf T Hm Ho) as (Q & Hd & Hs2 & _).
  set (s2 := set_vmem s1 _) in *. assert (small (g_mem s2) (page_base va)) as Hsm2.
  { apply Hs2. eapply small_page; [|done]. symmetry. apply page_base_page. }
  pose proof (map_page_spec s2 (page_base va) (page_addr i) 3 (q_inv _ _ Q) Hsm2 Hp H52) as M.
  destruct (wubu_vmm_map_page s2 (page_base va) (page_addr i) 3) as [r s3]. destruct M as [(-> & R)|(-> & Q3 & _)]; cbn [Z.eqb negb].
  - left. split; [done|]. exists i. pose proof (quiet_remaps _ _ _ _ _ Q R) as R'. destruct (rm_keeps _ _ _ _ R _ Hd) as [Hd3 E3].
    destruct (rm_used _ _ _ _ R i Hi (dp_used _ _ Hd i Hi eq_refl)) as [Hu3 Er3]. constructor.
    + apply set_demand_inv, R.
    + split; [done|]. split; [done|]. split; [done|]. etransitivity; [exact Er3|]. change (ref_of s1 i = 1). rewrite (tk_ref _ _ _ _ T) by done.
      case_decide; [done|lia].
    + intros o Ho'. cbn [g_mem set_demand]. rewrite E3 by done. cbn [s2 g_mem set_vmem]. rewrite zero_page_at. case_decide; [done|lia].
    + intros va'. cbn [g_mem set_demand]. rewrite (rm_translate _ _ _ _ R'). cbn [Z.testbit].
      destruct (decide (same_page (page_base va) va')) as [E|E]; rewrite (same_page_trans _ _ _ (page_base_page va)) in E; by repeat case_decide.
    + apply set_demand_keeps, R'.
    + cbn [g_demand g_demand_faults set_demand]. destruct (rm_demand _ _ _ _ R') as [-> ->]. done.
  - right. split; [done|]. by apply (give_back s s2 s3 i).
Qed.

(** ** Copy-on-write *)

Definition clean_leaf (m : memory) (va : Z) : Prop := forall t, tab m 3 va = Some t -> entry m t (index 3 va) < 2 ^ 44.

Record makes_private (s s' : vmm) (va phys c : Z) : Prop := {
  mp_inv : vmm_inv s';
  mp_fresh : in_map c /\ used s c = false /\ used s' c = true /\ ref_of s' c = 1;
  mp_copy o : 0 <= o < 4096 -> g_mem s' (page_addr c + o) = g_mem s (phys + o);
  mp_translate va' : translate (g_mem s') va' =
    if decide (same_page va va') then Some (page_addr c + va' mod 4096, true) else translate (g_mem s) va';
  mp_ref : wubu_vmm_refcount s' phys = wubu_vmm_refcount s phys - 1;
  mp_keeps : keeps s s' }.

Lemma land_two e : negb (Z.land e 2 =? 0) = Z.testbit e 1.
Proof.
  assert (Z.land e 2 = if Z.testbit e 1 then 2 else 0) as ->; [|by destruct (Z.testbit e 1)].
  apply Z.bits_inj'. intros j Hj. rewrite Z.land_spec. change 2 with (2 ^ 1). rewrite Z.pow2_bits_eqb by lia.
  destruct (Z.eqb_spec 1 j) as [<-|Hne]; [by destruct (Z.testbit e 1)|].
  rewrite andb_false_r. destruct (Z.testbit e 1); [|by rewrite Z.bits_0]. rewrite Z.pow2_bits_eqb by lia. by destruct (Z.eqb_spec 1 j).
Qed.

Lemma make_writable e : 0 <= e < 2 ^ 44 -> present e = true -> Z.testbit e 1 = false ->
  fits 64 (Z.lor e 2) /\ forall o, leaf_map (Z.lor e 2) o = Some (e_addr e + o, true).
Proof.
  intros He Hp Hw. assert (Z.land e 2 = 0) as E.
  { pose proof (land_two e) as H. rewrite Hw in H. destruct (Z.eqb_spec (Z.land e 2) 0); done. }
  split; [rewrite <- Z.lxor_lor, <- Z.add_nocarry_lxor by done; unfold fits; lia|]. intros o. unfold leaf_map.
  rewrite present_bit, Z.lor_spec in *. rewrite Hp. cbn [orb]. f_equal. f_equal; [|rewrite Z.lor_spec; apply orb_true_r]. f_equal.
  apply Z.bits_inj'. intros j Hj. unfold e_addr. rewrite !Z.land_spec, mask_bit, Z.lor_spec by done. case_bool_decide as H; [|by rewrite !andb_false_r].
  rewrite (bits_above 2 2) by lia. by rewrite orb_false_r.
Qed.

Lemma refcount_shared s phys : alloc_wf s -> aligned phys -> phys < 2 ^ 44 -> 1 < wubu_vmm_refcount s phys ->
  exists i, in_map i /\ phys = page_addr i /\ used s i = true /\ ref_of s i = wubu_vmm_refcount s phys.
Proof.
  intros A [H0 Hal] H44 Hr. unfold wubu_vmm_refcount in *. destruct (page_off phys) as [off|] eqn:E; [|lia].
  unfold page_off in E. destruct (Z.ltb_spec phys WUBU_VMM_PHYS_BASE); [done|].
  destruct (Z.eqb_spec ((phys - WUBU_VMM_PHYS_BASE) mod PAGE) 0) as [Em|]; [|done]. simplify_eq.
  apply Z.mod_divide in Em as [i Ei]; [|done]. rewrite Ei, Z.div_mul in * by done. unfold PAGE, WUBU_VMM_PHYS_BASE in Ei.
  rewrite wrap_id in * by (unfold fits; unfold WUBU_VMM_PHYS_BASE in *; lia).
  destruct (Z.leb_spec WUBU_VMM_BITMAP_BITS i); [lia|]. assert (in_map i) as Hi by (unfold in_map, WUBU_VMM_PHYS_BASE in *; lia).
  exists i. split; [done|]. split; [unfold page_addr, PAGE, WUBU_VMM_PHYS_BASE; lia|]. split; [|done].
  destruct (used s i) eqn:Eu; [done|]. rewrite (wf_free_unref s A i Hi Eu) in Hr. lia.
Qed.

(** Dropping one of several references. *)
Lemma drops_shared s s' i : vmm_inv s -> in_map i -> 1 < ref_of s i -> drops s s' i -> vmm_inv s' /\ keeps s s'.
Proof.
  intros I Hi Hr D. split; [apply (drops_inv s s' i); auto|]. intros q [D1 D2 D3]. unfold page_same. rewrite (dr_mem _ _ _ D).
  split; [|done]. constructor; [done|by rewrite (dr_mem _ _ _ D)|]. intros j Hj E. rewrite (dr_used _ _ _ D), (D3 j Hj E) by done.
  by rewrite bool_decide_eq_false_2 by lia.
Qed.

Lemma same_tab m a b : same_page a b -> tab m 3 a = tab m 3 b /\ index 3 a = index 3 b.
Proof. rewrite <- agree_page. intros H. split; [apply tab_agree; intros j Hj|]; apply H; lia. Qed.

Lemma frame_page c : in_map c -> frame_of (page_addr c) = page_addr c.
Proof.
  intros Hc. destruct (page_addr_aligned c Hc) as [[H0 Hal] H52]. rewrite frame_addr by done.
  pose proof (link_addr_of (page_addr c) 0) as H. rewrite Z.lor_0_r in H. by apply H.
Qed.

(** The shared page is copied and unshared. *)
Lemma cow_copy s va t i s1 c : vmm_inv s -> tab (g_mem s) 3 va = Some t ->
  in_map i -> 1 < ref_of s i -> used s i = true -> in_map c -> used s c = false -> takes s s1 c 1 ->
  let s2 := set_vmem s1 (copy_page (g_mem s1) (page_addr c) (page_addr i)) in
  makes_private s (set_entry (wubu_vmm_free_pages s2 (page_addr i) 1) t (index 3 va) (Z.lor (frame_of (page_addr c)) 3))
    va (page_addr i) c.
Proof.
  intros I Ht Hi Hr Hu Hc Hf T s2. destruct (page_addr_aligned c Hc) as [Hca Hc52]. destruct (page_addr_aligned i Hi) as [Hia _].
  assert (c <> i) as Hci by congruence. assert (page_addr c <> page_addr i) as Hne by (intros E; by apply Hci, page_addr_inj).
  pose proof (aligned_apart _ _ Hca Hia Hne) as Hap. pose proof (tk_mem _ _ _ _ T) as Em.
  assert (mem_ok (g_mem s1)) as Hm1 by (rewrite Em; apply I).
  destruct (fill_quiet s s1 c _ I Hc Hf T (copy_page_ok _ _ _ Hm1 Hap)) as (Q & Hd & _ & Htab).
  { intros x Hx. rewrite copy_page_at by done. case_decide; [lia|done]. }
  fold s2 in Q, Hd. assert (used s2 i = true /\ ref_of s2 i = ref_of s i) as [Hu2 Hr2] by by apply Q.
  pose proof (free_one s2 i (proj1 (q_inv _ _ Q)) Hi Hu2) as D. set (s3 := wubu_vmm_free_pages s2 (page_addr i) 1) in *.
  destruct (drops_shared s2 s3 i (q_inv _ _ Q) Hi ltac:(lia) D) as [I3 K3].
  assert (tab (g_mem s3) 3 va = Some t) as Ht3 by (rewrite (dr_mem _ _ _ D); cbn [s2 g_mem set_vmem]; by rewrite Htab).
  rewrite frame_page by done. destruct (leaf_link (page_addr c) 3 0 Hca Hc52) as [Hfit _]. cbn zeta in Hfit. change (Z.land 3 0xFFF) with 3 in Hfit.
  pose proof (leaf_remaps s3 va t _ I3 Ht3 Hfit) as R. set (s4 := set_entry s3 t (index 3 va) _) in *.
  destruct (K3 _ Hd) as [Hd3 E3]. destruct (rm_keeps _ _ _ _ R _ Hd3) as [Hd4 E4]. constructor.
  - apply R.
  - split; [done|]. split; [done|]. split; [by apply (dp_used _ _ Hd4)|]. change (ref_of s3 c = 1). rewrite (dr_ref _ _ _ D) by done.
    rewrite decide_False by done. change (ref_of s1 c = 1). rewrite (tk_ref _ _ _ _ T) by done. case_decide; [done|lia].
  - intros o Ho. rewrite E4, E3 by done. cbn [s2 g_mem set_vmem]. rewrite copy_page_at, Em by done. case_decide; [|lia]. f_equal. lia.
  - intros va'. rewrite (rm_translate _ _ _ _ R). case_decide.
    + destruct (leaf_link (page_addr c) 3 (va' mod 4096) Hca Hc52) as [_ E]. cbn zeta in E. change (Z.land 3 0xFFF) with 3 in E. exact E.
    + rewrite (dr_mem _ _ _ D). apply Q.
  - rewrite !refcount_page by done. change (ref_of s3 i = ref_of s i - 1). rewrite (dr_ref _ _ _ D), decide_True by done. lia.
  - eapply keeps_data_trans; [apply Q|]. eapply keeps_data_trans; [exact K3|apply R].
Qed.

Lemma cow_fault_spec s va : vmm_inv s -> small (g_mem s) va -> clean_leaf (g_mem s) va ->
  let '(r, s') := wubu_vmm_cow_fault s va in
  match translate (g_mem s) va with
  | Some (pa, false) =>
      let phys := pa - va mod 4096 in
      (wubu_vmm_refcount s phys <= 1 /\ r = 1 /\ remaps s s' va (fun o => Some (phys + o, true))) \/
      (1 < wubu_vmm_refcount s phys /\ r = 1 /\ exists c, makes_private s s' va phys c) \/
      (1 < wubu_vmm_refcount s phys /\ r = 0 /\ s' = s /\ memory_full s)
  | _ => r = 0 /\ s' = s
  end.
Proof.
  intros I Hsm Hcl. unfold wubu_vmm_cow_fault. pose proof (page_base_page va) as Hpb.
  rewrite find_pt_tab by (done || (eapply small_page; [symmetry; exact Hpb|done])).
  destruct (same_tab (g_mem s) (page_base va) va Hpb) as [-> Eix]. change (ix1 (page_base va)) with (index 3 (page_base va)). rewrite Eix.
  destruct (tab (g_mem s) 3 va) as [t|] eqn:Ht; [|by rewrite translate_no_pt]. rewrite (translate_pt s va t I Ht). specialize (Hcl t Ht).
  pose proof (get64_fits (g_mem s) (slot_addr t (index 3 va)) (tw_mem s (proj2 I))) as [H0 _]. fold (entry (g_mem s) t (index 3 va)) in H0.
  set (e := entry (g_mem s) t (index 3 va)) in *. unfold leaf_map. destruct (present e) eqn:Hp; cbn [negb]; [|done].
  rewrite land_two. destruct (Z.testbit e 1) eqn:Hw; [done|]. cbn zeta. replace (e_addr e + va mod 4096 - va mod 4096) with (e_addr e) by lia.
  rewrite frame_addr by lia. destruct (e_addr_aligned e H0) as [Hal H52].
  assert (e_addr e < 2 ^ 44) as H44.
  { rewrite <- frame_addr by lia. unfold frame_of. change 0xFFF with (Z.ones 12). rewrite <- Z.ldiff_land, Z.ldiff_ones_r, Z.shiftl_mul_pow2, Z.shiftr_div_pow2 by lia.
    pose proof (Z.mul_div_le e (2 ^ 12)). lia. }
  destruct (Z.leb_spec (wubu_vmm_refcount s (e_addr e)) 1) as [Hr|Hr].
  - left. destruct (make_writable e (conj H0 Hcl) Hp Hw) as [Hfit Hmap]. split; [done|]. split; [done|].
    destruct (leaf_remaps s va t _ I Ht Hfit) as [R1 R2 R3 R4 R5 R6]. constructor; try done. intros va'. by rewrite R2, Hmap.
  - destruct (refcount_shared s (e_addr e) (proj1 I) Hal H44 Hr) as (i & Hi & Ei & Hu & Er). rewrite Ei in *.
    pose proof (alloc_one s (proj1 I)) as H. destruct (wubu_vmm_alloc_pages s 1) as [p s1].
    destruct H as [(-> & -> & Hfull)|(c & -> & Hnz & Hc & Hf & _ & T)]; [rewrite Z.eqb_refl; right; auto|].
    destruct (Z.eqb_spec (page_addr c) 0); [done|]. right; left. split; [done|]. split; [done|]. exists c.
    by apply cow_copy; try done; lia.
Qed.
