(* ===== verification/VmmTheorems.v ===== *)
(** * What virtual memory promises

    Starting the page allocator.  Mapping and unmapping change one translation, demand faults give zeroed pages,
    copy-on-write faults give private copies, and the allocator's bookkeeping stays
    consistent; with the defects that break the promise. *)

From S2P Require Import Prelude Heap HeapFacts Vmm VmmAlloc VmmTables VmmMap VmmFaults.
Open Scope Z_scope.

(** ** Starting the page allocator *)

Lemma bm_set_wf s i : alloc_wf s -> in_map i -> alloc_wf (bm_set s i).
Proof.
  intros W Hi. constructor; [cbn; rewrite length_insert; apply W|apply W|apply W|]. intros j Hj.
  rewrite used_bm_set by (done || apply W). intros [_ E]%orb_false_elim. by apply W.
Qed.

Lemma mark_set_spec n : forall s q,
  alloc_wf s -> 0 <= q -> q + Z.of_nat n <= WUBU_VMM_BITMAP_BITS ->
  let s' := foldl bm_set s (seqZ q (Z.of_nat n)) in
  alloc_wf s' /\ g_mem s' = g_mem s /\ g_refs s' = g_refs s /\ g_demand s' = g_demand s /\
  (forall j, in_map j -> used s' j = bool_decide (q <= j < q + Z.of_nat n) || used s j) /\
  (clear_run s (Z.of_nat n) q -> counts_free s -> counts_free s').
Proof.
  induction n as [|n IH]; intros s q W H0 Hle; cbn zeta.
  { change (seqZ q (Z.of_nat 0)) with (@nil Z). cbn [foldl]. repeat (split; [done|]). split; [|done]. intros j Hj.
    by rewrite bool_decide_eq_false_2 by lia. }
  rewrite seqZ_cons by lia. cbn [foldl]. replace (Z.pred (Z.of_nat (S n))) with (Z.of_nat n) by lia.
  assert (in_map q) as Hin by (unfold in_map; lia). pose proof (fun j Hj => used_bm_set s q j (wf_map s W) Hin Hj) as Hu.
  destruct (IH (bm_set s q) (Z.succ q)) as (W' & Em & Er & Ed & Hj & Hc); [by apply bm_set_wf|lia..|].
  split; [done|]. split; [by rewrite Em|]. split; [by rewrite Er|]. split; [by rewrite Ed|]. split.
  - intros j Hin'. rewrite Hj, Hu, orb_assoc by done. f_equal. repeat case_bool_decide; (done || lia).
  - intros Hf C. apply Hc.
    + intros j Hj'. rewrite Hu by (unfold in_map; lia). rewrite bool_decide_eq_false_2 by lia. apply Hf. lia.
    + assert (alloc_inv (take_page s q)) as [_ C'] by (apply take_page_inv; [done..|apply Hf; lia]). exact C'.
Qed.

Lemma mark_page_idx s q r : in_map q -> 0 <= r < 4096 -> mark_page (Some s) (page_addr q + r) = Some (bm_set s q).
Proof.
  intros [H0 H1] Hr. cbn [mark_page mbind option_bind]. change WUBU_VMM_BITMAP_BITS with 28672 in *.
  replace (page_addr q + r - WUBU_VMM_PHYS_BASE) with (q * PAGE + r) by (unfold page_addr; lia). unfold PAGE in *.
  rewrite (wrap_id 64) by (unfold fits; lia). rewrite Z.div_add_l, (Z.div_small r), Z.add_0_r by lia. rewrite (wrap_id 32) by (unfold fits; lia).
  destruct (Z.ltb_spec q 28672); [done|lia].
Qed.

Lemma mark_run n : forall s q r, 0 <= q -> 0 <= r < 4096 -> q + Z.of_nat n <= WUBU_VMM_BITMAP_BITS ->
  foldl mark_page (Some s) ((fun i => page_addr q + r + PAGE * Z.of_nat i) <$> seq 0 n) = Some (foldl bm_set s (seqZ q (Z.of_nat n))).
Proof.
  induction n as [|n IH]; intros s q r H0 Hr Hle; [done|]. cbn [seq fmap list_fmap foldl]. rewrite <- fmap_S_seq, <- list_fmap_compose.
  rewrite seqZ_cons by lia. cbn [foldl]. replace (page_addr q + r + PAGE * Z.of_nat 0) with (page_addr q + r) by lia.
  rewrite mark_page_idx by (unfold in_map; lia). replace (Z.pred (Z.of_nat (S n))) with (Z.of_nat n) by lia. rewrite <- (IH _ _ r) by lia.
  f_equal. apply list_fmap_ext. intros _ i _. cbn. unfold page_addr, PAGE. lia.
Qed.

Lemma mark_pages s q r e : 0 <= q -> 0 <= r < 4096 -> q <= e <= WUBU_VMM_BITMAP_BITS -> (e = q -> r = 0) ->
  foldl mark_page (Some s) (pages_between (page_addr q + r) (page_addr e)) = Some (foldl bm_set s (seqZ q (e - q))).
Proof.
  intros H0 Hr He Hz. unfold pages_between. replace (Z.to_nat _) with (Z.to_nat (e - q)).
  - rewrite mark_run by lia. by rewrite Z2Nat.id by lia.
  - f_equal. unfold page_addr, PAGE. destruct (decide (r = 0)) as [->|].
    + replace (WUBU_VMM_PHYS_BASE + e * 4096 - (WUBU_VMM_PHYS_BASE + q * 4096 + 0) + (4096 - 1)) with ((e - q) * 4096 + 4095) by lia.
      by rewrite Z.div_add_l, (Z.div_small 4095), Z.add_0_r by lia.
    + replace (WUBU_VMM_PHYS_BASE + e * 4096 - (WUBU_VMM_PHYS_BASE + q * 4096 + r) + (4096 - 1)) with ((e - q) * 4096 + (4095 - r)) by lia.
      by rewrite Z.div_add_l, (Z.div_small (4095 - r)), Z.add_0_r by lia.
Qed.

(** The end of the memory the loader reported; all of the allocator's range when
    it reported none. *)
Definition ram_end (m : memory) : Z :=
  let '(n, (base, len, found)) := wubu_memmap_init m in
  if (0 <? n) && found then u64 (base + len) else WUBU_VMM_PHYS_END.

Definition blank_map (s : vmm) : vmm :=
  set_refs (set_map s (replicate (Z.to_nat (WUBU_VMM_BITMAP_BITS / 8)) 0) WUBU_VMM_BITMAP_BITS) (replicate (Z.to_nat WUBU_VMM_BITMAP_BITS) 0).

Lemma blank_used s i : used (blank_map s) i = false.
Proof.
  unfold used, bm_byte. cbn [g_bitmap blank_map set_refs set_map].
  destruct (replicate _ 0 !! Z.to_nat (Z.shiftr i 3)) as [b|] eqn:E; cbn [default]; [|apply Z.bits_0].
  apply lookup_replicate in E as [-> _]. apply Z.bits_0.
Qed.
Lemma blank_ref s i : ref_of (blank_map s) i = 0.
Proof.
  unfold ref_of. cbn [g_refs blank_map set_refs set_map]. destruct (replicate _ 0 !! Z.to_nat i) as [b|] eqn:E; [|done].
  by apply lookup_replicate in E as [-> _].
Qed.
Lemma count_clear_none f l : (forall i, f i = false) -> count_clear f l = Z.of_nat (length l).
Proof. intros H. induction l as [|i l IH]; [done|]. cbn [count_clear foldr length]. fold (count_clear f l). rewrite H, IH. lia. Qed.
Lemma blank_inv s : alloc_inv (blank_map s).
Proof.
  split.
  - constructor; [cbn [g_bitmap blank_map set_refs set_map]; by rewrite length_replicate|cbn [g_refs blank_map set_refs set_map]; by rewrite length_replicate| |].
    + intros i. rewrite blank_ref. unfold fits. lia.
    + intros i _ _. apply blank_ref.
  - unfold counts_free, count_free. rewrite count_clear_none by apply blank_used. by rewrite length_seqZ.
Qed.

Lemma mark_low s b e : e <= WUBU_VMM_PHYS_BASE -> mark_range s (b, e) = s.
Proof.
  intros He. unfold mark_range, pages_between. rewrite Z.gtb_ltb. unfold WUBU_VMM_PHYS_BASE, WUBU_VMM_PHYS_END, PAGE in *.
  destruct (Z.ltb_spec 0x8000000 e); [lia|]. set (b' := if b <? 0x1000000 then 0x1000000 else b).
  assert (e <= b') by (unfold b'; destruct (Z.ltb_spec b 0x1000000); lia).
  assert ((e - b' + (4096 - 1)) / 4096 < 1) by (apply Z.div_lt_upper_bound; lia).
  replace (Z.to_nat _) with 0%nat by lia. done.
Qed.

Lemma mark_heap s : mark_range (Some s) (0x400000, 0x4400000) = Some (foldl bm_set s (seqZ 0 13312)).
Proof.
  unfold mark_range. change (0x400000 <? WUBU_VMM_PHYS_BASE) with true. change (0x4400000 >? WUBU_VMM_PHYS_END) with false. cbv iota.
  replace WUBU_VMM_PHYS_BASE with (page_addr 0 + 0) by done. replace 0x4400000 with (page_addr 13312) by done.
  rewrite mark_pages by (lia || done). by replace (13312 - 0) with 13312 by lia.
Qed.

Lemma mark_set_Z n s q : alloc_wf s -> 0 <= n -> 0 <= q -> q + n <= WUBU_VMM_BITMAP_BITS ->
  let s' := foldl bm_set s (seqZ q n) in
  alloc_wf s' /\ g_mem s' = g_mem s /\ g_refs s' = g_refs s /\ g_demand s' = g_demand s /\
  (forall j, in_map j -> used s' j = bool_decide (q <= j < q + n) || used s j) /\
  (clear_run s n q -> counts_free s -> counts_free s').
Proof. intros W Hn H0 Hle. pose proof (mark_set_spec (Z.to_nat n) s q W H0) as H. rewrite Z2Nat.id in H by lia. by apply H. Qed.

(** After the reserved ranges. *)
Definition heap_reserved (s : vmm) : vmm := foldl bm_set (blank_map s) (seqZ 0 13312).

Lemma heap_reserved_spec s :
  let s' := heap_reserved s in
  alloc_inv s' /\ g_mem s' = g_mem s /\ g_demand s' = g_demand s /\ (forall j, ref_of s' j = 0) /\
  (forall j, in_map j -> used s' j = bool_decide (j < 13312)).
Proof.
  unfold heap_reserved. assert (g_mem (blank_map s) = g_mem s) as Em by reflexivity.
  assert (g_demand (blank_map s) = g_demand s) as Ed by reflexivity.
  destruct (blank_inv s) as [W C]. pose proof (blank_used s) as Bu. pose proof (blank_ref s) as Br.
  set (s0 := blank_map s) in *. clearbody s0.
  destruct (mark_set_Z 13312 s0 0 W ltac:(lia) ltac:(lia) ltac:(done)) as (W1 & E1 & F1 & D1 & U1 & C1).
  cbn zeta. specialize (C1 (fun j _ => Bu j) C). set (s' := foldl bm_set s0 (seqZ 0 13312)) in *. clearbody s'. split; [by split|].
  split; [congruence|]. split; [congruence|]. split; [intros j; unfold ref_of; rewrite F1; apply Br|].
  intros j Hj. rewrite U1, Bu, orb_false_r by done. destruct Hj. apply bool_decide_ext. lia.
Qed.

Lemma init_reserved kernel_start stack_top s : link_addr stack_top <= WUBU_VMM_PHYS_BASE ->
  wubu_vmm_init kernel_start stack_top s =
  (if ram_end (g_mem s) <? WUBU_VMM_PHYS_END
   then foldl mark_page (Some (heap_reserved s)) (pages_between (ram_end (g_mem s)) WUBU_VMM_PHYS_END)
   else Some (heap_reserved s)).
Proof.
  intros Hk. unfold wubu_vmm_init. fold (blank_map s). cbn [used_ranges foldl].
  rewrite (mark_low _ (link_addr kernel_start)), (mark_low _ 0x200000) by done. rewrite mark_heap. rewrite !mark_low by done.
  fold (heap_reserved s). cbn [mbind option_bind]. destruct (heap_reserved_spec s) as (_ & -> & _). unfold ram_end.
  destruct (wubu_memmap_init (g_mem s)) as [n [[base len] found]]. destruct ((0 <? n) && found); [done|]. by rewrite Z.ltb_irrefl.
Qed.

Lemma vmm_init_spec kernel_start stack_top s :
  link_addr stack_top <= WUBU_VMM_PHYS_BASE -> page_addr 13312 <= ram_end (g_mem s) ->
  exists s', wubu_vmm_init kernel_start stack_top s = Some s' /\ alloc_inv s' /\ g_mem s' = g_mem s /\ g_demand s' = g_demand s /\
    (forall j, ref_of s' j = 0) /\
    (forall j, in_map j -> used s' j = bool_decide (j < 13312 \/ ram_end (g_mem s) < page_addr (j + 1))).
Proof.
  intros Hk Hr. rewrite init_reserved by done. set (e := ram_end (g_mem s)) in *.
  destruct (heap_reserved_spec s) as ([W C] & E1 & D1 & R1 & U1). set (s1 := heap_reserved s) in *. clearbody s1.
  destruct (Z.ltb_spec e WUBU_VMM_PHYS_END) as [Hlt|Hge].
  2:{ exists s1. split; [done|]. split; [done|]. repeat (split; [done|]). intros j [Hj0 Hj1]. rewrite U1 by done. apply bool_decide_ext.
      split; [lia|]. intros [|H]; [done|]. unfold page_addr, PAGE in H. change WUBU_VMM_BITMAP_BITS with 28672 in *.
      change WUBU_VMM_PHYS_END with (WUBU_VMM_PHYS_BASE + 28672 * 4096) in *. lia. }
  pose proof (Z.div_mod (e - WUBU_VMM_PHYS_BASE) 4096 ltac:(lia)) as Hdm. pose proof (Z.mod_pos_bound (e - WUBU_VMM_PHYS_BASE) 4096 ltac:(lia)) as Hm.
  set (q := (e - WUBU_VMM_PHYS_BASE) / 4096) in *. set (r := (e - WUBU_VMM_PHYS_BASE) mod 4096) in *.
  assert (e = page_addr q + r) as He by (unfold page_addr, PAGE; lia).
  assert (13312 <= q) as Hq by (unfold page_addr, PAGE in *; lia).
  assert (q < 28672) as Hq' by (change WUBU_VMM_PHYS_END with (WUBU_VMM_PHYS_BASE + 28672 * 4096) in *; unfold page_addr, PAGE in *; lia).
  assert (WUBU_VMM_PHYS_END = page_addr 28672) as Eend by done. rewrite Eend, He.
  rewrite mark_pages; [|lia..|change WUBU_VMM_BITMAP_BITS with 28672; lia|lia].
  destruct (mark_set_Z (28672 - q) s1 q W ltac:(lia) ltac:(lia)) as (W2 & E2 & F2 & D2 & U2 & C2); [change WUBU_VMM_BITMAP_BITS with 28672; lia|].
  eexists. split; [reflexivity|]. set (s2 := foldl bm_set s1 _) in *. clearbody s2. split; [split; [done|]|].
  - apply C2; [|done]. intros j Hj. rewrite U1 by (unfold in_map; change WUBU_VMM_BITMAP_BITS with 28672; lia). apply bool_decide_eq_false_2. lia.
  - split; [by rewrite E2|]. split; [by rewrite D2|]. split; [intros j; unfold ref_of; rewrite F2; apply R1|].
    intros j Hj. rewrite U2, U1 by done. destruct Hj as [Hj0 Hj1]. change WUBU_VMM_BITMAP_BITS with 28672 in Hj1.
    unfold page_addr, PAGE. repeat case_bool_decide; (done || lia).
Qed.

(** ** Example states *)

(** All pages free, no page mapped. *)
Definition fresh_vmm (m : memory) : vmm :=
  blank_map {| g_bitmap := []; g_free_pages := 0; g_refs := []; g_demand := [(0xffffffff90000000, 4096)]; g_demand_faults := 0; g_mem := m |}.
Definition no_memory : memory := fun _ => 0.

Lemma empty_tab k va : tab no_memory (S k) va = None.
Proof. induction k as [|k IH]; [reflexivity|]. cbn [tab] in *. by rewrite IH. Qed.
Lemma fresh_inv : vmm_inv (fresh_vmm no_memory).
Proof.
  split; [apply blank_inv|]. constructor.
  - intros x. change (fits 8 0). unfold fits. lia.
  - intros [|k] va t _; [|by rewrite empty_tab]. intros [= <-]. split; [split; [unfold PML4_BASE; lia|reflexivity]|].
    intros i Hi E. destruct Hi as [H0 _]. unfold page_addr, PML4_BASE, PAGE, WUBU_VMM_PHYS_BASE in E. lia.
  - intros [|k] va [|k'] va' t _ _ H1 H2; rewrite ?empty_tab in *; try done. split; [done|]. intros j Hj. lia.
  - intros [|k] va t _; [|by rewrite empty_tab]. intros [= <-]. done.
Qed.
Lemma fresh_small va : small no_memory va.
Proof. intros [|k] t _; [|by rewrite empty_tab]. intros [= <-]. done. Qed.

Lemma fresh_mem m : g_mem (fresh_vmm m) = m.
Proof. reflexivity. Qed.
Lemma fresh_mem_small va : small (g_mem (fresh_vmm no_memory)) va.
Proof. rewrite fresh_mem. apply fresh_small. Qed.

(** ** Mapping *)

(** C14. Where no 2 MB or 1 GB page lies on the way to the address, and for an aligned
    frame below 2^52, [wubu_vmm_map_page] and [wubu_vmm_unmap] are updates of the
    translation function at one page, as the processor computes it: on success exactly the
    addresses of that page translate differently; when mapping fails, memory is full and no
    translation has changed.  Pages that are neither tables nor free keep their bytes,
    allocated pages their references, and the invariant is kept.  (Below a large page a map
    writes into the page's memory: [vmm_map_overwrites_large_page].) *)
Theorem vmm_map_refines_translation s virt phys flags :
  vmm_inv s -> small (g_mem s) virt -> aligned phys -> phys < 2 ^ 52 ->
  (let '(r, s') := wubu_vmm_map_page s virt phys flags in
   (r = 0 /\ remaps s s' virt (fun o => if Z.testbit flags 0 then Some (phys + o, Z.testbit flags 1) else None)) \/
   (r = -1 /\ quiet s s' /\ memory_full s')) /\
  (let '(r, s') := wubu_vmm_unmap s virt in
   (r = 0 /\ remaps s s' virt (fun _ => None)) \/ (r = -1 /\ s' = s /\ translate (g_mem s) virt = None)).
Proof. intros I Hs Hp H52. split; [by apply map_page_spec|by apply unmap_spec]. Qed.

Lemma vmm_map_refines_translation_witness :
  let '(r, s') := wubu_vmm_map_page (fresh_vmm no_memory) 0xffffffff90000000 0x5000 3 in
  (r = 0 /\ remaps (fresh_vmm no_memory) s' 0xffffffff90000000 (fun o => if Z.testbit 3 0 then Some (0x5000 + o, Z.testbit 3 1) else None)) \/
  (r = -1 /\ quiet (fresh_vmm no_memory) s' /\ memory_full s').
Proof.
  assert (aligned 0x5000) as Ha by (split; [lia|reflexivity]). assert (0x5000 < 2 ^ 52) as Hb by lia.
  pose proof (vmm_map_refines_translation (fresh_vmm no_memory) 0xffffffff90000000 0x5000 3 fresh_inv (fresh_mem_small _) Ha Hb) as [H _].
  exact H.
Defined.

(** ** Faults *)

(** A fault in a demand-zero region maps a page that was free, is zeroed and
    has one reference, writable, at the faulting page; no other translation changes
    and no page in use is touched.  When memory runs out nothing is mapped and the
    page is given back; outside the regions nothing happens. *)
Theorem vmm_demand_fault_maps_zero_page s va : vmm_inv s -> small (g_mem s) va ->
  let '(r, s') := wubu_vmm_demand_fill s va in
  if wubu_vmm_is_demand s va then (r = 0 /\ exists i, fills_zero s s' va i) \/ (r = -1 /\ unchanged s s')
  else r = -1 /\ s' = s.
Proof. apply demand_fill_spec. Qed.

Lemma vmm_demand_fault_maps_zero_page_witness :
  wubu_vmm_is_demand (fresh_vmm no_memory) 0xffffffff90000123 = true /\
  let '(r, s') := wubu_vmm_demand_fill (fresh_vmm no_memory) 0xffffffff90000123 in
  if wubu_vmm_is_demand (fresh_vmm no_memory) 0xffffffff90000123
  then (r = 0 /\ exists i, fills_zero (fresh_vmm no_memory) s' 0xffffffff90000123 i) \/ (r = -1 /\ unchanged (fresh_vmm no_memory) s')
  else r = -1 /\ s' = fresh_vmm no_memory.
Proof.
  split; [vm_compute; reflexivity|].
  pose proof (vmm_demand_fault_maps_zero_page (fresh_vmm no_memory) 0xffffffff90000123 fresh_inv (fresh_mem_small _)) as H. exact H.
Defined.


(** The first page of the allocator, mapped read-only and shared. *)
Definition shared_va : Z := 0xffffffffA0000000.
Definition shared_vmm : vmm :=
  (wubu_vmm_map_shared (wubu_vmm_alloc_pages (fresh_vmm no_memory) 1).2 shared_va WUBU_VMM_PHYS_BASE).2.

Lemma shared_inv : vmm_inv shared_vmm.
Proof.
  unfold shared_vmm, wubu_vmm_map_shared. pose proof (alloc_keeps_inv _ 1 fresh_inv ltac:(unfold fits; lia)) as I.
  assert (g_mem (wubu_vmm_alloc_pages (fresh_vmm no_memory) 1).2 = no_memory) as E.
  { pose proof (alloc_one _ (proj1 fresh_inv)) as H. destruct (wubu_vmm_alloc_pages (fresh_vmm no_memory) 1) as [p s1].
    destruct H as [(_ & -> & _)|(i & _ & _ & _ & _ & _ & T)]; [apply fresh_mem|]. cbn [snd]. rewrite (tk_mem _ _ _ _ T). apply fresh_mem. }
  set (s1 := (wubu_vmm_alloc_pages (fresh_vmm no_memory) 1).2) in *. clearbody s1.
  apply map_keeps_inv; [by apply ref_keeps_inv| |split; [unfold WUBU_VMM_PHYS_BASE; lia|reflexivity]|unfold WUBU_VMM_PHYS_BASE; lia].
  destruct (vmm_ref_same s1 WUBU_VMM_PHYS_BASE 1 (proj1 I)) as (_ & _ & -> & _). rewrite E. apply fresh_small.
Qed.
Lemma shared_tabs : tab (g_mem shared_vmm) 1 shared_va = Some 0x1001000 /\ tab (g_mem shared_vmm) 2 shared_va = Some 0x1002000 /\
  tab (g_mem shared_vmm) 3 shared_va = Some 0x1003000 /\ entry (g_mem shared_vmm) 0x1003000 (index 3 shared_va) = 0x1000001.
Proof. vm_compute. done. Qed.
Lemma shared_small : small (g_mem shared_vmm) shared_va.
Proof.
  destruct shared_tabs as (T1 & T2 & T3 & _). intros [|[|[|k]]] t Hk; [| | |lia].
  - intros _. reflexivity.
  - rewrite T1. intros E. injection E as <-. vm_compute. reflexivity.
  - rewrite T2. intros E. injection E as <-. vm_compute. reflexivity.
Qed.
Lemma shared_clean : clean_leaf (g_mem shared_vmm) shared_va.
Proof. destruct shared_tabs as (_ & _ & T3 & E). intros t. rewrite T3. intros Et. injection Et as <-. rewrite E. lia. Qed.
Lemma shared_facts : translate (g_mem shared_vmm) shared_va = Some (0x1000000, false) /\ wubu_vmm_refcount shared_vmm 0x1000000 = 2 /\
  used shared_vmm 4 = false.
Proof. vm_compute. done. Qed.


(** ** The allocator *)

(** The operations, the arguments any. *)
Inductive vmm_op :=
  | OAlloc (n : Z) | OFree (phys n : Z) | ORef (phys n : Z)
  | OMap (virt phys flags : Z) | OUnmap (virt : Z) | OShare (virt phys : Z)
  | ODemand (va : Z) | OCow (va : Z) | ORegister (base pages : Z).
Definition op_wf (o : vmm_op) : Prop := match o with OAlloc n => fits 32 n | _ => True end.

Definition run_op (s : vmm) (o : vmm_op) : vmm :=
  match o with
  | OAlloc n => (wubu_vmm_alloc_pages s n).2
  | OFree phys n => wubu_vmm_free_pages s phys n
  | ORef phys n => wubu_vmm_ref s phys n
  | OMap virt phys flags => (wubu_vmm_map_page s virt phys flags).2
  | OUnmap virt => (wubu_vmm_unmap s virt).2
  | OShare virt phys => (wubu_vmm_map_shared s virt phys).2
  | ODemand va => (wubu_vmm_demand_fill s va).2
  | OCow va => (wubu_vmm_cow_fault s va).2
  | ORegister base pages => (wubu_vmm_register_demand s base pages).2
  end.

Lemma set_vmem_alloc s m : alloc_inv s -> alloc_inv (set_vmem s m).
Proof. intros [A C]. split; [by apply (alloc_wf_same s)|by apply (counts_free_same s)]. Qed.
Lemma alloc_one_inv s : alloc_inv s -> alloc_inv (wubu_vmm_alloc_pages s 1).2.
Proof. intros I. apply alloc_pages_inv; [done|unfold fits; lia]. Qed.

Lemma next_table_alloc s t i : alloc_inv s -> alloc_inv (next_table s t i).2.
Proof.
  intros I. unfold next_table. destruct (present _); [done|]. pose proof (alloc_one_inv s I) as I1.
  destruct (wubu_vmm_alloc_pages s 1) as [p s1]. destruct (p =? 0); [done|]. by repeat apply set_vmem_alloc.
Qed.
Lemma map_page_alloc s virt phys flags : alloc_inv s -> alloc_inv (wubu_vmm_map_page s virt phys flags).2.
Proof.
  intros I. unfold wubu_vmm_map_page.
  pose proof (next_table_alloc s PML4_BASE (ix4 virt) I) as I1. destruct (next_table s _ _) as [[t1|] s1]; [|done].
  pose proof (next_table_alloc s1 t1 (ix3 virt) I1) as I2. destruct (next_table s1 _ _) as [[t2|] s2]; [|done].
  pose proof (next_table_alloc s2 t2 (ix2 virt) I2) as I3. destruct (next_table s2 _ _) as [[t3|] s3]; [|done]. by apply set_vmem_alloc.
Qed.
Lemma demand_fill_alloc s va : alloc_inv s -> alloc_inv (wubu_vmm_demand_fill s va).2.
Proof.
  intros I. unfold wubu_vmm_demand_fill. destruct (wubu_vmm_is_demand s va); [|done]. cbn [negb].
  pose proof (alloc_one_inv s I) as I1. destruct (wubu_vmm_alloc_pages s 1) as [p s1]. destruct (p =? 0); [done|].
  set (s2 := set_vmem s1 _). pose proof (map_page_alloc s2 (page_base va) p 3 (set_vmem_alloc s1 _ I1)) as I3.
  destruct (wubu_vmm_map_page s2 _ _ _) as [r s3]. destruct (negb (r =? 0)); [by apply free_pages_inv|].
  destruct I3 as [A C]. split; [by apply (alloc_wf_same s3)|by apply (counts_free_same s3)].
Qed.
Lemma cow_fault_alloc s va : alloc_inv s -> alloc_inv (wubu_vmm_cow_fault s va).2.
Proof.
  intros I. unfold wubu_vmm_cow_fault. destruct (find_pt _ _) as [pt|]; [|done]. destruct (negb (present _)); [done|].
  destruct (negb (Z.land _ 2 =? 0)); [done|]. destruct (wubu_vmm_refcount s _ <=? 1); [by apply set_vmem_alloc|].
  pose proof (alloc_one_inv s I) as I1. destruct (wubu_vmm_alloc_pages s 1) as [p s1]. destruct (p =? 0); [done|].
  by apply set_vmem_alloc, free_pages_inv, set_vmem_alloc.
Qed.

Lemma run_op_alloc s o : op_wf o -> alloc_inv s -> alloc_inv (run_op s o).
Proof.
  intros Ho I. destruct o; cbn [run_op op_wf] in *.
  - by apply alloc_pages_inv.
  - by apply free_pages_inv.
  - by apply vmm_ref_inv.
  - by apply map_page_alloc.
  - unfold wubu_vmm_unmap. destruct (find_pt _ _); [by apply set_vmem_alloc|done].
  - by apply map_page_alloc, vmm_ref_inv.
  - by apply demand_fill_alloc.
  - by apply cow_fault_alloc.
  - unfold wubu_vmm_register_demand. destruct (Nat.leb _ _); [done|]. destruct I as [A C].
    split; [by apply (alloc_wf_same s)|by apply (counts_free_same s)].
Qed.

(** From start-up on a machine with at least 68 MB, whatever operations run
    with whatever arguments, the allocator's books are right: [g_free_pages] is the
    number of clear bits, a free page has no references and every count fits its 16
    bits.  Start-up itself reserves exactly the pages below 0x4400000 and those
    that end behind the memory the loader reported. *)
Theorem vmm_allocator_books_balance kernel_start stack_top s ops :
  link_addr stack_top <= WUBU_VMM_PHYS_BASE -> 0x4400000 <= ram_end (g_mem s) -> Forall op_wf ops ->
  exists s0, wubu_vmm_init kernel_start stack_top s = Some s0 /\ alloc_inv (foldl run_op s0 ops) /\
    (forall j, in_map j -> used s0 j = bool_decide (page_addr j < 0x4400000 \/ ram_end (g_mem s) < page_addr (j + 1))).
Proof.
  intros Hk Hr Hops. destruct (vmm_init_spec kernel_start stack_top s Hk Hr) as (s0 & E & I & _ & _ & _ & Hu). exists s0.
  split; [exact E|]. split.
  - clear E Hu. revert s0 I. induction Hops as [|o ops Ho _ IH]; intros s0 I; [done|]. cbn [foldl]. by apply IH, run_op_alloc.
  - intros j Hj. rewrite Hu by done. apply bool_decide_ext. unfold page_addr, PAGE, WUBU_VMM_PHYS_BASE in *. lia.
Qed.

Lemma vmm_allocator_books_balance_witness :
  exists s0, wubu_vmm_init 0xffffffff80100000 0xffffffff80200000 (fresh_vmm no_memory) = Some s0 /\
    alloc_inv (foldl run_op s0 [OAlloc 3; ORef 0x4400000 2; OFree 0x4400000 3; OMap 0 0x5000 3]) /\
    (forall j, in_map j -> used s0 j = bool_decide (page_addr j < 0x4400000 \/ ram_end (g_mem (fresh_vmm no_memory)) < page_addr (j + 1))).
Proof.
  assert (Forall op_wf [OAlloc 3; ORef 0x4400000 2; OFree 0x4400000 3; OMap 0 0x5000 3]) as Ho by (repeat constructor; lia).
  assert (0x4400000 <= ram_end (g_mem (fresh_vmm no_memory))) as Hr by (rewrite fresh_mem; vm_compute; discriminate).
  pose proof (vmm_allocator_books_balance 0xffffffff80100000 0xffffffff80200000 (fresh_vmm no_memory) _ ltac:(vm_compute; discriminate) Hr Ho) as H.
  exact H.
Defined.

(** ** Defects *)

(** A table entry that maps a large page is taken for a pointer to a table: mapping
    into a window of 2 MB pages stores the new entry into the memory the large page
    maps, reports success, and the address still translates to the large page. *)
Definition large_mem : memory :=
  put64 (put64 (put64 no_memory PML4_BASE 0x301003) 0x301000 0x302003) 0x302008 0x200083.
Lemma vmm_map_overwrites_large_page :
  let '(r, s') := wubu_vmm_map_page (fresh_vmm large_mem) 0x345000 0x5000 3 in
  (r, translate (g_mem s') 0x345000, get64 large_mem 0x200A28, get64 (g_mem s') 0x200A28) = (0, Some (0x345000, true), 0, 0x5003).
Proof. vm_compute. reflexivity. Qed.

(** Any page mapped read-only becomes writable at the first write, also one that
    was never shared. *)
Lemma vmm_cow_fault_lifts_write_protection :
  let s := (wubu_vmm_map_page (fresh_vmm no_memory) 0xffffffff9ffe0000 0x5000 1).2 in
  let '(r, s') := wubu_vmm_cow_fault s 0xffffffff9ffe0000 in
  (translate (g_mem s) 0xffffffff9ffe0000, r, translate (g_mem s') 0xffffffff9ffe0000) = (Some (0x5000, false), 1, Some (0x5000, true)).
Proof. vm_compute. reflexivity. Qed.

(** Pages reserved at start-up have no references, so freeing one hands it to the
    next allocation: here the first page of the heap. *)
Lemma vmm_reserved_page_is_freed kernel_start stack_top s :
  link_addr stack_top <= WUBU_VMM_PHYS_BASE -> 0x4400000 <= ram_end (g_mem s) ->
  exists s0, wubu_vmm_init kernel_start stack_top s = Some s0 /\
    (wubu_vmm_alloc_pages (wubu_vmm_free_pages s0 0x1000000 1) 1).1 = 0x1000000.
Proof.
  intros Hk Hr. destruct (vmm_init_spec kernel_start stack_top s Hk Hr) as (s0 & E & [W C] & _ & _ & Href & Hu). exists s0. split; [exact E|]. clear E.
  assert (in_map 0) as H0 by (split; [lia|reflexivity]). assert (used s0 0 = true) as Hu0 by (rewrite Hu by done; apply bool_decide_eq_true_2; lia).
  pose proof (free_one s0 0 W H0 Hu0) as D. change (page_addr 0) with 0x1000000 in D. set (s1 := wubu_vmm_free_pages s0 0x1000000 1) in *. clearbody s1.
  assert (used s1 0 = false) as Hf by (rewrite (dr_used _ _ _ D), Hu0, Href, bool_decide_eq_true_2 by (done || lia); done).
  pose proof (alloc_one s1 (dr_wf _ _ _ D)) as A. destruct (wubu_vmm_alloc_pages s1 1) as [p s2]. cbn [fst].
  destruct A as [(_ & _ & Hall)|(i & -> & _ & Hi & _ & Hlow & _)]; [by rewrite (Hall 0) in Hf|].
  destruct (decide (i = 0)) as [->|Hne]; [done|]. rewrite (Hlow 0) in Hf by (destruct Hi; lia). done.
Qed.

(** A machine whose largest memory region is [base, base + len). *)
Definition ram_mem (base len : Z) : memory :=
  put_mem no_memory WUBU_MEMMAP_ADDR (le_enc 2 1 ++ le_enc 8 base ++ le_enc 8 len ++ le_enc 4 1).

Lemma marks_count n : forall s q, g_free_pages (foldl bm_set s (seqZ q (Z.of_nat n))) = if decide (n = 0%nat) then g_free_pages s else u64 (g_free_pages s - Z.of_nat n).
Proof.
  induction n as [|n IH]; intros s q; [done|]. rewrite seqZ_cons by lia. cbn [foldl]. replace (Z.pred (Z.of_nat (S n))) with (Z.of_nat n) by lia.
  rewrite IH. cbn [g_free_pages bm_set set_map]. rewrite (decide_False (P := S n = 0%nat)) by lia. case_decide; [subst; f_equal; lia|].
  unfold wrap. rewrite Zminus_mod_idemp_l. f_equal. lia.
Qed.
Lemma marks_count_Z n s q : 0 < n -> g_free_pages (foldl bm_set s (seqZ q n)) = u64 (g_free_pages s - n).
Proof. intros Hn. pose proof (marks_count (Z.to_nat n) s q) as H. rewrite Z2Nat.id in H by lia. rewrite H. by rewrite decide_False by lia. Qed.
Lemma mark_none l : foldl mark_page None l = None.
Proof. by induction l. Qed.

Lemma marks_outside s b e : b < WUBU_VMM_PHYS_BASE -> b < e ->
  WUBU_VMM_BITMAP_BITS <= u32 (u64 (b - WUBU_VMM_PHYS_BASE) / PAGE) -> foldl mark_page (Some s) (pages_between b e) = None.
Proof.
  intros Hb He Hi. unfold pages_between. assert (1 <= (e - b + (PAGE - 1)) / PAGE) as Hn by (apply Z.div_le_lower_bound; unfold PAGE; lia).
  destruct (Z.to_nat ((e - b + (PAGE - 1)) / PAGE)) as [|n] eqn:E; [lia|]. cbn [seq fmap list_fmap foldl].
  replace (b + PAGE * Z.of_nat 0) with b by lia. cbn [mark_page mbind option_bind].
  destruct (Z.ltb_spec (u32 (u64 (b - WUBU_VMM_PHYS_BASE) / PAGE)) WUBU_VMM_BITMAP_BITS); [lia|]. apply mark_none.
Qed.
Lemma reserved_count s : g_free_pages (foldl bm_set (heap_reserved s) (seqZ 4096 (28672 - 4096))) = 2 ^ 64 - 9216.
Proof.
  rewrite marks_count_Z by lia. unfold heap_reserved. rewrite marks_count_Z by lia.
  assert (g_free_pages (blank_map s) = 28672) as -> by reflexivity. reflexivity.
Qed.

(** With 32 MB the pages between its end and 0x4400000 are counted twice and the
    free count falls below zero; with 8 MB start-up writes outside the bitmap. *)
Lemma vmm_init_on_small_machines kernel_start stack_top :
  link_addr stack_top <= WUBU_VMM_PHYS_BASE ->
  g_free_pages <$> wubu_vmm_init kernel_start stack_top (fresh_vmm (ram_mem 0x100000 0x1F00000)) = Some (2 ^ 64 - 9216) /\
  wubu_vmm_init kernel_start stack_top (fresh_vmm (ram_mem 0x100000 0x700000)) = None.
Proof.
  intros Hk. rewrite !init_reserved, !fresh_mem by done. split.
  - assert (ram_end (ram_mem 0x100000 0x1F00000) = page_addr 4096 + 0) as -> by (vm_compute; reflexivity).
    change (page_addr 4096 + 0 <? WUBU_VMM_PHYS_END) with true. cbv iota. replace WUBU_VMM_PHYS_END with (page_addr 28672) by done.
    rewrite mark_pages by (lia || (split; [lia|reflexivity])). apply (f_equal Some), reserved_count.
  - assert (ram_end (ram_mem 0x100000 0x700000) = 0x800000) as -> by (vm_compute; reflexivity).
    change (0x800000 <? WUBU_VMM_PHYS_END) with true. cbv iota. by apply marks_outside.
Qed.
