(* ===== verification/Ahci.v ===== *)
(** * The simulated AHCI controller

    [kernel/ahci.c]: reset, ports, error recovery and sector transfers on the
    simulated disks.  The controller is a value, a disk the bytes of its buffer.
    [allocs] lists the outcomes of the coming calls of [calloc]; when it is
    exhausted they succeed.  [None] is a copy outside the disk's buffer. *)

From S2P Require Import Prelude Heap.
Open Scope Z_scope.

Definition AHCI_MAX_PORTS : Z := 32.
Definition AHCI_SECTOR_SIZE : Z := 512.
Definition AHCI_GHC_HR : Z := 1.
Definition AHCI_GHC_AE : Z := 0x80000000.

Inductive ahci_port_state := AHCI_PORT_EMPTY | AHCI_PORT_PRESENT | AHCI_PORT_ACTIVE | AHCI_PORT_FAULT | AHCI_PORT_ERROR.
Inductive ahci_dev_type := AHCI_DEV_NONE | AHCI_DEV_SATA | AHCI_DEV_SATAPI | AHCI_DEV_SEMB.
#[global] Instance ahci_port_state_eq : EqDecision ahci_port_state.
Proof. solve_decision. Defined.

Record ahci_port := {
  port_num : Z;
  p_state : ahci_port_state;
  p_dev_type : ahci_dev_type;
  p_signature : Z;
  p_lba_count : Z;
  p_sector_size : Z;
  p_cmd_list : bool;          (* allocated *)
  p_cmd_table : bool;
  p_serr : Z;
  p_pis : Z;
  p_sim_disk : option memory;
  p_sim_disk_size : Z }.

Record ahci_hba := {
  a_cap : Z;
  a_ghc : Z;
  a_is : Z;
  a_pi : Z;
  a_version : Z;
  a_ports : list ahci_port;
  a_num_ports : Z;
  a_initialized : bool;
  a_reads : Z;
  a_writes : Z }.

Definition AHCI_SIG_SATA : Z := 0x00000101.
Definition AHCI_SIG_SATAPI : Z := 0xEB140101.
Definition AHCI_SIG_SEMB : Z := 0xEF0101.
Definition ahci_dev_type_from_sig (signature : Z) : ahci_dev_type :=
  if signature =? AHCI_SIG_SATA then AHCI_DEV_SATA
  else if signature =? AHCI_SIG_SATAPI then AHCI_DEV_SATAPI
  else if signature =? AHCI_SIG_SEMB then AHCI_DEV_SEMB
  else AHCI_DEV_NONE.

Definition set_regs (h : ahci_hba) (ghc is_ : Z) : ahci_hba :=
  {| a_cap := a_cap h; a_ghc := ghc; a_is := is_; a_pi := a_pi h; a_version := a_version h; a_ports := a_ports h;
     a_num_ports := a_num_ports h; a_initialized := a_initialized h; a_reads := a_reads h; a_writes := a_writes h |}.
Definition set_ports (h : ahci_hba) (ps : list ahci_port) (n : Z) (init : bool) : ahci_hba :=
  {| a_cap := a_cap h; a_ghc := a_ghc h; a_is := a_is h; a_pi := a_pi h; a_version := a_version h; a_ports := ps;
     a_num_ports := n; a_initialized := init; a_reads := a_reads h; a_writes := a_writes h |}.
Definition set_stats (h : ahci_hba) (r w : Z) : ahci_hba :=
  {| a_cap := a_cap h; a_ghc := a_ghc h; a_is := a_is h; a_pi := a_pi h; a_version := a_version h; a_ports := a_ports h;
     a_num_ports := a_num_ports h; a_initialized := a_initialized h; a_reads := r; a_writes := w |}.

(** ** The controller *)

Fixpoint reset_loop (fuel : nat) (i ghc : Z) : Z :=
  match fuel with
  | O => ghc
  | S fuel =>
      if Z.land ghc AHCI_GHC_HR =? 0 then ghc
      else reset_loop fuel (i + 1) (if 2 <=? i then Z.land ghc (Z.lnot AHCI_GHC_HR) else ghc)
  end.
Definition ahci_hba_reset (h : ahci_hba) : Z * ahci_hba :=
  let ghc := reset_loop (Z.to_nat 100000) 0 (Z.lor (a_ghc h) AHCI_GHC_HR) in
  if negb (Z.land ghc AHCI_GHC_HR =? 0) then (-1, set_regs h ghc (a_is h))
  else (0, set_regs h AHCI_GHC_AE 0).

Definition blank_port (i : nat) : ahci_port :=
  {| port_num := Z.of_nat i; p_state := AHCI_PORT_EMPTY; p_dev_type := AHCI_DEV_NONE; p_signature := 0; p_lba_count := 0;
     p_sector_size := 0; p_cmd_list := false; p_cmd_table := false; p_serr := 0; p_pis := 0; p_sim_disk := None;
     p_sim_disk_size := 0 |}.

Definition ahci_hba_init : Z * ahci_hba :=
  ahci_hba_reset
    {| a_cap := Z.lor 32 (Z.lor (Z.shiftl 1 5) (Z.lor (Z.shiftl 1 6) (Z.lor (Z.shiftl 1 8) (Z.lor (Z.shiftl 1 15) (Z.shiftl 1 20)))));
       a_ghc := AHCI_GHC_AE; a_is := 0; a_pi := 3; a_version := 0x00010301;
       a_ports := blank_port <$> seq 0 (Z.to_nat AHCI_MAX_PORTS); a_num_ports := 0; a_initialized := true;
       a_reads := 0; a_writes := 0 |}.

(** ** Ports *)

Definition set_state (p : ahci_port) (st : ahci_port_state) (d : ahci_dev_type) (sig : Z) : ahci_port :=
  {| port_num := port_num p; p_state := st; p_dev_type := d; p_signature := sig; p_lba_count := p_lba_count p;
     p_sector_size := p_sector_size p; p_cmd_list := p_cmd_list p; p_cmd_table := p_cmd_table p; p_serr := p_serr p;
     p_pis := p_pis p; p_sim_disk := p_sim_disk p; p_sim_disk_size := p_sim_disk_size p |}.
Definition set_cmd (p : ahci_port) (l t : bool) (sector : Z) : ahci_port :=
  {| port_num := port_num p; p_state := p_state p; p_dev_type := p_dev_type p; p_signature := p_signature p; p_lba_count := p_lba_count p;
     p_sector_size := sector; p_cmd_list := l; p_cmd_table := t; p_serr := p_serr p;
     p_pis := p_pis p; p_sim_disk := p_sim_disk p; p_sim_disk_size := p_sim_disk_size p |}.
Definition set_errs (p : ahci_port) (serr pis : Z) : ahci_port :=
  {| port_num := port_num p; p_state := p_state p; p_dev_type := p_dev_type p; p_signature := p_signature p; p_lba_count := p_lba_count p;
     p_sector_size := p_sector_size p; p_cmd_list := p_cmd_list p; p_cmd_table := p_cmd_table p; p_serr := serr;
     p_pis := pis; p_sim_disk := p_sim_disk p; p_sim_disk_size := p_sim_disk_size p |}.
Definition set_disk (p : ahci_port) (d : option memory) (size lba sector : Z) : ahci_port :=
  {| port_num := port_num p; p_state := p_state p; p_dev_type := p_dev_type p; p_signature := p_signature p; p_lba_count := lba;
     p_sector_size := sector; p_cmd_list := p_cmd_list p; p_cmd_table := p_cmd_table p; p_serr := p_serr p;
     p_pis := p_pis p; p_sim_disk := d; p_sim_disk_size := size |}.

(** The port of a number the operations accept. *)
Definition port_at (h : ahci_hba) (n : Z) : option ahci_port :=
  if (n <? 0) || (AHCI_MAX_PORTS <=? n) then None else a_ports h !! Z.to_nat n.
Definition put_port (h : ahci_hba) (n : Z) (p : ahci_port) : ahci_hba :=
  set_ports h (<[Z.to_nat n := p]> (a_ports h)) (a_num_ports h) (a_initialized h).

Definition ahci_port_recover (h : ahci_hba) (n : Z) : Z * ahci_hba :=
  match port_at h n with
  | None => (-1, h)
  | Some p =>
      let had_err := p_serr p in
      let p := set_errs p 0 0 in
      let h := set_regs h (a_ghc h) (Z.land (a_is h) (u32 (Z.lnot (Z.shiftl 1 n)))) in
      let p := match p_state p with
               | AHCI_PORT_ERROR =>
                   set_state p (match p_dev_type p with AHCI_DEV_NONE => AHCI_PORT_EMPTY | _ => AHCI_PORT_PRESENT end)
                     (p_dev_type p) (p_signature p)
               | _ => p
               end in
      (if had_err =? 0 then 1 else 0, put_port h n p)
  end.

Definition enumerate_port (pi : Z) (i : nat) (p : ahci_port) : ahci_port :=
  if Z.testbit pi (Z.of_nat i) then
    {| port_num := Z.of_nat i; p_state := AHCI_PORT_PRESENT; p_dev_type := ahci_dev_type_from_sig AHCI_SIG_SATA;
       p_signature := AHCI_SIG_SATA; p_lba_count := p_lba_count p; p_sector_size := p_sector_size p; p_cmd_list := p_cmd_list p;
       p_cmd_table := p_cmd_table p; p_serr := p_serr p; p_pis := p_pis p; p_sim_disk := p_sim_disk p;
       p_sim_disk_size := p_sim_disk_size p |}
  else p.
Definition ahci_enumerate_ports (h : ahci_hba) : Z * ahci_hba :=
  if negb (a_initialized h) then (-1, h)
  else
    let count := Z.of_nat (length (filter (fun i => Z.testbit (a_pi h) (Z.of_nat i) = true) (seq 0 (Z.to_nat AHCI_MAX_PORTS)))) in
    (count, set_ports h (imap (enumerate_port (a_pi h)) (a_ports h)) count (a_initialized h)).

Definition pop_alloc (allocs : list bool) : bool * list bool :=
  match allocs with [] => (true, []) | b :: bs => (b, bs) end.

Definition ahci_port_init (h : ahci_hba) (n : Z) (allocs : list bool) : Z * ahci_hba * list bool :=
  match port_at h n with
  | None => (-1, h, allocs)
  | Some p =>
      match p_state p with
      | AHCI_PORT_EMPTY => (-1, h, allocs)
      | _ =>
          let '(ok, allocs) := pop_alloc allocs in
          if negb ok then (-1, put_port h n (set_cmd p false (p_cmd_table p) (p_sector_size p)), allocs)
          else
            let '(ok, allocs) := pop_alloc allocs in
            if negb ok then (-1, put_port h n (set_cmd p false false (p_sector_size p)), allocs)
            else (0, put_port h n (set_cmd (set_state p AHCI_PORT_ACTIVE (p_dev_type p) (p_signature p)) true true AHCI_SECTOR_SIZE), allocs)
      end
  end.

Definition ahci_sim_disk_destroy (h : ahci_hba) (n : Z) : ahci_hba :=
  match port_at h n with
  | None => h
  | Some p =>
      match p_sim_disk p with
      | None => h
      | Some _ => put_port h n (set_disk p None 0 0 (p_sector_size p))
      end
  end.

Definition ahci_hba_shutdown (h : ahci_hba) : ahci_hba :=
  let h := foldl (fun h n =>
    match port_at h n with
    | None => h
    | Some p => ahci_sim_disk_destroy (put_port h n (set_cmd p false false (p_sector_size p))) n
    end) h (seqZ 0 AHCI_MAX_PORTS) in
  set_ports h (a_ports h) 0 false.

(** ** Simulated disks *)

Definition ahci_sim_disk_create (h : ahci_hba) (n size_mb : Z) (allocs : list bool) : Z * ahci_hba * list bool :=
  match port_at h n with
  | None => (-1, h, allocs)
  | Some p =>
      let size := u64 (size_mb * 1024 * 1024) in
      let '(ok, allocs) := pop_alloc allocs in
      if negb ok then (-1, put_port h n (set_disk p None (p_sim_disk_size p) (p_lba_count p) (p_sector_size p)), allocs)
      else (0, put_port h n (set_disk p (Some (fun _ => 0)) size (size / AHCI_SECTOR_SIZE) AHCI_SECTOR_SIZE), allocs)
  end.

(** The bounds check of both transfers: the disk, the offset and the byte count. *)
Definition transfer (h : ahci_hba) (n lba count : Z) : option (ahci_port * memory * Z * Z) :=
  match port_at h n with
  | None => None
  | Some p =>
      if decide (p_state p <> AHCI_PORT_ACTIVE) then None
      else match p_sim_disk p with
           | None => None
           | Some d =>
               let offset := u64 (lba * AHCI_SECTOR_SIZE) in
               let nbytes := u64 (count * AHCI_SECTOR_SIZE) in
               if u64 (offset + nbytes) >? p_sim_disk_size p then None else Some (p, d, offset, nbytes)
           end
  end.
Definition in_disk (p : ahci_port) (offset nbytes : Z) : bool := offset + nbytes <=? p_sim_disk_size p.

(** The bytes read; none when the result is -1. *)
Definition ahci_read (h : ahci_hba) (n lba count : Z) : option (Z * list Z * ahci_hba) :=
  match transfer h n lba count with
  | None => Some (-1, [], h)
  | Some (p, d, offset, nbytes) =>
      if in_disk p offset nbytes
      then Some (s32 count, get_bytes d offset (Z.to_nat nbytes), set_stats h (u64 (a_reads h + 1)) (a_writes h))
      else None
  end.

(** [buf] has at least [count] sectors. *)
Definition ahci_write (h : ahci_hba) (n lba count : Z) (buf : list Z) : option (Z * ahci_hba) :=
  match transfer h n lba count with
  | None => Some (-1, h)
  | Some (p, d, offset, nbytes) =>
      if in_disk p offset nbytes
      then Some (s32 count,
             set_stats (put_port h n (set_disk p (Some (put_mem d offset (take (Z.to_nat nbytes) buf))) (p_sim_disk_size p)
                          (p_lba_count p) (p_sector_size p))) (a_reads h) (u64 (a_writes h + 1)))
      else None
  end.
