(* ===== verification/Swap.v ===== *)
(** * Swapping pages to disk

    [kernel/wubu_swap.c] and the page-fault dispatch of
    [kernel/interrupt_exceptions.c], on the virtual memory of [Vmm] and the
    simulated disk of [Ahci].  The static tables of the module are a record
    together with the parts they act on.  [None] is a copy outside the disk. *)

From S2P Require Import Prelude Heap Vmm Ahci.
Open Scope Z_scope.

Definition WUBU_SWAP_SLOTS : Z := 512.
Definition WUBU_SWAP_SECTOR : Z := 4096.
Definition WUBU_SWAP_PAGE_SECS : Z := 8.
Definition SWAP_FRAMES : Z := 4096.

Record swap := {
  w_vmm : vmm;
  w_hba : ahci_hba;
  w_hba_ready : bool;
  w_allocs : list bool;       (* outcomes of the coming calls of calloc *)
  w_done : bool;              (* [done] of [slot_init] *)
  w_slots : list Z;           (* g_slots, -1 when free *)
  w_frame_slot : list Z;      (* g_frame_slot, the slot plus one *)
  w_va_slot : list Z;
  w_va_addr : list Z;
  w_count : Z }.

Definition set_parts (w : swap) (v : vmm) (h : ahci_hba) : swap :=
  {| w_vmm := v; w_hba := h; w_hba_ready := w_hba_ready w; w_allocs := w_allocs w; w_done := w_done w; w_slots := w_slots w;
     w_frame_slot := w_frame_slot w; w_va_slot := w_va_slot w; w_va_addr := w_va_addr w; w_count := w_count w |}.
Definition set_ready (w : swap) (h : ahci_hba) (allocs : list bool) : swap :=
  {| w_vmm := w_vmm w; w_hba := h; w_hba_ready := true; w_allocs := allocs; w_done := w_done w; w_slots := w_slots w;
     w_frame_slot := w_frame_slot w; w_va_slot := w_va_slot w; w_va_addr := w_va_addr w; w_count := w_count w |}.
Definition set_tables (w : swap) (slots frames vas addrs : list Z) (count : Z) : swap :=
  {| w_vmm := w_vmm w; w_hba := w_hba w; w_hba_ready := w_hba_ready w; w_allocs := w_allocs w; w_done := true; w_slots := slots;
     w_frame_slot := frames; w_va_slot := vas; w_va_addr := addrs; w_count := count |}.

Definition nthz (l : list Z) (i : Z) : Z := default 0 (l !! Z.to_nat i).
Definition setz (l : list Z) (i v : Z) : list Z := <[Z.to_nat i := v]> l.

Definition disk_ensure (w : swap) : swap :=
  if w_hba_ready w then w
  else
    let '(r, h) := ahci_hba_init in
    if negb (r =? 0) then set_ready w h (w_allocs w)
    else
      let '(n, h) := ahci_enumerate_ports h in
      if negb (0 <? n) then set_ready w h (w_allocs w)
      else
        let '(r, h, allocs) := ahci_port_init h 0 (w_allocs w) in
        if negb (r =? 0) then set_ready w h allocs
        else let '(_, h, allocs) := ahci_sim_disk_create h 0 8 allocs in set_ready w h allocs.

Definition slot_init (w : swap) : swap :=
  if w_done w then w
  else set_tables w (replicate (Z.to_nat WUBU_SWAP_SLOTS) (-1)) (replicate (Z.to_nat SWAP_FRAMES) 0) (w_va_slot w) (w_va_addr w) (w_count w).

(** The index of the frame at [phys], where the tables have one. *)
Definition frame_idx (phys : Z) : option Z :=
  if phys <? WUBU_VMM_PHYS_BASE then None
  else let idx := (phys - WUBU_VMM_PHYS_BASE) / PAGE in if SWAP_FRAMES <=? idx then None else Some idx.

Definition wubu_swap_slot_of (w : swap) (phys : Z) : Z :=
  match frame_idx phys with
  | None => -1
  | Some idx => let s := nthz (w_frame_slot w) idx in if s =? 0 then -1 else s - 1
  end.

(** The first index from [i], of [k], where the list holds [v]. *)
Fixpoint find_first (k : nat) (l : list Z) (v i : Z) : option Z :=
  match k with
  | O => None
  | S k => if nthz l i =? v then Some i else find_first k l v (i + 1)
  end.

Definition slot_lba (slot : Z) : Z := WUBU_SWAP_SECTOR + slot * WUBU_SWAP_PAGE_SECS.

Definition wubu_swap_out (w : swap) (va phys : Z) : option (Z * swap) :=
  let w := slot_init w in
  match frame_idx phys with
  | None => Some (-1, w)
  | Some idx =>
      if negb (nthz (w_frame_slot w) idx =? 0) then Some (nthz (w_frame_slot w) idx, w)
      else match find_first (Z.to_nat WUBU_SWAP_SLOTS) (w_slots w) (-1) 0 with
           | None => Some (-1, w)
           | Some slot =>
               let w := disk_ensure w in
               '(n, h) ← ahci_write (w_hba w) 0 (slot_lba slot) WUBU_SWAP_PAGE_SECS (get_bytes (g_mem (w_vmm w)) phys (Z.to_nat PAGE));
               let w := set_parts w (w_vmm w) h in
               if negb (n =? WUBU_SWAP_PAGE_SECS) then Some (-1, w)
               else
                 let w := set_tables w (setz (w_slots w) slot 1) (setz (w_frame_slot w) idx (u16 (slot + 1)))
                            (setz (w_va_slot w) slot (u16 (slot + 1))) (setz (w_va_addr w) slot va) (u32 (w_count w + 1)) in
                 Some (slot, set_parts w (wubu_vmm_unmap (w_vmm w) va).2 (w_hba w))
           end
  end.

Definition wubu_swap_in (w : swap) (va slot : Z) : option (Z * swap) :=
  let w := slot_init w in
  if (WUBU_SWAP_SLOTS <=? slot) || (nthz (w_slots w) slot =? -1) then Some (-1, w)
  else
    let w := disk_ensure w in
    match find_first (Z.to_nat SWAP_FRAMES) (w_frame_slot w) (u16 (slot + 1)) 0 with
    | None => Some (-1, w)
    | Some frame =>
        let phys := WUBU_VMM_PHYS_BASE + frame * PAGE in
        '(n, bytes, h) ← ahci_read (w_hba w) 0 (slot_lba slot) WUBU_SWAP_PAGE_SECS;
        let w := set_parts w (set_vmem (w_vmm w) (put_mem (g_mem (w_vmm w)) phys bytes)) h in
        if negb (n =? WUBU_SWAP_PAGE_SECS) then Some (-1, w)
        else
          let '(r, v) := wubu_vmm_map_page (w_vmm w) va phys 3 in
          let w := set_parts w v (w_hba w) in
          if negb (r =? 0) then Some (-1, w)
          else Some (0, set_tables w (setz (w_slots w) slot (-1)) (setz (w_frame_slot w) frame 0) (setz (w_va_slot w) slot 0)
                          (setz (w_va_addr w) slot 0) (u32 (w_count w - 1)))
    end.

Fixpoint find_va (k : nat) (w : swap) (va i : Z) : Z :=
  match k with
  | O => -1
  | S k => if negb (nthz (w_va_slot w) i =? 0) && (nthz (w_va_addr w) i =? va) then i else find_va k w va (i + 1)
  end.
Definition wubu_swap_va_slot (w : swap) (va : Z) : Z := find_va (Z.to_nat WUBU_SWAP_SLOTS) w (page_base va) 0.

(** The dispatch of [handle_page_fault]; [true] retries the instruction, [false]
    goes on to the panic. *)
Definition handle_page_fault (w : swap) (cr2 : Z) : option (bool * swap) :=
  let after_demand (w : swap) :=
    let '(r, v) := wubu_vmm_cow_fault (w_vmm w) cr2 in
    let w := set_parts w v (w_hba w) in
    if r =? 1 then Some (true, w)
    else
      let slot := wubu_swap_va_slot w cr2 in
      if 0 <=? slot then
        '(r, w) ← wubu_swap_in w cr2 slot;
        Some (r =? 0, w)
      else Some (false, w) in
  if wubu_vmm_is_demand (w_vmm w) cr2 then
    let '(r, v) := wubu_vmm_demand_fill (w_vmm w) cr2 in
    let w := set_parts w v (w_hba w) in
    if r =? 0 then Some (true, w) else after_demand w
  else after_demand w.
