(* ===== verification/SwapTheorems.v ===== *)
(** * What swapping promises

    The swap area as a map from slots to a frame, an address and the bytes of the
    page, kept by swapping out and in.  A page swapped out comes back with its bytes; with the defects around it. *)

From S2P Require Import Prelude Heap HeapFacts Vmm VmmAlloc VmmTables VmmMap VmmFaults VmmTheorems Ahci Swap.
Open Scope Z_scope.

(** ** The swap area as a map *)

(** ** Tables *)

Lemma nthz_setz l i j v : 0 <= i < Z.of_nat (length l) -> 0 <= j -> nthz (setz l i v) j = if decide (j = i) then v else nthz l j.
Proof.
  intros Hi Hj. unfold nthz, setz. case_decide as H.
  - subst. rewrite list_lookup_insert_eq by lia. done.
  - rewrite list_lookup_insert_ne by lia. done.
Qed.
Lemma length_setz l i v : length (setz l i v) = length l.
Proof. apply length_insert. Qed.

Lemma find_first_spec k l v : forall i, 0 <= i ->
  match find_first k l v i with
  | Some j => i <= j < i + Z.of_nat k /\ nthz l j = v /\ forall j', i <= j' < j -> nthz l j' <> v
  | None => forall j', i <= j' < i + Z.of_nat k -> nthz l j' <> v
  end.
Proof.
  induction k as [|k IH]; intros i Hi; cbn [find_first]; [lia|]. destruct (Z.eqb_spec (nthz l i) v) as [E|E].
  - split; [lia|]. split; [done|]. lia.
  - specialize (IH (i + 1) ltac:(lia)). destruct (find_first k l v (i + 1)) as [j|].
    + destruct IH as (H1 & H2 & H3). split; [lia|]. split; [done|]. intros j' Hj'. destruct (decide (j' = i)) as [->|]; [done|]. apply H3. lia.
    + intros j' Hj'. destruct (decide (j' = i)) as [->|]; [done|]. apply IH. lia.
Qed.

(** ** The disk *)

Definition slot_off (slot : Z) : Z := 2097152 + 4096 * slot.
Definition disk_up (h : ahci_hba) (d : memory) : Prop :=
  exists p, a_ports h !! 0%nat = Some p /\ p_state p = AHCI_PORT_ACTIVE /\ p_sim_disk p = Some d /\ p_sim_disk_size p = 8388608.

Lemma transfer_up h d slot : disk_up h d -> 0 <= slot < 512 ->
  exists p, a_ports h !! 0%nat = Some p /\ p_state p = AHCI_PORT_ACTIVE /\ p_sim_disk_size p = 8388608 /\
  transfer h 0 (slot_lba slot) WUBU_SWAP_PAGE_SECS = Some (p, d, slot_off slot, 4096).
Proof.
  intros (p & Hp & Hs & Hd & Hz) Hslot. exists p. split; [done|]. split; [done|]. split; [done|].
  unfold transfer, port_at. change ((0 <? 0) || (AHCI_MAX_PORTS <=? 0)) with false. cbv iota. change (Z.to_nat 0) with 0%nat. rewrite Hp.
  rewrite decide_False by (rewrite Hs; tauto). rewrite Hd.
  assert (u64 (slot_lba slot * AHCI_SECTOR_SIZE) = slot_off slot) as ->.
  { rewrite wrap_id; unfold slot_lba, slot_off, WUBU_SWAP_SECTOR, WUBU_SWAP_PAGE_SECS, AHCI_SECTOR_SIZE, fits; lia. }
  change (u64 (WUBU_SWAP_PAGE_SECS * AHCI_SECTOR_SIZE)) with 4096. rewrite (wrap_id 64) by (unfold fits, slot_off; lia). rewrite Hz, Z.gtb_ltb.
  destruct (Z.ltb_spec 8388608 (slot_off slot + 4096)); [unfold slot_off in *; lia|done].
Qed.
Lemma in_disk_slot p slot : p_sim_disk_size p = 8388608 -> 0 <= slot < 512 -> in_disk p (slot_off slot) 4096 = true.
Proof. intros Hz Hs. unfold in_disk. rewrite Hz. apply Z.leb_le. unfold slot_off. lia. Qed.

Lemma read_up h d slot : disk_up h d -> 0 <= slot < 512 ->
  exists h', ahci_read h 0 (slot_lba slot) WUBU_SWAP_PAGE_SECS = Some (WUBU_SWAP_PAGE_SECS, get_bytes d (slot_off slot) (Z.to_nat PAGE), h') /\ disk_up h' d.
Proof.
  intros Hu Hs. destruct (transfer_up h d slot Hu Hs) as (p & Hp & Ha & Hz & E). unfold ahci_read. rewrite E, in_disk_slot by done.
  eexists. split; [reflexivity|]. exact Hu.
Qed.
Lemma write_up h d slot buf : disk_up h d -> 0 <= slot < 512 -> length buf = Z.to_nat PAGE ->
  exists h', ahci_write h 0 (slot_lba slot) WUBU_SWAP_PAGE_SECS buf = Some (WUBU_SWAP_PAGE_SECS, h') /\ disk_up h' (put_mem d (slot_off slot) buf).
Proof.
  intros Hu Hs Hl. destruct (transfer_up h d slot Hu Hs) as (p & Hp & Ha & Hz & E). unfold ahci_write. rewrite E, in_disk_slot by done.
  rewrite take_ge by (rewrite Hl; done). eexists. split; [reflexivity|]. eexists. cbn [a_ports set_stats put_port set_ports]. change (Z.to_nat 0) with 0%nat.
  rewrite list_lookup_insert_eq by (by eapply lookup_lt_Some). split; [reflexivity|]. done.
Qed.

(** ** The swap area *)

Record swap_inv (w : swap) : Prop := {
  si_done : w_done w = true;
  si_ready : w_hba_ready w = true;
  si_disk : exists d, disk_up (w_hba w) d;
  si_slots : Z.of_nat (length (w_slots w)) = 512;
  si_frames : Z.of_nat (length (w_frame_slot w)) = 4096;
  si_vas : Z.of_nat (length (w_va_slot w)) = 512;
  si_addrs : Z.of_nat (length (w_va_addr w)) = 512;
  si_range i : 0 <= i < 4096 -> nthz (w_frame_slot w) i <> 0 ->
    1 <= nthz (w_frame_slot w) i <= 512 /\ nthz (w_slots w) (nthz (w_frame_slot w) i - 1) = 1;
  si_inj i j : 0 <= i < 4096 -> 0 <= j < 4096 -> nthz (w_frame_slot w) i <> 0 ->
    nthz (w_frame_slot w) i = nthz (w_frame_slot w) j -> i = j;
  si_owner s : 0 <= s < 512 -> nthz (w_slots w) s = 1 -> exists i, 0 <= i < 4096 /\ nthz (w_frame_slot w) i = s + 1;
  si_state s : 0 <= s < 512 -> nthz (w_slots w) s = 1 \/ nthz (w_slots w) s = -1;
  si_va s : 0 <= s < 512 -> nthz (w_va_slot w) s = if nthz (w_slots w) s =? 1 then s + 1 else 0 }.

Definition disk_of (w : swap) : memory :=
  match a_ports (w_hba w) !! 0%nat with Some p => default (fun _ => 0) (p_sim_disk p) | None => fun _ => 0 end.

(** What slot [s] holds: the frame, the address and the bytes. *)
Definition swapped (w : swap) (s : Z) : option (Z * Z * list Z) :=
  if nthz (w_slots w) s =? 1 then
    frame ← find_first (Z.to_nat SWAP_FRAMES) (w_frame_slot w) (s + 1) 0;
    Some (frame, nthz (w_va_addr w) s, get_bytes (disk_of w) (slot_off s) (Z.to_nat PAGE))
  else None.

Lemma disk_up_of w d : disk_up (w_hba w) d -> disk_of w = d.
Proof. intros (p & Hp & _ & Hd & _). unfold disk_of. by rewrite Hp, Hd. Qed.

Lemma owner_found w s i : swap_inv w -> 0 <= i < 4096 -> nthz (w_frame_slot w) i = s + 1 -> 0 <= s ->
  find_first (Z.to_nat SWAP_FRAMES) (w_frame_slot w) (s + 1) 0 = Some i.
Proof.
  intros I Hi E Hs. pose proof (find_first_spec (Z.to_nat SWAP_FRAMES) (w_frame_slot w) (s + 1) 0 ltac:(lia)) as H.
  destruct (find_first _ _ _ _) as [j|].
  - destruct H as (Hj & Ej & _). f_equal. apply (si_inj w I); [unfold SWAP_FRAMES in Hj; lia|done|lia|congruence].
  - exfalso. apply (H i); [unfold SWAP_FRAMES; lia|done].
Qed.

Lemma swapped_holds w s frame va bs : swap_inv w -> 0 <= s < 512 ->
  swapped w s = Some (frame, va, bs) <->
  nthz (w_slots w) s = 1 /\ 0 <= frame < 4096 /\ nthz (w_frame_slot w) frame = s + 1 /\ nthz (w_va_addr w) s = va /\
  bs = get_bytes (disk_of w) (slot_off s) (Z.to_nat PAGE).
Proof.
  intros I Hs. unfold swapped. destruct (Z.eqb_spec (nthz (w_slots w) s) 1) as [E|E].
  - destruct (si_owner w I s Hs E) as (i & Hi & Ei). rewrite (owner_found w s i I Hi Ei) by lia. cbn [mbind option_bind]. split.
    + intros [= <- <- <-]. done.
    + intros (_ & Hf & Ef & -> & ->). f_equal. f_equal. f_equal. apply (si_inj w I); (lia || congruence).
  - split; [done|]. intros (? & _). done.
Qed.

Lemma slot_offs_apart d s s' bs : s <> s' -> length bs = Z.to_nat PAGE ->
  get_bytes (put_mem d (slot_off s) bs) (slot_off s') (Z.to_nat PAGE) = get_bytes d (slot_off s') (Z.to_nat PAGE).
Proof.
  intros Hne Hl. apply (get_bytes_frame d _ (slot_off s) (slot_off s + Z.of_nat (length bs))); [apply put_mem_out|].
  rewrite Hl. unfold slot_off, PAGE. lia.
Qed.
Lemma get_put_slot d s bs : length bs = Z.to_nat PAGE -> get_bytes (put_mem d (slot_off s) bs) (slot_off s) (Z.to_nat PAGE) = bs.
Proof. intros Hl. rewrite <- Hl. apply get_put_bytes. Qed.

(** ** Recording a page *)

Definition record_out (w : swap) (slot idx va : Z) (v : vmm) (h : ahci_hba) : swap :=
  set_parts (set_tables w (setz (w_slots w) slot 1) (setz (w_frame_slot w) idx (slot + 1)) (setz (w_va_slot w) slot (slot + 1))
    (setz (w_va_addr w) slot va) (u32 (w_count w + 1))) v h.

Section record_out.
Context (w : swap) (I : swap_inv w) (slot idx va : Z) (v : vmm) (h : ahci_hba) (d : memory) (bs : list Z).
Context (Hslot : 0 <= slot < 512) (Hfree : nthz (w_slots w) slot = -1) (Hidx : 0 <= idx < 4096) (Hnew : nthz (w_frame_slot w) idx = 0).
Context (Hd : disk_up (w_hba w) d) (Hh : disk_up h (put_mem d (slot_off slot) bs)) (Hbs : length bs = Z.to_nat PAGE).
Let w' := record_out w slot idx va v h.

Lemma ro_slots s : 0 <= s -> nthz (w_slots w') s = if decide (s = slot) then 1 else nthz (w_slots w) s.
Proof. intros Hs. apply nthz_setz; [rewrite (si_slots w I); lia|done]. Qed.
Lemma ro_frames i : 0 <= i -> nthz (w_frame_slot w') i = if decide (i = idx) then slot + 1 else nthz (w_frame_slot w) i.
Proof. intros Hs. apply nthz_setz; [rewrite (si_frames w I); lia|done]. Qed.
Lemma ro_vas s : 0 <= s -> nthz (w_va_slot w') s = if decide (s = slot) then slot + 1 else nthz (w_va_slot w) s.
Proof. intros Hs. apply nthz_setz; [rewrite (si_vas w I); lia|done]. Qed.
Lemma ro_addrs s : 0 <= s -> nthz (w_va_addr w') s = if decide (s = slot) then va else nthz (w_va_addr w) s.
Proof. intros Hs. apply nthz_setz; [rewrite (si_addrs w I); lia|done]. Qed.

(** No frame had the slot. *)
Lemma ro_unowned i : 0 <= i < 4096 -> nthz (w_frame_slot w) i <> slot + 1.
Proof. intros Hi E. destruct (si_range w I i Hi ltac:(lia)) as [_ H]. rewrite E, Z.add_simpl_r in H. lia. Qed.

Lemma record_out_inv : swap_inv w'.
Proof.
  constructor; try (cbn; rewrite ?length_setz; apply I).
  - done.
  - eauto.
  - intros i Hi. rewrite ro_frames by lia. case_decide.
    + intros _. rewrite Z.add_simpl_r, ro_slots, decide_True by (done || lia). lia.
    + intros Hne. destruct (si_range w I i Hi Hne) as [Hr Hs]. split; [done|]. rewrite ro_slots by lia. case_decide; [done|done].
  - intros i j Hi Hj. rewrite !ro_frames by lia. repeat case_decide; [lia|..]; intros Hne E.
    + by destruct (ro_unowned j Hj).
    + by destruct (ro_unowned i Hi).
    + by apply (si_inj w I).
  - intros s Hs. rewrite ro_slots by lia. case_decide as H.
    + intros _. exists idx. split; [done|]. rewrite ro_frames, decide_True by (done || lia). lia.
    + intros Hu. destruct (si_owner w I s Hs Hu) as (i & Hi & E). exists i. split; [done|]. rewrite ro_frames by lia.
      rewrite decide_False; [done|]. intros ->. lia.
  - intros s Hs. rewrite ro_slots by lia. case_decide; [by left|]. by apply (si_state w I).
  - intros s Hs. rewrite ro_vas, ro_slots by lia. case_decide; [subst; done|]. by apply (si_va w I).
Qed.

Lemma record_out_swapped s : 0 <= s < 512 -> swapped w' s = if decide (s = slot) then Some (idx, va, bs) else swapped w s.
Proof.
  intros Hs. pose proof record_out_inv as I'. assert (disk_of w' = put_mem d (slot_off slot) bs) as Ed by (by apply disk_up_of).
  case_decide as H.
  - subst s. apply (swapped_holds w' slot idx va bs I' Hs). rewrite ro_slots, ro_frames, ro_addrs, !decide_True, Ed, get_put_slot by (done || lia). done.
  - destruct (swapped w s) as [[[frame a] b]|] eqn:E.
    + apply (swapped_holds w s frame a b I Hs) in E as (E1 & E2 & E3 & E4 & E5). apply (swapped_holds w' s frame a b I' Hs).
      rewrite ro_slots, ro_frames, ro_addrs, Ed, !(decide_False (P := s = slot)), slot_offs_apart by (done || lia).
      rewrite decide_False by (intros ->; lia). split; [done|]. split; [done|]. split; [done|]. split; [done|]. by rewrite E5, (disk_up_of w d Hd).
    + unfold swapped in *. rewrite ro_slots, decide_False by (done || lia). destruct (Z.eqb_spec (nthz (w_slots w) s) 1) as [Eu|]; [|done].
      destruct (si_owner w I s Hs Eu) as (i & Hi & Ei). by rewrite (owner_found w s i I Hi Ei) in E by lia.
Qed.
End record_out.

(** ** Releasing a slot *)

Definition record_in (w : swap) (slot frame : Z) (v : vmm) (h : ahci_hba) : swap :=
  set_parts (set_tables w (setz (w_slots w) slot (-1)) (setz (w_frame_slot w) frame 0) (setz (w_va_slot w) slot 0)
    (setz (w_va_addr w) slot 0) (u32 (w_count w - 1))) v h.

Section record_in.
Context (w : swap) (I : swap_inv w) (slot frame : Z) (v : vmm) (h : ahci_hba) (d : memory).
Context (Hslot : 0 <= slot < 512) (Hframe : 0 <= frame < 4096) (Hown : nthz (w_frame_slot w) frame = slot + 1).
Context (Hd : disk_up (w_hba w) d) (Hh : disk_up h d).
Let w' := record_in w slot frame v h.

Lemma ri_slots s : 0 <= s -> nthz (w_slots w') s = if decide (s = slot) then -1 else nthz (w_slots w) s.
Proof. intros Hs. apply nthz_setz; [rewrite (si_slots w I); lia|done]. Qed.
Lemma ri_frames i : 0 <= i -> nthz (w_frame_slot w') i = if decide (i = frame) then 0 else nthz (w_frame_slot w) i.
Proof. intros Hs. apply nthz_setz; [rewrite (si_frames w I); lia|done]. Qed.
Lemma ri_vas s : 0 <= s -> nthz (w_va_slot w') s = if decide (s = slot) then 0 else nthz (w_va_slot w) s.
Proof. intros Hs. apply nthz_setz; [rewrite (si_vas w I); lia|done]. Qed.
Lemma ri_addrs s : 0 <= s -> nthz (w_va_addr w') s = if decide (s = slot) then 0 else nthz (w_va_addr w) s.
Proof. intros Hs. apply nthz_setz; [rewrite (si_addrs w I); lia|done]. Qed.

Lemma record_in_inv : swap_inv w'.
Proof.
  constructor; try (cbn; rewrite ?length_setz; apply I).
  - done.
  - eauto.
  - intros i Hi. rewrite ri_frames by lia. case_decide as H; [done|]. intros Hne. destruct (si_range w I i Hi Hne) as [Hr Hs]. split; [done|].
    rewrite ri_slots by lia. case_decide as H'; [|done]. exfalso. apply H. apply (si_inj w I); (lia || done).
  - intros i j Hi Hj. rewrite !ri_frames by lia. repeat case_decide; [done|done|congruence|]. by apply (si_inj w I).
  - intros s Hs. rewrite ri_slots by lia. case_decide as H; [done|]. intros Hu. destruct (si_owner w I s Hs Hu) as (i & Hi & E).
    exists i. split; [done|]. rewrite ri_frames by lia. rewrite decide_False; [done|]. intros ->. lia.
  - intros s Hs. rewrite ri_slots by lia. case_decide; [by right|]. by apply (si_state w I).
  - intros s Hs. rewrite ri_vas, ri_slots by lia. case_decide; [subst; done|]. by apply (si_va w I).
Qed.

Lemma record_in_swapped s : 0 <= s < 512 -> swapped w' s = if decide (s = slot) then None else swapped w s.
Proof.
  intros Hs. pose proof record_in_inv as I'. assert (disk_of w' = disk_of w) as Ed by (rewrite (disk_up_of w d Hd); by apply disk_up_of).
  case_decide as H.
  - subst s. unfold swapped. by rewrite ri_slots, decide_True by (done || lia).
  - destruct (swapped w s) as [[[i a] b]|] eqn:E.
    + apply (swapped_holds w s i a b I Hs) in E as (E1 & E2 & E3 & E4 & E5). apply (swapped_holds w' s i a b I' Hs).
      rewrite ri_slots, ri_frames, ri_addrs, Ed, !(decide_False (P := s = slot)) by (done || lia).
      rewrite decide_False by (intros ->; lia). done.
    + unfold swapped in *. rewrite ri_slots, decide_False by (done || lia). destruct (Z.eqb_spec (nthz (w_slots w) s) 1) as [Eu|]; [|done].
      destruct (si_owner w I s Hs Eu) as (i & Hi & Ei). by rewrite (owner_found w s i I Hi Ei) in E by lia.
Qed.
End record_in.

(** ** Swapping out and in *)

Lemma slot_init_done w : swap_inv w -> slot_init w = w.
Proof. intros I. unfold slot_init. by rewrite (si_done w I). Qed.
Lemma disk_ensure_ready w : swap_inv w -> disk_ensure w = w.
Proof. intros I. unfold disk_ensure. by rewrite (si_ready w I). Qed.

Lemma swap_out_spec w va phys idx : swap_inv w -> frame_idx phys = Some idx ->
  (nthz (w_frame_slot w) idx <> 0 /\ wubu_swap_out w va phys = Some (nthz (w_frame_slot w) idx, w)) \/
  ((forall s, 0 <= s < 512 -> nthz (w_slots w) s = 1) /\ wubu_swap_out w va phys = Some (-1, w)) \/
  exists slot w', wubu_swap_out w va phys = Some (slot, w') /\ 0 <= slot < 512 /\ nthz (w_slots w) slot = -1 /\
    (forall s, 0 <= s < slot -> nthz (w_slots w) s = 1) /\ swap_inv w' /\
    (forall s, 0 <= s < 512 -> swapped w' s =
      if decide (s = slot) then Some (idx, va, get_bytes (g_mem (w_vmm w)) phys (Z.to_nat PAGE)) else swapped w s) /\
    w_vmm w' = (wubu_vmm_unmap (w_vmm w) va).2 /\ w_count w' = u32 (w_count w + 1) /\ nthz (w_va_addr w') slot = va.
Proof.
  intros I Hidx. unfold wubu_swap_out. rewrite slot_init_done, Hidx by done.
  assert (0 <= idx < 4096) as Hi.
  { unfold frame_idx in Hidx. destruct (Z.ltb_spec phys WUBU_VMM_PHYS_BASE); [done|].
    destruct (Z.leb_spec SWAP_FRAMES ((phys - WUBU_VMM_PHYS_BASE) / PAGE)); [done|]. simplify_eq. unfold SWAP_FRAMES in *.
    split; [|lia]. apply Z.div_pos; [lia|done]. }
  destruct (Z.eqb_spec (nthz (w_frame_slot w) idx) 0) as [E0|E0]; cbn [negb]; [|by left]. right.
  pose proof (find_first_spec (Z.to_nat WUBU_SWAP_SLOTS) (w_slots w) (-1) 0 ltac:(lia)) as HF. unfold WUBU_SWAP_SLOTS in *.
  assert (forall s, 0 <= s < 512 -> nthz (w_slots w) s <> -1 -> nthz (w_slots w) s = 1) as Hst.
  { intros s Hs Hn. by destruct (si_state w I s Hs). }
  destruct (find_first _ _ _ _) as [slot|]; [|left; split; [|done]; intros s Hs; apply Hst; [done|apply HF; lia]].
  right. destruct HF as (Hslot & Hfree & Hlow). change (0 + Z.of_nat (Z.to_nat 512)) with 512 in Hslot.
  rewrite disk_ensure_ready by done. destruct (si_disk w I) as [d Hd].
  destruct (write_up (w_hba w) d slot (get_bytes (g_mem (w_vmm w)) phys (Z.to_nat PAGE)) Hd Hslot (get_bytes_length _ _ _)) as (h & -> & Hh).
  cbn [mbind option_bind]. rewrite Z.eqb_refl. cbn [negb].
  assert (u16 (slot + 1) = slot + 1) as -> by (apply wrap_id; unfold fits; lia).
  eexists slot, _. split; [reflexivity|]. split; [done|]. split; [done|]. split; [intros s Hs; apply Hst; [lia|by apply Hlow]|].
  split; [exact (record_out_inv w I slot idx va _ h d _ Hslot Hfree Hi E0 Hh (get_bytes_length _ _ _))|]. split.
  - intros s Hs. exact (record_out_swapped w I slot idx va _ h d _ Hslot Hfree Hi E0 Hd Hh (get_bytes_length _ _ _) s Hs).
  - split; [done|]. split; [done|]. cbn. rewrite nthz_setz by (rewrite ?(si_addrs w I); lia). by rewrite decide_True.
Qed.

Lemma swap_in_spec w va slot frame a bs : swap_inv w -> 0 <= slot < 512 -> swapped w slot = Some (frame, a, bs) ->
  let v := set_vmem (w_vmm w) (put_mem (g_mem (w_vmm w)) (page_addr frame) bs) in
  let '(r, v') := wubu_vmm_map_page v va (page_addr frame) 3 in
  exists w', wubu_swap_in w va slot = Some (if r =? 0 then 0 else -1, w') /\ w_vmm w' = v' /\
    (r = 0 -> swap_inv w' /\ w_count w' = u32 (w_count w - 1) /\
      (forall s, 0 <= s < 512 -> swapped w' s = if decide (s = slot) then None else swapped w s)).
Proof.
  intros I Hs Hw v. apply (swapped_holds w slot frame a bs I Hs) in Hw as (E1 & Hf & Ef & Ea & Eb).
  destruct (si_disk w I) as [d Hd]. rewrite (disk_up_of w d Hd) in Eb. unfold wubu_swap_in. rewrite slot_init_done by done.
  destruct (Z.leb_spec WUBU_SWAP_SLOTS slot); [unfold WUBU_SWAP_SLOTS in *; lia|]. rewrite E1. cbn [orb Z.eqb].
  rewrite disk_ensure_ready by done. assert (u16 (slot + 1) = slot + 1) as -> by (apply wrap_id; unfold fits; lia).
  rewrite (owner_found w slot frame I Hf Ef) by lia. destruct (read_up (w_hba w) d slot Hd Hs) as (h & -> & Hh). cbn [mbind option_bind].
  rewrite Z.eqb_refl, <- Eb. cbn [negb w_vmm set_parts]. fold (page_addr frame). fold v.
  destruct (wubu_vmm_map_page v va (page_addr frame) 3) as [r v']. destruct (Z.eqb_spec r 0) as [->|Hr]; cbn [negb].
  - eexists. split; [reflexivity|]. split; [done|]. intros _. split; [exact (record_in_inv w I slot frame v' h d Hs Hf Ef Hh)|].
    split; [done|]. intros s Hs'. exact (record_in_swapped w I slot frame v' h d Hs Hf Ef Hd Hh s Hs').
  - eexists. split; [reflexivity|]. split; [done|]. done.
Qed.

Lemma frame_idx_page idx : 0 <= idx < 4096 -> frame_idx (page_addr idx) = Some idx.
Proof.
  intros Hi. unfold frame_idx, page_addr, SWAP_FRAMES. destruct (Z.ltb_spec (WUBU_VMM_PHYS_BASE + idx * PAGE) WUBU_VMM_PHYS_BASE); [unfold PAGE in *; lia|].
  replace (WUBU_VMM_PHYS_BASE + idx * PAGE - WUBU_VMM_PHYS_BASE) with (idx * PAGE) by lia. rewrite Z.div_mul by done.
  destruct (Z.leb_spec 4096 idx); [lia|done].
Qed.

Lemma set_parts_inv w v : swap_inv w -> swap_inv (set_parts w v (w_hba w)).
Proof. intros I. constructor; apply I. Qed.

(** Storing a page of bytes into a data page. *)
Lemma store_page v q bs : vmm_inv v -> data_page v q -> Forall is_byte bs -> length bs = Z.to_nat PAGE ->
  let v' := set_vmem v (put_mem (g_mem v) q bs) in
  vmm_inv v' /\ (forall va, translate (g_mem v') va = translate (g_mem v) va) /\ (forall va, small (g_mem v) va -> small (g_mem v') va) /\
  data_page v' q /\ (forall o, 0 <= o < 4096 -> g_mem v' (q + o) = nthz bs o).
Proof.
  intros [A W] [D1 D2 D3] Hb Hl v'.
  assert (same_out (g_mem v) (g_mem v') q (q + 4096)) as Ho.
  { pose proof (put_mem_out (g_mem v) q bs) as H. rewrite Hl in H. exact H. }
  assert (mem_ok (g_mem v')) as Hm by (apply put_mem_ok; [apply W|done]).
  pose proof (fun k va => scribble_tab v v' W q D1 D2 Ho k va) as Ht. split; [split|split; [|split; [|split]]].
  - by apply (alloc_wf_same v).
  - by apply (scribble_wf v v' W q D1 D2 Hm Ho).
  - by apply (scribble_translate v v' W q D1 D2 Ho).
  - by apply (scribble_small v v' W q D1 D2 Ho).
  - constructor; [done| |done]. intros (k & va & Hk & E). rewrite Ht in E by done. apply D2. by exists k, va.
  - intros o Hor. cbn [v' g_mem set_vmem]. rewrite put_mem_at, Hl. change (Z.of_nat (Z.to_nat PAGE)) with 4096. case_decide; [|lia].
    unfold nthz. by replace (q + o - q) with o by lia.
Qed.

Lemma nthz_get_bytes m a o : 0 <= o < 4096 -> nthz (get_bytes m a (Z.to_nat PAGE)) o = m (a + o).
Proof.
  intros Ho. unfold nthz, get_bytes. rewrite list_lookup_fmap, lookup_seq_lt.
  - cbn. f_equal. lia.
  - change (Z.to_nat PAGE) with (Z.to_nat 4096). lia.
Qed.


(** ** The first use *)

(** The static tables before anything was swapped; [v] is virtual memory. *)
Definition boot_swap (v : vmm) : swap :=
  {| w_vmm := v; w_hba := ahci_hba_init.2; w_hba_ready := false; w_allocs := []; w_done := false;
     w_slots := replicate (Z.to_nat 512) 0; w_frame_slot := replicate (Z.to_nat 4096) 0; w_va_slot := replicate (Z.to_nat 512) 0;
     w_va_addr := replicate (Z.to_nat 512) 0; w_count := 0 |}.
Definition ready_swap (v : vmm) : swap := disk_ensure (slot_init (boot_swap v)).

Lemma nthz_replicate n x i : 0 <= i < n -> nthz (replicate (Z.to_nat n) x) i = x.
Proof. intros Hi. unfold nthz. by rewrite lookup_replicate_2 by lia. Qed.

Definition disk_hba : ahci_hba := w_hba (ready_swap (fresh_vmm no_memory)).
Lemma ready_hba v : w_hba (ready_swap v) = disk_hba /\ w_hba_ready (ready_swap v) = true /\ w_done (ready_swap v) = true /\
  w_vmm (ready_swap v) = v /\ w_slots (ready_swap v) = replicate (Z.to_nat 512) (-1) /\ w_frame_slot (ready_swap v) = replicate (Z.to_nat 4096) 0 /\
  w_va_slot (ready_swap v) = replicate (Z.to_nat 512) 0 /\ w_va_addr (ready_swap v) = replicate (Z.to_nat 512) 0.
Proof. split_and!; vm_compute; reflexivity. Qed.
Lemma disk_hba_up : disk_up disk_hba (fun _ => 0).
Proof. eexists. vm_compute. split; [reflexivity|]. done. Qed.

Lemma ready_inv v : swap_inv (ready_swap v).
Proof.
  destruct (ready_hba v) as (Eh & Er & Ed & _ & Es & Ef & Eva & Ead). constructor; rewrite ?Eh, ?Er, ?Ed, ?Es, ?Ef, ?Eva, ?Ead, ?length_replicate.
  - reflexivity.
  - reflexivity.
  - exists (fun _ => 0). apply disk_hba_up.
  - lia.
  - lia.
  - lia.
  - lia.
  - intros i Hi. rewrite nthz_replicate by lia. lia.
  - intros i j Hi Hj. rewrite nthz_replicate by lia. lia.
  - intros s Hs. rewrite nthz_replicate by lia. lia.
  - intros s Hs. rewrite nthz_replicate by lia. by right.
  - intros s Hs. rewrite !nthz_replicate by lia. reflexivity.
Qed.

(** One page of an otherwise empty machine is in use. *)
Definition one_page : vmm := (wubu_vmm_alloc_pages (fresh_vmm no_memory) 1).2.
Lemma one_page_facts : used one_page 0 = true /\ g_mem one_page = no_memory.
Proof. split; vm_compute; reflexivity. Qed.
Lemma one_page_inv : vmm_inv one_page.
Proof. apply alloc_keeps_inv; [apply fresh_inv|unfold fits; lia]. Qed.
Lemma one_page_small va : small (g_mem one_page) va.
Proof. rewrite (proj2 one_page_facts). apply fresh_small. Qed.
Lemma one_page_data : data_page one_page (page_addr 0).
Proof.
  destruct one_page_facts as [Hu Em]. constructor; [apply page_addr_aligned; split; [lia|reflexivity]| |].
  - rewrite Em. intros ([|k] & va & _ & E); [discriminate E|by rewrite empty_tab in E].
  - intros i _ E. apply page_addr_inj in E as <-. exact Hu.
Qed.
Lemma one_page_swap_out : fst <$> wubu_swap_out (ready_swap one_page) 0x7000 (page_addr 0) = Some 0.
Proof. vm_compute. reflexivity. Qed.


(** ** Defects *)

(** The table of swapped frames covers the first 16 MB of the allocator's
    range, all of which start-up reserves: while the reserved pages stay reserved,
    swapping out refuses every page the allocator hands out. *)
Lemma swap_refuses_allocated_pages s n w va :
  alloc_wf s -> fits 32 n -> (forall j, 0 <= j < 13312 -> used s j = true) ->
  let '(p, _) := wubu_vmm_alloc_pages s n in
  p <> 0 -> wubu_swap_out w va p = Some (-1, slot_init w).
Proof.
  intros A Hn Hres. pose proof (alloc_pages_spec s n A Hn) as H. destruct (wubu_vmm_alloc_pages s n) as [p s'].
  destruct H as [(-> & _)|(st & -> & Hn' & H0 & Hle & Hf & _)]; [done|]. intros _.
  assert (13312 <= st) as Hst.
  { destruct (decide (13312 <= st)); [done|]. specialize (Hf st ltac:(lia)). rewrite Hres in Hf by lia. done. }
  unfold wubu_swap_out. replace (frame_idx (page_addr st)) with (@None Z); [done|]. unfold frame_idx, page_addr, SWAP_FRAMES.
  destruct (Z.ltb_spec (WUBU_VMM_PHYS_BASE + st * PAGE) WUBU_VMM_PHYS_BASE); [done|].
  replace (WUBU_VMM_PHYS_BASE + st * PAGE - WUBU_VMM_PHYS_BASE) with (st * PAGE) by lia. rewrite Z.div_mul by done.
  destruct (Z.leb_spec 4096 st); [done|lia].
Qed.

(** Swapping out a frame that is out already returns its slot plus one. *)
Lemma swap_out_again_is_off_by_one :
  (x ← wubu_swap_out (ready_swap one_page) 0x7000 (page_addr 0); fst <$> wubu_swap_out x.2 0x7000 (page_addr 0)) = Some 1 /\
  (x ← wubu_swap_out (ready_swap one_page) 0x7000 (page_addr 0); Some (wubu_swap_slot_of x.2 (page_addr 0))) = Some 0.
Proof. split; vm_compute; reflexivity. Qed.

(** The address is recorded as given and looked up rounded down: a page swapped
    out at an address inside it is never found again. *)
Lemma swap_out_inside_page_is_lost :
  (x ← wubu_swap_out (ready_swap one_page) 0x7008 (page_addr 0); Some (x.1, wubu_swap_va_slot x.2 0x7008)) = Some (0, -1).
Proof. vm_compute. reflexivity. Qed.

(** A page of a demand-zero region that was swapped out does not come back: the
    fault handler fills the address with zeros before it looks for the slot. *)
Definition demand_va : Z := 0xffffffff90000000.
Definition written : vmm := set_vmem one_page (put64 no_memory (page_addr 0) 42).
Lemma swapped_demand_page_reads_zero :
  (x ← wubu_swap_out (ready_swap written) demand_va (page_addr 0);
   y ← handle_page_fault x.2 demand_va;
   Some (y.1, wubu_swap_va_slot y.2 demand_va,
         (fun t => get64 (g_mem (w_vmm y.2)) t.1) <$> translate (g_mem (w_vmm y.2)) demand_va)) = Some (true, 0, Some 0).
Proof. vm_compute. reflexivity. Qed.

(** The byte offset of a transfer wraps: a sector number past the end of the disk
    reads its first sector, or bytes in front of the buffer. *)
Lemma ahci_sector_wraps :
  (fun x => x.1.1) <$> ahci_read disk_hba 0 (2 ^ 55) 1 = Some 1 /\ ahci_read disk_hba 0 (2 ^ 55 - 1) 1 = None /\
  (fun x => x.1.1) <$> ahci_read disk_hba 0 16384 1 = Some (-1).
Proof. split; [|split]; vm_compute; reflexivity. Qed.
