(* ===== verification/As.v ===== *)
(** * Address spaces

    [kernel/wubu_as.c]: private top-level tables cloned from the kernel's.  A
    pointer to an address space is [Kernel] or an index of the pool; [cr3] is the
    register the switch loads. *)

From S2P Require Import Prelude Heap HeapFacts Vmm VmmAlloc VmmTables VmmMap VmmFaults VmmTheorems.
Open Scope Z_scope.

Record as_t := {
  as_pml4 : Z;                (* 0 is NULL *)
  as_src : Z;                 (* pml4_src *)
  as_refs : Z }.
Inductive as_id := Kernel | Slot (i : nat).
#[global] Instance as_id_eq : EqDecision as_id.
Proof. solve_decision. Defined.

Record aspaces := {
  sp_vmm : vmm;
  sp_kernel : as_t;           (* g_kernel_as *)
  sp_store : list as_t;       (* the used part of the pool *)
  sp_current : as_id;
  sp_count : Z;               (* g_as_count *)
  sp_cr3 : Z }.

Definition set_spaces (x : aspaces) (v : vmm) (k : as_t) (st : list as_t) (cur : as_id) (n : Z) : aspaces :=
  {| sp_vmm := v; sp_kernel := k; sp_store := st; sp_current := cur; sp_count := n; sp_cr3 := sp_cr3 x |}.

Definition boot_spaces (v : vmm) : aspaces :=
  {| sp_vmm := v; sp_kernel := {| as_pml4 := PML4_BASE; as_src := PML4_BASE; as_refs := 1 |}; sp_store := []; sp_current := Kernel; sp_count := 1;
     sp_cr3 := PML4_BASE |}.

Definition as_get (x : aspaces) (a : as_id) : option as_t :=
  match a with Kernel => Some (sp_kernel x) | Slot i => sp_store x !! i end.
Definition as_set (x : aspaces) (a : as_id) (v : as_t) : aspaces :=
  match a with
  | Kernel => set_spaces x (sp_vmm x) v (sp_store x) (sp_current x) (sp_count x)
  | Slot i => set_spaces x (sp_vmm x) (sp_kernel x) (<[i := v]> (sp_store x)) (sp_current x) (sp_count x)
  end.

(** The first recycled slot from [i]. *)
Fixpoint recycled (st : list as_t) (i : nat) : option nat :=
  match st with
  | [] => None
  | a :: st => if as_pml4 a =? 0 then Some i else recycled st (S i)
  end.

Definition wubu_as_create (x : aspaces) : option as_id * aspaces :=
  let '(tab, v) := wubu_vmm_alloc_pages (sp_vmm x) 1 in
  if tab =? 0 then (None, set_spaces x v (sp_kernel x) (sp_store x) (sp_current x) (sp_count x))
  else
    let v := set_vmem v (copy_page (g_mem v) tab PML4_BASE) in
    let a := {| as_pml4 := tab; as_src := PML4_BASE; as_refs := 0 |} in
    match recycled (sp_store x) 0 with
    | Some i => (Some (Slot i), set_spaces x v (sp_kernel x) (<[i := a]> (sp_store x)) (sp_current x) (u32 (sp_count x + 1)))
    | None =>
        if Nat.ltb (length (sp_store x)) 16
        then (Some (Slot (length (sp_store x))),
              set_spaces x v (sp_kernel x) (sp_store x ++ [a]) (sp_current x) (u32 (sp_count x + 1)))
        else (None, set_spaces x (wubu_vmm_free_pages v tab 1) (sp_kernel x) (sp_store x) (sp_current x) (sp_count x))
    end.

Definition add_refs (x : aspaces) (a : as_id) (d : Z) : aspaces :=
  match as_get x a with
  | None => x
  | Some v => as_set x a {| as_pml4 := as_pml4 v; as_src := as_src v; as_refs := u32 (as_refs v + d) |}
  end.
Definition set_current (x : aspaces) (a : as_id) : aspaces := set_spaces x (sp_vmm x) (sp_kernel x) (sp_store x) a (sp_count x).

Definition wubu_as_bind (x : aspaces) (a : as_id) : aspaces :=
  let cur := sp_current x in
  let x := if bool_decide (cur <> a) && (0 <? default 0 (as_refs <$> as_get x cur)) then add_refs x cur (-1) else x in
  set_current (add_refs x a 1) a.

Definition wubu_as_switch (x : aspaces) (a : as_id) : aspaces :=
  {| sp_vmm := sp_vmm x; sp_kernel := sp_kernel x; sp_store := sp_store x; sp_current := a; sp_count := sp_count x;
     sp_cr3 := default 0 (as_pml4 <$> as_get x a) |}.

Definition wubu_as_destroy (x : aspaces) (a : as_id) : aspaces :=
  match a with
  | Kernel => x
  | Slot i =>
      match sp_store x !! i with
      | None => x
      | Some v =>
          if 0 <? as_refs v then x
          else
            let m := if as_pml4 v =? 0 then sp_vmm x else wubu_vmm_free_pages (sp_vmm x) (as_pml4 v) 1 in
            set_spaces x m (sp_kernel x) (<[i := {| as_pml4 := 0; as_src := as_src v; as_refs := as_refs v |}]> (sp_store x)) (sp_current x) (u32 (sp_count x - 1))
      end
  end.

(** ** Translation in an address space *)

Definition as_translate (m : memory) (root va : Z) : option (Z * bool) := hw_walk m 3 0 root va true.

Lemma entry_copy m dst src j : mem_ok m -> dst + 4096 <= src \/ src + 4096 <= dst -> is_index j ->
  entry (copy_page m dst src) dst j = entry m src j.
Proof.
  intros Hm Hd Hj. unfold entry, get64, get_bytes, is_index, slot_addr in *. f_equal. apply list_fmap_ext. intros k i E.
  apply lookup_seq in E as [-> E]. rewrite copy_page_at by done. case_decide; [f_equal; lia|lia].
Qed.

Lemma walk_top m t va : hw_walk m 3 0 t va true =
  let e := entry m t (index 0 va) in if present e then hw_walk m 2 1 (e_addr e) va (Z.testbit e 1) else None.
Proof. cbn zeta. change (hw_walk m 3 0 t va true) with
  (let e := entry m t (index 0 va) in if negb (present e) then None else hw_walk m 2 1 (e_addr e) va (true && Z.testbit e 1)). cbn zeta.
  by destruct (present _). Qed.
Lemma recycled_lt st : forall i j, recycled st i = Some j -> (j - i < length st)%nat /\ (i <= j)%nat.
Proof.
  induction st as [|a st IH]; intros i j; cbn [recycled length]; [done|]. destruct (as_pml4 a =? 0).
  - intros [= <-]. lia.
  - intros H. apply IH in H. lia.
Qed.

Lemma pml4_apart v i : tables_wf v -> in_map i -> used v i = false -> page_addr i + 4096 <= PML4_BASE \/ PML4_BASE + 4096 <= page_addr i.
Proof.
  intros W Hi Hf. destruct (page_addr_aligned i Hi) as [Hp _]. destruct (tw_page v W 0 0 PML4_BASE ltac:(lia) eq_refl) as [Hpml _].
  apply aligned_apart; [done|done|]. intros E. apply (free_not_table v i W Hi Hf). exists 0%nat, 0. rewrite E. split; [lia|done].
Qed.
Lemma clone_quiet v v1 i : vmm_inv v -> in_map i -> used v i = false -> takes v v1 i 1 ->
  let v2 := set_vmem v1 (copy_page (g_mem v1) (page_addr i) PML4_BASE) in quiet v v2 /\ data_page v2 (page_addr i).
Proof.
  intros V Hi Hf T. pose proof (pml4_apart v i (proj2 V) Hi Hf) as Hap.
  assert (mem_ok (g_mem v1)) as Hm by (rewrite (tk_mem _ _ _ _ T); apply V).
  destruct (fill_quiet v v1 i _ V Hi Hf T (copy_page_ok _ _ _ Hm Hap)) as (Q & Hd & _); [|done].
  intros x Hx. rewrite copy_page_at by done. case_decide; [lia|done].
Qed.

(** A copy of the top-level table translates as the original does. *)
Lemma clone_walk v m i va : tables_wf v -> in_map i -> used v i = false -> same_out (g_mem v) m (page_addr i) (page_addr i + 4096) ->
  entry m (page_addr i) (index 0 va) = entry (g_mem v) PML4_BASE (index 0 va) ->
  as_translate m (page_addr i) va = translate (g_mem v) va.
Proof.
  intros W Hi Hf Ho He. destruct (page_addr_aligned i Hi) as [Hp _]. pose proof (free_not_table v i W Hi Hf) as Hnt.
  unfold as_translate, translate. rewrite (walk_top m), (walk_top (g_mem v)). cbn zeta. rewrite He.
  assert (tab (g_mem v) 1 va = if present (entry (g_mem v) PML4_BASE (index 0 va)) then Some (e_addr (entry (g_mem v) PML4_BASE (index 0 va))) else None) as HS
    by (cbn [tab mbind option_bind]; by rewrite andb_true_r).
  destruct (present (entry (g_mem v) PML4_BASE (index 0 va))); [|reflexivity]. set (t := e_addr _) in *. clearbody t.
  apply (walk_same (g_mem v) m va 2 1 t); [reflexivity|exact HS|]. intros j b Hj Hb.
  apply (scribble_entry v (set_vmem v m) W (page_addr i) Hp Hnt Ho j va b); [lia|exact Hb|apply index_is_index].
Qed.
Lemma clone_translates v v1 i va : vmm_inv v -> in_map i -> used v i = false -> takes v v1 i 1 ->
  as_translate (copy_page (g_mem v1) (page_addr i) PML4_BASE) (page_addr i) va = translate (g_mem v) va.
Proof.
  intros [A W] Hi Hf T. pose proof (pml4_apart v i W Hi Hf) as Hap. rewrite (tk_mem _ _ _ _ T). apply clone_walk; [exact W|exact Hi|exact Hf| |].
  - intros x Hx. rewrite copy_page_at by (apply W || exact Hap). case_decide; [lia|reflexivity].
  - apply entry_copy; [apply W|exact Hap|apply index_is_index].
Qed.

(** Creating an address space takes a free page for its top-level table; every
    address then translates in the new space as in the kernel's, and the kernel's
    translations and all pages in use stay as they were.  It fails only when no
    page is free or the pool of 16 is full, and then gives the page back. *)
Theorem as_create_clones_kernel x : vmm_inv (sp_vmm x) ->
  let '(r, x') := wubu_as_create x in
  unchanged (sp_vmm x) (sp_vmm x') /\
  match r with
  | Some a => exists t, as_get x' a = Some {| as_pml4 := t; as_src := PML4_BASE; as_refs := 0 |} /\ data_page (sp_vmm x') t /\
      forall va, as_translate (g_mem (sp_vmm x')) t va = translate (g_mem (sp_vmm x)) va
  | None => memory_full (sp_vmm x) \/ (length (sp_store x) >= 16)%nat
  end.
Proof.
  intros V. unfold wubu_as_create. pose proof (alloc_one (sp_vmm x) (proj1 V)) as H. destruct (wubu_vmm_alloc_pages (sp_vmm x) 1) as [p v1].
  destruct H as [(-> & -> & Hfull)|(i & -> & Hnz & Hi & Hf & _ & T)].
  { rewrite Z.eqb_refl. split; [by apply unchanged_quiet, quiet_refl|by left]. }
  destruct (Z.eqb_spec (page_addr i) 0); [done|]. destruct (clone_quiet (sp_vmm x) v1 i V Hi Hf T) as (Q & Hd).
  pose proof (fun va => clone_translates (sp_vmm x) v1 i va V Hi Hf T) as Htr. cbn zeta in Htr.
  set (v2 := set_vmem v1 _) in *. assert (unchanged (sp_vmm x) v2) as U by by apply unchanged_quiet.
  destruct (recycled (sp_store x) 0) as [j|] eqn:Er.
  - split; [done|]. exists (page_addr i). split; [|done]. cbn [as_get sp_store set_spaces]. apply list_lookup_insert_eq. apply recycled_lt in Er. lia.
  - destruct (Nat.ltb_spec (length (sp_store x)) 16).
    + split; [done|]. exists (page_addr i). split; [|done]. cbn [as_get sp_store set_spaces]. by rewrite lookup_app_r, Nat.sub_diag.
    + split; [|right; lia]. by apply (give_back (sp_vmm x) v2 v2 i V Hi Hf Q (quiet_refl _ (q_inv _ _ Q))).
Qed.

Lemma boot_spaces_inv v : vmm_inv v -> vmm_inv (sp_vmm (boot_spaces v)).
Proof. done. Qed.
Lemma as_create_clones_kernel_witness :
  let '(r, x') := wubu_as_create (boot_spaces shared_vmm) in
  unchanged (sp_vmm (boot_spaces shared_vmm)) (sp_vmm x') /\
  match r with
  | Some a => exists t, as_get x' a = Some {| as_pml4 := t; as_src := PML4_BASE; as_refs := 0 |} /\ data_page (sp_vmm x') t /\
      forall va, as_translate (g_mem (sp_vmm x')) t va = translate (g_mem (sp_vmm (boot_spaces shared_vmm))) va
  | None => memory_full (sp_vmm (boot_spaces shared_vmm)) \/ (length (sp_store (boot_spaces shared_vmm)) >= 16)%nat
  end.
Proof. pose proof (as_create_clones_kernel (boot_spaces shared_vmm) (boot_spaces_inv _ shared_inv)) as H. exact H. Defined.

(** ** Defects *)

(** Destroying a space twice counts it out twice; switching takes no reference, so
    the space that runs can be destroyed and its top-level table handed out again. *)
Lemma as_destroy_twice :
  let x := (wubu_as_create (boot_spaces (fresh_vmm no_memory))).2 in
  sp_count (wubu_as_destroy (wubu_as_destroy x (Slot 0)) (Slot 0)) = 0.
Proof. vm_compute. reflexivity. Qed.
Lemma as_destroy_running :
  let x := wubu_as_switch (wubu_as_create (boot_spaces (fresh_vmm no_memory))).2 (Slot 0) in
  (wubu_vmm_alloc_pages (sp_vmm (wubu_as_destroy x (Slot 0))) 1).1 = sp_cr3 (wubu_as_destroy x (Slot 0)).
Proof. vm_compute. reflexivity. Qed.
