(* ===== verification/Dos.v ===== *)
(** * The 8086 interpreter: state, registers, memory, flags and arithmetic

    [runtime/wubu_dos_emu_internal.h], [wubu_dos_emu_regs.c], [wubu_dos_emu_mem.c]
    and [wubu_dos_emu_alu.c].  The machine is the record [emu]; the functions of
    the source that take a [WubuDosEmu *] are computations of the state monad
    [M], whose failures are the faults the C code can run into.  The host's
    files, clock and allocator are the operations of the class [Host]. *)

From S2P Require Import Prelude.
Open Scope Z_scope.

(** ** The host

    What the shim uses of the C library.  A result [inr n] is a failure that
    leaves [errno = n]; [option Z] is the [errno] of a call that returns only
    success or failure. *)
Record tm := { tm_year : Z; tm_mon : Z; tm_mday : Z; tm_wday : Z }.
Inductive open_mode := O_RDWR_CREAT_TRUNC | O_RDWR | O_RDONLY.
Inductive whence := SEEK_SET | SEEK_CUR | SEEK_END.

Class Host := {
  hstate : Type;
  h_localtime : hstate -> hstate * tm;
  h_clock_gettime : hstate -> hstate * (Z * Z);
  h_mkdir : list Z -> hstate -> hstate * option Z;
  h_rmdir : list Z -> hstate -> hstate * option Z;
  h_chdir : list Z -> hstate -> hstate * option Z;
  h_unlink : list Z -> hstate -> hstate * option Z;
  h_rename : list Z -> list Z -> hstate -> hstate * option Z;
  h_getcwd : hstate -> hstate * (list Z + Z);
  h_open : list Z -> open_mode -> hstate -> hstate * (Z + Z);
  h_close : Z -> hstate -> hstate * unit;
  h_read : Z -> Z -> hstate -> hstate * (list Z + Z);
  h_write : Z -> Z -> hstate -> hstate * bool;
  h_lseek : Z -> Z -> whence -> hstate -> hstate * (Z + Z);
  h_malloc : Z -> hstate -> hstate * bool;
  h_calloc_emu : hstate -> hstate * bool;
  h_fopen : list Z -> hstate -> hstate * option Z;
  h_fsize : Z -> hstate -> hstate * Z;
  h_fread : Z -> Z -> hstate -> hstate * list Z;
  h_fclose : Z -> hstate -> hstate * unit }.

(** ** The machine *)

Definition WUBU_DOS_MEM_SIZE : Z := 1024 * 1024.
Definition WUBU_DOS_TEXT_COLS : Z := 80.
Definition WUBU_DOS_TEXT_ROWS : Z := 25.

Definition F_CF : Z := 0x0001.
Definition F_PF : Z := 0x0004.
Definition F_AF : Z := 0x0010.
Definition F_ZF : Z := 0x0040.
Definition F_SF : Z := 0x0080.
Definition F_TF : Z := 0x0100.
Definition F_IF : Z := 0x0200.
Definition F_DF : Z := 0x0400.
Definition F_OF : Z := 0x0800.

Inductive WubuDosEmuState := WUBU_DOS_RUNNING | WUBU_DOS_TERMINATED | WUBU_DOS_ERROR.

(** The 16-bit fields of [struct WubuDosEmu], [FLAGS] and [psp_seg] included. *)
Inductive reg := ES | CS | SS | DS | AX | BX | CX | DX | SI | DI | BP | SP | IP | FLAGS | PSP_SEG.

#[global] Instance reg_eq_dec : EqDecision reg.
Proof. solve_decision. Defined.
#[global] Instance dstate_eq_dec : EqDecision WubuDosEmuState.
Proof. solve_decision. Defined.

Record console := mkConsole {
  text : list (list Z); attr : list (list Z); cur_x : Z; cur_y : Z; cur_attr : Z }.
Record keyboard := mkKeyboard {
  kbuf : list Z; kscan : list Z; khead : Z; ktail : Z; kshift : Z }.
Record handles := mkHandles { host_fd : list Z; host_used : list bool }.

Record emu `{Host} := mkEmu {
  mem : Z -> Z;
  regs : reg -> Z;
  call_stack : list Z;
  call_sp : Z;
  steps : Z;
  state : WubuDosEmuState;
  exit_code : Z;
  con : console;
  kbd : keyboard;
  fls : handles;
  seg_prefix : Z;
  rep_prefix : Z;
  host : hstate }.

(** What the C code can run into: an index outside the array it names, an
    integer division the processor traps, a loop that never ends, a chain of
    nested programs longer than the model follows. *)
Inductive fault := FBounds | FDivide | FLoop | FDepth.

Section machine.
Context {HO : Host}.

Definition set_mem v (e : emu) := mkEmu _ v (regs e) (call_stack e) (call_sp e) (steps e)
  (state e) (exit_code e) (con e) (kbd e) (fls e) (seg_prefix e) (rep_prefix e) (host e).
Definition set_regs v (e : emu) := mkEmu _ (mem e) v (call_stack e) (call_sp e) (steps e)
  (state e) (exit_code e) (con e) (kbd e) (fls e) (seg_prefix e) (rep_prefix e) (host e).
Definition set_calls s p (e : emu) := mkEmu _ (mem e) (regs e) s p (steps e)
  (state e) (exit_code e) (con e) (kbd e) (fls e) (seg_prefix e) (rep_prefix e) (host e).
Definition set_steps v (e : emu) := mkEmu _ (mem e) (regs e) (call_stack e) (call_sp e) v
  (state e) (exit_code e) (con e) (kbd e) (fls e) (seg_prefix e) (rep_prefix e) (host e).
Definition set_state v (e : emu) := mkEmu _ (mem e) (regs e) (call_stack e) (call_sp e) (steps e)
  v (exit_code e) (con e) (kbd e) (fls e) (seg_prefix e) (rep_prefix e) (host e).
Definition set_exit v (e : emu) := mkEmu _ (mem e) (regs e) (call_stack e) (call_sp e) (steps e)
  (state e) v (con e) (kbd e) (fls e) (seg_prefix e) (rep_prefix e) (host e).
Definition set_con v (e : emu) := mkEmu _ (mem e) (regs e) (call_stack e) (call_sp e) (steps e)
  (state e) (exit_code e) v (kbd e) (fls e) (seg_prefix e) (rep_prefix e) (host e).
Definition set_kbd v (e : emu) := mkEmu _ (mem e) (regs e) (call_stack e) (call_sp e) (steps e)
  (state e) (exit_code e) (con e) v (fls e) (seg_prefix e) (rep_prefix e) (host e).
Definition set_fls v (e : emu) := mkEmu _ (mem e) (regs e) (call_stack e) (call_sp e) (steps e)
  (state e) (exit_code e) (con e) (kbd e) v (seg_prefix e) (rep_prefix e) (host e).
Definition set_prefixes s r (e : emu) := mkEmu _ (mem e) (regs e) (call_stack e) (call_sp e) (steps e)
  (state e) (exit_code e) (con e) (kbd e) (fls e) s r (host e).
Definition set_host v (e : emu) := mkEmu _ (mem e) (regs e) (call_stack e) (call_sp e) (steps e)
  (state e) (exit_code e) (con e) (kbd e) (fls e) (seg_prefix e) (rep_prefix e) v.

(** ** The monad *)

Inductive res (A : Type) := Ok (a : A) (e : emu) | Bad (f : fault).
Arguments Ok {A} a e.
Arguments Bad {A} f.
Definition M (A : Type) : Type := emu -> res A.

#[global] Instance M_ret : MRet M := fun A a e => Ok a e.
#[global] Instance M_bind : MBind M := fun A B k m e =>
  match m e with Ok a e' => k a e' | Bad f => Bad f end.

Definition fail {A} (f : fault) : M A := fun _ => Bad f.
Definition gets {A} (f : emu -> A) : M A := fun e => Ok (f e) e.
Definition modify (f : emu -> emu) : M unit := fun e => Ok tt (f e).
Definition when (b : bool) (m : M unit) : M unit := if b then m else mret tt.
Definition call_host {A} (f : hstate -> hstate * A) : M A := fun e =>
  let '(h, a) := f (host e) in Ok a (set_host h e).

(** [l[i]] and [l[i] = v] on an array of the machine. *)
Definition index {A} (l : list A) (i : Z) : M A :=
  match (if 0 <=? i then l !! Z.to_nat i else None) with
  | Some v => mret v
  | None => fail FBounds
  end.
Definition assign {A} (l : list A) (i : Z) (v : A) : M (list A) :=
  index l i;; mret (<[Z.to_nat i := v]> l).

(** [while (true) { ... }]: the body ends the loop with [Some].  The fuel is
    binary, so a large bound costs nothing; a loop that is still running when
    it is used up is the fault [FLoop]. *)
Fixpoint iterate {B} (p : positive) (body : M (option B)) : M (option B) :=
  match p with
  | xH => body
  | xO q => r ← iterate q body;
      match r with Some b => mret (Some b) | None => iterate q body end
  | xI q => r ← body;
      match r with
      | Some b => mret (Some b)
      | None => r ← iterate q body;
          match r with Some b => mret (Some b) | None => iterate q body end
      end
  end.
Definition loop {B} (p : positive) (body : M (option B)) : M B :=
  r ← iterate p body; match r with Some b => mret b | None => fail FLoop end.

(** [for (i = lo; n rounds; i += d)]. *)
Fixpoint for_loop (lo d : Z) (n : nat) (body : Z -> M unit) : M unit :=
  match n with
  | O => mret tt
  | S n => body lo;; for_loop (lo + d) d n body
  end.

(** ** Registers *)

Definition upd (r : reg) (v : Z) (rs : reg -> Z) : reg -> Z :=
  fun r' => if decide (r' = r) then v else rs r'.

(** Reading and assigning a [uint16_t] field. *)
Definition getr (r : reg) : M Z := gets (fun e => regs e r).
Definition setr (r : reg) (v : Z) : M unit := modify (fun e => set_regs (upd r (u16 v) (regs e)) e).

Definition regp (i : Z) : reg :=
  match Z.land i 7 with
  | 0 => AX | 1 => CX | 2 => DX | 3 => BX | 4 => SP | 5 => BP | 6 => SI | _ => DI
  end.
Definition ww (i v : Z) : M unit := setr (regp i) v.
Definition rw (i : Z) : M Z := getr (regp i).

(** The register a byte register lives in, and whether it is its high byte. *)
Definition breg (i : Z) : reg * bool :=
  match Z.land i 7 with
  | 0 => (AX, false) | 1 => (CX, false) | 2 => (DX, false) | 3 => (BX, false)
  | 4 => (AX, true) | 5 => (CX, true) | 6 => (DX, true) | _ => (BX, true)
  end.
Definition set_lo (r : reg) (v : Z) : M unit :=
  x ← getr r; setr r (Z.lor (Z.land x 0xFF00) (u8 v)).
Definition set_hi (r : reg) (v : Z) : M unit :=
  x ← getr r; setr r (Z.lor (Z.land x 0x00FF) (Z.shiftl (u8 v) 8)).
Definition wb (i v : Z) : M unit :=
  let '(r, hi) := breg i in if hi : bool then set_hi r v else set_lo r v.
Definition rb (i : Z) : M Z :=
  let '(r, hi) := breg i in
  x ← getr r; mret (if hi : bool then u8 (Z.shiftr x 8) else u8 x).

Definition getF (b : Z) : M bool := gets (fun e => negb (Z.land (regs e FLAGS) b =? 0)).
Definition setF (b : Z) (v : bool) : M unit :=
  f ← getr FLAGS;
  setr FLAGS (if v then Z.lor f b else Z.land f (u16 (Z.lnot b))).

Fixpoint parity_loop (n : nat) (i c v : Z) : Z :=
  match n with
  | O => c
  | S n => parity_loop n (i + 1) (Z.lxor c (Z.land (Z.shiftr v i) 1)) v
  end.
Definition parity8 (v : Z) : bool := parity_loop 8 0 0 v =? 0.

(** ** Memory *)

Definition phys (seg off : Z) : Z := u32 (Z.shiftl seg 4 + off).
Definition cell (s o : Z) : Z := Z.land (phys s o) (WUBU_DOS_MEM_SIZE - 1).
Definition wr_mem (a v : Z) (m : Z -> Z) : Z -> Z := fun a' => if a' =? a then v else m a'.

Definition rd8 (s o : Z) : M Z := gets (fun e => mem e (cell s (u16 o))).
Definition wr8 (s o v : Z) : M unit :=
  modify (fun e => set_mem (wr_mem (cell s (u16 o)) (u8 v) (mem e)) e).
Definition rd16 (s o : Z) : M Z :=
  lo ← rd8 s o; hi ← rd8 s (o + 1); mret (Z.lor lo (Z.shiftl hi 8)).
Definition wr16 (s o v : Z) : M unit := wr8 s o v;; wr8 s (o + 1) (Z.shiftr v 8).

Definition fetch8 : M Z :=
  cs ← getr CS; ip ← getr IP; v ← rd8 cs ip; setr IP (ip + 1);; mret v.
Definition fetch16 : M Z :=
  lo ← fetch8; hi ← fetch8; mret (Z.lor lo (Z.shiftl hi 8)).

(** ** Flags of the logical operations, addition and subtraction *)

Definition logic8 (v : Z) : M unit :=
  setF F_CF false;; setF F_OF false;; setF F_AF false;;
  setF F_ZF (v =? 0);; setF F_SF (negb (Z.land v 0x80 =? 0));; setF F_PF (parity8 v).
Definition logic16 (v : Z) : M unit :=
  setF F_CF false;; setF F_OF false;; setF F_AF false;;
  setF F_ZF (v =? 0);; setF F_SF (negb (Z.land v 0x8000 =? 0));; setF F_PF (parity8 (u8 v)).

Definition add16 (a b : Z) (cin : bool) : M Z :=
  let r := u32 (a + b + b2z cin) in
  let res := u16 r in
  setF F_CF (negb (Z.shiftr r 16 =? 0));;
  setF F_ZF (res =? 0);;
  setF F_SF (negb (Z.land res 0x8000 =? 0));;
  setF F_AF (negb (Z.land (Z.land a 0xF + Z.land b 0xF + b2z cin) 0x10 =? 0));;
  let sa := s16 a <? 0 in let sb := s16 b <? 0 in let sr := s16 res <? 0 in
  setF F_OF (eqb sa sb && negb (eqb sr sa));;
  setF F_PF (parity8 (u8 res));;
  mret res.

Definition sub16 (a b : Z) (cin : bool) : M Z :=
  let r := u32 (a - b - b2z cin) in
  let res := u16 r in
  setF F_CF (negb (Z.shiftr r 16 =? 0));;
  setF F_ZF (res =? 0);;
  setF F_SF (negb (Z.land res 0x8000 =? 0));;
  setF F_AF (Z.land a 0xF - Z.land b 0xF - b2z cin <? 0);;
  let sa := s16 a <? 0 in let sb := s16 b <? 0 in let sr := s16 res <? 0 in
  setF F_OF (negb (eqb sa sb) && negb (eqb sr sa));;
  setF F_PF (parity8 (u8 res));;
  mret res.

Definition add8 (a b : Z) (cin : bool) : M Z :=
  let r := u16 (a + b + b2z cin) in
  let res := u8 r in
  setF F_CF (negb (Z.shiftr r 8 =? 0));;
  setF F_ZF (res =? 0);;
  setF F_SF (negb (Z.land res 0x80 =? 0));;
  setF F_AF (negb (Z.land (Z.land a 0xF + Z.land b 0xF + b2z cin) 0x10 =? 0));;
  let sa := s8 a <? 0 in let sb := s8 b <? 0 in let sr := s8 res <? 0 in
  setF F_OF (eqb sa sb && negb (eqb sr sa));;
  setF F_PF (parity8 res);;
  mret res.

Definition sub8 (a b : Z) (cin : bool) : M Z :=
  let r := u16 (a - b - b2z cin) in
  let res := u8 r in
  setF F_CF (negb (Z.shiftr r 8 =? 0));;
  setF F_ZF (res =? 0);;
  setF F_SF (negb (Z.land res 0x80 =? 0));;
  setF F_AF (Z.land a 0xF - Z.land b 0xF - b2z cin <? 0);;
  let sa := s8 a <? 0 in let sb := s8 b <? 0 in let sr := s8 res <? 0 in
  setF F_OF (negb (eqb sa sb) && negb (eqb sr sa));;
  setF F_PF (parity8 res);;
  mret res.

Definition alu8 (arith a b : Z) : M Z :=
  match arith with
  | 0 => add8 a b false
  | 1 => let r := Z.lor a b in logic8 r;; mret r
  | 2 => cf ← getF F_CF; add8 a b cf
  | 3 => cf ← getF F_CF; sub8 a b cf
  | 4 => let r := Z.land a b in logic8 r;; mret r
  | 5 => sub8 a b false
  | 6 => let r := Z.lxor a b in logic8 r;; mret r
  | _ => sub8 a b false
  end.
Definition alu16 (arith a b : Z) : M Z :=
  match arith with
  | 0 => add16 a b false
  | 1 => let r := Z.lor a b in logic16 r;; mret r
  | 2 => cf ← getF F_CF; add16 a b cf
  | 3 => cf ← getF F_CF; sub16 a b cf
  | 4 => let r := Z.land a b in logic16 r;; mret r
  | 5 => sub16 a b false
  | 6 => let r := Z.lxor a b in logic16 r;; mret r
  | _ => sub16 a b false
  end.

(** ** Shifts and rotations: one round of the loop, then the loop *)

Definition shift8_round (op res : Z) : M Z :=
  oldcf ← getF F_CF;
  let msb := Z.land (Z.shiftr res 7) 1 in
  let bit0 := Z.land res 1 in
  match op with
  | 0 => setF F_CF (negb (msb =? 0));; mret (u8 (Z.lor (Z.shiftl res 1) msb))
  | 1 => setF F_CF (negb (bit0 =? 0));; mret (u8 (Z.lor (Z.shiftr res 1) (Z.shiftl bit0 7)))
  | 2 => setF F_CF (negb (msb =? 0));; setF F_OF (negb (msb =? b2z oldcf));;
      mret (u8 (Z.lor (Z.shiftl res 1) (b2z oldcf)))
  | 3 => setF F_CF (negb (bit0 =? 0));; setF F_OF (negb (bit0 =? b2z oldcf));;
      mret (u8 (Z.lor (Z.shiftr res 1) (Z.shiftl (b2z oldcf) 7)))
  | 4 => setF F_CF (negb (msb =? 0));; setF F_OF false;; mret (u8 (Z.shiftl res 1))
  | 5 => setF F_CF (negb (bit0 =? 0));; mret (u8 (Z.shiftr res 1))
  | 6 => setF F_CF (negb (msb =? 0));; setF F_OF false;; mret (u8 (Z.shiftl res 1))
  | _ => setF F_CF (negb (bit0 =? 0));; mret (u8 (Z.lor (Z.shiftr res 1) (Z.land res 0x80)))
  end.
Definition shift16_round (op res : Z) : M Z :=
  oldcf ← getF F_CF;
  let msb := Z.land (Z.shiftr res 15) 1 in
  let bit0 := Z.land res 1 in
  match op with
  | 0 => setF F_CF (negb (msb =? 0));; mret (u16 (Z.lor (Z.shiftl res 1) msb))
  | 1 => setF F_CF (negb (bit0 =? 0));; mret (u16 (Z.lor (Z.shiftr res 1) (Z.shiftl bit0 15)))
  | 2 => setF F_CF (negb (msb =? 0));; setF F_OF (negb (msb =? b2z oldcf));;
      mret (u16 (Z.lor (Z.shiftl res 1) (b2z oldcf)))
  | 3 => setF F_CF (negb (bit0 =? 0));; setF F_OF (negb (bit0 =? b2z oldcf));;
      mret (u16 (Z.lor (Z.shiftr res 1) (Z.shiftl (b2z oldcf) 15)))
  | 4 => setF F_CF (negb (msb =? 0));; setF F_OF false;; mret (u16 (Z.shiftl res 1))
  | 5 => setF F_CF (negb (bit0 =? 0));; mret (u16 (Z.shiftr res 1))
  | 6 => setF F_CF (negb (msb =? 0));; setF F_OF false;; mret (u16 (Z.shiftl res 1))
  | _ => setF F_CF (negb (bit0 =? 0));; mret (u16 (Z.lor (Z.shiftr res 1) (Z.land res 0x8000)))
  end.
Fixpoint shift_loop (round : Z -> M Z) (n : nat) (res : Z) : M Z :=
  match n with O => mret res | S n => res ← round res; shift_loop round n res end.

Definition do_shift8 (op v cnt : Z) : M Z :=
  let cnt := Z.land cnt 31 in
  if cnt =? 0 then mret v else
  res ← shift_loop (shift8_round op) (Z.to_nat cnt) v;
  logic8 res;; mret res.
Definition do_shift16 (op v cnt : Z) : M Z :=
  let cnt := Z.land cnt 31 in
  if cnt =? 0 then mret v else
  res ← shift_loop (shift16_round op) (Z.to_nat cnt) v;
  logic16 res;; mret res.

(** ** The stack *)

Definition push16 (v : Z) : M unit :=
  sp ← getr SP; setr SP (sp - 2);; ss ← getr SS; sp ← getr SP; wr16 ss sp v.
Definition pop16 : M Z :=
  ss ← getr SS; sp ← getr SP; v ← rd16 ss sp; setr SP (sp + 2);; mret v.

(** ** Effective addresses and operands *)

Definition seg_for (id : Z) : M Z :=
  match id with 1 => getr ES | 2 => getr CS | 3 => getr SS | _ => getr DS end.

(** The base registers of an [r/m] field with a displacement [d], and whether
    they address the stack segment. *)
Definition ea_base (rm d : Z) : M (Z * bool) :=
  bx ← getr BX; bp ← getr BP; si ← getr SI; di ← getr DI;
  mret match rm with
       | 0 => (u16 (bx + si + d), false) | 1 => (u16 (bx + di + d), false)
       | 2 => (u16 (bp + si + d), true) | 3 => (u16 (bp + di + d), true)
       | 4 => (u16 (si + d), false) | 5 => (u16 (di + d), false)
       | 6 => (u16 (bp + d), true) | _ => (u16 (bx + d), false)
       end.

Definition ea (modrm : Z) : M (Z * Z) :=
  let md := Z.shiftr modrm 6 in
  let rm := Z.land modrm 7 in
  pfx ← gets seg_prefix;
  s ← (if pfx =? 0 then getr DS else seg_for pfx);
  '(o, stack) ←
    (if md =? 0 then
       if rm =? 6 then o ← fetch16; mret (o, false) else ea_base rm 0
     else if md =? 1 then d ← fetch8; ea_base rm (s8 d)
     else d ← fetch16; ea_base rm (s16 d));
  s ← (if stack : bool then getr SS else mret s);
  mret (s, o).

Definition reg_read (modrm : Z) (w : bool) : M Z :=
  let r := Z.land (Z.shiftr modrm 3) 7 in if w then rw r else rb r.
Definition reg_write (modrm : Z) (w : bool) (v : Z) : M unit :=
  let r := Z.land (Z.shiftr modrm 3) 7 in if w then ww r v else wb r v.
Definition rm_read (modrm : Z) (w : bool) : M Z :=
  if Z.shiftr modrm 6 =? 3 then
    if w then rw (Z.land modrm 7) else rb (Z.land modrm 7)
  else '(s, o) ← ea modrm; if w then rd16 s o else rd8 s o.
Definition rm_write (modrm : Z) (w : bool) (v : Z) : M unit :=
  if Z.shiftr modrm 6 =? 3 then
    if w then ww (Z.land modrm 7) v else wb (Z.land modrm 7) v
  else '(s, o) ← ea modrm; if w then wr16 s o v else wr8 s o v.

(** ** String operations *)

Definition step_index (w : bool) (r : reg) : M unit :=
  df ← getF F_DF; x ← getr r; setr r (x + (if w then 2 else 1) * (if df : bool then -1 else 1)).
Definition do_movs (w : bool) : M unit :=
  ds ← getr DS; si ← getr SI; es ← getr ES; di ← getr DI;
  (if w then v ← rd16 ds si; wr16 es di v else v ← rd8 ds si; wr8 es di v);;
  step_index w SI;; step_index w DI.
Definition do_stos (w : bool) : M unit :=
  es ← getr ES; di ← getr DI; ax ← getr AX;
  (if w then wr16 es di ax else wr8 es di (u8 ax));;
  step_index w DI.
Definition do_lods (w : bool) : M unit :=
  ds ← getr DS; si ← getr SI;
  (if w then v ← rd16 ds si; setr AX v else v ← rd8 ds si; set_lo AX v);;
  step_index w SI.
Definition do_scas (w : bool) : M unit :=
  ax ← getr AX; es ← getr ES; di ← getr DI;
  m ← (if w then rd16 es di else rd8 es di);
  (if w then sub16 ax m false else sub8 (u8 (Z.land ax 0xFF)) (u8 m) false);;
  step_index w DI.
Definition do_cmps (w : bool) : M unit :=
  ds ← getr DS; si ← getr SI; es ← getr ES; di ← getr DI;
  a ← (if w then rd16 ds si else rd8 ds si);
  b ← (if w then rd16 es di else rd8 es di);
  (if w then sub16 a b false else sub8 (u8 a) (u8 b) false);;
  step_index w SI;; step_index w DI.
End machine.
Arguments Ok {HO A} a e.
Arguments Bad {HO A} f.
