(* ===== verification/DosInt.v ===== *)
(** * The 8086 interpreter: screen, keyboard, file handles and interrupts

    [runtime/wubu_dos_emu_int.c], with [wubu_dos_emu_create], the two loaders
    and [wubu_dos_emu_key] of [wubu_dos_emu.c].  A [char] is its byte value.
    Running the child program of INT 21h/4Bh is the argument [run_child] of
    [int21]; [DosStep] passes [wubu_dos_emu_run] there. *)

From S2P Require Import Prelude Dos.
Open Scope Z_scope.

Section console.
Context {HO : Host}.

(** ** The text screen *)

Definition set_cursor (x y : Z) : M unit :=
  modify (fun e => let c := con e in set_con (mkConsole (text c) (attr c) x y (cur_attr c)) e).
Definition set_cur_attr (a : Z) : M unit :=
  modify (fun e => let c := con e in set_con (mkConsole (text c) (attr c) (cur_x c) (cur_y c) a) e).

Definition in_screen (y x : Z) : bool :=
  (0 <=? y) && (y <? WUBU_DOS_TEXT_ROWS) && (0 <=? x) && (x <? WUBU_DOS_TEXT_COLS).
Definition put_at {A} (y x : Z) (v : A) (rows : list (list A)) : list (list A) :=
  alter (fun row => <[Z.to_nat x := v]> row) (Z.to_nat y) rows.
Definition get_at (y x : Z) (rows : list (list Z)) : M Z := row ← index rows y; index row x.

(** [e->text[y][x] = c; e->attr[y][x] = a]. *)
Definition put_cell (y x c a : Z) : M unit :=
  if in_screen y x then
    modify (fun e => let s := con e in
      set_con (mkConsole (put_at y x (u8 c) (text s)) (put_at y x (u8 a) (attr s))
                         (cur_x s) (cur_y s) (cur_attr s)) e)
  else fail FBounds.

Definition splice {A} (left n : nat) (src dst : list A) : list A :=
  take left dst ++ take n (drop left src) ++ drop (left + n) dst.
Definition copy_cells (y ys left n : nat) (rows : list (list Z)) : list (list Z) :=
  <[y := splice left n (rows !!! ys) (rows !!! y)]> rows.

(** [memcpy (text[y] + left, text[ys] + left, right - left + 1)], and the same
    for [attr]; a copy that leaves its row is a fault. *)
Definition copy_row (y ys left right : Z) : M unit :=
  if (0 <=? y) && (y <? WUBU_DOS_TEXT_ROWS) && (0 <=? ys) && (ys <? WUBU_DOS_TEXT_ROWS) &&
     (0 <=? left) && (left <=? right + 1) && (right <? WUBU_DOS_TEXT_COLS) then
    modify (fun e => let s := con e in
      let cp := copy_cells (Z.to_nat y) (Z.to_nat ys) (Z.to_nat left) (Z.to_nat (right - left + 1)) in
      set_con (mkConsole (cp (text s)) (cp (attr s)) (cur_x s) (cur_y s) (cur_attr s)) e)
  else fail FBounds.

(** Rounds of [for (y = lo; y <= hi; y++)]. *)
Definition rounds (lo hi : Z) : nat := Z.to_nat (hi - lo + 1).

Definition blank_row (left right a y : Z) : M unit :=
  for_loop left 1 (rounds left right) (fun x => put_cell y x 32 a).

Definition scroll_up (top left bot right lines a : Z) : M unit :=
  if lines <=? 0 then mret tt else
  for_loop top 1 (rounds top (bot - lines)) (fun y => copy_row y (y + lines) left right);;
  for_loop (bot - lines + 1) 1 (rounds (bot - lines + 1) bot) (blank_row left right a).

(** The cursor after the last line of [put_char]. *)
Definition clamp_row : M unit :=
  c ← gets con; when (WUBU_DOS_TEXT_ROWS <=? cur_y c) (set_cursor (cur_x c) (WUBU_DOS_TEXT_ROWS - 1)).
Definition put_char (ch : Z) : M unit :=
  c ← gets con;
  if ch =? 13 then set_cursor 0 (cur_y c) else
  (if ch =? 10 then set_cursor 0 (cur_y c + 1)
   else if ch =? 8 then when (0 <? cur_x c) (set_cursor (cur_x c - 1) (cur_y c))
   else
     when (WUBU_DOS_TEXT_COLS <=? cur_x c) (set_cursor 0 (cur_y c + 1));;
     c ← gets con;
     when (WUBU_DOS_TEXT_ROWS <=? cur_y c)
       (scroll_up 0 0 (WUBU_DOS_TEXT_ROWS - 1) (WUBU_DOS_TEXT_COLS - 1) 1 (u8 (cur_attr c));;
        set_cursor (cur_x c) (WUBU_DOS_TEXT_ROWS - 1));;
     c ← gets con;
     put_cell (cur_y c) (cur_x c) ch (u8 (cur_attr c));;
     set_cursor (cur_x c + 1) (cur_y c));;
  clamp_row.

(** ** The keyboard ring *)

Definition set_khead (h : Z) : M unit :=
  modify (fun e => let k := kbd e in set_kbd (mkKeyboard (kbuf k) (kscan k) h (ktail k) (kshift k)) e).
Definition kbd_pop : M Z :=
  k ← gets kbd;
  if khead k =? ktail k then mret 0 else
  v ← index (kbuf k) (khead k);
  set_khead (Z.land (khead k + 1) 63);; mret v.

Definition scan_of (ascii : Z) : Z :=
  if (97 <=? ascii) && (ascii <=? 122) then u8 (0x1E + (ascii - 97))
  else if (65 <=? ascii) && (ascii <=? 90) then u8 (0x1E + (ascii - 65))
  else if (48 <=? ascii) && (ascii <=? 57) then u8 (0x02 + (ascii - 48))
  else if ascii =? 32 then 0x39
  else if (ascii =? 13) || (ascii =? 10) then 0x1C
  else if ascii =? 8 then 0x0E
  else if ascii =? 9 then 0x0F
  else if ascii =? 0x1B then 0x01
  else 0x1E.
Definition wubu_dos_emu_key (ascii : Z) : M unit :=
  let scan := scan_of ascii in
  k ← gets kbd;
  let next := Z.land (ktail k + 1) 63 in
  if next =? khead k then mret tt else
  buf ← assign (kbuf k) (ktail k) ascii;
  scans ← assign (kscan k) (ktail k) scan;
  modify (set_kbd (mkKeyboard buf scans (khead k) next (kshift k))).

Definition int16 : M unit :=
  ax ← getr AX;
  match u8 (Z.shiftr ax 8) with
  | 0x00 => v ← kbd_pop; k ← gets kbd;
      sc ← (if khead k =? ktail k then mret 0 else index (kscan k) (Z.land (khead k) 63));
      setr AX (Z.lor (Z.shiftl sc 8) v)
  | 0x01 => k ← gets kbd;
      if khead k =? ktail k then setF F_ZF true else
      setF F_ZF false;;
      sc ← index (kscan k) (Z.land (khead k) 63);
      v ← index (kbuf k) (Z.land (khead k) 63);
      setr AX (Z.lor (Z.shiftl sc 8) v)
  | 0x02 => k ← gets kbd; setr AX (Z.lor (Z.land ax 0xFF00) (kshift k))
  | _ => mret tt
  end.

(** ** INT 10h *)

Definition int10_scroll_down (lines a ch cl dh dl : Z) : M unit :=
  if (lines =? 0) || (dh - ch + 1 <=? lines) then
    for_loop ch 1 (rounds ch dh) (blank_row cl dl a)
  else
    for_loop dh (-1) (rounds (ch + lines) dh) (fun y => copy_row y (y - lines) cl dl);;
    for_loop ch 1 (rounds ch (ch + lines - 1)) (blank_row cl dl a).

(** The function of AH, with the registers it reads. *)
Definition int10_fn (ax bx cx dx : Z) : M unit :=
  let ch := Z.land (Z.shiftr cx 8) 0xFF in let cl := Z.land cx 0xFF in
  let dh := Z.land (Z.shiftr dx 8) 0xFF in let dl := Z.land dx 0xFF in
  let at_ := u8 (Z.land bx 0xFF) in
  c ← gets con;
  match u8 (Z.shiftr ax 8) with
  | 0x02 => set_cursor dl dh
  | 0x03 => setr AX (Z.lor (Z.shiftl (cur_attr c) 8) 0);;
            setr DX (Z.lor (Z.shiftl (cur_y c) 8) (cur_x c))
  | 0x06 => when (Z.land ax 0xFF =? 0) (scroll_up ch cl dh dl WUBU_DOS_TEXT_ROWS at_);;
            set_cursor cl ch
  | 0x07 => int10_scroll_down (Z.land ax 0xFF) at_ ch cl dh dl;; set_cursor cl ch
  | 0x08 => a ← get_at (cur_y c) (cur_x c) (attr c);
            t ← get_at (cur_y c) (cur_x c) (text c);
            setr AX (Z.lor (Z.shiftl a 8) t)
  | 0x09 => when ((cur_x c <? WUBU_DOS_TEXT_COLS) && (cur_y c <? WUBU_DOS_TEXT_ROWS))
                 (put_cell (cur_y c) (cur_x c) (Z.land ax 0xFF) at_);;
            when (cur_x c <? WUBU_DOS_TEXT_COLS - 1) (set_cursor (cur_x c + 1) (cur_y c))
  | 0x0E => put_char (Z.land ax 0xFF)
  | 0x0F => setr AX 0x5000;; setr BX 0
  | 0x13 => s ← getr ES;
      for_loop 0 1 (Z.to_nat cx) (fun i =>
        ch ← rd8 s (dx + i);
        set_cursor (dl + i) dh;; set_cur_attr at_;; put_char ch)
  | _ => mret tt
  end.

Definition int10 : M unit :=
  ax ← getr AX; bx ← getr BX; cx ← getr CX; dx ← getr DX; int10_fn ax bx cx dx.

(** ** The handle table *)

Definition dos_handle_to_fd (h : Z) : M Z :=
  if h <=? 2 then mret h else
  f ← gets fls;
  let slot := h - 1 in
  if (slot <? 0) || (64 <=? slot) then mret (-1) else
  used ← index (host_used f) slot;
  if negb used then mret (-1) else index (host_fd f) slot.

Fixpoint alloc_from (n : nat) (i fd : Z) : M Z :=
  match n with
  | O => mret 0
  | S n =>
      f ← gets fls;
      used ← index (host_used f) i;
      if used : bool then alloc_from n (i + 1) fd else
      us ← assign (host_used f) i true;
      fds ← assign (host_fd f) i fd;
      modify (set_fls (mkHandles fds us));;
      mret (u16 (i + 1))
  end.
(** [for (i = 3; i < 64; i++)]. *)
Definition dos_handle_alloc (fd : Z) : M Z := alloc_from 61 3 fd.

(** ** Creating a machine and loading a program *)

Definition blank_console : console :=
  mkConsole (replicate 25 (replicate 80 0)) (replicate 25 (replicate 80 0)) 0 0 0x07.
Definition boot_regs (r : reg) : Z :=
  match r with DS | ES | SS | CS => 0x1000 | SP => 0xFFFE | _ => 0 end.
Definition wubu_dos_emu_create (h : hstate) : emu :=
  mkEmu _ (fun _ => 0) boot_regs (replicate 32 0) 0 0 WUBU_DOS_RUNNING 0 blank_console
    (mkKeyboard (replicate 64 0) (replicate 64 0) 0 0 0)
    (mkHandles (replicate 64 0) (replicate 64 false)) 0 0 h.

Fixpoint copy_program (cs i : Z) (data : list Z) : M unit :=
  match data with
  | [] => mret tt
  | b :: data => wr8 cs (0x100 + i) b;; copy_program cs (i + 1) data
  end.
Definition wubu_dos_emu_load_com (data : list Z) : M Z :=
  let size := Z.of_nat (length data) in
  if size =? 0 then mret (-1) else
  if WUBU_DOS_MEM_SIZE - 0x100 <? size then mret (-1) else
  modify (set_mem (fun _ => 0));;
  ds ← getr DS;
  setr PSP_SEG ds;;
  wr8 ds 0 0xCD;; wr8 ds 1 0x20;; wr8 ds 2 0x9A;;
  wr16 ds 0x16 0;; wr16 ds 0x2C 0;; wr16 ds 0x80 0x80;; wr8 ds 0x80 0x0D;;
  cs ← getr CS;
  copy_program cs 0 data;;
  setr IP 0x100;;
  modify (set_state WUBU_DOS_RUNNING);;
  mret 0.

(** [data[i]]; reading past the image is a fault. *)
Definition image_byte (data : list Z) (i : Z) : M Z :=
  index data i.
Definition image_word (data : list Z) (i : Z) : M Z :=
  lo ← image_byte data i; hi ← image_byte data (i + 1); mret (u16 (Z.lor lo (Z.shiftl hi 8))).
Definition poke (a v : Z) : M unit := modify (fun e => set_mem (wr_mem a (u8 v) (mem e)) e).

Fixpoint relocate (n : nat) (i : Z) (data : list Z) (reloc_off hdr_size : Z) : M unit :=
  match n with
  | O => mret tt
  | S n =>
      let ro := u32 (reloc_off + u32 (i * 4)) in
      if Z.of_nat (length data) <=? u32 (ro + 3) then mret tt else
      off ← image_word data ro;
      seg ← image_word data (ro + 2);
      let a := u32 (Z.shiftl seg 4 + off) in
      when (a + 1 <? WUBU_DOS_MEM_SIZE)
        (m ← gets mem;
         let v := u16 (u16 (Z.lor (m a) (Z.shiftl (m (a + 1)) 8)) + hdr_size) in
         poke a (u8 v);; poke (a + 1) (Z.shiftr v 8));;
      relocate n (i + 1) data reloc_off hdr_size
  end.

Definition wubu_dos_emu_load_exe (data : list Z) : M Z :=
  let size := Z.of_nat (length data) in
  if size <? 28 then mret (-1) else
  b0 ← image_byte data 0;
  if negb (b0 =? 77) && negb (b0 =? 90) then mret (-1) else
  hdr_size ← image_word data 8;
  init_ss ← image_word data 14;
  init_sp ← image_word data 16;
  init_ip ← image_word data 20;
  init_cs ← image_word data 22;
  reloc_off ← image_word data 24;
  reloc_cnt ← image_word data 26;
  let img_base := hdr_size * 16 in
  let img_bytes := u32 (u32 size - img_base) in
  modify (set_mem (fun _ => 0));;
  for_loop 0 1 (Z.to_nat (Z.min img_bytes (WUBU_DOS_MEM_SIZE - img_base))) (fun i =>
    b ← image_byte data (img_base + i); poke (img_base + i) b);;
  relocate (Z.to_nat reloc_cnt) 0 data reloc_off hdr_size;;
  setr CS (hdr_size + init_cs);;
  setr DS hdr_size;; setr ES hdr_size;; setr SS (hdr_size + init_ss);;
  setr SP (if init_sp =? 0 then 0xFFFE else init_sp);;
  setr PSP_SEG hdr_size;;
  setr IP init_ip;;
  setr AX 0;; setr BX 0;; setr CX 0;; setr DX 0;;
  modify (set_state WUBU_DOS_RUNNING);;
  mret 0.
End console.

(** ** INT 21h *)

Section dos.
Context {HO : Host}.
Variable run_child : M WubuDosEmuState.

(** [while (i < 255) { c = rd8 (...); if (!c) break; p[i++] = c; }]. *)
Fixpoint read_path (n : nat) (s o : Z) : M (list Z) :=
  match n with
  | O => mret []
  | S n => c ← rd8 s o; if c =? 0 then mret [] else p ← read_path n s (o + 1); mret (c :: p)
  end.
Definition path_dx : M (list Z) := s ← getr DS; o ← getr DX; read_path 255 s o.

(** Success clears the carry and AX; failure sets the carry and AX to [errno]. *)
Definition dos_error (n : Z) : M unit := setF F_CF true;; setr AX n.
Definition dos_result (r : option Z) : M unit :=
  match r with None => setF F_CF false;; setr AX 0 | Some n => dos_error n end.

Fixpoint print_string (n : nat) (s o : Z) : M unit :=
  match n with
  | O => mret tt
  | S n => c ← rd8 s o; if c =? 36 then mret tt else put_char c;; print_string n s (o + 1)
  end.

Fixpoint read_line (fuel : nat) (maxlen n s off : Z) : M Z :=
  match fuel with
  | O => mret n
  | S fuel =>
      if (n <? maxlen) && (n <? 126) then
        v ← kbd_pop;
        if (v =? 0) || (v =? 13) then mret n else
        wr8 s (off + 2 + n) v;; put_char v;; read_line fuel maxlen (n + 1) s off
      else mret n
  end.

Definition new_handle (fd : Z) : M unit :=
  h ← dos_handle_alloc fd;
  setr AX h;; setF F_CF (h =? 0);;
  when (h =? 0) (call_host (h_close fd)).
Definition int21_creat : M unit :=
  p ← path_dx; r ← call_host (h_open p O_RDWR_CREAT_TRUNC);
  match r with inl fd => new_handle fd | inr n => dos_error n end.
Definition int21_open : M unit :=
  p ← path_dx; r ← call_host (h_open p O_RDWR);
  match r with
  | inl fd => new_handle fd
  | inr _ =>
      r ← call_host (h_open p O_RDONLY);
      match r with inl fd => new_handle fd | inr n => dos_error n end
  end.
Definition int21_close : M unit :=
  bx ← getr BX; fd ← dos_handle_to_fd bx;
  if fd <? 0 then dos_error 6 else
  when (3 <=? bx)
    (f ← gets fls;
     us ← assign (host_used f) (bx - 1) false;
     modify (set_fls (mkHandles (host_fd f) us));;
     call_host (h_close fd));;
  setF F_CF false;; setr AX 0.

Fixpoint store_bytes (s o k : Z) (bs : list Z) : M unit :=
  match bs with [] => mret tt | b :: bs => wr8 s (o + u16 k) b;; store_bytes s o (k + 1) bs end.
Definition int21_read : M unit :=
  bx ← getr BX; fd ← dos_handle_to_fd bx;
  cnt ← getr CX; o ← getr DX; s ← getr DS;
  if fd <? 0 then dos_error 6 else
  if (fd <=? 2) && negb (fd =? 0) then setr AX 0;; setF F_CF false else
  ok ← call_host (h_malloc (if cnt =? 0 then 1 else cnt));
  if negb ok then dos_error 8 else
  r ← call_host (h_read fd cnt);
  match r with
  | inr n => dos_error n
  | inl bs => store_bytes s o 0 bs;; setr AX (Z.of_nat (length bs));; setF F_CF false
  end.

Fixpoint write_bytes (n : nat) (fd s o k : Z) : M unit :=
  match n with
  | O => mret tt
  | S n =>
      c ← rd8 s (o + k);
      if fd <=? 2 then put_char c;; write_bytes n fd s o (k + 1) else
      ok ← call_host (h_write fd c);
      if ok : bool then write_bytes n fd s o (k + 1) else mret tt
  end.
Definition int21_write : M unit :=
  bx ← getr BX; fd ← dos_handle_to_fd bx;
  cnt ← getr CX; o ← getr DX; s ← getr DS;
  if fd <? 0 then dos_error 6 else
  write_bytes (Z.to_nat cnt) fd s o 0;;
  setr AX cnt;; setF F_CF false.

Definition int21_lseek : M unit :=
  bx ← getr BX; fd ← dos_handle_to_fd bx;
  ax ← getr AX; cx ← getr CX; dx ← getr DX;
  let off := Z.lor (Z.shiftl cx 16) (Z.land dx 0xFFFF) in
  let al := u8 ax in
  let wh := if al =? 1 then SEEK_CUR else if al =? 2 then SEEK_END else SEEK_SET in
  if fd <? 0 then dos_error 6 else
  r ← call_host (h_lseek fd off wh);
  match r with
  | inr n => dos_error n
  | inl p => setr DX (Z.shiftr p 16);; setr AX (Z.land p 0xFFFF);; setF F_CF false
  end.

Definition int21_getcwd : M unit :=
  r ← call_host h_getcwd;
  match r with
  | inl cwd =>
      o ← getr DX; s ← getr DS;
      store_bytes s o 0 (take 63 cwd);;
      wr8 s (o + Z.of_nat (length cwd)) 0;;
      setF F_CF false
  | inr n => dos_error n
  end.

(** Running [m] on the child machine: the child's host calls are the parent's. *)
Definition on_child {A} (m : M A) (child : emu) : M (A * emu) := fun e =>
  match m (set_host (host e) child) with
  | Ok a child' => Ok (a, child') (set_host (host child') e)
  | Bad f => Bad f
  end.
Definition int21_exec : M unit :=
  p ← path_dx;
  f ← call_host (h_fopen p);
  match f with
  | None => dos_error 2
  | Some f =>
      sz ← call_host (h_fsize f);
      ok ← call_host (h_malloc (u64 sz));
      if negb ok then call_host (h_fclose f);; dos_error 8 else
      img ← call_host (h_fread f (u64 sz));
      call_host (h_fclose f);;
      born ← call_host h_calloc_emu;
      h ← gets host;
      let child := wubu_dos_emu_create h in
      '(rc, child) ←
        (if born && (Z.of_nat (length img) =? sz) then
           b0 ← image_byte img 0;
           '(rc, child) ← on_child (if (b0 =? 77) || (b0 =? 90) then wubu_dos_emu_load_exe img
                                    else wubu_dos_emu_load_com img) child;
           if rc =? 0 then '(_, child) ← on_child run_child child; mret (rc, child)
           else mret (rc, child)
         else mret (-1, child));
      setr AX (if born : bool then exit_code child else 0);;
      modify (set_state WUBU_DOS_TERMINATED);;
      setF F_CF (negb (rc =? 0))
  end.

Definition int21_date : M unit :=
  t ← call_host h_localtime;
  setr AX (tm_year t + 1900);;
  setr DX (Z.lor (Z.shiftl (tm_mon t + 1) 8) (Z.land (tm_mday t) 0xFF));;
  cx ← getr CX; setr CX (Z.lor (Z.land cx 0xFF00) (Z.land (tm_wday t) 0xFF)).
Definition int21_time : M unit :=
  '(sec, nsec) ← call_host h_clock_gettime;
  let cs100 := u32 (sec * 100 + Z.quot nsec 10000000) in
  setr CX (cs100 / 100);; setr DX (Z.shiftr (cs100 / 100) 8).

Definition int21_fn (ax dx ds : Z) : M unit :=
  match u8 (Z.shiftr ax 8) with
  | 0x01 | 0x07 | 0x08 => v ← kbd_pop; setr AX v
  | 0x02 => put_char (Z.land dx 0xFF)
  | 0x05 => mret tt
  | 0x06 => when (u8 (Z.land dx 0xFF) =? 0xFF) (v ← kbd_pop; setr AX v;; setF F_ZF (v =? 0))
  | 0x09 => print_string 4096 ds dx
  | 0x0A => maxlen ← rd8 ds dx; n ← read_line 126 maxlen 0 ds dx; wr8 ds (dx + 1) n
  | 0x19 => setr AX (Z.land ax 0xFF00)
  | 0x25 => let vec := u8 (Z.land ax 0xFF) in wr16 0 (vec * 4) dx;; wr16 0 (vec * 4 + 2) ds
  | 0x2A => int21_date
  | 0x2C => int21_time
  | 0x30 => setr AX 0x0005;; setr BX 0x1234
  | 0x35 => let vec := u8 (Z.land ax 0xFF) in
      ipv ← rd16 0 (vec * 4); csv ← rd16 0 (vec * 4 + 2); setr BX ipv;; setr ES csv
  | 0x39 => p ← path_dx; r ← call_host (h_mkdir p); dos_result r
  | 0x3A => p ← path_dx; r ← call_host (h_rmdir p); dos_result r
  | 0x3B => p ← path_dx; r ← call_host (h_chdir p); dos_result r
  | 0x3C => int21_creat
  | 0x3D => int21_open
  | 0x3E => int21_close
  | 0x3F => int21_read
  | 0x40 => int21_write
  | 0x41 => p ← path_dx; r ← call_host (h_unlink p); dos_result r
  | 0x42 => int21_lseek
  | 0x47 => int21_getcwd
  | 0x4A => setF F_CF false
  | 0x4B => int21_exec
  | 0x4C => modify (set_exit (Z.land ax 0xFF));; modify (set_state WUBU_DOS_TERMINATED)
  | 0x4D => c ← gets exit_code; setr AX (Z.lor (Z.land ax 0xFF00) (Z.land (u8 c) 0xFF))
  | 0x56 => a ← path_dx; es ← getr ES; di ← getr DI; b ← read_path 255 es di;
      r ← call_host (h_rename a b); dos_result r
  | 0x62 => p ← getr PSP_SEG; setr BX p
  | _ => setF F_CF false
  end.
Definition int21 : M unit :=
  ax ← getr AX; dx ← getr DX; ds ← getr DS; int21_fn ax dx ds.
End dos.
