(* ===== verification/DosStep.v ===== *)
(** * The 8086 interpreter: decoding, stepping and running

    [runtime/wubu_dos_emu_decode.c] and the run loop, screen capture and
    renderer of [wubu_dos_emu.c].  The [switch] of [decode_main] is split into
    one definition per group of opcodes; [decode_main] selects among them. *)

From S2P Require Import Prelude Dos DosInt.
Open Scope Z_scope.

Section decode.
Context {HO : Host}.
Variable run_child : M WubuDosEmuState.

Definition halt_error : M Z := modify (set_state WUBU_DOS_ERROR);; mret (-1).
(** An arm that ends in [return 0]. *)
Definition done (m : M unit) : M Z := m;; mret 0.
Definition narrow (w : bool) (v : Z) : Z := if w then v else u8 v.

Definition cond_met (cc : Z) : M bool :=
  o ← getF F_OF; c ← getF F_CF; z ← getF F_ZF; s ← getF F_SF; p ← getF F_PF;
  mret match cc with
       | 0 => o | 1 => negb o | 2 => c | 3 => negb c | 4 => z | 5 => negb z
       | 6 => c || z | 7 => negb (c || z) | 8 => s | 9 => negb s | 10 => p | 11 => negb p
       | 12 => negb (eqb s o) | 13 => eqb s o | 14 => z || negb (eqb s o)
       | _ => negb z && eqb s o
       end.

(** *** ADD, OR, ADC, SBB, AND, SUB, XOR, CMP *)

Definition op_alu (op : Z) (w : bool) : M unit :=
  modrm ← fetch8;
  let is_cmp := 0x38 <=? op in
  let arith := Z.land (Z.shiftr op 3) 7 in
  if negb (Z.land op 2 =? 0) then
    src ← rm_read modrm w;
    dst ← reg_read modrm w;
    res ← (if w then alu16 arith dst src else alu8 arith (u8 dst) (u8 src));
    when (negb is_cmp) (reg_write modrm w res)
  else
    dst ← rm_read modrm w;
    src ← reg_read modrm w;
    res ← (if w then alu16 arith dst src else alu8 arith (u8 dst) (u8 src));
    when (negb is_cmp) (rm_write modrm w res).

(** The accumulator forms: the operation on AL or AX and the immediate. *)
Definition op_acc (op : Z) (w : bool) : M unit :=
  imm ← (if w then fetch16 else fetch8);
  ax ← getr AX;
  let a := if w then ax else u8 ax in
  let put r := if w then setr AX r else set_lo AX r in
  match Z.shiftr op 3 with
  | 0 => r ← (if w then add16 a imm false else add8 a imm false); put r
  | 1 => let r := Z.lor a imm in put r;; (if w then logic16 r else logic8 r)
  | 2 => cf ← getF F_CF; r ← (if w then add16 a imm cf else add8 a imm cf); put r
  | 3 => cf ← getF F_CF; r ← (if w then sub16 a imm cf else sub8 a imm cf); put r
  | 4 => let r := Z.land a imm in put r;; (if w then logic16 r else logic8 r)
  | 5 => r ← (if w then sub16 a imm false else sub8 a imm false); put r
  | 6 => let r := Z.lxor a imm in put r;; (if w then logic16 r else logic8 r)
  | _ => r ← (if w then sub16 a imm false else sub8 a imm false); mret tt
  end.

(** *** Conditional jumps *)
Definition op_jcc (op : Z) : M unit :=
  d ← fetch8;
  b ← cond_met (op - 0x70);
  when b (ip ← getr IP; setr IP (ip + s8 d)).

(** *** GRP1: an operation with an immediate *)
Definition op_grp1 (op : Z) (w : bool) : M unit :=
  modrm ← fetch8;
  let arith := Z.land (Z.shiftr modrm 3) 7 in
  imm ← (if op =? 0x81 then fetch16 else d ← fetch8; mret (u16 (s8 d)));
  dst ← rm_read modrm w;
  res ← match arith with
        | 0 => add16 dst imm false
        | 1 => let r := Z.lor dst imm in logic16 r;; mret r
        | 2 => cf ← getF F_CF; add16 dst imm cf
        | 3 => cf ← getF F_CF; sub16 dst imm cf
        | 4 => let r := Z.land dst imm in logic16 r;; mret r
        | 5 => sub16 dst imm false
        | 6 => let r := Z.lxor dst imm in logic16 r;; mret r
        | _ => sub16 dst imm false
        end;
  when (negb (arith =? 7)) (rm_write modrm w res).

(** *** TEST, XCHG, MOV, LEA, POP r/m *)
Definition sreg (i : Z) : reg :=
  if i =? 0 then ES else if i =? 1 then CS else if i =? 2 then SS else DS.
Definition op_mov_group (op : Z) : M unit :=
  m ← fetch8;
  match op with
  | 0x84 => a ← rm_read m false; b ← reg_read m false; logic16 (Z.land a b)
  | 0x85 => a ← rm_read m true; b ← reg_read m true; logic16 (Z.land a b)
  | 0x86 => a ← rm_read m false; b ← reg_read m false; rm_write m false b;; reg_write m false a
  | 0x87 => a ← rm_read m true; b ← reg_read m true; rm_write m true b;; reg_write m true a
  | 0x88 => v ← reg_read m false; rm_write m false v
  | 0x89 => v ← reg_read m true; rm_write m true v
  | 0x8A => v ← rm_read m false; reg_write m false v
  | 0x8B => v ← rm_read m true; reg_write m true v
  | 0x8C => v ← getr (sreg (Z.land (Z.shiftr m 3) 7)); rm_write m true v
  | 0x8D => '(_, o) ← ea m; reg_write m true o
  | 0x8E => v ← rm_read m true; setr (sreg (Z.land (Z.shiftr m 3) 7)) v
  | _ => v ← pop16; rm_write m true v
  end.

(** *** CBW, CWD, PUSHF, POPF and the two AH moves *)
Definition op_flags (op : Z) : M unit :=
  match op with
  | 0x98 => ax ← getr AX; setr AX (s8 (Z.land ax 0xFF))
  | 0x99 => ax ← getr AX; setr DX (if s16 ax <? 0 then 0xFFFF else 0)
  | 0x9C => f ← getr FLAGS; push16 f
  | 0x9D => f ← pop16; setr FLAGS f
  | 0x9E => c ← getF F_CF; p ← getF F_PF; a ← getF F_AF; z ← getF F_ZF; s ← getF F_SF;
      set_hi AX (Z.lor (Z.lor (Z.lor (Z.lor (b2z c) (Z.shiftl (b2z p) 2)) (Z.shiftl (b2z a) 4))
                              (Z.shiftl (b2z z) 6)) (Z.shiftl (b2z s) 7))
  | _ => ax ← getr AX; let ah := u8 (Z.shiftr ax 8) in
      setF F_CF (negb (Z.land ah 1 =? 0));; setF F_PF (negb (Z.land ah 4 =? 0));;
      setF F_AF (negb (Z.land ah 16 =? 0));; setF F_ZF (negb (Z.land ah 64 =? 0));;
      setF F_SF (negb (Z.land ah 128 =? 0))
  end.

(** *** MOV with a memory offset *)
Definition op_moffs (op : Z) : M unit :=
  ds ← getr DS; o ← fetch16; ax ← getr AX;
  match op with
  | 0xA0 => v ← rd8 ds o; set_lo AX v
  | 0xA1 => v ← rd16 ds o; setr AX v
  | 0xA2 => wr8 ds o (u8 ax)
  | _ => wr16 ds o ax
  end.

(** *** String operations with their repeat prefixes

    One round of [while (e->cx)]: the body, [cx--], and whether to go on. *)
Definition rep_round (more : M bool) (body : M unit) : M (option unit) :=
  cx ← getr CX; b ← more;
  if (cx =? 0) || negb b then mret (Some tt) else
  body;; cx ← getr CX; setr CX (cx - 1);; mret None.
Definition rep_cmp_round (c : bool) (body : M unit) : M (option unit) :=
  cx ← getr CX;
  if cx =? 0 then mret (Some tt) else
  body;; cx ← getr CX; setr CX (cx - 1);;
  z ← getF F_ZF; mret (if eqb z c then None else Some tt).
Definition is_running : M bool := gets (fun e => bool_decide (state e = WUBU_DOS_RUNNING)).
Definition REP_FUEL : positive := 65536.

Definition op_string (op : Z) (w : bool) : M unit :=
  rep ← gets rep_prefix;
  let rep_always body := if rep =? 0 then body else loop REP_FUEL (rep_round (mret true) body) in
  let rep_test body :=
    if rep =? 0 then body else loop REP_FUEL (rep_cmp_round (negb (rep =? 2)) body) in
  match op with
  | 0xA4 | 0xA5 =>
      if rep =? 0 then do_movs w else loop REP_FUEL (rep_round is_running (do_movs w))
  | 0xA6 | 0xA7 => rep_test (do_cmps w)
  | 0xAA | 0xAB => rep_always (do_stos w)
  | 0xAC | 0xAD => rep_always (do_lods w)
  | _ => rep_test (do_scas w)
  end.

(** *** GRP2: shifts and rotations *)
Definition op_shift_imm (w : bool) : M unit :=
  m ← fetch8;
  let op2 := Z.land (Z.shiftr m 3) 7 in
  cnt ← fetch8;
  if Z.shiftr m 6 =? 3 then
    v ← rm_read m w;
    r ← (if w then do_shift16 op2 v cnt else do_shift8 op2 v cnt);
    rm_write m w r
  else
    '(s, o) ← ea m;
    if w then v ← rd16 s o; r ← do_shift16 op2 v cnt; wr16 s o r
    else v ← rd8 s o; r ← do_shift8 op2 v cnt; wr8 s o r.
Definition op_shift (op : Z) (w : bool) : M unit :=
  m ← fetch8;
  let op2 := Z.land (Z.shiftr m 3) 7 in
  cx ← getr CX;
  let cnt := if op <? 0xD2 then 1 else Z.land cx 0x1F in
  v ← rm_read m w;
  r ← (if w then do_shift16 op2 v cnt else do_shift8 op2 v cnt);
  rm_write m w r.

(** *** Returns, LES, LDS, MOV r/m,imm *)
Definition op_ret (op : Z) : M unit :=
  match op with
  | 0xC2 => imm ← fetch16; ip ← pop16; setr IP ip;; sp ← getr SP; setr SP (sp + imm)
  | 0xC3 => ip ← pop16; setr IP ip
  | 0xCA => imm ← fetch16; ip ← pop16; setr IP ip;; cs ← pop16; setr CS cs;;
      sp ← getr SP; setr SP (sp + imm)
  | 0xCB => ip ← pop16; setr IP ip;; cs ← pop16; setr CS cs
  | 0xCF => ip ← pop16; setr IP ip;; cs ← pop16; setr CS cs;; f ← pop16; setr FLAGS f
  | _ => bp ← getr BP; setr SP bp;; v ← pop16; setr BP v
  end.
Definition op_load_far (r : reg) : M unit :=
  m ← fetch8; '(s, o) ← ea m; off ← rd16 s o; seg ← rd16 s (o + 2);
  reg_write m true off;; setr r seg.
Definition op_mov_imm (w : bool) : M unit :=
  m ← fetch8;
  let imm := if w then fetch16 else fetch8 in
  if Z.shiftr m 6 =? 3 then v ← imm; rm_write m w v
  else '(s, o) ← ea m; v ← imm; if w then wr16 s o v else wr8 s o v.

(** *** INT *)
Definition int_vector (vec : Z) : M Z :=
  if vec =? 0x10 then done int10
  else if vec =? 0x16 then done int16
  else if vec =? 0x20 then
    modify (set_exit 0);; modify (set_state WUBU_DOS_TERMINATED);; mret (-1)
  else if vec =? 0x21 then
    int21 run_child;;
    b ← is_running; mret (if b : bool then 0 else -1)
  else
    ipv ← rd16 0 (vec * 4); csv ← rd16 0 (vec * 4 + 2);
    done (when (negb (ipv =? 0) || negb (csv =? 0))
      (f ← getr FLAGS; push16 f;; cs ← getr CS; push16 cs;; ip ← getr IP; push16 ip;;
       setr CS csv;; setr IP ipv)).

Definition op_int : M Z := vec ← fetch8; int_vector vec.

(** *** AAM, AAD, XLAT *)
Definition op_ascii (op : Z) : M unit :=
  match op with
  | 0xD4 => base ← fetch8; ax ← getr AX;
      let al := u8 ax in
      if base =? 0 then fail FDivide else
      setr AX (al / base * 256 + al mod base);; ax ← getr AX; logic8 (u8 ax)
  | 0xD5 => base ← fetch8; ax ← getr AX;
      setr AX (u8 ax + u8 (Z.shiftr ax 8) * base);; ax ← getr AX; logic8 (u8 ax)
  | _ => ds ← getr DS; bx ← getr BX; ax ← getr AX; v ← rd8 ds (bx + Z.land ax 0xFF); set_lo AX v
  end.

(** *** LOOP, JCXZ, CALL, JMP *)
Definition op_loop (op : Z) : M unit :=
  d ← fetch8; cx ← getr CX; setr CX (cx - 1);; cx ← getr CX; z ← getF F_ZF;
  let go := if op =? 0xE2 then negb (cx =? 0)
            else if op =? 0xE0 then negb (cx =? 0) && negb z
            else negb (cx =? 0) && z in
  when go (ip ← getr IP; setr IP (ip + s8 d)).
Definition op_jump (op : Z) : M unit :=
  match op with
  | 0xE3 => d ← fetch8; cx ← getr CX; when (cx =? 0) (ip ← getr IP; setr IP (ip + s8 d))
  | 0xE8 => d ← fetch16; ip ← getr IP; push16 ip;; ip ← getr IP; setr IP (ip + s16 d)
  | 0xE9 => d ← fetch16; ip ← getr IP; setr IP (ip + s16 d)
  | 0xEA => ipv ← fetch16; csv ← fetch16; setr CS csv;; setr IP ipv
  | _ => d ← fetch8; ip ← getr IP; setr IP (ip + s8 d)
  end.

(** *** GRP3: TEST, NOT, NEG, MUL, IMUL, DIV, IDIV *)
Definition grp3_test (op m : Z) (w : bool) : M unit :=
  v ← (if Z.shiftr m 6 =? 3 then rm_read m w else '(s, o) ← ea m; rd16 s o);
  imm ← (if op =? 0xF6 then fetch8 else fetch16);
  logic16 (if w then Z.land v imm else Z.land v (Z.land imm 0xFF)).
Definition grp3_mul (m : Z) (w : bool) : M unit :=
  ax ← getr AX; v ← rm_read m w;
  if w then
    let r := u32 (ax * v) in
    setr AX r;; setr DX (Z.shiftr r 16);;
    dx ← getr DX; setF F_CF (negb (dx =? 0));; setF F_OF (negb (dx =? 0))
  else
    let r := u16 (u8 ax * v) in
    setr AX r;; setF F_CF (negb (Z.shiftr r 8 =? 0));; setF F_OF (negb (Z.shiftr r 8 =? 0)).
Definition grp3_imul (m : Z) (w : bool) : M unit :=
  ax ← getr AX; v ← rm_read m w;
  (if w then
    let r := s32 (s16 ax * s16 v) in
    setr AX r;; setr DX (Z.shiftr r 16);;
    ax ← getr AX; dx ← getr DX;
    setF F_CF (negb (dx =? (if s16 ax <? 0 then 0xFFFF else 0)))
  else
    let r := s16 (s8 ax * s8 v) in
    setr AX r;;
    setF F_CF (negb (Z.shiftr r 8 =? (if Z.land r 0x80 =? 0 then 0 else 0xFF))));;
  cf ← getF F_CF; setF F_OF cf.
Definition grp3_div (m : Z) (w : bool) : M Z :=
  d ← rm_read m w;
  if d =? 0 then halt_error else
  ax ← getr AX; dx ← getr DX;
  if w then
    let num := Z.lor (Z.shiftl dx 16) ax in
    setr AX (num / d);; setr DX (num mod d);; mret 0
  else
    setr AX (Z.lor (u8 (ax / d)) (Z.shiftl (u8 (ax mod d)) 8));; mret 0.
Definition grp3_idiv (m : Z) (w : bool) : M Z :=
  v ← rm_read m w;
  let d := if w then s16 v else s8 v in
  if d =? 0 then halt_error else
  ax ← getr AX; dx ← getr DX;
  if w then
    let num := Z.lor (Z.shiftl (s16 dx) 16) ax in
    if (num =? - 2 ^ 31) && (d =? -1) then fail FDivide else
    setr AX (s16 (Z.quot num d));; setr DX (s16 (Z.rem num d));; mret 0
  else
    let num := s16 ax in
    setr AX (s16 (Z.lor (s8 (Z.quot num d)) (Z.shiftl (s8 (Z.rem num d)) 8)));; mret 0.
Definition op_grp3 (op : Z) (w : bool) : M Z :=
  m ← fetch8;
  match Z.land (Z.shiftr m 3) 7 with
  | 0 | 1 => done (grp3_test op m w)
  | 2 => done (v ← rm_read m w;
      if w then rm_write m true (u16 (Z.lnot v))
      else let r := u8 (Z.lnot v) in logic8 r;; rm_write m false r)
  | 3 => done (v ← rm_read m w;
      r ← (if w then sub16 0 v false else sub8 0 v false); rm_write m w r)
  | 4 => done (grp3_mul m w)
  | 5 => done (grp3_imul m w)
  | 6 => grp3_div m w
  | _ => grp3_idiv m w
  end.

(** *** GRP4 and GRP5 *)
Definition op_grp4 : M unit :=
  m ← fetch8;
  match Z.land (Z.shiftr m 3) 7 with
  | 0 => v ← rm_read m false; r ← add8 v 1 false; rm_write m false r
  | 1 => v ← rm_read m false; r ← sub8 v 1 false; rm_write m false r
  | _ => mret tt
  end.
Definition op_grp5 : M unit :=
  m ← fetch8;
  match Z.land (Z.shiftr m 3) 7 with
  | 0 => v ← rm_read m true; r ← add16 v 1 false; rm_write m true r
  | 1 => v ← rm_read m true; r ← sub16 v 1 false; rm_write m true r
  | 2 => ip ← getr IP; push16 ip;; t ← rm_read m true; setr IP t
  | 3 => '(s, o) ← ea m; ipv ← rd16 s o; csv ← rd16 s (o + 2);
      cs ← getr CS; push16 cs;; ip ← getr IP; push16 ip;; setr CS csv;; setr IP ipv
  | 4 => t ← rm_read m true; setr IP t
  | 5 => '(s, o) ← ea m; csv ← rd16 s (o + 2); setr CS csv;; ipv ← rd16 s o; setr IP ipv
  | 6 => v ← rm_read m true; push16 v
  | _ => mret tt
  end.

(** *** The host-call escape 0xF1 *)

(** [e->mem[a]] without the mask of [rd8]. *)
Definition peek_raw (a : Z) : M Z :=
  if a <? WUBU_DOS_MEM_SIZE then gets (fun e => mem e a) else fail FBounds.
Definition hc_slot (off : Z) : M Z :=
  ss ← getr SS; bp ← getr BP;
  lo ← peek_raw (phys ss (u16 (bp + u16 off)));
  hi ← peek_raw (phys ss (u16 (u16 (bp + u16 off) + 1)));
  mret (Z.lor lo (Z.shiftl hi 8)).
Definition hc_call : M unit :=
  hi ← fetch8; lo ← fetch8;
  let target := Z.lor (Z.shiftl hi 8) lo in
  csp ← gets call_sp;
  when (csp <? 32)
    (ip ← getr IP; stk ← gets call_stack;
     stk ← assign stk csp ip;
     modify (set_calls stk (csp + 1));; setr IP target).
Definition hc_return (dsa : Z) : M unit :=
  x ← hc_slot dsa;
  let v := u8 (Z.land x 0xFF) in
  bp ← getr BP;
  poke (u16 (bp - 2)) v;; poke (u16 (bp - 1)) 0;;
  csp ← gets call_sp;
  if 0 <? csp then
    stk ← gets call_stack;
    ip ← index stk (csp - 1);
    modify (set_calls stk (csp - 1));; setr IP ip
  else setr AX v;; modify (set_state WUBU_DOS_TERMINATED).
Definition hc_load (dsa : Z) : M unit :=
  c ← hc_slot dsa;
  let addr := u32 (c * 8) in
  v ← (if addr <? 65536 then peek_raw addr else mret 0);
  setr AX v.
Definition hc_store (dsa dsb : Z) : M unit :=
  x ← hc_slot dsa;
  c ← hc_slot dsb;
  let addr := u32 (c * 8) in
  when (addr <? 65536) (poke addr (u8 (Z.land x 0xFF))).
Definition op_hostcall : M Z :=
  fn_ ← fetch8; ddst ← fetch16; dsa ← fetch16; dsb ← fetch16;
  if fn_ =? 27 then done hc_call
  else if fn_ =? 28 then done (hc_return (s16 dsa))
  else if fn_ =? 25 then done (hc_load (s16 dsa))
  else if fn_ =? 26 then done (hc_store (s16 dsa) (s16 dsb))
  else halt_error.

(** *** The decoder *)

Definition between (lo hi x : Z) : bool := (lo <=? x) && (x <=? hi).

(** The opcodes that carry a register or a condition in their low bits. *)
Definition decode_range (op : Z) (w : bool) : M Z :=
  if between 0x40 0x47 op then done (v ← rw op; r ← add16 v 1 false; ww op r)
  else if between 0x48 0x4F op then done (v ← rw op; r ← sub16 v 1 false; ww op r)
  else if between 0x50 0x57 op then done (v ← rw op; push16 v)
  else if between 0x58 0x5F op then done (v ← pop16; ww op v)
  else if between 0x70 0x7F op then done (op_jcc op)
  else if between 0x80 0x83 op then done (op_grp1 op w)
  else if between 0x84 0x8F op then done (op_mov_group op)
  else if between 0x91 0x97 op then
    done (t ← getr AX; v ← rw op; setr AX v;; ww op t)
  else if between 0xB0 0xB7 op then done (v ← fetch8; wb op v)
  else if between 0xB8 0xBF op then done (v ← fetch16; ww op v)
  else halt_error.

Definition decode_main (op : Z) : M Z :=
  let w := negb (Z.land op 1 =? 0) in
  if (op <? 0x40) && (Z.land op 7 <? 4) then done (op_alu op w)
  else if (op <? 0x40) && (Z.land op 7 <? 6) then done (op_acc op w)
  else match op with
  | 0x06 => done (v ← getr ES; push16 v)
  | 0x07 => done (v ← pop16; setr ES v)
  | 0x0E => done (v ← getr CS; push16 v)
  | 0x0F => done (v ← pop16; setr CS v)
  | 0x16 => done (v ← getr SS; push16 v)
  | 0x17 => done (v ← pop16; setr SS v)
  | 0x1E => done (v ← getr DS; push16 v)
  | 0x1F => done (v ← pop16; setr DS v)
  | 0x27 | 0x2F | 0x37 | 0x3F | 0x90 => mret 0
  | 0x98 | 0x99 | 0x9C | 0x9D | 0x9E | 0x9F => done (op_flags op)
  | 0xA0 | 0xA1 | 0xA2 | 0xA3 => done (op_moffs op)
  | 0xA4 | 0xA5 | 0xA6 | 0xA7 | 0xAA | 0xAB | 0xAC | 0xAD | 0xAE | 0xAF => done (op_string op w)
  | 0xC0 | 0xC1 => done (op_shift_imm w)
  | 0xD0 | 0xD1 | 0xD2 | 0xD3 => done (op_shift op w)
  | 0xC2 | 0xC3 | 0xC9 | 0xCA | 0xCB | 0xCF => done (op_ret op)
  | 0xC4 => done (op_load_far ES)
  | 0xC5 => done (op_load_far DS)
  | 0xC6 | 0xC7 => done (op_mov_imm w)
  | 0xCC => halt_error
  | 0xCD => op_int
  | 0xCE => o ← getF F_OF; if o : bool then halt_error else mret 0
  | 0xD4 | 0xD5 | 0xD7 => done (op_ascii op)
  | 0xE0 | 0xE1 | 0xE2 => done (op_loop op)
  | 0xE3 | 0xE8 | 0xE9 | 0xEA | 0xEB => done (op_jump op)
  | 0xE4 | 0xE5 | 0xE6 | 0xE7 | 0xEC | 0xED | 0xEE | 0xEF => fetch8;; mret 0
  | 0xF1 => op_hostcall
  | 0xF4 => modify (set_state WUBU_DOS_TERMINATED);; mret 0
  | 0xF5 => done (c ← getF F_CF; setF F_CF (negb c))
  | 0xF8 => done (setF F_CF false)
  | 0xF9 => done (setF F_CF true)
  | 0xFA => done (setF F_IF false)
  | 0xFB => done (setF F_IF true)
  | 0xFC => done (setF F_DF false)
  | 0xFD => done (setF F_DF true)
  | 0xF6 | 0xF7 => op_grp3 op w
  | 0xFE => done op_grp4
  | 0xFF => done op_grp5
  | _ => decode_range op w
  end.

(** ** One instruction: the prefixes, then the opcode *)

Definition set_seg_prefix (s : Z) : M unit :=
  modify (fun e => set_prefixes s (rep_prefix e) e).
Definition set_rep_prefix (r : Z) : M unit :=
  modify (fun e => set_prefixes (seg_prefix e) r e).
Definition prefix_round : M (option Z) :=
  op ← fetch8;
  match op with
  | 0x26 => set_seg_prefix 1;; mret None
  | 0x2E => set_seg_prefix 2;; mret None
  | 0x36 => set_seg_prefix 3;; mret None
  | 0x3E => set_seg_prefix 4;; mret None
  | 0xF0 => mret None
  | 0xF2 => set_rep_prefix 2;; mret None
  | 0xF3 => set_rep_prefix 1;; mret None
  | _ => mret (Some op)
  end.
Definition PREFIX_FUEL : positive := 65536.
Definition step : M Z :=
  modify (set_prefixes 0 0);;
  op ← loop PREFIX_FUEL prefix_round;
  decode_main op.

Definition count_step : M unit := modify (fun e => set_steps (u64 (steps e + 1)) e).
Definition wubu_dos_emu_step : M Z :=
  b ← is_running;
  if negb b then mret (-1) else r ← step; count_step;; mret r.

(** ** The run loop *)

Definition hard_cap (max_steps : Z) : Z := if max_steps =? 0 then 20000000 else max_steps.
Definition run_round (cap : Z) : M (option unit) :=
  b ← is_running;
  if negb b then mret (Some tt) else
  n ← gets steps;
  if cap <=? n then modify (set_state WUBU_DOS_ERROR);; mret (Some tt) else
  r ← step;
  count_step;;
  mret (if r <? 0 then Some tt else None).
(** Every round but the last adds a step, so [cap + 1] rounds are enough. *)
Definition run_loop (max_steps : Z) : M WubuDosEmuState :=
  loop (Z.to_pos (hard_cap max_steps + 1)) (run_round (hard_cap max_steps));;
  gets state.
End decode.

Section run.
Context {HO : Host}.

(** [depth] bounds how many programs INT 21h/4Bh may nest. *)
Fixpoint wubu_dos_emu_run (depth : nat) (max_steps : Z) : M WubuDosEmuState :=
  run_loop (match depth with O => fail FDepth | S d => wubu_dos_emu_run d 0 end) max_steps.

(** ** Reading the machine *)

Definition wubu_dos_emu_exit_code (e : emu) : Z := exit_code e.
Definition wubu_dos_emu_peek16 (seg off : Z) : M Z := rd16 seg off.
Definition wubu_dos_emu_regs (e : emu) : list Z :=
  [regs e AX; regs e BX; regs e CX; regs e DX; regs e SI; regs e DI; regs e IP; regs e FLAGS; regs e CS].

(** [if (n + 1 < out_size) out[n++] = c]. *)
Definition emit (out_size : Z) (out : list Z) (c : Z) : list Z :=
  if Z.of_nat (length out) + 1 <? out_size then out ++ [c] else out.
Definition visible (c : Z) : Z := if c =? 0 then 32 else c.
Definition text_row (out_size : Z) (out : list Z) (row : list Z) : list Z :=
  emit out_size (foldl (emit out_size) out (visible <$> row)) 10.
(** The characters written before the terminating NUL. *)
Definition wubu_dos_emu_text (out_size : Z) (e : emu) : list Z :=
  if out_size =? 0 then [] else foldl (text_row out_size) [] (text (con e)).
End run.
