(* ===== verification/DosWf.v ===== *)
(** * The 8086 interpreter: the machine stays well formed

    The invariant [wf] of the machine and the rule [keeps]: started in a well
    formed machine a computation ends in one, with a result that satisfies a
    predicate, or runs into one of the faults it is allowed.  Every operation
    of [Dos], [DosInt] and [DosStep] gets its [keeps] lemma. *)

From S2P Require Import Prelude Dos DosInt DosStep.
Open Scope Z_scope.

Definition row_ok (r : list Z) : Prop := length r = 80%nat /\ Forall is_byte r.
Definition rows_ok (rows : list (list Z)) : Prop := length rows = 25%nat /\ Forall row_ok rows.
Record con_ok (c : console) : Prop := {
  co_text : rows_ok (text c);
  co_attr : rows_ok (attr c);
  co_cur : 0 <= cur_x c /\ 0 <= cur_y c;
  co_cattr : is_byte (cur_attr c) }.
Record kbd_ok (k : keyboard) : Prop := {
  ko_buf : length (kbuf k) = 64%nat /\ Forall is_byte (kbuf k);
  ko_scan : length (kscan k) = 64%nat /\ Forall is_byte (kscan k);
  ko_head : 0 <= khead k < 64;
  ko_tail : 0 <= ktail k < 64;
  ko_shift : is_byte (kshift k) }.
Definition fls_ok (f : handles) : Prop :=
  length (host_fd f) = 64%nat /\ length (host_used f) = 64%nat.

Record wf `{Host} (e : emu) : Prop := {
  wf_mem : forall a, is_byte (mem e a);
  wf_regs : forall r, fits 16 (regs e r);
  wf_stack : length (call_stack e) = 32%nat /\ Forall (fits 16) (call_stack e);
  wf_csp : 0 <= call_sp e <= 32;
  wf_steps : fits 64 (steps e);
  wf_con : con_ok (con e);
  wf_kbd : kbd_ok (kbd e);
  wf_fls : fls_ok (fls e);
  wf_pfx : 0 <= seg_prefix e <= 4 /\ 0 <= rep_prefix e <= 2 }.

Create HintDb dos discriminated.

Section rules.
Context {HO : Host}.
Implicit Types (F : fault -> Prop) (e : emu).

(** Well formed, and no step counted. *)
Definition good e e' : Prop := wf e' /\ steps e' = steps e.
Definition keeps {A} F (Q : A -> Prop) (m : M A) : Prop := forall e,
  wf e -> match m e with Ok a e' => good e e' /\ Q a | Bad f => F f end.

Lemma good_refl e : wf e -> good e e.
Proof. done. Qed.
Lemma good_trans e1 e2 e3 : good e1 e2 -> good e2 e3 -> good e1 e3.
Proof. intros [_ H1] [H2 H3]. split; [done|congruence]. Qed.

Abbreviation any := (fun _ => True).

Lemma keeps_bind {A B} F (Q : A -> Prop) (R : B -> Prop) m k :
  keeps F Q m -> (forall a, Q a -> keeps F R (k a)) -> keeps F R (mbind k m).
Proof.
  intros Hm Hk e He. unfold mbind, M_bind. specialize (Hm e He).
  destruct (m e) as [a e'|f]; [|done]. destruct Hm as [He' Ha].
  specialize (Hk a Ha e' (proj1 He')). destruct (k a e'); [|done].
  destruct Hk. split; [by eapply good_trans|done].
Qed.

Lemma keeps_ret {A} F (Q : A -> Prop) a : Q a -> keeps F Q (mret a).
Proof. intros Ha e He. split; [by apply good_refl|done]. Qed.

Lemma keeps_weaken {A} F F' (Q Q' : A -> Prop) m :
  keeps F Q m -> (forall f, F f -> F' f) -> (forall a, Q a -> Q' a) -> keeps F' Q' m.
Proof. intros Hm HF HQ e He. specialize (Hm e He). destruct (m e); naive_solver. Qed.

Lemma keeps_any {A} F (Q : A -> Prop) m : keeps F Q m -> keeps F any m.
Proof. intros H. by eapply keeps_weaken. Qed.

Lemma keeps_fail {A} F (Q : A -> Prop) f : F f -> keeps F Q (fail f).
Proof. by intros Hf e He. Qed.

Lemma keeps_gets {A} F (Q : A -> Prop) f : (forall e, wf e -> Q (f e)) -> keeps F Q (gets f).
Proof. intros H e He. split; [by apply good_refl|by apply H]. Qed.

Lemma keeps_modify F f : (forall e, wf e -> good e (f e)) -> keeps F any (modify f).
Proof. intros H e He. split; [|done]. by apply H. Qed.

Lemma keeps_when F b m : (b = true -> keeps F any m) -> keeps F any (when b m).
Proof. destruct b; [auto|]. intros _. by apply keeps_ret. Qed.

Lemma keeps_if {A} F (Q : A -> Prop) (b : bool) m n :
  (b = true -> keeps F Q m) -> (b = false -> keeps F Q n) -> keeps F Q (if b then m else n).
Proof. destruct b; auto. Qed.

Lemma keeps_iterate {B} F p (body : M (option B)) (Q : B -> Prop) :
  keeps F (fun r => match r with Some b => Q b | None => True end) body ->
  keeps F (fun r => match r with Some b => Q b | None => True end) (iterate p body).
Proof.
  intros Hb. induction p as [p IH|p IH|]; cbn [iterate]; [| |done].
  - eapply keeps_bind; [done|]. intros [b|] Hr; [by apply keeps_ret|].
    eapply keeps_bind; [done|]. intros [b|] Hr'; [by apply keeps_ret|done].
  - eapply keeps_bind; [done|]. intros [b|] Hr; [by apply keeps_ret|done].
Qed.

(** A loop whose invariant holds and whose measure goes down each round ends
    before its fuel. *)
Lemma iterate_rule {B} F (I : emu -> Prop) (mu : emu -> Z) (Q : B -> emu -> Prop) body p :
  (forall e, I e -> match body e with
     | Ok None e' => I e' /\ mu e' < mu e | Ok (Some b) e' => Q b e' | Bad f => F f end) ->
  forall e, I e -> match iterate p body e with
    | Ok None e' => I e' /\ mu e' <= mu e - Z.pos p | Ok (Some b) e' => Q b e' | Bad f => F f end.
Proof.
  intros Hb. induction p as [p IH|p IH|]; intros e He; cbn [iterate];
    unfold mbind, M_bind, mret, M_ret.
  - specialize (Hb e He). destruct (body e) as [[b|] e1|]; [done| |done]. destruct Hb as [He1 Hm1].
    pose proof (IH e1 He1) as H1. destruct (iterate p body e1) as [[b|] e2|]; [done| |done].
    destruct H1 as [He2 Hm2]. pose proof (IH e2 He2) as H2.
    destruct (iterate p body e2) as [[b|] e3|]; [done| |done]. destruct H2. split; [done|lia].
  - pose proof (IH e He) as H1. destruct (iterate p body e) as [[b|] e2|]; [done| |done].
    destruct H1 as [He2 Hm2]. pose proof (IH e2 He2) as H2.
    destruct (iterate p body e2) as [[b|] e3|]; [done| |done]. destruct H2. split; [done|lia].
  - specialize (Hb e He). destruct (body e) as [[b|] e1|]; [done| |done]. split; [apply Hb|lia].
Qed.

Lemma loop_rule {B} F (I : emu -> Prop) (mu : emu -> Z) (Q : B -> emu -> Prop) body p :
  (forall e, I e -> 0 <= mu e) ->
  (forall e, I e -> match body e with
     | Ok None e' => I e' /\ mu e' < mu e | Ok (Some b) e' => Q b e' | Bad f => F f end) ->
  forall e, I e -> mu e < Z.pos p ->
  match loop p body e with Ok b e' => Q b e' | Bad f => F f end.
Proof.
  intros Hmu Hb e He Hp. unfold loop, mbind, M_bind.
  pose proof (iterate_rule F I mu Q body p Hb e He) as H.
  destruct (iterate p body e) as [[b|] e'|]; [done| |done].
  destruct H as [He' Hm]. specialize (Hmu e' He'). lia.
Qed.

Lemma keeps_for F lo d n body :
  (forall k, (k < n)%nat -> keeps F any (body (lo + d * Z.of_nat k))) ->
  keeps F any (for_loop lo d n body).
Proof.
  revert lo; induction n as [|n IH]; intros lo H; cbn [for_loop]; [by apply keeps_ret|].
  eapply keeps_bind.
  - specialize (H 0%nat ltac:(lia)). by rewrite Z.mul_0_r, Z.add_0_r in H.
  - intros _ _. apply IH. intros k Hk. specialize (H (S k) ltac:(lia)).
    by replace (lo + d * Z.of_nat (S k)) with (lo + d + d * Z.of_nat k) in H by lia.
Qed.

Lemma keeps_index {A} F (Q : A -> Prop) l i :
  0 <= i < Z.of_nat (length l) -> Forall Q l -> keeps F Q (index l i).
Proof.
  intros Hi Hl. unfold index. destruct (Z.leb_spec 0 i); [|lia].
  destruct (lookup_lt_is_Some_2 l (Z.to_nat i) ltac:(lia)) as [x Hx]. rewrite Hx.
  apply keeps_ret. by eapply Forall_lookup_1.
Qed.

Lemma keeps_index_any {A} (F : fault -> Prop) (l : list A) i : F FBounds -> keeps F any (index l i).
Proof.
  intros HF. unfold index. destruct (if 0 <=? i then _ else _); [by apply keeps_ret|by apply keeps_fail].
Qed.

Lemma keeps_assign {A} F (Q : A -> Prop) (l : list A) i v :
  0 <= i < Z.of_nat (length l) -> Forall Q l -> Q v ->
  keeps F (fun l' => length l' = length l /\ Forall Q l') (assign l i v).
Proof.
  intros Hi Hl Hv. unfold assign. eapply keeps_bind; [by apply (keeps_index _ Q)|].
  intros _ _. apply keeps_ret. split; [by rewrite length_insert|by apply Forall_insert].
Qed.

Lemma keeps_call_host {A} F (f : hstate -> hstate * A) : keeps F any (call_host f).
Proof.
  intros e []. unfold call_host. destruct (f (host e)) as [h a]. split; [|done]. split; [by constructor|done].
Qed.

(** Field updates that respect the invariant. *)
Lemma wf_set_mem e m : wf e -> (forall a, is_byte (m a)) -> wf (set_mem m e).
Proof. intros [] ?. by constructor. Qed.
Lemma good_set_mem e m : wf e -> (forall a, is_byte (m a)) -> good e (set_mem m e).
Proof. intros. split; [by apply wf_set_mem|done]. Qed.
Lemma wf_set_regs e rs : wf e -> (forall r, fits 16 (rs r)) -> wf (set_regs rs e).
Proof. intros [] ?. by constructor. Qed.
Lemma good_set_regs e rs : wf e -> (forall r, fits 16 (rs r)) -> good e (set_regs rs e).
Proof. intros. split; [by apply wf_set_regs|done]. Qed.
Lemma wf_set_state e s : wf e -> wf (set_state s e).
Proof. intros []. by constructor. Qed.
Lemma good_set_state e s : wf e -> good e (set_state s e).
Proof. intros. split; [by apply wf_set_state|done]. Qed.
Lemma wf_set_exit e s : wf e -> wf (set_exit s e).
Proof. intros []. by constructor. Qed.
Lemma good_set_exit e s : wf e -> good e (set_exit s e).
Proof. intros. split; [by apply wf_set_exit|done]. Qed.
Lemma wf_set_con e c : wf e -> con_ok c -> wf (set_con c e).
Proof. intros [] ?. by constructor. Qed.
Lemma good_set_con e c : wf e -> con_ok c -> good e (set_con c e).
Proof. intros. split; [by apply wf_set_con|done]. Qed.
Lemma wf_set_kbd e c : wf e -> kbd_ok c -> wf (set_kbd c e).
Proof. intros [] ?. by constructor. Qed.
Lemma good_set_kbd e c : wf e -> kbd_ok c -> good e (set_kbd c e).
Proof. intros. split; [by apply wf_set_kbd|done]. Qed.
Lemma wf_set_fls e c : wf e -> fls_ok c -> wf (set_fls c e).
Proof. intros [] ?. by constructor. Qed.
Lemma good_set_fls e c : wf e -> fls_ok c -> good e (set_fls c e).
Proof. intros. split; [by apply wf_set_fls|done]. Qed.
Lemma wf_set_host e h : wf e -> wf (set_host h e).
Proof. intros []. by constructor. Qed.
Lemma good_set_host e h : wf e -> good e (set_host h e).
Proof. intros. split; [by apply wf_set_host|done]. Qed.
Lemma wf_set_prefixes e s r : wf e -> 0 <= s <= 4 -> 0 <= r <= 2 -> wf (set_prefixes s r e).
Proof. intros [] ??. by constructor. Qed.
Lemma good_set_prefixes e s r : wf e -> 0 <= s <= 4 -> 0 <= r <= 2 -> good e (set_prefixes s r e).
Proof. intros. split; [by apply wf_set_prefixes|done]. Qed.
Lemma wf_set_steps e n : wf e -> fits 64 n -> wf (set_steps n e).
Proof. intros [] ?. by constructor. Qed.
Lemma wf_set_calls e s p :
  wf e -> length s = 32%nat -> Forall (fits 16) s -> 0 <= p <= 32 -> wf (set_calls s p e).
Proof. intros [] ???. by constructor. Qed.
Lemma good_set_calls e s p :
  wf e -> length s = 32%nat -> Forall (fits 16) s -> 0 <= p <= 32 -> good e (set_calls s p e).
Proof. intros. split; [by apply wf_set_calls|done]. Qed.

Lemma upd_fits r v rs : (forall r, fits 16 (rs r)) -> forall r', fits 16 (upd r (u16 v) rs r').
Proof. intros H r'. unfold upd. case_decide; [by apply wrap_fits|done]. Qed.
Lemma wr_mem_byte a v m : (forall a, is_byte (m a)) -> forall a', is_byte (wr_mem a (u8 v) m a').
Proof. intros H a'. unfold wr_mem. case_match; [by apply wrap_fits|done]. Qed.

Lemma keeps_getr F r : keeps F (fits 16) (getr r).
Proof. apply keeps_gets. intros e He. apply wf_regs, He. Qed.
Lemma keeps_setr F r v : keeps F any (setr r v).
Proof. apply keeps_modify. intros e He. apply good_set_regs; [done|]. apply upd_fits, He. Qed.
Lemma keeps_getF F b : keeps F any (getF b).
Proof. by apply keeps_gets. Qed.
Lemma keeps_rd8 F s o : keeps F is_byte (rd8 s o).
Proof. apply keeps_gets. intros e He. apply He. Qed.
Lemma keeps_wr8 F s o v : keeps F any (wr8 s o v).
Proof. apply keeps_modify. intros e He. apply good_set_mem; [done|]. apply wr_mem_byte, He. Qed.
Lemma keeps_poke F a v : keeps F any (poke a v).
Proof. apply keeps_modify. intros e He. apply good_set_mem; [done|]. apply wr_mem_byte, He. Qed.

Lemma word_fits lo hi : is_byte lo -> is_byte hi -> fits 16 (Z.lor lo (Z.shiftl hi 8)).
Proof. intros Hl Hh. rewrite lor_shiftl_add by (done || lia). unfold_fits. lia. Qed.

Lemma keeps_rd16 F s o : keeps F (fits 16) (rd16 s o).
Proof.
  eapply keeps_bind; [apply keeps_rd8|]. intros lo Hl.
  eapply keeps_bind; [apply keeps_rd8|]. intros hi Hh.
  apply keeps_ret. by apply word_fits.
Qed.
Lemma keeps_fetch8 F : keeps F is_byte fetch8.
Proof.
  eapply keeps_bind; [apply keeps_getr|]. intros cs _.
  eapply keeps_bind; [apply keeps_getr|]. intros ip _.
  eapply keeps_bind; [apply keeps_rd8|]. intros v Hv.
  eapply keeps_bind; [apply keeps_setr|]. intros _ _. by apply keeps_ret.
Qed.
Lemma keeps_fetch16 F : keeps F (fits 16) fetch16.
Proof.
  eapply keeps_bind; [apply keeps_fetch8|]. intros lo Hl.
  eapply keeps_bind; [apply keeps_fetch8|]. intros hi Hh.
  apply keeps_ret. by apply word_fits.
Qed.
End rules.

#[export] Hint Resolve keeps_getr keeps_setr keeps_getF keeps_rd8 keeps_wr8 keeps_poke keeps_rd16
  keeps_fetch8 keeps_fetch16 keeps_call_host : dos.

(** One step through a computation whose result needs no bound: a known
    operation by its lemma, otherwise the rule of the outermost construct. *)
Ltac keep1 :=
  lazymatch goal with
  | |- keeps _ _ (mbind _ _) => first
      [ eapply keeps_bind; [solve [eauto 2 with dos nocore]|intros]
      | apply (keeps_bind _ (fun _ => True)); [|intros] ]
  | |- keeps _ _ (mret _) => apply keeps_ret; try exact I
  | |- keeps _ _ (gets _) => apply keeps_gets; intros; try exact I
  | |- keeps _ _ (when _ _) => apply keeps_when; intros
  | |- keeps _ _ (for_loop _ _ _ _) => apply keeps_for; intros
  | |- keeps _ _ (if _ then _ else _) => apply keeps_if; intros
  | |- keeps _ _ (let '(_, _) := ?p in _) => destruct p
  | |- keeps _ _ (match ?x with _ => _ end) => destruct x
  end.
Ltac keep_known := first
  [ solve [eauto 2 with dos nocore]
  | solve [eapply keeps_any; eauto 2 with dos nocore] ].
Ltac keep := repeat first [keep_known | keep1].

(** ** Registers, flags, arithmetic and operands *)

Section cpu.
Context {HO : Host} (F : fault -> Prop).
Abbreviation kept := (keeps F (fun _ => True)).

Lemma keeps_setF b v : kept (setF b v).
Proof. unfold setF. keep. Qed.
Hint Resolve keeps_setF : dos.
Lemma keeps_set_lo r v : kept (set_lo r v).
Proof. unfold set_lo. keep. Qed.
Lemma keeps_set_hi r v : kept (set_hi r v).
Proof. unfold set_hi. keep. Qed.
Hint Resolve keeps_set_lo keeps_set_hi : dos.
Lemma keeps_ww i v : kept (ww i v).
Proof. unfold ww. keep. Qed.
Lemma keeps_rw i : keeps F (fits 16) (rw i).
Proof. unfold rw. keep. Qed.
Lemma keeps_wb i v : kept (wb i v).
Proof. unfold wb. keep. Qed.
Lemma keeps_rb i : keeps F (fits 16) (rb i).
Proof.
  unfold rb. destruct (breg i) as [r hi]. keep.
  all: destruct hi; pose proof (wrap_fits 8 a); pose proof (wrap_fits 8 (Z.shiftr a 8)); unfold_fits; lia.
Qed.
Hint Resolve keeps_ww keeps_rw keeps_wb keeps_rb : dos.
Lemma keeps_wr16 s o v : kept (wr16 s o v).
Proof. unfold wr16. keep. Qed.
Lemma keeps_logic8 v : kept (logic8 v).
Proof. unfold logic8. keep. Qed.
Lemma keeps_logic16 v : kept (logic16 v).
Proof. unfold logic16. keep. Qed.
Hint Resolve keeps_wr16 keeps_logic8 keeps_logic16 : dos.
Lemma keeps_add16 a b c : kept (add16 a b c).
Proof. unfold add16. cbv zeta. keep. Qed.
Lemma keeps_sub16 a b c : kept (sub16 a b c).
Proof. unfold sub16. cbv zeta. keep. Qed.
Lemma keeps_add8 a b c : kept (add8 a b c).
Proof. unfold add8. cbv zeta. keep. Qed.
Lemma keeps_sub8 a b c : kept (sub8 a b c).
Proof. unfold sub8. cbv zeta. keep. Qed.
Hint Resolve keeps_add16 keeps_sub16 keeps_add8 keeps_sub8 : dos.
Lemma keeps_alu8 n a b : kept (alu8 n a b).
Proof. unfold alu8. cbv zeta. keep. Qed.
Lemma keeps_alu16 n a b : kept (alu16 n a b).
Proof. unfold alu16. cbv zeta. keep. Qed.

Lemma keeps_shift8_round op v : kept (shift8_round op v).
Proof. unfold shift8_round. cbv zeta. keep. Qed.
Lemma keeps_shift16_round op v : kept (shift16_round op v).
Proof. unfold shift16_round. cbv zeta. keep. Qed.
Lemma keeps_shift_loop round n v : (forall v, kept (round v)) -> kept (shift_loop round n v).
Proof. intros H. revert v; induction n as [|n IH]; intros v; cbn [shift_loop]; keep; auto. Qed.
Lemma keeps_do_shift8 op v n : kept (do_shift8 op v n).
Proof.
  unfold do_shift8. cbv zeta. keep. apply keeps_shift_loop. auto using keeps_shift8_round.
Qed.
Lemma keeps_do_shift16 op v n : kept (do_shift16 op v n).
Proof.
  unfold do_shift16. cbv zeta. keep. apply keeps_shift_loop. auto using keeps_shift16_round.
Qed.

Lemma keeps_push16 v : kept (push16 v).
Proof. unfold push16. keep. Qed.
Lemma keeps_pop16 : keeps F (fits 16) pop16.
Proof. unfold pop16. keep. Qed.
Lemma keeps_seg_for i : kept (seg_for i).
Proof. unfold seg_for. keep. Qed.
Lemma keeps_ea_base rm d : kept (ea_base rm d).
Proof. unfold ea_base. keep. Qed.
Hint Resolve keeps_push16 keeps_pop16 keeps_seg_for keeps_ea_base : dos.
Lemma keeps_ea m : kept (ea m).
Proof.
  unfold ea. cbv zeta.
  keep.
Qed.
Hint Resolve keeps_ea : dos.
Lemma keeps_reg_read m w : kept (reg_read m w).
Proof. unfold reg_read. cbv zeta. keep. Qed.
Lemma keeps_reg_write m w v : kept (reg_write m w v).
Proof. unfold reg_write. cbv zeta. keep. Qed.
Lemma keeps_rm_read m w : kept (rm_read m w).
Proof. unfold rm_read. cbv zeta. keep. Qed.
Lemma keeps_rm_write m w v : kept (rm_write m w v).
Proof. unfold rm_write. cbv zeta. keep. Qed.

Lemma keeps_step_index w r : kept (step_index w r).
Proof. unfold step_index. keep. Qed.
Hint Resolve keeps_step_index : dos.
Lemma keeps_do_movs w : kept (do_movs w).
Proof. unfold do_movs. keep. Qed.
Lemma keeps_do_stos w : kept (do_stos w).
Proof. unfold do_stos. keep. Qed.
Lemma keeps_do_lods w : kept (do_lods w).
Proof. unfold do_lods. keep. Qed.
Lemma keeps_do_scas w : kept (do_scas w).
Proof. unfold do_scas. keep. Qed.
Lemma keeps_do_cmps w : kept (do_cmps w).
Proof. unfold do_cmps. keep. Qed.
End cpu.

#[export] Hint Resolve keeps_setF keeps_set_lo keeps_set_hi keeps_ww keeps_rw keeps_wb keeps_rb
  keeps_wr16 keeps_logic8 keeps_logic16 keeps_add16 keeps_sub16 keeps_add8 keeps_sub8 keeps_alu8
  keeps_alu16 keeps_do_shift8 keeps_do_shift16 keeps_push16 keeps_pop16 keeps_ea keeps_reg_read
  keeps_reg_write keeps_rm_read keeps_rm_write keeps_do_movs keeps_do_stos keeps_do_lods
  keeps_do_scas keeps_do_cmps : dos.
