(* ===== verification/DosCon.v ===== *)
(** * The 8086 interpreter: the text screen

    [put_char] is the teletype it is meant to be: it stores the character in
    the cell of the cursor, wraps at the right margin and scrolls the screen by
    one row at the bottom, and never leaves the 80 x 25 cells. *)

From S2P Require Import Prelude Dos DosInt DosStep DosWf.
Open Scope Z_scope.

(** ** Rows *)

Lemma put_at_ok y x v rows : rows_ok rows -> is_byte v -> rows_ok (put_at y x v rows).
Proof.
  intros [Hl Hr] Hv. unfold put_at. split; [by rewrite length_alter|].
  apply Forall_alter; [done|]. intros row _ [Hrow Hb].
  split; [by rewrite length_insert|by apply Forall_insert].
Qed.

Lemma rows_lookup rows y : rows_ok rows -> (y < 25)%nat -> exists row, rows !! y = Some row /\ row_ok row.
Proof.
  intros [Hl Hr] Hy. destruct (lookup_lt_is_Some_2 rows y ltac:(lia)) as [row Hrow].
  exists row. split; [done|]. by eapply Forall_lookup_1.
Qed.

Lemma rows_total rows y : rows_ok rows -> (y < 25)%nat -> row_ok (rows !!! y).
Proof.
  intros H Hy. destruct (rows_lookup rows y H Hy) as (row & E & Hrow).
  by rewrite (list_lookup_total_correct _ _ _ E).
Qed.

Lemma splice_ok left n src dst :
  row_ok src -> row_ok dst -> (left + n <= 80)%nat -> row_ok (splice left n src dst).
Proof.
  intros [Hs Hsb] [Hd Hdb] Hn. unfold splice. split.
  - rewrite !length_app, !length_take, !length_drop. lia.
  - rewrite !Forall_app. split_and!; auto using Forall_take, Forall_drop.
Qed.

Lemma copy_cells_ok y ys left n rows :
  rows_ok rows -> (y < 25)%nat -> (ys < 25)%nat -> (left + n <= 80)%nat ->
  rows_ok (copy_cells y ys left n rows).
Proof.
  intros H Hy Hys Hn. unfold copy_cells. split; [rewrite length_insert; apply H|].
  apply Forall_insert; [apply H|]. apply splice_ok; auto using rows_total.
Qed.

Section con.
Context {HO : Host}.
Implicit Types e : emu.

Lemma keeps_set_cursor F x y : 0 <= x -> 0 <= y -> keeps F (fun _ => True) (set_cursor x y).
Proof.
  intros Hx Hy. apply keeps_modify. intros e He. apply good_set_con; [done|].
  destruct (wf_con e He). by constructor.
Qed.
Lemma keeps_set_cur_attr F a : is_byte a -> keeps F (fun _ => True) (set_cur_attr a).
Proof.
  intros Ha. apply keeps_modify. intros e He. apply good_set_con; [done|].
  destruct (wf_con e He). by constructor.
Qed.
Lemma keeps_put_cell (F : fault -> Prop) y x c a :
  F FBounds -> keeps F (fun _ => True) (put_cell y x c a).
Proof.
  intros HF. unfold put_cell. apply keeps_if; intros; [|by apply keeps_fail].
  apply keeps_modify. intros e He. apply good_set_con; [done|].
  destruct (wf_con e He). constructor; simpl; auto using put_at_ok, wrap_fits.
  all: apply put_at_ok; [done|]; by apply wrap_fits.
Qed.
Lemma keeps_copy_row (F : fault -> Prop) y ys left right :
  F FBounds -> keeps F (fun _ => True) (copy_row y ys left right).
Proof.
  intros HF. unfold copy_row. apply keeps_if; intros Hb; [|by apply keeps_fail].
  rewrite !andb_true_iff, !Z.leb_le, !Z.ltb_lt in Hb.
  apply keeps_modify. intros e He. apply good_set_con; [done|].
  unfold WUBU_DOS_TEXT_ROWS, WUBU_DOS_TEXT_COLS in *.
  destruct (wf_con e He). constructor; simpl; [apply copy_cells_ok; (done || lia)..|done|done].
Qed.
Hint Resolve keeps_put_cell keeps_copy_row : dos.
Lemma keeps_blank_row (F : fault -> Prop) left right a y :
  F FBounds -> keeps F (fun _ => True) (blank_row left right a y).
Proof. intros. unfold blank_row. keep. Qed.
Hint Resolve keeps_blank_row : dos.
Lemma keeps_scroll_up (F : fault -> Prop) t l b r n a :
  F FBounds -> keeps F (fun _ => True) (scroll_up t l b r n a).
Proof. intros. unfold scroll_up. keep. Qed.

(** ** Scrolling the whole screen *)

(** The first [n] rows replaced by the row below them. *)
Definition shifted (n : nat) (rows : list (list Z)) : list (list Z) :=
  take n (drop 1 rows) ++ drop n rows.

Lemma shifted_S n rows row :
  rows !! S n = Some row -> (S n < length rows)%nat ->
  <[n := row]> (shifted n rows) = shifted (S n) rows.
Proof.
  intros Hrow Hn. unfold shifted.
  assert (length (take n (drop 1 rows)) = n) as Hl by (rewrite length_take, length_drop; lia).
  rewrite (insert_app_r_alt _ _ n) by lia. rewrite Hl, Nat.sub_diag.
  destruct (lookup_lt_is_Some_2 rows n ltac:(lia)) as [r0 H0].
  rewrite (drop_S _ _ _ H0). cbn [insert list_insert].
  rewrite (take_S_r _ _ row) by (by rewrite lookup_drop).
  by rewrite <- app_assoc.
Qed.

Lemma shifted_lookup n rows : (n < length rows)%nat -> shifted n rows !! S n = rows !! S n.
Proof.
  intros Hn. unfold shifted.
  assert (length (take n (drop 1 rows)) = n) as Hl by (rewrite length_take, length_drop; lia).
  rewrite lookup_app_r by lia. rewrite Hl, lookup_drop. f_equal. lia.
Qed.

Lemma splice_full src dst : row_ok src -> row_ok dst -> splice 0 80 src dst = src.
Proof.
  intros [Hs _] [Hd _]. unfold splice. rewrite take_0, drop_0.
  rewrite take_ge by lia. rewrite drop_ge by lia. by rewrite app_nil_r.
Qed.

Definition with_cells (t a : list (list Z)) (c : console) : console :=
  mkConsole t a (cur_x c) (cur_y c) (cur_attr c).

Lemma copy_cells_shift n rows :
  rows_ok rows -> (n < 24)%nat ->
  copy_cells n (S n) 0 80 (shifted n rows) = shifted (S n) rows.
Proof.
  intros H Hn. destruct (rows_lookup rows (S n) H ltac:(lia)) as (row & E & Hrow).
  destruct (rows_lookup rows n H ltac:(lia)) as (row' & E' & Hrow').
  destruct H as [Hl Hr].
  assert (length (take n (drop 1 rows)) = n) as Hln by (rewrite length_take, length_drop; lia).
  assert (shifted n rows !! n = Some row') as En.
  { unfold shifted. rewrite lookup_app_r by lia. rewrite Hln, lookup_drop, <- E'. f_equal. lia. }
  unfold copy_cells.
  rewrite (list_lookup_total_correct _ _ row) by (rewrite shifted_lookup by lia; done).
  rewrite (list_lookup_total_correct _ _ _ En), splice_full by done.
  apply shifted_S; [done|lia].
Qed.

Lemma copy_rows_spec k : forall n e t a,
  (n + k <= 24)%nat -> rows_ok t -> rows_ok a ->
  text (con e) = shifted n t -> attr (con e) = shifted n a ->
  for_loop (Z.of_nat n) 1 k (fun y => copy_row y (y + 1) 0 79) e =
  Ok tt (set_con (with_cells (shifted (n + k) t) (shifted (n + k) a) (con e)) e).
Proof.
  induction k as [|k IH]; intros n e t a Hn Ht Ha Et Ea; cbn [for_loop].
  { rewrite Nat.add_0_r, <- Et, <- Ea. destruct e as [???????[]??]. done. }
  unfold mbind at 1, M_bind at 1. unfold copy_row at 1.
  unfold WUBU_DOS_TEXT_ROWS, WUBU_DOS_TEXT_COLS.
  repeat (bcase; try lia). cbn [andb].
  unfold modify. cbn beta iota zeta.
  replace (Z.to_nat (79 - 0 + 1)) with 80%nat by lia.
  replace (Z.to_nat (Z.of_nat n + 1)) with (S n) by lia. rewrite Nat2Z.id.
  change (Z.to_nat 0) with 0%nat.
  rewrite Et, Ea, !copy_cells_shift by (done || lia).
  replace (Z.of_nat n + 1) with (Z.of_nat (S n)) by lia.
  rewrite (IH (S n) _ t a); [|lia|done..].
  by replace (S n + k)%nat with (n + S k)%nat by lia.
Qed.

(** The row of [y] with its first [n] cells blank. *)
Definition blanked (n : nat) (v : Z) (row : list Z) : list Z := replicate n v ++ drop n row.

Lemma blanked_S n v row : (n < length row)%nat -> <[n := v]> (blanked n v row) = blanked (S n) v row.
Proof.
  intros Hn. unfold blanked. rewrite (insert_app_r_alt _ _ n) by (rewrite length_replicate; lia).
  rewrite length_replicate, Nat.sub_diag.
  destruct (lookup_lt_is_Some_2 row n ltac:(lia)) as [x Hx].
  rewrite (drop_S _ _ _ Hx). cbn [insert list_insert].
  change (v :: drop (S n) row) with ([v] ++ drop (S n) row). rewrite app_assoc.
  f_equal. change [v] with (replicate 1 v). rewrite <- replicate_add. f_equal. lia.
Qed.

Lemma put_at_row y x (v : Z) (rows : list (list Z)) (row : list Z) :
  rows !! Z.to_nat y = Some row -> put_at y x v rows = <[Z.to_nat y := <[Z.to_nat x := v]> row]> rows.
Proof. intros H. unfold put_at. by apply alter_insert. Qed.

Lemma blank_cells_spec y k : forall n e trow arow v t a,
  (n + k <= 80)%nat -> 0 <= y < 25 -> is_byte v -> rows_ok t -> rows_ok a ->
  t !! Z.to_nat y = Some trow -> a !! Z.to_nat y = Some arow ->
  text (con e) = <[Z.to_nat y := blanked n 32 trow]> t ->
  attr (con e) = <[Z.to_nat y := blanked n v arow]> a ->
  for_loop (Z.of_nat n) 1 k (fun x => put_cell y x 32 v) e =
  Ok tt (set_con (with_cells (<[Z.to_nat y := blanked (n + k) 32 trow]> t)
                             (<[Z.to_nat y := blanked (n + k) v arow]> a) (con e)) e).
Proof.
  induction k as [|k IH]; intros n e trow arow v t a Hn Hy Hv Ht Ha Htr Har Et Ea; cbn [for_loop].
  { rewrite Nat.add_0_r, <- Et, <- Ea. destruct e as [???????[]??]. done. }
  unfold mbind at 1, M_bind at 1. unfold put_cell at 1, in_screen.
  unfold WUBU_DOS_TEXT_ROWS, WUBU_DOS_TEXT_COLS.
  repeat (bcase; try lia). cbn [andb].
  unfold modify. cbn beta iota zeta. change (u8 32) with 32. rewrite (wrap_id 8 v) by done.
  destruct (rows_lookup t (Z.to_nat y) Ht ltac:(lia)) as (r1 & E1 & [L1 _]).
  destruct (rows_lookup a (Z.to_nat y) Ha ltac:(lia)) as (r2 & E2 & [L2 _]). assert (r1 = trow) as -> by congruence. assert (r2 = arow) as -> by congruence.
  rewrite Et, Ea.
  rewrite (put_at_row _ _ _ _ (blanked n 32 trow)) by (apply list_lookup_insert_eq; apply lookup_lt_Some in E1; lia).
  rewrite (put_at_row _ _ _ _ (blanked n v arow)) by (apply list_lookup_insert_eq; apply lookup_lt_Some in E2; lia).
  rewrite Nat2Z.id, !blanked_S, !list_insert_insert_eq by lia.
  replace (Z.of_nat n + 1) with (Z.of_nat (S n)) by lia.
  rewrite (IH (S n) _ trow arow v t a); [|lia|done..].
  by replace (S n + k)%nat with (n + S k)%nat by lia.
Qed.

Definition scrolled (v : Z) (rows : list (list Z)) : list (list Z) := drop 1 rows ++ [replicate 80 v].

Lemma scrolled_ok v rows : rows_ok rows -> is_byte v -> rows_ok (scrolled v rows).
Proof.
  intros [Hl Hr] Hv. unfold scrolled. split; [rewrite length_app, length_drop; simpl; lia|].
  apply Forall_app. split; [by apply Forall_drop|]. constructor; [|done].
  split; [by rewrite length_replicate|by apply Forall_replicate].
Qed.

Lemma shifted_last rows v :
  rows_ok rows -> exists row, shifted 24 rows !! 24%nat = Some row /\
    <[24%nat := blanked 80 v row]> (shifted 24 rows) = scrolled v rows.
Proof.
  intros H. destruct (rows_lookup rows 24 H ltac:(lia)) as (row & E & [Lr _]). destruct H as [Hl Hr].
  assert (length (take 24 (drop 1 rows)) = 24%nat) as Hln by (rewrite length_take, length_drop; lia).
  exists row. unfold shifted. split.
  { rewrite lookup_app_r by lia. rewrite Hln, lookup_drop. done. }
  rewrite (insert_app_r_alt _ _ 24) by lia. rewrite Hln. change (24 - 24)%nat with 0%nat.
  rewrite (drop_S _ _ _ E), (drop_ge rows 25) by lia. cbn [insert list_insert].
  unfold blanked, scrolled. rewrite (drop_ge row) by lia. rewrite app_nil_r.
  by rewrite take_ge by (rewrite length_drop; lia).
Qed.

Lemma shifted_ok n rows : rows_ok rows -> (n <= 24)%nat -> rows_ok (shifted n rows).
Proof.
  intros [Hl Hr] Hn. unfold shifted. split.
  - rewrite length_app, length_take, !length_drop. lia.
  - apply Forall_app. auto using Forall_take, Forall_drop.
Qed.

Lemma scroll_up_full e v :
  con_ok (con e) -> is_byte v ->
  scroll_up 0 0 24 79 1 v e =
  Ok tt (set_con (with_cells (scrolled 32 (text (con e))) (scrolled v (attr (con e))) (con e)) e).
Proof.
  intros [Ht Ha _ _] Hv. unfold scroll_up. cbn [Z.leb Z.compare].
  unfold mbind, M_bind.
  change (rounds 0 (24 - 1)) with 24%nat. change (rounds (24 - 1 + 1) 24) with 1%nat.
  pose proof (copy_rows_spec 24 0 e (text (con e)) (attr (con e)) ltac:(lia) Ht Ha) as H.
  change (Z.of_nat 0) with 0 in H. rewrite H; clear H; [|by unfold shifted..].
  cbn [Nat.add for_loop]. unfold mbind, M_bind, blank_row. change (rounds 0 79) with 80%nat.
  destruct (shifted_last (text (con e)) 32 Ht) as (r1 & E1 & S1).
  destruct (shifted_last (attr (con e)) v Ha) as (r2 & E2 & S2).
  change (24 - 1 + 1) with 24.
  set (e1 := set_con _ e).
  pose proof (blank_cells_spec 24 80 0 e1 r1 r2 v (shifted 24 (text (con e))) (shifted 24 (attr (con e)))) as H.
  change (Z.of_nat 0) with 0 in H. change (0 + 80)%nat with 80%nat in H. change (Z.to_nat 24) with 24%nat in H.
  rewrite S1, S2 in H. rewrite H; clear H; [done|lia|lia|done|by apply shifted_ok|by apply shifted_ok|done|done| |].
  - symmetry. unfold blanked. cbn [replicate app drop]. by apply list_insert_id.
  - symmetry. unfold blanked. cbn [replicate app drop]. by apply list_insert_id.
Qed.

(** ** The teletype *)

(** What writing [ch] does to a screen. *)
Definition teletype (ch : Z) (c : console) : console :=
  let at_cursor x y := mkConsole (text c) (attr c) x y (cur_attr c) in
  if ch =? 13 then at_cursor 0 (cur_y c)
  else if ch =? 10 then at_cursor 0 (Z.min 24 (cur_y c + 1))
  else if ch =? 8 then at_cursor (Z.max 0 (cur_x c - 1)) (Z.min 24 (cur_y c))
  else
    let wraps := 80 <=? cur_x c in
    let x := if wraps then 0 else cur_x c in
    let y := if wraps then cur_y c + 1 else cur_y c in
    let scrolls := 25 <=? y in
    let t := if scrolls then scrolled 32 (text c) else text c in
    let a := if scrolls then scrolled (cur_attr c) (attr c) else attr c in
    let y := Z.min 24 y in
    mkConsole (put_at y x (u8 ch) t) (put_at y x (cur_attr c) a) (x + 1) y (cur_attr c).

Lemma teletype_ok ch c : con_ok c -> con_ok (teletype ch c).
Proof.
  intros [Ht Ha [Hx Hy] Hc]. unfold teletype.
  repeat case_match; constructor; cbn [text attr cur_x cur_y cur_attr]; try done; try lia.
  all: apply put_at_ok; try done; try (by apply wrap_fits); by apply scrolled_ok.
Qed.

Lemma set_cursor_run x y e :
  set_cursor x y e = Ok tt (set_con (mkConsole (text (con e)) (attr (con e)) x y (cur_attr (con e))) e).
Proof. done. Qed.

Lemma put_cell_run y x ch a e :
  0 <= y < 25 -> 0 <= x < 80 ->
  put_cell y x ch a e =
  Ok tt (set_con (with_cells (put_at y x (u8 ch) (text (con e))) (put_at y x (u8 a) (attr (con e))) (con e)) e).
Proof.
  intros Hy Hx. unfold put_cell, in_screen, WUBU_DOS_TEXT_ROWS, WUBU_DOS_TEXT_COLS.
  repeat (bcase; try lia). done.
Qed.

Lemma clamp_row_run e :
  clamp_row e = Ok tt (set_con (mkConsole (text (con e)) (attr (con e)) (cur_x (con e))
    (Z.min 24 (cur_y (con e))) (cur_attr (con e))) e).
Proof.
  unfold clamp_row, mbind, M_bind, gets, when, WUBU_DOS_TEXT_ROWS. bcase.
  - rewrite set_cursor_run, Z.min_l by lia. done.
  - unfold mret, M_ret. rewrite Z.min_r by lia. by destruct e as [???????[]??].
Qed.

(** The last two tests of an ordinary character: scroll if the cursor is below
    the screen, then store and advance. *)
Lemma store_char_run ch e :
  con_ok (con e) -> cur_x (con e) < 80 ->
  (c ← gets con;
   when (WUBU_DOS_TEXT_ROWS <=? cur_y c)
     (scroll_up 0 0 (WUBU_DOS_TEXT_ROWS - 1) (WUBU_DOS_TEXT_COLS - 1) 1 (u8 (cur_attr c));;
      set_cursor (cur_x c) (WUBU_DOS_TEXT_ROWS - 1));;
   c ← gets con;
   put_cell (cur_y c) (cur_x c) ch (u8 (cur_attr c));;
   set_cursor (cur_x c + 1) (cur_y c)) e =
  let c := con e in let scrolls := 25 <=? cur_y c in let y := Z.min 24 (cur_y c) in
  Ok tt (set_con (mkConsole
    (put_at y (cur_x c) (u8 ch) (if scrolls then scrolled 32 (text c) else text c))
    (put_at y (cur_x c) (cur_attr c) (if scrolls then scrolled (cur_attr c) (attr c) else attr c))
    (cur_x c + 1) y (cur_attr c)) e).
Proof.
  intros He Hx. pose proof He as [Ht Ha [Hx0 Hy0] Hc].
  unfold mbind, M_bind, gets, when, WUBU_DOS_TEXT_ROWS, WUBU_DOS_TEXT_COLS. cbv zeta.
  rewrite !(wrap_id 8 (cur_attr (con e))) by done. bcase.
  - change (25 - 1) with 24. change (80 - 1) with 79. rewrite scroll_up_full by done.
    rewrite set_cursor_run. cbn [con set_con with_cells cur_x cur_y cur_attr text attr].
    rewrite put_cell_run by (cbn; lia).
    rewrite set_cursor_run. cbn [con set_con with_cells cur_x cur_y cur_attr text attr].
    rewrite !(wrap_id 8 (cur_attr (con e))) by done. rewrite Z.min_l by lia. done.
  - unfold mret, M_ret. rewrite put_cell_run by lia.
    rewrite set_cursor_run. cbn [con set_con with_cells cur_x cur_y cur_attr text attr].
    rewrite !(wrap_id 8 (cur_attr (con e))) by done. rewrite Z.min_r by lia. done.
Qed.

Lemma put_char_run ch e :
  con_ok (con e) -> put_char ch e = Ok tt (set_con (teletype ch (con e)) e).
Proof.
  intros He. pose proof He as [Ht Ha [Hx0 Hy0] Hc].
  unfold put_char, teletype, mbind at 1, M_bind at 1, gets at 1.
  destruct (Z.eqb_spec ch 13); [done|].
  unfold mbind at 1, M_bind at 1.
  destruct (Z.eqb_spec ch 10); [rewrite set_cursor_run, clamp_row_run; cbn; by rewrite Z.min_comm|].
  destruct (Z.eqb_spec ch 8).
  { unfold when. bcase; [rewrite set_cursor_run|unfold mret, M_ret]; rewrite clamp_row_run; cbn.
    - by rewrite Z.max_r by lia.
    - replace (Z.max 0 (cur_x (con e) - 1)) with (cur_x (con e)) by lia. done. }
  unfold mbind at 1, M_bind at 1. unfold when at 1. unfold WUBU_DOS_TEXT_COLS at 1.
  destruct (Z.leb_spec 80 (cur_x (con e))).
  - rewrite set_cursor_run. rewrite store_char_run.
    + cbv beta iota zeta. rewrite clamp_row_run. cbn [con set_con text attr cur_x cur_y cur_attr].
      rewrite Z.min_assoc. done.
    + constructor; cbn; try done. lia.
    + cbn. lia.
  - unfold mret at 1, M_ret at 1. rewrite store_char_run by (done || lia).
    cbv beta iota zeta. rewrite clamp_row_run. cbn [con set_con text attr cur_x cur_y cur_attr].
    rewrite Z.min_assoc. done.
Qed.

Lemma keeps_put_char F ch : keeps F (fun _ => True) (put_char ch).
Proof.
  intros e He. rewrite put_char_run by apply He. split; [|done].
  apply good_set_con; [done|]. apply teletype_ok, He.
Qed.
End con.

#[export] Hint Resolve keeps_put_cell keeps_copy_row keeps_blank_row keeps_scroll_up keeps_put_char : dos.
