(* ===== verification/DosSafe.v ===== *)
(** * The 8086 interpreter: which instructions can fault

    The [keeps] lemmas of the keyboard, the handle table, the loaders, the
    interrupts and the decoder, and from them the exact list of instructions
    after which the C code is undefined. *)

From S2P Require Import Prelude Dos DosInt DosStep DosWf DosCon.
Open Scope Z_scope.

Section ints.
Context {HO : Host} (F : fault -> Prop).
Abbreviation kept := (keeps F (fun _ => True)).

Lemma keeps_gets_con : keeps F con_ok (gets con).
Proof. apply keeps_gets. intros e He. apply He. Qed.
Lemma keeps_gets_kbd : keeps F kbd_ok (gets kbd).
Proof. apply keeps_gets. intros e He. apply He. Qed.
Lemma keeps_gets_fls : keeps F fls_ok (gets fls).
Proof. apply keeps_gets. intros e He. apply He. Qed.
Lemma keeps_set_state s : kept (modify (set_state s)).
Proof. apply keeps_modify. intros. by apply good_set_state. Qed.
Lemma keeps_set_exit s : kept (modify (set_exit s)).
Proof. apply keeps_modify. intros. by apply good_set_exit. Qed.
Lemma keeps_clear_mem : kept (modify (set_mem (fun _ => 0))).
Proof. apply keeps_modify. intros. apply good_set_mem; [done|]. by intros. Qed.
Hint Resolve keeps_gets_con keeps_gets_kbd keeps_gets_fls keeps_set_state keeps_set_exit
  keeps_clear_mem : dos.

(** ** Keyboard *)

Lemma land_63 x : 0 <= Z.land x 63 < 64.
Proof. change 63 with (Z.ones 6). rewrite Z.land_ones by lia. apply Z.mod_pos_bound. lia. Qed.

Lemma keeps_kbd_pop : keeps F is_byte kbd_pop.
Proof.
  unfold kbd_pop. eapply keeps_bind; [apply keeps_gets_kbd|]. intros k Hk. destruct Hk as [[Hl Hb] [] ? ? ?].
  apply keeps_if; intros; [by apply keeps_ret|].
  eapply keeps_bind; [apply (keeps_index _ is_byte); [lia|done]|]. intros v Hv.
  eapply keeps_bind; [|intros; by apply keeps_ret].
  apply keeps_modify. intros e He. apply good_set_kbd; [done|].
  destruct (wf_kbd e He). constructor; cbn; auto using land_63.
Qed.
Hint Resolve keeps_kbd_pop : dos.

Lemma keeps_key ascii : is_byte ascii -> kept (wubu_dos_emu_key ascii).
Proof.
  intros Ha. unfold wubu_dos_emu_key. cbv zeta.
  eapply keeps_bind; [apply keeps_gets_kbd|]. intros k [[Hl Hb] [Hl' Hb'] Hh Ht Hs].
  apply keeps_if; intros; [by apply keeps_ret|].
  eapply keeps_bind; [apply (keeps_assign _ is_byte); [lia|done|done]|]. intros buf [Lb Fb].
  eapply keeps_bind; [apply (keeps_assign _ is_byte); [lia|done|]|].
  { unfold scan_of. repeat case_match; try (by apply wrap_fits); unfold_fits; lia. }
  intros scans [Ls Fs]. apply keeps_modify. intros e He. apply good_set_kbd; [done|].
  constructor; cbn; try done; try (split; [congruence|done]). apply land_63.
Qed.

Lemma keeps_int16 : kept int16.
Proof.
  unfold int16. keep.
  all: match goal with H : kbd_ok _ |- _ => destruct H as [[] [] ? ? ?] end.
  all: eapply keeps_any; eapply (keeps_index _ is_byte); try done.
  all: match goal with |- context [Z.land ?h 63] => pose proof (land_63 h) end; lia.
Qed.

(** ** INT 10h *)

Lemma land_255_bound x : 0 <= Z.land x 255 < 256.
Proof. rewrite land_255. apply (wrap_fits 8). lia. Qed.

Lemma keeps_scroll_down n a ch cl dh dl : F FBounds -> kept (int10_scroll_down n a ch cl dh dl).
Proof. intros. unfold int10_scroll_down. keep. Qed.
Lemma keeps_get_at y x rows : F FBounds -> kept (get_at y x rows).
Proof. intros. unfold get_at. keep; auto using keeps_index_any. Qed.
Hint Resolve keeps_scroll_down keeps_get_at : dos.
End ints.

#[export] Hint Resolve keeps_gets_con keeps_gets_kbd keeps_gets_fls keeps_set_state keeps_set_exit
  keeps_clear_mem keeps_kbd_pop keeps_int16 keeps_scroll_down keeps_get_at : dos.

Section int10.
Context {HO : Host} (F : fault -> Prop).
Abbreviation kept := (keeps F (fun _ => True)).

(** INT 10h with AH = 06h, 07h or 08h indexes the screen with unchecked rows
    and columns; the other functions stay inside it. *)
Definition int10_wild (ah : Z) : Prop := ah = 0x06 \/ ah = 0x07 \/ ah = 0x08.

Lemma keeps_put_cell_in y x c a : 0 <= y < 25 -> 0 <= x < 80 -> kept (put_cell y x c a).
Proof.
  intros Hy Hx e He. rewrite put_cell_run by done. split; [|done].
  apply good_set_con; [done|]. destruct (wf_con e He).
  constructor; cbn; auto using put_at_ok, wrap_fits.
  all: apply put_at_ok; [done|]; by apply wrap_fits.
Qed.

Lemma keeps_int10_fn ax bx cx dx :
  (int10_wild (u8 (Z.shiftr ax 8)) -> F FBounds) -> kept (int10_fn ax bx cx dx).
Proof.
  intros HF. unfold int10_fn. cbv zeta.
  eapply keeps_bind; [apply keeps_gets_con|]. intros c [Ht Ha [Hx Hy] Hc].
  unfold int10_wild in HF. set (ah := u8 (Z.shiftr ax 8)) in *. clearbody ah.
  pose proof (land_255_bound dx). pose proof (land_255_bound (Z.shiftr dx 8)).
  pose proof (land_255_bound cx). pose proof (land_255_bound (Z.shiftr cx 8)).
  destruct (Z.eqb_spec ah 0x06) as [->|]; [|destruct (Z.eqb_spec ah 0x07) as [->|];
    [|destruct (Z.eqb_spec ah 0x08) as [->|]]].
  1-3: specialize (HF ltac:(auto)); keep; apply keeps_set_cursor; lia.
  clear HF. destruct (Z.eqb_spec ah 0x09) as [->|].
  { apply (keeps_bind _ (fun _ => True)); [|intros].
    - apply keeps_when. intros [?%Z.ltb_lt ?%Z.ltb_lt]%andb_true_iff.
      unfold WUBU_DOS_TEXT_COLS, WUBU_DOS_TEXT_ROWS in *. apply keeps_put_cell_in; lia.
    - keep. apply keeps_set_cursor; lia. }
  destruct (Z.eqb_spec ah 0x13) as [->|].
  { keep; [apply keeps_set_cursor; lia|]. apply keeps_set_cur_attr. by apply wrap_fits. }
  destruct ah as [|p|p]; [keep| |keep].
  do 6 try (destruct p as [p|p|]; try done); keep; apply keeps_set_cursor; lia.
Qed.

Lemma keeps_int10 : F FBounds -> kept int10.
Proof. intros. unfold int10. keep. by apply keeps_int10_fn. Qed.
End int10.

(** ** The handle table, the loaders and INT 21h *)

Section int21.
Context {HO : Host} (F : fault -> Prop).
Abbreviation kept := (keeps F (fun _ => True)).

(** A handle that maps to a descriptor is a console handle or a slot. *)
Lemma keeps_handle_to_fd h :
  0 <= h -> keeps F (fun fd => 0 <= fd -> h <= 64) (dos_handle_to_fd h).
Proof.
  intros Hh. unfold dos_handle_to_fd. cbv zeta. apply keeps_if; intros Hb.
  { apply Z.leb_le in Hb. apply keeps_ret. lia. }
  eapply keeps_bind; [apply keeps_gets_fls|]. intros f [Hf Hu].
  apply keeps_if; intros Hs; [apply keeps_ret; lia|].
  apply orb_false_iff in Hs as [Hs1%Z.ltb_ge Hs2%Z.leb_gt].
  eapply keeps_bind; [apply (keeps_index _ (fun _ => True)); [lia|by apply Forall_true]|].
  intros used _. apply keeps_if; intros; [apply keeps_ret; lia|].
  eapply keeps_weaken; [apply (keeps_index _ (fun _ => True)); [lia|by apply Forall_true]|done|].
  intros; lia.
Qed.

Lemma keeps_alloc_from n : forall i fd, 0 <= i -> i + Z.of_nat n <= 64 -> kept (alloc_from n i fd).
Proof.
  induction n as [|n IH]; intros i fd Hi Hn; cbn [alloc_from]; [by apply keeps_ret|].
  eapply keeps_bind; [apply keeps_gets_fls|]. intros f [Hf Hu].
  eapply keeps_bind; [apply (keeps_index _ (fun _ => True)); [lia|by apply Forall_true]|].
  intros used _. apply keeps_if; intros; [apply IH; lia|].
  eapply keeps_bind; [apply (keeps_assign _ (fun _ => True)); [lia|by apply Forall_true|done]|].
  intros us [Lu _].
  eapply keeps_bind; [apply (keeps_assign _ (fun _ => True)); [lia|by apply Forall_true|done]|].
  intros fds [Ld _]. keep. apply keeps_modify. intros e He. apply good_set_fls; [done|].
  split; cbn; congruence.
Qed.
Lemma keeps_handle_alloc fd : kept (dos_handle_alloc fd).
Proof. apply keeps_alloc_from; lia. Qed.
Hint Resolve keeps_handle_alloc : dos.

Lemma keeps_copy_program cs data : forall i, kept (copy_program cs i data).
Proof. induction data; intros; cbn [copy_program]; keep; auto. Qed.
Hint Resolve keeps_copy_program : dos.
Lemma keeps_load_com data : kept (wubu_dos_emu_load_com data).
Proof. unfold wubu_dos_emu_load_com. cbv zeta. keep. Qed.

Lemma keeps_image_byte data i : F FBounds -> kept (image_byte data i).
Proof. intros. by apply keeps_index_any. Qed.
Hint Resolve keeps_image_byte : dos.
Lemma keeps_image_word data i : F FBounds -> kept (image_word data i).
Proof. intros. unfold image_word. keep. Qed.
Hint Resolve keeps_image_word : dos.
Lemma keeps_relocate n : forall i data o h, F FBounds -> kept (relocate n i data o h).
Proof. induction n; intros; cbn [relocate]; cbv zeta; keep; auto. Qed.
Hint Resolve keeps_relocate : dos.
Lemma keeps_load_exe data : F FBounds -> kept (wubu_dos_emu_load_exe data).
Proof. intros. unfold wubu_dos_emu_load_exe. cbv zeta. keep. Qed.
Hint Resolve keeps_load_com keeps_load_exe : dos.

Lemma create_wf h : wf (wubu_dos_emu_create h).
Proof.
  constructor; cbn -[replicate]; try done.
  - by intros [].
  - split; [done|]. by apply Forall_replicate.
  - constructor; cbn -[replicate]; try done.
    all: split; [done|]; apply Forall_replicate; split; [done|]; by apply Forall_replicate.
  - constructor; cbn -[replicate]; try done.
    all: split; [done|]; by apply Forall_replicate.
Qed.

(** A computation that keeps the machine well formed but may count steps. *)
Definition runs_ok {A} (m : M A) : Prop := forall e,
  wf e -> match m e with Ok _ e' => wf e' | Bad f => F f end.
Lemma keeps_runs_ok {A} (Q : A -> Prop) (m : M A) : keeps F Q m -> runs_ok m.
Proof. intros H e He. specialize (H e He). destruct (m e); [apply H|done]. Qed.

Lemma keeps_on_child {A} (m : M A) child :
  wf child -> runs_ok m -> keeps F (fun r => wf r.2) (on_child m child).
Proof.
  intros Hc Hm e He. unfold on_child.
  specialize (Hm (set_host (host e) child) (wf_set_host _ _ Hc)).
  destruct (m _) as [a child'|f]; [|done]. split; [by apply good_set_host|apply Hm].
Qed.

Lemma keeps_read_path n : forall s o, kept (read_path n s o).
Proof. induction n; intros; cbn [read_path]; keep; auto. Qed.
Hint Resolve keeps_read_path : dos.
Lemma keeps_path_dx : kept path_dx.
Proof. unfold path_dx. keep. Qed.
Lemma keeps_dos_error n : kept (dos_error n).
Proof. unfold dos_error. keep. Qed.
Hint Resolve keeps_path_dx keeps_dos_error : dos.
Lemma keeps_dos_result r : kept (dos_result r).
Proof. unfold dos_result. keep. Qed.
Lemma keeps_print_string n : forall s o, kept (print_string n s o).
Proof. induction n; intros; cbn [print_string]; keep; auto. Qed.
Lemma keeps_read_line n : forall m k s o, kept (read_line n m k s o).
Proof. induction n; intros; cbn [read_line]; keep; auto. Qed.
Lemma keeps_new_handle fd : kept (new_handle fd).
Proof. unfold new_handle. keep. Qed.
Lemma keeps_store_bytes s o bs : forall k, kept (store_bytes s o k bs).
Proof. induction bs; intros; cbn [store_bytes]; keep; auto. Qed.
Lemma keeps_write_bytes n : forall fd s o k, kept (write_bytes n fd s o k).
Proof. induction n; intros; cbn [write_bytes]; keep; auto. Qed.
Hint Resolve keeps_dos_result keeps_print_string keeps_read_line keeps_new_handle
  keeps_store_bytes keeps_write_bytes : dos.

Lemma keeps_handle_to_fd_any h : fits 16 h -> kept (dos_handle_to_fd h).
Proof. intros [? _]. by eapply keeps_any, keeps_handle_to_fd. Qed.
Hint Resolve keeps_handle_to_fd_any : dos.

Lemma keeps_int21_close : kept int21_close.
Proof.
  unfold int21_close. eapply keeps_bind; [apply keeps_getr|]. intros bx Hbx.
  eapply keeps_bind; [apply keeps_handle_to_fd, Hbx|]. intros fd Hfd.
  apply keeps_if; intros Hneg; [auto with dos|]. apply Z.ltb_ge in Hneg. specialize (Hfd Hneg).
  apply (keeps_bind _ (fun _ => True)); [|intros; keep].
  apply keeps_when. intros H3%Z.leb_le.
  eapply keeps_bind; [apply keeps_gets_fls|]. intros f [Hf Hu].
  eapply keeps_bind; [apply (keeps_assign _ (fun _ => True)); [lia|by apply Forall_true|done]|].
  intros us [Lu _]. keep. apply keeps_modify. intros e He. apply good_set_fls; [done|].
  split; cbn; congruence.
Qed.
Lemma keeps_int21_creat : kept int21_creat.
Proof. unfold int21_creat. keep. Qed.
Lemma keeps_int21_open : kept int21_open.
Proof. unfold int21_open. keep. Qed.
Lemma keeps_int21_read : kept int21_read.
Proof. unfold int21_read. keep. Qed.
Lemma keeps_int21_write : kept int21_write.
Proof. unfold int21_write. keep. Qed.
Lemma keeps_int21_lseek : kept int21_lseek.
Proof. unfold int21_lseek. cbv zeta. keep. Qed.
Lemma keeps_int21_getcwd : kept int21_getcwd.
Proof. unfold int21_getcwd. keep. Qed.
Lemma keeps_int21_date : kept int21_date.
Proof. unfold int21_date. keep. Qed.
Lemma keeps_int21_time : kept int21_time.
Proof. unfold int21_time. cbv zeta. keep. Qed.

Lemma keeps_int21_exec run_child : F FBounds -> runs_ok run_child -> kept (int21_exec run_child).
Proof.
  intros HF Hrun. unfold int21_exec.
  keep1. keep1. destruct a0 as [f|]; [|keep]. keep1. keep1. apply keeps_if; intros; [keep|].
  keep1. keep1. keep1. apply (keeps_bind _ (fun _ => True)); [keep|intros h _]. cbv zeta.
  apply (keeps_bind _ (fun r => wf r.2)); [|intros [rc child] _; keep].
  apply keeps_if; intros; [|apply keeps_ret, create_wf].
  eapply keeps_bind; [by apply keeps_image_byte|]. intros b0 _.
  apply (keeps_bind _ (fun r => wf r.2)); [apply keeps_on_child; [apply create_wf|apply (keeps_runs_ok (fun _ => True)); keep]|].
  intros [rc child] Hc. apply keeps_if; intros; [|by apply keeps_ret].
  apply (keeps_bind _ (fun r => wf r.2)); [by apply keeps_on_child|].
  intros [? child'] Hc'. by apply keeps_ret.
Qed.
Hint Resolve keeps_int21_close keeps_int21_creat keeps_int21_open keeps_int21_read
  keeps_int21_write keeps_int21_lseek keeps_int21_getcwd keeps_int21_date keeps_int21_time : dos.

Lemma keeps_int21_fn run_child ax dx ds :
  (u8 (Z.shiftr ax 8) = 0x4B -> F FBounds /\ runs_ok run_child) ->
  kept (int21_fn run_child ax dx ds).
Proof.
  intros HF. unfold int21_fn. set (ah := u8 (Z.shiftr ax 8)) in *. clearbody ah.
  destruct (Z.eqb_spec ah 0x4B) as [->|].
  { destruct (HF eq_refl). by apply keeps_int21_exec. }
  clear HF. destruct ah as [|p|p]; [keep| |keep].
  do 7 try (destruct p as [p|p|]; try done); cbv zeta; keep.
Qed.

Lemma keeps_int21 run_child : F FBounds -> runs_ok run_child -> kept (int21 run_child).
Proof. intros. unfold int21. keep. by apply keeps_int21_fn. Qed.
End int21.

(** ** The decoder *)

#[export] Hint Resolve keeps_int10 keeps_int21 : dos.

Section decode.
Context {HO : Host} (F : fault -> Prop).
Abbreviation kept := (keeps F (fun _ => True)).

Definition code (r : Z) : Prop := r = 0 \/ r = -1.

Lemma keeps_done m : kept m -> keeps F code (done m).
Proof. intros H. eapply keeps_bind; [done|]. intros. apply keeps_ret. by left. Qed.
Lemma keeps_halt_error : keeps F code halt_error.
Proof. eapply keeps_bind; [apply keeps_set_state|]. intros. apply keeps_ret. by right. Qed.

Lemma keeps_cond_met cc : kept (cond_met cc).
Proof. unfold cond_met. keep. Qed.
Hint Resolve keeps_cond_met : dos.
Lemma keeps_op_alu op w : kept (op_alu op w).
Proof. unfold op_alu. cbv zeta. keep. Qed.
Lemma keeps_op_acc op w : kept (op_acc op w).
Proof. unfold op_acc. cbv zeta. destruct w; keep. Qed.
Lemma keeps_op_jcc op : kept (op_jcc op).
Proof. unfold op_jcc. keep. Qed.
Lemma keeps_op_grp1 op w : kept (op_grp1 op w).
Proof. unfold op_grp1. cbv zeta. keep. Qed.
Lemma keeps_op_mov_group op : kept (op_mov_group op).
Proof. unfold op_mov_group. keep. Qed.
Lemma keeps_op_flags op : kept (op_flags op).
Proof. unfold op_flags. cbv zeta. keep. Qed.
Lemma keeps_op_moffs op : kept (op_moffs op).
Proof. unfold op_moffs. keep. Qed.
Lemma keeps_op_shift_imm w : kept (op_shift_imm w).
Proof. unfold op_shift_imm. cbv zeta. keep. Qed.
Lemma keeps_op_shift op w : kept (op_shift op w).
Proof. unfold op_shift. cbv zeta. keep. Qed.
Lemma keeps_op_ret op : kept (op_ret op).
Proof. unfold op_ret. keep. Qed.
Lemma keeps_op_load_far r : kept (op_load_far r).
Proof. unfold op_load_far. keep. Qed.
Lemma keeps_op_mov_imm w : kept (op_mov_imm w).
Proof. unfold op_mov_imm. cbv zeta. destruct w; keep. Qed.
Lemma keeps_op_loop op : kept (op_loop op).
Proof. unfold op_loop. cbv zeta. keep. Qed.
Lemma keeps_op_jump op : kept (op_jump op).
Proof. unfold op_jump. keep. Qed.
Lemma keeps_op_grp4 : kept op_grp4.
Proof. unfold op_grp4. keep. Qed.
Lemma keeps_op_grp5 : kept op_grp5.
Proof. unfold op_grp5. keep. Qed.
Lemma keeps_grp3_test op m w : kept (grp3_test op m w).
Proof. unfold grp3_test. keep. Qed.
Lemma keeps_grp3_mul m w : kept (grp3_mul m w).
Proof. unfold grp3_mul. cbv zeta. keep. Qed.
Lemma keeps_grp3_imul m w : kept (grp3_imul m w).
Proof. unfold grp3_imul. cbv zeta. keep. Qed.
Hint Resolve keeps_grp3_test keeps_grp3_mul keeps_grp3_imul : dos.
Lemma keeps_grp3_div m w : keeps F code (grp3_div m w).
Proof.
  unfold grp3_div. cbv zeta. eapply keeps_bind; [apply keeps_rm_read|]. intros d _.
  apply keeps_if; intros; [apply keeps_halt_error|]. keep. all: by left.
Qed.
Lemma keeps_grp3_idiv m w : (w = true -> F FDivide) -> keeps F code (grp3_idiv m w).
Proof.
  intros HF. unfold grp3_idiv. cbv zeta. eapply keeps_bind; [apply keeps_rm_read|]. intros d _.
  apply keeps_if; intros; [apply keeps_halt_error|]. keep. 2-3: by left.
  apply keeps_fail. auto.
Qed.

(** *** Repeated string operations end within the 65536 rounds *)

(** A computation that leaves the register [r] alone. *)
Definition frames {A} (r : reg) (m : M A) : Prop := forall e,
  match m e with Ok _ e' => regs e' r = regs e r | Bad _ => True end.

Lemma frames_bind {A B} r (m : M A) (k : A -> M B) :
  frames r m -> (forall a, frames r (k a)) -> frames r (mbind k m).
Proof.
  intros Hm Hk e. unfold mbind, M_bind. specialize (Hm e). destruct (m e) as [a e'|]; [|done].
  specialize (Hk a e'). destruct (k a e'); [|done]. congruence.
Qed.
Lemma frames_ret {A} r (a : A) : frames r (mret a).
Proof. by intros e. Qed.
Lemma frames_gets {A} r (f : emu -> A) : frames r (gets f).
Proof. by intros e. Qed.
Lemma frames_setr r r' v : r <> r' -> frames r (setr r' v).
Proof. intros Hr e. cbn. unfold upd. by rewrite decide_False. Qed.
Lemma frames_wr8 r s o v : frames r (wr8 s o v).
Proof. by intros e. Qed.
End decode.

(** Framing, by the shape of the computation. *)
Ltac framed := repeat first
  [ apply frames_ret | apply frames_gets | apply frames_wr8 | (apply frames_setr; first [discriminate|assumption])
  | apply frames_bind; intros | progress cbv zeta
  | lazymatch goal with |- frames _ (if ?b then _ else _) => destruct b end ].

Section strings.
Context {HO : Host} (F : fault -> Prop).
Abbreviation kept := (keeps F (fun _ => True)).

Lemma frames_setF b v : frames CX (setF b v).
Proof. unfold setF, getr. framed. Qed.
Lemma frames_sub16 a b c : frames CX (sub16 a b c).
Proof. unfold sub16. framed; apply frames_setF. Qed.
Lemma frames_sub8 a b c : frames CX (sub8 a b c).
Proof. unfold sub8. framed; apply frames_setF. Qed.
Lemma frames_movs w : frames CX (do_movs w).
Proof. unfold do_movs, step_index, wr16, rd16, rd8, getr, getF. framed. Qed.
Lemma frames_stos w : frames CX (do_stos w).
Proof. unfold do_stos, step_index, wr16, getr, getF. framed. Qed.
Lemma frames_lods w : frames CX (do_lods w).
Proof. unfold do_lods, step_index, set_lo, rd16, rd8, getr, getF. framed. Qed.
Lemma frames_scas w : frames CX (do_scas w).
Proof.
  unfold do_scas, step_index, rd16, rd8, getr, getF. framed; auto using frames_sub16, frames_sub8.
Qed.
Lemma frames_cmps w : frames CX (do_cmps w).
Proof.
  unfold do_cmps, step_index, rd16, rd8, getr, getF. framed; auto using frames_sub16, frames_sub8.
Qed.

Lemma rep_step e (body : M unit) :
  wf e -> regs e CX <> 0 -> kept body -> frames CX body ->
  match (body;; cx ← getr CX; setr CX (cx - 1)) e with
  | Ok _ e' => good e e' /\ regs e' CX < regs e CX
  | Bad f => F f
  end.
Proof.
  intros He Hcx Hk Hc. unfold mbind at 1, M_bind at 1. specialize (Hk e He). specialize (Hc e).
  destruct (body e) as [[] e1|]; [|done]. destruct Hk as [He1 _].
  pose proof (keeps_bind F (fits 16) (fun _ => True) (getr CX) (fun cx => setr CX (cx - 1))
    (keeps_getr F CX) (fun a _ => keeps_setr F CX (a - 1)) e1 (proj1 He1)) as H.
  split; [eapply good_trans; [done|apply H]|].
  change (u16 (regs e1 CX - 1) < regs e CX). rewrite Hc.
  pose proof (wf_regs e He CX) as Hr. unfold_fits. rewrite wrap_id; unfold_fits; lia.
Qed.

(** A loop whose rounds keep the machine well formed and count CX down. *)
Lemma keeps_cx_loop p (body : M (option unit)) :
  65536 <= Z.pos p ->
  (forall e, wf e -> match body e with
     | Ok None e' => good e e' /\ regs e' CX < regs e CX
     | Ok (Some _) e' => good e e'
     | Bad f => F f end) ->
  kept (loop p body).
Proof.
  intros Hp Hb e He.
  pose proof (loop_rule F (good e) (fun e => regs e CX) (fun _ e' => good e e') body p) as H.
  enough (match loop p body e with Ok _ e' => good e e' | Bad f => F f end) as Hl.
  { by destruct (loop _ _ e). }
  apply H; [|intros x Hx|by apply good_refl|pose proof (wf_regs e He CX); unfold_fits; lia].
  - intros x Hx. apply (wf_regs x (proj1 Hx) CX).
  - specialize (Hb x (proj1 Hx)). destruct (body x) as [[]|]; [|destruct Hb; split|done]; eauto using good_trans.
Qed.

Lemma keeps_rep p (more : M bool) body :
  65536 <= Z.pos p -> (forall e, exists b, more e = Ok b e) -> kept body -> frames CX body ->
  kept (loop p (rep_round more body)).
Proof.
  intros Hp Hmore Hk Hc. apply keeps_cx_loop; [done|].
  intros e He. unfold rep_round, mbind at 1, M_bind at 1, getr at 1, gets at 1.
  unfold mbind at 1, M_bind at 1. destruct (Hmore e) as [b Hb]. rewrite Hb. clear Hb.
  destruct ((regs e CX =? 0) || negb b) eqn:Ecx; [done|].
  apply orb_false_iff in Ecx as [Ecx%Z.eqb_neq _].
  pose proof (rep_step e body He Ecx Hk Hc) as Hs. unfold mbind, M_bind in Hs |- *.
  destruct (body e) as [[] e1|]; [|done]. destruct (getr CX e1) as [cx e2|]; [|done].
  by destruct (setr CX (cx - 1) e2).
Qed.

Lemma keeps_rep_cmp p c body :
  65536 <= Z.pos p -> kept body -> frames CX body -> kept (loop p (rep_cmp_round c body)).
Proof.
  intros Hp Hk Hc. apply keeps_cx_loop; [done|].
  intros e He. unfold rep_cmp_round, mbind at 1, M_bind at 1, getr at 1, gets at 1.
  destruct (Z.eqb_spec (regs e CX) 0) as [|Ecx]; [done|].
  pose proof (rep_step e body He Ecx Hk Hc) as Hs. unfold mbind, M_bind in Hs |- *.
  destruct (body e) as [[] e1|]; [|done]. destruct (getr CX e1) as [cx e2|]; [|done].
  destruct (setr CX (cx - 1) e2) as [[] e3|]; [|done]. cbn. case_match; naive_solver.
Qed.

Lemma keeps_op_string op w : kept (op_string op w).
Proof.
  unfold op_string. apply (keeps_bind _ (fun _ => True)); [keep|intros rep _]. cbv zeta.
  assert (forall e, exists b, (mret true : M bool) e = Ok b e) as Hret by (intros; by eexists).
  assert (forall e, exists b, is_running e = Ok b e) as Hrun by (intros; by eexists).
  assert (kept (if rep =? 0 then do_movs w else loop REP_FUEL (rep_round is_running (do_movs w)))) as Hm.
  { apply keeps_if; intros; [auto with dos|]. apply keeps_rep; auto using frames_movs, keeps_do_movs; done. }
  assert (kept (if rep =? 0 then do_cmps w
                else loop REP_FUEL (rep_cmp_round (negb (rep =? 2)) (do_cmps w)))) as Hc.
  { apply keeps_if; intros; [auto with dos|]. apply keeps_rep_cmp; auto using frames_cmps, keeps_do_cmps; done. }
  assert (kept (if rep =? 0 then do_stos w else loop REP_FUEL (rep_round (mret true) (do_stos w)))) as Hs.
  { apply keeps_if; intros; [auto with dos|]. apply keeps_rep; auto using frames_stos, keeps_do_stos; done. }
  assert (kept (if rep =? 0 then do_lods w else loop REP_FUEL (rep_round (mret true) (do_lods w)))) as Hl.
  { apply keeps_if; intros; [auto with dos|]. apply keeps_rep; auto using frames_lods, keeps_do_lods; done. }
  assert (kept (if rep =? 0 then do_scas w
                else loop REP_FUEL (rep_cmp_round (negb (rep =? 2)) (do_scas w)))) as Hsc.
  { apply keeps_if; intros; [auto with dos|]. apply keeps_rep_cmp; auto using frames_scas, keeps_do_scas; done. }
  repeat case_match; assumption.
Qed.
End strings.

#[export] Hint Resolve keeps_op_alu keeps_op_acc keeps_op_jcc keeps_op_grp1 keeps_op_mov_group
  keeps_op_flags keeps_op_moffs keeps_op_shift_imm keeps_op_shift keeps_op_ret keeps_op_load_far
  keeps_op_mov_imm keeps_op_loop keeps_op_jump keeps_op_grp4 keeps_op_grp5 keeps_grp3_test
  keeps_grp3_mul keeps_grp3_imul keeps_grp3_div keeps_op_string keeps_done keeps_halt_error : dos.
