(* ===== verification/DosFault.v ===== *)
(** * The 8086 interpreter: every fault has a cause

    The decoder as a whole keeps the machine well formed; the instructions
    that can make the C code undefined are listed by [cause]. *)

From S2P Require Import Prelude Dos DosInt DosStep DosWf DosCon DosSafe.
Open Scope Z_scope.

Section faults.
Context {HO : Host} (run_child : M WubuDosEmuState).
Implicit Types (F : fault -> Prop) (e : emu).

(** The opcodes with an arm that can fault: INT, AAM, the host call, GRP3. *)
Definition tame (op : Z) : Prop := op <> 0xCD /\ op <> 0xD4 /\ op <> 0xF1 /\ op <> 0xF7.

Lemma keeps_decode_range F op w : keeps F code (decode_range op w).
Proof.
  unfold decode_range.
  repeat (apply keeps_if; intros _; [apply keeps_done; keep|]). apply keeps_halt_error.
Qed.

Lemma keeps_op_grp3 F op w : (w = true -> F FDivide) -> keeps F code (op_grp3 op w).
Proof.
  intros HF. unfold op_grp3. cbv zeta. eapply keeps_bind; [apply keeps_fetch8|]. intros m _.
  repeat case_match; try (apply keeps_done; keep).
  all: auto using keeps_grp3_div, keeps_grp3_idiv.
Qed.

Lemma keeps_op_ascii F op : (op = 0xD4 -> F FDivide) -> keeps F (fun _ => True) (op_ascii op).
Proof.
  intros HF. unfold op_ascii. cbv zeta.
  assert (keeps F (fun _ => True) (ds ← getr DS; bx ← getr BX; ax ← getr AX;
    v ← rd8 ds (bx + Z.land ax 0xFF); set_lo AX v)) as Hx by keep.
  destruct op as [|p|p]; [exact Hx| |exact Hx].
  do 8 (destruct p as [p|p|]; try exact Hx); keep.
  apply keeps_fail. by apply HF.
Qed.

Lemma keeps_peek_raw F a : F FBounds -> keeps F (fun _ => True) (peek_raw a).
Proof. intros. unfold peek_raw. apply keeps_if; intros; [keep|by apply keeps_fail]. Qed.
Hint Resolve keeps_peek_raw : dos.
Lemma keeps_hc_slot F o : F FBounds -> keeps F (fun _ => True) (hc_slot o).
Proof. intros. unfold hc_slot. keep. Qed.
Hint Resolve keeps_hc_slot : dos.

Lemma keeps_gets_stack F : keeps F (fun s => length s = 32%nat /\ Forall (fits 16) s) (gets call_stack).
Proof. apply keeps_gets. intros e He. apply He. Qed.
Lemma keeps_gets_csp F : keeps F (fun p => 0 <= p <= 32) (gets call_sp).
Proof. apply keeps_gets. intros e He. apply He. Qed.

Lemma keeps_hc_call F : keeps F (fun _ => True) hc_call.
Proof.
  unfold hc_call. cbv zeta.
  eapply keeps_bind; [apply keeps_fetch8|]. intros hi _.
  eapply keeps_bind; [apply keeps_fetch8|]. intros lo _.
  eapply keeps_bind; [apply keeps_gets_csp|]. intros csp [Hc0 Hc32].
  apply keeps_when. intros Hlt%Z.ltb_lt.
  eapply keeps_bind; [apply keeps_getr|]. intros ip Hip.
  eapply keeps_bind; [apply keeps_gets_stack|]. intros stk [Hl Hf].
  eapply keeps_bind; [apply (keeps_assign _ (fits 16)); [lia|done|done]|]. intros stk' [Hl' Hf'].
  keep. apply keeps_modify. intros e He. apply good_set_calls; [done|congruence|done|lia].
Qed.

Lemma keeps_hc_return F o : F FBounds -> keeps F (fun _ => True) (hc_return o).
Proof.
  intros HF. unfold hc_return. cbv zeta.
  eapply keeps_bind; [by apply keeps_hc_slot|]. intros x _.
  eapply keeps_bind; [apply keeps_getr|]. intros bp _.
  eapply keeps_bind; [apply keeps_poke|]. intros _ _.
  eapply keeps_bind; [apply keeps_poke|]. intros _ _.
  eapply keeps_bind; [apply keeps_gets_csp|]. intros csp [Hc0 Hc32].
  apply keeps_if; intros Hlt; [|keep]. apply Z.ltb_lt in Hlt.
  eapply keeps_bind; [apply keeps_gets_stack|]. intros stk [Hl Hf].
  eapply keeps_bind; [apply (keeps_index _ (fits 16)); [lia|done]|]. intros ip Hip.
  keep. apply keeps_modify. intros e He. apply good_set_calls; [done|done|done|lia].
Qed.

Lemma keeps_hc_load F o : F FBounds -> keeps F (fun _ => True) (hc_load o).
Proof. intros HF. unfold hc_load. cbv zeta. keep. Qed.
Lemma keeps_hc_store F o o' : F FBounds -> keeps F (fun _ => True) (hc_store o o').
Proof. intros HF. unfold hc_store. cbv zeta. keep. Qed.

Lemma keeps_op_hostcall F : F FBounds -> keeps F code op_hostcall.
Proof.
  intros HF. unfold op_hostcall.
  eapply keeps_bind; [apply keeps_fetch8|]. intros fn_ _.
  do 3 (eapply keeps_bind; [apply keeps_fetch16|intros ? _]).
  repeat (apply keeps_if; intros _; [apply keeps_done|]); auto using keeps_hc_call, keeps_hc_return,
    keeps_hc_load, keeps_hc_store, keeps_halt_error.
Qed.

(** An arm of the decoder, by its shape. *)
Ltac decode_leaf :=
  lazymatch goal with
  | |- keeps _ _ (decode_range _ _) => apply keeps_decode_range
  | |- keeps _ _ halt_error => apply keeps_halt_error
  | |- keeps _ _ (mret 0) => apply keeps_ret; by left
  | |- keeps _ _ (done (op_ascii _)) => apply keeps_done, keeps_op_ascii; done
  | |- keeps _ _ (done _) => apply keeps_done; keep
  | |- keeps _ _ (op_grp3 _ _) => apply keeps_op_grp3; done
  | |- keeps _ _ (mbind _ (getF _)) =>
      eapply keeps_bind; [apply keeps_getF|]; intros [] _; decode_leaf
  | |- keeps _ _ (mbind _ (modify (set_state _))) =>
      eapply keeps_bind; [apply keeps_set_state|]; intros _ _; decode_leaf
  | |- keeps _ _ (mbind _ fetch8) => eapply keeps_bind; [apply keeps_fetch8|]; intros _ _; decode_leaf
  end.

Lemma keeps_decode_tame F op : tame op -> keeps F code (decode_main run_child op).
Proof.
  intros (H1 & H2 & H3 & H4). unfold decode_main. cbv zeta.
  apply keeps_if; intros _; [apply keeps_done; keep|].
  apply keeps_if; intros _; [apply keeps_done; keep|].
  destruct op as [|p|p]; [apply keeps_decode_range| |apply keeps_decode_range].
  do 8 try (destruct p as [p|p|]); try congruence; decode_leaf.
Qed.

(** ** The causes

    [e] is the machine whose IP is just past the opcode [op]. *)
Definition next_byte e : Z := mem e (cell (regs e CS) (regs e IP)).
Definition ah_of e : Z := u8 (Z.shiftr (regs e AX) 8).

Inductive cause (op : Z) e : fault -> Prop :=
| cause_aam : op = 0xD4 -> next_byte e = 0 -> cause op e FDivide
| cause_idiv : op = 0xF7 -> Z.land (Z.shiftr (next_byte e) 3) 7 = 7 ->
    regs e DX = 0x8000 -> regs e AX = 0 -> cause op e FDivide
| cause_hostcall : op = 0xF1 -> cause op e FBounds
| cause_video : op = 0xCD -> next_byte e = 0x10 -> int10_wild (ah_of e) -> cause op e FBounds
| cause_exec f : op = 0xCD -> next_byte e = 0x21 -> ah_of e = 0x4B -> cause op e f.

Definition after_fetch e : emu := set_regs (upd IP (u16 (regs e IP + 1)) (regs e)) e.

Lemma fetch8_run e : wf e -> fetch8 e = Ok (next_byte e) (after_fetch e).
Proof.
  intros He. unfold fetch8, rd8, getr, setr, gets, modify, mbind, M_bind, mret, M_ret, next_byte.
  rewrite (wrap_id 16 (regs e IP)) by apply He. done.
Qed.
Lemma after_fetch_wf e : wf e -> wf (after_fetch e).
Proof. intros He. apply wf_set_regs; [done|]. apply upd_fits, He. Qed.
Lemma after_fetch_reg e r : r <> IP -> regs (after_fetch e) r = regs e r.
Proof. intros Hr. cbn. unfold upd. by rewrite decide_False. Qed.

(** Running a computation that cannot fault on its own. *)
Lemma keeps_no_fault {A} (Q : A -> Prop) (m : M A) e f :
  wf e -> (forall F, keeps F Q m) -> m e <> Bad f.
Proof. intros He Hm E. specialize (Hm (fun _ => False) e He). by rewrite E in Hm. Qed.
Lemma keeps_fault {A} F (Q : A -> Prop) (m : M A) e f : wf e -> keeps F Q m -> m e = Bad f -> F f.
Proof. intros He Hm E. specialize (Hm e He). by rewrite E in Hm. Qed.

Lemma fetch8_bind {A} (k : Z -> M A) e : wf e -> mbind k fetch8 e = k (next_byte e) (after_fetch e).
Proof. intros He. unfold mbind, M_bind. by rewrite fetch8_run. Qed.
Lemma getr_bind {A} (k : Z -> M A) r e : mbind k (getr r) e = k (regs e r) e.
Proof. done. Qed.
Lemma done_Bad m e f : done m e = Bad f -> m e = Bad f.
Proof. unfold done, mbind, M_bind, mret, M_ret. destruct (m e); congruence. Qed.
Lemma bind_Bad {A B} (m : M A) (k : A -> M B) e f :
  mbind k m e = Bad f -> m e = Bad f \/ exists a e', m e = Ok a e' /\ k a e' = Bad f.
Proof. unfold mbind, M_bind. destruct (m e) as [a e'|f'] eqn:E; intros H; [right; eauto|left; congruence]. Qed.

Lemma cause_of_aam e f : wf e -> decode_main run_child 0xD4 e = Bad f -> cause 0xD4 e f.
Proof.
  intros He H%done_Bad. unfold op_ascii in H. rewrite fetch8_bind, getr_bind in H by done.
  cbv zeta in H. destruct (Z.eqb_spec (next_byte e) 0) as [E0|E0].
  { injection H as <-. by apply cause_aam. }
  apply (keeps_no_fault (fun _ => True)) in H; [done|by apply after_fetch_wf|intros; keep].
Qed.

Lemma frames_rm_read r m w : r <> IP -> frames r (rm_read m w).
Proof.
  intros Hr. unfold rm_read, rw, rb, ea, fetch16, fetch8, seg_for, ea_base, rd16, rd8, getr.
  destruct (breg (Z.land m 7)). framed; repeat case_match; framed.
Qed.

Lemma min_dividend dx ax :
  fits 16 dx -> fits 16 ax -> Z.lor (Z.shiftl (s16 dx) 16) ax = - 2 ^ 31 -> dx = 0x8000 /\ ax = 0.
Proof.
  intros Hd Ha. rewrite Z.lor_comm, lor_shiftl_add by (done || lia). unfold swrap.
  unfold_fits. change (2 ^ (16 - 1)) with 32768. rewrite Z.mod_small by lia. bcase; lia.
Qed.

Lemma cause_of_grp3 e f : wf e -> decode_main run_child 0xF7 e = Bad f -> cause 0xF7 e f.
Proof.
  intros He H. change (decode_main run_child 0xF7) with (op_grp3 0xF7 true) in H.
  unfold op_grp3 in H. rewrite fetch8_bind in H by done. cbv zeta in H.
  pose proof (after_fetch_wf e He) as He1.
  destruct (decide (Z.land (Z.shiftr (next_byte e) 3) 7 = 7)) as [E7|E7].
  - rewrite E7 in H. unfold grp3_idiv in H. apply bind_Bad in H as [H|(v & e2 & E2 & H)].
    { apply (keeps_no_fault (fun _ => True)) in H; [done|done|]. intros; apply keeps_rm_read. }
    cbv zeta in H.
    pose proof (frames_rm_read AX (next_byte e) true ltac:(done) (after_fetch e)) as Fa.
    pose proof (frames_rm_read DX (next_byte e) true ltac:(done) (after_fetch e)) as Fd.
    rewrite E2 in Fa, Fd. rewrite after_fetch_reg in Fa, Fd by done.
    destruct (s16 v =? 0); [done|]. rewrite !getr_bind, Fa, Fd in H.
    destruct ((_ =? - 2 ^ 31) && _) eqn:Em; [|done].
    apply andb_true_iff in Em as [Em%Z.eqb_eq _].
    injection H as <-. apply min_dividend in Em as [??]; [|apply He..]. by apply cause_idiv.
  - apply (keeps_no_fault code) in H; [done|done|]. intros F.
    assert (0 <= Z.land (Z.shiftr (next_byte e) 3) 7 < 8) as Hb.
    { change 7 with (Z.ones 3). rewrite Z.land_ones by lia. by apply Z.mod_pos_bound. }
    set (x := Z.land _ 7) in *. clearbody x.
    assert (x = 0 \/ x = 1 \/ x = 2 \/ x = 3 \/ x = 4 \/ x = 5 \/ x = 6) as Hx by lia.
    destruct_or! Hx; subst x; try (apply keeps_done; keep). apply keeps_grp3_div.
Qed.

Hypothesis run_child_keeps : runs_ok (fun _ => True) run_child.

Lemma cause_of_int e f : wf e -> decode_main run_child 0xCD e = Bad f -> cause 0xCD e f.
Proof.
  intros He H. change (decode_main run_child 0xCD) with (op_int run_child) in H.
  unfold op_int in H. rewrite fetch8_bind in H by done.
  pose proof (after_fetch_wf e He) as He1. unfold int_vector in H.
  destruct (Z.eqb_spec (next_byte e) 0x10) as [E|_].
  { apply done_Bad in H. unfold int10 in H. rewrite !getr_bind, !after_fetch_reg in H by done.
    apply (keeps_fault (fun f => f = FBounds /\ int10_wild (ah_of e)) (fun _ => True)) in H; [|done|].
    - destruct H as [-> ?]. by apply cause_video.
    - apply keeps_int10_fn. by intros. }
  destruct (Z.eqb_spec (next_byte e) 0x16) as [E|_].
  { apply done_Bad, (keeps_no_fault (fun _ => True)) in H; [done|done|intros; keep]. }
  destruct (Z.eqb_spec (next_byte e) 0x20) as [E|_]; [done|].
  destruct (Z.eqb_spec (next_byte e) 0x21) as [E|_].
  { apply bind_Bad in H as [H|(? & ? & _ & H)]; [|done].
    unfold int21 in H. rewrite !getr_bind, !after_fetch_reg in H by done.
    apply (keeps_fault (fun f => ah_of e = 0x4B) (fun _ => True)) in H; [|done|].
    - by apply cause_exec.
    - apply keeps_int21_fn. intros Ea. split; [done|]. intros x Hx. specialize (run_child_keeps x Hx). by destruct (run_child x). }
  apply (keeps_no_fault code) in H; [done|done|]. intros F.
  do 2 (eapply keeps_bind; [apply keeps_rd16|intros ? _]). apply keeps_done. keep.
Qed.

Lemma decode_cause op e f : wf e -> decode_main run_child op e = Bad f -> cause op e f.
Proof.
  intros He H.
  destruct (decide (op = 0xCD)) as [->|]; [by apply cause_of_int|].
  destruct (decide (op = 0xD4)) as [->|]; [by apply cause_of_aam|].
  destruct (decide (op = 0xF7)) as [->|]; [by apply cause_of_grp3|].
  destruct (decide (op = 0xF1)) as [->|].
  - apply (keeps_fault (eq FBounds) code) in H; [|done|by apply keeps_op_hostcall].
    subst. by apply cause_hostcall.
  - apply (keeps_no_fault code) in H; [done|done|]. intros. by apply keeps_decode_tame.
Qed.

Lemma keeps_decode op : keeps (fun _ => True) code (decode_main run_child op).
Proof.
  destruct (decide (op = 0xCD)) as [->|].
  { eapply keeps_bind; [apply keeps_fetch8|]. intros vec _. unfold int_vector.
    repeat (apply keeps_if; intros _).
    - by apply keeps_done, keeps_int10.
    - apply keeps_done, keeps_int16.
    - do 2 keep1. keep. by right.
    - apply (keeps_bind _ (fun _ => True)); [by apply keeps_int21|intros].
      eapply keeps_bind; [by apply (keeps_gets _ (fun _ => True))|]. intros [] _; keep; [by left|by right].
    - do 2 (eapply keeps_bind; [apply keeps_rd16|intros ? _]). apply keeps_done. keep. }
  destruct (decide (op = 0xD4)) as [->|]; [by apply keeps_done, keeps_op_ascii|].
  destruct (decide (op = 0xF7)) as [->|]; [by apply keeps_op_grp3|].
  destruct (decide (op = 0xF1)) as [->|]; [by apply keeps_op_hostcall|].
  by apply keeps_decode_tame.
Qed.
End faults.
