(* ===== verification/DosRun.v ===== *)
(** * The 8086 interpreter: stepping and running

    The prefix loop, one instruction, and the run loop: it ends, within its
    cap of steps, in a machine that is no longer running, unless an
    instruction faults; and a faulting instruction has one of the causes of
    [DosFault]. *)

From S2P Require Import Prelude Dos DosInt DosStep DosWf DosCon DosSafe DosFault.
Open Scope Z_scope.

Section prefixes.
Context {HO : Host}.
Implicit Types e : emu.

Definition is_prefix (b : Z) : bool :=
  existsb (Z.eqb b) [0x26; 0x2E; 0x36; 0x3E; 0xF0; 0xF2; 0xF3].
(** The byte [n] places past the instruction pointer. *)
Definition code_at e (n : Z) : Z := mem e (cell (regs e CS) (u16 (regs e IP + n))).

(** [e'] is [e] after the [n] bytes at CS:IP have been fetched. *)
Record scanned (n : Z) e e' : Prop := {
  sc_mem : mem e' = mem e;
  sc_regs : forall r, r <> IP -> regs e' r = regs e r;
  sc_ip : regs e' IP = u16 (regs e IP + n);
  sc_good : good e e' }.

Lemma u16_add a b : u16 (u16 a + b) = u16 (a + b).
Proof. unfold wrap. apply Zplus_mod_idemp_l. Qed.

Lemma scanned_0 e : wf e -> scanned 0 e e.
Proof.
  intros He. split; [done|done| |by apply good_refl].
  rewrite Z.add_0_r, wrap_id; [done|]. apply He.
Qed.
Lemma scanned_add a b e e1 e2 : scanned a e e1 -> scanned b e1 e2 -> scanned (a + b) e e2.
Proof.
  intros [] []. split; [congruence| | |by eapply good_trans].
  - intros r Hr. rewrite sc_regs1, sc_regs0; done.
  - rewrite sc_ip1, sc_ip0, u16_add. f_equal. lia.
Qed.
Lemma scanned_code n e e' k : scanned n e e' -> code_at e' k = code_at e (n + k).
Proof.
  intros []. unfold code_at. rewrite sc_mem0, (sc_regs0 CS), sc_ip0, u16_add by done.
  do 2 f_equal. f_equal. lia.
Qed.
Lemma next_byte_code e : wf e -> next_byte e = code_at e 0.
Proof.
  intros He. unfold next_byte, code_at. rewrite Z.add_0_r, wrap_id; [done|]. apply He.
Qed.
Lemma after_fetch_scanned e : wf e -> scanned 1 e (after_fetch e).
Proof.
  intros He. split; [done|intros; by apply after_fetch_reg|done|].
  split; [by apply after_fetch_wf|done].
Qed.
Lemma set_prefixes_scanned n e e' s r :
  scanned n e e' -> 0 <= s <= 4 -> 0 <= r <= 2 -> scanned n e (set_prefixes s r e').
Proof.
  intros [] ??. split; [done..|]. eapply good_trans; [done|]. apply good_set_prefixes; [apply sc_good0|done..].
Qed.

Lemma prefix_round_spec e :
  wf e ->
  match prefix_round e with
  | Ok (Some op) e' => op = code_at e 0 /\ is_prefix op = false /\ scanned 1 e e'
  | Ok None e' => is_prefix (code_at e 0) = true /\ scanned 1 e e'
  | Bad _ => False
  end.
Proof.
  intros He. unfold prefix_round. rewrite fetch8_bind, next_byte_code by done.
  pose proof (after_fetch_scanned e He) as Hs. pose proof (wf_pfx e He) as [Hp1 Hp2].
  set (b := code_at e 0). clearbody b.
  destruct (is_prefix b) eqn:Eb.
  - unfold is_prefix, existsb in Eb. rewrite !orb_true_iff, !Z.eqb_eq in Eb.
    destruct_or! Eb; try subst b; try done; (split; [done|]); try exact Hs;
      apply set_prefixes_scanned; (done || lia).
  - unfold is_prefix, existsb in Eb. rewrite !orb_false_iff, !Z.eqb_neq in Eb. destruct_and! Eb.
    assert (match (match b with
      | 0x26 => set_seg_prefix 1;; mret None | 0x2E => set_seg_prefix 2;; mret None
      | 0x36 => set_seg_prefix 3;; mret None | 0x3E => set_seg_prefix 4;; mret None
      | 0xF0 => mret None | 0xF2 => set_rep_prefix 2;; mret None | 0xF3 => set_rep_prefix 1;; mret None
      | _ => mret (Some b) end : M (option Z)) (after_fetch e) with
      | Ok (Some op) e' => op = b /\ scanned 1 e e' | _ => False end) as Hm
      by (destruct b as [|p|p]; [done| |done]; do 8 try (destruct p as [p|p|]; try done)).
    destruct (_ (after_fetch e)) as [[op|] e'|]; [|done|done]. destruct Hm as [-> ?].
    split_and!; [done| |done]. unfold is_prefix, existsb. rewrite !orb_false_iff, !Z.eqb_neq. naive_solver.
Qed.

(** [m] looks at up to [N] bytes: it returns the first that is no prefix, or
    has passed over [N] prefixes. *)
Definition scans (N : Z) (m : M (option Z)) : Prop := forall e, wf e ->
  match m e with
  | Ok (Some op) e' => exists n, 0 <= n < N /\ op = code_at e n /\ is_prefix op = false /\
      (forall k, 0 <= k < n -> is_prefix (code_at e k) = true) /\ scanned (n + 1) e e'
  | Ok None e' => (forall k, 0 <= k < N -> is_prefix (code_at e k) = true) /\ scanned N e e'
  | Bad _ => False
  end.

Lemma scans_round : scans 1 prefix_round.
Proof.
  intros e He. pose proof (prefix_round_spec e He) as H.
  destruct (prefix_round e) as [[op|] e'|]; [|destruct H as [Hp Hs]; split; [|done]|done].
  - destruct H as (-> & Hp & Hs). exists 0. split_and!; try done; intros; lia.
  - intros k Hk. by replace k with 0 by lia.
Qed.

Lemma scans_seq a b m m' :
  0 <= a -> 0 <= b -> scans a m -> scans b m' ->
  scans (a + b) (r ← m; match r with Some x => mret (Some x) | None => m' end).
Proof.
  intros Ha Hb Hm Hm' e He. unfold mbind, M_bind. specialize (Hm e He).
  destruct (m e) as [[op|] e1|]; [| |done].
  { destruct Hm as (n & Hn & ? & ? & Hk & Hs). cbn. exists n. split_and!; [lia|lia|done..]. }
  destruct Hm as [Hk Hs]. specialize (Hm' e1 (proj1 (sc_good _ _ _ Hs))).
  assert (forall n, (forall k, 0 <= k < n -> is_prefix (code_at e1 k) = true) ->
    forall k, 0 <= k < a + n -> is_prefix (code_at e k) = true) as Hall.
  { intros n Hn k Hk'. destruct (Z.lt_ge_cases k a); [by apply Hk; lia|].
    replace k with (a + (k - a)) by lia. rewrite <- (scanned_code _ _ _ _ Hs). apply Hn. lia. }
  destruct (m' e1) as [[op|] e2|]; [| |done].
  - destruct Hm' as (n & Hn & -> & ? & Hk' & Hs'). exists (a + n).
    split_and!; [lia|lia|by apply scanned_code|done|by apply Hall|].
    replace (a + n + 1) with (a + (n + 1)) by lia. by eapply scanned_add.
  - destruct Hm' as [Hk' Hs']. split; [by apply Hall|by eapply scanned_add].
Qed.

Lemma scans_iterate p : scans (Z.pos p) (iterate p prefix_round).
Proof.
  induction p as [p IH|p IH|]; cbn [iterate]; [| |apply scans_round].
  - rewrite Pos2Z.inj_xI. replace (2 * Z.pos p + 1) with (1 + (Z.pos p + Z.pos p)) by lia.
    apply scans_seq; [lia|lia|apply scans_round|]. by apply scans_seq.
  - rewrite Pos2Z.inj_xO. replace (2 * Z.pos p) with (Z.pos p + Z.pos p) by lia. by apply scans_seq.
Qed.

Definition read_prefixes : M Z := modify (set_prefixes 0 0);; loop PREFIX_FUEL prefix_round.

(** The prefix loop ends at the first byte that is no prefix; when the whole
    segment is prefixes it never ends. *)
Lemma read_prefixes_spec e :
  wf e ->
  match read_prefixes e with
  | Ok op e' => exists n, 0 <= n < 65536 /\ op = code_at e n /\ is_prefix op = false /\
      (forall k, 0 <= k < n -> is_prefix (code_at e k) = true) /\ scanned (n + 1) e e'
  | Bad f => f = FLoop /\ forall k, is_prefix (code_at e k) = true
  end.
Proof.
  intros He. unfold read_prefixes, mbind, M_bind, modify, loop.
  pose proof (set_prefixes_scanned 0 e e 0 0 (scanned_0 e He) ltac:(lia) ltac:(lia)) as Hs0.
  set (e0 := set_prefixes 0 0 e) in *.
  assert (forall k, code_at e0 k = code_at e k) as Hc
    by (intros k; by rewrite (scanned_code _ _ _ _ Hs0)).
  pose proof (scans_iterate PREFIX_FUEL e0 (proj1 (sc_good _ _ _ Hs0))) as H.
  unfold mbind, M_bind. destruct (iterate PREFIX_FUEL prefix_round e0) as [[op|] e1|]; [| |done].
  - destruct H as (n & Hn & -> & Hp & Hk & Hs). cbn. exists n. change (Z.pos PREFIX_FUEL) with 65536 in Hn.
    split_and!; [lia|lia|done|done| |].
    + intros k Hk'. rewrite <- Hc. by apply Hk.
    + replace (n + 1) with (0 + (n + 1)) by lia. by eapply scanned_add.
  - destruct H as [Hk _]. split; [done|]. intros k. rewrite <- Hc.
    replace (code_at e0 k) with (code_at e0 (k mod 65536)).
    + apply Hk. change (Z.pos PREFIX_FUEL) with 65536. by apply Z.mod_pos_bound.
    + unfold code_at. do 2 f_equal. unfold wrap. change (2 ^ 16) with 65536. apply Zplus_mod_idemp_r.
Qed.
End prefixes.

Section run.
Context {HO : Host} (run_child : M WubuDosEmuState).
Hypothesis run_child_keeps : runs_ok (fun _ => True) run_child.
Implicit Types e : emu.

Lemma step_unfold e : step run_child e = (op ← read_prefixes; decode_main run_child op) e.
Proof.
  unfold step, read_prefixes, mbind, M_bind. destruct (modify _ e); [|done].
  by destruct (loop _ _ _).
Qed.

(** ** One instruction *)

(** What makes an instruction undefined: a segment of nothing but prefixes, or
    one of the causes at the opcode after the [n] prefixes. *)
Definition step_cause e f : Prop :=
  f = FLoop /\ (forall k, is_prefix (code_at e k) = true) \/
  exists n e', 0 <= n < 65536 /\ is_prefix (code_at e n) = false /\
    (forall k, 0 <= k < n -> is_prefix (code_at e k) = true) /\
    scanned (n + 1) e e' /\ cause (code_at e n) e' f.

Lemma step_spec e :
  wf e ->
  match step run_child e with
  | Ok r e' => good e e' /\ code r
  | Bad f => step_cause e f
  end.
Proof.
  intros He. rewrite step_unfold. pose proof (read_prefixes_spec e He) as H.
  unfold mbind, M_bind. destruct (read_prefixes e) as [op e1|f]; [|by left].
  destruct H as (n & Hn & -> & Hp & Hk & Hs). pose proof (proj1 (sc_good _ _ _ Hs)) as He1.
  pose proof (keeps_decode run_child run_child_keeps (code_at e n) e1 He1) as Hd.
  destruct (decode_main run_child (code_at e n) e1) as [r e2|f] eqn:E.
  - destruct Hd as [Hg Hr]. split; [|done]. eapply good_trans; [apply Hs|done].
  - right. exists n, e1. split_and!; try done; try lia. by apply (decode_cause run_child).
Qed.

(** ** A negative result means the machine has stopped *)

Definition stops (m : M Z) : Prop := forall e r e',
  m e = Ok r e' -> r < 0 -> state e' <> WUBU_DOS_RUNNING.

Lemma stops_done m : stops (done m).
Proof. intros e r e'. unfold done, mbind, M_bind, mret, M_ret. destruct (m e); naive_solver lia. Qed.
Lemma stops_ret r : 0 <= r -> stops (mret r).
Proof. intros Hr e r' e'. unfold mret, M_ret. intros [= <- <-]. lia. Qed.
Lemma stops_bind {A} (m : M A) k : (forall a, stops (k a)) -> stops (mbind k m).
Proof. intros Hk e r e'. unfold mbind, M_bind. destruct (m e); [apply Hk|done]. Qed.
Lemma stops_halt : stops halt_error.
Proof. intros e r e'. unfold halt_error. cbn. by intros [= <- <-]. Qed.
Lemma stops_if (b : bool) m n : stops m -> stops n -> stops (if b then m else n).
Proof. by destruct b. Qed.

Lemma stops_range op w : stops (decode_range op w).
Proof. unfold decode_range. repeat (apply stops_if; [apply stops_done|]). apply stops_halt. Qed.
Lemma stops_int : stops (op_int run_child).
Proof.
  apply stops_bind. intros vec. unfold int_vector. repeat (apply stops_if; [|]).
  - apply stops_done.
  - apply stops_done.
  - intros e r e'. cbn. by intros [= <- <-].
  - apply stops_bind. intros _ e r e'. unfold is_running, gets, mbind, M_bind, mret, M_ret.
    case_bool_decide; intros [= <- <-]; [lia|done].
  - do 2 (apply stops_bind; intros). apply stops_done.
Qed.
Lemma stops_hostcall : stops op_hostcall.
Proof.
  unfold op_hostcall. do 4 (apply stops_bind; intros).
  repeat (apply stops_if; [apply stops_done|]). apply stops_halt.
Qed.
Lemma stops_grp3 op w : stops (op_grp3 op w).
Proof.
  apply stops_bind. intros m. cbv zeta.
  assert (stops (grp3_div m w)) as Hd.
  { apply stops_bind. intros d. apply stops_if; [apply stops_halt|]. do 2 (apply stops_bind; intros).
    destruct w; repeat (apply stops_bind; intros); by apply stops_ret. }
  assert (stops (grp3_idiv m w)) as Hi.
  { apply stops_bind. intros d. cbv zeta. apply stops_if; [apply stops_halt|].
    do 2 (apply stops_bind; intros). destruct w; [apply stops_if; [done|]|];
      repeat (apply stops_bind; intros); by apply stops_ret. }
  repeat case_match; first [apply stops_done|assumption].
Qed.

Ltac stops_leaf :=
  lazymatch goal with
  | |- stops (decode_range _ _) => apply stops_range
  | |- stops halt_error => apply stops_halt
  | |- stops (mret 0) => by apply stops_ret
  | |- stops (done _) => apply stops_done
  | |- stops (op_grp3 _ _) => apply stops_grp3
  | |- stops (op_int _) => apply stops_int
  | |- stops op_hostcall => apply stops_hostcall
  | |- stops (if _ then _ else _) => apply stops_if; stops_leaf
  | |- stops (mbind _ _) => apply stops_bind; intros; stops_leaf
  end.

Lemma stops_decode op : stops (decode_main run_child op).
Proof.
  unfold decode_main. cbv zeta.
  do 2 (apply stops_if; [apply stops_done|]).
  destruct op as [|p|p]; [apply stops_range| |apply stops_range].
  do 8 try (destruct p as [p|p|]); stops_leaf.
Qed.

Lemma stops_step : stops (step run_child).
Proof.
  intros e r e'. rewrite step_unfold. apply stops_bind. intros. apply stops_decode.
Qed.

(** ** The run loop *)

(** [e'] is a state the run loop with cap [cap] gets to from [e]. *)
Inductive reaches (cap : Z) : emu -> emu -> Prop :=
| reaches_refl e : reaches cap e e
| reaches_step e e1 r e2 :
    reaches cap e e1 -> state e1 = WUBU_DOS_RUNNING -> steps e1 < cap ->
    step run_child e1 = Ok r e2 -> 0 <= r -> reaches cap e (set_steps (steps e1 + 1) e2).

(** A run that ends: stopped, with every step counted and at most [cap] of them. *)
Definition run_ends (cap : Z) e e' : Prop :=
  wf e' /\ state e' <> WUBU_DOS_RUNNING /\ steps e <= steps e' <= Z.max (steps e) cap.
(** A run that faults: at an instruction it reaches, for one of the causes. *)
Definition run_faults (cap : Z) e f : Prop :=
  exists e1, reaches cap e e1 /\ wf e1 /\ state e1 = WUBU_DOS_RUNNING /\ step_cause e1 f.

Lemma run_round_spec cap e0 e :
  fits 64 cap -> reaches cap e0 e -> wf e -> steps e0 <= steps e <= Z.max (steps e0) cap ->
  match run_round run_child cap e with
  | Ok None e' => (reaches cap e0 e' /\ wf e' /\ steps e0 <= steps e' <= Z.max (steps e0) cap) /\
      Z.max 0 (cap - steps e') < Z.max 0 (cap - steps e)
  | Ok (Some _) e' => run_ends cap e0 e'
  | Bad f => run_faults cap e0 f
  end.
Proof.
  intros Hcap Hr He Hs. unfold run_round, is_running, gets, mbind, M_bind.
  case_bool_decide as Hrun; cbn [negb]; [|done].
  destruct (Z.leb_spec cap (steps e)) as [Hc|Hc].
  { split_and!; cbn; try done; try lia. by apply wf_set_state. }
  pose proof (step_spec e He) as H. destruct (step run_child e) as [r e1|f] eqn:E; [|by exists e].
  destruct H as [[He1 Hst] Hcode]. unfold count_step, modify, mret, M_ret.
  assert (u64 (steps e1 + 1) = steps e + 1) as Hu.
  { rewrite wrap_id; [lia|]. pose proof (wf_steps e He). unfold_fits. lia. }
  rewrite Hu.
  assert (wf (set_steps (steps e + 1) e1)) as Hwf.
  { apply wf_set_steps; [done|]. pose proof (wf_steps e He). unfold_fits. lia. }
  destruct (Z.ltb_spec r 0).
  - split_and!; cbn; try done; try lia. by eapply stops_step.
  - split; [|cbn; lia]. split_and!; cbn; try done; try lia. by eapply reaches_step.
Qed.

Lemma run_loop_spec max_steps e :
  fits 64 max_steps -> wf e ->
  match run_loop run_child max_steps e with
  | Ok s e' => s = state e' /\ run_ends (hard_cap max_steps) e e'
  | Bad f => run_faults (hard_cap max_steps) e f
  end.
Proof.
  intros Hm He. set (cap := hard_cap max_steps).
  assert (fits 64 cap /\ 0 < cap) as [Hcap Hpos].
  { unfold cap, hard_cap. unfold_fits. bcase; lia. }
  unfold run_loop. fold cap. unfold mbind, M_bind, gets.
  pose proof (loop_rule (run_faults cap e)
    (fun x => reaches cap e x /\ wf x /\ steps e <= steps x <= Z.max (steps e) cap)
    (fun x => Z.max 0 (cap - steps x)) (fun _ x => run_ends cap e x)
    (run_round run_child cap) (Z.to_pos (cap + 1))) as H.
  specialize (H ltac:(intros; lia)).
  specialize (H ltac:(intros x (Hr & Hx & Hs); by apply run_round_spec) e).
  assert (match loop (Z.to_pos (cap + 1)) (run_round run_child cap) e with
    | Ok _ e' => run_ends cap e e' | Bad f => run_faults cap e f end) as Hl.
  { apply H; [split_and!; [apply reaches_refl|done|lia|lia]|].
    rewrite Z2Pos.id by lia. pose proof (wf_steps e He). unfold_fits. lia. }
  by destruct (loop _ _ e).
Qed.
End run.

Lemma run_ok `{Host} depth max_steps :
  fits 64 max_steps -> runs_ok (fun _ => True) (wubu_dos_emu_run depth max_steps).
Proof.
  revert max_steps; induction depth as [|d IH]; intros max_steps Hm e He; cbn [wubu_dos_emu_run];
  match goal with |- context [run_loop ?rc _ _] => pose proof (run_loop_spec rc) as Hl end.
  - specialize (Hl ltac:(done) max_steps e Hm He). destruct (run_loop _ _ _); [apply Hl|done].
  - specialize (Hl ltac:(apply IH; done) max_steps e Hm He). destruct (run_loop _ _ _); [apply Hl|done].
Qed.
