(* ===== verification/DosAlu.v ===== *)
(** * The 8086 interpreter: the arithmetic unit

    Addition, subtraction and the logical operations set the flags of the 8086
    manual, stated without bit tricks; the conditional jumps read them back as
    the signed and unsigned comparisons. *)

From S2P Require Import Prelude Dos DosInt DosStep DosWf DosCon DosSafe DosFault.
Open Scope Z_scope.

(** ** Bits *)

Lemma land_pow2 x n : 0 <= n -> (Z.land x (2 ^ n) =? 0) = negb (Z.testbit x n).
Proof.
  intros Hn. destruct (Z.testbit x n) eqn:E; cbn [negb].
  - apply Z.eqb_neq. intros H. apply (f_equal (fun y => Z.testbit y n)) in H.
    rewrite Z.land_spec, Z.bits_0, Z.pow2_bits_true, E in H by lia. done.
  - apply Z.eqb_eq. apply Z.bits_inj'. intros k Hk. rewrite Z.land_spec, Z.bits_0.
    destruct (decide (k = n)) as [->|]; [by rewrite E|].
    rewrite Z.pow2_bits_false by lia. apply andb_false_r.
Qed.

(** The top bit of a number below [2 ^ (n + 1)]. *)
Lemma top_bit x n : 0 <= n -> fits (n + 1) x -> negb (Z.land x (2 ^ n) =? 0) = (2 ^ n <=? x).
Proof.
  intros Hn Hx. rewrite land_pow2, negb_involutive by lia.
  unfold fits in Hx. rewrite Z.pow_add_r, Z.pow_1_r in Hx by lia.
  assert (0 < 2 ^ n) by (apply Z.pow_pos_nonneg; lia).
  destruct (Z.leb_spec (2 ^ n) x).
  - apply Z.testbit_true; [lia|]. replace (x / 2 ^ n) with 1; [done|].
    apply Z.div_unique with (x - 2 ^ n); lia.
  - apply Z.testbit_false; [lia|]. by rewrite Z.div_small by lia.
Qed.

Lemma high_part x n : 0 <= n -> fits (n + 1) x -> negb (Z.shiftr x n =? 0) = (2 ^ n <=? x).
Proof.
  intros Hn Hx. rewrite Z.shiftr_div_pow2 by lia.
  unfold fits in Hx. rewrite Z.pow_add_r, Z.pow_1_r in Hx by lia.
  assert (0 < 2 ^ n) by (apply Z.pow_pos_nonneg; lia).
  destruct (Z.leb_spec (2 ^ n) x).
  - by replace (x / 2 ^ n) with 1 by (apply Z.div_unique with (x - 2 ^ n); lia).
  - by rewrite Z.div_small by lia.
Qed.

(** The number of ones among the low eight bits. *)
Definition ones8 (v : Z) : nat := length (filter (fun i => Z.testbit v i = true) (seqZ 0 8)).

Lemma parity8_spec v : parity8 v = Nat.even (ones8 v).
Proof.
  unfold parity8, ones8. cbn [parity_loop].
  assert (forall i, 0 <= i -> Z.land (Z.shiftr v i) 1 = b2z (Z.testbit v i)) as Hb.
  { intros i Hi. change 1 with (Z.ones 1) at 1. rewrite Z.land_ones by lia.
    change (2 ^ 1) with 2. rewrite Zmod_odd, <- Z.bit0_odd, Z.shiftr_spec, Z.add_0_l by lia. done. }
  rewrite !Hb by lia. change (seqZ 0 8) with [0; 1; 2; 3; 4; 5; 6; 7].
  change (0 + 1) with 1; change (1 + 1) with 2; change (2 + 1) with 3; change (3 + 1) with 4;
    change (4 + 1) with 5; change (5 + 1) with 6; change (6 + 1) with 7.
  rewrite !filter_cons, filter_nil.
  destruct (Z.testbit v 0), (Z.testbit v 1), (Z.testbit v 2), (Z.testbit v 3), (Z.testbit v 4),
    (Z.testbit v 5), (Z.testbit v 6), (Z.testbit v 7); reflexivity.
Qed.

(** ** The flags register *)

Definition flag `{Host} (b : Z) (e : emu) : bool := negb (Z.land (regs e FLAGS) b =? 0).
Definition all_flags : list Z := [F_CF; F_PF; F_AF; F_ZF; F_SF; F_TF; F_IF; F_DF; F_OF].

(** [e'] differs from [e] in the flags register only. *)
Definition only_flags `{Host} (e e' : emu) : Prop :=
  (forall r, r <> FLAGS -> regs e' r = regs e r) /\ exists rs, e' = set_regs rs e.

Section flags.
Context {HO : Host}.
Implicit Types e : emu.

Lemma only_flags_refl e : only_flags e e.
Proof. split; [done|]. exists (regs e). by destruct e. Qed.
Lemma only_flags_trans e1 e2 e3 : only_flags e1 e2 -> only_flags e2 e3 -> only_flags e1 e3.
Proof.
  intros [H1 [r1 E1]] [H2 [r2 E2]]. split.
  - intros r Hr. by rewrite H2, H1.
  - exists r2. subst. done.
Qed.

Lemma setF_spec b v e :
  b ∈ all_flags ->
  exists e', setF b v e = Ok tt e' /\ only_flags e e' /\ flag b e' = v /\
    forall b', b' ∈ all_flags -> b' <> b -> flag b' e' = flag b' e.
Proof.
  intros Hb. eexists. split; [reflexivity|]. split.
  { split; [|by eexists]. intros r Hr. cbn. unfold upd. by rewrite decide_False. }
  unfold flag. cbn -[wrap all_flags]. unfold upd. rewrite decide_True by done.
  assert (forall x c, fits 16 c -> Z.land (u16 x) c = Z.land x c) as Hw.
  { intros x c Hc. unfold wrap. rewrite <- Z.land_ones by lia.
    rewrite <- Z.land_assoc, (Z.land_comm (Z.ones 16)), (Z.land_ones c), Z.mod_small by (done || lia).
    done. }
  assert (forall c, c ∈ all_flags -> fits 16 c) as Hf.
  { intros c Hc. unfold all_flags in Hc. repeat (apply elem_of_cons in Hc as [->|Hc]; [done|]).
    by apply elem_of_nil in Hc. }
  split.
  - rewrite Hw by auto. unfold all_flags in Hb. destruct v.
    + rewrite Z.land_lor_distr_l, Z.land_diag. apply negb_true_iff, Z.eqb_neq.
      intros [_ H0]%Z.lor_eq_0_iff. revert H0.
      repeat (apply elem_of_cons in Hb as [->|Hb]; [done|]). by apply elem_of_nil in Hb.
    + rewrite <- Z.land_assoc. apply negb_false_iff, Z.eqb_eq.
      repeat (apply elem_of_cons in Hb as [->|Hb]; [apply Z.land_0_r|]). by apply elem_of_nil in Hb.
  - intros b' Hb' Hne. rewrite Hw by auto. do 2 f_equal. unfold all_flags in Hb, Hb'. destruct v.
    + rewrite Z.land_lor_distr_l. enough (Z.land b b' = 0) as -> by apply Z.lor_0_r.
      repeat (apply elem_of_cons in Hb as [->|Hb]; [|]); try (by apply elem_of_nil in Hb).
      all: repeat (apply elem_of_cons in Hb' as [->|Hb']; [done|]); by apply elem_of_nil in Hb'.
    + rewrite <- Z.land_assoc. f_equal.
      repeat (apply elem_of_cons in Hb as [->|Hb]; [|]); try (by apply elem_of_nil in Hb).
      all: repeat (apply elem_of_cons in Hb' as [->|Hb']; [done|]); by apply elem_of_nil in Hb'.
Qed.

(** The six arithmetic flags, the others as they were. *)
Record arith_flags (cf pf af zf sf of_ : bool) e e' : Prop := {
  af_frame : only_flags e e';
  af_cf : flag F_CF e' = cf;
  af_pf : flag F_PF e' = pf;
  af_af : flag F_AF e' = af;
  af_zf : flag F_ZF e' = zf;
  af_sf : flag F_SF e' = sf;
  af_of : flag F_OF e' = of_;
  af_rest : forall b, b ∈ [F_TF; F_IF; F_DF] -> flag b e' = flag b e }.

(** Assignments to distinct flags, then [k]. *)
Lemma set_flags {A} (l : list Z) (f : Z -> bool) (k : M A) : forall e,
  NoDup l -> l ⊆ all_flags ->
  exists e', foldr (fun b (m : M A) => setF b (f b);; m) k l e = k e' /\ only_flags e e' /\
    (forall b, b ∈ l -> flag b e' = f b) /\
    (forall b, b ∈ all_flags -> b ∉ l -> flag b e' = flag b e).
Proof.
  induction l as [|b l IH]; intros e Hd Hl; cbn [foldr].
  { exists e. split_and!; [done|apply only_flags_refl|by intros ? ?%elem_of_nil|done]. }
  apply NoDup_cons in Hd as [Hb Hd].
  assert (b ∈ all_flags /\ l ⊆ all_flags) as [Hb' Hl'] by set_solver. clear Hl.
  destruct (setF_spec b (f b) e Hb') as (e1 & E1 & F1 & V1 & R1).
  destruct (IH e1 Hd Hl') as (e2 & E2 & F2 & V2 & R2).
  exists e2. unfold mbind, M_bind. rewrite E1. split_and!; [done|by eapply only_flags_trans| |].
  - intros c [->|Hc]%elem_of_cons; [|by apply V2]. by rewrite R2.
  - intros c Hc Hn. apply not_elem_of_cons in Hn as [??]. by rewrite R2, R1.
Qed.

Lemma six_flags {A} c z s a o p (r : A) e :
  exists e', (setF F_CF c;; setF F_ZF z;; setF F_SF s;; setF F_AF a;; setF F_OF o;; setF F_PF p;; mret r) e =
    Ok r e' /\ arith_flags c p a z s o e e'.
Proof.
  pose (f := fun b => if b =? F_CF then c else if b =? F_ZF then z else if b =? F_SF then s else
    if b =? F_AF then a else if b =? F_OF then o else p).
  destruct (set_flags [F_CF; F_ZF; F_SF; F_AF; F_OF; F_PF] f (mret r) e) as (e' & E & Fr & V & R).
  { by apply (bool_decide_unpack _). }
  { by apply (bool_decide_unpack _). }
  exists e'. split; [exact E|].
  constructor; [done|rewrite V; [done|set_solver]..|]. intros b Hb. apply R; unfold all_flags.
  - set_solver.
  - intros H. by set_unfold in Hb; set_unfold in H; destruct_or! Hb; subst; destruct_or! H.
Qed.

Lemma logic_flags v s p e :
  exists e', (setF F_CF false;; setF F_OF false;; setF F_AF false;;
    setF F_ZF (v =? 0);; setF F_SF s;; setF F_PF p) e = Ok tt e' /\
    arith_flags false p false (v =? 0) s false e e'.
Proof.
  pose (f := fun b => if b =? F_ZF then v =? 0 else if b =? F_SF then s else if b =? F_PF then p else false).
  destruct (set_flags [F_CF; F_OF; F_AF; F_ZF; F_SF] f (setF F_PF p) e) as (e1 & E & Fr & V & R).
  { by apply (bool_decide_unpack _). }
  { by apply (bool_decide_unpack _). }
  destruct (setF_spec F_PF p e1 ltac:(unfold all_flags; set_solver)) as (e' & E' & Fr' & V' & R').
  exists e'. split; [rewrite <- E'; exact E|].
  constructor; [by eapply only_flags_trans|..|].
    2: exact V'.
    1-5: rewrite R', V; [done|set_solver|unfold all_flags; set_solver|done].
    intros b Hb. rewrite R', R.
    + done.
    + unfold all_flags; set_solver.
    + intros H. by set_unfold in Hb; set_unfold in H; destruct_or! Hb; subst; destruct_or! H.
    + unfold all_flags; set_solver.
    + by set_unfold in Hb; destruct_or! Hb; subst.
Qed.
End flags.

(** ** The reference arithmetic unit

    The result and the flags of an operation on [w]-bit operands. *)
Inductive aop := ADD | OR | ADC | SBB | AND | SUB | XOR | CMP.
Definition aop_code (o : aop) : Z :=
  match o with ADD => 0 | OR => 1 | ADC => 2 | SBB => 3 | AND => 4 | SUB => 5 | XOR => 6 | CMP => 7 end.

Record verdict := { v_res : Z; v_cf : bool; v_af : bool; v_of : bool }.
Definition ref_add (w a b : Z) (c : bool) : verdict :=
  {| v_res := (a + b + b2z c) mod 2 ^ w;
     v_cf := 2 ^ w <=? a + b + b2z c;
     v_af := 16 <=? a mod 16 + b mod 16 + b2z c;
     v_of := negb (bool_decide (sfits w (swrap w a + swrap w b + b2z c))) |}.
Definition ref_sub (w a b : Z) (c : bool) : verdict :=
  {| v_res := (a - b - b2z c) mod 2 ^ w;
     v_cf := a <? b + b2z c;
     v_af := a mod 16 <? b mod 16 + b2z c;
     v_of := negb (bool_decide (sfits w (swrap w a - swrap w b - b2z c))) |}.
Definition ref_logic (r : Z) : verdict := {| v_res := r; v_cf := false; v_af := false; v_of := false |}.
Definition ref_alu (w : Z) (o : aop) (a b : Z) (cf : bool) : verdict :=
  match o with
  | ADD => ref_add w a b false | ADC => ref_add w a b cf
  | SUB | CMP => ref_sub w a b false | SBB => ref_sub w a b cf
  | AND => ref_logic (Z.land a b) | OR => ref_logic (Z.lor a b) | XOR => ref_logic (Z.lxor a b)
  end.

(** The computation returns the verdict's result and sets the flags to it:
    ZF, SF and PF are functions of the result. *)
Definition delivers `{Host} (w : Z) (v : verdict) (m : M Z) (e : emu) : Prop :=
  exists e', m e = Ok (v_res v) e' /\
    arith_flags (v_cf v) (Nat.even (ones8 (v_res v))) (v_af v) (v_res v =? 0)
                (swrap w (v_res v) <? 0) (v_of v) e e'.

Section alu.
Context {HO : Host}.
Implicit Types e : emu.

Lemma ones8_low v : ones8 (u8 v) = ones8 v.
Proof.
  unfold ones8. f_equal.
  assert (Forall (fun i => 0 <= i < 8) (seqZ 0 8)) as H by (apply Forall_seqZ; lia).
  induction H as [|i l Hi _ IH]; [done|]. rewrite !filter_cons, IH.
  unfold wrap. by rewrite Z.mod_pow2_bits_low by lia.
Qed.

Lemma nibble x : Z.land x 0xF = x mod 16.
Proof. exact (Z.land_ones x 4 ltac:(lia)). Qed.
Lemma nibble_carry x : 0 <= x < 32 -> negb (Z.land x 0x10 =? 0) = (16 <=? x).
Proof. intros Hx. by apply (top_bit x 4). Qed.

Lemma swrap_cases w x : 0 < w -> fits w x ->
  2 ^ w = 2 * 2 ^ (w - 1) /\ 0 < 2 ^ (w - 1) /\
  (swrap w x = x /\ x < 2 ^ (w - 1) \/ swrap w x = x - 2 ^ w /\ 2 ^ (w - 1) <= x).
Proof.
  intros Hw Hx. split; [rewrite <- Z.pow_succ_r by lia; f_equal; lia|].
  split; [apply Z.pow_pos_nonneg; lia|].
  unfold swrap. rewrite Z.mod_small by done. bcase; lia.
Qed.

(** The sign bit of a [w]-bit number is its signed reading's sign. *)
Lemma sign_bit w x : 0 < w -> fits w x -> negb (Z.land x (2 ^ (w - 1)) =? 0) = (swrap w x <? 0).
Proof.
  intros Hw Hx. rewrite top_bit by (lia || by replace (w - 1 + 1) with w by lia).
  destruct (swrap_cases w x Hw Hx) as (E & Hp & C). unfold fits in Hx.
  repeat bcase; try reflexivity; exfalso; lia.
Qed.

Lemma add_overflow w a b c : 0 < w -> fits w a -> fits w b ->
  let res := (a + b + b2z c) mod 2 ^ w in
  let sa := swrap w a <? 0 in let sb := swrap w b <? 0 in let sr := swrap w res <? 0 in
  (eqb sa sb && negb (eqb sr sa)) = negb (bool_decide (sfits w (swrap w a + swrap w b + b2z c))).
Proof.
  intros Hw Ha Hb res. assert (fits w res) as Hr by (apply wrap_fits; lia).
  destruct (swrap_cases w a Hw Ha) as (E & Hp & Ca). destruct (swrap_cases w b Hw Hb) as (_ & _ & Cb).
  destruct (swrap_cases w res Hw Hr) as (_ & _ & Cr).
  assert (exists q, res = a + b + b2z c - q * 2 ^ w /\ (q = 0 \/ q = 1)) as (q & Hq & Hq').
  { pose proof (Z.div_mod (a + b + b2z c) (2 ^ w) ltac:(lia)).
    exists ((a + b + b2z c) / 2 ^ w). split; [unfold res; lia|].
    unfold fits in *. assert (0 <= b2z c <= 1) by (destruct c; cbn; lia).
    assert (0 <= (a + b + b2z c) / 2 ^ w < 2); [|lia].
    split; [apply Z.div_pos; lia|apply Z.div_lt_upper_bound; lia]. }
  clearbody res. unfold fits in *. assert (0 <= b2z c <= 1) as Hc by (destruct c; cbn; lia).
  case_bool_decide as Hs; unfold sfits in Hs; cbn [negb]; cbv zeta;
    destruct (Z.ltb_spec (swrap w a) 0), (Z.ltb_spec (swrap w b) 0), (Z.ltb_spec (swrap w res) 0);
    cbn; try done; exfalso; destruct Hq' as [-> | ->]; lia.
Qed.

Lemma sub_overflow w a b c : 0 < w -> fits w a -> fits w b ->
  let res := (a - b - b2z c) mod 2 ^ w in
  let sa := swrap w a <? 0 in let sb := swrap w b <? 0 in let sr := swrap w res <? 0 in
  (negb (eqb sa sb) && negb (eqb sr sa)) = negb (bool_decide (sfits w (swrap w a - swrap w b - b2z c))).
Proof.
  intros Hw Ha Hb res. assert (fits w res) as Hr by (apply wrap_fits; lia).
  destruct (swrap_cases w a Hw Ha) as (E & Hp & Ca). destruct (swrap_cases w b Hw Hb) as (_ & _ & Cb).
  destruct (swrap_cases w res Hw Hr) as (_ & _ & Cr).
  assert (exists q, res = a - b - b2z c - q * 2 ^ w /\ (q = 0 \/ q = -1)) as (q & Hq & Hq').
  { pose proof (Z.div_mod (a - b - b2z c) (2 ^ w) ltac:(lia)).
    exists ((a - b - b2z c) / 2 ^ w). split; [unfold res; lia|].
    unfold fits in *. assert (0 <= b2z c <= 1) by (destruct c; cbn; lia).
    assert (-1 <= (a - b - b2z c) / 2 ^ w < 1); [|lia].
    split; [apply Z.div_le_lower_bound; lia|apply Z.div_lt_upper_bound; lia]. }
  clearbody res. unfold fits in *. assert (0 <= b2z c <= 1) as Hc by (destruct c; cbn; lia).
  case_bool_decide as Hs; unfold sfits in Hs; cbn [negb]; cbv zeta;
    destruct (Z.ltb_spec (swrap w a) 0), (Z.ltb_spec (swrap w b) 0), (Z.ltb_spec (swrap w res) 0);
    cbn; try done; exfalso; destruct Hq' as [-> | ->]; lia.
Qed.

Lemma wrap_wrap w w' x : 0 <= w <= w' -> wrap w (wrap w' x) = wrap w x.
Proof.
  intros Hw. unfold wrap. symmetry. apply Znumtheory.Zmod_div_mod.
  1-2: apply Z.pow_pos_nonneg; lia.
  exists (2 ^ (w' - w)). rewrite <- Z.pow_add_r by lia. f_equal. lia.
Qed.

Lemma b2z_bound c : 0 <= b2z c <= 1.
Proof. destruct c; cbn; lia. Qed.

(** The borrow: the bits of a wider difference above the operand width. *)
Lemma borrow w w' a b c : 0 < w -> w + 1 <= w' -> fits w a -> fits w b ->
  negb (Z.shiftr (wrap w' (a - b - b2z c)) w =? 0) = (a <? b + b2z c).
Proof.
  intros Hw Hw' [Ha1 Ha2] [Hb1 Hb2]. pose proof (b2z_bound c) as Hc.
  assert (2 * 2 ^ w <= 2 ^ w') as Hp.
  { rewrite <- Z.pow_succ_r by lia. apply Z.pow_le_mono_r; lia. }
  rewrite Z.shiftr_div_pow2 by lia. unfold wrap.
  destruct (Z.ltb_spec a (b + b2z c)).
  - rewrite <- (Z.mod_add _ 1) by lia. rewrite Z.mod_small by lia.
    apply negb_true_iff, Z.eqb_neq. apply Z.neq_sym, Z.lt_neq. apply Z.div_str_pos. lia.
  - rewrite (Z.mod_small (a - b - b2z c)) by lia. by rewrite Z.div_small by lia.
Qed.

Lemma half_carry a b c : negb (Z.land (Z.land a 0xF + Z.land b 0xF + b2z c) 0x10 =? 0) =
  (16 <=? a mod 16 + b mod 16 + b2z c).
Proof.
  rewrite !nibble. apply nibble_carry. pose proof (b2z_bound c).
  pose proof (Z.mod_pos_bound a 16 ltac:(lia)). pose proof (Z.mod_pos_bound b 16 ltac:(lia)). lia.
Qed.
Lemma half_borrow a b c : (Z.land a 0xF - Z.land b 0xF - b2z c <? 0) = (a mod 16 <? b mod 16 + b2z c).
Proof. rewrite !nibble. repeat bcase; try reflexivity; exfalso; lia. Qed.

Lemma add16_delivers a b c e :
  fits 16 a -> fits 16 b -> delivers 16 (ref_add 16 a b c) (add16 a b c) e.
Proof.
  intros Ha Hb. pose proof (b2z_bound c) as Hc. unfold delivers, ref_add. cbn [v_res v_cf v_af v_of].
  unfold add16. cbv zeta. rewrite <- (add_overflow 16) by done. cbv zeta.
  rewrite (wrap_id 32) by (unfold_fits; lia). change (u16 (a + b + b2z c)) with ((a + b + b2z c) mod 2 ^ 16).
  rewrite (high_part _ 16), half_carry, parity8_spec, ones8_low by (try lia; unfold fits in *; cbn; lia).
  change 0x8000 with (2 ^ (16 - 1)). rewrite (sign_bit 16) by (try lia; by apply wrap_fits).
  apply six_flags.
Qed.

Lemma sub16_delivers a b c e :
  fits 16 a -> fits 16 b -> delivers 16 (ref_sub 16 a b c) (sub16 a b c) e.
Proof.
  intros Ha Hb. unfold delivers, ref_sub. cbn [v_res v_cf v_af v_of].
  unfold sub16. cbv zeta. rewrite <- (sub_overflow 16) by done. cbv zeta.
  rewrite (borrow 16 32), half_borrow, parity8_spec, ones8_low, (wrap_wrap 16 32) by (done || lia).
  change (u16 (a - b - b2z c)) with ((a - b - b2z c) mod 2 ^ 16).
  change 0x8000 with (2 ^ (16 - 1)). rewrite (sign_bit 16) by (try lia; by apply wrap_fits).
  apply six_flags.
Qed.

Lemma add8_delivers a b c e :
  is_byte a -> is_byte b -> delivers 8 (ref_add 8 a b c) (add8 a b c) e.
Proof.
  intros Ha Hb. pose proof (b2z_bound c) as Hc. unfold delivers, ref_add. cbn [v_res v_cf v_af v_of].
  unfold add8. cbv zeta. rewrite <- (add_overflow 8) by done. cbv zeta.
  rewrite (wrap_id 16) by (unfold_fits; lia). change (u8 (a + b + b2z c)) with ((a + b + b2z c) mod 2 ^ 8).
  rewrite (high_part _ 8), half_carry, parity8_spec by (try lia; unfold fits in *; cbn; lia).
  change 0x80 with (2 ^ (8 - 1)). rewrite (sign_bit 8) by (try lia; by apply wrap_fits).
  apply six_flags.
Qed.

Lemma sub8_delivers a b c e :
  is_byte a -> is_byte b -> delivers 8 (ref_sub 8 a b c) (sub8 a b c) e.
Proof.
  intros Ha Hb. unfold delivers, ref_sub. cbn [v_res v_cf v_af v_of].
  unfold sub8. cbv zeta. rewrite <- (sub_overflow 8) by done. cbv zeta.
  rewrite (borrow 8 16), half_borrow, parity8_spec, (wrap_wrap 8 16) by (done || lia).
  change (u8 (a - b - b2z c)) with ((a - b - b2z c) mod 2 ^ 8).
  change 0x80 with (2 ^ (8 - 1)). rewrite (sign_bit 8) by (try lia; by apply wrap_fits).
  apply six_flags.
Qed.

Lemma logic16_delivers r e : fits 16 r -> delivers 16 (ref_logic r) (logic16 r;; mret r) e.
Proof.
  intros Hr. unfold delivers, ref_logic, logic16. cbn [v_res v_cf v_af v_of].
  change 0x8000 with (2 ^ (16 - 1)). rewrite (sign_bit 16), parity8_spec, ones8_low by (done || lia).
  destruct (logic_flags r (s16 r <? 0) (Nat.even (ones8 r)) e) as (e' & E & H).
  exists e'. split; [|done]. unfold mbind at 1, M_bind at 1. by rewrite E.
Qed.
Lemma logic8_delivers r e : is_byte r -> delivers 8 (ref_logic r) (logic8 r;; mret r) e.
Proof.
  intros Hr. unfold delivers, ref_logic, logic8. cbn [v_res v_cf v_af v_of].
  change 0x80 with (2 ^ (8 - 1)). rewrite (sign_bit 8), parity8_spec by (done || lia).
  destruct (logic_flags r (s8 r <? 0) (Nat.even (ones8 r)) e) as (e' & E & H).
  exists e'. split; [|done]. unfold mbind at 1, M_bind at 1. by rewrite E.
Qed.

(** Bitwise operations stay within the width. *)
Lemma bitwise_fits w a b (f : Z -> Z -> Z) (g : bool -> bool -> bool) :
  0 <= w -> (forall x y n, Z.testbit (f x y) n = g (Z.testbit x n) (Z.testbit y n)) ->
  g false false = false -> fits w a -> fits w b -> fits w (f a b).
Proof.
  intros Hw Hf Hg Ha Hb. replace (f a b) with (f a b mod 2 ^ w); [by apply wrap_fits|].
  apply Z.bits_inj'. intros n Hn. destruct (Z.lt_ge_cases n w).
  - by rewrite Z.mod_pow2_bits_low by lia.
  - rewrite Z.mod_pow2_bits_high, Hf by lia.
    rewrite <- (wrap_id w a Ha), <- (wrap_id w b Hb). unfold wrap.
    by rewrite !Z.mod_pow2_bits_high by lia.
Qed.

Lemma alu16_delivers o a b e :
  fits 16 a -> fits 16 b -> delivers 16 (ref_alu 16 o a b (flag F_CF e)) (alu16 (aop_code o) a b) e.
Proof.
  intros Ha Hb. destruct o; cbn [aop_code ref_alu].
  - by apply add16_delivers.
  - apply logic16_delivers, (bitwise_fits 16 a b Z.lor orb); auto using Z.lor_spec; lia.
  - by apply (add16_delivers a b (flag F_CF e) e).
  - by apply (sub16_delivers a b (flag F_CF e) e).
  - apply logic16_delivers, (bitwise_fits 16 a b Z.land andb); auto using Z.land_spec; lia.
  - by apply sub16_delivers.
  - apply logic16_delivers, (bitwise_fits 16 a b Z.lxor xorb); auto using Z.lxor_spec; lia.
  - by apply sub16_delivers.
Qed.
Lemma alu8_delivers o a b e :
  is_byte a -> is_byte b -> delivers 8 (ref_alu 8 o a b (flag F_CF e)) (alu8 (aop_code o) a b) e.
Proof.
  intros Ha Hb. destruct o; cbn [aop_code ref_alu].
  - by apply add8_delivers.
  - apply logic8_delivers, (bitwise_fits 8 a b Z.lor orb); auto using Z.lor_spec; lia.
  - by apply (add8_delivers a b (flag F_CF e) e).
  - by apply (sub8_delivers a b (flag F_CF e) e).
  - apply logic8_delivers, (bitwise_fits 8 a b Z.land andb); auto using Z.land_spec; lia.
  - by apply sub8_delivers.
  - apply logic8_delivers, (bitwise_fits 8 a b Z.lxor xorb); auto using Z.lxor_spec; lia.
  - by apply sub8_delivers.
Qed.
End alu.
