(* ===== verification/DosString.v ===== *)
(** * The 8086 interpreter: compare and jump, the repeated byte move

    Executing [CMP AX, imm16] and the conditional jump after it decides the
    comparison the jump is named after.  [REP MOVSB] as a loop invariant: after [k] rounds the first [k] bytes have
    been copied, one after the other. *)

From S2P Require Import Prelude Dos DosInt DosStep DosWf DosCon DosSafe DosFault DosRun DosAlu.
Open Scope Z_scope.

(** ** Compare and jump *)

Section plain.
Context {HO : Host} (run_child : M WubuDosEmuState).
Implicit Types e : emu.

(** ** An instruction without prefixes *)

Lemma iterate_Some {B} p (body : M (option B)) e b e' :
  body e = Ok (Some b) e' -> iterate p body e = Ok (Some b) e'.
Proof.
  intros H. induction p as [p IH|p IH|]; cbn [iterate]; unfold mbind, M_bind; [by rewrite H|by rewrite IH|done].
Qed.

Lemma prefix_round_plain e :
  wf e -> is_prefix (next_byte e) = false -> prefix_round e = Ok (Some (next_byte e)) (after_fetch e).
Proof.
  intros He Hp. unfold prefix_round. rewrite fetch8_bind by done. set (b := next_byte e) in *. clearbody b.
  destruct b as [|p|p]; [done| |done]. do 8 try (destruct p as [p|p|]; try done).
Qed.

(** The machine with the prefixes cleared and the opcode fetched. *)
Definition fetched e : emu := after_fetch (set_prefixes 0 0 e).

Lemma step_plain e :
  wf e -> is_prefix (code_at e 0) = false ->
  step run_child e = decode_main run_child (code_at e 0) (fetched e).
Proof.
  intros He Hp. unfold step, mbind, M_bind, modify, loop.
  assert (wf (set_prefixes 0 0 e)) as He0 by (apply wf_set_prefixes; (done || lia)).
  assert (next_byte (set_prefixes 0 0 e) = code_at e 0) as Hn by (rewrite next_byte_code by done; done).
  unfold mbind, M_bind.
  rewrite (iterate_Some _ _ _ _ _ (prefix_round_plain _ He0 ltac:(by rewrite Hn))). by rewrite Hn.
Qed.

Lemma fetched_scanned e : wf e -> scanned 1 e (fetched e).
Proof.
  intros He. assert (scanned 0 e (set_prefixes 0 0 e)) as H0.
  { apply set_prefixes_scanned; [by apply scanned_0|lia..]. }
  apply (scanned_add 0 1 _ _ _ H0). apply after_fetch_scanned, H0.
Qed.

Lemma fetch8_scan e : wf e -> exists e', fetch8 e = Ok (code_at e 0) e' /\ scanned 1 e e'.
Proof.
  intros He. exists (after_fetch e). rewrite fetch8_run, next_byte_code by done.
  split; [done|by apply after_fetch_scanned].
Qed.
Lemma fetch16_scan e : wf e ->
  exists e', fetch16 e = Ok (code_at e 0 + 256 * code_at e 1) e' /\ scanned 2 e e'.
Proof.
  intros He. destruct (fetch8_scan e He) as (e1 & E1 & S1).
  pose proof (proj1 (sc_good _ _ _ S1)) as He1.
  destruct (fetch8_scan e1 He1) as (e2 & E2 & S2). exists e2.
  unfold fetch16, mbind, M_bind. rewrite E1, E2. rewrite (scanned_code _ _ _ _ S1).
  split; [|by apply (scanned_add 1 1 _ e1)]. unfold mret, M_ret.
  rewrite lor_shiftl_add by (lia || apply He). f_equal. change (1 + 0) with 1. change (2 ^ 8) with 256. lia.
Qed.

Lemma only_flags_code e e' k : only_flags e e' -> code_at e' k = code_at e k.
Proof.
  intros [Hr [rs ->]]. unfold code_at. rewrite (Hr CS), (Hr IP) by done. done.
Qed.

(** ** The jumps *)

(** What the jump with condition code [cc] is named after, for operands [a]
    and [b] of a comparison. *)
Definition jcc_rel (cc a b : Z) : bool :=
  let diff := (a - b) mod 65536 in
  match cc with
  | 0 => negb (bool_decide (sfits 16 (s16 a - s16 b)))
  | 1 => bool_decide (sfits 16 (s16 a - s16 b))
  | 2 => a <? b | 3 => b <=? a | 4 => a =? b | 5 => negb (a =? b) | 6 => a <=? b | 7 => b <? a
  | 8 => s16 diff <? 0 | 9 => 0 <=? s16 diff
  | 10 => Nat.even (ones8 diff) | 11 => negb (Nat.even (ones8 diff))
  | 12 => s16 a <? s16 b | 13 => s16 b <=? s16 a | 14 => s16 a <=? s16 b | _ => s16 b <? s16 a
  end.

Lemma signed_less a b : fits 16 a -> fits 16 b ->
  negb (eqb (s16 ((a - b) mod 65536) <? 0) (negb (bool_decide (sfits 16 (s16 a - s16 b))))) = (s16 a <? s16 b).
Proof.
  intros Ha Hb. set (d := (a - b) mod 65536).
  assert (fits 16 d) as Hd by (by apply (wrap_fits 16)).
  destruct (swrap_cases 16 a ltac:(lia) Ha) as (_ & _ & Ca).
  destruct (swrap_cases 16 b ltac:(lia) Hb) as (_ & _ & Cb).
  destruct (swrap_cases 16 d ltac:(lia) Hd) as (_ & _ & Cd).
  assert (exists q, d = a - b - q * 65536 /\ (q = 0 \/ q = -1)) as (q & Hq & Hq').
  { pose proof (Z.div_mod (a - b) 65536 ltac:(lia)). exists ((a - b) / 65536). split; [unfold d; lia|].
    unfold_fits. assert (-1 <= (a - b) / 65536 < 1); [|lia].
    split; [apply Z.div_le_lower_bound; lia|apply Z.div_lt_upper_bound; lia]. }
  clearbody d. change (2 ^ (16 - 1)) with 32768 in *. change (2 ^ 16) with 65536 in *. unfold_fits.
  case_bool_decide as Hs; change (2 ^ (16 - 1)) with 32768 in Hs; cbn [negb];
    destruct (Z.ltb_spec (s16 d) 0), (Z.ltb_spec (s16 a) (s16 b)); cbn; try done;
    exfalso; destruct Hq' as [-> | ->]; lia.
Qed.

Lemma diff_zero a b : fits 16 a -> fits 16 b -> ((a - b) mod 65536 =? 0) = (a =? b).
Proof.
  intros Ha Hb. unfold_fits. destruct (Z.eqb_spec a b) as [->|Hne].
  - by rewrite Z.sub_diag.
  - apply Z.eqb_neq. intros H. apply Z.mod_divide in H as [q Hq]; [|lia]. lia.
Qed.

Lemma s16_inj a b : fits 16 a -> fits 16 b -> s16 a = s16 b -> a = b.
Proof.
  intros Ha Hb. destruct (swrap_cases 16 a ltac:(lia) Ha) as (_ & _ & Ca).
  destruct (swrap_cases 16 b ltac:(lia) Hb) as (_ & _ & Cb). unfold_fits. lia.
Qed.

Lemma cond_met_cmp cc a b e e' x :
  regs x FLAGS = regs e' FLAGS -> 0 <= cc < 16 -> fits 16 a -> fits 16 b ->
  arith_flags (a <? b + b2z false) (Nat.even (ones8 ((a - b - b2z false) mod 2 ^ 16)))
    (a mod 16 <? b mod 16 + b2z false) ((a - b - b2z false) mod 2 ^ 16 =? 0)
    (s16 ((a - b - b2z false) mod 2 ^ 16) <? 0)
    (negb (bool_decide (sfits 16 (s16 a - s16 b - b2z false)))) e e' ->
  cond_met cc x = Ok (jcc_rel cc a b) x.
Proof.
  intros Hx Hcc Ha Hb [_ Hcf Hpf _ Hzf Hsf Hof _]. change (b2z false) with 0 in *. rewrite Z.add_0_r, !Z.sub_0_r in *.
  change (2 ^ 16) with 65536 in *.
  unfold cond_met, getF, gets, mbind, M_bind, mret, M_ret. rewrite Hx. fold (flag F_OF e') (flag F_CF e')
    (flag F_ZF e') (flag F_SF e') (flag F_PF e').
  rewrite Hcf, Hpf, Hzf, Hsf, Hof, diff_zero by done.
  pose proof (signed_less a b Ha Hb) as Hsl.
  assert (cc ∈ seqZ 0 16) as Hin by (apply elem_of_seqZ; lia).
  change (seqZ 0 16) with [0; 1; 2; 3; 4; 5; 6; 7; 8; 9; 10; 11; 12; 13; 14; 15] in Hin. clear Hcc.
  f_equal. unfold jcc_rel. cbv zeta.
  repeat (apply elem_of_cons in Hin as [->|Hin]); [..|by apply elem_of_nil in Hin].
  all: cbv beta iota; rewrite ?Hsl; try done.
  - by rewrite negb_involutive.
  - repeat bcase; try reflexivity; exfalso; lia.
  - repeat bcase; try reflexivity; exfalso; lia.
  - repeat bcase; try reflexivity; exfalso; lia.
  - repeat bcase; try reflexivity; exfalso; lia.
  - rewrite <- (negb_involutive (eqb _ _)), Hsl. repeat bcase; try reflexivity; exfalso; lia.
  - destruct (Z.eqb_spec a b) as [->|Hne]; [by rewrite Z.ltb_irrefl, Z.leb_refl|].
    assert (s16 a <> s16 b) by (intros ?; by apply Hne, s16_inj).
    repeat bcase; try reflexivity; exfalso; lia.
  - rewrite <- (negb_involutive (eqb _ _)), Hsl.
    destruct (Z.eqb_spec a b) as [->|Hne]; [by rewrite Z.ltb_irrefl|].
    assert (s16 a <> s16 b) by (intros ?; by apply Hne, s16_inj).
    repeat bcase; try reflexivity; exfalso; lia.
Qed.

Lemma decode_jcc cc : 0 <= cc < 16 ->
  is_prefix (0x70 + cc) = false /\ decode_main run_child (0x70 + cc) = done (op_jcc (0x70 + cc)).
Proof.
  intros Hcc. assert (cc ∈ seqZ 0 16) as Hin by (apply elem_of_seqZ; lia).
  change (seqZ 0 16) with [0; 1; 2; 3; 4; 5; 6; 7; 8; 9; 10; 11; 12; 13; 14; 15] in Hin. clear Hcc.
  repeat (apply elem_of_cons in Hin as [->|Hin]; [split; reflexivity|]). by apply elem_of_nil in Hin.
Qed.

(** ** The two instructions *)

Definition imm16 e : Z := code_at e 1 + 256 * code_at e 2.
Lemma imm16_fits e : wf e -> fits 16 (imm16 e).
Proof.
  intros He. pose proof (wf_mem e He) as Hm. unfold imm16, code_at.
  pose proof (Hm (cell (regs e CS) (u16 (regs e IP + 1)))).
  pose proof (Hm (cell (regs e CS) (u16 (regs e IP + 2)))). unfold_fits. lia.
Qed.

(** [CMP AX, imm16]: the operands' difference in the flags, IP three bytes on. *)
Lemma step_cmp_ax e :
  wf e -> code_at e 0 = 0x3D ->
  exists x y, step run_child e = Ok 0 y /\ scanned 3 e x /\ good x y /\
    let v := ref_sub 16 (regs e AX) (imm16 e) false in
    arith_flags (v_cf v) (Nat.even (ones8 (v_res v))) (v_af v) (v_res v =? 0) (s16 (v_res v) <? 0) (v_of v) x y.
Proof.
  intros He H0. rewrite step_plain by (rewrite ?H0; done). rewrite H0.
  change (decode_main run_child 0x3D) with (done (op_acc 0x3D true)).
  pose proof (fetched_scanned e He) as S1. set (x1 := fetched e) in *.
  pose proof (proj1 (sc_good _ _ _ S1)) as W1.
  destruct (fetch16_scan x1 W1) as (x2 & E2 & S2). rewrite !(scanned_code _ _ _ _ S1) in E2.
  change (code_at e (1 + 0) + 256 * code_at e (1 + 1)) with (imm16 e) in E2.
  pose proof (scanned_add _ _ _ _ _ S1 S2) as S3. pose proof (proj1 (sc_good _ _ _ S3)) as W2.
  assert (fits 16 (regs e AX)) as Ha by apply He. pose proof (imm16_fits e He) as Hb.
  destruct (sub16_delivers (regs e AX) (imm16 e) false x2 Ha Hb) as (x3 & E3 & A3).
  exists x2, x3. split_and!; [|exact S3|..|exact A3].
  - unfold done, op_acc, mbind at 1 2, M_bind at 1 2. rewrite E2, getr_bind.
    rewrite (sc_regs _ _ _ S3 AX) by done. cbv zeta.
    change (Z.shiftr 0x3D 3) with 7. cbv iota. unfold mbind, M_bind. by rewrite E3.
  - pose proof (keeps_sub16 (fun _ => True) (regs e AX) (imm16 e) false x2 W2) as K. rewrite E3 in K. apply K.
Qed.

(** A conditional jump whose condition is [rel]. *)
Lemma step_jcc cc (rel : bool) x :
  wf x -> 0 <= cc < 16 -> code_at x 0 = 0x70 + cc ->
  (forall y, regs y FLAGS = regs x FLAGS -> cond_met cc y = Ok rel y) ->
  exists y, step run_child x = Ok 0 y /\
    regs y IP = u16 (regs x IP + 2 + (if rel then s8 (code_at x 1) else 0)) /\
    (forall r, r <> IP -> regs y r = regs x r) /\ mem y = mem x.
Proof.
  intros Hx Hcc H0 Hrel. destruct (decode_jcc cc Hcc) as [Hnp Hd].
  rewrite step_plain by (rewrite ?H0; done). rewrite H0, Hd.
  pose proof (fetched_scanned x Hx) as S1. set (x1 := fetched x) in *.
  destruct (fetch8_scan x1 (proj1 (sc_good _ _ _ S1))) as (x2 & E2 & S2).
  rewrite (scanned_code _ _ _ _ S1) in E2. change (1 + 0) with 1 in E2.
  pose proof (scanned_add _ _ _ _ _ S1 S2) as S3.
  exists (if rel then set_regs (upd IP (u16 (regs x2 IP + s8 (code_at x 1))) (regs x2)) x2 else x2).
  split_and!.
  - unfold done, op_jcc, mbind at 1 2, M_bind at 1 2. rewrite E2. unfold mbind at 1, M_bind at 1.
    replace (0x70 + cc - 0x70) with cc by lia.
    rewrite Hrel by (apply (sc_regs _ _ _ S3); done). unfold when, mret, M_ret. by destruct rel.
  - destruct rel; [|rewrite Z.add_0_r; apply (sc_ip _ _ _ S3)].
    change (u16 (regs x2 IP + s8 (code_at x 1)) = u16 (regs x IP + 2 + s8 (code_at x 1))).
    by rewrite (sc_ip _ _ _ S3), u16_add.
  - intros r Hr. transitivity (regs x2 r); [|by apply (sc_regs _ _ _ S3)].
    destruct rel; [|done]. cbn. unfold upd. by rewrite decide_False.
  - transitivity (mem x2); [by destruct rel|apply (sc_mem _ _ _ S3)].
Qed.
End plain.

(** Copying [k] bytes upwards, byte by byte. *)
Fixpoint copied (src dst : Z -> Z) (k : nat) (m : Z -> Z) : Z -> Z :=
  match k with
  | O => m
  | S k => let m' := copied src dst k m in wr_mem (dst (Z.of_nat k)) (u8 (m' (src (Z.of_nat k)))) m'
  end.

Lemma copied_other src dst m a k :
  (forall i, 0 <= i < Z.of_nat k -> dst i <> a) -> copied src dst k m a = m a.
Proof.
  induction k as [|k IH]; intros H; cbn [copied]; [done|]. unfold wr_mem.
  destruct (Z.eqb_spec a (dst (Z.of_nat k))) as [->|]; [by destruct (H (Z.of_nat k) ltac:(lia))|].
  apply IH. intros i Hi. apply H. lia.
Qed.

(** When no byte is overwritten before it is read, the copy is the original. *)
Lemma copied_block src dst m k :
  (forall a, is_byte (m a)) ->
  (forall i j, 0 <= i < j -> j < Z.of_nat k -> dst i <> src j) ->
  (forall i j, 0 <= i < j -> j < Z.of_nat k -> dst i <> dst j) ->
  forall i, 0 <= i < Z.of_nat k -> copied src dst k m (dst i) = m (src i).
Proof.
  intros Hb. induction k as [|k IH]; intros Hs Hd i Hi; [lia|]. cbn [copied]. unfold wr_mem.
  destruct (Z.eqb_spec (dst i) (dst (Z.of_nat k))) as [E|E].
  - destruct (Z.lt_ge_cases i (Z.of_nat k)) as [Hlt|Hge].
    { by destruct (Hd i (Z.of_nat k) ltac:(lia) ltac:(lia)). }
    assert (i = Z.of_nat k) as -> by lia.
    rewrite copied_other; [by apply wrap_id|]. intros j Hj. apply Hs; lia.
  - assert (i < Z.of_nat k) by (destruct (Z.lt_ge_cases i (Z.of_nat k)); [done|];
      by replace i with (Z.of_nat k) in E by lia).
    apply IH; [|intros; apply Hd; lia|lia]. intros; apply Hs; lia.
Qed.

Section movs.
Context {HO : Host} (run_child : M WubuDosEmuState).
Implicit Types e : emu.

Definition src_cell e (i : Z) : Z := cell (regs e DS) (u16 (regs e SI + i)).
Definition dst_cell e (i : Z) : Z := cell (regs e ES) (u16 (regs e DI + i)).

(** [x] is [e] after [k] rounds of [REP MOVSB] with the direction flag clear. *)
Record moved (k : nat) e x : Prop := {
  mv_mem : mem x = copied (src_cell e) (dst_cell e) k (mem e);
  mv_cx : regs x CX = regs e CX - Z.of_nat k;
  mv_si : regs x SI = u16 (regs e SI + Z.of_nat k);
  mv_di : regs x DI = u16 (regs e DI + Z.of_nat k);
  mv_regs : forall r, r <> CX -> r <> SI -> r <> DI -> regs x r = regs e r;
  mv_state : state x = state e;
  mv_good : good e x }.

Lemma moved_0 e : wf e -> moved 0 e e.
Proof.
  intros He. constructor; try done; rewrite ?Z.add_0_r, ?Z.sub_0_r; try done.
  all: symmetry; apply wrap_id, He.
Qed.

Lemma step_index_run r x :
  flag F_DF x = false ->
  step_index false r x = Ok tt (set_regs (upd r (u16 (regs x r + 1)) (regs x)) x).
Proof.
  intros Hd. unfold step_index, mbind, M_bind, getF, gets. fold (flag F_DF x). rewrite Hd.
  unfold getr, gets, setr, modify. by rewrite Z.mul_1_r.
Qed.

Lemma movs_run x :
  flag F_DF x = false ->
  exists y, do_movs false x = Ok tt y /\
    mem y = wr_mem (cell (regs x ES) (u16 (regs x DI)))
              (u8 (mem x (cell (regs x DS) (u16 (regs x SI))))) (mem x) /\
    regs y SI = u16 (regs x SI + 1) /\ regs y DI = u16 (regs x DI + 1) /\
    (forall r, r <> SI -> r <> DI -> regs y r = regs x r) /\ state y = state x.
Proof.
  intros Hd. unfold do_movs. rewrite !getr_bind. unfold rd8, wr8, gets, modify, mbind, M_bind.
  rewrite step_index_run by done. rewrite step_index_run by done.
  eexists. split; [reflexivity|]. split_and!; try done.
  intros r H1 H2. cbn. unfold upd. by rewrite !decide_False.
Qed.

Lemma moved_S k e x :
  wf e -> flag F_DF e = false -> state e = WUBU_DOS_RUNNING -> moved k e x -> regs x CX <> 0 ->
  exists y, rep_round is_running (do_movs false) x = Ok None y /\ moved (S k) e y.
Proof.
  intros He Hd Hrun [Hm Hcx Hsi Hdi Hr Hst Hg] Hne.
  assert (flag F_DF x = false) as Hdx by (unfold flag in *; by rewrite (Hr FLAGS)).
  destruct (movs_run x Hdx) as (y & E & Ym & Ysi & Ydi & Yr & Yst).
  assert (good x y) as Gy.
  { pose proof (keeps_do_movs (fun _ => True) false x (proj1 Hg)) as K. rewrite E in K. apply K. }
  exists (set_regs (upd CX (u16 (regs y CX - 1)) (regs y)) y). split.
  - unfold rep_round, is_running, getr, gets, setr, modify, mbind, M_bind.
    rewrite bool_decide_true by congruence. destruct (Z.eqb_spec (regs x CX) 0); [done|].
    cbn [orb negb]. by rewrite E.
  - assert (regs y CX = regs x CX) as Ecx by (by apply Yr).
    pose proof (wf_regs x (proj1 Hg) CX) as Fx.
    constructor; cbn [mem regs state set_regs].
    + rewrite Ym, Hm. cbn [copied]. unfold dst_cell at 2, src_cell at 2.
      rewrite (Hr ES), (Hr DS), Hsi, Hdi by done. by rewrite !(wrap_idemp 16) by lia.
    + unfold upd. rewrite decide_True by done. rewrite Ecx, wrap_id by (unfold_fits; lia). lia.
    + unfold upd. rewrite decide_False by done. rewrite Ysi, Hsi, u16_add. f_equal. lia.
    + unfold upd. rewrite decide_False by done. rewrite Ydi, Hdi, u16_add. f_equal. lia.
    + intros r ???. unfold upd. rewrite decide_False by done. rewrite Yr by done. by apply Hr.
    + congruence.
    + eapply good_trans; [exact Hg|]. eapply good_trans; [exact Gy|].
      apply good_set_regs; [apply Gy|]. apply upd_fits, Gy.
Qed.

Lemma rep_movs_run e :
  wf e -> flag F_DF e = false -> state e = WUBU_DOS_RUNNING ->
  exists x, loop REP_FUEL (rep_round is_running (do_movs false)) e = Ok tt x /\
    moved (Z.to_nat (regs e CX)) e x.
Proof.
  intros He Hd Hrun.
  pose proof (loop_rule (fun _ => False) (fun x => exists k, moved k e x) (fun x => regs x CX)
    (fun _ x => exists k, moved k e x /\ regs x CX = 0)
    (rep_round is_running (do_movs false)) REP_FUEL) as H.
  assert (forall x, (exists k, moved k e x) -> 0 <= regs x CX) as Hpos.
  { intros x [k Hk]. apply (wf_regs x (proj1 (mv_good _ _ _ Hk)) CX). }
  specialize (H Hpos). specialize (H ltac:(
    intros x [k Hk]; destruct (decide (regs x CX = 0)) as [E0|E0];
    [ unfold rep_round, is_running, getr, gets, mbind, M_bind; rewrite E0; cbn; by exists k
    | destruct (moved_S k e x He Hd Hrun Hk E0) as (y & -> & Hy);
      split; [by exists (S k)|]; rewrite (mv_cx _ _ _ Hk), (mv_cx _ _ _ Hy); lia ])).
  specialize (H e ltac:(exists 0%nat; by apply moved_0)).
  specialize (H ltac:(pose proof (wf_regs e He CX); unfold_fits; change (Z.pos REP_FUEL) with 65536; lia)).
  destruct (loop _ _ e) as [[] x|]; [|done]. destruct H as (k & Hk & H0).
  exists x. split; [done|]. rewrite (mv_cx _ _ _ Hk) in H0.
  by replace (Z.to_nat (regs e CX)) with k by lia.
Qed.

(** ** The instruction: the prefix 0xF3, then 0xA4 *)

Lemma iterate_two {B} p (body : M (option B)) e e1 b e2 :
  (1 < p)%positive -> body e = Ok None e1 -> body e1 = Ok (Some b) e2 -> iterate p body e = Ok (Some b) e2.
Proof.
  intros Hp H1 H2. induction p as [p IH|p IH|]; cbn [iterate]; unfold mbind, M_bind; [| |lia].
  - rewrite H1. by rewrite (iterate_Some p _ _ _ _ H2).
  - destruct (decide (p = 1%positive)) as [->|].
    + cbn [iterate]. by rewrite H1, H2.
    + by rewrite IH by lia.
Qed.

Lemma step_rep e :
  wf e -> code_at e 0 = 0xF3 -> is_prefix (code_at e 1) = false ->
  exists x, step run_child e = decode_main run_child (code_at e 1) x /\ scanned 2 e x /\
    rep_prefix x = 1 /\ state x = state e.
Proof.
  intros He H0 H1.
  assert (scanned 0 e (set_prefixes 0 0 e)) as S0 by (apply set_prefixes_scanned; [by apply scanned_0|lia..]).
  set (e0 := set_prefixes 0 0 e) in *. pose proof (proj1 (sc_good _ _ _ S0)) as W0.
  pose proof (scanned_add _ _ _ _ _ S0 (after_fetch_scanned e0 W0)) as S1.
  assert (prefix_round e0 = Ok None (set_prefixes 0 1 (after_fetch e0))) as R1.
  { unfold prefix_round. rewrite fetch8_bind, next_byte_code by done.
    rewrite (scanned_code _ _ _ _ S0), Z.add_0_r, H0. done. }
  set (e1 := set_prefixes 0 1 (after_fetch e0)) in *.
  assert (scanned 1 e e1) as S1' by (apply set_prefixes_scanned; [done|lia..]).
  pose proof (proj1 (sc_good _ _ _ S1')) as W1.
  assert (next_byte e1 = code_at e 1) as N1 by (by rewrite next_byte_code, (scanned_code _ _ _ _ S1')).
  assert (prefix_round e1 = Ok (Some (code_at e 1)) (after_fetch e1)) as R2.
  { rewrite <- N1. apply prefix_round_plain; [done|]. by rewrite N1. }
  exists (after_fetch e1). split_and!; [|..].
  - unfold step, mbind, M_bind, modify, loop. fold e0. unfold mbind, M_bind.
    by rewrite (iterate_two PREFIX_FUEL _ _ _ _ _ ltac:(done) R1 R2).
  - apply (scanned_add 1 1 _ e1); [done|by apply after_fetch_scanned].
  - done.
  - done.
Qed.

(** ** Cells of a segment are distinct *)

Lemma cell_spec s o : fits 16 s -> fits 16 o -> cell s o = (16 * s + o) mod 2 ^ 20.
Proof.
  intros Hs Ho. unfold cell, phys, WUBU_DOS_MEM_SIZE.
  change (1024 * 1024 - 1) with (Z.ones 20). rewrite Z.land_ones by lia.
  rewrite Z.shiftl_mul_pow2 by lia. change (2 ^ 4) with 16.
  rewrite wrap_id by (unfold_fits; lia). f_equal. lia.
Qed.

Lemma offsets_distinct x i j : 0 <= i < j -> j < 65536 -> u16 (x + i) <> u16 (x + j).
Proof.
  intros Hi Hj E. unfold wrap in E. change (2 ^ 16) with 65536 in E.
  assert ((x + j - (x + i)) mod 65536 = 0) as H by (rewrite Zminus_mod, E, Z.sub_diag; done).
  replace (x + j - (x + i)) with (j - i) in H by lia. rewrite Z.mod_small in H by lia. lia.
Qed.

Lemma cells_distinct s x i j :
  fits 16 s -> 0 <= i < j -> j < 65536 -> cell s (u16 (x + i)) <> cell s (u16 (x + j)).
Proof.
  intros Hs Hi Hj. rewrite !cell_spec by (done || by apply wrap_fits).
  pose proof (offsets_distinct x i j Hi Hj) as Hne.
  pose proof (wrap_fits 16 (x + i) ltac:(lia)) as F1. pose proof (wrap_fits 16 (x + j) ltac:(lia)) as F2.
  set (a := u16 (x + i)) in *. set (b := u16 (x + j)) in *. clearbody a b. intros E. apply Hne.
  change (2 ^ 20) with 1048576 in E. unfold_fits.
  assert ((16 * s + a - (16 * s + b)) mod 1048576 = 0) as H by (rewrite Zminus_mod, E, Z.sub_diag; done).
  apply Z.mod_divide in H as [q Hq]; lia.
Qed.

Lemma moved_block e x :
  wf e -> moved (Z.to_nat (regs e CX)) e x ->
  (forall i j, 0 <= i < j -> j < regs e CX -> dst_cell e i <> src_cell e j) ->
  regs x CX = 0 /\
  (forall i, 0 <= i < regs e CX -> mem x (dst_cell e i) = mem e (src_cell e i)) /\
  (forall a, (forall i, 0 <= i < regs e CX -> dst_cell e i <> a) -> mem x a = mem e a).
Proof.
  intros He Hm Hno. pose proof (wf_regs e He CX) as Hcx. unfold_fits.
  split; [rewrite (mv_cx _ _ _ Hm); lia|]. rewrite (mv_mem _ _ _ Hm). split.
  - intros i Hi. apply copied_block; [apply He| | |lia]; intros j k Hj Hk.
    + apply Hno; lia.
    + apply cells_distinct; [apply He|lia..].
  - intros a Ha. apply copied_other. intros i Hi. apply Ha. lia.
Qed.
End movs.
