(* ===== verification/DosKeys.v ===== *)
(** * The 8086 interpreter: keyboard ring, loader and string output

    The ring of 64 slots is a queue of up to 63 keys; [load_com] puts the
    program's bytes at CS:0100h; INT 21h/09h writes its string to the screen. *)

From S2P Require Import Prelude Dos DosInt DosStep DosWf DosCon DosSafe DosFault DosRun DosAlu DosString.
Open Scope Z_scope.

(** ** The keyboard ring *)

(** The keys waiting in the ring, oldest first. *)
Definition ring_slot (k : keyboard) (i : nat) : nat := Z.to_nat ((khead k + Z.of_nat i) mod 64).
Definition ring_len (k : keyboard) : nat := Z.to_nat ((ktail k - khead k) mod 64).
Definition ring (k : keyboard) : list Z := (fun i => kbuf k !!! ring_slot k i) <$> seq 0 (ring_len k).

(** The bounded queue it implements. *)
Inductive kop := Press (ascii : Z) | Take.
Definition queue_step (q : list Z) (o : kop) : list Z * Z :=
  match o with
  | Press a => (if decide (length q < 63)%nat then q ++ [a] else q, 0)
  | Take => (tail q, hd 0 q)
  end.
Fixpoint queue_run (q : list Z) (os : list kop) : list Z * list Z :=
  match os with
  | [] => (q, [])
  | o :: os => let '(q, v) := queue_step q o in let '(q, vs) := queue_run q os in (q, v :: vs)
  end.

Section keys.
Context {HO : Host}.
Implicit Types e : emu.

Definition key_op (o : kop) : M Z :=
  match o with Press a => wubu_dos_emu_key a;; mret 0 | Take => kbd_pop end.
Fixpoint key_run (os : list kop) : M (list Z) :=
  match os with
  | [] => mret []
  | o :: os => v ← key_op o; vs ← key_run os; mret (v :: vs)
  end.

Lemma land63 x : Z.land x 63 = x mod 64.
Proof. exact (Z.land_ones x 6 ltac:(lia)). Qed.

Lemma length_ring k : length (ring k) = ring_len k.
Proof. unfold ring. by rewrite length_fmap, length_seq. Qed.

Lemma ring_len_bound k : (ring_len k < 64)%nat.
Proof. unfold ring_len. pose proof (Z.mod_pos_bound (ktail k - khead k) 64). lia. Qed.

Lemma index_run {A} `{Inhabited A} (l : list A) i e :
  0 <= i < Z.of_nat (length l) -> index l i e = Ok (l !!! Z.to_nat i) e.
Proof.
  intros Hi. unfold index. destruct (Z.leb_spec 0 i); [|lia].
  destruct (lookup_lt_is_Some_2 l (Z.to_nat i) ltac:(lia)) as [x Hx].
  by rewrite Hx, (list_lookup_total_correct _ _ _ Hx).
Qed.
Lemma assign_run {A} `{Inhabited A} (l : list A) i v e :
  0 <= i < Z.of_nat (length l) -> assign l i v e = Ok (<[Z.to_nat i := v]> l) e.
Proof. intros Hi. unfold assign, mbind, M_bind. by rewrite index_run. Qed.

(** Mod-64 arithmetic on ring positions. *)
Lemma ring_full h t : 0 <= h < 64 -> 0 <= t < 64 -> ((t + 1) mod 64 = h <-> (t - h) mod 64 = 63).
Proof. intros. split; intros E; Z.to_euclidean_division_equations; lia. Qed.
Lemma ring_empty h t : 0 <= h < 64 -> 0 <= t < 64 -> (h = t <-> (t - h) mod 64 = 0).
Proof. intros. split; intros E; Z.to_euclidean_division_equations; lia. Qed.

Lemma press_run e a :
  kbd_ok (kbd e) -> is_byte a ->
  exists k, wubu_dos_emu_key a e = Ok tt (set_kbd k e) /\ kbd_ok k /\
    ring k = (queue_step (ring (kbd e)) (Press a)).1.
Proof.
  intros Hk Ha. pose proof Hk as [[Hl Hb] [Hl' Hb'] Hh Ht Hs]. set (k := kbd e) in *.
  assert (is_byte (scan_of a)) as Hsc.
  { unfold scan_of. repeat case_match; try (by apply wrap_fits); unfold_fits; lia. }
  unfold wubu_dos_emu_key, mbind, M_bind, gets. cbv zeta. fold k. rewrite land63. cbn [queue_step fst].
  rewrite length_ring. pose proof (ring_full _ _ Hh Ht) as Hf.
  destruct (Z.eqb_spec ((ktail k + 1) mod 64) (khead k)) as [E|E].
  { exists k. split_and!; [by destruct e|done|]. rewrite decide_False; [done|].
    unfold ring_len. apply Hf in E. rewrite E. lia. }
  rewrite !assign_run by lia. eexists. split; [reflexivity|]. split.
  { pose proof (Z.mod_pos_bound (ktail k + 1) 64 ltac:(lia)).
    constructor; cbn; try done; try (split; [by rewrite length_insert|by apply Forall_insert]). }
  assert ((ktail k - khead k) mod 64 <> 63) as Hn by (intros ?; by apply E, Hf).
  pose proof (Z.mod_pos_bound (ktail k - khead k) 64 ltac:(lia)) as Hm.
  rewrite decide_True by (unfold ring_len; lia).
  unfold ring. cbn [kbuf]. set (k' := mkKeyboard _ _ _ _ _).
  assert (ring_len k' = S (ring_len k)) as EL.
  { unfold ring_len, k'. cbn [ktail khead].
    replace (((ktail k + 1) mod 64 - khead k) mod 64) with ((ktail k - khead k) mod 64 + 1); [lia|].
    Z.to_euclidean_division_equations; lia. }
  assert (ring_slot k (ring_len k) = Z.to_nat (ktail k)) as Eslot.
  { unfold ring_slot, ring_len. f_equal. rewrite Z2Nat.id by lia.
    Z.to_euclidean_division_equations; lia. }
  rewrite EL, seq_S, fmap_app. cbn [fmap list_fmap]. f_equal.
  - apply list_fmap_ext. intros i j Hij. apply lookup_seq in Hij as [-> Hi].
    change (ring_slot k' (0 + i)) with (ring_slot k (0 + i)).
    rewrite list_lookup_total_insert_ne; [done|]. rewrite <- Eslot. unfold ring_slot, ring_len in *.
    intros Heq. apply Z2Nat.inj in Heq; [|apply Z.mod_pos_bound; lia..].
    rewrite Z2Nat.id in Heq by lia. Z.to_euclidean_division_equations; lia.
  - change (ring_slot k' (0 + ring_len k)) with (ring_slot k (ring_len k)). rewrite Eslot.
    rewrite list_lookup_total_insert_eq by lia. done.
Qed.

Lemma take_run e :
  kbd_ok (kbd e) ->
  exists k, kbd_pop e = Ok (queue_step (ring (kbd e)) Take).2 (set_kbd k e) /\ kbd_ok k /\
    ring k = (queue_step (ring (kbd e)) Take).1.
Proof.
  intros Hk. pose proof Hk as [[Hl Hb] [Hl' Hb'] Hh Ht Hs]. set (k := kbd e) in *.
  unfold kbd_pop, mbind, M_bind, gets. fold k. cbn [queue_step fst snd].
  pose proof (ring_empty _ _ Hh Ht) as He. pose proof (Z.mod_pos_bound (ktail k - khead k) 64 ltac:(lia)) as Hm.
  destruct (Z.eqb_spec (khead k) (ktail k)) as [E|E].
  { assert (ring k = []) as ->.
    { unfold ring, ring_len. apply He in E. by rewrite E. }
    exists k. split_and!; [by destruct e|done|]. unfold ring, ring_len. apply He in E. by rewrite E. }
  assert ((ktail k - khead k) mod 64 <> 0) as Hn by (intros ?; by apply E, He).
  rewrite index_run by lia. rewrite land63.
  destruct (ring_len k) as [|n] eqn:EL; [unfold ring_len in EL; lia|].
  assert (ring k = (kbuf k !!! Z.to_nat (khead k)) ::
    ((fun i => kbuf k !!! ring_slot k i) <$> seq 1 n)) as ER.
  { unfold ring. rewrite EL. cbn [seq fmap list_fmap]. f_equal. unfold ring_slot.
    by rewrite Z.add_0_r, Z.mod_small by lia. }
  rewrite ER. cbn [hd tail]. eexists. split; [reflexivity|]. fold k. split.
  { pose proof (Z.mod_pos_bound (khead k + 1) 64 ltac:(lia)). by constructor. }
  unfold ring. cbn [kbuf]. set (k' := mkKeyboard _ _ _ _ _).
  assert (ring_len k' = n) as EL'.
  { unfold ring_len, k' in *. cbn [ktail khead].
    replace ((ktail k - (khead k + 1) mod 64) mod 64) with ((ktail k - khead k) mod 64 - 1); [lia|].
    Z.to_euclidean_division_equations; lia. }
  rewrite EL', <- fmap_S_seq, <- list_fmap_compose. apply list_fmap_ext. intros i j _.
  change (kbuf k !!! ring_slot k' j = kbuf k !!! ring_slot k (S j)). f_equal.
  unfold ring_slot, k'. cbn [khead]. rewrite Zplus_mod_idemp_l. do 2 f_equal. lia.
Qed.

Lemma key_run_queue os : forall e,
  kbd_ok (kbd e) -> (forall a, Press a ∈ os -> is_byte a) ->
  exists k vs, key_run os e = Ok vs (set_kbd k e) /\ kbd_ok k /\
    queue_run (ring (kbd e)) os = (ring k, vs).
Proof.
  induction os as [|o os IH]; intros e Hk Ha; cbn [key_run queue_run].
  { exists (kbd e), []. split_and!; [by destruct e|done|done]. }
  assert (exists k, key_op o e = Ok (queue_step (ring (kbd e)) o).2 (set_kbd k e) /\ kbd_ok k /\
    ring k = (queue_step (ring (kbd e)) o).1) as (k & E & Hk1 & ER).
  { destruct o as [a|]; [|by apply take_run].
    destruct (press_run e a Hk) as (k & E & ? & ?); [apply Ha; set_solver|].
    exists k. split_and!; [|done|done]. unfold key_op, mbind, M_bind. by rewrite E. }
  destruct (IH (set_kbd k e)) as (k2 & vs & E2 & Hk2 & Q2); [done|set_solver|].
  exists k2, ((queue_step (ring (kbd e)) o).2 :: vs).
  unfold mbind, M_bind. rewrite E, E2. cbn [kbd set_kbd] in Q2. rewrite ER in Q2.
  destruct (queue_step (ring (kbd e)) o) as [q v]. cbn [fst snd] in *. by rewrite Q2.
Qed.
End keys.

(** ** Loading a .COM program *)

Section load.
Context {HO : Host}.
Implicit Types e : emu.

Lemma cells_ne s o o' : fits 16 s -> fits 16 o -> fits 16 o' -> o <> o' -> cell s o <> cell s o'.
Proof.
  intros Hs Ho Ho' Hne. unfold_fits. destruct (Z.lt_total o o') as [H|[H|H]]; [|done|].
  - pose proof (cells_distinct s 0 o o') as D. rewrite !(wrap_id 16) in D by (unfold_fits; lia).
    apply D; (unfold_fits; lia).
  - pose proof (cells_distinct s 0 o' o) as D. rewrite !(wrap_id 16) in D by (unfold_fits; lia).
    apply not_eq_sym, D; (unfold_fits; lia).
Qed.

Lemma copy_program_run cs data : forall i e,
  fits 16 cs -> 0 <= i -> i + Z.of_nat (length data) <= 65536 -> Forall is_byte data ->
  exists m, copy_program cs i data e = Ok tt (set_mem m e) /\
    (forall j b, data !! j = Some b -> m (cell cs (u16 (0x100 + i + Z.of_nat j))) = b) /\
    (forall a, (forall j, 0 <= j < Z.of_nat (length data) -> cell cs (u16 (0x100 + i + j)) <> a) ->
       m a = mem e a).
Proof.
  induction data as [|b data IH]; intros i e Hcs Hi Hlen Hb; cbn [copy_program length] in *.
  { exists (mem e). split_and!; [by destruct e|done|done]. }
  apply Forall_cons in Hb as [Hb0 Hb].
  set (e1 := set_mem (wr_mem (cell cs (u16 (0x100 + i))) (u8 b) (mem e)) e).
  destruct (IH (i + 1) e1 Hcs ltac:(lia) ltac:(lia) Hb) as (m & E & Hin & Hout).
  exists m. split; [|split].
  - unfold mbind, M_bind. exact E.
  - intros [|j] b' Hj; cbn in Hj.
    + injection Hj as <-. rewrite Z.add_0_r. rewrite Hout.
      * unfold e1. cbn. unfold wr_mem. rewrite Z.eqb_refl. by apply wrap_id.
      * intros j Hj. replace (0x100 + (i + 1) + j) with (0x100 + i + (1 + j)) by lia.
        apply not_eq_sym. rewrite <- (Z.add_0_r (0x100 + i)) at 1. apply cells_distinct; [done|lia|lia].
    + rewrite <- (Hin j b' Hj). do 3 f_equal. lia.
  - intros a Ha. rewrite Hout.
    + unfold e1. cbn [mem set_mem]. unfold wr_mem. destruct (Z.eqb_spec a (cell cs (u16 (0x100 + i)))) as [->|]; [|done].
      exfalso. apply (Ha 0); [lia|]. by rewrite Z.add_0_r.
    + intros j Hj. replace (0x100 + (i + 1) + j) with (0x100 + i + (1 + j)) by lia. apply Ha. lia.
Qed.

(** The machine [load_com] hands to the copy loop: a program segment prefix
    that begins with INT 20h. *)
Definition psp_mem (ds : Z) : Z -> Z :=
  wr_mem (cell ds 0x80) 0x0D (wr_mem (cell ds 0x81) 0 (wr_mem (cell ds 0x80) 0x80
    (wr_mem (cell ds 0x2D) 0 (wr_mem (cell ds 0x2C) 0 (wr_mem (cell ds 0x17) 0 (wr_mem (cell ds 0x16) 0
      (wr_mem (cell ds 2) 0x9A (wr_mem (cell ds 1) 0x20 (wr_mem (cell ds 0) 0xCD (fun _ => 0)))))))))).

Lemma psp_int20 ds : fits 16 ds -> psp_mem ds (cell ds 0) = 0xCD /\ psp_mem ds (cell ds 1) = 0x20.
Proof.
  intros Hd. unfold psp_mem, wr_mem.
  assert (forall o o', fits 16 o -> fits 16 o' -> o <> o' -> (cell ds o =? cell ds o') = false) as H.
  { intros o o' ???. apply Z.eqb_neq. by apply cells_ne. }
  split; repeat match goal with
    | |- context [cell ds ?a =? cell ds ?b] => first [rewrite (H a b) by done|rewrite Z.eqb_refl] end; done.
Qed.

Lemma load_com_run data e :
  wf e -> data <> [] -> Z.of_nat (length data) <= 0xFF00 -> Forall is_byte data ->
  exists m e', wubu_dos_emu_load_com data e = Ok 0 e' /\ mem e' = m /\
    (forall j b, data !! j = Some b -> m (cell (regs e CS) (0x100 + Z.of_nat j)) = b) /\
    (forall a, (forall j, 0 <= j < Z.of_nat (length data) -> cell (regs e CS) (0x100 + j) <> a) ->
       m a = psp_mem (regs e DS) a) /\
    regs e' IP = 0x100 /\ state e' = WUBU_DOS_RUNNING /\
    (forall r, r <> IP -> r <> PSP_SEG -> regs e' r = regs e r).
Proof.
  intros He Hne Hlen Hb. assert (0 < Z.of_nat (length data)) as Hpos by (destruct data; [done|cbn; lia]).
  assert (fits 16 (regs e CS)) as Hcs by apply He.
  unfold wubu_dos_emu_load_com. cbv zeta.
  destruct (Z.eqb_spec (Z.of_nat (length data)) 0); [lia|]. unfold WUBU_DOS_MEM_SIZE.
  destruct (Z.ltb_spec (1024 * 1024 - 0x100) (Z.of_nat (length data))); [lia|].
  set (e1 := set_mem (psp_mem (regs e DS)) (set_regs (upd PSP_SEG (u16 (regs e DS)) (regs e)) e)).
  destruct (copy_program_run (regs e CS) data 0 e1 Hcs ltac:(lia) ltac:(lia) Hb) as (m & E & Hin & Hout).
  exists m. eexists. split.
  { unfold mbind, M_bind, modify, getr, gets, setr, wr16, wr8, mbind, M_bind, modify.
    transitivity (match copy_program (regs e CS) 0 data e1 with
      | Ok _ x => Ok 0 (set_state WUBU_DOS_RUNNING (set_regs (upd IP 0x100 (regs x)) x)) | Bad f => Bad f end);
      [|by rewrite E].
    reflexivity. }
  split_and!; try done.
  - intros j b Hj. rewrite <- (Hin j b Hj). pose proof (lookup_lt_Some _ _ _ Hj).
    f_equal. rewrite wrap_id; [f_equal; lia|unfold_fits; lia].
  - intros a Ha. rewrite Hout; [done|]. intros j Hj. rewrite wrap_id by (unfold_fits; lia).
    rewrite Z.add_0_r. by apply Ha.
  - intros r Hr Hp. cbn. unfold upd. by rewrite !decide_False.
Qed.
End load.

(** ** Writing a string *)

(** The cell in row [y], column [x]. *)
Definition at_cell (rows : list (list Z)) (y x : Z) : option Z :=
  rows !! Z.to_nat y ≫= (.!! Z.to_nat x).

Lemma put_at_cell y x v rows y' x' :
  rows_ok rows -> 0 <= y < 25 -> 0 <= x < 80 -> 0 <= y' -> 0 <= x' ->
  at_cell (put_at y x v rows) y' x' =
  if decide (y' = y /\ x' = x) then Some v else at_cell rows y' x'.
Proof.
  intros H Hy Hx Hy' Hx'. destruct (rows_lookup rows (Z.to_nat y) H ltac:(lia)) as (row & E & [Hl _]).
  destruct H as [Hlen _]. unfold at_cell. rewrite (put_at_row _ _ _ _ row E).
  destruct (decide (y' = y)) as [->|Hne].
  - rewrite list_lookup_insert_eq by lia. cbn [mbind option_bind]. rewrite E. cbn [mbind option_bind].
    destruct (decide (x' = x)) as [->|Hnx].
    + rewrite list_lookup_insert_eq by lia. by rewrite decide_True.
    + rewrite list_lookup_insert_ne by lia. rewrite decide_False by tauto. done.
  - rewrite list_lookup_insert_ne by lia. by rewrite decide_False by tauto.
Qed.

(** A character that the teletype stores in a cell. *)
Definition printable (ch : Z) : Prop := is_byte ch /\ ch <> 8 /\ ch <> 10 /\ ch <> 13.

Definition tty (c : console) (s : list Z) : console := foldl (fun c ch => teletype ch c) c s.

Lemma teletype_cell ch c :
  con_ok c -> printable ch -> cur_x c < 80 -> cur_y c < 25 ->
  teletype ch c = mkConsole (put_at (cur_y c) (cur_x c) ch (text c))
    (put_at (cur_y c) (cur_x c) (cur_attr c) (attr c)) (cur_x c + 1) (cur_y c) (cur_attr c).
Proof.
  intros Hc (Hb & H8 & H10 & H13) Hx Hy. unfold teletype.
  repeat (bcase; try lia). rewrite Z.min_r by lia. by rewrite wrap_id.
Qed.

Lemma tty_line s : forall c,
  con_ok c -> Forall printable s -> cur_y c < 25 -> cur_x c + Z.of_nat (length s) <= 80 ->
  con_ok (tty c s) /\ cur_x (tty c s) = cur_x c + Z.of_nat (length s) /\ cur_y (tty c s) = cur_y c /\
  (forall i ch, s !! i = Some ch -> at_cell (text (tty c s)) (cur_y c) (cur_x c + Z.of_nat i) = Some ch) /\
  (forall y x, 0 <= y -> 0 <= x ->
     ~ (y = cur_y c /\ cur_x c <= x < cur_x c + Z.of_nat (length s)) ->
     at_cell (text (tty c s)) y x = at_cell (text c) y x).
Proof.
  induction s as [|ch s IH]; intros c Hc Hp Hy Hx; cbn [tty foldl length] in *.
  { split_and!; try done. lia. }
  apply Forall_cons in Hp as [Hch Hp]. pose proof (co_cur c Hc) as [Hx0 Hy0].
  pose proof (teletype_ok ch c Hc) as Hc1. pose proof (co_text c Hc) as Ht.
  rewrite (teletype_cell ch c) in Hc1 |- * by (done || lia). set (c1 := mkConsole _ _ _ _ _) in *.
  destruct (IH c1 Hc1 Hp) as (Ok1 & X1 & Y1 & In1 & Out1); [done|cbn; lia|].
  fold (tty c1 s). cbn [cur_x cur_y text c1] in *. split_and!; [done|lia|done| |].
  - intros [|i] b Hi; cbn in Hi.
    + injection Hi as <-. rewrite Out1 by lia. cbn [text c1]. rewrite put_at_cell by (done || lia).
      rewrite Z.add_0_r. by rewrite decide_True.
    + rewrite <- (In1 i b Hi). f_equal. lia.
  - intros y x Hy' Hx' Hn. rewrite Out1 by lia. cbn [text c1]. rewrite put_at_cell by (done || lia).
    rewrite decide_False; [done|]. intros [-> ->]. apply Hn. lia.
Qed.

Section print.
Context {HO : Host}.
Implicit Types e : emu.

(** The bytes of memory from [s:o], stopped by the dollar sign. *)
Lemma print_string_run s str : forall n o e,
  con_ok (con e) -> (length str < n)%nat -> Forall (fun ch => ch <> 36) str ->
  (forall i ch, str !! i = Some ch -> mem e (cell s (u16 (o + Z.of_nat i))) = ch) ->
  mem e (cell s (u16 (o + Z.of_nat (length str)))) = 36 ->
  print_string n s o e = Ok tt (set_con (tty (con e) str) e).
Proof.
  induction str as [|ch str IH]; intros n o e Hc Hn Hd Hm Hend; (destruct n as [|n]; [cbn in Hn; lia|]);
    cbn [print_string length] in *; unfold mbind, M_bind, rd8, gets.
  - rewrite Z.add_0_r in Hend. rewrite Hend. cbn. by destruct e.
  - apply Forall_cons in Hd as [Hd0 Hd]. pose proof (Hm 0%nat ch eq_refl) as H0.
    rewrite Z.add_0_r in H0. rewrite H0. destruct (Z.eqb_spec ch 36); [done|].
    rewrite put_char_run by done. rewrite IH; try done.
    + cbn. by apply teletype_ok.
    + lia.
    + intros i b Hi. cbn [mem set_con]. rewrite <- (Hm (S i) b Hi). do 3 f_equal. lia.
    + cbn [mem set_con]. rewrite <- Hend. do 3 f_equal. lia.
Qed.
End print.
