(* ===== verification/DosTheorems.v ===== *)
(** * The 8086 interpreter: what it promises

    And, at the end, concrete programs on which it does something else than the
    8086 and than its own documentation says, each by evaluation. *)

From S2P Require Import Prelude Dos DosInt DosStep DosWf DosCon DosSafe DosFault DosRun DosAlu DosString DosKeys.
Open Scope Z_scope.

(** ** A host for the examples: no files, a stopped clock *)

Definition quiet_host : Host := {|
  hstate := unit;
  h_localtime := fun h => (h, Build_tm 126 0 1 4);
  h_clock_gettime := fun h => (h, (0, 0));
  h_mkdir := fun _ h => (h, Some 30);
  h_rmdir := fun _ h => (h, Some 2);
  h_chdir := fun _ h => (h, Some 2);
  h_unlink := fun _ h => (h, Some 2);
  h_rename := fun _ _ h => (h, Some 2);
  h_getcwd := fun h => (h, inl [47]);
  h_open := fun _ _ h => (h, inr 2);
  h_close := fun _ h => (h, tt);
  h_read := fun _ _ h => (h, inr 9);
  h_write := fun _ _ h => (h, false);
  h_lseek := fun _ _ _ h => (h, inr 29);
  h_malloc := fun _ h => (h, true);
  h_calloc_emu := fun h => (h, true);
  h_fopen := fun _ h => (h, None);
  h_fsize := fun _ h => (h, 0);
  h_fread := fun _ _ h => (h, []);
  h_fclose := fun _ h => (h, tt) |}.

(** A fresh machine whose code segment holds [prog] at 0100h. *)
Definition boot (prog : list Z) : @emu quiet_host :=
  match wubu_dos_emu_load_com prog (wubu_dos_emu_create (HO := quiet_host) tt) with
  | Ok _ e => e
  | Bad _ => wubu_dos_emu_create (HO := quiet_host) tt
  end.

Lemma boot_wf prog : wf (boot prog).
Proof.
  unfold boot. pose proof (create_wf (HO := quiet_host) tt) as Hc.
  pose proof (keeps_load_com (fun _ => True) prog _ Hc) as H. destruct (wubu_dos_emu_load_com _ _); [apply H|done].
Qed.

Section theorems.
Context {HO : Host}.
Implicit Types e : emu.

(** The child program of INT 21h/4Bh for a given nesting depth. *)
Definition child_at (depth : nat) : M WubuDosEmuState :=
  match depth with O => fail FDepth | S d => wubu_dos_emu_run d 0 end.

Lemma child_ok depth : runs_ok (fun _ => True) (child_at depth).
Proof. destruct depth; [done|]. by apply run_ok. Qed.

(** C11. For 8-bit and 16-bit operands alike, each of the eight operations of
    the arithmetic unit (ADD, OR, ADC, SBB, AND, SUB, XOR, CMP) returns the
    result of the 8086 manual and sets the flags to it: CF is the unsigned
    carry or borrow, OF the signed overflow, AF the carry out of the low
    nibble, ZF, SF and PF are read off the result; nothing else of the machine
    changes. *)
Theorem dos_alu_matches_reference (wide : bool) o a b e :
  let w := if wide then 16 else 8 in
  fits w a -> fits w b ->
  delivers w (ref_alu w o a b (flag F_CF e))
    (if wide then alu16 (aop_code o) a b else alu8 (aop_code o) a b) e.
Proof. destruct wide; cbv zeta; [apply alu16_delivers|apply alu8_delivers]. Qed.

(** Executing [CMP AX, imm16] and then the conditional jump with
    condition [cc] transfers control by the jump's displacement exactly when
    the comparison the jump is named after (unsigned below/above, signed
    less/greater, equal, sign, overflow, parity) holds between AX and the
    immediate; memory and the other registers are untouched. *)
Theorem dos_cmp_jcc_decides depth cc e :
  wf e -> 0 <= cc < 16 -> code_at e 0 = 0x3D -> code_at e 3 = 0x70 + cc ->
  exists e1 e2,
    step (child_at depth) e = Ok 0 e1 /\ step (child_at depth) e1 = Ok 0 e2 /\
    regs e2 IP = u16 (regs e IP + 5 +
      (if jcc_rel cc (regs e AX) (imm16 e) then s8 (code_at e 4) else 0)) /\
    (forall r, r <> IP -> r <> FLAGS -> regs e2 r = regs e r) /\ mem e2 = mem e.
Proof.
  intros He Hcc H0 H3.
  destruct (step_cmp_ax (child_at depth) e He H0) as (x & e1 & E1 & S & G & A).
  pose proof (af_frame _ _ _ _ _ _ _ _ A) as Fr.
  assert (forall k, code_at e1 k = code_at e (3 + k)) as Hc
    by (intros k; by rewrite (only_flags_code _ _ _ Fr), (scanned_code _ _ _ _ S)).
  destruct (step_jcc (child_at depth) cc (jcc_rel cc (regs e AX) (imm16 e)) e1) as (e2 & E2 & Hip & Hr & Hm);
    [apply G|done|by rewrite Hc|intros y Hy; eapply cond_met_cmp; eauto using imm16_fits; apply He|].
  exists e1, e2. split_and!; [done|done| | |].
  - rewrite Hip, (proj1 Fr IP), (sc_ip _ _ _ S), <- Z.add_assoc, u16_add, Hc by done. change (3 + 1) with 4. f_equal. lia.
  - intros r ??. by rewrite Hr, (proj1 Fr), (sc_regs _ _ _ S).
  - rewrite Hm. destruct Fr as [_ [rs ->]]. apply (sc_mem _ _ _ S).
Qed.

(** [REP MOVSB] with the direction flag clear ends, with CX = 0, and has
    copied CX bytes from DS:SI to ES:DI (offsets wrap at 64 KB, addresses at
    1 MB), leaving every other cell as it was, provided no byte is overwritten
    before it is read. *)
Theorem dos_rep_movsb_copies_block depth e :
  wf e -> state e = WUBU_DOS_RUNNING -> flag F_DF e = false ->
  code_at e 0 = 0xF3 -> code_at e 1 = 0xA4 ->
  (forall i j, 0 <= i < j -> j < regs e CX -> dst_cell e i <> src_cell e j) ->
  exists e', step (child_at depth) e = Ok 0 e' /\ regs e' CX = 0 /\
    (forall i, 0 <= i < regs e CX -> mem e' (dst_cell e i) = mem e (src_cell e i)) /\
    (forall a, (forall i, 0 <= i < regs e CX -> dst_cell e i <> a) -> mem e' a = mem e a).
Proof.
  intros He Hrun Hdf H0 H1 Hno.
  destruct (step_rep (child_at depth) e He H0) as (x & E & S & Hrep & Hst); [by rewrite H1|].
  pose proof (proj1 (sc_good _ _ _ S)) as Wx.
  assert (forall i, src_cell x i = src_cell e i /\ dst_cell x i = dst_cell e i) as Hcells.
  { intros i. unfold src_cell, dst_cell. by rewrite !(sc_regs _ _ _ S) by done. }
  assert (regs x CX = regs e CX) as Ecx by (by apply (sc_regs _ _ _ S)).
  destruct (rep_movs_run x Wx) as (y & Ey & My).
  { unfold flag in *. by rewrite (sc_regs _ _ _ S FLAGS). }
  { congruence. }
  exists y. rewrite E, H1. split.
  - change (decode_main (child_at depth) 0xA4) with (done (op_string 0xA4 false)).
    unfold done, op_string, mbind, M_bind, gets. rewrite Hrep. cbv zeta iota. cbn [Z.eqb].
    by rewrite Ey.
  - rewrite <- (sc_mem _ _ _ S). destruct (moved_block x y Wx My) as (C & B & O).
    { intros i j ??. rewrite (proj1 (Hcells j)), (proj2 (Hcells i)). apply Hno; [done|congruence]. }
    rewrite Ecx in *. split_and!; [done| |].
    + intros i Hi. rewrite <- (proj1 (Hcells i)), <- (proj2 (Hcells i)). by apply B.
    + intros a Ha. apply O. intros i Hi. rewrite (proj2 (Hcells i)). by apply Ha.
Qed.

(** C12. An instruction executed in a well formed machine, whatever its bytes,
    either leaves a well formed machine (registers 16 bits, memory bytes,
    cursor, keyboard ring, handle table and call stack within their arrays),
    or is undefined for one of these causes: a segment of nothing but
    prefixes, AAM by zero, the one IDIV whose quotient overflows a host [int],
    the host call 0xF1, INT 10h with AH = 06h, 07h or 08h, or running a child
    program with INT 21h/4Bh. *)
Theorem dos_step_faults_have_causes depth e :
  wf e ->
  match step (child_at depth) e with
  | Ok r e' => wf e' /\ steps e' = steps e /\ (r = 0 \/ r = -1)
  | Bad f => step_cause e f
  end.
Proof.
  intros He. pose proof (step_spec (child_at depth) (child_ok depth) e He) as H.
  destruct (step (child_at depth) e); [|done]. destruct H as [[??]?]. done.
Qed.


(** Whatever sequence of keys is injected and characters are read, the
    keyboard ring delivers what a queue of at most 63 characters delivers:
    first in, first out, further keys dropped while it is full, NUL when it is
    empty; nothing else of the machine changes. *)
Theorem dos_keyboard_refines_queue os e :
  kbd_ok (kbd e) -> (forall a, Press a ∈ os -> is_byte a) ->
  exists k vs, key_run os e = Ok vs (set_kbd k e) /\ kbd_ok k /\
    queue_run (ring (kbd e)) os = (ring k, vs).
Proof. apply key_run_queue. Qed.

(** Loading a .COM image of up to 65280 bytes succeeds: every byte of the
    image is at its offset from CS:0100h, execution starts there, the machine
    runs, and when code and data share their segment the program segment
    prefix starts with INT 20h, so that a program's return terminates it. *)
Theorem dos_load_com_roundtrip data e :
  wf e -> data <> [] -> Z.of_nat (length data) <= 0xFF00 -> Forall is_byte data ->
  exists e', wubu_dos_emu_load_com data e = Ok 0 e' /\
    (forall j b, data !! j = Some b -> mem e' (cell (regs e CS) (0x100 + Z.of_nat j)) = b) /\
    regs e' CS = regs e CS /\ regs e' IP = 0x100 /\ state e' = WUBU_DOS_RUNNING /\
    (regs e DS = regs e CS -> mem e' (cell (regs e DS) 0) = 0xCD /\ mem e' (cell (regs e DS) 1) = 0x20).
Proof.
  intros He Hne Hlen Hb.
  destruct (load_com_run data e He Hne Hlen Hb) as (m & e' & E & Em & Hin & Hout & Hip & Hst & Hr).
  exists e'. rewrite Em. split_and!; try done; [by apply Hr|].
  intros Hds. assert (fits 16 (regs e DS)) as Hf by apply He.
  destruct (psp_int20 (regs e DS) Hf) as [P0 P1].
  rewrite !Hout; [done|..]; intros j Hj; rewrite <- Hds; apply cells_ne; try done; unfold_fits; lia.
Qed.

(** Writing a character is what a teletype does with an 80 x 25 screen:
    carriage return, line feed and backspace move the cursor, any other
    character is stored under the cursor with the current attribute, the
    cursor wraps at the right margin, and at the bottom the screen scrolls by
    one row; the rest of the machine is untouched and no access leaves the
    screen, wherever the cursor was. *)
Theorem dos_put_char_is_teletype ch e :
  wf e -> put_char ch e = Ok tt (set_con (teletype ch (con e)) e) /\ con_ok (teletype ch (con e)).
Proof. intros He. split; [apply put_char_run, He|apply teletype_ok, He]. Qed.

(** INT 21h/09h with DS:DX at a string of printable characters ended by a
    dollar sign, short enough for the rest of the line, puts exactly these
    characters in the cells from the cursor on, advances the cursor past them,
    and changes no other cell. *)
Theorem dos_print_string_shows_text depth str e :
  wf e -> ah_of e = 0x09 -> (length str < 4096)%nat ->
  Forall printable str -> Forall (fun ch => ch <> 36) str ->
  (forall i ch, str !! i = Some ch -> mem e (cell (regs e DS) (u16 (regs e DX + Z.of_nat i))) = ch) ->
  mem e (cell (regs e DS) (u16 (regs e DX + Z.of_nat (length str)))) = 36 ->
  cur_y (con e) < 25 -> cur_x (con e) + Z.of_nat (length str) <= 80 ->
  exists e', int21 (child_at depth) e = Ok tt e' /\ wf e' /\
    cur_x (con e') = cur_x (con e) + Z.of_nat (length str) /\ cur_y (con e') = cur_y (con e) /\
    (forall i ch, str !! i = Some ch ->
       at_cell (text (con e')) (cur_y (con e)) (cur_x (con e) + Z.of_nat i) = Some ch) /\
    (forall y x, 0 <= y -> 0 <= x ->
       ~ (y = cur_y (con e) /\ cur_x (con e) <= x < cur_x (con e) + Z.of_nat (length str)) ->
       at_cell (text (con e')) y x = at_cell (text (con e)) y x).
Proof.
  intros He Hah Hlen Hp Hd Hm Hend Hy Hx. pose proof (wf_con e He) as Hc.
  destruct (tty_line str (con e) Hc Hp Hy Hx) as (Hok & X & Y & In & Out).
  exists (set_con (tty (con e) str) e). split_and!; try done; [|by apply wf_set_con].
  unfold int21. rewrite !getr_bind. unfold int21_fn. fold (ah_of e). rewrite Hah.
  by apply print_string_run.
Qed.
End theorems.

(** ** The theorems at concrete programs *)

Lemma dos_alu_matches_reference_witness :
  let e := boot [0x90] in
  fits 16 0x7FFF /\ fits 16 1 /\
  delivers 16 (ref_alu 16 ADD 0x7FFF 1 (flag F_CF e)) (alu16 (aop_code ADD) 0x7FFF 1) e /\
  v_of (ref_alu 16 ADD 0x7FFF 1 (flag F_CF e)) = true.
Proof.
  intros e. split_and!; try (unfold_fits; lia).
  - apply (dos_alu_matches_reference true ADD 0x7FFF 1 e); unfold_fits; lia.
  - vm_compute. reflexivity.
Defined.

(** [CMP AX, 5; JL +2] in a machine with AX = 0. *)
Definition cmp_prog : list Z := [0x3D; 5; 0; 0x7C; 2].
Lemma dos_cmp_jcc_decides_witness :
  let e := boot cmp_prog in
  jcc_rel 12 (regs e AX) (imm16 e) = true /\
  exists e1 e2,
    step (child_at 0) e = Ok 0 e1 /\ step (child_at 0) e1 = Ok 0 e2 /\
    regs e2 IP = u16 (regs e IP + 5 +
      (if jcc_rel 12 (regs e AX) (imm16 e) then s8 (code_at e 4) else 0)) /\
    (forall r, r <> IP -> r <> FLAGS -> regs e2 r = regs e r) /\ mem e2 = mem e.
Proof.
  intros e. split; [vm_compute; reflexivity|].
  apply (dos_cmp_jcc_decides 0 12 e).
  - apply boot_wf.
  - lia.
  - vm_compute. reflexivity.
  - vm_compute. reflexivity.
Defined.

(** [REP MOVSB] of three bytes from 0100h to 0200h. *)
Definition movs_machine : @emu quiet_host :=
  let e := boot [0xF3; 0xA4; 0x90] in
  set_regs (upd DI 0x200 (upd SI 0x100 (upd CX 3 (regs e)))) e.
Lemma movs_machine_wf : wf movs_machine.
Proof.
  apply wf_set_regs; [apply boot_wf|]. intros r. unfold upd.
  repeat case_decide; [unfold_fits; lia..|]. apply boot_wf.
Qed.
Lemma dos_rep_movsb_copies_block_witness :
  exists e', step (child_at 0) movs_machine = Ok 0 e' /\ regs e' CX = 0 /\
    (forall i, 0 <= i < regs movs_machine CX ->
       mem e' (dst_cell movs_machine i) = mem movs_machine (src_cell movs_machine i)) /\
    (forall a, (forall i, 0 <= i < regs movs_machine CX -> dst_cell movs_machine i <> a) ->
       mem e' a = mem movs_machine a).
Proof.
  apply (dos_rep_movsb_copies_block 0 movs_machine).
  - apply movs_machine_wf.
  - vm_compute. reflexivity.
  - vm_compute. reflexivity.
  - vm_compute. reflexivity.
  - vm_compute. reflexivity.
  - intros i j Hi Hj. change (regs movs_machine CX) with 3 in Hj.
    assert ((i = 0 \/ i = 1) /\ (j = 1 \/ j = 2)) as [[->| ->] [->| ->]] by lia; vm_compute; discriminate.
Defined.

Lemma dos_step_faults_have_causes_witness :
  let e := boot [0xD4; 0x00] in
  step (child_at 0) e = Bad FDivide /\
  match step (child_at 0) e with
  | Ok r e' => wf e' /\ steps e' = steps e /\ (r = 0 \/ r = -1)
  | Bad f => step_cause e f
  end.
Proof.
  intros e. split; [vm_compute; reflexivity|].
  apply (dos_step_faults_have_causes 0 e). apply boot_wf.
Defined.

(** Print "Hi" and exit with code 5. *)
Definition hello_prog : list Z :=
  [0xB4; 0x09; 0xBA; 0x0C; 0x01; 0xCD; 0x21; 0xB8; 0x05; 0x4C; 0xCD; 0x21; 72; 105; 36].

Lemma dos_keyboard_refines_queue_witness :
  let e := boot [0x90] in let os := [Press 97; Press 98; Take; Take; Take] in
  queue_run (ring (kbd e)) os = ([], [0; 0; 97; 98; 0]) /\
  exists k vs, key_run os e = Ok vs (set_kbd k e) /\ kbd_ok k /\
    queue_run (ring (kbd e)) os = (ring k, vs).
Proof.
  intros e os. split; [vm_compute; reflexivity|].
  apply (dos_keyboard_refines_queue os e); [apply boot_wf|].
  intros a Ha. unfold os in Ha. repeat (apply elem_of_cons in Ha as [Ha|Ha]; [injection Ha as -> || discriminate; done|]).
  by apply elem_of_nil in Ha.
Defined.

Lemma dos_load_com_roundtrip_witness :
  let e := wubu_dos_emu_create (HO := quiet_host) tt in
  exists e', wubu_dos_emu_load_com hello_prog e = Ok 0 e' /\
    (forall j b, hello_prog !! j = Some b -> mem e' (cell (regs e CS) (0x100 + Z.of_nat j)) = b) /\
    regs e' CS = regs e CS /\ regs e' IP = 0x100 /\ state e' = WUBU_DOS_RUNNING /\
    (regs e DS = regs e CS -> mem e' (cell (regs e DS) 0) = 0xCD /\ mem e' (cell (regs e DS) 1) = 0x20).
Proof.
  intros e. apply (dos_load_com_roundtrip hello_prog e).
  - apply create_wf.
  - discriminate.
  - vm_compute. discriminate.
  - repeat constructor; unfold_fits; lia.
Defined.

Lemma dos_put_char_is_teletype_witness :
  let e := boot [0x90] in
  put_char 65 e = Ok tt (set_con (teletype 65 (con e)) e) /\ con_ok (teletype 65 (con e)).
Proof. intros e. apply (dos_put_char_is_teletype 65 e). apply boot_wf. Defined.

(** A machine about to print the "Hi" of [hello_prog]. *)
Definition print_machine : @emu quiet_host :=
  let e := boot hello_prog in set_regs (upd DX 0x10C (upd AX 0x0900 (regs e))) e.
Lemma print_machine_wf : wf print_machine.
Proof.
  apply wf_set_regs; [apply boot_wf|]. intros r. unfold upd.
  repeat case_decide; [unfold_fits; lia..|]. apply boot_wf.
Qed.
Lemma dos_print_string_shows_text_witness :
  exists e', int21 (child_at 0) print_machine = Ok tt e' /\ wf e' /\
    cur_x (con e') = cur_x (con print_machine) + Z.of_nat (length [72; 105]) /\
    cur_y (con e') = cur_y (con print_machine) /\
    (forall i ch, [72; 105] !! i = Some ch ->
       at_cell (text (con e')) (cur_y (con print_machine)) (cur_x (con print_machine) + Z.of_nat i) = Some ch) /\
    (forall y x, 0 <= y -> 0 <= x ->
       ~ (y = cur_y (con print_machine) /\ cur_x (con print_machine) <= x <
          cur_x (con print_machine) + Z.of_nat (length [72; 105])) ->
       at_cell (text (con e')) y x = at_cell (text (con print_machine)) y x).
Proof.
  apply (dos_print_string_shows_text 0 [72; 105] print_machine).
  - apply print_machine_wf.
  - vm_compute. reflexivity.
  - cbn. lia.
  - repeat constructor; unfold_fits; lia.
  - repeat constructor; lia.
  - intros [|[|i]] ch Hi; cbn in Hi; [injection Hi as <-; vm_compute; reflexivity..|discriminate].
  - vm_compute. reflexivity.
  - vm_compute. reflexivity.
  - vm_compute. discriminate.
Defined.

(** ** Where the interpreter departs from the processor *)

(** A machine with [prog] at CS:0100h and some registers set. *)
Definition with_regs (prog : list Z) (rs : list (reg * Z)) : @emu quiet_host :=
  let e := boot prog in set_regs (foldr (fun p r => upd p.1 p.2 r) (regs e) rs) e.
(** The machine after one instruction. *)
Definition after_step (e : @emu quiet_host) : option (@emu quiet_host) :=
  match step (child_at 0) e with Ok _ e' => Some e' | Bad _ => None end.
Definition observe {A} (e : @emu quiet_host) (f : @emu quiet_host -> A) : option A := f <$> after_step e.
Definition word_at (o : Z) (e : @emu quiet_host) : Z :=
  mem e (cell 0x1000 o) + 256 * mem e (cell 0x1000 (o + 1)).

(** [ADD [0234h], AX]: the operand is read from 0234h, but the write decodes
    the address again from the bytes that follow, so the sum lands at 9090h
    and two bytes of the next instruction are swallowed. *)
Lemma dos_memory_destination_refetches :
  observe (with_regs [0x01; 0x06; 0x34; 0x02; 0x90; 0x90] [(AX, 1)])
    (fun e => (word_at 0x0234 e, word_at 0x9090 e, regs e IP)) = Some (0, 1, 0x106).
Proof. vm_compute. reflexivity. Qed.

(** [SHL AX, 1] with AX = 8000h shifts a one out of the register, and CF is 0. *)
Lemma dos_shift_clears_carry :
  observe (with_regs [0xD1; 0xE0] [(AX, 0x8000)]) (fun e => (regs e AX, flag F_CF e)) = Some (0, false).
Proof. vm_compute. reflexivity. Qed.

(** [ADD BL, 1] with BL = FFh: the byte is 0, but ZF and CF are both 0. *)
Lemma dos_byte_immediate_flags :
  observe (with_regs [0x80; 0xC3; 0x01] [(BX, 0xFF)])
    (fun e => (regs e BX, flag F_ZF e, flag F_CF e)) = Some (0, false, false).
Proof. vm_compute. reflexivity. Qed.

(** [INC AX] with CF = 1 clears CF. *)
Lemma dos_inc_clobbers_carry :
  flag F_CF (with_regs [0x40] [(FLAGS, F_CF)]) = true /\
  observe (with_regs [0x40] [(FLAGS, F_CF)]) (flag F_CF) = Some false.
Proof. vm_compute. done. Qed.

(** SAHF (9Eh) loads AH from the flags and LAHF (9Fh) stores AH into them. *)
Lemma dos_sahf_lahf_swapped :
  observe (with_regs [0x9E] [(FLAGS, F_CF); (AX, 0)]) (fun e => (regs e AX, flag F_CF e)) = Some (0x0100, true) /\
  observe (with_regs [0x9F] [(FLAGS, 0); (AX, 0x0100)]) (fun e => (regs e AX, flag F_CF e)) = Some (0x0100, true).
Proof. vm_compute. done. Qed.

(** [IDIV BL] of 7 by -2: quotient -3, remainder 1, but AH holds FFh. *)
Lemma dos_idiv_byte_loses_remainder :
  observe (with_regs [0xF6; 0xFB] [(AX, 7); (BX, 0xFE)]) (fun e => regs e AX) = Some 0xFFFD.
Proof. vm_compute. reflexivity. Qed.

(** [IMUL BL] of 1 by -1 fits a byte, and CF and OF say it does not. *)
Lemma dos_imul_byte_flags_negative :
  observe (with_regs [0xF6; 0xEB] [(AX, 1); (BX, 0xFF)])
    (fun e => (regs e AX, flag F_CF e, flag F_OF e)) = Some (0xFFFF, true, true).
Proof. vm_compute. reflexivity. Qed.

(** [TEST AL, AL] with AL = 80h does not set SF. *)
Lemma dos_test_byte_sign :
  observe (with_regs [0x84; 0xC0] [(AX, 0x80)]) (flag F_SF) = Some false.
Proof. vm_compute. reflexivity. Qed.

(** [CALL [0300h]] pushes the address of its own displacement. *)
Lemma dos_call_memory_return_address :
  observe (with_regs [0xFF; 0x16; 0x00; 0x03] []) (fun e => word_at 0xFFFC e) = Some 0x102.
Proof. vm_compute. reflexivity. Qed.

(** [TEST AL, imm8] (A8h) and [CALL far] (9Ah) are not decoded. *)
Lemma dos_test_immediate_undecoded :
  observe (with_regs [0xA8; 0x01] []) state = Some WUBU_DOS_ERROR /\
  observe (with_regs [0x9A; 0; 0; 0; 0] []) state = Some WUBU_DOS_ERROR.
Proof. vm_compute. done. Qed.

(** [MOV AX, ES:[BP+0]] reads the stack segment: the override is dropped. *)
Lemma dos_bp_ignores_override :
  observe (with_regs [0x26; 0x8B; 0x46; 0x00; 0xAA; 0xBB] [(ES, 0x2000); (BP, 0x104)]) (fun e => regs e AX) =
  Some 0xBBAA.
Proof. vm_compute. reflexivity. Qed.

(** The host call reads memory without the 1 MB mask. *)
Lemma dos_hostcall_out_of_bounds :
  step (child_at 0) (with_regs [0xF1; 25; 0; 0; 0; 0; 0; 0] [(SS, 0xFFFF); (BP, 0xFFFF)]) = Bad FBounds.
Proof. vm_compute. reflexivity. Qed.

(** INT 10h/06h clearing the rows 0 to 10 writes above the screen. *)
Lemma dos_clear_window_out_of_bounds :
  step (child_at 0) (with_regs [0xCD; 0x10] [(AX, 0x0600); (CX, 0); (DX, 0x0A4F)]) = Bad FBounds.
Proof. vm_compute. reflexivity. Qed.

(** INT 10h/08h reads the cell under a cursor set outside the screen. *)
Lemma dos_read_cell_out_of_bounds :
  match step (child_at 0) (with_regs [0xCD; 0x10; 0xCD; 0x10] [(AX, 0x0200); (DX, 0xFF00)]) with
  | Ok _ e => step (child_at 0) (set_regs (upd AX 0x0800 (regs e)) e) = Bad FBounds
  | Bad _ => False
  end.
Proof. vm_compute. reflexivity. Qed.

(** INT 16h/00h pairs the character with the scan code of the key after it:
    0 for a single key. *)
Lemma dos_getkey_wrong_scan :
  match key_run [Press 97] (with_regs [0xCD; 0x16] [(AX, 0)]) with
  | Ok _ e => observe e (fun e => regs e AX) = Some 97
  | Bad _ => False
  end /\
  match key_run [Press 97; Press 98] (with_regs [0xCD; 0x16] [(AX, 0)]) with
  | Ok _ e => observe e (fun e => regs e AX) = Some (256 * scan_of 98 + 97)
  | Bad _ => False
  end.
Proof. vm_compute. done. Qed.

(** A file of 28 bytes that starts with "Z" and claims a header of 4096
    paragraphs is taken for an executable and read past its end. *)
Lemma dos_load_exe_reads_past_image :
  wubu_dos_emu_load_exe ([90; 0; 0; 0; 0; 0; 0; 0; 0; 16] ++ replicate 18 0)
    (wubu_dos_emu_create (HO := quiet_host) tt) = Bad FBounds.
Proof. vm_compute. reflexivity. Qed.

(** A code segment of nothing but prefixes hangs the run loop: no step is ever
    counted, so the cap on steps does not stop it. *)
Lemma dos_prefixes_hang `{Host} depth e :
  wf e -> (forall k, is_prefix (code_at e k) = true) -> step (child_at depth) e = Bad FLoop.
Proof.
  intros He Hp. rewrite step_unfold. unfold mbind, M_bind.
  pose proof (read_prefixes_spec e He) as R. destruct (read_prefixes e) as [op e'|f].
  - destruct R as (n & _ & -> & Hn & _). by rewrite Hp in Hn.
  - by destruct R as [-> _].
Qed.

(** A .COM image longer than 65536 bytes is accepted, and its tail overwrites
    its start: here the last byte of 65537 replaces the first. *)
Lemma dos_load_com_wraps `{Host} cs data b e :
  fits 16 cs -> Forall is_byte data -> length data = Z.to_nat 65536 -> is_byte b ->
  exists e', copy_program cs 0 (data ++ [b]) e = Ok tt e' /\ mem e' (cell cs 0x100) = b.
Proof.
  intros Hcs Hd Hl Hb.
  assert (forall l l' i x, copy_program cs i (l ++ l') x =
    (copy_program cs i l;; copy_program cs (i + Z.of_nat (length l)) l') x) as Happ.
  { induction l as [|c l IH]; intros l' i x; cbn [app copy_program length].
    - by rewrite Z.add_0_r.
    - unfold mbind, M_bind. destruct (wr8 cs (0x100 + i) c x) as [[] x1|]; [|done].
      rewrite IH. unfold mbind, M_bind. destruct (copy_program cs (i + 1) l x1); [|done].
      f_equal. lia. }
  rewrite Happ. destruct (copy_program_run cs data 0 e Hcs ltac:(lia) ltac:(lia) Hd) as (m & E & _ & _).
  eexists. split.
  - unfold mbind, M_bind. rewrite E. cbn [copy_program]. unfold mbind, M_bind, wr8, modify. reflexivity.
  - cbn [mem set_mem]. unfold wr_mem. replace (0x100 + (0 + Z.of_nat (length data))) with (0x100 + 65536) by lia.
    change (u16 (0x100 + 65536)) with 0x100. rewrite Z.eqb_refl. by apply wrap_id.
Qed.
