(* ===== verification/DosFrame.v ===== *)
(** * The 8086 interpreter: what the window shows

    [wubu_dos_emu_text] and [wubu_dos_emu_frame_rgba] of [wubu_dos_emu.c] with
    the font of [wubu_dos_font.h].  The caller's RGBA buffer is a function from
    byte offsets to bytes; every store of the renderer is an update of it. *)

From S2P Require Import Prelude Dos DosInt DosStep DosWf DosCon DosSafe DosFault DosRun DosAlu DosString DosKeys DosTheorems.
Open Scope Z_scope.

Definition WUBU_DOS_CELL_W : Z := 8.
Definition WUBU_DOS_CELL_H : Z := 16.
Definition WUBU_DOS_FONT_FIRST : Z := 0x20.
Definition WUBU_DOS_FONT_LAST : Z := 0x7E.

(** Seven rows of five bits per glyph, in decimal. *)
Definition wubu_dos_font : list (list Z) := [
  [0; 0; 0; 0; 0; 0; 0];
  [4; 4; 4; 4; 4; 0; 4];
  [10; 10; 10; 0; 0; 0; 0];
  [10; 10; 31; 10; 31; 10; 10];
  [14; 18; 8; 4; 2; 9; 14];
  [18; 10; 4; 8; 18; 0; 0];
  [12; 18; 16; 18; 14; 18; 0];
  [4; 4; 8; 0; 0; 0; 0];
  [6; 8; 8; 8; 8; 8; 6];
  [12; 2; 2; 2; 2; 2; 12];
  [0; 10; 4; 31; 4; 10; 0];
  [0; 4; 4; 31; 4; 4; 0];
  [0; 0; 0; 0; 0; 4; 8];
  [0; 0; 0; 31; 0; 0; 0];
  [0; 0; 0; 0; 0; 0; 4];
  [1; 2; 4; 4; 4; 8; 16];
  [14; 19; 21; 21; 25; 18; 14];
  [4; 12; 4; 4; 4; 4; 14];
  [14; 17; 1; 2; 4; 4; 31];
  [31; 2; 14; 1; 1; 18; 14];
  [2; 6; 10; 18; 31; 2; 2];
  [31; 16; 30; 1; 1; 18; 14];
  [14; 16; 16; 30; 18; 18; 14];
  [31; 1; 2; 4; 4; 4; 4];
  [14; 18; 18; 14; 18; 18; 14];
  [14; 18; 18; 15; 1; 1; 14];
  [0; 4; 4; 0; 4; 4; 0];
  [0; 4; 4; 0; 4; 4; 8];
  [2; 4; 8; 16; 8; 4; 2];
  [0; 31; 0; 31; 0; 0; 0];
  [16; 8; 4; 2; 8; 4; 2];
  [14; 17; 1; 6; 4; 0; 4];
  [14; 18; 23; 21; 23; 16; 14];
  [14; 17; 17; 31; 17; 17; 17];
  [30; 17; 17; 30; 17; 17; 30];
  [14; 17; 16; 16; 16; 17; 14];
  [30; 17; 17; 17; 17; 17; 30];
  [31; 16; 16; 30; 16; 16; 31];
  [31; 16; 16; 30; 16; 16; 16];
  [14; 17; 16; 23; 17; 17; 15];
  [17; 17; 17; 31; 17; 17; 17];
  [14; 4; 4; 4; 4; 4; 14];
  [7; 2; 2; 2; 2; 18; 12];
  [17; 18; 20; 24; 20; 18; 17];
  [16; 16; 16; 16; 16; 16; 31];
  [17; 27; 21; 21; 17; 17; 17];
  [17; 25; 21; 21; 19; 17; 17];
  [14; 17; 17; 17; 17; 17; 14];
  [30; 17; 17; 30; 16; 16; 16];
  [14; 17; 17; 17; 21; 18; 13];
  [30; 17; 17; 30; 20; 18; 17];
  [15; 16; 16; 14; 1; 1; 30];
  [31; 4; 4; 4; 4; 4; 4];
  [17; 17; 17; 17; 17; 17; 14];
  [17; 17; 17; 17; 17; 10; 4];
  [17; 17; 17; 21; 21; 27; 17];
  [17; 17; 10; 4; 10; 17; 17];
  [17; 17; 10; 4; 4; 4; 4];
  [31; 1; 2; 4; 8; 16; 31];
  [14; 4; 4; 4; 4; 4; 14];
  [16; 8; 4; 4; 4; 8; 1];
  [14; 4; 4; 4; 4; 4; 14];
  [4; 10; 17; 0; 0; 0; 0];
  [0; 0; 0; 0; 0; 0; 31];
  [4; 2; 0; 0; 0; 0; 0];
  [14; 17; 17; 31; 17; 17; 17];
  [30; 17; 17; 30; 17; 17; 30];
  [14; 17; 16; 16; 16; 17; 14];
  [30; 17; 17; 17; 17; 17; 30];
  [31; 16; 16; 30; 16; 16; 31];
  [31; 16; 16; 30; 16; 16; 16];
  [14; 17; 16; 23; 17; 17; 15];
  [17; 17; 17; 31; 17; 17; 17];
  [14; 4; 4; 4; 4; 4; 14];
  [7; 2; 2; 2; 2; 18; 12];
  [17; 18; 20; 24; 20; 18; 17];
  [16; 16; 16; 16; 16; 16; 31];
  [17; 27; 21; 21; 17; 17; 17];
  [17; 25; 21; 21; 19; 17; 17];
  [14; 17; 17; 17; 17; 17; 14];
  [30; 17; 17; 30; 16; 16; 16];
  [14; 17; 17; 17; 21; 18; 13];
  [30; 17; 17; 30; 20; 18; 17];
  [15; 16; 16; 14; 1; 1; 30];
  [31; 4; 4; 4; 4; 4; 4];
  [17; 17; 17; 17; 17; 17; 14];
  [17; 17; 17; 17; 17; 10; 4];
  [17; 17; 17; 21; 21; 27; 17];
  [17; 17; 10; 4; 10; 17; 17];
  [17; 17; 10; 4; 4; 4; 4];
  [31; 1; 2; 4; 8; 16; 31];
  [12; 4; 4; 4; 12; 0; 0];
  [4; 4; 4; 4; 4; 4; 4];
  [6; 2; 2; 2; 12; 0; 0];
  [0; 10; 17; 0; 0; 0; 0]].

Definition pal : list (Z * Z * Z) := [
  (0, 0, 0); (0, 0, 170); (0, 170, 0); (0, 170, 170); (170, 0, 0); (170, 0, 170);
  (170, 85, 0); (170, 170, 170); (85, 85, 85); (85, 85, 255); (85, 255, 85);
  (85, 255, 255); (255, 85, 85); (255, 85, 255); (255, 255, 85); (255, 255, 255)].

Section frame.
Context {HO : Host}.
Implicit Types e : emu.

(** The bit of the glyph of [ch] that covers the pixel at row [gl] and column
    [gc] of its cell. *)
Definition glyph_bit (ch gl gc : Z) : bool :=
  if (WUBU_DOS_FONT_FIRST <=? ch) && (ch <=? WUBU_DOS_FONT_LAST) then
    let idx := ch - WUBU_DOS_FONT_FIRST in
    let gy := gl * 7 / WUBU_DOS_CELL_H in
    let gx := gc * 5 / WUBU_DOS_CELL_W in
    if (gx <? 5) && (gy <? 7) then
      negb (Z.land (Z.shiftr ((wubu_dos_font !!! Z.to_nat idx) !!! Z.to_nat gy) (4 - gx)) 1 =? 0)
    else false
  else false.

(** The colour of the pixel at row [y] and column [x] of the frame. *)
Definition pixel e (y x : Z) : Z * Z * Z :=
  let row := y / WUBU_DOS_CELL_H in
  let col := x / WUBU_DOS_CELL_W in
  let ch := (text (con e) !!! Z.to_nat row) !!! Z.to_nat col in
  let a := (attr (con e) !!! Z.to_nat row) !!! Z.to_nat col in
  let fg := pal !!! Z.to_nat (Z.land a 0x0F) in
  let bg := pal !!! Z.to_nat (Z.land (Z.shiftr a 4) 0x0F) in
  if glyph_bit ch (y mod WUBU_DOS_CELL_H) (x mod WUBU_DOS_CELL_W) then fg else bg.

Definition FRAME_W : Z := WUBU_DOS_TEXT_COLS * WUBU_DOS_CELL_W.
Definition FRAME_H : Z := WUBU_DOS_TEXT_ROWS * WUBU_DOS_CELL_H.

Definition put_pixel e (y x : Z) (rgba : Z -> Z) : Z -> Z :=
  let '(r, g, b) := pixel e y x in
  let o := (y * FRAME_W + x) * 4 in
  wr_mem (o + 3) 255 (wr_mem (o + 2) b (wr_mem (o + 1) g (wr_mem o r rgba))).
Fixpoint frame_row e (y x : Z) (n : nat) (rgba : Z -> Z) : Z -> Z :=
  match n with O => rgba | S n => frame_row e y (x + 1) n (put_pixel e y x rgba) end.
Fixpoint frame_rows e (y : Z) (n : nat) (rgba : Z -> Z) : Z -> Z :=
  match n with O => rgba | S n => frame_rows e (y + 1) n (frame_row e y 0 (Z.to_nat FRAME_W) rgba) end.
(** The buffer afterwards, and the bytes written. *)
Definition wubu_dos_emu_frame_rgba e (rgba : Z -> Z) : (Z -> Z) * Z :=
  (frame_rows e 0 (Z.to_nat FRAME_H) rgba, FRAME_W * FRAME_H * 4).

(** Channel [c] of a pixel: red, green, blue, and full opacity. *)
Definition channel (p : Z * Z * Z) (c : Z) : Z :=
  if c =? 0 then p.1.1 else if c =? 1 then p.1.2 else if c =? 2 then p.2 else 255.

Lemma put_pixel_spec e y x rgba k :
  put_pixel e y x rgba k =
  let o := (y * FRAME_W + x) * 4 in
  if (o <=? k) && (k <? o + 4) then channel (pixel e y x) (k - o) else rgba k.
Proof.
  unfold put_pixel. destruct (pixel e y x) as [[r g] b]. cbv zeta. set (o := (y * FRAME_W + x) * 4).
  clearbody o. unfold wr_mem, channel. cbn [fst snd].
  destruct (Z.leb_spec o k), (Z.ltb_spec k (o + 4)); cbn [andb]; repeat (bcase; try lia); done.
Qed.

(** The pixel an offset belongs to. *)
Definition row_of (k : Z) : Z := k / 4 / FRAME_W.
Definition col_of (k : Z) : Z := (k / 4) mod FRAME_W.

Lemma offset_split k : k = (row_of k * FRAME_W + col_of k) * 4 + k mod 4 /\
  0 <= col_of k < FRAME_W /\ 0 <= k mod 4 < 4.
Proof.
  unfold row_of, col_of. pose proof (Z.div_mod k 4 ltac:(lia)).
  pose proof (Z.div_mod (k / 4) FRAME_W ltac:(done)).
  pose proof (Z.mod_pos_bound (k / 4) FRAME_W ltac:(done)). pose proof (Z.mod_pos_bound k 4 ltac:(lia)). lia.
Qed.

Lemma frame_row_spec e y n : forall x rgba k,
  0 <= x -> x + Z.of_nat n <= FRAME_W ->
  frame_row e y x n rgba k =
  if (row_of k =? y) && (x <=? col_of k) && (col_of k <? x + Z.of_nat n)
  then channel (pixel e y (col_of k)) (k mod 4) else rgba k.
Proof.
  induction n as [|n IH]; intros x rgba k Hx Hn; cbn [frame_row].
  { destruct (Z.ltb_spec (col_of k) (x + Z.of_nat 0)), (Z.leb_spec x (col_of k)); try lia;
      by rewrite ?andb_false_r. }
  rewrite IH by lia. rewrite put_pixel_spec. cbv zeta. destruct (offset_split k) as (Hk & Hc & Hm).
  change FRAME_W with 640 in *.
  destruct (Z.eqb_spec (row_of k) y) as [<-|Hne]; cbn [andb].
  - destruct (Z.eqb_spec (col_of k) x) as [Ex|Hnx]; [rewrite Ex in *|].
    + repeat (bcase; try lia); cbn [andb]; try done; f_equal; lia.
    + repeat (bcase; try lia); done.
  - repeat (bcase; try lia); done.
Qed.

Lemma frame_rows_spec e n : forall y rgba k,
  frame_rows e y n rgba k =
  if (y <=? row_of k) && (row_of k <? y + Z.of_nat n)
  then channel (pixel e (row_of k) (col_of k)) (k mod 4) else rgba k.
Proof.
  induction n as [|n IH]; intros y rgba k; cbn [frame_rows].
  { repeat (bcase; try lia); done. }
  rewrite IH, frame_row_spec by (rewrite ?Z2Nat.id by done; lia).
  destruct (offset_split k) as (_ & Hc & _). rewrite Z2Nat.id by done.
  destruct (Z.eqb_spec (row_of k) y) as [<-|]; repeat (bcase; try lia); done.
Qed.

(** ** The text capture *)

Definition screen_text e : list Z := concat ((fun row => (visible <$> row) ++ [10]) <$> text (con e)).

Lemma emit_take n out l :
  0 < n -> out = take (Z.to_nat (n - 1)) l -> forall c, emit n out c = take (Z.to_nat (n - 1)) (l ++ [c]).
Proof.
  intros Hn -> c. unfold emit. rewrite length_take. bcase.
  - rewrite !take_ge; [done|rewrite length_app; cbn; lia|lia].
  - rewrite take_app_le by lia. done.
Qed.

Lemma emits_take n cs : forall out l,
  0 < n -> out = take (Z.to_nat (n - 1)) l ->
  foldl (emit n) out cs = take (Z.to_nat (n - 1)) (l ++ cs).
Proof.
  induction cs as [|c cs IH]; intros out l Hn Ho; cbn [foldl]; [by rewrite app_nil_r|].
  rewrite (IH _ (l ++ [c])); [by rewrite <- app_assoc|done|by apply emit_take].
Qed.

Lemma text_rows_take n rows : forall out l,
  0 < n -> out = take (Z.to_nat (n - 1)) l ->
  foldl (text_row n) out rows =
  take (Z.to_nat (n - 1)) (l ++ concat ((fun row => (visible <$> row) ++ [10]) <$> rows)).
Proof.
  induction rows as [|row rows IH]; intros out l Hn Ho; cbn [foldl]; [by rewrite app_nil_r|].
  rewrite (IH _ (l ++ (visible <$> row) ++ [10])); [|done|].
  - cbn [fmap list_fmap concat]. by rewrite <- !app_assoc.
  - unfold text_row. rewrite app_assoc. apply emit_take; [done|]. by apply emits_take.
Qed.

(** What the window shows is the screen.  The RGBA frame has, for every
    pixel of its 400 rows of 640, the four bytes of that pixel's colour (the
    foreground of the cell's attribute where the font has a dot, else its
    background; opaque), and no byte outside the 1024000 of the frame is
    written; the text capture is the screen's rows, blanks for empty cells and
    a line feed after each, cut to the caller's buffer with room for the
    terminating NUL. *)
Theorem dos_window_shows_screen rgba out_size k e :
  fits 64 out_size ->
  let '(frame, n) := wubu_dos_emu_frame_rgba e rgba in
  n = 1024000 /\
  frame k = (if (0 <=? k) && (k <? 1024000)
             then channel (pixel e (row_of k) (col_of k)) (k mod 4) else rgba k) /\
  wubu_dos_emu_text out_size e =
    (if out_size =? 0 then [] else take (Z.to_nat (out_size - 1)) (screen_text e)).
Proof.
  intros [Hout _]. unfold wubu_dos_emu_frame_rgba. split_and!; [done| |].
  - rewrite frame_rows_spec. destruct (offset_split k) as (Hk & Hc & Hm).
    rewrite Z2Nat.id by done. change FRAME_H with 400. change FRAME_W with 640 in *.
    repeat (bcase; try lia); done.
  - unfold wubu_dos_emu_text. destruct (Z.eqb_spec out_size 0); [done|].
    rewrite (text_rows_take _ _ [] []); [done|lia|].
    by rewrite take_nil.
Qed.
End frame.

Lemma dos_window_shows_screen_witness :
  let e := boot [0x90] in
  let '(frame, n) := wubu_dos_emu_frame_rgba e (fun _ => 0) in
  n = 1024000 /\
  frame 7 = (if (0 <=? 7) && (7 <? 1024000)
             then channel (pixel e (row_of 7) (col_of 7)) (7 mod 4) else 0) /\
  wubu_dos_emu_text 82 e =
    (if 82 =? 0 then [] else take (Z.to_nat (82 - 1)) (screen_text e)).
Proof. intros e. apply (dos_window_shows_screen (fun _ => 0) 82 7 e). unfold_fits. lia. Defined.
