(* ===== verification/Hive.v ===== *)
(** * The hive container

    [kernel/wubu_hive.c]: blocks of a fixed number of slots, a bit per slot that
    says whether it is dead, and in each block a list of its dead slots threaded
    through the slots themselves.

    A pointer stored in the hive is its address, 0 for NULL.  The linked blocks are
    the list of them in the order of [next], a pointer to a block is its index, and
    [head] and [tail] are the ends of the list.  [allocs] lists the outcomes of the
    coming calls of the caller's [alloc]; when it is exhausted they succeed.  [None]
    is an access outside an array of the block or through an iterator that points
    to no block. *)

From stdpp Require Import gmap.
From S2P Require Import Prelude.
Open Scope Z_scope.

Definition WUBU_HIVE_NONE : Z := 2 ^ 64 - 1.
Definition WUBU_HIVE_DEFAULT_CAP : Z := 32.

Record wubu_hive_block := Block {
  slots : list Z;
  skip : list Z;
  live : Z;
  cap : Z;
  free_head : Z }.

Record wubu_hive := Hive {
  blocks : list wubu_hive_block;
  block_cap : Z;
  size : Z;
  capacity : Z;
  allocs : list bool }.

Record wubu_hive_iter := Iter { block : option nat; idx : Z }.

(** ** The skip field *)

Definition skip_get (b : wubu_hive_block) (i : Z) : option Z :=
  byte ← rd (skip b) (Z.to_nat (Z.shiftr i 3));
  Some (Z.land (Z.shiftr byte (Z.land i 7)) 1).

Definition put_skip (b : wubu_hive_block) (sk : list Z) : wubu_hive_block :=
  Block (slots b) sk (live b) (cap b) (free_head b).

Definition skip_set (b : wubu_hive_block) (i : Z) : option wubu_hive_block :=
  byte ← rd (skip b) (Z.to_nat (Z.shiftr i 3));
  Some (put_skip b (<[Z.to_nat (Z.shiftr i 3) := Z.lor byte (u8 (Z.shiftl 1 (Z.land i 7)))]> (skip b))).

Definition skip_clr (b : wubu_hive_block) (i : Z) : option wubu_hive_block :=
  byte ← rd (skip b) (Z.to_nat (Z.shiftr i 3));
  Some (put_skip b
    (<[Z.to_nat (Z.shiftr i 3) := Z.land byte (u8 (Z.lnot (Z.shiftl 1 (Z.land i 7))))]> (skip b))).

(** ** Blocks *)

(** The links of a block whose slots are all dead. *)
Definition chain_slots (c : Z) : list Z :=
  map (fun i => if Z.of_nat i + 1 <? c then Z.of_nat i + 1 else WUBU_HIVE_NONE) (seq 0 (Z.to_nat c)).

Definition skip_bytes (c : Z) : nat := Z.to_nat (u64 (c + 7) / 8).

(** [alloc] of the caller. *)
Definition alloc (h : wubu_hive) : bool * wubu_hive :=
  match allocs h with
  | [] => (true, h)
  | ok :: rest => (ok, Hive (blocks h) (block_cap h) (size h) (capacity h) rest)
  end.

(** The array of [c] pointers is [c * 8] bytes, computed in 64 bits. *)
Definition wubu_hive_block_new (h : wubu_hive) : option (bool * wubu_hive) :=
  let c := block_cap h in
  let (ok, h) := alloc h in
  if negb ok then Some (false, h) else
  let (ok, h) := alloc h in
  if negb ok then Some (false, h) else
  let (ok, h) := alloc h in
  if negb ok then Some (false, h) else
  if u64 (c * 8) / 8 <? c then None else
  let b := Block (chain_slots c) (replicate (skip_bytes c) 255) 0 c 0 in
  Some (true, Hive (blocks h ++ [b]) c (size h) (u64 (capacity h + c)) (allocs h)).

Definition wubu_hive_new (bc : Z) (outcomes : list bool) : option wubu_hive :=
  let (ok, h) := alloc (Hive [] (if bc =? 0 then WUBU_HIVE_DEFAULT_CAP else bc) 0 0 outcomes) in
  if ok then Some h else None.

Definition wubu_hive_size (h : wubu_hive) : Z := size h.
Definition wubu_hive_capacity (h : wubu_hive) : Z := capacity h.
Definition wubu_hive_block_count (h : wubu_hive) : Z := Z.of_nat (length (blocks h)).
Definition wubu_hive_empty (h : wubu_hive) : bool := size h =? 0.

Definition put_block (h : wubu_hive) (k : nat) (b : wubu_hive_block) (sz : Z) : wubu_hive :=
  Hive (<[k := b]> (blocks h)) (block_cap h) sz (capacity h) (allocs h).

(** ** Inserting *)

(** The first block with a dead slot. *)
Fixpoint find_room (bs : list wubu_hive_block) (k : nat) : option nat :=
  match bs with
  | [] => None
  | b :: bs => if free_head b =? WUBU_HIVE_NONE then find_room bs (S k) else Some k
  end.

(** Pop a dead slot of a block and store [elem] there. *)
Definition fill_block (b : wubu_hive_block) (elem : Z) : option wubu_hive_block :=
  let i := free_head b in
  next ← rd (slots b) (Z.to_nat i);
  b ← skip_clr (Block (<[Z.to_nat i := elem]> (slots b)) (skip b) (live b) (cap b) next) i;
  Some (Block (slots b) (skip b) (u64 (live b + 1)) (cap b) (free_head b)).

Definition fill (h : wubu_hive) (k : nat) (elem : Z) : option (Z * wubu_hive) :=
  b ← blocks h !! k;
  b ← fill_block b elem;
  Some (elem, put_block h k b (u64 (size h + 1))).

Definition wubu_hive_insert (h : wubu_hive) (elem : Z) : option (Z * wubu_hive) :=
  if elem =? 0 then Some (0, h) else
  match find_room (blocks h) 0 with
  | Some k => fill h k elem
  | None =>
      '(ok, h) ← wubu_hive_block_new h;
      if negb ok then Some (0, h) else fill h (length (blocks h) - 1) elem
  end.

(** ** Erasing *)

(** Push slot [i] of a block on its list of dead slots. *)
Definition kill_slot (b : wubu_hive_block) (i : Z) : option wubu_hive_block :=
  _ ← rd (slots b) (Z.to_nat i);
  b ← skip_set (Block (<[Z.to_nat i := free_head b]> (slots b)) (skip b) (live b) (cap b) i) i;
  Some (Block (slots b) (skip b) (u64 (live b - 1)) (cap b) (free_head b)).

Definition wubu_hive_erase_at (h : wubu_hive) (it : wubu_hive_iter) : option (Z * wubu_hive) :=
  match block it with
  | None => Some (0, h)
  | Some k =>
      b ← blocks h !! k;
      if idx it >=? cap b then Some (0, h) else
      dead ← skip_get b (idx it);
      if negb (dead =? 0) then Some (0, h) else
      b ← kill_slot b (idx it);
      Some (1, put_block h k b (u64 (size h - 1)))
  end.

(** ** Iterating *)

(** The first live slot among the [n] slots from [i] on. *)
Fixpoint scan (b : wubu_hive_block) (n : nat) (i : Z) : option Z :=
  match n with
  | O => Some WUBU_HIVE_NONE
  | S n => dead ← skip_get b i; if dead =? 0 then Some i else scan b n (i + 1)
  end.

Definition wubu_hive_block_first_live (b : wubu_hive_block) : option Z := scan b (Z.to_nat (cap b)) 0.

(** The walk over the blocks from the one with index [k] on. *)
Fixpoint first_from (bs : list wubu_hive_block) (k : nat) : option (Z * wubu_hive_iter) :=
  match bs with
  | [] => Some (0, Iter None 0)
  | b :: bs =>
      i ← wubu_hive_block_first_live b;
      if i =? WUBU_HIVE_NONE then first_from bs (S k)
      else e ← rd (slots b) (Z.to_nat i); Some (e, Iter (Some k) i)
  end.

Definition wubu_hive_first (h : wubu_hive) : option (Z * wubu_hive_iter) := first_from (blocks h) 0.

Definition wubu_hive_next (h : wubu_hive) (it : wubu_hive_iter) : option (Z * wubu_hive_iter) :=
  match block it with
  | None => Some (0, it)
  | Some k =>
      b ← blocks h !! k;
      let i := u64 (idx it + 1) in
      j ← scan b (Z.to_nat (cap b - i)) i;
      if j =? WUBU_HIVE_NONE then first_from (drop (S k) (blocks h)) (S k)
      else e ← rd (slots b) (Z.to_nat j); Some (e, Iter (Some k) j)
  end.

(** The loop [for (e = first(h, &it); e; e = next(h, &it))], from a step's result on:
    the elements it visits, with the iterator at each. *)
Fixpoint visit (fuel : nat) (h : wubu_hive) (step : Z * wubu_hive_iter)
    : option (list (Z * wubu_hive_iter)) :=
  if step.1 =? 0 then Some [] else
  match fuel with
  | O => None
  | S fuel =>
      next ← wubu_hive_next h step.2;
      rest ← visit fuel h next;
      Some (step :: rest)
  end.

(** No loop visits more slots than there are. *)
Definition visit_fuel (h : wubu_hive) : nat := sum_list (map (fun b => Z.to_nat (cap b)) (blocks h)).

Definition visits (h : wubu_hive) : option (list (Z * wubu_hive_iter)) :=
  step ← wubu_hive_first h; visit (visit_fuel h) h step.

(** The loop ends at the first slot that holds [elem]. *)
Fixpoint erase_loop (fuel : nat) (h : wubu_hive) (elem : Z) (step : Z * wubu_hive_iter)
    : option (Z * wubu_hive) :=
  if step.1 =? 0 then Some (0, h) else
  if step.1 =? elem then '(_, h) ← wubu_hive_erase_at h step.2; Some (elem, h) else
  match fuel with
  | O => None
  | S fuel => next ← wubu_hive_next h step.2; erase_loop fuel h elem next
  end.

Definition wubu_hive_erase (h : wubu_hive) (elem : Z) : option (Z * wubu_hive) :=
  if elem =? 0 then Some (0, h) else
  step ← wubu_hive_first h; erase_loop (visit_fuel h) h elem step.

(** ** Clearing *)

Definition clear_block (b : wubu_hive_block) : option wubu_hive_block :=
  if Nat.ltb (length (skip b)) (skip_bytes (cap b)) || (Z.of_nat (length (slots b)) <? cap b) then None else
  Some (Block (chain_slots (cap b) ++ drop (Z.to_nat (cap b)) (slots b))
          (replicate (skip_bytes (cap b)) 255 ++ drop (skip_bytes (cap b)) (skip b)) 0 (cap b) 0).

Definition wubu_hive_clear (h : wubu_hive) : option wubu_hive :=
  bs ← mapM clear_block (blocks h);
  Some (Hive bs (block_cap h) 0 (capacity h) (allocs h)).
