(* ===== verification/HiveFacts.v ===== *)
(** * Properties of the hive

    The hive refines a finite map from positions (block, slot) to elements: an
    element stays where it was put until it is erased, and iteration visits the
    positions of the map in order. *)

From stdpp Require Import gmap sorting.
From S2P Require Import Prelude Hive.
Open Scope Z_scope.

(** ** The skip field as a set of slots *)

Definition dead (sk : list Z) (i : nat) : bool :=
  match sk !! (i / 8)%nat with Some x => Z.testbit x (Z.of_nat (i mod 8)) | None => true end.

Lemma skip_index (i : nat) :
  Z.to_nat (Z.shiftr (Z.of_nat i) 3) = (i / 8)%nat /\ Z.land (Z.of_nat i) 7 = Z.of_nat (i mod 8).
Proof.
  split.
  - rewrite Z.shiftr_div_pow2 by lia. change (2 ^ 3) with (Z.of_nat 8). rewrite <- Nat2Z.inj_div. lia.
  - change 7 with (Z.ones 3). rewrite Z.land_ones by lia. change (2 ^ 3) with (Z.of_nat 8).
    by rewrite <- Nat2Z.inj_mod.
Qed.

Lemma in_skip (sk : list Z) (i : nat) : (i / 8 < length sk)%nat -> exists x, sk !! (i / 8)%nat = Some x.
Proof. intros [x Hx]%lookup_lt_is_Some_2. eauto. Qed.

Lemma skip_get_spec b (i : nat) :
  (i / 8 < length (skip b))%nat -> skip_get b (Z.of_nat i) = Some (b2z (dead (skip b) i)).
Proof.
  intros [x Hx]%in_skip. destruct (skip_index i) as [H1 H2]. unfold skip_get, rd, dead. rewrite H1, H2, Hx.
  cbn. f_equal. change 1 with (Z.ones 1). rewrite Z.land_ones by lia. rewrite <- Z.bit0_mod.
  rewrite Z.shiftr_spec by lia. by rewrite Z.add_0_l.
Qed.

Lemma pow2_byte (j : nat) : (j < 8)%nat -> u8 (Z.shiftl 1 (Z.of_nat j)) = 2 ^ Z.of_nat j.
Proof. intros. do 8 (destruct j as [|j]; [reflexivity|]). lia. Qed.

Lemma testbit_set x (j k : nat) : (j < 8)%nat ->
  Z.testbit (Z.lor x (u8 (Z.shiftl 1 (Z.of_nat j)))) (Z.of_nat k) = bool_decide (k = j) || Z.testbit x (Z.of_nat k).
Proof.
  intros. rewrite pow2_byte by done. rewrite Z.lor_spec, Z.pow2_bits_eqb by lia.
  rewrite orb_comm. f_equal. destruct (Z.eqb_spec (Z.of_nat j) (Z.of_nat k)), (bool_decide_reflect (k = j)); lia || done.
Qed.

Lemma testbit_clr x (j k : nat) : (j < 8)%nat -> (k < 8)%nat ->
  Z.testbit (Z.land x (u8 (Z.lnot (Z.shiftl 1 (Z.of_nat j))))) (Z.of_nat k)
  = negb (bool_decide (k = j)) && Z.testbit x (Z.of_nat k).
Proof.
  intros Hj Hk. rewrite Z.land_spec, andb_comm. f_equal. unfold wrap. rewrite Z.mod_pow2_bits_low by lia.
  rewrite Z.lnot_spec, Z.shiftl_1_l, Z.pow2_bits_eqb by lia. f_equal.
  destruct (Z.eqb_spec (Z.of_nat j) (Z.of_nat k)), (bool_decide_reflect (k = j)); lia || done.
Qed.

Lemma same_slot (i j : nat) : (i / 8 = j / 8 -> i mod 8 = j mod 8 -> i = j)%nat.
Proof. intros H1 H2. rewrite (Nat.div_mod_eq i 8), (Nat.div_mod_eq j 8). congruence. Qed.

Lemma dead_insert sk (i j : nat) x y (f : bool) :
  sk !! (i / 8)%nat = Some x ->
  (forall k, (k < 8)%nat -> Z.testbit y (Z.of_nat k) = if bool_decide (k = (i mod 8)%nat) then f else Z.testbit x (Z.of_nat k)) ->
  dead (<[(i / 8)%nat := y]> sk) j = if bool_decide (j = i) then f else dead sk j.
Proof.
  intros Hx Hy. unfold dead. destruct (decide (j / 8 = i / 8)%nat) as [He|Hne].
  - rewrite He, list_lookup_insert_eq, Hx by (apply lookup_lt_Some in Hx; lia).
    rewrite Hy by (apply Nat.mod_upper_bound; lia).
    destruct (bool_decide_reflect (j mod 8 = i mod 8)%nat), (bool_decide_reflect (j = i)); try done.
    + by destruct n; apply same_slot.
    + congruence.
  - rewrite list_lookup_insert_ne by done. by rewrite bool_decide_eq_false_2 by congruence.
Qed.

Lemma skip_set_spec b (i : nat) :
  (i / 8 < length (skip b))%nat ->
  exists sk, skip_set b (Z.of_nat i) = Some (put_skip b sk) /\ length sk = length (skip b) /\
    forall j, dead sk j = if bool_decide (j = i) then true else dead (skip b) j.
Proof.
  intros [x Hx]%in_skip. destruct (skip_index i) as [H1 H2]. unfold skip_set, rd. rewrite H1, H2, Hx. cbn [mbind option_bind].
  eexists. split; [reflexivity|]. rewrite length_insert. split; [done|]. intros j.
  apply dead_insert with x; [done|]. intros k Hk. rewrite testbit_set by (apply Nat.mod_upper_bound; lia).
  by case_bool_decide.
Qed.

Lemma skip_clr_spec b (i : nat) :
  (i / 8 < length (skip b))%nat ->
  exists sk, skip_clr b (Z.of_nat i) = Some (put_skip b sk) /\ length sk = length (skip b) /\
    forall j, dead sk j = if bool_decide (j = i) then false else dead (skip b) j.
Proof.
  intros [x Hx]%in_skip. destruct (skip_index i) as [H1 H2]. unfold skip_clr, rd. rewrite H1, H2, Hx. cbn [mbind option_bind].
  eexists. split; [reflexivity|]. rewrite length_insert. split; [done|]. intros j.
  apply dead_insert with x; [done|]. intros k Hk.
  rewrite testbit_clr by (done || (apply Nat.mod_upper_bound; lia)). by case_bool_decide.
Qed.

(** ** Blocks *)

(** [fl] are the slots the list from [head] on threads. *)
Fixpoint chain (sl : list Z) (head : Z) (fl : list nat) : Prop :=
  match fl with
  | [] => head = WUBU_HIVE_NONE
  | i :: fl => head = Z.of_nat i /\ exists next, sl !! i = Some next /\ chain sl next fl
  end.

Definition cell (b : wubu_hive_block) (i : nat) : option Z :=
  if dead (skip b) i then None else slots b !! i.

(** A block of [c] slots whose dead slots are [fl]. *)
Record block_ok (c : nat) (fl : list nat) (b : wubu_hive_block) : Prop := {
  bk_cap : cap b = Z.of_nat c;
  bk_slots : length (slots b) = c;
  bk_skip : length (skip b) = skip_bytes (Z.of_nat c);
  bk_chain : chain (slots b) (free_head b) fl;
  bk_nodup : NoDup fl;
  bk_dead : forall i, (i < c)%nat -> (i ∈ fl <-> dead (skip b) i = true);
  bk_range : Forall (fun i => (i < c)%nat) fl;
  bk_elem : forall i x, cell b i = Some x -> x <> 0;
  bk_live : live b = u64 (Z.of_nat c - Z.of_nat (length fl)) }.

Definition cap_ok (c : nat) : Prop := 0 < Z.of_nat c < 2 ^ 61.

Lemma skip_room c i : cap_ok c -> (i < c)%nat -> (i / 8 < skip_bytes (Z.of_nat c))%nat.
Proof.
  unfold cap_ok, skip_bytes. intros. rewrite wrap_id by (unfold_fits; lia).
  apply Nat2Z.inj_lt. rewrite Z2Nat.id by (apply Z.div_pos; lia).
  rewrite Nat2Z.inj_div. change (Z.of_nat 8) with 8. Z.to_euclidean_division_equations. lia.
Qed.

Lemma chain_insert sl head fl i x : i ∉ fl -> chain sl head fl -> chain (<[i := x]> sl) head fl.
Proof.
  revert head. induction fl as [|j fl IH]; intros head Hi; [done|]. cbn. intros (-> & nx & Hj & Hc).
  split; [done|]. exists nx. rewrite list_lookup_insert_ne by set_solver. split; [done|].
  apply IH; [set_solver|done].
Qed.

Lemma cell_range c fl b i x : block_ok c fl b -> cell b i = Some x -> (i < c)%nat.
Proof.
  intros Hb. unfold cell. destruct (dead _ _); [done|]. intros H%lookup_lt_Some. by rewrite (bk_slots _ _ _ Hb) in H.
Qed.

Lemma full_block c fl b : block_ok c fl b -> cap_ok c -> free_head b = WUBU_HIVE_NONE <-> fl = [].
Proof.
  intros Hb Hc. pose proof (bk_chain _ _ _ Hb) as H. pose proof (bk_range _ _ _ Hb) as Hr.
  destruct fl as [|i fl]; [by cbn in H|]. cbn in H. destruct H as [-> _]. apply Forall_cons in Hr as [Hr _].
  unfold WUBU_HIVE_NONE, cap_ok in *. split; [lia|done].
Qed.

(** Filling the first dead slot. *)
Lemma fill_block_spec c i fl b e :
  cap_ok c -> block_ok c (i :: fl) b -> e <> 0 ->
  exists b', fill_block b e = Some b' /\ block_ok c fl b' /\ cell b i = None /\
    forall j, cell b' j = if bool_decide (j = i) then Some e else cell b j.
Proof.
  intros Hc Hb He. destruct (bk_chain _ _ _ Hb) as (Hf & nx & Hi & Hch).
  pose proof (bk_nodup _ _ _ Hb) as Hnd. apply NoDup_cons in Hnd as [Hn Hnd].
  pose proof (bk_range _ _ _ Hb) as Hr. apply Forall_cons in Hr as [Hri Hr].
  unfold fill_block, rd. rewrite Hf, Nat2Z.id, Hi. cbn [mbind option_bind].
  set (b1 := Block _ _ _ _ _).
  destruct (skip_clr_spec b1 i) as (sk & -> & Hl & Hd).
  { cbn. rewrite (bk_skip _ _ _ Hb). by apply skip_room. }
  cbn [mbind option_bind]. eexists. split; [reflexivity|].
  assert (forall j, cell (Block (<[i := e]> (slots b)) sk (u64 (live b + 1)) (cap b) nx) j
    = if bool_decide (j = i) then Some e else cell b j) as Hcell.
  { intros j. unfold cell. cbn. rewrite Hd. case_bool_decide as Hj; cbn.
    - subst j. by rewrite list_lookup_insert_eq by (rewrite (bk_slots _ _ _ Hb); lia).
    - by rewrite list_lookup_insert_ne by done. }
  split_and!; [| |done].
  - split; cbn.
    + apply Hb.
    + rewrite length_insert. apply Hb.
    + rewrite Hl. apply Hb.
    + by apply chain_insert.
    + done.
    + intros j Hj. rewrite Hd. pose proof (bk_dead _ _ _ Hb j Hj) as Hdj.
      case_bool_decide; cbn; [subst; split; [done|done]|]. rewrite <- Hdj. set_solver.
    + done.
    + intros j x. rewrite Hcell. case_bool_decide; [naive_solver|apply Hb].
    + rewrite (bk_live _ _ _ Hb). unfold wrap. rewrite Zplus_mod_idemp_l. f_equal. cbn [length]. lia.
  - unfold cell. by rewrite (proj1 (bk_dead _ _ _ Hb i Hri)) by set_solver.
Qed.

(** Killing a live slot. *)
Lemma kill_slot_spec c i fl b x :
  cap_ok c -> block_ok c fl b -> cell b i = Some x ->
  exists b', kill_slot b (Z.of_nat i) = Some b' /\ block_ok c (i :: fl) b' /\
    forall j, cell b' j = if bool_decide (j = i) then None else cell b j.
Proof.
  intros Hc Hb Hx. assert (i < c)%nat as Hi by eauto using cell_range.
  assert (dead (skip b) i = false /\ slots b !! i = Some x) as [Hdi Hs].
  { unfold cell in Hx. by destruct (dead _ _). }
  assert (i ∉ fl) as Hn by (rewrite (bk_dead _ _ _ Hb i Hi); congruence).
  unfold kill_slot, rd. rewrite Nat2Z.id, Hs. cbn [mbind option_bind]. set (b1 := Block _ _ _ _ _).
  destruct (skip_set_spec b1 i) as (sk & -> & Hl & Hd).
  { cbn. rewrite (bk_skip _ _ _ Hb). by apply skip_room. }
  cbn [mbind option_bind]. eexists. split; [reflexivity|].
  assert (forall j, cell (Block (<[i := free_head b]> (slots b)) sk (u64 (live b - 1)) (cap b) (Z.of_nat i)) j
    = if bool_decide (j = i) then None else cell b j) as Hcell.
  { intros j. unfold cell. cbn. rewrite Hd. case_bool_decide as Hj; cbn; [done|].
    by rewrite list_lookup_insert_ne by done. }
  split; [|done]. split; cbn.
  - apply Hb.
  - rewrite length_insert. apply Hb.
  - rewrite Hl. apply Hb.
  - split; [done|]. exists (free_head b). rewrite list_lookup_insert_eq by (rewrite (bk_slots _ _ _ Hb); lia).
    split; [done|]. apply chain_insert; [done|apply Hb].
  - apply NoDup_cons. split; [done|apply Hb].
  - intros j Hj. rewrite Hd. pose proof (bk_dead _ _ _ Hb j Hj) as Hdj.
    case_bool_decide; cbn; [subst; split; [done|set_solver]|]. rewrite <- Hdj. set_solver.
  - apply Forall_cons. split; [done|apply Hb].
  - intros j y. rewrite Hcell. case_bool_decide; [done|apply Hb].
  - rewrite (bk_live _ _ _ Hb). unfold wrap. rewrite Zminus_mod_idemp_l. f_equal. lia.
Qed.

(** A block all of whose slots are dead. *)
Lemma chain_slots_lookup (c i : nat) : (i < c)%nat ->
  chain_slots (Z.of_nat c) !! i = Some (if Z.of_nat i + 1 <? Z.of_nat c then Z.of_nat i + 1 else WUBU_HIVE_NONE).
Proof.
  intros. unfold chain_slots. rewrite list_lookup_fmap, Nat2Z.id, lookup_seq_lt by done. done.
Qed.

Lemma length_chain_slots (c : nat) : length (chain_slots (Z.of_nat c)) = c.
Proof. unfold chain_slots. by rewrite length_fmap, length_seq, Nat2Z.id. Qed.

Lemma chain_fresh c n i : (i + S n = c)%nat -> chain (chain_slots (Z.of_nat c)) (Z.of_nat i) (seq i (S n)).
Proof.
  revert i. induction n as [|n IH]; intros i Hi; (split; [done|]).
  all: rewrite chain_slots_lookup by lia; eexists; split; [reflexivity|].
  - rewrite (proj2 (Z.ltb_ge _ _)) by lia. done.
  - rewrite (proj2 (Z.ltb_lt _ _)) by lia. replace (Z.of_nat i + 1) with (Z.of_nat (S i)) by lia. apply IH. lia.
Qed.

Lemma dead_fresh n i : dead (replicate n 255) i = true.
Proof.
  unfold dead. destruct (_ !! _) as [x|] eqn:E; [|done]. apply lookup_replicate in E as [-> _].
  generalize (Nat.mod_upper_bound i 8 ltac:(lia)). generalize (i mod 8)%nat. intros r Hr.
  do 8 (destruct r as [|r]; [reflexivity|]). lia.
Qed.

Lemma fresh_block_ok c : cap_ok c ->
  block_ok c (seq 0 c) (Block (chain_slots (Z.of_nat c)) (replicate (skip_bytes (Z.of_nat c)) 255) 0 (Z.of_nat c) 0).
Proof.
  intros Hc. split; cbn.
  - done.
  - apply length_chain_slots.
  - by rewrite length_replicate.
  - unfold cap_ok in Hc. destruct c as [|c]; [lia|]. by apply (chain_fresh (S c) c 0).
  - apply NoDup_seq.
  - intros i Hi. rewrite dead_fresh, elem_of_seq. split; [done|lia].
  - apply Forall_forall. intros i. rewrite elem_of_seq. lia.
  - intros i x. unfold cell. cbn. by rewrite dead_fresh.
  - rewrite length_seq. by replace (_ - _) with 0 by lia.
Qed.

Lemma fresh_cell c b i : skip b = replicate (skip_bytes (Z.of_nat c)) 255 -> cell b i = None.
Proof. intros H. unfold cell. by rewrite H, dead_fresh. Qed.

(** ** The hive as a map *)

Definition cell_at (h : wubu_hive) (k i : nat) : option Z := b ← blocks h !! k; cell b i.

(** [m] gives the element at each position. *)
Record repr (c : nat) (h : wubu_hive) (m : gmap (nat * nat) Z) : Prop := {
  rp_c : cap_ok c;
  rp_cap : block_cap h = Z.of_nat c;
  rp_blocks : Forall (fun b => exists fl, block_ok c fl b) (blocks h);
  rp_capacity : capacity h = u64 (Z.of_nat c * Z.of_nat (length (blocks h)));
  rp_cells : forall k i, m !! (k, i) = cell_at h k i;
  rp_size : size h = u64 (Z.of_nat (base.size m)) }.

Lemma repr_block c h m k b : repr c h m -> blocks h !! k = Some b -> exists fl, block_ok c fl b.
Proof. intros Hr. apply (Forall_lookup_1 _ _ _ _ (rp_blocks _ _ _ Hr)). Qed.

Lemma repr_cell c h m k b i : repr c h m -> blocks h !! k = Some b -> m !! (k, i) = cell b i.
Proof. intros Hr Hb. rewrite (rp_cells _ _ _ Hr). unfold cell_at. by rewrite Hb. Qed.

(** Replacing a block in which one cell changed. *)
Lemma put_block_repr c h m k b b' fl i v sz :
  repr c h m -> blocks h !! k = Some b -> block_ok c fl b' ->
  (forall j, cell b' j = if bool_decide (j = i) then v else cell b j) ->
  sz = u64 (Z.of_nat (base.size (partial_alter (fun _ => v) (k, i) m))) ->
  repr c (put_block h k b' sz) (partial_alter (fun _ => v) (k, i) m).
Proof.
  intros Hr Hb Hb' Hj Hsz. split; cbn; try apply Hr; [| |intros k' i'|done].
  - apply Forall_insert; [apply Hr|eauto].
  - rewrite length_insert. apply Hr.
  - unfold cell_at. cbn. destruct (decide (k' = k)) as [->|Hk].
    + rewrite list_lookup_insert_eq by eauto using lookup_lt_Some. cbn. rewrite Hj.
      case_bool_decide as Hi; [subst; apply lookup_partial_alter_eq|].
      rewrite lookup_partial_alter_ne by congruence. by apply (repr_cell c h).
    + rewrite list_lookup_insert_ne by done. rewrite lookup_partial_alter_ne by congruence.
      apply (rp_cells _ _ _ Hr).
Qed.

Lemma u64_succ n : u64 (u64 (Z.of_nat n) + 1) = u64 (Z.of_nat (S n)).
Proof. unfold wrap. rewrite Zplus_mod_idemp_l. f_equal. lia. Qed.

Lemma u64_pred n : (0 < n)%nat -> u64 (u64 (Z.of_nat n) - 1) = u64 (Z.of_nat (pred n)).
Proof. intros. unfold wrap. rewrite Zminus_mod_idemp_l. f_equal. lia. Qed.

(** Storing an element in a block that has a dead slot. *)
Lemma fill_spec c h m k b e :
  repr c h m -> blocks h !! k = Some b -> free_head b <> WUBU_HIVE_NONE -> e <> 0 ->
  exists i h', fill h k e = Some (e, h') /\ (i < c)%nat /\ m !! (k, i) = None /\ repr c h' (<[(k, i) := e]> m) /\
    length (blocks h') = length (blocks h) /\ allocs h' = allocs h.
Proof.
  intros Hr Hb Hf He. destruct (repr_block _ _ _ _ _ Hr Hb) as [fl Hok]. pose proof (rp_c _ _ _ Hr) as Hc.
  destruct fl as [|i fl]; [by destruct Hf; apply (full_block c [] b)|].
  destruct (fill_block_spec c i fl b e Hc Hok He) as (b' & Hfb & Hok' & Hi & Hcell).
  unfold fill. rewrite Hb. cbn [mbind option_bind]. rewrite Hfb. cbn [mbind option_bind].
  assert (m !! (k, i) = None) as Hm by (by rewrite (repr_cell _ _ _ _ _ _ Hr Hb)).
  eexists i, _. split_and!; [reflexivity| | | | |].
  - pose proof (bk_range _ _ _ Hok) as H. by apply Forall_cons in H as [? _].
  - done.
  - apply (put_block_repr c h m k b b' fl i (Some e)); try done.
    change (partial_alter _ _ _) with (<[(k, i) := e]> m). rewrite map_size_insert_None by done.
    rewrite (rp_size _ _ _ Hr). apply u64_succ.
  - cbn. apply length_insert.
  - done.
Qed.

Lemma find_room_spec bs k :
  match find_room bs k with
  | Some j => exists b, (k <= j)%nat /\ bs !! (j - k)%nat = Some b /\ free_head b <> WUBU_HIVE_NONE
  | None => Forall (fun b => free_head b = WUBU_HIVE_NONE) bs
  end.
Proof.
  revert k. induction bs as [|b bs IH]; intros k; cbn; [done|].
  destruct (Z.eqb_spec (free_head b) WUBU_HIVE_NONE) as [E|E].
  - specialize (IH (S k)). destruct (find_room bs (S k)) as [j|]; [|by constructor].
    destruct IH as (b' & Hj & Hl & Hf). exists b'. replace (j - k)%nat with (S (j - S k)) by lia. split; [lia|done].
  - exists b. rewrite Nat.sub_diag. done.
Qed.

(** A failing allocation among the next three. *)
Definition alloc_fails (h : wubu_hive) : Prop := false ∈ take 3 (allocs h).

Lemma repr_allocs c h m al : repr c h m -> repr c (Hive (blocks h) (block_cap h) (size h) (capacity h) al) m.
Proof. intros Hr. split; apply Hr. Qed.

Lemma block_new_spec c h m :
  repr c h m ->
  exists ok h', wubu_hive_block_new h = Some (ok, h') /\ repr c h' m /\
    if ok then exists b, blocks h' = blocks h ++ [b] /\ free_head b = 0 else blocks h' = blocks h /\ alloc_fails h.
Proof.
  intros Hr. destruct h as [bs bc sz cp al]. pose proof (rp_cap _ _ _ Hr) as Hbc. pose proof (rp_c _ _ _ Hr) as Hc.
  cbn in Hbc. subst bc.
  assert (forall al', exists h', (if u64 (Z.of_nat c * 8) / 8 <? Z.of_nat c then None else
    Some (true, Hive (bs ++ [Block (chain_slots (Z.of_nat c)) (replicate (skip_bytes (Z.of_nat c)) 255) 0 (Z.of_nat c) 0])
                 (Z.of_nat c) sz (u64 (cp + Z.of_nat c)) al')) = Some (true, h') /\ repr c h' m /\
    exists b, blocks h' = bs ++ [b] /\ free_head b = 0) as Hnew.
  { intros al'. unfold cap_ok in Hc. rewrite wrap_id by (unfold_fits; lia). rewrite Z.div_mul by lia.
    rewrite Z.ltb_irrefl. eexists. split; [reflexivity|]. split; [|eexists; split; [reflexivity|done]].
    split; cbn; try apply Hr; [| |intros k i].
    - apply Forall_app. split; [apply Hr|]. constructor; [|done]. eexists. by apply fresh_block_ok.
    - pose proof (rp_capacity _ _ _ Hr) as Hcp. cbn in Hcp. rewrite Hcp, length_app. cbn. unfold wrap. rewrite Zplus_mod_idemp_l. f_equal. lia.
    - rewrite (rp_cells _ _ _ Hr). unfold cell_at. cbn. destruct (decide (k < length bs)%nat) as [Hk|Hk].
      + by rewrite lookup_app_l.
      + rewrite (lookup_ge_None_2 bs), lookup_app_r by lia.
        destruct (k - length bs)%nat; [|done]. symmetry. by apply (fresh_cell c). }
  unfold wubu_hive_block_new, alloc, alloc_fails. cbn.
  destruct al as [|[] [|[] [|[] al]]]; cbn.
  all: try (destruct (Hnew []) as (h' & -> & ? & ?); by exists true, h').
  all: try (destruct (Hnew al) as (h' & -> & ? & ?); by exists true, h').
  all: eexists false, _; split; [reflexivity|]; split; [by eapply (repr_allocs c (Hive bs _ sz cp _))|].
  all: split; [done|set_solver].
Qed.

(** All positions of a hive. *)
Definition positions (c : nat) (h : wubu_hive) (p : nat * nat) : Prop := (p.1 < length (blocks h) /\ p.2 < c)%nat.

Lemma repr_position c h m p x : repr c h m -> m !! p = Some x -> positions c h p.
Proof.
  destruct p as [k i]. intros Hr. rewrite (rp_cells _ _ _ Hr). unfold cell_at.
  destruct (blocks h !! k) as [b|] eqn:Hb; [|done]. cbn. intros Hx.
  destruct (repr_block _ _ _ _ _ Hr Hb) as [fl Hok].
  split; cbn; [by eapply lookup_lt_Some|by eapply cell_range].
Qed.

Lemma full_cells c h m :
  repr c h m -> Forall (fun b => free_head b = WUBU_HIVE_NONE) (blocks h) ->
  forall p, positions c h p -> is_Some (m !! p).
Proof.
  intros Hr Hf [k i] [Hk Hi]. cbn in *. apply lookup_lt_is_Some_2 in Hk as [b Hb].
  destruct (repr_block _ _ _ _ _ Hr Hb) as [fl Hok].
  rewrite (repr_cell _ _ _ _ _ _ Hr Hb).
  assert (fl = []) as -> by (apply (full_block c fl b Hok (rp_c _ _ _ Hr)); by eapply Forall_lookup_1 in Hf).
  unfold cell. destruct (dead (skip b) i) eqn:Hd.
  - apply (bk_dead _ _ _ Hok i Hi) in Hd. set_solver.
  - apply lookup_lt_is_Some_2. by rewrite (bk_slots _ _ _ Hok).
Qed.

(** ** Inserting and erasing *)

Lemma insert_spec c h m e :
  repr c h m -> e <> 0 ->
  exists r h', wubu_hive_insert h e = Some (r, h') /\
    (r = e /\ (exists p, positions c h' p /\ m !! p = None /\ repr c h' (<[p := e]> m)) \/
     r = 0 /\ repr c h' m /\ alloc_fails h /\ forall p, positions c h p -> is_Some (m !! p)).
Proof.
  intros Hr He. unfold wubu_hive_insert. rewrite (proj2 (Z.eqb_neq e 0)) by done.
  pose proof (find_room_spec (blocks h) 0) as Hf. destruct (find_room (blocks h) 0) as [k|].
  - destruct Hf as (b & _ & Hb & Hfree). rewrite Nat.sub_0_r in Hb.
    destruct (fill_spec c h m k b e Hr Hb Hfree He) as (i & h' & -> & Hi & Hm & Hr' & Hl & _).
    exists e, h'. split; [done|]. left. split; [done|]. exists (k, i). split; [|done].
    split; cbn; [rewrite Hl; by eapply lookup_lt_Some|done].
  - destruct (block_new_spec c h m Hr) as (ok & h1 & -> & Hr1 & Hok). cbn [mbind option_bind]. destruct ok; cbn [negb].
    + destruct Hok as (b & Hbs & Hfree). assert (blocks h1 !! (length (blocks h1) - 1)%nat = Some b) as Hb.
      { rewrite Hbs, length_app. cbn. rewrite lookup_app_r by lia. by replace (_ - _)%nat with 0%nat by lia. }
      destruct (fill_spec c h1 m _ b e Hr1 Hb) as (i & h' & -> & Hi & Hm & Hr' & Hl & _); [by rewrite Hfree|done|].
      exists e, h'. split; [done|]. left. split; [done|]. exists ((length (blocks h1) - 1)%nat, i).
      split; [|done]. split; cbn; [rewrite Hl; by eapply lookup_lt_Some|done].
    + destruct Hok as [Hbs Hfail]. exists 0, h1. split; [done|]. right. split_and!; try done.
      by apply full_cells.
Qed.

Definition at_pos (k i : nat) : wubu_hive_iter := Iter (Some k) (Z.of_nat i).

Lemma erase_at_spec c h m k i :
  repr c h m -> (k < length (blocks h))%nat ->
  exists r h', wubu_hive_erase_at h (at_pos k i) = Some (r, h') /\ repr c h' (delete (k, i) m) /\
    length (blocks h') = length (blocks h) /\
    match m !! (k, i) with Some _ => r = 1 | None => r = 0 /\ h' = h end.
Proof.
  intros Hr [b Hb]%lookup_lt_is_Some_2. destruct (repr_block _ _ _ _ _ Hr Hb) as [fl Hok].
  pose proof (repr_cell _ _ _ _ _ i Hr Hb) as Hm. pose proof (rp_c _ _ _ Hr) as Hc.
  unfold wubu_hive_erase_at. cbn [block at_pos idx]. rewrite Hb. cbn [mbind option_bind].
  rewrite (bk_cap _ _ _ Hok).
  assert (m !! (k, i) = None -> repr c h (delete (k, i) m)) as Hnone by (intros; by rewrite delete_id).
  destruct (Z.geb_spec (Z.of_nat i) (Z.of_nat c)) as [Hi|Hi].
  { assert (m !! (k, i) = None) as HN.
    { destruct (m !! (k, i)) as [x|] eqn:Hx; [|done]. apply (repr_position c h) in Hx as [_ Hx]; [cbn in Hx; lia|done]. }
    rewrite HN. eauto 10. }
  rewrite skip_get_spec by (rewrite (bk_skip _ _ _ Hok); apply skip_room; [done|lia]). cbn [mbind option_bind].
  unfold cell in Hm. destruct (dead (skip b) i) eqn:Hd; cbn.
  { rewrite Hm. eauto 10. }
  destruct (lookup_lt_is_Some_2 (slots b) i) as [x Hx]; [rewrite (bk_slots _ _ _ Hok); lia|].
  rewrite Hx in Hm. rewrite Hm.
  destruct (kill_slot_spec c i fl b x Hc Hok) as (b' & -> & Hok' & Hcell); [by unfold cell; rewrite Hd|].
  eexists _, _. split; [reflexivity|]. split_and!; [|cbn; apply length_insert|done].
  apply (put_block_repr c h m k b b' (i :: fl) i None); try done.
  change (partial_alter _ _ _) with (delete (k, i) m).
  rewrite map_size_delete_Some by eauto. rewrite (rp_size _ _ _ Hr). apply u64_pred.
  apply Nat.neq_0_lt_0. intros E%map_size_empty_iff. subst. by rewrite lookup_empty in Hm.
Qed.
