(* ===== verification/HiveTheorems.v ===== *)
(** * What the hive promises

    [first] and [next] go through the live positions block by block and slot by
    slot.  Elements keep their positions, iteration sees each once, and the hive is a bag
    of pointers to its clients. *)

From stdpp Require Import gmap sorting.
From S2P Require Import Prelude Hive HiveFacts.
Open Scope Z_scope.

(** ** Iterating *)

Abbreviation entry := ((nat * nat) * Z)%type.

(** The live slots among the [n] from [i] on of block [k]. *)
Definition block_entries (k : nat) (b : wubu_hive_block) (i n : nat) : list entry :=
  omap (fun j => x ← cell b j; Some ((k, j), x)) (seq i n).

Lemma block_entries_S k b i n :
  block_entries k b i (S n) =
  match cell b i with Some x => [((k, i), x)] | None => [] end ++ block_entries k b (S i) n.
Proof. unfold block_entries. cbn. by destruct (cell b i). Qed.

Fixpoint entries_from (c : nat) (bs : list wubu_hive_block) (k : nat) : list entry :=
  match bs with
  | [] => []
  | b :: bs => block_entries k b 0 c ++ entries_from c bs (S k)
  end.

(** The entries of a hive from a position on. *)
Definition from (c : nat) (h : wubu_hive) (k i : nat) : list entry :=
  match blocks h !! k with
  | Some b => block_entries k b i (c - i) ++ entries_from c (drop (S k) (blocks h)) (S k)
  | None => []
  end.

(** What [first] or [next] give when [l] is still to come. *)
Definition step_of (l : list entry) : Z * wubu_hive_iter :=
  match l with [] => (0, Iter None 0) | ((k, i), x) :: _ => (x, at_pos k i) end.

Section iterating.
  Context (c : nat) (h : wubu_hive) (m : gmap (nat * nat) Z).
  Hypothesis Hr : repr c h m.

Lemma from_start k : from c h k 0 = entries_from c (drop k (blocks h)) k.
Proof using.
  unfold from. destruct (blocks h !! k) as [b|] eqn:Hb.
  - rewrite (drop_S _ _ _ Hb). cbn. by rewrite Nat.sub_0_r.
  - apply lookup_ge_None in Hb. by rewrite drop_ge.
Qed.

(** Looking for the next live slot of one block. *)
Lemma scan_spec k b fl n i :
  block_ok c fl b -> (i + n = c)%nat ->
  (scan b n (Z.of_nat i) = Some WUBU_HIVE_NONE /\ block_entries k b i n = []) \/
  exists j x, (j < c)%nat /\ scan b n (Z.of_nat i) = Some (Z.of_nat j) /\ cell b j = Some x /\
    block_entries k b i n = ((k, j), x) :: block_entries k b (S j) (c - S j).
Proof using Hr.
  intros Hok. revert i. induction n as [|n IH]; intros i Hi; [by left|].
  cbn [scan]. rewrite skip_get_spec
    by (rewrite (bk_skip _ _ _ Hok); apply skip_room; [apply Hr|lia]).
  cbn [mbind option_bind]. rewrite block_entries_S.
  destruct (dead (skip b) i) eqn:Hd; cbn [b2z Z.eqb].
  - replace (Z.of_nat i + 1) with (Z.of_nat (S i)) by lia.
    assert (cell b i = None) as -> by (by unfold cell; rewrite Hd). apply IH. lia.
  - destruct (lookup_lt_is_Some_2 (slots b) i) as [x Hx]; [rewrite (bk_slots _ _ _ Hok); lia|].
    assert (cell b i = Some x) as Hc by (by unfold cell; rewrite Hd).
    right. exists i, x. rewrite Hc. split_and!; [lia|done|done|]. cbn [app]. do 2 f_equal. lia.
Qed.

Lemma live_elem k i x : cell_at h k i = Some x -> x <> 0.
Proof using Hr.
  unfold cell_at. destruct (blocks h !! k) as [b|] eqn:Hb; [|done]. cbn.
  destruct (repr_block _ _ _ _ _ Hr Hb) as [fl Hok]. apply (bk_elem _ _ _ Hok).
Qed.

(** One block, then the rest. *)
Lemma from_step k i :
  (i <= c)%nat ->
  from c h k i = [] \/
  exists k' i' x, cell_at h k' i' = Some x /\ (i' < c)%nat /\ from c h k i = ((k', i'), x) :: from c h k' (S i').
Proof using Hr.
  remember (length (blocks h) - k)%nat as n eqn:Hn. revert k i Hn. induction n as [|n IH]; intros k i Hn Hi.
  - left. unfold from. by rewrite lookup_ge_None_2 by lia.
  - destruct (lookup_lt_is_Some_2 (blocks h) k) as [b Hb]; [lia|].
    destruct (repr_block _ _ _ _ _ Hr Hb) as [fl Hok].
    destruct (scan_spec k b fl (c - i) i Hok) as [[_ He]|(j & x & Hj & _ & Hc & He)]; [lia| |].
    + assert (from c h k i = from c h (S k) 0) as ->.
      { rewrite from_start. unfold from. by rewrite Hb, He. }
      apply IH; lia.
    + right. exists k, j, x. unfold cell_at, from. rewrite Hb. cbn. by rewrite He.
Qed.

Lemma first_from_spec k : first_from (drop k (blocks h)) k = Some (step_of (from c h k 0)).
Proof using Hr.
  remember (length (blocks h) - k)%nat as n eqn:Hn. revert k Hn. induction n as [|n IH]; intros k Hn.
  - rewrite drop_ge by lia. unfold from. by rewrite lookup_ge_None_2 by lia.
  - destruct (lookup_lt_is_Some_2 (blocks h) k) as [b Hb]; [lia|]. rewrite (drop_S _ _ _ Hb). cbn [first_from].
    destruct (repr_block _ _ _ _ _ Hr Hb) as [fl Hok]. unfold wubu_hive_block_first_live.
    rewrite (bk_cap _ _ _ Hok), Nat2Z.id. change 0 with (Z.of_nat 0) at 1.
    destruct (scan_spec k b fl c 0 Hok) as [[-> He]|(j & x & Hj & -> & Hc & He)]; [lia| |].
    + cbn [mbind option_bind Z.eqb]. rewrite Z.eqb_refl, IH by lia. do 2 f_equal.
      rewrite from_start. unfold from. by rewrite Hb, Nat.sub_0_r, He.
    + cbn [mbind option_bind]. pose proof (rp_c _ _ _ Hr) as Hcap. unfold cap_ok in Hcap.
      rewrite (proj2 (Z.eqb_neq _ _)) by (unfold WUBU_HIVE_NONE; lia). unfold rd. rewrite Nat2Z.id.
      assert (slots b !! j = Some x) as -> by (unfold cell in Hc; by destruct (dead _ _)).
      cbn. unfold from. by rewrite Hb, Nat.sub_0_r, He.
Qed.

Lemma first_spec : wubu_hive_first h = Some (step_of (from c h 0 0)).
Proof using Hr. apply (first_from_spec 0). Qed.

Lemma next_spec k i :
  (k < length (blocks h))%nat -> (i < c)%nat -> wubu_hive_next h (at_pos k i) = Some (step_of (from c h k (S i))).
Proof using Hr.
  intros [b Hb]%lookup_lt_is_Some_2 Hi. destruct (repr_block _ _ _ _ _ Hr Hb) as [fl Hok].
  pose proof (rp_c _ _ _ Hr) as Hcap. unfold cap_ok in Hcap.
  unfold wubu_hive_next. cbn [block at_pos idx]. rewrite Hb. cbn [mbind option_bind].
  rewrite wrap_id by (unfold_fits; lia). replace (Z.of_nat i + 1) with (Z.of_nat (S i)) by lia.
  rewrite (bk_cap _ _ _ Hok). replace (Z.to_nat _) with (c - S i)%nat by lia.
  destruct (scan_spec k b fl (c - S i) (S i) Hok) as [[-> He]|(j & x & Hj & -> & Hc & He)]; [lia| |].
  - cbn [mbind option_bind]. rewrite Z.eqb_refl, first_from_spec, from_start. unfold from. by rewrite Hb, He.
  - cbn [mbind option_bind]. rewrite (proj2 (Z.eqb_neq _ _)) by (unfold WUBU_HIVE_NONE; lia).
    unfold rd. rewrite Nat2Z.id.
    assert (slots b !! j = Some x) as -> by (unfold cell in Hc; by destruct (dead _ _)).
    cbn. unfold from. by rewrite Hb, He.
Qed.
End iterating.

(** ** The order of the entries *)

Definition pos_lt (p q : nat * nat) : Prop := (p.1 < q.1 \/ p.1 = q.1 /\ p.2 < q.2)%nat.
Definition before (x y : entry) : Prop := pos_lt x.1 y.1.

Lemma elem_of_block_entries k b i n (e : entry) :
  e ∈ block_entries k b i n <-> e.1.1 = k /\ (i <= e.1.2 < i + n)%nat /\ cell b e.1.2 = Some e.2.
Proof.
  destruct e as [[k' j] x]. unfold block_entries. rewrite list_elem_of_omap. cbn. split.
  - intros (j' & Hj & He). rewrite elem_of_seq in Hj. destruct (cell b j') eqn:Hc; [|done]. cbn in He.
    injection He as <- <- <-. done.
  - intros (-> & Hj & Hc). exists j. rewrite elem_of_seq, Hc. done.
Qed.

Lemma elem_of_entries_from c bs k (e : entry) :
  e ∈ entries_from c bs k <->
  exists r b, bs !! r = Some b /\ e.1.1 = (k + r)%nat /\ (e.1.2 < c)%nat /\ cell b e.1.2 = Some e.2.
Proof.
  revert k. induction bs as [|b bs IH]; intros k; cbn.
  - split; [intros H; by apply not_elem_of_nil in H|by intros (? & ? & ? & _)].
  - rewrite elem_of_app, elem_of_block_entries, IH. split.
    + intros [(H1 & H2 & H3)|(r & b' & Hr & H1 & H2 & H3)].
      * exists 0%nat, b. split_and!; [done|lia|lia|done].
      * exists (S r), b'. split_and!; [done|lia|lia|done].
    + intros ([|r] & b' & Hr & H1 & H2 & H3); cbn in Hr.
      * injection Hr as <-. left. split_and!; [lia|lia|lia|done].
      * right. exists r, b'. split_and!; [done|lia|lia|done].
Qed.

Lemma block_entries_sorted k b i n : StronglySorted before (block_entries k b i n).
Proof.
  revert i. induction n as [|n IH]; intros i; [constructor|]. rewrite block_entries_S.
  destruct (cell b i) as [x|]; [|apply IH]. constructor; [apply IH|]. apply Forall_forall.
  intros e (He & Hl & _)%elem_of_block_entries. right. cbn. split; [done|lia].
Qed.

Lemma entries_from_sorted c bs k : StronglySorted before (entries_from c bs k).
Proof.
  revert k. induction bs as [|b bs IH]; intros k; cbn; [constructor|].
  apply StronglySorted_app_2; [|apply block_entries_sorted|apply IH].
  intros e1 e2 (H1 & _)%elem_of_block_entries (r & _ & _ & H2 & _)%elem_of_entries_from. left. lia.
Qed.

Lemma sorted_nodup (l : list entry) : StronglySorted before l -> NoDup l.*1.
Proof.
  induction 1 as [|e l Hs IH Hf]; cbn; [constructor|]. constructor; [|done].
  intros (e' & He & Hin)%list_elem_of_fmap. rewrite Forall_forall in Hf. specialize (Hf e' Hin).
  unfold before, pos_lt in Hf. rewrite <- He in Hf. lia.
Qed.

Lemma length_block_entries k b i n : (length (block_entries k b i n) <= n)%nat.
Proof.
  revert i. induction n as [|n IH]; intros i; [done|]. rewrite block_entries_S, length_app. specialize (IH (S i)).
  destruct (cell b i); cbn; lia.
Qed.

(** The entries of a hive, in the order of iteration. *)
Definition entries (c : nat) (h : wubu_hive) : list entry := from c h 0 0.
Definition stop (e : entry) : Z * wubu_hive_iter := (e.2, at_pos e.1.1 e.1.2).

Section visiting.
  Context (c : nat) (h : wubu_hive) (m : gmap (nat * nat) Z).
  Hypothesis Hr : repr c h m.

Lemma entries_fuel : (length (entries c h) <= visit_fuel h)%nat.
Proof using Hr.
  unfold entries, visit_fuel. rewrite from_start. rewrite drop_0. pose proof (rp_blocks _ _ _ Hr) as Hb.
  generalize 0%nat. induction (blocks h) as [|b bs IH]; intros k; cbn; [lia|].
  apply Forall_cons in Hb as [[fl Hok] Hb]. rewrite length_app, (bk_cap _ _ _ Hok), Nat2Z.id.
  pose proof (length_block_entries k b 0 c). specialize (IH Hb (S k)). lia.
Qed.

Lemma elem_of_entries p x : (p, x) ∈ entries c h <-> m !! p = Some x.
Proof using Hr.
  destruct p as [k i]. unfold entries. rewrite from_start, drop_0, elem_of_entries_from. cbn.
  rewrite (rp_cells _ _ _ Hr). unfold cell_at. split.
  - intros (r & b & Hb & -> & _ & Hc). by rewrite Hb.
  - destruct (blocks h !! k) as [b|] eqn:Hb; [|done]. cbn. intros Hc.
    destruct (repr_block _ _ _ _ _ Hr Hb) as [fl Hok]. exists k, b. split_and!; try done. by eapply cell_range.
Qed.

Lemma entries_sorted : StronglySorted before (entries c h).
Proof using. unfold entries. rewrite from_start. apply entries_from_sorted. Qed.

Lemma entries_perm : entries c h ≡ₚ map_to_list m.
Proof using Hr.
  apply NoDup_Permutation.
  - apply (NoDup_fmap_1 fst), sorted_nodup, entries_sorted.
  - apply NoDup_map_to_list.
  - intros [p x]. rewrite elem_of_entries. by rewrite elem_of_map_to_list.
Qed.

Lemma entry_nonnull p x : m !! p = Some x -> x <> 0.
Proof using Hr. destruct p as [k i]. rewrite (rp_cells _ _ _ Hr). by apply (live_elem c h m). Qed.

Lemma cell_block k i x : cell_at h k i = Some x -> (k < length (blocks h))%nat.
Proof using. unfold cell_at. intros H. apply lookup_lt_is_Some. by destruct (blocks h !! k). Qed.

Lemma visit_spec fuel k i :
  (i <= c)%nat -> (length (from c h k i) <= fuel)%nat ->
  visit fuel h (step_of (from c h k i)) = Some (map stop (from c h k i)).
Proof using Hr.
  revert k i. induction fuel as [|fuel IH]; intros k i Hi Hl;
    destruct (from_step c h m Hr k i Hi) as [E|(k' & i' & x & Hx & Hi' & E)]; rewrite E in *; try done.
  { cbn in Hl. lia. }
  cbn [step_of visit fst snd].
  rewrite (proj2 (Z.eqb_neq x 0)) by (eapply (live_elem c h m Hr); done).
  rewrite (next_spec c h m Hr) by (done || by eapply cell_block). cbn [mbind option_bind].
  rewrite IH; [done|lia|]. cbn in Hl. lia.
Qed.

Lemma visits_spec : visits h = Some (map stop (entries c h)).
Proof using Hr.
  unfold visits. rewrite (first_spec c h m Hr). apply visit_spec; [lia|apply entries_fuel].
Qed.

(** Erasing takes the first slot that holds the element. *)
Lemma erase_loop_spec fuel e k i :
  e <> 0 -> (i <= c)%nat -> (length (from c h k i) <= fuel)%nat ->
  (Forall (fun y => y.2 <> e) (from c h k i) /\ erase_loop fuel h e (step_of (from c h k i)) = Some (0, h)) \/
  exists l1 p l2, from c h k i = l1 ++ (p, e) :: l2 /\ Forall (fun y => y.2 <> e) l1 /\ m !! p = Some e /\
    erase_loop fuel h e (step_of (from c h k i)) =
      (wubu_hive_erase_at h (at_pos p.1 p.2) ≫= fun rh => Some (e, rh.2)).
Proof using Hr.
  intros He. revert k i. induction fuel as [|fuel IH]; intros k i Hi Hl;
    destruct (from_step c h m Hr k i Hi) as [E|(k' & i' & x & Hx & Hi' & E)]; rewrite E in *; try by left.
  { cbn in Hl. lia. }
  cbn [step_of erase_loop fst snd].
  rewrite (proj2 (Z.eqb_neq x 0)) by (eapply (live_elem c h m Hr); done).
  destruct (Z.eqb_spec x e) as [->|Hne].
  - right. exists [], (k', i'), (from c h k' (S i')). split_and!; try done; [by rewrite (rp_cells _ _ _ Hr)|].
    cbn [fst snd]. by destruct (wubu_hive_erase_at h (at_pos k' i')) as [[]|].
  - rewrite (next_spec c h m Hr) by (done || by eapply cell_block). cbn [mbind option_bind].
    destruct (IH k' (S i')) as [[Hf He']|(l1 & p & l2 & Hs & Hf & Hp & He')]; [lia|cbn in Hl; lia| |].
    + left. split; [by constructor|done].
    + right. exists (((k', i'), x) :: l1), p, l2. split_and!; try done; [by rewrite Hs|by constructor].
Qed.

Lemma erase_spec e :
  e <> 0 ->
  exists r h', wubu_hive_erase h e = Some (r, h') /\
    (r = 0 /\ h' = h /\ (forall p, m !! p <> Some e) \/
     r = e /\ exists p, m !! p = Some e /\ (forall q, pos_lt q p -> m !! q <> Some e) /\ repr c h' (delete p m)).
Proof using Hr.
  intros He. unfold wubu_hive_erase. rewrite (proj2 (Z.eqb_neq e 0)), (first_spec c h m Hr) by done.
  cbn [mbind option_bind].
  destruct (erase_loop_spec (visit_fuel h) e 0 0 He) as [[Hf ->]|(l1 & p & l2 & Hs & Hf & Hp & ->)];
    [lia|apply entries_fuel| |].
  - exists 0, h. split; [done|]. left. split_and!; try done. intros p Hp.
    apply elem_of_entries in Hp. rewrite Forall_forall in Hf. by apply (Hf _ Hp).
  - destruct (erase_at_spec c h m p.1 p.2 Hr) as (r & h' & -> & Hr' & _).
    { eapply repr_position in Hp as [? _]; eauto. }
    cbn. eexists _, _. split; [reflexivity|]. right. split; [done|]. exists p. split; [done|].
    replace (p.1, p.2) with p in Hr' by (by destruct p). split; [|done]. intros q Hq Hm.
    apply elem_of_entries in Hm. pose proof entries_sorted as Hss. unfold entries in Hm, Hss. rewrite Hs in Hm, Hss.
    apply elem_of_app in Hm as [Hm|Hm].
    + rewrite Forall_forall in Hf. by apply (Hf _ Hm).
    + apply StronglySorted_app_1_r in Hss. apply elem_of_cons in Hm as [Hm|Hm].
      * injection Hm as ->. unfold pos_lt in Hq. lia.
      * apply StronglySorted_inv in Hss as [_ Hss]. rewrite Forall_forall in Hss. specialize (Hss _ Hm).
        unfold before, pos_lt in Hss. cbn in Hss. unfold pos_lt in Hq. lia.
Qed.
End visiting.

(** What is left to visit depends only on the cells from there on. *)
Lemma block_entries_ext k b b' i n :
  (forall j, (i <= j)%nat -> cell b j = cell b' j) -> block_entries k b i n = block_entries k b' i n.
Proof.
  revert i. induction n as [|n IH]; intros i Hj; [done|]. rewrite !block_entries_S, Hj, IH; auto with lia.
Qed.

Lemma entries_from_ext c bs bs' k :
  Forall2 (fun b b' => forall j, cell b j = cell b' j) bs bs' -> entries_from c bs k = entries_from c bs' k.
Proof.
  intros H. revert k. induction H as [|b b' bs bs' Hb _ IH]; intros k; cbn; [done|].
  rewrite IH. f_equal. by apply block_entries_ext.
Qed.

Lemma from_ext c h h' k i :
  length (blocks h) = length (blocks h') ->
  (forall k' j, (k < k' \/ k = k' /\ i <= j)%nat -> cell_at h k' j = cell_at h' k' j) ->
  from c h k i = from c h' k i.
Proof.
  intros Hl Hc. unfold from. destruct (blocks h !! k) as [b|] eqn:Hb.
  - destruct (lookup_lt_is_Some_2 (blocks h') k) as [b' Hb']; [rewrite <- Hl; by eapply lookup_lt_Some|].
    rewrite Hb'. f_equal.
    + apply block_entries_ext. intros j Hj. specialize (Hc k j ltac:(lia)). unfold cell_at in Hc. by rewrite Hb, Hb' in Hc.
    + apply entries_from_ext, Forall2_same_length_lookup. rewrite !length_drop. split; [lia|].
      intros r x y. rewrite !lookup_drop. intros Hx Hy j. specialize (Hc (S k + r)%nat j ltac:(lia)).
      unfold cell_at in Hc. by rewrite Hx, Hy in Hc.
  - apply lookup_ge_None in Hb. by rewrite lookup_ge_None_2 by lia.
Qed.

(** Erasing the slot an iterator is at does not disturb the iteration. *)
Lemma erase_at_next c h m k i r h' :
  repr c h m -> (k < length (blocks h))%nat -> (i < c)%nat ->
  wubu_hive_erase_at h (at_pos k i) = Some (r, h') ->
  wubu_hive_next h' (at_pos k i) = wubu_hive_next h (at_pos k i).
Proof.
  intros Hr Hk Hi He. destruct (erase_at_spec c h m k i Hr Hk) as (r1 & h1 & He1 & Hr' & Hl & _).
  rewrite He in He1. injection He1 as <- <-.
  rewrite (next_spec c h m Hr), (next_spec c h' _ Hr') by (done || lia). do 2 f_equal.
  apply from_ext; [done|]. intros k' j Hj.
  rewrite <- (rp_cells _ _ _ Hr), <- (rp_cells _ _ _ Hr'). apply lookup_delete_ne. intros [= -> ->]. lia.
Qed.

(** ** Clearing *)

Lemma clear_block_spec c fl b :
  cap_ok c -> block_ok c fl b ->
  clear_block b = Some (Block (chain_slots (Z.of_nat c)) (replicate (skip_bytes (Z.of_nat c)) 255) 0 (Z.of_nat c) 0).
Proof.
  intros Hc Hok. unfold clear_block. rewrite (bk_cap _ _ _ Hok), (bk_slots _ _ _ Hok), (bk_skip _ _ _ Hok).
  rewrite Nat.ltb_irrefl, Z.ltb_irrefl, Nat2Z.id. cbn [orb].
  rewrite !drop_ge by (rewrite ?(bk_slots _ _ _ Hok), ?(bk_skip _ _ _ Hok); lia). by rewrite !app_nil_r.
Qed.

Lemma clear_spec c h m :
  repr c h m -> exists h', wubu_hive_clear h = Some h' /\ repr c h' ∅ /\ capacity h' = capacity h.
Proof.
  intros Hr. pose proof (rp_c _ _ _ Hr) as Hc. set (b0 := Block (chain_slots (Z.of_nat c)) (replicate (skip_bytes (Z.of_nat c)) 255) 0 (Z.of_nat c) 0).
  assert (mapM clear_block (blocks h) = Some (replicate (length (blocks h)) b0)) as Hm.
  { apply mapM_Some_2. apply Forall2_same_length_lookup. rewrite length_replicate. split; [done|].
    intros i x y Hx [-> _]%lookup_replicate. destruct (repr_block _ _ _ _ _ Hr Hx) as [fl Hok].
    by eapply clear_block_spec. }
  unfold wubu_hive_clear. rewrite Hm. cbn. eexists. split; [reflexivity|]. split; [|done].
  split; cbn; try apply Hr.
  - apply Forall_replicate. eexists. by apply fresh_block_ok.
  - rewrite length_replicate. apply Hr.
  - intros k i. rewrite lookup_empty. unfold cell_at. cbn. destruct (replicate _ _ !! k) as [x|] eqn:E; [|done].
    apply lookup_replicate in E as [-> _]. symmetry. by apply (fresh_cell c).
  - by rewrite map_size_empty.
Qed.

Lemma new_spec bc outcomes h :
  0 <= bc < 2 ^ 61 -> wubu_hive_new bc outcomes = Some h -> exists c, repr c h ∅.
Proof.
  intros Hbc. unfold wubu_hive_new, alloc. cbn. intros Hn.
  assert (0 < (if bc =? 0 then WUBU_HIVE_DEFAULT_CAP else bc) < 2 ^ 61) as Hc.
  { unfold WUBU_HIVE_DEFAULT_CAP. destruct (Z.eqb_spec bc 0); lia. }
  exists (Z.to_nat (if bc =? 0 then WUBU_HIVE_DEFAULT_CAP else bc)).
  assert (block_cap h = (if bc =? 0 then WUBU_HIVE_DEFAULT_CAP else bc) /\ blocks h = [] /\ size h = 0 /\ capacity h = 0)
    as (H1 & H2 & H3 & H4).
  { destruct outcomes as [|[] rest]; by inversion Hn. }
  split.
  - unfold cap_ok. lia.
  - rewrite H1. lia.
  - by rewrite H2.
  - rewrite H4, H2. cbn. by rewrite Z.mul_0_r.
  - intros k i. rewrite lookup_empty. unfold cell_at. by rewrite H2.
  - rewrite H3. by rewrite map_size_empty.
Qed.

(** C26. A hive refines a finite map from positions to elements.  A new hive is the empty
    map.  Inserting stores the element at a position that was free and moves no other
    element; it fails only when every position is taken and the allocator fails.
    Erasing removes the first position that holds the element, if there is one;
    erasing at a live position removes that one; clearing removes all and keeps the
    capacity.  [size] counts the elements, and no operation leaves its arrays. *)
Theorem hive_refines_position_map (bc : Z) (outcomes : list bool) (h0 : wubu_hive) :
  0 <= bc < 2 ^ 61 -> wubu_hive_new bc outcomes = Some h0 ->
  exists c, repr c h0 ∅ /\ forall h m, repr c h m ->
    wubu_hive_size h = u64 (Z.of_nat (base.size m)) /\
    (forall e, e <> 0 -> exists r h', wubu_hive_insert h e = Some (r, h') /\
       (r = e /\ (exists p, positions c h' p /\ m !! p = None /\ repr c h' (<[p := e]> m)) \/
        r = 0 /\ repr c h' m /\ alloc_fails h /\ forall p, positions c h p -> is_Some (m !! p))) /\
    (forall e, e <> 0 -> exists r h', wubu_hive_erase h e = Some (r, h') /\
       (r = 0 /\ h' = h /\ (forall p, m !! p <> Some e) \/
        r = e /\ exists p, m !! p = Some e /\ (forall q, pos_lt q p -> m !! q <> Some e) /\
          repr c h' (delete p m))) /\
    (forall k i, (k < length (blocks h))%nat -> exists r h',
       wubu_hive_erase_at h (at_pos k i) = Some (r, h') /\ repr c h' (delete (k, i) m) /\
       (r = 1 <-> is_Some (m !! (k, i)))) /\
    (exists h', wubu_hive_clear h = Some h' /\ repr c h' ∅ /\ wubu_hive_capacity h' = wubu_hive_capacity h).
Proof.
  intros Hbc Hn. destruct (new_spec _ _ _ Hbc Hn) as [c H0]. exists c. split; [done|]. intros h m Hr.
  split_and!.
  - apply (rp_size _ _ _ Hr).
  - intros e He. by apply insert_spec.
  - intros e He. by apply (erase_spec c h m).
  - intros k i Hk. destruct (erase_at_spec c h m k i Hr Hk) as (r & h' & He & Hr' & _ & Hm).
    exists r, h'. split_and!; try done. destruct (m !! (k, i)) as [x|].
    + subst r. split; [by eexists|done].
    + destruct Hm as [-> _]. split; [done|by intros [? [=]]].
  - by apply (clear_spec c h m).
Qed.

Definition small_hive : wubu_hive := Hive [] 2 0 0 [].

Lemma hive_refines_position_map_witness :
  exists c, repr c small_hive ∅ /\ forall e, e <> 0 -> exists r h', wubu_hive_insert small_hive e = Some (r, h').
Proof.
  destruct (hive_refines_position_map 2 [] small_hive) as (c & Hr & H).
  - lia.
  - reflexivity.
  - exists c. split; [exact Hr|]. intros e He. destruct (H _ _ Hr) as (_ & Hi & _).
    destruct (Hi e He) as (r & h' & E & _). exists r, h'. exact E.
Defined.

(** The loop [for (e = first; e; e = next)] visits every element of the hive exactly
    once, block by block and slot by slot, and ends; erasing the element the iterator
    is at does not change what it visits next. *)
Theorem hive_iteration_visits_each_once c h m :
  repr c h m ->
  (exists l, visits h = Some (map stop l) /\ l ≡ₚ map_to_list m /\ StronglySorted before l) /\
  (forall k i r h', (k < length (blocks h))%nat -> (i < c)%nat ->
     wubu_hive_erase_at h (at_pos k i) = Some (r, h') ->
     wubu_hive_next h' (at_pos k i) = wubu_hive_next h (at_pos k i)).
Proof.
  intros Hr. split.
  - exists (entries c h). split_and!; [by eapply visits_spec|by apply entries_perm|apply entries_sorted].
  - intros k i r h' Hk Hi. by eapply erase_at_next.
Qed.

Lemma small_hive_repr : repr 2 small_hive ∅.
Proof. by split. Qed.

Lemma hive_iteration_visits_each_once_witness :
  exists l, visits small_hive = Some (map stop l) /\ l ≡ₚ map_to_list (∅ : gmap (nat * nat) Z).
Proof.
  destruct (hive_iteration_visits_each_once 2 small_hive ∅ small_hive_repr) as [(l & Hv & Hp & _) _].
  exists l. split; assumption.
Defined.

(** ** The hive as a bag

    What a client that stores pointers relies on. *)

Class BagOps (H : Type) := {
  bag_insert : H -> Z -> option (Z * H);
  bag_erase : H -> Z -> option (Z * H);
  bag_elems : H -> option (list Z);
  bag_clear : H -> option H }.

Class Bag (H : Type) `{BagOps H} := {
  bag_holds : H -> list Z -> Prop;
  bag_reliable : H -> Prop;
  bag_perm : forall h l l', bag_holds h l -> l ≡ₚ l' -> bag_holds h l';
  bag_elems_ok : forall h l, bag_holds h l -> exists l', bag_elems h = Some l' /\ l' ≡ₚ l;
  bag_insert_ok : forall h l e, bag_holds h l -> e <> 0 -> exists r h', bag_insert h e = Some (r, h') /\
    (r = e /\ bag_holds h' (e :: l) \/ r = 0 /\ bag_holds h' l /\ ~ bag_reliable h) /\
    (bag_reliable h -> bag_reliable h');
  bag_erase_ok : forall h l e, bag_holds h (e :: l) -> exists h', bag_erase h e = Some (e, h') /\ bag_holds h' l /\
    (bag_reliable h -> bag_reliable h');
  bag_clear_ok : forall h l, bag_holds h l -> exists h', bag_clear h = Some h' /\ bag_holds h' [] }.

#[export] Instance hive_bag_ops : BagOps wubu_hive := {
  bag_insert := wubu_hive_insert;
  bag_erase := wubu_hive_erase;
  bag_elems h := l ← visits h; Some (l.*1);
  bag_clear := wubu_hive_clear }.

Definition hive_holds (h : wubu_hive) (l : list Z) : Prop :=
  exists c m, repr c h m /\ l ≡ₚ (map_to_list m).*2.

Lemma fill_allocs h k e r h' : fill h k e = Some (r, h') -> allocs h' = allocs h.
Proof.
  unfold fill. destruct (blocks h !! k) as [b|]; cbn; [|done].
  destruct (fill_block b e) as [b'|]; cbn; [|done]. by intros [= <- <-].
Qed.

Lemma insert_allocs h e r h' : wubu_hive_insert h e = Some (r, h') -> allocs h = [] -> allocs h' = [].
Proof.
  unfold wubu_hive_insert. intros Hi Ha. destruct (e =? 0); [by injection Hi as <- <-|].
  destruct (find_room _ _); [apply fill_allocs in Hi; congruence|].
  unfold wubu_hive_block_new, alloc in Hi. rewrite Ha in Hi. cbn in Hi. rewrite Ha in Hi. cbn in Hi. rewrite Ha in Hi.
  cbn in Hi. destruct (_ <? _); cbn in Hi; [done|]. apply fill_allocs in Hi. cbn in Hi. congruence.
Qed.

Lemma erase_at_allocs h it r h' : wubu_hive_erase_at h it = Some (r, h') -> allocs h' = allocs h.
Proof.
  unfold wubu_hive_erase_at. destruct (block it) as [k|]; [|by intros [= <- <-]].
  destruct (blocks h !! k) as [b|]; cbn; [|done]. destruct (idx it >=? cap b); [by intros [= <- <-]|].
  destruct (skip_get b (idx it)) as [d|]; cbn; [|done]. destruct (negb (d =? 0)); [by intros [= <- <-]|].
  destruct (kill_slot b (idx it)) as [b'|]; cbn; [|done]. by intros [= <- <-].
Qed.

Lemma erase_loop_allocs fuel h e step r h' : erase_loop fuel h e step = Some (r, h') -> allocs h' = allocs h.
Proof.
  revert step. induction fuel as [|fuel IH]; intros step; cbn [erase_loop];
    (destruct (step.1 =? 0); [by intros [= <- <-]|]).
  all: destruct (step.1 =? e); [|try done].
  all: try (destruct (wubu_hive_erase_at h step.2) as [[r1 h1]|] eqn:E; cbn; [|done]; intros [= <- <-];
            by apply erase_at_allocs in E).
  destruct (wubu_hive_next h step.2) as [nx|]; cbn; [apply IH|done].
Qed.

#[export] Program Instance hive_bag : Bag wubu_hive := {
  bag_holds := hive_holds;
  bag_reliable h := allocs h = [] }.
Next Obligation. intros h l l' (c & m & Hr & Hl) Hp. exists c, m. split; [done|]. by rewrite <- Hp. Qed.
Next Obligation.
  intros h l (c & m & Hr & Hl). cbn. rewrite (visits_spec c h m Hr). cbn. eexists. split; [reflexivity|].
  rewrite Hl. rewrite <- (entries_perm c h m Hr). unfold stop. rewrite <- list_fmap_compose. done.
Qed.
Next Obligation.
  intros h l e (c & m & Hr & Hl) He. destruct (insert_spec c h m e Hr He) as (r & h' & Hi & Hc).
  exists r, h'. split_and!; [done| |by eapply insert_allocs].
  destruct Hc as [(-> & p & _ & Hp & Hr')|(-> & Hr' & Hf & _)].
  - left. split; [done|]. exists c, (<[p := e]> m). split; [done|]. rewrite map_to_list_insert by done. by rewrite Hl.
  - right. split_and!; [done|by exists c, m|]. unfold alloc_fails in Hf. intros Ha. rewrite Ha in Hf. set_solver.
Qed.
Next Obligation.
  intros h l e (c & m & Hr & Hl).
  assert (exists p, m !! p = Some e) as [p Hp].
  { assert (e ∈ (map_to_list m).*2) as He by (rewrite <- Hl; set_solver).
    apply list_elem_of_fmap in He as ([p x] & -> & Hp%elem_of_map_to_list). eauto. }
  assert (e <> 0) as He by (by eapply entry_nonnull).
  destruct (erase_spec c h m Hr e He) as (r & h' & Hi & [(-> & _ & Hn)|(-> & q & Hq & _ & Hr')]).
  { by destruct (Hn p). }
  exists h'. split_and!; [done| |].
  2:{ unfold wubu_hive_erase in Hi. rewrite (proj2 (Z.eqb_neq e 0)) in Hi by done.
      destruct (wubu_hive_first h) as [step|]; cbn in Hi; [|done]. apply erase_loop_allocs in Hi. congruence. }
  exists c, (delete q m). split; [done|].
  rewrite <- (insert_delete_id m q e Hq) in Hl. rewrite map_to_list_insert in Hl by apply lookup_delete_eq.
  by apply Permutation_cons_inv in Hl.
Qed.
Next Obligation.
  intros h l (c & m & Hr & _). destruct (clear_spec c h m Hr) as (h' & Hc & Hr' & _).
  exists h'. split; [done|]. exists c, ∅. split; [done|]. by rewrite map_to_list_empty.
Qed.
