(* ===== verification/Spaces.v ===== *)
(** * The registry of compilation spaces

    [runtime/wubu_runtime.c] and [runtime/wubu_runtime_personalities.c]: named
    spaces in a bag of pointers, a ring that recycles the oldest, a file format,
    and the dispatch of a space's system calls.

    The registry keeps pointers to its slots in a hive; the theorems use it through
    [BagOps].  [mem] is the memory the slots live in, a pointer is its address, and
    [None] is a use of a slot that is not allocated (or, when loading, a read past
    the end of a text field).  [callocs] lists the outcomes of the coming calls of
    [calloc]; when it is exhausted they succeed, and the address is the allocator's
    choice.  A [char] array is its text, up to the terminator. *)

From stdpp Require Import gmap.
From S2P Require Import Prelude HiveTheorems.
Open Scope Z_scope.

(** [wubu_rt_state_t] *)
Definition WUBU_RT_COLD : Z := 0.
Definition WUBU_RT_WARM : Z := 1.
Definition WUBU_RT_LIVE : Z := 2.
Definition WUBU_RT_FROZEN : Z := 3.
Definition WUBU_RT_SANDBOX_REFUSED : Z := -10000.

(** The built-in dispatch tables. *)
Inductive personality := Posix | Image | Wasi.
#[export] Instance personality_eq_dec : EqDecision personality.
Proof. solve_decision. Defined.

Record wubu_rt_space := Space {
  sp_id : Z;
  sp_name : list Z;
  sp_language : list Z;
  sp_compiler_ver : list Z;
  sp_language_ver : list Z;
  sp_abi_snapshot : list Z;
  sp_created : list Z;
  sp_namespace_path : list Z;
  sp_heap_cap : Z;
  sp_heap_used : Z;
  sp_state : Z;
  sp_personality : option personality }.

Record rt_slot := Slot { space : wubu_rt_space; seq_no : Z }.

(** Where [calloc] puts the next slot. *)
Class Malloc := { fresh : gmap Z rt_slot -> Z }.
Class MallocLaws `{Malloc} := {
  fresh_nonnull : forall m, fresh m <> 0;
  fresh_free : forall m, m !! fresh m = None }.

Record wubu_runtime {H : Type} := Runtime {
  hive : H;
  max_spaces : Z;
  default_heap_cap : Z;
  n_live : Z;
  next_id : Z;
  mem : gmap Z rt_slot;
  callocs : list bool }.
Arguments wubu_runtime : clear implicits.
Arguments Runtime {H}.

(** [snprintf(buf, n, "%s", s)] *)
Definition text (n : nat) (s : list Z) : list Z := take (n - 1) (cstr s).

(** "%0wd" of a number that is not negative. *)
Fixpoint digits (fuel : nat) (n : Z) : list Z :=
  match fuel with
  | O => []
  | S fuel => if n <? 10 then [48 + n] else digits fuel (n / 10) ++ [48 + n mod 10]
  end.
Definition dec (w : nat) (n : Z) : list Z := let d := digits 20 n in replicate (w - length d) 48 ++ d.

Record tm := { tm_year : Z; tm_mon : Z; tm_mday : Z }.

Definition today (cap : nat) (t : tm) : list Z :=
  text cap (dec 4 (tm_year t + 1900) ++ [45] ++ dec 2 (tm_mon t + 1) ++ [45] ++ dec 2 (tm_mday t)).

Section runtime.
  Context {H : Type} `{BagOps H} `{Malloc}.
  Implicit Types rt : wubu_runtime H.

Definition put_hive rt (h : H) : wubu_runtime H :=
  Runtime h (max_spaces rt) (default_heap_cap rt) (n_live rt) (next_id rt) (mem rt) (callocs rt).
Definition put_mem rt (m : gmap Z rt_slot) : wubu_runtime H :=
  Runtime (hive rt) (max_spaces rt) (default_heap_cap rt) (n_live rt) (next_id rt) m (callocs rt).
Definition put_live rt (n : Z) : wubu_runtime H :=
  Runtime (hive rt) (max_spaces rt) (default_heap_cap rt) n (next_id rt) (mem rt) (callocs rt).
Definition put_next rt (n : Z) : wubu_runtime H :=
  Runtime (hive rt) (max_spaces rt) (default_heap_cap rt) (n_live rt) n (mem rt) (callocs rt).

(** [cfg] is [None] for a NULL pointer. *)
Definition wubu_runtime_init (h : H) (cfg : option (Z * Z)) (m : gmap Z rt_slot) (outcomes : list bool)
    : option (wubu_runtime H) :=
  match outcomes with
  | false :: _ => None
  | _ =>
      let (ms, hc) := default (0, 0) cfg in
      Some (Runtime h (if ms =? 0 then 16 else ms) (if hc =? 0 then 2 ^ 30 else hc) 0 1 m (tail outcomes))
  end.

(** A [calloc]ed slot, filled with [s]. *)
Definition calloc rt (s : rt_slot) : option Z * wubu_runtime H :=
  match callocs rt with
  | false :: rest => (None, Runtime (hive rt) (max_spaces rt) (default_heap_cap rt) (n_live rt) (next_id rt) (mem rt) rest)
  | outcomes =>
      let a := fresh (mem rt) in
      (Some a, Runtime (hive rt) (max_spaces rt) (default_heap_cap rt) (n_live rt) (next_id rt)
                 (<[a := s]> (mem rt)) (tail outcomes))
  end.

Definition free rt (a : Z) : option (wubu_runtime H) :=
  _ ← mem rt !! a; Some (put_mem rt (delete a (mem rt))).

(** ** Looking for a space *)

(** The loop over the hive that stops at the first slot [p] accepts. *)
Fixpoint search (m : gmap Z rt_slot) (p : rt_slot -> bool) (l : list Z) : option (option Z) :=
  match l with
  | [] => Some None
  | e :: l => s ← m !! e; if p s then Some (Some e) else search m p l
  end.

Definition wubu_runtime_find rt (id : Z) : option (option Z) :=
  l ← bag_elems (hive rt); search (mem rt) (fun s => sp_id (space s) =? id) l.

Definition wubu_runtime_find_name rt (name : list Z) : option (option Z) :=
  l ← bag_elems (hive rt); search (mem rt) (fun s => bool_decide (sp_name (space s) = cstr name)) l.

(** ** Creating and destroying *)

(** The loop that looks for the slot with the least [seq]. *)
Fixpoint oldest_of (m : gmap Z rt_slot) (l : list Z) (best : option (Z * Z)) : option (option Z) :=
  match l with
  | [] => Some (fst <$> best)
  | e :: l =>
      s ← m !! e;
      let better := match best with None => true | Some (_, min_seq) => seq_no s <? min_seq end in
      oldest_of m l (if better then Some (e, seq_no s) else best)
  end.

Definition drop_slot rt (a : Z) : option (wubu_runtime H) :=
  '(_, h) ← bag_erase (hive rt) a;
  rt ← free (put_hive rt h) a;
  Some (if n_live rt >? 0 then put_live rt (n_live rt - 1) else rt).

Definition recycle rt : option (wubu_runtime H) :=
  if n_live rt >=? max_spaces rt then
    l ← bag_elems (hive rt);
    o ← oldest_of (mem rt) l None;
    match o with Some a => drop_slot rt a | None => Some rt end
  else Some rt.

(** Inserting a slot: [true] when the hive took it. *)
Definition keep_slot rt (a : Z) : option (bool * wubu_runtime H) :=
  '(r, h) ← bag_insert (hive rt) a;
  let rt := put_hive rt h in
  if negb (r =? a) then rt ← free rt a; Some (false, rt)
  else Some (true, put_live rt (u64 (n_live rt + 1))).

Record new_space := {
  ns_name : list Z; ns_language : list Z;
  ns_compiler_ver : option (list Z); ns_language_ver : option (list Z);
  ns_abi_snapshot : option (list Z); ns_namespace_path : option (list Z) }.

(** "holyd-0.1.0", "unknown", "wubu-abi-v1" and "/n/" *)
Definition holyd : list Z := [104; 111; 108; 121; 100; 45; 48; 46; 49; 46; 48].
Definition unknown : list Z := [117; 110; 107; 110; 111; 119; 110].
Definition wubu_abi_v1 : list Z := [119; 117; 98; 117; 45; 97; 98; 105; 45; 118; 49].
Definition n_root : list Z := [47; 110; 47].

Definition fill_space rt (a : new_space) (t : tm) : wubu_rt_space := {|
  sp_id := next_id rt;
  sp_name := text 64 (ns_name a);
  sp_language := text 48 (ns_language a);
  sp_compiler_ver := text 32 (default holyd (ns_compiler_ver a));
  sp_language_ver := text 32 (default unknown (ns_language_ver a));
  sp_abi_snapshot := text 96 (default wubu_abi_v1 (ns_abi_snapshot a));
  sp_created := today 32 t;
  sp_namespace_path := text 64 (default n_root (ns_namespace_path a));
  sp_heap_cap := default_heap_cap rt;
  sp_heap_used := 0;
  sp_state := WUBU_RT_COLD;
  sp_personality := None |}.

Definition wubu_runtime_create rt (a : new_space) (t : tm) : option (Z * wubu_runtime H) :=
  rt ← recycle rt;
  let sp := fill_space rt a t in
  match calloc rt (Slot sp (next_id rt)) with
  | (None, rt) => Some (0, rt)
  | (Some p, rt) =>
      let rt := put_next rt (u64 (next_id rt + 1)) in
      '(kept, rt) ← keep_slot rt p;
      Some (if kept : bool then sp_id sp else 0, rt)
  end.

Definition wubu_runtime_destroy rt (id : Z) : option (Z * wubu_runtime H) :=
  o ← wubu_runtime_find rt id;
  match o with
  | Some a => rt ← drop_slot rt a; Some (0, rt)
  | None => Some (-1, rt)
  end.

Definition wubu_runtime_count rt : Z := n_live rt.

(** Every slot is freed, then the hive cleared; the registry is gone afterwards. *)
Fixpoint free_all rt (l : list Z) : option (wubu_runtime H) :=
  match l with [] => Some rt | e :: l => rt ← free rt e; free_all rt l end.

Definition wubu_runtime_free rt : option (H * gmap Z rt_slot) :=
  l ← bag_elems (hive rt);
  rt ← free_all rt l;
  h ← bag_clear (hive rt);
  Some (h, mem rt).

(** ** Changing a space *)

Definition on_space rt (a : Z) (f : wubu_rt_space -> wubu_rt_space) : option (wubu_runtime H) :=
  s ← mem rt !! a; Some (put_mem rt (<[a := Slot (f (space s)) (seq_no s)]> (mem rt))).

Definition with_state (st : Z) (sp : wubu_rt_space) : wubu_rt_space :=
  Space (sp_id sp) (sp_name sp) (sp_language sp) (sp_compiler_ver sp) (sp_language_ver sp) (sp_abi_snapshot sp)
    (sp_created sp) (sp_namespace_path sp) (sp_heap_cap sp) (sp_heap_used sp) st (sp_personality sp).
Definition with_used (n : Z) (sp : wubu_rt_space) : wubu_rt_space :=
  Space (sp_id sp) (sp_name sp) (sp_language sp) (sp_compiler_ver sp) (sp_language_ver sp) (sp_abi_snapshot sp)
    (sp_created sp) (sp_namespace_path sp) (sp_heap_cap sp) n (sp_state sp) (sp_personality sp).
Definition with_personality (p : personality) (sp : wubu_rt_space) : wubu_rt_space :=
  Space (sp_id sp) (sp_name sp) (sp_language sp) (sp_compiler_ver sp) (sp_language_ver sp) (sp_abi_snapshot sp)
    (sp_created sp) (sp_namespace_path sp) (sp_heap_cap sp) (sp_heap_used sp)
    (if sp_state sp =? WUBU_RT_COLD then WUBU_RT_WARM else sp_state sp) (Some p).

Definition wubu_runtime_set_state rt (id st : Z) : option (Z * wubu_runtime H) :=
  o ← wubu_runtime_find rt id;
  match o with
  | Some a => rt ← on_space rt a (with_state st); Some (0, rt)
  | None => Some (-1, rt)
  end.

(** [(int64_t)heap_used + delta] must not overflow. *)
Definition wubu_runtime_touch_heap rt (id delta : Z) : option (Z * wubu_runtime H) :=
  o ← wubu_runtime_find rt id;
  match o with
  | None => Some (-1, rt)
  | Some a =>
      s ← mem rt !! a;
      let used := sp_heap_used (space s) in
      if (delta >=? 0) && (u64 (used + u64 delta) >? sp_heap_cap (space s)) then Some (-1, rt) else
      if negb (bool_decide (sfits 64 (s64 used + delta))) then None else
      rt ← on_space rt a (with_used (if s64 used + delta <? 0 then 0 else u64 (used + u64 delta)));
      Some (0, rt)
  end.

(** "posix", "image" and "wasi" *)
Definition kind_name (p : personality) : list Z :=
  match p with
  | Posix => [112; 111; 115; 105; 120]
  | Image => [105; 109; 97; 103; 101]
  | Wasi => [119; 97; 115; 105]
  end.

Definition kind_of (s : list Z) : option personality :=
  if bool_decide (s = kind_name Posix) then Some Posix
  else if bool_decide (s = kind_name Image) then Some Image
  else if bool_decide (s = kind_name Wasi) then Some Wasi
  else None.

Definition wubu_runtime_set_personality rt (id : Z) (kind : list Z) : option (Z * wubu_runtime H) :=
  o ← wubu_runtime_find rt id;
  match o with
  | None => Some (-1, rt)
  | Some a =>
      match kind_of (cstr kind) with
      | Some p => rt ← on_space rt a (with_personality p); Some (0, rt)
      | None => Some (-1, rt)
      end
  end.

(** The callback of [wubu_runtime_list] stops the walk by a result other than 0. *)
Fixpoint list_loop {U} (m : gmap Z rt_slot) (cb : wubu_rt_space -> U -> Z * U) (l : list Z) (user : U) : option U :=
  match l with
  | [] => Some user
  | e :: l =>
      s ← m !! e;
      let (stop, user) := cb (space s) user in
      if stop =? 0 then list_loop m cb l user else Some user
  end.

Definition wubu_runtime_list {U} rt (cb : wubu_rt_space -> U -> Z * U) (user : U) : option U :=
  l ← bag_elems (hive rt); list_loop (mem rt) cb l user.

End runtime.
