(* ===== verification/SpacesFile.v ===== *)
(** * Compilation spaces: the file format and system calls

    [wubu_runtime_save] and [wubu_runtime_load] of [runtime/wubu_runtime.c], and the
    personalities of [runtime/wubu_runtime_personalities.c].

    A file is the list of its bytes.  [writes] lists the outcomes of the coming calls
    of [fopen] and [fwrite]; when it is exhausted they succeed.  The layout of the
    header (16 bytes) and of a record (424 bytes, the last four padding) is that of
    the C structs on a 64-bit machine.  The host's system calls are the operations
    of the class [Native]. *)

From stdpp Require Import gmap.
From S2P Require Import Prelude HiveTheorems Spaces.
Open Scope Z_scope.

Definition WUBU_RT_FILE_MAGIC : Z := 0x57554252544E5350.
Definition WUBU_RT_FILE_VER : Z := 1.
Definition HDR_SZ : nat := 16.
Definition REC_SZ : nat := 424.

(** A zeroed [char] array of [n] bytes that [snprintf] filled. *)
Definition field (n : nat) (s : list Z) : list Z :=
  let t := text n s in t ++ replicate (n - length t) 0.

Definition hdr_bytes (count : Z) : list Z :=
  le_enc 8 WUBU_RT_FILE_MAGIC ++ le_enc 4 WUBU_RT_FILE_VER ++ le_enc 4 count.

(** [rt_file_rec_t] *)
Definition rec_bytes (s : rt_slot) : list Z :=
  let sp := space s in
  le_enc 8 (sp_id sp) ++ le_enc 8 (seq_no s) ++
  field 64 (sp_name sp) ++ field 48 (sp_language sp) ++ field 32 (sp_compiler_ver sp) ++
  field 32 (sp_language_ver sp) ++ field 96 (sp_abi_snapshot sp) ++ field 32 (sp_created sp) ++
  field 64 (sp_namespace_path sp) ++
  le_enc 8 (sp_heap_cap sp) ++ le_enc 8 (sp_heap_used sp) ++ le_enc 4 (sp_state sp) ++
  field 16 (match sp_personality sp with Some p => kind_name p | None => [] end) ++ replicate 4 0.

Definition io (writes : list bool) : bool * list bool :=
  match writes with [] => (true, []) | ok :: rest => (ok, rest) end.

Section files.
  Context {H : Type} `{BagOps H} `{Malloc}.
  Implicit Types rt : wubu_runtime H.

(** The loop over the slots: the result, and the bytes written. *)
Fixpoint save_loop (m : gmap Z rt_slot) (writes : list bool) (l : list Z) : option (Z * list Z) :=
  match l with
  | [] => Some (0, [])
  | e :: l =>
      s ← m !! e;
      let (ok, writes) := io writes in
      if negb ok then Some (-1, []) else
      '(rc, rest) ← save_loop m writes l;
      Some (rc, rec_bytes s ++ rest)
  end.

(** The result and what the file holds, [None] when it could not be opened. *)
Definition wubu_runtime_save rt (writes : list bool) : option (Z * option (list Z)) :=
  let (ok, writes) := io writes in
  if negb ok then Some (-1, None) else
  let (ok, writes) := io writes in
  if negb ok then Some (-1, Some []) else
  l ← bag_elems (hive rt);
  '(rc, recs) ← save_loop (mem rt) writes l;
  Some (rc, Some (hdr_bytes (u32 (wubu_runtime_count rt)) ++ recs)).

(** [fread] of [n] bytes: those, and what follows. *)
Definition fread (n : nat) (file : list Z) : option (list Z * list Z) :=
  if Nat.ltb (length file) n then None else Some (take n file, drop n file).

(** The text of a [char] array in a record, [None] when no terminator is in it. *)
Definition text_field (rec : list Z) (off n : nat) : option (list Z) :=
  let f := slice rec off n in
  if bool_decide (0 ∈ f) then Some (text n f) else None.

Definition num_field (rec : list Z) (off n : nat) : Z := le_dec (slice rec off n).

(** The slot a record describes, before its personality and state. *)
Definition read_slot (rec : list Z) : option rt_slot :=
  name ← text_field rec 16 64;
  language ← text_field rec 80 48;
  compiler_ver ← text_field rec 128 32;
  language_ver ← text_field rec 160 32;
  abi_snapshot ← text_field rec 192 96;
  created ← text_field rec 288 32;
  namespace_path ← text_field rec 320 64;
  Some (Slot (Space (num_field rec 0 8) name language compiler_ver language_ver abi_snapshot created
                namespace_path (num_field rec 384 8) (num_field rec 392 8) WUBU_RT_COLD None)
          (num_field rec 8 8)).

(** Taking in one record: [false] when [calloc] failed. *)
Definition load_rec rt (rec : list Z) : option (bool * wubu_runtime H) :=
  if n_live rt >=? max_spaces rt then Some (true, rt) else
  s ← read_slot rec;
  match calloc rt s with
  | (None, rt) => Some (false, rt)
  | (Some p, rt) =>
      let id := sp_id (space s) in
      let rt := if id >=? next_id rt then put_next rt (u64 (id + 1)) else rt in
      '(kept, rt) ← keep_slot rt p;
      if negb kept then Some (true, rt) else
      rt ← (if rd rec 404 is Some 0 then Some rt
            else snd <$> wubu_runtime_set_personality rt id (slice rec 404 16));
      o ← wubu_runtime_find rt id;
      a ← o;
      rt ← on_space rt a (with_state (num_field rec 400 4));
      Some (true, rt)
  end.

Fixpoint load_loop (n : nat) rt (file : list Z) : option (Z * wubu_runtime H) :=
  match n with
  | O => Some (0, rt)
  | S n =>
      match fread REC_SZ file with
      | None => Some (-1, rt)
      | Some (rec, file) =>
          '(ok, rt) ← load_rec rt rec;
          if ok : bool then load_loop n rt file else Some (-1, rt)
      end
  end.

(** [file] is [None] when it cannot be opened. *)
Definition wubu_runtime_load rt (file : option (list Z)) : option (Z * wubu_runtime H) :=
  match file with
  | None => Some (-1, rt)
  | Some file =>
      match fread HDR_SZ file with
      | None => Some (-1, rt)
      | Some (hdr, file) =>
          if negb (num_field hdr 0 8 =? WUBU_RT_FILE_MAGIC) || negb (num_field hdr 8 4 =? WUBU_RT_FILE_VER)
          then Some (-1, rt)
          else load_loop (Z.to_nat (num_field hdr 12 4)) rt file
      end
  end.

End files.

(** ** System calls *)

(** The host's calls; a path is [None] for a NULL pointer. *)
Class Native (U : Type) := {
  n_open : U -> option (list Z) -> Z -> Z * U;
  n_read : U -> Z -> Z -> Z -> Z * U;
  n_write : U -> Z -> Z -> Z -> Z * U;
  n_close : U -> Z -> Z * U;
  n_malloc : U -> Z -> Z * U;
  n_free : U -> Z -> U;
  n_exit : U -> Z -> U }.

Inductive syscall :=
  | SYS_OPEN (path : option (list Z)) (flags : Z)
  | SYS_READ (fd buf n : Z)
  | SYS_WRITE (fd buf n : Z)
  | SYS_CLOSE (fd : Z)
  | SYS_HEAP_ALLOC (n : Z)
  | SYS_HEAP_FREE (p : Z)
  | SYS_EXIT (code : Z)
  | SYS_OTHER.

Definition O_RDONLY : Z := 0.
Definition O_WRONLY : Z := 1.
Definition O_RDWR : Z := 2.
Definition O_CREAT : Z := 64.

Section calls.
  Context {H : Type} `{BagOps H} {U : Type} `{Native U}.

Definition bit_or (c : bool) (f v : Z) : Z := if c then Z.lor f v else f.

Definition native_open (u : U) (path : option (list Z)) (flags : Z) : Z * U :=
  let f := bit_or (negb (Z.land flags 1 =? 0)) 0 O_WRONLY in
  let f := bit_or (negb (Z.land flags 2 =? 0)) f O_RDWR in
  let f := bit_or (negb (Z.land flags 4 =? 0)) f O_CREAT in
  let f := bit_or (Z.land flags 3 =? 0) f O_RDONLY in
  n_open u path f.

Definition wasi_open (u : U) (path : option (list Z)) (flags : Z) : Z * U :=
  match path with
  | None => (WUBU_RT_SANDBOX_REFUSED, u)
  | Some s => if bool_decide (take 3 s = n_root) then native_open u path flags else (WUBU_RT_SANDBOX_REFUSED, u)
  end.

Definition sys_open (p : personality) : U -> option (list Z) -> Z -> Z * U :=
  match p with Posix | Image => native_open | Wasi => wasi_open end.

(** The arguments are cut to the types of the callee. *)
Definition dispatch_call (u : U) (p : personality) (c : syscall) : Z * U :=
  match c with
  | SYS_OPEN path flags => sys_open p u path (s32 flags)
  | SYS_READ fd buf n => let (r, u) := n_read u (s32 fd) buf (u64 n) in (s32 r, u)
  | SYS_WRITE fd buf n => let (r, u) := n_write u (s32 fd) buf (u64 n) in (s32 r, u)
  | SYS_CLOSE fd => n_close u (s32 fd)
  | SYS_HEAP_ALLOC n => let (p, u) := n_malloc u (u64 n) in (s64 p, u)
  | SYS_HEAP_FREE p => (0, n_free u p)
  | SYS_EXIT code => (0, n_exit u (s32 code))
  | SYS_OTHER => (-1, u)
  end.

Definition wubu_runtime_call (rt : wubu_runtime H) (u : U) (id : Z) (c : syscall) : option (Z * U) :=
  o ← wubu_runtime_find rt id;
  match o with
  | None => Some (-1, u)
  | Some a =>
      s ← mem rt !! a;
      match sp_personality (space s) with
      | None => Some (-1, u)
      | Some p => Some (dispatch_call u p c)
      end
  end.

End calls.
