(* ===== verification/SpacesFacts.v ===== *)
(** * Properties of the registry of compilation spaces

    The registry as the collection of its spaces, kept by every operation. *)

From stdpp Require Import gmap.
From S2P Require Import Prelude HiveTheorems Spaces.
Open Scope Z_scope.

(** The slots some addresses point to. *)
Definition slots (m : gmap Z rt_slot) (l : list Z) : list rt_slot := omap (fun a => m !! a) l.

Definition idof (s : rt_slot) : Z := sp_id (space s).

Definition allocated (m : gmap Z rt_slot) (l : list Z) : Prop := Forall (fun a => is_Some (m !! a)) l.

#[export] Instance slots_proper m : Proper ((≡ₚ) ==> (≡ₚ)) (slots m).
Proof. intros l l' Hp. unfold slots. by rewrite Hp. Qed.

Lemma slots_perm m l l' : l ≡ₚ l' -> slots m l ≡ₚ slots m l'.
Proof. by intros ->. Qed.

Lemma slots_cons m a l s : m !! a = Some s -> slots m (a :: l) = s :: slots m l.
Proof. intros Ha. unfold slots. cbn. by rewrite Ha. Qed.

Lemma slots_length m l : allocated m l -> length (slots m l) = length l.
Proof. induction 1 as [|a l [s Ha] _ IH]; [done|]. rewrite (slots_cons _ _ _ s) by done. cbn. by rewrite IH. Qed.

Lemma slots_ext m m' l : (forall a, a ∈ l -> m !! a = m' !! a) -> slots m l = slots m' l.
Proof.
  induction l as [|a l IH]; intros Hl; [done|]. unfold slots. cbn. rewrite Hl by set_solver.
  fold (slots m l) (slots m' l). rewrite IH by set_solver. done.
Qed.

Lemma allocated_ext m m' l : (forall a, a ∈ l -> m !! a = m' !! a) -> allocated m l -> allocated m' l.
Proof. intros Hl Ha. apply Forall_forall. intros a Hin. rewrite <- Hl by done. by eapply Forall_forall in Ha. Qed.

Lemma elem_of_slots m l s : s ∈ slots m l <-> exists a, a ∈ l /\ m !! a = Some s.
Proof. apply list_elem_of_omap. Qed.

(** Whether the loop of a lookup finds a slot, in whichever order it goes. *)
Lemma search_spec m p l :
  allocated m l ->
  (Forall (fun s => p s = false) (slots m l) /\ search m p l = Some None) \/
  exists a s, a ∈ l /\ m !! a = Some s /\ p s = true /\ search m p l = Some (Some a).
Proof.
  induction 1 as [|a l [s Ha] Hl IH]; [by left|]. cbn [search]. rewrite Ha. cbn [mbind option_bind].
  destruct (p s) eqn:Hp.
  - right. exists a, s. set_solver.
  - rewrite (slots_cons _ _ _ s) by done. destruct IH as [[Hf ->]|(b & t & Hb & Ht & Hpt & ->)].
    + left. split; [by constructor|done].
    + right. exists b, t. set_solver.
Qed.

(** The loop that looks for the oldest slot. *)
Lemma oldest_spec m l best :
  allocated m l ->
  match best with Some (a, n) => exists s, m !! a = Some s /\ seq_no s = n | None => True end ->
  (best = None /\ l = [] /\ oldest_of m l best = Some None) \/
  exists a s, (a ∈ l \/ exists n, best = Some (a, n)) /\ m !! a = Some s /\ oldest_of m l best = Some (Some a) /\
    Forall (fun t => seq_no s <= seq_no t) (slots m l) /\
    match best with Some (_, n) => seq_no s <= n | None => True end.
Proof.
  intros Hl. revert best. induction Hl as [|a l [s Ha] Hl IH]; intros best Hb.
  - destruct best as [[b n]|]; [|by left]. right. destruct Hb as (t & Ht & Hn). exists b, t. cbn.
    split_and!; [eauto|done|done|constructor|lia].
  - right. cbn [oldest_of]. rewrite Ha, (slots_cons _ _ _ s) by done. cbn [mbind option_bind].
    set (better := match best with None => true | Some (_, n) => seq_no s <? n end).
    destruct (IH (if better then Some (a, seq_no s) else best)) as [(Hn & _)|(b & t & Hin & Ht & -> & Hf & Hle)].
    + destruct better; [eauto|done].
    + subst better. destruct best as [[? ?]|]; [|done]. by destruct (_ <? _).
    + exists b, t. subst better. destruct best as [[c n]|].
      * destruct (Z.ltb_spec (seq_no s) n); split_and!; try done; try lia.
        -- destruct Hin as [?|[n' [= <- <-]]]; left; set_solver.
        -- constructor; [lia|done].
        -- destruct Hin as [?|[n' [= <- <-]]]; [left; set_solver|right; eauto].
        -- constructor; [lia|done].
      * split_and!; try done.
        -- destruct Hin as [?|[n' [= <- <-]]]; left; set_solver.
        -- constructor; [lia|done].
Qed.

(** ** The registry *)

Definition space_ok (s : rt_slot) : Prop :=
  0 <= sp_heap_used (space s) <= sp_heap_cap (space s) /\ sp_heap_cap (space s) < 2 ^ 63.

Section registry.
  Context {H : Type} {bops : BagOps H} {bag : Bag H} {mal : Malloc} {mlaws : MallocLaws}.
  Implicit Types rt : wubu_runtime H.

(** [l] are the addresses in the hive. *)
Record reg_ok rt (l : list Z) : Prop := {
  rg_bag : bag_holds (hive rt) l;
  rg_nodup : NoDup l;
  rg_nonnull : Forall (fun a => a <> 0) l;
  rg_mem : allocated (mem rt) l;
  rg_live : n_live rt = Z.of_nat (length l);
  rg_max : 0 < max_spaces rt < 2 ^ 32;
  rg_cap : n_live rt <= max_spaces rt;
  rg_ids : NoDup (idof <$> slots (mem rt) l);
  rg_next : Forall (fun s => seq_no s = idof s /\ 0 < idof s < next_id rt) (slots (mem rt) l);
  rg_bound : 0 < next_id rt < 2 ^ 64;
  rg_heap : Forall space_ok (slots (mem rt) l);
  rg_default : 0 <= default_heap_cap rt < 2 ^ 63 }.

Lemma reg_perm rt l l' : reg_ok rt l -> l ≡ₚ l' -> reg_ok rt l'.
Proof using.
  intros Hr Hp. pose proof (slots_perm (mem rt) _ _ Hp) as Hs. split; try apply Hr.
  - eapply bag_perm; [apply Hr|done].
  - rewrite <- Hp. apply Hr.
  - rewrite <- Hp. apply Hr.
  - unfold allocated. rewrite <- Hp. apply Hr.
  - rewrite <- Hp. apply Hr.
  - rewrite <- Hs. apply Hr.
  - rewrite <- Hs. apply Hr.
  - rewrite <- Hs. apply Hr.
Qed.

(** What the loop over the hive goes through. *)
Lemma elems_spec rt l : reg_ok rt l -> exists l', bag_elems (hive rt) = Some l' /\ l' ≡ₚ l /\ reg_ok rt l'.
Proof using.
  intros Hr. destruct (bag_elems_ok _ _ (rg_bag _ _ Hr)) as (l' & He & Hp). exists l'. split_and!; try done.
  by apply (reg_perm rt l).
Qed.

Lemma find_spec rt l id :
  reg_ok rt l ->
  (id ∉ (idof <$> slots (mem rt) l) /\ wubu_runtime_find rt id = Some None) \/
  exists a s l', l ≡ₚ a :: l' /\ mem rt !! a = Some s /\ idof s = id /\ wubu_runtime_find rt id = Some (Some a).
Proof using.
  intros Hr. destruct (elems_spec rt l Hr) as (l' & He & Hp & Hr'). unfold wubu_runtime_find. rewrite He.
  cbn [mbind option_bind].
  destruct (search_spec (mem rt) (fun s => sp_id (space s) =? id) l' (rg_mem _ _ Hr'))
    as [[Hf ->]|(a & s & Ha & Hs & Hi & ->)].
  - left. split; [|done]. rewrite <- (slots_perm _ _ _ Hp). intros (s & -> & Hin)%list_elem_of_fmap.
    rewrite Forall_forall in Hf. specialize (Hf s Hin). apply Z.eqb_neq in Hf. done.
  - right. rewrite Hp in Ha. apply elem_of_Permutation in Ha as [l2 Hl2]. exists a, s, l2.
    split_and!; try done. by apply Z.eqb_eq.
Qed.

(** Taking a slot out. *)
Lemma drop_slot_spec rt a l :
  reg_ok rt (a :: l) -> exists rt', drop_slot rt a = Some rt' /\ reg_ok rt' l /\
    slots (mem rt') l = slots (mem rt) l /\ next_id rt' = next_id rt /\ default_heap_cap rt' = default_heap_cap rt /\
    max_spaces rt' = max_spaces rt /\ callocs rt' = callocs rt /\ (bag_reliable (hive rt) -> bag_reliable (hive rt')).
Proof using.
  intros Hr. destruct (bag_erase_ok _ _ _ (rg_bag _ _ Hr)) as (h' & He & Hb & Hrel).
  pose proof (rg_mem _ _ Hr) as Hm. apply Forall_cons in Hm as [[s Hs] Hm].
  pose proof (rg_nodup _ _ Hr) as Hn. apply NoDup_cons in Hn as [Ha Hn].
  unfold drop_slot. rewrite He. cbn [mbind option_bind]. unfold free. cbn [mem put_hive]. rewrite Hs.
  cbn [mbind option_bind n_live put_mem put_hive]. pose proof (rg_live _ _ Hr) as Hlive. cbn [length] in Hlive.
  destruct (Z.gtb_spec (n_live rt) 0); [|lia].
  eexists. split; [reflexivity|]. cbn.
  assert (forall b, b ∈ l -> mem rt !! b = delete a (mem rt) !! b) as Hsame.
  { intros b Hb'. rewrite lookup_delete_ne; [done|]. intros ->. done. }
  pose proof (slots_ext _ _ _ Hsame) as Hsl.
  assert (forall P, Forall P (slots (mem rt) (a :: l)) -> Forall P (slots (mem rt) l)) as Htail.
  { intros P. rewrite (slots_cons _ _ _ s) by done. by intros [_ ?]%Forall_cons. }
  pose proof (rg_cap _ _ Hr). split_and!; try done.
  split; cbn; try rewrite <- Hsl; try done; try apply Hr; try lia.
  - pose proof (rg_nonnull _ _ Hr) as Hz. by apply Forall_cons in Hz as [_ ?].
  - by apply (allocated_ext (mem rt)).
  - pose proof (rg_ids _ _ Hr) as Hi. rewrite (slots_cons _ _ _ s) in Hi by done. by apply NoDup_cons in Hi as [_ ?].
  - apply Htail, Hr.
  - apply Htail, Hr.
Qed.

(** Making room in a full registry takes out the oldest. *)
Lemma recycle_spec rt l :
  reg_ok rt l ->
  exists rt' l', recycle rt = Some rt' /\ reg_ok rt' l' /\ n_live rt' < max_spaces rt' /\
    next_id rt' = next_id rt /\ default_heap_cap rt' = default_heap_cap rt /\ max_spaces rt' = max_spaces rt /\
    callocs rt' = callocs rt /\ (bag_reliable (hive rt) -> bag_reliable (hive rt')) /\
    (n_live rt < max_spaces rt /\ rt' = rt /\ l' = l \/
     n_live rt = max_spaces rt /\ exists o, slots (mem rt) l ≡ₚ o :: slots (mem rt') l' /\
       Forall (fun t => seq_no o < seq_no t) (slots (mem rt') l')).
Proof using.
  intros Hr. unfold recycle. pose proof (rg_cap _ _ Hr) as Hcap. pose proof (rg_live _ _ Hr) as Hlive.
  pose proof (rg_max _ _ Hr) as Hmax.
  destruct (Z.geb_spec (n_live rt) (max_spaces rt)) as [Hf|Hf].
  2:{ exists rt, l. split_and!; try done; try lia. left. split_and!; done || lia. }
  destruct (elems_spec rt l Hr) as (l1 & He & Hp & Hr1). rewrite He. cbn [mbind option_bind].
  destruct (oldest_spec (mem rt) l1 None (rg_mem _ _ Hr1) I) as [(_ & -> & _)|(a & o & Hin & Ho & -> & Hle & _)].
  { apply Permutation_nil_l in Hp. subst l. cbn in Hlive. lia. }
  destruct Hin as [Hin|[? ?]]; [|done]. cbn [mbind option_bind].
  apply elem_of_Permutation in Hin as [l2 Hl2].
  destruct (drop_slot_spec rt a l2) as (rt' & -> & Hr' & Hs & Hn & Hd & Hm & Hal & Hrel).
  { by eapply reg_perm. }
  exists rt', l2. split_and!; try done.
  - rewrite (rg_live _ _ Hr'), Hm. apply Permutation_length in Hp, Hl2. cbn in Hl2. lia.
  - right. split; [lia|]. exists o. rewrite Hs. split.
    + rewrite <- Hp, Hl2. by rewrite (slots_cons _ _ _ o).
    + rewrite (slots_perm _ _ _ Hl2), (slots_cons _ _ _ o) in Hle by done. apply Forall_cons in Hle as [_ Hle].
      assert (NoDup (idof <$> slots (mem rt) (a :: l2))) as Hi.
      { rewrite <- Hl2. apply Hr1. }
      pose proof (rg_next _ _ Hr1) as Hx. rewrite (slots_perm _ _ _ Hl2) in Hx.
      rewrite (slots_cons _ _ _ o) in Hi, Hx by done. apply NoDup_cons in Hi as [Hi _].
      apply Forall_cons in Hx as [[Ho' _] Hx]. rewrite Forall_forall in *. intros t Ht.
      specialize (Hle t Ht). destruct (Hx t Ht) as [Ht' _].
      assert (seq_no o <> seq_no t); [|lia]. rewrite Ho', Ht'. intros E. apply Hi. rewrite E.
      apply list_elem_of_fmap. eauto.
Qed.

(** A slot that [calloc] gave, put into the hive. *)
Lemma add_slot_spec rt l s p rt1 n :
  reg_ok rt l -> n_live rt < max_spaces rt -> calloc rt s = (Some p, rt1) ->
  seq_no s = idof s -> idof s ∉ (idof <$> slots (mem rt) l) -> space_ok s ->
  next_id rt <= n -> 0 < idof s < n -> n < 2 ^ 64 ->
  exists kept rt2, keep_slot (put_next rt1 n) p = Some (kept, rt2) /\
    (bag_reliable (hive rt) -> kept = true /\ bag_reliable (hive rt2)) /\
    next_id rt2 = n /\ max_spaces rt2 = max_spaces rt /\ default_heap_cap rt2 = default_heap_cap rt /\
    callocs rt2 = callocs rt1 /\
    if kept then reg_ok rt2 (p :: l) /\ slots (mem rt2) (p :: l) = s :: slots (mem rt) l /\ mem rt2 !! p = Some s
    else reg_ok rt2 l /\ slots (mem rt2) l = slots (mem rt) l.
Proof using mlaws.
  intros Hr Hroom Hc Hseq Hid Hok Hn Hidn Hn64.
  assert (p = fresh (mem rt) /\ exists al, rt1 = Runtime (hive rt) (max_spaces rt) (default_heap_cap rt) (n_live rt) (next_id rt)
    (<[p := s]> (mem rt)) al) as (Hp & al & ->).
  { unfold calloc in Hc. destruct (callocs rt) as [|[] ?]; [| |done]; injection Hc as <- <-; eauto. }
  assert (mem rt !! p = None) as Hfree by (subst p; apply fresh_free).
  assert (p <> 0) as Hnz by (subst p; apply fresh_nonnull). clear Hp Hc.
  assert (p ∉ l) as Hnin.
  { intros Hin. pose proof (rg_mem _ _ Hr) as Hm. unfold allocated in Hm. rewrite Forall_forall in Hm. destruct (Hm p Hin) as [? ?]. congruence. }
  assert (forall b, b ∈ l -> mem rt !! b = <[p := s]> (mem rt) !! b) as Hsame.
  { intros b Hb. rewrite lookup_insert_ne; [done|]. intros <-. done. }
  assert (Forall (fun t => seq_no t = idof t /\ 0 < idof t < n) (slots (mem rt) l)) as Hnext.
  { eapply Forall_impl; [apply Hr|]. cbn. intros t [? ?]. lia. }
  pose proof (rg_live _ _ Hr). pose proof (rg_max _ _ Hr). pose proof (rg_cap _ _ Hr). pose proof (rg_bound _ _ Hr).
  pose proof (slots_ext _ _ _ Hsame) as Hsl.
  unfold keep_slot, put_next. cbn [hive max_spaces default_heap_cap n_live next_id mem callocs].
  destruct (bag_insert_ok _ _ p (rg_bag _ _ Hr) Hnz) as (r & h' & -> & Hins & Hrel). cbn [mbind option_bind].
  destruct Hins as [(-> & Hb)|(-> & Hb & Hnr)].
  - rewrite Z.eqb_refl. cbn [negb]. eexists true, _. split; [reflexivity|].
    cbn [hive max_spaces default_heap_cap n_live next_id mem callocs put_live put_hive put_next].
    assert (slots (<[p := s]> (mem rt)) (p :: l) = s :: slots (mem rt) l) as Hs2.
    { rewrite (slots_cons _ _ _ s) by apply lookup_insert_eq. by rewrite <- Hsl. }
    split_and!; try done; [by intros; auto| |apply lookup_insert_eq].
    split; cbn [hive max_spaces default_heap_cap n_live next_id mem callocs put_live put_hive put_next length];
      rewrite ?Hs2, ?fmap_cons; try done; try apply Hr.
    + constructor; [done|apply Hr].
    + constructor; [done|apply Hr].
    + constructor; [rewrite lookup_insert_eq; eauto|]. apply (allocated_ext (mem rt)); [done|apply Hr].
    + rewrite wrap_id by (unfold_fits; lia). lia.
    + rewrite wrap_id by (unfold_fits; lia). lia.
    + constructor; [done|apply Hr].
    + constructor; [split; [done|lia]|done].
    + lia.
    + constructor; [done|apply Hr].
  - rewrite (proj2 (Z.eqb_neq 0 p)) by done. cbn [negb]. unfold free. cbn [mem put_hive].
    rewrite lookup_insert_eq. cbn [mbind option_bind]. eexists false, _. split; [reflexivity|]. cbn.
    rewrite delete_insert_id by done. split_and!; try done.
    split; cbn; try done; try apply Hr; lia.
Qed.

Lemma calloc_spec rt s :
  (exists p rt1, calloc rt s = (Some p, rt1)) \/
  exists rt1, calloc rt s = (None, rt1) /\ callocs rt <> [] /\ (forall l, reg_ok rt l -> reg_ok rt1 l) /\ mem rt1 = mem rt /\
    next_id rt1 = next_id rt.
Proof using.
  unfold calloc. destruct (callocs rt) as [|[] al] eqn:Ha; eauto. right. eexists. split; [reflexivity|].
  split_and!; try done. intros l Hr. split; apply Hr.
Qed.

(** ** Creating *)

Lemma create_spec rt l a t :
  reg_ok rt l -> next_id rt + 1 < 2 ^ 64 ->
  exists id rt' l' kept, wubu_runtime_create rt a t = Some (id, rt') /\ reg_ok rt' l' /\
    (n_live rt < max_spaces rt /\ kept = slots (mem rt) l \/
     n_live rt = max_spaces rt /\ exists o, slots (mem rt) l ≡ₚ o :: kept /\
       Forall (fun s => seq_no o < seq_no s) kept) /\
    (id = 0 /\ slots (mem rt') l' = kept /\ (callocs rt <> [] \/ ~ bag_reliable (hive rt)) \/
     id = next_id rt /\ slots (mem rt') l' = Slot (fill_space rt a t) (next_id rt) :: kept).
Proof using mlaws.
  intros Hr Hn. destruct (recycle_spec rt l Hr) as (rt0 & l0 & Hrec & Hr0 & Hroom & Hn0 & Hd0 & Hm0 & Hc0 & Hrel & Hkept).
  unfold wubu_runtime_create. rewrite Hrec. cbn [mbind option_bind].
  set (s := Slot (fill_space rt0 a t) (next_id rt0)).
  assert (s = Slot (fill_space rt a t) (next_id rt)) as Hs by (unfold s, fill_space; by rewrite Hn0, Hd0).
  assert ((n_live rt < max_spaces rt /\ slots (mem rt0) l0 = slots (mem rt) l \/
     n_live rt = max_spaces rt /\ exists o, slots (mem rt) l ≡ₚ o :: slots (mem rt0) l0 /\
       Forall (fun s => seq_no o < seq_no s) (slots (mem rt0) l0))) as Hk.
  { destruct Hkept as [(? & -> & ->)|?]; [by left|by right]. }
  pose proof (rg_bound _ _ Hr) as Hbd. pose proof (rg_default _ _ Hr) as Hdf.
  destruct (calloc_spec rt0 s) as [(p & rt1 & Hc)|(rt1 & -> & Ha & Hr1 & Hmem & _)].
  - rewrite Hc. destruct (add_slot_spec rt0 l0 s p rt1 (next_id rt + 1) Hr0 Hroom Hc)
      as (kept & rt2 & Hks & Hrel2 & _ & _ & _ & _ & Hres); try done; try lia.
    + intros (u & Hu & Hin)%list_elem_of_fmap. pose proof (rg_next _ _ Hr0) as Hx. rewrite Forall_forall in Hx.
      destruct (Hx u Hin) as [_ Hlt]. rewrite <- Hu in Hlt. cbn in Hlt. lia.
    + rewrite Hs. unfold space_ok. cbn. lia.
    + rewrite Hs. cbn. lia.
    + rewrite (wrap_id 64 (next_id rt1 + 1)).
      2:{ unfold calloc in Hc. destruct (callocs rt0) as [|[] ?]; injection Hc as _ <-; cbn; unfold_fits; lia. }
      replace (next_id rt1 + 1) with (next_id rt + 1).
      2:{ unfold calloc in Hc. destruct (callocs rt0) as [|[] ?]; injection Hc as _ <-; cbn; lia. }
      rewrite Hks. cbn [mbind option_bind]. destruct kept.
      * destruct Hres as (Hr2 & Hsl & _). eexists _, rt2, (p :: l0), _. split_and!; [reflexivity|done|exact Hk|].
        right. split; [cbn; lia|]. by rewrite Hsl, Hs.
      * destruct Hres as (Hr2 & Hsl). eexists _, rt2, l0, _. split_and!; [reflexivity|done|exact Hk|].
        left. split_and!; [done|done|]. right. intros Hrl. apply Hrel, Hrel2 in Hrl as [? _]. done.
  - eexists _, rt1, l0, _. split_and!; [reflexivity|by apply Hr1|exact Hk|].
    left. rewrite Hmem. split_and!; [done|done|]. left. congruence.
Qed.

(** ** Destroying and changing *)

Lemma destroy_spec rt l id :
  reg_ok rt l ->
  (id ∉ (idof <$> slots (mem rt) l) /\ wubu_runtime_destroy rt id = Some (-1, rt)) \/
  exists rt' l' s, wubu_runtime_destroy rt id = Some (0, rt') /\ reg_ok rt' l' /\ idof s = id /\
    slots (mem rt) l ≡ₚ s :: slots (mem rt') l'.
Proof using.
  intros Hr. unfold wubu_runtime_destroy.
  destruct (find_spec rt l id Hr) as [[Hn ->]|(a & s & l' & Hp & Hs & Hid & ->)]; [by left|]. right.
  cbn [mbind option_bind].
  destruct (drop_slot_spec rt a l') as (rt' & -> & Hr' & Hsl & _); [by eapply reg_perm|].
  exists rt', l', s. split_and!; try done. by rewrite Hp, (slots_cons _ _ _ s), Hsl by done.
Qed.

Lemma on_space_spec rt a l s f :
  reg_ok rt (a :: l) -> mem rt !! a = Some s -> sp_id (f (space s)) = sp_id (space s) ->
  space_ok (Slot (f (space s)) (seq_no s)) ->
  exists rt', on_space rt a f = Some rt' /\ reg_ok rt' (a :: l) /\
    slots (mem rt') (a :: l) = Slot (f (space s)) (seq_no s) :: slots (mem rt) l /\
    hive rt' = hive rt /\ callocs rt' = callocs rt /\ max_spaces rt' = max_spaces rt /\ n_live rt' = n_live rt /\
    next_id rt' = next_id rt /\ mem rt' !! a = Some (Slot (f (space s)) (seq_no s)).
Proof using.
  intros Hr Hs Hid Hok. unfold on_space. rewrite Hs. cbn [mbind option_bind]. eexists. split; [reflexivity|].
  pose proof (rg_nodup _ _ Hr) as Hnd. apply NoDup_cons in Hnd as [Hna Hnd].
  set (m' := <[a := _]> (mem rt)).
  assert (slots m' (a :: l) = Slot (f (space s)) (seq_no s) :: slots (mem rt) l) as Hsl.
  { rewrite (slots_cons _ _ _ (Slot (f (space s)) (seq_no s))) by apply lookup_insert_eq. f_equal.
    apply slots_ext. intros b Hb. apply lookup_insert_ne. intros <-. done. }
  cbn [hive max_spaces default_heap_cap n_live next_id mem callocs put_mem].
  split_and!; try done; [|apply lookup_insert_eq].
  pose proof (rg_ids _ _ Hr) as Hi. pose proof (rg_next _ _ Hr) as Hx. pose proof (rg_heap _ _ Hr) as Hh.
  rewrite (slots_cons _ _ _ s) in Hi, Hx, Hh by done.
  apply Forall_cons in Hx as [[Hx1 Hx2] Hx]. apply Forall_cons in Hh as [_ Hh].
  split; cbn [hive max_spaces default_heap_cap n_live next_id mem callocs put_mem]; rewrite ?Hsl; try apply Hr.
  - pose proof (rg_mem _ _ Hr) as Hm. apply Forall_cons in Hm as [_ Hm].
    constructor; [unfold m'; rewrite lookup_insert_eq; eauto|]. apply (allocated_ext (mem rt)); [|done].
    intros b Hb. symmetry. apply lookup_insert_ne. intros <-. done.
  - cbn in *. unfold idof in *. cbn. by rewrite Hid.
  - constructor; [|done]. unfold idof in *. cbn. rewrite Hid. done.
  - by constructor.
Qed.

Lemma touch_heap_spec rt l id delta :
  reg_ok rt l -> sfits 64 delta ->
  (id ∉ (idof <$> slots (mem rt) l) /\ wubu_runtime_touch_heap rt id delta = Some (-1, rt)) \/
  exists s rest, slots (mem rt) l ≡ₚ s :: rest /\ idof s = id /\
    let used := sp_heap_used (space s) in
    if bool_decide (used + delta <= sp_heap_cap (space s)) then
      exists rt' l', wubu_runtime_touch_heap rt id delta = Some (0, rt') /\ reg_ok rt' l' /\
        slots (mem rt') l' = Slot (with_used (Z.max 0 (used + delta)) (space s)) (seq_no s) :: rest
    else wubu_runtime_touch_heap rt id delta = Some (-1, rt).
Proof using.
  intros Hr Hd. unfold wubu_runtime_touch_heap.
  destruct (find_spec rt l id Hr) as [[Hn ->]|(a & s & l' & Hp & Hs & Hid & ->)]; [by left|]. right.
  assert (reg_ok rt (a :: l')) as Hr' by (by eapply reg_perm).
  exists s, (slots (mem rt) l'). split; [by rewrite Hp, (slots_cons _ _ _ s)|]. split; [done|].
  cbn [mbind option_bind]. rewrite Hs. cbn [mbind option_bind].
  assert (space_ok s) as [Hu Hc].
  { pose proof (rg_heap _ _ Hr') as Hh. rewrite (slots_cons _ _ _ s) in Hh by done. by apply Forall_cons in Hh as [? _]. }
  set (used := sp_heap_used (space s)) in *. set (hcap := sp_heap_cap (space s)) in *.
  change (2 ^ 63) with 9223372036854775808 in *.
  assert (s64 used = used) as Hsu by (apply swrap_id; [lia|]; unfold_fits; lia). rewrite Hsu.
  assert (delta < 0 \/ 0 <= delta /\ u64 (used + u64 delta) = used + delta) as Hsum.
  { unfold_fits. destruct (Z.ltb_spec delta 0); [by left|right]. split; [lia|].
    rewrite (wrap_id 64 delta) by (unfold_fits; lia). apply wrap_id. unfold_fits. lia. }
  case_bool_decide as Hfit.
  - rewrite (proj2 (andb_false_iff _ _)).
    2:{ destruct Hsum as [Hneg|[Hpos ->]]; [left; destruct (Z.geb_spec delta 0); [lia|done]|
        right; destruct (Z.gtb_spec (used + delta) hcap); [lia|done]]. }
    rewrite bool_decide_eq_true_2 by (unfold_fits; lia). cbn [negb].
    assert ((if used + delta <? 0 then 0 else u64 (used + u64 delta)) = Z.max 0 (used + delta)) as ->.
    { destruct (Z.ltb_spec (used + delta) 0); [lia|]. unfold wrap at 1 2. rewrite Zplus_mod_idemp_r.
      rewrite Z.mod_small; unfold_fits; lia. }
    destruct (on_space_spec rt a l' s (with_used (Z.max 0 (used + delta))) Hr' Hs) as (rt' & -> & Hr2 & Hsl & _);
      [done|split; cbn; lia|].
    exists rt', (a :: l'). done.
  - destruct Hsum as [Hneg|[Hpos ->]]; [lia|].
    destruct (Z.geb_spec delta 0); [|lia]. destruct (Z.gtb_spec (used + delta) hcap); [done|lia].
Qed.
End registry.
