(* ===== verification/SpacesTheorems.v ===== *)
(** * What the registry of compilation spaces promises *)

From stdpp Require Import gmap.
From S2P Require Import Prelude Hive HiveFacts HiveTheorems Spaces SpacesFile SpacesFacts.
Open Scope Z_scope.

(** ** Records *)

Definition text_ok (n : nat) (s : list Z) : Prop := is_cstr s /\ (length s < n)%nat.

(** A slot whose fields fit the record. *)
Record slot_fits (s : rt_slot) : Prop := {
  sf_id : fits 64 (sp_id (space s));
  sf_seq : fits 64 (seq_no s);
  sf_name : text_ok 64 (sp_name (space s));
  sf_language : text_ok 48 (sp_language (space s));
  sf_compiler : text_ok 32 (sp_compiler_ver (space s));
  sf_lversion : text_ok 32 (sp_language_ver (space s));
  sf_abi : text_ok 96 (sp_abi_snapshot (space s));
  sf_created : text_ok 32 (sp_created (space s));
  sf_ns : text_ok 64 (sp_namespace_path (space s));
  sf_cap : fits 64 (sp_heap_cap (space s));
  sf_used : fits 64 (sp_heap_used (space s));
  sf_state : fits 32 (sp_state (space s)) }.

Lemma text_id n s : text_ok n s -> text n s = s.
Proof. intros [Hc Hl]. unfold text. rewrite cstr_id by done. apply take_ge. lia. Qed.

Lemma length_text n s : (0 < n)%nat -> (length (text n s) < n)%nat.
Proof. intros. unfold text. rewrite length_take. lia. Qed.

Lemma length_field n s : (0 < n)%nat -> length (field n s) = n.
Proof. intros Hn. unfold field. rewrite length_app, length_replicate. pose proof (length_text n s Hn). lia. Qed.

Lemma cstr_app s n : is_cstr s -> (0 < n)%nat -> cstr (s ++ replicate n 0) = s.
Proof.
  intros Hs Hn. induction Hs as [|c s Hc Hs IH].
  - destruct n; [lia|done].
  - cbn. rewrite (proj2 (Z.eqb_neq c 0)) by lia. by rewrite IH.
Qed.

Lemma field_text n s : text_ok n s -> (0 ∈ field n s) /\ text n (field n s) = s.
Proof.
  intros Hs. pose proof Hs as [Hc Hl]. unfold field. rewrite text_id by done. split.
  - apply elem_of_app. right. apply elem_of_replicate. split; [done|lia].
  - unfold text. rewrite cstr_app by (done || lia). apply take_ge. lia.
Qed.

Lemma slice_skip (a b : list Z) off n : (length a <= off)%nat -> slice (a ++ b) off n = slice b (off - length a) n.
Proof. intros. unfold slice. by rewrite drop_app_ge. Qed.

Lemma slice_head (a b : list Z) n : length a = n -> slice (a ++ b) 0 n = a.
Proof. intros <-. unfold slice. rewrite drop_0. apply take_app_length. Qed.

(** Skips the fields in front of the one at the offset. *)
Ltac at_field :=
  repeat first
    [ rewrite slice_head by (rewrite ?length_le_enc, ?length_field by lia; reflexivity)
    | rewrite slice_skip by (rewrite ?length_le_enc, ?length_field by lia; lia);
      rewrite ?length_le_enc, ?length_field by lia; cbn [Nat.sub] ].

Lemma num_enc n v : fits (8 * Z.of_nat n) v -> le_dec (le_enc n v) = v.
Proof. intros. rewrite le_dec_enc. by apply wrap_id. Qed.

Definition kind_text (o : option personality) : list Z := match o with Some p => kind_name p | None => [] end.

Lemma kind_text_ok o : text_ok 16 (kind_text o).
Proof. destruct o as [[]|]; (split; [repeat constructor; lia|cbn; lia]). Qed.

Lemma read_rec s :
  slot_fits s ->
  length (rec_bytes s) = REC_SZ /\
  read_slot (rec_bytes s) = Some (Slot (Space (sp_id (space s)) (sp_name (space s)) (sp_language (space s))
    (sp_compiler_ver (space s)) (sp_language_ver (space s)) (sp_abi_snapshot (space s)) (sp_created (space s))
    (sp_namespace_path (space s)) (sp_heap_cap (space s)) (sp_heap_used (space s)) WUBU_RT_COLD None) (seq_no s)) /\
  num_field (rec_bytes s) 400 4 = sp_state (space s) /\
  slice (rec_bytes s) 404 16 = field 16 (kind_text (sp_personality (space s))).
Proof.
  intros Hs. unfold rec_bytes, read_slot, text_field, num_field. fold (kind_text (sp_personality (space s))).
  split_and!.
  - rewrite !length_app, !length_le_enc, !length_field by lia. by rewrite length_replicate.
  - at_field.
    repeat match goal with
    | |- context [bool_decide (0 ∈ field ?n ?x)] =>
        rewrite (bool_decide_eq_true_2 (0 ∈ field n x)) by (apply field_text, Hs);
        rewrite (proj2 (field_text n x ltac:(apply Hs))); cbn [mbind option_bind]
    end.
    rewrite !num_enc by apply Hs. done.
  - at_field. apply num_enc, Hs.
  - at_field. done.
Qed.

Lemma read_hdr c :
  fits 32 c ->
  num_field (hdr_bytes c) 0 8 = WUBU_RT_FILE_MAGIC /\ num_field (hdr_bytes c) 8 4 = WUBU_RT_FILE_VER /\
  num_field (hdr_bytes c) 12 4 = c.
Proof.
  intros Hc. unfold num_field, hdr_bytes. split_and!.
  - at_field. by vm_compute.
  - at_field. by vm_compute.
  - rewrite <- (app_nil_r (le_enc 4 c)). at_field. by apply num_enc.
Qed.

(** ** Loading what was saved *)

Section roundtrip.
  Context {H : Type} {bops : BagOps H} {bag : Bag H} {mal : Malloc} {mlaws : MallocLaws}.
  Implicit Types rt : wubu_runtime H.

Lemma find_unique rt l a s : reg_ok rt l -> a ∈ l -> mem rt !! a = Some s -> wubu_runtime_find rt (idof s) = Some (Some a).
Proof.
  intros Hr Ha Hs. destruct (find_spec rt l (idof s) Hr) as [[Hn _]|(b & t & l' & Hp & Ht & Hid & Hf)].
  - destruct Hn. apply list_elem_of_fmap. exists s. split; [done|]. apply elem_of_slots. eauto.
  - rewrite Hf. destruct (decide (a = b)) as [->|Hne]; [done|]. rewrite Hp in Ha.
    apply elem_of_cons in Ha as [?|Ha]; [done|]. pose proof (rg_ids _ _ Hr) as Hi.
    rewrite (slots_perm _ _ _ Hp), (slots_cons _ _ _ t) in Hi by done. apply NoDup_cons in Hi as [Hi _].
    destruct Hi. rewrite Hid. apply list_elem_of_fmap. exists s. split; [done|]. apply elem_of_slots. eauto.
Qed.

(** The space of a record while it is taken in: nothing is lost. *)
Definition bare (s : rt_slot) : rt_slot :=
  Slot (Space (sp_id (space s)) (sp_name (space s)) (sp_language (space s)) (sp_compiler_ver (space s))
    (sp_language_ver (space s)) (sp_abi_snapshot (space s)) (sp_created (space s)) (sp_namespace_path (space s))
    (sp_heap_cap (space s)) (sp_heap_used (space s)) WUBU_RT_COLD None) (seq_no s).

Lemma kind_field_first o : rd (field 16 (kind_text o)) 0 = Some 0 <-> o = None.
Proof. destruct o as [[]|]; cbn; split; done. Qed.

Lemma personality_step rt a l s :
  reg_ok rt (a :: l) -> mem rt !! a = Some (bare s) -> slot_fits s -> space_ok s ->
  exists rt' s', (if rd (rec_bytes s) 404 is Some 0 then Some rt
                else snd <$> wubu_runtime_set_personality rt (sp_id (space s)) (slice (rec_bytes s) 404 16)) = Some rt' /\
    reg_ok rt' (a :: l) /\ slots (mem rt') (a :: l) = s' :: slots (mem rt) l /\ mem rt' !! a = Some s' /\
    Slot (with_state (sp_state (space s)) (space s')) (seq_no s') = s /\ space_ok s' /\ idof s' = idof s /\
    hive rt' = hive rt /\ callocs rt' = callocs rt /\ max_spaces rt' = max_spaces rt /\ n_live rt' = n_live rt.
Proof.
  intros Hr Ha Hf Hok. destruct (read_rec s Hf) as (Hlen & _ & _ & Hk).
  assert (rd (rec_bytes s) 404 = rd (field 16 (kind_text (sp_personality (space s)))) 0) as Hrd.
  { rewrite <- Hk. unfold rd, slice. rewrite lookup_take_lt, lookup_drop by lia. done. }
  rewrite Hrd, Hk. destruct s as [sp sq]. destruct sp as [? ? ? ? ? ? ? ? ? ? ? o]. cbn [space sp_personality].
  destruct o as [p|].
  - assert (wubu_runtime_find rt (idof (bare (Slot (Space sp_id sp_name sp_language sp_compiler_ver sp_language_ver
      sp_abi_snapshot sp_created sp_namespace_path sp_heap_cap sp_heap_used sp_state (Some p)) sq))) = Some (Some a)) as Hfind.
    { apply (find_unique rt (a :: l)); [done|set_solver|done]. }
    cbn [bare idof space Spaces.sp_id] in Hfind.
    destruct (on_space_spec rt a l _ (with_personality p) Hr Ha) as (rt' & Hon & Hr' & Hsl & Hh & Hc & Hm & Hl & _ & Hm').
    { done. } { exact Hok. }
    exists rt'. eexists. split.
    { assert (wubu_runtime_set_personality rt sp_id (field 16 (kind_text (Some p))) = Some (0, rt')) as Hsp.
      { unfold wubu_runtime_set_personality. unfold idof in Hfind. cbn in Hfind. rewrite Hfind. cbn [mbind option_bind].
        assert (kind_of (cstr (field 16 (kind_text (Some p)))) = Some p) as -> by (by destruct p).
        by rewrite Hon. }
      cbn [Spaces.sp_id]. rewrite Hsp. by destruct p. }
    split_and!; [exact Hr'|exact Hsl|exact Hm'| | | | | | |]; done.
  - exists rt. eexists. split; [done|]. split_and!; [done| |exact Ha| | | | | | |]; try done.
    by rewrite (slots_cons _ _ _ _ Ha).
Qed.

(** A registry that has room and whose allocations succeed. *)
Definition roomy rt (n : nat) : Prop :=
  bag_reliable (hive rt) /\ callocs rt = [] /\ n_live rt + Z.of_nat n <= max_spaces rt.

(** A slot that can be loaded beside others. *)
Definition loadable (s : rt_slot) : Prop :=
  slot_fits s /\ space_ok s /\ seq_no s = idof s /\ 0 < idof s /\ idof s + 1 < 2 ^ 64.

Lemma load_rec_spec rt l s n :
  reg_ok rt l -> roomy rt (S n) -> loadable s -> idof s ∉ (idof <$> slots (mem rt) l) ->
  exists rt' l', load_rec rt (rec_bytes s) = Some (true, rt') /\ reg_ok rt' l' /\ roomy rt' n /\
    slots (mem rt') l' = s :: slots (mem rt) l.
Proof.
  intros Hr (Hrel & Hcal & Hroom) (Hf & Hok & Hseq & Hpos & Hlt) Hid.
  destruct (read_rec s Hf) as (Hlen & Hread & Hstate & Hk). pose proof (rg_bound _ _ Hr) as Hb.
  unfold load_rec. destruct (Z.geb_spec (n_live rt) (max_spaces rt)); [lia|]. rewrite Hread. cbn [mbind option_bind].
  fold (bare s). destruct (calloc rt (bare s)) as [[p|] rt1] eqn:Hc.
  2:{ unfold calloc in Hc. by rewrite Hcal in Hc. }
  assert (next_id rt1 = next_id rt /\ callocs rt1 = [] /\ rt1 = put_next rt1 (next_id rt)) as (Hn1 & Hcal1 & Heta).
  { unfold calloc in Hc. rewrite Hcal in Hc. injection Hc as _ <-. done. }
  set (n' := if idof s >=? next_id rt then idof s + 1 else next_id rt).
  replace (if sp_id (space (bare s)) >=? next_id rt1 then _ else rt1) with (put_next rt1 n').
  2:{ subst n'. rewrite Hn1. change (sp_id (space (bare s))) with (idof s).
      destruct (idof s >=? next_id rt); [|done]. by rewrite wrap_id by (unfold_fits; lia). }
  destruct (add_slot_spec rt l (bare s) p rt1 n' Hr) as (kept & rt2 & Hks & Hrel2 & Hn2 & Hm2 & Hd2 & Hc2 & Hres);
    try done; try lia.
  { subst n'. destruct (Z.geb_spec (idof s) (next_id rt)); lia. }
  { subst n'. change (idof (bare s)) with (idof s). destruct (Z.geb_spec (idof s) (next_id rt)); lia. }
  { subst n'. destruct (Z.geb_spec (idof s) (next_id rt)); lia. }
  destruct (Hrel2 Hrel) as [-> Hrel3]. destruct Hres as (Hr2 & Hsl2 & Hp2). rewrite Hks. cbn [mbind option_bind negb].
  change (sp_id (space (bare s))) with (sp_id (space s)).
  destruct (personality_step rt2 p l s Hr2 Hp2 Hf Hok)
    as (rt3 & s' & -> & Hr3 & Hsl3 & Hp3 & Hback & Hok' & Hids & Hh3 & Hc3 & Hm3 & Hl3). cbn [mbind option_bind].
  change (sp_id (space s)) with (idof s). rewrite <- Hids.
  rewrite (find_unique rt3 (p :: l) p s' Hr3) by (done || set_solver). cbn [mbind option_bind]. rewrite Hstate.
  destruct (on_space_spec rt3 p l s' (with_state (sp_state (space s))) Hr3 Hp3)
    as (rt4 & -> & Hr4 & Hsl4 & Hh4 & Hc4 & Hm4 & Hl4 & _ & _); [done|exact Hok'|]. cbn [mbind option_bind].
  exists rt4, (p :: l). split_and!; [done|done| | ].
  - split_and!; [by rewrite Hh4, Hh3|congruence|]. rewrite Hm4, Hm3, Hm2, Hl4, Hl3.
    rewrite (rg_live _ _ Hr2). cbn [length]. rewrite (rg_live _ _ Hr) in Hroom. lia.
  - rewrite Hsl4, Hback. f_equal. rewrite (slots_cons _ _ _ _ Hp3) in Hsl3. injection Hsl3 as E. rewrite E.
    rewrite (slots_cons _ _ _ _ Hp2) in Hsl2. by injection Hsl2.
Qed.

Lemma load_loop_spec rt l (S : list rt_slot) :
  reg_ok rt l -> roomy rt (length S) -> Forall loadable S -> NoDup ((idof <$> S) ++ (idof <$> slots (mem rt) l)) ->
  exists rt' l', load_loop (length S) rt (concat (map rec_bytes S)) = Some (0, rt') /\ reg_ok rt' l' /\
    slots (mem rt') l' ≡ₚ S ++ slots (mem rt) l.
Proof.
  revert rt l. induction S as [|s S IH]; intros rt l Hr Hroom Hl Hnd.
  { exists rt, l. done. }
  apply Forall_cons in Hl as [Hs Hl]. cbn [map concat length load_loop].
  destruct (read_rec s (proj1 Hs)) as (Hlen & _).
  unfold fread. rewrite (proj2 (Nat.ltb_ge _ _)) by (rewrite length_app; lia).
  rewrite <- Hlen, take_app_length, drop_app_length.
  cbn in Hnd. apply NoDup_cons in Hnd as [Hn Hnd].
  destruct (load_rec_spec rt l s (length S) Hr Hroom Hs) as (rt1 & l1 & -> & Hr1 & Hroom1 & Hsl); [set_solver|].
  cbn [mbind option_bind]. destruct (IH rt1 l1 Hr1 Hroom1 Hl) as (rt' & l' & -> & Hr' & Hp).
  { rewrite Hsl. cbn. rewrite <- Permutation_middle. constructor; [done|done]. }
  exists rt', l'. split_and!; try done. rewrite Hp, Hsl. by rewrite <- Permutation_middle.
Qed.

Lemma save_loop_spec m l :
  allocated m l -> save_loop m [] l = Some (0, concat (map rec_bytes (slots m l))).
Proof.
  induction 1 as [|a l [s Ha] Hl IH]; [done|]. cbn [save_loop io]. rewrite Ha, (slots_cons _ _ _ s) by done.
  cbn [mbind option_bind negb]. rewrite IH. done.
Qed.
End roundtrip.

(** An allocator that hands out the address after the highest in use. *)
#[export] Instance next_address : Malloc := {
  fresh m := foldr Z.max 0 (map fst (map_to_list m)) + 1 }.

Lemma foldr_max_le (l : list Z) x : x ∈ l -> x <= foldr Z.max 0 l.
Proof. induction 1 as [|x y l _ IH]; cbn; lia. Qed.

Lemma foldr_max_nonneg (l : list Z) : 0 <= foldr Z.max 0 l.
Proof. induction l; cbn; lia. Qed.

#[export] Instance next_address_ok : MallocLaws.
Proof.
  split.
  - intros m. cbn. pose proof (foldr_max_nonneg (map fst (map_to_list m))). lia.
  - intros m. destruct (m !! fresh m) as [s|] eqn:E; [|done]. apply elem_of_map_to_list in E.
    apply (list_elem_of_fmap_2 fst) in E. apply foldr_max_le in E.
    unfold fresh, next_address in E. cbn [fst] in E. change (fst <$> map_to_list m) with (map fst (map_to_list m)) in E. lia.
Qed.

Section promises.
  Context {H : Type} {bops : BagOps H} {bag : Bag H} {mal : Malloc} {mlaws : MallocLaws}.
  Implicit Types rt : wubu_runtime H.

(** Creating a space in a registry with room adds it and takes nothing out; in a full
    one it takes out exactly the space that was created first.  The new space has the
    next identifier, is found under it and the registry keeps its invariant: distinct
    identifiers, at most [max_spaces] spaces, [n_live] their number, no heap above its
    cap.  Without an allocation failure creation succeeds. *)
Theorem spaces_create_recycles_oldest rt l a t :
  reg_ok rt l -> next_id rt + 1 < 2 ^ 64 ->
  exists id rt' l' kept, wubu_runtime_create rt a t = Some (id, rt') /\ reg_ok rt' l' /\
    (n_live rt < max_spaces rt /\ kept = slots (mem rt) l \/
     n_live rt = max_spaces rt /\ exists o, slots (mem rt) l ≡ₚ o :: kept /\
       Forall (fun s => seq_no o < seq_no s) kept) /\
    (id = 0 /\ slots (mem rt') l' = kept /\ (callocs rt <> [] \/ ~ bag_reliable (hive rt)) \/
     id = next_id rt /\ slots (mem rt') l' = Slot (fill_space rt a t) (next_id rt) :: kept /\
     exists p, wubu_runtime_find rt' id = Some (Some p) /\
       mem rt' !! p = Some (Slot (fill_space rt a t) (next_id rt))).
Proof.
  intros Hr Hn. destruct (create_spec rt l a t Hr Hn) as (id & rt' & l' & kept & Hc & Hr' & Hk & Hres).
  exists id, rt', l', kept. split_and!; try done. destruct Hres as [?|[-> Hs]]; [by left|]. right. split_and!; try done.
  assert (Slot (fill_space rt a t) (next_id rt) ∈ slots (mem rt') l') as Hin by (rewrite Hs; set_solver).
  apply elem_of_slots in Hin as (p & Hp & Hm). exists p. split; [|done].
  by apply (find_unique rt' l' p _ Hr' Hp Hm).
Qed.

(** C28. Saving a registry and loading the file into an empty one with room for it gives
    the same spaces: every text, number, state and personality comes back. *)
Theorem spaces_save_load_roundtrip rt l rt0 :
  reg_ok rt l -> Forall slot_fits (slots (mem rt) l) -> reg_ok rt0 [] -> roomy rt0 (length l) ->
  exists file rt' l', wubu_runtime_save rt [] = Some (0, Some file) /\
    wubu_runtime_load rt0 (Some file) = Some (0, rt') /\ reg_ok rt' l' /\
    slots (mem rt') l' ≡ₚ slots (mem rt) l.
Proof.
  intros Hr Hf Hr0 Hroom. destruct (elems_spec rt l Hr) as (l1 & He & Hp & Hr1).
  assert (Forall loadable (slots (mem rt) l1)) as Hl.
  { rewrite <- Hp in Hf. pose proof (rg_next _ _ Hr1) as Hx. pose proof (rg_heap _ _ Hr1) as Hh.
    pose proof (rg_bound _ _ Hr1). rewrite Forall_forall in *. intros s Hs. destruct (Hx s Hs) as [? ?].
    split_and!; [by apply Hf|by apply Hh|done|lia|lia]. }
  assert (length (slots (mem rt) l1) = length l) as Hlen.
  { rewrite slots_length by apply Hr1. by rewrite Hp. }
  destruct (load_loop_spec rt0 [] (slots (mem rt) l1)) as (rt' & l' & Hload & Hr' & Hs); [done|by rewrite Hlen|done| |].
  { cbn. rewrite app_nil_r. apply Hr1. }
  exists (hdr_bytes (n_live rt) ++ concat (map rec_bytes (slots (mem rt) l1))), rt', l'.
  pose proof (rg_live _ _ Hr) as Hlive. pose proof (rg_cap _ _ Hr). pose proof (rg_max _ _ Hr).
  split_and!; [| |done|].
  - unfold wubu_runtime_save, wubu_runtime_count. cbn [io negb]. rewrite He. cbn [mbind option_bind].
    rewrite save_loop_spec by apply Hr1. cbn [mbind option_bind]. by rewrite wrap_id by (unfold_fits; lia).
  - unfold wubu_runtime_load. unfold fread at 1.
    assert (length (hdr_bytes (n_live rt)) = HDR_SZ) as Hh by (unfold hdr_bytes; by rewrite !length_app, !length_le_enc).
    rewrite (proj2 (Nat.ltb_ge _ _)) by (rewrite length_app, Hh; lia).
    rewrite <- Hh, take_app_length, drop_app_length.
    destruct (read_hdr (n_live rt)) as (-> & -> & ->); [unfold_fits; lia|]. rewrite !Z.eqb_refl. cbn [negb orb].
    rewrite Hlive, Nat2Z.id, <- Hlen. exact Hload.
  - rewrite Hs. cbn. by rewrite app_nil_r, Hp.
Qed.

(** A space with the sandboxed personality never gets a file opened whose path does not
    start with "/n/": the call is refused and the host is not asked. *)
Theorem spaces_sandbox_refuses_foreign_paths {U} `{Native U} rt l (u : U) p s path flags :
  reg_ok rt l -> p ∈ l -> mem rt !! p = Some s -> sp_personality (space s) = Some Wasi -> take 3 path <> n_root ->
  wubu_runtime_call rt u (idof s) (SYS_OPEN (Some path) flags) = Some (WUBU_RT_SANDBOX_REFUSED, u).
Proof.
  intros Hr Hp Hs Hw Hn. unfold wubu_runtime_call. rewrite (find_unique rt l p s Hr Hp Hs). cbn [mbind option_bind].
  rewrite Hs. cbn [mbind option_bind]. rewrite Hw. cbn. by rewrite bool_decide_eq_false_2.
Qed.
End promises.

(** ** Concrete registries *)

Definition no_spaces : wubu_runtime wubu_hive := Runtime small_hive 4 (2 ^ 20) 0 1 ∅ [].

Lemma no_spaces_ok : reg_ok no_spaces [].
Proof.
  split; cbn; try done; try constructor.
  exists 2%nat, ∅. split; [apply small_hive_repr|]. by rewrite map_to_list_empty.
Qed.

(** "jvm", "java" *)
Definition jvm : new_space := {|
  ns_name := [106; 118; 109]; ns_language := [106; 97; 118; 97]; ns_compiler_ver := None; ns_language_ver := None;
  ns_abi_snapshot := None; ns_namespace_path := None |}.
Definition some_day : tm := {| tm_year := 126; tm_mon := 7; tm_mday := 4 |}.
Definition jvm_slot : rt_slot := Slot (fill_space no_spaces jvm some_day) 1.

Lemma jvm_slot_fits : slot_fits jvm_slot.
Proof. split; vm_compute; repeat (split || constructor); intros [=]. Qed.

Lemma spaces_create_recycles_oldest_witness :
  exists rt' l', wubu_runtime_create no_spaces jvm some_day = Some (1, rt') /\ reg_ok rt' l' /\
    slots (mem rt') l' = [jvm_slot].
Proof.
  destruct (spaces_create_recycles_oldest no_spaces [] jvm some_day no_spaces_ok) as (id & rt' & l' & kept & Hc & Hr & Hk & Hres).
  - reflexivity.
  - exists rt', l'. destruct Hk as [[_ ->]|[Hf _]]; [|discriminate Hf].
    destruct Hres as [(-> & _ & [Hn|Hn])|(-> & Hs & _)].
    + destruct Hn. reflexivity.
    + destruct Hn. reflexivity.
    + split; [exact Hc|]. split; [exact Hr|exact Hs].
Defined.

Lemma one_space : exists rt l, reg_ok (H := wubu_hive) rt l /\ slots (mem rt) l = [jvm_slot] /\ length l = 1%nat.
Proof.
  destruct (create_spec no_spaces [] jvm some_day no_spaces_ok) as (id & rt' & l' & kept & Hc & Hr & Hk & Hres); [done|].
  exists rt', l'. destruct Hk as [[_ ->]|[Hf _]]; [|done].
  destruct Hres as [(-> & _ & [Hn|Hn])|(-> & Hs)]; [by destruct Hn|by destruct Hn|].
  split_and!; [done|done|]. rewrite <- (slots_length (mem rt') l') by apply Hr. by rewrite Hs.
Qed.

Lemma spaces_save_load_roundtrip_witness :
  exists rt file rt' l', wubu_runtime_save (H := wubu_hive) rt [] = Some (0, Some file) /\
    wubu_runtime_load no_spaces (Some file) = Some (0, rt') /\ slots (mem rt') l' ≡ₚ [jvm_slot].
Proof.
  destruct one_space as (rt & l & Hr & Hs & Hl).
  destruct (spaces_save_load_roundtrip rt l no_spaces Hr) as (file & rt' & l' & Hsv & Hld & _ & Hp).
  - rewrite Hs. apply Forall_cons. split; [exact jvm_slot_fits|apply Forall_nil; exact I].
  - exact no_spaces_ok.
  - rewrite Hl. split; [reflexivity|]. split; [reflexivity|discriminate].
  - exists rt, file, rt', l'. rewrite Hs in Hp. split; [exact Hsv|]. split; [exact Hld|exact Hp].
Defined.

(** ** Departures *)

#[local] Instance refusing_host : Native (list (list Z)) := {
  n_open u path f := (3, default [] path :: u);
  n_read u _ _ _ := (-1, u); n_write u _ _ _ := (-1, u); n_close u _ := (0, u);
  n_malloc u _ := (0, u); n_free u _ := u; n_exit u _ := u }.

(** "/n/../etc/passwd" *)
Definition parent_path : list Z := [47; 110; 47; 46; 46; 47; 101; 116; 99; 47; 112; 97; 115; 115; 119; 100].

(** The sandbox compares three characters only: a path that leaves the namespace through
    ".." is handed to the host. *)
Theorem spaces_sandbox_admits_parent_path : wasi_open [] (Some parent_path) 0 = (3, [parent_path]).
Proof. reflexivity. Qed.

(** A file cut off after its first record is refused, but the registry is not empty
    afterwards: the spaces read so far stay. *)
Theorem spaces_load_truncated_keeps_spaces :
  exists rt, wubu_runtime_load no_spaces (Some (hdr_bytes 2 ++ rec_bytes jvm_slot)) = Some (-1, rt) /\
    wubu_runtime_count rt = 1.
Proof. eexists. split; vm_compute; reflexivity. Qed.

(** A record whose name has no terminator makes loading read past the field. *)
Theorem spaces_load_overreads_text :
  wubu_runtime_load no_spaces
    (Some (hdr_bytes 1 ++ le_enc 8 1 ++ le_enc 8 1 ++ replicate 64 65 ++ replicate 344 0)) = None.
Proof. vm_compute. reflexivity. Qed.

Definition full_registry : wubu_runtime wubu_hive :=
  default no_spaces (snd <$> wubu_runtime_create (Runtime small_hive 1 (2 ^ 20) 0 1 ∅ []) jvm some_day).

(** A full registry loses its oldest space even when the new one cannot be allocated. *)
Theorem spaces_failed_create_evicts :
  wubu_runtime_count full_registry = 1 /\
  (fun r => (r.1, wubu_runtime_count r.2)) <$>
    wubu_runtime_create (Runtime (hive full_registry) 1 (2 ^ 20) 1 2 (mem full_registry) [false]) jvm some_day
  = Some (0, 0).
Proof. split; vm_compute; reflexivity. Qed.
