(* ===== verification/Agi.v ===== *)
(** * The self-improvement supervisor and its verifier

    [kernel/wubu_agi_kernel.c] (the trace ring, the promotion cycle, the checkpoint)
    and [kernel/wubu_verifier.c] (the scoring of spans), on the runtime register of
    [Attest].

    The supervisor is a record; the attestation module and the long-term memory it
    calls are passed along.  [None] is a read outside the ring or outside a span's
    data.  The verifier is the function the supervisor was given: it sees the
    attestation module and a span's data.  Scores are sums of whole numbers below
    2^24, which C's [float] represents exactly.  Left out: the tasks, the theme of
    the desktop and the decomposition of the screen, of which [n_regions] is the
    number of regions. *)

From S2P Require Import Prelude Sha256 Sha256Facts Attest.
Open Scope Z_scope.

Definition WUBU_AGI_TRACE_CAP : nat := 256.
Definition WUBU_AGI_SPAN_DATA : nat := 192.
Definition WUBU_AGI_CKP_MAGIC : Z := 0x4147434B.
Definition WUBU_AGI_SPAN_AGENT : Z := 0.
Definition WUBU_AGI_SPAN_SELFMOD : Z := 1.
Definition WUBU_AGI_SPAN_SUPER : Z := 2.

Record wubu_agi_span := Span {
  id : Z;
  parent : Z;
  ts_ms : Z;
  kind : Z;
  consumed : bool;
  data : list Z }.

(** [wubu_agi_verifier_fn] *)
Definition verifier_fn : Type := attest_state -> list Z -> Z -> option (bool * attest_state).

Record wubu_agi_kernel {M : Type} := Agi {
  ring : list wubu_agi_span;
  ring_head : Z;
  ring_count : Z;
  span_id : Z;
  verifier : option verifier_fn;
  memory_fn : option (Z -> list Z -> M -> M);
  frozen : bool;
  promoted_total : Z;
  last_promote_tick : Z;
  attest_valid : bool;
  kernel_size : Z;
  kernel_digest : list Z;
  uptime_ms : Z;
  n_regions : Z }.
Arguments wubu_agi_kernel : clear implicits.
Arguments Agi {M}.

Record wubu_agi_ckp := Ckp {
  ck_magic : Z; ck_promoted_total : Z; ck_region_count : Z; ck_next_span_id : Z; ck_last_promote_tick : Z }.

(** ** The verifier *)

Definition WUBU_VERIFIER_THRESHOLD : Z := 60.
Definition WUBU_VERIFIER_MAX_LEN : nat := 191.
Definition WUBU_VERIFIER_MIN_LEN : nat := 4.

Definition k_emitters : list (list Z) := map str ["bonzi."; "agent."; "supervisor."; "span"; "sys."]%string.

Definition k_verbs : list (list Z) :=
  map str ["heartbeat"; "emit"; "step"; "region"; "attest"; "promote"; "freeze"; "unfreeze"; "trace"; "theme";
           "hid"; "task"]%string.

(** A letter or a digit continues a word. *)
Definition word_char (c : Z) : bool := (97 <=? c) && (c <=? 122) || (48 <=? c) && (c <=? 57).

(** The comparison of [tok] with the text at [p]. *)
Fixpoint matches_at (s : list Z) (p : nat) (tok : list Z) : option bool :=
  match tok with
  | [] => Some true
  | t :: tok => c ← rd s p; if c =? t then matches_at s (S p) tok else Some false
  end.

Definition ends_dot (tok : list Z) : bool := match last tok with Some c => c =? 46 | None => false end.

(** Whether [tok] occurs at [pos], with a boundary on both sides. *)
Definition token_at (s : list Z) (tok : list Z) (pos : nat) : option bool :=
  let tl := length tok in
  m ← matches_at s pos tok;
  if negb m then Some false else
  before ← (if Nat.eqb pos 0 then Some 32 else rd s (pos - 1));
  after ← (if Nat.ltb (pos + tl) WUBU_VERIFIER_MAX_LEN then rd s (pos + tl) else Some 32);
  Some (negb (word_char before) && (ends_dot tok || negb (word_char after))).

(** The loop from [pos] on, [n] rounds before the limit. *)
Fixpoint has_token_from (n : nat) (s : list Z) (tok : list Z) (pos : nat) : option bool :=
  match n with
  | O => Some false
  | S n =>
      c ← rd s pos;
      if c =? 0 then Some false else
      found ← (if bool_decide (Some c = head tok) && Nat.leb (pos + length tok) WUBU_VERIFIER_MAX_LEN
               then token_at s tok pos else Some false);
      if found : bool then Some true else has_token_from n s tok (S pos)
  end.

Definition has_token (s : list Z) (tok : list Z) : option bool := has_token_from WUBU_VERIFIER_MAX_LEN s tok 0.

(** The scan for printable text: its length, or that a character is refused. *)
Fixpoint scan_text (n : nat) (s : list Z) (i : nat) : option (option nat) :=
  match n with
  | O => Some (Some 0%nat)
  | S n =>
      c ← rd s i;
      if c =? 0 then Some (Some 0%nat) else
      if (c <? 32) || (c >? 126) then Some None else
      l ← scan_text n s (S i);
      Some (option_map S l)
  end.

(** How often a character occurs before the terminator. *)
Fixpoint count_char (n : nat) (s : list Z) (ch : Z) (i : nat) : option Z :=
  match n with
  | O => Some 0
  | S n =>
      c ← rd s i;
      if c =? 0 then Some 0 else r ← count_char n s ch (S i); Some (b2z (c =? ch) + r)
  end.

Fixpoint any_token (s : list Z) (toks : list (list Z)) : option bool :=
  match toks with
  | [] => Some false
  | t :: toks => b ← has_token s t; if b : bool then Some true else any_token s toks
  end.

Fixpoint count_tokens (s : list Z) (toks : list (list Z)) : option Z :=
  match toks with
  | [] => Some 0
  | t :: toks => b ← has_token s t; r ← count_tokens s toks; Some (b2z b + r)
  end.

(** [suite] is what [wubu_self_test_run] returns: the checks passed, and their
    number.  The result is the score, whether it passes, and the attestation module,
    whose runtime register a first query starts. *)
Definition wubu_verifier_score (suite : Z * Z) (att : attest_state) (payload : list Z) : option (Z * bool * attest_state) :=
  l ← scan_text WUBU_VERIFIER_MAX_LEN payload 0;
  match l with
  | None => Some (0, false, att)
  | Some len =>
      tail ← (if Nat.eqb len WUBU_VERIFIER_MAX_LEN then rd payload WUBU_VERIFIER_MAX_LEN else Some 0);
      if negb (tail =? 0) then Some (0, false, att) else
      if Nat.ltb len WUBU_VERIFIER_MIN_LEN then Some (0, false, att) else
      emitter ← any_token payload k_emitters;
      if negb emitter then Some (0, false, att) else
      verbs ← count_tokens payload k_verbs;
      eq ← count_char WUBU_VERIFIER_MAX_LEN payload 61 0;
      pct ← count_char WUBU_VERIFIER_MAX_LEN payload 37 0;
      let score := 30 + (if verbs >? 2 then 40 else if verbs >? 0 then 25 else 5) in
      let score := score + (if eq >? 0 then 15 else 0) + (if pct >? 0 then 10 else 0) + (if Nat.ltb 60 len then 5 else 0) in
      let (pcr, att) := wubu_attest_runtime_pcr att in
      let live := match pcr with Some p => existsb (fun b => negb (b =? 0)) p | None => false end in
      let score := score + (if live then 10 else 0) in
      let score := score + (if (snd suite >? 0) && (fst suite =? snd suite) then 10 else 0) in
      let score := if score >? 100 then 100 else score in
      Some (score, score >=? WUBU_VERIFIER_THRESHOLD, att)
  end.

(** The verifier as the supervisor calls it. *)
Definition installed_verifier (suite : Z * Z) : verifier_fn := fun att d _ =>
  '(_, passed, att) ← wubu_verifier_score suite att d; Some (passed, att).

(** ** The supervisor *)

Section supervisor.
  Context {M : Type}.
  Implicit Types k : wubu_agi_kernel M.

Definition put_ring k (r : list wubu_agi_span) : wubu_agi_kernel M :=
  Agi r (ring_head k) (ring_count k) (span_id k) (verifier k) (memory_fn k) (frozen k) (promoted_total k)
    (last_promote_tick k) (attest_valid k) (kernel_size k) (kernel_digest k) (uptime_ms k) (n_regions k).

(** The payload is cut to 191 bytes; the rest of the array is zero. *)
Definition span_data (payload : option (list Z)) : list Z :=
  let t := take (WUBU_AGI_SPAN_DATA - 1) (cstr (default [] payload)) in
  t ++ replicate (WUBU_AGI_SPAN_DATA - length t) 0.

Definition agi_ring_push k (knd par : Z) (payload : option (list Z)) : option (wubu_agi_kernel M) :=
  _ ← ring k !! Z.to_nat (ring_head k);
  let s := Span (u64 (span_id k + 1)) par (uptime_ms k) knd false (span_data payload) in
  Some (Agi (<[Z.to_nat (ring_head k) := s]> (ring k)) ((ring_head k + 1) mod Z.of_nat WUBU_AGI_TRACE_CAP)
    (if ring_count k <? Z.of_nat WUBU_AGI_TRACE_CAP then ring_count k + 1 else ring_count k)
    (u64 (span_id k + 1)) (verifier k) (memory_fn k) (frozen k) (promoted_total k)
    (last_promote_tick k) (attest_valid k) (kernel_size k) (kernel_digest k) (uptime_ms k) (n_regions k)).

Definition wubu_agi_kernel_agent_emit k (par : Z) (payload : option (list Z)) : option (wubu_agi_kernel M) :=
  agi_ring_push k WUBU_AGI_SPAN_AGENT par payload.

Definition wubu_agi_kernel_freeze k (f : bool) : wubu_agi_kernel M :=
  Agi (ring k) (ring_head k) (ring_count k) (span_id k) (verifier k) (memory_fn k) f (promoted_total k)
    (last_promote_tick k) (attest_valid k) (kernel_size k) (kernel_digest k) (uptime_ms k) (n_regions k).
Definition wubu_agi_kernel_is_frozen k : bool := frozen k.

Definition wubu_agi_kernel_set_verifier k (v : option verifier_fn) : wubu_agi_kernel M :=
  Agi (ring k) (ring_head k) (ring_count k) (span_id k) v (memory_fn k) (frozen k) (promoted_total k)
    (last_promote_tick k) (attest_valid k) (kernel_size k) (kernel_digest k) (uptime_ms k) (n_regions k).
Definition wubu_verifier_install k (suite : Z * Z) : wubu_agi_kernel M :=
  wubu_agi_kernel_set_verifier k (Some (installed_verifier suite)).

Definition wubu_agi_kernel_set_memory k (f : option (Z -> list Z -> M -> M)) : wubu_agi_kernel M :=
  Agi (ring k) (ring_head k) (ring_count k) (span_id k) (verifier k) f (frozen k) (promoted_total k)
    (last_promote_tick k) (attest_valid k) (kernel_size k) (kernel_digest k) (uptime_ms k) (n_regions k).
Definition wubu_agi_kernel_has_memory k : bool := if memory_fn k then true else false.

(** The slot of the [i]-th span, the oldest first. *)
Definition slot_index k (i : Z) : Z :=
  let x := ring_head k - ring_count k + i in if x <? 0 then x + Z.of_nat WUBU_AGI_TRACE_CAP else x.

(** What a promotion adds to the runtime register: the span's number and the uptime. *)
Definition promotion_event (span uptime : Z) : list Z :=
  [u8 (Z.shiftr (u32 span) 24); u8 (Z.shiftr (u32 span) 16); u8 (Z.shiftr (u32 span) 8); u8 (u32 span);
   u8 (Z.shiftr uptime 24); u8 (Z.shiftr uptime 16); u8 (Z.shiftr uptime 8); u8 uptime].

Definition promote k (s : wubu_agi_span) (tick : Z) (att : attest_state) (mem : M)
    : wubu_agi_kernel M * attest_state * M :=
  let e := promotion_event (id s) (uptime_ms k) in
  let att := snd (wubu_attest_extend_runtime att (Some e) (length e)) in
  let mem := match memory_fn k with Some f => f (id s) (data s) mem | None => mem end in
  (Agi (ring k) (ring_head k) (ring_count k) (span_id k) (verifier k) (memory_fn k) (frozen k)
     (s32 (promoted_total k + 1)) tick (attest_valid k) (kernel_size k) (kernel_digest k) (uptime_ms k) (n_regions k),
   att, mem).

(** [n] more rounds from the [i]-th span on. *)
Fixpoint cycle_loop (n : nat) (v : verifier_fn) k (i : Z) (tick : Z) (att : attest_state) (mem : M) (promoted : Z)
    : option (Z * wubu_agi_kernel M * attest_state * M) :=
  match n with
  | O => Some (promoted, k, att, mem)
  | S n =>
      s ← ring k !! Z.to_nat (slot_index k i);
      if consumed s then cycle_loop n v k (i + 1) tick att mem promoted else
      '(passed, att) ← v att (data s) (ts_ms s);
      let k := put_ring k (<[Z.to_nat (slot_index k i) :=
                             Span (id s) (parent s) (ts_ms s) (kind s) true (data s)]> (ring k)) in
      if passed : bool then
        let '(k, att, mem) := promote k s tick att mem in
        cycle_loop n v k (i + 1) tick att mem (promoted + 1)
      else cycle_loop n v k (i + 1) tick att mem promoted
  end.

(** [tick] is [task_tick_count()]. *)
Definition wubu_agi_kernel_cycle k (tick : Z) (att : attest_state) (mem : M)
    : option (Z * wubu_agi_kernel M * attest_state * M) :=
  match verifier k with
  | None => Some (0, k, att, mem)
  | Some v =>
      if frozen k || negb (attest_valid k) then Some (0, k, att, mem)
      else cycle_loop (Z.to_nat (ring_count k)) v k 0 tick att mem 0
  end.

(** The timer: the clock advances by 10 ms, then one cycle. *)
Definition wubu_agi_kernel_tick k (tick : Z) (att : attest_state) (mem : M)
    : option (Z * wubu_agi_kernel M * attest_state * M) :=
  wubu_agi_kernel_cycle
    (Agi (ring k) (ring_head k) (ring_count k) (span_id k) (verifier k) (memory_fn k) (frozen k) (promoted_total k)
       (last_promote_tick k) (attest_valid k) (kernel_size k) (kernel_digest k) (u64 (uptime_ms k + 10)) (n_regions k))
    tick att mem.

Definition wubu_agi_kernel_trace_count k : Z := ring_count k.
Definition wubu_agi_kernel_promoted_total k : Z := promoted_total k.
Definition wubu_agi_kernel_region_count k : Z := n_regions k.
Definition wubu_agi_kernel_uptime_ms k : Z := uptime_ms k.
Definition wubu_agi_kernel_last_promote_tick k : Z := last_promote_tick k.
Definition wubu_agi_kernel_attest_valid k : bool := attest_valid k.

Definition wubu_agi_kernel_checkpoint k : wubu_agi_ckp :=
  Ckp WUBU_AGI_CKP_MAGIC (u32 (promoted_total k)) (u32 (n_regions k)) (span_id k) (last_promote_tick k).

Definition wubu_agi_kernel_restore k (c : wubu_agi_ckp) : Z * wubu_agi_kernel M :=
  if negb (ck_magic c =? WUBU_AGI_CKP_MAGIC) then (-1, k) else
  (0, Agi (ring k) (ring_head k) (ring_count k) (if ck_next_span_id c >? span_id k then ck_next_span_id c else span_id k)
        (verifier k) (memory_fn k) (frozen k) (s32 (ck_promoted_total c)) (last_promote_tick k) (attest_valid k)
        (kernel_size k) (kernel_digest k) (uptime_ms k) (n_regions k)).

(** The text of the [i]-th span, cut to a buffer of [outsz] bytes; the outer [None] is
    a read outside the ring, the inner one the refusal. *)
Definition wubu_agi_kernel_span_data k (i : Z) (outsz : nat) : option (option (list Z)) :=
  if Nat.eqb outsz 0 || (i <? 0) || (i >=? ring_count k) then Some None else
  s ← ring k !! Z.to_nat (slot_index k i);
  Some (Some (take (outsz - 1) (cstr (data s)))).

(** ** Start *)

(** [%u] of a 32-bit number, at most ten digits. *)
Fixpoint dec_digits (n : nat) (x : Z) : list Z :=
  match n with
  | O => []
  | S n => (if x <? 10 then [] else dec_digits n (x / 10)) ++ [48 + x mod 10]
  end.
Definition fmt_u (x : Z) : list Z := dec_digits 10 (u32 x).

Definition hexd (d : Z) : Z := if d <? 10 then 48 + d else 55 + d.
Definition hex_text (l : list Z) : list Z := l ≫= fun b => [hexd (Z.shiftr b 4); hexd (Z.land b 15)].

(** The text of the span that records the attestation. *)
Definition attest_banner (att : attest_state) (digest : list Z) : list Z :=
  take (WUBU_AGI_SPAN_DATA - 1)
    (if wubu_attest_valid att then
       str "attest: valid sb=" ++ fmt_u (b2z (wubu_attest_sb_enabled att)) ++
       str " setup=" ++ fmt_u (b2z (wubu_attest_setup_mode att)) ++
       str " boot=" ++ fmt_u (wubu_attest_boot_counter att) ++
       str " pcr4=" ++ match wubu_attest_pcr4_digest att with Some p => hex_text p | None => str "?" end ++
       str " kern=" ++ hex_text digest ++
       str " sz=" ++ fmt_u (wubu_attest_kernel_size att)
     else str "attest: ABSENT -- self-improve promotion disabled").

(** The supervisor at start: an empty ring but for the span that records the
    attestation; [regions] is the number the decomposition of the screen gives. *)
Definition wubu_agi_kernel_init (att : attest_state) (regions : Z) : option (wubu_agi_kernel M) :=
  let digest := default (replicate WUBU_AGI_PCR_SZ 0) (wubu_attest_kernel_digest att) in
  agi_ring_push
    (Agi (replicate WUBU_AGI_TRACE_CAP (Span 0 0 0 0 false (replicate WUBU_AGI_SPAN_DATA 0))) 0 0 0 None None false 0 0
       (wubu_attest_valid att) (wubu_attest_kernel_size att) digest 0 regions)
    WUBU_AGI_SPAN_SUPER 0 (Some (attest_banner att digest)).

End supervisor.
