(* ===== verification/AgiFacts.v ===== *)
(** * Properties of the supervisor

    The trace ring is a bounded queue of spans; a cycle judges the queue from its
    oldest span on; the verifier stays inside a span's data and finds words. *)

From S2P Require Import Prelude Sha256 Sha256Facts Attest Agi.
Open Scope Z_scope.

(** ** Text in a span *)

(** A span's data: 192 bytes with a terminator. *)
Definition data_ok (d : list Z) : Prop := length d = WUBU_AGI_SPAN_DATA /\ rd d 191 = Some 0.

Lemma span_data_ok payload : data_ok (span_data payload).
Proof.
  unfold span_data, data_ok, WUBU_AGI_SPAN_DATA. set (t := take _ _).
  assert (length t <= 191)%nat as Ht by (unfold t; rewrite length_take; lia).
  split; [rewrite length_app, length_replicate; lia|].
  unfold rd. rewrite lookup_app_r by lia. apply lookup_replicate_2. lia.
Qed.

Lemma cstr_split d i : (forall j, (j < i)%nat -> d !! j <> Some 0) -> d !! i = Some 0 -> cstr d = take i d.
Proof.
  revert d. induction i as [|i IH]; intros d Hn Hz; destruct d as [|c d]; try done.
  - cbn in Hz. injection Hz as ->. done.
  - cbn. destruct (Z.eqb_spec c 0) as [->|_]; [by destruct (Hn 0%nat); [lia|]|]. f_equal.
    apply IH; [|done]. intros j Hj. apply (Hn (S j)). lia.
Qed.

Lemma cstr_prefix d : exists r, d = cstr d ++ r /\ (r = [] \/ head r = Some 0).
Proof.
  induction d as [|c d (r & Hd & Hr)]; [by exists []; auto|]. cbn. destruct (Z.eqb_spec c 0) as [->|_].
  - exists (0 :: d). auto.
  - exists r. split; [|done]. cbn. by f_equal.
Qed.

Lemma cstr_nonzero d j c : cstr d !! j = Some c -> c <> 0.
Proof.
  revert j. induction d as [|x d IH]; intros j; [done|]. cbn. destruct (Z.eqb_spec x 0); [done|].
  destruct j as [|j]; cbn; [naive_solver|apply IH].
Qed.

(** The text of good data: where it lies, and the terminator behind it. *)
Lemma data_text d :
  data_ok d -> (length (cstr d) <= 191)%nat /\ rd d (length (cstr d)) = Some 0 /\
    forall j, (j < length (cstr d))%nat -> d !! j = cstr d !! j.
Proof.
  intros [Hl Hz]. destruct (cstr_prefix d) as (r & Hd & Hr). unfold rd in *.
  assert (length (cstr d) <= 191)%nat as Hle.
  { destruct (decide (length (cstr d) <= 191)%nat) as [|Hgt]; [done|]. exfalso.
    rewrite Hd in Hz. rewrite lookup_app_l in Hz by lia. by apply cstr_nonzero in Hz. }
  split; [done|]. split.
  - assert (d !! length (cstr d) = (cstr d ++ r) !! length (cstr d)) as -> by (by rewrite <- Hd).
    rewrite lookup_app_r, Nat.sub_diag by lia. destruct Hr as [->|Hr].
    + rewrite app_nil_r in Hd. rewrite <- Hd, Hl in Hle. unfold WUBU_AGI_SPAN_DATA in Hle. lia.
    + by destruct r.
  - intros j Hj. assert (d !! j = (cstr d ++ r) !! j) as -> by (by rewrite <- Hd). by rewrite lookup_app_l.
Qed.

(** ** Scanning *)

Definition printable (t : list Z) : Prop := Forall (fun c => 32 <= c <= 126) t.

Lemma scan_text_spec d n i :
  data_ok d -> (i + n = 191)%nat -> (i <= length (cstr d))%nat ->
  (exists j, (i <= j)%nat /\ scan_text n d i = Some None /\ ~ printable (cstr d)) \/
  scan_text n d i = Some (Some (length (cstr d) - i)%nat) /\ printable (drop i (cstr d)).
Proof.
  intros Hd. destruct (data_text d Hd) as (Hle & Hz & Hc). revert i. induction n as [|n IH]; intros i Hi Hlen; cbn [scan_text].
  - right. replace (length (cstr d)) with 191%nat by lia. rewrite (drop_ge (cstr d)) by lia.
    split; [do 2 f_equal; lia|constructor].
  - destruct (decide (i = length (cstr d))) as [->|Hne].
    + rewrite Hz. cbn. right. rewrite drop_ge by lia. split; [do 2 f_equal; lia|constructor].
    + assert (i < length (cstr d))%nat as Hlt by lia. apply lookup_lt_is_Some_2 in Hlt as [c Hci].
      unfold rd. rewrite (Hc i) by lia. rewrite Hci. cbn [mbind option_bind].
      rewrite (proj2 (Z.eqb_neq c 0)) by (by eapply cstr_nonzero).
      destruct ((c <? 32) || (c >? 126)) eqn:Hp.
      * left. exists i. split_and!; [done|done|]. intros Hpr. eapply Forall_lookup_1 in Hpr; [|done].
        destruct (Z.ltb_spec c 32), (Z.gtb_spec c 126); cbn in Hp; lia || done.
      * destruct (IH (S i)) as [(j & Hj & -> & Hnp)|[-> Hpr]]; [lia|lia| |].
        -- left. exists j. cbn. split_and!; [lia|done|done].
        -- right. cbn. split; [do 2 f_equal; lia|]. rewrite (drop_S _ c) by done. constructor; [|done].
           destruct (Z.ltb_spec c 32), (Z.gtb_spec c 126); cbn in Hp; lia || done.
Qed.

Lemma count_char_total d ch n i :
  data_ok d -> (i + n = 191)%nat -> exists r, count_char n d ch i = Some r /\ 0 <= r.
Proof.
  intros [Hl _]. revert i. induction n as [|n IH]; intros i Hi; [by exists 0|]. cbn [count_char].
  destruct (lookup_lt_is_Some_2 d i) as [c Hc]; [rewrite Hl; unfold WUBU_AGI_SPAN_DATA; lia|].
  unfold rd. rewrite Hc. cbn [mbind option_bind]. destruct (c =? 0); [by exists 0|].
  destruct (IH (S i)) as (r & -> & Hr); [lia|]. cbn. eexists. split; [reflexivity|]. unfold b2z. destruct (c =? ch); lia.
Qed.

(** ** Words *)

(** [tok] stands in [t] as a word: no letter or digit in front of it, and none behind
    it unless it ends in a dot. *)
Definition boundary (o : option Z) : Prop := match o with Some c => word_char c = false | None => True end.
Definition occurs (tok t : list Z) : Prop :=
  exists a b, t = a ++ tok ++ b /\ boundary (last a) /\ (ends_dot tok = true \/ boundary (head b)).

Definition token_ok (tok : list Z) : Prop := tok <> [] /\ Forall (fun c => c <> 0) tok.

Lemma matches_at_spec d tok p :
  (p + length tok <= length d)%nat -> matches_at d p tok = Some (bool_decide (take (length tok) (drop p d) = tok)).
Proof.
  revert p. induction tok as [|t tok IH]; intros p Hp; cbn [matches_at]; [done|]. cbn [length] in *.
  destruct (lookup_lt_is_Some_2 d p) as [c Hc]; [lia|]. unfold rd. rewrite Hc. cbn [mbind option_bind].
  rewrite (drop_S _ _ _ Hc). cbn [firstn take]. destruct (Z.eqb_spec c t) as [->|Hne].
  - rewrite IH by lia. f_equal. apply bool_decide_ext. split; [by intros ->|by intros [=]].
  - rewrite bool_decide_eq_false_2; [done|]. congruence.
Qed.

(** [tok] at position [p] of a text. *)
Definition stands_at (tok t : list Z) (p : nat) : Prop :=
  take (length tok) (drop p t) = tok /\ (p + length tok <= length t)%nat /\
  boundary (if Nat.eqb p 0 then None else t !! (p - 1)%nat) /\
  (ends_dot tok = true \/ boundary (t !! (p + length tok)%nat)).

Lemma stands_occurs tok t p : stands_at tok t p -> occurs tok t.
Proof.
  intros (Ht & Hl & Hb & Ha). exists (take p t), (drop (p + length tok) t). split_and!.
  - rewrite <- (take_drop p t) at 1. f_equal. rewrite <- (take_drop (length tok) (drop p t)) at 1. rewrite Ht, drop_drop.
    done.
  - destruct p as [|p]; [done|]. cbn [Nat.eqb] in Hb. replace (S p - 1)%nat with p in Hb by lia.
    destruct (lookup_lt_is_Some_2 t p) as [c Hc]; [lia|]. rewrite (take_S_r _ _ _ Hc), last_snoc. by rewrite Hc in Hb.
  - destruct Ha as [Ha|Ha]; [by left|right]. by rewrite head_lookup, lookup_drop, Nat.add_0_r.
Qed.

Lemma occurs_stands tok t : occurs tok t -> exists p, stands_at tok t p.
Proof.
  intros (a & b & -> & Hb & Ha). exists (length a). unfold stands_at. rewrite !length_app.
  split_and!; [|lia| |].
  - by rewrite drop_app_length, take_app_length.
  - destruct a as [|x a _] using rev_ind; [done|]. rewrite length_app. cbn [length].
    rewrite (proj2 (Nat.eqb_neq _ 0)) by lia. rewrite last_snoc in Hb.
    rewrite lookup_app_l by (rewrite length_app; cbn; lia). rewrite lookup_app_r by lia.
    by replace (length a + 1 - 1 - length a)%nat with 0%nat by lia.
  - destruct Ha as [Ha|Ha]; [by left|right]. rewrite lookup_app_r by lia.
    replace (length a + length tok - length a)%nat with (length tok + 0)%nat by lia.
    rewrite lookup_app_r, Nat.add_comm, Nat.add_sub by lia. by destruct b.
Qed.

Lemma text_match d tok p :
  data_ok d -> token_ok tok -> (p <= length (cstr d))%nat ->
  take (length tok) (drop p d) = tok <-> take (length tok) (drop p (cstr d)) = tok /\ (p + length tok <= length (cstr d))%nat.
Proof.
  intros Hd [Hne Hnz] Hp. destruct (data_text d Hd) as (Hle & Hz & _). destruct (cstr_prefix d) as (r & Hdr & _).
  assert (p + length tok <= length (cstr d) -> take (length tok) (drop p d) = take (length tok) (drop p (cstr d)))%nat as Hsame.
  { intros H. rewrite Hdr at 1. rewrite drop_app_le by done. apply take_app_le. rewrite length_drop. lia. }
  split; [|by intros [? ?]; rewrite Hsame]. intros Ht.
  destruct (decide (p + length tok <= length (cstr d))%nat) as [H|H]; [by rewrite <- Hsame|]. exfalso.
  assert (tok !! (length (cstr d) - p)%nat = Some 0) as H0.
  { rewrite <- Ht. rewrite lookup_take_lt by lia. rewrite lookup_drop. replace (p + _)%nat with (length (cstr d)) by lia. done. }
  eapply Forall_lookup_1 in Hnz; [|exact H0]. done.
Qed.

Lemma word_zero : word_char 0 = false.
Proof. done. Qed.

Lemma token_at_spec d tok p :
  data_ok d -> token_ok tok -> (p < length (cstr d))%nat -> (p + length tok <= 191)%nat ->
  exists b, token_at d tok p = Some b /\ (b = true <-> stands_at tok (cstr d) p).
Proof.
  intros Hd Htok Hp Hlim. destruct (data_text d Hd) as (Hle & Hz & Hc). pose proof (proj1 Hd) as Hlen.
  unfold token_at, WUBU_VERIFIER_MAX_LEN, WUBU_AGI_SPAN_DATA in *.
  rewrite matches_at_spec by lia. cbn [mbind option_bind].
  pose proof (text_match d tok p Hd Htok ltac:(lia)) as Hm.
  case_bool_decide as Hmatch; cbn [negb].
  2:{ exists false. split; [done|]. split; [done|]. intros (Ht & Hl & _). tauto. }
  apply Hm in Hmatch as [Ht Hl].
  assert (exists b, (if Nat.eqb p 0 then Some 32 else rd d (p - 1)) = Some b /\
    (word_char b = false <-> boundary (if Nat.eqb p 0 then None else cstr d !! (p - 1)%nat))) as (bf & -> & Hbf).
  { destruct (Nat.eqb_spec p 0); [by exists 32|]. destruct (lookup_lt_is_Some_2 (cstr d) (p - 1)) as [c Hcc]; [lia|].
    exists c. unfold rd. rewrite Hc, Hcc by lia. done. }
  assert (exists b, (if Nat.ltb (p + length tok) 191 then rd d (p + length tok) else Some 32) = Some b /\
    (word_char b = false <-> boundary (cstr d !! (p + length tok)%nat))) as (af & -> & Haf).
  { destruct (decide (p + length tok < length (cstr d))%nat) as [Hlt|Hge].
    - rewrite (proj2 (Nat.ltb_lt _ _)) by lia. destruct (lookup_lt_is_Some_2 _ _ Hlt) as [c Hcc].
      exists c. unfold rd. rewrite Hc, Hcc by lia. done.
    - assert (p + length tok = length (cstr d))%nat as E by lia. rewrite E, lookup_ge_None_2 by lia.
      destruct (Nat.ltb_spec (length (cstr d)) 191); [exists 0|exists 32]; done. }
  cbn [mbind option_bind]. eexists. split; [reflexivity|]. rewrite andb_true_iff, orb_true_iff, !negb_true_iff, Hbf, Haf.
  unfold stands_at. tauto.
Qed.

Lemma stands_first d tok p c : data_ok d -> token_ok tok -> d !! p = Some c -> stands_at tok (cstr d) p -> Some c = head tok.
Proof.
  intros Hd [Hne _] Hp (Ht & Hl & _). destruct (data_text d Hd) as (_ & _ & Hc).
  destruct tok as [|t tok]; [done|]. cbn [length] in *. rewrite Hc in Hp by lia. rewrite (drop_S _ _ _ Hp) in Ht.
  cbn in Ht |- *. by injection Ht as ->.
Qed.

Lemma has_token_from_spec d tok n p :
  data_ok d -> token_ok tok -> (p + n = 191)%nat -> (p <= length (cstr d))%nat ->
  exists b, has_token_from n d tok p = Some b /\ (b = true <-> exists q, (p <= q)%nat /\ stands_at tok (cstr d) q).
Proof.
  intros Hd Htok. destruct (data_text d Hd) as (Hle & Hz & Hc). revert p.
  assert (forall q, stands_at tok (cstr d) q -> q < length (cstr d))%nat as Hin.
  { intros q (_ & Hl & _). destruct Htok as [Hne _]. destruct tok; [done|cbn in Hl; lia]. }
  induction n as [|n IH]; intros p Hp Hlen; cbn [has_token_from].
  { exists false. split; [done|]. split; [done|]. intros (q & Hq & Hs). apply Hin in Hs. lia. }
  destruct (decide (p = length (cstr d))) as [->|Hne].
  { rewrite Hz. cbn. exists false. split; [done|]. split; [done|]. intros (q & Hq & Hs). apply Hin in Hs. lia. }
  destruct (lookup_lt_is_Some_2 (cstr d) p) as [c Hcc]; [lia|]. unfold rd. rewrite (Hc p), Hcc by lia. cbn [mbind option_bind].
  rewrite (proj2 (Z.eqb_neq c 0)) by (by eapply cstr_nonzero).
  destruct (IH (S p)) as (b & Hb & Hbi); [lia|lia|].
  assert (exists f, (if bool_decide (Some c = head tok) && Nat.leb (p + length tok) WUBU_VERIFIER_MAX_LEN
    then token_at d tok p else Some false) = Some f /\ (f = true <-> stands_at tok (cstr d) p)) as (f & -> & Hf).
  { destruct (bool_decide (Some c = head tok) && Nat.leb (p + length tok) WUBU_VERIFIER_MAX_LEN) eqn:E.
    - apply andb_true_iff in E as [_ E%Nat.leb_le]. unfold WUBU_VERIFIER_MAX_LEN in E. by apply token_at_spec; [..|lia|].
    - exists false. split; [done|]. split; [done|]. intros Hs. exfalso. pose proof Hs as (_ & Hl & _).
      rewrite (bool_decide_eq_true_2 (Some c = head tok)) in E.
      + cbn in E. apply Nat.leb_gt in E. unfold WUBU_VERIFIER_MAX_LEN in E. lia.
      + apply (stands_first d tok p c); try done. by rewrite Hc by lia. }
  cbn [mbind option_bind]. destruct f.
  - exists true. split; [done|]. split; [|done]. intros _. exists p. split; [lia|]. by apply Hf.
  - rewrite Hb. exists b. split; [done|]. rewrite Hbi. split.
    + intros (q & Hq & Hs). exists q. split; [lia|done].
    + intros (q & Hq & Hs). exists q. split; [|done]. destruct (decide (q = p)) as [->|]; [|lia]. by apply Hf in Hs.
Qed.

Lemma has_token_spec d tok :
  data_ok d -> token_ok tok -> exists b, has_token d tok = Some b /\ (b = true <-> occurs tok (cstr d)).
Proof.
  intros Hd Htok. destruct (has_token_from_spec d tok 191 0 Hd Htok) as (b & Hb & Hi); [lia|lia|].
  exists b. split; [done|]. rewrite Hi. split.
  - intros (q & _ & Hs). by eapply stands_occurs.
  - intros [p Hs]%occurs_stands. exists p. split; [lia|done].
Qed.

Lemma tokens_ok : Forall token_ok k_emitters /\ Forall token_ok k_verbs.
Proof.
  split; (repeat first [apply Forall_nil_2 | apply Forall_cons_2; [split; [discriminate|cbn; by repeat constructor]|]]).
Qed.

Lemma any_token_spec d toks :
  data_ok d -> Forall token_ok toks ->
  exists b, any_token d toks = Some b /\ (b = true <-> exists t, t ∈ toks /\ occurs t (cstr d)).
Proof.
  intros Hd. induction 1 as [|t toks Ht _ (b & Hb & Hi)]; cbn [any_token].
  { exists false. split; [done|]. split; [done|]. intros (t & Hin & _). by apply not_elem_of_nil in Hin. }
  destruct (has_token_spec d t Hd Ht) as (f & -> & Hf). cbn [mbind option_bind]. destruct f.
  - exists true. split; [done|]. split; [|done]. intros _. exists t. split; [set_solver|]. by apply Hf.
  - rewrite Hb. exists b. split; [done|]. rewrite Hi. split; [set_solver|].
    intros (u & Hin & Ho). apply elem_of_cons in Hin as [->|Hin]; [|eauto]. by apply Hf in Ho.
Qed.

Lemma count_tokens_total d toks :
  data_ok d -> Forall token_ok toks -> exists r, count_tokens d toks = Some r /\ 0 <= r.
Proof.
  intros Hd. induction 1 as [|t toks Ht _ (r & Hr & Hp)]; cbn [count_tokens]; [by exists 0|].
  destruct (has_token_spec d t Hd Ht) as (f & -> & _). cbn [mbind option_bind]. rewrite Hr. cbn.
  eexists. split; [reflexivity|]. unfold b2z. destruct f; lia.
Qed.

(** ** The verifier *)

Lemma runtime_pcr_keeps att : pcr_now (wubu_attest_runtime_pcr att).2 = pcr_now att /\
  g_valid (wubu_attest_runtime_pcr att).2 = g_valid att.
Proof.
  unfold wubu_attest_runtime_pcr. destruct (g_valid att) eqn:Hv; cbn [negb snd]; [|by rewrite Hv].
  unfold start_pcr. destruct (g_runtime_pcr_live att) eqn:Hl; [by rewrite Hv|]. split; [|done].
  unfold pcr_now at 1. cbn [set_pcr g_runtime_pcr g_runtime_pcr_live]. rewrite sha_fips. unfold pcr_now. by rewrite Hl.
Qed.

(** What a span must look like to be promoted. *)
Definition credible (t : list Z) : Prop :=
  printable t /\ (WUBU_VERIFIER_MIN_LEN <= length t)%nat /\ exists e, e ∈ k_emitters /\ occurs e t.

Lemma score_spec suite att d :
  data_ok d ->
  exists score passed att', wubu_verifier_score suite att d = Some (score, passed, att') /\
    0 <= score <= 100 /\ (passed = true <-> WUBU_VERIFIER_THRESHOLD <= score) /\
    (score > 0 <-> credible (cstr d)) /\ pcr_now att' = pcr_now att /\ g_valid att' = g_valid att.
Proof.
  intros Hd. destruct (data_text d Hd) as (Hle & Hz & _). unfold wubu_verifier_score, WUBU_VERIFIER_THRESHOLD.
  assert (forall Q : Prop, ~ Q -> exists score passed att', Some (0, false, att) = Some (score, passed, att') /\
    0 <= score <= 100 /\ (passed = true <-> 60 <= score) /\ (score > 0 <-> Q) /\
    pcr_now att' = pcr_now att /\ g_valid att' = g_valid att) as Hno.
  { intros Q HQ. exists 0, false, att. split_and!; done || lia || (split; done || lia). }
  destruct (scan_text_spec d WUBU_VERIFIER_MAX_LEN 0 Hd) as [(j & _ & -> & Hnp)|[-> Hp]]; [done|lia| |].
  { cbn [mbind option_bind]. apply Hno. by intros [? _]. }
  rewrite drop_0 in Hp. rewrite Nat.sub_0_r. cbn [mbind option_bind].
  assert ((if Nat.eqb (length (cstr d)) WUBU_VERIFIER_MAX_LEN then rd d WUBU_VERIFIER_MAX_LEN else Some 0) = Some 0) as ->.
  { destruct (Nat.eqb_spec (length (cstr d)) WUBU_VERIFIER_MAX_LEN) as [E|]; [by rewrite <- E|done]. }
  cbn [mbind option_bind Z.eqb negb]. destruct (Nat.ltb_spec (length (cstr d)) WUBU_VERIFIER_MIN_LEN).
  { apply Hno. intros (_ & ? & _). lia. }
  destruct tokens_ok as [He Hv]. destruct (any_token_spec d k_emitters Hd He) as (b & -> & Hb). cbn [mbind option_bind].
  destruct b; cbn [negb].
  2:{ apply Hno. intros (_ & _ & Hx). by apply Hb in Hx. }
  destruct (count_tokens_total d k_verbs Hd Hv) as (nv & -> & Hnv).
  destruct (count_char_total d 61 WUBU_VERIFIER_MAX_LEN 0 Hd eq_refl) as (ne & -> & Hne).
  destruct (count_char_total d 37 WUBU_VERIFIER_MAX_LEN 0 Hd eq_refl) as (np & -> & Hnp). cbn [mbind option_bind].
  pose proof (runtime_pcr_keeps att) as [Hk1 Hk2]. destruct (wubu_attest_runtime_pcr att) as [pcr att'] eqn:Hpcr. cbn [snd] in Hk1, Hk2.
  match goal with |- context [Some (if ?t >? 100 then 100 else ?t, _, _)] => set (total := t) end.
  assert (30 <= total) as Ht.
  { subst total. clear.
    repeat match goal with |- context [if ?b then ?x else ?y] =>
      lazymatch type of x with Z => destruct b end end; lia. }
  set (x := if total >? 100 then 100 else total).
  assert (30 <= x <= 100) as Hr by (subst x; destruct (total >? 100) eqn:E; lia). clearbody x.
  eexists _, _, _. split; [reflexivity|].
  split_and!; [lia|lia| | |done|done].
  - rewrite Z.geb_le. lia.
  - split; [|lia]. intros _. split_and!; [done|done|by apply Hb].
Qed.

(** ** The ring as a queue *)

(** Case analysis on the comparisons of the goal. *)
Ltac decide_ifs :=
  repeat match goal with
  | |- context [if ?a <? ?b then _ else _] => destruct (Z.ltb_spec a b)
  | |- context [if ?a =? ?b then _ else _] => destruct (Z.eqb_spec a b)
  end.

Definition blank_span : wubu_agi_span := Span 0 0 0 0 false [].

Section queue.
  Context {M : Type}.
  Implicit Types k : wubu_agi_kernel M.

Record ring_ok k : Prop := {
  ro_len : length (ring k) = WUBU_AGI_TRACE_CAP;
  ro_head : 0 <= ring_head k < 256;
  ro_count : 0 <= ring_count k <= 256;
  ro_data : Forall (fun s => data_ok (data s)) (ring k) }.

(** The spans in the ring, the oldest first. *)
Definition spans k : list wubu_agi_span :=
  map (fun i => default blank_span (ring k !! Z.to_nat (slot_index k (Z.of_nat i)))) (seq 0 (Z.to_nat (ring_count k))).

Lemma spans_length k : length (spans k) = Z.to_nat (ring_count k).
Proof. unfold spans. by rewrite length_map, length_seq. Qed.

Lemma slot_range k i : ring_ok k -> 0 <= i < ring_count k -> 0 <= slot_index k i < 256.
Proof.
  intros Hr Hi. pose proof (ro_head _ Hr). pose proof (ro_count _ Hr). unfold slot_index, WUBU_AGI_TRACE_CAP.
  destruct (Z.ltb_spec (ring_head k - ring_count k + i) 0); lia.
Qed.

Lemma spans_lookup k (i : nat) :
  ring_ok k -> Z.of_nat i < ring_count k -> spans k !! i = ring k !! Z.to_nat (slot_index k (Z.of_nat i)).
Proof.
  intros Hr Hi. unfold spans. rewrite list_lookup_fmap, lookup_seq_lt by lia. cbn.
  pose proof (slot_range k (Z.of_nat i) Hr ltac:(lia)). destruct (lookup_lt_is_Some_2 (ring k) (Z.to_nat (slot_index k (Z.of_nat i)))) as [s ->]; [|done].
  rewrite (ro_len _ Hr). unfold WUBU_AGI_TRACE_CAP. lia.
Qed.

Lemma ring_slot_inj k i j : ring_ok k -> 0 <= i < ring_count k -> 0 <= j < ring_count k -> slot_index k i = slot_index k j -> i = j.
Proof.
  intros Hr Hi Hj. pose proof (ro_head _ Hr). pose proof (ro_count _ Hr). unfold slot_index, WUBU_AGI_TRACE_CAP.
  destruct (Z.ltb_spec (ring_head k - ring_count k + i) 0), (Z.ltb_spec (ring_head k - ring_count k + j) 0); lia.
Qed.

(** The span a push adds. *)
Definition pushed k (knd par : Z) (payload : option (list Z)) : wubu_agi_span :=
  Span (u64 (span_id k + 1)) par (uptime_ms k) knd false (span_data payload).

Definition keep_last {A} (l : list A) : list A := drop (length l - WUBU_AGI_TRACE_CAP) l.

Lemma push_spec k knd par payload :
  ring_ok k -> exists k', agi_ring_push k knd par payload = Some k' /\ ring_ok k' /\
    spans k' = keep_last (spans k ++ [pushed k knd par payload]) /\ span_id k' = u64 (span_id k + 1).
Proof.
  intros Hr. pose proof (ro_len _ Hr) as Hlen. pose proof (ro_head _ Hr) as Hh. pose proof (ro_count _ Hr) as Hc.
  unfold agi_ring_push. unfold WUBU_AGI_TRACE_CAP in Hlen.
  destruct (lookup_lt_is_Some_2 (ring k) (Z.to_nat (ring_head k))) as [s0 Hs0]; [lia|]. rewrite Hs0. cbn [mbind option_bind].
  fold (pushed k knd par payload). set (s := pushed k knd par payload). set (k' := Agi _ _ _ _ _ _ _ _ _ _ _ _ _ _).
  exists k'. split; [done|].
  assert (ring_head k' = if ring_head k =? 255 then 0 else ring_head k + 1) as Hh'.
  { cbn. change (Z.of_nat WUBU_AGI_TRACE_CAP) with 256. destruct (Z.eqb_spec (ring_head k) 255) as [->|]; [done|].
    rewrite Z.mod_small; lia. }
  assert (ring_count k' = Z.min 256 (ring_count k + 1)) as Hc'.
  { cbn. change (Z.of_nat WUBU_AGI_TRACE_CAP) with 256. destruct (Z.ltb_spec (ring_count k) 256); lia. }
  assert (ring_ok k') as Hr'.
  { split.
    - cbn. by rewrite length_insert.
    - rewrite Hh'. destruct (Z.eqb_spec (ring_head k) 255); lia.
    - lia.
    - cbn. apply Forall_insert; [apply Hr|]. apply span_data_ok. }
  split_and!; [done| |done].
  apply list_eq_same_length with (n := Z.to_nat (ring_count k')).
  { unfold keep_last. rewrite length_drop, length_app, spans_length. cbn [length]. unfold WUBU_AGI_TRACE_CAP. lia. }
  { by rewrite spans_length. }
  intros i x y Hi. rewrite spans_lookup by (done || lia). cbn [ring k'].
  unfold keep_last. rewrite lookup_drop, length_app, spans_length. cbn [length].
  unfold slot_index. rewrite Hh', Hc'. unfold WUBU_AGI_TRACE_CAP.
  destruct (decide (Z.of_nat i = ring_count k' - 1)) as [Hlast|Hlast].
  - rewrite lookup_app_r by (rewrite spans_length; lia). rewrite spans_length.
    replace (_ - 256 + i - _)%nat with 0%nat by lia.
    replace (Z.to_nat _) with (Z.to_nat (ring_head k)).
    2:{ decide_ifs; lia. }
    rewrite list_lookup_insert_eq by lia. cbn. congruence.
  - rewrite lookup_app_l by (rewrite spans_length; lia).
    rewrite spans_lookup by (done || lia). unfold slot_index, WUBU_AGI_TRACE_CAP.
    rewrite list_lookup_insert_ne.
    2:{ decide_ifs; lia. }
    replace (Z.to_nat (if _ <? 0 then _ else _)) with
      (Z.to_nat (if ring_head k - ring_count k + Z.of_nat (Z.to_nat (ring_count k) + 1 - 256 + i) <? 0
                 then ring_head k - ring_count k + Z.of_nat (Z.to_nat (ring_count k) + 1 - 256 + i) + Z.of_nat 256
                 else ring_head k - ring_count k + Z.of_nat (Z.to_nat (ring_count k) + 1 - 256 + i))).
    2:{ decide_ifs; lia. }
    congruence.
Qed.
End queue.
