(* ===== verification/AgiTheorems.v ===== *)
(** * Theorems of the self-improvement supervisor

    [Judge] is what the supervisor relies on in a verifier: it decides every span,
    leaves the runtime register alone, and passes only what satisfies a predicate.
    The installed verifier is an instance; a promotion cycle is proved against the
    interface to be one pass over the queue of spans that are still fresh. *)

From S2P Require Import Prelude Sha256 Sha256Facts Attest Agi AgiFacts.
Open Scope Z_scope.

(** What a verifier promises the supervisor. *)
Class Judge (v : verifier_fn) (P : list Z -> Prop) : Prop := {
  judge_verdict att d ts : data_ok d ->
    exists passed att', v att d ts = Some (passed, att') /\ (passed = true -> P d) /\
      pcr_now att' = pcr_now att /\ g_valid att' = g_valid att }.

#[export] Instance installed_judge suite : Judge (installed_verifier suite) (fun d => credible (cstr d)).
Proof.
  split. intros att d ts Hd. destruct (score_spec suite att d Hd) as (sc & p & att' & E & _ & Hp & Hc & Hk & Hv).
  exists p, att'. unfold installed_verifier. rewrite E. split_and!; [done| |done|done].
  intros Ht. apply Hc. apply Hp in Ht. unfold WUBU_VERIFIER_THRESHOLD in Ht. lia.
Qed.

(** ** One pass over a list of spans *)

(** The spans a verifier passes, judged in order, the register extended after each. *)
Fixpoint judge (v : verifier_fn) (uptime : Z) (l : list wubu_agi_span) (att : attest_state)
    : option (list wubu_agi_span * attest_state) :=
  match l with
  | [] => Some ([], att)
  | s :: l =>
      '(passed, att) ← v att (data s) (ts_ms s);
      if passed : bool then
        '(ps, att) ← judge v uptime l (extend_event att (promotion_event (id s) uptime));
        Some (s :: ps, att)
      else judge v uptime l att
  end.

Definition fresh (s : wubu_agi_span) : bool := negb (consumed s).
Definition mark (s : wubu_agi_span) : wubu_agi_span := Span (id s) (parent s) (ts_ms s) (kind s) true (data s).

Lemma judge_spec v P uptime l : forall att,
  Judge v P -> Forall (fun s => data_ok (data s)) l -> g_valid att = true -> pcr_ok att ->
  exists ps att', judge v uptime l att = Some (ps, att') /\ ps `sublist_of` l /\ Forall (fun s => P (data s)) ps /\
    g_valid att' = true /\ pcr_ok att' /\
    pcr_now att' = foldl chain_link (pcr_now att) (map (fun s => promotion_event (id s) uptime) ps).
Proof.
  intros att HJ Hd. revert att. induction Hd as [|s l Hs _ IH]; intros att Hv Hok; cbn [judge].
  { exists [], att. split_and!; done || constructor. }
  destruct (judge_verdict att (data s) (ts_ms s) Hs) as (p & att1 & -> & Hp & Hn & Hv1). cbn [mbind option_bind].
  assert (pcr_ok att1) as Hok1 by (unfold pcr_ok; by rewrite Hn). rewrite Hv in Hv1. destruct p.
  - destruct (extend_spec att1 (promotion_event (id s) uptime) Hv1 Hok1) as (att2 & E & Hv2 & Hn2 & Hok2).
    unfold extend_event. rewrite E. cbn [snd]. destruct (IH att2 Hv2 Hok2) as (ps & att' & -> & Hsub & HP & ? & ? & Hch).
    exists (s :: ps), att'. cbn [mbind option_bind map foldl].
    split_and!; [done|by constructor|constructor; auto|done|done|]. by rewrite Hch, Hn2, Hn.
  - destruct (IH att1 Hv1 Hok1) as (ps & att' & -> & Hsub & HP & ? & ? & Hch). exists ps, att'.
    split_and!; [done|by constructor|done|done|done|]. by rewrite Hch, Hn.
Qed.

Lemma filtered_Forall {A} (Q : A -> Prop) (f : A -> bool) l : Forall Q l -> Forall Q (List.filter f l).
Proof. induction 1; cbn; [done|]. case_match; by try constructor. Qed.

Lemma cstr_cut_zeros n l z : cstr (take n (cstr l) ++ replicate z 0) = take n (cstr l).
Proof.
  revert n. induction l as [|c l IH]; intros n; cbn [cstr]; [rewrite take_nil; by destruct z|].
  destruct (Z.eqb_spec c 0) as [->|Hc]; [rewrite take_nil; by destruct z|]. destruct n as [|n]; cbn [take]; [by destruct z|].
  cbn [app cstr]. rewrite (proj2 (Z.eqb_neq c 0)) by done. by rewrite IH.
Qed.

Section supervisor.
  Context {M : Type}.
  Implicit Types k : wubu_agi_kernel M.

(** ** The ring under a change of one span *)

Lemma spans_put k (i : nat) s :
  ring_ok k -> Z.of_nat i < ring_count k ->
  spans (put_ring k (<[Z.to_nat (slot_index k (Z.of_nat i)) := s]> (ring k))) = <[i := s]> (spans k).
Proof.
  intros Hr Hi. set (k' := put_ring _ _).
  assert (forall j, slot_index k' j = slot_index k j) as Hsl by done.
  pose proof (slot_range k (Z.of_nat i) Hr ltac:(lia)) as Hs. pose proof (ro_len _ Hr) as Hlen. unfold WUBU_AGI_TRACE_CAP in Hlen.
  apply list_eq. intros j. destruct (decide (Z.of_nat j < ring_count k)) as [Hj|Hj].
  - unfold spans at 1. rewrite list_lookup_fmap, lookup_seq_lt by (cbn; lia). cbn [fmap option_fmap option_map Nat.add].
    rewrite Hsl. cbn [ring k' put_ring]. destruct (decide (j = i)) as [->|Hne].
    + rewrite !list_lookup_insert_eq by (rewrite ?spans_length; lia). done.
    + rewrite !list_lookup_insert_ne by (try done; intros E; apply Hne; pose proof (slot_range k (Z.of_nat j) Hr ltac:(lia));
        enough (Z.of_nat j = Z.of_nat i) by lia; apply (ring_slot_inj k); done || lia).
      rewrite spans_lookup by done. pose proof (slot_range k (Z.of_nat j) Hr ltac:(lia)).
      destruct (lookup_lt_is_Some_2 (ring k) (Z.to_nat (slot_index k (Z.of_nat j)))) as [x ->]; [lia|done].
  - rewrite !lookup_ge_None_2; [done| |]; rewrite ?length_insert, spans_length; cbn; lia.
Qed.

Lemma put_ok k (i : nat) s :
  ring_ok k -> data_ok (data s) -> ring_ok (put_ring k (<[i := s]> (ring k))).
Proof.
  intros [Hl Hh Hc Hd] Hs. split; cbn; [by rewrite length_insert|done|done|by apply Forall_insert].
Qed.

Lemma spans_data k : ring_ok k -> Forall (fun s => data_ok (data s)) (spans k).
Proof.
  intros Hr. apply Forall_lookup. intros i s Hi. assert (Z.of_nat i < ring_count k).
  { apply lookup_lt_Some in Hi. rewrite spans_length in Hi. lia. }
  rewrite spans_lookup in Hi by done. exact (Forall_lookup_1 _ _ _ _ (ro_data _ Hr) Hi).
Qed.

(** ** The cycle *)

(** The supervisor after a cycle that leaves the spans [r] and promotes [n] of them. *)
Definition after k (r : list wubu_agi_span) (n : nat) (tick : Z) : wubu_agi_kernel M :=
  Agi r (ring_head k) (ring_count k) (span_id k) (verifier k) (memory_fn k) (frozen k)
    (Nat.iter n (fun t => s32 (t + 1)) (promoted_total k)) (if Nat.eqb n 0 then last_promote_tick k else tick)
    (attest_valid k) (kernel_size k) (kernel_digest k) (uptime_ms k) (n_regions k).

Lemma after_same k tick : after k (ring k) 0 tick = k.
Proof. by destruct k. Qed.

Lemma after_after k r n r' m tick : after (after k r n tick) r' m tick = after k r' (m + n) tick.
Proof. unfold after. cbn. rewrite Nat.iter_add. by destruct m, n. Qed.

(** What the long-term memory is told. *)
Definition remember k (mem : M) (ps : list wubu_agi_span) : M :=
  match memory_fn k with Some f => foldl (fun m s => f (id s) (data s) m) mem ps | None => mem end.

Lemma remember_cons k mem s ps :
  remember k mem (s :: ps) = remember k (match memory_fn k with Some f => f (id s) (data s) mem | None => mem end) ps.
Proof. unfold remember. by destruct (memory_fn k). Qed.

Lemma cycle_loop_spec v tick n : forall k (i : nat) att mem c ps att',
  ring_ok k -> (i + n = Z.to_nat (ring_count k))%nat ->
  judge v (uptime_ms k) (List.filter fresh (drop i (spans k))) att = Some (ps, att') ->
  exists r, cycle_loop n v k (Z.of_nat i) tick att mem c =
      Some (c + Z.of_nat (length ps), after k r (length ps) tick, att', remember k mem ps) /\
    ring_ok (after k r (length ps) tick) /\
    spans (after k r (length ps) tick) = take i (spans k) ++ map mark (drop i (spans k)).
Proof.
  induction n as [|n IH]; intros k i att mem c ps att' Hr Hin HJ; cbn [cycle_loop].
  { rewrite drop_ge in * by (rewrite spans_length; lia). rewrite take_ge by (rewrite spans_length; lia).
    injection HJ as <- <-. exists (ring k). cbn [length map]. rewrite after_same, app_nil_r, Z.add_0_r.
    split_and!; [|done|done]. unfold remember. by destruct (memory_fn k). }
  destruct (lookup_lt_is_Some_2 (spans k) i) as [s Hs]; [rewrite spans_length; lia|].
  pose proof Hs as Hs'. rewrite spans_lookup in Hs' by (done || lia). rewrite Hs'. cbn [mbind option_bind].
  rewrite (drop_S _ s i Hs) in HJ |- *. cbn [List.filter map] in *. unfold fresh at 1 in HJ.
  assert (data_ok (data s)) as Hds by exact (Forall_lookup_1 _ _ _ _ (ro_data _ Hr) Hs').
  replace (Z.of_nat i + 1) with (Z.of_nat (S i)) by lia. destruct (consumed s) eqn:Hc; cbn [negb] in HJ.
  { destruct (IH k (S i) att mem c ps att' Hr ltac:(lia) HJ) as (r & -> & Hok & Hsp). exists r. split_and!; [done|done|].
    rewrite Hsp, (take_S_r _ _ _ Hs), <- app_assoc. cbn [app]. replace (mark s) with s; [done|]. destruct s. cbn in Hc. by subst. }
  cbn [judge] in HJ. destruct (v att (data s) (ts_ms s)) as [[p att1]|]; [|done]. cbn [mbind option_bind] in HJ |- *.
  set (k1 := put_ring k _). fold (mark s) in k1.
  assert (spans k1 = <[i := mark s]> (spans k)) as Hk1 by (apply spans_put; done || lia).
  assert (ring_ok k1) as Hr1 by (by apply put_ok).
  assert (drop (S i) (spans k1) = drop (S i) (spans k)) as Hdr by (rewrite Hk1; apply drop_insert_lt; lia).
  assert (take (S i) (spans k1) = take i (spans k) ++ [mark s]) as Htk.
  { rewrite Hk1, (take_S_r _ _ (mark s)), take_insert_ge by (lia || (apply list_lookup_insert_eq; rewrite spans_length; lia)). done. }
  destruct p.
  - destruct (judge v (uptime_ms k) _ (extend_event _ _)) as [[ps1 att2]|] eqn:HJ1; [|done].
    cbn [mbind option_bind] in HJ. injection HJ as <- <-.
    destruct (IH (after k1 (ring k1) 1 tick) (S i) (extend_event att1 (promotion_event (id s) (uptime_ms k)))
      (match memory_fn k with Some f => f (id s) (data s) mem | None => mem end) (c + 1) ps1 att2)
      as (r & E & Hok & Hsp); [by destruct Hr1; split|cbn; lia|change (spans (after k1 (ring k1) 1 tick)) with (spans k1); by rewrite Hdr|].
    exists r. rewrite after_after in *. change (after k1 r) with (after k r) in *. cbn [length]. rewrite Nat.add_1_r in *.
    split_and!; [|done|].
    + etransitivity; [exact E|]. rewrite remember_cons. replace (c + 1 + Z.of_nat (length ps1)) with (c + Z.of_nat (S (length ps1))) by lia. done.
    + rewrite Hsp. change (spans (after k1 (ring k1) 1 tick)) with (spans k1). by rewrite Htk, Hdr, <- app_assoc.
  - destruct (IH k1 (S i) att1 mem c ps att') as (r & -> & Hok & Hsp); [done|cbn; lia|by rewrite Hdr|].
    exists r. change (after k1 r) with (after k r) in *. split_and!; [done|done|]. by rewrite Hsp, Htk, Hdr, <- app_assoc.
Qed.

(** The gates of a cycle. *)
Definition gates_open k (v : verifier_fn) : Prop := verifier k = Some v /\ frozen k = false /\ attest_valid k = true.

Lemma cycle_open k v tick att mem :
  gates_open k v -> wubu_agi_kernel_cycle k tick att mem = cycle_loop (Z.to_nat (ring_count k)) v k 0 tick att mem 0.
Proof. intros (Hv & Hf & Ha). unfold wubu_agi_kernel_cycle. by rewrite Hv, Hf, Ha. Qed.

Lemma cycle_loop_spent v tick n : forall k (i : nat) att mem c,
  ring_ok k -> Forall (fun s => consumed s = true) (spans k) -> (i + n = Z.to_nat (ring_count k))%nat ->
  cycle_loop n v k (Z.of_nat i) tick att mem c = Some (c, k, att, mem).
Proof.
  induction n as [|n IH]; intros k i att mem c Hr Hs Hin; cbn [cycle_loop]; [done|].
  destruct (lookup_lt_is_Some_2 (spans k) i) as [s Hi]; [rewrite spans_length; lia|].
  pose proof (Forall_lookup_1 _ _ _ _ Hs Hi) as Hc. cbn in Hc. rewrite spans_lookup in Hi by (done || lia).
  rewrite Hi. cbn [mbind option_bind]. rewrite Hc. replace (Z.of_nat i + 1) with (Z.of_nat (S i)) by lia. apply IH; done || lia.
Qed.

Lemma all_marked l : Forall (fun s => consumed s = true) (map mark l).
Proof. by induction l; constructor. Qed.


(** ** The trace *)

(** A sequence of pushes: kind, parent and payload of each. *)
Fixpoint push_all k (es : list (Z * Z * option (list Z))) : option (wubu_agi_kernel M) :=
  match es with [] => Some k | (knd, par, payload) :: es => k ← agi_ring_push k knd par payload; push_all k es end.

(** The spans they record, numbered on from [n]. *)
Fixpoint recorded (n uptime : Z) (es : list (Z * Z * option (list Z))) : list wubu_agi_span :=
  match es with
  | [] => []
  | (knd, par, payload) :: es => Span (u64 (n + 1)) par uptime knd false (span_data payload) :: recorded (u64 (n + 1)) uptime es
  end.

Lemma keep_last_app {A} (a b : list A) : keep_last (keep_last a ++ b) = keep_last (a ++ b).
Proof.
  unfold keep_last. rewrite !length_app, length_drop. rewrite (drop_app (drop _ a)), (drop_app a), drop_drop, length_drop.
  f_equal; [f_equal; lia|]. f_equal. lia.
Qed.

Lemma keep_last_id {A} (l : list A) : (length l <= WUBU_AGI_TRACE_CAP)%nat -> keep_last l = l.
Proof. intros H. unfold keep_last. by replace (length l - _)%nat with 0%nat by lia. Qed.

Lemma push_uptime k knd par payload k' : agi_ring_push k knd par payload = Some k' -> uptime_ms k' = uptime_ms k.
Proof. unfold agi_ring_push. destruct (ring k !! _); [|done]. cbn [mbind option_bind]. by intros [= <-]. Qed.

Lemma agi_pushes_ok k es :
  ring_ok k -> exists k', push_all k es = Some k' /\ ring_ok k' /\
    spans k' = keep_last (spans k ++ recorded (span_id k) (uptime_ms k) es).
Proof.
  revert k. induction es as [|[[knd par] payload] es IH]; intros k Hr; cbn [push_all recorded].
  { exists k. split_and!; [done|done|]. rewrite app_nil_r, keep_last_id; [done|]. rewrite spans_length.
    pose proof (ro_count _ Hr). unfold WUBU_AGI_TRACE_CAP. lia. }
  destruct (push_spec k knd par payload Hr) as (k1 & E & Hr1 & Hs & Hi). rewrite E. cbn [mbind option_bind].
  destruct (IH k1 Hr1) as (k' & -> & Hr' & Hs'). exists k'. split_and!; [done|done|].
  rewrite Hs', Hs, keep_last_app, <- app_assoc, Hi, (push_uptime _ _ _ _ _ E). done.
Qed.

Definition empty_ring (att : attest_state) (regions : Z) : wubu_agi_kernel M :=
  Agi (replicate WUBU_AGI_TRACE_CAP (Span 0 0 0 0 false (replicate WUBU_AGI_SPAN_DATA 0))) 0 0 0 None None false 0 0
    (wubu_attest_valid att) (wubu_attest_kernel_size att) (default (replicate WUBU_AGI_PCR_SZ 0) (wubu_attest_kernel_digest att)) 0 regions.

Definition banner (att : attest_state) : list Z :=
  attest_banner att (default (replicate WUBU_AGI_PCR_SZ 0) (wubu_attest_kernel_digest att)).

Lemma empty_ring_ok att regions : ring_ok (empty_ring att regions).
Proof.
  split; [done|cbn; lia|cbn; lia|]. cbn [ring empty_ring]. apply Forall_replicate. exact (span_data_ok None).
Qed.

(** The supervisor starts with one span, which nothing can promote before a verifier is installed. *)
Lemma agi_init_ok att regions :
  exists k, wubu_agi_kernel_init (M := M) att regions = Some k /\ ring_ok k /\ length (spans k) = 1%nat /\
    verifier k = None /\ attest_valid k = g_valid att.
Proof.
  destruct (push_spec (empty_ring att regions) WUBU_AGI_SPAN_SUPER 0 (Some (banner att)) (empty_ring_ok att regions))
    as (k & E & Hr & Hs & _). exists k. split_and!; [exact E|done|by rewrite Hs| |];
    unfold agi_ring_push in E; cbn [mbind option_bind ring ring_head empty_ring] in E;
    destruct (replicate _ _ !! _); by inversion E.
Qed.

(** What is read of a span's text. *)
Definition span_text (payload : option (list Z)) : list Z := take (WUBU_AGI_SPAN_DATA - 1) (cstr (default [] payload)).

Lemma span_data_text payload : cstr (span_data payload) = span_text payload.
Proof. unfold span_data. fold (span_text payload). unfold span_text at 1 3. apply cstr_cut_zeros. Qed.

Lemma recorded_texts es : forall n uptime,
  map (fun s => cstr (data s)) (recorded n uptime es) = map (fun e => span_text (snd e)) es.
Proof.
  induction es as [|[[knd par] payload] es IH]; intros n uptime; cbn [recorded map data snd]; [done|].
  by rewrite IH, span_data_text.
Qed.

Lemma keep_last_map {A B} (f : A -> B) l : map f (keep_last l) = keep_last (map f l).
Proof. unfold keep_last. by rewrite length_map, skipn_map. Qed.

Lemma span_read_spec k (i m : nat) :
  ring_ok k -> wubu_agi_kernel_span_data k (Z.of_nat i) (S m) = Some (take m <$> (map (fun s => cstr (data s)) (spans k) !! i)).
Proof.
  intros Hr. unfold wubu_agi_kernel_span_data. cbn [Nat.eqb orb].
  rewrite list_lookup_fmap. destruct (Z.ltb_spec (Z.of_nat i) 0); [lia|]. cbn [orb].
  destruct (Z.geb_spec (Z.of_nat i) (ring_count k)).
  - by rewrite lookup_ge_None_2 by (rewrite spans_length; lia).
  - destruct (lookup_lt_is_Some_2 (spans k) i) as [s Hs]; [rewrite spans_length; lia|]. rewrite Hs.
    rewrite spans_lookup in Hs by (done || lia). rewrite Hs. cbn. by rewrite Nat.sub_0_r.
Qed.

(** The trace is a bounded queue: from the start of the supervisor,
    any sequence of records succeeds, and the ring then holds, oldest first, the last
    256 of the start's span and the recorded ones, numbered in order.  Reading the
    [i]-th into a buffer of [m + 1] bytes gives the first [m] bytes of the text
    that was recorded, itself cut to 191 bytes, and beyond the last one nothing. *)
Theorem agi_trace_is_bounded_queue att regions es :
  exists k k', wubu_agi_kernel_init (M := M) att regions = Some k /\ push_all k es = Some k' /\
    spans k' = keep_last (recorded 0 0 ((WUBU_AGI_SPAN_SUPER, 0, Some (banner att)) :: es)) /\
    forall i m, wubu_agi_kernel_span_data k' (Z.of_nat i) (S m) =
      Some (take m <$> (keep_last (map span_text (Some (banner att) :: map snd es)) !! i)).
Proof.
  destruct (agi_pushes_ok (empty_ring att regions) ((WUBU_AGI_SPAN_SUPER, 0, Some (banner att)) :: es) (empty_ring_ok att regions))
    as (k' & E & Hr & Hs).
  destruct (agi_init_ok att regions) as (k & Hk & _). exists k, k'.
  split_and!; [done| |exact Hs|].
  - cbn [push_all] in E. unfold wubu_agi_kernel_init in Hk. cbv zeta in Hk. fold (banner att) (empty_ring att regions) in Hk. by rewrite Hk in E.
  - intros i m. rewrite span_read_spec by done. rewrite Hs, keep_last_map. cbn [spans app].
    change (spans (empty_ring att regions)) with (@nil wubu_agi_span). cbn [app].
    by rewrite recorded_texts, <- (map_map snd span_text).
Qed.

(** The continuity checkpoint brings the counters back and never lowers the span number. *)
Lemma agi_checkpoint_restores k k0 :
  0 <= promoted_total k < 2 ^ 31 -> span_id k0 <= span_id k ->
  let (rc, k1) := wubu_agi_kernel_restore k0 (wubu_agi_kernel_checkpoint k) in
  rc = 0 /\ promoted_total k1 = promoted_total k /\ span_id k1 = span_id k /\ spans k1 = spans k0.
Proof.
  intros Hp Hs. unfold wubu_agi_kernel_restore, wubu_agi_kernel_checkpoint. cbn.
  split_and!; [done| | |done].
  - unfold u32, wrap. rewrite (Z.mod_small (promoted_total k)) by lia. apply swrap_id; [lia|]. unfold sfits. lia.
  - destruct (span_id k >? span_id k0) eqn:E; lia.
Qed.
End supervisor.

(** ** A supervisor with three spans *)

Definition trusted : attest_state := set_valid blank true.

Definition step_text : list Z := str "agent.step=1 regions=6 viewport=640x480".
Definition noise_text : list Z := str "hello world".

(** A memory that keeps the numbers it is told. *)
Definition sample : wubu_agi_kernel (list Z) :=
  let k := wubu_verifier_install (empty_ring trusted 6) (4, 4) in
  let k := wubu_agi_kernel_set_memory k (Some (fun n _ m => m ++ [n])) in
  default k (push_all k [(0, 0, Some step_text); (0, 0, Some noise_text); (1, 2, Some step_text)]).

Lemma sample_facts : ring_ok sample /\ gates_open sample (installed_verifier (4, 4)) /\ pcr_ok trusted /\
  map id (spans sample) = [1; 2; 3] /\ memory_fn sample = Some (fun n _ m => m ++ [n]) /\ uptime_ms sample = 0.
Proof.
  assert (exists k', push_all (wubu_agi_kernel_set_memory (wubu_verifier_install (empty_ring trusted 6) (4, 4))
    (Some (fun n _ m => m ++ [n]))) [(0, 0, Some step_text); (0, 0, Some noise_text); (1, 2, Some step_text)] = Some k' /\ ring_ok k')
    as (k' & E & Hr).
  { destruct (agi_pushes_ok (wubu_agi_kernel_set_memory (wubu_verifier_install (empty_ring (M := list Z) trusted 6) (4, 4))
      (Some (fun n _ m => m ++ [n]))) [(0, 0, Some step_text); (0, 0, Some noise_text); (1, 2, Some step_text)]) as (k' & E & Hr & _); [|eauto].
    by destruct (empty_ring_ok (M := list Z) trusted 6); split. }
  split_and!; [unfold sample; by rewrite E|split_and!; reflexivity| |vm_compute; reflexivity|reflexivity|reflexivity].
  unfold pcr_ok, pcr_now. cbn [g_runtime_pcr_live trusted set_valid blank]. apply fips_length.
Qed.

Lemma two_ids ps : map id ps = [1; 3] -> exists a b, ps = [a; b] /\ id a = 1 /\ id b = 3.
Proof. destruct ps as [|a [|b [|]]]; try discriminate. intros [= Ha Hb]. eauto. Qed.


(** A span of the agent passes although the kernel's own tests fail and no runtime
    register is available: neither keeps the score below the threshold. *)
Lemma verifier_passes_sick_kernel :
  wubu_verifier_score (0, 4) blank (span_data (Some step_text)) = Some (70, true, blank).
Proof. vm_compute. reflexivity. Qed.
