(* ===== verification/Zip.v ===== *)
(** * The ZIP reader

    [kernel/wubu_zip.c] on the DEFLATE decoder of [Inflate].  The archive is the list
    of its bytes, [len] their number as the caller gives it; offsets are 32-bit and
    wrap.  [None] is a range outside the archive that is read or handed to the decoder.  The allocator decides by size
    whether it succeeds. *)

From S2P Require Import Prelude Inflate.
Open Scope Z_scope.

Definition SIG_EOCD : Z := 0x06054b50.
Definition SIG_CDHDR : Z := 0x02014b50.
Definition SIG_LOCHDR : Z := 0x04034b50.

(** [k] bytes at [p]. *)
Definition bytes_at (data : list Z) (p k : Z) : option (list Z) :=
  if p + k <=? Z.of_nat (length data) then Some (slice data (Z.to_nat p) (Z.to_nat k)) else None.
Definition rd16 (data : list Z) (p : Z) : option Z := le_dec <$> bytes_at data p 2.
Definition rd32 (data : list Z) (p : Z) : option Z := le_dec <$> bytes_at data p 4.

Record wubu_zip_entry := ZipEntry {
  name : list Z;
  method : Z;
  comp_size : Z;
  uncomp_size : Z;
  crc32 : Z;
  local_off : Z;
  name_len : Z;
  extra_len : Z }.

Record wubu_zip_archive := ZipArchive {
  data : list Z;
  len : Z;
  entries : option (list wubu_zip_entry);
  n : Z }.

Definition NAME_SZ : nat := 256.
Definition blank_entry : wubu_zip_entry := ZipEntry (replicate NAME_SZ 0) 0 0 0 0 0 0 0.

(** [for (i = len - 22; i >= start; i--)]: the offset, if the signature is found.
    With [start] = 0 the counter wraps below zero. *)
Fixpoint find_eocd (fuel : nat) (data : list Z) (len start i : Z) : option (option Z) :=
  match fuel with
  | O => None
  | S fuel =>
      if i <? start then Some None else
      hit ← (if u32 (i + 22) <=? len then v ← rd32 data i; Some (v =? SIG_EOCD) else Some false);
      if hit : bool then Some (Some i) else find_eocd fuel data len start (u32 (i - 1))
  end.

(** One record of the central directory at [p], and where the next one is. *)
Definition read_entry (data : list Z) (p : Z) : option (wubu_zip_entry * Z) :=
  m ← rd16 data (p + 10);
  crc ← rd32 data (p + 16);
  cs ← rd32 data (p + 20);
  us ← rd32 data (p + 24);
  off ← rd32 data (p + 42);
  nl ← rd16 data (p + 28);
  el ← rd16 data (p + 30);
  cl ← rd16 data (p + 32);
  let k := if nl >? Z.of_nat NAME_SZ - 1 then Z.of_nat NAME_SZ - 1 else nl in
  nm ← bytes_at data (p + 46) k;
  Some (ZipEntry (nm ++ replicate (NAME_SZ - length nm) 0) m cs us crc off nl el, u32 (p + (46 + nl + el + cl))).

(** The directory's loop, [k] rounds before the end: the result, the table and the
    number of entries. *)
Fixpoint cd_loop (k : nat) (data : list Z) (len : Z) (i : nat) (p : Z) (es : list wubu_zip_entry)
    : option (Z * list wubu_zip_entry * Z) :=
  match k with
  | O => Some (0, es, Z.of_nat (length es))
  | S k =>
      if u32 (p + 46) >? len then Some (0, es, Z.of_nat i) else
      sig ← rd32 data p;
      if negb (sig =? SIG_CDHDR) then Some (-1, es, Z.of_nat (length es)) else
      '(e, p') ← read_entry data p;
      let es := <[i := e]> es in
      if p' >? len then Some (0, es, Z.of_nat (S i)) else cd_loop k data len (S i) p' es
  end.

Section zip.
  Variable alloc : Z -> bool.

(** The size of an entry in C. *)
Definition ENTRY_SZ : Z := 280.

Definition wubu_zip_open (d : list Z) (l : Z) (z : wubu_zip_archive) : option (Z * wubu_zip_archive) :=
  if l <? 22 then Some (-1, z) else
  let start := if l >? 65557 then l - 65557 else 0 in
  r ← find_eocd (Z.to_nat l) d l start (l - 22);
  match r with
  | None => Some (-1, z)
  | Some eocd =>
      cd_off ← rd32 d (eocd + 16);
      cnt ← rd16 d (eocd + 10);
      if (cd_off >? l) || (cnt =? 0) then Some (-1, z) else
      if negb (alloc (cnt * ENTRY_SZ)) then Some (-1, ZipArchive d l None cnt) else
      '(rc, es, k) ← cd_loop (Z.to_nat cnt) d l 0 cd_off (replicate (Z.to_nat cnt) blank_entry);
      Some (rc, ZipArchive d l (Some es) k)
  end.

Definition wubu_zip_count (z : wubu_zip_archive) : Z := n z.

(** The outer [None] is an access through a table that is not there. *)
Definition entry_of (z : wubu_zip_archive) (i : Z) : option wubu_zip_entry := es ← entries z; es !! Z.to_nat i.
Definition wubu_zip_entry_at (z : wubu_zip_archive) (i : Z) : option (option wubu_zip_entry) :=
  if i >=? n z then Some None else e ← entry_of z i; Some (Some e).

(** The loop over the names, [k] rounds before the end. *)
Fixpoint name_loop (k : nat) (z : wubu_zip_archive) (nm : list Z) (i : Z) : option Z :=
  match k with
  | O => Some (-1)
  | S k => e ← entry_of z i; if strcmp_eq (name e) nm then Some (s32 i) else name_loop k z nm (i + 1)
  end.
Definition wubu_zip_find (z : wubu_zip_archive) (nm : list Z) : option Z := name_loop (Z.to_nat (n z)) z nm 0.

(** What an extraction stores: [*out], as the bytes it points to, and [*out_len]. *)
Record extracted := Extracted { rc : Z; out : option (list Z); out_len : option Z }.
Definition refused : extracted := Extracted (-1) None None.

(** What is made of the decoder's result [r] and output [o]. *)
Definition inflated (size r : Z) (o : list Z) : extracted :=
  let got := Z.of_nat (length o) in
  let r := if (r =? 0) && negb (got =? size) && negb (size =? 0) then -1 else r in
  if negb (r =? 0) then Extracted (-1) None (Some got) else Extracted 0 (Some o) (Some got).

Definition wubu_zip_extract (z : wubu_zip_archive) (i : Z) : option extracted :=
  if i >=? n z then Some refused else
  e ← entry_of z i;
  if u32 (local_off e + 30) >? len z then Some refused else
  sig ← rd32 (data z) (local_off e);
  if negb (sig =? SIG_LOCHDR) then Some refused else
  nl ← rd16 (data z) (local_off e + 26);
  el ← rd16 (data z) (local_off e + 28);
  let comp_off := u32 (local_off e + 30 + nl + el) in
  if u32 (comp_off + comp_size e) >? len z then Some refused else
  let cap := if uncomp_size e =? 0 then u32 (comp_size e + 1) else uncomp_size e in
  if negb (alloc cap) then Some refused else
  if method e =? 0 then
    if comp_size e >? cap then Some refused else
    b ← bytes_at (data z) comp_off (comp_size e);
    Some (Extracted 0 (Some b) (Some (comp_size e)))
  else if method e =? 8 then
    src ← bytes_at (data z) comp_off (comp_size e);
    '(r, o, _) ← wubu_inflate_raw src cap; Some (inflated (uncomp_size e) r o)
  else Some refused.

Definition wubu_zip_close (z : wubu_zip_archive) : wubu_zip_archive :=
  match entries z with Some _ => ZipArchive (data z) (len z) None 0 | None => z end.
End zip.
