(* ===== verification/ZipTheorems.v ===== *)
(** * Theorems of the ZIP reader

    Archives as APPNOTE.TXT lays them out: local records with the members' bytes, the
    central directory, its end record with a comment.  The reader opens every such
    archive, lists its members and gives back their contents, stored or deflated. *)

From S2P Require Import Prelude Inflate InflateHuff InflateSafe InflateStream Zip.
Open Scope Z_scope.

(** ** Headers as lists of fields *)

(** A header is a list of fields: the bytes of each, and its value. *)
Definition hdr (fs : list (nat * Z)) : list Z := fs ≫= fun f => le_enc (fst f) (snd f).
Definition off_of (fs : list (nat * Z)) (j : nat) : nat := sum_list (fst <$> take j fs).

Lemma length_hdr fs : length (hdr fs) = sum_list (fst <$> fs).
Proof. induction fs as [|[k v] fs IH]; [done|]. unfold hdr in *. cbn. by rewrite length_app, length_le_enc, IH. Qed.

Lemma hdr_app a b : hdr (a ++ b) = hdr a ++ hdr b.
Proof. apply bind_app. Qed.

Lemma rd_bytes_at d pre x post p k : d = pre ++ x ++ post -> p = length pre -> k = length x -> rd_bytes d p k = Some x.
Proof. intros -> -> ->. by apply rd_bytes_app. Qed.

Lemma rd_hdr_field pre fs post j k v p :
  fs !! j = Some (k, v) -> p = (length pre + off_of fs j)%nat -> rd_bytes (pre ++ hdr fs ++ post) p k = Some (le_enc k v).
Proof.
  intros Hj ->. apply (rd_bytes_at _ (pre ++ hdr (take j fs)) _ (hdr (drop (S j) fs) ++ post)).
  - rewrite <- (take_drop_middle _ _ _ Hj) at 1. rewrite hdr_app. change (hdr (?f :: ?l)) with (le_enc (fst f) (snd f) ++ hdr l).
    cbn [fst snd]. by rewrite <- !app_assoc.
  - by rewrite length_app, length_hdr.
  - by rewrite length_le_enc.
Qed.

Lemma bytes_at_rd d p k : 0 <= p -> 0 <= k -> bytes_at d p k = rd_bytes d (Z.to_nat p) (Z.to_nat k).
Proof.
  intros Hp Hk. unfold bytes_at, rd_bytes. destruct (Z.leb_spec (p + k) (Z.of_nat (length d))); case_decide; done || lia.
Qed.

Lemma rd32_field pre fs post j v p :
  fs !! j = Some (4%nat, v) -> fits 32 v -> p = Z.of_nat (length pre + off_of fs j) -> rd32 (pre ++ hdr fs ++ post) p = Some v.
Proof.
  intros Hj Hv ->. unfold rd32. rewrite bytes_at_rd, (rd_hdr_field pre fs post j 4 v) by (done || lia). cbn [fmap option_fmap option_map].
  f_equal. rewrite le_dec_enc. by apply wrap_id.
Qed.

Lemma rd16_field pre fs post j v p :
  fs !! j = Some (2%nat, v) -> fits 16 v -> p = Z.of_nat (length pre + off_of fs j) -> rd16 (pre ++ hdr fs ++ post) p = Some v.
Proof.
  intros Hj Hv ->. unfold rd16. rewrite bytes_at_rd, (rd_hdr_field pre fs post j 2 v) by (done || lia). cbn [fmap option_fmap option_map].
  f_equal. rewrite le_dec_enc. by apply wrap_id.
Qed.

(** ** The format *)

Record member := Member {
  m_name : list Z;
  m_method : Z;
  m_payload : list Z;      (* as stored in the archive *)
  m_content : list Z;      (* what it stands for *)
  m_crc : Z;
  m_time : Z;
  m_lextra : list Z;
  m_cextra : list Z;
  m_note : list Z }.

Definition zlen (l : list Z) : Z := Z.of_nat (length l).

Definition f2 (v : Z) : nat * Z := (2%nat, v).
Definition f4 (v : Z) : nat * Z := (4%nat, v).

Definition local_hdr (m : member) : list (nat * Z) :=
  [f4 SIG_LOCHDR; f2 20; f2 0; f2 (m_method m); f4 (m_time m); f4 (m_crc m); f4 (zlen (m_payload m));
   f4 (zlen (m_content m)); f2 (zlen (m_name m)); f2 (zlen (m_lextra m))].
Definition local_rec (m : member) : list Z := hdr (local_hdr m) ++ m_name m ++ m_lextra m ++ m_payload m.

Definition central_hdr (m : member) (off : Z) : list (nat * Z) :=
  [f4 SIG_CDHDR; f2 20; f2 20; f2 0; f2 (m_method m); f4 (m_time m); f4 (m_crc m); f4 (zlen (m_payload m));
   f4 (zlen (m_content m)); f2 (zlen (m_name m)); f2 (zlen (m_cextra m)); f2 (zlen (m_note m)); f2 0; f2 0; f4 0;
   f4 off].
Definition central_rec (m : member) (off : Z) : list Z := hdr (central_hdr m off) ++ m_name m ++ m_cextra m ++ m_note m.

Definition locals (ms : list member) : list Z := ms ≫= local_rec.
Fixpoint centrals (off : Z) (ms : list member) : list Z :=
  match ms with [] => [] | m :: ms => central_rec m off ++ centrals (off + zlen (local_rec m)) ms end.

Definition end_hdr (ms : list member) (note : list Z) : list (nat * Z) :=
  [f4 SIG_EOCD; f2 0; f2 0; f2 (Z.of_nat (length ms)); f2 (Z.of_nat (length ms)); f4 (zlen (centrals 0 ms));
   f4 (zlen (locals ms)); f2 (zlen note)].
Definition archive (ms : list member) (note : list Z) : list Z :=
  locals ms ++ centrals 0 ms ++ hdr (end_hdr ms note) ++ note.

(** A member: a name that is a C string of up to 255 bytes, and either stored or
    a DEFLATE stream of its content. *)
Record member_ok (m : member) : Prop := {
  mo_name : is_cstr (m_name m);
  mo_name_len : (length (m_name m) <= 255)%nat;
  mo_lextra : fits 16 (zlen (m_lextra m));
  mo_cextra : fits 16 (zlen (m_cextra m));
  mo_note : fits 16 (zlen (m_note m));
  mo_crc : fits 32 (m_crc m);
  mo_size : fits 32 (zlen (m_content m));
  mo_body : (m_method m = 0 /\ m_payload m = m_content m) \/
    (m_method m = 8 /\ Forall is_byte (m_payload m) /\
     exists k rest, stream k [] (byte_bits (m_payload m)) (m_content m) rest /\ Z.of_nat k <= 1000000) }.

(** An archive below 4 GB; no second end record starts inside the comment. *)
Record archive_ok (ms : list member) (note : list Z) : Prop := {
  ao_members : Forall member_ok ms;
  ao_some : (0 < length ms)%nat;
  ao_count : fits 16 (Z.of_nat (length ms));
  ao_size : fits 32 (zlen (archive ms note));
  ao_note : fits 16 (zlen note);
  ao_end : forall i, zlen (archive ms note) - 22 - zlen note < i <= zlen (archive ms note) - 22 ->
    rd32 (archive ms note) i <> Some SIG_EOCD }.

(** ** The central directory *)

(** Read one field: [H] says what is there, [Hoff] where the fields start. *)
Ltac get_field H Hoff :=
  rewrite H; [cbn [mbind option_bind]|done|first [assumption | match goal with Hm : member_ok _ |- _ => apply Hm end]
             |rewrite Hoff; unfold zlen; cbn; lia].

Definition entry_for (m : member) (off : Z) : wubu_zip_entry :=
  ZipEntry (m_name m ++ replicate (NAME_SZ - length (m_name m)) 0) (m_method m) (zlen (m_payload m)) (zlen (m_content m))
    (m_crc m) off (zlen (m_name m)) (zlen (m_cextra m)).
Fixpoint entries_for (off : Z) (ms : list member) : list wubu_zip_entry :=
  match ms with [] => [] | m :: ms => entry_for m off :: entries_for (off + zlen (local_rec m)) ms end.

Lemma length_local m : zlen (local_rec m) = 30 + zlen (m_name m) + zlen (m_lextra m) + zlen (m_payload m).
Proof. unfold zlen, local_rec. rewrite !length_app, length_hdr. cbn. lia. Qed.
Lemma length_central m off : zlen (central_rec m off) = 46 + zlen (m_name m) + zlen (m_cextra m) + zlen (m_note m).
Proof. unfold zlen, central_rec. rewrite !length_app, length_hdr. cbn. lia. Qed.

Lemma method_fits m : member_ok m -> fits 16 (m_method m).
Proof. intros Hm. destruct (mo_body m Hm) as [[-> _]|[-> _]]; unfold fits; lia. Qed.
Lemma name_fits m : member_ok m -> fits 16 (zlen (m_name m)).
Proof. intros Hm. pose proof (mo_name_len m Hm). unfold zlen, fits. lia. Qed.

Lemma zip_entry_spec m off pre post :
  member_ok m -> fits 32 off -> fits 32 (zlen (m_payload m)) -> fits 32 (zlen pre + zlen (central_rec m off)) ->
  rd32 (pre ++ central_rec m off ++ post) (zlen pre) = Some SIG_CDHDR /\
  read_entry (pre ++ central_rec m off ++ post) (zlen pre) = Some (entry_for m off, zlen pre + zlen (central_rec m off)).
Proof.
  intros Hm Ho Hp Hend. pose proof (method_fits m Hm). pose proof (name_fits m Hm).
  set (d := pre ++ central_rec m off ++ post).
  assert (d = pre ++ hdr (central_hdr m off) ++ m_name m ++ m_cextra m ++ m_note m ++ post) as Hd.
  { unfold d, central_rec. by rewrite <- !app_assoc. }
  assert (forall j v p, central_hdr m off !! j = Some (4%nat, v) -> fits 32 v ->
    p = Z.of_nat (length pre + off_of (central_hdr m off) j) -> rd32 d p = Some v) as H4 by (rewrite Hd; intros; by eapply rd32_field).
  assert (forall j v p, central_hdr m off !! j = Some (2%nat, v) -> fits 16 v ->
    p = Z.of_nat (length pre + off_of (central_hdr m off) j) -> rd16 d p = Some v) as H2 by (rewrite Hd; intros; by eapply rd16_field).
  assert (forall j, off_of (central_hdr m off) j = sum_list (take j [4; 2; 2; 2; 2; 4; 4; 4; 4; 2; 2; 2; 2; 2; 4; 4])%nat) as Hoff.
  { intros j. unfold off_of. rewrite fmap_take. done. }
  split; [apply (H4 0%nat); [done|unfold fits; done|rewrite Hoff; unfold zlen; cbn; lia]|]. unfold read_entry.
  get_field (H2 4%nat (m_method m) (zlen pre + 10)) Hoff.
  get_field (H4 6%nat (m_crc m) (zlen pre + 16)) Hoff.
  get_field (H4 7%nat (zlen (m_payload m)) (zlen pre + 20)) Hoff.
  get_field (H4 8%nat (zlen (m_content m)) (zlen pre + 24)) Hoff.
  get_field (H4 15%nat off (zlen pre + 42)) Hoff.
  get_field (H2 9%nat (zlen (m_name m)) (zlen pre + 28)) Hoff.
  get_field (H2 10%nat (zlen (m_cextra m)) (zlen pre + 30)) Hoff.
  get_field (H2 11%nat (zlen (m_note m)) (zlen pre + 32)) Hoff.
  pose proof (mo_name_len m Hm) as Hnl. unfold NAME_SZ. destruct (zlen (m_name m) >? Z.of_nat 256 - 1) eqn:E; [apply Z.gtb_lt in E; unfold zlen in E; lia|].
  rewrite bytes_at_rd by (unfold zlen; lia).
  rewrite (rd_bytes_at d (pre ++ hdr (central_hdr m off)) (m_name m) (m_cextra m ++ m_note m ++ post)).
  - cbn [mbind option_bind]. unfold entry_for, NAME_SZ. do 2 f_equal. rewrite length_central in Hend |- *.
    rewrite wrap_id by (unfold fits in *; lia). lia.
  - by rewrite Hd, <- !app_assoc.
  - rewrite length_app, length_hdr. cbn. unfold zlen. lia.
  - unfold zlen. lia.
Qed.

Lemma entries_for_length ms : forall off, length (entries_for off ms) = length ms.
Proof. induction ms as [|m ms IH]; intros off; cbn; [done|]. by rewrite IH. Qed.

Lemma insert_rest {A} (l : list A) i x : (i < length l)%nat -> take (S i) (<[i := x]> l) = take i l ++ [x].
Proof.
  intros Hi. rewrite (take_S_r _ _ x) by (by apply list_lookup_insert_eq). by rewrite take_insert_ge by lia.
Qed.

Lemma cd_loop_spec ms : forall off pre post i es,
  Forall member_ok ms -> fits 32 (off + zlen (locals ms)) -> 0 <= off ->
  fits 32 (zlen (pre ++ centrals off ms ++ post)) -> length es = (i + length ms)%nat ->
  cd_loop (length ms) (pre ++ centrals off ms ++ post) (zlen (pre ++ centrals off ms ++ post)) i (zlen pre) es =
    Some (0, take i es ++ entries_for off ms, Z.of_nat (length es)).
Proof.
  induction ms as [|m ms IH]; intros off pre post i es Hms Hloc Hoff Hd Hes; cbn [length cd_loop entries_for].
  { rewrite app_nil_r, take_ge by (cbn in Hes; lia). done. }
  apply Forall_cons in Hms as [Hm Hms]. cbn [centrals] in *. cbn [length] in Hes.
  set (d := pre ++ (central_rec m off ++ centrals (off + zlen (local_rec m)) ms) ++ post) in *.
  assert (d = pre ++ central_rec m off ++ centrals (off + zlen (local_rec m)) ms ++ post) as Hd1 by (unfold d; by rewrite <- !app_assoc).
  assert (d = (pre ++ central_rec m off) ++ centrals (off + zlen (local_rec m)) ms ++ post) as Hd2 by (by rewrite Hd1, <- !app_assoc).
  assert (zlen (locals (m :: ms)) = zlen (local_rec m) + zlen (locals ms)) as Hll.
  { unfold zlen, locals. cbn. rewrite length_app. lia. }
  pose proof (length_local m) as Hlm. pose proof (length_central m off) as Hcm.
  assert (zlen pre + zlen (central_rec m off) <= zlen d) as Hfit.
  { rewrite Hd2. unfold zlen. rewrite !length_app. lia. }
  assert (0 <= zlen pre /\ 0 <= zlen (m_name m) /\ 0 <= zlen (m_cextra m) /\ 0 <= zlen (m_note m) /\ 0 <= zlen (m_lextra m) /\
    0 <= zlen (m_payload m) /\ 0 <= zlen (locals ms)) as Hpos by (unfold zlen; lia).
  destruct (zip_entry_spec m off pre (centrals (off + zlen (local_rec m)) ms ++ post) Hm) as [E1 E2];
    [unfold fits in *; lia..|]. rewrite <- Hd1 in E1, E2.
  rewrite wrap_id by (unfold fits in *; lia).
  destruct (Z.gtb_spec (zlen pre + 46) (zlen d)); [lia|].
  rewrite E1. cbn [mbind option_bind]. rewrite Z.eqb_refl. cbn [negb]. rewrite E2. cbn [mbind option_bind].
  destruct (Z.gtb_spec (zlen pre + zlen (central_rec m off)) (zlen d)); [lia|].
  replace (zlen pre + zlen (central_rec m off)) with (zlen (pre ++ central_rec m off)) by (unfold zlen; rewrite length_app; lia).
  rewrite Hd2 at 1 2. rewrite IH; [|done|unfold fits in *; lia|lia|by rewrite <- Hd2|rewrite length_insert; lia].
  rewrite length_insert, insert_rest by lia. by rewrite <- app_assoc.
Qed.

(** ** The end record *)

Lemma archive_split ms note :
  archive ms note = (locals ms ++ centrals 0 ms) ++ hdr (end_hdr ms note) ++ note.
Proof. unfold archive. by rewrite <- app_assoc. Qed.

Lemma archive_length ms note : zlen (archive ms note) = zlen (locals ms) + zlen (centrals 0 ms) + 22 + zlen note.
Proof. unfold zlen, archive. rewrite !length_app, length_hdr. cbn. lia. Qed.

Lemma end_fields ms note :
  archive_ok ms note ->
  let e := zlen (locals ms) + zlen (centrals 0 ms) in
  rd32 (archive ms note) e = Some SIG_EOCD /\ rd16 (archive ms note) (e + 10) = Some (Z.of_nat (length ms)) /\
  rd32 (archive ms note) (e + 16) = Some (zlen (locals ms)).
Proof.
  intros H e. rewrite archive_split. pose proof (ao_size _ _ H) as Hs. rewrite archive_length in Hs.
  assert (forall l, 0 <= zlen l) as Hp by (unfold zlen; lia).
  pose proof (Hp (locals ms)). pose proof (Hp (centrals 0 ms)). pose proof (Hp note).
  split_and!.
  - eapply (rd32_field _ _ _ 0); [done|unfold fits; done|unfold e, zlen; rewrite length_app; cbn; lia].
  - eapply (rd16_field _ _ _ 4); [done|apply H|unfold e, zlen; rewrite length_app; cbn; lia].
  - eapply (rd32_field _ _ _ 6); [done|unfold fits in *; lia|unfold e, zlen; rewrite length_app; cbn; lia].
Qed.

Lemma rd32_in d i : 0 <= i -> i + 4 <= zlen d -> exists v, rd32 d i = Some v.
Proof.
  intros H0 H. unfold rd32, bytes_at. rewrite (proj2 (Z.leb_le _ _)) by exact H. eexists. reflexivity.
Qed.

Lemma find_eocd_spec d start e fuel : forall i,
  fits 32 (zlen d) -> 0 <= start <= e -> e <= i <= zlen d - 22 -> (Z.to_nat (i - e) < fuel)%nat ->
  rd32 d e = Some SIG_EOCD -> (forall j, e < j <= zlen d - 22 -> rd32 d j <> Some SIG_EOCD) ->
  find_eocd fuel d (zlen d) start i = Some (Some e).
Proof.
  induction fuel as [|fuel IH]; intros i Hl Hs Hi Hf He Hno; [lia|]. cbn [find_eocd].
  rewrite (proj2 (Z.ltb_ge i start)) by lia. rewrite (wrap_id 32 (i + 22)) by (unfold fits in *; lia).
  rewrite (proj2 (Z.leb_le (i + 22) (zlen d))) by lia. destruct (rd32_in d i) as [v Hv]; [lia|lia|]. rewrite Hv. cbn [mbind option_bind].
  destruct (decide (i = e)) as [->|Hne].
  { rewrite He in Hv. injection Hv as <-. by rewrite Z.eqb_refl. }
  destruct (Z.eqb_spec v SIG_EOCD) as [->|_]; [by destruct (Hno i); [lia|]|].
  rewrite wrap_id by (unfold fits in *; lia). apply IH; try done; lia.
Qed.

(** ** Opening *)

Lemma open_spec alloc ms note z0 :
  archive_ok ms note -> alloc (Z.of_nat (length ms) * ENTRY_SZ) = true ->
  wubu_zip_open alloc (archive ms note) (zlen (archive ms note)) z0 =
    Some (0, ZipArchive (archive ms note) (zlen (archive ms note)) (Some (entries_for 0 ms)) (Z.of_nat (length ms))).
Proof.
  intros H Ha. destruct (end_fields ms note H) as (E0 & E10 & E16). pose proof (archive_length ms note) as Hlen.
  pose proof (ao_size _ _ H) as Hsz. pose proof (ao_note _ _ H) as Hn. pose proof (ao_some _ _ H) as Hc.
  assert (forall l, 0 <= zlen l) as Hp by (unfold zlen; lia).
  pose proof (Hp (locals ms)). pose proof (Hp (centrals 0 ms)). pose proof (Hp note).
  unfold wubu_zip_open. rewrite (proj2 (Z.ltb_ge _ 22)) by lia.
  rewrite (find_eocd_spec _ _ (zlen (locals ms) + zlen (centrals 0 ms))); try done; try (unfold fits in *; lia).
  2:{ destruct (zlen (archive ms note) >? 65557) eqn:E; unfold fits in *; lia. }
  2:{ intros j Hj. apply H. lia. }
  cbn [mbind option_bind]. rewrite E16. cbn [mbind option_bind]. rewrite E10. cbn [mbind option_bind].
  destruct (Z.gtb_spec (zlen (locals ms)) (zlen (archive ms note))); [lia|]. rewrite (proj2 (Z.eqb_neq (Z.of_nat (length ms)) 0)) by lia.
  cbn [orb]. rewrite Ha. cbn [negb]. rewrite Nat2Z.id.
  pose proof (cd_loop_spec ms 0 (locals ms) (hdr (end_hdr ms note) ++ note) 0 (replicate (length ms) blank_entry)) as C.
  fold (archive ms note) in C. rewrite C; [|apply H|unfold fits in *; lia|lia|exact Hsz|by rewrite length_replicate].
  cbn [take app mbind option_bind]. by rewrite length_replicate.
Qed.

(** ** Extracting *)

Lemma entries_lookup ms : forall off k m,
  ms !! k = Some m -> entries_for off ms !! k = Some (entry_for m (off + zlen (locals (take k ms)))).
Proof.
  induction ms as [|m0 ms IH]; intros off [|k] m Hk; [done|done| |].
  - injection Hk as ->. cbn. by rewrite Z.add_0_r.
  - cbn [entries_for lookup list_lookup]. rewrite (IH _ _ _ Hk). do 2 f_equal. unfold zlen, locals. cbn [take mbind list_bind].
    rewrite length_app. lia.
Qed.

Lemma archive_member ms note k m :
  ms !! k = Some m -> archive ms note =
    locals (take k ms) ++ hdr (local_hdr m) ++ m_name m ++ m_lextra m ++ m_payload m ++
    locals (drop (S k) ms) ++ centrals 0 ms ++ hdr (end_hdr ms note) ++ note.
Proof.
  intros Hk. unfold archive at 1. rewrite <- (take_drop_middle _ _ _ Hk) at 1. unfold locals. rewrite bind_app, <- app_assoc.
  change (mbind local_rec (m :: drop (S k) ms)) with (local_rec m ++ mbind local_rec (drop (S k) ms)). unfold local_rec at 2.
  by rewrite <- !app_assoc.
Qed.

Lemma inflate_member src dcap k res rest :
  Forall is_byte src -> stream k [] (byte_bits src) res rest -> Z.of_nat k <= 1000000 -> Z.of_nat (length res) <= dcap ->
  exists used, wubu_inflate_raw src dcap = Some (0, res, used).
Proof.
  intros Hsrc Hs Hk Hcap. destruct (br_init_ok src Hsrc) as [Hok Hbits]. unfold wubu_inflate_raw, inflate_raw.
  assert (rd_ok (br_init src)) as Hrd by (split; [done|cbn; lia]).
  destruct (raw_loop_stream k GUARD (br_init src) blank_huff blank_huff blank_huff {| s_cap := dcap; s_out := [] |} res rest)
    as (b' & -> & _); try (done || (unfold GUARD; lia)). eauto.
Qed.

Lemma inflated_all o : inflated (zlen o) 0 o = Extracted 0 (Some o) (Some (zlen o)).
Proof. unfold inflated. fold (zlen o). by rewrite (Z.eqb_refl (zlen o)). Qed.

(** What the local record of a member holds. *)
Lemma local_fields ms note k m :
  archive_ok ms note -> ms !! k = Some m ->
  let d := archive ms note in
  let p := zlen (locals (take k ms)) in
  rd32 d p = Some SIG_LOCHDR /\ rd16 d (p + 26) = Some (zlen (m_name m)) /\ rd16 d (p + 28) = Some (zlen (m_lextra m)) /\
  bytes_at d (p + 30 + zlen (m_name m) + zlen (m_lextra m)) (zlen (m_payload m)) = Some (m_payload m) /\
  p + 30 + zlen (m_name m) + zlen (m_lextra m) + zlen (m_payload m) < zlen d.
Proof.
  intros H Hk d p. pose proof (Forall_lookup_1 _ _ _ _ (ao_members _ _ H) Hk) as Hm.
  pose proof (archive_member ms note k m Hk) as Hd. fold d in Hd. unfold p. clear p. set (pre := locals (take k ms)) in *.
  assert (forall j v p, local_hdr m !! j = Some (2%nat, v) -> fits 16 v ->
    p = Z.of_nat (length pre + off_of (local_hdr m) j) -> rd16 d p = Some v) as F2 by (rewrite Hd; intros; by eapply rd16_field).
  split_and!.
  - rewrite Hd. eapply (rd32_field _ _ _ 0); [done|unfold fits; done|unfold zlen; cbn; lia].
  - apply (F2 8%nat); [done|by apply name_fits|unfold zlen; cbn; lia].
  - apply (F2 9%nat); [done|apply Hm|unfold zlen; cbn; lia].
  - rewrite bytes_at_rd by (unfold zlen; lia). apply (rd_bytes_at d (pre ++ hdr (local_hdr m) ++ m_name m ++ m_lextra m) (m_payload m)
      (locals (drop (S k) ms) ++ centrals 0 ms ++ hdr (end_hdr ms note) ++ note)).
    + by rewrite Hd, <- !app_assoc.
    + rewrite !length_app, length_hdr. cbn. unfold zlen. lia.
    + unfold zlen. lia.
  - rewrite Hd. unfold zlen. rewrite !length_app, !length_hdr. cbn. lia.
Qed.

Lemma bind_some {A B} (f : A -> option B) x : Some x ≫= f = f x.
Proof. done. Qed.

(** A run of the extraction on an entry whose record and bytes lie in the archive. *)
Lemma extract_run alloc z i e nl el src content :
  0 <= i < n z -> entry_of z i = Some e -> rd32 (data z) (local_off e) = Some SIG_LOCHDR ->
  rd16 (data z) (local_off e + 26) = Some nl -> rd16 (data z) (local_off e + 28) = Some el ->
  bytes_at (data z) (local_off e + 30 + nl + el) (comp_size e) = Some src ->
  0 <= local_off e -> 0 <= nl -> 0 <= el -> 0 <= comp_size e -> local_off e + 30 + nl + el + comp_size e < len z -> fits 32 (len z) ->
  uncomp_size e = zlen content -> (forall sz, 0 < sz -> alloc sz = true) ->
  (method e = 0 /\ src = content /\ comp_size e = zlen content) \/
  (method e = 8 /\ forall cap, zlen content <= cap -> exists used, wubu_inflate_raw src cap = Some (0, content, used)) ->
  wubu_zip_extract alloc z i = Some (Extracted 0 (Some content) (Some (zlen content))).
Proof.
  intros Hi He Hsig Hnl Hel Hbody Hl0 Hnl0 Hel0 Hc0 Hend Hsz Hus Ha Hbd. assert (0 <= zlen content) by (unfold zlen; lia).
  unfold wubu_zip_extract. set (inf := wubu_inflate_raw) in *. clearbody inf. destruct (Z.geb_spec i (n z)); [lia|]. rewrite He. cbn [mbind option_bind].
  rewrite (wrap_id 32 (local_off e + 30)) by (unfold fits in *; lia). destruct (Z.gtb_spec (local_off e + 30) (len z)); [lia|].
  rewrite Hsig. cbn [mbind option_bind]. rewrite Z.eqb_refl. cbn [negb].
  rewrite Hnl. cbn [mbind option_bind]. rewrite Hel. cbn [mbind option_bind]. cbv zeta.
  rewrite (wrap_id 32 (local_off e + 30 + nl + el)) by (unfold fits in *; lia).
  rewrite (wrap_id 32 (_ + comp_size e)) by (unfold fits in *; lia).
  destruct (Z.gtb_spec (local_off e + 30 + nl + el + comp_size e) (len z)); [lia|].
  rewrite (wrap_id 32 (comp_size e + 1)) by (unfold fits in *; lia).
  rewrite Hus, Hbody, !bind_some.
  set (cap := if zlen content =? 0 then _ else _).
  assert (0 < cap /\ zlen content <= cap) as [Hc1 Hc2] by (unfold cap; destruct (Z.eqb_spec (zlen content) 0); lia). clearbody cap.
  rewrite Ha by done. destruct Hbd as [(-> & -> & ->)|(-> & Hin)].
  - by destruct (Z.gtb_spec (zlen content) cap); [lia|].
  - destruct (Hin cap Hc2) as [used ->]. rewrite bind_some. by rewrite inflated_all.
Qed.

Lemma extract_spec alloc ms note k m :
  archive_ok ms note -> ms !! k = Some m -> (forall sz, 0 < sz -> alloc sz = true) ->
  wubu_zip_extract alloc
    (ZipArchive (archive ms note) (zlen (archive ms note)) (Some (entries_for 0 ms)) (Z.of_nat (length ms))) (Z.of_nat k) =
    Some (Extracted 0 (Some (m_content m)) (Some (zlen (m_content m)))).
Proof.
  intros H Hk Ha. pose proof (Forall_lookup_1 _ _ _ _ (ao_members _ _ H) Hk) as Hm.
  destruct (local_fields ms note k m H Hk) as (Hsig & Hnl & Hel & Hbody & Hend). pose proof (lookup_lt_Some _ _ _ Hk) as Hlt.
  assert (forall l, 0 <= zlen l) as Hp by (unfold zlen; lia).
  eapply (extract_run alloc _ _ (entry_for m (zlen (locals (take k ms)))) (zlen (m_name m)) (zlen (m_lextra m)) (m_payload m));
    cbn [data len local_off comp_size uncomp_size method entry_for n]; try done; try apply Hp; [lia| |apply H|].
  - unfold entry_of. cbn [entries mbind option_bind]. by rewrite Nat2Z.id, (entries_lookup ms 0 k m Hk).
  - destruct (mo_body m Hm) as [[-> ->]|(-> & Hby & q & rest & Hst & Hq)]; [by left|right]. split; [done|].
    intros cap Hcap. by eapply inflate_member.
Qed.

(** ** Finding *)

Lemma cstr_padded l q : is_cstr l -> cstr (l ++ replicate (S q) 0) = l.
Proof. induction 1 as [|c l Hc _ IH]; [done|]. cbn [app cstr]. destruct (Z.eqb_spec c 0); [lia|]. by rewrite IH. Qed.

Lemma cstr_name m : member_ok m -> cstr (m_name m ++ replicate (NAME_SZ - length (m_name m)) 0) = m_name m.
Proof.
  intros Hm. pose proof (mo_name_len m Hm). unfold NAME_SZ. destruct (256 - length (m_name m))%nat as [|q] eqn:E; [lia|].
  apply cstr_padded, Hm.
Qed.

Lemma name_loop_spec z nm ms : forall off i es,
  Forall member_ok ms -> is_cstr nm -> entries z = Some es -> drop i es = entries_for off ms -> Z.of_nat (i + length ms) < 2 ^ 31 ->
  name_loop (length ms) z nm (Z.of_nat i) =
    Some (match find_from (fun m => bool_decide (m_name m = nm)) ms i with Some k => Z.of_nat k | None => -1 end).
Proof.
  induction ms as [|m ms IH]; intros off i es Hms Hnm Hz Hes Hb; [done|]. apply Forall_cons in Hms as [Hm Hms].
  cbn [length name_loop entries_for] in *. unfold entry_of at 1. rewrite Hz. cbn [mbind option_bind]. rewrite Nat2Z.id.
  assert (es !! i = Some (entry_for m off)) as Hi.
  { rewrite <- (Nat.add_0_r i), <- lookup_drop, Hes. done. }
  rewrite Hi. cbn [mbind option_bind]. unfold entry_for, strcmp_eq. cbn [name]. rewrite cstr_name, (cstr_id nm) by done.
  cbn [find_from]. destruct (bool_decide (m_name m = nm)).
  { f_equal. apply swrap_id; [lia|]. unfold sfits. lia. }
  replace (Z.of_nat i + 1) with (Z.of_nat (S i)) by lia. apply (IH (off + zlen (local_rec m)) (S i) es); try done.
  - by rewrite <- Nat.add_1_r, <- drop_drop, Hes.
  - lia.
Qed.

(** ** The reader *)

(** C10. An archive of the following layout is opened: at least one member, each with a
    local header, its data and a record of the central directory, then one end record;
    sizes in the headers (all flags 0, so no data descriptors and no encryption), no ZIP64
    records, below 4 GB, names of at most 255 bytes without NUL, any extra fields and
    comments as long as no second end record starts inside the archive's comment; members
    stored, or deflated with complete Huffman codes in at most a million blocks.  When
    allocation succeeds, the reader counts the members, finds each by its name (the first
    of that name) and says of other names that they are not there; extracting a member
    gives exactly its content, and a number past the last is refused. *)
Theorem zip_reads_back_archives alloc ms note z0 :
  archive_ok ms note -> (forall sz, 0 < sz -> alloc sz = true) ->
  exists z, wubu_zip_open alloc (archive ms note) (zlen (archive ms note)) z0 = Some (0, z) /\
    wubu_zip_count z = Z.of_nat (length ms) /\
    (forall nm, is_cstr nm -> wubu_zip_find z nm =
      Some (match find_idx (fun m => bool_decide (m_name m = nm)) ms with Some k => Z.of_nat k | None => -1 end)) /\
    (forall k m, ms !! k = Some m ->
      wubu_zip_extract alloc z (Z.of_nat k) = Some (Extracted 0 (Some (m_content m)) (Some (zlen (m_content m))))) /\
    (forall i, Z.of_nat (length ms) <= i -> wubu_zip_extract alloc z i = Some refused).
Proof.
  intros H Ha. eexists. split; [apply open_spec; [done|]; apply Ha; pose proof (ao_some _ _ H); unfold ENTRY_SZ; lia|].
  split_and!; [done| | |].
  - intros nm Hnm. unfold wubu_zip_find. cbn [n]. rewrite Nat2Z.id.
    apply (name_loop_spec _ nm ms 0 0 (entries_for 0 ms)); try done; [apply H|]. pose proof (ao_count _ _ H). unfold fits in *. cbn. lia.
  - intros k m Hk. by apply extract_spec.
  - intros i Hi. unfold wubu_zip_extract. cbn [n]. by rewrite (proj2 (Z.geb_le i _)).
Qed.

(** ** A small archive *)

(** A stored member with an extra field and a deflated one, and a comment. *)
Definition sample_members : list member :=
  [Member (str "a/readme") 0 (str "hello") (str "hello") 907060870 0 [1; 0] [] (str "n");
   Member (str "b") 8 demo_src (str "hiaaaaa") 1 0 [] [] []].

Lemma sample_archive_ok : archive_ok sample_members (str "done").
Proof.
  split.
  - constructor; [|constructor; [|constructor]].
    + split; try (apply (bool_decide_unpack _); vm_compute; exact I). by left.
    + split; try (apply (bool_decide_unpack _); vm_compute; exact I). right. split_and!; [done| |].
      * apply (bool_decide_unpack _); vm_compute; exact I.
      * exists 2%nat, [false; false]. split; [exact demo_stream|lia].
  - cbn. lia.
  - by vm_compute.
  - by vm_compute.
  - by vm_compute.
  - intros i Hi. assert (zlen (archive sample_members (str "done")) = 215) as Hl by (vm_compute; reflexivity).
    rewrite Hl in Hi. change (zlen (str "done")) with 4 in Hi.
    assert (i = 190 \/ i = 191 \/ i = 192 \/ i = 193) as [-> | [-> | [-> | ->]]] by lia; vm_compute; discriminate.
Qed.

Definition no_archive : wubu_zip_archive := ZipArchive [] 0 None 0.

Lemma zip_reads_back_archives_witness :
  exists z, wubu_zip_open (fun _ => true) (archive sample_members (str "done")) (zlen (archive sample_members (str "done"))) no_archive = Some (0, z) /\
    wubu_zip_find z (str "b") = Some 1 /\ wubu_zip_find z (str "c") = Some (-1) /\
    wubu_zip_extract (fun _ => true) z 0 = Some (Extracted 0 (Some (str "hello")) (Some 5)) /\
    wubu_zip_extract (fun _ => true) z 1 = Some (Extracted 0 (Some (str "hiaaaaa")) (Some 7)).
Proof.
  destruct (zip_reads_back_archives (fun _ => true) sample_members (str "done") no_archive sample_archive_ok) as (z & Ho & _ & Hf & He & _); [done|].
  exists z. split_and!; [exact Ho| | |exact (He 0%nat _ eq_refl)|exact (He 1%nat _ eq_refl)].
  - rewrite Hf by (apply (bool_decide_unpack _); vm_compute; exact I). reflexivity.
  - rewrite Hf by (apply (bool_decide_unpack _); vm_compute; exact I). reflexivity.
Defined.

(** ** Where the reader leaves the archive *)

(** Without an end record the search of a file of up to 65557 bytes runs below zero
    and reads far behind the buffer. *)
Lemma zip_search_leaves_buffer : wubu_zip_open (fun _ => true) (replicate 22 0) 22 no_archive = None.
Proof. vm_compute. reflexivity. Qed.

(** A directory and its end record, and nothing else. *)
Definition directory (m : member) (off : Z) : list Z :=
  central_rec m off ++ hdr [f4 SIG_EOCD; f2 0; f2 0; f2 1; f2 1; f4 0; f4 0; f2 0].

(** A name said to be longer than what is left is copied from behind the buffer. *)
Lemma zip_name_leaves_buffer :
  let d := take 68 (hdr (central_hdr (Member [] 0 [] [] 0 0 [] [] []) 0)) in
  wubu_zip_open (fun _ => true)
    (take 28 d ++ le_enc 2 200 ++ drop 30 d ++ hdr [f4 SIG_EOCD; f2 0; f2 0; f2 1; f2 1; f4 0; f4 0; f2 0]) 68 no_archive = None.
Proof. vm_compute. reflexivity. Qed.

(** An offset close to 4 GB passes the check, whose sum wraps, and is then read at. *)
Lemma zip_offset_check_wraps :
  let d := directory (Member (str "x") 0 [] [] 0 0 [] [] []) 4294967276 in
  match wubu_zip_open (fun _ => true) d (zlen d) no_archive with
  | Some (0, z) => wubu_zip_count z = 1 /\ wubu_zip_extract (fun _ => true) z 0 = None
  | _ => False
  end.
Proof. vm_compute. by split. Qed.
