(* ===== verification/Gc.v ===== *)
(** * The garbage collector of user-space applets

    [runtime/wubu_gc.c].  Objects live in a map from the addresses of their headers;
    the allocation list is the list of those addresses, the newest first.  A pointer
    handed to a client is the address behind the header.  [None] is an access to a
    header that is not there: after [free], or through a root that is no object.
    What [malloc] and [realloc] answer are arguments of the operations that call
    them. *)

From stdpp Require Import gmap.
From S2P Require Import Prelude.
Open Scope Z_scope.

Record GCObject := Obj { o_size : Z; o_marked : Z; o_pinned : Z }.

(** [sizeof(GCObject)] *)
Definition HDR : Z := 24.

Record gc_state := Gc {
  g_alloc_list : list Z;
  g_objs : gmap Z GCObject;
  g_roots : list Z;
  g_root_cap : Z;
  g_total_allocated : Z;
  g_gc_threshold : Z;
  g_gc_enabled : bool }.

Definition gc_start : gc_state := Gc [] ∅ [] 0 0 (1024 * 1024) true.

(** ** Roots *)

Definition put_roots (g : gc_state) (r : list Z) (cap : Z) : gc_state :=
  Gc (g_alloc_list g) (g_objs g) r cap (g_total_allocated g) (g_gc_threshold g) (g_gc_enabled g).

(** [grown]: whether [realloc] succeeds. *)
Definition wubu_gc_root_add (g : gc_state) (ptr : Z) (grown : bool) : gc_state :=
  if ptr =? 0 then g else
  if Z.of_nat (length (g_roots g)) =? g_root_cap g then
    if grown then put_roots g (g_roots g ++ [ptr]) (if g_root_cap g =? 0 then 32 else g_root_cap g * 2) else g
  else put_roots g (g_roots g ++ [ptr]) (g_root_cap g).

(** [g_roots[i] = g_roots[--g_root_count]] *)
Definition swap_out (i : nat) (r : list Z) : list Z :=
  match last r with Some x => removelast (<[i := x]> r) | None => r end.

Definition wubu_gc_root_remove (g : gc_state) (ptr : Z) : gc_state :=
  if ptr =? 0 then g else
  match find_idx (fun x => x =? ptr) (g_roots g) with
  | Some i => put_roots g (swap_out i (g_roots g)) (g_root_cap g)
  | None => g
  end.

Definition wubu_gc_root_count (g : gc_state) : Z := Z.of_nat (length (g_roots g)).

(** ** Mark *)

Definition gc_mark_ptr (head : Z) (m : gmap Z GCObject) (ptr : Z) : option (gmap Z GCObject) :=
  if ptr =? 0 then Some m else
  let obj := u64 (ptr - HDR) in
  if obj <? head then Some m else
  o ← m !! obj;
  Some (if o_marked o =? 0 then <[obj := Obj (o_size o) 1 (o_pinned o)]> m else m).

Fixpoint gc_mark_roots (head : Z) (m : gmap Z GCObject) (roots : list Z) : option (gmap Z GCObject) :=
  match roots with
  | [] => Some m
  | ptr :: roots => m ← gc_mark_ptr head m ptr; gc_mark_roots head m roots
  end.

(** ** Sweep *)

Fixpoint gc_sweep (l : list Z) (m : gmap Z GCObject) (total : Z) : option (list Z * gmap Z GCObject * Z) :=
  match l with
  | [] => Some ([], m, total)
  | a :: l =>
      o ← m !! a;
      if negb (o_marked o =? 0) || negb (o_pinned o =? 0) then
        '(l, m, total) ← gc_sweep l (<[a := Obj (o_size o) 0 (o_pinned o)]> m) total;
        Some (a :: l, m, total)
      else gc_sweep l (delete a m) (u64 (total - o_size o))
  end.

(** The threshold after a collection: twice what is live, within bounds. *)
Definition new_threshold (total : Z) : Z :=
  let t := u64 (total * 2) in
  let t := if t <? 64 * 1024 then 64 * 1024 else t in
  if t >? 64 * 1024 * 1024 then 64 * 1024 * 1024 else t.

(** [g_alloc_list] as an address. *)
Definition list_head (l : list Z) : Z := default 0 (head l).

Definition wubu_gc_collect (g : gc_state) : option gc_state :=
  if negb (g_gc_enabled g) then Some g else
  m ← gc_mark_roots (list_head (g_alloc_list g)) (g_objs g) (g_roots g);
  '(l, m, total) ← gc_sweep (g_alloc_list g) m (g_total_allocated g);
  Some (Gc l m (g_roots g) (g_root_cap g) total (new_threshold total) (g_gc_enabled g)).

(** ** Allocation *)

(** [(size + 15) & ~15] *)
Definition align16 (size : Z) : Z := Z.land (u64 (size + 15)) (Z.lnot 15).

(** The collection before an allocation that would pass the threshold. *)
Definition maybe_collect (g : gc_state) (size : Z) : option gc_state :=
  if g_gc_enabled g && (u64 (g_total_allocated g + size) >? g_gc_threshold g) then wubu_gc_collect g else Some g.

(** [got]: the address [malloc] returns, if any.  The pointer is 0 for none. *)
Definition wubu_gc_alloc (g : gc_state) (size : Z) (got : option Z) : option (Z * gc_state) :=
  if size =? 0 then Some (0, g) else
  let size := align16 size in
  g ← maybe_collect g size;
  match got with
  | None => Some (0, g)
  | Some a =>
      Some (a + HDR, Gc (a :: g_alloc_list g) (<[a := Obj size 0 0]> (g_objs g)) (g_roots g) (g_root_cap g)
                        (u64 (g_total_allocated g + size)) (g_gc_threshold g) (g_gc_enabled g))
  end.

(** The walk of the list: what is behind [obj], if it is found. *)
Fixpoint gc_unlink (l : list Z) (obj : Z) : option (list Z) :=
  match l with
  | [] => None
  | a :: l => if a =? obj then Some l else cons a <$> gc_unlink l obj
  end.

Definition wubu_gc_free (g : gc_state) (ptr : Z) : option gc_state :=
  if ptr =? 0 then Some g else
  let obj := u64 (ptr - HDR) in
  match gc_unlink (g_alloc_list g) obj with
  | None => Some g
  | Some l =>
      o ← g_objs g !! obj;
      Some (Gc l (delete obj (g_objs g)) (g_roots g) (g_root_cap g) (u64 (g_total_allocated g - o_size o))
              (g_gc_threshold g) (g_gc_enabled g))
  end.

(** ** Control *)

Definition wubu_gc_enable (g : gc_state) (e : bool) : gc_state :=
  Gc (g_alloc_list g) (g_objs g) (g_roots g) (g_root_cap g) (g_total_allocated g) (g_gc_threshold g) e.
Definition wubu_gc_enabled (g : gc_state) : bool := g_gc_enabled g.
Definition wubu_gc_allocated (g : gc_state) : Z := g_total_allocated g.
Definition wubu_gc_set_threshold (g : gc_state) (bytes : Z) : gc_state :=
  Gc (g_alloc_list g) (g_objs g) (g_roots g) (g_root_cap g) (g_total_allocated g) bytes (g_gc_enabled g).
Definition wubu_gc_stats (g : gc_state) : Z * Z * Z :=
  (g_total_allocated g, g_gc_threshold g, Z.of_nat (length (g_roots g))).

(** Every object on the list is freed; the threshold and the switch stay. *)
Fixpoint free_list (l : list Z) (m : gmap Z GCObject) : option (gmap Z GCObject) :=
  match l with [] => Some m | a :: l => _ ← m !! a; free_list l (delete a m) end.
Definition wubu_gc_shutdown (g : gc_state) : option gc_state :=
  m ← free_list (g_alloc_list g) (g_objs g);
  Some (Gc [] m [] 0 0 (g_gc_threshold g) (g_gc_enabled g)).
