(* ===== verification/GcTheorems.v ===== *)
(** * Theorems of the garbage collector *)

From stdpp Require Import gmap.
From S2P Require Import Prelude Gc.
Open Scope Z_scope.

(** ** Books *)

Definition size_at (m : gmap Z GCObject) (a : Z) : Z := match m !! a with Some o => o_size o | None => 0 end.
Fixpoint sizes (m : gmap Z GCObject) (l : list Z) : Z := match l with [] => 0 | a :: l => size_at m a + sizes m l end.

(** The list names exactly the objects there are, none is marked between
    collections, and the counter is the sum of their sizes. *)
Record gc_ok (g : gc_state) : Prop := {
  go_nodup : NoDup (g_alloc_list g);
  go_dom : forall a, a ∈ g_alloc_list g <-> is_Some (g_objs g !! a);
  go_addr : forall a, a ∈ g_alloc_list g -> 0 < a /\ a + HDR < 2 ^ 64;
  go_obj : forall a o, g_objs g !! a = Some o -> o_marked o = 0 /\ 0 <= o_size o;
  go_total : g_total_allocated g = sizes (g_objs g) (g_alloc_list g);
  go_fits : g_total_allocated g < 2 ^ 64 }.

(** The object a root points to is compared with the newest one, and looked at if it
    does not lie below. *)
Definition hits (head : Z) (roots : list Z) (a : Z) : bool :=
  existsb (fun r => negb (r =? 0) && (u64 (r - HDR) =? a) && (head <=? a)) roots.

Definition roots_live (g : gc_state) : Prop :=
  forall r, r ∈ g_roots g -> r <> 0 -> list_head (g_alloc_list g) <= u64 (r - HDR) -> u64 (r - HDR) ∈ g_alloc_list g.

Lemma sizes_ext m m' l : (forall a, a ∈ l -> size_at m a = size_at m' a) -> sizes m l = sizes m' l.
Proof. induction l as [|a l IH]; intros H; [done|]. cbn. rewrite H by set_solver. by rewrite IH by set_solver. Qed.

Lemma sizes_nonneg m l : (forall a o, m !! a = Some o -> 0 <= o_size o) -> 0 <= sizes m l.
Proof. intros H. induction l as [|a l IH]; cbn; [lia|]. unfold size_at. destruct (m !! a) eqn:E; [apply H in E|]; lia. Qed.

(** ** Mark *)

Definition mark (h : bool) (o : GCObject) : GCObject :=
  if h && (o_marked o =? 0) then Obj (o_size o) 1 (o_pinned o) else o.

Lemma mark_roots_spec head roots : forall m,
  (forall r, r ∈ roots -> r <> 0 -> head <= u64 (r - HDR) -> is_Some (m !! u64 (r - HDR))) ->
  exists m', gc_mark_roots head m roots = Some m' /\ forall a, m' !! a = mark (hits head roots a) <$> m !! a.
Proof.
  induction roots as [|r roots IH]; intros m Hl; cbn [gc_mark_roots].
  { exists m. split; [done|]. intros a. cbn. by destruct (m !! a). }
  unfold gc_mark_ptr at 1. destruct (Z.eqb_spec r 0) as [->|Hr].
  { cbn [mbind option_bind]. destruct (IH m) as (m' & -> & Hm'); [intros; apply Hl; set_solver|]. exists m'. split; [done|].
    intros a. rewrite Hm'. done. }
  destruct (Z.ltb_spec (u64 (r - HDR)) head) as [Hlt|Hge].
  { cbn [mbind option_bind]. destruct (IH m) as (m' & -> & Hm'); [intros; apply Hl; set_solver|]. exists m'. split; [done|].
    intros a. rewrite Hm'. unfold hits. cbn [existsb]. destruct (Z.eqb_spec (u64 (r - HDR)) a) as [<-|]; [|by rewrite andb_false_r].
    rewrite (proj2 (Z.leb_gt _ _)) by done. by rewrite andb_false_r. }
  destruct (Hl r) as [o Ho]; [set_solver|done|done|]. rewrite Ho. cbn [mbind option_bind].
  set (m1 := if o_marked o =? 0 then _ else m).
  assert (forall a, m1 !! a = mark (negb (r =? 0) && (u64 (r - HDR) =? a) && (head <=? a)) <$> m !! a) as Hm1.
  { intros a. rewrite (proj2 (Z.eqb_neq r 0)) by done. cbn [negb andb]. unfold m1.
    destruct (Z.eqb_spec (u64 (r - HDR)) a) as [<-|Hne].
    - rewrite (proj2 (Z.leb_le _ _)) by done. rewrite Ho. cbn. unfold mark. cbn. destruct (o_marked o =? 0); [|done].
      by rewrite lookup_insert_eq.
    - cbn [andb]. destruct (o_marked o =? 0); [rewrite lookup_insert_ne by done|]; by destruct (m !! a). }
  destruct (IH m1) as (m' & -> & Hm').
  { intros q Hq Hq0 Hqh. rewrite Hm1. destruct (Hl q) as [x ->]; [set_solver|done|done|]. eauto. }
  exists m'. split; [done|]. intros a. rewrite Hm', Hm1. unfold hits. cbn [existsb].
  destruct (m !! a) as [x|]; [|done]. cbn. f_equal. set (h := _ && _ && _). set (h' := existsb _ _).
  unfold mark. destruct h, h', (o_marked x =? 0) eqn:E; cbn; rewrite ?E; done.
Qed.

(** ** Sweep *)

Definition kept_obj (o : GCObject) : bool := negb (o_marked o =? 0) || negb (o_pinned o =? 0).
Definition kept (m : gmap Z GCObject) (a : Z) : bool := match m !! a with Some o => kept_obj o | None => false end.
Definition unmark (o : GCObject) : GCObject := Obj (o_size o) 0 (o_pinned o).

(** What does not depend on the object at [a]. *)
Lemma other_objects m a l m1 :
  a ∉ l -> (forall b, b <> a -> m1 !! b = m !! b) ->
  sizes m1 l = sizes m l /\ List.filter (kept m1) l = List.filter (kept m) l /\
  sizes m1 (List.filter (kept m) l) = sizes m (List.filter (kept m) l) /\ forall b, b <> a -> kept m1 b = kept m b.
Proof.
  intros Ha Hm1. assert (forall b, b ∈ l -> m1 !! b = m !! b) as Hb by (intros b Hb; apply Hm1; set_solver). split_and!.
  - apply sizes_ext. intros b Hbl. unfold size_at. by rewrite Hb.
  - apply List.filter_ext_in. intros b Hbl. apply list_elem_of_In in Hbl. unfold kept. by rewrite Hb.
  - apply sizes_ext. intros b Hbl. apply list_elem_of_In, List.filter_In in Hbl as [Hbl _]. apply list_elem_of_In in Hbl.
    unfold size_at. by rewrite Hb.
  - intros b Hne. unfold kept. by rewrite Hm1.
Qed.

Lemma sweep_spec l : forall m total,
  NoDup l -> (forall a, a ∈ l -> is_Some (m !! a)) -> (forall a o, m !! a = Some o -> 0 <= o_size o) ->
  sizes m l <= total < 2 ^ 64 ->
  exists m', gc_sweep l m total =
      Some (List.filter (kept m) l, m', total - sizes m l + sizes m (List.filter (kept m) l)) /\
    forall a, m' !! a = if decide (a ∈ l) then (if kept m a then unmark <$> m !! a else None) else m !! a.
Proof.
  induction l as [|a l IH]; intros m total Hnd Hl Hsz Ht; cbn [gc_sweep].
  { exists m. cbn. split; [do 2 f_equal; lia|]. intros a. by destruct (decide (a ∈ [])) as [?%not_elem_of_nil|]. }
  apply NoDup_cons in Hnd as [Ha Hnd]. destruct (Hl a) as [o Ho]; [set_solver|]. rewrite Ho. cbn [mbind option_bind].
  assert (size_at m a = o_size o) as Hso by (unfold size_at; by rewrite Ho).
  pose proof (Hsz a o Ho) as Hs0. pose proof (sizes_nonneg m l Hsz) as Hsl. cbn [sizes] in Ht.
  cbn [List.filter]. assert (kept m a = kept_obj o) as Hk by (unfold kept; by rewrite Ho). rewrite Hk.
  pose proof (fun m1 => other_objects m a l m1 Ha) as Hsame.
  change (negb (o_marked o =? 0) || negb (o_pinned o =? 0)) with (kept_obj o). destruct (kept_obj o) eqn:Hko.
  - fold (unmark o). set (m1 := <[a := unmark o]> m).
    destruct (Hsame m1) as (E1 & E2 & E3 & E4); [intros b Hb; apply lookup_insert_ne; done|].
    destruct (IH m1 total) as (m' & -> & Hm'); [done| | |lia|].
    { intros b Hb. unfold m1. rewrite lookup_insert_ne by set_solver. apply Hl. set_solver. }
    { intros b x. unfold m1. rewrite lookup_insert. case_decide; [intros [= <-]; exact Hs0|apply Hsz]. }
    exists m'. rewrite E1, E2, E3. cbn [mbind option_bind sizes]. split; [do 2 f_equal; lia|]. intros b. rewrite Hm'.
    destruct (decide (b = a)) as [->|Hne].
    + rewrite decide_False by done. rewrite decide_True by set_solver. rewrite Hk. unfold m1. by rewrite lookup_insert_eq, Ho.
    + rewrite (E4 b Hne). unfold m1. rewrite lookup_insert_ne by done. destruct (decide (b ∈ l)).
      * by rewrite decide_True by set_solver.
      * by rewrite decide_False by set_solver.
  - set (m1 := delete a m). destruct (Hsame m1) as (E1 & E2 & E3 & E4); [intros b Hb; by apply lookup_delete_ne|].
    rewrite wrap_id by (unfold fits; lia).
    destruct (IH m1 (total - o_size o)) as (m' & -> & Hm'); [done| | |lia|].
    { intros b Hb. unfold m1. rewrite lookup_delete_ne by set_solver. apply Hl. set_solver. }
    { intros b x. unfold m1. intros [_ Hx]%lookup_delete_Some. eauto. }
    exists m'. rewrite E1, E2, E3. cbn [sizes]. split; [do 2 f_equal; lia|]. intros b. rewrite Hm'.
    destruct (decide (b = a)) as [->|Hne].
    + rewrite decide_False by done. rewrite decide_True by set_solver. rewrite Hk. unfold m1. by rewrite lookup_delete_eq.
    + rewrite (E4 b Hne). unfold m1. rewrite lookup_delete_ne by done. destruct (decide (b ∈ l)).
      * by rewrite decide_True by set_solver.
      * by rewrite decide_False by set_solver.
Qed.

(** ** Collection *)

(** What a collection keeps. *)
Definition survives (g : gc_state) (a : Z) : bool :=
  hits (list_head (g_alloc_list g)) (g_roots g) a ||
  match g_objs g !! a with Some o => negb (o_pinned o =? 0) | None => false end.

Lemma elem_filter {A} (f : A -> bool) l x : x ∈ List.filter f l <-> x ∈ l /\ f x = true.
Proof. by rewrite !list_elem_of_In, List.filter_In. Qed.

Lemma nodup_filter {A} (f : A -> bool) (l : list A) : NoDup l -> NoDup (List.filter f l).
Proof.
  induction 1 as [|x l Hx _ IH]; cbn; [constructor|]. destruct (f x); [|done]. constructor; [|done].
  by intros [? _]%elem_filter.
Qed.

Lemma filter_sublist_of {A} (f : A -> bool) (l : list A) : List.filter f l `sublist_of` l.
Proof. induction l as [|x l IH]; cbn; [constructor|]. destruct (f x); by constructor. Qed.

Lemma sizes_filter m f l : (forall a o, m !! a = Some o -> 0 <= o_size o) -> sizes m (List.filter f l) <= sizes m l.
Proof.
  intros H. induction l as [|a l IH]; cbn [List.filter sizes]; [lia|]. destruct (f a); cbn [sizes]; [lia|].
  unfold size_at. destruct (m !! a) eqn:E; [apply H in E|]; lia.
Qed.

Lemma collect_spec g :
  gc_ok g -> roots_live g -> g_gc_enabled g = true ->
  exists g', wubu_gc_collect g = Some g' /\ gc_ok g' /\ g_alloc_list g' = List.filter (survives g) (g_alloc_list g) /\
    (forall a, a ∈ g_alloc_list g' -> g_objs g' !! a = g_objs g !! a) /\
    g_roots g' = g_roots g /\ g_gc_enabled g' = true /\ g_gc_threshold g' = new_threshold (g_total_allocated g').
Proof.
  intros Hok Hrl He. unfold wubu_gc_collect. rewrite He. cbn [negb].
  destruct (mark_roots_spec (list_head (g_alloc_list g)) (g_roots g) (g_objs g)) as (m1 & -> & Hm1).
  { intros r Hr Hr0 Hh. apply Hok. by apply Hrl. }
  cbn [mbind option_bind].
  assert (forall a, size_at m1 a = size_at (g_objs g) a) as Hsa.
  { intros a. unfold size_at. rewrite Hm1. destruct (g_objs g !! a); [|done]. cbn. unfold mark. by case_match. }
  assert (forall a o, m1 !! a = Some o -> 0 <= o_size o) as Hs1.
  { intros a o Ho. rewrite Hm1 in Ho. destruct (g_objs g !! a) as [x|] eqn:E; [|done]. injection Ho as <-.
    apply Hok in E as [_ E]. unfold mark. by case_match. }
  assert (forall a, a ∈ g_alloc_list g -> kept m1 a = survives g a) as Hkept.
  { intros a Ha. apply Hok in Ha as [o Ho]. unfold kept, survives. rewrite Hm1, Ho. cbn.
    destruct (go_obj g Hok a o Ho) as [Hmk _]. unfold kept_obj, mark. rewrite Hmk. by destruct (hits _ _ a); cbn; rewrite ?Hmk. }
  pose proof (go_total g Hok) as Ht. pose proof (go_fits g Hok) as Hf.
  assert (sizes m1 (g_alloc_list g) = g_total_allocated g) as Hsum by (rewrite Ht; by apply sizes_ext).
  destruct (sweep_spec (g_alloc_list g) m1 (g_total_allocated g)) as (m2 & E & Hm2); [apply Hok| |done|lia|].
  { intros a Ha. rewrite Hm1. apply Hok in Ha as [o ->]. eauto. }
  assert (List.filter (kept m1) (g_alloc_list g) = List.filter (survives g) (g_alloc_list g)) as Hfl.
  { apply List.filter_ext_in. intros a Ha. by apply Hkept, list_elem_of_In. }
  rewrite E, Hfl. cbn [mbind option_bind]. eexists. split; [reflexivity|].
  assert (forall a, a ∈ List.filter (survives g) (g_alloc_list g) -> m2 !! a = g_objs g !! a) as Hkeep.
  { intros a [Ha Hs]%elem_filter. rewrite Hm2, decide_True by done. rewrite (Hkept a Ha), Hs, Hm1.
    destruct (g_objs g !! a) as [o|] eqn:Eo; [|done]. cbn. f_equal. destruct (go_obj g Hok a o Eo) as [Hmk _].
    unfold unmark, mark. destruct o as [sz mk pn]. cbn in *. subst mk. by case_match. }
  split; [|done]. pose proof (sizes_filter m1 (survives g) (g_alloc_list g) Hs1) as Hle.
  split; cbn [g_alloc_list g_objs g_total_allocated].
  - apply nodup_filter, Hok.
  - intros a. split.
    + intros Ha. rewrite Hkeep by done. apply elem_filter in Ha as [Ha _]. by apply Hok.
    + rewrite Hm2. case_decide as Ha.
      * rewrite (Hkept a Ha). destruct (survives g a) eqn:Es; [|by intros [? [=]]]. intros _. by apply elem_filter.
      * rewrite Hm1. intros [o Ho]. destruct (g_objs g !! a) eqn:Eo; [|done]. destruct Ha. apply Hok. eauto.
  - intros a [Ha _]%elem_filter. by apply Hok.
  - intros a o Ho. destruct (decide (a ∈ List.filter (survives g) (g_alloc_list g))) as [Ha|Ha].
    + rewrite Hkeep in Ho by done. by apply Hok in Ho.
    + exfalso. apply Ha. rewrite elem_filter. rewrite Hm2 in Ho. case_decide as Hal.
      * rewrite (Hkept a Hal) in Ho. by destruct (survives g a).
      * rewrite Hm1 in Ho. destruct (g_objs g !! a) eqn:Eo; [|done]. destruct Hal. apply Hok. eauto.
  - rewrite Hsum, Z.sub_diag, Z.add_0_l. apply sizes_ext. intros a Ha. rewrite Hsa. unfold size_at. by rewrite Hkeep.
  - lia.
Qed.

(** ** The other operations *)

Definition without (x : Z) (l : list Z) : list Z := List.filter (fun a => negb (a =? x)) l.

Lemma without_absent x l : x ∉ l -> without x l = l.
Proof.
  intros Hx. apply List.forallb_filter_id, List.forallb_forall. intros b Hb. apply list_elem_of_In in Hb.
  by destruct (Z.eqb_spec b x) as [->|].
Qed.

Lemma gc_unlink_in l x : NoDup l -> x ∈ l -> gc_unlink l x = Some (without x l).
Proof.
  induction 1 as [|a l Ha Hnd IH]; [by intros ?%not_elem_of_nil|]. intros Hx. unfold without. cbn [gc_unlink List.filter].
  destruct (Z.eqb_spec a x) as [->|Hne]; cbn [negb]; fold (without x l); [by rewrite (without_absent x l Ha)|]. by rewrite IH by set_solver.
Qed.

Lemma gc_unlink_absent l x : x ∉ l -> gc_unlink l x = None.
Proof. induction l as [|a l IH]; cbn; [done|]. intros Hx. destruct (Z.eqb_spec a x); [set_solver|]. by rewrite IH by set_solver. Qed.

Lemma sizes_without m l x :
  NoDup l -> x ∈ l -> sizes m (without x l) = sizes m l - size_at m x.
Proof.
  induction 1 as [|a l Ha Hnd IH]; [by intros ?%not_elem_of_nil|]. intros Hx. unfold without. cbn [List.filter].
  destruct (Z.eqb_spec a x) as [->|Hne]; cbn [negb sizes].
  - fold (without x l). rewrite without_absent by done. lia.
  - fold (without x l). rewrite IH by set_solver. lia.
Qed.

Lemma free_spec g ptr :
  gc_ok g -> exists g', wubu_gc_free g ptr = Some g' /\ gc_ok g' /\
    g_alloc_list g' = (if ptr =? 0 then g_alloc_list g else without (u64 (ptr - HDR)) (g_alloc_list g)).
Proof.
  intros Hok. unfold wubu_gc_free. destruct (Z.eqb_spec ptr 0); [by exists g|]. set (x := u64 (ptr - HDR)).
  destruct (decide (x ∈ g_alloc_list g)) as [Hx|Hx].
  2:{ rewrite gc_unlink_absent by done. exists g. split_and!; [done|done|]. by rewrite without_absent. }
  rewrite gc_unlink_in by (done || apply Hok). pose proof Hx as [o Ho]%Hok. rewrite Ho. cbn [mbind option_bind].
  eexists. split; [reflexivity|]. split; [|done].
  assert (size_at (g_objs g) x = o_size o) as Hs by (unfold size_at; by rewrite Ho).
  pose proof (sizes_without (g_objs g) _ x (go_nodup g Hok) Hx) as Hw. pose proof (go_total g Hok) as Ht. pose proof (go_fits g Hok).
  assert (forall a o, g_objs g !! a = Some o -> 0 <= o_size o) as Hpos by (intros a q Hq; by apply Hok in Hq as [_ ?]).
  pose proof (Hpos x o Ho). pose proof (sizes_nonneg (g_objs g) (without x (g_alloc_list g)) Hpos).
  rewrite wrap_id by (unfold fits; lia). split; cbn [g_alloc_list g_objs g_total_allocated].
  - apply nodup_filter, Hok.
  - intros a. unfold without. rewrite elem_filter, negb_true_iff, Z.eqb_neq. rewrite (go_dom g Hok a). unfold is_Some.
    setoid_rewrite lookup_delete_Some. split; [intros [[q Hq] Hne]; eauto|intros (q & Hne & Hq); eauto].
  - intros a [Ha _]%elem_filter. by apply Hok.
  - intros a q [_ Hq]%lookup_delete_Some. by apply Hok in Hq.
  - rewrite Ht, <- Hs, <- Hw. apply sizes_ext. intros a [_ Ha%negb_true_iff%Z.eqb_neq]%elem_filter. unfold size_at.
    by rewrite lookup_delete_ne.
  - lia.
Qed.

Lemma maybe_collect_spec g size :
  gc_ok g -> roots_live g -> exists g1, maybe_collect g size = Some g1 /\ gc_ok g1 /\ g_roots g1 = g_roots g /\
    g_gc_enabled g1 = g_gc_enabled g.
Proof.
  intros Hok Hrl. unfold maybe_collect. destruct (g_gc_enabled g) eqn:He; cbn [andb]; [|by exists g].
  case_match; [|by exists g]. destruct (collect_spec g Hok Hrl He) as (g1 & E & Hok1 & _ & _ & Hr & Hen & _). by exists g1.
Qed.

(** What [malloc] promises: an address of its own, in a space that holds everything. *)
Definition malloc_ok (g : gc_state) (size a : Z) : Prop :=
  a ∉ g_alloc_list g /\ 0 < a /\ a + HDR < 2 ^ 64 /\ g_total_allocated g + size < 2 ^ 64.

Lemma align16_nonneg size : 0 <= align16 size.
Proof. unfold align16. apply Z.land_nonneg. left. apply (wrap_fits 64 (size + 15)). lia. Qed.

Lemma alloc_spec g size got :
  gc_ok g -> roots_live g -> size <> 0 ->
  (forall g1 a, maybe_collect g (align16 size) = Some g1 -> got = Some a -> malloc_ok g1 (align16 size) a) ->
  exists g1 g', maybe_collect g (align16 size) = Some g1 /\
    wubu_gc_alloc g size got = Some (match got with Some a => a + HDR | None => 0 end, g') /\ gc_ok g' /\
    g_alloc_list g' = match got with Some a => a :: g_alloc_list g1 | None => g_alloc_list g1 end.
Proof.
  intros Hok Hrl Hsz Hm. destruct (maybe_collect_spec g (align16 size) Hok Hrl) as (g1 & E & Hok1 & _).
  unfold wubu_gc_alloc. rewrite (proj2 (Z.eqb_neq size 0)) by done. cbv zeta. rewrite E. cbn [mbind option_bind].
  destruct got as [a|]; [|by exists g1, g1]. eexists g1, _. split_and!; [done|reflexivity| |done].
  destruct (Hm g1 a E eq_refl) as (Hf & Ha & Hb & Ht). pose proof (align16_nonneg size) as Hp.
  pose proof (go_total g1 Hok1) as Hg. assert (0 <= sizes (g_objs g1) (g_alloc_list g1)) as Hs.
  { apply sizes_nonneg. intros b o Ho. by apply Hok1 in Ho as [_ ?]. }
  rewrite wrap_id by (unfold fits; lia). split; cbn [g_alloc_list g_objs g_total_allocated sizes].
  - constructor; [done|apply Hok1].
  - intros b. rewrite lookup_insert, elem_of_cons, (go_dom g1 Hok1 b). case_decide; [subst; split; eauto|].
    split; [intros [->|]; done|auto].
  - intros b [->|Hbl]%elem_of_cons; [done|by apply Hok1].
  - intros b o. rewrite lookup_insert. case_decide; [intros [= <-]; done|apply Hok1].
  - unfold size_at at 1. rewrite lookup_insert_eq. cbn [o_size]. rewrite (sizes_ext _ (g_objs g1)); [lia|].
    intros b Hbl. unfold size_at. rewrite lookup_insert_ne by set_solver. done.
  - lia.
Qed.

Lemma put_roots_ok g r cap : gc_ok g -> gc_ok (put_roots g r cap).
Proof. by intros []; split. Qed.

Lemma shutdown_spec g : gc_ok g -> exists g', wubu_gc_shutdown g = Some g' /\ gc_ok g' /\ g_alloc_list g' = [] /\ g_objs g' = ∅.
Proof.
  intros Hok. unfold wubu_gc_shutdown.
  assert (free_list (g_alloc_list g) (g_objs g) = Some ∅) as ->.
  { pose proof (go_nodup g Hok) as Hnd. pose proof (go_dom g Hok) as Hd. revert Hd. generalize (g_objs g). clear Hok.
    induction Hnd as [|a l Ha Hnd IH]; intros m Hd; cbn [free_list].
    - f_equal. apply map_empty. intros b. apply eq_None_not_Some. rewrite <- Hd. apply not_elem_of_nil.
    - destruct (proj1 (Hd a)) as [o Ho]; [set_solver|]. rewrite Ho. cbn [mbind option_bind]. apply IH.
      intros b. destruct (decide (b = a)) as [->|Hne].
      + rewrite lookup_delete_eq. split; [done|by intros [? ?]].
      + rewrite lookup_delete_ne by done. rewrite <- Hd. set_solver. }
  cbn [mbind option_bind]. eexists. split; [reflexivity|]. split; [|done].
  split; cbn; [constructor|intros a; rewrite lookup_empty; split; [by intros ?%not_elem_of_nil|by intros [? ?]]
    |by intros a ?%not_elem_of_nil|intros a o; by rewrite lookup_empty|done|lia].
Qed.

(** ** Theorems *)

(** An object that a root points to. *)
Definition rooted (g : gc_state) (a : Z) : Prop := exists r, r ∈ g_roots g /\ r <> 0 /\ u64 (r - HDR) = a.

(** The condition under which the collector keeps the promise of its header: roots
    point to objects, and to none whose address is below that of the newest one
    (the marking skips those: [gc_frees_rooted_object]). *)
Definition roots_reachable (g : gc_state) : Prop :=
  forall a, rooted g a -> a ∈ g_alloc_list g /\ list_head (g_alloc_list g) <= a.

Lemma survives_spec g a :
  roots_reachable g -> a ∈ g_alloc_list g ->
  survives g a = true <-> rooted g a \/ exists o, g_objs g !! a = Some o /\ o_pinned o <> 0.
Proof.
  intros Hr Ha. unfold survives. rewrite orb_true_iff. unfold hits. rewrite List.existsb_exists.
  assert ((exists x, In x (g_roots g) /\ negb (x =? 0) && (u64 (x - HDR) =? a) && (list_head (g_alloc_list g) <=? a) = true) <-> rooted g a) as ->.
  { split.
    - intros (r & Hin%list_elem_of_In & [[H0%negb_true_iff%Z.eqb_neq H1%Z.eqb_eq]%andb_true_iff _]%andb_true_iff). by exists r.
    - intros Hro. pose proof (Hr a Hro) as [_ Hh]. destruct Hro as (r & Hin & H0 & H1). exists r. split; [by apply list_elem_of_In|].
      by rewrite (proj2 (Z.eqb_neq r 0)), (proj2 (Z.eqb_eq _ _) H1), (proj2 (Z.leb_le _ _)). }
  destruct (g_objs g !! a) as [o|].
  - rewrite negb_true_iff, Z.eqb_neq. naive_solver.
  - naive_solver.
Qed.


(** Every operation keeps the books: allocation (with the collection
    it may start, and whether or not [malloc] succeeds), freeing any pointer, changing
    roots and shutting down return, and afterwards the list again names exactly the
    objects there are, none marked, with the counter the sum of their sizes;
    shutting down leaves none. *)
Theorem gc_operations_keep_books g :
  gc_ok g ->
  (forall ptr, exists g', wubu_gc_free g ptr = Some g' /\ gc_ok g') /\
  (forall ptr grown, gc_ok (wubu_gc_root_add g ptr grown) /\ gc_ok (wubu_gc_root_remove g ptr)) /\
  (exists g', wubu_gc_shutdown g = Some g' /\ gc_ok g' /\ g_objs g' = ∅ /\ wubu_gc_allocated g' = 0) /\
  (roots_live g -> forall size got, size <> 0 ->
    (forall g1 a, maybe_collect g (align16 size) = Some g1 -> got = Some a -> malloc_ok g1 (align16 size) a) ->
    exists g', wubu_gc_alloc g size got = Some (match got with Some a => a + HDR | None => 0 end, g') /\ gc_ok g').
Proof.
  intros Hok. split_and!.
  - intros ptr. destruct (free_spec g ptr Hok) as (g' & E & Hok' & _). eauto.
  - intros ptr grown. split; [unfold wubu_gc_root_add|unfold wubu_gc_root_remove]; repeat case_match; auto using put_roots_ok.
  - destruct (shutdown_spec g Hok) as (g' & E & Hok' & Hl & Ho). exists g'. split_and!; try done. unfold wubu_gc_allocated.
    by rewrite (go_total g' Hok'), Hl.
  - intros Hrl size got Hs Hm. destruct (alloc_spec g size got Hok Hrl Hs Hm) as (g1 & g' & _ & E & Hok' & _). eauto.
Qed.

(** ** An applet with two objects *)

Definition obj (size : Z) : GCObject := Obj size 0 0.

(** The newer object lies lower, and the older one is rooted. *)
Definition two : gc_state := Gc [2048; 4096] (<[2048 := obj 32]> (<[4096 := obj 64]> ∅)) [4096 + HDR] 32 96 65536 true.

Lemma two_ok : gc_ok two.
Proof.
  split; cbn [two g_alloc_list g_objs g_total_allocated].
  - apply (bool_decide_unpack _). vm_compute. exact I.
  - intros a. rewrite lookup_insert. case_decide; [subst; split; [eauto|set_solver]|].
    rewrite lookup_insert. case_decide; [subst; split; [eauto|set_solver]|]. rewrite lookup_empty.
    split; [set_solver|by intros [? ?]].
  - unfold HDR. intros a [->|[->|[]%not_elem_of_nil]%elem_of_cons]%elem_of_cons; lia.
  - intros a o. rewrite lookup_insert. case_decide; [intros [= <-]; cbn; lia|]. rewrite lookup_insert.
    case_decide; [intros [= <-]; cbn; lia|]. by rewrite lookup_empty.
  - reflexivity.
  - lia.
Qed.

Lemma two_roots : roots_live two.
Proof.
  intros r [->|[]%not_elem_of_nil]%elem_of_cons _ _. change (u64 (4096 + HDR - HDR)) with 4096.
  apply (bool_decide_unpack _). vm_compute. exact I.
Qed.

Lemma two_reachable : roots_reachable two.
Proof.
  intros a (r & [->|[]%not_elem_of_nil]%elem_of_cons & _ & <-). change (u64 (4096 + HDR - HDR)) with 4096.
  split; [apply (bool_decide_unpack _); vm_compute; exact I|]. vm_compute. discriminate.
Qed.


Lemma gc_operations_keep_books_witness :
  exists g1 g2, wubu_gc_free two (2048 + HDR) = Some g1 /\ gc_ok g1 /\ wubu_gc_alloc two 100 (Some 8192) = Some (8192 + HDR, g2) /\ gc_ok g2.
Proof.
  destruct (gc_operations_keep_books two two_ok) as (Hf & _ & _ & Ha). destruct (Hf (2048 + HDR)) as (g1 & E1 & H1).
  destruct (Ha two_roots 100 (Some 8192)) as (g2 & E2 & H2); [done| |by exists g1, g2].
  intros g a Hg [= <-]. vm_compute in Hg. injection Hg as <-. unfold malloc_ok, HDR. cbn [g_alloc_list g_total_allocated].
  change (align16 100) with 112. split_and!; [|lia|lia|lia]. apply (bool_decide_unpack _). vm_compute. exact I.
Defined.

(** ** Departures *)

(** A rooted object that lies below the newest one is freed. *)
Lemma gc_frees_rooted_object :
  let g := Gc [4096; 2048] (<[2048 := obj 32]> (<[4096 := obj 64]> ∅)) [2048 + HDR] 32 96 65536 true in
  exists g', wubu_gc_collect g = Some g' /\ g_alloc_list g' = [] /\ g_roots g' = [2048 + HDR].
Proof. eexists. split; [vm_compute; reflexivity|]. split; reflexivity. Qed.

(** A root that cannot be recorded is dropped without a word. *)
Lemma gc_root_add_may_fail : wubu_gc_root_add gc_start 4096 false = gc_start.
Proof. reflexivity. Qed.

(** Freeing a rooted object leaves the root, through which the next collection
    writes. *)
Lemma gc_free_leaves_root :
  let g := Gc [2048] (<[2048 := obj 32]> ∅) [2048 + HDR] 32 32 65536 true in
  match wubu_gc_free g (2048 + HDR) with Some g' => wubu_gc_collect g' = None | None => False end.
Proof. vm_compute. reflexivity. Qed.

(** A request of close to 2^64 bytes is rounded to none and granted. *)
Lemma gc_alloc_rounds_to_nothing : align16 (2 ^ 64 - 1) = 0 /\
  exists g, wubu_gc_alloc gc_start (2 ^ 64 - 1) (Some 4096) = Some (4096 + HDR, g) /\ g_total_allocated g = 0.
Proof. split; [reflexivity|]. eexists. split; [vm_compute; reflexivity|reflexivity]. Qed.
