(* ===== verification/NtSd.v ===== *)
(** * Security descriptors of the NT layer

    [runtime/wubu_nt_sd.c] and [wubu_nt_sd.h]: the wire format of descriptors and
    access control lists, the generic mapping of each object type, and the access
    check.  Descriptors are lists of bytes from their first one on; [None] is a read
    behind their end. *)

From S2P Require Import Prelude.
Open Scope Z_scope.

(** [nt_object_type_t] *)
Inductive nt_object_type : Set :=
| TYPE_UNKNOWN | TYPE_PROCESS | TYPE_THREAD | TYPE_FILE | TYPE_DIRECTORY | TYPE_SYMBOLIC_LINK | TYPE_EVENT | TYPE_MUTANT
| TYPE_SEMAPHORE | TYPE_TIMER | TYPE_KEY | TYPE_KEYED_EVENT | TYPE_SECTION | TYPE_JOB | TYPE_TOKEN | TYPE_PORT
| TYPE_WAITABLE_PORT | TYPE_DEBUG_OBJECT | TYPE_PROFILE | TYPE_TRANSACTION | TYPE_TRANSACTION_MANAGER
| TYPE_RESOURCE_MANAGER | TYPE_ENLISTMENT | TYPE_TM | TYPE_IO_COMPLETION | TYPE_EVENT_PAIR | TYPE_WORK_ITEM.

Definition WUBU_SE_DACL_PRESENT : Z := 0x0004.
Definition WUBU_SE_SELF_RELATIVE : Z := 0x0800.
Definition WUBU_GENERIC_READ : Z := 0x80000000.
Definition WUBU_GENERIC_WRITE : Z := 0x40000000.
Definition WUBU_GENERIC_EXECUTE : Z := 0x20000000.
Definition WUBU_GENERIC_ALL : Z := 0x10000000.
Definition WUBU_NT_GENERIC_ALL_MASK : Z := 0xF0000000.
Definition WUBU_NT_RIGHT_WRITE_ANY : Z := 0x002D0176.
Definition WUBU_NT_STATUS_SUCCESS : Z := 0.
Definition WUBU_NT_STATUS_ACCESS_DENIED : Z := 0xC0000022.
Definition WUBU_NT_SD_MAX_BYTES : Z := 4096.
Definition WUBU_NT_SIDSET_MAX : nat := 64.
Definition WUBU_NT_ACE_MAX : nat := 32.

(** ** Sets of identifiers *)

Record wubu_nt_sidset := Sidset { owner_sid : Z; mic : Z; sids : list Z }.

Definition wubu_nt_sidset_reset (s : wubu_nt_sidset) : wubu_nt_sidset := Sidset 0 0 [].
Definition wubu_nt_sidset_add (s : wubu_nt_sidset) (sid : Z) : bool * wubu_nt_sidset :=
  if Nat.leb WUBU_NT_SIDSET_MAX (length (sids s)) then (false, s)
  else (true, Sidset (owner_sid s) (mic s) (sids s ++ [sid])).
Definition wubu_nt_sidset_has (s : wubu_nt_sidset) (sid : Z) : bool := existsb (fun x => x =? sid) (sids s).

(** ** Entries and descriptors *)

Inductive wubu_nt_ace_kind : Set := ALLOW_OWNER | ALLOW_GROUP | DENY_OWNER | DENY_GROUP.
#[export] Instance ace_kind_dec : EqDecision wubu_nt_ace_kind.
Proof. solve_decision. Defined.

Record wubu_nt_ace := Ace { a_kind : wubu_nt_ace_kind; a_sid : Z; a_rights : Z }.
Record wubu_nt_dacl_view := Dacl { d_present : bool; aces : list wubu_nt_ace }.

Record wubu_nt_sd_view := Sd {
  control : Z;
  dacl : option nat;          (* the offset of the list in the descriptor *)
  dacl_present : bool;
  label_mic : Z;
  no_write_up : bool;
  dacl_view : wubu_nt_dacl_view }.

Record wubu_nt_access_result := Result { status : Z; granted : Z; missing : Z; denied_ace : bool; mic_failed : bool }.

Definition u16_at (m : list Z) (off : nat) : option Z := le_dec <$> rd_bytes m off 2.
Definition u32_at (m : list Z) (off : nat) : option Z := le_dec <$> rd_bytes m off 4.

(** ** The wire format *)

Definition kind_of_type (t : Z) : wubu_nt_ace_kind :=
  if t =? 0 then ALLOW_OWNER else if t =? 1 then DENY_OWNER else if t =? 2 then ALLOW_OWNER else
  if t =? 9 then ALLOW_OWNER else if t =? 17 then ALLOW_GROUP else if t =? 16 then DENY_GROUP else ALLOW_GROUP.

(** The walk over the entries, [k] rounds before the count is reached. *)
Fixpoint ace_loop (k : nat) (acl : list Z) (acl_size : Z) (cur : nat) (l : list wubu_nt_ace) : option (list wubu_nt_ace) :=
  match k with
  | O => Some l
  | S k =>
      if Nat.leb WUBU_NT_ACE_MAX (length l) then Some l else
      if Z.of_nat cur + 8 >? acl_size then Some l else
      ace_type ← rd acl cur;
      ace_size ← u16_at acl (cur + 2);
      if ace_size <? 12 then Some l else
      if Z.of_nat cur + ace_size >? acl_size then Some l else
      sid ← u32_at acl (cur + 4);
      rights ← u32_at acl (cur + 8);
      ace_loop k acl acl_size (cur + Z.to_nat ace_size) (l ++ [Ace (kind_of_type ace_type) sid rights])
  end.

Definition no_dacl : wubu_nt_dacl_view := Dacl false [].

Definition wubu_nt_dacl_decode (acl : list Z) : option wubu_nt_dacl_view :=
  rev ← rd acl 0;
  if negb (rev =? 2) && negb (rev =? 3) && negb (rev =? 4) then Some no_dacl else
  acl_size ← u16_at acl 2;
  ace_count ← u16_at acl 4;
  if acl_size >? WUBU_NT_SD_MAX_BYTES then Some no_dacl else
  l ← ace_loop (Z.to_nat ace_count) acl acl_size 8 [];
  Some (Dacl true l).

Definition blank_sd : wubu_nt_sd_view := Sd 0 None false 0 false no_dacl.

Definition has_bits (x flag : Z) : bool := negb (Z.land x flag =? 0).

Definition wubu_nt_sd_read (p : list Z) : option (bool * wubu_nt_sd_view) :=
  rev ← rd p 0;
  if negb (rev =? 1) then Some (false, blank_sd) else
  c ← u16_at p 2;
  if has_bits c WUBU_SE_SELF_RELATIVE && negb (has_bits c WUBU_SE_DACL_PRESENT) then Some (true, Sd c None false 0 false no_dacl) else
  dacl_off ← u32_at p 8;
  if negb (has_bits c WUBU_SE_DACL_PRESENT) || (dacl_off =? 0) then Some (true, Sd c None false 0 false no_dacl) else
  if dacl_off >? WUBU_NT_SD_MAX_BYTES then Some (false, blank_sd) else
  v ← wubu_nt_dacl_decode (drop (Z.to_nat dacl_off) p);
  Some (true, Sd c (Some (Z.to_nat dacl_off)) true 0 false v).

(** ** Generic rights *)

(** What reading, writing, executing and all of it mean for a type. *)
Definition wubu_nt_generic_mapping (t : nt_object_type) : Z * Z * Z * Z :=
  match t with
  | TYPE_FILE | TYPE_DIRECTORY | TYPE_SYMBOLIC_LINK => (0x00120089, 0x00120116, 0x001200A0, 0x001F01FF)
  | TYPE_KEY => (0x00020019, 0x00020006, 0x00020020, 0x000F003F)
  | TYPE_EVENT | TYPE_SEMAPHORE | TYPE_KEYED_EVENT | TYPE_EVENT_PAIR => (0x00100000, 0x00000002, 0, 0x001F0003)
  | TYPE_MUTANT => (0x00100000, 0x00000001, 0, 0x001F0001)
  | TYPE_TIMER => (0x00100000, 0x00000002, 0, 0x001F001F)
  | TYPE_SECTION => (0x00100000, Z.lor (Z.lor 0x00000002 0x00000004) 0x00000008, 0x00000001, 0x001F000F)
  | TYPE_PROCESS => (0x1200F0, 0x1200B8, 0x0008, 0x001F0FFF)
  | TYPE_THREAD => (0x12008A, 0x1200B2, 0x0008, 0x001F03FF)
  | TYPE_TOKEN => (0x00020009, 0x0002000E, 0, 0x000F003F)
  | TYPE_PORT | TYPE_WAITABLE_PORT | TYPE_IO_COMPLETION => (0x00100000, 0x00000002, 0, 0x001F000F)
  | _ => (0x00120089, 0x00120116, 0x001200A0, 0x001F01FF)
  end.

Definition wubu_nt_expand_generic (t : nt_object_type) (desired : Z) : Z :=
  let '(gr, gw, ge, ga) := wubu_nt_generic_mapping t in
  let out := Z.land desired (u32 (Z.lnot WUBU_NT_GENERIC_ALL_MASK)) in
  let out := if has_bits desired WUBU_GENERIC_READ then Z.lor out gr else out in
  let out := if has_bits desired WUBU_GENERIC_WRITE then Z.lor out gw else out in
  let out := if has_bits desired WUBU_GENERIC_EXECUTE then Z.lor out ge else out in
  if has_bits desired WUBU_GENERIC_ALL then Z.lor out ga else out.

(** ** The check *)

(** One entry of the walk: what is allowed so far, and whether something is denied. *)
Definition dacl_step (subject : wubu_nt_sidset) (desired : Z) (st : Z * bool) (ace : wubu_nt_ace) : Z * bool :=
  let (acc, denied) := st in
  if bool_decide (a_kind ace = ALLOW_OWNER) && (owner_sid subject =? a_sid ace) then (Z.lor acc (a_rights ace), denied)
  else if bool_decide (a_kind ace = ALLOW_GROUP) && wubu_nt_sidset_has subject (a_sid ace) then (Z.lor acc (a_rights ace), denied)
  else if bool_decide (a_kind ace = DENY_OWNER) && (owner_sid subject =? a_sid ace) && has_bits (a_rights ace) desired then (acc, true)
  else if bool_decide (a_kind ace = DENY_GROUP) && wubu_nt_sidset_has subject (a_sid ace) && has_bits (a_rights ace) desired then (acc, true)
  else (acc, denied).

(** The verdict and the rights granted. *)
Definition wubu_nt_dacl_allows (d : wubu_nt_dacl_view) (subject : wubu_nt_sidset) (desired : Z) : bool * Z :=
  if negb (d_present d) then (true, desired) else
  let (acc, denied) := foldl (dacl_step subject desired) (0, false) (aces d) in
  if denied : bool then (false, 0) else
  let g := Z.land acc desired in
  (g =? desired, g).

Definition wubu_nt_mic_allows_write (subject_mic label : Z) (no_up : bool) : bool :=
  if negb no_up then true else subject_mic >=? label.

Definition wubu_nt_access_check (sd : wubu_nt_sd_view) (subject : wubu_nt_sidset) (t : nt_object_type) (desired : Z)
    : wubu_nt_access_result :=
  let want := wubu_nt_expand_generic t desired in
  let (ok, g) := wubu_nt_dacl_allows (dacl_view sd) subject want in
  let miss := Z.land want (u32 (Z.lnot g)) in
  if negb ok then Result WUBU_NT_STATUS_ACCESS_DENIED g miss true false else
  if has_bits want WUBU_NT_RIGHT_WRITE_ANY &&
     negb (wubu_nt_mic_allows_write (mic subject) (label_mic sd) (no_write_up sd))
  then Result WUBU_NT_STATUS_ACCESS_DENIED g miss false true
  else Result WUBU_NT_STATUS_SUCCESS g miss false false.
