(* ===== verification/NtSdTheorems.v ===== *)
(** * Theorems of the NT access check *)

From S2P Require Import Prelude NtSd.
Open Scope Z_scope.

(** ** Bits *)

Lemma has_bits_spec x y : has_bits x y = true <-> exists b, 0 <= b /\ Z.testbit x b = true /\ Z.testbit y b = true.
Proof.
  unfold has_bits. rewrite negb_true_iff, Z.eqb_neq. split.
  - intros H. destruct (Z.eq_dec (Z.land x y) 0) as [|Hne]; [done|].
    assert (~ forall b, 0 <= b -> Z.testbit (Z.land x y) b = false) as Hn.
    { intros Hb. apply Hne. apply Z.bits_inj'. intros b Hb0. by rewrite Hb, Z.bits_0. }
    pose (w := Z.log2 (Z.abs (Z.land x y))). destruct (Z.lt_trichotomy (Z.land x y) 0) as [Hlt|[|Hgt]]; [|done|].
    + set (n := Z.max 0 (Z.log2 (Z.pred (- Z.land x y)) + 1)). exists n.
      assert (Z.testbit (Z.land x y) n = true) as Ht.
      { apply Z.bits_above_log2_neg; [done|]. unfold n. lia. }
      rewrite Z.land_spec in Ht. apply andb_true_iff in Ht as [? ?]. split_and!; [unfold n; lia|done|done].
    + exists (Z.log2 (Z.land x y)). pose proof (Z.bit_log2 _ Hgt) as Ht. rewrite Z.land_spec in Ht.
      apply andb_true_iff in Ht as [? ?]. split_and!; [apply Z.log2_nonneg|done|done].
  - intros (b & _ & Hx & Hy) H. assert (Z.testbit (Z.land x y) b = true) as Ht by (by rewrite Z.land_spec, Hx, Hy).
    by rewrite H, Z.bits_0 in Ht.
Qed.

Lemma land_covers a w : (Z.land a w =? w) = true <-> forall b, Z.testbit w b = true -> Z.testbit a b = true.
Proof.
  rewrite Z.eqb_eq. split.
  - intros H b Hb. rewrite <- H, Z.land_spec in Hb. by apply andb_true_iff in Hb as [? _].
  - intros H. apply Z.bits_inj'. intros b _. rewrite Z.land_spec. destruct (Z.testbit w b) eqn:E; [by rewrite H|by rewrite andb_false_r].
Qed.

(** ** The rule *)

(** Whether an entry names the subject. *)
Definition applies (s : wubu_nt_sidset) (a : wubu_nt_ace) : Prop :=
  match a_kind a with ALLOW_OWNER | DENY_OWNER => owner_sid s = a_sid a | ALLOW_GROUP | DENY_GROUP => a_sid a ∈ sids s end.
Definition allows (a : wubu_nt_ace) : Prop := a_kind a = ALLOW_OWNER \/ a_kind a = ALLOW_GROUP.
Definition denies (a : wubu_nt_ace) : Prop := a_kind a = DENY_OWNER \/ a_kind a = DENY_GROUP.

(** Some entry for the subject allows right number [b]; some entry denies it. *)
Definition right_allowed (s : wubu_nt_sidset) (l : list wubu_nt_ace) (b : Z) : Prop :=
  exists a, a ∈ l /\ allows a /\ applies s a /\ Z.testbit (a_rights a) b = true.
Definition right_denied (s : wubu_nt_sidset) (l : list wubu_nt_ace) (b : Z) : Prop :=
  exists a, a ∈ l /\ denies a /\ applies s a /\ Z.testbit (a_rights a) b = true.

Lemma sidset_has_spec s sid : wubu_nt_sidset_has s sid = true <-> sid ∈ sids s.
Proof.
  unfold wubu_nt_sidset_has. rewrite List.existsb_exists. split.
  - intros (x & Hx & ->%Z.eqb_eq). by apply list_elem_of_In.
  - intros H. exists sid. split; [by apply list_elem_of_In|apply Z.eqb_refl].
Qed.

Lemma dacl_step_spec s w acc den a :
  let (acc', den') := dacl_step s w (acc, den) a in
  (forall b, Z.testbit acc' b = true <-> Z.testbit acc b = true \/ (allows a /\ applies s a /\ Z.testbit (a_rights a) b = true)) /\
  (den' = true <-> den = true \/ (denies a /\ applies s a /\ exists b, 0 <= b /\ Z.testbit (a_rights a) b = true /\ Z.testbit w b = true)).
Proof.
  unfold dacl_step, allows, denies, applies. destruct a as [k sid r]. cbn [a_kind a_sid a_rights].
  pose proof (sidset_has_spec s sid) as Hh. pose proof (has_bits_spec r w) as Hb.
  assert (forall acc r b, Z.testbit (Z.lor acc r) b = true <-> Z.testbit acc b = true \/ Z.testbit r b = true) as Hlor.
  { intros x y b. by rewrite Z.lor_spec, orb_true_iff. }
  destruct k.
  - rewrite bool_decide_true by done. cbn [andb]. destruct (Z.eqb_spec (owner_sid s) sid).
    + split; [intros b; rewrite Hlor|]; split; intuition (congruence || eauto).
    + rewrite !bool_decide_false by done. cbn [andb]. split; [intros b|]; split; intuition congruence.
  - rewrite bool_decide_false, bool_decide_true by done. cbn [andb]. destruct (wubu_nt_sidset_has s sid).
    + split; [intros b; rewrite Hlor|]; split; intuition (congruence || eauto).
    + rewrite !bool_decide_false by done. cbn [andb]. split; [intros b|]; split; intuition congruence.
  - rewrite (bool_decide_false (DENY_OWNER = ALLOW_OWNER)), (bool_decide_false (DENY_OWNER = ALLOW_GROUP)),
      (bool_decide_true (DENY_OWNER = DENY_OWNER)), (bool_decide_false (DENY_OWNER = DENY_GROUP)) by done. cbn [andb].
    destruct (Z.eqb_spec (owner_sid s) sid), (has_bits r w); cbn [andb];
      (split; [intros b|]; split; intuition congruence).
  - rewrite (bool_decide_false (DENY_GROUP = ALLOW_OWNER)), (bool_decide_false (DENY_GROUP = ALLOW_GROUP)),
      (bool_decide_false (DENY_GROUP = DENY_OWNER)), (bool_decide_true (DENY_GROUP = DENY_GROUP)) by done. cbn [andb].
    destruct (wubu_nt_sidset_has s sid), (has_bits r w); cbn [andb]; (split; [intros b|]; split; intuition congruence).
Qed.

Lemma dacl_fold_spec s w l : forall acc den,
  let (acc', den') := foldl (dacl_step s w) (acc, den) l in
  (forall b, Z.testbit acc' b = true <-> Z.testbit acc b = true \/ right_allowed s l b) /\
  (den' = true <-> den = true \/ exists b, 0 <= b /\ right_denied s l b /\ Z.testbit w b = true).
Proof.
  induction l as [|a l IH]; intros acc den; cbn [foldl].
  { unfold right_allowed, right_denied. setoid_rewrite elem_of_nil. naive_solver. }
  pose proof (dacl_step_spec s w acc den a) as Hs. destruct (dacl_step s w (acc, den) a) as [acc1 den1]. destruct Hs as [Hs1 Hs2].
  specialize (IH acc1 den1). destruct (foldl (dacl_step s w) (acc1, den1) l) as [acc' den']. destruct IH as [I1 I2].
  split.
  - intros b. rewrite I1, Hs1. unfold right_allowed. split.
    + intros [[H|(H1 & H2 & H3)]|(x & Hx & H)]; [by left|right; exists a; set_solver|right; exists x; set_solver].
    + intros [H|(x & [->|Hx]%elem_of_cons & H)]; [by left; left|by left; right|right; by exists x].
  - rewrite I2, Hs2. unfold right_denied. split.
    + intros [[H|(H1 & H2 & b & Hb & H3 & H4)]|(b & Hb & (x & Hx & H) & Hw)]; [by left|right; exists b..]; split_and!; try done.
      * exists a. set_solver.
      * exists x. set_solver.
    + intros [H|(b & Hb & (x & [->|Hx]%elem_of_cons & H1 & H2 & H3) & Hw)]; [by left; left|left; right; eauto 8|right; eauto 12].
Qed.

(** ** Generic rights *)

Lemma has_bit_pow d k : 0 <= k -> has_bits d (2 ^ k) = Z.testbit d k.
Proof.
  intros Hk. apply eq_true_iff_eq. rewrite has_bits_spec. split.
  - intros (b & Hb & Hd & Hp). rewrite Z.pow2_bits_eqb in Hp by done. apply Z.eqb_eq in Hp as <-. done.
  - intros H. exists k. split_and!; [done|done|]. by apply Z.pow2_bits_true.
Qed.

Lemma low28 b : Z.testbit (u32 (Z.lnot WUBU_NT_GENERIC_ALL_MASK)) b = (0 <=? b) && (b <? 28).
Proof.
  change (u32 (Z.lnot WUBU_NT_GENERIC_ALL_MASK)) with (Z.ones 28). destruct (Z.leb_spec 0 b); cbn [andb].
  - destruct (Z.ltb_spec b 28); [apply Z.ones_spec_low; lia|apply Z.ones_spec_high; lia].
  - by apply Z.testbit_neg_r.
Qed.

Lemma lor_if (c : bool) x g b :
  Z.testbit (if c then Z.lor x g else x) b = true <-> Z.testbit x b = true \/ (c = true /\ Z.testbit g b = true).
Proof. destruct c; [rewrite Z.lor_spec, orb_true_iff|]; intuition congruence. Qed.

Definition expands_to (t : nt_object_type) (d b : Z) : Prop :=
  let '(gr, gw, ge, ga) := wubu_nt_generic_mapping t in
  (Z.testbit d b = true /\ b < 28) \/ (Z.testbit d 31 = true /\ Z.testbit gr b = true) \/
  (Z.testbit d 30 = true /\ Z.testbit gw b = true) \/ (Z.testbit d 29 = true /\ Z.testbit ge b = true) \/
  (Z.testbit d 28 = true /\ Z.testbit ga b = true).

Lemma expand_spec t d b : Z.testbit (wubu_nt_expand_generic t d) b = true <-> expands_to t d b.
Proof.
  unfold wubu_nt_expand_generic, expands_to. destruct (wubu_nt_generic_mapping t) as [[[gr gw] ge] ga].
  rewrite !lor_if, Z.land_spec, andb_true_iff, low28, andb_true_iff, Z.leb_le, Z.ltb_lt.
  change WUBU_GENERIC_READ with (2 ^ 31). change WUBU_GENERIC_WRITE with (2 ^ 30).
  change WUBU_GENERIC_EXECUTE with (2 ^ 29). change WUBU_GENERIC_ALL with (2 ^ 28). rewrite !has_bit_pow by lia.
  assert (Z.testbit d b = true -> 0 <= b) as Hb.
  { intros H. destruct (Z.leb_spec 0 b); [done|]. by rewrite Z.testbit_neg_r in H. }
  intuition.
Qed.

(** ** The check *)

Lemma dacl_allows_spec d s w :
  let (ok, g) := wubu_nt_dacl_allows d s w in
  (ok = true <-> (d_present d = true -> forall b, Z.testbit w b = true -> right_allowed s (aces d) b /\ ~ right_denied s (aces d) b)) /\
  (ok = true -> g = w).
Proof.
  unfold wubu_nt_dacl_allows. destruct (d_present d); cbn [negb]; [|split; [split; [done|done]|done]].
  pose proof (dacl_fold_spec s w (aces d) 0 false) as H. destruct (foldl _ _ _) as [acc den]. destruct H as [Hacc Hden].
  destruct den.
  - split; [|done]. split; [done|]. intros H. exfalso. destruct (proj1 Hden eq_refl) as [|(b & _ & Hd & Hw)]; [done|].
    by destruct (H eq_refl b Hw).
  - assert (forall b, Z.testbit w b = true -> ~ right_denied s (aces d) b) as Hnd.
    { intros b Hw Hr. enough (false = true) by done. apply Hden. right. exists b. split; [|done].
      destruct (Z.leb_spec 0 b); [done|]. by rewrite Z.testbit_neg_r in Hw. }
    split; [|by intros ->%Z.eqb_eq]. rewrite land_covers. split.
    + intros H _ b Hw. split; [|by apply Hnd]. apply H, Hacc in Hw as [Hz|]; [|done]. by rewrite Z.bits_0 in Hz.
    + intros H b Hw. apply Hacc. right. by apply H.
Qed.

Lemma nothing_missing w : fits 32 w -> Z.land w (u32 (Z.lnot w)) = 0.
Proof.
  intros Hw. apply Z.bits_inj'. intros b Hb. rewrite Z.land_spec, Z.bits_0. unfold wrap. rewrite Z.testbit_mod_pow2 by lia.
  rewrite Z.lnot_spec by done. destruct (Z.testbit w b), (b <? 32); done.
Qed.

Lemma expand_fits t d : fits 32 d -> fits 32 (wubu_nt_expand_generic t d).
Proof.
  intros Hd. assert (forall x g c, fits 32 x -> fits 32 g -> fits 32 (if (c : bool) then Z.lor x g else x)) as Hl.
  { intros x g [] [Hx1 Hx2] [Hg1 Hg2]; [|by split]. unfold fits. rewrite Z.lor_nonneg. split; [done|].
    destruct (Z.eq_dec (Z.lor x g) 0) as [->|]; [lia|]. apply Z.log2_lt_pow2; [assert (0 <= Z.lor x g) by (by apply Z.lor_nonneg); lia|].
    rewrite Z.log2_lor by done. apply Z.max_lub_lt.
    - destruct (Z.eq_dec x 0) as [->|]; [reflexivity|apply Z.log2_lt_pow2; lia].
    - destruct (Z.eq_dec g 0) as [->|]; [reflexivity|apply Z.log2_lt_pow2; lia]. }
  unfold wubu_nt_expand_generic. destruct (wubu_nt_generic_mapping t) as [[[gr gw] ge] ga] eqn:E.
  assert (fits 32 gr /\ fits 32 gw /\ fits 32 ge /\ fits 32 ga) as (? & ? & ? & ?).
  { destruct t; injection E as <- <- <- <-; vm_compute; intuition discriminate. }
  repeat apply Hl; try done. unfold fits. split; [apply Z.land_nonneg; right; apply (wrap_fits 32); lia|].
  change (u32 (Z.lnot WUBU_NT_GENERIC_ALL_MASK)) with (Z.ones 28). rewrite Z.land_ones by lia.
  pose proof (Z.mod_pos_bound d (2 ^ 28)). lia.
Qed.

Lemma access_granted sd s t desired :
  status (wubu_nt_access_check sd s t desired) = WUBU_NT_STATUS_SUCCESS ->
  granted (wubu_nt_access_check sd s t desired) = wubu_nt_expand_generic t desired.
Proof.
  unfold wubu_nt_access_check. set (w := wubu_nt_expand_generic t desired). cbv zeta.
  pose proof (dacl_allows_spec (dacl_view sd) s w) as H. destruct (wubu_nt_dacl_allows (dacl_view sd) s w) as [ok g]. destruct H as [_ Hg].
  destruct ok; [|done]. rewrite (Hg eq_refl). cbn [negb]. by destruct (_ && _).
Qed.

(** C20. The access check decides exactly the rule: with the generic rights replaced by
    what they mean for the object's type, access is granted if and only if both hold.
    When an access control list is present, every requested right is allowed and none is
    denied by an entry that names the subject (with no list, no entry is needed).  When a
    right that changes the object is requested and the object's label says no-write-up, the
    subject's integrity is at least the label's (otherwise integrity plays no part).  What
    is granted is then exactly what was requested, and the only other answer is
    STATUS_ACCESS_DENIED. *)
Theorem nt_access_check_decides sd s t desired :
  fits 32 desired ->
  let want := wubu_nt_expand_generic t desired in
  let r := wubu_nt_access_check sd s t desired in
  (forall b, Z.testbit want b = true <-> expands_to t desired b) /\
  (status r = WUBU_NT_STATUS_SUCCESS <->
   (d_present (dacl_view sd) = true -> forall b, expands_to t desired b ->
      right_allowed s (aces (dacl_view sd)) b /\ ~ right_denied s (aces (dacl_view sd)) b) /\
   ((exists b, expands_to t desired b /\ Z.testbit WUBU_NT_RIGHT_WRITE_ANY b = true) -> no_write_up sd = true -> label_mic sd <= mic s)) /\
  (status r = WUBU_NT_STATUS_SUCCESS -> granted r = want /\ missing r = 0) /\
  (status r <> WUBU_NT_STATUS_SUCCESS -> status r = WUBU_NT_STATUS_ACCESS_DENIED).
Proof.
  intros Hd want r. assert (forall b, Z.testbit want b = true <-> expands_to t desired b) as Hx by apply expand_spec.
  pose proof (expand_fits t desired Hd : fits 32 want) as Hf.
  split; [done|]. unfold r, wubu_nt_access_check. fold want. cbv zeta.
  pose proof (dacl_allows_spec (dacl_view sd) s want) as H. destruct (wubu_nt_dacl_allows (dacl_view sd) s want) as [ok g].
  destruct H as [Hok Hg]. clearbody want. setoid_rewrite Hx in Hok. destruct ok; cbn [negb].
  2:{ split; [|done]. split; [done|]. intros [H _]. by apply Hok in H. }
  rewrite (Hg eq_refl), nothing_missing by done. pose proof (proj1 Hok eq_refl) as Hl.
  assert (has_bits want WUBU_NT_RIGHT_WRITE_ANY = true <-> exists b, expands_to t desired b /\ Z.testbit WUBU_NT_RIGHT_WRITE_ANY b = true) as Hw.
  { rewrite has_bits_spec. setoid_rewrite <- Hx. split; [intros (b & _ & H); eauto|]. intros (b & H1 & H2). exists b. split_and!; [|done|done]. destruct (Z.leb_spec 0 b); [done|]. by rewrite Z.testbit_neg_r in H1. }
  assert (wubu_nt_mic_allows_write (mic s) (label_mic sd) (no_write_up sd) = true <-> (no_write_up sd = true -> label_mic sd <= mic s)) as Hm.
  { unfold wubu_nt_mic_allows_write. destruct (no_write_up sd); cbn [negb]; [rewrite Z.geb_le|]; intuition (discriminate || auto). }
  destruct (has_bits want WUBU_NT_RIGHT_WRITE_ANY), (wubu_nt_mic_allows_write _ _ _); cbn [andb negb status granted missing];
    (split; [|split; [|]]); try done; intuition discriminate.
Qed.

(** ** The wire format *)

(** An entry as it is written; bytes behind the rights belong to the entry. *)
Record wire_ace := Wire { w_type : Z; w_flags : Z; w_sid : Z; w_rights : Z; w_rest : list Z }.

Definition ace_bytes (a : wire_ace) : list Z :=
  [w_type a; w_flags a] ++ le_enc 2 (12 + Z.of_nat (length (w_rest a))) ++ le_enc 4 (w_sid a) ++ le_enc 4 (w_rights a) ++ w_rest a.
Definition aces_bytes (l : list wire_ace) : list Z := l ≫= ace_bytes.
Definition acl_bytes (rev : Z) (l : list wire_ace) : list Z :=
  [rev; 0] ++ le_enc 2 (8 + Z.of_nat (length (aces_bytes l))) ++ le_enc 2 (Z.of_nat (length l)) ++ [0; 0] ++ aces_bytes l.
Definition sd_bytes (c owner : Z) (gap : list Z) (acl : list Z) : list Z :=
  [1; 0] ++ le_enc 2 c ++ le_enc 4 owner ++ le_enc 4 (12 + Z.of_nat (length gap)) ++ gap ++ acl.

Definition view (a : wire_ace) : wubu_nt_ace := Ace (kind_of_type (w_type a)) (w_sid a) (w_rights a).
Definition wire_ok (a : wire_ace) : Prop := fits 32 (w_sid a) /\ fits 32 (w_rights a) /\ 12 + Z.of_nat (length (w_rest a)) < 65536.

Lemma rd_bytes_mid m pre x post p k : m = pre ++ x ++ post -> p = length pre -> k = length x -> rd_bytes m p k = Some x.
Proof. intros -> -> ->. by apply rd_bytes_app. Qed.

Lemma u16_mid m pre v post p : m = pre ++ le_enc 2 v ++ post -> p = length pre -> fits 16 v -> u16_at m p = Some v.
Proof.
  intros Hm Hp Hv. unfold u16_at. rewrite (rd_bytes_mid m pre (le_enc 2 v) post) by (done || by rewrite length_le_enc).
  cbn [fmap option_fmap option_map]. by rewrite le_dec_enc, wrap_id.
Qed.
Lemma u32_mid m pre v post p : m = pre ++ le_enc 4 v ++ post -> p = length pre -> fits 32 v -> u32_at m p = Some v.
Proof.
  intros Hm Hp Hv. unfold u32_at. rewrite (rd_bytes_mid m pre (le_enc 4 v) post) by (done || by rewrite length_le_enc).
  cbn [fmap option_fmap option_map]. by rewrite le_dec_enc, wrap_id.
Qed.

Lemma ace_length a : length (ace_bytes a) = (12 + length (w_rest a))%nat.
Proof. unfold ace_bytes. rewrite !length_app, !length_le_enc. cbn. lia. Qed.

(** The fields of an entry in its place. *)
Lemma ace_fields a pre post :
  wire_ok a -> let m := pre ++ ace_bytes a ++ post in
  rd m (length pre) = Some (w_type a) /\ u16_at m (length pre + 2) = Some (12 + Z.of_nat (length (w_rest a))) /\
  u32_at m (length pre + 4) = Some (w_sid a) /\ u32_at m (length pre + 8) = Some (w_rights a).
Proof.
  intros (Hs & Hr & Hl) m. unfold m, ace_bytes. rewrite <- !app_assoc. split_and!.
  - apply rd_app.
  - apply (u16_mid _ (pre ++ [w_type a; w_flags a]) _ (le_enc 4 (w_sid a) ++ le_enc 4 (w_rights a) ++ w_rest a ++ post));
      [by rewrite <- !app_assoc|rewrite length_app; done|unfold fits; lia].
  - apply (u32_mid _ (pre ++ [w_type a; w_flags a] ++ le_enc 2 (12 + Z.of_nat (length (w_rest a)))) _ (le_enc 4 (w_rights a) ++ w_rest a ++ post));
      [by rewrite <- !app_assoc|rewrite !length_app, length_le_enc; cbn; lia|done].
  - apply (u32_mid _ (pre ++ [w_type a; w_flags a] ++ le_enc 2 (12 + Z.of_nat (length (w_rest a))) ++ le_enc 4 (w_sid a)) _ (w_rest a ++ post));
      [by rewrite <- !app_assoc|rewrite !length_app, !length_le_enc; cbn; lia|done].
Qed.

Lemma ace_loop_spec l : forall pre post size acc,
  Forall wire_ok l -> (length acc + length l <= 32)%nat -> Z.of_nat (length pre + length (aces_bytes l)) <= size ->
  ace_loop (length l) (pre ++ aces_bytes l ++ post) size (length pre) acc = Some (acc ++ map view l).
Proof.
  induction l as [|a l IH]; intros pre post size acc Hw Hn Hs; cbn [length ace_loop map]; [by rewrite app_nil_r|].
  apply Forall_cons in Hw as [Ha Hw]. cbn [length] in Hn. change (aces_bytes (a :: l)) with (ace_bytes a ++ aces_bytes l) in *.
  rewrite length_app, ace_length in Hs. rewrite (proj2 (Nat.leb_gt _ _)) by (unfold WUBU_NT_ACE_MAX; lia).
  destruct (Z.gtb_spec (Z.of_nat (length pre) + 8) size); [lia|].
  rewrite <- app_assoc. destruct (ace_fields a pre (aces_bytes l ++ post) Ha) as (-> & -> & -> & ->). cbn [mbind option_bind].
  destruct (Z.ltb_spec (12 + Z.of_nat (length (w_rest a))) 12); [lia|].
  destruct (Z.gtb_spec (Z.of_nat (length pre) + (12 + Z.of_nat (length (w_rest a)))) size); [lia|].
  replace (length pre + Z.to_nat (12 + Z.of_nat (length (w_rest a))))%nat with (length (pre ++ ace_bytes a))
    by (rewrite length_app, ace_length; lia).
  rewrite app_assoc. fold (view a). rewrite IH; [by rewrite <- app_assoc|done|rewrite length_app; cbn; lia|].
  rewrite length_app, ace_length. lia.
Qed.

Lemma decode_spec rev l post :
  rev = 2 \/ rev = 3 \/ rev = 4 -> Forall wire_ok l -> (length l <= 32)%nat -> 8 + Z.of_nat (length (aces_bytes l)) <= 4096 ->
  wubu_nt_dacl_decode (acl_bytes rev l ++ post) = Some (Dacl true (map view l)).
Proof.
  intros Hrev Hl Hn Ha. unfold wubu_nt_dacl_decode. set (m := acl_bytes rev l ++ post).
  change (rd m 0) with (Some rev). cbn [mbind option_bind].
  assert (negb (rev =? 2) && negb (rev =? 3) && negb (rev =? 4) = false) as -> by (by destruct Hrev as [-> | [-> | ->]]).
  rewrite (u16_mid m [rev; 0] (8 + Z.of_nat (length (aces_bytes l))) (le_enc 2 (Z.of_nat (length l)) ++ [0; 0] ++ aces_bytes l ++ post) 2);
    [|unfold m, acl_bytes; by rewrite <- !app_assoc|done|unfold fits; lia]. cbn [mbind option_bind].
  rewrite (u16_mid m ([rev; 0] ++ le_enc 2 (8 + Z.of_nat (length (aces_bytes l)))) (Z.of_nat (length l)) ([0; 0] ++ aces_bytes l ++ post) 4);
    [|unfold m, acl_bytes; by rewrite <- !app_assoc|by rewrite !length_app, !length_le_enc|unfold fits; lia]. cbn [mbind option_bind].
  unfold WUBU_NT_SD_MAX_BYTES. destruct (Z.gtb_spec (8 + Z.of_nat (length (aces_bytes l))) 4096); [lia|]. rewrite Nat2Z.id.
  set (pre := [rev; 0] ++ le_enc 2 (8 + Z.of_nat (length (aces_bytes l))) ++ le_enc 2 (Z.of_nat (length l)) ++ [0; 0]).
  assert (m = pre ++ aces_bytes l ++ post) as -> by (unfold m, acl_bytes, pre; by rewrite <- !app_assoc).
  assert (length pre = 8%nat) as Hp by (unfold pre; by rewrite !length_app, !length_le_enc).
  rewrite <- Hp at 1. rewrite ace_loop_spec by (done || lia). done.
Qed.

Lemma rd_inside m p : (p < length m)%nat -> exists x, rd m p = Some x.
Proof. intros H. destruct (lookup_lt_is_Some_2 m p H) as [x Hx]. by exists x. Qed.
Lemma u16_inside m p : (p + 2 <= length m)%nat -> exists x, u16_at m p = Some x.
Proof. intros H. unfold u16_at, rd_bytes. rewrite decide_True by done. eexists. reflexivity. Qed.
Lemma u32_inside m p : (p + 4 <= length m)%nat -> exists x, u32_at m p = Some x.
Proof. intros H. unfold u32_at, rd_bytes. rewrite decide_True by done. eexists. reflexivity. Qed.

Lemma ace_loop_total acl size : size <= Z.of_nat (length acl) -> forall k cur l,
  (length l <= 32)%nat -> exists l', ace_loop k acl size cur l = Some l' /\ (length l' <= 32)%nat.
Proof.
  intros Hs. induction k as [|k IH]; intros cur l Hl; cbn [ace_loop]; [by exists l|].
  destruct (Nat.leb_spec WUBU_NT_ACE_MAX (length l)); [by exists l|].
  destruct (Z.gtb_spec (Z.of_nat cur + 8) size); [by exists l|].
  destruct (rd_inside acl cur) as [t ->]; [lia|]. destruct (u16_inside acl (cur + 2)) as [sz ->]; [lia|]. cbn [mbind option_bind].
  destruct (Z.ltb_spec sz 12); [by exists l|]. destruct (Z.gtb_spec (Z.of_nat cur + sz) size); [by exists l|].
  destruct (u32_inside acl (cur + 4)) as [sid ->]; [lia|]. destruct (u32_inside acl (cur + 8)) as [r ->]; [lia|].
  cbn [mbind option_bind]. apply IH. rewrite length_app. cbn. unfold WUBU_NT_ACE_MAX in *. lia.
Qed.

(** A descriptor round-trips: reading the bytes of a revision-1
    descriptor whose list has up to 32 entries and at most 4096 bytes gives exactly
    those entries, in order, with their kinds, identifiers and rights, whatever
    precedes and follows the list. *)
Theorem nt_descriptor_roundtrip c owner gap rev l post :
  fits 16 c -> has_bits c WUBU_SE_DACL_PRESENT = true -> rev = 2 \/ rev = 3 \/ rev = 4 ->
  Forall wire_ok l -> (length l <= 32)%nat -> 12 + Z.of_nat (length gap) <= 4096 -> 8 + Z.of_nat (length (aces_bytes l)) <= 4096 ->
  wubu_nt_sd_read (sd_bytes c owner gap (acl_bytes rev l) ++ post) =
    Some (true, Sd c (Some (12 + length gap)%nat) true 0 false (Dacl true (map view l))).
Proof.
  intros Hc Hp Hrev Hl Hn Hg Ha. unfold wubu_nt_sd_read, sd_bytes.
  set (m := _ ++ post). change (rd m 0) with (Some 1). cbn [mbind option_bind Z.eqb negb].
  change (Z.eqb 1 1) with true. cbn [negb].
  rewrite (u16_mid m [1; 0] c (le_enc 4 owner ++ le_enc 4 (12 + Z.of_nat (length gap)) ++ gap ++ acl_bytes rev l ++ post) 2)
    by (done || (unfold m; by rewrite <- !app_assoc)).
  cbn [mbind option_bind]. rewrite Hp. cbn [negb]. rewrite andb_false_r.
  rewrite (u32_mid m ([1; 0] ++ le_enc 2 c ++ le_enc 4 owner) (12 + Z.of_nat (length gap)) (gap ++ acl_bytes rev l ++ post) 8);
    [|unfold m; by rewrite <- !app_assoc|by rewrite !length_app, !length_le_enc|unfold fits; lia].
  cbn [mbind option_bind orb]. rewrite (proj2 (Z.eqb_neq _ 0)) by lia. unfold WUBU_NT_SD_MAX_BYTES.
  destruct (Z.gtb_spec (12 + Z.of_nat (length gap)) 4096); [lia|].
  assert (drop (Z.to_nat (12 + Z.of_nat (length gap))) m = acl_bytes rev l ++ post) as ->.
  { assert (m = ([1; 0] ++ le_enc 2 c ++ le_enc 4 owner ++ le_enc 4 (12 + Z.of_nat (length gap)) ++ gap) ++ acl_bytes rev l ++ post) as ->
      by (unfold m; by rewrite <- !app_assoc).
    apply drop_app_length'. rewrite !length_app, !length_le_enc. cbn. lia. }
  rewrite decode_spec by done. cbn [mbind option_bind]. do 4 f_equal. lia.
Qed.

(** Whatever its bytes are, decoding a list that lies in its buffer
    as its header says returns: no read leaves the list, and there are at most 32
    entries. *)
Theorem nt_acl_decode_stays_in_bounds acl size :
  (8 <= length acl)%nat -> u16_at acl 2 = Some size -> size <= Z.of_nat (length acl) ->
  exists v, wubu_nt_dacl_decode acl = Some v /\ (length (aces v) <= 32)%nat.
Proof.
  intros Hl Hs Hb. unfold wubu_nt_dacl_decode. destruct (rd_inside acl 0) as [rev ->]; [lia|]. cbn [mbind option_bind].
  destruct (negb (rev =? 2) && negb (rev =? 3) && negb (rev =? 4)); [exists no_dacl; split; [done|cbn; lia]|]. rewrite Hs. cbn [mbind option_bind].
  destruct (u16_inside acl 4) as [cnt ->]; [lia|]. cbn [mbind option_bind]. destruct (size >? _); [exists no_dacl; split; [done|cbn; lia]|].
  destruct (ace_loop_total acl size Hb (Z.to_nat cnt) 8 []) as (l & -> & Hn); [cbn; lia|]. exists (Dacl true l). by split.
Qed.

(** ** Examples *)

(** Subject 1001, of group 500, at integrity 2. *)
Definition user : wubu_nt_sidset := Sidset 1001 2 [500].

(** Owner 1001 may do what a generic reader and writer of files does. *)
Definition sample_acl : list wire_ace := [Wire 0 0 1001 0x0012019F []; Wire 1 0 7 0x10000 [0; 0; 0; 0]].

Definition sample_sd : list Z := sd_bytes 0x0804 0 (replicate 8 0) (acl_bytes 2 sample_acl).

Lemma nt_descriptor_roundtrip_witness :
  wubu_nt_sd_read (sample_sd ++ [255]) = Some (true, Sd 0x0804 (Some 20%nat) true 0 false (Dacl true (map view sample_acl))).
Proof.
  apply (nt_descriptor_roundtrip 0x0804 0 (replicate 8 0) 2 sample_acl [255]); [done|done|by left| |cbn; lia|cbn; lia|vm_compute; done].
  repeat constructor; cbn; lia.
Defined.

Lemma nt_acl_decode_stays_in_bounds_witness :
  exists v, wubu_nt_dacl_decode ([2; 0; 20; 0; 99; 0; 0; 0] ++ replicate 12 255) = Some v /\ (length (aces v) <= 32)%nat.
Proof. apply (nt_acl_decode_stays_in_bounds _ 20); [cbn; lia|reflexivity|cbn; lia]. Defined.

(** Reading is granted; a writer below the label is refused although the list allows it. *)
Definition labelled : wubu_nt_sd_view := Sd 0x0804 None true 3 true (Dacl true (map view sample_acl)).

Lemma nt_access_check_decides_witness :
  (status (wubu_nt_access_check labelled user TYPE_FILE WUBU_GENERIC_READ) = WUBU_NT_STATUS_SUCCESS ->
   granted (wubu_nt_access_check labelled user TYPE_FILE WUBU_GENERIC_READ) = 0x00120089) /\
  wubu_nt_access_check labelled user TYPE_FILE WUBU_GENERIC_READ = Result WUBU_NT_STATUS_SUCCESS 0x00120089 0 false false /\
  wubu_nt_access_check labelled user TYPE_FILE WUBU_GENERIC_WRITE = Result WUBU_NT_STATUS_ACCESS_DENIED 0x00120116 0 false true.
Proof.
  split; [|split; reflexivity]. intros H.
  destruct (nt_access_check_decides labelled user TYPE_FILE WUBU_GENERIC_READ) as (_ & _ & Hg & _); [unfold fits; done|].
  by destruct (Hg H) as [-> _].
Defined.

(** ** Departures *)

(** A list of an unknown revision, or one that says it is longer than 4096 bytes,
    is taken for no list: everything is granted, whatever it denies. *)
Lemma nt_malformed_acl_grants_everything :
  (exists sd, wubu_nt_sd_read (sd_bytes 0x0804 0 (replicate 8 0) (acl_bytes 9 [Wire 1 0 1001 0x1F01FF []])) = Some (true, sd) /\
     status (wubu_nt_access_check sd user TYPE_FILE WUBU_GENERIC_ALL) = WUBU_NT_STATUS_SUCCESS) /\
  (exists sd, wubu_nt_sd_read (sd_bytes 0x0804 0 (replicate 8 0) ([2; 0; 1; 16; 1; 0; 0; 0] ++ ace_bytes (Wire 1 0 1001 0x1F01FF []))) = Some (true, sd) /\
     status (wubu_nt_access_check sd user TYPE_FILE WUBU_GENERIC_ALL) = WUBU_NT_STATUS_SUCCESS).
Proof. split; eexists; (split; [vm_compute; reflexivity|vm_compute; reflexivity]). Qed.

(** A denying entry whose size does not fit is dropped with all that follow, while the
    allowing ones before it stand. *)
Lemma nt_truncated_deny_is_dropped :
  exists sd, wubu_nt_sd_read (sd_bytes 0x0804 0 (replicate 8 0)
      ([2; 0; 32; 0; 2; 0; 0; 0] ++ ace_bytes (Wire 0 0 1001 0x1F01FF []) ++ [1; 0; 13; 0; 233; 3; 0; 0; 255; 1; 31; 0])) = Some (true, sd) /\
    status (wubu_nt_access_check sd user TYPE_FILE WUBU_GENERIC_ALL) = WUBU_NT_STATUS_SUCCESS.
Proof. eexists. split; [vm_compute; reflexivity|vm_compute; reflexivity]. Qed.

(** An entry that asks for an audit, or of a type that is not known, grants its rights. *)
Lemma nt_audit_entry_grants :
  status (wubu_nt_access_check (Sd 0 None true 0 false (Dacl true (map view [Wire 2 0 1001 0x1F01FF []]))) user TYPE_FILE WUBU_GENERIC_ALL)
    = WUBU_NT_STATUS_SUCCESS /\
  status (wubu_nt_access_check (Sd 0 None true 0 false (Dacl true (map view [Wire 77 0 500 0x1F01FF []]))) user TYPE_FILE WUBU_GENERIC_ALL)
    = WUBU_NT_STATUS_SUCCESS.
Proof. split; reflexivity. Qed.

(** No descriptor read from its bytes carries a label. *)
Lemma nt_read_descriptor_has_no_label p ok sd : wubu_nt_sd_read p = Some (ok, sd) -> no_write_up sd = false.
Proof.
  intros (rev & _ & H)%bind_Some. destruct (negb (rev =? 1)); [by simplify_eq|]. apply bind_Some in H as (c & _ & H).
  destruct (has_bits c WUBU_SE_SELF_RELATIVE && _); [by simplify_eq|]. apply bind_Some in H as (off & _ & H).
  destruct (_ || (off =? 0)); [by simplify_eq|]. destruct (off >? _); [by simplify_eq|].
  apply bind_Some in H as (v & _ & H). by simplify_eq.
Qed.
