(* ===== verification/NtCap.v ===== *)
(** * Handles of the NT layer and their authority

    [runtime/vsl/vsl_nt_cap.c] and the handle functions of [vsl_syscall_nt.c],
    [vsl_nt_sync.c] (duplication) and [vsl_nt_io.c] (closing): the table of NT handles,
    whose entries are backed by capabilities of [Cap].  The registry of capabilities is
    part of the state; the records that [vsl_nt_cap_acquire] allocates are named by
    their order, from 1.  [tokens] is what lies at the addresses of access tokens;
    reading a token anywhere else is a fault, [None]. *)

From stdpp Require Import gmap fin_maps.
From S2P Require Import Prelude Cap NtSd.
Open Scope Z_scope.

Definition NT_STATUS_SUCCESS : Z := 0x00000000.
Definition NT_STATUS_ACCESS_DENIED : Z := 0xC0000022.
Definition NT_STATUS_INVALID_PARAMETER : Z := 0xC000000D.
Definition NT_STATUS_INVALID_HANDLE : Z := 0xC0000008.
Definition NT_STATUS_UNSUCCESSFUL : Z := 0xC0000001.

Definition WUBU_CAP_KIND_PROC : Z := 2.
Definition WUBU_CAP_KIND_CHANNEL : Z := 3.
Definition WUBU_CAP_KIND_VMO : Z := 4.
Definition WUBU_CAP_KIND_STREAM : Z := 7.
Definition WUBU_CAP_KIND_TRANSACTION : Z := 8.
Definition WUBU_CAP_KIND_STYX_NODE : Z := 12.

Definition WUBU_RIGHT_READ : Z := 0x1.
Definition WUBU_RIGHT_WRITE : Z := 0x2.
Definition WUBU_RIGHT_EXEC : Z := 0x4.
Definition WUBU_RIGHT_INSPECT : Z := 0x20.
Definition WUBU_RIGHT_GRANT : Z := 0x40.
Definition WUBU_RIGHT_SEND : Z := 0x80.
Definition WUBU_RIGHT_RECV : Z := 0x100.
Definition WUBU_RIGHT_DELETE : Z := 0x400.
Definition WUBU_RIGHT_INVOKE : Z := 0x4000.

(** ** State *)

Record nt_objrec := Objrec { r_vsl_fd : Z; r_styx_fid : Z; r_data : Z; r_type : nt_object_type }.

(** An entry of [handle_table]. *)
Record nt_entry := Entry {
  n_handle : Z; n_fd : Z; n_fid : Z; n_data : Z; n_type : nt_object_type; n_valid : bool;
  n_slot : Z; n_tok : Z; n_backed : bool; n_rights : Z }.

Record nt_group := Group { g_sid : Z; g_attr : Z }.
Record nt_token_entry := Token { luid_low : Z; t_groups : list nt_group; imp_level : Z }.

Record nt_ctx := Ctx {
  current_pid : Z;
  entries : list nt_entry;
  cap_ht : option handle_table;
  caps : cap_state;
  objrecs : list nt_objrec;
  tokens : gmap Z nt_token_entry;
  g_vsl_pid : Z }.

Definition set_entries (c : nt_ctx) (l : list nt_entry) : nt_ctx :=
  Ctx (current_pid c) l (cap_ht c) (caps c) (objrecs c) (tokens c) (g_vsl_pid c).
Definition set_caps (c : nt_ctx) (st : cap_state) : nt_ctx :=
  Ctx (current_pid c) (entries c) (cap_ht c) st (objrecs c) (tokens c) (g_vsl_pid c).
Definition set_ht (c : nt_ctx) (t : handle_table) : nt_ctx :=
  Ctx (current_pid c) (entries c) (Some t) (caps c) (objrecs c) (tokens c) (g_vsl_pid c).
Definition add_objrec (c : nt_ctx) (r : nt_objrec) : nt_ctx :=
  Ctx (current_pid c) (entries c) (cap_ht c) (caps c) (objrecs c ++ [r]) (tokens c) (g_vsl_pid c).
Definition upd_entry (c : nt_ctx) (i : nat) (f : nt_entry -> nt_entry) : nt_ctx := set_entries c (alter f i (entries c)).

(** Stores into an entry. *)
Definition put_record (h fd fid : Z) (ty : nt_object_type) (e : nt_entry) : nt_entry :=
  Entry h fd fid (n_data e) ty true (n_slot e) (n_tok e) (n_backed e) (n_rights e).
Definition put_binding (slot tok rights : Z) (e : nt_entry) : nt_entry :=
  Entry (n_handle e) (n_fd e) (n_fid e) (n_data e) (n_type e) (n_valid e) slot tok true rights.
Definition clear_binding (e : nt_entry) : nt_entry :=
  Entry (n_handle e) (n_fd e) (n_fid e) (n_data e) (n_type e) (n_valid e) 0 WUBU_CAP_TOKEN_NULL false (n_rights e).
Definition put_rights (rights : Z) (e : nt_entry) : nt_entry :=
  Entry (n_handle e) (n_fd e) (n_fid e) (n_data e) (n_type e) (n_valid e) (n_slot e) (n_tok e) (n_backed e) rights.
Definition invalidate (e : nt_entry) : nt_entry :=
  Entry (n_handle e) (n_fd e) (n_fid e) (n_data e) (n_type e) false (n_slot e) (n_tok e) (n_backed e) (n_rights e).

Definition put_data (d : Z) (e : nt_entry) : nt_entry :=
  Entry (n_handle e) (n_fd e) (n_fid e) d (n_type e) (n_valid e) (n_slot e) (n_tok e) (n_backed e) (n_rights e).

Definition zero_entry : nt_entry := Entry 0 0 0 0 TYPE_UNKNOWN false 0 0 false 0.

(** The authority part of [vsl_nt_bridge_init]. *)
Definition vsl_nt_bridge_init (st : cap_state) (pid vsl_pid : Z) : nt_ctx :=
  let st := wubu_cap_init st in
  let '(t, st) := wubu_cap_handle_table_create st in
  Ctx pid (replicate 4096 zero_entry) t st [] ∅ vsl_pid.

(** ** Translations *)

Definition vsl_nt_kind_to_cap (t : nt_object_type) : Z :=
  match t with
  | TYPE_FILE | TYPE_DIRECTORY | TYPE_SYMBOLIC_LINK | TYPE_KEY => WUBU_CAP_KIND_STYX_NODE
  | TYPE_PROCESS | TYPE_THREAD => WUBU_CAP_KIND_PROC
  | TYPE_SECTION | TYPE_DEBUG_OBJECT => WUBU_CAP_KIND_VMO
  | TYPE_EVENT | TYPE_MUTANT | TYPE_SEMAPHORE | TYPE_TIMER | TYPE_KEYED_EVENT | TYPE_EVENT_PAIR | TYPE_IO_COMPLETION => WUBU_CAP_KIND_STREAM
  | TYPE_JOB | TYPE_TRANSACTION | TYPE_TRANSACTION_MANAGER | TYPE_RESOURCE_MANAGER | TYPE_ENLISTMENT | TYPE_TM | TYPE_WORK_ITEM
  | TYPE_PROFILE => WUBU_CAP_KIND_TRANSACTION
  | TYPE_PORT | TYPE_WAITABLE_PORT => WUBU_CAP_KIND_CHANNEL
  | TYPE_TOKEN => WUBU_CAP_KIND_SYSTEM
  | _ => WUBU_CAP_KIND_STYX_NODE
  end.

(** The rights each group of access bits stands for, in the order of the source. *)
Definition access_table : list (Z * Z) :=
  [(0x80000000, Z.lor (Z.lor WUBU_RIGHT_READ WUBU_RIGHT_INSPECT) WUBU_RIGHT_RECV);
   (0x40000000, Z.lor WUBU_RIGHT_WRITE WUBU_RIGHT_SEND);
   (0x20000000, Z.lor WUBU_RIGHT_EXEC WUBU_RIGHT_INVOKE);
   (0x10000000, WUBU_RIGHTS_ALL);
   (0x00010000, WUBU_RIGHT_DELETE);
   (0x00020000, Z.lor WUBU_RIGHT_READ WUBU_RIGHT_INSPECT);
   (0x00040000, Z.lor WUBU_RIGHT_WRITE WUBU_RIGHT_GRANT);
   (0x00080000, Z.lor WUBU_RIGHT_WRITE WUBU_RIGHT_GRANT);
   (0x00100000, WUBU_RIGHT_RECV);
   (0x00000001, WUBU_RIGHT_READ);
   (0x00000002, WUBU_RIGHT_WRITE);
   (0x00000004, Z.lor WUBU_RIGHT_WRITE WUBU_RIGHT_DERIVE);
   (0x00000008, WUBU_RIGHT_DERIVE);
   (0x00000010, WUBU_RIGHT_INSPECT);
   (0x00000020, WUBU_RIGHT_RECV);
   (0x00000001, WUBU_RIGHT_READ);
   (0x00000002, WUBU_RIGHT_WRITE);
   (0x00000010, WUBU_RIGHT_RECV);
   (0x00000080, WUBU_RIGHT_INSPECT);
   (0x00000010, WUBU_RIGHT_WRITE);
   (0x00000200, WUBU_RIGHT_READ);
   (0x00000200, WUBU_RIGHT_READ);
   (0x00020010, Z.lor WUBU_RIGHT_READ WUBU_RIGHT_INSPECT);
   (0x00020007, Z.lor WUBU_RIGHT_WRITE WUBU_RIGHT_DERIVE)].

Definition vsl_nt_desired_access_to_cap (a : Z) : Z :=
  foldl (fun r '(mask, rights) => if has_bits a mask then Z.lor r rights else r) 0 access_table.

Definition WUBU_STD_RIGHTS_REQUIRED : Z := 0x000F0000.
Definition WUBU_SYNCHRONIZE : Z := 0x00100000.

Definition vsl_nt_default_access_for_type (t : nt_object_type) : Z :=
  let both := Z.lor WUBU_STD_RIGHTS_REQUIRED WUBU_SYNCHRONIZE in
  match t with
  | TYPE_FILE | TYPE_DIRECTORY | TYPE_SYMBOLIC_LINK => Z.lor both 0x000001FF
  | TYPE_KEY => Z.lor both 0x000003FF
  | TYPE_EVENT | TYPE_SEMAPHORE => Z.lor both 0x00000003
  | TYPE_MUTANT | TYPE_KEYED_EVENT | TYPE_EVENT_PAIR => Z.lor both 0x00000001
  | TYPE_TIMER => Z.lor both 0x0000001F
  | TYPE_WAITABLE_PORT => Z.lor both 0x0000000F
  | TYPE_IO_COMPLETION => Z.lor WUBU_STD_RIGHTS_REQUIRED 0x00000007
  | TYPE_SECTION | TYPE_DEBUG_OBJECT => Z.lor both 0x0000000F
  | TYPE_TOKEN => Z.lor WUBU_STD_RIGHTS_REQUIRED 0x000003FF
  | TYPE_PROCESS => 0x001F0FFF
  | TYPE_THREAD => 0x001F03FF
  | TYPE_PORT => Z.lor both 0x0000000F
  | TYPE_PROFILE => Z.lor WUBU_STD_RIGHTS_REQUIRED 0x00000002
  | TYPE_JOB | TYPE_TRANSACTION | TYPE_TRANSACTION_MANAGER | TYPE_RESOURCE_MANAGER | TYPE_ENLISTMENT | TYPE_TM
  | TYPE_WORK_ITEM => Z.lor WUBU_STD_RIGHTS_REQUIRED 0x00000007
  | _ => both
  end.

(** ** Capabilities behind handles *)

Definition pid_of (c : nt_ctx) : Z := s32 (current_pid c).

(** [None] is -1; else the slot and the token of the object. *)
Definition vsl_nt_cap_acquire (c : nt_ctx) (ty : nt_object_type) (desired fd fid data : Z) : option (Z * Z) * nt_ctx :=
  match cap_ht c with
  | None => (None, c)
  | Some t =>
      let rights := vsl_nt_desired_access_to_cap desired in
      if rights =? 0 then (None, c) else
      let '(okm, st) := malloc (caps c) in
      if negb okm then (None, set_caps c st) else
      let rec := Z.of_nat (length (objrecs c)) + 1 in
      let audience := pid_of c :: replicate (WUBU_CAP_AUDIENCE_MAX - 1) WUBU_PID_NONE in
      let '(rc, objtok, st) := wubu_cap_create st (vsl_nt_kind_to_cap ty) rights (Some audience) 0 rec (pid_of c) WUBU_CAP_IDX_NONE in
      if (rc <=? 0) || wubu_cap_token_is_null objtok then (None, set_caps c st) else
      let '(htok, t, st) := wubu_cap_handle_insert st t (wubu_cap_token_idx objtok) 0 in
      if wubu_cap_token_is_null htok then (None, set_ht (set_caps c (wubu_cap_revoke st objtok).2) t) else
      (Some (wubu_cap_token_idx htok, objtok), add_objrec (set_ht (set_caps c st) t) (Objrec fd fid data ty))
  end.

Definition vsl_nt_cap_index_of (c : nt_ctx) (h : Z) : option nat :=
  fst <$> list_find (fun e => n_valid e = true /\ n_handle e = h) (entries c).

Definition entry_of (c : nt_ctx) (h : Z) : option (nat * nt_entry) :=
  i ← vsl_nt_cap_index_of c h; e ← entries c !! i; Some (i, e).

Definition vsl_nt_cap_slot_of (c : nt_ctx) (h : Z) : option Z :=
  '(_, e) ← entry_of c h; if n_backed e then Some (n_slot e) else None.

Definition vsl_nt_cap_slot_of_any (c : nt_ctx) (h : Z) : option Z :=
  t ← cap_ht c;
  match vsl_nt_cap_slot_of c h with
  | Some s => Some s
  | None => if wubu_cap_handle_slot_live t h then Some h else None
  end.

(** [wubu_cap_handle_resolve_by_slot] of the table, for the current process. *)
Definition resolve_slot (c : nt_ctx) (slot req : Z) : bool * nt_ctx :=
  match cap_ht c with
  | None => (false, c)
  | Some t =>
      let '(r, st) := wubu_cap_handle_resolve_by_slot (caps c) t (pid_of c) slot req in
      (bool_decide (is_Some r), set_caps c st)
  end.

(** The rights to ask of the capability: INSPECT when the mask asks for none. *)
Definition cap_request (desired : Z) : Z :=
  let req := vsl_nt_desired_access_to_cap desired in if req =? 0 then WUBU_RIGHT_INSPECT else req.

Definition within_ceiling (e : nt_entry) (desired : Z) : bool :=
  let want := wubu_nt_expand_generic (n_type e) desired in
  (want =? 0) || (Z.land (n_rights e) want =? want).

Definition vsl_nt_cap_resolve_handle (c : nt_ctx) (h desired : Z) : bool * nt_ctx :=
  match vsl_nt_cap_slot_of_any c h with
  | None => (false, c)
  | Some slot =>
      let '(ok, c) := resolve_slot c slot (cap_request desired) in
      if negb ok then (false, c) else
      match entry_of c h with
      | Some (_, e) => (if n_backed e then within_ceiling e desired else true, c)
      | None => (true, c)
      end
  end.

Definition vsl_nt_cap_revoke_handle (c : nt_ctx) (h : Z) : Z * nt_ctx :=
  match vsl_nt_cap_slot_of_any c h, cap_ht c with
  | Some slot, Some t =>
      let del := vsl_nt_desired_access_to_cap 0x00010000 in
      let del := if del =? 0 then WUBU_RIGHT_DELETE else del in
      let '(ok, c) := resolve_slot c slot del in
      if negb ok then (s32 NT_STATUS_ACCESS_DENIED, c) else
      let '(rc, st) := wubu_cap_handle_revoke_by_slot (caps c) t slot in
      (if rc =? WUBU_CAP_OK then 0 else if rc =? WUBU_CAP_EREVOKED then s32 NT_STATUS_ACCESS_DENIED
       else s32 NT_STATUS_INVALID_HANDLE, set_caps c st)
  | _, _ => (s32 NT_STATUS_INVALID_HANDLE, c)
  end.

Definition vsl_nt_cap_release (c : nt_ctx) (h : Z) : Z * nt_ctx :=
  match vsl_nt_cap_slot_of_any c h, cap_ht c with
  | Some slot, Some t =>
      let '(rc, t) := wubu_cap_handle_close_slot t slot in
      (if rc =? WUBU_CAP_OK then 0 else s32 NT_STATUS_INVALID_HANDLE, set_ht c t)
  | _, _ => (s32 NT_STATUS_INVALID_HANDLE, c)
  end.

(** [None] is -1; else the new slot. *)
Definition vsl_nt_cap_make_handle (c : nt_ctx) (obj_token : Z) : option Z * nt_ctx :=
  match cap_ht c with
  | None => (None, c)
  | Some t =>
      if wubu_cap_token_is_null obj_token then (None, c) else
      let '(htok, t, st) := wubu_cap_handle_insert (caps c) t (wubu_cap_token_idx obj_token) 0 in
      (if wubu_cap_token_is_null htok then None else Some (wubu_cap_token_idx htok), set_ht (set_caps c st) t)
  end.

Definition vsl_nt_cap_handle_is_valid (c : nt_ctx) (h desired : Z) : bool * nt_ctx := vsl_nt_cap_resolve_handle c h desired.

(** ** Entries and their capabilities *)

Definition vsl_nt_cap_bind (c : nt_ctx) (h : Z) (ty : nt_object_type) (desired : Z) : Z * nt_ctx :=
  if bool_decide (cap_ht c = None) || (h =? 0) then (-1, c) else
  match entry_of c h with
  | None => (-1, c)
  | Some (i, e) =>
      if n_backed e then (0, c) else
      let desired := if vsl_nt_desired_access_to_cap desired =? 0 then Z.lor desired 0x80000000 else desired in
      match vsl_nt_cap_acquire c ty desired (n_fd e) (n_fid e) (n_data e) with
      | (None, c) => (-1, c)
      | (Some (slot, tok), c) => (0, upd_entry c i (put_binding slot tok (wubu_nt_expand_generic ty desired)))
      end
  end.

Definition vsl_nt_cap_authorize (c : nt_ctx) (h desired : Z) : Z * nt_ctx :=
  match entry_of c h with
  | None => (NT_STATUS_INVALID_HANDLE, c)
  | Some (_, e) =>
      if negb (n_backed e) then (NT_STATUS_SUCCESS, c) else
      let '(ok, c) := resolve_slot c (n_slot e) (cap_request desired) in
      if negb ok then (NT_STATUS_ACCESS_DENIED, c) else
      (if within_ceiling e desired then NT_STATUS_SUCCESS else NT_STATUS_ACCESS_DENIED, c)
  end.

Definition vsl_nt_cap_unbind (c : nt_ctx) (h : Z) : Z * nt_ctx :=
  match cap_ht c, entry_of c h with
  | Some t, Some (i, e) =>
      if negb (n_backed e) then (-1, c) else
      let '(rc, t) := wubu_cap_handle_close_slot t (n_slot e) in
      (if rc =? WUBU_CAP_OK then 0 else -1, upd_entry (set_ht c t) i clear_binding)
  | _, _ => (-1, c)
  end.

Definition vsl_nt_cap_alias (c : nt_ctx) (src dst : Z) : Z * nt_ctx :=
  match cap_ht c, entry_of c src, entry_of c dst with
  | Some _, Some (_, es), Some (di, _) =>
      if negb (n_backed es) then (-1, c) else
      if wubu_cap_token_is_null (n_tok es) then (-1, c) else
      match vsl_nt_cap_make_handle c (n_tok es) with
      | (None, c) => (-1, c)
      | (Some slot, c) => (0, upd_entry c di (put_binding slot (n_tok es) (n_rights es)))
      end
  | _, _, _ => (-1, c)
  end.

Definition vsl_nt_cap_alias_reduced (c : nt_ctx) (src dst desired : Z) : Z * nt_ctx :=
  let '(rc, c) := vsl_nt_cap_alias c src dst in
  if negb (rc =? 0) then (-1, c) else
  match entry_of c dst with
  | None => (-1, c)
  | Some (di, e) =>
      (0, if desired =? 0 then c
          else upd_entry c di (put_rights (Z.land (n_rights e) (wubu_nt_expand_generic (n_type e) desired))))
  end.

Definition vsl_nt_cap_revoke_nt (c : nt_ctx) (h : Z) : Z * nt_ctx :=
  match cap_ht c, entry_of c h with
  | Some _, Some (_, e) =>
      if negb (n_backed e) then (-1, c) else
      let '(rc, c) := vsl_nt_cap_revoke_handle c (n_slot e) in
      (if negb (rc =? 0) then -1 else 0, c)
  | _, _ => (-1, c)
  end.

(** ** The handle functions *)

Definition free_entry (c : nt_ctx) : option nat := fst <$> list_find (fun e => n_valid e = false) (entries c).

(** 0 is the answer when the table is full; what [vsl_nt_cap_bind] returns is ignored. *)
Definition vsl_nt_allocate_handle (c : nt_ctx) (fd fid : Z) (ty : nt_object_type) : Z * nt_ctx :=
  match free_entry c with
  | None => (0, c)
  | Some i =>
      let h := 0x1000 + Z.of_nat i in
      let c := upd_entry c i (put_record h fd fid ty) in
      (h, (vsl_nt_cap_bind c h ty (vsl_nt_default_access_for_type ty)).2)
  end.

Definition vsl_nt_free_handle (c : nt_ctx) (h : Z) : Z * nt_ctx :=
  match entry_of c h with
  | None => (-1, c)
  | Some (i, _) => (0, upd_entry (vsl_nt_cap_unbind c h).2 i invalidate)
  end.

Definition vsl_nt_handle_to_vsl_fd (c : nt_ctx) (h : Z) : option Z := '(_, e) ← entry_of c h; Some (n_fd e).
Definition vsl_nt_handle_to_data (c : nt_ctx) (h : Z) : option Z := '(_, e) ← entry_of c h; Some (n_data e).

(** The status, the new handle where one is stored, and the new state: the part of
    [vsl_nt_duplicate_object] after its arguments are taken. *)
Definition duplicate_handle (c : nt_ctx) (src want : Z) : Z * option Z * nt_ctx :=
  match entry_of c src with
  | None => (NT_STATUS_INVALID_HANDLE, None, c)
  | Some (_, e) =>
      let '(h, c) := vsl_nt_allocate_handle c (n_fd e) (n_data e) (n_type e) in
      if h =? 0 then (NT_STATUS_UNSUCCESSFUL, None, c) else
      (NT_STATUS_SUCCESS, Some h, (vsl_nt_cap_alias_reduced c src h want).2)
  end.

(** [d_newhandle] is where the caller wants the handle; the source handle and the
    access asked for are the low 32 bits of their words. *)
Definition vsl_nt_duplicate_object (c : nt_ctx) (b_srchandle d_newhandle e : Z) : Z * option Z * nt_ctx :=
  if d_newhandle =? 0 then (NT_STATUS_INVALID_PARAMETER, None, c) else
  duplicate_handle c (u32 b_srchandle) (u32 e).

(** The status, the descriptors that are closed, and the new state. *)
Definition vsl_nt_close (c : nt_ctx) (a_handle : Z) : Z * list Z * nt_ctx :=
  let h := u32 a_handle in
  match vsl_nt_handle_to_vsl_fd c h with
  | None => (NT_STATUS_INVALID_HANDLE, [], c)
  | Some fd =>
      let c := (vsl_nt_cap_unbind c h).2 in
      let c := (vsl_nt_free_handle c h).2 in
      (NT_STATUS_SUCCESS, if fd >=? 0 then [fd] else [], c)
  end.

(** ** The security reference monitor *)

Definition se_handle_is_valid (c : nt_ctx) (h : Z) : bool :=
  if h =? 0 then false else bool_decide (is_Some (entry_of c h)).

Definition vsl_nt_cap_handle_is_bound (c : nt_ctx) (h : Z) : bool :=
  match entry_of c h with Some (_, e) => n_backed e | None => false end.

Definition NT_PRIV_ATTR_ENABLED : Z := 2.

(** [vsl_nt_token_from_handle]: the address behind the handle, 0 for none. *)
Definition vsl_nt_token_from_handle (c : nt_ctx) (h : Z) : Z :=
  match vsl_nt_handle_to_data c h with Some d => d | None => 0 end.

Definition token_subject (t : nt_token_entry) : wubu_nt_sidset :=
  let m := if imp_level t =? 0 then 0x3000 else if imp_level t >=? 3 then 0x1000 else 0x2000 in
  foldl (fun s g => if has_bits (g_attr g) NT_PRIV_ATTR_ENABLED then (wubu_nt_sidset_add s (g_sid g)).2 else s)
    (Sidset (Z.land (luid_low t) 0xFFFFFFFF) m []) (t_groups t).

Definition vsl_nt_cap_token_sidset (c : nt_ctx) (h : Z) : option wubu_nt_sidset :=
  let is_token := match entry_of c h with Some (_, e) => match n_type e with TYPE_TOKEN => true | _ => false end | None => false end in
  let ptr := if is_token then vsl_nt_token_from_handle c h else 0 in
  s ← (if ptr =? 0 then Some (Sidset (current_pid c) 0x2000 []) else token_subject <$> tokens c !! ptr);
  let owner := if owner_sid s =? 0 then g_vsl_pid c else owner_sid s in
  Some (Sidset (Z.lor owner 1) (mic s) (sids s)).

Definition vsl_nt_cap_granted_mask (c : nt_ctx) (h : Z) : Z * nt_ctx :=
  if negb (vsl_nt_cap_handle_is_bound c h) then (0xFFFFFFFF, c) else
  match entry_of c h with
  | None => (0, c)
  | Some (_, e) =>
      let '(ok, c) := resolve_slot c (n_slot e) 0 in
      (if ok then n_rights e else 0, c)
  end.

(** [None] is a fault; else the status, what is granted, and the new state. *)
Definition vsl_nt_cap_se_check (c : nt_ctx) (h : Z) (descriptor : option (list Z)) (ty : nt_object_type) (desired : Z)
    : option (Z * Z * nt_ctx) :=
  if negb (se_handle_is_valid c h) then Some (NT_STATUS_INVALID_HANDLE, 0, c) else
  subj ← vsl_nt_cap_token_sidset c h;
  '(ok, sd) ← match descriptor with
              | None => Some (true, Sd 0 None false 0x2000 true no_dacl)
              | Some p => wubu_nt_sd_read p
              end;
  if negb ok then Some (NT_STATUS_INVALID_PARAMETER, 0, c) else
  let r := wubu_nt_access_check sd subj ty desired in
  if negb (status r =? WUBU_NT_STATUS_SUCCESS) then Some (NT_STATUS_ACCESS_DENIED, 0, c) else
  if vsl_nt_cap_handle_is_bound c h then
    let '(cap_mask, c) := vsl_nt_cap_granted_mask c h in
    let g := Z.land (granted r) cap_mask in
    if negb (Z.land g desired =? desired) then Some (WUBU_NT_STATUS_ACCESS_DENIED, 0, c)
    else Some (NT_STATUS_SUCCESS, g, c)
  else Some (NT_STATUS_SUCCESS, granted r, c).
