(* ===== verification/NtCapFacts.v ===== *)
(** * The invariant of NT handles

    Every entry that is backed by a capability owns a live slot of the handle table,
    no two entries share one, and the slot names the object of the entry's token.
    Every operation keeps this, keeps the registry well formed, and destroys no
    object. *)

From stdpp Require Import gmap fin_maps.
From S2P Require Import Prelude Cap CapFacts CapAuthority CapHandles NtSd NtCap.
Open Scope Z_scope.

(** ** Handle tables without token flags *)

Definition plain (t : handle_table) : Prop := forall s e, ht_entries t !! s = Some e -> h_token_flags e = 0.

Lemma plain_insert l s e c n c' n' :
  plain {| ht_entries := l; ht_count := c; ht_next_free := n |} -> h_token_flags e = 0 ->
  plain {| ht_entries := <[s := e]> l; ht_count := c'; ht_next_free := n' |}.
Proof.
  intros H He r x. cbn. destruct (decide (r = s)) as [->|Hne].
  - intros Hx. apply list_lookup_insert_Some in Hx as [(_ & <- & _)|(? & _)]; done.
  - rewrite list_lookup_insert_ne by done. apply H.
Qed.

Lemma rebuild_plain start n head s e : (rebuild_free start n head).1 !! s = Some e -> h_token_flags e = 0.
Proof.
  revert start s. induction n as [|n IH]; intros start s; cbn [rebuild_free]; [done|].
  destruct (rebuild_free (S start) n head) as [rest h] eqn:E. specialize (IH (S start)). rewrite E in IH.
  destruct s; cbn; [by intros [= <-]|apply IH].
Qed.

Lemma new_table_plain : plain new_table.
Proof.
  unfold new_table. pose proof (rebuild_plain 1 (WUBU_CAP_HANDLE_INITIAL - 1) WUBU_CAP_HANDLE_NONE) as H.
  destruct (rebuild_free 1 _ _) as [rest h]. intros [|s] e; cbn; [by intros [= <-]|apply H].
Qed.

Lemma grow_plain st t : plain t -> plain (grow st t).1.2.
Proof.
  intros H. unfold grow. destruct (decide _); [done|]. destruct (malloc st) as [okm st']. destruct (negb okm); [done|].
  pose proof (rebuild_plain (length (ht_entries t)) (Nat.min (length (ht_entries t) * 2) WUBU_CAP_HANDLE_MAX - length (ht_entries t)) (ht_next_free t)) as Hr.
  destruct (rebuild_free _ _ _) as [rest h]. intros s e. cbn. rewrite lookup_app. destruct (ht_entries t !! s) eqn:E; [|apply Hr].
  intros [= <-]. by eapply H.
Qed.

Lemma insert_plain st t o : plain t -> plain (wubu_cap_handle_insert st t o 0).1.2.
Proof.
  intros H. unfold wubu_cap_handle_insert. destruct (_ =? _); [done|].
  assert (plain (if ht_next_free t =? WUBU_CAP_HANDLE_NONE then grow st t else (WUBU_CAP_OK, t, st)).1.2) as H1
    by (destruct (_ =? _); [by apply grow_plain|done]).
  destruct (if ht_next_free t =? WUBU_CAP_HANDLE_NONE then _ else _) as [[rc t1] st1]. cbn in H1. destruct (negb _); [done|].
  destruct (entry_at t1 _) as [e|]; [|done]. cbn. destruct t1. by eapply plain_insert.
Qed.

Lemma close_plain t tok : plain t -> plain (wubu_cap_handle_close t tok).2.
Proof.
  intros H. unfold wubu_cap_handle_close. destruct (_ >=? _); [done|]. destruct (entry_at t _) as [e|]; [|done].
  destruct (_ =? _); [done|]. cbn. destruct t. by eapply plain_insert.
Qed.

(** A table in order: a free list, no flags. *)
Definition table_ok (t : handle_table) : Prop := (exists fl, ht_ok t fl) /\ plain t.

Lemma insert_table st t o :
  table_ok t -> 0 < o < WUBU_CAP_OBJECT_CAPACITY ->
  let '(tok, t', st') := wubu_cap_handle_insert st t o 0 in
  table_ok t' /\ ptrs st' = ptrs st /\
  ((wubu_cap_token_is_null tok = true /\ t' = t) \/
   (wubu_cap_token_is_null tok = false /\ exists s, wubu_cap_token_idx tok = Z.of_nat s /\ (1 <= s < 1024)%nat /\
      slot_object t s = None /\ slot_update t t' s (Some o))).
Proof.
  intros [[fl Hfl] Hp] Ho. assert (o <> WUBU_CAP_IDX_NONE) as Hn by (unfold WUBU_CAP_IDX_NONE, WUBU_CAP_OBJECT_CAPACITY in *; lia).
  pose proof (insert_cases st t fl o 0 Hfl Hn) as H. pose proof (insert_plain st t o Hp) as Hp'. pose proof (handle_insert_ptrs st t o 0) as Hs.
  destruct (wubu_cap_handle_insert st t o 0) as [[tok t'] st']. cbn in *.
  destruct H as [(-> & -> & _)|(s & g & fl' & Hok & -> & Hg & Hs1 & Hfree & Hu & _ & _)].
  - split; [by split; [exists fl|]|]. split; [done|]. by left.
  - split; [by split; [exists fl'|]|]. split; [done|]. right. unfold WUBU_CAP_HANDLE_MAX in *.
    destruct (token_fields g (Z.of_nat s) 0 Hg) as (_ & Hi & _); [unfold_fits; lia|done|].
    unfold wubu_cap_token_is_null. rewrite Hi. split; [apply Z.eqb_neq; lia|]. exists s. split_and!; (done || lia).
Qed.

(** What a live slot looks like. *)
Lemma slot_entry t s o :
  table_ok t -> slot_object t s = Some o ->
  exists e, ht_entries t !! s = Some e /\ h_object_idx e = o /\ o <> WUBU_CAP_IDX_NONE /\ h_token_flags e = 0 /\
    fits 32 (h_local_gen e) /\ (1 <= s < 1024)%nat /\ entry_at t (Z.of_nat s) = Some e /\
    (Z.of_nat s <? 1) || (Z.of_nat s >=? ht_capacity t) = false.
Proof.
  intros [[fl Hfl] Hp] Hs. unfold slot_object in Hs. destruct (ht_entries t !! s) as [e|] eqn:He; [|done]. cbn in Hs.
  destruct (Z.eqb_spec (h_object_idx e) WUBU_CAP_IDX_NONE) as [|Hne]; [done|]. injection Hs as Hs. subst o.
  pose proof (lookup_lt_Some _ _ _ He). pose proof (hk_len _ _ Hfl). unfold WUBU_CAP_HANDLE_MAX in *.
  assert (s <> 0%nat). { intros ->. apply Hne, (hk_empty _ _ Hfl _ _ He). left. }
  exists e. split_and!; try done; try lia; [by eapply Hp|by eapply hk_gens| |].
  - unfold entry_at. destruct (Z.ltb_spec (Z.of_nat s) 0); [lia|]. by rewrite Nat2Z.id.
  - unfold ht_capacity. destruct (Z.ltb_spec (Z.of_nat s) 1); [lia|]. destruct (Z.geb_spec (Z.of_nat s) (Z.of_nat (length (ht_entries t)))); [lia|done].
Qed.

Lemma close_table t s o :
  table_ok t -> slot_object t s = Some o ->
  exists t', wubu_cap_handle_close_slot t (Z.of_nat s) = (WUBU_CAP_OK, t') /\ table_ok t' /\ slot_update t t' s None.
Proof.
  intros Ht Hs. destruct (slot_entry t s o Ht Hs) as (e & He & Ho & Hne & Hf & Hg & Hb & Ea & Er). destruct Ht as [[fl Hfl] Hp].
  unfold wubu_cap_handle_close_slot. rewrite Er, Ea, Ho, (proj2 (Z.eqb_neq _ _) Hne), Hf.
  destruct (token_fields (h_local_gen e) (Z.of_nat s) 0 Hg) as (_ & Hi & _); [unfold_fits; lia|done|].
  pose proof (close_cases t fl (wubu_cap_token_pack (h_local_gen e) (Z.of_nat s) 0) Hfl) as H. cbn zeta in H. rewrite Hi, Nat2Z.id, Hs in H.
  destruct H as (t' & g & E & Hok & Hu & _). exists t'. split_and!; [done| |done]. split; [by eexists|].
  pose proof (close_plain t (wubu_cap_token_pack (h_local_gen e) (Z.of_nat s) 0) Hp) as Hq. by rewrite E in Hq.
Qed.

Lemma slot_live_object t h :
  wubu_cap_handle_slot_live t h = true -> exists s o, h = Z.of_nat s /\ slot_object t s = Some o.
Proof.
  unfold wubu_cap_handle_slot_live, entry_at. destruct (Z.ltb_spec h 1); [done|]. destruct (_ >=? _); [done|]. cbn [orb].
  destruct (Z.ltb_spec h 0); [lia|]. destruct (ht_entries t !! Z.to_nat h) as [e|] eqn:E; [|done].
  intros Hn%negb_true_iff. exists (Z.to_nat h), (h_object_idx e). split; [lia|]. unfold slot_object. rewrite E. cbn. by rewrite Hn.
Qed.

(** ** The invariant *)

(** The entry owns slot [s] of [t], which names the object of its token. *)
Definition owns (t : handle_table) (p : gmap Z cap_object) (e : nt_entry) (s : nat) (o : cap_object) : Prop :=
  n_slot e = Z.of_nat s /\ slot_object t s = Some (wubu_cap_token_idx (n_tok e)) /\
  0 < wubu_cap_token_idx (n_tok e) < WUBU_CAP_OBJECT_CAPACITY /\
  p !! wubu_cap_token_idx (n_tok e) = Some o /\ Z.testbit (o_flags o) 1 = false /\ Z.testbit (o_flags o) 3 = false.

Record nt_ok (c : nt_ctx) : Prop := {
  ok_len : length (entries c) = 4096%nat;
  ok_handle : forall i e, entries c !! i = Some e -> n_valid e = true -> n_handle e = 0x1000 + Z.of_nat i;
  ok_caps : cap_wf (caps c);
  ok_table : forall t, cap_ht c = Some t -> table_ok t;
  ok_backed : forall i e, entries c !! i = Some e -> n_backed e = true ->
    n_valid e = true /\ exists t s o, cap_ht c = Some t /\ owns t (ptrs (caps c)) e s o;
  ok_distinct : forall i j e e', entries c !! i = Some e -> entries c !! j = Some e' ->
    n_backed e = true -> n_backed e' = true -> n_slot e = n_slot e' -> i = j }.

Lemma entry_of_Some c h i e :
  entry_of c h = Some (i, e) -> entries c !! i = Some e /\ n_valid e = true /\ n_handle e = h.
Proof.
  intros (j & Hj & H)%bind_Some. apply bind_Some in H as (x & Hx & [= <- <-]). unfold vsl_nt_cap_index_of in Hj.
  destruct (list_find _ _) as [[j' x']|] eqn:E; [|done]. injection Hj as Hj. cbn in Hj. subst j'. apply list_find_Some in E as (Hx' & Hp & _).
  rewrite Hx in Hx'. by simplify_eq.
Qed.

Lemma entry_of_intro c i e :
  nt_ok c -> entries c !! i = Some e -> n_valid e = true -> entry_of c (0x1000 + Z.of_nat i) = Some (i, e).
Proof.
  intros Hok Hi Hv. unfold entry_of, vsl_nt_cap_index_of.
  rewrite (proj2 (list_find_Some (fun e => n_valid e = true /\ n_handle e = 0x1000 + Z.of_nat i) (entries c) i e)).
  - cbn. by rewrite Hi.
  - split_and!; [done|done|by eapply ok_handle|]. intros j y Hy Hj [Hvy Hh]. rewrite (ok_handle _ Hok j y) in Hh by done. lia.
Qed.

Lemma entry_of_iff c h i e :
  nt_ok c -> entry_of c h = Some (i, e) <-> (entries c !! i = Some e /\ n_valid e = true /\ h = 0x1000 + Z.of_nat i).
Proof.
  intros Hok. split.
  - intros (H1 & H2 & H3)%entry_of_Some. split_and!; [done|done|]. by rewrite (ok_handle _ Hok i e) in H3.
  - intros (H1 & H2 & ->). by apply entry_of_intro.
Qed.

(** ** Changes of the table and of the registry *)

(** [c'] differs from [c] in the table of slots and the registry; the slots of the
    entries are kept, and no object is destroyed. *)
Record resources_move (c c' : nt_ctx) : Prop := {
  rm_entries : entries c' = entries c;
  rm_pid : current_pid c' = current_pid c;
  rm_grows : grows (ptrs (caps c)) (ptrs (caps c'));
  rm_ht : match cap_ht c, cap_ht c' with
          | Some t, Some t' => table_ok t -> table_ok t' /\
              (forall s, slot_object t s <> None -> slot_object t' s = slot_object t s)
          | None, None => True
          | _, _ => False
          end }.

Lemma resources_refl c : resources_move c c.
Proof. constructor; try done; [apply grows_refl|]. by destruct (cap_ht c). Qed.

Lemma owns_grows t t' p q e s o :
  owns t p e s o -> grows p q -> (forall i x, p !! i = Some x -> obj_wf x) ->
  slot_object t' s = slot_object t s -> exists o', owns t' q e s o' /\ ages o o'.
Proof.
  intros (H1 & H2 & H3 & H4 & H5 & H6) Hg Hw Hs. specialize (Hg (wubu_cap_token_idx (n_tok e))). unfold slot_rel in Hg. rewrite H4 in Hg.
  destruct (q !! wubu_cap_token_idx (n_tok e)) as [o'|] eqn:E; [|done]. specialize (Hg (Hw _ _ H4)). exists o'. split; [|done].
  split_and!; [done|by rewrite Hs|lia..|done| |]; rewrite ag_flags with (o := o); done || lia.
Qed.

Lemma resources_ok c c' : nt_ok c -> resources_move c c' -> nt_ok c'.
Proof.
  intros Hok [He Hp Hg Ht]. constructor.
  - rewrite He. apply Hok.
  - rewrite He. apply Hok.
  - eapply grows_wf; [exact Hg|apply Hok].
  - intros t' E. rewrite E in Ht. destruct (cap_ht c) as [t|] eqn:Ec; [|done]. apply Ht, Hok, Ec.
  - rewrite He. intros i e Hi Hb. destruct (ok_backed _ Hok i e Hi Hb) as (Hv & t & s & o & Ec & Ho). split; [done|].
    rewrite Ec in Ht. destruct (cap_ht c') as [t'|]; [|done]. destruct (Ht (ok_table _ Hok _ Ec)) as [_ Hs].
    destruct (owns_grows t t' _ _ e s o Ho Hg (cw_objs _ (ok_caps _ Hok))) as (o' & Ho' & _).
    { apply Hs. destruct Ho as (_ & Ho & _). by rewrite Ho. }
    by exists t', s, o'.
  - rewrite He. apply Hok.
Qed.

Lemma set_caps_moves c st : grows (ptrs (caps c)) (ptrs st) -> resources_move c (set_caps c st).
Proof. intros H. constructor; try done. cbn. by destruct (cap_ht c). Qed.

Lemma table_moves c t t' st :
  cap_ht c = Some t -> grows (ptrs (caps c)) (ptrs st) -> (table_ok t -> table_ok t' /\ forall s, slot_object t s <> None -> slot_object t' s = slot_object t s) ->
  resources_move c (set_ht (set_caps c st) t').
Proof. intros E H1 H2. constructor; try done. cbn. by rewrite E. Qed.

Lemma handle_resolve_ptrs st t pid tok req : ptrs (wubu_cap_handle_resolve st t pid tok req).2 = ptrs st.
Proof. unfold wubu_cap_handle_resolve. repeat (case_match; try done); apply resolve_ptrs. Qed.

Lemma by_slot_ptrs st t pid slot req : ptrs (wubu_cap_handle_resolve_by_slot st t pid slot req).2 = ptrs st.
Proof. unfold wubu_cap_handle_resolve_by_slot. repeat (case_match; try done). apply handle_resolve_ptrs. Qed.

Lemma resolve_moves c slot req :
  ptrs (caps (resolve_slot c slot req).2) = ptrs (caps c) /\ cap_ht (resolve_slot c slot req).2 = cap_ht c /\
  resources_move c (resolve_slot c slot req).2.
Proof.
  unfold resolve_slot. destruct (cap_ht c) as [t|] eqn:E; [|split_and!; [done|done|apply resources_refl]].
  pose proof (by_slot_ptrs (caps c) t (pid_of c) slot req) as H. destruct (wubu_cap_handle_resolve_by_slot _ _ _ _ _) as [r st]. cbn in *.
  split_and!; [done|done|]. apply set_caps_moves. rewrite H. apply grows_refl.
Qed.

(** What the owner of a slot may do through it. *)
Lemma resolve_spec c t s i req :
  cap_wf (caps c) -> cap_ht c = Some t -> table_ok t -> slot_object t s = Some i -> 0 < i < WUBU_CAP_OBJECT_CAPACITY ->
  ((resolve_slot c (Z.of_nat s) req).1 = true <->
   exists o, ptrs (caps c) !! i = Some o /\ o_deleted o = false /\ allows o (pid_of c) /\ rights_le req (o_rights o)).
Proof.
  intros Hw Et Ht Hs Hi. destruct (slot_entry t s i Ht Hs) as (e & He & Ho & Hne & Hf & Hg & Hb & Ea & Er).
  unfold resolve_slot, wubu_cap_handle_resolve_by_slot. rewrite Et, Er, Ea, Ho, (proj2 (Z.eqb_neq _ _) Hne), Hf.
  destruct (token_fields (h_local_gen e) (Z.of_nat s) 0 Hg) as (Eg & Ei & _); [unfold_fits; lia|done|].
  set (tok := wubu_cap_token_pack _ _ _) in *.
  pose proof (handle_resolve_spec (caps c) t s e tok (pid_of c) req Hw He Ei ltac:(by rewrite Ho) ltac:(by rewrite Hf) ltac:(by rewrite Eg)) as H.
  rewrite Ho in H. rewrite <- H. clear H.
  assert (forall x, (wubu_cap_handle_resolve (caps c) t (pid_of c) tok req).1 = Some x -> x = i) as Hx.
  { unfold wubu_cap_handle_resolve. rewrite Ei. destruct (_ >=? _); [done|]. rewrite Ea, Ho, (proj2 (Z.eqb_neq _ _) Hne).
    destruct (negb _); [done|]. intros x. set (tk := wubu_cap_token_pack _ _ _).
    assert (wubu_cap_token_idx tk = i) as Hk.
    { destruct (ptrs (caps c) !! i) as [o|] eqn:Eo.
      - apply (token_fields (o_generation o) i (h_token_flags e)); [by eapply ow_gen, cw_objs| |by rewrite Hf].
        unfold WUBU_CAP_OBJECT_CAPACITY in *. unfold fits. change (2 ^ 24) with 16777216. lia.
      - apply (token_fields 0 i (h_token_flags e)); [done| |by rewrite Hf].
        unfold WUBU_CAP_OBJECT_CAPACITY in *. unfold fits. change (2 ^ 24) with 16777216. lia. }
    pose proof (resolve_cases (caps c) (pid_of c) tk req) as H. cbn zeta in H. rewrite Hk in H.
    destruct (ptrs (caps c) !! i); [destruct (decide _); [destruct H as [[-> _]|(? & -> & _)]|rewrite H]|rewrite H]; cbn; congruence. }
  destruct (wubu_cap_handle_resolve _ _ _ _ _) as [[x|] st]; cbn in *; [rewrite (Hx x eq_refl)|]; split; try done.
Qed.

(** ** Changes of an entry *)

Lemma upd_lookup c i f j :
  entries (upd_entry c i f) !! j = if decide (i = j) then f <$> entries c !! j else entries c !! j.
Proof. cbn. destruct (decide (i = j)) as [<-|]; [by rewrite list_lookup_alter_eq|by rewrite list_lookup_alter_ne]. Qed.

Lemma upd_ok c i f e :
  nt_ok c -> entries c !! i = Some e ->
  (n_valid (f e) = true -> n_handle (f e) = 0x1000 + Z.of_nat i) ->
  (n_backed (f e) = true -> n_valid (f e) = true /\ (exists t s o, cap_ht c = Some t /\ owns t (ptrs (caps c)) (f e) s o) /\
     forall j x, j <> i -> entries c !! j = Some x -> n_backed x = true -> n_slot x <> n_slot (f e)) ->
  nt_ok (upd_entry c i f).
Proof.
  intros Hok Hi Hh Hb. constructor.
  - cbn. rewrite length_alter. apply Hok.
  - intros j x. rewrite upd_lookup. destruct (decide (i = j)) as [<-|]; [rewrite Hi; by intros [= <-]|apply Hok].
  - apply Hok.
  - apply Hok.
  - intros j x. rewrite upd_lookup. destruct (decide (i = j)) as [<-|]; [rewrite Hi; intros [= <-] H; destruct (Hb H) as (? & ? & _); by split|apply Hok].
  - intros j k x y. rewrite !upd_lookup. destruct (decide (i = j)) as [<-|Hj], (decide (i = k)) as [<-|Hk]; rewrite ?Hi; cbn [fmap option_fmap option_map].
    + done.
    + intros [= <-] Hy Hx Hby E. destruct (Hb Hx) as (_ & _ & H). by destruct (H k y).
    + intros Hx [= <-] Hbx Hy E. destruct (Hb Hy) as (_ & _ & H). by destruct (H j x).
    + apply Hok.
Qed.

(** What every operation does to a context. *)
Record nt_move (c c' : nt_ctx) : Prop := {
  mv_ok : nt_ok c -> nt_ok c';
  mv_grows : nt_ok c -> grows (ptrs (caps c)) (ptrs (caps c'));
  mv_pid : nt_ok c -> current_pid c' = current_pid c }.

Lemma move_intro c c' : (nt_ok c -> nt_move c c') -> nt_move c c'.
Proof. intros H. constructor; intros Hc; by apply H. Qed.

Lemma move_refl c : nt_move c c.
Proof. constructor; [done|intros; apply grows_refl|done]. Qed.

Lemma move_trans c1 c2 c3 : nt_move c1 c2 -> nt_move c2 c3 -> nt_move c1 c3.
Proof.
  intros [A1 B1 C1] [A2 B2 C2]. constructor; [auto| |]; intros H; [eapply grows_trans; [by apply B1|by apply B2, A1]|]. rewrite C2 by auto. auto.
Qed.

Lemma move_resources c c' : (nt_ok c -> resources_move c c') -> current_pid c' = current_pid c -> nt_move c c'.
Proof. intros H Hp. constructor; [intros; by eapply resources_ok; [|apply H]|intros Hc; by apply H|done]. Qed.

Lemma move_upd c i f : (nt_ok c -> nt_ok (upd_entry c i f)) -> nt_move c (upd_entry c i f).
Proof. intros H. constructor; [done|intros; apply grows_refl|done]. Qed.

(** ** New capabilities *)

(** [slot] is a slot of [c'] that no entry of [c] owned; it names the object of [tok]. *)
Definition new_slot (c c' : nt_ctx) (slot tok : Z) (o : cap_object) : Prop :=
  exists t t' s, cap_ht c = Some t /\ cap_ht c' = Some t' /\ slot = Z.of_nat s /\ slot_object t s = None /\
    slot_object t' s = Some (wubu_cap_token_idx tok) /\ 0 < wubu_cap_token_idx tok < WUBU_CAP_OBJECT_CAPACITY /\
    ptrs (caps c') !! wubu_cap_token_idx tok = Some o.

Lemma new_slot_unowned c c' slot tok o j x :
  nt_ok c -> new_slot c c' slot tok o -> entries c !! j = Some x -> n_backed x = true -> n_slot x <> slot.
Proof.
  intros Hok (t & t' & s & Et & _ & -> & Hn & _) Hj Hb E. destruct (ok_backed _ Hok j x Hj Hb) as (_ & t0 & s0 & o0 & Et0 & Hs0 & Ho0 & _).
  simplify_eq. rewrite E in Hs0. apply Nat2Z.inj in Hs0 as ->. congruence.
Qed.

Lemma to_cap_step a l : forall r, fits 64 r -> Forall (fun '(_, x) => fits 64 x) l ->
  fits 64 (foldl (fun r '(mask, rights) => if has_bits a mask then Z.lor r rights else r) r l).
Proof.
  induction l as [|[m x] l IH]; intros r Hr Hl; [done|]. apply Forall_cons in Hl as [Hx Hl]. cbn [foldl]. apply IH; [|done].
  destruct (has_bits a m); [|done]. destruct Hr as [Hr1 Hr2], Hx as [Hx1 Hx2]. split; [by apply Z.lor_nonneg|].
  destruct (Z.eq_dec (Z.lor r x) 0) as [->|Hz]; [done|]. assert (0 <= Z.lor r x) by (by apply Z.lor_nonneg).
  apply Z.log2_lt_pow2; [lia|]. rewrite Z.log2_lor by done. apply Z.max_lub_lt.
  - destruct (Z.eq_dec r 0) as [->|]; [reflexivity|apply Z.log2_lt_pow2; lia].
  - destruct (Z.eq_dec x 0) as [->|]; [reflexivity|apply Z.log2_lt_pow2; lia].
Qed.

Lemma to_cap_fits a : fits 64 (vsl_nt_desired_access_to_cap a).
Proof. apply to_cap_step; [done|]. repeat constructor; vm_compute; intuition discriminate. Qed.

Lemma malloc_ptrs st : ptrs (malloc st).2 = ptrs st.
Proof. done. Qed.

Lemma authority_object (p : gmap Z cap_object) (i : Z) o : authority <$> p !! i = Some (authority o) -> exists o', p !! i = Some o' /\ authority o' = authority o.
Proof. destruct (p !! i) as [o'|]; [|done]. cbn. intros [= E]. exists o'. split; [done|]. unfold authority. congruence. Qed.

(** What [vsl_nt_cap_acquire] makes: a live object for this process alone, with the
    rights the mask stands for. *)
Definition fresh_object (c : nt_ctx) (desired : Z) (o : cap_object) : Prop :=
  o_deleted o = false /\ o_rights o = vsl_nt_desired_access_to_cap desired /\
  Z.testbit (o_flags o) 1 = false /\ Z.testbit (o_flags o) 3 = false /\
  (pid_of c <> WUBU_PID_NONE -> allows o (pid_of c)).

Lemma new_object_fresh c desired kind rec o :
  authority o = authority (new_object kind (vsl_nt_desired_access_to_cap desired)
    (cap_copy_audience (Some (pid_of c :: replicate (WUBU_CAP_AUDIENCE_MAX - 1) WUBU_PID_NONE)) (pid_of c)) 0 rec (pid_of c) WUBU_CAP_IDX_NONE) ->
  fresh_object c desired o.
Proof.
  unfold authority. cbn [new_object o_kind o_deleted o_generation o_rights o_kind_data o_audience o_flags o_owner_pid].
  intros E. injection E as _ Hd _ Hr _ Ha Hf _. unfold fresh_object. rewrite Hf, !new_flags_bit by lia.
  split_and!; [done|done|done|done|]. intros Hp. apply allows_spec. right. rewrite Ha. cbn.
  destruct (Z.eqb_spec (pid_of c) WUBU_PID_NONE); [done|]. by left.
Qed.

Lemma acquire_spec c ty desired fd fid data :
  let '(r, c') := vsl_nt_cap_acquire c ty desired fd fid data in
  nt_move c c' /\ entries c' = entries c /\
  (nt_ok c -> resources_move c c' /\
   match r with
   | None => True
   | Some (slot, tok) => exists o, new_slot c c' slot tok o /\ fresh_object c desired o
   end).
Proof.
  assert (forall c' (P : Prop), current_pid c' = current_pid c -> entries c' = entries c -> (nt_ok c -> resources_move c c' /\ P) ->
    nt_move c c' /\ entries c' = entries c /\ (nt_ok c -> resources_move c c' /\ P)) as Hred.
  { intros c' P Hp He H. split_and!; [|done|done]. apply move_resources; [|done]. intros Hc. by apply H. }
  unfold vsl_nt_cap_acquire. destruct (cap_ht c) as [t|] eqn:Et.
  2:{ apply Hred; [done|done|]. intros _. split; [apply resources_refl|done]. }
  destruct (_ =? 0); [apply Hred; [done|done|]; intros _; split; [apply resources_refl|done]|].
  pose proof (malloc_ptrs (caps c)) as Hm. destruct (malloc (caps c)) as [okm st]. cbn in Hm.
  destruct (negb okm). { apply Hred; [done|done|]. intros _. split; [|done]. apply set_caps_moves. rewrite Hm. apply grows_refl. }
  set (aud := Some _). set (rec := _ + 1).
  pose proof (create_cases st (vsl_nt_kind_to_cap ty) (vsl_nt_desired_access_to_cap desired) aud 0 rec (pid_of c) WUBU_CAP_IDX_NONE) as Hc.
  pose proof (create_grows st (vsl_nt_kind_to_cap ty) (vsl_nt_desired_access_to_cap desired) aud 0 rec (pid_of c) WUBU_CAP_IDX_NONE
    ltac:(done) (to_cap_fits desired)) as Hg.
  destruct (wubu_cap_create st _ _ _ _ _ _ _) as [[rc tok] st1]. cbn [snd] in Hg. rewrite Hm in Hg.
  destruct ((rc <=? 0) || wubu_cap_token_is_null tok) eqn:Erc.
  { apply Hred; [done|done|]. intros _. split; [|done]. by apply set_caps_moves. }
  apply orb_false_iff in Erc as [Erc%Z.leb_gt _].
  destruct Hc as (_ & _ & [[-> _]|(Hr & -> & _ & Ho)]); [done|].
  assert (wubu_cap_token_idx (wubu_cap_token_pack 1 rc (o_flags (new_object (vsl_nt_kind_to_cap ty) (vsl_nt_desired_access_to_cap desired)
     (cap_copy_audience aud (pid_of c)) 0 rec (pid_of c) WUBU_CAP_IDX_NONE))) = rc) as Hi.
  { apply token_fields; [done| |]; [unfold WUBU_CAP_OBJECT_CAPACITY in *; unfold fits; change (2 ^ 24) with 16777216; lia|].
    by apply new_flags_fits. }
  set (tok := wubu_cap_token_pack 1 rc _) in *. rewrite Hi.
  destruct (wubu_cap_handle_insert st1 t rc 0) as [[htok t'] st2] eqn:Ei.
  pose proof (fun Hok => insert_table st1 t rc (ok_table c Hok t Et) ltac:(lia)) as Hins. rewrite Ei in Hins.
  destruct (wubu_cap_token_is_null htok) eqn:En; apply Hred; try done; intros Hok; destruct (Hins Hok) as (Ht' & Hp2 & Hcase).
  - destruct Hcase as [[_ ->]|[? _]]; [|done]. split; [|done]. apply (table_moves c t t); [done| |done].
    pose proof (revoke_grows st2 tok) as H. rewrite Hp2 in H. by eapply grows_trans.
  - destruct Hcase as [[? _]|(_ & s & Hs & Hb & Hn & Hu)]; [done|].
    assert (resources_move c (set_ht (set_caps c st2) t')) as Hmv.
    { apply (table_moves c t t'); [done|by rewrite Hp2|]. intros _. split; [done|]. intros r Hr'. apply (su_others _ _ _ _ Hu). by intros ->. }
    split; [constructor; apply Hmv|]. destruct (authority_object _ _ _ Ho) as (o & Eo & Ea).
    exists o. split; [|by eapply new_object_fresh]. exists t, t', s. cbn. rewrite Hi, Hp2. split_and!; try done; try lia. apply Hu.
Qed.

Lemma make_spec c tok :
  0 < wubu_cap_token_idx tok < WUBU_CAP_OBJECT_CAPACITY ->
  let '(r, c') := vsl_nt_cap_make_handle c tok in
  nt_move c c' /\ entries c' = entries c /\
  (nt_ok c -> resources_move c c' /\ ptrs (caps c') = ptrs (caps c) /\
   match r with
   | None => True
   | Some slot => forall o, ptrs (caps c) !! wubu_cap_token_idx tok = Some o -> new_slot c c' slot tok o
   end).
Proof.
  intros Hr. unfold vsl_nt_cap_make_handle. destruct (cap_ht c) as [t|] eqn:Et.
  2:{ split; [apply move_refl|]. split; [done|]. intros _. split_and!; [apply resources_refl|done|done]. }
  unfold wubu_cap_token_is_null at 1. rewrite (proj2 (Z.eqb_neq _ 0)) by lia.
  destruct (wubu_cap_handle_insert (caps c) t (wubu_cap_token_idx tok) 0) as [[htok t'] st'] eqn:Ei.
  assert (nt_ok c -> resources_move c (set_ht (set_caps c st') t') /\ ptrs st' = ptrs (caps c) /\
    (wubu_cap_token_is_null htok = false -> exists s, wubu_cap_token_idx htok = Z.of_nat s /\ slot_object t s = None /\
       slot_object t' s = Some (wubu_cap_token_idx tok))) as H.
  { intros Hok. pose proof (insert_table (caps c) t _ (ok_table _ Hok _ Et) Hr) as H. rewrite Ei in H. destruct H as (Ht' & Hp & Hcase).
    split_and!; [|done|].
    - apply (table_moves c t t'); [done|rewrite Hp; apply grows_refl|]. intros _. split; [done|]. intros s Hs.
      destruct Hcase as [[_ ->]|(_ & s' & _ & _ & Hn & Hu)]; [done|]. apply (su_others _ _ _ _ Hu). by intros ->.
    - intros Hn. destruct Hcase as [[? _]|(_ & s & Hs & _ & Hfree & Hu)]; [congruence|]. exists s. split_and!; [done|done|apply Hu]. }
  split; [apply move_resources; [|done]; intros Hc; by apply H|]. split; [done|]. intros Hc. destruct (H Hc) as (H1 & H2 & H3).
  split_and!; [done|done|]. destruct (wubu_cap_token_is_null htok); [done|]. intros o Ho. destruct (H3 eq_refl) as (s & Hs & Hn & Hs').
  exists t, t', s. cbn. rewrite H2. split_and!; (done || lia).
Qed.

(** Binding an entry to a new slot. *)
Lemma put_binding_ok c c' i e slot tok o rights :
  nt_ok c -> resources_move c c' -> entries c' !! i = Some e -> n_valid e = true -> new_slot c c' slot tok o ->
  Z.testbit (o_flags o) 1 = false -> Z.testbit (o_flags o) 3 = false ->
  nt_ok (upd_entry c' i (put_binding slot tok rights)).
Proof.
  intros Hok Hm Hi Hv Hn H1 H3. apply (upd_ok c' i _ e); [by eapply resources_ok|done| |].
  - intros _. rewrite (rm_entries _ _ Hm) in Hi. cbn. by eapply ok_handle.
  - intros _. split; [done|]. split.
    + destruct Hn as (t & t' & s & _ & Et' & Hs & _ & Ho & Hr & Hp). exists t', s, o. split; [done|]. unfold owns. cbn. split_and!; (done || lia).
    + rewrite (rm_entries _ _ Hm). cbn. intros j x _ Hj Hb. by eapply new_slot_unowned.
Qed.

Lemma bind_move c h ty desired : nt_move c (vsl_nt_cap_bind c h ty desired).2.
Proof.
  unfold vsl_nt_cap_bind. destruct (_ || _); [apply move_refl|]. destruct (entry_of c h) as [[i e]|] eqn:Ee; [|apply move_refl].
  destruct (n_backed e); [apply move_refl|]. set (d := if _ =? 0 then _ else _).
  pose proof (acquire_spec c ty d (n_fd e) (n_fid e) (n_data e)) as H. destruct (vsl_nt_cap_acquire _ _ _ _ _ _) as [[[slot tok]|] c'];
    destruct H as (Hmv & He & H); [|done]. apply move_intro. intros Hok. destruct (H Hok) as (Hm & o & Hn & _ & _ & Hf1 & Hf3 & _).
  eapply move_trans; [exact Hmv|]. apply move_upd. intros _. apply entry_of_Some in Ee as (Hi & Hv & _). eapply put_binding_ok; try done. by rewrite He.
Qed.

Lemma authorize_move c h desired : nt_move c (vsl_nt_cap_authorize c h desired).2.
Proof.
  unfold vsl_nt_cap_authorize. destruct (entry_of c h) as [[i e]|]; [|apply move_refl]. destruct (negb _); [apply move_refl|].
  destruct (resolve_moves c (n_slot e) (cap_request desired)) as (_ & _ & Hm).
  destruct (resolve_slot _ _ _) as [ok c']. assert (nt_move c c') by (apply move_resources; [done|apply Hm]). by destruct (negb ok).
Qed.

(** A backed entry, its slot and its object. *)
Lemma backed_entry c h i e :
  nt_ok c -> entry_of c h = Some (i, e) -> n_backed e = true ->
  exists t s o, cap_ht c = Some t /\ table_ok t /\ owns t (ptrs (caps c)) e s o.
Proof.
  intros Hok (Hi & _ & _)%entry_of_Some Hb. destruct (ok_backed _ Hok i e Hi Hb) as (_ & t & s & o & Et & Ho).
  exists t, s, o. split_and!; [done|by eapply ok_table|done].
Qed.

Lemma alias_spec c src dst :
  let '(rc, c') := vsl_nt_cap_alias c src dst in
  nt_move c c' /\
  (nt_ok c -> rc = 0 -> exists si es di ed t' s o, entry_of c src = Some (si, es) /\ n_backed es = true /\ entry_of c dst = Some (di, ed) /\
     entries c' = alter (put_binding (Z.of_nat s) (n_tok es) (n_rights es)) di (entries c) /\
     ptrs (caps c') = ptrs (caps c) /\ ptrs (caps c) !! wubu_cap_token_idx (n_tok es) = Some o /\ cap_ht c' = Some t').
Proof.
  unfold vsl_nt_cap_alias. destruct (cap_ht c) as [t|] eqn:Et; [|split; [apply move_refl|done]].
  destruct (entry_of c src) as [[si es]|] eqn:Es; [|split; [apply move_refl|done]].
  destruct (entry_of c dst) as [[di ed]|] eqn:Ed; [|split; [apply move_refl|done]].
  destruct (n_backed es) eqn:Eb; cbn [negb]; [|split; [apply move_refl|done]].
  destruct (wubu_cap_token_is_null (n_tok es)); [split; [apply move_refl|done]|].
  destruct (vsl_nt_cap_make_handle c (n_tok es)) as [[slot|] c'] eqn:Em.
  2:{ split; [|done]. apply move_intro. intros Hok. destruct (backed_entry c src si es Hok Es Eb) as (t0 & s0 & o0 & _ & _ & _ & _ & Hr & _).
      pose proof (make_spec c (n_tok es) Hr) as H. rewrite Em in H. apply H. }
  assert (nt_ok c -> nt_move c c' /\ entries c' = entries c /\ exists o s, ptrs (caps c) !! wubu_cap_token_idx (n_tok es) = Some o /\
    ptrs (caps c') = ptrs (caps c) /\ slot = Z.of_nat s /\ nt_ok (upd_entry c' di (put_binding slot (n_tok es) (n_rights es))) /\
    exists t', cap_ht c' = Some t') as H.
  { intros Hok. destruct (backed_entry c src si es Hok Es Eb) as (t0 & s0 & o0 & _ & _ & _ & _ & Hr & Ho & H1 & H3).
    pose proof (make_spec c (n_tok es) Hr) as H. rewrite Em in H. destruct H as (Hmv & He & H). destruct (H Hok) as (Hm & Hp & Hn).
    split; [done|]. split; [done|]. specialize (Hn o0 Ho). pose proof Hn as (_ & t' & s & _ & Et' & Hs & _). exists o0, s.
    split_and!; [done|done|done| |by exists t']. apply entry_of_Some in Ed as (Hi & Hv & _). eapply put_binding_ok; try done. by rewrite He. }
  split.
  - apply move_intro. intros Hok. destruct (H Hok) as (Hmv & _ & o & s & _ & _ & _ & Hok' & _). eapply move_trans; [exact Hmv|]. by apply move_upd.
  - intros Hok _. destruct (H Hok) as (_ & He & o & s & Ho & Hp & -> & _ & t' & Et'). exists si, es, di, ed, t', s, o. cbn. rewrite He. by split_and!.
Qed.

Lemma put_rights_ok c i r : nt_ok c -> nt_ok (upd_entry c i (put_rights r)).
Proof.
  intros Hok. destruct (entries c !! i) as [e|] eqn:Ei.
  - apply (upd_ok c i _ e); [done|done|exact (ok_handle _ Hok i e Ei)|]. intros Hb. destruct (ok_backed _ Hok i e Ei Hb) as (Hv & Ho). split_and!; [done|done|].
    intros j x Hj Hx Hbx E. apply Hj. by eapply ok_distinct.
  - assert (alter (put_rights r) i (entries c) = entries c) as E.
    { apply list_eq. intros j. destruct (decide (i = j)) as [<-|]; [by rewrite list_lookup_alter_eq, Ei|by rewrite list_lookup_alter_ne]. }
    unfold upd_entry. rewrite E. by destruct c.
Qed.

Lemma alias_reduced_move c src dst desired : nt_move c (vsl_nt_cap_alias_reduced c src dst desired).2.
Proof.
  unfold vsl_nt_cap_alias_reduced. pose proof (alias_spec c src dst) as H. destruct (vsl_nt_cap_alias c src dst) as [rc c']. destruct H as [H _].
  destruct (negb _); [done|]. destruct (entry_of c' dst) as [[di e]|]; [|done]. cbn [snd]. destruct (_ =? 0); [done|].
  eapply move_trans; [exact H|]. apply move_upd, put_rights_ok.
Qed.

Lemma unbind_ok c t t' i e s :
  nt_ok c -> cap_ht c = Some t -> entries c !! i = Some e -> n_backed e = true -> n_slot e = Z.of_nat s ->
  table_ok t' -> slot_update t t' s None -> nt_ok (upd_entry (set_ht c t') i clear_binding).
Proof.
  intros Hok Et Hi Hb Hs Ht' Hu.
  assert (nt_ok (upd_entry c i clear_binding)) as H1 by (apply (upd_ok c i _ e); [done|done|exact (ok_handle _ Hok i e Hi)|done]).
  constructor; try apply H1.
  - cbn. by intros ? [= <-].
  - intros j x Hj Hbx. destruct (ok_backed _ H1 j x Hj Hbx) as (Hv & t0 & s0 & o & Et0 & Ho). split; [done|].
    cbn in Et0. simplify_eq. exists t', s0, o. split; [done|]. destruct Ho as (Hs0 & Hso & Ho). split; [done|]. split; [|done].
    rewrite <- Hso. apply (su_others _ _ _ _ Hu). intros ->.
    change (entries (upd_entry (set_ht c t') i clear_binding)) with (entries (upd_entry c i clear_binding)) in Hj. rewrite upd_lookup in Hj.
    destruct (decide (i = j)) as [<-|Hne]; [rewrite Hi in Hj; injection Hj as <-; discriminate Hbx|]. apply Hne. by apply (ok_distinct _ Hok i j e x); [..|congruence].
Qed.

Lemma unbind_spec c h :
  let '(rc, c') := vsl_nt_cap_unbind c h in
  nt_move c c' /\ (nt_ok c -> forall i e, entry_of c h = Some (i, e) -> exists e', entries c' !! i = Some e' /\ n_backed e' = false /\ n_valid e' = true).
Proof.
  unfold vsl_nt_cap_unbind. destruct (cap_ht c) as [t|] eqn:Et.
  2:{ split; [apply move_refl|]. intros Hok i e (Hi & Hv & _)%entry_of_Some. exists e. split_and!; [done| |done].
      destruct (n_backed e) eqn:Eb; [|done]. destruct (ok_backed _ Hok i e Hi Eb) as (_ & ? & ? & ? & ? & _). congruence. }
  destruct (entry_of c h) as [[i e]|] eqn:Ee; [|split; [apply move_refl|done]]. pose proof (entry_of_Some _ _ _ _ Ee) as (Hi & Hv & _).
  destruct (n_backed e) eqn:Eb; cbn [negb].
  2:{ split; [apply move_refl|]. intros _ ? ? [= <- <-]. by exists e. }
  destruct (wubu_cap_handle_close_slot t (n_slot e)) as [rc t'] eqn:Ec. split.
  - apply move_intro. intros Hok. destruct (backed_entry c h i e Hok Ee Eb) as (t0 & s & o & Et0 & Ht & Hs & Hso & _). simplify_eq.
    destruct (close_table t s _ Ht Hso) as (t1 & E1 & Ht1 & Hu). rewrite Hs, E1 in Ec. simplify_eq.
    constructor; [intros _; by eapply unbind_ok|intros _; apply grows_refl|done].
  - intros _ ? ? [= <- <-]. eexists. rewrite upd_lookup, decide_True by done. cbn. rewrite Hi. split; [done|]. by split.
Qed.

Lemma invalidate_ok c i e : nt_ok c -> entries c !! i = Some e -> n_backed e = false -> nt_ok (upd_entry c i invalidate).
Proof. intros Hok Hi Hb. apply (upd_ok c i _ e); [done|done|done|]. cbn. congruence. Qed.

Lemma free_move c h : nt_move c (vsl_nt_free_handle c h).2.
Proof.
  unfold vsl_nt_free_handle. destruct (entry_of c h) as [[i e]|] eqn:Ee; [|apply move_refl]. cbn [snd].
  pose proof (unbind_spec c h) as H. destruct (vsl_nt_cap_unbind c h) as [rc c']. destruct H as [Hm H]. apply move_intro. intros Hok.
  eapply move_trans; [exact Hm|]. apply move_upd. intros Hok'. destruct (H Hok i e Ee) as (e' & Hi & Hb & _). by eapply invalidate_ok.
Qed.

Lemma close_move c h : nt_move c (vsl_nt_close c h).2.
Proof.
  unfold vsl_nt_close. generalize (u32 h). clear h. intros h. cbv zeta. destruct (vsl_nt_handle_to_vsl_fd c h); [|apply move_refl]. cbn [snd]. eapply move_trans; [|apply free_move].
  pose proof (unbind_spec c h) as H. destruct (vsl_nt_cap_unbind c h). apply H.
Qed.

Lemma free_entry_Some c i : free_entry c = Some i -> exists e, entries c !! i = Some e /\ n_valid e = false.
Proof.
  unfold free_entry. destruct (list_find _ _) as [[j x]|] eqn:E; [|done]. intros [= <-]. apply list_find_Some in E as (H & Hv & _). by exists x.
Qed.

Lemma put_record_ok c i e fd fid ty :
  nt_ok c -> entries c !! i = Some e -> n_valid e = false -> nt_ok (upd_entry c i (put_record (0x1000 + Z.of_nat i) fd fid ty)).
Proof.
  intros Hok Hi Hv. apply (upd_ok c i _ e); [done|done|done|]. cbn. intros Hb. destruct (ok_backed _ Hok i e Hi Hb) as [? _]. congruence.
Qed.

Lemma allocate_move c fd fid ty : nt_move c (vsl_nt_allocate_handle c fd fid ty).2.
Proof.
  unfold vsl_nt_allocate_handle. destruct (free_entry c) as [i|] eqn:Ef; [|apply move_refl]. cbn [snd].
  destruct (free_entry_Some c i Ef) as (e & Hi & Hv). eapply move_trans; [|apply bind_move]. apply move_upd. intros Hok. by eapply put_record_ok.
Qed.

Lemma duplicate_handle_move c src want : nt_move c (duplicate_handle c src want).2.
Proof.
  unfold duplicate_handle. destruct (entry_of c src) as [[i e]|]; [|apply move_refl].
  pose proof (allocate_move c (n_fd e) (n_data e) (n_type e)) as H. destruct (vsl_nt_allocate_handle _ _ _ _) as [h c']. cbn [snd] in H.
  destruct (_ =? 0); [done|]. cbn [snd]. eapply move_trans; [exact H|apply alias_reduced_move].
Qed.

Lemma duplicate_move c b d e : nt_move c (vsl_nt_duplicate_object c b d e).2.
Proof. unfold vsl_nt_duplicate_object. destruct (_ =? 0); [apply move_refl|apply duplicate_handle_move]. Qed.

(** ** Slots without an entry *)

Definition slot_unbound (c : nt_ctx) (slot : Z) : Prop :=
  forall i e, entries c !! i = Some e -> n_backed e = true -> n_slot e <> slot.

Lemma slot_of_any_live c h slot t :
  nt_ok c -> cap_ht c = Some t -> vsl_nt_cap_slot_of_any c h = Some slot ->
  exists s o, slot = Z.of_nat s /\ slot_object t s = Some o.
Proof.
  intros Hok Et. unfold vsl_nt_cap_slot_of_any, vsl_nt_cap_slot_of. rewrite Et. cbn [mbind option_bind].
  destruct (entry_of c h) as [[i e]|] eqn:Ee; cbn [mbind option_bind].
  - destruct (n_backed e) eqn:Eb.
    + intros [= <-]. destruct (backed_entry c h i e Hok Ee Eb) as (t0 & s & o & Et0 & _ & Hs & Hso & _).
      rewrite Et in Et0. injection Et0 as <-. eauto.
    + destruct (wubu_cap_handle_slot_live t h) eqn:El; [|done]. intros [= <-]. by apply slot_live_object.
  - destruct (wubu_cap_handle_slot_live t h) eqn:El; [|done]. intros [= <-]. by apply slot_live_object.
Qed.

(** Closing a slot that no entry is bound to. *)
Lemma release_move c h :
  (forall slot, vsl_nt_cap_slot_of_any c h = Some slot -> slot_unbound c slot) -> nt_move c (vsl_nt_cap_release c h).2.
Proof.
  intros Hu. unfold vsl_nt_cap_release. destruct (vsl_nt_cap_slot_of_any c h) as [slot|] eqn:Es; [|apply move_refl].
  destruct (cap_ht c) as [t|] eqn:Et; [|apply move_refl]. apply move_intro. intros Hok. specialize (Hu slot eq_refl).
  destruct (slot_of_any_live c h slot t Hok Et Es) as (s & o & -> & Hso).
  destruct (close_table t s o (ok_table _ Hok _ Et) Hso) as (t' & -> & Ht' & Hupd). cbn [snd].
  constructor; [intros _|intros _; apply grows_refl|done]. constructor; cbn [set_ht entries caps cap_ht]; try apply Hok.
  - by intros ? [= <-].
  - intros i e Hi Hb. destruct (ok_backed _ Hok i e Hi Hb) as (Hv & t0 & s0 & o0 & Et0 & H1 & H2 & H3). split; [done|].
    rewrite Et in Et0. injection Et0 as <-. exists t', s0, o0. split; [done|]. split; [done|]. split; [|done].
    rewrite (su_others _ _ _ _ Hupd); [done|]. intros ->. by apply (Hu i e Hi Hb).
Qed.

Lemma resolve_handle_move c h desired : nt_move c (vsl_nt_cap_resolve_handle c h desired).2.
Proof.
  unfold vsl_nt_cap_resolve_handle. destruct (vsl_nt_cap_slot_of_any c h) as [slot|]; [|apply move_refl].
  destruct (resolve_moves c slot (cap_request desired)) as (_ & _ & Hm). destruct (resolve_slot _ _ _) as [ok c'].
  assert (nt_move c c') as H by (apply move_resources; [done|apply Hm]).
  destruct (negb ok); [done|]. by destruct (entry_of c' h) as [[i e]|].
Qed.

Lemma make_move c tok : wubu_cap_token_idx tok < WUBU_CAP_OBJECT_CAPACITY -> nt_move c (vsl_nt_cap_make_handle c tok).2.
Proof.
  intros Hlt. destruct (decide (wubu_cap_token_idx tok = 0)) as [E|Hn].
  - unfold vsl_nt_cap_make_handle, wubu_cap_token_is_null. destruct (cap_ht c); [|apply move_refl].
    rewrite E. apply move_refl.
  - pose proof (token_idx_fits tok) as Hf. unfold fits in Hf.
    pose proof (make_spec c tok ltac:(lia)) as H. destruct (vsl_nt_cap_make_handle c tok). apply H.
Qed.

(** ** Revocation *)

Lemma by_slot_revoke_grows st t slot : grows (ptrs st) (ptrs (wubu_cap_handle_revoke_by_slot st t slot).2).
Proof.
  unfold wubu_cap_handle_revoke_by_slot. destruct (_ || _); [apply grows_refl|]. destruct (entry_at t slot) as [e|]; [|apply grows_refl].
  destruct (_ =? _); [apply grows_refl|]. destruct (ptrs st !! h_object_idx e) as [o|]; [|apply grows_refl].
  destruct (o_deleted o); [apply grows_refl|]. set (tok := wubu_cap_token_pack _ _ _). pose proof (revoke_grows st tok) as H.
  by destruct (wubu_cap_revoke st tok).
Qed.

Lemma revoke_handle_moves c h : resources_move c (vsl_nt_cap_revoke_handle c h).2.
Proof.
  unfold vsl_nt_cap_revoke_handle. destruct (vsl_nt_cap_slot_of_any c h) as [slot|]; [|apply resources_refl].
  destruct (cap_ht c) as [t|] eqn:Et; [|apply resources_refl]. set (del := if _ =? 0 then _ else _).
  clearbody del. destruct (resolve_moves c slot del) as (Hp & Hh & Hm). destruct (resolve_slot c slot del) as [ok c']. cbn [snd] in Hp, Hh, Hm.
  destruct (negb ok); [done|]. pose proof (by_slot_revoke_grows (caps c') t slot) as Hg. destruct (wubu_cap_handle_revoke_by_slot _ _ _) as [rc st]. cbn [snd] in *.
  constructor; [apply Hm|apply Hm| |cbn; by rewrite Et, Hh, Et]. cbn. by rewrite <- Hp.
Qed.

Lemma revoke_move c h : nt_move c (vsl_nt_cap_revoke_nt c h).2.
Proof.
  unfold vsl_nt_cap_revoke_nt. destruct (cap_ht c); [|apply move_refl]. destruct (entry_of c h) as [[i e]|]; [|apply move_refl].
  destruct (negb _); [apply move_refl|]. pose proof (revoke_handle_moves c (n_slot e)) as H. destruct (vsl_nt_cap_revoke_handle _ _). cbn [snd] in *.
  by apply move_resources; [|apply H].
Qed.

(** ** What other handles see *)

(** Every object of [p] is in [q], with the same authority. *)
Definition keeps (p q : gmap Z cap_object) : Prop :=
  forall i o, p !! i = Some o -> exists o', q !! i = Some o' /\ authority o' = authority o.

Lemma keeps_refl p : keeps p p.
Proof. intros i o H. by exists o. Qed.

Lemma create_keeps st kind rights aud flags kd owner parent :
  let '(rc, tok, st') := wubu_cap_create st kind rights aud flags kd owner parent in
  keeps (ptrs st) (ptrs st') /\ (0 < rc -> ptrs st !! rc = None).
Proof.
  pose proof (create_cases st kind rights aud flags kd owner parent) as H. destruct (wubu_cap_create _ _ _ _ _ _ _ _) as [[rc tok] st'].
  destruct H as (Hne & H0 & Hrc). split.
  - intros i o Hi. apply authority_object. transitivity (authority <$> ptrs st !! i); [|by rewrite Hi].
    destruct (decide (i = 0)) as [->|Hi0]; [destruct H0 as [H0|[H0 _]]; [exact H0|congruence]|]. apply Hne; [done|].
    destruct Hrc as [[-> _]|(_ & _ & Hn & _)]; [by left|right; congruence].
  - intros Hpos. destruct Hrc as [[-> _]|(_ & _ & Hn & _)]; done.
Qed.

Lemma revoke_at st tok o :
  ptrs st !! wubu_cap_token_idx tok = Some o -> 0 < wubu_cap_token_idx tok < WUBU_CAP_OBJECT_CAPACITY ->
  Z.testbit (o_flags o) 1 = false -> Z.testbit (o_flags o) 3 = false -> o_deleted o = false ->
  wubu_cap_revoke st tok = (1, set_ptrs st (<[wubu_cap_token_idx tok := mark_deleted o]> (ptrs st))).
Proof.
  intros Ho Hr H1 H3 Hd. unfold wubu_cap_revoke. rewrite (proj2 (Z.eqb_neq _ 0)) by lia.
  destruct (Z.geb_spec (wubu_cap_token_idx tok) WUBU_CAP_OBJECT_CAPACITY); [lia|]. cbn [orb]. rewrite Ho.
  rewrite immortal_bit, H3, Hd. unfold has_flag. change WUBU_CAP_FLAG_EAGER_REVOKE with (2 ^ 1). by rewrite land_pow2_bit, H1 by lia.
Qed.

Lemma acquire_keeps c ty desired fd fid data :
  nt_ok c -> keeps (ptrs (caps c)) (ptrs (caps (vsl_nt_cap_acquire c ty desired fd fid data).2)).
Proof.
  intros Hok. unfold vsl_nt_cap_acquire. destruct (cap_ht c) as [t|] eqn:Et; [|apply keeps_refl].
  destruct (_ =? 0); [apply keeps_refl|]. pose proof (malloc_ptrs (caps c)) as Hm. destruct (malloc (caps c)) as [okm st]. cbn [snd] in Hm.
  destruct (negb okm); [cbn; rewrite Hm; apply keeps_refl|]. set (aud := Some _). set (rec := _ + 1). set (kind := vsl_nt_kind_to_cap ty).
  set (rights := vsl_nt_desired_access_to_cap desired).
  pose proof (create_cases st kind rights aud 0 rec (pid_of c) WUBU_CAP_IDX_NONE) as Hc.
  pose proof (create_keeps st kind rights aud 0 rec (pid_of c) WUBU_CAP_IDX_NONE) as Hk.
  destruct (wubu_cap_create _ _ _ _ _ _ _ _) as [[rc tok] st1]. rewrite Hm in Hk. destruct Hk as [Hk Hnew].
  destruct ((rc <=? 0) || wubu_cap_token_is_null tok) eqn:Erc; [exact Hk|]. apply orb_false_iff in Erc as [Erc%Z.leb_gt _]. specialize (Hnew Erc).
  destruct Hc as (_ & _ & [[-> _]|(Hr & -> & _ & Ho)]); [done|]. set (o := new_object _ _ _ _ _ _ _) in *.
  assert (wubu_cap_token_idx (wubu_cap_token_pack 1 rc (o_flags o)) = rc) as Hi.
  { apply token_fields; [done| |by apply new_flags_fits]. unfold WUBU_CAP_OBJECT_CAPACITY in *; unfold fits; change (2 ^ 24) with 16777216; lia. }
  rewrite Hi. pose proof (handle_insert_ptrs st1 t rc 0) as Hp. destruct (wubu_cap_handle_insert st1 t rc 0) as [[htok t'] st2]. cbn [snd] in Hp.
  destruct (wubu_cap_token_is_null htok); cbn [snd caps set_ht set_caps add_objrec]; [|by rewrite Hp].
  destruct (authority_object _ _ _ Ho) as (o' & Eo & Ea). pose proof (new_object_fresh c desired kind rec o' Ea) as (Hd & _ & H1 & H3 & _).
  rewrite (revoke_at st2 _ o'); rewrite ?Hi, ?Hp; [|done|lia|done|done|done]. cbn. intros i x Hx. destruct (Hk i x Hx) as (x' & Hx' & E).
  exists x'. split; [|done]. rewrite lookup_insert_ne; [done|]. intros <-. congruence.
Qed.

(** Two states in which a handle has the same authority. *)
Record same_handle (c c' : nt_ctx) (e : nt_entry) : Prop := {
  sh_object : exists o o', ptrs (caps c) !! wubu_cap_token_idx (n_tok e) = Some o /\
                ptrs (caps c') !! wubu_cap_token_idx (n_tok e) = Some o' /\ authority o' = authority o;
  sh_pid : current_pid c' = current_pid c }.

Lemma ceiling_spec e a : within_ceiling e a = true <-> rights_le (wubu_nt_expand_generic (n_type e) a) (n_rights e).
Proof.
  unfold within_ceiling. set (w := wubu_nt_expand_generic _ _). rewrite <- rights_le_land, orb_true_iff, !Z.eqb_eq.
  split; [intros [->|]; [apply Z.land_0_r|done]|auto].
Qed.

Lemma authorize_spec c h i e a :
  nt_ok c -> entry_of c h = Some (i, e) -> n_backed e = true ->
  ((vsl_nt_cap_authorize c h a).1 = NT_STATUS_SUCCESS <->
   (exists o, ptrs (caps c) !! wubu_cap_token_idx (n_tok e) = Some o /\ o_deleted o = false /\ allows o (pid_of c) /\
      rights_le (cap_request a) (o_rights o)) /\
   rights_le (wubu_nt_expand_generic (n_type e) a) (n_rights e)) /\
  ((vsl_nt_cap_authorize c h a).1 <> NT_STATUS_SUCCESS -> (vsl_nt_cap_authorize c h a).1 = NT_STATUS_ACCESS_DENIED).
Proof.
  intros Hok Ee Eb. destruct (backed_entry c h i e Hok Ee Eb) as (t & s & o0 & Et & Ht & Hs & Hso & Hr & _).
  rewrite <- ceiling_spec, <- (resolve_spec c t s _ (cap_request a) (ok_caps _ Hok) Et Ht Hso Hr).
  unfold vsl_nt_cap_authorize. rewrite Ee, Eb, Hs. cbn [negb].
  destruct (resolve_slot c (Z.of_nat s) (cap_request a)) as [[] c']; cbn [negb fst]; [|split; [by split; [|intros [? _]]|done]].
  destruct (within_ceiling e a); split; done || by split; [|intros [_ ?]].
Qed.

Lemma authorize_same c c' h h' i i' e e' a :
  nt_ok c -> nt_ok c' -> entry_of c h = Some (i, e) -> entry_of c' h' = Some (i', e') -> n_backed e = true -> n_backed e' = true ->
  n_tok e' = n_tok e -> n_type e' = n_type e -> same_handle c c' e ->
  ((vsl_nt_cap_authorize c' h' a).1 = NT_STATUS_SUCCESS <->
   (exists o, ptrs (caps c) !! wubu_cap_token_idx (n_tok e) = Some o /\ o_deleted o = false /\ allows o (pid_of c) /\
      rights_le (cap_request a) (o_rights o)) /\
   rights_le (wubu_nt_expand_generic (n_type e) a) (n_rights e')).
Proof.
  intros Hok Hok' Ee Ee' Eb Eb' Htok Hty [(o & o' & Ho & Ho' & Ha) Hp]. rewrite (proj1 (authorize_spec c' h' i' e' a Hok' Ee' Eb')), Htok, Hty.
  rewrite Ho, Ho'. unfold pid_of. rewrite Hp. unfold authority in Ha. injection Ha as _ Hd _ Hr _ Hau Hf _.
  assert (allows o' (s32 (current_pid c)) <-> allows o (s32 (current_pid c))) as Hal by (rewrite !allows_spec, Hau, Hf; done).
  split; intros [(x & [= <-] & H1 & H2 & H3) H4]; (split; [|done]).
  - exists o. split_and!; [done|by rewrite <- Hd|by apply Hal|by rewrite <- Hr].
  - exists o'. split_and!; [done|by rewrite Hd|by apply Hal|by rewrite Hr].
Qed.
