(* ===== verification/NtCapTheorems.v ===== *)
(** * Theorems of NT handles *)

From stdpp Require Import gmap fin_maps.
From S2P Require Import Prelude NtSd NtSdTheorems Cap CapFacts CapAuthority CapHandles NtCap NtCapFacts.
Open Scope Z_scope.

(** ** Sequences of operations *)

Inductive nt_op : Type :=
| NAllocate (fd fid : Z) (ty : nt_object_type) | NFree (h : Z) | NClose (h : Z) | NBind (h : Z) (ty : nt_object_type) (desired : Z)
| NUnbind (h : Z) | NAlias (src dst : Z) | NAliasReduced (src dst desired : Z) | NDuplicate (src new want : Z) | NRevoke (h : Z)
| NAuthorize (h desired : Z) | NAcquire (ty : nt_object_type) (desired fd fid data : Z)
| NMakeHandle (tok : Z) | NResolveHandle (h desired : Z) | NRevokeHandle (h : Z) | NRelease (h : Z).

Definition nt_run_op (c : nt_ctx) (op : nt_op) : nt_ctx :=
  match op with
  | NAllocate fd fid ty => (vsl_nt_allocate_handle c fd fid ty).2
  | NFree h => (vsl_nt_free_handle c h).2
  | NClose h => (vsl_nt_close c h).2
  | NBind h ty desired => (vsl_nt_cap_bind c h ty desired).2
  | NUnbind h => (vsl_nt_cap_unbind c h).2
  | NAlias src dst => (vsl_nt_cap_alias c src dst).2
  | NAliasReduced src dst desired => (vsl_nt_cap_alias_reduced c src dst desired).2
  | NDuplicate src new want => (vsl_nt_duplicate_object c src new want).2
  | NRevoke h => (vsl_nt_cap_revoke_nt c h).2
  | NAuthorize h desired => (vsl_nt_cap_authorize c h desired).2
  | NAcquire ty desired fd fid data => (vsl_nt_cap_acquire c ty desired fd fid data).2
  | NMakeHandle tok => (vsl_nt_cap_make_handle c tok).2
  | NResolveHandle h desired => (vsl_nt_cap_resolve_handle c h desired).2
  | NRevokeHandle h => (vsl_nt_cap_revoke_handle c h).2
  | NRelease h => (vsl_nt_cap_release c h).2
  end.
Definition nt_run (c : nt_ctx) (ops : list nt_op) : nt_ctx := foldl nt_run_op c ops.

(** What the callers owe: [vsl_nt_cap_release] is for slots without an entry (those
    of [vsl_nt_cap_acquire] and [vsl_nt_cap_make_handle]), since it does not unbind
    one ([nt_release_leaves_entry_bound]); a token made into a handle names a slot of
    the registry. *)
Definition nt_op_ok (c : nt_ctx) (op : nt_op) : Prop :=
  match op with
  | NRelease h => forall slot, vsl_nt_cap_slot_of_any c h = Some slot -> slot_unbound c slot
  | NMakeHandle tok => wubu_cap_token_idx tok < WUBU_CAP_OBJECT_CAPACITY
  | _ => True
  end.
Fixpoint nt_session (c : nt_ctx) (ops : list nt_op) : Prop :=
  match ops with
  | [] => True
  | op :: ops => nt_op_ok c op /\ nt_session (nt_run_op c op) ops
  end.

Lemma run_op_move c op : nt_op_ok c op -> nt_move c (nt_run_op c op).
Proof.
  intros Hop. destruct op; cbn [nt_run_op nt_op_ok] in *; auto using allocate_move, free_move, close_move, bind_move, alias_reduced_move, duplicate_move,
    revoke_move, authorize_move, make_move, resolve_handle_move, release_move.
  - pose proof (unbind_spec c h) as H. destruct (vsl_nt_cap_unbind c h). apply H.
  - pose proof (alias_spec c src dst) as H. destruct (vsl_nt_cap_alias c src dst). apply H.
  - pose proof (acquire_spec c ty desired fd fid data) as H. destruct (vsl_nt_cap_acquire _ _ _ _ _ _). apply H.
  - pose proof (revoke_handle_moves c h) as H. by apply move_resources; [|apply H].
Qed.

Lemma run_move ops : forall c, nt_session c ops -> nt_move c (nt_run c ops).
Proof.
  induction ops as [|op ops IH]; intros c Hs; [apply move_refl|]. destruct Hs as [H1 H2].
  eapply move_trans; [by apply run_op_move|by apply IH].
Qed.

Lemma nt_init_ok st pid vsl_pid : cap_wf st -> nt_ok (vsl_nt_bridge_init st pid vsl_pid).
Proof.
  intros Hw. apply (run_op_wf st OInit I) in Hw. change (run_op st OInit) with (wubu_cap_init st) in Hw. unfold vsl_nt_bridge_init.
  destruct (wubu_cap_handle_table_create (wubu_cap_init st)) as [t st'] eqn:Et.
  assert (ptrs st' = ptrs (wubu_cap_init st)) as Hp.
  { unfold wubu_cap_handle_table_create, malloc in Et. repeat (case_match; simplify_eq/=; try done). }
  assert (forall i e, replicate 4096 zero_entry !! i = Some e -> n_valid e = false /\ n_backed e = false) as Hz.
  { intros i e Hi. apply lookup_replicate in Hi as [-> _]. done. }
  constructor; cbn [entries cap_ht caps].
  - apply length_replicate.
  - intros i e Hi Hv. apply Hz in Hi as [? _]. congruence.
  - destruct Hw as [H1 H2]. constructor; rewrite Hp; auto.
  - intros t' [= ->]. apply table_create_new in Et as ->. split; [exists (seq 1 15); apply new_table_ok|apply new_table_plain].
  - intros i e Hi Hb. apply Hz in Hi as [_ ?]. congruence.
  - intros i j e e' Hi _ Hb. apply Hz in Hi as [_ ?]. congruence.
Qed.

(** C38. After the bridge is initialised, through every sequence of
    handle operations (all the functions of the capability bridge) in which
    [vsl_nt_cap_release] is called only for slots that no entry is bound to, and
    handles are made only for indices of the registry, the books of the handle table are right: a valid entry [i] is
    handle 0x1000 + [i]; every entry that is backed by a capability is valid and owns
    a live slot of the capability table, which names the object of its token; no two
    entries own the same slot; and the registry of capabilities is well formed. *)
Theorem nt_handles_own_their_slots st pid vsl_pid ops :
  cap_wf st -> nt_session (vsl_nt_bridge_init st pid vsl_pid) ops -> nt_ok (nt_run (vsl_nt_bridge_init st pid vsl_pid) ops).
Proof. intros Hw Hs. by apply run_move, nt_init_ok. Qed.

(** ** Duplication *)

Lemma alter_lookup c l i f (j : nat) : entries c = alter f i l -> j <> i -> entries c !! j = l !! j.
Proof. intros -> H. by rewrite list_lookup_alter_ne. Qed.

(** What allocation does to the other handles. *)
Lemma allocate_spec c fd fid ty h c1 :
  nt_ok c -> vsl_nt_allocate_handle c fd fid ty = (h, c1) -> h <> 0 ->
  exists j d, entry_of c1 h = Some (j, d) /\ n_type d = ty /\ (forall i e, entries c !! i = Some e -> n_valid e = true -> i <> j) /\
    (forall i, i <> j -> entries c1 !! i = entries c !! i) /\ keeps (ptrs (caps c)) (ptrs (caps c1)) /\ current_pid c1 = current_pid c.
Proof.
  intros Hok E Hh. pose proof (allocate_move c fd fid ty) as Hm. unfold vsl_nt_allocate_handle in *.
  destruct (free_entry c) as [j|] eqn:Ef; [|by simplify_eq]. destruct (free_entry_Some c j Ef) as (x & Hx & Hv).
  set (c0 := upd_entry c j _) in *. injection E as <- E. cbn [snd] in Hm. rewrite E in Hm.
  assert (nt_ok c0) as Hok0 by (by eapply put_record_ok).
  assert (entry_of c0 (0x1000 + Z.of_nat j) = Some (j, put_record (0x1000 + Z.of_nat j) fd fid ty x)) as E0.
  { apply entry_of_intro; [done| |done]. unfold c0. rewrite upd_lookup, decide_True, Hx by done. done. }
  assert (forall i, i <> j -> entries c0 !! i = entries c !! i) as H0.
  { intros i Hi. unfold c0. by rewrite upd_lookup, decide_False by done. }
  assert (exists d, entries c1 !! j = Some d /\ n_type d = ty /\ n_valid d = true /\ (forall i, i <> j -> entries c1 !! i = entries c0 !! i) /\
    keeps (ptrs (caps c0)) (ptrs (caps c1))) as (d & Hd & Hty & Hvd & Hother & Hk).
  { pose proof (entry_of_Some _ _ _ _ E0) as (Hj & _ & _). unfold vsl_nt_cap_bind in E.
    destruct (_ || _); [subst c1; cbn [snd]; eexists; split_and!; [done..|apply keeps_refl]|]. rewrite E0 in E.
    destruct (n_backed _); [subst c1; cbn [snd]; eexists; split_and!; [done..|apply keeps_refl]|].
    set (dd := if _ =? 0 then _ else _) in *. set (x0 := put_record _ _ _ _ _) in *.
    pose proof (acquire_spec c0 ty dd (n_fd x0) (n_fid x0) (n_data x0)) as Ha. pose proof (acquire_keeps c0 ty dd (n_fd x0) (n_fid x0) (n_data x0) Hok0) as Hk.
    destruct (vsl_nt_cap_acquire _ _ _ _ _ _) as [[[slot tok]|] c2]; destruct Ha as (_ & He & _); cbn [snd] in *; subst c1.
    - eexists. rewrite upd_lookup, decide_True, He, Hj by done. split_and!; [done..| |done].
      intros i Hi. by rewrite upd_lookup, decide_False, He by done.
    - exists x0. rewrite He. by split_and!. }
  exists j, d. split_and!.
  - apply entry_of_intro; [by apply Hm|done|done].
  - done.
  - intros i e Hi Hvi ->. congruence.
  - intros i Hi. by rewrite Hother, H0.
  - exact Hk.
  - by apply Hm.
Qed.

Lemma rights_le_meet x y z : rights_le x (Z.land y z) <-> rights_le x y /\ rights_le x z.
Proof.
  unfold rights_le. split.
  - intros H. split; intros n Hn Hx; specialize (H n Hn Hx); rewrite Z.land_spec in H; by apply andb_true_iff in H as [? ?].
  - intros [H1 H2] n Hn Hx. rewrite Z.land_spec, H1, H2 by done. done.
Qed.

(** The state after a duplication that was tied to the source's object. *)
Lemma duplicate_aliased c src i e want h c1 :
  nt_ok c -> entry_of c src = Some (i, e) -> n_backed e = true ->
  vsl_nt_allocate_handle c (n_fd e) (n_data e) (n_type e) = (h, c1) -> h <> 0 -> (vsl_nt_cap_alias c1 src h).1 = 0 ->
  exists c' j e', duplicate_handle c src want = (NT_STATUS_SUCCESS, Some h, c') /\ h <> src /\ nt_ok c' /\
    entry_of c' h = Some (j, e') /\ n_backed e' = true /\ n_tok e' = n_tok e /\ n_type e' = n_type e /\
    n_rights e' = (if want =? 0 then n_rights e else Z.land (n_rights e) (wubu_nt_expand_generic (n_type e) want)) /\
    entry_of c' src = Some (i, e) /\ same_handle c c' e.
Proof.
  intros Hok Ee Eb Ea Hh Hrc. destruct (allocate_spec _ _ _ _ _ _ Hok Ea Hh) as (j & d & Ed & Hty & Hfresh & Hsame & Hk & Hpid).
  pose proof (allocate_move c (n_fd e) (n_data e) (n_type e)) as Hm1. rewrite Ea in Hm1. cbn [snd] in Hm1. pose proof (mv_ok _ _ Hm1 Hok) as Hok1.
  pose proof (entry_of_Some _ _ _ _ Ee) as (Hi & Hv & _). assert (i <> j) as Hij by (by eapply Hfresh).
  assert (entry_of c1 src = Some (i, e)) as Ee1. { rewrite entry_of_iff in Ee |- * by done. by rewrite Hsame. }
  pose proof (alias_spec c1 src h) as Hal. pose proof (duplicate_handle_move c src want) as Hm2.
  pose proof (alias_reduced_move c1 src h want) as Hm3.
  unfold duplicate_handle in *. rewrite Ee, Ea, (proj2 (Z.eqb_neq h 0) Hh) in *. cbn [snd] in Hm2. unfold vsl_nt_cap_alias_reduced in *.
  destruct (vsl_nt_cap_alias c1 src h) as [rc c2]. cbn [fst] in Hrc. subst rc. change (negb (0 =? 0)) with false in *. cbn iota in *.
  destruct Hal as [Hm Hal]. destruct (Hal Hok1 eq_refl) as (si & es & di & ed & t' & s & o & E1 & Ebs & E2 & Hent & Hp & Ho & Et').
  rewrite Ee1 in E1. rewrite Ed in E2. simplify_eq. pose proof (mv_ok _ _ Hm Hok1) as Hok2.
  set (d2 := put_binding (Z.of_nat s) (n_tok es) (n_rights es) ed) in *.
  pose proof (entry_of_Some _ _ _ _ Ed) as (Hj & Hvj & _).
  assert (entries c2 !! di = Some d2) as Hd2 by (rewrite Hent, list_lookup_alter_eq, Hj; done).
  assert (entry_of c2 h = Some (di, d2)) as Ed2.
  { apply entry_of_iff; [done|]. split_and!; [done|done|]. by apply entry_of_iff in Ed as (_ & _ & ?). }
  rewrite Ed2 in *. cbn [snd] in *. set (c' := if want =? 0 then _ else _) in *. pose proof (mv_ok _ _ Hm3 Hok1) as Hok'.
  assert (h <> src) as Hne by (intros ->; rewrite Ee1 in Ed; by simplify_eq).
  set (r := if want =? 0 then n_rights es else Z.land (n_rights es) (wubu_nt_expand_generic (n_type es) want)).
  assert (exists e', entry_of c' h = Some (di, e') /\ n_backed e' = true /\ n_tok e' = n_tok es /\ n_type e' = n_type es /\ n_rights e' = r) as (e' & Ee' & Hb' & Ht' & Hy' & Hr').
  { unfold c', r. destruct (want =? 0); [exists d2; by split_and!|]. eexists. split.
    - apply entry_of_iff; [apply put_rights_ok, Hok2|]. rewrite upd_lookup, decide_True, Hd2 by done. split_and!; [done|done|by apply entry_of_iff in Ed as (_ & _ & ?)].
    - cbn. by rewrite Hty. }
  assert (entry_of c' src = Some (si, es)) as Es'.
  { apply entry_of_iff; [done|]. apply entry_of_iff in Ee1 as (H1 & H2 & H3); [|done]. split_and!; [|done|done].
    assert (entries c2 !! si = Some es) as H4 by (by rewrite (alter_lookup c2 _ _ _ si Hent)).
    unfold c'. destruct (want =? 0); [done|]. by rewrite upd_lookup, decide_False. }
  assert (same_handle c c' es) as Hsh.
  { assert (ptrs (caps c') = ptrs (caps c1) /\ current_pid c' = current_pid c1) as [Hp' Hpid'].
    { unfold c'. destruct (want =? 0); cbn; (split; [done|by apply Hm]). }
    constructor; [|congruence]. destruct (backed_entry c src si es Hok Ee Ebs) as (_ & _ & o0 & _ & _ & _ & _ & _ & Ho0 & _).
    destruct (Hk _ _ Ho0) as (o' & Ho' & Ha). exists o0, o'. by rewrite Hp'. }
  exists c', di, e'. by split_and!.
Qed.

(** C4. NtDuplicateObject restricts exactly: when a place for the new handle is
    given and the duplicate could be tied to the source's object, an access is
    authorised through the new handle if and only if it is authorised through the
    source and, when a mask was given, asks for nothing beyond that mask.  What the
    source itself may do is unchanged.  (The source and the mask are the low 32 bits
    of their words; without a place the call is refused and nothing changes.) *)
Theorem nt_duplicate_restricts_exactly c b d w i e h c1 :
  let src := u32 b in
  let want := u32 w in
  nt_ok c -> entry_of c src = Some (i, e) -> n_backed e = true ->
  vsl_nt_allocate_handle c (n_fd e) (n_data e) (n_type e) = (h, c1) -> h <> 0 -> (vsl_nt_cap_alias c1 src h).1 = 0 ->
  if d =? 0 then vsl_nt_duplicate_object c b d w = (NT_STATUS_INVALID_PARAMETER, None, c) else
  exists c', vsl_nt_duplicate_object c b d w = (NT_STATUS_SUCCESS, Some h, c') /\ h <> src /\
  forall a,
    ((vsl_nt_cap_authorize c' h a).1 = NT_STATUS_SUCCESS <->
     (vsl_nt_cap_authorize c' src a).1 = NT_STATUS_SUCCESS /\
     (want <> 0 -> rights_le (wubu_nt_expand_generic (n_type e) a) (wubu_nt_expand_generic (n_type e) want))) /\
    ((vsl_nt_cap_authorize c' src a).1 = NT_STATUS_SUCCESS <-> (vsl_nt_cap_authorize c src a).1 = NT_STATUS_SUCCESS).
Proof.
  intros src want Hok Ee Eb Ea Hh Hrc. unfold vsl_nt_duplicate_object. fold src want. destruct (d =? 0); [done|].
  destruct (duplicate_aliased c src i e want h c1 Hok Ee Eb Ea Hh Hrc) as (c' & j & e' & Hd & Hne & Hok' & Ee' & Hb' & Ht' & Hy' & Hr' & Es' & Hsh).
  exists c'. split; [done|]. split; [done|]. intros a.
  pose proof (authorize_same c c' src h i j e e' a Hok Hok' Ee Ee' Eb Hb' Ht' Hy' Hsh) as H1.
  pose proof (authorize_same c c' src src i i e e a Hok Hok' Ee Es' Eb Eb eq_refl eq_refl Hsh) as H2.
  pose proof (proj1 (authorize_spec c src i e a Hok Ee Eb)) as H3. rewrite H1, H2, H3, Hr'. split; [|done].
  destruct (Z.eqb_spec want 0) as [->|Hw]; [tauto|]. rewrite rights_le_meet. tauto.
Qed.

(** ** Revocation *)

(** A slot is never a handle, so it names itself. *)
Lemma slot_names_itself c t s o :
  nt_ok c -> cap_ht c = Some t -> slot_object t s = Some o -> vsl_nt_cap_slot_of_any c (Z.of_nat s) = Some (Z.of_nat s).
Proof.
  intros Hok Et Hs. destruct (slot_entry t s o (ok_table _ Hok _ Et) Hs) as (x & _ & Hx & Hne & _ & _ & Hb & Ea & Er).
  unfold vsl_nt_cap_slot_of_any, vsl_nt_cap_slot_of. rewrite Et. cbn [mbind option_bind].
  destruct (entry_of c (Z.of_nat s)) as [[i e]|] eqn:Ee.
  { apply entry_of_iff in Ee as (_ & _ & E); [|done]. lia. }
  cbn [mbind option_bind]. unfold wubu_cap_handle_slot_live. rewrite Er, Ea, Hx, (proj2 (Z.eqb_neq _ _) Hne). done.
Qed.

Lemma revoke_slot_spec st t s i o :
  cap_wf st -> table_ok t -> slot_object t s = Some i -> 0 < i < WUBU_CAP_OBJECT_CAPACITY -> ptrs st !! i = Some o ->
  Z.testbit (o_flags o) 1 = false -> Z.testbit (o_flags o) 3 = false -> o_deleted o = false ->
  ptrs (wubu_cap_handle_revoke_by_slot st t (Z.of_nat s)).2 = <[i := mark_deleted o]> (ptrs st).
Proof.
  intros Hw Ht Hs Hi Ho H1 H3 Hd. destruct (slot_entry t s i Ht Hs) as (x & _ & Hx & Hne & Hf & _ & _ & Ea & Er).
  unfold wubu_cap_handle_revoke_by_slot. rewrite Er, Ea, Hx, (proj2 (Z.eqb_neq _ _) Hne), Ho, Hd, Hf.
  destruct (token_fields (o_generation o) i 0) as (_ & Ei & _); [by eapply ow_gen, cw_objs| |done|].
  { unfold WUBU_CAP_OBJECT_CAPACITY in *. unfold fits. change (2 ^ 24) with 16777216. lia. }
  rewrite (revoke_at st _ o); rewrite ?Ei; done.
Qed.

Lemma revoke_nt_spec c h i e c' :
  nt_ok c -> entry_of c h = Some (i, e) -> vsl_nt_cap_revoke_nt c h = (0, c') ->
  exists o, ptrs (caps c) !! wubu_cap_token_idx (n_tok e) = Some o /\
    ptrs (caps c') = <[wubu_cap_token_idx (n_tok e) := mark_deleted o]> (ptrs (caps c)).
Proof.
  intros Hok Ee E. unfold vsl_nt_cap_revoke_nt in E. destruct (cap_ht c) as [t|] eqn:Et; [|done]. rewrite Ee in E.
  destruct (n_backed e) eqn:Eb; [|done]. cbn [negb] in E.
  destruct (backed_entry c h i e Hok Ee Eb) as (t0 & s & o & Et0 & Ht & Hs & Hso & Hr & Ho & H1 & H3). rewrite Et in Et0. injection Et0 as <-.
  unfold vsl_nt_cap_revoke_handle in E. rewrite Hs, (slot_names_itself c t s _ Hok Et Hso), Et in E.
  set (del := if _ =? 0 then _ else _) in E. clearbody del.
  pose proof (resolve_spec c t s _ del (ok_caps _ Hok) Et Ht Hso Hr) as Hres. destruct (resolve_moves c (Z.of_nat s) del) as (Hp & _ & Hm).
  pose proof (resources_ok _ _ Hok Hm) as Hok1.
  destruct (resolve_slot c (Z.of_nat s) del) as [ok c1]. cbn [fst snd] in *. destruct ok; cbn [negb] in E; [|by injection E].
  destruct (proj1 Hres eq_refl) as (o1 & Ho1 & Hd & _). rewrite Ho in Ho1. injection Ho1 as <-.
  pose proof (revoke_slot_spec (caps c1) t s _ o (ok_caps _ Hok1) Ht Hso Hr ltac:(by rewrite Hp) H1 H3 Hd) as Hrev.
  destruct (wubu_cap_handle_revoke_by_slot (caps c1) t (Z.of_nat s)) as [rc st]. cbn [snd] in *. injection E as _ <-. exists o.
  split; [done|]. cbn. by rewrite Hrev, Hp.
Qed.

Lemma dead_object_denies c h i e o a :
  nt_ok c -> entry_of c h = Some (i, e) -> n_backed e = true -> ptrs (caps c) !! wubu_cap_token_idx (n_tok e) = Some o -> o_deleted o = true ->
  (vsl_nt_cap_authorize c h a).1 = NT_STATUS_ACCESS_DENIED.
Proof.
  intros Hok Ee Eb Ho Hd. destruct (authorize_spec c h i e a Hok Ee Eb) as [H1 H2]. apply H2. intros H. apply H1 in H as [(x & Hx & Hdx & _) _]. congruence.
Qed.

(** C5. Revoking the object behind a handle reaches every handle of that
    object and nothing else: once the revocation succeeds, and whatever operations of
    the capability bridge follow (with [vsl_nt_cap_release] only for slots that no
    entry is bound to), no access is authorised through any handle bound to the same
    object; and right after it, every handle bound to another object is authorised
    exactly as before.  (Releasing the slot of a bound entry breaks this:
    [nt_release_leaves_entry_bound].) *)
Theorem nt_revocation_reaches_every_duplicate c h i e c' :
  nt_ok c -> entry_of c h = Some (i, e) -> vsl_nt_cap_revoke_nt c h = (0, c') ->
  (forall ops k j d a, nt_session c' ops -> entry_of (nt_run c' ops) k = Some (j, d) -> n_backed d = true ->
     wubu_cap_token_idx (n_tok d) = wubu_cap_token_idx (n_tok e) ->
     (vsl_nt_cap_authorize (nt_run c' ops) k a).1 = NT_STATUS_ACCESS_DENIED) /\
  (forall k j d a, entry_of c k = Some (j, d) -> n_backed d = true -> wubu_cap_token_idx (n_tok d) <> wubu_cap_token_idx (n_tok e) ->
     ((vsl_nt_cap_authorize c' k a).1 = NT_STATUS_SUCCESS <-> (vsl_nt_cap_authorize c k a).1 = NT_STATUS_SUCCESS)).
Proof.
  intros Hok Ee E. destruct (revoke_nt_spec c h i e c' Hok Ee E) as (o & Ho & Hp).
  pose proof (revoke_move c h) as Hm. rewrite E in Hm. cbn [snd] in Hm. pose proof (mv_ok _ _ Hm Hok) as Hok'. split.
  - intros ops k j d a Hses Ed Hb Hidx. pose proof (run_move ops c' Hses) as Hrun. pose proof (mv_ok _ _ Hrun Hok') as Hok2.
    pose proof (mv_grows _ _ Hrun Hok' (wubu_cap_token_idx (n_tok e))) as Hg. unfold slot_rel in Hg. rewrite Hp, lookup_insert_eq in Hg.
    destruct (ptrs (caps (nt_run c' ops)) !! wubu_cap_token_idx (n_tok e)) as [o'|] eqn:Eo'; [|done].
    eapply (dead_object_denies _ k j d o'); [done|done|done|by rewrite Hidx|]. apply Hg; [|done].
    apply ages_mark_deleted. by eapply (cw_objs _ (ok_caps _ Hok)).
  - intros k j d a Ed Hb Hidx. assert (entries c' = entries c) as Hent.
    { unfold vsl_nt_cap_revoke_nt in E. destruct (cap_ht c); [|done]. rewrite Ee in E. destruct (negb _); [done|].
      pose proof (revoke_handle_moves c (n_slot e)) as H. destruct (vsl_nt_cap_revoke_handle c (n_slot e)) as [rc c2]. injection E as _ <-. apply H. }
    assert (entry_of c' k = Some (j, d)) as Ed'. { rewrite entry_of_iff in Ed |- * by done. by rewrite Hent. }
    destruct (backed_entry c k j d Hok Ed Hb) as (_ & _ & o1 & _ & _ & _ & _ & _ & Ho1 & _).
    assert (same_handle c c' d) as Hsh by (constructor; [exists o1, o1; rewrite Hp, lookup_insert_ne by done; done|by apply Hm]).
    rewrite (authorize_same c c' k k j j d d a) by done. by rewrite (proj1 (authorize_spec c k j d a Hok Ed Hb)).
Qed.

(** ** The security reference monitor *)

(** What the monitor grants through a bound handle lies within the
    handle's ceiling, covers the request, and is allowed by the descriptor's rule; the
    object behind the handle is live. *)
Theorem nt_se_check_stays_within_handle c h i e sd ty desired g c' :
  nt_ok c -> entry_of c h = Some (i, e) -> n_backed e = true ->
  vsl_nt_cap_se_check c h sd ty desired = Some (NT_STATUS_SUCCESS, g, c') ->
  rights_le g (n_rights e) /\ rights_le desired g /\ rights_le g (wubu_nt_expand_generic ty desired) /\
  exists o, ptrs (caps c) !! wubu_cap_token_idx (n_tok e) = Some o /\ (g <> 0 -> o_deleted o = false /\ allows o (pid_of c)).
Proof.
  intros Hok Ee Eb E. unfold vsl_nt_cap_se_check in E. destruct (negb _); [by simplify_eq|].
  apply bind_Some in E as (subj & _ & E). apply bind_Some in E as ([ok s] & _ & E). destruct (negb ok); [by simplify_eq|].
  pose proof (access_granted s subj ty desired) as Hgr. set (r := wubu_nt_access_check s subj ty desired) in *.
  destruct (Z.eqb_spec (status r) WUBU_NT_STATUS_SUCCESS) as [Hs|]; cbn [negb] in E; [|by simplify_eq].
  assert (vsl_nt_cap_handle_is_bound c h = true) as Hbd by (unfold vsl_nt_cap_handle_is_bound; by rewrite Ee). rewrite Hbd in E.
  unfold vsl_nt_cap_granted_mask in E. rewrite Hbd, Ee in E. cbn [negb] in E.
  destruct (backed_entry c h i e Hok Ee Eb) as (t & sl & o & Et & Ht & Hsl & Hso & Hr & Ho & _).
  pose proof (resolve_spec c t sl _ 0 (ok_caps _ Hok) Et Ht Hso Hr) as Hres. rewrite Hsl in E.
  destruct (resolve_slot c (Z.of_nat sl) 0) as [live c1]. cbn [fst] in Hres.
  destruct (Z.eqb_spec (Z.land (Z.land (granted r) (if live then n_rights e else 0)) desired) desired) as [Hl|]; cbn [negb] in E; [|by simplify_eq].
  injection E as <- _. apply rights_le_land in Hl. rewrite (Hgr Hs) in *.
  set (w := wubu_nt_expand_generic ty desired) in *. clearbody w. assert (forall x y, rights_le (Z.land x y) x /\ rights_le (Z.land x y) y) as Hmeet.
  { intros x y. apply rights_le_meet. by intros n. }
  split_and!; [|done|by apply Hmeet|].
  - destruct live; [by apply Hmeet|]. rewrite Z.land_0_r. intros n _ Hn. by rewrite Z.bits_0 in Hn.
  - exists o. split; [done|]. destruct live; [|by rewrite Z.land_0_r]. intros _. destruct (proj1 Hres eq_refl) as (o1 & Ho1 & H1 & H2 & _).
    rewrite Ho in Ho1. by simplify_eq.
Qed.

(** ** Examples *)

(** Process 7 opens a file on descriptor 3, and duplicates it for reading only. *)
Definition boot_nt : nt_ctx := vsl_nt_bridge_init cap_boot 7 7.
Definition file_nt : nt_ctx := nt_run boot_nt [NAllocate 3 0 TYPE_FILE].
Definition file_entry : nt_entry := Entry 0x1000 3 0 0 TYPE_FILE true 1 4294967552 true 0x001F01FF.
Definition shared_nt : nt_ctx := nt_run file_nt [NDuplicate 0x1000 0x7000 WUBU_GENERIC_READ].

Lemma nt_handles_own_their_slots_witness :
  nt_ok (nt_run (vsl_nt_bridge_init cap_boot 7 7) [NAllocate 3 0 TYPE_FILE; NDuplicate 0x1000 0x7000 WUBU_GENERIC_READ; NRevoke 0x1000; NClose 0x1001; NMakeHandle 4294967552]).
Proof. apply nt_handles_own_their_slots; [apply cap_boot_wf|]. cbn [nt_session nt_op_ok]. split_and!; (exact I || (vm_compute; reflexivity)). Defined.

Lemma file_nt_ok : nt_ok file_nt.
Proof. apply run_move, nt_init_ok, cap_boot_wf. by cbn [nt_session nt_op_ok]. Qed.
Lemma shared_nt_ok : nt_ok shared_nt.
Proof. apply run_move, file_nt_ok. by cbn [nt_session nt_op_ok]. Qed.

Lemma nt_duplicate_restricts_exactly_witness :
  exists c', vsl_nt_duplicate_object file_nt 0x1000 0x7000 WUBU_GENERIC_READ = (NT_STATUS_SUCCESS, Some 0x1001, c') /\
    (vsl_nt_cap_authorize c' 0x1001 2).1 <> NT_STATUS_SUCCESS.
Proof.
  destruct (nt_duplicate_restricts_exactly file_nt 0x1000 0x7000 WUBU_GENERIC_READ 0 file_entry 0x1001 (vsl_nt_allocate_handle file_nt 3 0 TYPE_FILE).2)
    as (c' & E & _ & H); [apply file_nt_ok|vm_compute; reflexivity|reflexivity|vm_compute; reflexivity|done|vm_compute; reflexivity|].
  exists c'. split; [exact E|]. intros Hs. apply (H 2) in Hs as [_ Hs]. by specialize (Hs ltac:(done) 1 ltac:(done) eq_refl).
Defined.

Lemma nt_revocation_reaches_every_duplicate_witness :
  (vsl_nt_cap_revoke_nt shared_nt 0x1000).1 = 0 /\
  (vsl_nt_cap_authorize (nt_run (vsl_nt_cap_revoke_nt shared_nt 0x1000).2 [NAllocate 4 0 TYPE_EVENT]) 0x1001 1).1 = NT_STATUS_ACCESS_DENIED.
Proof.
  split; [vm_compute; reflexivity|].
  apply (proj1 (nt_revocation_reaches_every_duplicate shared_nt 0x1000 0 file_entry (vsl_nt_cap_revoke_nt shared_nt 0x1000).2
    shared_nt_ok ltac:(vm_compute; reflexivity) ltac:(vm_compute; reflexivity)) [NAllocate 4 0 TYPE_EVENT] 0x1001 1%nat
    (Entry 0x1001 3 0 0 TYPE_FILE true 3 4294967552 true 0x00120089)); [split; exact I|vm_compute; reflexivity..].
Defined.

Lemma nt_se_check_stays_within_handle_witness :
  exists c', vsl_nt_cap_se_check file_nt 0x1000 None TYPE_FILE 3 = Some (NT_STATUS_SUCCESS, 3, c') /\ rights_le 3 (n_rights file_entry).
Proof.
  eexists. split; [vm_compute; reflexivity|].
  eapply (nt_se_check_stays_within_handle file_nt 0x1000 0 file_entry None TYPE_FILE 3 3); [apply file_nt_ok|vm_compute; reflexivity|reflexivity|vm_compute; reflexivity].
Defined.

(** ** Departures *)

(** The answers the allocator will give. *)
Definition with_allocs (l : list bool) (c : nt_ctx) : nt_ctx :=
  set_caps c {| ptrs := ptrs (caps c); cap_count := cap_count (caps c); audit := audit (caps c); g_bootcap_idx := g_bootcap_idx (caps c); allocs := l |}.

(** When the capability table cannot grow, the duplicate is not tied to the source's
    object but keeps the full access of its own: a handle for reading becomes one for
    writing, and revoking the source does not reach it. *)
Lemma nt_duplicate_amplifies_without_memory :
  let c := with_allocs [true; true; false] (nt_run shared_nt (repeat (NAllocate 4 0 TYPE_EVENT) 11)) in
  let '(st, h, c') := vsl_nt_duplicate_object c 0x1001 0x7000 0 in
  st = NT_STATUS_SUCCESS /\ h = Some 0x100D /\
  (vsl_nt_cap_authorize c' 0x1001 2).1 = NT_STATUS_ACCESS_DENIED /\ (vsl_nt_cap_authorize c' 0x100D 2).1 = NT_STATUS_SUCCESS /\
  (vsl_nt_cap_authorize (vsl_nt_cap_revoke_nt c' 0x1000).2 0x100D 2).1 = NT_STATUS_SUCCESS.
Proof. vm_compute. by split_and!. Qed.

(** A handle whose binding failed for lack of memory is authorised for everything. *)
Lemma nt_unbound_handle_may_do_everything a :
  let '(h, c) := vsl_nt_allocate_handle (with_allocs [false] boot_nt) 3 0 TYPE_FILE in
  h = 0x1000 /\ (vsl_nt_cap_authorize c h a).1 = NT_STATUS_SUCCESS.
Proof.
  set (r := vsl_nt_allocate_handle (with_allocs [false] boot_nt) 3 0 TYPE_FILE).
  assert (r.1 = 0x1000) as E1 by (vm_compute; reflexivity).
  assert (entry_of r.2 0x1000 = Some (0%nat, Entry 0x1000 3 0 0 TYPE_FILE true 0 0 false 0)) as E2 by (vm_compute; reflexivity).
  destruct r as [h c]. cbn [fst snd] in E1, E2. subst h. split; [done|]. unfold vsl_nt_cap_authorize. by rewrite E2.
Qed.

(** Each duplication leaves behind the slot that allocation took: after the duplicate
    is closed, one slot more is in use than before. *)
Lemma nt_duplicate_leaks_slot :
  ht_count <$> cap_ht file_nt = Some 1 /\ ht_count <$> cap_ht (nt_run file_nt [NDuplicate 0x1000 0x7000 0; NClose 0x1001]) = Some 2 /\
  ht_count <$> cap_ht (nt_run file_nt [NDuplicate 0x1000 0x7000 0; NClose 0x1001; NDuplicate 0x1000 0x7000 0; NClose 0x1001]) = Some 3.
Proof. vm_compute. by split_and!. Qed.

(** A duplicate that may only read can still revoke the object, also for the source. *)
Lemma nt_reader_revokes_for_all :
  (vsl_nt_cap_authorize shared_nt 0x1001 0x10000).1 = NT_STATUS_ACCESS_DENIED /\ (vsl_nt_cap_revoke_nt shared_nt 0x1001).1 = 0 /\
  (vsl_nt_cap_authorize (vsl_nt_cap_revoke_nt shared_nt 0x1001).2 0x1000 1).1 = NT_STATUS_ACCESS_DENIED.
Proof. vm_compute. by split_and!. Qed.

(** A handle with full access to its file is refused generic writing. *)
Lemma nt_full_access_refused_generic_write :
  within_ceiling file_entry WUBU_GENERIC_WRITE = true /\ (vsl_nt_cap_authorize file_nt 0x1000 WUBU_GENERIC_WRITE).1 = NT_STATUS_ACCESS_DENIED.
Proof. vm_compute. by split. Qed.

(** The monitor refuses every generic request through a bound handle. *)
Lemma nt_monitor_refuses_generic c h i e sd ty desired g c' :
  entry_of c h = Some (i, e) -> n_backed e = true ->
  vsl_nt_cap_se_check c h sd ty desired = Some (NT_STATUS_SUCCESS, g, c') -> Z.testbit (n_rights e) 31 = false -> Z.testbit desired 31 = false.
Proof.
  intros Ee Eb E Hn. unfold vsl_nt_cap_se_check in E. destruct (negb _); [by simplify_eq|].
  apply bind_Some in E as (subj & _ & E). apply bind_Some in E as ([ok s] & _ & E). destruct (negb ok); [by simplify_eq|].
  destruct (negb _); [by simplify_eq|]. unfold vsl_nt_cap_granted_mask in E.
  assert (vsl_nt_cap_handle_is_bound c h = true) as Hbd by (unfold vsl_nt_cap_handle_is_bound; by rewrite Ee). rewrite Hbd, Ee in E. cbn [negb] in E.
  destruct (resolve_slot c (n_slot e) 0) as [live c1]. destruct (Z.eqb_spec (Z.land (Z.land (granted (wubu_nt_access_check s subj ty desired)) (if live then n_rights e else 0)) desired) desired) as [Hl|]; cbn [negb] in E; [|by simplify_eq].
  rewrite <- Hl, !Z.land_spec. destruct live; [rewrite Hn|rewrite Z.bits_0]; by rewrite andb_false_r.
Qed.

(** Duplicating does not copy the data of an entry: the duplicate of a token in an
    entry that served a process before takes the old process id for an address. *)
Lemma nt_duplicate_keeps_stale_data :
  let c := nt_run boot_nt [NAllocate (-1) 0 TYPE_TOKEN; NAllocate (-1) 0 TYPE_PROCESS] in
  let c := upd_entry (upd_entry c 0 (put_data 0x6000)) 1 (put_data 1234) in
  let c := Ctx (current_pid c) (entries c) (cap_ht c) (caps c) (objrecs c) {[0x6000 := Token 9 [] 2]} (g_vsl_pid c) in
  let c := nt_run c [NClose 0x1001; NDuplicate 0x1000 0x7000 0] in
  is_Some (vsl_nt_cap_se_check c 0x1000 None TYPE_FILE 1) /\ vsl_nt_handle_to_data c 0x1001 = Some 1234 /\
  vsl_nt_cap_se_check c 0x1001 None TYPE_FILE 1 = None.
Proof. vm_compute. split; [by eexists|]. by split. Qed.

(** Closing a duplicate closes the descriptor of the source. *)
Lemma nt_close_takes_shared_descriptor :
  (vsl_nt_close shared_nt 0x1001).1 = (NT_STATUS_SUCCESS, [3]) /\ vsl_nt_handle_to_vsl_fd (vsl_nt_close shared_nt 0x1001).2 0x1000 = Some 3.
Proof. vm_compute. by split. Qed.

(** Releasing a handle leaves its entry bound to the slot: the next object to use the
    slot is reached through the old handle. *)
Lemma nt_release_leaves_entry_bound :
  let c := (vsl_nt_cap_release file_nt 0x1000).2 in
  (vsl_nt_cap_authorize c 0x1000 1).1 = NT_STATUS_ACCESS_DENIED /\
  (vsl_nt_cap_authorize (nt_run c [NAllocate 4 0 TYPE_EVENT]) 0x1000 1).1 = NT_STATUS_SUCCESS.
Proof. vm_compute. by split. Qed.
