(* ===== verification/Wm.v ===== *)
(** * The window manager

    [gui/dosgui_wm_window.c], [dosgui_wm_window_state.c], [dosgui_wm_icons.c], the
    snapping of [dosgui_wm_layout.c] and [dosgui_wm_desktop.c], the title buttons of
    [dosgui_window_chrome.c] and the part of [dosgui_wm_input.c] that moves windows and
    icons: stacking order, focus, desktops, geometry, and what a pointer press, move or
    release does above the taskbar while the menus are closed.  Windows and icons are
    named by their index.  The callbacks of applications are not part of the state; what
    they would be told is a list of events.  Coordinates are far from the limits of
    their type, so sums are exact.  The layout that is saved when an icon is dropped belongs
    to the settings and is a function of the icons.  [None] is a write outside of an array. *)

From S2P Require Import Prelude.
Open Scope Z_scope.

Definition DOSGUI_MAX_WINDOWS : nat := 32.
Definition DOSGUI_TITLE_H : Z := 20.
Definition DOSGUI_TASK_H : Z := 28.
Definition DOSGUI_WIN_UNUSED : Z := 0.
Definition DOSGUI_WIN_NORMAL : Z := 1.
Definition DOSGUI_WIN_MINIMIZED : Z := 4.
Definition DOSGUI_WIN_MAXIMIZED : Z := 8.
Definition DOSGUI_MAX_ICONS : nat := 64.
Definition DOSGUI_ICON_SIZE : Z := 32.
Definition DOSGUI_ICON_GAP : Z := 8.

(** ** State *)

Record DosGuiWindow := Win {
  w_id : Z; w_flags : Z; wx : Z; wy : Z; ww : Z; wh : Z;
  min_x : Z; min_y : Z; min_w : Z; min_h : Z;
  w_desktop : Z; w_title : list Z; w_alive : bool; is_modal : bool; w_parent : option nat }.

Inductive DeskIconType : Set := ICON_APP | ICON_SHORTCUT | ICON_FOLDER | ICON_DRIVE | ICON_FILE | ICON_URL.

Record DosGuiIcon := Icon {
  i_name : list Z; ix : Z; iy : Z; grid_x : Z; grid_y : Z; i_alive : bool; i_type : DeskIconType;
  i_target : list Z; icon_color : Z; i_selected : bool }.

(** The two settings of the theme that decide geometry. *)
Record wm_theme := Theme { Luna_start_button : bool; rounded_buttons : bool }.

Record drag_state := Drag { drag_id : Z; drag_ox : Z; drag_oy : Z }.
Record resize_state := Resize { resize_id : Z; resize_edge : Z; resize_ox : Z; resize_oy : Z; resize_ow : Z; resize_oh : Z }.
Record lasso_state := Lasso { lasso_active : bool; lasso_x0 : Z; lasso_y0 : Z; lasso_x1 : Z; lasso_y1 : Z }.
Record click_state := Click { last_click_icon : Z; last_click_ms : Z; render_frame_count : Z }.

Record DosGuiWM := Dwm {
  screen_w : Z; screen_h : Z; theme : wm_theme;
  windows : list DosGuiWindow;
  next_id : Z; focused_id : Z;
  zorder : list nat;           (* the first [nz] entries, bottom to top *)
  drag : drag_state; resize : resize_state;
  icons : list DosGuiIcon;     (* the first [icon_count] entries *)
  drag_icon : drag_state; click : click_state; lasso : lasso_state;
  current_desktop : Z; desktop_count : Z }.

Definition set_windows (g : DosGuiWM) (l : list DosGuiWindow) : DosGuiWM :=
  Dwm (screen_w g) (screen_h g) (theme g) l (next_id g) (focused_id g) (zorder g) (drag g) (resize g) (icons g) (drag_icon g) (click g) (lasso g) (current_desktop g) (desktop_count g).
Definition set_next (g : DosGuiWM) (n : Z) : DosGuiWM :=
  Dwm (screen_w g) (screen_h g) (theme g) (windows g) n (focused_id g) (zorder g) (drag g) (resize g) (icons g) (drag_icon g) (click g) (lasso g) (current_desktop g) (desktop_count g).
Definition set_focused (g : DosGuiWM) (f : Z) : DosGuiWM :=
  Dwm (screen_w g) (screen_h g) (theme g) (windows g) (next_id g) f (zorder g) (drag g) (resize g) (icons g) (drag_icon g) (click g) (lasso g) (current_desktop g) (desktop_count g).
Definition set_zorder (g : DosGuiWM) (z : list nat) : DosGuiWM :=
  Dwm (screen_w g) (screen_h g) (theme g) (windows g) (next_id g) (focused_id g) z (drag g) (resize g) (icons g) (drag_icon g) (click g) (lasso g) (current_desktop g) (desktop_count g).
Definition set_drag (g : DosGuiWM) (d : drag_state) : DosGuiWM :=
  Dwm (screen_w g) (screen_h g) (theme g) (windows g) (next_id g) (focused_id g) (zorder g) d (resize g) (icons g) (drag_icon g) (click g) (lasso g) (current_desktop g) (desktop_count g).
Definition set_resize (g : DosGuiWM) (r : resize_state) : DosGuiWM :=
  Dwm (screen_w g) (screen_h g) (theme g) (windows g) (next_id g) (focused_id g) (zorder g) (drag g) r (icons g) (drag_icon g) (click g) (lasso g) (current_desktop g) (desktop_count g).
Definition set_icons (g : DosGuiWM) (l : list DosGuiIcon) : DosGuiWM :=
  Dwm (screen_w g) (screen_h g) (theme g) (windows g) (next_id g) (focused_id g) (zorder g) (drag g) (resize g) l (drag_icon g) (click g) (lasso g) (current_desktop g) (desktop_count g).
Definition set_drag_icon (g : DosGuiWM) (d : drag_state) : DosGuiWM :=
  Dwm (screen_w g) (screen_h g) (theme g) (windows g) (next_id g) (focused_id g) (zorder g) (drag g) (resize g) (icons g) d (click g) (lasso g) (current_desktop g) (desktop_count g).
Definition set_click (g : DosGuiWM) (c : click_state) : DosGuiWM :=
  Dwm (screen_w g) (screen_h g) (theme g) (windows g) (next_id g) (focused_id g) (zorder g) (drag g) (resize g) (icons g) (drag_icon g) c (lasso g) (current_desktop g) (desktop_count g).
Definition set_lasso (g : DosGuiWM) (l : lasso_state) : DosGuiWM :=
  Dwm (screen_w g) (screen_h g) (theme g) (windows g) (next_id g) (focused_id g) (zorder g) (drag g) (resize g) (icons g) (drag_icon g) (click g) l (current_desktop g) (desktop_count g).
Definition set_desktop (g : DosGuiWM) (d : Z) : DosGuiWM :=
  Dwm (screen_w g) (screen_h g) (theme g) (windows g) (next_id g) (focused_id g) (zorder g) (drag g) (resize g) (icons g) (drag_icon g) (click g) (lasso g) d (desktop_count g).

Definition upd_win (g : DosGuiWM) (i : nat) (f : DosGuiWindow -> DosGuiWindow) : DosGuiWM := set_windows g (alter f i (windows g)).
Definition upd_icon (g : DosGuiWM) (i : nat) (f : DosGuiIcon -> DosGuiIcon) : DosGuiWM := set_icons g (alter f i (icons g)).

(** Stores into a window. *)
Definition set_geometry (x y w h : Z) (v : DosGuiWindow) : DosGuiWindow :=
  Win (w_id v) (w_flags v) x y w h (min_x v) (min_y v) (min_w v) (min_h v) (w_desktop v) (w_title v) (w_alive v) (is_modal v) (w_parent v).
Definition set_flags (f : Z) (v : DosGuiWindow) : DosGuiWindow :=
  Win (w_id v) f (wx v) (wy v) (ww v) (wh v) (min_x v) (min_y v) (min_w v) (min_h v) (w_desktop v) (w_title v) (w_alive v) (is_modal v) (w_parent v).
Definition save_geometry (v : DosGuiWindow) : DosGuiWindow :=
  Win (w_id v) (w_flags v) (wx v) (wy v) (ww v) (wh v) (wx v) (wy v) (ww v) (wh v) (w_desktop v) (w_title v) (w_alive v) (is_modal v) (w_parent v).
Definition set_win_desktop (d : Z) (v : DosGuiWindow) : DosGuiWindow :=
  Win (w_id v) (w_flags v) (wx v) (wy v) (ww v) (wh v) (min_x v) (min_y v) (min_w v) (min_h v) d (w_title v) (w_alive v) (is_modal v) (w_parent v).
Definition kill_win (v : DosGuiWindow) : DosGuiWindow :=
  Win (w_id v) DOSGUI_WIN_UNUSED (wx v) (wy v) (ww v) (wh v) (min_x v) (min_y v) (min_w v) (min_h v) (w_desktop v) (w_title v) false (is_modal v) (w_parent v).
Definition set_modal (p : option nat) (v : DosGuiWindow) : DosGuiWindow :=
  Win (w_id v) (w_flags v) (wx v) (wy v) (ww v) (wh v) (min_x v) (min_y v) (min_w v) (min_h v) (w_desktop v) (w_title v) (w_alive v) true p.

Definition zero_window : DosGuiWindow := Win 0 0 0 0 0 0 0 0 0 0 0 [] false false None.

Definition dosgui_wm_init (sw sh : Z) (th : wm_theme) : DosGuiWM :=
  Dwm sw sh th (replicate DOSGUI_MAX_WINDOWS zero_window) 0 (-1) [] (Drag (-1) 0 0) (Resize (-1) 0 0 0 0 0) [] (Drag (-1) 0 0)
    (Click (-1) 0 0) (Lasso false 0 0 0 0) 0 1.

Definition has_win_flag (v : DosGuiWindow) (f : Z) : bool := negb (Z.land (w_flags v) f =? 0).

(** Measures of the theme. *)
Definition title_bar_height (g : DosGuiWM) : Z := if Luna_start_button (theme g) then 24 else DOSGUI_TITLE_H.
Definition taskbar_height_dynamic (g : DosGuiWM) : Z := if Luna_start_button (theme g) then 30 else DOSGUI_TASK_H.
Definition border_width (g : DosGuiWM) : Z := if rounded_buttons (theme g) then 2 else 1.
Definition theme_radius (g : DosGuiWM) : Z := if rounded_buttons (theme g) then 4 else 0.

(** ** Windows *)

Fixpoint remove_first (i : nat) (l : list nat) : list nat :=
  match l with [] => [] | j :: l => if Nat.eqb j i then l else j :: remove_first i l end.

Definition raise_win (g : DosGuiWM) (i : nat) : DosGuiWM :=
  if existsb (Nat.eqb i) (zorder g) then set_zorder g (remove_first i (zorder g) ++ [i]) else g.

(** -1 when all windows are taken; [None] when the stacking order has no room. *)
Definition spawn_window (g : DosGuiWM) (x y w h : Z) (title : option (list Z)) : option (Z * DosGuiWM) :=
  match list_find (fun v => w_alive v = false) (windows g) with
  | None => Some (-1, g)
  | Some (i, _) =>
      if Nat.leb DOSGUI_MAX_WINDOWS (length (zorder g)) then None else
      let name := match title with Some t => t | None => [87; 105; 110; 100; 111; 119] end in
      let v := Win (next_id g) DOSGUI_WIN_NORMAL x y w h 0 0 0 0 (current_desktop g) (take 63 name) true false None in
      let g := set_next (set_windows g (<[i := v]> (windows g))) (next_id g + 1) in
      Some (Z.of_nat i, set_focused (set_zorder g (zorder g ++ [i])) (Z.of_nat i))
  end.

Definition close_win (g : DosGuiWM) (i : Z) : DosGuiWM :=
  if (i <? 0) || (i >=? Z.of_nat DOSGUI_MAX_WINDOWS) then g else
  let n := Z.to_nat i in
  let g := upd_win g n kill_win in
  let g := set_zorder g (remove_first n (zorder g)) in
  let g := if drag_id (drag g) =? i then set_drag g (Drag (-1) (drag_ox (drag g)) (drag_oy (drag g))) else g in
  if focused_id g =? i then set_focused g (match last (zorder g) with Some k => Z.of_nat k | None => -1 end) else g.

Definition in_window (v : DosGuiWindow) (x y : Z) : bool :=
  (wx v <=? x) && (x <? wx v + ww v) && (wy v <=? y) && (y <? wy v + wh v).

(** The first window of a list of indices that satisfies a test. *)
Fixpoint first_window (g : DosGuiWM) (P : DosGuiWindow -> bool) (l : list nat) : option nat :=
  match l with
  | [] => None
  | i :: l => match windows g !! i with Some v => if P v then Some i else first_window g P l | None => first_window g P l end
  end.

Definition hit_test (g : DosGuiWM) (x y : Z) : option nat :=
  first_window g (fun v => w_alive v && (w_desktop v =? current_desktop g) && in_window v x y) (rev (zorder g)).

Definition dosgui_wm_drop_target (g : DosGuiWM) (x y : Z) : option nat :=
  first_window g (fun v => w_alive v && in_window v x y) (rev (zorder g)).

Definition dosgui_wm_create (g : DosGuiWM) (x y w h : Z) (title : option (list Z)) : option (Z * DosGuiWM) := spawn_window g x y w h title.
Definition dosgui_wm_destroy (g : DosGuiWM) (i : nat) : DosGuiWM := if Nat.ltb i DOSGUI_MAX_WINDOWS then close_win g (Z.of_nat i) else g.
Definition dosgui_wm_set_focus (g : DosGuiWM) (i : nat) : DosGuiWM :=
  if Nat.ltb i DOSGUI_MAX_WINDOWS then set_focused (raise_win g i) (Z.of_nat i) else g.
Definition dosgui_wm_get_focused (g : DosGuiWM) : option nat := if focused_id g <? 0 then None else Some (Z.to_nat (focused_id g)).
Definition dosgui_wm_find_by_id (g : DosGuiWM) (id : Z) : option nat := fst <$> list_find (fun v => w_alive v = true /\ w_id v = id) (windows g).
Definition dosgui_wm_window_count (g : DosGuiWM) : nat := length (zorder g).

Definition dosgui_wm_move_window_to_desktop (g : DosGuiWM) (i : nat) (d : Z) : DosGuiWM :=
  if (d <? 0) || (d >=? desktop_count g) then g else
  let g := upd_win g i (set_win_desktop d) in
  if negb (d =? current_desktop g) && (focused_id g >=? 0) && (focused_id g =? Z.of_nat i) then set_focused g (-1) else g.

Definition dosgui_wm_set_current_desktop (g : DosGuiWM) (d : Z) : DosGuiWM :=
  if (d <? 0) || (d >=? desktop_count g) then g else
  let g := set_desktop g d in
  if focused_id g >=? 0 then
    match windows g !! Z.to_nat (focused_id g) with
    | Some v => if w_alive v && negb (w_desktop v =? current_desktop g) then set_focused g (-1) else g
    | None => g
    end
  else g.

Definition dosgui_wm_move_focused_window (g : DosGuiWM) (delta : Z) : DosGuiWM :=
  if focused_id g <? 0 then g else
  match windows g !! Z.to_nat (focused_id g) with
  | Some v =>
      if negb (w_alive v) then g else
      let n := w_desktop v + delta in
      let n := if n <? 0 then 0 else n in
      let n := if n >=? desktop_count g then desktop_count g - 1 else n in
      if negb (n =? w_desktop v) then dosgui_wm_move_window_to_desktop g (Z.to_nat (focused_id g)) n else g
  | None => g
  end.

(** *** Geometry *)

Definition work_height (g : DosGuiWM) : Z := screen_h g - taskbar_height_dynamic g.

Definition dosgui_wm_resize (g : DosGuiWM) (i : nat) (w h : Z) : DosGuiWM :=
  let w := if w <? 100 then 100 else w in
  let h := if h <? 50 then 50 else h in
  let w := if w >? screen_w g then screen_w g else w in
  let h := if h >? work_height g then work_height g else h in
  upd_win g i (fun v => set_geometry (wx v) (wy v) w h v).

Definition moved (g : DosGuiWM) (x y : Z) (v : DosGuiWindow) : DosGuiWindow :=
  let x := if x <? 0 then 0 else x in
  let y := if y <? 0 then 0 else y in
  let x := if x + ww v >? screen_w g then screen_w g - ww v else x in
  let y := if y + wh v >? work_height g then work_height g - wh v else y in
  set_geometry x y (ww v) (wh v) v.
Definition dosgui_wm_move (g : DosGuiWM) (i : nat) (x y : Z) : DosGuiWM := upd_win g i (moved g x y).

(** Full screen above the taskbar, with the old geometry kept. *)
Definition enlarge (g : DosGuiWM) (v : DosGuiWindow) : DosGuiWindow :=
  set_flags (Z.lor (w_flags v) DOSGUI_WIN_MAXIMIZED) (set_geometry 0 0 (screen_w g) (work_height g) (save_geometry v)).
Definition shrink (v : DosGuiWindow) : DosGuiWindow :=
  set_flags (Z.land (w_flags v) (Z.lnot DOSGUI_WIN_MAXIMIZED)) (set_geometry (min_x v) (min_y v) (min_w v) (min_h v) v).

Definition dosgui_wm_maximize (g : DosGuiWM) (i : nat) : DosGuiWM :=
  upd_win g i (fun v => if has_win_flag v DOSGUI_WIN_MAXIMIZED then v else enlarge g v).
Definition dosgui_wm_minimize (g : DosGuiWM) (i : nat) : DosGuiWM :=
  upd_win g i (fun v => set_flags (Z.lor (w_flags v) DOSGUI_WIN_MINIMIZED) v).
Definition dosgui_wm_restore (g : DosGuiWM) (i : nat) : DosGuiWM :=
  upd_win g i (fun v =>
    let v := if has_win_flag v DOSGUI_WIN_MAXIMIZED then shrink v else v in
    set_flags (Z.land (w_flags v) (Z.lnot DOSGUI_WIN_MINIMIZED)) v).
Definition dosgui_wm_is_maximized (v : DosGuiWindow) : bool := has_win_flag v DOSGUI_WIN_MAXIMIZED.
Definition dosgui_wm_is_minimized (v : DosGuiWindow) : bool := has_win_flag v DOSGUI_WIN_MINIMIZED.

(** The last position of [i] in a list. *)
Fixpoint last_position (i : nat) (l : list nat) : option nat :=
  match l with
  | [] => None
  | j :: l => match last_position i l with Some k => Some (S k) | None => if Nat.eqb j i then Some O else None end
  end.

(** The move of the entries behind the parent writes entry [nz]; the count stays. *)
Definition dosgui_wm_create_modal (g : DosGuiWM) (x y w h : Z) (title : option (list Z)) (parent : option nat) : option (Z * DosGuiWM) :=
  '(i, g) ← dosgui_wm_create g x y w h title;
  if i <? 0 then Some (i, g) else
  let n := Z.to_nat i in
  let g := upd_win g n (set_modal parent) in
  match parent with
  | None => Some (i, g)
  | Some p =>
      match last_position p (zorder g) with
      | None => Some (i, g)
      | Some j =>
          if Nat.ltb (S j) (length (zorder g)) then
            if Nat.leb DOSGUI_MAX_WINDOWS (length (zorder g)) then None
            else Some (i, set_zorder g (take (length (zorder g)) (take (S j) (zorder g) ++ [n] ++ drop (S j) (zorder g))))
          else
            if Nat.leb DOSGUI_MAX_WINDOWS (S j) then None else Some (i, g)
      end
  end.
Definition dosgui_wm_is_modal (v : DosGuiWindow) : bool := is_modal v.

(** *** Snapping *)

Definition snap_margin : Z := 12.
Definition near (a b : Z) : bool := Z.abs (a - b) <=? snap_margin.

(** The window and whether it snapped. *)
Definition snap_edges (g : DosGuiWM) (v : DosGuiWindow) : DosGuiWindow * bool :=
  let '(v, s) :=
    if (- snap_margin <=? wx v) && (wx v <=? snap_margin) then (set_geometry 0 (wy v) (ww v) (wh v) v, true)
    else if (screen_w g - snap_margin <=? wx v + ww v) && (wx v + ww v <=? screen_w g + snap_margin)
    then (set_geometry (screen_w g - ww v) (wy v) (ww v) (wh v) v, true) else (v, false) in
  if (- snap_margin <=? wy v) && (wy v <=? snap_margin) then (set_geometry (wx v) 0 (ww v) (wh v) v, true)
  else if (work_height g - snap_margin <=? wy v + wh v) && (wy v + wh v <=? work_height g + snap_margin)
  then (set_geometry (wx v) (work_height g - wh v) (ww v) (wh v) v, true) else (v, s).

Definition snap_regions (g : DosGuiWM) (v : DosGuiWindow) (s : bool) : DosGuiWindow * bool :=
  let cx := Z.quot (screen_w g) 2 in
  let cy := Z.quot (work_height g) 2 in
  let quarter := near (ww v) cx && near (wh v) cy in
  let half := near (ww v) cx && near (wh v) (work_height g) in
  if near (wx v) 0 && near (wy v) 0 && quarter then (set_geometry 0 0 cx cy v, true)
  else if near (wx v + ww v) (screen_w g) && near (wy v) 0 && quarter then (set_geometry cx 0 cx cy v, true)
  else if near (wx v) 0 && near (wy v + wh v) (work_height g) && quarter then (set_geometry 0 cy cx cy v, true)
  else if near (wx v + ww v) (screen_w g) && near (wy v + wh v) (work_height g) && quarter then (set_geometry cx cy cx cy v, true)
  else if near (wx v) 0 && near (wy v) 0 && half then (set_geometry 0 0 cx (work_height g) v, true)
  else if near (wx v + ww v) (screen_w g) && near (wy v) 0 && half then (set_geometry cx 0 cx (work_height g) v, true)
  else (v, s).

Definition snap_window_to_gaad (g : DosGuiWM) (v : DosGuiWindow) : DosGuiWindow :=
  let '(v, s) := snap_edges g v in
  let '(v, s) := snap_regions g v s in
  if negb s then v else
  let x := if wx v <? 0 then 0 else wx v in
  let y := if wy v <? 0 then 0 else wy v in
  let w := if x + ww v >? screen_w g then screen_w g - x else ww v in
  let h := if y + wh v >? work_height g then work_height g - y else wh v in
  set_geometry x y w h v.

(** ** Desktop icons *)

Definition cell_x (gx : Z) : Z := 20 + gx * (DOSGUI_ICON_SIZE + DOSGUI_ICON_GAP).
Definition cell_y (gy : Z) : Z := 20 + gy * (DOSGUI_ICON_SIZE + DOSGUI_ICON_GAP + 8).

Definition place_icon (gx gy : Z) (v : DosGuiIcon) : DosGuiIcon :=
  Icon (i_name v) (cell_x gx) (cell_y gy) gx gy (i_alive v) (i_type v) (i_target v) (icon_color v) (i_selected v).
Definition set_icon_pos (x y : Z) (v : DosGuiIcon) : DosGuiIcon :=
  Icon (i_name v) x y (grid_x v) (grid_y v) (i_alive v) (i_type v) (i_target v) (icon_color v) (i_selected v).
Definition set_icon_grid (gx gy : Z) (v : DosGuiIcon) : DosGuiIcon :=
  Icon (i_name v) (ix v) (iy v) gx gy (i_alive v) (i_type v) (i_target v) (icon_color v) (i_selected v).
Definition select_icon (b : bool) (v : DosGuiIcon) : DosGuiIcon :=
  Icon (i_name v) (ix v) (iy v) (grid_x v) (grid_y v) (i_alive v) (i_type v) (i_target v) (icon_color v) b.

(** -1 when there is no room. *)
Definition dosgui_icon_add_ex (g : DosGuiWM) (name : list Z) (ty : DeskIconType) (target : option (list Z)) (gx gy color : Z) : Z * DosGuiWM :=
  if Nat.leb DOSGUI_MAX_ICONS (length (icons g)) then (-1, g) else
  let c := if color =? 0 then 0x0080FF else color in
  let tg := match target with Some t => take 255 t | None => [] end in
  (Z.of_nat (length (icons g)), set_icons g (icons g ++ [Icon (take 31 name) (cell_x gx) (cell_y gy) gx gy true ty tg c false])).
Definition dosgui_icon_add (g : DosGuiWM) (name : list Z) (gx gy : Z) : Z * DosGuiWM :=
  if Nat.leb DOSGUI_MAX_ICONS (length (icons g)) then (-1, g) else
  (Z.of_nat (length (icons g)), set_icons g (icons g ++ [Icon (take 31 name) (cell_x gx) (cell_y gy) gx gy true ICON_APP [] 0x0080FF false])).
Definition dosgui_shortcut_create (g : DosGuiWM) (name target : list Z) (gx gy : Z) : Z * DosGuiWM :=
  dosgui_icon_add_ex g name ICON_SHORTCUT (Some target) gx gy 0x00FF00.
Definition dosgui_shortcut_create_url (g : DosGuiWM) (name url : list Z) (gx gy : Z) : Z * DosGuiWM :=
  dosgui_icon_add_ex g name ICON_URL (Some url) gx gy 0xFF8000.

Definition at_cell (gx gy : Z) (v : DosGuiIcon) : bool := i_alive v && (grid_x v =? gx) && (grid_y v =? gy).
Definition dosgui_icon_find_at (g : DosGuiWM) (gx gy : Z) : option nat := fst <$> list_find (fun v => at_cell gx gy v = true) (icons g).

Definition dosgui_icon_remove (g : DosGuiWM) (gx gy : Z) : DosGuiWM :=
  match dosgui_icon_find_at g gx gy with
  | Some i => set_icons g (take i (icons g) ++ drop (S i) (icons g))
  | None => g
  end.

Definition dosgui_icon_set_position (g : DosGuiWM) (gx gy new_gx new_gy : Z) : DosGuiWM :=
  match dosgui_icon_find_at g gx gy with
  | Some i => match dosgui_icon_find_at g new_gx new_gy with None => upd_icon g i (place_icon new_gx new_gy) | Some _ => g end
  | None => g
  end.

Definition in_icon (x y : Z) (v : DosGuiIcon) : bool :=
  (ix v <=? x) && (x <? ix v + DOSGUI_ICON_SIZE) && (iy v <=? y) && (y <? iy v + DOSGUI_ICON_SIZE).
Definition dosgui_icon_hit_test (g : DosGuiWM) (x y : Z) : option nat := fst <$> list_find (fun v => in_icon x y v = true) (icons g).

Definition in_rect (x0 y0 x1 y1 : Z) (v : DosGuiIcon) : bool :=
  (ix v <? x1) && (ix v + DOSGUI_ICON_SIZE >? x0) && (iy v <? y1) && (iy v + DOSGUI_ICON_SIZE >? y0).
Definition dosgui_icon_select_in_rect (g : DosGuiWM) (x0 y0 x1 y1 : Z) : DosGuiWM :=
  let f v := if i_alive v then select_icon (in_rect (Z.min x0 x1) (Z.min y0 y1) (Z.max x0 x1) (Z.max y0 y1) v) v else v in
  set_icons g (map f (icons g)).

Definition dosgui_wm_compact_icons (g : DosGuiWM) : DosGuiWM := set_icons g (base.filter (fun v => i_alive v = true) (icons g)).

Definition clamp15 (n : Z) : Z := if n <? 0 then 0 else if n >? 15 then 15 else n.
Definition icon_grid_x (x : Z) : Z := cell_x (clamp15 (Z.quot (x - 20) (DOSGUI_ICON_SIZE + DOSGUI_ICON_GAP))).
Definition icon_grid_y (y : Z) : Z := cell_y (clamp15 (Z.quot (y - 20) (DOSGUI_ICON_SIZE + DOSGUI_ICON_GAP + 8))).
Definition snap_icon_to_grid (v : DosGuiIcon) : DosGuiIcon :=
  let v := set_icon_pos (icon_grid_x (ix v)) (icon_grid_y (iy v)) v in
  set_icon_grid (Z.quot (ix v - 20) (DOSGUI_ICON_SIZE + DOSGUI_ICON_GAP)) (Z.quot (iy v - 20) (DOSGUI_ICON_SIZE + DOSGUI_ICON_GAP + 8)) v.

(** The saved layout: names and cells. *)
Definition WUBU_ICON_LAYOUT_MAX : nat := 64.
Record IconLayoutEntry := Layout { e_name : list Z; e_grid_x : Z; e_grid_y : Z; e_alive : bool }.
Definition dosgui_wm_save_icon_layout (g : DosGuiWM) : list IconLayoutEntry :=
  take WUBU_ICON_LAYOUT_MAX (map (fun v => Layout (i_name v) (grid_x v) (grid_y v) true) (base.filter (fun v => i_alive v = true) (icons g))).
Definition dosgui_wm_restore_icon_layout (g : DosGuiWM) (l : list IconLayoutEntry) : DosGuiWM :=
  let f v := if i_alive v then
               match list_find (fun e => e_alive e = true /\ e_name e = i_name v) l with
               | Some (_, e) => place_icon (e_grid_x e) (e_grid_y e) v
               | None => v
               end
             else v in
  set_icons g (map f (icons g)).

(** ** The keyboard *)

(** Alt+Tab. *)
Definition alt_tab (g : DosGuiWM) : DosGuiWM :=
  if Nat.ltb 1 (length (zorder g)) then
    let cur := match list_find (fun i => Z.of_nat i = focused_id g) (zorder g) with Some (j, _) => j | None => O end in
    match zorder g !! (S cur mod length (zorder g))%nat with
    | Some n =>
        match windows g !! n with
        | Some v => if w_alive v then set_focused (raise_win g n) (Z.of_nat n) else g
        | None => g
        end
    | None => g
    end
  else g.

(** The keys that close and that toggle the size of the focused window. *)
Definition key_close (g : DosGuiWM) : DosGuiWM := if focused_id g >=? 0 then close_win g (focused_id g) else g.
Definition toggle_size (g : DosGuiWM) (v : DosGuiWindow) : DosGuiWindow := if has_win_flag v DOSGUI_WIN_MAXIMIZED then shrink v else enlarge g v.
Definition key_toggle_size (g : DosGuiWM) : DosGuiWM := if focused_id g >=? 0 then upd_win g (Z.to_nat (focused_id g)) (toggle_size g) else g.

(** Ctrl+Alt+arrow: the next or the previous desktop. *)
Definition key_desktop (g : DosGuiWM) (right : bool) : DosGuiWM :=
  set_desktop g (if right then Z.rem (current_desktop g + 1) (desktop_count g)
                 else Z.rem (current_desktop g - 1 + desktop_count g) (desktop_count g)).

(** ** The pointer *)

Inductive wm_event : Set := EvLaunch (icon : nat) | EvClient (win : nat) (x y : Z) | EvDrop (win icon : nat).

Definition box (x y bx by_ bw bh : Z) : bool := (bx <=? x) && (x <? bx + bw) && (by_ <=? y) && (y <? by_ + bh).

Inductive title_button : Set := BtnClose | BtnSize | BtnHide.

(** The buttons of the frame at a point. *)
Definition frame_button (g : DosGuiWM) (v : DosGuiWindow) (x y : Z) : option title_button :=
  let cx := wx v + ww v - theme_radius g - 18 in
  let cy := wy v + theme_radius g + 2 in
  if box x y cx cy 14 12 then Some BtnClose
  else if Luna_start_button (theme g) then
    if box x y (cx - 20) cy 14 12 then Some BtnSize else if box x y (cx - 40) cy 14 12 then Some BtnHide else None
  else None.

Definition press_button (g : DosGuiWM) (i : nat) (b : title_button) : DosGuiWM :=
  match b with
  | BtnClose => close_win g (Z.of_nat i)
  | BtnSize => upd_win g i (toggle_size g)
  | BtnHide => upd_win g i (fun v => set_flags (Z.lor (w_flags v) DOSGUI_WIN_MINIMIZED) v)
  end.

(** The search for a button, from the top window down. *)
Definition shows_buttons (v : DosGuiWindow) : bool :=
  w_alive v && negb (has_win_flag v DOSGUI_WIN_MINIMIZED) && negb (has_win_flag v DOSGUI_WIN_MAXIMIZED).
Fixpoint scan_buttons (g : DosGuiWM) (x y : Z) (l : list nat) : option (nat * title_button) :=
  match l with
  | [] => None
  | i :: l =>
      match windows g !! i with
      | Some v => match (if shows_buttons v then frame_button g v x y else None) with Some b => Some (i, b) | None => scan_buttons g x y l end
      | None => scan_buttons g x y l
      end
  end.

Definition hit_test_edge (g : DosGuiWM) (v : DosGuiWindow) (x y : Z) : Z :=
  let corner := border_width g * 2 in
  let grab := if corner >? 2 then corner else 2 in
  let on_top := ((wy v <=? y) && (y <? wy v + grab)) || ((wy v <=? y) && (y <? wy v + corner) && (wx v <=? x) && (x <? wx v + corner)) in
  let on_bot := ((wy v + wh v - grab <=? y) && (y <? wy v + wh v)) ||
                ((wy v + wh v - corner <=? y) && (y <? wy v + wh v) && (wx v + ww v - corner <=? x) && (x <? wx v + ww v)) in
  let on_left := ((wx v <=? x) && (x <? wx v + grab)) || ((wx v <=? x) && (x <? wx v + corner) && (wy v <=? y) && (y <? wy v + corner)) in
  let on_right := ((wx v + ww v - grab <=? x) && (x <? wx v + ww v)) ||
                  ((wx v + ww v - corner <=? x) && (x <? wx v + ww v) && (wy v + wh v - corner <=? y) && (y <? wy v + wh v)) in
  Z.lor (Z.lor (Z.lor (if on_left then 1 else 0) (if on_right then 2 else 0)) (if on_top then 4 else 0)) (if on_bot then 8 else 0).

(** 3 is close, 2 is maximize, 1 is minimize, 0 is none. *)
Definition dosgui_chrome_hit_test_button (g : DosGuiWM) (v : DosGuiWindow) (x y : Z) : Z :=
  let start_x := wx v + ww v - border_width g - 14 - 2 in
  let close_y := wy v + Z.quot (title_bar_height g - 14) 2 in
  if box x y start_x close_y 14 14 then 3
  else if box x y (start_x - 14 - 2) close_y 14 14 then 2
  else if box x y (start_x - 14 - 2 - 14 - 2) close_y 14 14 then 1 else 0.

Definition dosgui_chrome_handle_button_click (g : DosGuiWM) (i : nat) (button : Z) : DosGuiWM :=
  if button =? 3 then dosgui_wm_destroy g i
  else if button =? 2 then
    match windows g !! i with
    | Some v => if has_win_flag v DOSGUI_WIN_MAXIMIZED then dosgui_wm_restore g i else dosgui_wm_maximize g i
    | None => g
    end
  else if button =? 1 then dosgui_wm_minimize g i else g.

(** A left press on window [i], which has been found under the pointer. *)
Definition press_window (g : DosGuiWM) (i : nat) (x y : Z) : DosGuiWM * list wm_event :=
  let g := set_focused (raise_win g i) (Z.of_nat i) in
  match windows g !! i with
  | None => (g, [])
  | Some v =>
      match frame_button g v x y with
      | Some b => (press_button g i b, [])
      | None =>
          let e := if has_win_flag v DOSGUI_WIN_MAXIMIZED then 0 else hit_test_edge g v x y in
          if negb (e =? 0) then (set_resize g (Resize (Z.of_nat i) e x y (ww v) (wh v)), []) else
          if y <? wy v + title_bar_height g then
            let b := dosgui_chrome_hit_test_button g v x y in
            if negb (b =? 0) then (dosgui_chrome_handle_button_click g i b, [])
            else (set_drag g (Drag (Z.of_nat i) (x - wx v) (y - wy v)), [])
          else (g, [EvClient i (x - wx v) (y - wy v)])
      end
  end.

Definition dosgui_wm_ticks_ms (g : DosGuiWM) : Z := u64 (render_frame_count (click g) * 16).

(** A left press where there is no window. *)
Definition press_desktop (g : DosGuiWM) (x y : Z) : DosGuiWM * list wm_event :=
  match dosgui_icon_hit_test g x y with
  | Some k =>
      let now := dosgui_wm_ticks_ms g in
      let double := (last_click_icon (click g) =? Z.of_nat k) && (u64 (now - last_click_ms (click g)) <? 500) in
      let g := set_icons g (imap (fun j v => select_icon (Nat.eqb j k) v) (icons g)) in
      let g := set_click g (if double then Click (-1) 0 (render_frame_count (click g)) else Click (Z.of_nat k) now (render_frame_count (click g))) in
      let g := match icons g !! k with
               | Some v => set_drag_icon g (Drag (Z.of_nat k) (x - ix v) (y - iy v))
               | None => g
               end in
      (set_focused g (-1), if double then [EvLaunch k] else [])
  | None => (set_lasso (set_focused g (-1)) (Lasso true x y x y), [])
  end.

(** A left press above the taskbar. *)
Definition mouse_press (g : DosGuiWM) (x y : Z) : DosGuiWM * list wm_event :=
  match scan_buttons g x y (rev (zorder g)) with
  | Some (i, b) => (press_button g i b, [])
  | None => match hit_test g x y with Some i => press_window g i x y | None => press_desktop g x y end
  end.

Definition live_window (g : DosGuiWM) (i : Z) : option DosGuiWindow :=
  if i <? 0 then None else
  match windows g !! Z.to_nat i with Some v => if w_alive v then Some v else None | None => None end.

Definition mouse_release (g : DosGuiWM) (x y : Z) : DosGuiWM * list wm_event :=
  let r := resize g in
  let g := if resize_id r >=? 0 then set_resize g (Resize (-1) (resize_edge r) (resize_ox r) (resize_oy r) (resize_ow r) (resize_oh r)) else g in
  let g := match live_window g (drag_id (drag g)) with
           | Some _ => upd_win g (Z.to_nat (drag_id (drag g))) (snap_window_to_gaad g)
           | None => g
           end in
  let g := set_drag g (Drag (-1) (drag_ox (drag g)) (drag_oy (drag g))) in
  let '(g, ev) :=
    if drag_id (drag_icon g) >=? 0 then
      let k := Z.to_nat (drag_id (drag_icon g)) in
      (set_drag_icon (upd_icon g k snap_icon_to_grid) (Drag (-1) (drag_ox (drag_icon g)) (drag_oy (drag_icon g))),
       match dosgui_wm_drop_target g x y with Some i => [EvDrop i k] | None => [] end)
    else (g, []) in
  let l := lasso g in
  (if lasso_active l then set_lasso (dosgui_icon_select_in_rect g (lasso_x0 l) (lasso_y0 l) (lasso_x1 l) (lasso_y1 l)) (Lasso false (lasso_x0 l) (lasso_y0 l) (lasso_x1 l) (lasso_y1 l))
   else g, ev).

(** Stretching the window by the edges that were grabbed. *)
Definition stretch (r : resize_state) (x y : Z) (v : DosGuiWindow) : DosGuiWindow :=
  let dx := x - resize_ox r in
  let dy := y - resize_oy r in
  let e := resize_edge r in
  let v := if Z.testbit e 0 then
             let nw := resize_ow r - dx in
             if nw >=? 80 then set_geometry (resize_ox r - (resize_ow r - nw)) (wy v) nw (wh v) v else v
           else v in
  let v := if Z.testbit e 1 then
             let nw := resize_ow r + dx in if nw >=? 80 then set_geometry (wx v) (wy v) nw (wh v) v else v
           else v in
  let v := if Z.testbit e 2 then
             let nh := resize_oh r - dy in
             if nh >=? 40 then set_geometry (wx v) (resize_oy r - (resize_oh r - nh)) (ww v) nh v else v
           else v in
  if Z.testbit e 3 then
    let nh := resize_oh r + dy in if nh >=? 40 then set_geometry (wx v) (wy v) (ww v) nh v else v
  else v.

Definition dragged (g : DosGuiWM) (x y : Z) (v : DosGuiWindow) : DosGuiWindow :=
  if has_win_flag v DOSGUI_WIN_MAXIMIZED then v else
  let nx := x - drag_ox (drag g) in
  let ny := y - drag_oy (drag g) in
  let nx := if nx <? - ww v + 60 then - ww v + 60 else nx in
  let nx := if nx >? screen_w g - 60 then screen_w g - 60 else nx in
  let ny := if ny <? 0 then 0 else ny in
  let ny := if ny >? screen_h g - taskbar_height_dynamic g - title_bar_height g then screen_h g - taskbar_height_dynamic g - title_bar_height g else ny in
  set_geometry nx ny (ww v) (wh v) v.

Definition dragged_icon (g : DosGuiWM) (x y : Z) (v : DosGuiIcon) : DosGuiIcon :=
  let nx := x - drag_ox (drag_icon g) in
  let ny := y - drag_oy (drag_icon g) in
  let nx := if nx <? 0 then 0 else nx in
  let nx := if nx >? screen_w g - DOSGUI_ICON_SIZE then screen_w g - DOSGUI_ICON_SIZE else nx in
  let ny := if ny <? 0 then 0 else ny in
  let ny := if ny >? work_height g - DOSGUI_ICON_SIZE then work_height g - DOSGUI_ICON_SIZE else ny in
  set_icon_pos nx ny v.

Definition mouse_move (g : DosGuiWM) (x y : Z) : DosGuiWM * list wm_event :=
  let l := lasso g in
  let g := if lasso_active l then set_lasso g (Lasso true (lasso_x0 l) (lasso_y0 l) x y) else g in
  let '(g, ev) :=
    match live_window g (resize_id (resize g)) with
    | Some _ => (upd_win g (Z.to_nat (resize_id (resize g))) (stretch (resize g) x y), [])
    | None =>
        match live_window g (drag_id (drag g)) with
        | Some _ => (upd_win g (Z.to_nat (drag_id (drag g))) (dragged g x y), [])
        | None => (g, match live_window g (focused_id g) with
                      | Some v => [EvClient (Z.to_nat (focused_id g)) (x - wx v) (y - wy v)]
                      | None => []
                      end)
        end
    end in
  (if drag_id (drag_icon g) >=? 0 then upd_icon g (Z.to_nat (drag_id (drag_icon g))) (dragged_icon g x y) else g, ev).
