(* ===== verification/WmTheorems.v ===== *)
(** * Theorems of the window manager *)

From Stdlib Require Import Permutation.
From S2P Require Import Prelude Wm.
Open Scope Z_scope.

(** Case analysis on the tests of a goal. *)
Ltac cases_if := repeat match goal with |- context [if ?b then _ else _] => destruct b eqn:? end.

(** ** Stacking orders *)

Lemma remove_first_notin i l : i ∉ l -> remove_first i l = l.
Proof.
  induction l as [|j l IH]; [done|]. intros [Hj Hl]%not_elem_of_cons. cbn. destruct (Nat.eqb_spec j i); [congruence|]. by rewrite IH.
Qed.

Lemma remove_first_elem i j l : NoDup l -> (j ∈ remove_first i l <-> j ∈ l /\ j <> i).
Proof.
  induction l as [|k l IH]; intros Hn; [cbn; set_solver|]. apply NoDup_cons in Hn as [Hk Hn]. cbn. destruct (Nat.eqb_spec k i) as [->|Hne].
  - set_solver.
  - rewrite elem_of_cons, IH by done. set_solver.
Qed.

Lemma remove_first_nodup i l : NoDup l -> NoDup (remove_first i l).
Proof.
  induction l as [|k l IH]; intros Hn; [done|]. apply NoDup_cons in Hn as [Hk Hn]. cbn. destruct (Nat.eqb_spec k i); [done|].
  apply NoDup_cons. split; [rewrite remove_first_elem by done; tauto|auto].
Qed.

Lemma remove_first_mid i l1 l2 : i ∉ l1 -> remove_first i (l1 ++ i :: l2) = l1 ++ l2.
Proof.
  induction l1 as [|j l1 IH]; cbn; [by rewrite Nat.eqb_refl|]. intros [Hj Hl]%not_elem_of_cons. destruct (Nat.eqb_spec j i); [congruence|]. by rewrite IH.
Qed.

Lemma existsb_elem i l : existsb (Nat.eqb i) l = true <-> i ∈ l.
Proof.
  rewrite existsb_exists, list_elem_of_In. split; [intros (j & Hj & ->%Nat.eqb_eq); done|]. intros H. exists i. by rewrite Nat.eqb_refl.
Qed.

Lemma raise_zorder g i : i ∈ zorder g -> raise_win g i = set_zorder g (remove_first i (zorder g) ++ [i]).
Proof. intros H. unfold raise_win. by rewrite (proj2 (existsb_elem i (zorder g)) H). Qed.

(** ** The invariant *)

(** [k] names no window, or one of the list. *)
Definition names (z : list nat) (k : Z) : Prop := k = -1 \/ exists i, i ∈ z /\ k = Z.of_nat i.

(** Focus may be set on any window record, also a dead one: it then names a slot of
    the array.  [strict] sessions set it on windows of the stack only, and there the
    focus names a window of the stack. *)
Section invariant.
Variable strict : bool.

Definition focus_range (z : list nat) : list nat := if strict then z else seq 0 DOSGUI_MAX_WINDOWS.

Record wm_ok (g : DosGuiWM) : Prop := {
  wk_len : length (windows g) = DOSGUI_MAX_WINDOWS;
  wk_nodup : NoDup (zorder g);
  wk_alive : forall i, i ∈ zorder g <-> exists v, windows g !! i = Some v /\ w_alive v = true;
  wk_focus : names (focus_range (zorder g)) (focused_id g);
  wk_drag : names (zorder g) (drag_id (drag g)) }.

Lemma names_mono z z' k : (forall i, i ∈ z -> i ∈ z') -> names z k -> names z' k.
Proof. intros H [->|(i & Hi & ->)]; [by left|]. right. eauto. Qed.

Lemma range_mono z z' i : (i ∈ z -> i ∈ z') -> i ∈ focus_range z -> i ∈ focus_range z'.
Proof. unfold focus_range. by destruct strict. Qed.

Lemma range_elem z i : (i < DOSGUI_MAX_WINDOWS)%nat -> i ∈ z -> i ∈ focus_range z.
Proof. unfold focus_range. destruct strict; [done|]. intros. apply elem_of_seq. lia. Qed.

Lemma stack_lt g i : wm_ok g -> i ∈ zorder g -> (i < DOSGUI_MAX_WINDOWS)%nat.
Proof. intros Hok (v & Hv%lookup_lt_Some & _)%(wk_alive _ Hok). by rewrite (wk_len _ Hok) in Hv. Qed.

Lemma wm_init_ok sw sh th : wm_ok (dosgui_wm_init sw sh th).
Proof.
  constructor; [apply length_replicate|constructor| |by left|by left].
  intros i. split; [intros H; by apply elem_of_nil in H|]. intros (v & [-> _]%lookup_replicate & Ha). done.
Qed.

(** Two states that agree on what the invariant is about. *)
Definition same_stack (g g' : DosGuiWM) : Prop :=
  zorder g' = zorder g /\ focused_id g' = focused_id g /\ drag_id (drag g') = drag_id (drag g) /\
  length (windows g') = length (windows g) /\ (forall i, w_alive <$> windows g' !! i = w_alive <$> windows g !! i).

Lemma alive_iff (l l' : list DosGuiWindow) (i : nat) : w_alive <$> l' !! i = w_alive <$> l !! i ->
  (exists v, l' !! i = Some v /\ w_alive v = true) <-> (exists v, l !! i = Some v /\ w_alive v = true).
Proof. destruct (l' !! i), (l !! i); cbn; intros E; simplify_eq/=; naive_solver. Qed.

Lemma same_stack_ok g g' : same_stack g g' -> wm_ok g -> wm_ok g'.
Proof.
  intros (Ez & Ef & Ed & El & Ea) [H1 H2 H3 H4 H5]. constructor; rewrite ?Ez, ?Ef, ?Ed, ?El; try done.
  intros i. rewrite H3. symmetry. by apply alive_iff.
Qed.

Lemma same_stack_refl g : same_stack g g.
Proof. by split_and!. Qed.

Lemma same_stack_trans g1 g2 g3 : same_stack g1 g2 -> same_stack g2 g3 -> same_stack g1 g3.
Proof. intros (A1 & A2 & A3 & A4 & A5) (B1 & B2 & B3 & B4 & B5). split_and!; congruence. Qed.

Lemma upd_win_stack g i f : (forall v, w_alive (f v) = w_alive v) -> same_stack g (upd_win g i f).
Proof.
  intros H. split_and!; try done; cbn; [apply length_alter|]. intros j. destruct (decide (i = j)) as [<-|Hne].
  - rewrite list_lookup_alter_eq. destruct (windows g !! i); cbn; by rewrite ?H.
  - by rewrite list_lookup_alter_ne.
Qed.

(** Changing the focus. *)
Lemma focus_ok g k : wm_ok g -> names (focus_range (zorder g)) k -> wm_ok (set_focused g k).
Proof. intros [H1 H2 H3 H4 H5] Hk. by constructor. Qed.

Lemma drag_ok g d : wm_ok g -> names (zorder g) (drag_id d) -> wm_ok (set_drag g d).
Proof. intros [H1 H2 H3 H4 H5] Hk. by constructor. Qed.

Lemma raise_ok g i : wm_ok g -> wm_ok (raise_win g i).
Proof.
  intros Hok. unfold raise_win. destruct (existsb (Nat.eqb i) (zorder g)) eqn:E; [|done]. apply existsb_elem in E.
  assert (forall j, j ∈ remove_first i (zorder g) ++ [i] <-> j ∈ zorder g) as Hz.
  { intros j. rewrite elem_of_app, remove_first_elem, list_elem_of_singleton by apply Hok. destruct (decide (j = i)) as [->|]; tauto. }
  constructor; cbn; try apply Hok.
  - apply NoDup_app. split_and!; [apply remove_first_nodup, Hok| |apply NoDup_singleton]. intros j Hj ->%list_elem_of_singleton.
    apply remove_first_elem in Hj as [_ ?]; [done|apply Hok].
  - intros j. rewrite Hz. apply Hok.
  - eapply names_mono; [|apply Hok]. intros j. apply range_mono, Hz.
  - eapply names_mono; [|apply Hok]. intros j. apply Hz.
Qed.

Lemma raise_elem g i j : wm_ok g -> j ∈ zorder (raise_win g i) <-> j ∈ zorder g.
Proof.
  intros Hok. unfold raise_win. destruct (existsb (Nat.eqb i) (zorder g)) eqn:E; [|done]. apply existsb_elem in E. cbn.
  rewrite elem_of_app, remove_first_elem, list_elem_of_singleton by apply Hok. destruct (decide (j = i)) as [->|]; tauto.
Qed.

Lemma focus_raised_ok g i : wm_ok g -> i ∈ zorder g -> wm_ok (set_focused (raise_win g i) (Z.of_nat i)).
Proof. intros Hok Hi. apply focus_ok; [by apply raise_ok|]. right. exists i. split; [|done].
  apply range_elem; [by eapply stack_lt|by apply raise_elem]. Qed.

Lemma stack_short g : wm_ok g -> (length (zorder g) <= DOSGUI_MAX_WINDOWS)%nat.
Proof.
  intros Hok. replace DOSGUI_MAX_WINDOWS with (length (seq 0 DOSGUI_MAX_WINDOWS)) by apply length_seq.
  apply submseteq_length, NoDup_submseteq; [apply Hok|]. intros i (v & Hv & _)%(wk_alive _ Hok). rewrite elem_of_seq.
  apply lookup_lt_Some in Hv. rewrite (wk_len _ Hok) in Hv. lia.
Qed.

(** A dead window leaves room in the stack. *)
Lemma stack_room g i v : wm_ok g -> windows g !! i = Some v -> w_alive v = false -> (length (zorder g) < DOSGUI_MAX_WINDOWS)%nat.
Proof.
  intros Hok Hi Hv. assert (i ∉ zorder g) as Hn. { intros (u & Hu & ?)%(wk_alive _ Hok). congruence. }
  assert (S (length (zorder g)) <= length (seq 0 DOSGUI_MAX_WINDOWS))%nat as H; [|rewrite length_seq in H; lia].
  change (S (length (zorder g))) with (length (i :: zorder g)). apply submseteq_length, NoDup_submseteq.
  - apply NoDup_cons. split; [done|apply Hok].
  - intros j. rewrite elem_of_seq. intros Hj. assert (exists u, windows g !! j = Some u) as [u Hu%lookup_lt_Some].
    { apply elem_of_cons in Hj as [->|(u & Hu & _)%(wk_alive _ Hok)]; eauto. }
    rewrite (wk_len _ Hok) in Hu. lia.
Qed.

(** ** Every operation keeps it *)

Lemma spawn_ok g x y w h t :
  wm_ok g -> exists i g', spawn_window g x y w h t = Some (i, g') /\ wm_ok g' /\
    (i = -1 /\ g' = g \/ exists n, i = Z.of_nat n /\ n ∉ zorder g /\ zorder g' = zorder g ++ [n] /\ focused_id g' = i /\ (n < DOSGUI_MAX_WINDOWS)%nat).
Proof.
  intros Hok. unfold spawn_window. destruct (list_find _ (windows g)) as [[n u]|] eqn:Ef; [|exists (-1), g; split_and!; [done|done|by left]].
  apply list_find_Some in Ef as (Hn & Hu & _). pose proof (stack_room g n u Hok Hn Hu) as Hroom.
  rewrite (proj2 (Nat.leb_gt _ _) Hroom). eexists _, _. split; [done|].
  assert (n ∉ zorder g) as Hz. { intros (v & Hv & ?)%(wk_alive _ Hok). congruence. }
  pose proof (lookup_lt_Some _ _ _ Hn) as Hlt. rewrite (wk_len _ Hok) in Hlt. split; [|right; exists n; by split_and!].
  constructor; cbn.
  - rewrite length_insert. apply Hok.
  - apply NoDup_app. split_and!; [apply Hok| |apply NoDup_singleton]. intros j Hj ->%list_elem_of_singleton. done.
  - intros j. rewrite elem_of_app, list_elem_of_singleton, (wk_alive _ Hok). destruct (decide (j = n)) as [->|Hne].
    + rewrite list_lookup_insert_eq by (by rewrite (wk_len _ Hok)). split; [intros _; by eexists|by right].
    + rewrite list_lookup_insert_ne by done. naive_solver.
  - right. exists n. split; [apply range_elem; [done|set_solver]|done].
  - eapply names_mono; [|apply Hok]. set_solver.
Qed.

Lemma names_remove z n k : NoDup z -> names z k -> k <> Z.of_nat n -> names (remove_first n z) k.
Proof. intros Hn [->|(i & Hi & ->)] Hne; [by left|]. right. exists i. split; [|done]. apply remove_first_elem; [done|]. split; [done|congruence]. Qed.

Lemma close_ok g i : wm_ok g -> wm_ok (close_win g i).
Proof.
  intros Hok. unfold close_win. destruct (Z.ltb_spec i 0); [done|]. destruct (Z.geb_spec i (Z.of_nat DOSGUI_MAX_WINDOWS)); [done|]. cbn [orb].
  set (n := Z.to_nat i). replace i with (Z.of_nat n) by lia. set (g1 := upd_win g n kill_win). set (z := remove_first n (zorder g)).
  assert (NoDup z) as Hz by apply remove_first_nodup, Hok.
  assert (length (windows g1) = DOSGUI_MAX_WINDOWS) as Hl by (cbn; rewrite length_alter; apply Hok).
  assert (forall j, j ∈ z <-> exists v, windows g1 !! j = Some v /\ w_alive v = true) as Ha.
  { intros j. unfold z. rewrite remove_first_elem, (wk_alive _ Hok) by apply Hok. cbn. destruct (decide (n = j)) as [<-|Hne].
    - rewrite list_lookup_alter_eq. split; [tauto|]. intros (v & Hv & Hav). destruct (windows g !! n); [|done]. by injection Hv as <-.
    - rewrite list_lookup_alter_ne by done. naive_solver. }
  assert (forall k, names (zorder g) k -> k <> Z.of_nat n -> names z k) as Hnz by (intros k; apply names_remove, Hok).
  assert (forall k, names (focus_range (zorder g)) k -> k <> Z.of_nat n -> names (focus_range z) k) as Hnf.
  { unfold focus_range. destruct strict; [done|]. by intros k Hk _. }
  assert (forall k, k ∈ z -> (k < DOSGUI_MAX_WINDOWS)%nat) as Hzlt.
  { intros k (v & Hv%lookup_lt_Some & _)%Ha. by rewrite Hl in Hv. }
  set (g2 := set_zorder g1 z). set (g3 := if drag_id (drag g2) =? Z.of_nat n then set_drag g2 (Drag (-1) (drag_ox (drag g2)) (drag_oy (drag g2))) else g2).
  assert (zorder g3 = z /\ windows g3 = windows g1 /\ focused_id g3 = focused_id g /\ names z (drag_id (drag g3))) as (E1 & E2 & E3 & E4).
  { unfold g3. destruct (Z.eqb_spec (drag_id (drag g2)) (Z.of_nat n)); split_and!; try done; [by left|]. apply Hnz; [apply Hok|done]. }
  change (wm_ok (if focused_id g3 =? Z.of_nat n then set_focused g3 (match last (zorder g3) with Some k => Z.of_nat k | None => -1 end) else g3)).
  clearbody g3 z. rewrite E1. destruct (Z.eqb_spec (focused_id g3) (Z.of_nat n)) as [_|Hne]; constructor; cbn; rewrite ?E1, ?E2, ?E3; try done.
  - destruct (last z) as [k|] eqn:El; [|by left]. right. exists k. split; [|done]. apply last_Some_elem_of in El.
    apply range_elem; auto.
  - rewrite E3 in Hne. apply Hnf; [apply Hok|done].
Qed.

Lemma last_position_spec p l j : last_position p l = Some j -> l !! j = Some p.
Proof.
  revert j. induction l as [|k l IH]; intros j; [done|]. cbn. destruct (last_position p l) as [q|] eqn:E.
  - intros [= <-]. cbn. by apply IH.
  - destruct (Nat.eqb_spec k p) as [->|]; [|done]. by intros [= <-].
Qed.

Lemma take_snoc_insert (l : list nat) n j : (j <= length l)%nat ->
  take (S (length l)) (take j l ++ [n] ++ drop j (l ++ [n])) = take j l ++ [n] ++ drop j l.
Proof.
  intros Hj. rewrite drop_app_le by done. rewrite !app_assoc. rewrite take_app_le; [|rewrite !length_app, length_take, length_drop; cbn; lia].
  apply take_ge. rewrite !length_app, length_take, length_drop. cbn. lia.
Qed.

Lemma modal_ok g x y w h t p i g' : wm_ok g -> dosgui_wm_create_modal g x y w h t p = Some (i, g') -> wm_ok g'.
Proof.
  intros Hok E. unfold dosgui_wm_create_modal, dosgui_wm_create in E. destruct (spawn_ok g x y w h t Hok) as (i1 & g1 & E1 & Hok1 & Hz).
  rewrite E1 in E. cbn [mbind option_bind] in E. destruct (Z.ltb_spec i1 0); [by simplify_eq|].
  destruct Hz as [[-> _]|(n & -> & Hn & Ez & _ & _)]; [lia|]. rewrite Nat2Z.id in E.
  assert (wm_ok (upd_win g1 n (set_modal p))) as Hok2 by (eapply same_stack_ok; [by apply upd_win_stack|done]).
  destruct p as [p|]; [|by simplify_eq]. cbn [zorder upd_win set_windows] in E. rewrite Ez in E.
  destruct (last_position p (zorder g ++ [n])) as [j|] eqn:Ej; [|by simplify_eq]. apply last_position_spec in Ej as Hj.
  rewrite length_app in E. cbn [length] in E. rewrite Nat.add_1_r in E. destruct (Nat.ltb_spec (S j) (S (length (zorder g)))) as [Hlt|_].
  2:{ destruct (Nat.leb _ _); [done|by simplify_eq]. }
  destruct (Nat.leb _ _); [done|]. apply (inj Some), pair_equal_spec in E as [_ <-]. rewrite (take_app_le (zorder g) [n] (S j)) by lia. rewrite take_snoc_insert by lia.
  assert (Permutation (take (S j) (zorder g) ++ [n] ++ drop (S j) (zorder g)) (zorder g ++ [n])) as Hp.
  { rewrite Permutation_app_swap_app. rewrite take_drop. by rewrite Permutation_app_comm. }
  destruct Hok2 as [H1 H2 H3 H4 H5]. cbn in H1, H2, H3, H4, H5. rewrite Ez in H2, H3, H4, H5.
  assert (forall k, k ∈ take (S j) (zorder g) ++ [n] ++ drop (S j) (zorder g) <-> k ∈ zorder g ++ [n]) as He by (intros k; by rewrite Hp).
  constructor; cbn; try done; [by rewrite Hp|intros k; by rewrite He|eapply names_mono; [|done]; intros k; apply range_mono; by rewrite He|].
  eapply names_mono; [|done]. intros k. by rewrite He.
Qed.

Lemma flag_alive b v : w_alive (set_flags b v) = w_alive v.
Proof. done. Qed.

Lemma toggle_alive g v : w_alive (toggle_size g v) = w_alive v.
Proof. unfold toggle_size. by destruct (has_win_flag _ _). Qed.

Lemma snap_alive g v : w_alive (snap_window_to_gaad g v) = w_alive v.
Proof.
  unfold snap_window_to_gaad. assert (w_alive (snap_edges g v).1 = w_alive v) as H1 by (unfold snap_edges; cases_if; done).
  destruct (snap_edges g v) as [v1 s1]. assert (w_alive (snap_regions g v1 s1).1 = w_alive v1) as H2 by (unfold snap_regions; cases_if; done).
  destruct (snap_regions g v1 s1) as [v2 s2]. cbn in *. destruct (negb s2); cbn; congruence.
Qed.

Lemma stretch_alive r x y v : w_alive (stretch r x y v) = w_alive v.
Proof.
  unfold stretch. cases_if; done.
Qed.

Lemma dragged_alive g x y v : w_alive (dragged g x y v) = w_alive v.
Proof. unfold dragged. by destruct (has_win_flag _ _). Qed.

Lemma stack_upd g i f : (forall v, w_alive (f v) = w_alive v) -> wm_ok g -> wm_ok (upd_win g i f).
Proof. intros H. apply same_stack_ok. by apply upd_win_stack. Qed.

Lemma restore_alive v :
  let v' := if has_win_flag v DOSGUI_WIN_MAXIMIZED then shrink v else v in
  w_alive (set_flags (Z.land (w_flags v') (Z.lnot DOSGUI_WIN_MINIMIZED)) v') = w_alive v.
Proof. by destruct (has_win_flag _ _). Qed.

Lemma maximize_alive g v : w_alive (if has_win_flag v DOSGUI_WIN_MAXIMIZED then v else enlarge g v) = w_alive v.
Proof. by destruct (has_win_flag _ _). Qed.

#[local] Hint Resolve close_ok stack_upd toggle_alive snap_alive stretch_alive dragged_alive restore_alive maximize_alive focus_raised_ok : wm.

Lemma destroy_ok g i : wm_ok g -> wm_ok (dosgui_wm_destroy g i).
Proof. unfold dosgui_wm_destroy. destruct (Nat.ltb _ _); auto with wm. Qed.

Lemma unfocus_ok g : wm_ok g -> wm_ok (set_focused g (-1)).
Proof. intros. apply focus_ok; [done|by left]. Qed.

Lemma to_desktop_ok g i d : wm_ok g -> wm_ok (dosgui_wm_move_window_to_desktop g i d).
Proof.
  intros Hok. unfold dosgui_wm_move_window_to_desktop. assert (wm_ok (upd_win g i (set_win_desktop d))) by (by apply stack_upd).
  cases_if; auto using unfocus_ok.
Qed.

Lemma current_desktop_ok g d : wm_ok g -> wm_ok (dosgui_wm_set_current_desktop g d).
Proof.
  intros Hok. unfold dosgui_wm_set_current_desktop. assert (wm_ok (set_desktop g d)) by (by apply (same_stack_ok g)).
  destruct (_ || _); [done|]. cbn [focused_id windows set_desktop]. destruct (_ >=? 0); [|done]. destruct (_ !! _); [|done]. cases_if; auto using unfocus_ok.
Qed.

Lemma press_button_ok g i b : wm_ok g -> wm_ok (press_button g i b).
Proof. destruct b; cbn; auto with wm. Qed.

Lemma chrome_click_ok g i b : wm_ok g -> wm_ok (dosgui_chrome_handle_button_click g i b).
Proof.
  intros Hok. unfold dosgui_chrome_handle_button_click. destruct (_ =? 3); [by apply destroy_ok|]. destruct (_ =? 2).
  - destruct (windows g !! i); [|done]. destruct (has_win_flag _ _); unfold dosgui_wm_restore, dosgui_wm_maximize; auto with wm.
  - destruct (_ =? 1); [|done]. by apply stack_upd.
Qed.

Lemma first_window_elem g P l i : first_window g P l = Some i -> i ∈ l.
Proof.
  induction l as [|j l IH]; [done|]. cbn. destruct (windows g !! j) as [v|]; [destruct (P v)|]; intros E; simplify_eq; set_solver.
Qed.

Lemma press_window_ok g i x y : wm_ok g -> i ∈ zorder g -> wm_ok (press_window g i x y).1.
Proof.
  intros Hok Hi. assert (wm_ok (set_focused (raise_win g i) (Z.of_nat i))) as H by auto with wm. unfold press_window.
  assert (names (zorder (set_focused (raise_win g i) (Z.of_nat i))) (Z.of_nat i)) as Hn
    by (right; exists i; split; [by apply raise_elem|done]).
  clear Hok Hi. set (g1 := set_focused _ _) in *. clearbody g1. destruct (windows g1 !! i) as [v|]; [|done].
  destruct (frame_button _ _ _ _) as [b|]; [by apply press_button_ok|]. destruct (negb (_ =? 0)); [by apply (same_stack_ok g1)|].
  destruct (_ <? _); [|done]. destruct (negb (_ =? 0)); [by apply chrome_click_ok|]. by apply drag_ok.
Qed.

Lemma press_desktop_ok g x y : wm_ok g -> wm_ok (press_desktop g x y).1.
Proof.
  intros Hok. unfold press_desktop. destruct (dosgui_icon_hit_test g x y) as [k|]; cbn [fst].
  - apply unfocus_ok. case_match; by apply (same_stack_ok g).
  - apply (same_stack_ok (set_focused g (-1))); [done|by apply unfocus_ok].
Qed.

Lemma mouse_press_ok g x y : wm_ok g -> wm_ok (mouse_press g x y).1.
Proof.
  intros Hok. unfold mouse_press. destruct (scan_buttons _ _ _ _) as [[i b]|]; [by apply press_button_ok|].
  destruct (hit_test g x y) as [i|] eqn:E; [|by apply press_desktop_ok]. apply press_window_ok; [done|].
  apply first_window_elem in E. by apply list_elem_of_In, in_rev, list_elem_of_In.
Qed.

Lemma mouse_move_ok g x y : wm_ok g -> wm_ok (mouse_move g x y).1.
Proof.
  intros Hok. unfold mouse_move. set (g1 := if lasso_active (lasso g) then _ else g).
  assert (wm_ok g1) as H1 by (unfold g1; destruct (lasso_active _); [by apply (same_stack_ok g)|done]). clearbody g1.
  set (r := match live_window g1 (resize_id (resize g1)) with Some _ => _ | None => _ end).
  assert (wm_ok r.1) as H2. { unfold r. repeat case_match; cbn [fst]; auto with wm. }
  destruct r as [g2 ev]. cbn [fst] in *. destruct (_ >=? 0); [by apply (same_stack_ok g2)|done].
Qed.

Lemma mouse_release_ok g x y : wm_ok g -> wm_ok (mouse_release g x y).1.
Proof.
  intros Hok. unfold mouse_release. set (g1 := if resize_id (resize g) >=? 0 then _ else g).
  assert (wm_ok g1) as H1 by (unfold g1; destruct (_ >=? 0); [by apply (same_stack_ok g)|done]). clearbody g1.
  set (g2 := match live_window g1 _ with Some _ => _ | None => g1 end).
  assert (wm_ok g2) as H2 by (unfold g2; destruct (live_window _ _); auto with wm). clearbody g2.
  set (g3 := set_drag g2 _). assert (wm_ok g3) as H3 by (apply drag_ok; [done|by left]). clearbody g3.
  set (r := if drag_id (drag_icon g3) >=? 0 then _ else _). assert (wm_ok r.1) as H4.
  { unfold r. destruct (_ >=? 0); cbn [fst]; [by apply (same_stack_ok g3)|done]. }
  destruct r as [g4 ev]. cbn [fst] in *. destruct (lasso_active _); [by apply (same_stack_ok g4)|done].
Qed.

(** The next window of Alt+Tab, when the focus is on the top of the stack. *)
Lemma alt_tab_ok g : wm_ok g -> wm_ok (alt_tab g).
Proof.
  intros Hok. unfold alt_tab. destruct (Nat.ltb _ _); [|done]. cbv zeta. destruct (zorder g !! _) as [n|] eqn:E; [|done].
  apply list_elem_of_lookup_2 in E. destruct (windows g !! n) as [v|]; [|done]. destruct (w_alive v); auto with wm.
Qed.

(** ** Sessions *)

(** Every operation, with the state it leaves, or [None] when it writes outside of the
    arrays.  The operations on icons store nothing but icons: any list stands for
    them. *)
Inductive wm_step : DosGuiWM -> option DosGuiWM -> Prop :=
  | step_create g x y w h t : wm_step g (snd <$> dosgui_wm_create g x y w h t)
  | step_modal g x y w h t p : wm_step g (snd <$> dosgui_wm_create_modal g x y w h t p)
  | step_destroy g i : wm_step g (Some (dosgui_wm_destroy g i))
  | step_focus g i : (strict = true -> i ∈ zorder g) -> wm_step g (Some (dosgui_wm_set_focus g i))
  | step_to_desktop g i d : wm_step g (Some (dosgui_wm_move_window_to_desktop g i d))
  | step_current_desktop g d : wm_step g (Some (dosgui_wm_set_current_desktop g d))
  | step_move_focused g d : wm_step g (Some (dosgui_wm_move_focused_window g d))
  | step_resize g i w h : wm_step g (Some (dosgui_wm_resize g i w h))
  | step_move g i x y : wm_step g (Some (dosgui_wm_move g i x y))
  | step_maximize g i : wm_step g (Some (dosgui_wm_maximize g i))
  | step_minimize g i : wm_step g (Some (dosgui_wm_minimize g i))
  | step_restore g i : wm_step g (Some (dosgui_wm_restore g i))
  | step_alt_tab g : wm_step g (Some (alt_tab g))
  | step_key_close g : wm_step g (Some (key_close g))
  | step_key_toggle g : wm_step g (Some (key_toggle_size g))
  | step_key_desktop g r : wm_step g (Some (key_desktop g r))
  | step_press g x y : wm_step g (Some (mouse_press g x y).1)
  | step_release g x y : wm_step g (Some (mouse_release g x y).1)
  | step_pointer g x y : wm_step g (Some (mouse_move g x y).1)
  | step_icons g l : wm_step g (Some (set_icons g l)).

Inductive wm_reachable (sw sh : Z) (th : wm_theme) : DosGuiWM -> Prop :=
  | wm_start : wm_reachable sw sh th (dosgui_wm_init sw sh th)
  | wm_next g g' : wm_reachable sw sh th g -> wm_step g (Some g') -> wm_reachable sw sh th g'.

Lemma set_focus_ok g i : (strict = true -> i ∈ zorder g) -> wm_ok g -> wm_ok (dosgui_wm_set_focus g i).
Proof.
  intros Hs Hok. unfold dosgui_wm_set_focus. destruct (Nat.ltb_spec i DOSGUI_MAX_WINDOWS); [|done].
  apply focus_ok; [by apply raise_ok|]. right. exists i. split; [|done]. unfold focus_range. destruct strict.
  - by apply raise_elem; auto.
  - apply elem_of_seq. lia.
Qed.

Lemma wm_step_ok g g' : wm_step g (Some g') -> wm_ok g -> wm_ok g'.
Proof.
  intros Hs Hok. inversion Hs as [g0 x y w h t E|g0 x y w h t p E|g0 i E|g0 i Hi E| | | | | | | | | | | | | | | |]; subst; clear Hs.
  - destruct (spawn_ok g x y w h t Hok) as (j & g2 & E1 & H2 & _). unfold dosgui_wm_create in *. rewrite E1 in *. by simplify_eq/=.
  - destruct (dosgui_wm_create_modal g x y w h t p) as [[i g2]|] eqn:E2; simplify_eq/=. by eapply modal_ok.
  - by apply destroy_ok.
  - by apply set_focus_ok.
  - by apply to_desktop_ok.
  - by apply current_desktop_ok.
  - unfold dosgui_wm_move_focused_window. destruct (_ <? 0); [done|]. destruct (_ !! _); [|done]. cases_if; auto using to_desktop_ok.
  - by apply stack_upd.
  - by apply stack_upd.
  - apply stack_upd; auto with wm.
  - by apply stack_upd.
  - apply stack_upd; auto with wm.
  - by apply alt_tab_ok.
  - unfold key_close. destruct (_ >=? 0); auto with wm.
  - unfold key_toggle_size. destruct (_ >=? 0); auto with wm.
  - by apply (same_stack_ok g).
  - by apply mouse_press_ok.
  - by apply mouse_release_ok.
  - by apply mouse_move_ok.
  - by apply (same_stack_ok g).
Qed.

Lemma reachable_ok sw sh th g : wm_reachable sw sh th g -> wm_ok g.
Proof. induction 1; [apply wm_init_ok|by eapply wm_step_ok]. Qed.

Lemma spawn_full g : wm_ok g -> list_find (fun v => w_alive v = false) (windows g) = None -> length (zorder g) = DOSGUI_MAX_WINDOWS.
Proof.
  intros Hok Hf. pose proof (stack_short g Hok). assert (length (seq 0 DOSGUI_MAX_WINDOWS) <= length (zorder g))%nat as Hl; [|rewrite length_seq in Hl; lia].
  apply submseteq_length, NoDup_submseteq; [apply NoDup_seq|]. intros i Hi%elem_of_seq. apply (wk_alive _ Hok).
  destruct (lookup_lt_is_Some_2 (windows g) i) as [v Hv]; [rewrite (wk_len _ Hok); lia|]. exists v. split; [done|].
  apply list_find_None in Hf. rewrite Forall_lookup in Hf. specialize (Hf _ _ Hv). by destruct (w_alive v).
Qed.

(** The modal creation that overruns: the 32nd window, with any window record as its
    parent. *)
Lemma modal_overruns g x y w h t p :
  wm_ok g -> dosgui_wm_create_modal g x y w h t p = None <->
    length (zorder g) = 31%nat /\ exists q, p = Some q /\ (q < DOSGUI_MAX_WINDOWS)%nat.
Proof.
  intros Hok. unfold dosgui_wm_create_modal, dosgui_wm_create. destruct (spawn_ok g x y w h t Hok) as (i1 & g1 & E1 & Hok1 & Hz).
  rewrite E1. cbn [mbind option_bind]. destruct Hz as [[-> ->]|(n & -> & Hn & Ez & _ & Hlt)].
  { destruct (Z.ltb_spec (-1) 0); [|lia]. split; [done|]. intros [Hl _]. exfalso.
    assert (list_find (fun v => w_alive v = false) (windows g) = None) as Hf.
    { unfold spawn_window in E1. destruct (list_find _ _) as [[k u]|]; [|done]. destruct (Nat.leb _ _); [done|].
      apply (inj Some), pair_equal_spec in E1 as [E1 _]. lia. }
    apply spawn_full in Hf; [|done]. unfold DOSGUI_MAX_WINDOWS in Hf. lia. }
  destruct (Z.ltb_spec (Z.of_nat n) 0); [lia|]. rewrite Nat2Z.id. destruct p as [q|]; [|split; [done|intros (_ & ? & ? & _); done]].
  cbn [zorder upd_win set_windows]. rewrite Ez, length_app. cbn [length].
  pose proof (stack_short g1 Hok1) as Hs. rewrite Ez, length_app in Hs. cbn [length] in Hs. unfold DOSGUI_MAX_WINDOWS in *.
  destruct (last_position q (zorder g ++ [n])) as [j|] eqn:Ej.
  - apply last_position_spec in Ej as Hq. pose proof (lookup_lt_Some _ _ _ Hq) as Hj. rewrite length_app in Hj. cbn [length] in Hj.
    assert (q < 32)%nat as Hq32.
    { apply list_elem_of_lookup_2 in Hq. rewrite <- Ez in Hq. by eapply stack_lt in Hq. }
    destruct (Nat.ltb_spec (S j) (length (zorder g) + 1)); [destruct (Nat.leb_spec 32 (length (zorder g) + 1))|destruct (Nat.leb_spec 32 (S j))];
      (split; intros Hx; [solve [done|split; [lia|eauto]]|solve [done|destruct Hx; lia]]).
  - split; [done|]. intros (Hl & q' & [= <-] & Hq). exfalso.
    assert (q ∈ zorder g ++ [n]) as Hin.
    { rewrite <- Ez. assert (zorder g1 ≡ₚ seq 0 32) as Hp; [|rewrite Hp; apply elem_of_seq; lia].
      apply submseteq_length_Permutation.
      - apply NoDup_submseteq; [apply Hok1|]. intros k Hk%(stack_lt g1); [|done]. apply elem_of_seq. unfold DOSGUI_MAX_WINDOWS in Hk. lia.
      - rewrite Ez, length_app, length_seq. cbn. lia. }
    clear -Hin Ej. induction (zorder g ++ [n]) as [|k l IH]; [by apply elem_of_nil in Hin|]. cbn in Ej.
    destruct (last_position q l) eqn:E; [done|]. destruct (Nat.eqb_spec k q); [done|]. apply elem_of_cons in Hin as [->|Hin]; [done|]. by apply IH.
Qed.

End invariant.

(** ** Theorems *)

(** C27. In every session, whatever sequence of calls, keys and pointer events it
    consists of, the stacking order lists each window that is alive exactly once, the
    drag names no window or one of the stack, and the focus names no window or a slot of
    the array, which is one of the stack in sessions that set the focus on windows of the
    stack only ([strict]).  A window can always be created without writing outside of the
    arrays: it goes on top and takes the focus, and it is refused exactly when all 32
    windows are alive.  The one operation that writes outside of them is the creation of
    a modal window as the 32nd with any window record as its parent, and it always does;
    no session goes on after it. *)
Theorem wm_stack_is_alive_windows strict sw sh th g :
  wm_reachable strict sw sh th g ->
  NoDup (zorder g) /\ (forall i, i ∈ zorder g <-> exists v, windows g !! i = Some v /\ w_alive v = true) /\
  names (if strict then zorder g else seq 0 DOSGUI_MAX_WINDOWS) (focused_id g) /\ names (zorder g) (drag_id (drag g)) /\
  (forall x y w h t, exists i g', dosgui_wm_create g x y w h t = Some (i, g') /\
    if Nat.eqb (length (zorder g)) DOSGUI_MAX_WINDOWS then i = -1 /\ g' = g
    else exists n, i = Z.of_nat n /\ n ∉ zorder g /\ zorder g' = zorder g ++ [n] /\ focused_id g' = i) /\
  (wm_step strict g None <-> length (zorder g) = 31%nat) /\
  (forall x y w h t p, dosgui_wm_create_modal g x y w h t p = None <->
     length (zorder g) = 31%nat /\ exists q, p = Some q /\ (q < DOSGUI_MAX_WINDOWS)%nat).
Proof.
  intros Hok%reachable_ok.
  assert (forall x y w h t, exists i g', dosgui_wm_create g x y w h t = Some (i, g') /\
    if Nat.eqb (length (zorder g)) DOSGUI_MAX_WINDOWS then i = -1 /\ g' = g
    else exists n, i = Z.of_nat n /\ n ∉ zorder g /\ zorder g' = zorder g ++ [n] /\ focused_id g' = i) as Hcreate.
  { intros x y w h t. destruct (spawn_ok strict g x y w h t Hok) as (i & g' & E & Hok' & Hi).
    exists i, g'. split; [done|]. destruct Hi as [[-> ->]|(n & -> & Hn & Hz & Hf & Hlt)].
    - destruct (Nat.eqb_spec (length (zorder g)) DOSGUI_MAX_WINDOWS) as [_|Hne]; [done|]. destruct Hne. apply (spawn_full strict); [done|].
      unfold spawn_window in E. destruct (list_find _ _) as [[k u]|]; [|done]. destruct (Nat.leb _ _); [done|].
      apply (inj Some), pair_equal_spec in E as [E _]. lia.
    - destruct (Nat.eqb_spec (length (zorder g)) DOSGUI_MAX_WINDOWS) as [Hl|_]; [|by exists n].
      pose proof (stack_short strict g' Hok') as Hs. rewrite Hz, length_app in Hs. cbn in Hs. lia. }
  pose proof (fun x y w h t p => modal_overruns strict g x y w h t p Hok) as Hmodal.
  split_and!; try apply Hok; try done. split.
  - intros Hs. inversion Hs as [g0 x y w h t E|g0 x y w h t p E| | | | | | | | | | | | | | | | | |]; subst.
    + destruct (Hcreate x y w h t) as (i & g' & E' & _). by rewrite E' in *.
    + destruct (dosgui_wm_create_modal g x y w h t p) eqn:E'; [done|]. by apply Hmodal in E' as [E' _].
  - intros Hl. pose proof (step_modal strict g 0 0 0 0 None (Some 0%nat)) as Hs.
    rewrite (proj2 (Hmodal 0 0 0 0 None (Some 0%nat))) in Hs; [done|]. split; [done|]. exists 0%nat. split; [done|].
    unfold DOSGUI_MAX_WINDOWS. lia.
Qed.

(** Windows for the examples: one of 200 by 100 at the origin, one to the right and below. *)
Definition plain_theme : wm_theme := Theme false false.
Definition opened (g : DosGuiWM) (x y w h : Z) : DosGuiWM := default g (snd <$> dosgui_wm_create g x y w h None).
Definition wm_two : DosGuiWM := opened (opened (dosgui_wm_init 1024 768 plain_theme) 0 0 200 100) 150 50 300 200.

Lemma opened_reachable sw sh th g x y w h :
  wm_reachable true sw sh th g -> wm_reachable true sw sh th (opened g x y w h).
Proof.
  intros Hg. pose proof (step_create true g x y w h None) as Hs. unfold opened.
  destruct (dosgui_wm_create g x y w h None) as [[i g']|]; [by eapply wm_next|done].
Qed.

Lemma wm_two_reachable : wm_reachable true 1024 768 plain_theme wm_two.
Proof. unfold wm_two. do 2 apply opened_reachable. apply wm_start. Qed.

Lemma wm_stack_is_alive_windows_witness :
  NoDup (zorder wm_two) /\ zorder wm_two = [0%nat; 1%nat] /\ names (zorder wm_two) (focused_id wm_two).
Proof. destruct (wm_stack_is_alive_windows _ _ _ _ _ wm_two_reachable) as (H1 & _ & H3 & _). by split_and!. Defined.

(** *** The pointer *)

Lemma first_window_spec g P l i :
  first_window g P l = Some i ->
  exists l1 l2 v, l = l1 ++ i :: l2 /\ windows g !! i = Some v /\ P v = true /\ forall j u, j ∈ l1 -> windows g !! j = Some u -> P u = false.
Proof.
  induction l as [|k l IH]; [done|]. intros E. assert (P <$> windows g !! k = Some true \/ (forall u, windows g !! k = Some u -> P u = false) /\ first_window g P l = Some i) as HE.
  { cbn in E. destruct (windows g !! k) as [v|]; [|by right]. cbn. destruct (P v) eqn:EP; [by left|]. right. split; [congruence|done]. }
  destruct HE as [HE|[Hk (l1 & l2 & v & -> & Hv & HP & Hl)%IH]].
  - cbn in E. destruct (windows g !! k) as [v|] eqn:Ek; [|done]. injection HE as HE. rewrite HE in E. injection E as <-.
    exists [], l, v. split_and!; try done. intros j u []%elem_of_nil.
  - exists (k :: l1), l2, v. split_and!; try done. intros j u [->|Hj]%elem_of_cons Hu; eauto.
Qed.

Lemma close_zorder g i : (i < DOSGUI_MAX_WINDOWS)%nat -> zorder (close_win g (Z.of_nat i)) = remove_first i (zorder g).
Proof.
  intros Hi. unfold close_win. destruct (Z.ltb_spec (Z.of_nat i) 0); [lia|]. destruct (Z.geb_spec (Z.of_nat i) (Z.of_nat DOSGUI_MAX_WINDOWS)); [lia|].
  cbn [orb]. rewrite Nat2Z.id. cases_if; done.
Qed.

(** The press on a window leaves it on top with the focus, or closes it. *)
Lemma press_window_top g i x y l : (i < DOSGUI_MAX_WINDOWS)%nat -> i ∉ l -> i ∈ zorder g -> remove_first i (zorder g) = l ->
  let g' := (press_window g i x y).1 in
  zorder g' = l ++ [i] /\ focused_id g' = Z.of_nat i \/ zorder g' = l.
Proof.
  intros Hi Hl Hz <-. unfold press_window. rewrite raise_zorder by done.
  set (g1 := set_focused (set_zorder g (remove_first i (zorder g) ++ [i])) (Z.of_nat i)).
  assert (zorder g1 = remove_first i (zorder g) ++ [i] /\ focused_id g1 = Z.of_nat i) as [Ez Ef] by done.
  assert (zorder (close_win g1 (Z.of_nat i)) = remove_first i (zorder g)) as Hc.
  { rewrite close_zorder, Ez, remove_first_mid, app_nil_r by done. done. }
  clearbody g1. destruct (windows g1 !! i) as [v|]; [|by left]. destruct (frame_button _ _ _ _) as [[]|]; cbn [fst press_button]; [by right|by left|by left|].
  destruct (negb (_ =? 0)); [by left|]. destruct (_ <? _); [|by left]. destruct (negb (_ =? 0)); [|by left]. cbn [fst].
  unfold dosgui_chrome_handle_button_click, dosgui_wm_destroy. rewrite (proj2 (Nat.ltb_lt i DOSGUI_MAX_WINDOWS) Hi).
  destruct (_ =? 3); [by right|]. left. destruct (_ =? 2); [|destruct (_ =? 1); done]. destruct (windows g1 !! i); [|done]. by destruct (has_win_flag _ _).
Qed.

(** A press that hits no title button goes to the uppermost window of the current desktop
    under the pointer: no window above it contains the point, and it comes to the top with
    the focus, the others keeping their order, unless the press was on its own close
    button. *)
Theorem wm_press_takes_topmost strict sw sh th g x y i :
  wm_reachable strict sw sh th g -> scan_buttons g x y (rev (zorder g)) = None -> hit_test g x y = Some i ->
  exists lower upper v, zorder g = lower ++ i :: upper /\ windows g !! i = Some v /\ in_window v x y = true /\ w_desktop v = current_desktop g /\
    (forall j u, j ∈ upper -> windows g !! j = Some u -> w_desktop u = current_desktop g -> in_window u x y = false) /\
    let g' := (mouse_press g x y).1 in
    (zorder g' = lower ++ upper ++ [i] /\ focused_id g' = Z.of_nat i) \/ zorder g' = lower ++ upper.
Proof.
  intros Hok%reachable_ok Hs Hh. unfold mouse_press. rewrite Hs, Hh. unfold hit_test in Hh. apply first_window_spec in Hh as (l1 & l2 & v & El & Hv & HP & Hup).
  apply andb_prop in HP as [[Ha Hd%Z.eqb_eq]%andb_prop Hin]. apply (f_equal (@rev nat)) in El. rewrite rev_involutive, rev_app_distr in El. cbn in El.
  rewrite <- app_assoc in El. cbn in El. exists (rev l2), (rev l1), v. split_and!; try done.
  - intros j u Hj%list_elem_of_In Hu Hdu. apply in_rev in Hj. assert (j ∈ l1) as Hj1 by by apply list_elem_of_In. specialize (Hup _ _ Hj1 Hu).
    rewrite (proj2 (Z.eqb_eq _ _) Hdu) in Hup. assert (j ∈ zorder g) as (u' & Hu' & Hau)%(wk_alive _ _ Hok).
    { rewrite El. apply elem_of_app. right. apply elem_of_cons. right. by apply list_elem_of_In, in_rev; rewrite rev_involutive. }
    rewrite Hu in Hu'. injection Hu' as <-. by rewrite Hau in Hup.
  - pose proof (wk_nodup _ _ Hok) as Hnd. rewrite El in Hnd. apply NoDup_app in Hnd as (_ & Hn1 & [Hn2 _]%NoDup_cons).
    assert (i ∉ rev l2) as Hn3 by (intros Hi; apply (Hn1 i); set_solver).
    pose proof (lookup_lt_Some _ _ _ Hv) as Hlt. rewrite (wk_len _ _ Hok) in Hlt.
    destruct (press_window_top g i x y (rev l2 ++ rev l1)) as [[H1 H2]|H1]; rewrite ?El; try done; [set_solver|set_solver|by apply remove_first_mid| |].
    + left. by rewrite H1, <- app_assoc.
    + by right.
Qed.

Lemma wm_press_takes_topmost_witness :
  hit_test wm_two 20 60 = Some 0%nat /\ zorder (mouse_press wm_two 20 60).1 = [1%nat; 0%nat].
Proof.
  split; [reflexivity|]. destruct (wm_press_takes_topmost true 1024 768 plain_theme wm_two 20 60 0%nat wm_two_reachable eq_refl eq_refl) as (lo & up & v & Hz & _).
  vm_compute. reflexivity.
Defined.

(** *** Alt+Tab *)

Lemma focus_position z f : NoDup z -> last z = Some f ->
  list_find (fun i => Z.of_nat i = Z.of_nat f) z = Some (pred (length z), f).
Proof.
  intros Hn Hl. apply list_find_Some. rewrite last_lookup in Hl. split_and!; [done|done|]. intros j k Hj Hlt ->%Nat2Z.inj.
  pose proof (NoDup_lookup _ _ _ _ Hn Hj Hl). lia.
Qed.

(** One press turns the stack by one. *)
Lemma alt_tab_turns strict g a l f : wm_ok strict g -> zorder g = a :: l -> last (zorder g) = Some f -> focused_id g = Z.of_nat f ->
  zorder (alt_tab g) = l ++ [a] /\ focused_id (alt_tab g) = Z.of_nat a.
Proof.
  intros Hok Hz Hl Hf. unfold alt_tab. rewrite Hf, (focus_position (zorder g) f (wk_nodup _ _ Hok) Hl). cbv zeta. destruct (Nat.ltb_spec 1 (length (zorder g))) as [Hlt|Hle].
  - replace (S (pred (length (zorder g)))) with (length (zorder g)) by lia. rewrite Nat.Div0.mod_same. assert (zorder g !! 0%nat = Some a) as -> by by rewrite Hz.
    assert (a ∈ zorder g) as Ha by (rewrite Hz; set_solver). destruct (proj1 (wk_alive _ _ Hok a) Ha) as (v & -> & ->).
    rewrite raise_zorder by done. split; [|done]. cbn [zorder set_focused set_zorder]. rewrite Hz. cbn [remove_first]. by rewrite Nat.eqb_refl.
  - rewrite Hz in Hle, Hl |- *. destruct l as [|b l]; [|cbn in Hle; lia]. cbn in Hl. by injection Hl as <-.
Qed.

Lemma alt_tab_iter strict g f k : wm_ok strict g -> last (zorder g) = Some f -> focused_id g = Z.of_nat f -> (k <= length (zorder g))%nat ->
  let g' := Nat.iter k alt_tab g in
  wm_ok strict g' /\ zorder g' = drop k (zorder g) ++ take k (zorder g) /\ (Z.of_nat <$> last (zorder g') = Some (focused_id g')).
Proof.
  intros Hok Hl Hf. induction k as [|k IH]; intros Hk; cbn zeta.
  - cbn. rewrite app_nil_r, Hl. cbn. by rewrite Hf.
  - destruct IH as (Hok1 & Hz & Hfo); [lia|]. destruct (lookup_lt_is_Some_2 (zorder g) k) as [a Ha]; [lia|].
    rewrite (drop_S _ _ _ Ha) in Hz. change (Nat.iter (S k) alt_tab g) with (alt_tab (Nat.iter k alt_tab g)). set (g1 := Nat.iter k alt_tab g) in *. clearbody g1.
    destruct (last (zorder g1)) as [f1|] eqn:El; [|done]. cbn in Hfo. injection Hfo as Hfo.
    destruct (alt_tab_turns strict g1 a _ f1 Hok1 Hz El (eq_sym Hfo)) as [H1 H2]. split_and!; [by apply alt_tab_ok| |].
    + rewrite H1, (take_S_r _ _ _ Ha). symmetry. apply app_assoc.
    + rewrite H1, last_snoc. cbn. by rewrite H2.
Qed.

(** With the focus on the top window, Alt+Tab gives the focus to every window in turn,
    from the bottom of the stack to the top, and pressed once per window it leaves the
    stack and the focus as they were. *)
Theorem wm_alt_tab_visits_all strict sw sh th g f :
  wm_reachable strict sw sh th g -> last (zorder g) = Some f -> focused_id g = Z.of_nat f ->
  (forall k i, zorder g !! k = Some i -> focused_id (Nat.iter (S k) alt_tab g) = Z.of_nat i) /\
  zorder (Nat.iter (length (zorder g)) alt_tab g) = zorder g /\ focused_id (Nat.iter (length (zorder g)) alt_tab g) = focused_id g.
Proof.
  intros Hok%reachable_ok Hl Hf. split_and!.
  - intros k i Hk. destruct (alt_tab_iter strict g f (S k) Hok Hl Hf) as (_ & Hz & Hfo); [by apply lookup_lt_Some in Hk|].
    rewrite Hz, (take_S_r _ _ _ Hk), app_assoc, last_snoc in Hfo. by injection Hfo.
  - destruct (alt_tab_iter strict g f (length (zorder g)) Hok Hl Hf) as (_ & Hz & _); [done|]. by rewrite Hz, drop_all, firstn_all.
  - destruct (alt_tab_iter strict g f (length (zorder g)) Hok Hl Hf) as (_ & Hz & Hfo); [done|]. rewrite Hz, drop_all, firstn_all in Hfo. cbn [app] in Hfo.
    rewrite Hl in Hfo. injection Hfo as Hfo. congruence.
Qed.

Lemma wm_alt_tab_visits_all_witness :
  focused_id (Nat.iter 1 alt_tab wm_two) = Z.of_nat 0 /\ zorder (Nat.iter (length (zorder wm_two)) alt_tab wm_two) = zorder wm_two.
Proof.
  assert (last (zorder wm_two) = Some 1%nat) as Hl by (vm_compute; reflexivity). assert (focused_id wm_two = Z.of_nat 1) as Hf by (vm_compute; reflexivity).
  assert (zorder wm_two !! 0%nat = Some 0%nat) as Hz by (vm_compute; reflexivity).
  destruct (wm_alt_tab_visits_all true 1024 768 plain_theme wm_two 1%nat wm_two_reachable Hl Hf) as (H1 & H2 & _). split; [exact (H1 _ _ Hz)|exact H2].
Defined.

(** *** Geometry *)

Lemma flag_set_clear f b : 0 <= b -> Z.land f (2 ^ b) = 0 -> Z.land (Z.lor f (2 ^ b)) (Z.lnot (2 ^ b)) = f.
Proof.
  intros Hb H. apply Z.bits_inj'. intros n Hn. apply (f_equal (fun z => Z.testbit z n)) in H.
  rewrite Z.bits_0, Z.land_spec in H. rewrite Z.land_spec, Z.lor_spec, Z.lnot_spec by done. destruct (Z.testbit f n), (Z.testbit (2 ^ b) n); done.
Qed.

Lemma flag_clear f b : 0 <= b -> Z.land f (2 ^ b) = 0 -> Z.land f (Z.lnot (2 ^ b)) = f.
Proof.
  intros Hb H. apply Z.bits_inj'. intros n Hn. apply (f_equal (fun z => Z.testbit z n)) in H.
  rewrite Z.bits_0, Z.land_spec in H. rewrite Z.land_spec, Z.lnot_spec by done. destruct (Z.testbit f n), (Z.testbit (2 ^ b) n); done.
Qed.

Definition geometry (v : DosGuiWindow) : Z * Z * Z * Z := (wx v, wy v, ww v, wh v).

Lemma has_win_flag_false v f : has_win_flag v f = false <-> Z.land (w_flags v) f = 0.
Proof. unfold has_win_flag. rewrite negb_false_iff. apply Z.eqb_eq. Qed.

Lemma enlarged_flag g v : has_win_flag (enlarge g v) DOSGUI_WIN_MAXIMIZED = true.
Proof.
  unfold has_win_flag. apply negb_true_iff, Z.eqb_neq. intros H. apply (f_equal (fun z => Z.testbit z 3)) in H. cbn [enlarge set_flags w_flags] in H.
  rewrite Z.land_spec, Z.lor_spec in H. change (Z.testbit DOSGUI_WIN_MAXIMIZED 3) with true in H. by rewrite orb_true_r in H.
Qed.

(** A window that is maximized fills the work area, also when the button toggles it, and
    restoring it gives back the geometry and the flags it had. *)
Theorem wm_maximize_roundtrip g i v :
  windows g !! i = Some v -> dosgui_wm_is_maximized v = false -> dosgui_wm_is_minimized v = false ->
  (exists u, windows (dosgui_wm_maximize g i) !! i = Some u /\ geometry u = (0, 0, screen_w g, work_height g) /\ dosgui_wm_is_maximized u = true) /\
  (exists u, windows (dosgui_wm_restore (dosgui_wm_maximize g i) i) !! i = Some u /\ geometry u = geometry v /\ w_flags u = w_flags v) /\
  (exists u, windows (press_button (press_button g i BtnSize) i BtnSize) !! i = Some u /\ geometry u = geometry v /\ w_flags u = w_flags v).
Proof.
  intros Hv Hx Hm. unfold dosgui_wm_is_maximized, dosgui_wm_is_minimized in *. apply has_win_flag_false in Hm as Hm'. apply has_win_flag_false in Hx as Hx'.
  change DOSGUI_WIN_MINIMIZED with (2 ^ 2) in Hm'. change DOSGUI_WIN_MAXIMIZED with (2 ^ 3) in Hx'.
  assert (w_flags (shrink (enlarge g v)) = w_flags v) as Hf by (apply (flag_set_clear (w_flags v) 3); [lia|done]).
  split_and!; unfold dosgui_wm_restore, dosgui_wm_maximize, press_button, toggle_size, upd_win; cbn [windows set_windows];
    rewrite ?list_lookup_alter_eq, Hv; cbn [fmap option_fmap option_map]; rewrite Hx, ?enlarged_flag.
  - eexists. split_and!; [done|done|apply enlarged_flag].
  - eexists. split_and!; [done|done|]. cbn [set_flags w_flags]. rewrite Hf. apply (flag_clear _ 2); [lia|done].
  - eexists. by split_and!.
Qed.

Lemma wm_maximize_roundtrip_witness : exists v, windows wm_two !! 1%nat = Some v /\ geometry v = (150, 50, 300, 200) /\
  exists u, windows (dosgui_wm_restore (dosgui_wm_maximize wm_two 1) 1) !! 1%nat = Some u /\ geometry u = (150, 50, 300, 200).
Proof.
  destruct (windows wm_two !! 1%nat) as [v|] eqn:E; [|discriminate E]. exists v. assert (geometry v = (150, 50, 300, 200)) as Hg by by injection E as <-.
  split_and!; [done|done|]. destruct (wm_maximize_roundtrip wm_two 1 v E) as (_ & (u & Hu & Hgu & _) & _); [by injection E as <-|by injection E as <-|].
  exists u. split; [done|congruence].
Defined.

(** Dragging a window leaves 60 of its pixels between the sides of the screen, and its
    title bar between the top and the taskbar. *)
Theorem wm_drag_keeps_title_in_reach g x y v :
  resize_id (resize g) < 0 -> drag_id (drag g) >= 0 -> windows g !! Z.to_nat (drag_id (drag g)) = Some v -> w_alive v = true ->
  dosgui_wm_is_maximized v = false -> 120 <= screen_w g + ww v -> title_bar_height g <= work_height g ->
  exists u, windows (mouse_move g x y).1 !! Z.to_nat (drag_id (drag g)) = Some u /\ ww u = ww v /\ wh u = wh v /\
    60 <= wx u + ww u /\ wx u <= screen_w g - 60 /\ 0 <= wy u /\ wy u + title_bar_height g <= work_height g.
Proof.
  intros Hr Hd Hv Ha Hm Hw Hh. assert (windows (mouse_move g x y).1 !! Z.to_nat (drag_id (drag g)) = Some (dragged g x y v)) as Hw1.
  { unfold mouse_move, live_window. set (g1 := if lasso_active (lasso g) then _ else g).
    assert (windows g1 = windows g /\ resize g1 = resize g /\ drag g1 = drag g /\ screen_w g1 = screen_w g /\ screen_h g1 = screen_h g /\ theme g1 = theme g) as (E1 & E2 & E3 & E4 & E5 & E6)
      by (unfold g1; by destruct (lasso_active _)). clearbody g1.
    rewrite E2, E3, E1, Hv, Ha. destruct (Z.ltb_spec (resize_id (resize g)) 0); [|lia]. destruct (Z.ltb_spec (drag_id (drag g)) 0); [lia|].
    assert (dragged g1 x y v = dragged g x y v) as <- by (unfold dragged, taskbar_height_dynamic, title_bar_height; by rewrite E3, E4, E5, E6).
    destruct (_ >=? 0); cbn; by rewrite list_lookup_alter_eq, E1, Hv. }
  eexists. split; [done|]. unfold dragged, dosgui_wm_is_maximized in *. rewrite Hm. unfold work_height in *. cbn [ww wh wx wy set_geometry]. split_and!; try done; clear Hm Ha Hw1 Hv; cases_if; lia.
Qed.

Definition wm_dragging : DosGuiWM := (mouse_press wm_two 250 55).1.

Lemma wm_drag_keeps_title_in_reach_witness : exists u, windows (mouse_move wm_dragging 5000 5000).1 !! 1%nat = Some u /\ 60 <= wx u + ww u /\ wx u <= 964.
Proof.
  destruct (wm_drag_keeps_title_in_reach wm_dragging 5000 5000
              (Win 1 1 150 50 300 200 0 0 0 0 0 [87; 105; 110; 100; 111; 119] true false None)) as (u & Hu & _ & _ & H1 & H2 & _); try reflexivity; try (vm_compute; discriminate).
  exists u. split; [exact Hu|split; [exact H1|exact H2]].
Defined.

(** *** Icons *)

Definition alive_icons (l : list DosGuiIcon) : list DosGuiIcon := base.filter (fun v => i_alive v = true) l.

(** The same icons at other places. *)
Definition same_icons (l l' : list DosGuiIcon) : Prop := Forall2 (fun v u => i_name u = i_name v /\ i_alive u = i_alive v) l l'.

Lemma layout_find l v : NoDup (i_name <$> l) -> v ∈ l ->
  exists k, list_find (fun e => e_alive e = true /\ e_name e = i_name v) (map (fun v => Layout (i_name v) (grid_x v) (grid_y v) true) l) =
    Some (k, Layout (i_name v) (grid_x v) (grid_y v) true).
Proof.
  intros Hn Hv. apply list_elem_of_lookup in Hv as [k Hk]. exists k. apply list_find_Some. split_and!; [|done|done|].
  - change (map ?f ?l) with (f <$> l). by rewrite list_lookup_fmap, Hk.
  - intros j e Hj Hlt [_ He]. change (map ?f ?l) with (f <$> l) in Hj. rewrite list_lookup_fmap in Hj. destruct (l !! j) as [u|] eqn:Eu; [|done].
    injection Hj as <-. cbn in He. assert (j = k); [|lia].
    eapply (NoDup_lookup _ _ _ (i_name v) Hn); rewrite list_lookup_fmap; [rewrite Eu|rewrite Hk]; cbn; by rewrite ?He.
Qed.

(** Icons with distinct names, moved about after their layout was saved, are all back in
    their cells when it is restored. *)
Theorem wm_icon_layout_roundtrip g l' k v u :
  NoDup (i_name <$> alive_icons (icons g)) -> (length (alive_icons (icons g)) <= WUBU_ICON_LAYOUT_MAX)%nat -> same_icons (icons g) l' ->
  icons g !! k = Some v -> i_alive v = true ->
  icons (dosgui_wm_restore_icon_layout (set_icons g l') (dosgui_wm_save_icon_layout g)) !! k = Some u ->
  grid_x u = grid_x v /\ grid_y u = grid_y v /\ ix u = cell_x (grid_x v) /\ iy u = cell_y (grid_y v) /\ i_name u = i_name v.
Proof.
  intros Hn Hlen Hs Hv Ha Hu. unfold dosgui_wm_restore_icon_layout in Hu. cbn [icons set_icons] in Hu. change (map ?f l') with (f <$> l') in Hu.
  rewrite list_lookup_fmap in Hu. destruct (Forall2_lookup_l _ _ _ _ _ Hs Hv) as (w & Hw & En & Ea). rewrite Hw in Hu. cbn in Hu. rewrite Ea, Ha, En in Hu.
  assert (v ∈ alive_icons (icons g)) as Hin by (apply list_elem_of_filter; split; [done|by eapply list_elem_of_lookup_2]).
  destruct (layout_find _ v Hn Hin) as [j Hj]. unfold dosgui_wm_save_icon_layout in Hu.
  rewrite take_ge in Hu by (rewrite length_map; done). unfold alive_icons in Hj. rewrite Hj in Hu. injection Hu as <-. cbn. by rewrite En.
Qed.

Definition icon_at (c gx gy : Z) : DosGuiIcon := Icon [c] (cell_x gx) (cell_y gy) gx gy true ICON_APP [] 0 false.
Definition wm_icons : DosGuiWM := set_icons (dosgui_wm_init 1024 768 plain_theme) [icon_at 65 0 0; icon_at 66 0 1].

Lemma wm_icon_layout_roundtrip_witness : exists u,
  icons (dosgui_wm_restore_icon_layout (set_icons wm_icons [icon_at 65 7 7; icon_at 66 3 2]) (dosgui_wm_save_icon_layout wm_icons)) !! 1%nat = Some u /\
  grid_x u = 0 /\ grid_y u = 1.
Proof.
  eexists. split; [vm_compute; reflexivity|].
  destruct (wm_icon_layout_roundtrip wm_icons [icon_at 65 7 7; icon_at 66 3 2] 1 (icon_at 66 0 1) (icon_at 66 0 1)) as (H1 & H2 & _).
  - vm_compute. repeat constructor; set_solver.
  - vm_compute. lia.
  - repeat constructor.
  - reflexivity.
  - reflexivity.
  - vm_compute. reflexivity.
  - split; [exact H1|exact H2].
Defined.

(** *** Departures *)

(** The search for a title button ignores the windows in front: a press in the client area
    of the upper window closes the window it covers. *)
Definition wm_covering : DosGuiWM := opened (opened (dosgui_wm_init 1024 768 plain_theme) 0 100 200 100) 100 50 300 200.

Lemma wm_covered_button_is_pressed :
  hit_test wm_covering 185 105 = Some 1%nat /\ zorder (mouse_press wm_covering 185 105).1 = [1%nat] /\
  (w_alive <$> windows (mouse_press wm_covering 185 105).1 !! 0%nat) = Some false.
Proof. vm_compute. split_and!; reflexivity. Qed.

(** Dragging the left edge by [dx] moves it by [- dx]: the window runs away from the
    pointer while its width follows it. *)
Theorem wm_left_edge_runs_away r x y v :
  resize_edge r = 1 -> resize_ow r - (x - resize_ox r) >= 80 ->
  let u := stretch r x y v in
  ww u = resize_ow r - (x - resize_ox r) /\ wx u = resize_ox r - (x - resize_ox r).
Proof.
  intros He Hw. unfold stretch. rewrite He. cbn [Z.testbit Pos.testbit]. destruct (Z.geb_spec (resize_ow r - (x - resize_ox r)) 80); [|lia]. cbn. split; lia.
Qed.

Lemma wm_left_edge_runs_away_witness : wx (stretch (Resize 0 1 100 0 200 100) 90 0 (Win 0 1 100 0 200 100 0 0 0 0 0 [] true false None)) = 110.
Proof. refine (proj2 (wm_left_edge_runs_away (Resize 0 1 100 0 200 100) 90 0 (Win 0 1 100 0 200 100 0 0 0 0 0 [] true false None) eq_refl _)). cbn. lia. Defined.

(** A minimized window, which is not drawn, still takes the presses over its old place. *)
Lemma wm_minimized_window_takes_presses :
  let g := dosgui_wm_minimize wm_two 1 in
  hit_test g 300 150 = Some 1%nat /\ (mouse_press g 300 150).2 = [EvClient 1 150 100].
Proof. vm_compute. split; reflexivity. Qed.

(** A modal window that is the 32nd writes behind the end of the stacking order. *)
Lemma wm_last_modal_overruns :
  let g := Nat.iter 31 (fun g => opened g 0 0 100 50) (dosgui_wm_init 1024 768 plain_theme) in
  length (zorder g) = 31%nat /\ dosgui_wm_create_modal g 0 0 100 50 None (Some 0%nat) = None.
Proof. vm_compute. split; reflexivity. Qed.

(** Closing a window while it is resized leaves the resize on: the next window to take the
    slot is stretched by the pointer. *)
Lemma wm_resize_outlives_window :
  let g := (mouse_press wm_two 449 150).1 in
  let g := opened (dosgui_wm_destroy g 1) 10 10 400 300 in
  resize_id (resize g) = 1 /\ (ww <$> windows (mouse_move g 460 150).1 !! 1%nat) = Some 311.
Proof. vm_compute. split; reflexivity. Qed.
