(* ===== verification/Term.v ===== *)
(** * The terminal

    [gui/dosgui_term_ansi.c]: the VT100 screen and the parser of escape sequences, with
    the size management of [dosgui_term_pty.c] and [dosgui_term_render.c].  A session is
    its size, its cursor, the rendition and the two flat arrays of cells, as functions of
    the offset.  [None] is an access outside the arrays or a sum that leaves [int]. *)

From S2P Require Import Prelude.
Open Scope Z_scope.

Definition TERM_MAX_COLS : Z := 240.
Definition TERM_MAX_ROWS : Z := 100.
Definition CELLS : Z := TERM_MAX_ROWS * TERM_MAX_COLS.

Record Term := Session {
  cols : Z; rows : Z; cursor_x : Z; cursor_y : Z; saved_cursor_x : Z; saved_cursor_y : Z;
  cur_attr : Z; cur_fg : Z; cur_bg : Z; screen : Z -> Z; attrs : Z -> Z }.

Definition set_cursor (t : Term) (x y : Z) : Term :=
  Session (cols t) (rows t) x y (saved_cursor_x t) (saved_cursor_y t) (cur_attr t) (cur_fg t) (cur_bg t) (screen t) (attrs t).
Definition save_cursor (t : Term) : Term :=
  Session (cols t) (rows t) (cursor_x t) (cursor_y t) (cursor_x t) (cursor_y t) (cur_attr t) (cur_fg t) (cur_bg t) (screen t) (attrs t).
Definition restore_cursor (t : Term) : Term := set_cursor t (saved_cursor_x t) (saved_cursor_y t).
Definition set_rendition (t : Term) (a f b : Z) : Term :=
  Session (cols t) (rows t) (cursor_x t) (cursor_y t) (saved_cursor_x t) (saved_cursor_y t) a f b (screen t) (attrs t).
Definition set_cells (t : Term) (s a : Z -> Z) : Term :=
  Session (cols t) (rows t) (cursor_x t) (cursor_y t) (saved_cursor_x t) (saved_cursor_y t) (cur_attr t) (cur_fg t) (cur_bg t) s a.
Definition set_size (t : Term) (c r : Z) : Term :=
  Session c r (cursor_x t) (cursor_y t) (saved_cursor_x t) (saved_cursor_y t) (cur_attr t) (cur_fg t) (cur_bg t) (screen t) (attrs t).

(** A result of type [int]. *)
Definition int_ok (x : Z) : option Z := if (- 2 ^ 31 <=? x) && (x <? 2 ^ 31) then Some x else None.

(** ** Cells *)

Definition inside (off n i : Z) : bool := (off <=? i) && (i <? off + n).

(** The two calls of [memset] on a range; a negative count is a huge one. *)
Definition wipe (t : Term) (off n : Z) : option Term :=
  if (0 <=? n) && (0 <=? off) && (off + n <=? CELLS) then
    Some (set_cells t (fun i => if inside off n i then 32 else screen t i) (fun i => if inside off n i then 0 else attrs t i))
  else None.

(** The two calls of [memcpy] that move row [r + 1] to row [r]. *)
Definition copy_row (t : Term) (r : Z) : option Term :=
  if (0 <=? r) && ((r + 2) * TERM_MAX_COLS <=? CELLS) then
    let move m := fun i => if inside (r * TERM_MAX_COLS) TERM_MAX_COLS i then m (i + TERM_MAX_COLS) else m i : Z in
    Some (set_cells t (move (screen t)) (move (attrs t)))
  else None.

(** [f] on the rows from [r] on, [n] of them. *)
Fixpoint each_row (f : Term -> Z -> option Term) (n : nat) (r : Z) (t : Term) : option Term :=
  match n with O => Some t | S n => t ← f t r; each_row f n (r + 1) t end.

Definition wipe_row (t : Term) (r : Z) : option Term := wipe t (r * TERM_MAX_COLS) TERM_MAX_COLS.

Definition screen_put (t : Term) (c : Z) : option Term :=
  if (cursor_x t <? TERM_MAX_COLS) && (cursor_y t <? TERM_MAX_ROWS) then
    let k := cursor_y t * TERM_MAX_COLS + cursor_x t in
    if (0 <=? k) && (k <? CELLS) then
      Some (set_cells t (fun i => if i =? k then c else screen t i) (fun i => if i =? k then cur_attr t else attrs t i))
    else None
  else Some t.

Definition screen_scroll_up (t : Term) : option Term :=
  t ← each_row copy_row (Z.to_nat (rows t - 1)) 0 t; wipe_row t (rows t - 1).
Definition screen_erase_full (t : Term) : option Term := each_row wipe_row (Z.to_nat (rows t)) 0 t.

(** ** Control sequences *)

Inductive AnsiState : Set := ANSI_NORMAL | ANSI_ESC | ANSI_CSI.
Record AnsiParser := Parser { state : AnsiState; param : list Z; param_accum : Z; param_pending : bool }.
Definition ansi_parser_init : AnsiParser := Parser ANSI_NORMAL [] 0 false.

Definition param_or (l : list Z) (i : nat) (d : Z) : Z := match l !! i with Some v => v | None => d end.

(** Select graphic rendition. *)
Fixpoint sgr (t : Term) (l : list Z) : Term :=
  match l with
  | [] => t
  | v :: l =>
      if v =? 0 then sgr (set_rendition t 0 7 0) l
      else if v =? 1 then sgr (set_rendition t (Z.lor (cur_attr t) 1) (cur_fg t) (cur_bg t)) l
      else if v =? 4 then sgr (set_rendition t (Z.lor (cur_attr t) 2) (cur_fg t) (cur_bg t)) l
      else if v =? 7 then sgr (set_rendition t (Z.lor (cur_attr t) 4) (cur_fg t) (cur_bg t)) l
      else if (30 <=? v) && (v <=? 37) then sgr (set_rendition t (cur_attr t) (v - 30) (cur_bg t)) l
      else if (40 <=? v) && (v <=? 47) then sgr (set_rendition t (cur_attr t) (cur_fg t) (v - 40)) l
      else if (90 <=? v) && (v <=? 97) then sgr (set_rendition t (cur_attr t) (v - 90 + 8) (cur_bg t)) l
      else if (100 <=? v) && (v <=? 107) then sgr (set_rendition t (cur_attr t) (cur_fg t) (v - 100 + 8)) l
      else if (v =? 38) || (v =? 48) then
        match l with
        | a :: n :: l' =>
            if a =? 5 then sgr (if v =? 38 then set_rendition t (cur_attr t) (u8 n) (cur_bg t) else set_rendition t (cur_attr t) (cur_fg t) (u8 n)) l'
            else sgr t l
        | _ => sgr t l
        end
      else sgr t l
  end.

Definition erase_display (t : Term) (mode : Z) : option Term :=
  let x := cursor_x t in
  let y := cursor_y t in
  if mode =? 0 then
    t ← wipe t (y * TERM_MAX_COLS + x) (cols t - x); each_row wipe_row (Z.to_nat (rows t - (y + 1))) (y + 1) t
  else if mode =? 1 then
    t ← each_row wipe_row (Z.to_nat y) 0 t; wipe t (y * TERM_MAX_COLS) (x + 1)
  else if (mode =? 2) || (mode =? 3) then
    t ← screen_erase_full t; Some (set_cursor t 0 0)
  else Some t.

Definition erase_line (t : Term) (mode : Z) : option Term :=
  let x := cursor_x t in
  let y := cursor_y t in
  if mode =? 0 then wipe t (y * TERM_MAX_COLS + x) (cols t - x)
  else if mode =? 1 then wipe t (y * TERM_MAX_COLS) (x + 1)
  else if mode =? 2 then wipe t (y * TERM_MAX_COLS) TERM_MAX_COLS else Some t.

(** The final byte of a control sequence with its parameters. *)
Definition ansi_exec_csi (t : Term) (l : list Z) (c : Z) : option Term :=
  let p0 := param_or l 0 1 in
  let p0 := if p0 <=? 0 then 1 else p0 in
  let x := cursor_x t in
  let y := cursor_y t in
  if c =? 65 then y ← int_ok (y - p0); Some (set_cursor t x (if y <? 0 then 0 else y))
  else if (c =? 66) || (c =? 101) then y ← int_ok (y + p0); Some (set_cursor t x (if y >=? rows t then rows t - 1 else y))
  else if (c =? 67) || (c =? 97) then x ← int_ok (x + p0); Some (set_cursor t (if x >=? cols t then cols t - 1 else x) y)
  else if c =? 68 then x ← int_ok (x - p0); Some (set_cursor t (if x <? 0 then 0 else x) y)
  else if (c =? 72) || (c =? 102) then
    row ← int_ok (param_or l 0 1 - 1); col ← int_ok (param_or l 1 1 - 1);
    let row := if row <? 0 then 0 else row in
    let row := if row >=? rows t then rows t - 1 else row in
    let col := if col <? 0 then 0 else col in
    let col := if col >=? cols t then cols t - 1 else col in
    Some (set_cursor t col row)
  else if c =? 74 then erase_display t (param_or l 0 0)
  else if c =? 75 then erase_line t (param_or l 0 0)
  else if c =? 109 then Some (match l with [] => set_rendition t 0 7 0 | _ => sgr t l end)
  else if c =? 115 then Some (save_cursor t)
  else if c =? 117 then Some (restore_cursor t)
  else Some t.

(** ** The parser *)

Definition printable (c : Z) : bool := (32 <=? c) && (c <? 127).
Definition digit (c : Z) : bool := (48 <=? c) && (c <=? 57).

(** A byte outside of escape sequences, other than ESC. *)
Definition plain_char (t : Term) (c : Z) : option Term :=
  let x := cursor_x t in
  let y := cursor_y t in
  if c =? 10 then
    t ← (if y >=? rows t - 1 then screen_scroll_up t else Some (set_cursor t x (y + 1))); Some (set_cursor t 0 (cursor_y t))
  else if c =? 13 then Some (set_cursor t 0 y)
  else if c =? 9 then
    let x := Z.land (x + 8) (Z.lnot 7) in Some (set_cursor t (if x >=? cols t then cols t - 1 else x) y)
  else if c =? 8 then Some (if x >? 0 then set_cursor t (x - 1) y else t)
  else if printable c then
    t ← screen_put t c;
    Some (if x + 1 >=? cols t then set_cursor t 0 (if y <? rows t - 1 then y + 1 else y) else set_cursor t (x + 1) y)
  else Some t.

Definition push_param (l : list Z) (v : Z) : list Z := if Nat.ltb (length l) 8 then l ++ [v] else l.

Definition parse_char (t : Term) (p : AnsiParser) (c : Z) : option (Term * AnsiParser) :=
  match state p with
  | ANSI_NORMAL => if c =? 27 then Some (t, Parser ANSI_ESC (param p) (param_accum p) (param_pending p)) else t ← plain_char t c; Some (t, p)
  | ANSI_ESC =>
      if c =? 91 then Some (t, Parser ANSI_CSI [] 0 false)
      else
        let p := Parser ANSI_NORMAL (param p) (param_accum p) (param_pending p) in
        Some (if c =? 55 then save_cursor t else if c =? 56 then restore_cursor t else t, p)
  | ANSI_CSI =>
      if digit c then
        a ← int_ok (param_accum p * 10 + (c - 48)); Some (t, Parser ANSI_CSI (param p) a true)
      else if c =? 59 then Some (t, Parser ANSI_CSI (push_param (param p) (param_accum p)) 0 false)
      else
        let l := if param_pending p then push_param (param p) (param_accum p) else param p in
        t ← ansi_exec_csi t l c; Some (t, Parser ANSI_NORMAL l (param_accum p) (param_pending p))
  end.

Fixpoint parse_loop (t : Term) (p : AnsiParser) (buf : list Z) : option (Term * AnsiParser) :=
  match buf with
  | [] => Some (t, p)
  | c :: buf => match parse_char t p c with Some (t, p) => parse_loop t p buf | None => None end
  end.

Definition term_ansi_parse (t : Term) (buf : list Z) : option Term :=
  if (cols t <=? 0) || (rows t <=? 0) then Some t else fst <$> parse_loop t ansi_parser_init buf.

(** ** Sessions and their size *)

Definition term_reset_pty_screen (t : Term) : Term :=
  set_cursor (set_cells t (fun i => if inside 0 CELLS i then 32 else screen t i) (fun i => if inside 0 CELLS i then 0 else attrs t i)) 0 0.
Definition zero_session : Term := Session 80 24 0 0 0 0 0 0 0 (fun _ => 0) (fun _ => 0).
Definition term_pty_spawn : Term := term_reset_pty_screen zero_session.
Definition term_container_spawn : Term := zero_session.

Definition term_update_pty_size (t : Term) (c r : Z) : Term :=
  if (cols t =? c) && (rows t =? r) then t else term_reset_pty_screen (set_size t c r).
Definition term_update_container_size (t : Term) (c r : Z) : Term :=
  if (cols t =? c) && (rows t =? r) then t else set_size t c r.

Definition term_tab_bar_h (rounded : bool) : Z := if rounded then 28 else 24.
Definition term_char_w : Z := 6.
Definition term_char_h : Z := 10.
Definition term_side_padding : Z := 4.
Definition term_top_padding : Z := 2.

(** The window of a shell changes its size, in pixels. *)
Definition dosgui_term_handle_resize (t : Term) (rounded : bool) (w h : Z) : Term :=
  let c := Z.quot (w - 2 * term_side_padding) term_char_w in
  let r := Z.quot (h - term_tab_bar_h rounded - 2 * term_top_padding) term_char_h in
  let c := if c <? 10 then 10 else c in
  let r := if r <? 5 then 5 else r in
  term_update_pty_size t c r.
