(* ===== verification/TermTheorems.v ===== *)
(** * Theorems of the terminal *)

From S2P Require Import Prelude Term.
Open Scope Z_scope.

Record term_ok (t : Term) : Prop := {
  tk_cols : 1 <= cols t <= TERM_MAX_COLS;
  tk_rows : 1 <= rows t <= TERM_MAX_ROWS;
  tk_x : 0 <= cursor_x t < cols t;
  tk_y : 0 <= cursor_y t < rows t;
  tk_sx : 0 <= saved_cursor_x t < cols t;
  tk_sy : 0 <= saved_cursor_y t < rows t }.

(** Same size, and the same cells below the visible rows. *)
Definition term_frame (t t' : Term) : Prop :=
  cols t' = cols t /\ rows t' = rows t /\
  forall i, ~ 0 <= i < rows t * TERM_MAX_COLS -> screen t' i = screen t i /\ attrs t' i = attrs t i.

Lemma term_frame_refl t : term_frame t t.
Proof. by split_and!. Qed.

Lemma term_frame_trans t1 t2 t3 : term_frame t1 t2 -> term_frame t2 t3 -> term_frame t1 t3.
Proof.
  intros (H1 & H2 & H3) (H4 & H5 & H6). split_and!; [congruence|congruence|]. intros i Hi. rewrite H2 in H6.
  destruct (H3 i Hi) as [<- <-]. by apply H6.
Qed.

(** The operation gives a result, which is well formed and touches visible rows only. *)
Definition safe (t : Term) (r : option Term) : Prop := exists t', r = Some t' /\ term_ok t' /\ term_frame t t'.

Lemma safe_some t t' : term_ok t' -> term_frame t t' -> safe t (Some t').
Proof. intros H1 H2. by exists t'. Qed.

Lemma safe_bind t r f : safe t r -> (forall t', term_ok t' -> term_frame t t' -> safe t' (f t')) -> safe t (r ≫= f).
Proof.
  intros (t' & -> & Hok & Hf) H. destruct (H t' Hok Hf) as (t2 & E & Hok2 & Hf2). exists t2. split_and!; [done|done|by eapply term_frame_trans].
Qed.

Lemma set_cells_ok t s a : term_ok t -> term_ok (set_cells t s a).
Proof. intros []. by constructor. Qed.

Lemma set_cursor_ok t x y : term_ok t -> 0 <= x < cols t -> 0 <= y < rows t -> safe t (Some (set_cursor t x y)).
Proof. intros [] Hx Hy. apply safe_some; [by constructor|by split_and!]. Qed.

Ltac sizes := unfold CELLS, TERM_MAX_COLS, TERM_MAX_ROWS in *.

Lemma wipe_safe t off n : term_ok t -> 0 <= off -> 0 <= n -> off + n <= rows t * TERM_MAX_COLS -> safe t (wipe t off n).
Proof.
  intros Hok H1 H2 H3. pose proof (tk_rows _ Hok). unfold wipe. rewrite (proj2 (Z.leb_le 0 n)), (proj2 (Z.leb_le 0 off)), (proj2 (Z.leb_le (off + n) CELLS)) by (sizes; lia).
  apply safe_some; [by apply set_cells_ok|]. split_and!; [done|done|]. intros i Hi. cbn. unfold inside.
  destruct (Z.leb_spec off i), (Z.ltb_spec i (off + n)); cbn; try done. lia.
Qed.

Lemma copy_row_safe t r : term_ok t -> 0 <= r < rows t - 1 -> safe t (copy_row t r).
Proof.
  intros Hok Hr. pose proof (tk_rows _ Hok). unfold copy_row. rewrite (proj2 (Z.leb_le 0 r)), (proj2 (Z.leb_le ((r + 2) * TERM_MAX_COLS) CELLS)) by (sizes; lia).
  apply safe_some; [by apply set_cells_ok|]. split_and!; [done|done|]. intros i Hi. cbn. unfold inside.
  destruct (Z.leb_spec (r * TERM_MAX_COLS) i), (Z.ltb_spec i (r * TERM_MAX_COLS + TERM_MAX_COLS)); cbn; try done. sizes. lia.
Qed.

Lemma each_row_safe f n : forall t r hi, (forall t' k, term_ok t' -> rows t' = rows t -> r <= k < hi -> safe t' (f t' k)) ->
  term_ok t -> r + Z.of_nat n <= hi -> safe t (each_row f n r t).
Proof.
  induction n as [|n IH]; intros t r hi Hf Hok Hn; cbn [each_row]; [by apply safe_some, term_frame_refl|].
  apply safe_bind; [apply Hf; [done|done|lia]|]. intros t' Hok' (_ & Er & _). apply (IH t' (r + 1) hi); [|done|lia].
  intros t2 k H2 E2 Hk. apply Hf; [done|congruence|lia].
Qed.

Lemma wipe_row_safe t r : term_ok t -> 0 <= r < rows t -> safe t (wipe_row t r).
Proof. intros Hok Hr. apply wipe_safe; [done|sizes; lia..]. Qed.

Lemma wipe_rows_safe t n r : term_ok t -> 0 <= r -> r + Z.of_nat n <= rows t -> safe t (each_row wipe_row n r t).
Proof. intros Hok Hr Hn. apply (each_row_safe _ _ t r (rows t)); [|done|done]. intros t' k H' E Hk. apply wipe_row_safe; [done|lia]. Qed.

Lemma scroll_safe t : term_ok t -> safe t (screen_scroll_up t).
Proof.
  intros Hok. pose proof (tk_rows _ Hok). apply safe_bind.
  - apply (each_row_safe _ _ t 0 (rows t - 1)); [|done|lia]. intros t' k H' E Hk. apply copy_row_safe; [done|lia].
  - intros t' H' _. pose proof (tk_rows _ H'). apply wipe_row_safe; [done|lia].
Qed.

Lemma put_safe t c : term_ok t -> safe t (screen_put t c).
Proof.
  intros Hok. destruct Hok as [H1 H2 H3 H4 H5 H6] eqn:E. clear E. unfold screen_put.
  destruct ((cursor_x t <? TERM_MAX_COLS) && (cursor_y t <? TERM_MAX_ROWS)); [|by apply safe_some, term_frame_refl].
  cbv zeta. rewrite (proj2 (Z.leb_le 0 (cursor_y t * TERM_MAX_COLS + cursor_x t))), (proj2 (Z.ltb_lt (cursor_y t * TERM_MAX_COLS + cursor_x t) CELLS)) by (sizes; lia).
  apply safe_some; [by apply set_cells_ok|]. split_and!; [done|done|]. intros i Hi. cbn.
  destruct (Z.eqb_spec i (cursor_y t * TERM_MAX_COLS + cursor_x t)); [sizes; lia|done].
Qed.

Lemma sgr_same t l : exists a f b, sgr t l = set_rendition t a f b.
Proof.
  assert (forall n l t, (length l <= n)%nat -> exists a f b, sgr t l = set_rendition t a f b) as H; [|by apply (H (length l))].
  clear. assert (forall t a f b a' f' b', set_rendition (set_rendition t a f b) a' f' b' = set_rendition t a' f' b') as E by done.
  assert (forall t, set_rendition t (cur_attr t) (cur_fg t) (cur_bg t) = t) as E0 by by intros [].
  induction n as [|n IH]; intros [|v l] t Hl; cbn in Hl; [by eexists _, _, _|lia|by eexists _, _, _|].
  assert (forall t l' a f b, (length l' <= n)%nat -> exists a' f' b', sgr (set_rendition t a f b) l' = set_rendition t a' f' b') as IH'.
  { intros t0 l' a f b Hl'. destruct (IH l' (set_rendition t0 a f b) Hl') as (a' & f' & b' & ->). by eexists _, _, _. }
  cbn [sgr]. repeat match goal with |- context [if ?b then sgr _ l else _] => destruct b; [apply IH'; lia|] end.
  destruct ((v =? 38) || (v =? 48)); [|apply IH; lia]. destruct l as [|a [|m l]]; [apply IH; lia|apply IH; cbn in *; lia|].
  destruct (a =? 5); [|apply IH; cbn in *; lia]. cbn in Hl. destruct (v =? 38); apply IH'; lia.
Qed.

Lemma rendition_safe t a f b : term_ok t -> safe t (Some (set_rendition t a f b)).
Proof. intros []. apply safe_some; [by constructor|by split_and!]. Qed.

Lemma erase_display_safe t m : term_ok t -> safe t (erase_display t m).
Proof.
  intros Hok. pose proof Hok as [H1 H2 H3 H4 H5 H6]. unfold erase_display. destruct (m =? 0); [|destruct (m =? 1); [|destruct ((m =? 2) || (m =? 3))]].
  - apply safe_bind; [apply wipe_safe; [done|sizes; lia..]|]. intros t' H' (_ & Er & _). apply wipe_rows_safe; [done|lia|lia].
  - assert (safe t (each_row wipe_row (Z.to_nat (cursor_y t)) 0 t)) as Hs by (apply wipe_rows_safe; [done|lia|lia]).
    apply safe_bind; [done|]. intros t' H' (Ec & Er & _). apply wipe_safe; [done|sizes; lia..|rewrite Er; sizes; lia].
  - apply safe_bind; [apply wipe_rows_safe; [done|lia|lia]|]. intros t' H' _. pose proof (tk_cols _ H'). pose proof (tk_rows _ H'). apply set_cursor_ok; [done|lia|lia].
  - by apply safe_some, term_frame_refl.
Qed.

Lemma erase_line_safe t m : term_ok t -> safe t (erase_line t m).
Proof.
  intros Hok. pose proof Hok as [H1 H2 H3 H4 H5 H6]. unfold erase_line.
  destruct (m =? 0); [|destruct (m =? 1); [|destruct (m =? 2)]]; [apply wipe_safe; [done|sizes; lia..]..|by apply safe_some, term_frame_refl].
Qed.

(** ** Bounded parameters *)

Definition small (v : Z) : Prop := 0 <= v < 10 ^ 9.

Lemma int_ok_some x : - 2 ^ 31 <= x < 2 ^ 31 -> int_ok x = Some x.
Proof. intros H. unfold int_ok. by rewrite (proj2 (Z.leb_le _ _) (proj1 H)), (proj2 (Z.ltb_lt _ _) (proj2 H)). Qed.

Lemma param_or_small l i : Forall small l -> 0 <= param_or l i 1 < 10 ^ 9.
Proof. intros Hl. unfold param_or. destruct (l !! i) as [v|] eqn:E; [exact (Forall_lookup_1 small l i v Hl E)|lia]. Qed.

Lemma csi_safe t l c : term_ok t -> Forall small l -> safe t (ansi_exec_csi t l c).
Proof.
  intros Hok Hl. pose proof Hok as [H1 H2 H3 H4 H5 H6]. pose proof (param_or_small l 0 Hl) as P0. pose proof (param_or_small l 1 Hl) as P1.
  unfold ansi_exec_csi. set (q := param_or l 0 1) in *. cbv zeta. set (p0 := if q <=? 0 then 1 else q). assert (1 <= p0 < 10 ^ 9) as Hp by (unfold p0; bcase; lia). clearbody p0 q.
  destruct (c =? 65); [|destruct ((c =? 66) || (c =? 101)); [|destruct ((c =? 67) || (c =? 97)); [|destruct (c =? 68); [|destruct ((c =? 72) || (c =? 102))]]]];
    [rewrite int_ok_some by (sizes; lia); cbn [mbind option_bind]; apply set_cursor_ok; [done|..]; repeat bcase; lia..| |].
  - rewrite !int_ok_some by (sizes; lia). cbn [mbind option_bind]. apply set_cursor_ok; [done|..]; repeat bcase; lia.
  - destruct (c =? 74); [by apply erase_display_safe|]. destruct (c =? 75); [by apply erase_line_safe|]. destruct (c =? 109).
    { destruct l; [by apply rendition_safe|]. destruct (sgr_same t (z :: l)) as (a & f & b & ->). by apply rendition_safe. }
    destruct (c =? 115); [apply safe_some; [by constructor|by split_and!]|]. destruct (c =? 117); [by apply set_cursor_ok|]. by apply safe_some, term_frame_refl.
Qed.

Lemma plain_safe t c : term_ok t -> safe t (plain_char t c).
Proof.
  intros Hok. pose proof Hok as [H1 H2 H3 H4 H5 H6]. unfold plain_char. cbv zeta. destruct (c =? 10).
  { apply safe_bind; [destruct (Z.geb_spec (cursor_y t) (rows t - 1)); [by apply scroll_safe|by apply set_cursor_ok; [done|..]; lia]|].
    intros t' H' _. pose proof (tk_cols _ H'). apply set_cursor_ok; [done|lia|apply H']. }
  destruct (c =? 13); [apply set_cursor_ok; [done|lia|lia]|]. destruct (c =? 9).
  { assert (0 <= Z.land (cursor_x t + 8) (Z.lnot 7)) by (apply Z.land_nonneg; lia). apply set_cursor_ok; [done|..]; repeat bcase; lia. }
  destruct (c =? 8). { destruct (Z.gtb_spec (cursor_x t) 0); [apply set_cursor_ok; [done|lia|lia]|by apply safe_some, term_frame_refl]. }
  destruct (printable c); [|by apply safe_some, term_frame_refl]. apply safe_bind; [by apply put_safe|]. intros t' H' (Ec & Er & _).
  rewrite <- Ec in H1, H3. rewrite <- Er in H2, H4. destruct (Z.geb_spec (cursor_x t + 1) (cols t')); apply set_cursor_ok; try done; repeat bcase; lia.
Qed.

(** No number of more than nine digits, [k] digits being read already. *)
Fixpoint short_numbers (k : nat) (l : list Z) : bool :=
  match l with
  | [] => true
  | c :: l => if digit c then Nat.ltb k 9 && short_numbers (S k) l else short_numbers 0 l
  end.

Definition parser_ok (k : nat) (p : AnsiParser) : Prop :=
  state p = ANSI_CSI -> Forall small (param p) /\ 0 <= param_accum p < 10 ^ Z.of_nat k.

Lemma push_small l v : Forall small l -> small v -> Forall small (push_param l v).
Proof. intros Hl Hv. unfold push_param. destruct (Nat.ltb _ _); [|done]. apply Forall_app. auto. Qed.

Lemma pow10_small k v : (k <= 9)%nat -> 0 <= v < 10 ^ Z.of_nat k -> small v.
Proof. intros Hk Hv. split; [lia|]. assert (10 ^ Z.of_nat k <= 10 ^ 9) by (apply Z.pow_le_mono_r; lia). lia. Qed.

Lemma parse_char_safe t p c k :
  term_ok t -> parser_ok k p -> (k <= 9)%nat -> (digit c = true -> (k < 9)%nat) ->
  exists t' p', parse_char t p c = Some (t', p') /\ term_ok t' /\ term_frame t t' /\ parser_ok (if digit c then S k else 0) p'.
Proof.
  intros Hok Hp Hk Hd. unfold parse_char, parser_ok in *. destruct (state p) eqn:Es.
  - destruct (Z.eqb_spec c 27); [eexists _, _; split_and!; [done|done|apply term_frame_refl|done]|].
    destruct (plain_safe t c Hok) as (t' & -> & H1 & H2). exists t', p. split_and!; [done|done|done|congruence].
  - destruct (Z.eqb_spec c 91) as [->|]; [eexists _, _; split_and!; [done|done|apply term_frame_refl|done]|].
    eexists _, _. split; [done|]. destruct (c =? 55), (c =? 56); split_and!; try done; destruct Hok; by constructor.
  - destruct (Hp eq_refl) as [Hl Ha]. destruct (digit c) eqn:Ed.
    + specialize (Hd eq_refl). assert (48 <= c <= 57) as Hc by (unfold digit in Ed; lia).
      assert (small (param_accum p)) as [_ Hs] by (by apply (pow10_small k)).
      assert (10 ^ Z.of_nat (S k) <= 10 ^ 9) by (apply Z.pow_le_mono_r; lia). rewrite Nat2Z.inj_succ, Z.pow_succ_r in * by lia.
      rewrite int_ok_some by lia. eexists _, _. split_and!; [done|done|apply term_frame_refl|]. intros _. cbn [param param_accum]. split; [done|lia].
    + destruct (Z.eqb_spec c 59).
      * eexists _, _. split_and!; [done|done|apply term_frame_refl|]. intros _. cbn [param param_accum]. split; [|done]. apply push_small; [done|by apply (pow10_small k)].
      * set (l := if param_pending p then _ else _). assert (Forall small l) as Hl'.
        { unfold l. destruct (param_pending p); [|done]. apply push_small; [done|by apply (pow10_small k)]. }
        destruct (csi_safe t l c Hok Hl') as (t' & -> & H1 & H2). eexists _, _. by split_and!.
Qed.

Lemma parse_loop_safe buf : forall t p k,
  term_ok t -> parser_ok k p -> (k <= 9)%nat -> short_numbers k buf = true ->
  exists t' p', parse_loop t p buf = Some (t', p') /\ term_ok t' /\ term_frame t t'.
Proof.
  induction buf as [|c buf IH]; intros t p k Hok Hp Hk Hs; [eexists _, _; split_and!; [done|done|apply term_frame_refl]|].
  cbn [short_numbers] in Hs. destruct (parse_char_safe t p c k Hok Hp Hk) as (t1 & p1 & E & H1 & H2 & H3).
  { intros Hd. rewrite Hd in Hs. apply andb_prop in Hs as [Hs%Nat.ltb_lt _]. done. }
  cbn [parse_loop]. rewrite E. destruct (digit c).
  - apply andb_prop in Hs as [Hlt%Nat.ltb_lt Hs]. destruct (IH t1 p1 (S k) H1 H3 Hlt Hs) as (t2 & p2 & -> & H4 & H5).
    eexists _, _. split_and!; [done|done|by eapply term_frame_trans].
  - destruct (IH t1 p1 O H1 H3 ltac:(lia) Hs) as (t2 & p2 & -> & H4 & H5). eexists _, _. split_and!; [done|done|by eapply term_frame_trans].
Qed.

(** ** Sessions *)

(** The sizes a session may take without losing its arrays or its saved cursor. *)
Record size_fits (t : Term) (c r : Z) : Prop := {
  sf_cols : 1 <= c <= TERM_MAX_COLS;
  sf_rows : 1 <= r <= TERM_MAX_ROWS;
  sf_sx : saved_cursor_x t < c;
  sf_sy : saved_cursor_y t < r }.

(** A session of a shell or of a container, from its start: output of the program, in
    any number of reads, and changes of the size. *)
Inductive term_session : Term -> Prop :=
| session_pty : term_session term_pty_spawn
| session_container : term_session term_container_spawn
| session_output t buf t' : term_session t -> short_numbers 0 buf = true -> term_ansi_parse t buf = Some t' -> term_session t'
| session_size t c r : term_session t -> size_fits t c r -> term_session (term_update_pty_size t c r)
| session_container_size t c r :
    term_session t -> size_fits t c r -> cursor_x t < c -> cursor_y t < r -> term_session (term_update_container_size t c r)
| session_window t rounded w h :
    term_session t -> (let t' := dosgui_term_handle_resize t rounded w h in size_fits t (cols t') (rows t')) ->
    term_session (dosgui_term_handle_resize t rounded w h).

Lemma output_safe t buf : term_ok t -> short_numbers 0 buf = true -> safe t (term_ansi_parse t buf).
Proof.
  intros Hok Hs. pose proof (tk_cols _ Hok). pose proof (tk_rows _ Hok). unfold term_ansi_parse.
  destruct (Z.leb_spec (cols t) 0); [lia|]. destruct (Z.leb_spec (rows t) 0); [lia|]. cbn [orb].
  destruct (parse_loop_safe buf t ansi_parser_init 0 Hok) as (t' & p' & -> & Hok1 & Hfr); [done|lia|done|]. by exists t'.
Qed.

Lemma pty_spawn_ok : term_ok term_pty_spawn.
Proof. by constructor. Qed.

Lemma pty_size_ok t c r : term_ok t -> size_fits t c r -> term_ok (term_update_pty_size t c r).
Proof. intros [] []. unfold term_update_pty_size. destruct (_ && _); constructor; cbn; lia. Qed.

Lemma container_size_ok t c r : term_ok t -> size_fits t c r -> cursor_x t < c -> cursor_y t < r -> term_ok (term_update_container_size t c r).
Proof. intros [] []. unfold term_update_container_size. destruct (_ && _); constructor; cbn; lia. Qed.

Lemma pty_size_size t c r : cols (term_update_pty_size t c r) = c /\ rows (term_update_pty_size t c r) = r.
Proof.
  unfold term_update_pty_size. destruct ((cols t =? c) && (rows t =? r)) eqn:E; [|done].
  by apply andb_prop in E as [->%Z.eqb_eq ->%Z.eqb_eq].
Qed.

Lemma session_ok t : term_session t -> term_ok t.
Proof.
  induction 1 as [| |t buf t' _ IH Hs E|t c r _ IH Hf|t c r _ IH Hf Hx Hy|t rd w h _ IH Hf]; [apply pty_spawn_ok|by constructor|..].
  - destruct (output_safe t buf IH Hs) as (t2 & E2 & Hok & _). by rewrite E in E2; simplify_eq.
  - by apply pty_size_ok.
  - by apply container_size_ok.
  - unfold dosgui_term_handle_resize in *. cbv zeta in *.
    match goal with |- term_ok (term_update_pty_size t ?c ?r) => destruct (pty_size_size t c r) as [Ec Er] end.
    rewrite Ec, Er in Hf. by apply pty_size_ok.
Qed.

(** C21. In a session of a shell or of a container, after any output without a number of ten
    digits and any changes of the size to at most 240 by 100 cells that leave the saved
    cursor, and in a container the cursor, inside of the new size, whatever the program
    prints next without a number of ten digits: the terminal stays inside its arrays, the
    cursor and the saved cursor are on the screen, the size is the same and no cell below
    the visible rows changes. *)
Theorem term_output_stays_on_screen t buf :
  term_session t -> short_numbers 0 buf = true ->
  exists t', term_ansi_parse t buf = Some t' /\ term_session t' /\ term_ok t' /\ term_frame t t'.
Proof.
  intros Ht Hs. destruct (output_safe t buf (session_ok t Ht) Hs) as (t' & E & Hok & Hf).
  exists t'. split_and!; [done|by eapply session_output|done|done].
Qed.

Lemma term_output_stays_on_screen_witness :
  exists t', term_ansi_parse term_pty_spawn [27; 91; 57; 57; 57; 66; 65; 10; 10] = Some t' /\ cursor_y t' = 23 /\ term_ok t'.
Proof.
  destruct (term_output_stays_on_screen term_pty_spawn [27; 91; 57; 57; 57; 66; 65; 10; 10] session_pty eq_refl) as (t' & E & _ & Hok & _).
  exists t'. split_and!; [exact E| |exact Hok].
  assert (cursor_y <$> term_ansi_parse term_pty_spawn [27; 91; 57; 57; 57; 66; 65; 10; 10] = Some 23) as H by (vm_compute; reflexivity).
  rewrite E in H. by injection H.
Defined.

(** ** Painting a screen *)

Definition cell (y x : Z) : Z := y * TERM_MAX_COLS + x.

Lemma inside_false off n i : inside off n i = false <-> ~ off <= i < off + n.
Proof. unfold inside. rewrite andb_false_iff, Z.leb_gt, Z.ltb_ge. lia. Qed.

(** Text that ends before the end of the line, or with it. *)
Lemma print_text txt : forall t p,
  term_ok t -> state p = ANSI_NORMAL -> Forall (fun c => printable c = true) txt -> cursor_x t + Z.of_nat (length txt) <= cols t ->
  exists t', parse_loop t p txt = Some (t', p) /\ term_ok t' /\ cols t' = cols t /\ rows t' = rows t /\ cur_attr t' = cur_attr t /\
    (forall j c, txt !! j = Some c -> screen t' (cell (cursor_y t) (cursor_x t + Z.of_nat j)) = c) /\
    (forall i, inside (cell (cursor_y t) (cursor_x t)) (Z.of_nat (length txt)) i = false -> screen t' i = screen t i).
Proof.
  induction txt as [|c txt IH]; intros t p Hok Hs Hp Hlen; [by exists t; split_and!|]. apply Forall_cons in Hp as [Hc Hp]. cbn [length] in Hlen.
  pose proof Hok as [H1 H2 H3 H4 H5 H6]. cbn [parse_loop]. unfold parse_char. rewrite Hs. assert (32 <= c < 127) as Hr by (unfold printable in Hc; lia).
  destruct (Z.eqb_spec c 27); [lia|]. unfold plain_char. cbv zeta.
  destruct (Z.eqb_spec c 10); [lia|]. destruct (Z.eqb_spec c 13); [lia|]. destruct (Z.eqb_spec c 9); [lia|]. destruct (Z.eqb_spec c 8); [lia|]. rewrite Hc.
  unfold screen_put. rewrite (proj2 (Z.ltb_lt (cursor_x t) TERM_MAX_COLS)), (proj2 (Z.ltb_lt (cursor_y t) TERM_MAX_ROWS)) by lia. cbn [andb]. cbv zeta.
  change (cursor_y t * TERM_MAX_COLS + cursor_x t) with (cell (cursor_y t) (cursor_x t)). set (k := cell (cursor_y t) (cursor_x t)).
  assert (0 <= k < CELLS) as Hk by (unfold k, cell; sizes; lia). rewrite (proj2 (Z.leb_le 0 k)), (proj2 (Z.ltb_lt k CELLS)) by lia. cbn [mbind option_bind andb cols rows set_cells].
  set (t1 := set_cells t _ _). assert (forall i, screen t1 i = if i =? k then c else screen t i) as Hs1 by done.
  assert (term_ok t1) as Hok1 by by apply set_cells_ok. assert (cols t1 = cols t /\ rows t1 = rows t /\ cur_attr t1 = cur_attr t) as (Ec & Er & Ea) by done. clearbody t1.
  rewrite ?Ec, ?Er. destruct (Z.geb_spec (cursor_x t + 1) (cols t)) as [Hend|Hgo].
  - destruct txt; [|cbn in Hlen; lia]. cbn [parse_loop]. eexists. split_and!; [done| | | | | |]; cbn; try done.
    + destruct Hok1. constructor; cbn; rewrite ?Ec, ?Er in *; try done; repeat bcase; lia.
    + intros [|j] d [= <-]. rewrite Hs1, Z.add_0_r. fold k. by rewrite Z.eqb_refl.
    + intros i Hi. rewrite Hs1. destruct (Z.eqb_spec i k); [|done]. apply inside_false in Hi. cbn [length] in Hi. lia.
  - assert (term_ok (set_cursor t1 (cursor_x t + 1) (cursor_y t))) as Hok2 by (destruct Hok1; constructor; cbn; rewrite ?Ec, ?Er in *; (done || lia)).
    destruct (IH (set_cursor t1 (cursor_x t + 1) (cursor_y t)) p Hok2 Hs Hp) as (t' & -> & A1 & A2 & A3 & A4 & A5 & A6); [cbn; lia|].
    cbn in A2, A3, A4, A5, A6. exists t'. split_and!; try congruence.
    + intros [|j] d Hj; cbn in Hj.
      * injection Hj as <-. rewrite Z.add_0_r. fold k. rewrite A6, Hs1, Z.eqb_refl; [done|]. apply inside_false. unfold k, cell. lia.
      * rewrite <- (A5 j d Hj). f_equal. unfold cell. lia.
    + intros i Hi%inside_false. cbn [length] in Hi. rewrite A6, Hs1; [|apply inside_false; unfold k, cell in *; lia].
      destruct (Z.eqb_spec i k) as [->|]; [lia|done].
Qed.

(** A row number in decimal, below 1000. *)
Definition dec (n : Z) : list Z :=
  if n <? 10 then [48 + n] else if n <? 100 then [48 + n / 10; 48 + n mod 10] else [48 + n / 100; 48 + n / 10 mod 10; 48 + n mod 10].

Lemma parse_digit t l a b c buf : 0 <= a < 10 ^ 8 -> 0 <= c < 10 ->
  parse_loop t (Parser ANSI_CSI l a b) ((48 + c) :: buf) = parse_loop t (Parser ANSI_CSI l (a * 10 + c) true) buf.
Proof.
  intros Ha Hc. cbn [parse_loop]. unfold parse_char. cbn [state param_accum param]. assert (digit (48 + c) = true) as -> by (unfold digit; lia).
  rewrite int_ok_some by lia. cbn [mbind option_bind]. do 3 f_equal. lia.
Qed.

Lemma parse_dec t l b n buf : 0 <= n < 1000 ->
  parse_loop t (Parser ANSI_CSI l 0 b) (dec n ++ buf) = parse_loop t (Parser ANSI_CSI l n true) buf.
Proof.
  intros Hn. unfold dec. destruct (Z.ltb_spec n 10); [|destruct (Z.ltb_spec n 100)]; cbn [app].
  - by rewrite parse_digit by lia.
  - pose proof (Z.div_mod n 10). pose proof (Z.mod_pos_bound n 10). assert (0 <= n / 10 < 10) by (split; [apply Z.div_pos|apply Z.div_lt_upper_bound]; lia).
    rewrite !parse_digit by lia. replace ((0 * 10 + n / 10) * 10 + n mod 10) with n by lia. done.
  - pose proof (Z.div_mod n 10). pose proof (Z.mod_pos_bound n 10). pose proof (Z.div_mod (n / 10) 10). pose proof (Z.mod_pos_bound (n / 10) 10).
    assert (n / 10 / 10 = n / 100) as E by (rewrite Z.div_div by lia; done). assert (0 <= n / 100 < 10) by (split; [apply Z.div_pos|apply Z.div_lt_upper_bound]; lia).
    rewrite !parse_digit by lia. replace (((0 * 10 + n / 100) * 10 + (n / 10) mod 10) * 10 + n mod 10) with n by lia. done.
Qed.

(** The sequence that moves the cursor to the start of a row. *)
Definition goto_row (r : Z) : list Z := [27; 91] ++ dec (r + 1) ++ [59; 49; 72].

Lemma exec_goto t r : term_ok t -> 0 <= r < rows t -> ansi_exec_csi t [r + 1; 1] 72 = Some (set_cursor t 0 r).
Proof.
  intros Hok Hr. pose proof (tk_rows _ Hok). pose proof (tk_cols _ Hok). sizes. unfold ansi_exec_csi. cbn [Z.eqb Pos.eqb orb param_or lookup list_lookup].
  rewrite !int_ok_some by lia. cbn [mbind option_bind]. cbv zeta. replace (r + 1 - 1) with r by lia. change (1 - 1) with 0.
  destruct (Z.ltb_spec r 0); [lia|]. destruct (Z.geb_spec r (rows t)); [lia|]. change (0 <? 0) with false. cbv iota.
  destruct (Z.geb_spec 0 (cols t)); [lia|]. done.
Qed.

Lemma parse_goto t p r buf : term_ok t -> state p = ANSI_NORMAL -> 0 <= r < rows t ->
  exists p', state p' = ANSI_NORMAL /\ parse_loop t p (goto_row r ++ buf) = parse_loop (set_cursor t 0 r) p' buf.
Proof.
  intros Hok Hs Hr. pose proof (tk_rows _ Hok). sizes. exists (Parser ANSI_NORMAL [r + 1; 1] 1 true). split; [done|].
  unfold goto_row. rewrite <- !app_assoc. cbn [app]. change (27 :: 91 :: ?l) with ([27; 91] ++ l).
  assert (forall l, parse_loop t p ([27; 91] ++ l) = parse_loop t (Parser ANSI_CSI [] 0 false) l) as ->.
  { intros l. cbn [app parse_loop]. unfold parse_char at 1. rewrite Hs. done. }
  rewrite parse_dec by lia. change (59 :: ?l) with ([59] ++ l).
  assert (forall l, parse_loop t (Parser ANSI_CSI [] (r + 1) true) ([59] ++ l) = parse_loop t (Parser ANSI_CSI [r + 1] 0 false) l) as -> by done.
  change 49 with (48 + 1). rewrite parse_digit by lia. change (0 * 10 + 1) with 1. cbn [parse_loop]. unfold parse_char at 1. cbn [state param_pending param param_accum].
  change (digit 72) with false. change (72 =? 59) with false. cbv iota zeta. change (push_param [r + 1] 1) with [r + 1; 1]. by rewrite exec_goto.
Qed.

(** What a full-screen program prints to show a picture, from row [r] on. *)
Fixpoint paint (r : Z) (pic : list (list Z)) : list Z :=
  match pic with [] => [] | row :: pic => goto_row r ++ row ++ paint (r + 1) pic end.

Definition fits_screen (t : Term) (row : list Z) : Prop := Z.of_nat (length row) <= cols t /\ Forall (fun c => printable c = true) row.

Lemma parse_loop_app l1 : forall t p l2, parse_loop t p (l1 ++ l2) = '(t, p) ← parse_loop t p l1; parse_loop t p l2.
Proof. induction l1 as [|c l1 IH]; intros t p l2; [done|]. cbn [app parse_loop]. destruct (parse_char t p c) as [[t' p']|]; [apply IH|done]. Qed.

Lemma paint_loop pic : forall t p r,
  term_ok t -> state p = ANSI_NORMAL -> 0 <= r -> r + Z.of_nat (length pic) <= rows t -> Forall (fits_screen t) pic ->
  exists t' p', parse_loop t p (paint r pic) = Some (t', p') /\ term_ok t' /\ cols t' = cols t /\ rows t' = rows t /\
    (forall j row x c, pic !! j = Some row -> row !! x = Some c -> screen t' (cell (r + Z.of_nat j) (Z.of_nat x)) = c) /\
    (forall i, i < cell r 0 -> screen t' i = screen t i).
Proof.
  induction pic as [|row pic IH]; intros t p r Hok Hs Hr Hn Hf; [by eexists _, _; split_and!|].
  apply Forall_cons in Hf as [[Hlen Hp] Hf]. cbn [length] in Hn. cbn [paint]. destruct (parse_goto t p r (row ++ paint (r + 1) pic) Hok Hs) as (p1 & Hs1 & ->); [lia|].
  assert (term_ok (set_cursor t 0 r)) as Hok1 by (destruct Hok; constructor; cbn; (done || lia)).
  destruct (print_text row (set_cursor t 0 r) p1 Hok1 Hs1 Hp) as (t2 & E2 & Hok2 & Ec & Er & _ & Hin & Hout); [cbn; lia|]. cbn in Ec, Er, Hin, Hout.
  rewrite parse_loop_app, E2. cbn [mbind option_bind]. pose proof (tk_cols _ Hok) as Hcols.
  destruct (IH t2 p1 (r + 1) Hok2 Hs1) as (t3 & p3 & -> & Hok3 & Ec3 & Er3 & Hin3 & Hout3); [lia|lia| |].
  { eapply Forall_impl; [exact Hf|]. intros l [H1 H2]. split; [lia|done]. }
  exists t3, p3. split_and!; [done|done|congruence|congruence| |].
  - intros [|j] row' x c Hj Hx; cbn in Hj.
    + injection Hj as <-. rewrite Hout3, Z.add_0_r; [by rewrite <- (Hin x c Hx)|]. apply lookup_lt_Some in Hx. unfold cell. sizes. lia.
    + rewrite <- (Hin3 j row' x c Hj Hx). f_equal. unfold cell. lia.
  - intros i Hi. rewrite Hout3 by (unfold cell in *; sizes; lia). apply Hout, inside_false. unfold cell in *. lia.
Qed.



(** ** Cursor motions *)

Definition clamp (lo hi v : Z) : Z := Z.max lo (Z.min hi v).

(** The motions move by their parameter, at least by one, and stop at the edges. *)
Theorem term_motions_stop_at_edges t l c :
  term_ok t -> Forall small l ->
  let n := Z.max 1 (param_or l 0 1) in
  let to x y := Some (set_cursor t (clamp 0 (cols t - 1) x) (clamp 0 (rows t - 1) y)) in
  ansi_exec_csi t l c =
    if c =? 65 then to (cursor_x t) (cursor_y t - n)
    else if (c =? 66) || (c =? 101) then to (cursor_x t) (cursor_y t + n)
    else if (c =? 67) || (c =? 97) then to (cursor_x t + n) (cursor_y t)
    else if c =? 68 then to (cursor_x t - n) (cursor_y t)
    else if (c =? 72) || (c =? 102) then to (param_or l 1 1 - 1) (param_or l 0 1 - 1)
    else ansi_exec_csi t l c.
Proof.
  intros Hok Hl. pose proof Hok as [H1 H2 H3 H4 H5 H6]. pose proof (param_or_small l 0 Hl) as P0. pose proof (param_or_small l 1 Hl) as P1.
  unfold ansi_exec_csi. cbv zeta. set (q := param_or l 0 1) in *. set (q1 := param_or l 1 1) in *. assert ((if q <=? 0 then 1 else q) = Z.max 1 q) as -> by (bcase; lia).
  destruct (c =? 65); [|destruct ((c =? 66) || (c =? 101)); [|destruct ((c =? 67) || (c =? 97)); [|destruct (c =? 68); [|destruct ((c =? 72) || (c =? 102)); [|done]]]]];
    rewrite !int_ok_some by (sizes; lia); cbn [mbind option_bind]; unfold clamp; do 2 f_equal; repeat bcase; lia.
Qed.

Lemma term_motions_stop_at_edges_witness : ansi_exec_csi term_pty_spawn [500] 67 = Some (set_cursor term_pty_spawn 79 0).
Proof.
  assert (Forall small [500]) as Hl by (apply Forall_singleton; unfold small; lia).
  rewrite (term_motions_stop_at_edges term_pty_spawn [500] 67 pty_spawn_ok Hl). reflexivity.
Defined.

(** ** Departures *)

(** A number of ten digits leaves [int]. *)
Lemma term_long_number_overflows : term_ansi_parse term_pty_spawn [27; 91; 50; 49; 52; 55; 52; 56; 51; 54; 52; 56; 66] = None.
Proof. vm_compute. reflexivity. Qed.

(** The largest [int] fits, and moving down by it from the second row does not. *)
Lemma term_far_motion_overflows : term_ansi_parse term_pty_spawn [10; 27; 91; 50; 49; 52; 55; 52; 56; 51; 54; 52; 55; 66] = None.
Proof. vm_compute. reflexivity. Qed.

(** A window of 1080 pixels has more rows than the arrays: erasing the screen writes
    behind them. *)
Lemma term_tall_window_overruns :
  let t := dosgui_term_handle_resize term_pty_spawn false 800 1080 in rows t = 105 /\ term_ansi_parse t [27; 91; 50; 74] = None.
Proof. vm_compute. split; reflexivity. Qed.

(** Resizing keeps the saved cursor: restored in a narrower window it lies outside, and
    erasing the rest of the line has a negative length. *)
Lemma term_saved_cursor_outlives_size :
  exists t, term_ansi_parse term_pty_spawn [27; 91; 56; 48; 71; 27; 91; 54; 48; 67; 27; 55] = Some t /\
    term_ansi_parse (dosgui_term_handle_resize t false 200 400) [27; 56; 27; 91; 75] = None.
Proof. eexists. split; [vm_compute; reflexivity|]. vm_compute. reflexivity. Qed.

(** Resizing a container session keeps its cursor, with the same result. *)
Lemma term_container_cursor_outlives_size :
  exists t, term_ansi_parse term_container_spawn [27; 91; 54; 48; 67] = Some t /\ term_ansi_parse (term_update_container_size t 40 24) [27; 91; 75] = None.
Proof. eexists. split; [vm_compute; reflexivity|]. vm_compute. reflexivity. Qed.

(** Text that runs over the end of the last row does not scroll: it starts again on the
    same row. *)
Lemma term_last_row_is_overwritten :
  let t := term_update_pty_size term_pty_spawn 3 2 in
  (fun u => (screen u (cell 0 0), screen u (cell 1 0), cursor_x u, cursor_y u)) <$> term_ansi_parse t [10; 97; 98; 99; 100] = Some (32, 100, 1, 1).
Proof. vm_compute. reflexivity. Qed.

(** A sequence that arrives in two reads is printed instead of obeyed. *)
Lemma term_split_sequence_is_printed :
  (t ← term_ansi_parse term_pty_spawn [27]; u ← term_ansi_parse t [91; 72]; Some (screen u 0, screen u 1)) = Some (91, 72).
Proof. vm_compute. reflexivity. Qed.
