(* ===== verification/Txn.v ===== *)
(** * Speculative transactions

    [runtime/wubu_txn/wubu_txn.c]: a transaction copies a directory aside, buffers the
    messages its caller sends out of scope, and commits or restores the directory.  The
    programs [rm], [mkdir] and [cp] it runs are an interface with what their manuals say
    about directories named by plain absolute paths. *)

From stdpp Require Import gmap.
From S2P Require Import Prelude.
Open Scope Z_scope.

Definition WUBU_TXN_MAX_NESTING : nat := 4.
Definition WUBU_TXN_DEFAULT_BUFFER : Z := 4096.
Definition WUBU_TXN_NAME_MAX : nat := 31.
Definition WUBU_TXN_MAX_SCOPE_PIDS : nat := 256.
Definition WUBU_TXN_MAX_CALLERS : Z := 1024.
Definition WUBU_MAX_PATH : nat := 4096.
Definition WUBU_TXN_OK : Z := 0.
Definition WUBU_TXN_EINVAL : Z := -22.
Definition WUBU_TXN_EPERM : Z := -1.
Definition WUBU_TXN_ENESTED : Z := -201.

Inductive WubuTxnState : Set :=
  WUBU_TXN_INVALID | WUBU_TXN_ACTIVE | WUBU_TXN_COMMITTING | WUBU_TXN_COMMITTED | WUBU_TXN_COMMITTING_FAILED | WUBU_TXN_ABORTING | WUBU_TXN_ABORTED.
#[global] Instance WubuTxnState_eq_dec : EqDecision WubuTxnState.
Proof. solve_decision. Defined.

Record WubuTxnMsg := Msg { target_id : Z; m_flags : Z; payload : list Z }.

Record WubuTxn := Txn {
  id : Z; flags : Z; state : WubuTxnState; name : list Z;
  live_dir : list Z; checkpoint_dir : list Z; checkpoint_valid : bool;
  scope_pids : list Z; scope_count : nat;
  ring : list WubuTxnMsg; ring_cap : Z; ring_head : Z; ring_count : Z;
  nesting_depth : nat }.

Definition set_outcome (t : WubuTxn) (s : WubuTxnState) (valid : bool) (head count : Z) : WubuTxn :=
  Txn (id t) (flags t) s (name t) (live_dir t) (checkpoint_dir t) valid (scope_pids t) (scope_count t) (ring t) (ring_cap t) head count (nesting_depth t).
Definition set_ring (t : WubuTxn) (r : list WubuTxnMsg) (head count : Z) : WubuTxn :=
  Txn (id t) (flags t) (state t) (name t) (live_dir t) (checkpoint_dir t) (checkpoint_valid t) (scope_pids t) (scope_count t) r (ring_cap t) head count (nesting_depth t).

(** ** Paths *)

Fixpoint last_slash (l : list Z) : option nat :=
  match l with
  | [] => None
  | c :: l => match last_slash l with Some k => Some (S k) | None => if c =? 47 then Some O else None end
  end.
(** The part before the last slash, or the working directory. *)
Definition parent_dir (l : list Z) : list Z := match last_slash l with Some k => take k l | None => [46] end.

Fixpoint decimal_digits (fuel : nat) (n : Z) (acc : list Z) : list Z :=
  match fuel with O => acc | S f => let acc := (48 + n mod 10) :: acc in if n / 10 =? 0 then acc else decimal_digits f (n / 10) acc end.
(** A 64-bit number has at most 20 digits. *)
Definition decimal (n : Z) : list Z := decimal_digits 20 n [].

(** ".wubu_txn_" and the number of the transaction. *)
Definition snapshot_name (i : Z) : list Z := [46; 119; 117; 98; 117; 95; 116; 120; 110; 95] ++ decimal i.
Definition fit_path (p : list Z) : list Z := take (pred WUBU_MAX_PATH) p.

(** ** Checkpoints *)

(** Programs run in a working directory and say whether they succeeded; [cp_into] copies
    into the working directory. *)
Class Shell (F : Type) := {
  rm_rf : F -> list Z -> list Z -> F * bool;
  mkdir_p : F -> list Z -> list Z -> F * bool;
  cp_into : F -> list Z -> list Z -> F * bool;
  can_chdir : F -> list Z -> list Z -> bool }.

Definition in_dir (cwd p : list Z) : list Z :=
  match p with [] => cwd | c :: _ => if c =? 47 then p else cwd ++ [47] ++ p end.

Section txn.
Context {F : Type} `{Shell F}.

Definition copy_dir (f : F) (cwd src dst : list Z) : F * Z :=
  let '(f, ok) := rm_rf f cwd dst in
  if negb ok then (f, -1) else
  let '(f, ok) := mkdir_p f cwd dst in
  if negb ok then (f, -1) else
  if Nat.ltb (WUBU_MAX_PATH + 32) (S (length cwd)) then (f, -1) else
  if negb (can_chdir f cwd dst) then (f, -1) else
  let '(f, ok) := cp_into f (in_dir cwd dst) (src ++ [47; 46]) in
  (f, if ok then 0 else -1).

Definition wubu_txn_checkpoint_create (f : F) (cwd src_dir dst_dir : list Z) : F * Z := copy_dir f cwd src_dir dst_dir.
Definition wubu_txn_checkpoint_restore (f : F) (cwd snapshot_dir live : list Z) : F * Z := copy_dir f cwd snapshot_dir live.
Definition wubu_txn_checkpoint_delete (f : F) (cwd dir : list Z) : F * Z := let '(f, ok) := rm_rf f cwd dir in (f, if ok then 0 else -1).

(** ** Transactions *)

Definition wubu_txn_is_external_peer (t : WubuTxn) (pid : Z) : bool :=
  if Nat.eqb (scope_count t) 0 then true else negb (existsb (Z.eqb pid) (take (scope_count t) (scope_pids t))).

(** The list of the caller up to its terminator. *)
Fixpoint scope_prefix (l : list Z) : list Z :=
  match l with [] => [] | p :: l => if p =? -1 then [] else p :: scope_prefix l end.
Definition zero_msg : WubuTxnMsg := Msg 0 0 [].

(** The outcomes of the two allocations are arguments; the counter is passed on. *)
Definition wubu_txn_begin (next : Z) (got_txn got_ring : bool) (f : F) (cwd : list Z) (fl : Z) (nm : option (list Z))
    (scope : option (list Z)) (dir : option (list Z)) : option WubuTxn * Z * F :=
  if negb got_txn then (None, next, f) else
  let i := next in
  let next := u64 (next + 1) in
  let pids := take WUBU_TXN_MAX_SCOPE_PIDS (scope_prefix (default [] scope)) in
  let pids := pids ++ replicate (WUBU_TXN_MAX_SCOPE_PIDS - length pids) 0 in
  let count := match scope with Some (p :: _) => if p =? -1 then O else WUBU_TXN_MAX_SCOPE_PIDS | Some [] => O | None => O end in
  if negb got_ring then (None, next, f) else
  let n := take WUBU_TXN_NAME_MAX (default [116; 120; 110] nm) in
  let mk live snap valid :=
    Txn i fl WUBU_TXN_ACTIVE n live snap valid pids count (replicate (Z.to_nat WUBU_TXN_DEFAULT_BUFFER) zero_msg) WUBU_TXN_DEFAULT_BUFFER 0 0 0 in
  match dir with
  | None => (Some (mk [] [] false), next, f)
  | Some d =>
      let live := fit_path d in
      let snap := fit_path (parent_dir live ++ [47] ++ snapshot_name i) in
      let '(f, rc) := wubu_txn_checkpoint_create f cwd live snap in
      if rc =? 0 then (Some (mk live snap true), next, f) else (Some (mk live [] false), next, f)
  end.

Definition wubu_txn_buffer_send (t : WubuTxn) (target : Z) (bytes : list Z) (fl : Z) : Z * WubuTxn :=
  if negb (bool_decide (state t = WUBU_TXN_ACTIVE)) then (-1, t) else
  if ring_count t >=? ring_cap t then (-1, t) else
  let m := Msg target fl (take 1024 bytes) in
  (0, set_ring t (<[Z.to_nat (ring_head t) := m]> (ring t)) (u32 (ring_head t + 1) mod ring_cap t) (ring_count t + 1)).

(** The buffered messages are counted down, and no one is told. *)
Definition wubu_txn_commit (t : WubuTxn) : Z * WubuTxn :=
  if negb (bool_decide (state t = WUBU_TXN_ACTIVE)) then (WUBU_TXN_EINVAL, t)
  else (WUBU_TXN_OK, set_outcome t WUBU_TXN_COMMITTED (checkpoint_valid t) (ring_head t) 0).

Definition wubu_txn_abort (t : WubuTxn) (f : F) (cwd : list Z) : Z * WubuTxn * F :=
  if bool_decide (state t = WUBU_TXN_COMMITTED) then (WUBU_TXN_EPERM, t, f) else
  let f := if checkpoint_valid t then
             let '(f, _) := wubu_txn_checkpoint_restore f cwd (checkpoint_dir t) (live_dir t) in
             fst (wubu_txn_checkpoint_delete f cwd (checkpoint_dir t))
           else f in
  (WUBU_TXN_OK, set_outcome t WUBU_TXN_ABORTED false 0 0, f).

Definition wubu_txn_state (t : option WubuTxn) : WubuTxnState := match t with Some t => state t | None => WUBU_TXN_INVALID end.

(** What is left of the file system when a handle is freed. *)
Definition wubu_txn_destroy (t : WubuTxn) (f : F) (cwd : list Z) : F :=
  if checkpoint_valid t then fst (wubu_txn_checkpoint_delete f cwd (checkpoint_dir t)) else f.
End txn.

(** ** The stack of a caller *)

(** Transactions are named by numbers; a caller has four entries. *)
Definition callers := Z -> list (option nat).
Definition wubu_txn_init : callers := fun _ => replicate WUBU_TXN_MAX_NESTING None.
Definition caller_ok (pid : Z) : bool := (0 <=? pid) && (pid <? WUBU_TXN_MAX_CALLERS).
Definition set_stack (s : callers) (pid : Z) (l : list (option nat)) : callers := fun q => if q =? pid then l else s q.

Definition wubu_txn_current (s : callers) (pid : Z) : option nat := if caller_ok pid then mjoin (s pid !! 0%nat) else None.

(** The number of entries before the first free one. *)
Fixpoint used (l : list (option nat)) : nat := match l with Some _ :: l => S (used l) | _ => O end.

(** The result, the depth stored in the transaction and the stacks. *)
Definition wubu_txn_push (s : callers) (pid : Z) (t : nat) : Z * option nat * callers :=
  if negb (caller_ok pid) then (WUBU_TXN_EINVAL, None, s) else
  let d := used (s pid) in
  if Nat.leb WUBU_TXN_MAX_NESTING d then (WUBU_TXN_ENESTED, None, s)
  else (WUBU_TXN_OK, Some d, set_stack s pid (<[d := Some t]> (s pid))).
Definition wubu_txn_pop (s : callers) (pid : Z) : Z * callers :=
  if negb (caller_ok pid) then (WUBU_TXN_EINVAL, s) else
  (WUBU_TXN_OK, set_stack s pid (<[used (drop 1 (s pid)) := None]> (s pid))).

(** ** Laws of the programs *)

(** A plain path: slashes and components that are names. *)
Definition component (c : list Z) : Prop := c <> [] /\ c <> [46] /\ c <> [46; 46] /\ 47 ∉ c.
Definition path (cs : list (list Z)) : list Z := mjoin ((fun c => 47 :: c) <$> cs).
Definition plain (cs : list (list Z)) : Prop := cs <> [] /\ Forall component cs.
(** Neither directory lies in the other. *)
Definition apart (cs ds : list (list Z)) : Prop := ~ cs `prefix_of` ds /\ ~ ds `prefix_of` cs.

(** What a directory holds, when no symbolic link is on the way to it. *)
Class ShellLaws (F : Type) `{Shell F} := {
  tree : Type;
  empty_tree : tree;
  content : F -> list (list Z) -> option tree;
  rm_gone f cwd cs f' : plain cs -> rm_rf f cwd (path cs) = (f', true) -> content f' cs = None;
  rm_frame f cwd cs ds : plain cs -> plain ds -> apart cs ds -> content (rm_rf f cwd (path cs)).1 ds = content f ds;
  mkdir_empty f cwd cs f' : plain cs -> mkdir_p f cwd (path cs) = (f', true) -> content f cs = None -> content f' cs = Some empty_tree;
  mkdir_frame f cwd cs ds : plain cs -> plain ds -> apart cs ds -> content (mkdir_p f cwd (path cs)).1 ds = content f ds;
  cp_copies f cs ds f' : plain cs -> plain ds -> apart cs ds -> content f cs = Some empty_tree ->
    cp_into f (path cs) (path ds ++ [47; 46]) = (f', true) -> content f' cs = content f ds;
  cp_frame f cs ds es : plain cs -> plain ds -> plain es -> apart cs es ->
    content (cp_into f (path cs) (path ds ++ [47; 46])).1 es = content f es }.

(** ** Names of snapshots *)

Lemma last_slash_app l b : 47 ∉ b -> last_slash (l ++ 47 :: b) = Some (length l).
Proof.
  intros Hb. assert (last_slash b = None) as E.
  { induction b as [|c b IH]; [done|]. apply not_elem_of_cons in Hb as [Hc Hb]. cbn. rewrite IH by done. destruct (Z.eqb_spec c 47); congruence. }
  induction l as [|c l IH]; cbn; [by rewrite E|by rewrite IH].
Qed.

Lemma path_snoc cs c : path (cs ++ [c]) = path cs ++ 47 :: c.
Proof. unfold path. rewrite fmap_app, join_app. cbn. by rewrite app_nil_r. Qed.

Lemma parent_path cs c : 47 ∉ c -> parent_dir (path (cs ++ [c])) = path cs.
Proof. intros Hc. unfold parent_dir. rewrite path_snoc, last_slash_app by done. by rewrite take_app_length. Qed.

Lemma decimal_digits_noslash fuel : forall n acc, 47 ∉ acc -> 47 ∉ decimal_digits fuel n acc.
Proof.
  induction fuel as [|fuel IH]; intros n acc Ha; [done|]. cbn. assert (47 ∉ (48 + n mod 10) :: acc) as Hc.
  { apply not_elem_of_cons. split; [|done]. pose proof (Z.mod_pos_bound n 10). lia. }
  destruct (n / 10 =? 0); [done|by apply IH].
Qed.

Lemma snapshot_component i : component (snapshot_name i).
Proof.
  unfold component, snapshot_name. split_and!; [done|done|done|]. intros [Hi|Hi]%elem_of_app.
  - repeat (apply elem_of_cons in Hi as [Hi|Hi]; [lia|]). by apply elem_of_nil in Hi.
  - revert Hi. apply decimal_digits_noslash. apply not_elem_of_nil.
Qed.

Lemma decimal_digits_short fuel : forall n acc, (length (decimal_digits fuel n acc) <= fuel + length acc)%nat.
Proof. induction fuel as [|fuel IH]; intros n acc; [done|]. cbn. destruct (_ =? 0); [cbn; lia|]. etrans; [apply IH|]. cbn. lia. Qed.

Lemma snapshot_short i : (length (snapshot_name i) <= 30)%nat.
Proof. change (10 + length (decimal i) <= 30)%nat. pose proof (decimal_digits_short 20 i []) as Hd. fold (decimal i) in Hd. cbn [length] in Hd. lia. Qed.

Lemma siblings_apart cs (a b : list Z) : a <> b -> apart (cs ++ [a]) (cs ++ [b]).
Proof.
  intros Hab. split; intros [k E]; rewrite <- app_assoc in E; apply app_inv_head in E; cbn in E; congruence.
Qed.

Lemma apart_sym cs ds : apart cs ds -> apart ds cs.
Proof. intros []. by split. Qed.

(** ** Restoring *)

Section laws.
Context {F : Type} `{ShellLaws F}.

Lemma in_dir_plain cwd cs : plain cs -> in_dir cwd (path cs) = path cs.
Proof. intros [Hne _]. by destruct cs. Qed.

Lemma copy_dir_copies f cwd cs ds f' : plain cs -> plain ds -> apart ds cs -> copy_dir f cwd (path cs) (path ds) = (f', 0) ->
  content f' ds = content f cs /\ forall es, plain es -> apart ds es -> content f' es = content f es.
Proof.
  intros Hcs Hds Ha E. unfold copy_dir in E. destruct (rm_rf f cwd (path ds)) as [f1 b1] eqn:E1. destruct b1; [|done].
  cbn [negb] in E. destruct (mkdir_p f1 cwd (path ds)) as [f2 b2] eqn:E2. destruct b2; [|done]. cbn [negb] in E.
  destruct (Nat.ltb _ _); [done|]. destruct (can_chdir f2 cwd (path ds)); [|done]. cbn [negb] in E. rewrite in_dir_plain in E by done.
  destruct (cp_into f2 (path ds) (path cs ++ [47; 46])) as [f3 b3] eqn:E3. destruct b3; [|done]. injection E as <-.
  assert (forall es, plain es -> apart ds es -> content f2 es = content f es) as Hfr.
  { intros es He Hae. pose proof (mkdir_frame f1 cwd ds es Hds He Hae) as M. rewrite E2 in M. pose proof (rm_frame f cwd ds es Hds He Hae) as R. rewrite E1 in R.
    cbn in M, R. congruence. }
  split.
  - rewrite <- (Hfr cs Hcs Ha). refine (cp_copies f2 ds cs f3 Hds Hcs Ha _ E3). eapply mkdir_empty; [done|exact E2|]. by eapply rm_gone.
  - intros es He Hae. pose proof (cp_frame f2 ds cs es Hds Hcs He Hae) as C. rewrite E3 in C. cbn in C. rewrite C. by apply Hfr.
Qed.

(** Sending messages. *)
Inductive sends : WubuTxn -> WubuTxn -> Prop :=
  | sends_none t : sends t t
  | sends_one t t' target bytes fl : sends t t' -> sends t (wubu_txn_buffer_send t' target bytes fl).2.

Lemma send_keeps t target bytes fl : let t' := (wubu_txn_buffer_send t target bytes fl).2 in
  live_dir t' = live_dir t /\ checkpoint_dir t' = checkpoint_dir t /\ checkpoint_valid t' = checkpoint_valid t /\ state t' = state t.
Proof. unfold wubu_txn_buffer_send. destruct (negb _); [done|]. by destruct (_ >=? _). Qed.

Lemma sends_keep t t' : sends t t' ->
  live_dir t' = live_dir t /\ checkpoint_dir t' = checkpoint_dir t /\ checkpoint_valid t' = checkpoint_valid t /\ state t' = state t.
Proof. induction 1 as [|t t' target bytes fl _ IH]; [done|]. destruct (send_keeps t' target bytes fl) as (-> & -> & -> & ->). done. Qed.

(** C22. A transaction that took a checkpoint of a directory and is aborted leaves the
    directory as it was when the transaction began, whatever was done to it in between,
    and has nothing buffered; provided the snapshot was left alone and the copy back
    succeeded. *)
Theorem txn_abort_restores next f cwd fl nm scope par base t next' f1 t2 f2 cwd2 fr :
  plain (par ++ [base]) -> base <> snapshot_name next -> (length (path par) + length base + 40 < WUBU_MAX_PATH)%nat ->
  wubu_txn_begin next true true f cwd fl nm scope (Some (path (par ++ [base]))) = (Some t, next', f1) -> checkpoint_valid t = true ->
  sends t t2 -> content f2 (par ++ [snapshot_name next]) = content f1 (par ++ [snapshot_name next]) ->
  wubu_txn_checkpoint_restore f2 cwd2 (checkpoint_dir t2) (live_dir t2) = (fr, 0) ->
  exists t3 f3, wubu_txn_abort t2 f2 cwd2 = (WUBU_TXN_OK, t3, f3) /\ state t3 = WUBU_TXN_ABORTED /\ ring_count t3 = 0 /\
    content f3 (par ++ [base]) = content f (par ++ [base]).
Proof.
  intros Hp Hne Hlen E Hv Hs Hsnap Hr. assert (Forall component par /\ component base) as [Hpar Hbase].
  { destruct Hp as [_ Hp]. apply Forall_app in Hp as [Hp Hb]. split; [done|by apply Forall_singleton]. }
  assert (plain (par ++ [snapshot_name next])) as Hq.
  { split; [by destruct par|]. apply Forall_app. split; [done|]. apply Forall_singleton, snapshot_component. }
  pose proof (snapshot_short next) as Hd.
  assert (fit_path (path (par ++ [base])) = path (par ++ [base])) as F1.
  { unfold fit_path. apply take_ge. rewrite path_snoc, length_app. cbn [length]. lia. }
  assert (fit_path (path par ++ [47] ++ snapshot_name next) = path (par ++ [snapshot_name next])) as F2.
  { rewrite path_snoc. unfold fit_path. apply take_ge. rewrite length_app. cbn [app length]. lia. }
  unfold wubu_txn_begin in E. cbn [negb] in E. cbv zeta in E. rewrite F1, parent_path, F2 in E by apply Hbase.
  destruct (wubu_txn_checkpoint_create f cwd (path (par ++ [base])) (path (par ++ [snapshot_name next]))) as [f' rc] eqn:Ec.
  destruct (Z.eqb_spec rc 0) as [->|]; injection E as <- _ <-; [|done]. destruct (sends_keep _ _ Hs) as (S1 & S2 & S3 & S4). cbn [live_dir checkpoint_dir checkpoint_valid state] in S1, S2, S3, S4.
  assert (apart (par ++ [base]) (par ++ [snapshot_name next])) as Hap by by apply siblings_apart.
  apply copy_dir_copies in Ec as [Ec _]; [|done|done|by apply apart_sym]. rewrite S1, S2 in Hr.
  unfold wubu_txn_abort. rewrite S4. cbn [bool_decide]. rewrite S3, S1, S2, Hr. eexists _, _. split_and!; [done|done|done|]. unfold wubu_txn_checkpoint_delete.
  pose proof (rm_frame fr cwd2 (par ++ [snapshot_name next]) (par ++ [base]) Hq Hp (apart_sym _ _ Hap)) as R.
  destruct (rm_rf fr cwd2 (path (par ++ [snapshot_name next]))) as [f4 b4]. cbn [fst] in R |- *. rewrite R.
  apply copy_dir_copies in Hr as [-> _]; [|done|done|done]. congruence.
Qed.

End laws.

(** ** A disk for the examples *)

(** Directories by their names, and whether the coming copies fail. *)
Record disk := Disk { dirs : gmap (list Z) (list Z); failures : list bool }.

#[global] Instance disk_shell : Shell disk := {
  rm_rf d cwd p := (Disk (delete (in_dir cwd p) (dirs d)) (failures d), true);
  mkdir_p d cwd p := (match dirs d !! in_dir cwd p with Some _ => d | None => Disk (<[in_dir cwd p := []]> (dirs d)) (failures d) end, true);
  cp_into d cwd p :=
    match failures d, dirs d !! take (length (in_dir cwd p) - 2) (in_dir cwd p) with
    | true :: l, _ => (Disk (dirs d) l, false)
    | _, None => (Disk (dirs d) (tail (failures d)), false)
    | _, Some c => (Disk (<[cwd := c]> (dirs d)) (tail (failures d)), true)
    end;
  can_chdir d cwd p := match dirs d !! in_dir cwd p with Some _ => true | None => false end }.

Lemma component_split (c d r s : list Z) : 47 ∉ c -> 47 ∉ d -> (r = [] \/ exists k, r = 47 :: k) -> (s = [] \/ exists k, s = 47 :: k) -> c ++ r = d ++ s -> c = d /\ r = s.
Proof.
  revert d. induction c as [|x c IH]; intros [|y d] Hc Hd Hr Hs E; cbn in E.
  - done.
  - destruct Hr as [->|[k ->]]; [done|]. injection E as <- _. destruct Hd. apply elem_of_cons. by left.
  - destruct Hs as [->|[k ->]]; [done|]. injection E as -> _. destruct Hc. apply elem_of_cons. by left.
  - injection E as -> E. apply not_elem_of_cons in Hc as [_ Hc]. apply not_elem_of_cons in Hd as [_ Hd]. destruct (IH d Hc Hd Hr Hs E) as [-> ->]. done.
Qed.

Lemma path_shape cs : path cs = [] \/ exists k, path cs = 47 :: k.
Proof. destruct cs; [by left|]. right. by eexists. Qed.

Lemma path_inj cs ds : Forall component cs -> Forall component ds -> path cs = path ds -> cs = ds.
Proof.
  intros Hc. revert ds. induction Hc as [|c cs (_ & _ & _ & Hs) _ IH]; intros [|d ds] Hd E; try done.
  apply Forall_cons in Hd as [(_ & _ & _ & Hs') Hd]. injection E as E. change (c ++ path cs = d ++ path ds) in E.
  apply component_split in E as [-> E]; [|done|done|apply path_shape|apply path_shape]. by rewrite (IH ds Hd E).
Qed.

Lemma apart_path cs ds : plain cs -> plain ds -> apart cs ds -> path cs <> path ds.
Proof. intros [_ Hc] [_ Hd] [H1 _] E. apply H1. by rewrite (path_inj cs ds Hc Hd E). Qed.

#[global] Program Instance disk_laws : ShellLaws disk := { tree := list Z; empty_tree := []; content d cs := dirs d !! path cs }.
Next Obligation. intros f cwd cs f' Hp [= <-]. cbn. rewrite in_dir_plain by done. apply lookup_delete_eq. Qed.
Next Obligation. intros f cwd cs ds Hc Hd Ha. cbn. rewrite in_dir_plain by done. apply lookup_delete_ne. by apply apart_path. Qed.
Next Obligation. intros f cwd cs f' Hp [= <-] Hn. rewrite in_dir_plain, Hn by done. cbn. apply lookup_insert_eq. Qed.
Next Obligation.
  intros f cwd cs ds Hc Hd Ha. cbn. rewrite in_dir_plain by done. destruct (dirs f !! path cs); [done|]. cbn. apply lookup_insert_ne. by apply apart_path.
Qed.
Next Obligation.
  intros f cs ds f' Hc Hd Ha _ E. cbn in E. assert (in_dir (path cs) (path ds ++ [47; 46]) = path ds ++ [47; 46]) as Ei by (destruct ds; [by destruct Hd|done]).
  rewrite Ei in E. rewrite take_app_le, take_ge in E by (rewrite !length_app; cbn; lia).
  destruct (failures f) as [|[] l]; [|done|]; destruct (dirs f !! path ds); try done; injection E as <-; apply lookup_insert_eq.
Qed.
Next Obligation.
  intros f cs ds es Hc Hd He Ha. cbn. destruct (failures f) as [|[] l]; [|done|]; destruct (dirs f !! _); try done; apply lookup_insert_ne; by apply apart_path.
Qed.

(** "/w/d" with some bytes in it. *)
Definition work_dir : list (list Z) := [[119]; [100]].
Definition one_disk (l : list bool) : disk := Disk {[path work_dir := [1; 2; 3]]} l.
Definition begun (l : list bool) : option WubuTxn * Z * disk := wubu_txn_begin 1 true true (one_disk l) [47] 0 None None (Some (path work_dir)).
Definition begun_txn : WubuTxn := default (Txn 0 0 WUBU_TXN_INVALID [] [] [] false [] 0 [] 0 0 0 0) (begun []).1.1.
(** The directory is overwritten while the transaction runs. *)
Definition scribbled : disk := Disk (<[path work_dir := [9]]> (dirs (begun []).2)) [].

Lemma txn_abort_restores_witness : exists t3 f3, wubu_txn_abort begun_txn scribbled [47] = (WUBU_TXN_OK, t3, f3) /\ content f3 work_dir = Some [1; 2; 3].
Proof.
  destruct (txn_abort_restores 1 (one_disk []) [47] 0 None None [[119]] [100] begun_txn 2 (begun []).2 begun_txn scribbled [47]
              (wubu_txn_checkpoint_restore scribbled [47] (checkpoint_dir begun_txn) (live_dir begun_txn)).1) as (t3 & f3 & E & _ & _ & C).
  - split; [done|]. repeat constructor; try done; set_solver.
  - done.
  - cbn. unfold WUBU_MAX_PATH. lia.
  - vm_compute. reflexivity.
  - vm_compute. reflexivity.
  - constructor.
  - vm_compute. reflexivity.
  - vm_compute. reflexivity.
  - exists t3, f3. split; [exact E|]. etrans; [exact C|]. vm_compute. reflexivity.
Defined.

(** ** The buffer *)

Record ring_ok (t : WubuTxn) : Prop := {
  rk_cap : 0 < ring_cap t < 2 ^ 32;
  rk_len : Z.of_nat (length (ring t)) = ring_cap t;
  rk_head : 0 <= ring_head t < ring_cap t;
  rk_count : 0 <= ring_count t <= ring_cap t }.

(** The slot of the [j]-th oldest message. *)
Definition slot (t : WubuTxn) (j : nat) : nat := Z.to_nat ((ring_head t - ring_count t + Z.of_nat j) mod ring_cap t).
Definition queue (t : WubuTxn) : list WubuTxnMsg := (fun j => default zero_msg (ring t !! slot t j)) <$> seq 0 (Z.to_nat (ring_count t)).

Lemma wrapped_differs h c j cap : 0 <= h < cap -> 0 <= j < c -> c < cap -> (h - c + j) mod cap <> h.
Proof.
  intros Hh Hj Hc E. destruct (Z.lt_ge_cases (h - c + j) 0) as [Hn|Hp].
  - rewrite <- (Z.mod_unique (h - c + j) cap (-1) (h - c + j + cap)) in E by lia. lia.
  - rewrite Z.mod_small in E by lia. lia.
Qed.

(** The buffer of an active transaction is a queue: a message is added behind the others,
    cut to 1024 bytes, or refused with the queue unchanged when it is full. *)
Theorem txn_buffer_is_queue t target bytes fl :
  ring_ok t -> state t = WUBU_TXN_ACTIVE ->
  let '(rc, t') := wubu_txn_buffer_send t target bytes fl in
  ring_ok t' /\
  if ring_count t <? ring_cap t then rc = 0 /\ queue t' = queue t ++ [Msg target fl (take 1024 bytes)] else rc = -1 /\ queue t' = queue t.
Proof.
  intros Hok Hs. pose proof Hok as [H1 H2 H3 H4]. unfold wubu_txn_buffer_send. rewrite Hs. cbn [negb bool_decide decide].
  rewrite bool_decide_true by done. cbn [negb]. destruct (Z.ltb_spec (ring_count t) (ring_cap t)) as [Hlt|Hge]; [|destruct (Z.geb_spec (ring_count t) (ring_cap t)); [done|lia]].
  destruct (Z.geb_spec (ring_count t) (ring_cap t)); [lia|]. cbv zeta. set (m := Msg target fl (take 1024 bytes)). rewrite wrap_id by (unfold fits; lia).
  pose proof (Z.mod_pos_bound (ring_head t + 1) (ring_cap t)). split; [constructor; cbn; rewrite ?length_insert; lia|]. split; [done|].
  unfold queue. cbn [ring_count ring set_ring]. replace (Z.to_nat (ring_count t + 1)) with (S (Z.to_nat (ring_count t))) by lia.
  rewrite seq_S, fmap_app. cbn [Nat.add fmap list_fmap]. assert (forall j, slot (set_ring t (<[Z.to_nat (ring_head t) := m]> (ring t)) ((ring_head t + 1) mod ring_cap t) (ring_count t + 1)) j = slot t j) as Es.
  { intros j. unfold slot. cbn. f_equal. replace ((ring_head t + 1) mod ring_cap t - (ring_count t + 1) + Z.of_nat j) with ((ring_head t + 1) mod ring_cap t + (Z.of_nat j - ring_count t - 1)) by lia.
    rewrite Z.add_mod_idemp_l by lia. f_equal. lia. }
  f_equal.
  - apply list_fmap_ext. intros k j Hj. apply lookup_seq in Hj as [-> Hj]. rewrite Es. rewrite list_lookup_insert_ne; [done|].
    unfold slot. intros E. assert ((ring_head t - ring_count t + Z.of_nat k) mod ring_cap t <> ring_head t) as Hd by (apply wrapped_differs; lia).
    pose proof (Z.mod_pos_bound (ring_head t - ring_count t + Z.of_nat k) (ring_cap t)). cbn [Nat.add] in E. lia.
  - f_equal. rewrite Es. unfold slot. rewrite Z2Nat.id by lia. replace (ring_head t - ring_count t + ring_count t) with (ring_head t) by lia.
    rewrite Z.mod_small, list_lookup_insert_eq by lia. done.
Qed.

Lemma begun_ring_ok : ring_ok begun_txn.
Proof. constructor; vm_compute; split; (congruence || done). Qed.

Lemma txn_buffer_is_queue_witness : (wubu_txn_buffer_send begun_txn 7 [1; 2] 0).1 = 0 /\ queue (wubu_txn_buffer_send begun_txn 7 [1; 2] 0).2 = [Msg 7 0 [1; 2]].
Proof.
  pose proof (txn_buffer_is_queue begun_txn 7 [1; 2] 0 begun_ring_ok eq_refl) as H. destruct (wubu_txn_buffer_send begun_txn 7 [1; 2] 0) as [rc t'].
  destruct H as [_ H]. exact H.
Defined.

(** ** Outcomes *)

Section outcomes.
Context {F : Type} `{Shell F}.

Inductive txn_step : WubuTxn -> WubuTxn -> Prop :=
  | step_send t target bytes fl : txn_step t (wubu_txn_buffer_send t target bytes fl).2
  | step_commit t : txn_step t (wubu_txn_commit t).2
  | step_abort t f cwd : txn_step t (wubu_txn_abort (F := F) t f cwd).1.2.

Lemma txn_step_state t t' : txn_step t t' ->
  state t' = state t \/ state t = WUBU_TXN_ACTIVE /\ state t' = WUBU_TXN_COMMITTED \/ state t <> WUBU_TXN_COMMITTED /\ state t' = WUBU_TXN_ABORTED.
Proof.
  intros [u target bytes fl|u|u f cwd].
  - left. apply (send_keeps u target bytes fl).
  - unfold wubu_txn_commit. case_bool_decide; cbn; auto.
  - unfold wubu_txn_abort. case_bool_decide; cbn; auto.
Qed.

(** Once a transaction is committed it stays so: no later call aborts it. *)
Theorem txn_commit_is_final t t' :
  state t = WUBU_TXN_ACTIVE -> rtc txn_step (wubu_txn_commit t).2 t' ->
  state t' = WUBU_TXN_COMMITTED /\ (wubu_txn_commit t').1 = WUBU_TXN_EINVAL /\ forall (f : F) cwd, wubu_txn_abort t' f cwd = (WUBU_TXN_EPERM, t', f).
Proof.
  intros Hs Hr. assert (state t' = WUBU_TXN_COMMITTED) as Hc.
  { assert (state (wubu_txn_commit t).2 = WUBU_TXN_COMMITTED) as H0 by (unfold wubu_txn_commit; rewrite bool_decide_true by done; done).
    induction Hr as [u|u v w Huv _ IH]; [done|]. apply IH. destruct (txn_step_state _ _ Huv) as [->|[[E _]|[E _]]]; [done|congruence|congruence]. }
  split_and!; [done| |].
  - unfold wubu_txn_commit. by rewrite Hc.
  - intros f cwd. unfold wubu_txn_abort. by rewrite Hc.
Qed.
End outcomes.

Lemma txn_commit_is_final_witness : (wubu_txn_abort (wubu_txn_commit begun_txn).2 scribbled [47]).1.1 = WUBU_TXN_EPERM.
Proof.
  destruct (txn_commit_is_final (F := disk) begun_txn (wubu_txn_commit begun_txn).2 eq_refl (rtc_refl _ _)) as (_ & _ & H). by rewrite H.
Defined.

(** ** Nesting *)

(** The entries of a caller hold [ts], the outermost first. *)
Definition nested (l : list (option nat)) (ts : list nat) : Prop :=
  (length ts <= WUBU_TXN_MAX_NESTING)%nat /\ l = (Some <$> ts) ++ replicate (WUBU_TXN_MAX_NESTING - length ts) None.

Lemma used_nested ts n : used ((Some <$> ts) ++ replicate n None) = length ts.
Proof. induction ts as [|t ts IH]; cbn; [by destruct n|by rewrite IH]. Qed.

(** Beginning inside a transaction goes one deeper, up to four; ending takes the innermost
    off; the others and the other callers stay. *)
Theorem txn_nesting_is_stack s pid ts t :
  caller_ok pid = true -> nested (s pid) ts ->
  (let '(rc, d, s') := wubu_txn_push s pid t in
   if Nat.ltb (length ts) WUBU_TXN_MAX_NESTING then rc = WUBU_TXN_OK /\ d = Some (length ts) /\ nested (s' pid) (ts ++ [t]) else rc = WUBU_TXN_ENESTED /\ s' = s) /\
  (let '(rc, s') := wubu_txn_pop s pid in rc = WUBU_TXN_OK /\ nested (s' pid) (removelast ts)) /\
  forall q, q <> pid -> (wubu_txn_push s pid t).2 q = s q /\ (wubu_txn_pop s pid).2 q = s q.
Proof.
  intros Hp [Hl Es]. unfold wubu_txn_push, wubu_txn_pop. rewrite Hp. cbn [negb]. 
  assert (used (s pid) = length ts) as Eu by (rewrite Es; apply used_nested). rewrite Eu. split; [|split].
  - destruct (Nat.ltb_spec (length ts) WUBU_TXN_MAX_NESTING) as [Hlt|Hge].
    + rewrite (proj2 (Nat.leb_gt WUBU_TXN_MAX_NESTING (length ts)) Hlt). split_and!; [done|done|]. unfold set_stack. rewrite Z.eqb_refl.
      split; [rewrite length_app; cbn; lia|]. rewrite Es. replace (length ts) with (length (Some <$> ts) + 0)%nat at 1 by (rewrite length_fmap; lia).
      rewrite insert_app_r, fmap_app, <- app_assoc, length_app. cbn [length]. f_equal. replace (WUBU_TXN_MAX_NESTING - length ts)%nat with (S (WUBU_TXN_MAX_NESTING - (length ts + 1))) by lia. done.
    + by rewrite (proj2 (Nat.leb_le WUBU_TXN_MAX_NESTING (length ts)) Hge).
  - split; [done|]. unfold set_stack. rewrite Z.eqb_refl, Es. destruct ts as [|t0 ts _] using rev_ind; [by split; [cbn; lia|]|].
    rewrite removelast_last. rewrite length_app in Hl. cbn [length] in Hl. split; [lia|].
    assert (used (drop 1 ((Some <$> ts ++ [t0]) ++ replicate (WUBU_TXN_MAX_NESTING - length (ts ++ [t0])) None)) = length ts) as ->.
    { destruct ts as [|a ts]; [done|]. change (drop 1 ((Some <$> (a :: ts) ++ [t0]) ++ ?r)) with ((Some <$> ts ++ [t0]) ++ r). rewrite used_nested, length_app. cbn. lia. }
    rewrite fmap_app, <- app_assoc. replace (length ts) with (length (Some <$> ts) + 0)%nat at 1 by (rewrite length_fmap; lia). rewrite insert_app_r. f_equal.
    rewrite length_app. cbn [length]. replace (WUBU_TXN_MAX_NESTING - length ts)%nat with (S (WUBU_TXN_MAX_NESTING - (length ts + 1))) by lia. done.
  - intros q Hq. unfold set_stack. rewrite <- (Z.eqb_neq q pid) in Hq. destruct (Nat.leb _ _); cbn; by rewrite ?Hq.
Qed.

Lemma txn_nesting_is_stack_witness : nested ((wubu_txn_push wubu_txn_init 3 8).2 3) [8%nat].
Proof.
  assert (nested (wubu_txn_init 3) []) as H0 by (split; [cbn; lia|reflexivity]).
  exact (proj2 (proj2 (proj1 (txn_nesting_is_stack wubu_txn_init 3 [] 8 eq_refl H0)))).
Defined.

(** ** Departures *)

(** The number of pids in scope is the size of the array: 0 is in every scope. *)
Lemma txn_pid_zero_is_always_in_scope :
  exists t n d, wubu_txn_begin 1 true true (one_disk []) [47] 0 None (Some [1; -1]) None = (Some t, n, d) /\ wubu_txn_is_external_peer t 0 = false.
Proof. eexists _, _, _. split; [reflexivity|]. vm_compute. reflexivity. Qed.

(** When the copy back fails, aborting reports success, the directory is empty and its
    snapshot deleted. *)
Lemma txn_failed_restore_loses_directory :
  let f := Disk (dirs (begun []).2) [true] in
  (wubu_txn_abort begun_txn f [47]).1.1 = WUBU_TXN_OK /\ dirs (wubu_txn_abort begun_txn f [47]).2 = {[path work_dir := []]}.
Proof. split; vm_compute; reflexivity. Qed.

(** The copy runs in the snapshot, so a relative name is looked up there: no checkpoint is
    taken. *)
Lemma txn_relative_directory_has_no_checkpoint :
  let f := Disk {[[47; 104; 47; 119] := [1; 2; 3]]} [] in
  (checkpoint_valid <$> (wubu_txn_begin 1 true true f [47; 104] 0 None None (Some [119])).1.1) = Some false.
Proof. vm_compute. reflexivity. Qed.

(** The current transaction of a caller is the outermost one. *)
Lemma txn_current_is_outermost :
  let s := (wubu_txn_push (wubu_txn_push wubu_txn_init 3 8).2 3 9).2 in wubu_txn_current s 3 = Some 8%nat.
Proof. reflexivity. Qed.
